(* ===== verification/_CoqProject ===== *)
-Q . S2P
Prelude.v
Io.v
Sgl.v
BlockIo.v
UsbSetup.v
XhciTrb.v
XhciRing.v
XhciIface.v
XhciHost.v
XhciEndp.v
XhciDesc.v
XhciConf.v
XhciScheme.v
ScsiCmd.v
UsbScsi.v
UsbDisk.v
UsbStack.v
Inputd.v
Ps2Controller.v
Ps2Keymap.v
Ps2State.v
VirtioQueue.v
NvmeQueue.v
NvmeReactor.v
NvmeIo.v
NetScheme.v
NetCard.v
NetRtl8168.v
NetE1000.v
PciAccess.v
PciConfig.v
PciServer.v
PciEnum.v
Ahci.v
AhciDisk.v
DiskScheme.v
AhciScheme.v
Ide.v
IdeDisk.v
NvmeScheme.v
NvmeInit.v
Acpi.v
AmlSerde.v
AcpiScheme.v
Hda.v
HdaDevice.v
UsbHid.v
UsbHidStack.v
Graphics.v
Console.v
Fbcon.v
VirtioBlk.v
VirtioDev.v
VirtioNet.v
