(* ===== verification/Prelude.v ===== *)
(** * A verification of the Redox OS drivers

    The repository holds user-space drivers of Redox OS: one daemon per device,
    each serving a file "scheme" to the rest of the system.  The development
    models the parts that carry the drivers' own logic and proves them correct,
    or proves what goes wrong where they are not.

    ** Parts of the system and where they are modelled

    - Common helpers.  [Io] is register access (common/src/io.rs), [Sgl] the
      scatter-gather list of common/src/sgl.rs, [BlockIo] the byte interface over
      block devices of storage/driver-block.
    - The USB host controller driver xhcid, from the bottom to the top.
      [UsbSetup]: control requests (usb/setup.rs).  [XhciTrb]: the transfer
      request blocks and their builders (xhci/trb.rs).  [XhciRing]: command,
      transfer and event rings (xhci/ring.rs, event.rs).  [XhciIface]: the data
      shared with the class drivers (driver_interface.rs), extended capabilities
      and protocol speeds (xhci/extended.rs, mod.rs), and the values programmed
      into endpoint contexts (scheme.rs).  [XhciHost]: the shared state [Xhci],
      the IRQ reactor (irq_reactor.rs), commands and control transfers.
      [XhciEndp]: bulk and interrupt transfers, the endpoint files and the client
      handle on them.  [XhciDesc]: descriptors and the description of a device
      (usb/*.rs, [get_desc] of scheme.rs, the [fetch_*] methods of mod.rs).
      [XhciConf]: device contexts, the configuration of endpoints, attaching,
      addressing and detaching devices (xhci/context.rs, mod.rs, scheme.rs,
      device_enumerator.rs).  [XhciScheme]: the files the driver serves, their
      paths and handles, and the device requests of class drivers over them
      (scheme.rs, driver_interface.rs).
    - The USB mass storage driver usbscsid.  [ScsiCmd]: command blocks and
      answers (scsi/cmds.rs, opcodes.rs).  [UsbScsi]: bulk-only transport, the SCSI
      layer, the disk scheme and the start of the daemon (protocol/*.rs,
      scsi/mod.rs, scheme.rs, main.rs), over the client library of xhcid.
      [UsbDisk]: a device that follows the bulk-only protocol, and what the driver
      does with it over any client library that moves the bytes.  [UsbStack]: that
      xhcid's is one, for transfers of at most 64 KiB, down to the transfer rings and a
      controller that follows the xHCI rules.
    - The input path.  [Ps2Controller], [Ps2Keymap] and [Ps2State] are ps2d
      (controller.rs, keymap.rs, state.rs, vm.rs, the loop of main.rs);
      [Inputd] is the multiplexer inputd with the client handles of its library;
      [UsbHid] is usbhidd, the driver of USB keyboards and mice, and [UsbHidStack] its
      interrupt endpoint over xhcid.
    - Virtio.  [VirtioQueue] is the split virtqueue of virtio-core, [VirtioDev] the
      transport and the probing of devices (transport.rs, probe.rs, spec);
      [VirtioBlk] and [VirtioNet] are virtio-blkd and virtio-netd on top of them.
    - NVMe.  [NvmeQueue] (commands and queues), [NvmeReactor] (futures and the
      completion reactor), [NvmeIo] (reads and writes of a namespace),
      [NvmeScheme] (the files of nvmed, scheme.rs) and [NvmeInit] (the start of the
      controller, its queues and the identify commands: nvme/mod.rs, identify.rs); admin
      commands take the same path as reads and writes, on queue 0.
    - SATA and IDE.  [Ahci] is a port of an AHCI controller with its command list
      and tables (ahci/hba.rs, fis.rs), [AhciDisk] the disks and CD drives behind it
      (disk_ata.rs, disk_atapi.rs), [DiskScheme] the disk scheme with partitions
      and locks (storage/ahcid/src/scheme.rs), [AhciScheme] the controller as a
      whole.  [Ide] is ided (ide.rs, the probing of main.rs), [IdeDisk] a channel
      with a drive after the ATA specification and what the driver does with it.
    - Network.  [NetScheme] is the scheme all network drivers share
      (net/driver-network), [NetCard] the receive ring as a queue, [NetRtl8168] and
      [NetE1000] are rtl8168d and e1000d (device.rs of each).
    - PCI.  [PciAccess] is the configuration space through memory windows and
      ports (pcid/src/cfg_access), [PciConfig] matching and the data given to
      drivers (config.rs, driver_interface), [PciServer] the conversation with a
      driver (driver_handler.rs, driver_interface/mod.rs), [PciEnum] the enumeration
      of the buses (main.rs).
    - ACPI.  [Acpi] are the tables and the remapping table (acpid/src/acpi.rs,
      acpi/dmar/mod.rs, the root table of main.rs), [AmlSerde] the symbols as
      amlserde converts them, [AcpiScheme] the context, the page cache
      (aml_physmem.rs) and the files (scheme.rs).
    - Audio.  [Hda] is the command interface of ihdad (hda/cmdbuff.rs), [HdaDevice]
      the streams, the widget graph and the scheme (stream.rs, node.rs, common.rs,
      device.rs).
    - Graphics.  [Graphics] is the display scheme (graphics/driver-graphics), its
      client side (graphics-ipc) and vesad; [Console] the drawing of text consoles
      (console-draw) and the terminals of fbcond (text.rs, display.rs); [Fbcon] the
      scheme of fbcond (scheme.rs, main.rs) and the system of both daemons.

    Components meet in interfaces: the drivers' hardware is always a class
    ([PortBus], [Io] with laws such as [IdeLaws] and [HdaLaws], [Controller],
    [NvmeController], [CfgRouting], [PhysLaws], a device step of the virtqueue),
    and so is the code of other packages (JSON, orbclient, the plain crate), with
    the laws the code relies on as separate classes and an instance that
    satisfies them.  [XhciEndp] runs its transfers through the rings, TRBs and
    reactor of the files below it; [NvmeIo] runs its transfers through
    [NvmeReactor] and [NvmeQueue]; [BlockIo] reads from any [Disk], [DiskScheme]
    serves any [SchemeDisk], and [NetScheme] any adapter with [AdapterLaws], which
    the card drivers prove of theirs.  The client of a USB class driver is [UsbClient]; what
    class drivers need of it ([UsbDevice], [HidDevice]) is proved of xhcid in [UsbStack] and
    [UsbHidStack].

    ** Conventions

    Operations are programs of the monad [prog S E A] of this file: a state [S],
    and a result that is a value, an error or a panic ([unwrap] of [None],
    indexing out of range, a failed assertion).  Integers are [Z], with [as_u8] to
    [as_usize] for casts; arithmetic wraps at its width, as in the release
    profile, and debug assertions are absent.  Maps are [gmap], vectors are lists
    with [!!] and an explicit panic out of range.  Code that mutates a shared
    object keeps the sharing: the message cells of futures, the rings in the
    port map, the write guard of a port and the lock of the port registers are
    parts of the state.

    ** Loops and fuel

    Loops whose bound is in the code carry that bound: the polling loops of
    [Ps2Controller], the 256 packets of [vmmouse_loop].  The others have fuel,
    and a theorem says how much is enough, or that none is: two passes for
    [next_index] (none for a ring that is one link TRB), the table's length for
    [recycle], the number of bytes for [block_read_loop] and [parse_all] (none at
    a descriptor of length 0) and of mode pages, one per 64 KiB and one more for the TRBs of a
    transfer ([td_fuel]), the number of descriptors for [interfaces_loop], the
    dwords of the register space for [ext_caps_iter], two polls for a command
    that is answered ([NvmeIo]), the completions in the queue for [cq_loop], the
    patience the controller laws state for the waits of [Ahci], [Hda] and
    [NvmeInit], one nanosecond more than the time limit for those of [Ide], 257
    passes for the bus enumeration, one pass per four pages for [load_loop], the
    number of widgets for [find_path_to_dac] (none on a cycle).
    Running out of fuel is [None] or the fault [Waits], never a normal result.

    ** What the theorems show

    - Data structures: the producer ring refines a FIFO queue and its addresses
      round-trip; descriptors of a virtqueue have one owner in every
      interleaving; the NVMe completion queue with phase tags is a FIFO; builders
      and accessors of TRBs and commands agree; scatter-gather lists tile their
      buffer.
    - Concurrency: events reach the future that waits for them ([XhciHost]),
      completions reach their own task and none is lost ([NvmeReactor]) as long
      as command ids are not reused.
    - End to end: a class driver's read returns what the controller transferred
      ([XhciEndp]); reads and writes of a namespace are the bytes of the disk
      ([NvmeIo], [NvmeScheme], [BlockIo]); so are those of SATA, IDE and virtio disks and
      of their partitions ([AhciDisk], [IdeDisk], [DiskScheme], [VirtioBlk]), within the
      limits the theorems name: a controller that keeps a command issued to a stopped port
      ([AhciDeferred]), writes of IDE disks by the bus master, virtio disks with blocks of
      512 bytes; so are reads of a USB disk of at most 64 KiB ([UsbStack]), and a device
      request of a class driver reaches the device and its answer the driver
      ([XhciScheme]); the periodic endpoints of a USB 2 device get the contexts and rings they
      describe before the controller and the device are told ([XhciConf]); the start of nvmed
      finds the namespaces and creates the queues ([NvmeInit]); key presses and mouse packets become exactly the
      events they mean ([Ps2State]), and what producers write is what the
      consumers of the active terminal read ([Inputd]); the bytes of a
      configuration become its description ([XhciDesc]); packets pass the network
      cards in order, whole and once ([NetRtl8168], [NetE1000], [NetScheme]);
      a sequence of accesses to the configuration space is one of the registers addressed
      ([PciAccess]), the enumeration visits every bus once and starts the drivers
      that match ([PciEnum], [PciConfig]); a table of the firmware is what a reader
      of the acpi scheme gets ([AcpiScheme]); from the initialisation on codec commands get
      their own answers, if the rings have the sizes the driver assumes,
      and the blocks of a stream are played in order ([Hda], [HdaDevice]); the
      displays show what the consoles of the active terminal draw ([Fbcon]); the
      reports of a HID device become the events they mean ([UsbHid]).
    - Safety: no input makes ps2d or (once a terminal is active, and without messages about
      memory mappings) inputd panic; the
      8042 handshake is obeyed in a bounded number of accesses; open disk handles
      never overlap ([DiskScheme]); over a driver's conversation with pcid, whose requests
      get their own answers, MSI and MSI-X are never both enabled ([PciServer]).
    - Refinement and equivalence: the producer ring is a queue, the bulk-only
      transport is a call of the SCSI target, the notification loop of the NVMe
      reactor is a filter; the paths of xhcid's handles parse back.
    - Where the code fails, the failing case is a theorem of its own: reused NVMe
      command ids, lost virtqueue completions, packets
      lost between two reads of virtio-netd, stale command TRBs, an endpoint
      that stays wedged after an error, a failed configuration that counts as
      done, request handles that panic after an error, writes of USB disks in the
      wrong byte order, virtio disks with other block sizes, block addresses cut at 24 bits, a write that leaves its
      partition, a CD read past its buffer, a remapping table without end, a bridge
      that is scanned for ever, a response ring of the wrong size, an area clipped to its outer part, requests that re-enter a locked map, a description that
      never returns, a parse loop without end.

    ** Not modelled

    Opening files, mapping memory, daemonising, logging and command lines are
    system calls without logic of their own.  The register blocks of the
    controllers are parameters.  The AML interpreter, the parser of partition
    tables, JSON and RON are libraries.  Not modelled yet: the other
    graphics drivers, the remaining network (alxd, ixgbed, rtl8139d)
    and audio cards, the SD host of the Raspberry Pi, and usbhubd; they
    are register drivers of the kinds above. *)

From stdpp Require Export base tactics numbers list gmap strings sorting pretty.
From Stdlib Require Export ZArith Lia.
From Stdlib Require Import Ascii.

Declare Scope drv_scope.
Delimit Scope drv_scope with drv.
#[global] Open Scope Z_scope.

(** ** Automation *)

(** [bits]: rewriting of bit fields; [range]: width bounds of integer
    expressions; [keeps]: programs that maintain a state invariant. *)
Create Rewrite HintDb bits.
Create HintDb range.
Create HintDb keeps.

(** Closes an arithmetic side condition about powers of two with constant
    exponents. *)
Ltac zpow := cbn [Z.pow Z.pow_pos Pos.iter Z.mul Pos.mul Z.add Z.sub] in *; lia.

(** Linear arithmetic with division and remainder by constants. *)
Ltac zdiv := Z.to_euclidean_division_equations; lia.

(** Case analysis on every boolean comparison, decision or option that blocks
    the goal. *)
Ltac split_ifs :=
  repeat match goal with
         | |- context [if ?b then _ else _] => destruct b eqn:?
         | H : context [if ?b then _ else _] |- _ => destruct b eqn:?
         end.

(** ** Machine integers

    A [w]-bit unsigned value is a [Z] in [0, 2^w); a cast wraps.  Signed casts
    are the two's-complement reading. *)

Definition u_range (w x : Z) : Prop := 0 <= x < 2 ^ w.

Definition as_u (w x : Z) : Z := x mod 2 ^ w.

Definition as_u8 : Z → Z := as_u 8.

Definition as_u16 : Z → Z := as_u 16.

Definition as_u32 : Z → Z := as_u 32.

Definition as_u64 : Z → Z := as_u 64.

Definition as_i (w x : Z) : Z := (x + 2 ^ (w - 1)) mod 2 ^ w - 2 ^ (w - 1).

Definition as_i8 : Z → Z := as_i 8.

Definition as_i32 : Z → Z := as_i 32.

Definition as_i64 : Z → Z := as_i 64.

(** [usize] is 64 bits wide on the modelled target (x86_64). *)
Definition as_usize : Z → Z := as_u 64.

(** The bit field of [n] bits that starts at bit [s]. *)
Definition field (s n x : Z) : Z := Z.land (Z.shiftr x s) (Z.ones n).

(** Rust's [bool as u32]. *)
Definition of_bool (b : bool) : Z := if b then 1 else 0.

(** [next_power_of_two] of the standard library, for positive arguments. *)
Definition next_power_of_two (x : Z) : Z := 2 ^ Z.log2_up x.

(** [next_multiple_of]. *)
Definition next_multiple_of (x k : Z) : Z :=
  if x mod k =? 0 then x else x + (k - x mod k).

Lemma u_range_as_u (w x : Z) : 0 <= w → u_range w (as_u w x).
Proof. intros Hw. apply Z.mod_pos_bound. by apply Z.pow_pos_nonneg. Qed.

Lemma as_u_id (w x : Z) : u_range w x → as_u w x = x.
Proof. intros H. by apply Z.mod_small. Qed.

Lemma as_i_id (w x : Z) :
  0 < w → - 2 ^ (w - 1) <= x < 2 ^ (w - 1) → as_i w x = x.
Proof.
  intros Hw Hx. unfold as_i.
  assert (2 ^ w = 2 * 2 ^ (w - 1)).
  { rewrite <- Z.pow_succ_r by lia. f_equal. lia. }
  rewrite Z.mod_small; lia.
Qed.

Lemma u_range_mono (w w' x : Z) : w <= w' → u_range w x → u_range w' x.
Proof.
  unfold u_range. intros Hw Hx. pose proof (Z.pow_le_mono_r 2 w w'). lia.
Qed.

Lemma testbit_above (w x i : Z) : u_range w x → w <= i → Z.testbit x i = false.
Proof.
  intros [H0 H1] Hi.
  destruct (decide (0 <= w)) as [Hw|Hw].
  - rewrite <- (Z.mod_small x (2 ^ w)) by lia. by apply Z.mod_pow2_bits_high.
  - rewrite Z.pow_neg_r in H1; lia.
Qed.

Lemma u_range_bits (w x : Z) :
  0 <= w → 0 <= x → (∀ i, w <= i → Z.testbit x i = false) → u_range w x.
Proof.
  intros Hw Hx Hb. split; [done|].
  assert (x = x mod 2 ^ w) as ->; [|by apply Z.mod_pos_bound, Z.pow_pos_nonneg].
  apply Z.bits_inj'. intros i Hi.
  destruct (decide (w <= i)).
  - rewrite Z.mod_pow2_bits_high by lia. by apply Hb.
  - by rewrite Z.mod_pow2_bits_low by lia.
Qed.

Lemma u_range_lor (w a b : Z) : u_range w a → u_range w b → u_range w (Z.lor a b).
Proof.
  intros Ha Hb.
  destruct (decide (0 <= w)) as [Hw|Hw].
  - apply u_range_bits; [done|apply Z.lor_nonneg; unfold u_range in *; lia|].
    intros i Hi. by rewrite Z.lor_spec, !(testbit_above w).
  - unfold u_range in Ha. rewrite Z.pow_neg_r in Ha; lia.
Qed.

Lemma u_range_land_r (w a b : Z) : 0 <= b < 2 ^ w → u_range w (Z.land a b).
Proof.
  intros Hb. destruct (decide (0 <= w)) as [Hw|Hw].
  - apply u_range_bits; [done|apply Z.land_nonneg; lia|].
    intros i Hi. by rewrite Z.land_spec, (testbit_above w b), andb_false_r.
  - rewrite Z.pow_neg_r in Hb; lia.
Qed.

Lemma u_range_shiftl (w n k a : Z) :
  0 <= k → 0 <= n → k + n <= w → u_range n a → u_range w (Z.shiftl a k).
Proof.
  unfold u_range. intros Hk Hn Hw [Ha0 Ha]. rewrite Z.shiftl_mul_pow2 by done.
  assert (2 ^ (k + n) <= 2 ^ w) by (apply Z.pow_le_mono_r; lia).
  rewrite Z.pow_add_r in H by lia.
  assert (0 < 2 ^ k) by (by apply Z.pow_pos_nonneg). nia.
Qed.

Lemma u_range_of_bool (w : Z) (b : bool) : 0 < w → u_range w (of_bool b).
Proof.
  intros Hw. unfold u_range.
  assert (2 ^ 1 <= 2 ^ w) by (apply Z.pow_le_mono_r; lia).
  destruct b; simpl; lia.
Qed.

#[export] Hint Resolve u_range_lor u_range_of_bool u_range_as_u : range.

(** ** Bit fields *)

Lemma field_alt (s n x : Z) : 0 <= s → 0 <= n → field s n x = (x / 2 ^ s) mod 2 ^ n.
Proof.
  intros. unfold field. by rewrite Z.land_ones, Z.shiftr_div_pow2 by done.
Qed.

Lemma field_range (s n x : Z) : 0 <= n → u_range n (field s n x).
Proof.
  intros Hn. unfold field. rewrite Z.land_ones by done.
  apply Z.mod_pos_bound. by apply Z.pow_pos_nonneg.
Qed.

Lemma field_lor (s n a b : Z) : field s n (Z.lor a b) = Z.lor (field s n a) (field s n b).
Proof. unfold field. by rewrite Z.shiftr_lor, Z.land_lor_distr_l. Qed.

Lemma field_shiftl_sub (s n k a : Z) :
  0 <= k → k <= s → field s n (Z.shiftl a k) = field (s - k) n a.
Proof.
  intros. unfold field. by rewrite Z.shiftr_shiftl_r by lia.
Qed.

Lemma field_shiftl_above (s n k a : Z) :
  0 <= s → 0 <= n → s + n <= k → field s n (Z.shiftl a k) = 0.
Proof.
  intros. unfold field. apply Z.bits_inj'. intros i Hi.
  rewrite Z.land_spec, Z.shiftr_spec, Z.testbit_0_l by lia.
  destruct (decide (i < n)).
  - by rewrite Z.shiftl_spec_low by lia.
  - by rewrite Z.ones_spec_high, andb_false_r by lia.
Qed.

Lemma field_small (s n a : Z) : 0 <= a < 2 ^ s → field s n a = 0.
Proof.
  intros [H0 H1]. unfold field. rewrite Z.shiftr_div_pow2.
  - by rewrite Z.div_small by lia.
  - destruct (decide (0 <= s)); [done|]. rewrite Z.pow_neg_r in H1; lia.
Qed.

Lemma field_0_small (n a : Z) : u_range n a → field 0 n a = a.
Proof.
  intros [H0 H1]. unfold field. rewrite Z.shiftr_0_r.
  destruct (decide (0 <= n)) as [Hn|Hn].
  - rewrite Z.land_ones by done. by apply Z.mod_small.
  - rewrite Z.pow_neg_r in H1; lia.
Qed.

Lemma field_of_bool_hi (s n : Z) (b : bool) : 1 <= s → field s n (of_bool b) = 0.
Proof. intros Hs. apply field_small, u_range_of_bool. lia. Qed.

Lemma field_of_bool (n : Z) (b : bool) : 1 <= n → field 0 n (of_bool b) = of_bool b.
Proof. intros Hn. apply field_0_small, u_range_of_bool. lia. Qed.

(** The source's two spellings of a field read. *)
Lemma field_of_mask (x m s n : Z) :
  0 <= s → 0 <= n → m = Z.shiftl (Z.ones n) s → Z.shiftr (Z.land x m) s = field s n x.
Proof.
  intros Hs Hn ->. unfold field. rewrite Z.shiftr_land.
  by rewrite Z.shiftr_shiftl_l, Z.sub_diag, Z.shiftl_0_r by lia.
Qed.

Lemma land_of_mask (x m s n : Z) :
  0 <= s → 0 <= n → m = Z.shiftl (Z.ones n) s → Z.land x m = Z.shiftl (field s n x) s.
Proof.
  intros Hs Hn ->. unfold field. apply Z.bits_inj'. intros i Hi.
  rewrite Z.land_spec. destruct (decide (i < s)).
  - by rewrite !Z.shiftl_spec_low, andb_false_r by lia.
  - rewrite !Z.shiftl_spec, Z.land_spec, Z.shiftr_spec by lia.
    by replace (i - s + s) with i by lia.
Qed.

Lemma field_of_cast (w s x : Z) : 0 <= w → as_u w (Z.shiftr x s) = field s w x.
Proof. intros Hw. unfold as_u, field. by rewrite Z.land_ones. Qed.

Lemma field_low_of_cast (w x : Z) : 0 <= w → as_u w x = field 0 w x.
Proof. intros Hw. unfold as_u, field. by rewrite Z.shiftr_0_r, Z.land_ones. Qed.

(** A cast that keeps the field keeps its value. *)
Lemma field_as_u (s n w x : Z) :
  0 <= s → 0 <= n → s + n <= w → field s n (as_u w x) = field s n x.
Proof.
  intros. unfold field, as_u. rewrite <- (Z.land_ones x w) by lia.
  apply Z.bits_inj'. intros i Hi.
  rewrite !Z.land_spec, !Z.shiftr_spec, Z.land_spec by lia.
  destruct (decide (i < n)).
  - by rewrite (Z.ones_spec_low w), andb_true_r by lia.
  - by rewrite !(Z.ones_spec_high n), !andb_false_r by lia.
Qed.

Lemma field_shiftl_eq (s n a : Z) : 0 <= s → field s n (Z.shiftl a s) = field 0 n a.
Proof. intros. rewrite field_shiftl_sub by lia. by rewrite Z.sub_diag. Qed.

(** A field that lies above every bit of a shifted value. *)
Lemma field_shiftl_past (s n k m a : Z) :
  0 <= k → 0 <= m → k + m <= s → u_range m a → field s n (Z.shiftl a k) = 0.
Proof. intros. apply field_small. eapply u_range_shiftl; eauto. Qed.

Lemma field_testbit (s n x i : Z) :
  0 <= s → 0 <= i < n → Z.testbit (field s n x) i = Z.testbit x (i + s).
Proof.
  intros. unfold field.
  rewrite Z.land_spec, Z.shiftr_spec, Z.ones_spec_low by lia. by rewrite andb_true_r.
Qed.

(** Two adjacent fields reassemble the value they were cut from. *)
Lemma field_join (x k n : Z) :
  0 <= k → 0 <= n → u_range (k + n) x →
  Z.lor (field 0 k x) (Z.shiftl (field k n x) k) = x.
Proof.
  intros Hk Hn Hx. apply Z.bits_inj'. intros i Hi.
  rewrite Z.lor_spec.
  destruct (decide (i < k)) as [Hik|Hik].
  - rewrite field_testbit, Z.add_0_r, Z.shiftl_spec_low by lia. by rewrite orb_false_r.
  - rewrite (testbit_above k (field 0 k x)) by (try apply field_range; lia).
    rewrite Z.shiftl_spec by lia. simpl.
    destruct (decide (i < k + n)).
    + rewrite field_testbit by lia. f_equal. lia.
    + rewrite (testbit_above n (field k n x)) by (try (by apply field_range); lia).
      rewrite (testbit_above (k + n) x); [done|done|lia].
Qed.

(** A low part below the shift distance adds without carry. *)
Lemma lor_shiftl_add (a b k : Z) :
  0 <= k → u_range k b → Z.lor (Z.shiftl a k) b = a * 2 ^ k + b.
Proof.
  intros Hk Hb. rewrite <- Z.shiftl_mul_pow2 by done.
  symmetry. apply Z.add_nocarry_lor. apply Z.bits_inj'. intros i Hi.
  rewrite Z.land_spec, Z.testbit_0_l. destruct (decide (i < k)).
  - by rewrite Z.shiftl_spec_low by lia.
  - by rewrite (testbit_above k b), andb_false_r by (done || lia).
Qed.

(** [readf] on a single-bit mask is a bit test. *)
Lemma land_pow2_eqb (x k : Z) :
  0 <= k → (Z.land x (2 ^ k) =? 2 ^ k) = Z.testbit x k.
Proof.
  intros Hk. destruct (Z.testbit x k) eqn:Hb.
  - apply Z.eqb_eq. apply Z.bits_inj'. intros i Hi.
    rewrite Z.land_spec. destruct (decide (i = k)) as [->|Hne].
    + by rewrite Z.pow2_bits_true, Hb.
    + by rewrite Z.pow2_bits_false, andb_false_r by lia.
  - apply Z.eqb_neq. intros Heq.
    assert (Z.testbit (Z.land x (2 ^ k)) k = Z.testbit (2 ^ k) k) as Ht by (by rewrite Heq).
    rewrite Z.land_spec, Hb, Z.pow2_bits_true in Ht by done. done.
Qed.

Lemma land_pow2_eqb_0 (x k : Z) :
  0 <= k → (Z.land x (2 ^ k) =? 0) = negb (Z.testbit x k).
Proof.
  intros Hk. destruct (Z.testbit x k) eqn:Hb; simpl.
  - pose proof (land_pow2_eqb x k Hk) as E. rewrite Hb in E. apply Z.eqb_eq in E. rewrite E.
    apply Z.eqb_neq. pose proof (Z.pow_pos_nonneg 2 k). lia.
  - apply Z.eqb_eq, Z.bits_inj'. intros i Hi. rewrite Z.land_spec, Z.testbit_0_l.
    destruct (decide (i = k)) as [->|Hne]; [by rewrite Hb|].
    by rewrite Z.pow2_bits_false, andb_false_r by lia.
Qed.

#[export] Hint Rewrite field_lor : bits.
#[export] Hint Rewrite field_as_u field_shiftl_eq field_shiftl_above field_shiftl_sub
  field_of_bool_hi field_of_bool using lia : bits.
#[export] Hint Rewrite Z.lor_0_l Z.lor_0_r Z.land_0_l Z.land_0_r : bits.

(** ** Results and stateful programs

    [Ok] and [Err] are Rust's [Result]; [Panic] is an unwinding panic (failed
    [assert!], [unwrap] of [None], out-of-range index). *)

Inductive res (E A : Type) : Type :=
| Ok (a : A)
| Err (e : E)
| Panic.
Arguments Ok {E A} a.
Arguments Err {E A} e.
Arguments Panic {E A}.

#[global] Instance res_eq_dec (E A : Type) `{EqDecision E, EqDecision A} :
  EqDecision (res E A).
Proof. solve_decision. Defined.

(** The error codes the modelled code names; [EOther] is a code handed up from a
    system call. *)
Inductive errno : Type :=
| EINVAL | EOVERFLOW | ESTALE | EOPNOTSUPP | EBADF | ENOENT | EIO | EACCES | ENOSYS | EWOULDBLOCK | EINTR
| EISDIR | ENOLCK | EBADFD | EBADMSG | ENOTDIR | EPROTO | ESPIPE | EAGAIN | EPERM | ENOMEM | ENXIO
| ENODEV | EBUSY | ENOSPC | ETIMEDOUT | EOther (code : Z).

#[global] Instance errno_eq_dec : EqDecision errno.
Proof. solve_decision. Defined.

(** A method with a [&mut] receiver: it threads the state and returns a result;
    the state keeps what was done before an error or a panic. *)
Definition prog (S E A : Type) : Type := S → res E A * S.

Definition p_ret {S E A : Type} (a : A) : prog S E A := λ s, (Ok a, s).

Definition p_bind {S E A B : Type} (f : A → prog S E B) (m : prog S E A) : prog S E B :=
  λ s, match m s with
       | (Ok a, s') => f a s'
       | (Err e, s') => (Err e, s')
       | (Panic, s') => (Panic, s')
       end.

#[global] Instance prog_ret (S E : Type) : MRet (prog S E) := λ A a, p_ret a.

#[global] Instance prog_bind (S E : Type) : MBind (prog S E) := λ A B f m, p_bind f m.

Definition throw {S E A : Type} (e : E) : prog S E A := λ s, (Err e, s).

Definition panic {S E A : Type} : prog S E A := λ s, (Panic, s).

Definition gets {S E A : Type} (f : S → A) : prog S E A := λ s, (Ok (f s), s).

Definition modify {S E : Type} (f : S → S) : prog S E unit := λ s, (Ok tt, f s).

(** [ok_or(e)?] *)
Definition ok_or {S E A : Type} (o : option A) (e : E) : prog S E A :=
  match o with Some a => p_ret a | None => throw e end.

(** [unwrap()] of an option, and indexing. *)
Definition unwrap {S E A : Type} (o : option A) : prog S E A :=
  match o with Some a => p_ret a | None => panic end.

(** Runs [m] and hands its [Result] to the continuation; a panic still
    propagates. *)
Definition attempt {S E A : Type} (m : prog S E A) : prog S E (E + A) :=
  λ s, match m s with
       | (Ok a, s') => (Ok (inr a), s')
       | (Err e, s') => (Ok (inl e), s')
       | (Panic, s') => (Panic, s')
       end.

(** [m] maintains the state predicate [I], whatever its result. *)
Definition keeps {S E A : Type} (I : S → Prop) (m : prog S E A) : Prop :=
  ∀ s, I s → I (m s).2.

Section keeps.
Context {S E : Type} (I : S → Prop).

Lemma keeps_ret {A : Type} (a : A) : keeps I (p_ret (E := E) a).
Proof. by intros s Hs. Qed.

Lemma keeps_throw {A : Type} (e : E) : keeps I (throw (A := A) e).
Proof. by intros s Hs. Qed.

Lemma keeps_panic {A : Type} : keeps I (panic (E := E) (A := A)).
Proof. by intros s Hs. Qed.

Lemma keeps_gets {A : Type} (f : S → A) : keeps I (gets (E := E) f).
Proof. by intros s Hs. Qed.

Lemma keeps_ok_or {A : Type} (o : option A) (e : E) : keeps I (ok_or o e).
Proof. destruct o; by intros s Hs. Qed.

Lemma keeps_unwrap {A : Type} (o : option A) : keeps I (unwrap (E := E) o).
Proof. destruct o; by intros s Hs. Qed.

Lemma keeps_modify (f : S → S) : (∀ s, I s → I (f s)) → keeps I (modify (E := E) f).
Proof. intros Hf s Hs. by apply Hf. Qed.

Lemma keeps_bind {A B : Type} (m : prog S E A) (f : A → prog S E B) :
  keeps I m → (∀ a, keeps I (f a)) → keeps I (p_bind f m).
Proof.
  intros Hm Hf s Hs. specialize (Hm s Hs). unfold p_bind.
  destruct (m s) as [[a|e|] s']; simpl in *; try done. by apply Hf.
Qed.

Lemma keeps_attempt {A : Type} (m : prog S E A) : keeps I m → keeps I (attempt m).
Proof.
  intros Hm s Hs. specialize (Hm s Hs). unfold attempt.
  by destruct (m s) as [[a|e|] s'].
Qed.

Lemma keeps_if {A : Type} (b : bool) (m n : prog S E A) :
  keeps I m → keeps I n → keeps I (if b then m else n).
Proof. by destruct b. Qed.
End keeps.

#[export] Hint Resolve keeps_ret keeps_throw keeps_panic keeps_gets keeps_ok_or
  keeps_unwrap keeps_bind keeps_attempt keeps_if : keeps.

(** Equations of [p_bind], used to run a program symbolically. *)
Lemma bind_Ok {S E A B : Type} (m : prog S E A) (f : A → prog S E B) s a s' :
  m s = (Ok a, s') → p_bind f m s = f a s'.
Proof. unfold p_bind. by intros ->. Qed.

Lemma bind_Err {S E A B : Type} (m : prog S E A) (f : A → prog S E B) s e s' :
  m s = (Err e, s') → p_bind f m s = (Err e, s').
Proof. unfold p_bind. by intros ->. Qed.

Lemma bind_inv_Ok {S E A B : Type} (m : prog S E A) (f : A → prog S E B) s b s2 :
  p_bind f m s = (Ok b, s2) → ∃ a s1, m s = (Ok a, s1) ∧ f a s1 = (Ok b, s2).
Proof. unfold p_bind. destruct (m s) as [[a|e|] s1]; naive_solver. Qed.

(** ** Byte buffers *)

(** Little-endian bytes of a machine integer, and back. *)
Fixpoint le_bytes (n : nat) (x : Z) : list Z :=
  match n with
  | O => []
  | S n => x mod 256 :: le_bytes n (x / 256)
  end.

Fixpoint le_val (bs : list Z) : Z :=
  match bs with
  | [] => 0
  | b :: bs => b + 256 * le_val bs
  end.

(** [&l[off .. off + n]], which the callers keep in range. *)
Definition slice {A : Type} (off n : nat) (l : list A) : list A := take n (drop off l).

Lemma length_le_bytes (n : nat) (x : Z) : length (le_bytes n x) = n.
Proof. revert x. induction n as [|n IH]; intros x; simpl; [done|]. by rewrite IH. Qed.

Lemma le_val_bytes (n : nat) (x : Z) :
  u_range (8 * Z.of_nat n) x → le_val (le_bytes n x) = x.
Proof.
  revert x. induction n as [|n IH]; intros x Hx; simpl.
  - unfold u_range in Hx. simpl in Hx. lia.
  - rewrite IH; [zdiv|]. unfold u_range in *.
    replace (8 * Z.of_nat (S n)) with (8 + 8 * Z.of_nat n) in Hx by lia.
    rewrite Z.pow_add_r in Hx by lia. change (2 ^ 8) with 256 in Hx.
    split; [apply Z.div_pos; lia|]. apply Z.div_lt_upper_bound; lia.
Qed.

(** Big-endian bytes, and [to_be]: the machine integer whose memory image on the
    little-endian target is the big-endian image of [x]. *)
Definition be_bytes (n : nat) (x : Z) : list Z := rev (le_bytes n x).

Definition be_val (bs : list Z) : Z := le_val (rev bs).

Definition to_be (n : nat) (x : Z) : Z := le_val (be_bytes n x).

Definition is_byte (b : Z) : Prop := 0 <= b < 256.

Lemma le_bytes_range (n : nat) (x : Z) : Forall is_byte (le_bytes n x).
Proof.
  revert x. induction n as [|n IH]; intros x; simpl; constructor; [|done].
  unfold is_byte. zdiv.
Qed.

Lemma le_bytes_val (bs : list Z) : Forall is_byte bs → le_bytes (length bs) (le_val bs) = bs.
Proof.
  induction 1 as [|b bs Hb _ IH]; [done|]. cbn [length le_bytes le_val]. unfold is_byte in Hb.
  f_equal; [zdiv|]. replace ((b + 256 * le_val bs) / 256) with (le_val bs) by zdiv. exact IH.
Qed.

Lemma length_be_bytes (n : nat) (x : Z) : length (be_bytes n x) = n.
Proof. unfold be_bytes. by rewrite length_rev, length_le_bytes. Qed.

Lemma be_val_bytes (n : nat) (x : Z) : u_range (8 * Z.of_nat n) x → be_val (be_bytes n x) = x.
Proof. intros H. unfold be_val, be_bytes. rewrite rev_involutive. by apply le_val_bytes. Qed.

Lemma be_bytes_range (n : nat) (x : Z) : Forall is_byte (be_bytes n x).
Proof. unfold be_bytes. apply Forall_rev, le_bytes_range. Qed.

Lemma le_bytes_to_be (n : nat) (x : Z) : le_bytes n (to_be n x) = be_bytes n x.
Proof.
  unfold to_be. rewrite <- (length_be_bytes n x) at 1. apply le_bytes_val, be_bytes_range.
Qed.

Lemma le_val_range (bs : list Z) : Forall is_byte bs → u_range (8 * Z.of_nat (length bs)) (le_val bs).
Proof.
  induction 1 as [|b bs Hb _ IH]; [done|]. cbn [length le_val]. unfold u_range, is_byte in *.
  replace (8 * Z.of_nat (S (length bs))) with (8 + 8 * Z.of_nat (length bs)) by lia.
  rewrite Z.pow_add_r by lia. change (2 ^ 8) with 256. lia.
Qed.

Lemma be_val_range (bs : list Z) : Forall is_byte bs → u_range (8 * Z.of_nat (length bs)) (be_val bs).
Proof. intros H. unfold be_val. rewrite <- length_rev. by apply le_val_range, Forall_rev. Qed.

Lemma length_slice {A : Type} (off n : nat) (l : list A) :
  (off + n <= length l)%nat → length (slice off n l) = n.
Proof. intros H. unfold slice. rewrite length_take, length_drop. lia. Qed.

Lemma slice_app {A : Type} (off n m : nat) (l : list A) :
  slice off n l ++ slice (off + n) m l = slice off (n + m) l.
Proof.
  unfold slice. by rewrite <- drop_drop, take_take_drop.
Qed.

Lemma slice_0 {A : Type} (off : nat) (l : list A) : slice off 0 l = [].
Proof. done. Qed.

(** A slice of a slice that stays inside it. *)
Lemma slice_slice {A : Type} (o1 n1 o2 n2 : nat) (l : list A) :
  (o2 + n2 <= n1)%nat → slice o2 n2 (slice o1 n1 l) = slice (o1 + o2) n2 l.
Proof.
  intros H. unfold slice. rewrite skipn_firstn_comm, take_take, drop_drop.
  f_equal. lia.
Qed.

Lemma slice_lookup {A : Type} (off n i : nat) (l : list A) :
  (i < n)%nat → slice off n l !! i = l !! (off + i)%nat.
Proof. intros H. unfold slice. by rewrite lookup_take_lt, lookup_drop. Qed.

Lemma slice_cons {A : Type} (off n : nat) (l : list A) (x : A) :
  l !! off = Some x → slice off (S n) l = x :: slice (S off) n l.
Proof. intros H. unfold slice. by erewrite drop_S. Qed.

Lemma slice_snoc {A : Type} (off n : nat) (l : list A) (x : A) :
  l !! (off + n)%nat = Some x → slice off (S n) l = slice off n l ++ [x].
Proof.
  intros H. unfold slice. apply take_S_r. by rewrite lookup_drop.
Qed.

Lemma slice_insert_out {A : Type} (off n j : nat) (l : list A) (x : A) :
  (j < off ∨ off + n <= j)%nat → slice off n (<[j := x]> l) = slice off n l.
Proof.
  intros [H|H]; unfold slice.
  - by rewrite drop_insert_lt.
  - destruct (decide (off <= j)%nat).
    + rewrite drop_insert_ge by lia. by rewrite take_insert_ge by lia.
    + lia.
Qed.

(** The bytes of [l] with [data] put at [off]. *)
Definition splice (off : nat) (data l : list Z) : list Z :=
  take off l ++ data ++ drop (off + length data) l.

Lemma length_splice (off : nat) (data l : list Z) :
  (off + length data <= length l)%nat → length (splice off data l) = length l.
Proof. intros Hl. unfold splice. rewrite !length_app, length_take, length_drop. lia. Qed.

Lemma splice_splice (off : nat) (a b l : list Z) :
  (off + length a + length b <= length l)%nat →
  splice (off + length a) b (splice off a l) = splice off (a ++ b) l.
Proof.
  intros Hl. unfold splice. rewrite (app_assoc (take off l) a).
  assert (length (take off l ++ a) = off + length a)%nat as Hlen by (rewrite length_app, length_take; lia).
  rewrite take_app_length' by done.
  rewrite drop_app_ge by lia. rewrite Hlen, drop_drop, !length_app.
  rewrite <- !app_assoc. do 4 f_equal. lia.
Qed.

Lemma slice_splice (off : nat) (data l : list Z) :
  (off + length data <= length l)%nat → slice off (length data) (splice off data l) = data.
Proof.
  intros Hl. unfold slice, splice. rewrite drop_app_length' by (rewrite length_take; lia). by rewrite take_app_length.
Qed.

(** A splice of a part is one of the whole that repeats the rest. *)
Lemma splice_extend off (a : list Z) n l :
  (off + length a + n <= length l)%nat → splice off a l = splice off (a ++ slice (off + length a) n l) l.
Proof.
  intros Hl. unfold splice, slice. rewrite <- app_assoc. do 2 f_equal.
  rewrite length_app, length_take, length_drop. replace (n `min` (length l - (off + length a)))%nat with n by lia.
  rewrite <- (take_drop n (drop (off + length a) l)) at 1. rewrite drop_drop. do 2 f_equal. lia.
Qed.

Lemma splice_nil (off : nat) (l : list Z) : splice off [] l = l.
Proof. unfold splice. cbn. rewrite Nat.add_0_r. by rewrite take_drop. Qed.

(** ** Text *)

(** The bytes of an ASCII string. *)
Definition string_bytes (s : string) : list Z :=
  (λ c, Z.of_nat (Ascii.nat_of_ascii c)) <$> String.list_ascii_of_string s.

Definition digit (c : Ascii.ascii) : option Z :=
  let n := Z.of_nat (Ascii.nat_of_ascii c) in
  if (48 <=? n) && (n <=? 57) then Some (n - 48) else None.

Fixpoint parse_digits (bound acc : Z) (p : string) : option Z :=
  match p with
  | EmptyString => Some acc
  | String c p =>
      match digit c with
      | Some d => let v := acc * 10 + d in
                  if v <? bound then parse_digits bound v p else None
      | None => None
      end
  end.

(** [p.parse().ok()] for an unsigned type of values below [bound]: an optional [+], then at
    least one digit. *)
Definition parse_uint (bound : Z) (p : string) : option Z :=
  match p with
  | EmptyString => None
  | String c EmptyString => parse_digits bound 0 p
  | String c p' => if decide (c = "+"%char) then parse_digits bound 0 p' else parse_digits bound 0 p
  end.

Lemma digit_pretty (n : N) : (n < 10)%N → digit (pretty_N_char n) = Some (Z.of_N n).
Proof.
  intros Hn. assert (n = 0 ∨ n = 1 ∨ n = 2 ∨ n = 3 ∨ n = 4 ∨ n = 5 ∨ n = 6 ∨ n = 7 ∨ n = 8 ∨ n = 9)%N as H by lia.
  by destruct_or! H; subst n.
Qed.

Lemma parse_digits_pretty bound (n : N) s :
  Z.of_N n < bound → parse_digits bound 0 (pretty_N_go n s) = parse_digits bound (Z.of_N n) s.
Proof.
  revert s. induction (N.lt_wf_0 n) as [n _ IH]. intros s Hn. destruct (decide (n = 0%N)) as [->|Hne].
  - by rewrite pretty_N_go_0.
  - rewrite pretty_N_go_step by lia. rewrite IH; [|apply N.div_lt; lia|rewrite N2Z.inj_div; zdiv].
    cbn [parse_digits]. rewrite digit_pretty by (by apply N.mod_lt).
    assert (Z.of_N (n `div` 10) * 10 + Z.of_N (n `mod` 10) = Z.of_N n) as -> by (rewrite N2Z.inj_div, N2Z.inj_mod; zdiv).
    by rewrite (proj2 (Z.ltb_lt _ _)).
Qed.

Lemma parse_uint_digits bound s v : s ≠ "" → parse_digits bound 0 s = Some v → parse_uint bound s = Some v.
Proof.
  intros Hs Hv. destruct s as [|c s]; [done|]. unfold parse_uint. destruct s as [|c' s]; [done|].
  destruct (decide (c = "+"%char)) as [->|_]; done.
Qed.

(** A number that is printed is parsed back. *)
Lemma parse_uint_pretty bound n : 0 <= n < bound → parse_uint bound (pretty n) = Some n.
Proof.
  intros Hn. destruct n as [|p|p]; [|rename p into q|lia].
  - apply parse_uint_digits; [done|]. change (pretty 0) with "0". cbn [parse_digits]. change (digit "0") with (Some 0). cbv iota zeta.
    change (0 * 10 + 0) with 0. by rewrite (proj2 (Z.ltb_lt 0 bound)) by lia.
  - change (pretty (Z.pos q)) with (pretty (N.pos q)). pose proof (parse_digits_pretty bound (N.pos q) "") as H.
    unfold pretty, pretty_N. rewrite decide_False by done. apply parse_uint_digits.
    + intros E. specialize (H ltac:(lia)). rewrite E in H. cbn in H. discriminate H.
    + rewrite H by (cbn; lia). done.
Qed.

(** ** Weakest preconditions *)

(** The result and the final state of a program satisfy [Q]. *)
Definition wp {S E A : Type} (m : prog S E A) (Q : res E A → S → Prop) (s : S) : Prop := Q (m s).1 (m s).2.

Lemma wp_bind {S E A B : Type} (m : prog S E A) (f : A → prog S E B) Q s :
  wp m (λ r s', match r with Ok a => wp (f a) Q s' | Err e => Q (Err e) s' | Panic => Q Panic s' end) s →
  wp (p_bind f m) Q s.
Proof. unfold wp, p_bind. by destruct (m s) as [[a|e|] s']. Qed.

Lemma wp_mono {S E A : Type} (m : prog S E A) (P Q : res E A → S → Prop) s :
  wp m P s → (∀ r s', P r s' → Q r s') → wp m Q s.
Proof. unfold wp. auto. Qed.

(** The program returns. *)
Definition ok_then {S E A : Type} (Q : A → S → Prop) (r : res E A) (s : S) : Prop :=
  match r with Ok a => Q a s | _ => False end.

Lemma wp_seq {S E A B : Type} (m : prog S E A) (f : A → prog S E B) P Q s :
  wp m (ok_then P) s → (∀ a s', P a s' → wp (f a) Q s') → wp (p_bind f m) Q s.
Proof.
  intros Hm Hf. apply wp_bind. eapply wp_mono; [exact Hm|]. intros [a|e|] s' H; [by apply Hf|done..].
Qed.

Lemma wp_seq_mono {S E A : Type} (m : prog S E A) (P Q : A → S → Prop) s :
  wp m (ok_then P) s → (∀ a s', P a s' → Q a s') → wp m (ok_then Q) s.
Proof. intros Hm H. eapply wp_mono; [exact Hm|]. intros [a|e|] s' Hp; [by apply H|done..]. Qed.

Lemma wp_gets {S E A B : Type} (g : S → A) (f : A → prog S E B) Q s : wp (f (g s)) Q s → wp (p_bind f (gets g)) Q s.
Proof. done. Qed.

Lemma wp_modify {S E B : Type} (g : S → S) (f : unit → prog S E B) Q s : wp (f tt) Q (g s) → wp (p_bind f (modify g)) Q s.
Proof. done. Qed.

(** ** Panic freedom *)

(** From a state in [I], [m] does not panic and ends in [I]. *)
Definition safe {S E A : Type} (I : S → Prop) (m : prog S E A) : Prop :=
  ∀ s, I s → (m s).1 ≠ Panic ∧ I (m s).2.

Create HintDb safe.

Section safe.
Context {S E : Type} (I : S → Prop).

Lemma safe_ret {A : Type} (a : A) : safe I (p_ret (E := E) a).
Proof. by intros s Hs. Qed.

Lemma safe_throw {A : Type} (e : E) : safe I (throw (A := A) e).
Proof. by intros s Hs. Qed.

Lemma safe_gets {A : Type} (f : S → A) : safe I (gets (E := E) f).
Proof. by intros s Hs. Qed.

Lemma safe_ok_or {A : Type} (o : option A) (e : E) : safe I (ok_or o e).
Proof. destruct o; by intros s Hs. Qed.

Lemma safe_modify (f : S → S) : (∀ s, I s → I (f s)) → safe I (modify (E := E) f).
Proof. intros Hf s Hs. split; [done|]. by apply Hf. Qed.

Lemma safe_bind {A B : Type} (m : prog S E A) (f : A → prog S E B) :
  safe I m → (∀ a, safe I (f a)) → safe I (p_bind f m).
Proof.
  intros Hm Hf s Hs. destruct (Hm s Hs) as [Hp Hi]. unfold p_bind.
  destruct (m s) as [[a|e|] s']; simpl in *; try done. by apply Hf.
Qed.

Lemma safe_attempt {A : Type} (m : prog S E A) : safe I m → safe I (attempt m).
Proof.
  intros Hm s Hs. destruct (Hm s Hs) as [Hp Hi]. unfold attempt.
  by destruct (m s) as [[a|e|] s'].
Qed.

(** A program that never returns an error does return. *)
Lemma safe_total {A : Type} (m : prog S E A) s :
  safe I m → I s → (∀ e, (m s).1 ≠ Err e) → ∃ a s', m s = (Ok a, s') ∧ I s'.
Proof.
  intros Hm Hs He. destruct (Hm s Hs) as [Hp Hi].
  destruct (m s) as [[a|e|] s']; simpl in *; naive_solver.
Qed.
End safe.

#[export] Hint Resolve safe_ret safe_throw safe_gets safe_ok_or safe_bind safe_attempt : safe.

(** Walks a monadic program with the [safe] lemmas; leaves the calls it does not
    know. *)
Ltac safe_step :=
  first
    [ apply safe_ret | apply safe_throw | apply safe_gets | apply safe_ok_or
    | apply safe_attempt | apply safe_bind; [|intros ?]
    | match goal with
      | |- safe _ (if ?b then _ else _) => destruct b eqn:?
      | |- safe _ (match ?x with _ => _ end) => destruct x eqn:?
      end ].
