(* ===== verification/Io.v ===== *)
(** Register access (common/src/io.rs, common/src/io/mmio.rs, common/src/io/pio.rs).

    The trait [Io] is a class over the state [W] a register lives in: reading
    may change that state (a data port pops a byte), so [io_read] returns it.
    [Mmio] is a memory cell and satisfies the read-after-write law [IoMem];
    [Pio] is a port of a bus whose behaviour is the parameter [PortBus].
    [readf] and [writef] are the trait's provided methods; the theorems give
    their effect bit by bit. *)

From S2P Require Import Prelude.

(** ** The trait *)

Class Io (W R : Type) := {
  io_width : Z;
  io_read : R → W → Z * W;
  io_write : R → Z → W → W;
}.

(** Bitwise [!] of the register's value type. *)
Definition unot (w x : Z) : Z := Z.lxor x (Z.ones w).

Section trait.
Context {W R : Type} `{Io W R}.

Definition readf (r : R) (flags : Z) (w : W) : bool * W :=
  let '(v, w') := io_read r w in
  (Z.land v flags =? flags, w').

Definition writef (r : R) (flags : Z) (value : bool) (w : W) : W :=
  let '(v, w') := io_read r w in
  let tmp := match value with
             | true => Z.lor v flags
             | false => Z.land v (unot io_width flags)
             end in
  io_write r tmp w'.
End trait.

(** ** Read-only and write-only wrappers *)

Record ReadOnly (I : Type) := { ro_inner : I }.
Arguments ro_inner {I} _.
Arguments Build_ReadOnly {I} _.

Record WriteOnly (I : Type) := { wo_inner : I }.
Arguments wo_inner {I} _.
Arguments Build_WriteOnly {I} _.

Section wrappers.
Context {W R : Type} `{Io W R}.

Definition ro_read (r : ReadOnly R) (w : W) : Z * W := io_read (ro_inner r) w.

Definition ro_readf (r : ReadOnly R) (flags : Z) (w : W) : bool * W :=
  readf (ro_inner r) flags w.

Definition wo_write (r : WriteOnly R) (value : Z) (w : W) : W :=
  io_write (wo_inner r) value w.

Definition wo_writef (r : WriteOnly R) (flags : Z) (value : bool) (w : W) : W :=
  writef (wo_inner r) flags value w.
End wrappers.

(** ** Memory-mapped cells *)

Record Mmio := mmio_new { mmio_value : Z }.

Definition mmio_zeroed : Mmio := mmio_new 0.

Definition mmio_read (m : Mmio) : Z := mmio_value m.

Definition mmio_write (v : Z) (m : Mmio) : Mmio := mmio_new v.

(** The cell is its own state; [width] is the width of the value type. *)
Definition Mmio_Io (width : Z) : Io Mmio unit := {|
  io_width := width;
  io_read := λ _ m, (mmio_read m, m);
  io_write := λ _ v m, mmio_write v m;
|}.

(** ** Ports *)

(** The bus: [in] and [out] of the processor, on a machine state [W]. *)
Class PortBus (W : Type) := {
  port_in : Z → W → Z * W;
  port_out : Z → Z → W → W;
}.

(** An [in] instruction of a byte yields a byte. *)
Class PortBusOk (W : Type) `{PortBus W} :=
  port_in_range (p : Z) (w : W) : u_range 8 (port_in p w).1.

Record Pio := pio_new { pio_port : Z }.

#[export] Instance Pio_Io (W : Type) `{PortBus W} : Io W Pio := {|
  io_width := 8;
  io_read := λ r w, port_in (pio_port r) w;
  io_write := λ r v w, port_out (pio_port r) v w;
|}.

(** ** Registers that behave like memory *)

Class IoMem (W R : Type) `{Io W R} := {
  io_width_pos : 0 < io_width;
  io_read_pure (r : R) (w : W) : (io_read r w).2 = w;
  io_read_write (r : R) (v : Z) (w : W) : (io_read r (io_write r v w)).1 = v;
}.

#[export] Instance Mmio_IoMem : @IoMem Mmio unit (Mmio_Io 32).
Proof. by split. Qed.

Section laws.
Context {W R : Type} `{IoMem W R}.

Lemma writef_value (r : R) (flags : Z) (value : bool) (w : W) :
  (io_read r (writef r flags value w)).1 =
    (if value then Z.lor (io_read r w).1 flags
     else Z.land (io_read r w).1 (unot io_width flags)).
Proof.
  unfold writef. destruct (io_read r w) as [v w'].
  rewrite io_read_write. by destruct value.
Qed.

Lemma unot_testbit (n x i : Z) :
  0 <= i < n → Z.testbit (unot n x) i = negb (Z.testbit x i).
Proof.
  intros Hi. unfold unot. rewrite Z.lxor_spec, Z.ones_spec_low by lia.
  by rewrite xorb_true_r.
Qed.

Lemma writef_testbit (r : R) (flags : Z) (value : bool) (w : W) (i : Z) :
  0 <= i < io_width →
  Z.testbit (io_read r (writef r flags value w)).1 i =
    (if Z.testbit flags i then value else Z.testbit (io_read r w).1 i).
Proof.
  intros Hi. rewrite writef_value.
  destruct value; rewrite ?Z.lor_spec, ?Z.land_spec, ?unot_testbit by done;
    destruct (Z.testbit flags i);
    by rewrite ?orb_true_r, ?orb_false_r, ?andb_false_r, ?andb_true_r.
Qed.
End laws.

(**  [writef flags value] drives exactly the bits of [flags] to [value]:
    bit [i] of the register afterwards is [value] where [flags] has it and is
    unchanged elsewhere, and a [readf] of the same flags then answers [true]
    after a set. *)
Theorem writef_spec (W R : Type) `{IoMem W R} (r : R) (flags : Z) (value : bool) (w : W) :
  (∀ i, 0 <= i < io_width →
     Z.testbit (io_read r (writef r flags value w)).1 i =
       (if Z.testbit flags i then value else Z.testbit (io_read r w).1 i)) ∧
  (readf r flags (writef r flags true w)).1 = true.
Proof.
  split; [intros i Hi; by apply writef_testbit|].
  unfold readf. pose proof (writef_value r flags true w) as Hv.
  destruct (io_read r (writef r flags true w)) as [v w']. simpl in *. subst v.
  apply Z.eqb_eq. apply Z.bits_inj'. intros i Hi.
  rewrite Z.land_spec, Z.lor_spec.
  by destruct (Z.testbit flags i); rewrite ?orb_true_r, ?andb_false_r.
Qed.

Lemma writef_spec_witness :
  @IoMem Mmio unit (Mmio_Io 32) ∧
  mmio_value (@writef Mmio unit (Mmio_Io 32) tt 6 false (mmio_new 15)) = 9 ∧
  (@readf Mmio unit (Mmio_Io 32) tt 6
     (@writef Mmio unit (Mmio_Io 32) tt 6 true (mmio_new 9))).1 = true.
Proof.
  split; [exact Mmio_IoMem|]. split; [reflexivity|].
  apply (@writef_spec Mmio unit (Mmio_Io 32) Mmio_IoMem tt 6 true (mmio_new 9)).
Defined.
