(* ===== verification/Sgl.v ===== *)
(** Scatter-gather lists (common/src/sgl.rs).

    [Sgl::new] cuts a buffer into physically contiguous chunks.  The system calls
    are parameters: [mmap] maps memory (or fails), [virttophys] translates an
    address.  The model keeps the loop of the source with its fuel, the chunk
    length computation and every early return; [usize] arithmetic wraps. *)

From S2P Require Import Prelude.

Definition MAX_ALLOC_SIZE : Z := 2 ^ 22.

(** The page size of the platform: a power of two of at most 4 MiB. *)
Class Platform := {
  PAGE_SIZE : Z;
  page_shift : Z;
  page_shift_range : 0 <= page_shift <= 22;
  page_size_pow2 : PAGE_SIZE = 2 ^ page_shift;
}.

Record Chunk := mk_chunk {
  ch_offset : Z;
  ch_phys : Z;
  ch_virt : Z;
  ch_length : Z;
}.

Record Sgl := mk_sgl {
  sg_virt : Z;
  sg_aligned_length : Z;
  sg_unaligned_length : Z;
  sg_chunks : list Chunk;
}.

(** The chunk length chosen for what is left to map. *)
Definition chunk_length (remaining : Z) : Z :=
  let preferred := next_power_of_two (Z.min remaining MAX_ALLOC_SIZE) in
  if remaining <? preferred then preferred / 2 else preferred.

Section new.
(** [mmap_anon len] reserves address space and returns its address;
    [mmap_fixed addr len] maps contiguous memory there;
    [virttophys addr] translates; [contiguous_fd] opens the allocator.  Each
    may fail with an error code. *)
Context `{Platform} (mmap_anon : Z → errno + Z) (contiguous_fd : errno + unit)
        (mmap_fixed : Z → Z → errno + unit) (virttophys : Z → errno + Z).

(** The [while] loop; [None] when the fuel runs out. *)
Fixpoint sgl_loop (fuel : nat) (virt aligned unaligned offset : Z) (chunks : list Chunk)
    : option (res errno (list Chunk)) :=
  if aligned <=? offset then Some (Ok chunks)
  else
    match fuel with
    | O => None
    | S fuel =>
        let len := chunk_length (aligned - offset) in
        match mmap_fixed (virt + offset) len with
        | inl e => Some (Err e)
        | inr _ =>
            match virttophys (virt + offset) with
            | inl e => Some (Err e)
            | inr phys =>
                let c := mk_chunk offset phys (virt + offset)
                           (Z.min (as_usize (unaligned - offset)) len) in
                sgl_loop fuel virt aligned unaligned (as_usize (offset + len)) (chunks ++ [c])
            end
        end
    end.

(** One iteration per page is always enough. *)
Definition sgl_fuel (aligned : Z) : nat := Z.to_nat (aligned / PAGE_SIZE).

Definition sgl_new (unaligned : Z) : option (res errno Sgl) :=
  if unaligned =? 0 then Some (Err EINVAL)
  else
    let aligned := next_multiple_of unaligned PAGE_SIZE in
    match mmap_anon aligned with
    | inl e => Some (Err e)
    | inr virt =>
        match contiguous_fd with
        | inl e => Some (Err e)
        | inr _ =>
            match sgl_loop (sgl_fuel aligned) virt aligned unaligned 0 [] with
            | None => None
            | Some (Ok chunks) => Some (Ok (mk_sgl virt aligned unaligned chunks))
            | Some (Err e) => Some (Err e)
            | Some Panic => Some Panic
            end
        end
    end.
End new.

(** ** The chunk length *)

Lemma next_power_of_two_log2 (x : Z) :
  0 < x → next_power_of_two x = (if x =? 2 ^ Z.log2 x then 2 ^ Z.log2 x else 2 ^ (Z.log2 x + 1)).
Proof.
  intros Hx. unfold next_power_of_two.
  pose proof (Z.log2_spec x Hx) as [Hlo Hhi].
  destruct (Z.eqb_spec x (2 ^ Z.log2 x)) as [Heq|Hne].
  - f_equal. rewrite Heq at 1. apply Z.log2_up_pow2, Z.log2_nonneg.
  - f_equal. apply Z.log2_up_unique; [pose proof (Z.log2_nonneg x); lia|].
    rewrite <- Z.add_pred_r. change (Z.pred 1) with 0. rewrite Z.add_0_r.
    change (Z.log2 x + 1) with (Z.succ (Z.log2 x)). lia.
Qed.

(** The two branches choose the largest power of two that fits both what is left
    and the allocator's maximum. *)
Lemma chunk_length_log2 (remaining : Z) :
  0 < remaining → chunk_length remaining = 2 ^ Z.log2 (Z.min remaining MAX_ALLOC_SIZE).
Proof.
  intros Hr. unfold chunk_length. set (m := Z.min remaining MAX_ALLOC_SIZE).
  assert (0 < m) as Hm by (unfold m, MAX_ALLOC_SIZE; lia).
  rewrite next_power_of_two_log2 by done.
  pose proof (Z.log2_spec m Hm) as [Hlo Hhi]. pose proof (Z.log2_nonneg m) as Hnn.
  destruct (Z.eqb_spec m (2 ^ Z.log2 m)) as [Heq|Hne].
  - destruct (Z.ltb_spec remaining (2 ^ Z.log2 m)); [|done]. unfold m in *. lia.
  - assert (m = remaining) as Hmr.
    { unfold m in *. destruct (Z.min_spec remaining MAX_ALLOC_SIZE) as [[_ ->]|[_ Hmin]]; [done|].
      exfalso. apply Hne. rewrite Hmin. reflexivity. }
    rewrite (proj2 (Z.ltb_lt _ _)) by (change (Z.log2 m + 1) with (Z.succ (Z.log2 m)); lia).
    rewrite Z.pow_add_r, Z.pow_1_r, Z.div_mul by lia. done.
Qed.

Lemma page_size_pos `{Platform} : 0 < PAGE_SIZE.
Proof. rewrite page_size_pow2. pose proof page_shift_range. by apply Z.pow_pos_nonneg; lia. Qed.

Lemma chunk_length_bounds `{Platform} (remaining : Z) :
  PAGE_SIZE <= remaining →
  PAGE_SIZE <= chunk_length remaining <= Z.min remaining MAX_ALLOC_SIZE ∧
  (PAGE_SIZE | chunk_length remaining).
Proof.
  intros Hr. pose proof page_size_pos. rewrite chunk_length_log2 by lia.
  set (m := Z.min remaining MAX_ALLOC_SIZE). pose proof page_shift_range as Hps.
  rewrite page_size_pow2 in *.
  assert (2 ^ page_shift <= 2 ^ 22) by (apply Z.pow_le_mono_r; lia).
  assert (2 ^ page_shift <= m) as Hm by (unfold m, MAX_ALLOC_SIZE; lia).
  destruct (Z.log2_spec m ltac:(lia)) as [Hlo Hhi].
  assert (page_shift <= Z.log2 m) as Hl.
  { rewrite <- (Z.log2_pow2 page_shift) by lia. by apply Z.log2_le_mono. }
  split; [split; [apply Z.pow_le_mono_r; lia|done]|].
  exists (2 ^ (Z.log2 m - page_shift)). rewrite <- Z.pow_add_r by lia. f_equal. lia.
Qed.

(** ** The chunks tile the buffer *)

(** Chunks that start at [off], follow each other without gap or overlap, cover
    [total] bytes in all, and have their addresses in step. *)
Inductive tiles (virt total : Z) : Z → list Chunk → Prop :=
| tiles_end : tiles virt total total []
| tiles_cons off c cs :
    ch_offset c = off → ch_virt c = virt + off → 0 < ch_length c <= MAX_ALLOC_SIZE →
    tiles virt total (off + ch_length c) cs → tiles virt total off (c :: cs).

Lemma tiles_app (virt total off mid : Z) (cs cs' : list Chunk) :
  tiles virt mid off cs → tiles virt total mid cs' → tiles virt total off (cs ++ cs').
Proof. induction 1; simpl; [done|]. intros. by constructor; auto. Qed.

Lemma tiles_sum (virt total off : Z) (cs : list Chunk) :
  tiles virt total off cs → off + foldr (λ c n, ch_length c + n) 0 cs = total.
Proof. induction 1; simpl; lia. Qed.

Lemma next_multiple_bounds (x k : Z) :
  0 < k → 0 <= x → x <= next_multiple_of x k < x + k ∧ (k | next_multiple_of x k).
Proof.
  intros Hk Hx. unfold next_multiple_of. pose proof (Z.mod_pos_bound x k Hk).
  destruct (Z.eqb_spec (x mod k) 0) as [H0|Hn0].
  - split; [lia|]. by apply Z.mod_divide; [lia|].
  - split; [lia|]. exists (x / k + 1). pose proof (Z.div_mod x k). lia.
Qed.

Section loop.
Context `{Platform} (mmap_fixed : Z → Z → errno + unit) (virttophys : Z → errno + Z).
Context (virt unaligned : Z) (Hpos : 0 < unaligned).
Let aligned := next_multiple_of unaligned PAGE_SIZE.
Context (Hmax : aligned < 2 ^ 64).

(** What a run of the loop from [offset] may answer. *)
Definition sgl_outcome (offset : Z) (acc : list Chunk) (r : res errno (list Chunk)) : Prop :=
  match r with
  | Ok cs' => ∃ cs, cs' = acc ++ cs ∧ tiles virt unaligned offset cs ∧
                    Forall (λ c, virttophys (ch_virt c) = inr (ch_phys c)) cs
  | Err e => (∃ a n, mmap_fixed a n = inl e) ∨ (∃ a, virttophys a = inl e)
  | Panic => False
  end.

Lemma sgl_outcome_step (offset : Z) (acc : list Chunk) (c : Chunk) (r : res errno (list Chunk)) :
  ch_offset c = offset → ch_virt c = virt + offset → 0 < ch_length c <= MAX_ALLOC_SIZE →
  virttophys (ch_virt c) = inr (ch_phys c) →
  sgl_outcome (offset + ch_length c) (acc ++ [c]) r → sgl_outcome offset acc r.
Proof.
  intros Ho Hv Hl Hp. destruct r as [cs'|e|]; simpl; [|done|done].
  intros (cs & -> & Ht & HF). exists (c :: cs). rewrite <- app_assoc. split_and!; [done| |].
  - by constructor.
  - by constructor.
Qed.

Lemma sgl_loop_end (fuel : nat) (acc : list Chunk) :
  sgl_loop mmap_fixed virttophys fuel virt aligned unaligned aligned acc = Some (Ok acc).
Proof. destruct fuel; simpl; by rewrite Z.leb_refl. Qed.

Lemma sgl_loop_spec (fuel : nat) (offset : Z) (acc : list Chunk) :
  (PAGE_SIZE | offset) → 0 <= offset < aligned →
  aligned - offset <= PAGE_SIZE * Z.of_nat fuel →
  ∃ r, sgl_loop mmap_fixed virttophys fuel virt aligned unaligned offset acc = Some r ∧
       sgl_outcome offset acc r.
Proof.
  pose proof page_size_pos as Hpg.
  destruct (next_multiple_bounds unaligned PAGE_SIZE) as [Hal [ka Hka]]; [done|lia|].
  fold aligned in Hal, Hka.
  revert offset acc. induction fuel as [|fuel IH]; intros offset acc [ko Hko] Ho Hf; [lia|].
  cbn [sgl_loop]. rewrite (proj2 (Z.leb_gt _ _)) by lia.
  destruct (chunk_length_bounds (aligned - offset)) as [Hlen [kl Hkl]];
    [assert (ko < ka) by nia; nia|].
  set (len := chunk_length (aligned - offset)) in *.
  destruct (mmap_fixed (virt + offset) len) eqn:Hmm; [eexists; split; [done|simpl; eauto]|].
  destruct (virttophys (virt + offset)) as [e|phys] eqn:Hvp; [eexists; split; [done|simpl; eauto]|].
  unfold as_usize. rewrite !as_u_id by (unfold u_range; lia).
  set (c := mk_chunk offset phys (virt + offset) (Z.min (unaligned - offset) len)).
  assert (0 < ch_length c <= MAX_ALLOC_SIZE) by (simpl; assert (ko < ka) by nia; nia).
  destruct (decide (offset + len = aligned)) as [Hend|Hmore].
  - rewrite Hend, sgl_loop_end. eexists. split; [done|].
    apply (sgl_outcome_step offset acc c); try done. simpl. exists [].
    rewrite app_nil_r. split_and!; [done| |done].
    replace (offset + Z.min (unaligned - offset) len) with unaligned by lia. constructor.
  - assert (ch_length c = len) as Hcl by (simpl; assert (ko + kl < ka) by nia; nia).
    destruct (IH (offset + len) (acc ++ [c])) as (r & Hr & Hout).
    + exists (ko + kl). lia.
    + assert (ko + kl < ka) by nia. lia.
    + lia.
    + exists r. split; [done|]. apply (sgl_outcome_step offset acc c); try done.
      by rewrite Hcl.
Qed.
End loop.

(** C40.  [Sgl::new] always terminates within one iteration per page and never
    panics or underflows.  A zero length is [EINVAL]; an error is one reported by
    a system call; otherwise the chunks tile the requested buffer: they start at
    offset 0, follow each other without gap or overlap, sum to exactly the
    requested length, each is at most 4 MiB, and each carries the virtual address
    of its offset and that address's physical translation. *)
Theorem sgl_new_tiles `{Platform} (mmap_anon : Z → errno + Z) (fd : errno + unit)
    (mmap_fixed : Z → Z → errno + unit) (virttophys : Z → errno + Z) (unaligned : Z) :
  0 <= unaligned → next_multiple_of unaligned PAGE_SIZE < 2 ^ 64 →
  ∃ r, sgl_new mmap_anon fd mmap_fixed virttophys unaligned = Some r ∧
       match r with
       | Ok s => sg_unaligned_length s = unaligned ∧
                 tiles (sg_virt s) unaligned 0 (sg_chunks s) ∧
                 Forall (λ c, virttophys (ch_virt c) = inr (ch_phys c)) (sg_chunks s)
       | Err e => (unaligned = 0 ∧ e = EINVAL) ∨ (∃ n, mmap_anon n = inl e) ∨ fd = inl e ∨
                  (∃ a n, mmap_fixed a n = inl e) ∨ (∃ a, virttophys a = inl e)
       | Panic => False
       end.
Proof.
  intros Hnn Hmax. unfold sgl_new.
  destruct (Z.eqb_spec unaligned 0) as [->|Hne]; [eexists; split; [done|]; by left|].
  set (aligned := next_multiple_of unaligned PAGE_SIZE) in *.
  destruct (mmap_anon aligned) as [e|virt] eqn:Hanon; [eexists; split; [done|]; naive_solver|].
  destruct fd as [e|]; [eexists; split; [done|]; naive_solver|].
  pose proof page_size_pos as Hpg.
  destruct (next_multiple_bounds unaligned PAGE_SIZE) as [Hal [k Hk]]; [done|lia|].
  fold aligned in Hal, Hk.
  destruct (sgl_loop_spec mmap_fixed virttophys virt unaligned ltac:(lia) Hmax
              (sgl_fuel aligned) 0 []) as (r & Hr & Hout).
  - by exists 0.
  - fold aligned. lia.
  - fold aligned. unfold sgl_fuel. rewrite Hk, Z.div_mul by lia. nia.
  - fold aligned in Hr. rewrite Hr. destruct r as [cs'|e|]; simpl in *; [| |done].
    + destruct Hout as (cs & -> & Ht & HF). by eexists.
    + eexists. split; [done|]. naive_solver.
Qed.

(** The x86_64 page. *)
#[local] Instance page4k : Platform.
Proof. by refine {| PAGE_SIZE := 4096; page_shift := 12 |}. Defined.

Lemma sgl_new_tiles_witness :
  ∃ s, sgl_new (λ _, inr 0x100000) (inr tt) (λ _ _, inr tt) (λ a, inr (a + 0x5000000)) 20000
       = Some (Ok s) ∧
       tiles (sg_virt s) 20000 0 (sg_chunks s) ∧ map ch_length (sg_chunks s) = [16384; 3616].
Proof.
  destruct (sgl_new_tiles (λ _, inr 0x100000) (inr tt) (λ _ _, inr tt)
              (λ a, inr (a + 0x5000000)) 20000) as (r & Hr & Hout); [lia|vm_compute; done|].
  vm_compute in Hr. injection Hr as <-. destruct Hout as (_ & Ht & _).
  eexists. split; [vm_compute; reflexivity|]. split; [exact Ht|]. reflexivity.
Defined.
