(* ===== verification/BlockIo.v ===== *)
(** Block devices behind a byte interface (storage/driver-block/src/lib.rs).

    [block_read] serves a byte range by whole-block reads; it is the loop of the
    source with every check that can panic (division by a zero block size, slices
    out of range).  [Disk] is the trait the drivers implement; [Device] is the
    seekable reader that the partition-table parser gets.  The class [DiskOk] is
    the contract of a disk: a read of a block in range yields that block of the
    disk's contents. *)

From S2P Require Import Prelude.

(** ** block_read *)

Section block_read.
(** The closure works on the caller's state and the block buffer. *)
Context {S E : Type} (read_fn : Z → prog (S * list Z) E unit).

(** The loop: [out] is what was copied so far, [rest] how much of the buffer is
    left; the result is what the buffer's used part holds.  The outer [option]
    is [None] only when the fuel runs out. *)
Fixpoint block_read_loop (fuel : nat) (blksize : Z) (curr_offset : Z) (rest : nat)
    (out : list Z) (s : S * list Z) : option (res E Z * list Z * (S * list Z)) :=
  match rest with
  | O => Some (Ok (Z.of_nat (length out)), out, s)
  | _ =>
    match fuel with
    | O => None
    | Datatypes.S fuel =>
      if blksize =? 0 then Some (Panic, out, s) else
      let blk_offset := curr_offset mod blksize in
      let to_copy := Z.min (Z.of_nat rest) (blksize - blk_offset) in
      if blksize <? blk_offset + to_copy then Some (Panic, out, s) else
      match read_fn (curr_offset / blksize) s with
      | (Err e, s) => Some (Err e, out, s)
      | (Panic, s) => Some (Panic, out, s)
      | (Ok _, s) =>
          let block_bytes := s.2 in
          if Z.of_nat (length block_bytes) <? blk_offset + to_copy
          then Some (Panic, out, s)
          else
            let n := Z.to_nat to_copy in
            block_read_loop fuel blksize (as_u64 (curr_offset + to_copy)) (rest - n)
              (out ++ slice (Z.to_nat blk_offset) n block_bytes) s
      end
    end
  end.

(** [offset.saturating_add(len) - offset]: how much of the buffer is used. *)
Definition clamp_len (offset : Z) (len : nat) : nat :=
  Z.to_nat (Z.min (offset + Z.of_nat len) (2 ^ 64 - 1) - offset).

Definition block_read (offset blksize : Z) (buf_len : nat) (s : S * list Z)
    : option (res E Z * list Z * (S * list Z)) :=
  if decide (buf_len = 0%nat) then Some (Ok 0, [], s)
  else
    let n := clamp_len offset buf_len in
    block_read_loop n blksize offset n [] s.
End block_read.

(** ** Disks *)

Class Disk (D : Type) := {
  disk_block_length : prog D errno Z;
  disk_size : D → Z * D;
  (** Fills the buffer with a block; the byte count, or [None] for "not ready". *)
  disk_read : Z → prog (D * list Z) errno (option Z);
}.

(** What a disk promises: fixed contents of whole blocks, and a read of block
    [n] fills the buffer with it at once. *)
Class DiskOk (D : Type) `{Disk D} := {
  disk_bytes : D → list Z;
  disk_blk : D → Z;
  disk_blk_pos (d : D) : 0 < disk_blk d < 2 ^ 32;
  disk_whole (d : D) : (disk_blk d | Z.of_nat (length (disk_bytes d)));
  disk_len_ok (d : D) : Z.of_nat (length (disk_bytes d)) < 2 ^ 63;
  disk_block_length_ok (d : D) : disk_block_length d = (Ok (disk_blk d), d);
  disk_size_ok (d : D) : disk_size d = (Z.of_nat (length (disk_bytes d)), d);
  disk_read_ok (d : D) (n : Z) (buf : list Z) :
    0 <= n → (n + 1) * disk_blk d <= Z.of_nat (length (disk_bytes d)) →
    Z.of_nat (length buf) = disk_blk d →
    disk_read n (d, buf) =
      (Ok (Some (disk_blk d)),
       (d, slice (Z.to_nat (n * disk_blk d)) (Z.to_nat (disk_blk d)) (disk_bytes d)));
}.

Record Device (D : Type) := mk_device {
  dv_disk : D;
  dv_offset : Z;
  dv_block_bytes : list Z;
}.
Arguments mk_device {D} _ _ _.
Arguments dv_disk {D} _.
Arguments dv_offset {D} _.
Arguments dv_block_bytes {D} _.

Inductive SeekFrom : Type := SStart (p : Z) | SCurrent (p : Z) | SEnd (p : Z).

(** Errors of the reader: an OS error code, or the "disk too large" error. *)
Inductive IoError : Type := RawOsError (e : errno) | TooLarge.

Section device.
Context {D : Type} `{Disk D}.

Definition seek (from : SeekFrom) (dv : Device D) : res IoError Z * Device D :=
  let '(size, d) := disk_size (dv_disk dv) in
  if 2 ^ 63 <=? size then (Err TooLarge, mk_device d (dv_offset dv) (dv_block_bytes dv))
  else
    let '(off, d) :=
      match from with
      | SStart new_pos => let '(size', d) := disk_size d in (Z.min size' new_pos, d)
      | SCurrent new_pos =>
          (as_u64 (Z.max 0 (Z.min size (as_i64 (as_i64 (dv_offset dv) + new_pos)))), d)
      | SEnd new_pos => (as_u64 (Z.max 0 (Z.min (as_i64 (size + new_pos)) size)), d)
      end in
    (Ok off, mk_device d off (dv_block_bytes dv)).

(** The polling loop of the closure [read_block]; [polls] bounds the number of
    "not ready" answers the model follows ([None] beyond). *)
Fixpoint read_block_poll (polls : nat) (blksize block : Z) (s : D * list Z)
    : option (res IoError unit * (D * list Z)) :=
  match disk_read block s with
  | (Ok (Some bytes), s) =>
      if (bytes =? Z.of_nat (length s.2)) && (bytes =? blksize)
      then Some (Ok tt, s) else Some (Panic, s)
  | (Ok None, s) =>
      match polls with
      | O => None
      | S polls => read_block_poll polls blksize block s
      end
  | (Err e, s) => Some (Err (RawOsError e), s)
  | (Panic, s) => Some (Panic, s)
  end.

(** The closure itself.  A poll that outlasts [polls] stops the run and is
    recorded in the flag, so that it is not mistaken for a panic. *)
Definition read_block (polls : nat) (blksize size_in_blocks block : Z)
    : prog (D * bool * list Z) IoError unit :=
  λ '(d, pending, bb),
    if size_in_blocks <=? block then (Err (RawOsError EOVERFLOW), (d, pending, bb))
    else match read_block_poll polls blksize block (d, bb) with
         | Some (r, (d', bb')) => (r, (d', pending, bb'))
         | None => (Panic, (d, true, bb))
         end.

(** [Device::read]; the result carries the bytes put into the buffer. *)
Definition device_read (polls : nat) (buf_len : nat) (dv : Device D)
    : option (res IoError Z * list Z * Device D) :=
  match disk_block_length (dv_disk dv) with
  | (Err e, d) => Some (Err (RawOsError e), [], mk_device d (dv_offset dv) (dv_block_bytes dv))
  | (Panic, d) => Some (Panic, [], mk_device d (dv_offset dv) (dv_block_bytes dv))
  | (Ok blksize, d) =>
      let '(size, d) := disk_size d in
      if blksize =? 0 then Some (Panic, [], mk_device d (dv_offset dv) (dv_block_bytes dv))
      else
        match block_read (read_block polls blksize (size / blksize))
                (dv_offset dv) blksize buf_len (d, false, dv_block_bytes dv) with
        | None => None
        | Some (_, _, (_, true, _)) => None
        | Some (Ok n, out, (d, false, bb)) =>
            Some (Ok n, out, mk_device d (as_u64 (dv_offset dv + n)) bb)
        | Some (r, out, (d, false, bb)) => Some (r, out, mk_device d (dv_offset dv) bb)
        end
  end.
End device.

(** ** Correctness of block_read *)

Section spec.
Context {S E : Type} (read_fn : Z → prog (S * list Z) E unit).
(** The data behind the closure, and the states in which it serves it. *)
Context (content : list Z) (blksize : Z) (P : S * list Z → Prop).
Context (Hblk : 0 < blksize) (Hwhole : (blksize | Z.of_nat (length content))).
Context (Hread : ∀ n s, P s → 0 <= n → (n + 1) * blksize <= Z.of_nat (length content) →
  ∃ s', read_fn n s = (Ok tt, s') ∧ P s' ∧
        s'.2 = slice (Z.to_nat (n * blksize)) (Z.to_nat blksize) content).

Lemma block_in_range (off : Z) :
  0 <= off < Z.of_nat (length content) →
  (off / blksize + 1) * blksize <= Z.of_nat (length content).
Proof.
  intros Hoff. destruct Hwhole as [k Hk]. rewrite Hk in *.
  assert (off / blksize < k) by (apply Z.div_lt_upper_bound; lia). nia.
Qed.

(** One iteration: it copies up to the end of the current block. *)
Lemma block_read_loop_step (fuel rest : nat) (off : Z) (out : list Z) (s : S * list Z) :
  P s → (0 < rest)%nat → 0 <= off < Z.of_nat (length content) → off + Z.of_nat rest < 2 ^ 64 →
  ∃ n s', (0 < n <= rest)%nat ∧ off + Z.of_nat n <= Z.of_nat (length content) ∧ P s' ∧
    block_read_loop read_fn (Datatypes.S fuel) blksize off rest out s =
    block_read_loop read_fn fuel blksize (off + Z.of_nat n) (rest - n)
      (out ++ slice (Z.to_nat off) n content) s'.
Proof.
  intros HP Hrest Hoff H64. destruct rest as [|rest]; [lia|].
  pose proof (Z.mod_pos_bound off blksize Hblk) as Hm.
  pose proof (Z.div_mod off blksize ltac:(lia)) as Hdm.
  destruct (Hread (off / blksize) s HP) as (s1 & Hr & HP1 & Hbb);
    [apply Z.div_pos; lia|by apply block_in_range|].
  pose proof (block_in_range off Hoff) as Hend.
  rewrite Z.mul_add_distr_r, Z.mul_1_l in Hend.
  assert (0 <= off / blksize * blksize)
    by (apply Z.mul_nonneg_nonneg; [apply Z.div_pos|]; lia).
  set (bo := off mod blksize) in *.
  set (n := Z.min (Z.of_nat (Datatypes.S rest)) (blksize - bo)).
  exists (Z.to_nat n), s1. split_and!; [lia|lia|lia|done|].
  cbn [block_read_loop]. rewrite (proj2 (Z.eqb_neq _ _)) by lia. fold bo. fold n.
  rewrite (proj2 (Z.ltb_ge _ _)) by lia.
  rewrite Hr, Hbb, length_slice by lia.
  rewrite (proj2 (Z.ltb_ge _ _)) by lia.
  unfold as_u64. rewrite as_u_id by (unfold u_range; lia).
  rewrite slice_slice by lia.
  replace (Z.to_nat (off / blksize * blksize) + Z.to_nat bo)%nat with (Z.to_nat off) by lia.
  by replace (Z.of_nat (Z.to_nat n)) with n by lia.
Qed.

Lemma block_read_loop_spec (fuel rest : nat) (off : Z) (out : list Z) (s : S * list Z) :
  P s → (rest <= fuel)%nat → 0 <= off → off + Z.of_nat rest <= Z.of_nat (length content) →
  off + Z.of_nat rest < 2 ^ 64 →
  ∃ s', block_read_loop read_fn fuel blksize off rest out s =
          Some (Ok (Z.of_nat (length out + rest)), out ++ slice (Z.to_nat off) rest content, s')
        ∧ P s'.
Proof.
  revert rest off out s. induction fuel as [|fuel IH]; intros rest off out s HP Hf Hoff Hin H64.
  all: destruct (decide (rest = 0%nat)) as [->|Hne];
    [exists s; simpl; by rewrite slice_0, app_nil_r, Nat.add_0_r|].
  - lia.
  - destruct (block_read_loop_step fuel rest off out s) as (n & s1 & Hn & Hn' & HP1 & ->);
      [done|lia|lia|done|].
    destruct (IH (rest - n)%nat (off + Z.of_nat n) (out ++ slice (Z.to_nat off) n content) s1)
      as (s2 & -> & HP2); [done|lia|lia|lia|lia|].
    exists s2. split; [|done]. rewrite length_app, length_slice by lia.
    rewrite <- app_assoc. replace (Z.to_nat (off + Z.of_nat n)) with (Z.to_nat off + n)%nat by lia.
    rewrite slice_app. replace (n + (rest - n))%nat with rest by lia.
    by replace (length out + n + (rest - n))%nat with (length out + rest)%nat by lia.
Qed.

(** Running past the end: what there is gets copied, then the closure's error
    is returned. *)
Lemma block_read_loop_overrun (e : E) (fuel rest : nat) (off : Z) (out : list Z) (s : S * list Z) :
  (∀ n s, P s → Z.of_nat (length content) <= n * blksize →
     ∃ s', read_fn n s = (Err e, s') ∧ P s') →
  P s → (rest <= fuel)%nat → 0 <= off <= Z.of_nat (length content) →
  Z.of_nat (length content) < off + Z.of_nat rest → off + Z.of_nat rest < 2 ^ 64 →
  ∃ s', block_read_loop read_fn fuel blksize off rest out s =
          Some (Err e, out ++ slice (Z.to_nat off) (length content - Z.to_nat off) content, s')
        ∧ P s'.
Proof.
  intros Hfail. revert rest off out s.
  induction fuel as [|fuel IH]; intros rest off out s HP Hf Hoff Hout H64; [lia|].
  destruct (decide (off = Z.of_nat (length content))) as [Heq|Hne].
  - destruct rest as [|rest]; [lia|]. cbn [block_read_loop].
    destruct Hwhole as [k Hk]. assert (off mod blksize = 0) as Hmod.
    { rewrite Heq, Hk. by apply Z.mod_mul; lia. }
    rewrite (proj2 (Z.eqb_neq _ _)), Hmod, (proj2 (Z.ltb_ge _ _)) by lia.
    destruct (Hfail (off / blksize) s HP) as (s' & -> & HP').
    { rewrite Heq, Hk, Z.div_mul by lia. lia. }
    exists s'. split; [|done]. rewrite Heq, Nat2Z.id, Nat.sub_diag, slice_0.
    by rewrite app_nil_r.
  - destruct (block_read_loop_step fuel rest off out s) as (n & s1 & Hn & Hn' & HP1 & ->);
      [done|lia|lia|done|].
    destruct (IH (rest - n)%nat (off + Z.of_nat n) (out ++ slice (Z.to_nat off) n content) s1)
      as (s2 & -> & HP2); [done|lia|lia|lia|lia|].
    exists s2. split; [|done]. rewrite <- app_assoc.
    replace (Z.to_nat (off + Z.of_nat n)) with (Z.to_nat off + n)%nat by lia.
    rewrite slice_app.
    by replace (n + (length content - (Z.to_nat off + n)))%nat
      with (length content - Z.to_nat off)%nat by lia.
Qed.
End spec.

(** ** The device over a lawful disk *)

Section lawful.
Context {D : Type} `{DiskOk D}.

(** States of the closure: the disk is [d], and the block buffer is one block. *)
Definition serving (d : D) (s : D * bool * list Z) : Prop :=
  s.1.1 = d ∧ s.1.2 = false ∧ Z.of_nat (length s.2) = disk_blk d.

Lemma size_in_blocks (d : D) :
  Z.of_nat (length (disk_bytes d)) / disk_blk d * disk_blk d = Z.of_nat (length (disk_bytes d)).
Proof.
  pose proof (disk_blk_pos d). destruct (disk_whole d) as [k ->].
  by rewrite Z.div_mul by lia.
Qed.

Lemma read_block_hit (polls : nat) (d : D) (n : Z) (s : D * bool * list Z) :
  serving d s → 0 <= n → (n + 1) * disk_blk d <= Z.of_nat (length (disk_bytes d)) →
  ∃ s', read_block polls (disk_blk d)
          (Z.of_nat (length (disk_bytes d)) / disk_blk d) n s = (Ok tt, s') ∧ serving d s' ∧
        s'.2 = slice (Z.to_nat (n * disk_blk d)) (Z.to_nat (disk_blk d)) (disk_bytes d).
Proof.
  destruct s as [[d' p] bb]. intros (Hd & Hp & Hb) Hn Hin. simpl in *. subst d' p.
  pose proof (disk_blk_pos d) as Hpos. pose proof (size_in_blocks d) as Hsb.
  rewrite (proj2 (Z.leb_gt _ _)) by nia.
  assert (Z.of_nat (length (slice (Z.to_nat (n * disk_blk d)) (Z.to_nat (disk_blk d))
            (disk_bytes d))) = disk_blk d) as Hl.
  { rewrite length_slice; [lia|]. rewrite Z.mul_add_distr_r in Hin.
    assert (0 <= n * disk_blk d) by nia. lia. }
  destruct polls; simpl; rewrite disk_read_ok by done; simpl;
    rewrite Hl, Z.eqb_refl; simpl; eexists; (split; [done|]); by split_and!.
Qed.

Lemma read_block_past (polls : nat) (d : D) (n : Z) (s : D * bool * list Z) :
  serving d s → Z.of_nat (length (disk_bytes d)) <= n * disk_blk d →
  ∃ s', read_block polls (disk_blk d) (Z.of_nat (length (disk_bytes d)) / disk_blk d) n s
          = (Err (RawOsError EOVERFLOW), s') ∧ serving d s'.
Proof.
  destruct s as [[d' p] bb]. intros Hs Hout.
  pose proof (disk_blk_pos d). pose proof (size_in_blocks d).
  simpl. rewrite (proj2 (Z.leb_le _ _)) by nia. by eexists.
Qed.

Lemma clamp_len_id (off : Z) (n : nat) : off + Z.of_nat n < 2 ^ 64 → clamp_len off n = n.
Proof. intros. unfold clamp_len. lia. Qed.
End lawful.

(**  Reading through the partition reader of a disk that keeps its contract
    returns exactly the bytes of the disk at the current offset, however the range
    straddles blocks: a range inside the disk is read in full and the offset
    advances by its length; a range that runs past the end fails with [EOVERFLOW]
    after the bytes up to the end were copied, and the offset stays.  The loop
    always terminates and never panics. *)
Theorem device_read_spec (D : Type) `{DiskOk D} (polls n : nat) (dv : Device D) :
  let d := dv_disk dv in
  let off := dv_offset dv in
  let bytes := disk_bytes d in
  0 <= off <= Z.of_nat (length bytes) → Z.of_nat n < 2 ^ 63 →
  Z.of_nat (length (dv_block_bytes dv)) = disk_blk d →
  ∃ bb, Z.of_nat (length bb) = disk_blk d ∧
    device_read polls n dv =
      Some (if decide (off + Z.of_nat n <= Z.of_nat (length bytes))
            then (Ok (Z.of_nat n), slice (Z.to_nat off) n bytes,
                  mk_device d (off + Z.of_nat n) bb)
            else (Err (RawOsError EOVERFLOW),
                  slice (Z.to_nat off) (length bytes - Z.to_nat off) bytes,
                  mk_device d off bb)).
Proof.
  intros d off bytes Hoff Hn Hbb. subst bytes. unfold device_read. fold d off.
  rewrite disk_block_length_ok, disk_size_ok.
  pose proof (disk_blk_pos d) as Hpos. pose proof (disk_len_ok d) as Hlen.
  rewrite (proj2 (Z.eqb_neq _ _)) by lia. unfold block_read.
  destruct (decide (n = 0%nat)) as [->|Hne].
  { exists (dv_block_bytes dv). split; [done|]. rewrite decide_True by lia.
    unfold as_u64. rewrite as_u_id by (unfold u_range; lia). done. }
  rewrite clamp_len_id by lia.
  case_decide as Hin.
  - destruct (block_read_loop_spec _ (disk_bytes d) (disk_blk d) (serving d) (proj1 Hpos) (disk_whole d)
                (λ k s, read_block_hit polls d k s) n n off [] (d, false, dv_block_bytes dv))
      as ([[d' p] bb] & -> & Hd & Hp & Hl); [done|lia|lia|lia|lia|].
    simpl in *. subst d' p. exists bb. split; [done|].
    unfold as_u64. rewrite as_u_id by (unfold u_range; lia). done.
  - destruct (block_read_loop_overrun _ (disk_bytes d) (disk_blk d) (serving d) (proj1 Hpos) (disk_whole d)
                (λ k s, read_block_hit polls d k s) (RawOsError EOVERFLOW) n n off []
                (d, false, dv_block_bytes dv) (λ k s, read_block_past polls d k s))
      as ([[d' p] bb] & -> & Hd & Hp & Hl); [done|lia|lia|lia|lia|].
    simpl in *. subst d' p. by exists bb.
Qed.

(**  After a successful seek the reader's offset is inside the disk, for
    every origin and displacement, including those whose 64-bit sum wraps; only a
    disk of 2^63 bytes or more is refused. *)
Theorem seek_in_disk (D : Type) `{Disk D} (from : SeekFrom) (dv : Device D) :
  (∀ d, (disk_size d).2 = d ∧ u_range 64 (disk_size d).1) →
  (match from with SStart p => 0 <= p | _ => True end) →
  let size := (disk_size (dv_disk dv)).1 in
  if decide (size < 2 ^ 63)
  then ∃ off, seek from dv = (Ok off, mk_device (dv_disk dv) off (dv_block_bytes dv)) ∧
              0 <= off <= size
  else (seek from dv).1 = Err TooLarge.
Proof.
  intros Hsz Hfrom size. unfold seek, size.
  destruct (Hsz (dv_disk dv)) as [Hpure Hr].
  destruct (disk_size (dv_disk dv)) as [sz d] eqn:Hds. simpl in *. subst d.
  unfold u_range in Hr. case_decide as Hlt.
  - rewrite (proj2 (Z.leb_gt _ _)) by lia.
    destruct from; rewrite ?Hds; unfold as_u64; rewrite ?as_u_id by (unfold u_range; lia);
      eexists; (split; [reflexivity|lia]).
  - by rewrite (proj2 (Z.leb_le _ _)) by lia.
Qed.

(** A RAM disk of two 4-byte blocks. *)
#[local] Instance ram_disk : Disk unit := {|
  disk_block_length := p_ret 4;
  disk_size := λ d, (8, d);
  disk_read := λ n '(d, buf),
    (Ok (Some 4), (d, slice (Z.to_nat (n * 4)) 4 [10; 11; 12; 13; 14; 15; 16; 17]));
|}.

#[local] Instance ram_disk_ok : DiskOk unit.
Proof.
  refine {| disk_bytes := λ _, [10; 11; 12; 13; 14; 15; 16; 17]; disk_blk := λ _, 4 |};
    simpl; try done; try lia.
  - intros _. by exists 2.
Defined.

Lemma device_read_spec_witness :
  ∃ bb, Z.of_nat (length bb) = 4 ∧
        device_read 0 3 (mk_device tt 3 [0; 0; 0; 0]) =
          Some (Ok 3, [13; 14; 15], mk_device tt 6 bb).
Proof.
  destruct (device_read_spec unit 0 3 (mk_device tt 3 [0; 0; 0; 0])) as (bb & Hl & Hr);
    [simpl; lia|simpl; lia|reflexivity|].
  exists bb. split; [exact Hl|]. rewrite Hr, decide_True; [reflexivity|simpl; lia].
Defined.

Lemma seek_in_disk_witness :
  ∃ off, seek (SEnd (-2)) (mk_device tt 3 []) = (Ok off, mk_device tt off []) ∧ 0 <= off <= 8.
Proof.
  pose proof (seek_in_disk unit (SEnd (-2)) (mk_device tt 3 [])) as Hs.
  cbv zeta in Hs. rewrite decide_True in Hs by (simpl; lia). apply Hs; [|done].
  intros d. split; [done|]. unfold u_range. simpl. lia.
Defined.
