(* ===== verification/UsbSetup.v ===== *)
(** USB control requests (xhcid/src/usb/setup.rs, the descriptor kinds of
    xhcid/src/usb/mod.rs).

    A [Setup] is the eight-byte packet of a control transfer.  [setup_bits] is
    its memory image as a 64-bit little-endian word, which is what
    [mem::transmute] hands to the setup-stage TRB. *)

From S2P Require Import Prelude.

Inductive DescriptorKind : Type :=
| DkNone | DkDevice | DkConfiguration | DkString | DkInterface | DkEndpoint
| DkDeviceQualifier | DkOtherSpeedConfiguration | DkInterfacePower | DkOnTheGo
| DkBinaryObjectStorage | DkHid | DkHub | DkSuperSpeedCompanion.

Definition descriptor_kind_code (k : DescriptorKind) : Z :=
  match k with
  | DkNone => 0 | DkDevice => 1 | DkConfiguration => 2 | DkString => 3
  | DkInterface => 4 | DkEndpoint => 5 | DkDeviceQualifier => 6
  | DkOtherSpeedConfiguration => 7 | DkInterfacePower => 8 | DkOnTheGo => 9
  | DkBinaryObjectStorage => 15 | DkHid => 33 | DkHub => 41
  | DkSuperSpeedCompanion => 48
  end.

Record Setup := mk_setup {
  su_kind : Z;
  su_request : Z;
  su_value : Z;
  su_index : Z;
  su_length : Z;
}.

Inductive ReqDirection : Type := HostToDevice | DeviceToHost.

Inductive ReqType : Type := RtStandard | RtClass | RtVendor | RtReserved.

Definition req_type_code (t : ReqType) : Z :=
  match t with RtStandard => 0 | RtClass => 1 | RtVendor => 2 | RtReserved => 3 end.

Inductive ReqRecipient : Type := RcDevice | RcInterface | RcEndpoint | RcOther | RcVendorSpecific.

Definition req_recipient_code (r : ReqRecipient) : Z :=
  match r with
  | RcDevice => 0 | RcInterface => 1 | RcEndpoint => 2 | RcOther => 3
  | RcVendorSpecific => 31
  end.

Definition USB_SETUP_DIR_BIT : Z := Z.shiftl 1 7.

Definition USB_SETUP_REQ_TY_MASK : Z := 0x60.

Definition USB_SETUP_REQ_TY_SHIFT : Z := 5.

Definition USB_SETUP_RECIPIENT_MASK : Z := 0x1F.

Definition USB_SETUP_RECIPIENT_SHIFT : Z := 0.

Definition direction (s : Setup) : ReqDirection :=
  if Z.land (su_kind s) USB_SETUP_DIR_BIT =? 0 then HostToDevice else DeviceToHost.

Definition req_ty (s : Setup) : Z :=
  Z.shiftr (Z.land (su_kind s) USB_SETUP_REQ_TY_MASK) USB_SETUP_REQ_TY_SHIFT.

Definition req_recipient (s : Setup) : Z :=
  Z.shiftr (Z.land (su_kind s) USB_SETUP_RECIPIENT_MASK) USB_SETUP_RECIPIENT_SHIFT.

Definition is_allowed_from_api (s : Setup) : bool :=
  (req_ty s =? req_type_code RtClass) || (req_ty s =? req_type_code RtVendor).

Definition get_status : Setup := mk_setup 0x80 0x00 0 0 2.

Definition clear_feature (feature : Z) : Setup := mk_setup 0x00 0x01 feature 0 0.

Definition set_feature (feature : Z) : Setup := mk_setup 0x00 0x03 feature 0 0.

Definition set_address (address : Z) : Setup := mk_setup 0x00 0x05 address 0 0.

Definition get_descriptor (kind : DescriptorKind) (index language length : Z) : Setup :=
  mk_setup 0x80 0x06
    (Z.lor (as_u16 (Z.shiftl (descriptor_kind_code kind) 8)) index) language length.

Definition set_descriptor (kind index language length : Z) : Setup :=
  mk_setup 0x00 0x07 (Z.lor (as_u16 (Z.shiftl kind 8)) index) language length.

Definition get_configuration : Setup := mk_setup 0x80 0x08 0 0 1.

Definition set_configuration (value : Z) : Setup := mk_setup 0x00 0x09 value 0 0.

Definition set_interface (interface alternate_setting : Z) : Setup :=
  mk_setup 0x01 0x0B alternate_setting interface 0.

(** The packed struct read as a [u64] ([mem::transmute] in [Trb::setup]). *)
Definition setup_bits (s : Setup) : Z :=
  le_val (le_bytes 1 (su_kind s) ++ le_bytes 1 (su_request s) ++ le_bytes 2 (su_value s)
          ++ le_bytes 2 (su_index s) ++ le_bytes 2 (su_length s)).

(** The field widths of the struct. *)
Definition setup_wf (s : Setup) : Prop :=
  u_range 8 (su_kind s) ∧ u_range 8 (su_request s) ∧ u_range 16 (su_value s) ∧
  u_range 16 (su_index s) ∧ u_range 16 (su_length s).

Lemma setup_bits_arith (s : Setup) :
  setup_wf s →
  setup_bits s = su_kind s + 2 ^ 8 * su_request s + 2 ^ 16 * su_value s
                 + 2 ^ 32 * su_index s + 2 ^ 48 * su_length s.
Proof.
  destruct s as [k r v i l]. unfold setup_wf, u_range, setup_bits. simpl. intros H.
  destruct_and!. zdiv.
Qed.

Lemma setup_bits_range (s : Setup) : setup_wf s → u_range 64 (setup_bits s).
Proof.
  intros Hs. rewrite setup_bits_arith by done. unfold setup_wf, u_range in *.
  simpl in *. lia.
Qed.

Lemma setup_bits_fields (s : Setup) :
  setup_wf s →
  field 0 8 (setup_bits s) = su_kind s ∧ field 8 8 (setup_bits s) = su_request s ∧
  field 16 16 (setup_bits s) = su_value s ∧ field 32 16 (setup_bits s) = su_index s ∧
  field 48 16 (setup_bits s) = su_length s.
Proof.
  intros Hs. rewrite setup_bits_arith by done. rewrite !field_alt by lia.
  unfold setup_wf, u_range in Hs. simpl in *. repeat split; zdiv.
Qed.
