(* ===== verification/XhciTrb.v ===== *)
(** Transfer request blocks (xhcid/src/xhci/trb.rs).

    A TRB is four 32-bit words.  Each builder of the source is a program on a
    [Trb] that overwrites all four; an [assert_eq!] is a [Panic].
    [debug_assert_eq!] is absent, as in the release profile.  [trb_op] names the
    builder calls, so that the layout theorems are stated once for all of them. *)

From S2P Require Import Prelude UsbSetup.

(** ** Enumerations *)

Inductive TrbType : Type :=
| TReserved | TNormal | TSetupStage | TDataStage | TStatusStage | TIsoch | TLink
| TEventData | TNoOp | TEnableSlot | TDisableSlot | TAddressDevice
| TConfigureEndpoint | TEvaluateContext | TResetEndpoint | TStopEndpoint
| TSetTrDequeuePointer | TResetDevice | TForceEvent | TNegotiateBandwidth
| TSetLatencyToleranceValue | TGetPortBandwidth | TForceHeader | TNoOpCmd
| TGetExtendedProperty | TSetExtendedProperty | TRsv26 | TRsv27 | TRsv28 | TRsv29
| TRsv30 | TRsv31 | TTransfer | TCommandCompletion | TPortStatusChange
| TBandwidthRequest | TDoorbell | THostController | TDeviceNotification
| TMfindexWrap.

(** [t as u8]: the discriminants count from zero. *)
Definition trb_type_code (t : TrbType) : Z :=
  match t with
  | TReserved => 0 | TNormal => 1 | TSetupStage => 2 | TDataStage => 3
  | TStatusStage => 4 | TIsoch => 5 | TLink => 6 | TEventData => 7 | TNoOp => 8
  | TEnableSlot => 9 | TDisableSlot => 10 | TAddressDevice => 11
  | TConfigureEndpoint => 12 | TEvaluateContext => 13 | TResetEndpoint => 14
  | TStopEndpoint => 15 | TSetTrDequeuePointer => 16 | TResetDevice => 17
  | TForceEvent => 18 | TNegotiateBandwidth => 19 | TSetLatencyToleranceValue => 20
  | TGetPortBandwidth => 21 | TForceHeader => 22 | TNoOpCmd => 23
  | TGetExtendedProperty => 24 | TSetExtendedProperty => 25 | TRsv26 => 26
  | TRsv27 => 27 | TRsv28 => 28 | TRsv29 => 29 | TRsv30 => 30 | TRsv31 => 31
  | TTransfer => 32 | TCommandCompletion => 33 | TPortStatusChange => 34
  | TBandwidthRequest => 35 | TDoorbell => 36 | THostController => 37
  | TDeviceNotification => 38 | TMfindexWrap => 39
  end.

Inductive TrbCompletionCode : Type :=
| CInvalid | CSuccess | CDataBuffer | CBabbleDetected | CUsbTransaction | CTrb
| CStall | CResource | CBandwidth | CNoSlotsAvailable | CInvalidStreamType
| CSlotNotEnabled | CEndpointNotEnabled | CShortPacket | CRingUnderrun
| CRingOverrun | CVfEventRingFull | CParameter | CBandwidthOverrun | CContextState
| CNoPingResponse | CEventRingFull | CIncompatibleDevice | CMissedService
| CCommandRingStopped | CCommandAborted | CStopped | CStoppedLengthInvalid
| CStoppedShortPacket | CMaxExitLatencyTooLarge | CRsv30 | CIsochBuffer | CEventLost
| CUndefined | CInvalidStreamId | CSecondaryBandwidth | CSplitTransaction.

Definition completion_code_value (c : TrbCompletionCode) : Z :=
  match c with
  | CInvalid => 0x00 | CSuccess => 0x01 | CDataBuffer => 0x02
  | CBabbleDetected => 0x03 | CUsbTransaction => 0x04 | CTrb => 0x05 | CStall => 0x06
  | CResource => 0x07 | CBandwidth => 0x08 | CNoSlotsAvailable => 0x09
  | CInvalidStreamType => 0x0A | CSlotNotEnabled => 0x0B | CEndpointNotEnabled => 0x0C
  | CShortPacket => 0x0D | CRingUnderrun => 0x0E | CRingOverrun => 0x0F
  | CVfEventRingFull => 0x10 | CParameter => 0x11 | CBandwidthOverrun => 0x12
  | CContextState => 0x13 | CNoPingResponse => 0x14 | CEventRingFull => 0x15
  | CIncompatibleDevice => 0x16 | CMissedService => 0x17 | CCommandRingStopped => 0x18
  | CCommandAborted => 0x19 | CStopped => 0x1A | CStoppedLengthInvalid => 0x1B
  | CStoppedShortPacket => 0x1C | CMaxExitLatencyTooLarge => 0x1D | CRsv30 => 0x1E
  | CIsochBuffer => 0x1F | CEventLost => 0x20 | CUndefined => 0x21
  | CInvalidStreamId => 0x22 | CSecondaryBandwidth => 0x23 | CSplitTransaction => 0x24
  end.

Inductive TransferKind : Type := NoData | KReserved | KOut | KIn.

Definition transfer_kind_code (k : TransferKind) : Z :=
  match k with NoData => 0 | KReserved => 1 | KOut => 2 | KIn => 3 end.

(** From xhcid/src/xhci/context.rs. *)
Inductive StreamContextType : Type :=
| SecondaryRing | PrimaryRing | PrimarySsa8 | PrimarySsa16 | PrimarySsa32
| PrimarySsa64 | PrimarySsa128 | PrimarySsa256.

Definition sct_code (s : StreamContextType) : Z :=
  match s with
  | SecondaryRing => 0 | PrimaryRing => 1 | PrimarySsa8 => 2 | PrimarySsa16 => 3
  | PrimarySsa32 => 4 | PrimarySsa64 => 5 | PrimarySsa128 => 6 | PrimarySsa256 => 7
  end.

(** ** The block *)

Record Trb := mk_trb {
  data_low : Z;
  data_high : Z;
  status_w : Z;
  control : Z;
}.

#[global] Instance Trb_eq_dec : EqDecision Trb.
Proof. solve_decision. Defined.

Definition zero_trb : Trb := mk_trb 0 0 0 0.

Definition TRB_STATUS_COMPLETION_CODE_SHIFT : Z := 24.

Definition TRB_STATUS_COMPLETION_PARAM_MASK : Z := 0x00FFFFFF.

Definition TRB_STATUS_TRANSFER_LENGTH_MASK : Z := 0x00FFFFFF.

Definition TRB_CONTROL_TRB_TYPE_SHIFT : Z := 10.

Definition TRB_CONTROL_TRB_TYPE_MASK : Z := 0x0000FC00.

Definition TRB_CONTROL_EVENT_DATA_SHIFT : Z := 2.

Definition TRB_CONTROL_EVENT_DATA_BIT : Z := Z.shiftl 1 TRB_CONTROL_EVENT_DATA_SHIFT.

Definition TRB_CONTROL_ENDPOINT_ID_MASK : Z := 0x001F0000.

Definition TRB_CONTROL_ENDPOINT_ID_SHIFT : Z := 16.

(** A [u32] shift left discards what leaves the word. *)
Definition shl32 (x k : Z) : Z := as_u32 (Z.shiftl x k).

Abbreviation trb_prog := (prog Trb Empty_set unit).

Definition set (data status ctl : Z) : trb_prog :=
  λ _, (Ok tt, mk_trb (as_u32 data) (as_u32 (Z.shiftr data 32)) status ctl).

(** [assert_eq!(a, b)]. *)
Definition assert_eq (a b : Z) (k : trb_prog) : trb_prog := if a =? b then k else panic.

Definition reserved (cyc : bool) : trb_prog :=
  set 0 0 (Z.lor (shl32 (trb_type_code TReserved) 10) (of_bool cyc)).

(** ** Accessors *)

Definition read_data (t : Trb) : Z := Z.lor (data_low t) (Z.shiftl (data_high t) 32).

Definition completion_code (t : Trb) : Z :=
  as_u8 (Z.shiftr (status_w t) TRB_STATUS_COMPLETION_CODE_SHIFT).

Definition completion_param (t : Trb) : Z :=
  Z.land (status_w t) TRB_STATUS_COMPLETION_PARAM_MASK.

Definition has_completion_trb_pointer (t : Trb) : bool :=
  if (completion_code t =? completion_code_value CRingUnderrun)
     || (completion_code t =? completion_code_value CRingOverrun)
  then false
  else if completion_code t =? completion_code_value CVfEventRingFull then false
  else true.

Definition completion_trb_pointer (t : Trb) : option Z :=
  if has_completion_trb_pointer t then Some (read_data t) else None.

Definition transfer_event_trb_pointer (t : Trb) : option Z :=
  if has_completion_trb_pointer t then Some (read_data t) else None.

Definition port_status_change_port_id (t : Trb) : option Z :=
  if has_completion_trb_pointer t
  then Some (as_u8 (Z.land (Z.shiftr (read_data t) 24) 0xFF))
  else None.

Definition event_slot (t : Trb) : Z := as_u8 (Z.shiftr (control t) 24).

Definition transfer_length (t : Trb) : Z :=
  Z.land (status_w t) TRB_STATUS_TRANSFER_LENGTH_MASK.

Definition event_data_bit (t : Trb) : bool :=
  Z.land (control t) TRB_CONTROL_EVENT_DATA_BIT =? TRB_CONTROL_EVENT_DATA_BIT.

Definition event_data (t : Trb) : option Z :=
  if event_data_bit t then Some (read_data t) else None.

Definition endpoint_id (t : Trb) : Z :=
  as_u8 (Z.shiftr (Z.land (control t) TRB_CONTROL_ENDPOINT_ID_MASK)
           TRB_CONTROL_ENDPOINT_ID_SHIFT).

Definition trb_type (t : Trb) : Z :=
  as_u8 (Z.shiftr (Z.land (control t) TRB_CONTROL_TRB_TYPE_MASK)
           TRB_CONTROL_TRB_TYPE_SHIFT).

Definition cycle (t : Trb) : bool := Z.land (control t) 0x01 =? 0x01.

(** ** Builders *)

Definition link (address : Z) (toggle cyc : bool) : trb_prog :=
  set address 0
    (Z.lor (Z.lor (shl32 (trb_type_code TLink) 10) (shl32 (of_bool toggle) 1))
       (of_bool cyc)).

Definition no_op_cmd (cyc : bool) : trb_prog :=
  set 0 0 (Z.lor (shl32 (trb_type_code TNoOpCmd) 10) (of_bool cyc)).

Definition enable_slot (slot_type : Z) (cyc : bool) : trb_prog :=
  set 0 0
    (Z.lor (Z.lor (shl32 (Z.land slot_type 0x1F) 16) (shl32 (trb_type_code TEnableSlot) 10))
       (of_bool cyc)).

Definition disable_slot (slot : Z) (cyc : bool) : trb_prog :=
  set 0 0
    (Z.lor (Z.lor (shl32 slot 24) (shl32 (trb_type_code TDisableSlot) 10)) (of_bool cyc)).

Definition address_device (slot_id input_ctx_ptr : Z) (bsr cyc : bool) : trb_prog :=
  assert_eq (Z.land input_ctx_ptr 0xFFFFFFFFFFFFFFF0) input_ctx_ptr
    (set input_ctx_ptr 0
       (Z.lor (Z.lor (Z.lor (shl32 slot_id 24) (shl32 (trb_type_code TAddressDevice) 10))
                 (shl32 (of_bool bsr) 9))
          (of_bool cyc))).

Definition configure_endpoint (slot_id input_ctx_ptr : Z) (cyc : bool) : trb_prog :=
  assert_eq (Z.land input_ctx_ptr 0xFFFFFFFFFFFFFFF0) input_ctx_ptr
    (set input_ctx_ptr 0
       (Z.lor (Z.lor (shl32 slot_id 24) (shl32 (trb_type_code TConfigureEndpoint) 10))
          (of_bool cyc))).

Definition evaluate_context (slot_id input_ctx_ptr : Z) (bsr cyc : bool) : trb_prog :=
  assert_eq (Z.land input_ctx_ptr 0xFFFFFFFFFFFFFFF0) input_ctx_ptr
    (set input_ctx_ptr 0
       (Z.lor (Z.lor (Z.lor (shl32 slot_id 24) (shl32 (trb_type_code TEvaluateContext) 10))
                 (shl32 (of_bool bsr) 9))
          (of_bool cyc))).

Definition reset_endpoint (slot_id endp_num_xhc : Z) (tsp cyc : bool) : trb_prog :=
  assert_eq (Z.land endp_num_xhc 0x1F) endp_num_xhc
    (set 0 0
       (Z.lor (Z.lor (Z.lor (Z.lor (shl32 slot_id 24) (shl32 endp_num_xhc 16))
                        (shl32 (trb_type_code TResetEndpoint) 10))
                 (shl32 (of_bool tsp) 9))
          (of_bool cyc))).

Definition set_tr_deque_ptr (deque_ptr : Z) (cyc : bool) (sct : StreamContextType)
    (stream_id endp_num_xhc slot : Z) : trb_prog :=
  assert_eq (Z.land deque_ptr 0xFFFFFFFFFFFFFFF1) deque_ptr
    (assert_eq (Z.land endp_num_xhc 0x1F) endp_num_xhc
       (set (Z.lor deque_ptr (Z.shiftl (sct_code sct) 1)) (shl32 stream_id 16)
          (Z.lor (Z.lor (Z.lor (shl32 slot 24) (shl32 endp_num_xhc 16))
                    (shl32 (trb_type_code TSetTrDequeuePointer) 10))
             (of_bool cyc)))).

Definition stop_endpoint (slot_id endp_num_xhc : Z) (suspend cyc : bool) : trb_prog :=
  assert_eq (Z.land endp_num_xhc 0x1F) endp_num_xhc
    (set 0 0
       (Z.lor (Z.lor (Z.lor (Z.lor (shl32 slot_id 24) (shl32 (of_bool suspend) 23))
                        (shl32 endp_num_xhc 16))
                 (shl32 (trb_type_code TStopEndpoint) 10))
          (of_bool cyc))).

Definition reset_device (slot_id : Z) (cyc : bool) : trb_prog :=
  set 0 0
    (Z.lor (Z.lor (shl32 slot_id 24) (shl32 (trb_type_code TResetDevice) 10)) (of_bool cyc)).

Definition transfer_no_op (interrupter : Z) (ent ch ioc cyc : bool) : trb_prog :=
  set 0 (shl32 interrupter 22)
    (Z.lor (Z.lor (Z.lor (Z.lor (shl32 (trb_type_code TNoOp) 10) (shl32 (of_bool ioc) 5))
                     (shl32 (of_bool ch) 4))
              (shl32 (of_bool ent) 1))
       (of_bool cyc)).

Definition setup (s : Setup) (transfer : TransferKind) (cyc : bool) : trb_prog :=
  set (setup_bits s) 8
    (Z.lor (Z.lor (Z.lor (shl32 (transfer_kind_code transfer) 16)
                     (shl32 (trb_type_code TSetupStage) 10))
              (Z.shiftl 1 6))
       (of_bool cyc)).

Definition data (buffer length : Z) (input cyc : bool) : trb_prog :=
  set buffer length
    (Z.lor (Z.lor (shl32 (of_bool input) 16) (shl32 (trb_type_code TDataStage) 10))
       (of_bool cyc)).

Definition status (interrupter : Z) (input ioc ch ent cyc : bool) : trb_prog :=
  set 0 (shl32 interrupter 22)
    (Z.lor (Z.lor (Z.lor (Z.lor (Z.lor (shl32 (of_bool input) 16)
                                   (shl32 (trb_type_code TStatusStage) 10))
                            (shl32 (of_bool ioc) 5))
                     (shl32 (of_bool ch) 4))
              (shl32 (of_bool ent) 1))
       (of_bool cyc)).

Definition normal (buffer len : Z) (cyc : bool) (estimated_td_size interrupter : Z)
    (ent isp chain ioc idt bei : bool) : trb_prog :=
  assert_eq (Z.land estimated_td_size 0x1F) estimated_td_size
    (set buffer
       (Z.lor (Z.lor len (shl32 estimated_td_size 17)) (shl32 interrupter 22))
       (Z.lor (Z.lor (Z.lor (Z.lor (Z.lor (Z.lor (Z.lor (of_bool cyc)
          (shl32 (of_bool ent) 1)) (shl32 (of_bool isp) 2)) (shl32 (of_bool chain) 4))
          (shl32 (of_bool ioc) 5)) (shl32 (of_bool idt) 6)) (shl32 (of_bool bei) 9))
          (shl32 (trb_type_code TNormal) 10))).

(** ** Classification *)

Definition command_types : list TrbType :=
  [TNoOpCmd; TEnableSlot; TDisableSlot; TAddressDevice; TConfigureEndpoint;
   TEvaluateContext; TResetEndpoint; TStopEndpoint; TSetTrDequeuePointer; TResetDevice;
   TForceEvent; TNegotiateBandwidth; TSetLatencyToleranceValue; TGetPortBandwidth;
   TForceHeader; TGetExtendedProperty; TSetExtendedProperty].

Definition is_command_trb (t : Trb) : bool :=
  existsb (λ ty, trb_type_code ty =? trb_type t) command_types.

Definition transfer_types : list TrbType :=
  [TNormal; TSetupStage; TDataStage; TStatusStage; TIsoch; TNoOp].

Definition is_transfer_trb (t : Trb) : bool :=
  existsb (λ ty, trb_type_code ty =? trb_type t) transfer_types.

(** ** Fields of the control word *)

Lemma trb_type_field (t : Trb) : trb_type t = field 10 6 (control t).
Proof.
  unfold trb_type. rewrite (field_of_mask _ _ _ 6) by done.
  apply as_u_id, (u_range_mono 6); [lia|]. by apply field_range.
Qed.

Lemma endpoint_id_field (t : Trb) : endpoint_id t = field 16 5 (control t).
Proof.
  unfold endpoint_id. rewrite (field_of_mask _ _ _ 5) by done.
  apply as_u_id, (u_range_mono 5); [lia|]. by apply field_range.
Qed.

Lemma event_slot_field (t : Trb) : event_slot t = field 24 8 (control t).
Proof. apply field_of_cast. lia. Qed.

Lemma cycle_field (t : Trb) : cycle t = (field 0 1 (control t) =? 1).
Proof. unfold cycle, field. by rewrite Z.shiftr_0_r. Qed.

Lemma read_data_set (d s c : Z) :
  u_range 64 d → read_data (mk_trb (as_u32 d) (as_u32 (Z.shiftr d 32)) s c) = d.
Proof.
  intros Hd. unfold read_data, as_u32. simpl.
  rewrite field_low_of_cast, field_of_cast by lia. by apply field_join.
Qed.

(** The pointer masks of the assertions. *)
Lemma align16_mask (p : Z) :
  u_range 64 p → (Z.land p 0xFFFFFFFFFFFFFFF0 =? p) = (p mod 16 =? 0).
Proof.
  intros Hp. rewrite (land_of_mask p _ 4 60) by done.
  rewrite Z.shiftl_mul_pow2, field_alt by lia.
  rewrite Z.mod_small by (unfold u_range in Hp; zdiv).
  apply Bool.eq_iff_eq_true. rewrite !Z.eqb_eq. zdiv.
Qed.

Lemma deque_mask (p : Z) :
  u_range 64 p → (Z.land p 0xFFFFFFFFFFFFFFF1 =? p) = (p mod 16 <? 2).
Proof.
  intros Hp.
  change 0xFFFFFFFFFFFFFFF1 with (Z.lor 0xFFFFFFFFFFFFFFF0 (Z.ones 1)).
  rewrite Z.land_lor_distr_r, (land_of_mask p _ 4 60), Z.land_ones by done.
  rewrite field_alt, Z.mod_small by (unfold u_range in *; zdiv).
  rewrite lor_shiftl_add by (unfold u_range; zdiv).
  apply Bool.eq_iff_eq_true. rewrite Z.eqb_eq, Z.ltb_lt. zdiv.
Qed.

Lemma low5_mask (x : Z) : u_range 8 x → (Z.land x 0x1F =? x) = (x <? 32).
Proof.
  intros Hx. change 0x1F with (Z.ones 5). rewrite Z.land_ones by done.
  apply Bool.eq_iff_eq_true. rewrite Z.eqb_eq, Z.ltb_lt. unfold u_range in Hx. zdiv.
Qed.

Lemma deque_data (p : Z) (sct : StreamContextType) :
  0 <= p → p mod 16 < 2 →
  Z.lor p (Z.shiftl (sct_code sct) 1) = p + 2 * sct_code sct.
Proof.
  intros Hp Hm.
  replace p with (Z.lor (Z.shiftl (p / 16) 4) (p mod 2)) at 1.
  2: { rewrite lor_shiftl_add by (unfold u_range; zdiv). zdiv. }
  assert (0 <= sct_code sct < 8) by (destruct sct; simpl; lia).
  rewrite <- Z.lor_assoc, (Z.lor_comm (p mod 2)).
  rewrite (lor_shiftl_add (sct_code sct)), (lor_shiftl_add (p / 16))
    by (unfold u_range; zdiv).
  zdiv.
Qed.

(** ** All builder calls at once *)

Inductive trb_op : Type :=
| OpReserved (cyc : bool)
| OpLink (address : Z) (toggle cyc : bool)
| OpNoOpCmd (cyc : bool)
| OpEnableSlot (slot_type : Z) (cyc : bool)
| OpDisableSlot (slot : Z) (cyc : bool)
| OpAddressDevice (slot ptr : Z) (bsr cyc : bool)
| OpConfigureEndpoint (slot ptr : Z) (cyc : bool)
| OpEvaluateContext (slot ptr : Z) (bsr cyc : bool)
| OpResetEndpoint (slot endp : Z) (tsp cyc : bool)
| OpSetTrDequeuePointer (ptr : Z) (cyc : bool) (sct : StreamContextType)
    (stream endp slot : Z)
| OpStopEndpoint (slot endp : Z) (suspend cyc : bool)
| OpResetDevice (slot : Z) (cyc : bool)
| OpTransferNoOp (interrupter : Z) (ent ch ioc cyc : bool)
| OpSetup (s : Setup) (k : TransferKind) (cyc : bool)
| OpData (buffer length : Z) (input cyc : bool)
| OpStatus (interrupter : Z) (input ioc ch ent cyc : bool)
| OpNormal (buffer len : Z) (cyc : bool) (td interrupter : Z)
    (ent isp chain ioc idt bei : bool).

Definition run_op (op : trb_op) : trb_prog :=
  match op with
  | OpReserved c => reserved c
  | OpLink a t c => link a t c
  | OpNoOpCmd c => no_op_cmd c
  | OpEnableSlot ty c => enable_slot ty c
  | OpDisableSlot s c => disable_slot s c
  | OpAddressDevice s p b c => address_device s p b c
  | OpConfigureEndpoint s p c => configure_endpoint s p c
  | OpEvaluateContext s p b c => evaluate_context s p b c
  | OpResetEndpoint s e t c => reset_endpoint s e t c
  | OpSetTrDequeuePointer p c sct st e s => set_tr_deque_ptr p c sct st e s
  | OpStopEndpoint s e u c => stop_endpoint s e u c
  | OpResetDevice s c => reset_device s c
  | OpTransferNoOp i e h o c => transfer_no_op i e h o c
  | OpSetup s k c => setup s k c
  | OpData b l i c => data b l i c
  | OpStatus i inp ioc ch ent c => status i inp ioc ch ent c
  | OpNormal b l c td i ent isp ch ioc idt bei => normal b l c td i ent isp ch ioc idt bei
  end.

(** What the block must say, independently of the bit twiddling. *)
Definition op_type (op : trb_op) : TrbType :=
  match op with
  | OpReserved _ => TReserved | OpLink _ _ _ => TLink | OpNoOpCmd _ => TNoOpCmd
  | OpEnableSlot _ _ => TEnableSlot | OpDisableSlot _ _ => TDisableSlot
  | OpAddressDevice _ _ _ _ => TAddressDevice
  | OpConfigureEndpoint _ _ _ => TConfigureEndpoint
  | OpEvaluateContext _ _ _ _ => TEvaluateContext
  | OpResetEndpoint _ _ _ _ => TResetEndpoint
  | OpSetTrDequeuePointer _ _ _ _ _ _ => TSetTrDequeuePointer
  | OpStopEndpoint _ _ _ _ => TStopEndpoint | OpResetDevice _ _ => TResetDevice
  | OpTransferNoOp _ _ _ _ _ => TNoOp | OpSetup _ _ _ => TSetupStage
  | OpData _ _ _ _ => TDataStage | OpStatus _ _ _ _ _ _ => TStatusStage
  | OpNormal _ _ _ _ _ _ _ _ _ _ _ => TNormal
  end.

Definition op_cycle (op : trb_op) : bool :=
  match op with
  | OpReserved c | OpLink _ _ c | OpNoOpCmd c | OpEnableSlot _ c | OpDisableSlot _ c
  | OpAddressDevice _ _ _ c | OpConfigureEndpoint _ _ c | OpEvaluateContext _ _ _ c
  | OpResetEndpoint _ _ _ c | OpSetTrDequeuePointer _ c _ _ _ _ | OpStopEndpoint _ _ _ c
  | OpResetDevice _ c | OpTransferNoOp _ _ _ _ c | OpSetup _ _ c | OpData _ _ _ c
  | OpStatus _ _ _ _ _ c | OpNormal _ _ c _ _ _ _ _ _ _ _ => c
  end.

Definition op_data (op : trb_op) : Z :=
  match op with
  | OpLink a _ _ => a
  | OpAddressDevice _ p _ _ | OpConfigureEndpoint _ p _ | OpEvaluateContext _ p _ _ => p
  | OpSetTrDequeuePointer p _ sct _ _ _ => p + 2 * sct_code sct
  | OpSetup s _ _ => setup_bits s
  | OpData b _ _ _ => b
  | OpNormal b _ _ _ _ _ _ _ _ _ _ => b
  | _ => 0
  end.

(** The slot and endpoint a command addresses, where it has one. *)
Definition op_slot (op : trb_op) : option Z :=
  match op with
  | OpDisableSlot s _ | OpAddressDevice s _ _ _ | OpConfigureEndpoint s _ _
  | OpEvaluateContext s _ _ _ | OpResetEndpoint s _ _ _
  | OpSetTrDequeuePointer _ _ _ _ _ s | OpStopEndpoint s _ _ _ | OpResetDevice s _ => Some s
  | _ => None
  end.

Definition op_endpoint (op : trb_op) : option Z :=
  match op with
  | OpResetEndpoint _ e _ _ | OpSetTrDequeuePointer _ _ _ _ e _
  | OpStopEndpoint _ e _ _ => Some e
  | _ => None
  end.

(** The Rust types of the arguments. *)
Definition op_typed (op : trb_op) : Prop :=
  match op with
  | OpReserved _ | OpNoOpCmd _ => True
  | OpLink a _ _ => u_range 64 a
  | OpEnableSlot ty _ => u_range 8 ty
  | OpDisableSlot s _ | OpResetDevice s _ => u_range 8 s
  | OpAddressDevice s p _ _ | OpConfigureEndpoint s p _ | OpEvaluateContext s p _ _ =>
      u_range 8 s ∧ u_range 64 p
  | OpResetEndpoint s e _ _ | OpStopEndpoint s e _ _ => u_range 8 s ∧ u_range 8 e
  | OpSetTrDequeuePointer p _ _ st e s =>
      u_range 64 p ∧ u_range 16 st ∧ u_range 8 e ∧ u_range 8 s
  | OpTransferNoOp i _ _ _ _ => u_range 8 i
  | OpSetup s _ _ => setup_wf s
  | OpData b l _ _ => u_range 64 b ∧ u_range 16 l
  | OpStatus i _ _ _ _ _ => u_range 16 i
  | OpNormal b l _ td i _ _ _ _ _ _ =>
      u_range 64 b ∧ u_range 32 l ∧ u_range 8 td ∧ u_range 8 i
  end.

(** Arguments the assertions accept: contexts aligned to 16 bytes, endpoint
    numbers and TD sizes of five bits, a dequeue pointer whose bits 1 to 3 are
    clear. *)
Definition op_accepted (op : trb_op) : bool :=
  match op with
  | OpAddressDevice _ p _ _ | OpConfigureEndpoint _ p _ | OpEvaluateContext _ p _ _ =>
      p mod 16 =? 0
  | OpResetEndpoint _ e _ _ | OpStopEndpoint _ e _ _ => e <? 32
  | OpSetTrDequeuePointer p _ _ _ e _ => (p mod 16 <? 2) && (e <? 32)
  | OpNormal _ _ _ td _ _ _ _ _ _ _ => td <? 32
  | _ => true
  end.

(** Evaluates one field of a control word built by a builder. *)
Ltac small := unfold u_range in *; simpl in *; lia.

Ltac ctl_field :=
  unfold shl32, as_u32; autorewrite with bits; cbn -[field];
  repeat match goal with
         | |- context [field (?a - ?b) _ _] =>
             let c := eval vm_compute in (a - b) in change (a - b) with c
         | |- context [field ?s ?n ?x] =>
             first [rewrite (field_0_small n x) by small
                   |rewrite (field_small s n x) by small]
         end;
  rewrite ?Z.lor_0_r, ?Z.lor_0_l.

Lemma assert_eq_spec (a b : Z) (k : trb_prog) (t : Trb) :
  assert_eq a b k t = if a =? b then k t else (Panic, t).
Proof. unfold assert_eq. by destruct (a =? b). Qed.

(** Rewrites every assertion of a builder to its arithmetic form. *)
Ltac op_asserts :=
  unfold address_device, configure_endpoint, evaluate_context, reset_endpoint,
    set_tr_deque_ptr, stop_endpoint, normal in *;
  rewrite ?assert_eq_spec in *;
  rewrite ?align16_mask, ?deque_mask, ?low5_mask in * by (tauto || done).

(** The data pointer of every accepted call fits the two data words. *)
Lemma op_data_range (op : trb_op) :
  op_typed op → op_accepted op = true → u_range 64 (op_data op).
Proof.
  destruct op; simpl; intros Ht Ha; destruct_and?; try done; try (unfold u_range; lia).
  - apply andb_true_iff in Ha as [Ha%Z.ltb_lt _].
    unfold u_range in *. destruct sct; simpl; zdiv.
  - by apply setup_bits_range.
Qed.

(** The words a builder stores. *)
Definition trb_words (d s c : Z) : Trb := mk_trb (as_u32 d) (as_u32 (Z.shiftr d 32)) s c.

Lemma run_op_set (op : trb_op) (t : Trb) :
  op_typed op →
  if op_accepted op
  then ∃ s c, run_op op t = (Ok tt, trb_words (op_data op) s c)
              ∧ field 10 6 c = trb_type_code (op_type op)
              ∧ field 0 1 c = of_bool (op_cycle op)
              ∧ (∀ n, op_slot op = Some n → field 24 8 c = n)
              ∧ (∀ n, op_endpoint op = Some n → field 16 5 c = n)
  else run_op op t = (Panic, t).
Proof.
  intros Ht.
  destruct op; simpl in Ht; destruct_and?; simpl run_op; op_asserts; simpl op_accepted;
    repeat match goal with
           | |- context [?a <? ?b] => destruct (Z.ltb_spec a b); [simpl|by rewrite ?andb_false_r]
           | |- context [?a =? ?b] => destruct (Z.eqb_spec a b); [simpl|done]
           end; rewrite ?deque_data by small.
  all: try (eexists _, _; split; [reflexivity|]; split_and!;
            [ctl_field; reflexivity|ctl_field; reflexivity| |]; simpl; intros n [= <-];
            ctl_field; done).
Qed.

Definition op_is_command (op : trb_op) : bool :=
  match op with
  | OpNoOpCmd _ | OpEnableSlot _ _ | OpDisableSlot _ _ | OpAddressDevice _ _ _ _
  | OpConfigureEndpoint _ _ _ | OpEvaluateContext _ _ _ _ | OpResetEndpoint _ _ _ _
  | OpSetTrDequeuePointer _ _ _ _ _ _ | OpStopEndpoint _ _ _ _ | OpResetDevice _ _ => true
  | _ => false
  end.

Definition op_is_transfer (op : trb_op) : bool :=
  match op with
  | OpTransferNoOp _ _ _ _ _ | OpSetup _ _ _ | OpData _ _ _ _ | OpStatus _ _ _ _ _ _
  | OpNormal _ _ _ _ _ _ _ _ _ _ _ => true
  | _ => false
  end.

(**  Every TRB builder either panics, exactly when one of its assertions
    (16-byte aligned context, five-bit endpoint or TD size, dequeue pointer with
    bits 1-3 clear) is violated, and then leaves the block as it was; or it
    succeeds. *)
Theorem trb_builders_accept (op : trb_op) (t : Trb) :
  op_typed op →
  (op_accepted op = false → run_op op t = (Panic, t)) ∧
  (op_accepted op = true → ∃ t', run_op op t = (Ok tt, t')).
Proof.
  intros Ht. pose proof (run_op_set op t Ht) as H.
  split; intros Ha; rewrite Ha in H; [done|].
  destruct H as (s & c & -> & _). eauto.
Qed.

Lemma trb_builders_accept_witness :
  op_typed (OpResetEndpoint 3 32 false true) ∧
  run_op (OpResetEndpoint 3 32 false true) zero_trb = (Panic, zero_trb).
Proof.
  split; [simpl; unfold u_range; lia|].
  apply (trb_builders_accept (OpResetEndpoint 3 32 false true) zero_trb).
  - simpl; unfold u_range; lia.
  - reflexivity.
Defined.

(**  Reading back a TRB that any builder produced gives what was asked for:
    the TRB type, the cycle bit, the 64-bit data pointer (a setup packet
    included), the slot and endpoint of a command; and [is_command_trb] /
    [is_transfer_trb] classify it correctly.  No field of any builder spills into
    another one. *)
Theorem trb_builders_layout (op : trb_op) (t t' : Trb) :
  op_typed op → run_op op t = (Ok tt, t') →
  trb_type t' = trb_type_code (op_type op) ∧ cycle t' = op_cycle op ∧
  read_data t' = op_data op ∧
  (∀ s, op_slot op = Some s → event_slot t' = s) ∧
  (∀ e, op_endpoint op = Some e → endpoint_id t' = e) ∧
  is_command_trb t' = op_is_command op ∧ is_transfer_trb t' = op_is_transfer op.
Proof.
  intros Ht Hrun. pose proof (run_op_set op t Ht) as H.
  destruct (op_accepted op) eqn:Ha; [|congruence].
  destruct H as (s & c & Hr & Hty & Hc & Hs & He).
  rewrite Hr in Hrun. injection Hrun as <-.
  assert (trb_type (trb_words (op_data op) s c) = trb_type_code (op_type op)) as Ht'
    by (by rewrite trb_type_field).
  unfold is_command_trb, is_transfer_trb. rewrite Ht'.
  rewrite cycle_field, event_slot_field, endpoint_id_field. simpl control. rewrite Hc.
  split_and!; auto.
  - by destruct (op_cycle op).
  - by apply read_data_set, op_data_range.
  - by destruct op.
  - by destruct op.
Qed.

Lemma trb_builders_layout_witness :
  let op := OpSetTrDequeuePointer 0x1001 true PrimaryRing 5 7 9 in
  op_typed op ∧ read_data (run_op op zero_trb).2 = 0x1003 ∧
  event_slot (run_op op zero_trb).2 = 9 ∧ endpoint_id (run_op op zero_trb).2 = 7.
Proof.
  intros op. assert (op_typed op) as Ht by (simpl; unfold u_range; lia).
  split; [done|].
  destruct (trb_builders_layout op zero_trb (run_op op zero_trb).2 Ht eq_refl)
    as (_ & _ & Hd & Hs & He & _).
  split_and!; [exact Hd|by apply Hs|by apply He].
Defined.

(** The status word of a normal TRB: transfer length, TD size and interrupter
    target, for a length of at most 17 bits. *)
Lemma normal_status_fields (buffer len td intr : Z) (c ent isp ch ioc idt bei : bool) (t t' : Trb) :
  u_range 17 len → u_range 8 td → u_range 8 intr →
  normal buffer len c td intr ent isp ch ioc idt bei t = (Ok tt, t') →
  field 0 17 (status_w t') = len ∧ field 17 5 (status_w t') = td ∧
  field 22 10 (status_w t') = intr.
Proof.
  intros Hl Htd Hi Hrun. op_asserts.
  destruct (Z.ltb_spec td 32); [|done]. injection Hrun as <-. simpl.
  split_and!; ctl_field; done.
Qed.

(** Event side: the completion code selects whether the data words are a
    pointer, and the port number is the top byte of the low data word. *)
Lemma port_id_field (t : Trb) :
  u_range 32 (data_low t) → u_range 32 (data_high t) →
  port_status_change_port_id t =
    (if has_completion_trb_pointer t then Some (field 24 8 (data_low t)) else None).
Proof.
  intros Hl Hh. unfold port_status_change_port_id.
  destruct (has_completion_trb_pointer t); [|done]. f_equal.
  change 0xFF with (Z.ones 8). fold (field 24 8 (read_data t)).
  unfold as_u8. rewrite as_u_id by (by apply field_range). unfold read_data.
  by autorewrite with bits.
Qed.

(**  A controller event is never matched to a TRB pointer when its
    completion code is ring underrun, ring overrun or VF event ring full, and is
    matched to the 64-bit pointer otherwise; the port number of a port-status
    event is the top byte of the low data word. *)
Theorem event_pointer_spec (t : Trb) :
  u_range 32 (data_low t) → u_range 32 (data_high t) →
  let ptr := data_low t + 2 ^ 32 * data_high t in
  if decide (field 24 8 (status_w t) ∈ [14; 15; 16])
  then completion_trb_pointer t = None ∧ transfer_event_trb_pointer t = None ∧
       port_status_change_port_id t = None
  else completion_trb_pointer t = Some ptr ∧ transfer_event_trb_pointer t = Some ptr ∧
       port_status_change_port_id t = Some (field 24 8 (data_low t)).
Proof.
  intros Hl Hh ptr. rewrite port_id_field by done.
  unfold completion_trb_pointer, transfer_event_trb_pointer.
  assert (has_completion_trb_pointer t =
            negb (bool_decide (field 24 8 (status_w t) ∈ [14; 15; 16]))) as ->.
  { unfold has_completion_trb_pointer, completion_code, as_u8, TRB_STATUS_COMPLETION_CODE_SHIFT.
    rewrite field_of_cast by lia. cbn [completion_code_value]. generalize (field 24 8 (status_w t)) as v. intros v.
    destruct (Z.eqb_spec v 14), (Z.eqb_spec v 15), (Z.eqb_spec v 16); subst; try done; [].
    simpl. rewrite bool_decide_eq_false_2; [done|]. set_solver. }
  assert (read_data t = ptr) as ->.
  { unfold read_data. rewrite Z.lor_comm, lor_shiftl_add by (done || lia). unfold ptr. lia. }
  case_decide as Hd.
  - by rewrite bool_decide_eq_true_2.
  - by rewrite bool_decide_eq_false_2.
Qed.

Lemma event_pointer_spec_witness :
  completion_trb_pointer (mk_trb 0x2000 1 0x0E000000 0) = None ∧
  completion_trb_pointer (mk_trb 0x2000 1 0x01000000 0) = Some 0x100002000.
Proof.
  split.
  - apply (event_pointer_spec (mk_trb 0x2000 1 0x0E000000 0)); simpl; unfold u_range; lia.
  - apply (event_pointer_spec (mk_trb 0x2000 1 0x01000000 0)); simpl; unfold u_range; lia.
Defined.
