(* ===== verification/XhciRing.v ===== *)
(** Transfer, command and event rings (xhcid/src/xhci/ring.rs, event.rs, the ring
    accesses of xhcid/src/xhci/scheme.rs and irq_reactor.rs).

    [Ring] is the driver's producer: an array of TRBs with an enqueue index and
    a cycle state; [next_index] is the loop of the source, run with fuel.
    [Consumer] is the abstract specification of the other side: the dequeue rule
    that the xHCI specification gives the controller (a TRB is valid when its
    cycle bit equals the consumer cycle state; a link TRB with the toggle bit
    restarts at the pointer and flips that state).  [ring_sim] relates ring and
    consumer to a plain FIFO queue; the theorems show that enqueueing and
    dequeueing implement the queue. *)

From S2P Require Import Prelude UsbSetup XhciTrb.

(** ** The ring *)

Record Ring := mk_ring {
  rg_link : bool;
  rg_trbs : list Trb;
  rg_phys : Z;     (* trbs.physical() *)
  rg_virt : Z;     (* trbs.as_ptr() *)
  rg_i : nat;
  rg_cycle : bool;
}.

Definition with_i (i : nat) (r : Ring) : Ring :=
  mk_ring (rg_link r) (rg_trbs r) (rg_phys r) (rg_virt r) i (rg_cycle r).

Definition with_trbs (l : list Trb) (r : Ring) : Ring :=
  mk_ring (rg_link r) l (rg_phys r) (rg_virt r) (rg_i r) (rg_cycle r).

Definition with_cycle (c : bool) (r : Ring) : Ring :=
  mk_ring (rg_link r) (rg_trbs r) (rg_phys r) (rg_virt r) (rg_i r) c.

Definition TRB_SIZE : Z := 16.

(** [Ring::new]; [alloc] is the DMA allocator of the system: it yields the
    physical and the virtual address of zeroed memory, or an error code. *)
Definition ring_new (alloc : nat → errno + Z * Z) (length : nat) (lnk : bool) : res errno Ring :=
  match alloc length with
  | inl e => Err e
  | inr (phys, virt) => Ok (mk_ring lnk (replicate length zero_trb) phys virt 0 lnk)
  end.

Definition register (r : Ring) : Z :=
  Z.lor (as_u64 (rg_phys r + TRB_SIZE * Z.of_nat (rg_i r))) (of_bool (rg_cycle r)).

(** Runs a builder on [self.trbs[i]]; indexing out of range panics. *)
Definition at_trb (i : nat) (f : trb_prog) (r : Ring) : res Empty_set unit * Ring :=
  match rg_trbs r !! i with
  | None => (Panic, r)
  | Some t => let '(o, t') := f t in (o, with_trbs (<[i := t']> (rg_trbs r)) r)
  end.

(** One pass of the [loop]: [Some i] is [break] with that index. *)
Definition next_index_body (r : Ring) : res Empty_set (option nat) * Ring :=
  let i := rg_i r in
  let r := with_i (S i) r in
  if decide (length (rg_trbs r) <= rg_i r)%nat then
    let r := with_i 0 r in
    if rg_link r then
      match at_trb i (link (rg_phys r) true (rg_cycle r)) r with
      | (Ok _, r) => (Ok None, with_cycle (negb (rg_cycle r)) r)
      | (Err e, r) => (Err e, r)
      | (Panic, r) => (Panic, r)
      end
    else (Ok (Some i), r)
  else (Ok (Some i), r).

(** [None]: the fuel ran out before a [break]. *)
Fixpoint next_index_loop (fuel : nat) (r : Ring) : option (res Empty_set nat * Ring) :=
  match fuel with
  | O => None
  | S fuel =>
      match next_index_body r with
      | (Ok (Some i), r) => Some (Ok i, r)
      | (Ok None, r) => next_index_loop fuel r
      | (Err e, r) => Some (Err e, r)
      | (Panic, r) => Some (Panic, r)
      end
  end.

(** Two passes are enough for every ring of more than one TRB
    ([next_index_terminates]). *)
Definition next_index (r : Ring) : option (res Empty_set nat * Ring) := next_index_loop 2 r.

(** [next()] (and the two-line form used by the command and control paths): the
    entry to fill and the cycle bit to give it. *)
Definition ring_next (r : Ring) : option (res Empty_set (nat * bool) * Ring) :=
  match next_index r with
  | None => None
  | Some (Ok i, r) =>
      if decide (i < length (rg_trbs r))%nat then Some (Ok (i, rg_cycle r), r)
      else Some (Panic, r)
  | Some (Err e, r) => Some (Err e, r)
  | Some (Panic, r) => Some (Panic, r)
  end.

(** The callers' pattern: take the next entry and let [f] build a TRB in it with
    the ring's cycle bit. *)
Definition enqueue (f : bool → trb_prog) (r : Ring) : option (res Empty_set nat * Ring) :=
  match ring_next r with
  | None => None
  | Some (Ok (i, c), r) =>
      match at_trb i (f c) r with
      | (Ok _, r) => Some (Ok i, r)
      | (Err e, r) => Some (Err e, r)
      | (Panic, r) => Some (Panic, r)
      end
  | Some (Err e, r) => Some (Err e, r)
  | Some (Panic, r) => Some (Panic, r)
  end.

(** ** Addresses *)

(** The base address as the controller sees it. *)
Definition phys_base (ac64 : bool) (r : Ring) : Z :=
  Z.land (rg_phys r) (if ac64 then 0xFFFFFFFFFFFFFFFF else 0xFFFFFFFF).

(** [checked_sub] failing is [Ok None]; the alignment assertion panics. *)
Definition phys_addr_to_index (ac64 : bool) (paddr : Z) (r : Ring) : res Empty_set (option Z) :=
  let base := phys_base ac64 r in
  if paddr <? base then Ok None
  else
    let offset := paddr - base in
    if offset mod TRB_SIZE =? 0 then
      let index := offset / TRB_SIZE in
      if Z.of_nat (length (rg_trbs r)) <? index then Ok None else Ok (Some index)
    else Panic.

(** [phys_addr_to_entry]: the index is used on the slice. *)
Definition phys_addr_to_entry (ac64 : bool) (paddr : Z) (r : Ring) : res Empty_set (option Trb) :=
  match phys_addr_to_index ac64 paddr r with
  | Ok None => Ok None
  | Ok (Some ix) =>
      match rg_trbs r !! Z.to_nat ix with Some t => Ok (Some t) | None => Panic end
  | Err e => Err e
  | Panic => Panic
  end.

(** [phys_addr_to_entry_mut] followed by an update [f] of the entry. *)
Definition update_entry (ac64 : bool) (paddr : Z) (f : trb_prog) (r : Ring)
    : res Empty_set (option Trb) * Ring :=
  match phys_addr_to_index ac64 paddr r with
  | Ok None => (Ok None, r)
  | Ok (Some ix) =>
      match rg_trbs r !! Z.to_nat ix with
      | None => (Panic, r)
      | Some t =>
          match at_trb (Z.to_nat ix) f r with
          | (Ok _, r') => (Ok (Some t), r')
          | (Err e, r') => (Err e, r')
          | (Panic, r') => (Panic, r')
          end
      end
  | Err e => (Err e, r)
  | Panic => (Panic, r)
  end.

(** [trb_phys_ptr]; the argument is the virtual address of the TRB. *)
Definition trb_phys_ptr (ac64 : bool) (trb_virt : Z) (r : Ring) : res Empty_set Z :=
  if (trb_virt <? rg_virt r)
     || (rg_virt r + Z.of_nat (length (rg_trbs r)) * TRB_SIZE <? trb_virt)
  then Panic
  else Ok (phys_base ac64 r + (trb_virt - rg_virt r)).

(** The IRQ reactor's handling of the command TRB of a completion event: clone
    it for the waiter, then overwrite it with [reserved(false)]. *)
Definition acknowledge_command (ac64 : bool) (phys_ptr : Z) (r : Ring)
    : res Empty_set (option Trb) * Ring :=
  update_entry ac64 phys_ptr (reserved false) r.

(** The endless iterator over the ring's entries. *)
Definition iter_next (i : nat) (r : Ring) : option (Trb * nat) :=
  match rg_trbs r !! i with
  | Some t => Some (t, (i + 1) mod length (rg_trbs r))%nat
  | None => None
  end.

(** ** The event ring *)

Record EventRingSte := mk_ste { ste_address_low : Z; ste_address_high : Z; ste_size : Z }.

Record EventRing := mk_event_ring { er_ste : EventRingSte; er_ste_phys : Z; er_ring : Ring }.

Definition event_ring_new (alloc : nat → errno + Z * Z) : res errno EventRing :=
  match alloc 1%nat with
  | inl e => Err e
  | inr (ste_phys, _) =>
      match ring_new alloc 256 false with
      | Ok r => Ok (mk_event_ring
                      (mk_ste (as_u32 (rg_phys r)) (as_u32 (Z.shiftr (rg_phys r) 32))
                         (as_u16 (Z.of_nat (length (rg_trbs r)))))
                      ste_phys r)
      | Err e => Err e
      | Panic => Panic
      end
  end.

Definition erdp (e : EventRing) : Z := Z.land (register (er_ring e)) 0xFFFFFFFFFFFFFFF0.

Definition erstba (e : EventRing) : Z := er_ste_phys e.

(** ** The consumer of the specification *)

Record Consumer := mk_consumer { c_idx : nat; c_ccs : bool }.

Definition TOGGLE_BIT : Z := 1.

(** One look at the ring: follow at most one link TRB, then take a valid TRB. *)
Definition consume_at (r : Ring) (c : Consumer) : option (Trb * Consumer) :=
  match rg_trbs r !! c_idx c with
  | Some t => if eqb (cycle t) (c_ccs c) then Some (t, mk_consumer (S (c_idx c)) (c_ccs c)) else None
  | None => None
  end.

Definition consume (r : Ring) (c : Consumer) : option (Trb * Consumer) :=
  match consume_at r c with
  | Some (t, c') =>
      if trb_type t =? trb_type_code TLink then
        let ccs := if Z.testbit (control t) TOGGLE_BIT then negb (c_ccs c) else c_ccs c in
        consume_at r (mk_consumer (Z.to_nat ((read_data t - rg_phys r) / TRB_SIZE)) ccs)
      else Some (t, c')
  | None => None
  end.

(** ** The enqueue loop *)

Definition link_trb (phys : Z) (c : bool) : Trb := (link phys true c zero_trb).2.

Lemma next_index_inner (r : Ring) :
  (S (rg_i r) < length (rg_trbs r))%nat →
  next_index r = Some (Ok (rg_i r), with_i (S (rg_i r)) r).
Proof.
  intros Hi. unfold next_index. simpl. unfold next_index_body. simpl.
  rewrite decide_False by lia. done.
Qed.

Lemma next_index_wrap (r : Ring) :
  rg_link r = true → S (rg_i r) = length (rg_trbs r) → (2 <= length (rg_trbs r))%nat →
  next_index r =
    Some (Ok 0%nat, mk_ring true (<[rg_i r := link_trb (rg_phys r) (rg_cycle r)]> (rg_trbs r))
                      (rg_phys r) (rg_virt r) 1 (negb (rg_cycle r))).
Proof.
  destruct r as [lnk trbs phys virt i c]. simpl. intros -> Hi Hlen.
  unfold next_index. simpl. unfold next_index_body, at_trb. simpl.
  rewrite decide_True by lia. simpl.
  destruct (lookup_lt_is_Some_2 trbs i) as [t Ht]; [lia|]. rewrite Ht. simpl.
  by rewrite length_insert, decide_False by lia.
Qed.

Lemma next_index_no_link (r : Ring) :
  rg_link r = false → S (rg_i r) = length (rg_trbs r) →
  next_index r = Some (Ok (rg_i r), with_i 0 r).
Proof.
  intros Hl Hi. unfold next_index. simpl. unfold next_index_body. simpl.
  rewrite decide_True by lia. simpl. by rewrite Hl.
Qed.

(** A ring with a link TRB and no other entry spins forever. *)
Lemma next_index_spins (fuel : nat) (r : Ring) :
  rg_link r = true → length (rg_trbs r) = 1%nat → rg_i r = 0%nat →
  next_index_loop fuel r = None.
Proof.
  revert r. induction fuel as [|fuel IH]; intros r Hl Hlen Hi; [done|].
  simpl. unfold next_index_body, at_trb. simpl. rewrite decide_True by lia.
  rewrite Hl. destruct (lookup_lt_is_Some_2 (rg_trbs r) (rg_i r)) as [t Ht]; [lia|].
  simpl. rewrite Ht. simpl. apply IH; simpl; rewrite ?length_insert; done.
Qed.

(**  [Ring::next_index] terminates exactly when the ring is not a lone link
    TRB: for an index in range it leaves the loop within two passes unless
    [link] is set and the ring has a single entry, and in that case no number of
    passes is enough. *)
Theorem next_index_terminates (r : Ring) :
  (rg_i r < length (rg_trbs r))%nat →
  if decide (rg_link r = true ∧ length (rg_trbs r) = 1%nat)
  then ∀ fuel, next_index_loop fuel r = None
  else ∃ i r', next_index r = Some (Ok i, r') ∧ (i < length (rg_trbs r'))%nat ∧
               (rg_i r' < length (rg_trbs r'))%nat ∧
               length (rg_trbs r') = length (rg_trbs r).
Proof.
  intros Hi. case_decide as Hd.
  - intros fuel. destruct Hd. apply next_index_spins; [done|done|lia].
  - destruct (decide (S (rg_i r) < length (rg_trbs r))%nat).
    + rewrite next_index_inner by done. eexists _, _. split; [done|]. simpl. lia.
    + destruct (rg_link r) eqn:Hl.
      * rewrite next_index_wrap by (done || naive_solver lia).
        eexists _, _. split; [done|]. simpl. rewrite length_insert. naive_solver lia.
      * rewrite next_index_no_link by (done || lia).
        eexists _, _. split; [done|]. simpl. lia.
Qed.

Lemma next_index_terminates_witness :
  ∃ i r', next_index (mk_ring true [zero_trb; zero_trb] 0 0 1 true) = Some (Ok i, r') ∧
          (rg_i r' < 2)%nat.
Proof.
  destruct (next_index_terminates (mk_ring true [zero_trb; zero_trb] 0 0 1 true))
    as (i & r' & Hn & _ & Hi & Hl); [simpl; lia|].
  exists i, r'. split; [exact Hn|]. simpl in Hl. lia.
Defined.

(** ** The ring as a queue *)

(** [f] builds the TRB [mk c], whose cycle bit is the one it is given and which
    is not a link. *)
Definition builds (f : bool → trb_prog) (mk : bool → Trb) : Prop :=
  ∀ c t, f c t = (Ok tt, mk c) ∧ cycle (mk c) = c ∧ trb_type (mk c) ≠ trb_type_code TLink.

(** Entries below the enqueue index carry the current cycle state, the rest of
    the ring (the link entry included) the previous one; only the last entry may
    be a link. *)
Record ring_ok (r : Ring) : Prop := {
  ok_link : rg_link r = true;
  ok_len : (2 <= length (rg_trbs r))%nat;
  ok_i : (rg_i r < length (rg_trbs r))%nat;
  ok_phys : u_range 64 (rg_phys r);
  ok_stamped : ∀ s t, rg_trbs r !! s = Some t →
    cycle t = (if decide (s < rg_i r)%nat then rg_cycle r else negb (rg_cycle r));
  ok_plain : ∀ s t, (S s < length (rg_trbs r))%nat → rg_trbs r !! s = Some t →
    trb_type t ≠ trb_type_code TLink;
}.

(** Consumer in the producer's lap, or one lap behind it. *)
Definition ring_sim (r : Ring) (c : Consumer) (q : list Trb) : Prop :=
  ring_ok r ∧ (c_idx c < length (rg_trbs r))%nat ∧
  ((c_ccs c = rg_cycle r ∧ (c_idx c <= rg_i r)%nat ∧
    q = slice (c_idx c) (rg_i r - c_idx c) (rg_trbs r)) ∨
   (c_ccs c = negb (rg_cycle r) ∧ (rg_i r <= c_idx c)%nat ∧ (0 < rg_i r)%nat ∧
    rg_trbs r !! pred (length (rg_trbs r)) = Some (link_trb (rg_phys r) (negb (rg_cycle r))) ∧
    q = slice (c_idx c) (pred (length (rg_trbs r)) - c_idx c) (rg_trbs r)
        ++ slice 0 (rg_i r) (rg_trbs r))).

(** The usable capacity: every entry but the link. *)
Definition capacity (r : Ring) : nat := pred (length (rg_trbs r)).

Lemma link_trb_fields (phys : Z) (c : bool) :
  u_range 64 phys →
  cycle (link_trb phys c) = c ∧ trb_type (link_trb phys c) = trb_type_code TLink ∧
  Z.testbit (control (link_trb phys c)) TOGGLE_BIT = true ∧
  read_data (link_trb phys c) = phys.
Proof.
  intros Hp.
  destruct (run_op_set (OpLink phys true c) zero_trb Hp) as (s & w & Hr & Hty & Hc & _).
  split_and!.
  - by destruct c.
  - by destruct c.
  - by destruct c.
  - by apply read_data_set.
Qed.

Lemma ring_new_ok (alloc : nat → errno + Z * Z) (n : nat) (r : Ring) (phys virt : Z) :
  (2 <= n)%nat → alloc n = inr (phys, virt) → u_range 64 phys → ring_new alloc n true = Ok r →
  ring_sim r (mk_consumer 0 true) [].
Proof.
  intros Hn Ha Hp Hr. unfold ring_new in Hr. rewrite Ha in Hr. injection Hr as <-.
  split_and!.
  - split; simpl; rewrite ?length_replicate; try done; try lia.
    + intros s t [-> _]%lookup_replicate. by destruct s.
    + by intros s t _ [-> _]%lookup_replicate.
  - simpl. rewrite length_replicate. lia.
  - left. simpl. split_and!; [done|lia|]. by rewrite slice_0.
Qed.

(** Filling the entry the enqueue index points at. *)
Definition filled (mk : bool → Trb) (r : Ring) : Ring :=
  with_i (S (rg_i r)) (with_trbs (<[rg_i r := mk (rg_cycle r)]> (rg_trbs r)) r).

Lemma enqueue_inner (f : bool → trb_prog) (mk : bool → Trb) (r : Ring) :
  builds f mk → (S (rg_i r) < length (rg_trbs r))%nat →
  enqueue f r = Some (Ok (rg_i r), filled mk r).
Proof.
  intros Hf Hi. unfold enqueue, ring_next. rewrite next_index_inner by done. simpl.
  rewrite decide_True by lia. unfold at_trb. simpl.
  destruct (lookup_lt_is_Some_2 (rg_trbs r) (rg_i r)) as [t Ht]; [lia|]. rewrite Ht.
  by destruct (Hf (rg_cycle r) t) as [-> _].
Qed.

(** At the link entry: the link TRB is written, the cycle state flips and the
    TRB goes to the first entry. *)
Definition wrapped (r : Ring) : Ring :=
  mk_ring true (<[rg_i r := link_trb (rg_phys r) (rg_cycle r)]> (rg_trbs r))
    (rg_phys r) (rg_virt r) 0 (negb (rg_cycle r)).

Lemma enqueue_wrap (f : bool → trb_prog) (mk : bool → Trb) (r : Ring) :
  builds f mk → rg_link r = true → S (rg_i r) = length (rg_trbs r) →
  (2 <= length (rg_trbs r))%nat →
  enqueue f r = Some (Ok 0%nat, filled mk (wrapped r)).
Proof.
  intros Hf Hl Hi Hlen. unfold enqueue, ring_next. rewrite next_index_wrap by done. simpl.
  rewrite length_insert, decide_True by lia. unfold at_trb. simpl.
  destruct (lookup_lt_is_Some_2 (<[rg_i r := link_trb (rg_phys r) (rg_cycle r)]> (rg_trbs r)) 0)
    as [t Ht]; [rewrite length_insert; lia|]. rewrite Ht.
  by destruct (Hf (negb (rg_cycle r)) t) as [-> _].
Qed.

(** What enqueueing needs of a ring, and keeps. *)
Definition ring_shape (r : Ring) : Prop :=
  rg_link r = true ∧ (2 <= length (rg_trbs r))%nat ∧ (rg_i r < length (rg_trbs r))%nat.

(** Two rings over the same memory. *)
Definition same_place (r r' : Ring) : Prop :=
  rg_phys r = rg_phys r' ∧ rg_virt r = rg_virt r' ∧ length (rg_trbs r) = length (rg_trbs r').

Lemma enqueue_shape (f : bool → trb_prog) (mk : bool → Trb) (r : Ring) :
  builds f mk → ring_shape r →
  ∃ i r', enqueue f r = Some (Ok i, r') ∧ ring_shape r' ∧ same_place r r' ∧
    rg_trbs r' !! i = Some (mk (rg_cycle r')).
Proof.
  intros Hf (Hl & Hlen & Hi). destruct (decide (S (rg_i r) = length (rg_trbs r))) as [He|Hne].
  - exists 0%nat, (filled mk (wrapped r)). rewrite (enqueue_wrap f mk r) by done.
    unfold ring_shape, same_place. simpl. rewrite !length_insert.
    split_and!; try done; try lia. rewrite list_lookup_insert_eq; [done|]. rewrite length_insert. lia.
  - exists (rg_i r), (filled mk r). rewrite (enqueue_inner f mk r) by (done || lia).
    unfold ring_shape, same_place. simpl. rewrite !length_insert.
    split_and!; try done; try lia. by rewrite list_lookup_insert_eq.
Qed.

Lemma filled_ok (mk : bool → Trb) (f : bool → trb_prog) (r : Ring) :
  builds f mk → ring_ok r → (S (rg_i r) < length (rg_trbs r))%nat → ring_ok (filled mk r).
Proof.
  intros Hf [Hl Hlen Hi Hp Hs Hpl] HS.
  split; simpl; rewrite ?length_insert; try done.
  - intros s t Ht. destruct (decide (s = rg_i r)) as [->|Hne].
    + rewrite list_lookup_insert_eq in Ht by lia. injection Ht as <-.
      rewrite decide_True by lia. apply (Hf (rg_cycle r) zero_trb).
    + rewrite list_lookup_insert_ne in Ht by done. rewrite (Hs s t Ht).
      by repeat case_decide; try lia.
  - intros s t HSs Ht. destruct (decide (s = rg_i r)) as [->|Hne].
    + rewrite list_lookup_insert_eq in Ht by lia. injection Ht as <-.
      apply (Hf (rg_cycle r) zero_trb).
    + rewrite list_lookup_insert_ne in Ht by done. by apply (Hpl s t).
Qed.

Lemma wrapped_ok (r : Ring) :
  ring_ok r → S (rg_i r) = length (rg_trbs r) → ring_ok (wrapped r).
Proof.
  intros [Hl Hlen Hi Hp Hs Hpl] HS.
  split; simpl; rewrite ?length_insert; try done; try lia.
  - intros s t Ht. rewrite negb_involutive.
    replace (if decide (s < 0)%nat then negb (rg_cycle r) else rg_cycle r) with (rg_cycle r)
      by (by destruct s).
    destruct (decide (s = rg_i r)) as [->|Hne].
    + rewrite list_lookup_insert_eq in Ht by lia. injection Ht as <-.
      by apply link_trb_fields.
    + rewrite list_lookup_insert_ne in Ht by done.
      rewrite (Hs s t Ht), decide_True; [done|]. apply lookup_lt_Some in Ht. lia.
  - intros s t HSs Ht. rewrite list_lookup_insert_ne in Ht by lia. by apply (Hpl s t).
Qed.

(** The queue after filling, in either lap. *)
Lemma sim_filled (mk : bool → Trb) (f : bool → trb_prog) (r : Ring) (c : Consumer) (q : list Trb) :
  builds f mk → ring_sim r c q → (S (rg_i r) < length (rg_trbs r))%nat →
  (length q < capacity r)%nat → ring_sim (filled mk r) c (q ++ [mk (rg_cycle r)]).
Proof.
  intros Hf (Hok & Hc & Hlap) HS Hcap. split; [by eapply filled_ok|]. simpl.
  rewrite length_insert. split; [done|].
  destruct Hlap as [(Hccs & Hle & ->)|(Hccs & Hle & Hpos & Hlink & ->)].
  - left. split_and!; [done|lia|].
    rewrite Nat.sub_succ_l by lia.
    rewrite (slice_snoc _ _ _ (mk (rg_cycle r))).
    + by rewrite slice_insert_out by lia.
    + rewrite Nat.add_sub_assoc, Nat.add_comm, Nat.add_sub by lia.
      apply list_lookup_insert_eq. lia.
  - right. unfold capacity in Hcap.
    rewrite length_app, !length_slice in Hcap by lia.
    split_and!; [done|lia|lia| |].
    + rewrite list_lookup_insert_ne by lia. done.
    + rewrite slice_insert_out by lia.
      rewrite (slice_snoc 0 _ _ (mk (rg_cycle r))).
      * by rewrite (slice_insert_out 0), app_assoc by lia.
      * simpl. apply list_lookup_insert_eq. lia.
Qed.

(** Wrapping leaves the queue as it is: the consumer is now one lap behind.  The
    relation needs an enqueued TRB in the new lap, so it is established together
    with the fill. *)
Lemma sim_wrapped_filled (mk : bool → Trb) (f : bool → trb_prog) (r : Ring) (c : Consumer)
    (q : list Trb) :
  builds f mk → ring_sim r c q → S (rg_i r) = length (rg_trbs r) →
  (length q < capacity r)%nat →
  ring_sim (filled mk (wrapped r)) c (q ++ [mk (negb (rg_cycle r))]).
Proof.
  intros Hf (Hok & Hc & Hlap) HS Hcap. pose proof Hok as [Hl Hlen Hi Hp Hs Hpl].
  unfold capacity in Hcap.
  destruct Hlap as [(Hccs & Hle & ->)|(Hccs & Hle & Hpos & Hlink & ->)].
  2: { rewrite length_app, !length_slice in Hcap by lia. lia. }
  rewrite length_slice in Hcap by lia.
  split; [eapply filled_ok; eauto using wrapped_ok; simpl; rewrite length_insert; lia|].
  simpl. rewrite !length_insert. split; [done|]. right.
  split_and!; [by rewrite negb_involutive|lia|lia| |].
  - rewrite list_lookup_insert_ne by lia. rewrite negb_involutive.
    replace (pred (length (rg_trbs r))) with (rg_i r) by lia.
    apply list_lookup_insert_eq. lia.
  - f_equal.
    + rewrite !slice_insert_out by lia. f_equal. lia.
    + rewrite (slice_snoc 0 0 _ (mk (negb (rg_cycle r)))); [done|].
      simpl. apply list_lookup_insert_eq. rewrite length_insert. lia.
Qed.

Lemma enqueue_sim (mk : bool → Trb) (f : bool → trb_prog) (r : Ring) (c : Consumer) (q : list Trb) :
  builds f mk → ring_sim r c q → (length q < capacity r)%nat →
  ∃ i r', enqueue f r = Some (Ok i, r') ∧ ring_sim r' c (q ++ [mk (rg_cycle r')]) ∧
          rg_trbs r' !! i = Some (mk (rg_cycle r')).
Proof.
  intros Hf Hsim Hcap. pose proof Hsim as ([Hl Hlen Hi Hp Hs Hpl] & _ & _).
  destruct (decide (S (rg_i r) < length (rg_trbs r))%nat).
  - eexists _, _. split; [by apply enqueue_inner|].
    split; [by apply (sim_filled mk f r c q)|].
    simpl. apply list_lookup_insert_eq. lia.
  - assert (S (rg_i r) = length (rg_trbs r)) by lia.
    eexists _, _. split; [by apply enqueue_wrap|].
    split; [by apply (sim_wrapped_filled mk f r c q)|].
    simpl. apply list_lookup_insert_eq. rewrite length_insert. lia.
Qed.

Lemma consume_at_hit (r : Ring) (c : Consumer) (t : Trb) :
  rg_trbs r !! c_idx c = Some t → cycle t = c_ccs c →
  consume_at r c = Some (t, mk_consumer (S (c_idx c)) (c_ccs c)).
Proof. intros Ht Hcy. unfold consume_at. rewrite Ht, Hcy. by rewrite eqb_reflx. Qed.

Lemma consume_plain (r : Ring) (c : Consumer) (t : Trb) :
  rg_trbs r !! c_idx c = Some t → cycle t = c_ccs c → trb_type t ≠ trb_type_code TLink →
  consume r c = Some (t, mk_consumer (S (c_idx c)) (c_ccs c)).
Proof.
  intros Ht Hcy Hty. unfold consume. rewrite (consume_at_hit r c t) by done.
  by rewrite (proj2 (Z.eqb_neq _ _) Hty).
Qed.

Lemma consume_empty (r : Ring) (c : Consumer) (t : Trb) :
  rg_trbs r !! c_idx c = Some t → cycle t = negb (c_ccs c) → consume r c = None.
Proof.
  intros Ht Hcy. unfold consume, consume_at. rewrite Ht, Hcy. by destruct (c_ccs c).
Qed.

Lemma consume_link (r : Ring) (c : Consumer) :
  u_range 64 (rg_phys r) →
  rg_trbs r !! c_idx c = Some (link_trb (rg_phys r) (c_ccs c)) →
  consume r c = consume_at r (mk_consumer 0 (negb (c_ccs c))).
Proof.
  intros Hp Ht. destruct (link_trb_fields (rg_phys r) (c_ccs c) Hp) as (Hc & Hty & Htg & Hd).
  unfold consume. rewrite (consume_at_hit r c _ Ht Hc), Hty, Htg, Hd, Z.sub_diag. done.
Qed.

(** Consuming inside the producer's lap. *)
Lemma consume_same_lap (r : Ring) (c : Consumer) :
  ring_ok r → c_ccs c = rg_cycle r → (c_idx c < rg_i r)%nat →
  ∃ t, rg_trbs r !! c_idx c = Some t ∧ cycle t = c_ccs c ∧ trb_type t ≠ trb_type_code TLink.
Proof.
  intros [Hl Hlen Hi Hp Hs Hpl] Hccs Hlt.
  destruct (lookup_lt_is_Some_2 (rg_trbs r) (c_idx c)) as [t Ht]; [lia|].
  exists t. split_and!; [done| |apply (Hpl (c_idx c)); [lia|done]].
  by rewrite (Hs _ _ Ht), decide_True by lia.
Qed.

Lemma consume_sim (r : Ring) (c : Consumer) (q : list Trb) :
  ring_sim r c q →
  match q with
  | [] => consume r c = None
  | t :: q' => ∃ c', consume r c = Some (t, c') ∧ ring_sim r c' q'
  end.
Proof.
  intros (Hok & Hc & Hlap). pose proof Hok as [Hl Hlen Hi Hp Hs Hpl].
  destruct (lookup_lt_is_Some_2 (rg_trbs r) (c_idx c)) as [t Ht]; [lia|].
  destruct Hlap as [(Hccs & Hle & ->)|(Hccs & Hle & Hpos & Hlink & ->)].
  - destruct (decide (c_idx c = rg_i r)) as [Heq|Hne].
    + rewrite Heq, Nat.sub_diag, slice_0. apply (consume_empty r c t Ht).
      by rewrite (Hs _ _ Ht), decide_False, Hccs by lia.
    + destruct (consume_same_lap r c) as (t' & Ht' & Hcy & Hty); [done|done|lia|].
      replace (rg_i r - c_idx c)%nat with (S (rg_i r - S (c_idx c))) by lia.
      rewrite (slice_cons _ _ _ t' Ht'). eexists. split; [by apply consume_plain|].
      split; [done|]. simpl. split; [lia|]. left. split_and!; [done|lia|done].
  - destruct (decide (S (c_idx c) = length (rg_trbs r))) as [Heq|Hne].
    + assert (c_idx c = pred (length (rg_trbs r))) as Hcp by lia.
      rewrite Hcp, Nat.sub_diag, slice_0. simpl.
      rewrite consume_link by (done || by rewrite Hcp, Hccs).
      destruct (consume_same_lap r (mk_consumer 0 (negb (c_ccs c))))
        as (t' & Ht' & Hcy & Hty); [done|simpl; by rewrite Hccs, negb_involutive|simpl; lia|].
      destruct (rg_i r) as [|i] eqn:Hri; [lia|].
      rewrite (slice_cons _ _ _ t' Ht').
      eexists. split; [by apply consume_at_hit|]. split; [done|]. simpl. split; [lia|]. left.
      rewrite Hccs, negb_involutive. split_and!; [done|lia|].
      f_equal. lia.
    + replace (pred (length (rg_trbs r)) - c_idx c)%nat
        with (S (pred (length (rg_trbs r)) - S (c_idx c))) by lia.
      rewrite (slice_cons _ _ _ t Ht). simpl. eexists. split.
      * apply consume_plain; [done| |apply (Hpl (c_idx c)); [lia|done]].
        by rewrite (Hs _ _ Ht), decide_False, Hccs by lia.
      * split; [done|]. simpl. split; [lia|]. right. split_and!; [done|lia|done|done|done].
Qed.

(** An accepted builder call other than a link is a possible enqueue. *)
Lemma builds_op (op : bool → trb_op) :
  (∀ c, op_typed (op c) ∧ op_accepted (op c) = true ∧ op_cycle (op c) = c ∧
        op_type (op c) ≠ TLink ∧ ∀ t, (run_op (op c) t).2 = (run_op (op c) zero_trb).2) →
  builds (λ c, run_op (op c)) (λ c, (run_op (op c) zero_trb).2).
Proof.
  intros H c t. destruct (H c) as (Ht & Ha & Hc & Hty & Hconst).
  pose proof (run_op_set (op c) t Ht) as Hr. rewrite Ha in Hr.
  destruct Hr as (s & w & Hr & Hfty & Hfc & _).
  rewrite <- (Hconst t), Hr. simpl. split; [done|].
  rewrite cycle_field, trb_type_field. simpl. rewrite Hfc, Hfty, Hc.
  split; [by destruct c|]. by destruct (op_type (op c)).
Qed.

(** C1.  The producer ring and a controller that follows the xHCI dequeue rule
    implement a FIFO queue of capacity [length - 1].  A new ring is the empty
    queue.  From any state that represents a queue [q] that is not full,
    enqueueing a TRB succeeds and represents [q] with that TRB appended, link TRB
    and cycle-state toggling included; dequeueing yields nothing when [q] is
    empty and otherwise its head, leaving the tail.  So no TRB is lost,
    duplicated, reordered or seen before it is complete. *)
Theorem ring_implements_queue :
  (∀ alloc n phys virt r, (2 <= n)%nat → alloc n = inr (phys, virt) → u_range 64 phys →
     ring_new alloc n true = Ok r → ring_sim r (mk_consumer 0 true) []) ∧
  (∀ f mk r c q, builds f mk → ring_sim r c q → (length q < capacity r)%nat →
     ∃ i r', enqueue f r = Some (Ok i, r') ∧ ring_sim r' c (q ++ [mk (rg_cycle r')])) ∧
  (∀ r c q, ring_sim r c q →
     match q with
     | [] => consume r c = None
     | t :: q' => ∃ c', consume r c = Some (t, c') ∧ ring_sim r c' q'
     end).
Proof.
  split_and!.
  - intros alloc n phys virt r. apply ring_new_ok.
  - intros f mk r c q Hf Hsim Hcap.
    destruct (enqueue_sim mk f r c q Hf Hsim Hcap) as (i & r' & He & Hs & _). eauto.
  - apply consume_sim.
Qed.

Definition test_alloc (n : nat) : errno + Z * Z := inr (0x10000, 0x7000).

(** A three-entry ring (capacity two) after a wrap. *)
Lemma ring_implements_queue_witness :
  ∃ r, ring_new test_alloc 3 true = Ok r ∧ ring_sim r (mk_consumer 0 true) [] ∧
  ∃ i r', enqueue no_op_cmd r = Some (Ok i, r') ∧
          ∃ c', consume r' (mk_consumer 0 true) = Some ((no_op_cmd (rg_cycle r') zero_trb).2, c').
Proof.
  destruct ring_implements_queue as (Hnew & Henq & Hdeq).
  eexists. split; [reflexivity|].
  assert (ring_sim (mk_ring true (replicate 3 zero_trb) 0x10000 0x7000 0 true)
            (mk_consumer 0 true) []) as Hs.
  { apply (Hnew test_alloc 3%nat 0x10000 0x7000); [lia|done|unfold u_range; lia|done]. }
  split; [exact Hs|].
  destruct (Henq no_op_cmd (λ c, (no_op_cmd c zero_trb).2) _ _ _
              (builds_op OpNoOpCmd (λ c, ltac:(destruct c; done))) Hs)
    as (i & r' & He & Hs'); [simpl; unfold capacity; simpl; lia|].
  exists i, r'. split; [exact He|].
  destruct (Hdeq _ _ _ Hs') as (c' & Hc & _). by exists c'.
Defined.

(** ** Addresses *)

Lemma phys_base_64 (r : Ring) : u_range 64 (rg_phys r) → phys_base true r = rg_phys r.
Proof.
  intros Hp. unfold phys_base. change 0xFFFFFFFFFFFFFFFF with (Z.ones 64).
  rewrite Z.land_ones by lia. by apply Z.mod_small.
Qed.

Lemma phys_base_range (ac64 : bool) (r : Ring) :
  0 <= phys_base ac64 r.
Proof. unfold phys_base. apply Z.land_nonneg. destruct ac64; lia. Qed.

Lemma trb_ptr_of_entry (ac64 : bool) (j : nat) (r : Ring) :
  (j < length (rg_trbs r))%nat →
  trb_phys_ptr ac64 (rg_virt r + TRB_SIZE * Z.of_nat j) r
  = Ok (phys_base ac64 r + TRB_SIZE * Z.of_nat j).
Proof.
  intros Hj. unfold trb_phys_ptr, TRB_SIZE.
  rewrite (proj2 (Z.ltb_ge _ _)) by lia. simpl. rewrite (proj2 (Z.ltb_ge _ _)) by lia.
  f_equal. lia.
Qed.

Lemma index_of_entry (ac64 : bool) (j : nat) (r : Ring) :
  (j < length (rg_trbs r))%nat →
  phys_addr_to_index ac64 (phys_base ac64 r + TRB_SIZE * Z.of_nat j) r = Ok (Some (Z.of_nat j)).
Proof.
  intros Hj. unfold phys_addr_to_index, TRB_SIZE. set (b := phys_base ac64 r).
  rewrite (proj2 (Z.ltb_ge _ _)) by lia.
  replace (b + 16 * Z.of_nat j - b) with (Z.of_nat j * 16) by lia.
  by rewrite Z.mod_mul, Z.eqb_refl, Z.div_mul, (proj2 (Z.ltb_ge _ _)) by lia.
Qed.

(**  Virtual and physical TRB addresses round-trip: the physical pointer the
    driver computes for entry [j] of a ring (with either address width) maps back
    to index [j] and to that entry.  No other aligned address below the end of
    the ring maps to [j]. *)
Theorem trb_address_roundtrip (ac64 : bool) (j : nat) (t : Trb) (r : Ring) :
  rg_trbs r !! j = Some t →
  ∃ p, trb_phys_ptr ac64 (rg_virt r + TRB_SIZE * Z.of_nat j) r = Ok p ∧
       phys_addr_to_index ac64 p r = Ok (Some (Z.of_nat j)) ∧
       phys_addr_to_entry ac64 p r = Ok (Some t) ∧
       (∀ p', phys_addr_to_index ac64 p' r = Ok (Some (Z.of_nat j)) → p' = p).
Proof.
  intros Ht. pose proof (lookup_lt_Some _ _ _ Ht) as Hj.
  exists (phys_base ac64 r + TRB_SIZE * Z.of_nat j). unfold phys_addr_to_entry.
  rewrite trb_ptr_of_entry, index_of_entry by done. split_and!; [done|done|by rewrite Nat2Z.id, Ht|].
  intros p'. unfold phys_addr_to_index, TRB_SIZE. set (b := phys_base ac64 r). intros Hp'.
  destruct (p' <? b); [done|]. destruct ((p' - b) mod 16 =? 0) eqn:Hm; [|done].
  destruct (Z.of_nat (length (rg_trbs r)) <? (p' - b) / 16); [done|]. injection Hp' as Hp'. zdiv.
Qed.

Lemma trb_address_roundtrip_witness :
  ∃ p, trb_phys_ptr true (0x7000 + 16) (mk_ring true [zero_trb; zero_trb] 0x10000 0x7000 0 true)
       = Ok p ∧
       phys_addr_to_index true p (mk_ring true [zero_trb; zero_trb] 0x10000 0x7000 0 true)
       = Ok (Some 1).
Proof.
  destruct (trb_address_roundtrip true 1 zero_trb
              (mk_ring true [zero_trb; zero_trb] 0x10000 0x7000 0 true) eq_refl)
    as (p & H1 & H2 & _).
  exists p. split; [exact H1|exact H2].
Defined.

(**  [phys_addr_to_entry] on an aligned address: below the base it answers
    [None], inside the ring the entry, past the end [None], except for the address
    one past the last entry, for which the index check lets [len] through and the
    slice access panics. *)
Theorem phys_addr_to_entry_cases (ac64 : bool) (k : Z) (r : Ring) :
  let p := phys_base ac64 r + TRB_SIZE * k in
  phys_addr_to_entry ac64 p r =
    (if k <? 0 then Ok None
     else if k <? Z.of_nat (length (rg_trbs r)) then Ok (rg_trbs r !! Z.to_nat k)
     else if k =? Z.of_nat (length (rg_trbs r)) then Panic
     else Ok None).
Proof.
  intros p. unfold phys_addr_to_entry, phys_addr_to_index, p, TRB_SIZE.
  set (b := phys_base ac64 r). set (n := length (rg_trbs r)).
  replace (b + 16 * k - b) with (k * 16) by lia. rewrite Z.mod_mul, Z.div_mul by lia. simpl.
  destruct (Z.ltb_spec k 0); destruct (Z.ltb_spec (b + 16 * k) b); try lia; [done|].
  destruct (Z.ltb_spec k (Z.of_nat n)); destruct (Z.ltb_spec (Z.of_nat n) k);
    destruct (Z.eqb_spec k (Z.of_nat n)); try lia; try done.
  - destruct (lookup_lt_is_Some_2 (rg_trbs r) (Z.to_nat k)) as [t ->]; [lia|done].
  - by rewrite lookup_ge_None_2 by lia.
Qed.

(** ** Completed commands *)

(** One command from the driver's point of view: enqueue it, let the controller
    take it, acknowledge its completion event. *)
Definition run_command (s : Ring * Consumer) : option (Ring * Consumer) :=
  match enqueue no_op_cmd s.1 with
  | Some (Ok i, r) =>
      match consume r s.2 with
      | Some (_, c) =>
          match acknowledge_command true (rg_phys r + TRB_SIZE * Z.of_nat i) r with
          | (Ok (Some _), r') => Some (r', c)
          | _ => None
          end
      | None => None
      end
  | _ => None
  end.

Fixpoint run_commands (n : nat) (s : Ring * Consumer) : option (Ring * Consumer) :=
  match n with
  | O => Some s
  | S n => match run_command s with Some s' => run_commands n s' | None => None end
  end.

(** The command ring as [Xhci::new] allocates it: one page of TRBs. *)
Definition command_ring : Ring := mk_ring true (replicate 256 zero_trb) 0x10000 0x7000 0 true.

(**  The IRQ reactor overwrites each completed command TRB with a reserved
    TRB of cycle bit 0.  In the first lap that marks the entry free (after 255
    commands the controller still sees an empty ring); from the second lap on, in
    which 0 is the valid cycle bit, the cleared entries look valid: after 256
    commands, all completed, the controller finds a reserved TRB to execute. *)
Theorem acknowledge_leaves_stale_trb :
  (∃ s, run_commands 255 (command_ring, mk_consumer 0 true) = Some s ∧ consume s.1 s.2 = None) ∧
  (∃ s t c, run_commands 256 (command_ring, mk_consumer 0 true) = Some s ∧
            consume s.1 s.2 = Some (t, c) ∧ trb_type t = trb_type_code TReserved).
Proof.
  split.
  - eexists. split; [vm_compute; reflexivity|]. vm_compute. reflexivity.
  - eexists _, _, _. split_and!; [vm_compute; reflexivity| |]; vm_compute; reflexivity.
Qed.

(** ** The event ring *)

Fixpoint event_indices (n : nat) (r : Ring) : list nat :=
  match n with
  | O => []
  | S n => match next_index r with
           | Some (Ok i, r') => i :: event_indices n r'
           | _ => []
           end
  end.

Lemma event_ring_step (r : Ring) :
  rg_link r = false → (rg_i r < length (rg_trbs r))%nat →
  next_index r = Some (Ok (rg_i r), with_i (S (rg_i r) mod length (rg_trbs r)) r).
Proof.
  intros Hl Hi. destruct (decide (S (rg_i r) = length (rg_trbs r))) as [Heq|Hne].
  - rewrite next_index_no_link by done. by rewrite Heq, Nat.Div0.mod_same.
  - rewrite next_index_inner by lia. by rewrite Nat.mod_small by lia.
Qed.

(**  The event ring is read round-robin: the [k]-th call of [next_index] on
    a ring without link TRB yields index [(i + k) mod len]; no entry is skipped or
    read twice in a lap. *)
Theorem event_ring_round_robin (n k : nat) (r : Ring) :
  rg_link r = false → (rg_i r < length (rg_trbs r))%nat → (k < n)%nat →
  event_indices n r !! k = Some ((rg_i r + k) mod length (rg_trbs r))%nat.
Proof.
  revert k r. induction n as [|n IH]; intros k r Hl Hi Hk; [lia|].
  simpl. rewrite event_ring_step by done.
  destruct k as [|k]; simpl.
  - by rewrite Nat.add_0_r, Nat.mod_small by done.
  - rewrite IH; simpl; [|done|apply Nat.mod_upper_bound; lia|lia]. f_equal.
    rewrite Nat.Div0.add_mod_idemp_l. f_equal. lia.
Qed.

Lemma event_ring_round_robin_witness :
  event_indices 4 (mk_ring false (replicate 3 zero_trb) 0 0 1 false) !! 3%nat = Some 1%nat.
Proof.
  apply (event_ring_round_robin 4 3 (mk_ring false (replicate 3 zero_trb) 0 0 1 false));
    simpl; [done|lia|lia].
Defined.

(** The dequeue pointer given to the controller is the address of the entry at
    the ring's index, for a ring aligned to 16 bytes. *)
Lemma erdp_address (e : EventRing) :
  rg_phys (er_ring e) mod 16 = 0 → 0 <= rg_phys (er_ring e) →
  rg_phys (er_ring e) + TRB_SIZE * Z.of_nat (rg_i (er_ring e)) < 2 ^ 64 →
  erdp e = rg_phys (er_ring e) + TRB_SIZE * Z.of_nat (rg_i (er_ring e)).
Proof.
  intros Hal Hpos Hmax. unfold erdp, register, TRB_SIZE in *.
  set (a := rg_phys (er_ring e) + 16 * Z.of_nat (rg_i (er_ring e))) in *.
  unfold as_u64. rewrite as_u_id by (unfold u_range; lia).
  rewrite Z.land_lor_distr_l.
  replace (Z.land (of_bool (rg_cycle (er_ring e))) 0xFFFFFFFFFFFFFFF0) with 0
    by (by destruct (rg_cycle (er_ring e))).
  rewrite Z.lor_0_r. apply Z.eqb_eq. rewrite align16_mask by (unfold u_range; lia).
  apply Z.eqb_eq. unfold a. zdiv.
Qed.
