(* ===== verification/XhciIface.v ===== *)
(** The data that xhcid shares with the USB class drivers and the pure
    computations on it (xhcid/src/driver_interface.rs, the helpers of
    xhcid/src/xhci/scheme.rs and xhci/mod.rs, xhcid/src/xhci/extended.rs).

    Descriptors are records with the fields of the source; the register blocks
    of the extended capabilities are read from a memory [Z → Z] of 32-bit
    registers.  The theorems cover the endpoint type and interval that are
    programmed into the controller, the device context index, the walk over the
    capability list, and the textual form of the port and endpoint states. *)

From S2P Require Import Prelude UsbSetup XhciTrb.

(** ** Directions and requests *)

Inductive EndpDirection : Type := EdOut | EdIn | EdBidirectional.

Inductive EndpBinaryDirection : Type := EbOut | EbIn.

Inductive PortReqDirection : Type := PrHostToDevice | PrDeviceToHost.

#[global] Instance EndpDirection_eq_dec : EqDecision EndpDirection.
Proof. solve_decision. Defined.

#[global] Instance PortReqDirection_eq_dec : EqDecision PortReqDirection.
Proof. solve_decision. Defined.

Definition binary_of_req (d : PortReqDirection) : EndpBinaryDirection :=
  match d with PrDeviceToHost => EbIn | PrHostToDevice => EbOut end.

Definition endp_of_binary (b : EndpBinaryDirection) : EndpDirection :=
  match b with EbIn => EdIn | EbOut => EdOut end.

Definition endp_of_req (d : PortReqDirection) : EndpDirection :=
  match d with PrHostToDevice => EdOut | PrDeviceToHost => EdIn end.

Inductive PortReqTy : Type := PtClass | PtVendor | PtStandard.

Inductive PortReqRecipient : Type :=
| PcDevice | PcInterface | PcEndpoint | PcOther | PcVendorSpecific.

Record PortReq := mk_port_req {
  pr_direction : PortReqDirection;
  pr_req_type : PortReqTy;
  pr_req_recipient : PortReqRecipient;
  pr_request : Z;
  pr_value : Z;
  pr_index : Z;
  pr_length : Z;
  pr_transfers_data : bool;
}.

(** [In] carries the length of the buffer to fill, [Out] the bytes to send. *)
Inductive DeviceReqData : Type :=
| DIn (len : nat)
| DOut (buf : list Z)
| DNoData.

Definition drd_len (d : DeviceReqData) : nat :=
  match d with DIn n => n | DOut buf => length buf | DNoData => O end.

Definition drd_is_empty (d : DeviceReqData) : bool := Nat.eqb (drd_len d) 0.

Definition drd_direction (d : DeviceReqData) : PortReqDirection :=
  match d with
  | DOut _ => PrHostToDevice
  | DNoData => PrHostToDevice
  | DIn _ => PrDeviceToHost
  end.

(** ** States with a textual form *)

Inductive PortState : Type := PsEnabledOrDisabled | PsDefault | PsAddressed | PsConfigured.

Definition port_state_str (s : PortState) : string :=
  match s with
  | PsEnabledOrDisabled => "enabled_or_disabled"
  | PsDefault => "default"
  | PsAddressed => "addressed"
  | PsConfigured => "configured"
  end.

(** [None] is [Err(Invalid("read reserved port state"))]. *)
Definition port_state_from_str (s : string) : option PortState :=
  if decide (s = "enabled_or_disabled" ∨ s = "enabled/disabled") then Some PsEnabledOrDisabled
  else if decide (s = "default") then Some PsDefault
  else if decide (s = "addressed") then Some PsAddressed
  else if decide (s = "configured") then Some PsConfigured
  else None.

Inductive EndpointStatus : Type := EsDisabled | EsEnabled | EsHalted | EsStopped | EsError.

#[global] Instance EndpointStatus_eq_dec : EqDecision EndpointStatus.
Proof. solve_decision. Defined.

Definition endp_status_str (s : EndpointStatus) : string :=
  match s with
  | EsDisabled => "disabled"
  | EsEnabled => "enabled"
  | EsHalted => "halted"
  | EsStopped => "stopped"
  | EsError => "error"
  end.

Definition endp_status_from_str (s : string) : option EndpointStatus :=
  if decide (s = "disabled") then Some EsDisabled
  else if decide (s = "enabled") then Some EsEnabled
  else if decide (s = "halted") then Some EsHalted
  else if decide (s = "stopped") then Some EsStopped
  else if decide (s = "error") then Some EsError
  else None.

Inductive PortTransferStatusKind : Type := TkSuccess | TkShortPacket | TkStalled | TkUnknown.

#[global] Instance PortTransferStatusKind_eq_dec : EqDecision PortTransferStatusKind.
Proof. solve_decision. Defined.

Record PortTransferStatus := mk_pts {
  pts_kind : PortTransferStatusKind;
  pts_bytes_transferred : Z;
}.

#[global] Instance PortTransferStatus_eq_dec : EqDecision PortTransferStatus.
Proof. solve_decision. Defined.

Inductive XhciEndpCtlDirection : Type := CdOut | CdIn | CdNoData.

#[global] Instance XhciEndpCtlDirection_eq_dec : EqDecision XhciEndpCtlDirection.
Proof. solve_decision. Defined.

Inductive XhciEndpCtlReq : Type :=
| CrTransfer (direction : XhciEndpCtlDirection) (count : Z)
| CrReset (no_clear_feature : bool)
| CrStatus.

Inductive XhciEndpCtlRes : Type :=
| RsStatus (s : EndpointStatus)
| RsTransferResult (s : PortTransferStatus)
| RsPending
| RsIdle.

Record ConfigureEndpointsReq := mk_cer {
  cer_config_desc : Z;
  cer_interface_desc : option Z;
  cer_alternate_setting : option Z;
}.

(** ** Descriptors *)

Inductive EndpointTy : Type := Ctrl | Isoch | Bulk | Interrupt.

#[global] Instance EndpointTy_eq_dec : EqDecision EndpointTy.
Proof. solve_decision. Defined.

Definition endpoint_ty_code (t : EndpointTy) : Z :=
  match t with Ctrl => 0 | Isoch => 1 | Bulk => 2 | Interrupt => 3 end.

Definition ENDP_ATTR_TY_MASK : Z := 0x3.

Record SuperSpeedCmp := mk_ssc {
  ssc_kind : Z;
  ssc_max_burst : Z;
  ssc_attributes : Z;
  ssc_bytes_per_interval : Z;
}.

Record SuperSpeedPlusIsochCmp := mk_sspc {
  sspc_kind : Z;
  sspc_bytes_per_interval : Z;
}.

Record HidDesc := mk_hid_desc {
  hd_kind : Z;
  hd_hid_spec_release : Z;
  hd_country : Z;
  hd_desc_count : Z;
  hd_desc_ty : Z;
  hd_desc_len : Z;
  hd_optional_desc_ty : Z;
  hd_optional_desc_len : Z;
}.

Record EndpDesc := mk_endp_desc {
  ed_kind : Z;
  ed_address : Z;
  ed_attributes : Z;
  ed_max_packet_size : Z;
  ed_interval : Z;
  ed_ssc : option SuperSpeedCmp;
  ed_sspc : option SuperSpeedPlusIsochCmp;
}.

(** A text that comes from the device, as its code points. *)
Abbreviation ustr := (list Z).

Record IfDesc := mk_if_desc {
  id_kind : Z;
  id_number : Z;
  id_alternate_setting : Z;
  id_class : Z;
  id_sub_class : Z;
  id_protocol : Z;
  id_interface_str : option ustr;
  id_endpoints : list EndpDesc;
  id_hid_descs : list HidDesc;
}.

Record ConfDesc := mk_conf_desc {
  cd_kind : Z;
  cd_configuration_value : Z;
  cd_configuration : option ustr;
  cd_attributes : Z;
  cd_max_power : Z;
  cd_interface_descs : list IfDesc;
}.

Record DevDesc := mk_dev_desc {
  dd_kind : Z;
  dd_usb : Z;
  dd_class : Z;
  dd_sub_class : Z;
  dd_protocol : Z;
  dd_packet_size : Z;
  dd_vendor : Z;
  dd_product : Z;
  dd_release : Z;
  dd_manufacturer_str : option ustr;
  dd_product_str : option ustr;
  dd_serial_str : option ustr;
  dd_config_descs : list ConfDesc;
}.

Definition major_version (d : DevDesc) : Z := as_u8 (Z.shiftr (Z.land (dd_usb d) 0xFF00) 8).

Definition minor_version (d : DevDesc) : Z := as_u8 (dd_usb d).

(** ** [impl EndpDesc] *)

(** The mask leaves the values 0 to 3 ([ty_code]), so the last arm is 3. *)
Definition ty (d : EndpDesc) : EndpointTy :=
  match Z.land (ed_attributes d) ENDP_ATTR_TY_MASK with
  | 0 => Ctrl
  | 1 => Isoch
  | 2 => Bulk
  | _ => Interrupt
  end.

Definition is_control (d : EndpDesc) : bool := bool_decide (ty d = Ctrl).

Definition is_interrupt (d : EndpDesc) : bool := bool_decide (ty d = Interrupt).

Definition is_bulk (d : EndpDesc) : bool := bool_decide (ty d = Bulk).

Definition is_isoch (d : EndpDesc) : bool := bool_decide (ty d = Isoch).

Definition endp_direction (d : EndpDesc) : EndpDirection :=
  if is_control d then EdBidirectional
  else if negb (Z.land (ed_address d) 0x80 =? 0) then EdIn
  else EdOut.

Definition xhci_ep_type (d : EndpDesc) : res errno Z :=
  match endp_direction d with
  | EdOut =>
      if is_isoch d then Ok 1
      else if is_bulk d then Ok 2
      else if is_interrupt d then Ok 3
      else Err EINVAL
  | EdBidirectional => if is_control d then Ok 4 else Err EINVAL
  | EdIn =>
      if is_isoch d then Ok 5
      else if is_bulk d then Ok 6
      else if is_interrupt d then Ok 7
      else Err EINVAL
  end.

Definition is_superspeed (d : EndpDesc) : bool := bool_decide (is_Some (ed_ssc d)).

(** The source answers [false] for every descriptor. *)
Definition is_superspeedplus (d : EndpDesc) : bool := false.

Definition interrupt_usage_bits (d : EndpDesc) : res errno Z :=
  if is_interrupt d then Ok (Z.shiftr (Z.land (ed_attributes d) 0x20) 4) else Panic.

(** [InterruptUsageBits::Periodic as u8] is 0. *)
Definition is_periodic (d : EndpDesc) : res errno bool :=
  if is_interrupt d then
    match interrupt_usage_bits d with
    | Ok b => Ok (b =? 0)
    | Err e => Err e
    | Panic => Panic
    end
  else Ok (is_isoch d).

(** [NonZeroU8::new]. *)
Definition non_zero_u8 (x : Z) : option Z := if x =? 0 then None else Some x.

Definition log_max_streams (d : EndpDesc) : option Z :=
  match ed_ssc d with
  | Some ssc => if is_bulk d then non_zero_u8 (Z.land (ssc_attributes ssc) 0x1F) else None
  | None => None
  end.

Definition isoch_mult (lec : bool) (d : EndpDesc) : Z :=
  if negb lec && is_isoch d then
    if is_superspeedplus d then 0
    else match ed_ssc d with
         | Some ssc => Z.land (ssc_attributes ssc) 0x3
         | None => 0
         end
  else 0.

Definition max_burst (d : EndpDesc) : Z :=
  match ed_ssc d with Some ssc => ssc_max_burst ssc | None => 0 end.

Definition has_ssp_companion (d : EndpDesc) : bool :=
  match ed_ssc d with
  | Some ssc => negb (Z.land (ssc_attributes ssc) (Z.shiftl 1 7) =? 0)
  | None => false
  end.

(** [get_endp_desc] without the configuration lookup: the [n]-th endpoint over
    all interfaces.  The counter of the source is a [u8] that starts at zero. *)
Fixpoint find_in_if (endp_idx endp_count : Z) (eps : list EndpDesc) : option EndpDesc + Z :=
  match eps with
  | [] => inr endp_count
  | e :: eps =>
      if endp_idx =? endp_count then inl (Some e)
      else find_in_if endp_idx (as_u8 (endp_count + 1)) eps
  end.

Fixpoint find_endp (endp_idx endp_count : Z) (ifs : list IfDesc) : option EndpDesc :=
  match ifs with
  | [] => None
  | i :: ifs =>
      match find_in_if endp_idx endp_count (id_endpoints i) with
      | inl found => found
      | inr n => find_endp endp_idx n ifs
      end
  end.

Definition get_endp_desc (cfg_idx : option Z) (dev_desc : option DevDesc) (endp_idx : Z)
    : option EndpDesc :=
  cfg_idx ← cfg_idx;
  dev_desc ← dev_desc;
  config_desc ← dd_config_descs dev_desc !! Z.to_nat cfg_idx;
  find_endp endp_idx 0 (cd_interface_descs config_desc).

(** ** Protocol speeds and extended capabilities *)

(** [Mmio<u32>] of the capability space, by byte address. *)
Abbreviation mmio := (Z → Z).

Record ProtocolSpeed := mk_speed { ps_a : Z }.

Inductive Psie : Type := Bps | Kbps | Mbps | Gbps.

Inductive Plt : Type := PltSymmetric | PltReserved | PltAsymmetricRx | PltAsymmetricTx.

Inductive Lp : Type := LpSuperSpeed | LpSuperSpeedPlus | LpRsvd2 | LpRsvd3.

#[global] Instance Psie_eq_dec : EqDecision Psie.
Proof. solve_decision. Defined.

#[global] Instance Lp_eq_dec : EqDecision Lp.
Proof. solve_decision. Defined.

Definition PROTO_SPEED_PSIV_MASK : Z := 0x0000000F.
Definition PROTO_SPEED_PSIV_SHIFT : Z := 0.
Definition PROTO_SPEED_PSIE_MASK : Z := 0x00000030.
Definition PROTO_SPEED_PSIE_SHIFT : Z := 4.
Definition PROTO_SPEED_PLT_MASK : Z := 0x000000C0.
Definition PROTO_SPEED_PLT_SHIFT : Z := 6.
Definition PROTO_SPEED_PFD_SHIFT : Z := 8.
Definition PROTO_SPEED_PFD_BIT : Z := Z.shiftl 1 PROTO_SPEED_PFD_SHIFT.
Definition PROTO_SPEED_LP_MASK : Z := 0x0000C000.
Definition PROTO_SPEED_LP_SHIFT : Z := 14.
Definition PROTO_SPEED_PSIM_MASK : Z := 0xFFFF0000.
Definition PROTO_SPEED_PSIM_SHIFT : Z := 16.

Definition psie_code (p : Psie) : Z :=
  match p with Bps => 0 | Kbps => 1 | Mbps => 2 | Gbps => 3 end.

Definition plt_code (p : Plt) : Z :=
  match p with
  | PltSymmetric => 0 | PltReserved => 1 | PltAsymmetricRx => 2 | PltAsymmetricTx => 3
  end.

Definition lp_code (p : Lp) : Z :=
  match p with LpSuperSpeed => 0 | LpSuperSpeedPlus => 1 | LpRsvd2 => 2 | LpRsvd3 => 3 end.

(** [(a & mask) >> shift], truncated to [w] bits. *)
Definition reg_field (w mask shift a : Z) : Z := as_u w (Z.shiftr (Z.land a mask) shift).

Definition psiv (s : ProtocolSpeed) : Z :=
  reg_field 8 PROTO_SPEED_PSIV_MASK PROTO_SPEED_PSIV_SHIFT (ps_a s).

Definition psie_raw (s : ProtocolSpeed) : Z :=
  reg_field 8 PROTO_SPEED_PSIE_MASK PROTO_SPEED_PSIE_SHIFT (ps_a s).

(** The transmutations: two-bit values ([psie_raw_range] for the bounds). *)
Definition psie (s : ProtocolSpeed) : Psie :=
  match psie_raw s with 0 => Bps | 1 => Kbps | 2 => Mbps | _ => Gbps end.

Definition plt_raw (s : ProtocolSpeed) : Z :=
  reg_field 8 PROTO_SPEED_PLT_MASK PROTO_SPEED_PLT_SHIFT (ps_a s).

Definition plt (s : ProtocolSpeed) : Plt :=
  match plt_raw s with
  | 0 => PltSymmetric | 1 => PltReserved | 2 => PltAsymmetricRx | _ => PltAsymmetricTx
  end.

Definition pfd (s : ProtocolSpeed) : bool :=
  Z.land (ps_a s) PROTO_SPEED_PFD_BIT =? PROTO_SPEED_PFD_BIT.

Definition lp_raw (s : ProtocolSpeed) : Z :=
  reg_field 8 PROTO_SPEED_LP_MASK PROTO_SPEED_LP_SHIFT (ps_a s).

Definition lp (s : ProtocolSpeed) : Lp :=
  match lp_raw s with
  | 0 => LpSuperSpeed | 1 => LpSuperSpeedPlus | 2 => LpRsvd2 | _ => LpRsvd3
  end.

Definition psim (s : ProtocolSpeed) : Z :=
  reg_field 16 PROTO_SPEED_PSIM_MASK PROTO_SPEED_PSIM_SHIFT (ps_a s).

Definition is_lowspeed (s : ProtocolSpeed) : bool :=
  (psim s =? 1500) && bool_decide (psie s = Kbps) && negb (pfd s).

Definition is_fullspeed (s : ProtocolSpeed) : bool :=
  (psim s =? 12) && bool_decide (psie s = Mbps) && negb (pfd s).

Definition is_highspeed (s : ProtocolSpeed) : bool :=
  (psim s =? 480) && bool_decide (psie s = Mbps) && negb (pfd s).

Definition is_superspeed_gen1x1 (s : ProtocolSpeed) : bool :=
  (psim s =? 5) && bool_decide (psie s = Gbps) && pfd s && bool_decide (lp s = LpSuperSpeed).

Definition is_superspeedplus_gen2x1 (s : ProtocolSpeed) : bool :=
  (psim s =? 10) && bool_decide (psie s = Gbps) && pfd s && bool_decide (lp s = LpSuperSpeedPlus).

Definition is_superspeedplus_gen1x2 (s : ProtocolSpeed) : bool :=
  (psim s =? 10) && bool_decide (psie s = Gbps) && pfd s && bool_decide (lp s = LpSuperSpeedPlus).

Definition is_superspeedplus_gen2x2 (s : ProtocolSpeed) : bool :=
  (psim s =? 20) && bool_decide (psie s = Gbps) && pfd s && bool_decide (lp s = LpSuperSpeedPlus).

Definition is_superspeed_gen_x (s : ProtocolSpeed) : bool :=
  is_superspeed_gen1x1 s || is_superspeedplus_gen2x1 s || is_superspeedplus_gen1x2 s
  || is_superspeedplus_gen2x2 s.

(** The walk over the capability list.  [None] of the iterator is the null
    pointer; an address is a [u64] and [offset] advances it. *)
Definition ext_caps_next (m : mmio) (base : option Z) : option ((Z * Z) * option Z) :=
  match base with
  | None => None
  | Some current =>
      let reg := m current in
      let capability_id := as_u8 (Z.land reg 0xFF) in
      let next_rel_in_dwords := as_u8 (Z.shiftr (Z.land reg 0xFF00) 8) in
      let next_rel := as_u16 (Z.shiftl next_rel_in_dwords 2) in
      let base' := if negb (next_rel =? 0) then Some (current + next_rel) else None in
      Some ((current, capability_id), base')
  end.

(** All items of the iterator; [None] when [fuel] items were not enough. *)
Fixpoint ext_caps_iter (fuel : nat) (m : mmio) (base : option Z) : option (list (Z * Z)) :=
  match ext_caps_next m base with
  | None => Some []
  | Some (item, base') =>
      match fuel with
      | O => None
      | S fuel => cons item <$> ext_caps_iter fuel m base'
      end
  end.

Definition CapabilityId_SupportedProtocol : Z := 2.

(** A [&SupportedProtoCap] is its address. *)
Record SupportedProtoCap := mk_proto_cap { sp_ptr : Z }.

Definition sp_a (m : mmio) (c : SupportedProtoCap) : Z := m (sp_ptr c).
Definition sp_b (m : mmio) (c : SupportedProtoCap) : Z := m (sp_ptr c + 4).
Definition sp_c (m : mmio) (c : SupportedProtoCap) : Z := m (sp_ptr c + 8).
Definition sp_d (m : mmio) (c : SupportedProtoCap) : Z := m (sp_ptr c + 12).

Definition rev_minor (m : mmio) (c : SupportedProtoCap) : Z := reg_field 8 0x00FF0000 16 (sp_a m c).

Definition rev_major (m : mmio) (c : SupportedProtoCap) : Z := reg_field 8 0xFF000000 24 (sp_a m c).

Definition name_string (m : mmio) (c : SupportedProtoCap) : list Z := le_bytes 4 (sp_b m c).

Definition compat_port_offset (m : mmio) (c : SupportedProtoCap) : Z :=
  reg_field 8 0x000000FF 0 (sp_c m c).

Definition compat_port_count (m : mmio) (c : SupportedProtoCap) : Z :=
  reg_field 8 0x0000FF00 8 (sp_c m c).

(** The half-open range, as its two ends; the sum is a [u8]. *)
Definition compat_port_range (m : mmio) (c : SupportedProtoCap) : Z * Z :=
  (compat_port_offset m c, as_u8 (compat_port_offset m c + compat_port_count m c)).

Definition proto_defined (m : mmio) (c : SupportedProtoCap) : Z :=
  reg_field 16 0x0FFF0000 16 (sp_c m c).

Definition psic (m : mmio) (c : SupportedProtoCap) : Z := reg_field 8 0xF0000000 28 (sp_c m c).

Definition proto_slot_ty (m : mmio) (c : SupportedProtoCap) : Z :=
  reg_field 8 0x0000001F 0 (sp_d m c).

(** The [psic] speed registers that follow the four fixed ones. *)
Definition protocol_speeds (m : mmio) (c : SupportedProtoCap) : list ProtocolSpeed :=
  (λ k, mk_speed (m (sp_ptr c + 16 + 4 * Z.of_nat k))) <$> seq 0 (Z.to_nat (psic m c)).

Definition supported_protocols (caps : list (Z * Z)) : list SupportedProtoCap :=
  omap (λ '(ptr, cap_num),
          if cap_num =? CapabilityId_SupportedProtocol then Some (mk_proto_cap ptr) else None) caps.

Definition range_contains (r : Z * Z) (x : Z) : bool := (fst r <=? x) && (x <? snd r).

Definition supported_protocol (m : mmio) (caps : list (Z * Z)) (port : Z)
    : option SupportedProtoCap :=
  List.find (λ c, range_contains (compat_port_range m c) (as_u8 (port + 1)))
    (supported_protocols caps).

(** [ProtocolSpeed::from_raw] of one row of the default table. *)
Definition speed_row (p : Plt) (fd : bool) (e : Psie) (mantissa : Z) (l : option Lp) (v : Z)
    : ProtocolSpeed :=
  mk_speed
    (Z.lor (Z.lor (Z.lor (Z.lor (Z.lor (Z.shiftl (plt_code p) PROTO_SPEED_PLT_SHIFT)
        (Z.shiftl (of_bool fd) PROTO_SPEED_PFD_SHIFT))
        (Z.shiftl (psie_code e) PROTO_SPEED_PSIE_SHIFT))
        (Z.shiftl mantissa PROTO_SPEED_PSIM_SHIFT))
        (match l with Some l => Z.shiftl (lp_code l) PROTO_SPEED_LP_SHIFT | None => 0 end))
        (Z.shiftl v PROTO_SPEED_PSIV_SHIFT)).

Definition DEFAULT_SUPP_PROTO_SPEEDS : list ProtocolSpeed :=
  [ speed_row PltSymmetric false Mbps 12 None 1;
    speed_row PltSymmetric false Kbps 1500 None 2;
    speed_row PltSymmetric false Mbps 480 None 3;
    speed_row PltSymmetric true Gbps 5 (Some LpSuperSpeed) 4;
    speed_row PltSymmetric true Gbps 10 (Some LpSuperSpeedPlus) 5;
    speed_row PltSymmetric true Gbps 10 (Some LpSuperSpeedPlus) 6;
    speed_row PltSymmetric true Gbps 20 (Some LpSuperSpeedPlus) 7 ].

Definition supported_protocol_speeds (m : mmio) (caps : list (Z * Z)) (port : Z)
    : list ProtocolSpeed :=
  match supported_protocol m caps port with
  | Some supp_proto =>
      if negb (psic m supp_proto =? 0) then protocol_speeds m supp_proto
      else DEFAULT_SUPP_PROTO_SPEEDS
  | None => DEFAULT_SUPP_PROTO_SPEEDS
  end.

Definition lookup_psiv (m : mmio) (caps : list (Z * Z)) (port v : Z) : option ProtocolSpeed :=
  List.find (λ s, psiv s =? v) (supported_protocol_speeds m caps port).

(** ** Endpoint context values *)

(** [u8::leading_zeros]. *)
Definition leading_zeros8 (x : Z) : Z := if x =? 0 then 8 else 7 - Z.log2 x.

Definition MILLISEC_PERIODS : Z := 3.

Definition endp_ctx_interval (speed_id : ProtocolSpeed) (d : EndpDesc) : Z :=
  if (is_lowspeed speed_id || is_fullspeed speed_id) && is_interrupt d then
    let last_power_of_two := as_u8 (8 - leading_zeros8 (ed_interval d)) in
    as_u8 (last_power_of_two - 1 + MILLISEC_PERIODS)
  else if is_fullspeed speed_id && is_isoch d then
    as_u8 (ed_interval d - 1 + MILLISEC_PERIODS)
  else if (is_fullspeed speed_id || is_superspeed d || is_superspeedplus d)
          && (is_interrupt d || is_isoch d) then
    as_u8 (ed_interval d - 1)
  else 0.

Definition endp_ctx_max_burst (speed_id : ProtocolSpeed) (dev_desc : DevDesc) (d : EndpDesc)
    : res errno Z :=
  if is_highspeed speed_id && (is_interrupt d || is_isoch d) then
    if major_version dev_desc =? 2 then
      Ok (as_u8 (Z.shiftr (Z.land (ed_max_packet_size d) 0x0C00) 11))
    else Panic
  else if is_superspeed d then Ok (max_burst d)
  else Ok 0.

Definition endp_ctx_max_packet_size (d : EndpDesc) : Z := Z.land (ed_max_packet_size d) 0x07FF.

Definition KIB : Z := 1024.

Definition endp_ctx_max_esit_payload (speed_id : ProtocolSpeed) (dev_desc : DevDesc)
    (d : EndpDesc) (max_packet_size max_burst_size : Z) : res errno Z :=
  match (if major_version dev_desc =? 2 then is_periodic d else Ok false) with
  | Ok true => Ok (as_u32 (max_packet_size * (max_burst_size + 1)))
  | Ok false =>
      if negb (has_ssp_companion d) then
        match ed_ssc d with Some ssc => Ok (ssc_bytes_per_interval ssc) | None => Panic end
      else if has_ssp_companion d then
        match ed_sspc d with Some sspc => Ok (sspc_bytes_per_interval sspc) | None => Panic end
      else if is_fullspeed speed_id && is_interrupt d then Ok 64
      else if is_fullspeed speed_id && is_isoch d then Ok (1 * KIB)
      else if (is_highspeed speed_id && (is_interrupt d || is_isoch d))
              || (is_superspeed d && is_interrupt d) then Ok (3 * KIB)
      else if is_superspeed d && is_isoch d then Ok (48 * KIB)
      else Ok 0
  | Err e => Err e
  | Panic => Panic
  end.

(** ** Device context index, doorbell, results *)

Definition def_control_endp_doorbell : Z := 1.

(** The two [unreachable!] arms panic. *)
Definition endp_num_to_dci (endp_num : Z) (d : EndpDesc) : res errno Z :=
  if endp_num =? 0 then Panic
  else if is_control d || bool_decide (endp_direction d = EdIn) then Ok (as_u8 (endp_num * 2 + 1))
  else if bool_decide (endp_direction d = EdOut) then Ok (as_u8 (endp_num * 2))
  else Panic.

Definition endp_doorbell (endp_num : Z) (d : EndpDesc) (stream_id : Z) : res errno Z :=
  match endp_num_to_dci endp_num d with
  | Ok db_target => Ok (Z.lor (shl32 stream_id 16) db_target)
  | Err e => Err e
  | Panic => Panic
  end.

Definition transfer_result (code bytes_transferred : Z) : PortTransferStatus :=
  mk_pts
    (if code =? completion_code_value CSuccess then TkSuccess
     else if code =? completion_code_value CShortPacket then TkShortPacket
     else if code =? completion_code_value CStall then TkStalled
     else TkUnknown)
    bytes_transferred.

Definition handle_event_trb (event_trb : Trb) : res errno unit :=
  if completion_code event_trb =? completion_code_value CSuccess then Ok tt else Err EIO.

Definition handle_transfer_event_trb (event_trb : Trb) : res errno unit :=
  if (completion_code event_trb =? completion_code_value CSuccess)
     || (completion_code event_trb =? completion_code_value CShortPacket)
  then Ok tt else Err EIO.

Definition div_round_up (a b : Z) : Z := if negb (a mod b =? 0) then a / b + 1 else a / b.

(** [write_dyn_string]: the bytes put at the start of the buffer, and the new
    offset; [None] when the copied range exceeds the string or the buffer. *)
Definition write_dyn_string (s : list Z) (buf_len offset : nat) : option (list Z * nat) :=
  let max_bytes_to_read := Nat.min (length s) buf_len in
  let bytes_to_read := (Nat.max offset max_bytes_to_read - offset)%nat in
  if decide (bytes_to_read <= buf_len ∧ bytes_to_read <= length s)%nat then
    Some (take bytes_to_read s, (offset + bytes_to_read)%nat)
  else None.

(** ** Endpoint types *)

Lemma ty_code (d : EndpDesc) : endpoint_ty_code (ty d) = field 0 2 (ed_attributes d).
Proof.
  unfold ty, ENDP_ATTR_TY_MASK.
  assert (Z.land (ed_attributes d) 0x3 = field 0 2 (ed_attributes d)) as -> by
    (unfold field; by rewrite Z.shiftr_0_r).
  pose proof (field_range 0 2 (ed_attributes d)) as H. unfold u_range in H.
  assert (field 0 2 (ed_attributes d) = 0 ∨ field 0 2 (ed_attributes d) = 1
    ∨ field 0 2 (ed_attributes d) = 2 ∨ field 0 2 (ed_attributes d) = 3) as Hc by zpow.
  destruct Hc as [->|[->|[->| ->]]]; done.
Qed.

(** The bit of [bEndpointAddress] that the host reads as "device to host". *)
Definition addr_in (d : EndpDesc) : bool := Z.testbit (ed_address d) 7.

Lemma endp_direction_alt (d : EndpDesc) :
  endp_direction d = if is_control d then EdBidirectional else if addr_in d then EdIn else EdOut.
Proof.
  unfold endp_direction, addr_in. destruct (is_control d); [done|].
  change 0x80 with (2 ^ 7). rewrite land_pow2_eqb_0, negb_involutive by lia. done.
Qed.

(** C39. The endpoint type written to the controller is defined for every
    descriptor: it is 4 for a control endpoint, and otherwise its low two bits
    are the transfer type of [bmAttributes] and its bit 2 is the direction bit of
    [bEndpointAddress]; it is never the reserved type 0. *)
Theorem xhci_ep_type_sound (d : EndpDesc) :
  ∃ v, xhci_ep_type d = Ok v ∧ 1 <= v <= 7 ∧
    (if is_control d then v = 4
     else v mod 4 = field 0 2 (ed_attributes d) ∧ Z.testbit v 2 = addr_in d).
Proof.
  rewrite <- ty_code. unfold xhci_ep_type. rewrite endp_direction_alt.
  unfold is_control, is_isoch, is_bulk, is_interrupt.
  destruct (ty d), (addr_in d); simpl; eexists; (split; [reflexivity|]); (split; [lia|]);
    first [reflexivity | split; reflexivity].
Qed.

(** The context index of an endpoint number. *)
Lemma dci_value (n : Z) (d : EndpDesc) :
  1 <= n <= 15 → endp_num_to_dci n d = Ok (n * 2 + of_bool (is_control d || addr_in d)).
Proof.
  intros Hn. unfold endp_num_to_dci. rewrite endp_direction_alt, (proj2 (Z.eqb_neq n 0)) by lia.
  destruct (is_control d), (addr_in d); cbn [orb bool_decide of_bool]; f_equal; unfold as_u8;
    rewrite ?(as_u_id 8) by (unfold u_range; lia); cbn; rewrite ?(as_u_id 8) by (unfold u_range; lia); lia.
Qed.

(** The device context index of endpoint [n] (1 to 15) is defined, lies in
    the table of 31 contexts, and distinguishes endpoints: two endpoints with the
    same index have the same number and agree on using the IN half. *)
Theorem dci_injective (n n' : Z) (d d' : EndpDesc) (i : Z) :
  1 <= n <= 15 → 1 <= n' <= 15 →
  endp_num_to_dci n d = Ok i →
  2 <= i <= 31 ∧
  (endp_num_to_dci n' d' = Ok i →
   n = n' ∧ (is_control d || addr_in d) = (is_control d' || addr_in d')).
Proof.
  intros Hn Hn'. rewrite !dci_value by done. intros [= <-]. split.
  - destruct (is_control d || addr_in d); simpl; lia.
  - intros [= E]. destruct (is_control d || addr_in d), (is_control d' || addr_in d'); simpl in *; split; (lia || done).
Qed.

(** A bulk IN endpoint descriptor of 512 bytes, and an interrupt IN one. *)
Definition bulk_in : EndpDesc := mk_endp_desc 5 0x81 2 512 0 None None.

Definition intr_in (interval : Z) : EndpDesc := mk_endp_desc 5 0x81 3 8 interval None None.

Lemma dci_injective_witness :
  2 <= 3 <= 31 ∧ (endp_num_to_dci 1 bulk_in = Ok 3 →
    1 = 1 ∧ (is_control bulk_in || addr_in bulk_in) = (is_control bulk_in || addr_in bulk_in)).
Proof. apply (dci_injective 1 1 bulk_in bulk_in 3); [lia|lia|reflexivity]. Defined.

(** ** Intervals *)

Definition full_speed : ProtocolSpeed := speed_row PltSymmetric false Mbps 12 None 1.

Definition high_speed : ProtocolSpeed := speed_row PltSymmetric false Mbps 480 None 3.

(** Microseconds of the service interval with exponent [i]. *)
Definition interval_us (i : Z) : Z := 125 * 2 ^ i.

Lemma leading_zeros8_log2 (x : Z) : 1 <= x <= 255 → as_u8 (8 - leading_zeros8 x) = Z.log2 x + 1.
Proof.
  intros Hx. unfold leading_zeros8. rewrite (proj2 (Z.eqb_neq x 0)) by lia.
  pose proof (Z.log2_nonneg x). assert (Z.log2 x < 8) by (apply Z.log2_lt_pow2; [lia|simpl; lia]).
  unfold as_u8. rewrite as_u_id; unfold u_range; simpl; lia.
Qed.

(** For an interrupt endpoint of a low- or full-speed device the programmed
    interval is the largest power-of-two period that does not exceed the
    [bInterval] milliseconds of the descriptor, and it lies in the range 3 to 10
    that the context field allows. *)
Theorem interrupt_interval_spec (s : ProtocolSpeed) (d : EndpDesc) :
  is_lowspeed s || is_fullspeed s = true → is_interrupt d = true → 1 <= ed_interval d <= 255 →
  let i := endp_ctx_interval s d in
  3 <= i <= 10 ∧ interval_us i <= 1000 * ed_interval d < interval_us (i + 1).
Proof.
  intros Hs Hd Hi. unfold endp_ctx_interval. rewrite Hs, Hd. cbn [andb].
  rewrite leading_zeros8_log2 by done. unfold MILLISEC_PERIODS.
  pose proof (Z.log2_nonneg (ed_interval d)).
  assert (Z.log2 (ed_interval d) < 8) by (apply Z.log2_lt_pow2; [lia|simpl; lia]).
  unfold as_u8. rewrite as_u_id by (unfold u_range; simpl; lia).
  pose proof (Z.log2_spec (ed_interval d) ltac:(lia)) as [Hlo Hhi].
  replace (Z.log2 (ed_interval d) + 1 - 1 + 3) with (Z.log2 (ed_interval d) + 3) by lia.
  unfold interval_us. split; [lia|].
  rewrite Z.pow_succ_r in Hhi by lia.
  replace (Z.log2 (ed_interval d) + 3 + 1) with (Z.log2 (ed_interval d) + 4) by lia.
  rewrite !Z.pow_add_r by lia. change (2 ^ 3) with 8. change (2 ^ 4) with 16. lia.
Qed.

Lemma interrupt_interval_spec_witness :
  let i := endp_ctx_interval full_speed (intr_in 10) in
  3 <= i <= 10 ∧ interval_us i <= 1000 * 10 < interval_us (i + 1).
Proof. apply (interrupt_interval_spec full_speed (intr_in 10)); [reflexivity|reflexivity|simpl; lia]. Defined.

(** High-speed devices fall through every test: their periodic endpoints are
    programmed with the shortest interval, whatever [bInterval] says. *)
Lemma highspeed_interval_zero (d : EndpDesc) :
  ed_ssc d = None → endp_ctx_interval high_speed d = 0.
Proof.
  intros Hs. unfold endp_ctx_interval, is_superspeed. rewrite Hs.
  change (is_lowspeed high_speed) with false. change (is_fullspeed high_speed) with false.
  done.
Qed.

(** ** ESIT payload *)

(** Computing the maximum ESIT payload panics exactly when the device is not
    a USB 2 device with a periodic endpoint and the descriptor lacks the
    companion the next branch unwraps; the descriptors xhcid reads from a device
    never carry a companion, so every bulk endpoint panics. *)
Theorem esit_payload_panics (s : ProtocolSpeed) (dd : DevDesc) (d : EndpDesc) (mps mb : Z) :
  endp_ctx_max_esit_payload s dd d mps mb = Panic ↔
  (major_version dd ≠ 2 ∨ is_periodic d ≠ Ok true) ∧
  match ed_ssc d with
  | None => True
  | Some ssc => Z.testbit (ssc_attributes ssc) 7 = true ∧ ed_sspc d = None
  end.
Proof.
  assert (∃ b, is_periodic d = Ok b) as [b Hp].
  { unfold is_periodic, interrupt_usage_bits. destruct (is_interrupt d); eauto. }
  unfold endp_ctx_max_esit_payload. rewrite Hp.
  assert (∀ ssc, ed_ssc d = Some ssc → has_ssp_companion d = Z.testbit (ssc_attributes ssc) 7) as Hssp.
  { intros ssc Hs. unfold has_ssp_companion. rewrite Hs. change (Z.shiftl 1 7) with (2 ^ 7).
    by rewrite land_pow2_eqb_0, negb_involutive by lia. }
  destruct (Z.eqb_spec (major_version dd) 2) as [Hv|Hv]; [destruct b|].
  - split; [done|]. intros [[H|H] _]; done.
  - destruct (ed_ssc d) as [ssc|] eqn:Hs.
    + rewrite (Hssp _ eq_refl). destruct (Z.testbit (ssc_attributes ssc) 7); simpl.
      * destruct (ed_sspc d); split; intros; naive_solver.
      * split; [done|]. naive_solver.
    + unfold has_ssp_companion. rewrite Hs. simpl. split; [|done]. intros _. split; [|done]. by right.
  - destruct (ed_ssc d) as [ssc|] eqn:Hs.
    + rewrite (Hssp _ eq_refl). destruct (Z.testbit (ssc_attributes ssc) 7); simpl.
      * destruct (ed_sspc d); split; intros; naive_solver.
      * split; [done|]. naive_solver.
    + unfold has_ssp_companion. rewrite Hs. simpl. split; [|done]. intros _. split; [|done]. by left.
Qed.

(** ** The capability walk *)

(** The register space is finite: from [lim] on, no capability links further. *)
Definition caps_end (m : mmio) (lim : Z) : Prop :=
  ∀ p, lim <= p → field 8 8 (m p) = 0.

Lemma ext_caps_next_field (m : mmio) (p : Z) :
  ext_caps_next m (Some p) =
  Some ((p, field 0 8 (m p)),
        if field 8 8 (m p) =? 0 then None else Some (p + 4 * field 8 8 (m p))).
Proof.
  unfold ext_caps_next. f_equal. f_equal; [f_equal|].
  - unfold field, as_u8, as_u. rewrite Z.shiftr_0_r. rewrite Z.mod_small; [done|].
    apply (u_range_land_r 8). simpl. lia.
  - unfold as_u8. rewrite (field_of_mask (m p) 0xFF00 8 8) by (lia || done).
    pose proof (field_range 8 8 (m p) ltac:(lia)) as Hr. unfold u_range in Hr.
    rewrite (as_u_id 8) by (unfold u_range; lia).
    rewrite Z.shiftl_mul_pow2 by lia. unfold as_u16. rewrite as_u_id by (unfold u_range; zpow).
    change (2 ^ 2) with 4.
    destruct (Z.eqb_spec (field 8 8 (m p)) 0) as [->|Hne]; [done|].
    rewrite (proj2 (Z.eqb_neq _ _)) by lia. simpl. f_equal. lia.
Qed.

(** The walk over the extended capabilities ends: in a register space that
    holds no link from [lim] on, one item for every dword between the first
    capability and [lim] is fuel enough; the capabilities come in increasing
    order of address, starting with the first. *)
Theorem ext_caps_terminates (m : mmio) (base lim : Z) (fuel : nat) :
  caps_end m lim → (lim - base + 3) / 4 + 1 <= Z.of_nat fuel → 0 < Z.of_nat fuel →
  ∃ caps, ext_caps_iter fuel m (Some base) = Some caps ∧
    head caps = Some (base, field 0 8 (m base)) ∧
    StronglySorted Z.lt (fst <$> caps).
Proof.
  intros Hend. revert base. induction fuel as [|fuel IH]; intros base Hf Hpos; [lia|].
  cbn [ext_caps_iter]. rewrite ext_caps_next_field.
  pose proof (field_range 8 8 (m base) ltac:(lia)) as Hr. unfold u_range in Hr.
  destruct (Z.eqb_spec (field 8 8 (m base)) 0) as [Hz|Hz].
  - exists [(base, field 0 8 (m base))]. split; [by destruct fuel|]. split; [done|].
    repeat constructor.
  - assert (base < lim) as Hlt by (destruct (Z_lt_le_dec base lim); [done|by destruct Hz; apply Hend]).
    destruct (IH (base + 4 * field 8 8 (m base))) as (caps & Hc & Hh & Hs); [| |].
    { pose proof (Z.div_le_mono (lim - (base + 4 * field 8 8 (m base)) + 3) (lim - base - 1) 4).
      zdiv. }
    { zdiv. }
    rewrite Hc. eexists. split; [reflexivity|]. split; [done|]. simpl. constructor; [done|].
    destruct caps as [|[q c] caps]; [done|]. simpl in *. injection Hh as -> _.
    apply StronglySorted_inv in Hs as [_ Hs]. constructor; [lia|].
    eapply Forall_impl; [exact Hs|]. simpl. lia.
Qed.

(** One supported-protocol capability at 0x500 that links to a second at 0x520. *)
Definition two_caps : mmio := λ p, if p =? 0x500 then 0x02000802 else if p =? 0x508 then 0x0401
  else if p =? 0x520 then 0x03000002 else if p =? 0x528 then 0x0405 else 0.

Lemma ext_caps_terminates_witness :
  ∃ caps, ext_caps_iter 13 two_caps (Some 0x500) = Some caps ∧
    head caps = Some (0x500, field 0 8 (two_caps 0x500)) ∧ StronglySorted Z.lt (fst <$> caps).
Proof.
  apply (ext_caps_terminates two_caps 0x500 0x530 13); [|by vm_compute|by vm_compute].
  intros p Hp. unfold two_caps.
  rewrite (proj2 (Z.eqb_neq p 0x500)), (proj2 (Z.eqb_neq p 0x508)), (proj2 (Z.eqb_neq p 0x520)),
    (proj2 (Z.eqb_neq p 0x528)) by lia. reflexivity.
Defined.

(** The lookups of a port: its own protocol block, and a default speed by id. *)
Lemma lookup_examples :
  let caps := [(0x500, 2); (0x520, 2)] in
  ext_caps_iter 9 two_caps (Some 0x500) = Some caps ∧
  (sp_ptr <$> supported_protocol two_caps caps 3) = Some 0x500 ∧
  (sp_ptr <$> supported_protocol two_caps caps 4) = Some 0x520 ∧
  (sp_ptr <$> supported_protocol two_caps caps 8) = None ∧
  lookup_psiv two_caps caps 0 3 = Some high_speed.
Proof. vm_compute. done. Qed.

(** The speed classes of the default table, in its order; the two "x2" modes of
    SuperSpeedPlus at 10 Gb/s are not distinguished. *)
Lemma default_speed_classes :
  (λ s, (is_lowspeed s, is_fullspeed s, is_highspeed s, is_superspeed_gen_x s))
    <$> DEFAULT_SUPP_PROTO_SPEEDS =
  [(false, true, false, false); (true, false, false, false); (false, false, true, false);
   (false, false, false, true); (false, false, false, true); (false, false, false, true);
   (false, false, false, true)].
Proof. reflexivity. Qed.

(** ** Round trips *)

Lemma port_state_roundtrip (s : PortState) : port_state_from_str (port_state_str s) = Some s.
Proof. by destruct s. Qed.

Lemma endp_status_roundtrip (s : EndpointStatus) :
  endp_status_from_str (endp_status_str s) = Some s.
Proof. by destruct s. Qed.

(** [get_endp_desc] is indexing into the endpoints of all interfaces, as long as
    the [u8] counter does not wrap. *)
Lemma find_in_if_spec (idx c : Z) (eps : list EndpDesc) :
  0 <= c → c + Z.of_nat (length eps) <= 255 → c <= idx →
  find_in_if idx c eps =
  match eps !! Z.to_nat (idx - c) with
  | Some e => inl (Some e)
  | None => inr (c + Z.of_nat (length eps))
  end.
Proof.
  revert c. induction eps as [|e eps IH]; intros c H0 Hl Hi; cbn [find_in_if length] in *.
  - by rewrite Z.add_0_r.
  - destruct (Z.eqb_spec idx c) as [->|Hne]; [by rewrite Z.sub_diag|].
    unfold as_u8. rewrite as_u_id by (unfold u_range; simpl; lia). rewrite IH by lia.
    replace (Z.to_nat (idx - c)) with (S (Z.to_nat (idx - (c + 1)))) by lia. simpl.
    destruct (eps !! Z.to_nat (idx - (c + 1))); [done|]. f_equal. lia.
Qed.

Lemma find_endp_spec (idx c : Z) (ifs : list IfDesc) :
  0 <= c → c + Z.of_nat (length (mjoin (id_endpoints <$> ifs))) <= 255 → c <= idx →
  find_endp idx c ifs = mjoin (id_endpoints <$> ifs) !! Z.to_nat (idx - c).
Proof.
  revert c. induction ifs as [|i ifs IH]; intros c H0 Hl Hi; cbn [find_endp]; [done|].
  change (mjoin (id_endpoints <$> i :: ifs)) with (id_endpoints i ++ mjoin (id_endpoints <$> ifs)) in *.
  rewrite length_app in Hl.
  rewrite find_in_if_spec by lia.
  destruct (id_endpoints i !! Z.to_nat (idx - c)) eqn:He.
  - symmetry. by apply lookup_app_l_Some.
  - apply lookup_ge_None in He. rewrite IH by lia. rewrite lookup_app_r by lia. f_equal. lia.
Qed.
