(* ===== verification/XhciHost.v ===== *)
(** The shared state of xhcid, its IRQ reactor and the execution of commands and
    control transfers (xhcid/src/xhci/mod.rs, irq_reactor.rs and the first part
    of scheme.rs).

    [Xhci] is the driver's state.  Everything outside the driver is the class
    [Controller]: the hardware (what a doorbell makes it post to the event ring,
    its port registers and contexts), DMA memory, and the behaviour of the
    concurrent map [port_states] on a lookup made while the same task still owns
    the entry's write guard ([guard_reentry]).

    An [await] of an [EventTrbFuture] is [await_event]: the future registers its
    state with the reactor and rings the doorbell, then the reactor takes the
    events that the controller posts, one after the other.  A future that no
    event answers is the fault [Waits]. *)

From S2P Require Import Prelude UsbSetup XhciTrb XhciRing XhciIface.

(** ** Faults *)

(** [Sys] is an error code; [Waits] stands for a call that does not return. *)
Inductive fault : Type :=
| Sys (e : errno)
| Waits.

#[global] Instance fault_eq_dec : EqDecision fault.
Proof. solve_decision. Defined.

(** ** Contexts *)

Record SlotContext := mk_slot_ctx { sl_a : Z; sl_b : Z; sl_c : Z; sl_d : Z }.

Record EndpointContext := mk_endp_ctx {
  ec_a : Z; ec_b : Z; ec_trl : Z; ec_trh : Z; ec_c : Z;
}.

(** [Dma<InputContext>]: its physical address, the three control words and the
    device part; a zeroed one has 31 zeroed endpoint contexts. *)
Record InputContext := mk_input_ctx {
  ic_phys : Z;
  ic_drop_context : Z;
  ic_add_context : Z;
  ic_control : Z;
  ic_slot : SlotContext;
  ic_endpoints : list EndpointContext;
}.

Definition zero_endp_ctx : EndpointContext := mk_endp_ctx 0 0 0 0 0.

Definition zero_input_ctx (phys : Z) : InputContext :=
  mk_input_ctx phys 0 0 0 (mk_slot_ctx 0 0 0 0) (replicate 31 zero_endp_ctx).

Definition SLOT_CONTEXT_STATE_MASK : Z := 0xF8000000.

Definition SLOT_CONTEXT_STATE_SHIFT : Z := 27.

(** [SlotContext::state]. *)
Definition slot_ctx_state (d : Z) : Z :=
  reg_field 8 SLOT_CONTEXT_STATE_MASK SLOT_CONTEXT_STATE_SHIFT d.

Definition ENDPOINT_CONTEXT_STATUS_MASK : Z := 0x7.

Record StreamContextArray := mk_sca {
  sca_phys : Z;
  sca_contexts : list (Z * Z);   (* trl, trh *)
  sca_rings : gmap Z Ring;
}.

(** ** Ports and endpoints *)

Inductive EndpIfState : Type :=
| IfInit
| IfWaitingForDataPipe (direction : XhciEndpCtlDirection) (bytes_transferred bytes_to_transfer : Z)
| IfWaitingForStatus
| IfWaitingForTransferResult (st : PortTransferStatus).

Inductive RingOrStreams : Type :=
| RosRing (r : Ring)
| RosStreams (a : StreamContextArray).

Record EndpointState := mk_es {
  es_transfer : RingOrStreams;
  es_if_state : EndpIfState;
}.

Record PortSt := mk_port {
  po_slot : Z;
  po_cfg_idx : option Z;
  po_input_context : InputContext;
  po_dev_desc : option DevDesc;
  po_endpoint_states : gmap Z EndpointState;
}.

Definition with_endpoint (e : Z) (st : EndpointState) (p : PortSt) : PortSt :=
  mk_port (po_slot p) (po_cfg_idx p) (po_input_context p) (po_dev_desc p)
    (<[e := st]> (po_endpoint_states p)).

(** ** The IRQ reactor's data *)

Record RingId := mk_ring_id { ri_port : Z; ri_endpoint_num : Z; ri_stream_id : Z }.

Definition default_control_pipe (port : Z) : RingId := mk_ring_id port 0 0.

Inductive StateKind : Type :=
| KCommandCompletion (phys_ptr : Z)
| KTransfer (first_phys_ptr last_phys_ptr : Z) (ring_id : RingId)
| KOther (t : TrbType).

Definition state_trb_type (k : StateKind) : TrbType :=
  match k with
  | KCommandCompletion _ => TCommandCompletion
  | KTransfer _ _ _ => TTransfer
  | KOther t => t
  end.

(** The message cell and the waker of a future are named by [st_id]. *)
Record State := mk_state {
  st_id : Z;
  st_kind : StateKind;
  st_is_isoch_or_vf : bool;
}.

Record NextEventTrb := mk_next { ne_event_trb : Trb; ne_src_trb : option Trb }.

(** ** The driver's state and its surroundings *)

Record Xhci (W : Type) := mk_xhci {
  x_world : W;
  x_port_states : gmap Z PortSt;
  x_guard : option Z;              (* the port whose write guard the task owns *)
  x_cmd : Ring;
  x_states : list State;
  x_messages : gmap Z NextEventTrb;
  x_next_id : Z;
  x_reactor_alive : bool;
  x_enumerate : list Z;            (* requests sent to the device enumerator *)
  x_ports_locked : bool;           (* a task owns the guard of [ports] *)
}.
Arguments mk_xhci {W}.
Arguments x_world {W}.
Arguments x_port_states {W}.
Arguments x_guard {W}.
Arguments x_cmd {W}.
Arguments x_states {W}.
Arguments x_messages {W}.
Arguments x_next_id {W}.
Arguments x_reactor_alive {W}.
Arguments x_enumerate {W}.
Arguments x_ports_locked {W}.

Class Controller (W : Type) := {
  hc_ac64 : bool;
  hc_lec : bool;
  hc_cie : bool;
  hc_max_psa_size : Z;
  hc_mmio : mmio;
  hc_ext_caps : list (Z * Z);
  (** The events posted from this doorbell on, until the controller is idle. *)
  xhc_doorbell : Ring → gmap Z PortSt → Z → Z → W → list Trb * W;
  xhc_portsc : W → list Z;
  xhc_portsc_write : nat → Z → W → W;
  (** The "event handler busy" bit of interrupter 0, and writing it as one. *)
  xhc_ehb : W → bool;
  xhc_clear_ehb : W → W;
  (** The device contexts: the slot's [d] and the [a] of its endpoints. *)
  xhc_contexts : W → list (Z * list Z);
  (** [Dma::zeroed]: a length in bytes to a physical and a virtual address. *)
  dma_zeroed : Z → W → (errno + Z * Z) * W;
  dma_get : W → Z → nat → list Z;
  dma_set : Z → list Z → W → W;
  guard_reentry : fault;
}.

Section host.
Context {W : Type} `{Controller W}.

Abbreviation xp := (prog (Xhci W) fault).

Definition set_world (w : W) (s : Xhci W) : Xhci W :=
  mk_xhci w (x_port_states s) (x_guard s) (x_cmd s) (x_states s) (x_messages s) (x_next_id s)
    (x_reactor_alive s) (x_enumerate s) (x_ports_locked s).

Definition set_port_states (m : gmap Z PortSt) (s : Xhci W) : Xhci W :=
  mk_xhci (x_world s) m (x_guard s) (x_cmd s) (x_states s) (x_messages s) (x_next_id s)
    (x_reactor_alive s) (x_enumerate s) (x_ports_locked s).

Definition set_guard (g : option Z) (s : Xhci W) : Xhci W :=
  mk_xhci (x_world s) (x_port_states s) g (x_cmd s) (x_states s) (x_messages s) (x_next_id s)
    (x_reactor_alive s) (x_enumerate s) (x_ports_locked s).

Definition set_cmd (r : Ring) (s : Xhci W) : Xhci W :=
  mk_xhci (x_world s) (x_port_states s) (x_guard s) r (x_states s) (x_messages s) (x_next_id s)
    (x_reactor_alive s) (x_enumerate s) (x_ports_locked s).

Definition set_states (l : list State) (s : Xhci W) : Xhci W :=
  mk_xhci (x_world s) (x_port_states s) (x_guard s) (x_cmd s) l (x_messages s) (x_next_id s)
    (x_reactor_alive s) (x_enumerate s) (x_ports_locked s).

Definition set_messages (m : gmap Z NextEventTrb) (s : Xhci W) : Xhci W :=
  mk_xhci (x_world s) (x_port_states s) (x_guard s) (x_cmd s) (x_states s) m (x_next_id s)
    (x_reactor_alive s) (x_enumerate s) (x_ports_locked s).

Definition set_next_id (n : Z) (s : Xhci W) : Xhci W :=
  mk_xhci (x_world s) (x_port_states s) (x_guard s) (x_cmd s) (x_states s) (x_messages s) n
    (x_reactor_alive s) (x_enumerate s) (x_ports_locked s).

Definition set_reactor (b : bool) (s : Xhci W) : Xhci W :=
  mk_xhci (x_world s) (x_port_states s) (x_guard s) (x_cmd s) (x_states s) (x_messages s)
    (x_next_id s) b (x_enumerate s) (x_ports_locked s).

Definition set_enumerate (l : list Z) (s : Xhci W) : Xhci W :=
  mk_xhci (x_world s) (x_port_states s) (x_guard s) (x_cmd s) (x_states s) (x_messages s)
    (x_next_id s) (x_reactor_alive s) l (x_ports_locked s).

Definition set_ports_locked (b : bool) (s : Xhci W) : Xhci W :=
  mk_xhci (x_world s) (x_port_states s) (x_guard s) (x_cmd s) (x_states s) (x_messages s)
    (x_next_id s) (x_reactor_alive s) (x_enumerate s) b.

(** ** Lifting *)

Definition sys {A : Type} (e : errno) : xp A := throw (Sys e).

Definition lift_res {A : Type} (r : res errno A) : xp A :=
  match r with Ok a => mret a | Err e => sys e | Panic => panic end.

Definition lift_empty {A : Type} (r : res Empty_set A) : xp A :=
  match r with Ok a => mret a | Err e => match e with end | Panic => panic end.

Definition lift_opt {A : Type} (o : option A) (e : errno) : xp A :=
  match o with Some a => mret a | None => sys e end.

(** [port_states.get(&port).ok_or(e)?] and [get_mut]. *)
Definition get_port (e : errno) (port : Z) : xp PortSt := λ s,
  if decide (x_guard s = Some port) then (Err guard_reentry, s)
  else match x_port_states s !! port with
       | Some p => (Ok p, s)
       | None => (Err (Sys e), s)
       end.

(** A write through a guard of [port]. *)
Definition put_port (port : Z) (p : PortSt) : xp unit :=
  modify (λ s, set_port_states (<[port := p]> (x_port_states s)) s).

(** Runs [m] while a write guard of [port] is alive. *)
Definition holding {A : Type} (port : Z) (m : xp A) : xp A := λ s,
  let '(r, s') := m (set_guard (Some port) s) in (r, set_guard (x_guard s) s').

(** The ring of an endpoint, and a change of it. *)
Definition endp_ring (es : EndpointState) (stream_id : Z) : option Ring :=
  match es_transfer es with
  | RosRing r => Some r
  | RosStreams a => sca_rings a !! stream_id
  end.

Definition with_endp_ring (r : Ring) (stream_id : Z) (es : EndpointState) : EndpointState :=
  match es_transfer es with
  | RosRing _ => mk_es (RosRing r) (es_if_state es)
  | RosStreams a =>
      mk_es (RosStreams (mk_sca (sca_phys a) (sca_contexts a) (<[stream_id := r]> (sca_rings a))))
        (es_if_state es)
  end.

(** [Xhci::with_ring], called by the reactor's thread: it waits for a guard that
    another task owns. *)
Definition with_ring (id : RingId) : xp (option Ring) := λ s,
  if decide (x_guard s = Some (ri_port id)) then (Err Waits, s)
  else (Ok (p ← x_port_states s !! ri_port id;
            es ← po_endpoint_states p !! ri_endpoint_num id;
            endp_ring es (ri_stream_id id)), s).

Definition get_transfer_trb (paddr : Z) (id : RingId) : xp (option Trb) :=
  r ← with_ring id;
  match r with
  | Some ring => lift_empty (phys_addr_to_entry hc_ac64 paddr ring)
  | None => mret None
  end.

(** ** The reactor *)

(** [State::finish]. *)
Definition finish (st : State) (message : option NextEventTrb) : xp unit :=
  modify (λ s, set_messages (partial_alter (λ _, message) (st_id st) (x_messages s)) s).

Definition put_states (l : list State) : xp unit := modify (set_states l).

(** The command TRB of a completion event. *)
Definition take_command_trb (phys_ptr : Z) : xp (option Trb) := λ s,
  let '(r, ring) := acknowledge_command hc_ac64 phys_ptr (x_cmd s) in
  lift_empty r (set_cmd ring s).

(** [acknowledge_failed_transfer_trbs] from the state at [index = length acc]:
    indexing past the end panics. *)
Fixpoint fail_loop (trb : Trb) (acc rest : list State) : xp unit :=
  match rest with
  | [] => put_states (rev acc) ≫= λ _, panic
  | st :: rest' =>
      if negb (st_is_isoch_or_vf st) then
        match rest' with
        | [] => put_states (rev (st :: acc))
        | _ => fail_loop trb (st :: acc) rest'
        end
      else
        _ ← finish st (Some (mk_next trb None));
        fail_loop trb acc rest'
  end.

Definition acknowledge_failed_transfer_trbs (trb : Trb) (states : list State) : xp unit :=
  fail_loop trb [] states.

(** The event of a transfer lies between its first and its last TRB. *)
Definition transfer_matches (first_phys_ptr last_phys_ptr phys_ptr : Z) : bool :=
  if first_phys_ptr <=? last_phys_ptr then
    (first_phys_ptr <=? phys_ptr) && (phys_ptr <=? last_phys_ptr)
  else (first_phys_ptr <=? phys_ptr) || (phys_ptr <=? last_phys_ptr).

(** [acknowledge]: [acc] are the states before [index], in reverse. *)
Fixpoint ack_loop (trb : Trb) (acc rest : list State) : xp unit :=
  match rest with
  | [] => put_states (rev acc)
  | st :: rest' =>
      match st_kind st with
      | KCommandCompletion phys_ptr =>
          if trb_type trb =? trb_type_code TCommandCompletion then
            if decide (completion_trb_pointer trb = Some phys_ptr) then
              t ← take_command_trb phys_ptr;
              match t with
              | Some command_trb =>
                  _ ← put_states (rev acc ++ rest');
                  finish st (Some (mk_next trb (Some command_trb)))
              | None => ack_loop trb acc rest'
              end
            else ack_loop trb (st :: acc) rest'
          else ack_loop trb (st :: acc) rest'
      | KTransfer first_phys_ptr last_phys_ptr ring_id =>
          let dead_or_next :=
            r ← with_ring ring_id;
            match r with
            | None =>
                _ ← finish st (Some (mk_next trb None));
                ack_loop trb acc rest'
            | Some _ => ack_loop trb (st :: acc) rest'
            end in
          if trb_type trb =? trb_type_code TTransfer then
            match transfer_event_trb_pointer trb with
            | Some phys_ptr =>
                if transfer_matches first_phys_ptr last_phys_ptr phys_ptr then
                  src_trb ← get_transfer_trb phys_ptr ring_id;
                  _ ← put_states (rev acc ++ rest');
                  finish st (Some (mk_next trb src_trb))
                else dead_or_next
            | None => acknowledge_failed_transfer_trbs trb (rev acc ++ st :: rest')
            end
          else dead_or_next
      | KOther t =>
          if trb_type_code t =? trb_type trb then
            _ ← put_states (rev acc ++ rest');
            finish st None
          else ack_loop trb (st :: acc) rest'
      end
  end.

Definition acknowledge (trb : Trb) : xp unit := λ s, ack_loop trb [] (x_states s) s.

Definition PORT_CCS : Z := Z.shiftl 1 0.
Definition PORT_PED : Z := Z.shiftl 1 1.
Definition PORT_PR : Z := Z.shiftl 1 4.
Definition PORT_PP : Z := Z.shiftl 1 9.
Definition PORT_CSC : Z := Z.shiftl 1 17.
Definition PORT_PRC : Z := Z.shiftl 1 21.

(** Acknowledges the connect status change of [ports[port_num - 1]], waiting for
    the guard of [ports]. *)
Definition clear_csc (port_num : Z) : xp unit := λ s,
  let i := Z.to_nat (as_u8 (port_num - 1)) in
  if x_ports_locked s then (Err Waits, s)
  else match xhc_portsc (x_world s) !! i with
  | Some v => (Ok tt, set_world (xhc_portsc_write i (Z.lor v PORT_CSC) (x_world s)) s)
  | None => (Panic, s)
  end.

(** [handle_port_status_change]: the port number counts from one. *)
Definition handle_port_status_change (trb : Trb) : xp unit :=
  match port_status_change_port_id trb with
  | Some port_num =>
      _ ← modify (λ s, set_enumerate (x_enumerate s ++ [port_num]) s);
      clear_csc port_num
  | None => mret tt
  end.

Definition check_event_ring_full (trb : Trb) : bool :=
  (trb_type trb =? trb_type_code THostController)
  && (completion_code trb =? completion_code_value CEventRingFull).

(** The polling loop over the events that were posted.  An entry whose
    completion code is 0 is not yet there; after an event-ring-full event the
    loop retries the same entry for ever.  In both cases nothing further is
    taken. *)
Fixpoint reactor_run (events : list Trb) : xp unit :=
  match events with
  | [] => mret tt
  | trb :: events =>
      if completion_code trb =? completion_code_value CInvalid then mret tt
      else if check_event_ring_full trb then mret tt
      else
        _ ← (if trb_type trb =? trb_type_code TPortStatusChange
             then handle_port_status_change trb else acknowledge trb);
        reactor_run events
  end.

(** A panic in the reactor's thread, or a wait there for a guard that the waiting
    task owns, ends the reactor. *)
Definition reactor_thread (events : list Trb) : xp unit := λ s,
  if x_reactor_alive s then
    match reactor_run events s with
    | (Ok _, s') => (Ok tt, s')
    | (_, s') => (Ok tt, set_reactor false s')
    end
  else (Ok tt, s).

(** [EventTrbFuture], polled until it is ready: register, ring the doorbell,
    take the message. *)
Definition await_event (kind : StateKind) (is_isoch_or_vf : bool) (index data : Z)
    : xp NextEventTrb := λ s,
  let id := x_next_id s in
  let s1 := set_next_id (id + 1)
              (set_states (x_states s ++ [mk_state id kind is_isoch_or_vf]) s) in
  let '(events, w) := xhc_doorbell (x_cmd s1) (x_port_states s1) index data (x_world s1) in
  let s2 := (reactor_thread events (set_world w s1)).2 in
  match x_messages s2 !! id with
  | Some m => (Ok m, set_messages (delete id (x_messages s2)) s2)
  | None => (Err Waits, s2)
  end.

(** ** Commands *)

Definition cmd_enqueue (f : bool → trb_prog) : xp nat := λ s,
  match enqueue f (x_cmd s) with
  | Some (r, ring) => lift_empty r (set_cmd ring s)
  | None => (Err Waits, s)
  end.

(** The virtual address of entry [i]. *)
Definition trb_virt (ring : Ring) (i : nat) : Z := rg_virt ring + TRB_SIZE * Z.of_nat i.

Definition next_command_completion_event_trb (ring : Ring) (i : nat) (index data : Z)
    : xp NextEventTrb :=
  trb ← unwrap (rg_trbs ring !! i);
  if negb (is_command_trb trb) then panic
  else
    phys_ptr ← lift_empty (trb_phys_ptr hc_ac64 (trb_virt ring i) ring);
    await_event (KCommandCompletion phys_ptr) false index data.

Definition execute_command (f : bool → trb_prog) : xp (Trb * Trb) :=
  cmd_index ← cmd_enqueue f;
  command_ring ← gets x_cmd;
  trbs ← next_command_completion_event_trb command_ring cmd_index 0 0;
  command_trb ← unwrap (ne_src_trb trbs);
  if trb_type (ne_event_trb trbs) =? trb_type_code TCommandCompletion
  then mret (ne_event_trb trbs, command_trb)
  else panic.

Definition enable_port_slot (slot_ty : Z) : xp Z :=
  if negb (Z.land slot_ty 0x1F =? slot_ty) then panic
  else
    '(event_trb, _) ← execute_command (enable_slot slot_ty);
    _ ← lift_res (handle_event_trb event_trb);
    mret (event_slot event_trb).

Definition disable_port_slot (slot : Z) : xp unit :=
  '(event_trb, _) ← execute_command (disable_slot slot);
  lift_res (handle_event_trb event_trb).

(** [slot_state]: indexing the contexts. *)
Definition slot_state (slot : Z) : xp Z :=
  ctxs ← gets (λ s, xhc_contexts (x_world s));
  '(d, _) ← unwrap (ctxs !! Z.to_nat slot);
  mret (slot_ctx_state d).

(** ** Transfers *)

Definition next_transfer_event_trb (id : RingId) (ring : Ring) (first last : nat) (index data : Z)
    : xp NextEventTrb :=
  last_trb ← unwrap (rg_trbs ring !! last);
  if negb (is_transfer_trb last_trb) then panic
  else
    first_phys_ptr ← lift_empty (trb_phys_ptr hc_ac64 (trb_virt ring first) ring);
    last_phys_ptr ← lift_empty (trb_phys_ptr hc_ac64 (trb_virt ring last) ring);
    await_event (KTransfer first_phys_ptr last_phys_ptr id)
      (trb_type last_trb =? trb_type_code TIsoch) index data.

Inductive ControlFlow : Type := Continue | Break.

(** One TRB of an endpoint's ring. *)
Definition ring_put (f : bool → trb_prog) (r : Ring) : xp (nat * Ring) :=
  match enqueue f r with
  | Some (o, r') => i ← lift_empty o; mret (i, r')
  | None => throw Waits
  end.

(** The closure [d] of the source: from its captured state and the cycle bit,
    the TRB to build, the new state and whether it breaks.  The loop takes TRB
    after TRB until it breaks. *)
Fixpoint fill_loop {X : Type} (fuel : nat) (build : X → bool → trb_prog)
    (next : X → X * ControlFlow) (x : X) (r : Ring) : xp (nat * Ring) :=
  match fuel with
  | O => throw Waits
  | S fuel =>
      '(i, r) ← ring_put (build x) r;
      match next x with
      | (_, Break) => mret (i, r)
      | (x', Continue) => fill_loop fuel build next x' r
      end
  end.

(** [execute_control_transfer] with a data closure that builds one TRB and
    breaks, as all its callers pass. *)
Definition execute_control_transfer (port_num : Z) (stp : Setup) (tk : TransferKind)
    (d : bool → trb_prog) : xp Trb :=
  port ← get_port EBADF port_num;
  es ← lift_opt (po_endpoint_states port !! 0) EIO;
  ring ← (match es_transfer es with RosRing r => mret r | RosStreams _ => sys EIO end);
  '(first_index, ring) ← ring_put (setup stp tk) ring;
  '(_, ring) ← (match tk with
                | NoData => mret (first_index, ring)
                | _ => ring_put d ring
                end);
  '(last_index, ring) ←
    ring_put (status 0 (negb (bool_decide (transfer_kind_code tk = transfer_kind_code KIn)))
                true false false) ring;
  _ ← put_port port_num (with_endpoint 0 (with_endp_ring ring 0 es) port);
  trbs ← next_transfer_event_trb (default_control_pipe (as_u8 port_num)) ring first_index last_index
           (po_slot port) def_control_endp_doorbell;
  _ ← lift_opt (ne_src_trb trbs) EIO;
  _ ← lift_res (handle_transfer_event_trb (ne_event_trb trbs));
  mret (ne_event_trb trbs).

Definition device_req_no_data (port : Z) (req : Setup) : xp unit :=
  _ ← execute_control_transfer port req NoData (λ _, p_ret tt);
  mret tt.

Definition set_configuration_req (port config : Z) : xp unit :=
  device_req_no_data port (set_configuration config).

Definition set_interface_req (port interface_num alternate_setting : Z) : xp unit :=
  device_req_no_data port (set_interface interface_num alternate_setting).

End host.

(** ** Delivery of events *)

Section reactor.
Context {W : Type} `{Controller W}.
Implicit Types (s : Xhci W) (trb : Trb) (st : State).

(** Address [p] lies between the first and the last TRB of a transfer, which may
    wrap around the end of the ring. *)
Definition in_td (a b p : Z) : Prop := a <= p <= b ∨ b < a ∧ (a <= p ∨ p <= b).

Lemma transfer_matches_true a b p : in_td a b p → transfer_matches a b p = true.
Proof. unfold in_td, transfer_matches. intros Hp. destruct (Z.leb_spec a b); lia. Qed.

Lemma transfer_matches_false a b p : ¬ in_td a b p → transfer_matches a b p = false.
Proof. unfold in_td, transfer_matches. intros Hp. destruct (Z.leb_spec a b); lia. Qed.

(** The event is not meant for [st], and the ring of [st] still exists. *)
Definition bystander s trb st : Prop :=
  match st_kind st with
  | KCommandCompletion p =>
      trb_type trb = trb_type_code TCommandCompletion → completion_trb_pointer trb ≠ Some p
  | KTransfer a b id =>
      (trb_type trb = trb_type_code TTransfer →
         ∃ p, transfer_event_trb_pointer trb = Some p ∧ ¬ in_td a b p) ∧
      ∃ r, with_ring id s = (Ok (Some r), s)
  | KOther t => trb_type_code t ≠ trb_type trb
  end.

Lemma ack_loop_skip s trb pre acc rest :
  Forall (bystander s trb) pre →
  ack_loop trb acc (pre ++ rest) s = ack_loop trb (rev pre ++ acc) rest s.
Proof.
  intros Hpre. revert acc. induction Hpre as [|st pre Hst Hpre IH]; intros acc; [done|].
  simpl (rev _). rewrite <- app_assoc. simpl (_ ++ acc). rewrite <- IH. clear IH.
  cbn [app ack_loop].
  unfold bystander in Hst. destruct (st_kind st) as [p|a b id|t].
  - destruct (Z.eqb_spec (trb_type trb) (trb_type_code TCommandCompletion)) as [E|E]; [|done].
    rewrite decide_False by (by apply Hst). done.
  - destruct Hst as [Ht (r & Hr)].
    destruct (Z.eqb_spec (trb_type trb) (trb_type_code TTransfer)) as [E|E].
    + destruct (Ht E) as (p & Hp & Hm). rewrite Hp, transfer_matches_false by done. unfold mbind, prog_bind.
      rewrite (bind_Ok _ _ _ _ _ Hr). reflexivity.
    + unfold mbind, prog_bind. rewrite (bind_Ok _ _ _ _ _ Hr). reflexivity.
  - rewrite (proj2 (Z.eqb_neq _ _)) by done. done.
Qed.

(** What the waiting future of [st] is given for the event, and the command ring
    afterwards: the event must name an entry of the ring the state waits on. *)
Definition answered_by s trb st (src : Trb) (cmd' : Ring) : Prop :=
  match st_kind st with
  | KCommandCompletion p =>
      trb_type trb = trb_type_code TCommandCompletion ∧ completion_trb_pointer trb = Some p ∧
      ∃ j, p = phys_base hc_ac64 (x_cmd s) + TRB_SIZE * Z.of_nat j ∧
           rg_trbs (x_cmd s) !! j = Some src ∧
           cmd' = with_trbs (<[j := (reserved false zero_trb).2]> (rg_trbs (x_cmd s))) (x_cmd s)
  | KTransfer a b id =>
      trb_type trb = trb_type_code TTransfer ∧ cmd' = x_cmd s ∧
      ∃ p r j, transfer_event_trb_pointer trb = Some p ∧ in_td a b p ∧
           with_ring id s = (Ok (Some r), s) ∧
           p = phys_base hc_ac64 r + TRB_SIZE * Z.of_nat j ∧ rg_trbs r !! j = Some src
  | KOther _ => False
  end.

Lemma acknowledge_command_entry (ac64 : bool) (r : Ring) (j : nat) (t : Trb) :
  rg_trbs r !! j = Some t →
  acknowledge_command ac64 (phys_base ac64 r + TRB_SIZE * Z.of_nat j) r =
  (Ok (Some t), with_trbs (<[j := (reserved false zero_trb).2]> (rg_trbs r)) r).
Proof.
  intros Ht. pose proof (lookup_lt_Some _ _ _ Ht) as Hj.
  unfold acknowledge_command, update_entry. rewrite index_of_entry by done.
  unfold at_trb. by rewrite Nat2Z.id, Ht.
Qed.

(** The state after the message [m] was put into the cell of [st]. *)
Definition delivered (st : State) (m : NextEventTrb) (states : list State) (cmd' : Ring)
    (s : Xhci W) : Xhci W :=
  set_messages (<[st_id st := m]> (x_messages s)) (set_states states (set_cmd cmd' s)).

Lemma acknowledge_delivers_aux s trb pre st post (src : Trb) (cmd' : Ring) :
  x_states s = pre ++ st :: post → Forall (bystander s trb) pre → answered_by s trb st src cmd' →
  acknowledge trb s =
  (Ok tt, delivered st (mk_next trb (Some src)) (pre ++ post) cmd' s).
Proof.
  intros Hs Hpre Ha. unfold acknowledge. rewrite Hs, ack_loop_skip by done. rewrite app_nil_r.
  cbn [ack_loop]. unfold answered_by in Ha. destruct (st_kind st) as [p|a b id|t]; [| |done].
  - destruct Ha as (Hty & Hp & j & -> & Ht & ->). rewrite Hty, Z.eqb_refl, decide_True by done.
    unfold mbind, prog_bind.
    erewrite bind_Ok; [|unfold take_command_trb; erewrite acknowledge_command_entry by done; reflexivity].
    unfold p_bind, put_states, finish, modify, delivered.
    rewrite rev_involutive. reflexivity.
  - destruct Ha as (Hty & -> & p & r & j & Hp & Hm & Hr & -> & Ht).
    rewrite Hty, Z.eqb_refl, Hp, transfer_matches_true by done. unfold mbind, prog_bind.
    erewrite bind_Ok.
    2:{ unfold get_transfer_trb, mbind, prog_bind. erewrite bind_Ok by done.
        unfold phys_addr_to_entry. rewrite index_of_entry by (by eapply lookup_lt_Some).
        rewrite Nat2Z.id, Ht. reflexivity. }
    unfold p_bind, put_states, finish, modify, delivered.
    rewrite rev_involutive. destruct s; reflexivity.
Qed.

(** C13. An event reaches the future that waits for it.  Let the event name a TRB
    of the command ring, or one within the transfer of a live ring, and let no
    earlier pending state wait for the same TRB.  Then the reactor hands exactly
    that state's future the event together with the TRB it names, forgets the
    state, keeps every other pending state in its order and every other message
    as it was, and (for a command) clears the TRB in the ring. *)
Theorem event_reaches_future s trb pre st post (src : Trb) (cmd' : Ring) :
  x_states s = pre ++ st :: post → Forall (bystander s trb) pre → answered_by s trb st src cmd' →
  ∃ s', acknowledge trb s = (Ok tt, s') ∧ x_states s' = pre ++ post ∧
    x_messages s' !! st_id st = Some (mk_next trb (Some src)) ∧
    (∀ id, id ≠ st_id st → x_messages s' !! id = x_messages s !! id) ∧
    x_cmd s' = cmd' ∧ x_port_states s' = x_port_states s ∧ x_world s' = x_world s.
Proof.
  intros Hs Hpre Ha. eexists. split; [by eapply acknowledge_delivers_aux|]. simpl.
  split_and!; try done; [by rewrite lookup_insert_eq|]. intros id Hid. by rewrite lookup_insert_ne.
Qed.

(** ** Running commands *)

(** An event that is not an answer to a command: it is posted, is not the
    event-ring-full event, and is neither a command completion nor a port status
    change. *)
Definition unrelated trb : Prop :=
  completion_code trb ≠ completion_code_value CInvalid ∧ check_event_ring_full trb = false ∧
  trb_type trb ≠ trb_type_code TCommandCompletion ∧ trb_type trb ≠ trb_type_code TPortStatusChange.

Lemma reactor_run_unrelated s id p events rest :
  x_states s = [mk_state id (KCommandCompletion p) false] → Forall unrelated events →
  reactor_run (events ++ rest) s = reactor_run rest s.
Proof.
  intros Hs. induction 1 as [|e es (H1 & H2 & H3 & H4) _ IH]; [done|]. cbn [app reactor_run].
  rewrite (proj2 (Z.eqb_neq _ _) H1), H2, (proj2 (Z.eqb_neq _ _) H4).
  unfold mbind, prog_bind. erewrite bind_Ok; [exact IH|].
  unfold acknowledge. rewrite Hs. cbn [ack_loop st_kind]. rewrite (proj2 (Z.eqb_neq _ _) H3).
  unfold put_states, modify. cbn [rev app]. rewrite <- Hs. by destruct s.
Qed.

(** With nothing pending, no event changes a message. *)
Lemma reactor_run_idle s events :
  x_states s = [] → x_messages (reactor_run events s).2 = x_messages s.
Proof.
  revert s. induction events as [|e es IH]; intros s Hs; [done|]. cbn [reactor_run].
  destruct (completion_code e =? _); [done|]. destruct (check_event_ring_full e); [done|].
  unfold mbind, prog_bind, p_bind. destruct (trb_type e =? trb_type_code TPortStatusChange).
  - unfold handle_port_status_change. destruct (port_status_change_port_id e); [|by apply IH].
    unfold mbind, prog_bind, p_bind, modify, clear_csc. simpl.
    destruct (x_ports_locked s); [done|].
    destruct (xhc_portsc (x_world s) !! _); [|done]. by rewrite IH.
  - unfold acknowledge. rewrite Hs. cbn [ack_loop rev put_states modify]. by rewrite IH.
Qed.

(** Running a command: from an idle driver whose command ring has its normal
    shape, the command TRB is put into the ring and the doorbell 0 is rung; if
    the controller then posts, after any events unrelated to commands, a
    completion event that points at that TRB, the call returns that event and the
    TRB that was built. *)
Theorem execute_command_spec s (f : bool → trb_prog) (mk : bool → Trb) :
  ring_shape (x_cmd s) → x_states s = [] → x_reactor_alive s = true →
  builds f mk → (∀ c, is_command_trb (mk c) = true) →
  ∃ i ring, enqueue f (x_cmd s) = Some (Ok i, ring) ∧
    ∀ pre e post w,
      xhc_doorbell ring (x_port_states s) 0 0 (x_world s) = (pre ++ e :: post, w) →
      Forall unrelated pre →
      completion_code e ≠ completion_code_value CInvalid →
      trb_type e = trb_type_code TCommandCompletion →
      completion_trb_pointer e = Some (phys_base hc_ac64 ring + TRB_SIZE * Z.of_nat i) →
      (execute_command f s).1 = Ok (e, mk (rg_cycle ring)).
Proof.
  intros Hshape Hst Halive Hf Hcmd.
  destruct (enqueue_shape f mk (x_cmd s) Hf Hshape) as (i & ring & He & Hsh & Hpl & Hi).
  exists i, ring. split; [done|]. intros pre e post w Hdb Hpre Hcc Hty Hptr.
  assert (cmd_enqueue f s = (Ok i, set_cmd ring s)) as Henq by (unfold cmd_enqueue; by rewrite He).
  unfold execute_command, mbind, prog_bind. rewrite (bind_Ok _ _ _ _ _ Henq).
  erewrite bind_Ok by reflexivity. cbn [x_cmd set_cmd].
  assert (∃ s', next_command_completion_event_trb ring i 0 0 (set_cmd ring s)
                = (Ok (mk_next e (Some (mk (rg_cycle ring)))), s')) as [s' Hn].
  { unfold next_command_completion_event_trb, mbind, prog_bind.
    erewrite bind_Ok by (by rewrite Hi). rewrite Hcmd. cbn [negb].
    assert (i < length (rg_trbs ring))%nat by (by eapply lookup_lt_Some).
    unfold trb_virt. rewrite trb_ptr_of_entry by done. erewrite bind_Ok by reflexivity.
    unfold await_event. cbn [x_next_id x_cmd x_port_states x_world x_states set_cmd set_next_id set_states].
    rewrite Hdb. unfold reactor_thread. cbn [x_reactor_alive x_states set_world set_next_id set_states set_cmd].
    rewrite Halive, Hst. cbn [app].
    rewrite (reactor_run_unrelated _ (x_next_id s)
      (phys_base hc_ac64 ring + TRB_SIZE * Z.of_nat i)) by done.
    cbn [reactor_run]. rewrite (proj2 (Z.eqb_neq _ _) Hcc).
    assert (check_event_ring_full e = false) as ->
      by (unfold check_event_ring_full; by rewrite Hty).
    rewrite Hty, (proj2 (Z.eqb_neq _ _)) by done.
    unfold mbind, prog_bind. erewrite bind_Ok.
    2:{ eapply (acknowledge_delivers_aux _ e []); [done|constructor|].
        split_and!; [exact Hty|exact Hptr|]. eauto. }
    match goal with |- context [reactor_run post ?q] => set (s2 := q) end.
    pose proof (reactor_run_idle s2 post eq_refl) as Hidle.
    assert (x_messages s2 !! x_next_id s = Some (mk_next e (Some (mk (rg_cycle ring))))) as Hm
      by (simpl; by rewrite lookup_insert_eq).
    destruct (reactor_run post s2) as [[[]|err|] s3]; cbn [snd] in *;
      cbn [x_messages set_reactor]; rewrite Hidle, Hm; eauto. }
  rewrite (bind_Ok _ _ _ _ _ Hn). erewrite bind_Ok by reflexivity.
  cbn [ne_event_trb]. rewrite Hty, Z.eqb_refl. done.
Qed.
End reactor.

(** ** A concrete controller

    Answers the doorbells with prepared event lists, hands out consecutive pages
    of memory, and keeps the bytes that were written. *)

Record TestW := mk_test {
  tw_events : list (list Trb);
  tw_mem : gmap Z Z;
  tw_next : Z;
  tw_portsc : list Z;
  tw_contexts : list (Z * list Z);
}.

Fixpoint mem_put (a : Z) (bs : list Z) (m : gmap Z Z) : gmap Z Z :=
  match bs with [] => m | b :: bs => <[a := b]> (mem_put (a + 1) bs m) end.

Definition mem_get (m : gmap Z Z) (a : Z) (n : nat) : list Z :=
  (λ k, default 0 (m !! (a + Z.of_nat k))) <$> seq 0 n.

#[export] Instance test_controller : Controller TestW := {
  hc_ac64 := true;
  hc_lec := false;
  hc_cie := false;
  hc_max_psa_size := 0;
  hc_mmio := two_caps;
  hc_ext_caps := [(0x500, 2); (0x520, 2)];
  xhc_doorbell := λ _ _ _ _ w,
    match tw_events w with
    | [] => ([], w)
    | es :: rest => (es, mk_test rest (tw_mem w) (tw_next w) (tw_portsc w) (tw_contexts w))
    end;
  xhc_portsc := tw_portsc;
  xhc_portsc_write := λ i v w,
    mk_test (tw_events w) (tw_mem w) (tw_next w) (<[i := v]> (tw_portsc w)) (tw_contexts w);
  xhc_ehb := λ _, false;
  xhc_clear_ehb := λ w, w;
  xhc_contexts := tw_contexts;
  dma_zeroed := λ n w,
    (inr (tw_next w, tw_next w),
     mk_test (tw_events w) (tw_mem w) (tw_next w + 4096 * (n / 4096 + 1)) (tw_portsc w)
       (tw_contexts w));
  dma_get := λ w a n, mem_get (tw_mem w) a n;
  dma_set := λ a bs w,
    mk_test (tw_events w) (mem_put a bs (tw_mem w)) (tw_next w) (tw_portsc w) (tw_contexts w);
  guard_reentry := Waits;
}.

(** An event TRB: its type, completion code, residue and the TRB it points at. *)
Definition event_trb_of (t : TrbType) (c : TrbCompletionCode) (residue ptr : Z) : Trb :=
  mk_trb (as_u32 ptr) (Z.shiftr ptr 32) (Z.lor (Z.shiftl (completion_code_value c) 24) residue)
    (Z.shiftl (trb_type_code t) 10).

Definition test_hci (events : list (list Trb)) (ports : gmap Z PortSt) : Xhci TestW :=
  mk_xhci (mk_test events ∅ 0x100000 [] []) ports None
    (mk_ring true (replicate 256 zero_trb) 0x10000 0x7000 0 true) [] ∅ 0 true [] false.

Lemma event_reaches_future_witness :
  let e := event_trb_of TCommandCompletion CSuccess 0 0x10020 in
  let st := mk_state 5 (KCommandCompletion 0x10020) false in
  let other := mk_state 4 (KCommandCompletion 0x10010) false in
  ∃ s', acknowledge e (set_states [other; st] (test_hci [] ∅)) = (Ok tt, s') ∧
    x_states s' = [other] ∧ x_messages s' !! 5 = Some (mk_next e (Some zero_trb)).
Proof.
  intros e st other.
  destruct (event_reaches_future (set_states [other; st] (test_hci [] ∅)) e [other] st [] zero_trb
    (with_trbs (<[2%nat := (reserved false zero_trb).2]> (replicate 256 zero_trb))
       (x_cmd (test_hci [] ∅)))) as (s' & Ha & Hs & Hm & _).
  - reflexivity.
  - constructor; [|constructor]. intros _. discriminate.
  - split; [reflexivity|]. split; [reflexivity|]. exists 2%nat. split_and!; reflexivity.
  - exists s'. split_and!; [exact Ha|exact Hs|exact Hm].
Defined.

Lemma builds_no_op : builds no_op_cmd (λ c, (no_op_cmd c zero_trb).2).
Proof. apply (builds_op OpNoOpCmd (λ c, ltac:(destruct c; done))). Qed.

Lemma execute_command_spec_witness :
  let e := event_trb_of TCommandCompletion CSuccess 0 0x10000 in
  let x := event_trb_of TTransfer CSuccess 0 0x20000 in
  (execute_command no_op_cmd (test_hci [[x; e]] ∅)).1 = Ok (e, (no_op_cmd true zero_trb).2).
Proof.
  intros e x.
  destruct (execute_command_spec (test_hci [[x; e]] ∅) no_op_cmd (λ c, (no_op_cmd c zero_trb).2))
    as (i & ring & He & Hall).
  - split; [reflexivity|]. simpl. lia.
  - reflexivity.
  - reflexivity.
  - exact builds_no_op.
  - intros []; reflexivity.
  - vm_compute in He. injection He as <- <-.
    apply (Hall [x] e [] (mk_test [] ∅ 0x100000 [] [])); try reflexivity.
    + constructor; [|constructor]. split_and!; try reflexivity; discriminate.
    + discriminate.
Defined.

(** ** What the reactor leaves alone *)

Section frame.
Context {W : Type} `{Controller W}.

(** The ports and the guard the task owns. *)
Definition port_view (s : Xhci W) : gmap Z PortSt * option Z := (x_port_states s, x_guard s).

Definition frames {A : Type} (m : prog (Xhci W) fault A) : Prop :=
  ∀ v, keeps (λ s, port_view s = v) m.

Lemma frames_modify (f : Xhci W → Xhci W) :
  (∀ s, port_view (f s) = port_view s) → frames (modify (E := fault) f).
Proof. intros Hf v. apply keeps_modify. intros s <-. by apply Hf. Qed.

Lemma frames_finish st m : frames (finish (W := W) st m).
Proof. by apply frames_modify. Qed.

Lemma frames_put_states l : frames (put_states (W := W) l).
Proof. by apply frames_modify. Qed.

Lemma frames_lift_empty {A : Type} (r : res Empty_set A) : frames (lift_empty (W := W) r).
Proof. intros v s Hs. by destruct r as [a|[]|]. Qed.

Lemma frames_lift_res {A : Type} (r : res errno A) : frames (lift_res (W := W) r).
Proof. intros v s Hs. by destruct r. Qed.

Lemma frames_lift_opt {A : Type} (o : option A) e : frames (lift_opt (W := W) o e).
Proof. intros v s Hs. by destruct o. Qed.

Lemma frames_with_ring id : frames (with_ring (W := W) id).
Proof. intros v s Hs. unfold with_ring. by destruct (decide _). Qed.

Lemma frames_get_transfer_trb p id : frames (get_transfer_trb (W := W) p id).
Proof.
  intros v. unfold get_transfer_trb. apply keeps_bind; [apply frames_with_ring|].
  intros [r|]; [apply frames_lift_empty|apply keeps_ret].
Qed.

Lemma frames_take_command p : frames (take_command_trb (W := W) p).
Proof.
  intros v s Hs. unfold take_command_trb.
  destruct (acknowledge_command hc_ac64 p (x_cmd s)) as [r ring]. by apply frames_lift_empty.
Qed.

Lemma frames_fail_loop trb acc rest : frames (fail_loop (W := W) trb acc rest).
Proof.
  intros v. revert acc. induction rest as [|st rest IH]; intros acc; cbn [fail_loop].
  - apply keeps_bind; [apply frames_put_states|]. intros _. apply keeps_panic.
  - destruct (negb (st_is_isoch_or_vf st)).
    + destruct rest; [apply frames_put_states|apply IH].
    + apply keeps_bind; [apply frames_finish|]. intros _. apply IH.
Qed.

Lemma frames_ack_loop trb acc rest : frames (ack_loop (W := W) trb acc rest).
Proof.
  intros v. revert acc. induction rest as [|st rest IH]; intros acc; cbn [ack_loop];
    [apply frames_put_states|].
  destruct (st_kind st) as [p|a b id|t].
  - apply keeps_if; [|apply IH]. destruct (decide _); [|apply IH].
    apply keeps_bind; [apply frames_take_command|]. intros [t|]; [|apply IH].
    apply keeps_bind; [apply frames_put_states|]. intros _. apply frames_finish.
  - assert (keeps (λ s, port_view s = v)
      (r ← with_ring id;
       match r with
       | None => _ ← finish st (Some (mk_next trb None)); ack_loop trb acc rest
       | Some _ => ack_loop trb (st :: acc) rest
       end)) as Hd.
    { apply keeps_bind; [apply frames_with_ring|]. intros [r|]; [apply IH|].
      apply keeps_bind; [apply frames_finish|]. intros _. apply IH. }
    apply keeps_if; [|exact Hd]. destruct (transfer_event_trb_pointer trb);
      [|apply frames_fail_loop].
    apply keeps_if; [|exact Hd]. apply keeps_bind; [apply frames_get_transfer_trb|]. intros src.
    apply keeps_bind; [apply frames_put_states|]. intros _. apply frames_finish.
  - apply keeps_if; [|apply IH].
    apply keeps_bind; [apply frames_put_states|]. intros _. apply frames_finish.
Qed.

Lemma frames_reactor_run events : frames (reactor_run (W := W) events).
Proof.
  intros v. induction events as [|e es IH]; cbn [reactor_run]; [apply keeps_ret|].
  apply keeps_if; [apply keeps_ret|]. apply keeps_if; [apply keeps_ret|].
  apply keeps_bind; [|by intros _]. apply keeps_if.
  - unfold handle_port_status_change. destruct (port_status_change_port_id e); [|apply keeps_ret].
    apply keeps_bind; [by apply frames_modify|]. intros _ s Hs. unfold clear_csc.
    destruct (x_ports_locked s); [done|]. by destruct (xhc_portsc (x_world s) !! _).
  - intros s Hs. unfold acknowledge. by apply frames_ack_loop.
Qed.

Lemma frames_await kind b i d : frames (await_event (W := W) kind b i d).
Proof.
  intros v s Hs. unfold await_event.
  destruct (xhc_doorbell _ _ _ _ _) as [events w]. unfold reactor_thread.
  match goal with |- context [reactor_run events ?q] => set (s2 := q) end.
  assert (port_view s2 = v) as H2 by done.
  assert (port_view (reactor_run events s2).2 = v) as H3 by (by apply frames_reactor_run).
  destruct (x_reactor_alive s2).
  - destruct (reactor_run events s2) as [[u|e|] s3]; cbn [snd] in *;
      match goal with |- context [x_messages ?q !! ?i] => by destruct (x_messages q !! i) end.
  - cbn [snd]. by destruct (x_messages s2 !! _).
Qed.

Lemma frames_next_transfer id r i j x d :
  frames (next_transfer_event_trb (W := W) id r i j x d).
Proof.
  intros v. unfold next_transfer_event_trb. apply keeps_bind; [apply keeps_unwrap|]. intros t.
  apply keeps_if; [apply keeps_panic|].
  apply keeps_bind; [apply frames_lift_empty|]. intros p.
  apply keeps_bind; [apply frames_lift_empty|]. intros q. apply frames_await.
Qed.

(** The ring operations do not touch the driver's state. *)
Lemma ring_put_state f r (s : Xhci W) : (ring_put f r s).2 = s.
Proof.
  unfold ring_put. destruct (enqueue f r) as [[[i|[]|] r']|]; done.
Qed.

Lemma fill_loop_state {X : Type} fuel build next (x : X) r (s : Xhci W) :
  (fill_loop fuel build next x r s).2 = s.
Proof.
  revert x r. induction fuel as [|fuel IH]; intros x r; cbn [fill_loop]; [done|].
  unfold mbind, prog_bind, p_bind. pose proof (ring_put_state (build x) r s) as Hp.
  destruct (ring_put (build x) r s) as [[[i r']|e|] s']; cbn [snd] in Hp; subst s'; [|done|done].
  destruct (next x) as [x' []]; [apply IH|done].
Qed.
End frame.
