(* ===== verification/XhciEndp.v ===== *)
(** The endpoint files of xhcid (xhcid/src/xhci/scheme.rs: [execute_transfer],
    [transfer] and the [on_*_endp_*] handlers) and the handle that the class
    drivers use on them (xhcid/src/driver_interface.rs: [XhciEndpHandle]).

    A transfer is announced on the "ctl" file, moved through the "data" file and
    its result collected from "ctl"; [EndpIfState] is the state machine between
    the two.  The JSON encoding of the requests is a parameter. *)

From S2P Require Import Prelude UsbSetup XhciTrb XhciRing XhciIface XhciHost.

(** [serde_json], as the interface uses it: encoders, partial decoders, and the
    law that a request and a response survive the round trip. *)
Class EndpJson := {
  json_of_req : XhciEndpCtlReq → list Z;
  req_of_json : list Z → option XhciEndpCtlReq;
  json_of_res : XhciEndpCtlRes → list Z;
  res_of_json : list Z → option XhciEndpCtlRes;
}.

Class EndpJsonLaws `{EndpJson} := {
  req_roundtrip : ∀ r,
    match r with CrTransfer _ n => u_range 32 n | _ => True end →
    req_of_json (json_of_req r) = Some r;
  res_roundtrip : ∀ r, res_of_json (json_of_res r) = Some r;
  (** [count] is a [u32]: other numbers are decoding errors. *)
  req_typed : ∀ buf d n, req_of_json buf = Some (CrTransfer d n) → u_range 32 n;
  (** "a response must never exceed 256 bytes" (driver_interface.rs). *)
  res_short : ∀ r, (length (json_of_res r) <= 256)%nat;
}.

Section endp.
Context {W : Type} `{Controller W} `{EndpJson}.

Abbreviation xp := (prog (Xhci W) fault).

(** ** Transfers *)

Definition MAX_TRANSFER_SIZE : Z := 65536.

(** [execute_transfer] on the ring of the endpoint (stream 1 of a stream array),
    with the closure given by [build] and [next]. *)
Definition execute_transfer {X : Type} (fuel : nat) (port_num endp_num stream_id : Z)
    (build : X → bool → trb_prog) (next : X → X * ControlFlow) (x : X) : xp Trb :=
  if endp_num =? 0 then sys EIO
  else
    let endp_idx := endp_num - 1 in
    port ← get_port EBADF port_num;
    endp_desc ← lift_opt (get_endp_desc (po_cfg_idx port) (po_dev_desc port) endp_idx) EBADFD;
    doorbell_data_stream ← lift_res (endp_doorbell endp_num endp_desc stream_id);
    doorbell_data_no_stream ← lift_res (endp_doorbell endp_num endp_desc 0);
    es ← lift_opt (po_endpoint_states port !! endp_num) EBADF;
    '(has_streams, ring) ←
      (match es_transfer es with
       | RosRing r => mret (false, r)
       | RosStreams a => r ← lift_opt (sca_rings a !! 1) EBADF; mret (true, r)
       end);
    '(last_index, ring) ← fill_loop fuel build next x ring;
    _ ← put_port port_num (with_endpoint endp_num (with_endp_ring ring 1 es) port);
    trbs ← next_transfer_event_trb (mk_ring_id (as_u8 port_num) endp_num stream_id) ring
             last_index last_index (po_slot port)
             (if (has_streams : bool) then doorbell_data_stream else doorbell_data_no_stream);
    let event_trb := ne_event_trb trbs in
    _ ← lift_opt (ne_src_trb trbs) EIO;
    _ ← lift_res (handle_transfer_event_trb event_trb);
    if negb (completion_code event_trb =? completion_code_value CShortPacket)
       && negb (transfer_length event_trb =? 0)
    then sys EIO
    else mret event_trb.

(** A [Dma<[u8]>]: physical address and length. *)
Record Dma := mk_dma { dm_phys : Z; dm_len : nat }.

Definition alloc_dma_zeroed_unsized (count : nat) : xp Dma := λ s,
  match dma_zeroed (Z.of_nat count) (x_world s) with
  | (inr (phys, _), w) =>
      (Ok (mk_dma phys count), set_world (dma_set phys (replicate count 0) w) s)
  | (inl e, w) => (Err (Sys e), set_world w s)
  end.

Definition dma_bytes (d : Dma) : xp (list Z) :=
  gets (λ s, dma_get (x_world s) (dm_phys d) (dm_len d)).

Definition dma_copy_in (d : Dma) (bs : list Z) : xp unit :=
  modify (λ s, set_world (dma_set (dm_phys d) bs (x_world s)) s).

(** The closure's captured variable is [bytes_left]. *)
Definition transfer_trb (buffer estimated_td_size : Z) (idt : bool) (bytes_left : Z) (cyc : bool)
    : trb_prog :=
  let len := Z.min bytes_left MAX_TRANSFER_SIZE in
  let ioc := bytes_left <=? MAX_TRANSFER_SIZE in
  normal buffer len cyc estimated_td_size 0 false true (negb ioc) ioc idt false.

Definition transfer_next (bytes_left : Z) : Z * ControlFlow :=
  let len := Z.min bytes_left MAX_TRANSFER_SIZE in
  let bytes_left := bytes_left - len in
  (bytes_left, if negb (bytes_left =? 0) then Continue else Break).

Definition dma_len (d : option Dma) : Z :=
  match d with Some d => Z.of_nat (dm_len d) | None => 0 end.

(** [u8::try_from(..).ok().unwrap_or(0x1F)], then the minimum with 0x1F. *)
Definition estimated_td_size (len : Z) : Z :=
  let v := div_round_up len MAX_TRANSFER_SIZE * TRB_SIZE in
  Z.min (if v <=? 255 then v else 0x1F) 0x1F.

(** The buffer pointer (or the immediate data) of the TRBs. *)
Definition transfer_buffer (d : option Dma) (max_packet_size : Z) (direction : EndpDirection)
    : xp (Z * bool) :=
  if (dma_len d <=? 8) && (8 <=? max_packet_size) && negb (bool_decide (direction = EdIn)) then
    match d with
    | Some d =>
        sbuf ← dma_bytes d;
        mret (le_val (sbuf ++ replicate (8 - length sbuf) 0), true)
    | None => mret (0, false)
    end
  else mret (match d with Some d => dm_phys d | None => 0 end, false).

(** The requested direction is shadowed by that of the descriptor, so the check
    that follows compares the descriptor with itself. *)
Definition transfer (port_num endp_idx : Z) (dma_buf : option Dma) (dir : PortReqDirection)
    : xp (Z * Z * option Dma) :=
  let endp_num := as_u8 (endp_idx + 1) in
  port ← get_port EBADFD port_num;
  d ← lift_opt (get_endp_desc (po_cfg_idx port) (po_dev_desc port) endp_idx) EBADFD;
  let direction := endp_direction d in
  if is_isoch d then sys ENOSYS
  else if negb (bool_decide (direction = endp_direction d)) then sys EBADF
  else
    '(buffer, idt) ← transfer_buffer dma_buf (ed_max_packet_size d) direction;
    let len := dma_len dma_buf in
    event ← execute_transfer (S (Z.to_nat (len / MAX_TRANSFER_SIZE))) port_num endp_num 1
              (transfer_trb buffer (estimated_td_size len) idt) transfer_next len;
    let bytes_transferred :=
      match dma_buf with
      | Some b => as_u32 (as_u32 (Z.of_nat (dm_len b)) - transfer_length event)
      | None => 0
      end in
    mret (completion_code event, bytes_transferred, dma_buf).

(** [buf] is filled in place; its new contents are part of the result. *)
Definition transfer_read (port_num endp_idx : Z) (buf_len : nat) : xp (Z * Z * list Z) :=
  if Nat.eqb buf_len 0 then sys EINVAL
  else
    dma_buffer ← alloc_dma_zeroed_unsized buf_len;
    '(code, bytes_transferred, dma) ←
      transfer port_num endp_idx (Some dma_buffer) PrDeviceToHost;
    dma ← unwrap dma;
    bytes ← dma_bytes dma;
    mret (code, bytes_transferred, bytes).

Definition transfer_write (port_num endp_idx : Z) (sbuf : list Z) : xp (Z * Z) :=
  if Nat.eqb (length sbuf) 0 then sys EINVAL
  else
    dma_buffer ← alloc_dma_zeroed_unsized (length sbuf);
    _ ← dma_copy_in dma_buffer sbuf;
    '(code, bytes_transferred, _) ←
      transfer port_num endp_idx (Some dma_buffer) PrHostToDevice;
    mret (code, bytes_transferred).

(** ** Endpoint status and reset *)

Definition first_endpoints (port : PortSt) : xp (list EndpDesc) :=
  dev_desc ← unwrap (po_dev_desc port);
  conf ← lift_opt (dd_config_descs dev_desc !! 0%nat) EIO;
  ifd ← lift_opt (cd_interface_descs conf !! 0%nat) EIO;
  mret (id_endpoints ifd).

(** [endp_num as usize - 1] wraps for 0 and then finds nothing. *)
Definition endp_at (eps : list EndpDesc) (endp_num : Z) : option EndpDesc :=
  if endp_num =? 0 then None else eps !! Z.to_nat (endp_num - 1).

Definition get_endp_status (port_num endp_num : Z) : xp EndpointStatus :=
  port ← get_port EBADFD port_num;
  eps ← first_endpoints port;
  endp_desc ← lift_opt (endp_at eps endp_num) EBADFD;
  endp_num_xhc ← (if negb (endp_num =? 0) then lift_res (endp_num_to_dci endp_num endp_desc)
                  else mret 1);
  ctxs ← gets (λ s, xhc_contexts (x_world s));
  '(_, endps) ← lift_opt (ctxs !! Z.to_nat (po_slot port)) EBADFD;
  a ← lift_opt (endps !! Z.to_nat (endp_num_xhc - 1)) EBADFD;
  match Z.land a ENDPOINT_CONTEXT_STATUS_MASK with
  | 0 => mret EsDisabled
  | 1 => mret EsEnabled
  | 2 => mret EsHalted
  | 3 => mret EsStopped
  | 4 => mret EsError
  | _ => sys EIO
  end.

(** The method of the same name; the builder is [XhciTrb.reset_endpoint]. *)
Definition reset_endpoint_cmd (port_num endp_num : Z) (tsp : bool) : xp unit :=
  if endp_num =? 0 then sys EIO
  else
    port ← get_port EBADFD port_num;
    endp_desc ←
      lift_opt (get_endp_desc (po_cfg_idx port) (po_dev_desc port) (endp_num - 1)) EBADFD;
    endp_num_xhc ← lift_res (endp_num_to_dci endp_num endp_desc);
    port' ← get_port EBADF port_num;
    '(event_trb, _) ← execute_command (reset_endpoint (po_slot port') endp_num_xhc tsp);
    lift_res (handle_event_trb event_trb).

Definition set_tr_deque_ptr_cmd (port_num endp_num deque_ptr_and_cycle : Z) : xp unit :=
  if endp_num =? 0 then sys EIO
  else
    port ← get_port EBADFD port_num;
    endp_desc ←
      lift_opt (get_endp_desc (po_cfg_idx port) (po_dev_desc port) (endp_num - 1)) EBADFD;
    endp_num_xhc ← lift_res (endp_num_to_dci endp_num endp_desc);
    '(event_trb, _) ← execute_command
       (λ cyc, set_tr_deque_ptr deque_ptr_and_cycle cyc PrimaryRing 1 endp_num_xhc (po_slot port));
    lift_res (handle_event_trb event_trb).

(** The write guard of the port is alive until the end of the function. *)
Definition restart_endpoint (port_num endp_num : Z) : xp unit :=
  port ← get_port EBADFD port_num;
  es ← lift_opt (po_endpoint_states port !! endp_num) EBADFD;
  '(has_streams, ring) ←
    (match es_transfer es with
     | RosRing r => mret (false, r)
     | RosStreams a => r ← lift_opt (sca_rings a !! 1) EBADFD; mret (true, r)
     end);
  '(_, ring) ← ring_put (transfer_no_op 0 false false false) ring;
  _ ← put_port port_num (with_endpoint endp_num (with_endp_ring ring 1 es) port);
  eps ← first_endpoints port;
  endp_desc ← lift_opt (endp_at eps endp_num) EBADFD;
  doorbell ← (if negb (endp_num =? 0) then
                lift_res (endp_doorbell endp_num endp_desc
                            (if (has_streams : bool) then 1 else 0))
              else mret def_control_endp_doorbell);
  _ ← modify (λ s, set_world
         (xhc_doorbell (x_cmd s) (x_port_states s) (po_slot port) doorbell (x_world s)).2 s);
  holding port_num (set_tr_deque_ptr_cmd port_num endp_num (register ring)).

Definition on_req_reset_device (port_num endp_num : Z) (clear_feature : bool) : xp unit :=
  st ← get_endp_status port_num endp_num;
  if negb (bool_decide (st = EsHalted)) then sys EPROTO
  else
    _ ← reset_endpoint_cmd port_num endp_num false;
    _ ← restart_endpoint port_num endp_num;
    if clear_feature then device_req_no_data port_num (mk_setup 0x02 0x01 0x00 0 0)
    else mret tt.

(** ** The endpoint files *)

Definition set_if_state (port_num endp_num : Z) (st : EndpIfState) (port : PortSt)
    (es : EndpointState) : xp unit :=
  put_port port_num (with_endpoint endp_num (mk_es (es_transfer es) st) port).

(** The fresh lookup after an [await]. *)
Definition store_if_state (e : errno) (port_num endp_num : Z) (st : EndpIfState) : xp unit :=
  port ← get_port e port_num;
  es ← lift_opt (po_endpoint_states port !! endp_num) e;
  set_if_state port_num endp_num st port es.

(** The write guard of the port is alive in every branch. *)
Definition on_write_endp_ctl (port_num endp_num : Z) (buf : list Z) : xp nat :=
  port ← get_port EBADF port_num;
  es ← lift_opt (po_endpoint_states port !! endp_num) EBADF;
  req ← lift_opt (req_of_json buf) EBADMSG;
  _ ← (match req with
       | CrStatus =>
           match es_if_state es with
           | IfInit => set_if_state port_num endp_num IfWaitingForStatus port es
           | _ => sys EBADF
           end
       | CrReset no_clear_feature =>
           match es_if_state es with
           | IfInit =>
               holding port_num (on_req_reset_device port_num endp_num (negb no_clear_feature))
           | _ => sys EBADF
           end
       | CrTransfer direction count =>
           match es_if_state es with
           | IfInit =>
               if bool_decide (direction = CdNoData) then
                 holding port_num
                   ('(code, bytes_transferred, _) ←
                      transfer port_num (as_u8 (endp_num - 1)) None PrDeviceToHost;
                    if 0 <? bytes_transferred then sys EIO
                    else store_if_state EBADF port_num endp_num
                           (IfWaitingForTransferResult (transfer_result code 0)))
               else set_if_state port_num endp_num (IfWaitingForDataPipe direction 0 count) port es
           | _ => sys EBADF
           end
       end);
  mret (length buf).

(** The bookkeeping after a data transfer; the state is looked up again and must
    still wait for data in this direction. *)
Definition after_data (e : errno) (dir : XhciEndpCtlDirection) (port_num endp_num code n : Z)
    : xp unit :=
  let result := transfer_result code n in
  port ← get_port e port_num;
  es ← lift_opt (po_endpoint_states port !! endp_num) e;
  match es_if_state es with
  | IfWaitingForDataPipe dir' bytes_transferred bytes_to_transfer =>
      if bool_decide (dir' = dir) then
        if (as_u32 (bytes_transferred + n) =? bytes_to_transfer)
           || negb (code =? completion_code_value CSuccess)
        then set_if_state port_num endp_num (IfWaitingForTransferResult result) port es
        else set_if_state port_num endp_num
               (IfWaitingForDataPipe dir' (as_u32 (bytes_transferred + n)) bytes_to_transfer) port es
      else panic
  | _ => panic
  end.

Definition on_write_endp_data (port_num endp_num : Z) (buf : list Z) : xp Z :=
  port ← get_port EBADFD port_num;
  es ← lift_opt (po_endpoint_states port !! endp_num) EBADFD;
  match es_if_state es with
  | IfWaitingForDataPipe CdOut bytes_transferred total =>
      if as_usize (total - bytes_transferred) <? Z.of_nat (length buf) then sys EINVAL
      else
        '(code, n) ← transfer_write port_num (as_u8 (endp_num - 1)) buf;
        _ ← after_data EBADFD CdOut port_num endp_num code n;
        mret n
  | _ => sys EBADF
  end.

(** The bytes written to [buf] are part of the result. *)
Definition on_read_endp_data (port_num endp_num : Z) (buf_len : nat) : xp (Z * list Z) :=
  port ← get_port EBADF port_num;
  es ← lift_opt (po_endpoint_states port !! endp_num) EBADF;
  match es_if_state es with
  | IfWaitingForDataPipe CdIn bytes_transferred total =>
      if as_usize (total - bytes_transferred) <? Z.of_nat buf_len then sys EINVAL
      else
        '(code, n, bytes) ← transfer_read port_num (as_u8 (endp_num - 1)) buf_len;
        _ ← after_data EBADF CdIn port_num endp_num code n;
        mret (n, bytes)
  | _ => sys EBADF
  end.

(** The response is written at the start of [buf]; a buffer that is too small is
    a write error.  The guard is alive while the status is read. *)
Definition on_read_endp_ctl (port_num endp_num : Z) (buf_len : nat) : xp (list Z) :=
  port ← get_port EBADF port_num;
  es ← lift_opt (po_endpoint_states port !! endp_num) EBADF;
  res ← (match es_if_state es with
         | IfInit => mret RsIdle
         | IfWaitingForStatus =>
             _ ← set_if_state port_num endp_num IfInit port es;
             st ← holding port_num (get_endp_status port_num endp_num);
             mret (RsStatus st)
         | IfWaitingForDataPipe _ _ _ => mret RsPending
         | IfWaitingForTransferResult status =>
             _ ← set_if_state port_num endp_num IfInit port es;
             mret (RsTransferResult status)
         end);
  let out := json_of_res res in
  if decide (length out <= buf_len)%nat then mret out else sys EIO.

(** ** The client handle

    [XhciEndpHandle]: the "ctl" and "data" files of one endpoint; a file
    operation is the scheme call it turns into. *)

Inductive ClientError : Type :=
| CeIo (f : fault)
| CeSerialization
| CeInvalid (msg : string)
| CeTransferBufTooLarge (n : nat).

Abbreviation cp := (prog (Xhci W) ClientError).

Definition as_client {A : Type} (m : xp A) : cp A := λ s,
  match m s with
  | (Ok a, s') => (Ok a, s')
  | (Err e, s') => (Err (CeIo e), s')
  | (Panic, s') => (Panic, s')
  end.

Definition ctl_req (port endp : Z) (r : XhciEndpCtlReq) : cp unit :=
  let ctl_buffer := json_of_req r in
  n ← as_client (on_write_endp_ctl port endp ctl_buffer);
  if negb (Nat.eqb n (length ctl_buffer))
  then throw (CeInvalid "xhcid didn't process all of the ctl bytes")
  else mret tt.

Definition ctl_res (port endp : Z) : cp XhciEndpCtlRes :=
  bytes ← as_client (on_read_endp_ctl port endp 256);
  match res_of_json bytes with Some r => mret r | None => throw CeSerialization end.

Definition endp_reset (port endp : Z) (no_clear_feature : bool) : cp unit :=
  ctl_req port endp (CrReset no_clear_feature).

Definition endp_status (port endp : Z) : cp EndpointStatus :=
  _ ← ctl_req port endp CrStatus;
  r ← ctl_res port endp;
  match r with
  | RsStatus s => mret s
  | _ => throw (CeInvalid "expected status response")
  end.

(** [f] is the access to the data file: the number of bytes it moved, and what
    it read. *)
Definition generic_transfer {A : Type} (port endp : Z) (direction : XhciEndpCtlDirection)
    (f : xp (Z * A)) (expected_len : Z) : cp (PortTransferStatus * A) :=
  _ ← ctl_req port endp (CrTransfer direction expected_len);
  '(bytes_read, a) ← as_client f;
  r ← ctl_res port endp;
  match r with
  | RsTransferResult st =>
      if bool_decide (pts_kind st = TkSuccess) && negb (bytes_read =? expected_len)
      then throw (CeInvalid "no short packet, but fewer bytes were read/written")
      else mret (st, a)
  | _ => throw (CeInvalid "expected transfer result")
  end.

Definition endp_transfer_write (port endp : Z) (buf : list Z) : cp PortTransferStatus :=
  '(st, _) ← generic_transfer port endp CdOut
    (n ← on_write_endp_data port endp buf; mret (n, tt)) (as_u32 (Z.of_nat (length buf)));
  mret st.

Definition endp_transfer_read (port endp : Z) (buf_len : nat) : cp (PortTransferStatus * list Z) :=
  generic_transfer port endp CdIn (on_read_endp_data port endp buf_len)
    (as_u32 (Z.of_nat buf_len)).

Definition endp_transfer_nodata (port endp : Z) : cp PortTransferStatus :=
  '(st, _) ← generic_transfer port endp CdNoData (mret (0, tt)) 0;
  mret st.

End endp.

(** ** The interface state across a transfer *)

Section if_state.
Context {W : Type} `{Controller W} `{EndpJson}.
Implicit Types (s : Xhci W).

Definition if_state (port endp : Z) s : option EndpIfState :=
  p ← x_port_states s !! port;
  es ← po_endpoint_states p !! endp;
  Some (es_if_state es).

(** The states agree on every interface state and on the guard. *)
Definition same_if s s' : Prop :=
  x_guard s' = x_guard s ∧ ∀ port endp, if_state port endp s' = if_state port endp s.

#[local] Instance same_if_preorder : PreOrder same_if.
Proof.
  split; [done|]. intros s1 s2 s3 [H1 H2] [H3 H4]. split; [congruence|].
  intros port endp. by rewrite H4, H2.
Qed.

Definition keeps_if {A : Type} s (m : prog (Xhci W) fault A) : Prop := same_if s (m s).2.

Lemma keeps_if_bind {A B : Type} s (m : prog (Xhci W) fault A) (f : A → prog (Xhci W) fault B) :
  keeps_if s m → (∀ a s1, m s = (Ok a, s1) → keeps_if s1 (f a)) → keeps_if s (p_bind f m).
Proof.
  unfold keeps_if. intros Hm Hf. unfold p_bind.
  destruct (m s) as [[a|e|] s1]; cbn [snd] in *; [|done|done].
  etrans; [exact Hm|]. by apply Hf.
Qed.

Lemma keeps_if_frames {A : Type} (m : prog (Xhci W) fault A) s : frames m → keeps_if s m.
Proof.
  intros Hm. specialize (Hm (port_view s) s eq_refl). injection Hm as Hp Hg.
  split; [done|]. intros port endp. unfold if_state. by rewrite Hp.
Qed.

Lemma keeps_if_id {A : Type} (m : prog (Xhci W) fault A) s : (m s).2 = s → keeps_if s m.
Proof. unfold keeps_if. by intros ->. Qed.

Lemma get_port_inv e port s p s1 :
  get_port e port s = (Ok p, s1) →
  s1 = s ∧ x_port_states s !! port = Some p ∧ x_guard s ≠ Some port.
Proof.
  unfold get_port. destruct (decide (x_guard s = Some port)); [done|].
  destruct (x_port_states s !! port); [|done]. by intros [= -> ->].
Qed.

Lemma get_port_state e port s : (get_port e port s).2 = s.
Proof.
  unfold get_port. destruct (decide _); [done|]. by destruct (x_port_states s !! port).
Qed.

Lemma lift_opt_inv {A : Type} (o : option A) e s a s1 :
  lift_opt (W := W) o e s = (Ok a, s1) → o = Some a ∧ s1 = s.
Proof. destruct o; [|done]. by intros [= -> ->]. Qed.

Lemma lift_opt_state {A : Type} (o : option A) e s : (lift_opt (W := W) o e s).2 = s.
Proof. by destruct o. Qed.

Lemma lift_res_state {A : Type} (r : res errno A) s : (lift_res (W := W) r s).2 = s.
Proof. by destruct r. Qed.

(** A change of an endpoint's ring leaves its interface state. *)
Lemma put_ring_if port endp p es r sid s :
  x_port_states s !! port = Some p → po_endpoint_states p !! endp = Some es →
  keeps_if s (put_port port (with_endpoint endp (with_endp_ring r sid es) p)).
Proof.
  intros Hp He. split; [done|]. intros q e. unfold if_state, put_port, modify.
  cbn [snd x_port_states set_port_states].
  destruct (decide (q = port)) as [->|Hq]; [|by rewrite lookup_insert_ne].
  rewrite lookup_insert_eq, Hp. cbn.
  destruct (decide (e = endp)) as [->|He']; [|by rewrite lookup_insert_ne].
  rewrite lookup_insert_eq, He. cbn. unfold with_endp_ring. by destruct (es_transfer es).
Qed.

(** Steps through a program whose head does not touch the state. *)
Ltac pure_bind :=
  apply keeps_if_bind;
  [ apply keeps_if_id;
    first [apply get_port_state | apply lift_opt_state | apply lift_res_state | reflexivity]
  | ].

Lemma execute_transfer_keeps {X : Type} fuel port endp sid build next (x : X) s :
  keeps_if s (execute_transfer fuel port endp sid build next x).
Proof.
  unfold execute_transfer. destruct (endp =? 0); [by apply keeps_if_id|].
  pure_bind. intros p s1 (-> & Hp & _)%get_port_inv.
  pure_bind. intros d s1 (_ & ->)%lift_opt_inv.
  pure_bind. intros db1 s1 Hdb1.
  assert (s1 = s) as -> by (pose proof (lift_res_state (endp_doorbell endp d sid) s) as E; rewrite Hdb1 in E; done).
  pure_bind. intros db2 s1 Hdb2.
  assert (s1 = s) as -> by (pose proof (lift_res_state (endp_doorbell endp d 0) s) as E; rewrite Hdb2 in E; done).
  pure_bind. intros es s1 (He & ->)%lift_opt_inv.
  assert (∀ r, (match es_transfer es with
    | RosRing r => mret (false, r)
    | RosStreams a => r ← lift_opt (sca_rings a !! 1) EBADF; mret (true, r)
    end) s = r → r.2 = s) as Hst.
  { intros r <-. destruct (es_transfer es) as [r|a]; [done|].
    cbn. unfold p_bind. by destruct (sca_rings a !! 1). }
  apply keeps_if_bind; [by eapply keeps_if_id, Hst|]. intros [b ring] s1 Hr.
  apply Hst in Hr. cbn in Hr. subst s1.
  apply keeps_if_bind; [apply keeps_if_id, fill_loop_state|]. intros [i r] s1 Hf.
  pose proof (fill_loop_state fuel build next x ring s) as Es. rewrite Hf in Es. cbn in Es. subst s1.
  apply keeps_if_bind; [by apply put_ring_if|]. intros _ s1 _.
  apply keeps_if_bind; [apply keeps_if_frames, frames_next_transfer|]. intros m s2 _.
  pure_bind. intros t s3 _. pure_bind. intros [] s4 _.
  destruct (_ && _); by apply keeps_if_id.
Qed.

Lemma transfer_buffer_state d mps dir s : (transfer_buffer d mps dir s).2 = s.
Proof. unfold transfer_buffer. destruct (_ && _); [|done]. by destruct d. Qed.

Lemma transfer_keeps port idx dma dir s : keeps_if s (transfer port idx dma dir).
Proof.
  unfold transfer. pure_bind. intros p s1 _. pure_bind. intros d s2 _.
  destruct (is_isoch d); [by apply keeps_if_id|].
  destruct (negb _); [by apply keeps_if_id|].
  apply keeps_if_bind; [apply keeps_if_id, transfer_buffer_state|]. intros [buf idt] s3 _.
  apply keeps_if_bind; [apply execute_transfer_keeps|]. intros e s4 _. by apply keeps_if_id.
Qed.

Lemma alloc_keeps n s : keeps_if s (alloc_dma_zeroed_unsized n).
Proof.
  unfold keeps_if, alloc_dma_zeroed_unsized.
  destruct (dma_zeroed (Z.of_nat n) (x_world s)) as [[e|[p v]] w]; done.
Qed.

Lemma transfer_write_keeps port idx buf s : keeps_if s (transfer_write port idx buf).
Proof.
  unfold transfer_write. destruct (Nat.eqb _ 0); [by apply keeps_if_id|].
  apply keeps_if_bind; [apply alloc_keeps|]. intros d s1 _.
  apply keeps_if_bind; [done|]. intros [] s2 _.
  apply keeps_if_bind; [apply transfer_keeps|]. intros [[c n] o] s3 _. by apply keeps_if_id.
Qed.

Lemma transfer_read_keeps port idx n s : keeps_if s (transfer_read port idx n).
Proof.
  unfold transfer_read. destruct (Nat.eqb _ 0); [by apply keeps_if_id|].
  apply keeps_if_bind; [apply alloc_keeps|]. intros d s1 _.
  apply keeps_if_bind; [apply transfer_keeps|]. intros [[c k] [o|]] s3 _.
  - by apply keeps_if_id.
  - by apply keeps_if_id.
Qed.
End if_state.

(** ** The state machine of an endpoint *)

Section machine.
Context {W : Type} `{Controller W} `{EndpJson}.
Implicit Types (s : Xhci W).

Lemma if_state_inv port endp s st :
  if_state port endp s = Some st →
  ∃ p es, x_port_states s !! port = Some p ∧ po_endpoint_states p !! endp = Some es ∧
          es_if_state es = st.
Proof.
  unfold if_state. destruct (x_port_states s !! port) as [p|] eqn:Hp; [|done]. cbn.
  destruct (po_endpoint_states p !! endp) as [es|] eqn:He; [|done]. cbn. intros [= <-]. eauto.
Qed.

Lemma get_port_ok e port s p :
  x_guard s ≠ Some port → x_port_states s !! port = Some p → get_port e port s = (Ok p, s).
Proof. intros Hg Hp. unfold get_port. by rewrite decide_False, Hp. Qed.

(** Runs the two lookups every handler starts with. *)
Lemma lookup_endpoint {A : Type} e e' port endp s p es
    (k : PortSt → EndpointState → prog (Xhci W) fault A) :
  x_guard s ≠ Some port → x_port_states s !! port = Some p →
  po_endpoint_states p !! endp = Some es →
  (p ← get_port e port; es ← lift_opt (po_endpoint_states p !! endp) e'; k p es) s = k p es s.
Proof.
  intros Hg Hp He. unfold mbind, prog_bind. erewrite bind_Ok by (by apply get_port_ok).
  rewrite He. reflexivity.
Qed.

Lemma if_state_put port endp st p es s :
  x_port_states s !! port = Some p → po_endpoint_states p !! endp = Some es →
  ∃ s', set_if_state port endp st p es s = (Ok tt, s') ∧ x_guard s' = x_guard s ∧
    if_state port endp s' = Some st ∧
    (∀ q e, (q, e) ≠ (port, endp) → if_state q e s' = if_state q e s).
Proof.
  intros Hp He. eexists. split; [reflexivity|]. split; [done|].
  unfold if_state. cbn [x_port_states set_port_states]. split.
  - rewrite lookup_insert_eq. cbn. by rewrite lookup_insert_eq.
  - intros q e Hne. destruct (decide (q = port)) as [->|Hq]; [|by rewrite lookup_insert_ne].
    rewrite lookup_insert_eq, Hp. cbn. rewrite lookup_insert_ne; [done|]. congruence.
Qed.

(** After the transfer the handler finds its endpoint as it left it. *)
Lemma after_data_spec e dir port endp code n s a b :
  x_guard s ≠ Some port → if_state port endp s = Some (IfWaitingForDataPipe dir a b) →
  ∃ s', after_data e dir port endp code n s = (Ok tt, s') ∧ x_guard s' = x_guard s ∧
    if_state port endp s' = Some
      (if (as_u32 (a + n) =? b) || negb (code =? completion_code_value CSuccess)
       then IfWaitingForTransferResult (transfer_result code n)
       else IfWaitingForDataPipe dir (as_u32 (a + n)) b) ∧
    (∀ q x, (q, x) ≠ (port, endp) → if_state q x s' = if_state q x s).
Proof.
  intros Hg (p & es & Hp & He & Hst)%if_state_inv. unfold after_data.
  rewrite (lookup_endpoint _ _ _ _ _ p es) by done. rewrite Hst.
  rewrite bool_decide_true by done. destruct (_ || _); by apply if_state_put.
Qed.

Lemma write_data_error port endp buf s e s' dir a b :
  x_guard s ≠ Some port → if_state port endp s = Some (IfWaitingForDataPipe dir a b) →
  on_write_endp_data port endp buf s = (Err e, s') →
  x_guard s' = x_guard s ∧ if_state port endp s' = Some (IfWaitingForDataPipe dir a b).
Proof.
  intros Hg Hi. pose proof (if_state_inv _ _ _ _ Hi) as (p & es & Hp & He & Hst).
  unfold on_write_endp_data. rewrite (lookup_endpoint _ _ _ _ _ p es) by done. rewrite Hst.
  destruct dir; [|intros [= <- <-]; done..].
  destruct (_ <? _); [intros [= <- <-]; done|].
  pose proof (transfer_write_keeps port (as_u8 (endp - 1)) buf s) as [Kg Ki].
  unfold mbind, prog_bind, p_bind at 1.
  destruct (transfer_write port (as_u8 (endp - 1)) buf s) as [[[c n]|e1|] s1]; cbn [snd] in *.
  - destruct (after_data_spec EBADFD CdOut port endp c n s1 a b) as (s2 & Ha & _);
      [congruence|by rewrite Ki|].
    rewrite (bind_Ok _ _ _ _ _ Ha). done.
  - intros [= <- <-]. by rewrite Kg, Ki.
  - done.
Qed.

Lemma read_data_error port endp n s e s' dir a b :
  x_guard s ≠ Some port → if_state port endp s = Some (IfWaitingForDataPipe dir a b) →
  on_read_endp_data port endp n s = (Err e, s') →
  x_guard s' = x_guard s ∧ if_state port endp s' = Some (IfWaitingForDataPipe dir a b).
Proof.
  intros Hg Hi. pose proof (if_state_inv _ _ _ _ Hi) as (p & es & Hp & He & Hst).
  unfold on_read_endp_data. rewrite (lookup_endpoint _ _ _ _ _ p es) by done. rewrite Hst.
  destruct dir; [intros [= <- <-]; done| |intros [= <- <-]; done].
  destruct (_ <? _); [intros [= <- <-]; done|].
  pose proof (transfer_read_keeps port (as_u8 (endp - 1)) n s) as [Kg Ki].
  unfold mbind, prog_bind, p_bind at 1.
  destruct (transfer_read port (as_u8 (endp - 1)) n s) as [[[[c k] bs]|e1|] s1]; cbn [snd] in *.
  - destruct (after_data_spec EBADF CdIn port endp c k s1 a b) as (s2 & Ha & _);
      [congruence|by rewrite Ki|].
    rewrite (bind_Ok _ _ _ _ _ Ha). done.
  - intros [= <- <-]. by rewrite Kg, Ki.
  - done.
Qed.

(** A failed data transfer leaves the endpoint waiting for data: whatever
    error the read or the write of the data file returns (a stall among them,
    which arrives as EIO), the interface state is the one it was, and from then
    on every request on the control file, resets and status queries included, is
    refused with EBADF, so that a client has no way to recover the endpoint. *)
Theorem failed_transfer_wedges port endp s s' e dir a b :
  x_guard s = None → if_state port endp s = Some (IfWaitingForDataPipe dir a b) →
  ((∃ buf, on_write_endp_data port endp buf s = (Err e, s')) ∨
   (∃ n, on_read_endp_data port endp n s = (Err e, s'))) →
  if_state port endp s' = Some (IfWaitingForDataPipe dir a b) ∧
  ∀ buf r, req_of_json buf = Some r → (on_write_endp_ctl port endp buf s').1 = Err (Sys EBADF).
Proof.
  intros Hg Hi Herr.
  assert (x_guard s' = None ∧ if_state port endp s' = Some (IfWaitingForDataPipe dir a b))
    as [Hg' Hi'].
  { rewrite <- Hg. destruct Herr as [[buf Hw]|[n Hr]].
    - eapply write_data_error; [by rewrite Hg|exact Hi|exact Hw].
    - eapply read_data_error; [by rewrite Hg|exact Hi|exact Hr]. }
  split; [done|]. intros buf r Hr.
  apply if_state_inv in Hi' as (p & es & Hp & He & Hst).
  unfold on_write_endp_ctl. rewrite (lookup_endpoint _ _ _ _ _ p es) by (done || by rewrite Hg').
  rewrite Hr, Hst. by destruct r.
Qed.

(** ** Requests that look the port up again under their own guard *)

Lemma get_port_reentry {A : Type} e port s (f : PortSt → prog (Xhci W) fault A) :
  x_guard s = Some port → (p ← get_port e port; f p) s = (Err guard_reentry, s).
Proof.
  intros Hg. unfold mbind, prog_bind, p_bind, get_port. by rewrite decide_True.
Qed.

Lemma holding_err {A : Type} port s (m : prog (Xhci W) fault A) e :
  (∀ s, x_guard s = Some port → m s = (Err e, s)) → holding port m s = (Err e, s).
Proof. intros Hm. unfold holding. rewrite Hm by done. by destruct s. Qed.

Lemma status_reentry port endp s :
  x_guard s = Some port → get_endp_status port endp s = (Err guard_reentry, s).
Proof. apply get_port_reentry. Qed.

Lemma reset_reentry port endp b s :
  x_guard s = Some port → on_req_reset_device port endp b s = (Err guard_reentry, s).
Proof.
  intros Hg. unfold on_req_reset_device, mbind, prog_bind.
  by rewrite (bind_Err _ _ _ _ _ (status_reentry port endp s Hg)).
Qed.

Lemma transfer_reentry {A : Type} port idx d dir s (f : Z * Z * option Dma → prog (Xhci W) fault A) :
  x_guard s = Some port → p_bind f (transfer port idx d dir) s = (Err guard_reentry, s).
Proof. intros Hg. apply bind_Err. unfold transfer. by apply get_port_reentry. Qed.

Context `{!EndpJsonLaws}.

(** A request on the control file of an idle endpoint. *)
Lemma ctl_write_idle port endp s p es :
  x_guard s ≠ Some port → x_port_states s !! port = Some p →
  po_endpoint_states p !! endp = Some es → es_if_state es = IfInit →
  ∀ r, match r with CrTransfer _ n => u_range 32 n | _ => True end →
  on_write_endp_ctl port endp (json_of_req r) s =
    (_ ← match r with
       | CrStatus => set_if_state port endp IfWaitingForStatus p es
       | CrReset c => holding port (on_req_reset_device port endp (negb c))
       | CrTransfer d n =>
           if bool_decide (d = CdNoData) then
             holding port
               ('(code, bytes_transferred, _) ← transfer port (as_u8 (endp - 1)) None PrDeviceToHost;
                if 0 <? bytes_transferred then sys EIO
                else store_if_state EBADF port endp
                       (IfWaitingForTransferResult (transfer_result code 0)))
           else set_if_state port endp (IfWaitingForDataPipe d 0 n) p es
       end; mret (length (json_of_req r))) s.
Proof.
  intros Hg Hp He Hst r Hr. unfold on_write_endp_ctl.
  rewrite (lookup_endpoint _ _ _ _ _ p es) by done. rewrite req_roundtrip, Hst by done.
  by destruct r.
Qed.

(** Three requests of the client handle cannot be answered: on an idle
    endpoint the status query, the reset and the transfer without data all look
    the port up in [port_states] again while the handler still owns its write
    guard; the call ends with what the map does then, before anything is sent to
    the controller. *)
Theorem ctl_requests_reenter port endp s p es b :
  x_guard s = None → x_port_states s !! port = Some p →
  po_endpoint_states p !! endp = Some es → es_if_state es = IfInit →
  (endp_status port endp s).1 = Err (CeIo guard_reentry) ∧
  (endp_reset port endp b s) = (Err (CeIo guard_reentry), s) ∧
  (endp_transfer_nodata port endp s) = (Err (CeIo guard_reentry), s).
Proof.
  intros Hg Hp He Hst. assert (x_guard s ≠ Some port) as Hg' by (by rewrite Hg).
  pose proof (ctl_write_idle port endp s p es Hg' Hp He Hst) as Hw.
  split_and!.
  - destruct (if_state_put port endp IfWaitingForStatus p es s Hp He) as (s1 & Hs1 & Hgs & Hi & _).
    assert (ctl_req port endp CrStatus s = (Ok tt, s1)) as Hreq.
    { unfold ctl_req, mbind, prog_bind.
      erewrite bind_Ok; [|unfold as_client; rewrite Hw by done; unfold mbind, prog_bind;
        rewrite (bind_Ok _ _ _ _ _ Hs1); reflexivity].
      by rewrite Nat.eqb_refl. }
    unfold endp_status, mbind, prog_bind. rewrite (bind_Ok _ _ _ _ _ Hreq).
    apply if_state_inv in Hi as (p1 & es1 & Hp1 & He1 & Hst1).
    assert (∃ s2, ctl_res port endp s1 = (Err (CeIo guard_reentry), s2)) as [s2 Hres].
    { unfold ctl_res, mbind, prog_bind.
      assert (∃ s2, on_read_endp_ctl port endp 256 s1 = (Err guard_reentry, s2)) as [s2 Hs2].
      { unfold on_read_endp_ctl.
        rewrite (lookup_endpoint _ _ _ _ _ p1 es1) by (done || by rewrite Hgs). rewrite Hst1.
        unfold mbind, prog_bind at 1 2. eexists. erewrite bind_Err; [reflexivity|].
        erewrite bind_Ok by reflexivity. erewrite bind_Err; [reflexivity|].
        apply holding_err. intros ? ?. by apply status_reentry. }
      exists s2. erewrite bind_Err; [reflexivity|]. unfold as_client. by rewrite Hs2. }
    rewrite (bind_Err _ _ _ _ _ Hres). done.
  - unfold endp_reset, ctl_req, mbind, prog_bind. erewrite bind_Err; [reflexivity|].
    unfold as_client. rewrite Hw by done. unfold mbind, prog_bind.
    erewrite bind_Err; [reflexivity|]. apply holding_err. intros ? ?. by apply reset_reentry.
  - unfold endp_transfer_nodata, generic_transfer, ctl_req, mbind, prog_bind.
    erewrite bind_Err; [reflexivity|]. erewrite bind_Err; [reflexivity|].
    erewrite bind_Err; [reflexivity|]. unfold as_client. rewrite Hw by done. rewrite bool_decide_true by done.
    unfold mbind, prog_bind. erewrite bind_Err; [reflexivity|].
    apply holding_err. intros ? ?. by apply transfer_reentry.
Qed.
End machine.

(** ** Invariant *)

Section invariant.
Context {W : Type} `{Controller W} `{EndpJson} `{!EndpJsonLaws}.
Implicit Types (s : Xhci W).

Definition pipe_state_ok (st : option EndpIfState) : Prop :=
  match st with
  | Some (IfWaitingForDataPipe _ done total) => 0 <= done <= total ∧ total < 2 ^ 32
  | _ => True
  end.

Definition pipe_ok s : Prop :=
  x_guard s = None ∧ ∀ port endp, pipe_state_ok (if_state port endp s).

Lemma pipe_ok_same s s' : same_if s s' → pipe_ok s → pipe_ok s'.
Proof. intros [Hg Hi] [Hn Hok]. split; [congruence|]. intros port endp. rewrite Hi. apply Hok. Qed.

Lemma pipe_ok_update s s' port endp :
  x_guard s' = x_guard s → pipe_state_ok (if_state port endp s') →
  (∀ q e, (q, e) ≠ (port, endp) → if_state q e s' = if_state q e s) → pipe_ok s → pipe_ok s'.
Proof.
  intros Hg Hnew Hother [Hn Hok]. split; [congruence|]. intros q e.
  destruct (decide ((q, e) = (port, endp))) as [[= -> ->]|Hne]; [done|]. rewrite Hother by done.
  apply Hok.
Qed.

(** A transfer that is reported as a success moved the whole buffer. *)
Lemma execute_transfer_ok {X : Type} fuel port endp sid build next (x : X) s e s' :
  execute_transfer fuel port endp sid build next x s = (Ok e, s') →
  (completion_code e = completion_code_value CSuccess ∧ transfer_length e = 0) ∨
  completion_code e = completion_code_value CShortPacket.
Proof.
  unfold execute_transfer. destruct (endp =? 0); [done|]. unfold mbind, prog_bind.
  repeat match goal with
  | |- p_bind _ _ _ = _ → _ => intros (?a & ?t & ?Hm & Hk)%bind_inv_Ok; revert Hk
  | |- context [match ?a with (_, _) => _ end] => is_var a; destruct a
  end.
  match goal with
  | Hh : lift_res (handle_transfer_event_trb (ne_event_trb ?m)) _ = _ |- _ =>
      unfold handle_transfer_event_trb in Hh; revert Hh; generalize (ne_event_trb m); intros ev
  end.
  destruct (Z.eqb_spec (completion_code ev) (completion_code_value CSuccess)) as [Hs|Hs].
  - intros _. rewrite Hs. cbn. destruct (Z.eqb_spec (transfer_length ev) 0); [|done].
    intros [= <- <-]. by left.
  - destruct (Z.eqb_spec (completion_code ev) (completion_code_value CShortPacket)) as [Hsp|];
      [|done].
    intros _ [= <- <-]. by right.
Qed.

Lemma transfer_ok port idx d dir s c n o s' :
  transfer port idx (Some d) dir s = (Ok (c, n, o), s') →
  o = Some d ∧ (c = completion_code_value CSuccess → n = as_u32 (Z.of_nat (dm_len d))).
Proof.
  unfold transfer, mbind, prog_bind. intros (p & s1 & _ & Hk)%bind_inv_Ok.
  apply bind_inv_Ok in Hk as (ed & s2 & _ & Hk). destruct (is_isoch ed); [done|].
  destruct (negb _); [done|]. apply bind_inv_Ok in Hk as ([buf idt] & s3 & _ & Hk).
  apply bind_inv_Ok in Hk as (e & s4 & He & Hk). injection Hk as <- <- <- <-. split; [done|].
  intros Hc. apply execute_transfer_ok in He as [[_ Hl]|He]; [|rewrite Hc in He; done].
  rewrite Hl, Z.sub_0_r. unfold as_u32, as_u. apply Z.mod_mod. done.
Qed.

Lemma transfer_write_ok port idx buf s c n s' :
  transfer_write port idx buf s = (Ok (c, n), s') →
  c = completion_code_value CSuccess → n = as_u32 (Z.of_nat (length buf)).
Proof.
  unfold transfer_write. destruct (Nat.eqb _ 0); [done|]. unfold mbind, prog_bind.
  intros (d & s1 & Hd & Hk)%bind_inv_Ok. apply bind_inv_Ok in Hk as ([] & s2 & _ & Hk).
  apply bind_inv_Ok in Hk as ([[c1 n1] o] & s3 & Ht & Hk). injection Hk as <- <- <-. intros Hc.
  apply transfer_ok in Ht as [_ Hn]. rewrite Hn by done.
  unfold alloc_dma_zeroed_unsized in Hd.
  destruct (dma_zeroed _ _) as [[e|[ph v]] w]; [done|]. by injection Hd as <- _.
Qed.

Lemma transfer_read_ok port idx k s c n bs s' :
  transfer_read port idx k s = (Ok (c, n, bs), s') →
  c = completion_code_value CSuccess → n = as_u32 (Z.of_nat k).
Proof.
  unfold transfer_read. destruct (Nat.eqb _ 0); [done|]. unfold mbind, prog_bind.
  intros (d & s1 & Hd & Hk)%bind_inv_Ok.
  apply bind_inv_Ok in Hk as ([[c1 n1] o] & s3 & Ht & Hk).
  apply bind_inv_Ok in Hk as (d' & s4 & Ho & Hk). apply bind_inv_Ok in Hk as (bs' & s5 & _ & Hk).
  injection Hk as <- <- <- <-. intros Hc. apply transfer_ok in Ht as [_ Hn]. rewrite Hn by done.
  unfold alloc_dma_zeroed_unsized in Hd.
  destruct (dma_zeroed _ _) as [[e|[ph v]] w]; [done|]. by injection Hd as <- _.
Qed.

(** The state after a data access that moved [n] of at most [b - a] bytes. *)
Lemma after_data_ok e dir port endp code n len s s' a b :
  x_guard s = None → if_state port endp s = Some (IfWaitingForDataPipe dir a b) →
  0 <= a <= b → b < 2 ^ 32 → 0 <= len <= b - a →
  (code = completion_code_value CSuccess → n = as_u32 len) →
  (∀ q x, (q, x) ≠ (port, endp) → pipe_state_ok (if_state q x s)) →
  after_data e dir port endp code n s = (Ok tt, s') → pipe_ok s'.
Proof.
  intros Hg Hi Hab Hb Hlen Hn Hok Ha.
  destruct (after_data_spec e dir port endp code n s a b) as (s1 & Ha' & Hg1 & Hi1 & Ho);
    [by rewrite Hg|done|]. rewrite Ha in Ha'. injection Ha' as <-.
  split; [congruence|]. intros q x.
  destruct (decide ((q, x) = (port, endp))) as [[= -> ->]|Hne]; [|rewrite Ho by done; by apply Hok].
  rewrite Hi1. destruct (Z.eqb_spec code (completion_code_value CSuccess)) as [Hc|Hc];
    [|by destruct (_ =? b)].
  rewrite (Hn Hc). unfold as_u32. rewrite (as_u_id 32 len) by (unfold u_range; lia).
  rewrite as_u_id by (unfold u_range; lia). destruct (Z.eqb_spec (a + len) b); cbn; [done|]. lia.
Qed.

(** The check of the handlers is the comparison it looks like. *)
Lemma room_check a b len :
  0 <= a <= b → b < 2 ^ 32 → (as_usize (b - a) <? len) = false → len <= b - a.
Proof.
  intros Hab Hb. unfold as_usize. rewrite as_u_id by (unfold u_range; lia). intros Hl%Z.ltb_ge. lia.
Qed.

Lemma write_data_pipe_ok port endp buf s :
  pipe_ok s → pipe_ok (on_write_endp_data port endp buf s).2.
Proof.
  intros Hok. pose proof Hok as [Hg Hpipe]. unfold on_write_endp_data, mbind, prog_bind.
  destruct (x_port_states s !! port) as [p|] eqn:Hp.
  2:{ erewrite bind_Err; [done|]. unfold get_port. by rewrite Hg, Hp. }
  rewrite (bind_Ok _ _ _ _ _ (get_port_ok EBADFD port s p ltac:(by rewrite Hg) Hp)).
  destruct (po_endpoint_states p !! endp) as [es|] eqn:He; [|done].
  unfold lift_opt. erewrite bind_Ok by reflexivity.
  destruct (es_if_state es) as [|dir a b| |] eqn:Hst; try done. destruct dir; try done.
  assert (if_state port endp s = Some (IfWaitingForDataPipe CdOut a b)) as Hi
    by (unfold if_state; rewrite Hp; cbn; rewrite He; cbn; by rewrite Hst).
  pose proof (Hpipe port endp) as Hst1. rewrite Hi in Hst1. destruct Hst1 as [Hab Hb].
  destruct (_ <? _) eqn:Hroom; [done|]. apply room_check in Hroom; [|done|done].
  pose proof (transfer_write_keeps port (as_u8 (endp - 1)) buf s) as Hkeep.
  unfold keeps_if in Hkeep.
  destruct (transfer_write port (as_u8 (endp - 1)) buf s) as [[[c n]|e1|] s1] eqn:Ht;
    cbn [snd] in Hkeep.
  - rewrite (bind_Ok _ _ _ _ _ Ht). destruct Hkeep as [Kg Ki].
    destruct (after_data_spec EBADFD CdOut port endp c n s1 a b) as (s2 & Ha & _);
      [by rewrite Kg, Hg|by rewrite Ki|].
    rewrite (bind_Ok _ _ _ _ _ Ha).
    eapply (after_data_ok EBADFD CdOut port endp c n (Z.of_nat (length buf)) s1 s2 a b);
      [by rewrite Kg|by rewrite Ki|lia|lia|lia|eapply transfer_write_ok; exact Ht| |exact Ha].
    intros q x _. rewrite Ki. apply Hpipe.
  - rewrite (bind_Err _ _ _ _ _ Ht). by eapply pipe_ok_same.
  - unfold p_bind. rewrite Ht. by eapply pipe_ok_same.
Qed.

Lemma read_data_pipe_ok port endp k s :
  pipe_ok s → pipe_ok (on_read_endp_data port endp k s).2.
Proof.
  intros Hok. pose proof Hok as [Hg Hpipe]. unfold on_read_endp_data, mbind, prog_bind.
  destruct (x_port_states s !! port) as [p|] eqn:Hp.
  2:{ erewrite bind_Err; [done|]. unfold get_port. by rewrite Hg, Hp. }
  rewrite (bind_Ok _ _ _ _ _ (get_port_ok EBADF port s p ltac:(by rewrite Hg) Hp)).
  destruct (po_endpoint_states p !! endp) as [es|] eqn:He; [|done].
  unfold lift_opt. erewrite bind_Ok by reflexivity.
  destruct (es_if_state es) as [|dir a b| |] eqn:Hst; try done. destruct dir; try done.
  assert (if_state port endp s = Some (IfWaitingForDataPipe CdIn a b)) as Hi
    by (unfold if_state; rewrite Hp; cbn; rewrite He; cbn; by rewrite Hst).
  pose proof (Hpipe port endp) as Hst1. rewrite Hi in Hst1. destruct Hst1 as [Hab Hb].
  destruct (_ <? _) eqn:Hroom; [done|]. apply room_check in Hroom; [|done|done].
  pose proof (transfer_read_keeps port (as_u8 (endp - 1)) k s) as Hkeep.
  unfold keeps_if in Hkeep.
  destruct (transfer_read port (as_u8 (endp - 1)) k s) as [[[[c n] bs]|e1|] s1] eqn:Ht;
    cbn [snd] in Hkeep.
  - rewrite (bind_Ok _ _ _ _ _ Ht). destruct Hkeep as [Kg Ki].
    destruct (after_data_spec EBADF CdIn port endp c n s1 a b) as (s2 & Ha & _);
      [by rewrite Kg, Hg|by rewrite Ki|].
    rewrite (bind_Ok _ _ _ _ _ Ha).
    eapply (after_data_ok EBADF CdIn port endp c n (Z.of_nat k) s1 s2 a b);
      [by rewrite Kg|by rewrite Ki|lia|lia|lia|eapply transfer_read_ok; exact Ht| |exact Ha].
    intros q x _. rewrite Ki. apply Hpipe.
  - rewrite (bind_Err _ _ _ _ _ Ht). by eapply pipe_ok_same.
  - unfold p_bind. rewrite Ht. by eapply pipe_ok_same.
Qed.

Lemma ctl_pipe_ok port endp buf k s :
  pipe_ok s →
  pipe_ok (on_write_endp_ctl port endp buf s).2 ∧ pipe_ok (on_read_endp_ctl port endp k s).2.
Proof.
  intros Hok. pose proof Hok as [Hg Hpipe].
  destruct (x_port_states s !! port) as [p|] eqn:Hp.
  2:{ unfold on_write_endp_ctl, on_read_endp_ctl, mbind, prog_bind.
      split; (erewrite bind_Err; [done|]); unfold get_port; by rewrite Hg, Hp. }
  assert (x_guard s ≠ Some port) as Hg' by (by rewrite Hg).
  destruct (po_endpoint_states p !! endp) as [es|] eqn:He.
  2:{ unfold on_write_endp_ctl, on_read_endp_ctl, mbind, prog_bind.
      rewrite !(bind_Ok _ _ _ _ _ (get_port_ok EBADF port s p Hg' Hp)), He. done. }
  assert (∀ st, pipe_state_ok (Some st) → ∃ s1, set_if_state port endp st p es s = (Ok tt, s1) ∧
    x_guard s1 = None ∧ pipe_ok s1) as Hset.
  { intros st Hs. destruct (if_state_put port endp st p es s Hp He) as (s1 & E & Eg & Ei & Eo).
    exists s1. split_and!; [done|congruence|].
    eapply (pipe_ok_update s s1 port endp); [done|by rewrite Ei|done|done]. }
  split.
  - unfold on_write_endp_ctl. rewrite (lookup_endpoint _ _ _ _ _ p es) by done.
    destruct (req_of_json buf) as [r|] eqn:Hr; [|done]. unfold mbind, prog_bind.
    erewrite bind_Ok by reflexivity. destruct r as [d n|c|]; destruct (es_if_state es) eqn:Hst; try done.
    + destruct (bool_decide (d = CdNoData)).
      * erewrite bind_Err; [exact Hok|]. apply holding_err. intros ? ?. by apply transfer_reentry.
      * destruct (Hset (IfWaitingForDataPipe d 0 n)) as (s1 & E & _ & Hs1).
        { apply req_typed in Hr. unfold u_range in Hr. cbn. lia. }
        by rewrite (bind_Ok _ _ _ _ _ E).
    + erewrite bind_Err; [exact Hok|]. apply holding_err. intros ? ?. by apply reset_reentry.
    + destruct (Hset IfWaitingForStatus I) as (s1 & E & _ & Hs1). by rewrite (bind_Ok _ _ _ _ _ E).
  - unfold on_read_endp_ctl. rewrite (lookup_endpoint _ _ _ _ _ p es) by done.
    unfold mbind, prog_bind. destruct (es_if_state es) as [|d a b| |st] eqn:Hst.
    + erewrite bind_Ok by reflexivity. by destruct (decide _).
    + erewrite bind_Ok by reflexivity. by destruct (decide _).
    + destruct (Hset IfInit I) as (s1 & E & Eg & Hs1). erewrite bind_Err; [exact Hs1|].
      rewrite (bind_Ok _ _ _ _ _ E). erewrite bind_Err; [reflexivity|].
      apply holding_err. intros ? ?. by apply status_reentry.
    + destruct (Hset IfInit I) as (s1 & E & Eg & Hs1).
      erewrite bind_Ok; [|rewrite (bind_Ok _ _ _ _ _ E); reflexivity]. by destruct (decide _).
Qed.

(** The operations on the files of one endpoint, and sequences of them over all
    endpoints; an operation that fails or panics leaves the state it reached. *)
Inductive endp_file_op : Type :=
| CtlWrite (buf : list Z)
| CtlRead (len : nat)
| DataWrite (buf : list Z)
| DataRead (len : nat).

Definition run_endp_op (port endp : Z) (op : endp_file_op) s : Xhci W :=
  match op with
  | CtlWrite buf => (on_write_endp_ctl port endp buf s).2
  | CtlRead len => (on_read_endp_ctl port endp len s).2
  | DataWrite buf => (on_write_endp_data port endp buf s).2
  | DataRead len => (on_read_endp_data port endp len s).2
  end.

Fixpoint run_endp_ops (ops : list (Z * Z * endp_file_op)) s : Xhci W :=
  match ops with
  | [] => s
  | (port, endp, op) :: ops => run_endp_ops ops (run_endp_op port endp op s)
  end.

(** Whatever a client does on the endpoint files and whatever the controller
    answers, the byte counters of a pending transfer stay consistent: no more
    bytes are counted as transferred than were announced, both fit their 32 bits
    (so that the room check of the data handlers never wraps), and no write guard
    is left behind. *)
Theorem endpoint_counters_consistent s ops : pipe_ok s → pipe_ok (run_endp_ops ops s).
Proof.
  revert s. induction ops as [|[[port endp] op] ops IH]; intros s Hs; [done|]. cbn. apply IH.
  destruct op; cbn; [by apply (ctl_pipe_ok port endp buf 0)|by apply (ctl_pipe_ok port endp [] len)
    |by apply write_data_pipe_ok|by apply read_data_pipe_ok].
Qed.
End invariant.

(** ** The TRBs of a transfer *)

Section td.
Context {W : Type} `{Controller W} `{EndpJson}.

(** The values [bytes_left] takes in the closure. *)
Fixpoint lefts (fuel : nat) (left : Z) : list Z :=
  match fuel with
  | O => []
  | S fuel =>
      left :: (if left <=? MAX_TRANSFER_SIZE then [] else lefts fuel (left - MAX_TRANSFER_SIZE))
  end.

Definition td_fuel (len : Z) : nat := S (Z.to_nat (len / MAX_TRANSFER_SIZE)).

(** One TRB after the other; the index of the last. *)
Fixpoint put_all (fs : list (bool → trb_prog)) (r : Ring) : prog (Xhci W) fault (nat * Ring) :=
  match fs with
  | [] => throw Waits
  | [f] => ring_put f r
  | f :: fs => '(_, r) ← ring_put f r; put_all fs r
  end.

Lemma fill_loop_put_all fuel (build : Z → bool → trb_prog) left r (s : Xhci W) :
  0 <= left → left <= MAX_TRANSFER_SIZE * Z.of_nat fuel → (0 < fuel)%nat →
  fill_loop fuel build transfer_next left r s = put_all (build <$> lefts fuel left) r s.
Proof.
  revert left r s. induction fuel as [|fuel IH]; intros left r s Hz Hl Hf; [lia|].
  cbn [fill_loop lefts fmap list_fmap]. unfold transfer_next, MAX_TRANSFER_SIZE in *.
  destruct (Z.leb_spec left 65536) as [Hle|Hgt].
  - rewrite Z.min_l, Z.sub_diag by lia. cbn. unfold mbind, prog_bind, p_bind.
    by destruct (ring_put (build left) r s) as [[[i r']|e|] s'].
  - rewrite Z.min_r by lia. rewrite (proj2 (Z.eqb_neq _ _)) by lia. cbn [negb].
    unfold mbind, prog_bind, p_bind at 1.
    destruct fuel as [|fuel]; [lia|].
    destruct (ring_put (build left) r s) as [[[i r']|e|] s'] eqn:Hp.
    + rewrite IH by lia. cbn [lefts fmap list_fmap put_all]. unfold mbind, prog_bind.
      by rewrite (bind_Ok _ _ _ _ _ Hp).
    + cbn [lefts fmap list_fmap put_all]. unfold mbind, prog_bind. by rewrite (bind_Err _ _ _ _ _ Hp).
    + cbn [lefts fmap list_fmap put_all]. unfold mbind, prog_bind, p_bind. by rewrite Hp.
Qed.

Definition chunk_len (left : Z) : Z := Z.min left MAX_TRANSFER_SIZE.

Lemma lefts_spec fuel left :
  0 <= left → left <= MAX_TRANSFER_SIZE * Z.of_nat fuel → (0 < fuel)%nat →
  foldr Z.add 0 (chunk_len <$> lefts fuel left) = left ∧
  (∀ k l, lefts fuel left !! k = Some l →
     l = left - MAX_TRANSFER_SIZE * Z.of_nat k ∧ 0 <= l ∧
     (S k = length (lefts fuel left) ↔ l <= MAX_TRANSFER_SIZE)).
Proof.
  unfold chunk_len, MAX_TRANSFER_SIZE. revert left.
  induction fuel as [|fuel IH]; intros left Hz Hl Hf; [lia|]. cbn [lefts].
  unfold MAX_TRANSFER_SIZE. destruct (Z.leb_spec left 65536).
  - cbn. split; [lia|]. intros [|k] l Hk; [|done]. cbn in Hk. injection Hk as <-. split_and!; lia.
  - destruct (IH (left - 65536)) as [IH1 IH2]; [lia|lia|destruct fuel; lia|].
    cbn [fmap list_fmap foldr]. rewrite IH1, Z.min_r by lia. split; [lia|].
    assert (0 < length (lefts fuel (left - 65536)))%nat as Hpos by (destruct fuel; [lia|cbn; lia]).
    intros [|k] l Hk; cbn in Hk.
    + injection Hk as <-. cbn [length]. split_and!; lia.
    + destruct (IH2 k l Hk) as (-> & Hl0 & Hlast). cbn [length]. split_and!; [lia|lia|].
      rewrite <- Hlast. lia.
Qed.

Lemma transfer_trb_fields buffer td idt left c t t' :
  u_range 64 buffer → 0 <= left → u_range 8 td →
  transfer_trb buffer td idt left c t = (Ok tt, t') →
  read_data t' = buffer ∧ field 0 17 (status_w t') = chunk_len left ∧
  Z.testbit (control t') 4 = negb (left <=? MAX_TRANSFER_SIZE) ∧
  Z.testbit (control t') 5 = (left <=? MAX_TRANSFER_SIZE).
Proof.
  intros Hb Hl Htd Hrun. unfold transfer_trb in Hrun.
  assert (u_range 17 (chunk_len left)) as Hc by (unfold u_range, chunk_len, MAX_TRANSFER_SIZE; change (2 ^ 17) with 131072; lia).
  assert (u_range 8 0) as Hi by (unfold u_range; lia).
  destruct (normal_status_fields _ _ _ _ _ _ _ _ _ _ _ _ _ Hc Htd Hi Hrun) as (Hlen & _).
  unfold normal, assert_eq in Hrun. destruct (_ =? td); [|done]. injection Hrun as <-.
  split_and!; [by apply read_data_set|exact Hlen| |];
    cbn [control]; destruct c, idt, (left <=? MAX_TRANSFER_SIZE); reflexivity.
Qed.

(** The work of a transfer of [len] bytes, whatever the ring: the loop ends
    within its fuel and enqueues one TRB per 64 KiB chunk, in order; the chunk
    lengths add up to [len]; every TRB but the last is chained to the next, and
    exactly the last asks for an interrupt.  Every one of them carries the same
    buffer pointer, so that the bytes a transfer touches lie within 64 KiB of the
    start of the buffer: only transfers of at most 65536 bytes move all of it. *)
Theorem transfer_td_spec buffer td idt len r (s : Xhci W) :
  0 <= len → u_range 64 buffer → u_range 8 td →
  let ls := lefts (td_fuel len) len in
  fill_loop (td_fuel len) (transfer_trb buffer td idt) transfer_next len r s
    = put_all (transfer_trb buffer td idt <$> ls) r s ∧
  foldr Z.add 0 (chunk_len <$> ls) = len ∧
  (∀ k l c t t', ls !! k = Some l → transfer_trb buffer td idt l c t = (Ok tt, t') →
     read_data t' = buffer ∧
     field 0 17 (status_w t') = Z.min (len - MAX_TRANSFER_SIZE * Z.of_nat k) MAX_TRANSFER_SIZE ∧
     Z.testbit (control t') 4 = bool_decide (S k ≠ length ls) ∧
     Z.testbit (control t') 5 = bool_decide (S k = length ls)).
Proof.
  intros Hl Hb Htd ls.
  assert (len <= MAX_TRANSFER_SIZE * Z.of_nat (td_fuel len)) as Hfuel
    by (unfold td_fuel, MAX_TRANSFER_SIZE; zdiv).
  split; [apply fill_loop_put_all; [done|done|unfold td_fuel; lia]|].
  destruct (lefts_spec (td_fuel len) len Hl Hfuel ltac:(unfold td_fuel; lia)) as [Hsum Hk].
  split; [exact Hsum|]. intros k l c t t' Hlk Hrun.
  destruct (Hk k l Hlk) as (Hkl & Hl0 & Hlast).
  destruct (transfer_trb_fields _ _ _ _ _ _ _ Hb Hl0 Htd Hrun) as (Hd & Hs & Hch & Hio).
  fold ls in Hlast. rewrite Hd, Hs, Hch, Hio. unfold chunk_len. rewrite Hkl at 1.
  split_and!; [done|done| |].
  - destruct (Z.leb_spec l MAX_TRANSFER_SIZE); cbn.
    + rewrite bool_decide_false; [done|]. intros Hn. apply Hn, Hlast. lia.
    + rewrite bool_decide_true; [done|]. intros Hn. apply Hlast in Hn. lia.
  - destruct (Z.leb_spec l MAX_TRANSFER_SIZE); symmetry.
    + apply bool_decide_true, Hlast. lia.
    + apply bool_decide_false. intros Hn. apply Hlast in Hn. lia.
Qed.

Lemma builds_transfer_trb buffer td idt left :
  u_range 64 buffer → 0 <= left → 0 <= td < 32 →
  builds (transfer_trb buffer td idt left) (λ c, (transfer_trb buffer td idt left c zero_trb).2) ∧
  ∀ c, is_transfer_trb (transfer_trb buffer td idt left c zero_trb).2 = true ∧
       trb_type (transfer_trb buffer td idt left c zero_trb).2 = trb_type_code TNormal.
Proof.
  intros Hb Hl Htd. unfold transfer_trb, normal, assert_eq.
  assert (Z.land td 0x1F = td) as ->.
  { change 0x1F with (Z.ones 5). rewrite Z.land_ones by lia. apply Z.mod_small. lia. }
  rewrite Z.eqb_refl. split.
  - intros c t. split; [reflexivity|].
    destruct c, idt, (left <=? MAX_TRANSFER_SIZE); by split.
  - intros c. destruct c, idt, (left <=? MAX_TRANSFER_SIZE); by split.
Qed.
End td.

(** ** A transfer from the client's call to its result *)

Section roundtrip.
Context {W : Type} `{HC : Controller W} `{HJ : EndpJson}.
Implicit Types (s : Xhci W).

(** An endpoint with a plain ring, no other work pending in the driver. *)
Record endp_ready s (port endp : Z) (p : PortSt) (d : EndpDesc) (r : Ring) (st : EndpIfState)
    : Prop := {
  rd_guard : x_guard s = None;
  rd_states : x_states s = [];
  rd_alive : x_reactor_alive s = true;
  rd_port : x_port_states s !! port = Some p;
  rd_port_range : 0 <= port < 256;
  rd_endp_range : 1 <= endp <= 15;
  rd_desc : get_endp_desc (po_cfg_idx p) (po_dev_desc p) (endp - 1) = Some d;
  rd_not_isoch : is_isoch d = false;
  rd_endpoint : po_endpoint_states p !! endp = Some (mk_es (RosRing r) st);
  rd_ring : ring_shape r;
}.

(** The port after its endpoint was given the ring [r] and the state [st]. *)
Definition port_with (endp : Z) (r : Ring) (st : EndpIfState) (p : PortSt) : PortSt :=
  with_endpoint endp (mk_es (RosRing r) st) p.

Lemma port_with_twice endp r st r' st' p :
  port_with endp r' st' (port_with endp r st p) = port_with endp r' st' p.
Proof. unfold port_with, with_endpoint. cbn. by rewrite insert_insert_eq. Qed.

(** A change of the interface state, of the ring or of the world. *)
Lemma ready_put s s' port endp p d r st r' st' :
  endp_ready s port endp p d r st → ring_shape r' →
  x_guard s' = None → x_states s' = [] → x_reactor_alive s' = true →
  x_port_states s' = <[port := port_with endp r' st' p]> (x_port_states s) →
  endp_ready s' port endp (port_with endp r' st' p) d r' st'.
Proof.
  intros [] Hr Hg Hs Ha Hp. split; try done.
  - by rewrite Hp, lookup_insert_eq.
  - unfold port_with, with_endpoint. cbn. by rewrite lookup_insert_eq.
Qed.

Lemma dci_ok endp d : 1 <= endp <= 15 → ∃ dci, endp_num_to_dci endp d = Ok dci.
Proof. intros He. eexists. by apply dci_value. Qed.

Lemma doorbell_no_stream endp d dci :
  endp_num_to_dci endp d = Ok dci → endp_doorbell endp d 0 = Ok dci.
Proof. intros Hd. unfold endp_doorbell. rewrite Hd. done. Qed.

(** The answer of the controller to one TRB at entry [i] of [ring]. *)
Definition answers_trb (e : Trb) (ring : Ring) (i : nat) : Prop :=
  trb_type e = trb_type_code TTransfer ∧
  transfer_event_trb_pointer e = Some (phys_base hc_ac64 ring + TRB_SIZE * Z.of_nat i) ∧
  ((completion_code e = completion_code_value CSuccess ∧ transfer_length e = 0) ∨
   completion_code e = completion_code_value CShortPacket).

Lemma answers_trb_code e ring i :
  answers_trb e ring i →
  completion_code e ≠ completion_code_value CInvalid ∧ handle_transfer_event_trb e = Ok tt ∧
  negb (completion_code e =? completion_code_value CShortPacket)
    && negb (transfer_length e =? 0) = false.
Proof.
  intros (_ & _ & [[Hc Hl]|Hc]); unfold handle_transfer_event_trb; rewrite Hc; split_and!; try done.
  by rewrite Hl.
Qed.

(** The future of a transfer whose TRBs run from [a] to [b]: the controller answers
    with an event for the TRB at entry [i], which lies between them. *)
Lemma await_td s port endp p r st a b isoch i e w sid db :
  x_guard s = None → x_states s = [] → x_reactor_alive s = true →
  x_port_states s !! port = Some p → 0 <= port < 256 →
  po_endpoint_states p !! endp = Some (mk_es (RosRing r) st) →
  (i < length (rg_trbs r))%nat → in_td a b (phys_base hc_ac64 r + TRB_SIZE * Z.of_nat i) →
  xhc_doorbell (x_cmd s) (x_port_states s) (po_slot p) db (x_world s) = ([e], w) →
  answers_trb e r i →
  ∃ s' t, await_event (KTransfer a b (mk_ring_id (as_u8 port) endp sid)) isoch (po_slot p) db s
      = (Ok (mk_next e (Some t)), s') ∧
    x_world s' = w ∧ x_states s' = [] ∧ x_reactor_alive s' = true ∧ x_guard s' = None ∧
    x_port_states s' = x_port_states s ∧ x_cmd s' = x_cmd s.
Proof.
  intros Hg Hst Hal Hp Hpr Hes Hi Hin Hdb Ha.
  pose proof (answers_trb_code _ _ _ Ha) as (Hcc & _ & _). destruct Ha as (Hty & Hptr & _).
  destruct (lookup_lt_is_Some_2 (rg_trbs r) i Hi) as [t Ht].
  unfold await_event. cbn [x_next_id x_cmd x_port_states x_world x_states set_next_id set_states].
  rewrite Hdb. unfold reactor_thread. cbn [x_reactor_alive set_world set_next_id set_states].
  rewrite Hal, Hst. cbn [app reactor_run]. rewrite (proj2 (Z.eqb_neq _ _) Hcc).
  assert (check_event_ring_full e = false) as ->
    by (unfold check_event_ring_full; by rewrite Hty).
  rewrite Hty, (proj2 (Z.eqb_neq _ _)) by done. unfold mbind, prog_bind.
  erewrite bind_Ok.
  2:{ eapply (acknowledge_delivers_aux _ e []); [done|constructor|].
      split; [exact Hty|]. split; [reflexivity|]. eexists _, r, i.
      split_and!; [exact Hptr|exact Hin| |reflexivity|exact Ht].
      unfold with_ring. cbn [x_guard set_world set_next_id set_states ri_port].
      rewrite Hg. rewrite decide_False by done.
      cbn [x_port_states set_world set_next_id set_states]. unfold as_u8.
      rewrite as_u_id by (unfold u_range; cbn; lia). rewrite Hp. cbn.
      rewrite Hes. done. }
  cbn. rewrite lookup_insert_eq. eexists _, t. split; [reflexivity|]. cbn. done.
Qed.

(** [execute_transfer] of one TRB. *)
Lemma execute_transfer_one {X : Type} s port endp p d r st (build : X → bool → trb_prog) mk next
    (x x' : X) fuel dci :
  endp_ready s port endp p d r st → builds (build x) mk →
  (∀ c, is_transfer_trb (mk c) = true ∧ trb_type (mk c) = trb_type_code TNormal) →
  next x = (x', Break) → endp_num_to_dci endp d = Ok dci →
  ∃ i r', enqueue (build x) r = Some (Ok i, r') ∧ ring_shape r' ∧
    ∀ e w,
    let ports := <[port := port_with endp r' st p]> (x_port_states s) in
    xhc_doorbell (x_cmd s) ports (po_slot p) dci (x_world s) = ([e], w) →
    answers_trb e r' i →
    ∃ s', execute_transfer (S fuel) port endp 1 build next x s = (Ok e, s') ∧
      x_world s' = w ∧ x_states s' = [] ∧ x_reactor_alive s' = true ∧ x_guard s' = None ∧
      x_port_states s' = ports ∧ x_cmd s' = x_cmd s.
Proof.
  intros Hrd Hb Hmk Hn Hdci. pose proof Hrd as [].
  destruct (enqueue_shape (build x) mk r Hb rd_ring0) as (i & r' & He & Hsh & Hpl & Hi).
  exists i, r'. split; [done|]. split; [done|]. intros e w ports Hdb Ha.
  unfold execute_transfer. rewrite (proj2 (Z.eqb_neq endp 0)) by lia. unfold mbind, prog_bind.
  rewrite (bind_Ok _ _ _ _ _ (get_port_ok EBADF port s p ltac:(by rewrite rd_guard0) rd_port0)).
  rewrite rd_desc0. erewrite bind_Ok by reflexivity.
  assert (endp_doorbell endp d 1 = Ok (Z.lor (shl32 1 16) dci)) as -> by
    (unfold endp_doorbell; by rewrite Hdci).
  erewrite bind_Ok by reflexivity.
  rewrite (doorbell_no_stream _ _ _ Hdci). erewrite bind_Ok by reflexivity.
  rewrite rd_endpoint0. erewrite bind_Ok by reflexivity. cbn [es_transfer].
  erewrite bind_Ok by reflexivity. cbv beta iota.
  erewrite bind_Ok.
  2:{ cbn [fill_loop]. unfold ring_put, mbind, prog_bind. erewrite bind_Ok.
      2:{ rewrite He. erewrite bind_Ok by reflexivity. reflexivity. }
      cbv beta iota. rewrite Hn. reflexivity. }
  cbv beta iota. erewrite bind_Ok by reflexivity. cbn [with_endp_ring es_transfer es_if_state].
  assert (endp_ready (set_port_states ports s) port endp (port_with endp r' st p) d r' st) as Hrd'
    by (eapply ready_put; [exact Hrd|done|done|done|done|reflexivity]).
  destruct (await_td (set_port_states ports s) port endp (port_with endp r' st p) r' st
    (phys_base hc_ac64 r' + TRB_SIZE * Z.of_nat i) (phys_base hc_ac64 r' + TRB_SIZE * Z.of_nat i)
    false i e w 1 dci) as (s' & t & Hw & Hprops); try apply Hrd'; try done.
  { by eapply lookup_lt_Some. }
  { unfold in_td. lia. }
  pose proof (answers_trb_code _ _ _ Ha) as (_ & Hh & Hres).
  erewrite bind_Ok.
  2:{ unfold next_transfer_event_trb, mbind, prog_bind. rewrite Hi.
      erewrite bind_Ok by reflexivity. destruct (Hmk (rg_cycle r')) as [-> ->]. cbn [negb].
      unfold trb_virt. rewrite !trb_ptr_of_entry by (by eapply lookup_lt_Some).
      erewrite bind_Ok by reflexivity. erewrite bind_Ok by reflexivity. exact Hw. }
  cbn [ne_event_trb ne_src_trb]. erewrite bind_Ok by reflexivity. rewrite Hh.
  erewrite bind_Ok by reflexivity. rewrite Hres. exists s'. split; [done|]. exact Hprops.
Qed.

Lemma td_size_one n : (0 < n)%nat → Z.of_nat n <= MAX_TRANSFER_SIZE →
  estimated_td_size (Z.of_nat n) = 16.
Proof.
  intros H0 Hn. unfold estimated_td_size, div_round_up, TRB_SIZE, MAX_TRANSFER_SIZE in *.
  destruct (decide (Z.of_nat n = 65536)) as [->|Hne]; [reflexivity|].
  rewrite Z.mod_small, (proj2 (Z.eqb_neq _ _)), Z.div_small by lia. reflexivity.
Qed.

Lemma transfer_next_break n : 0 <= n <= MAX_TRANSFER_SIZE → transfer_next n = (0, Break).
Proof.
  intros Hn. unfold transfer_next. rewrite Z.min_l, Z.sub_diag by lia. reflexivity.
Qed.

(** The number of bytes a client is told, and the kind of its result. *)
Definition moved (n : nat) (e : Trb) : Z := as_u32 (as_u32 (Z.of_nat n) - transfer_length e).

Lemma moved_full n e :
  u_range 32 (Z.of_nat n) → transfer_length e = 0 → moved n e = Z.of_nat n.
Proof.
  intros Hn Hl. unfold moved, as_u32. rewrite Hl, Z.sub_0_r.
  by rewrite !(as_u_id 32 (Z.of_nat n)).
Qed.

Lemma transfer_read_one s port endp p d r st n phys virt w1 dci :
  endp_ready s port endp p d r st → endp_direction d = EdIn → endp_num_to_dci endp d = Ok dci →
  (0 < n)%nat → Z.of_nat n <= MAX_TRANSFER_SIZE →
  dma_zeroed (Z.of_nat n) (x_world s) = (inr (phys, virt), w1) → u_range 64 phys →
  ∃ i r', enqueue (transfer_trb phys 16 false (Z.of_nat n)) r = Some (Ok i, r') ∧ ring_shape r' ∧
    ∀ e w,
    let ports := <[port := port_with endp r' st p]> (x_port_states s) in
    xhc_doorbell (x_cmd s) ports (po_slot p) dci (dma_set phys (replicate n 0) w1) = ([e], w) →
    answers_trb e r' i →
    ∃ s', transfer_read port (endp - 1) n s
          = (Ok (completion_code e, moved n e, dma_get w phys n), s') ∧
      x_states s' = [] ∧ x_reactor_alive s' = true ∧ x_guard s' = None ∧
      x_port_states s' = ports ∧ x_world s' = w.
Proof.
  intros Hrd Hdir Hdci Hn0 Hn Hal Hph. pose proof Hrd as [].
  set (s1 := set_world (dma_set phys (replicate n 0) w1) s).
  assert (endp_ready s1 port endp p d r st) as Hrd1 by (split; done).
  destruct (builds_transfer_trb phys 16 false (Z.of_nat n) Hph ltac:(lia) ltac:(lia)) as [Hb Hmk].
  assert (transfer_next (Z.of_nat n) = (0, Break)) as Hbr by (apply transfer_next_break; lia).
  destruct (execute_transfer_one s1 port endp p d r st (transfer_trb phys 16 false) _ transfer_next
    (Z.of_nat n) 0 (Z.to_nat (Z.of_nat n / MAX_TRANSFER_SIZE)) dci Hrd1 Hb Hmk
    Hbr Hdci) as (i & r' & He & Hsh & Hx).
  exists i, r'. split; [done|]. split; [done|]. intros e w ports Hdb Ha.
  destruct (Hx e w Hdb Ha) as (s' & Hs' & Hw & Hst & Hal' & Hg' & Hp' & _).
  exists s'. split; [|done]. unfold transfer_read. rewrite (proj2 (Nat.eqb_neq n 0)) by lia.
  unfold mbind, prog_bind. erewrite bind_Ok.
  2:{ unfold alloc_dma_zeroed_unsized. rewrite Hal. reflexivity. }
  erewrite bind_Ok.
  2:{ unfold transfer, mbind, prog_bind.
      rewrite (bind_Ok _ _ _ _ _ (get_port_ok EBADFD port s1 p
        ltac:(change (x_guard s ≠ Some port); by rewrite rd_guard0) rd_port0)).
      rewrite rd_desc0. erewrite bind_Ok by reflexivity. rewrite rd_not_isoch0.
      rewrite bool_decide_true by done. cbn [negb]. erewrite bind_Ok.
      2:{ unfold transfer_buffer. rewrite Hdir. rewrite bool_decide_true by done.
          rewrite andb_false_r. reflexivity. }
      cbv beta iota. cbn [dma_len dm_len dm_phys]. rewrite td_size_one by done.
      unfold as_u8. rewrite as_u_id by (unfold u_range; cbn; lia).
      replace (endp - 1 + 1) with endp by lia. erewrite bind_Ok by exact Hs'. reflexivity. }
  cbv beta iota. erewrite bind_Ok by reflexivity. erewrite bind_Ok by reflexivity.
  cbn [dm_phys dm_len]. by rewrite Hw.
Qed.

(** The data pointer of a write: at most 8 bytes go into the TRB itself. *)
Definition out_pointer (d : EndpDesc) (phys : Z) (sbuf : list Z) : Z * bool :=
  if (Z.of_nat (length sbuf) <=? 8) && (8 <=? ed_max_packet_size d)
  then (le_val (sbuf ++ replicate (8 - length sbuf) 0), true) else (phys, false).

(** The memory of a write: a zeroed buffer that was filled. *)
Definition out_world (phys : Z) (sbuf : list Z) (w : W) : W :=
  dma_set phys sbuf (dma_set phys (replicate (length sbuf) 0) w).

Lemma transfer_write_one s port endp p d r st sbuf phys virt w1 dci :
  let n := length sbuf in let buf := out_pointer d phys sbuf in
  endp_ready s port endp p d r st → endp_direction d = EdOut → endp_num_to_dci endp d = Ok dci →
  (0 < n)%nat → Z.of_nat n <= MAX_TRANSFER_SIZE →
  dma_zeroed (Z.of_nat n) (x_world s) = (inr (phys, virt), w1) → u_range 64 buf.1 →
  dma_get (out_world phys sbuf w1) phys n = sbuf →
  ∃ i r', enqueue (transfer_trb buf.1 16 buf.2 (Z.of_nat n)) r = Some (Ok i, r') ∧ ring_shape r' ∧
    ∀ e w,
    let ports := <[port := port_with endp r' st p]> (x_port_states s) in
    xhc_doorbell (x_cmd s) ports (po_slot p) dci (out_world phys sbuf w1) = ([e], w) →
    answers_trb e r' i →
    ∃ s', transfer_write port (endp - 1) sbuf s = (Ok (completion_code e, moved n e), s') ∧
      x_states s' = [] ∧ x_reactor_alive s' = true ∧ x_guard s' = None ∧
      x_port_states s' = ports ∧ x_world s' = w.
Proof.
  intros n buf Hrd Hdir Hdci Hn0 Hn Hal Hph Hmem. pose proof Hrd as [].
  set (s1 := set_world (out_world phys sbuf w1) s).
  assert (endp_ready s1 port endp p d r st) as Hrd1 by (split; done).
  destruct (builds_transfer_trb buf.1 16 buf.2 (Z.of_nat n) Hph ltac:(lia) ltac:(lia)) as [Hb Hmk].
  assert (transfer_next (Z.of_nat n) = (0, Break)) as Hbr by (apply transfer_next_break; lia).
  destruct (execute_transfer_one s1 port endp p d r st (transfer_trb buf.1 16 buf.2) _ transfer_next
    (Z.of_nat n) 0 (Z.to_nat (Z.of_nat n / MAX_TRANSFER_SIZE)) dci Hrd1 Hb Hmk
    Hbr Hdci) as (i & r' & He & Hsh & Hx).
  exists i, r'. split; [done|]. split; [done|]. intros e w ports Hdb Ha.
  destruct (Hx e w Hdb Ha) as (s' & Hs' & Hw & Hst & Hal' & Hg' & Hp' & _).
  exists s'. split; [|done]. unfold transfer_write. fold n. rewrite (proj2 (Nat.eqb_neq n 0)) by lia.
  unfold mbind, prog_bind. erewrite bind_Ok.
  2:{ unfold alloc_dma_zeroed_unsized. rewrite Hal. reflexivity. }
  erewrite bind_Ok by reflexivity. change (set_world _ (set_world _ s)) with s1.
  rewrite (bind_Ok _ _ s1 (completion_code e, moved n e, Some (mk_dma phys n)) s'); [done|]. unfold transfer, mbind, prog_bind.
  rewrite (bind_Ok _ _ _ _ _ (get_port_ok EBADFD port s1 p
    ltac:(change (x_guard s ≠ Some port); by rewrite rd_guard0) rd_port0)).
  rewrite rd_desc0. erewrite bind_Ok by reflexivity. rewrite rd_not_isoch0.
  rewrite bool_decide_true by done. cbn [negb]. rewrite (bind_Ok _ _ s1 buf s1).
  2:{ unfold transfer_buffer, buf, out_pointer, n. rewrite Hdir, bool_decide_false by done. cbn [dma_len dm_len negb].
      rewrite andb_true_r. destruct (_ && _); [|done]. unfold mbind, prog_bind. erewrite bind_Ok by reflexivity.
      cbn [dm_phys dm_len]. change (x_world s1) with (out_world phys sbuf w1). unfold n in Hmem. by rewrite Hmem. }
  destruct buf as [b idt]. cbv beta iota. cbn [dma_len dm_len fst snd] in *. rewrite td_size_one by done.
  unfold as_u8. rewrite as_u_id by (unfold u_range; cbn; lia).
  replace (endp - 1 + 1) with endp by lia. by erewrite bind_Ok by exact Hs'.
Qed.

(** The state in which the endpoint has the interface state [st]. *)
Definition with_if (port endp : Z) (r : Ring) (st : EndpIfState) (p : PortSt) s : Xhci W :=
  set_port_states (<[port := port_with endp r st p]> (x_port_states s)) s.

Lemma ready_with_if s port endp p d r st st' :
  endp_ready s port endp p d r st →
  endp_ready (with_if port endp r st' p s) port endp (port_with endp r st' p) d r st'.
Proof. intros Hrd. pose proof Hrd as []. eapply ready_put; done. Qed.

Lemma after_data_step s port endp p d r e dir code k n :
  endp_ready s port endp p d r (IfWaitingForDataPipe dir 0 n) →
  as_u32 k = n ∨ code ≠ completion_code_value CSuccess →
  after_data e dir port endp code k s
  = (Ok tt, with_if port endp r (IfWaitingForTransferResult (transfer_result code k)) p s).
Proof.
  intros [] Hd. unfold after_data.
  rewrite (lookup_endpoint _ _ _ _ _ _ _ _ ltac:(by rewrite rd_guard0) rd_port0 rd_endpoint0).
  cbn [es_if_state]. rewrite bool_decide_true by done. rewrite Z.add_0_l.
  assert ((as_u32 k =? n) || negb (code =? completion_code_value CSuccess) = true) as ->; [|done].
  destruct Hd as [->|Hc]; [by rewrite Z.eqb_refl|]. by rewrite (proj2 (Z.eqb_neq _ _) Hc), orb_true_r.
Qed.

Context `{!EndpJsonLaws}.

Lemma ctl_request_step s port endp p d r dir n :
  endp_ready s port endp p d r IfInit → u_range 32 n → dir ≠ CdNoData →
  ctl_req port endp (CrTransfer dir n) s
  = (Ok tt, with_if port endp r (IfWaitingForDataPipe dir 0 n) p s).
Proof.
  intros [] Hn Hdir. unfold ctl_req, mbind, prog_bind. erewrite bind_Ok.
  2:{ unfold as_client.
      rewrite (ctl_write_idle port endp s p _ ltac:(by rewrite rd_guard0) rd_port0 rd_endpoint0)
        by done.
      rewrite bool_decide_false by done. unfold mbind, prog_bind.
      erewrite bind_Ok by reflexivity. reflexivity. }
  by rewrite Nat.eqb_refl.
Qed.

Lemma ctl_collect_step s port endp p d r res :
  endp_ready s port endp p d r (IfWaitingForTransferResult res) →
  ctl_res port endp s = (Ok (RsTransferResult res), with_if port endp r IfInit p s).
Proof.
  intros []. unfold ctl_res, mbind, prog_bind. erewrite bind_Ok.
  2:{ unfold as_client, on_read_endp_ctl.
      rewrite (lookup_endpoint _ _ _ _ _ _ _ _ ltac:(by rewrite rd_guard0) rd_port0 rd_endpoint0).
      cbn [es_if_state]. unfold mbind, prog_bind.
      erewrite bind_Ok by (erewrite bind_Ok by reflexivity; reflexivity).
      rewrite decide_True by apply res_short. reflexivity. }
  by rewrite res_roundtrip.
Qed.

(** The request, the access to the data file and the collection of the result. *)
Lemma generic_transfer_step {A : Type} s port endp p d r dir n (f : prog (Xhci W) fault (Z * A)) k a res s2 p2 r2 :
  endp_ready s port endp p d r IfInit → u_range 32 n → dir ≠ CdNoData →
  f (with_if port endp r (IfWaitingForDataPipe dir 0 n) p s) = (Ok (k, a), s2) →
  endp_ready s2 port endp p2 d r2 (IfWaitingForTransferResult res) →
  (pts_kind res = TkSuccess → k = n) →
  generic_transfer port endp dir f n s = (Ok (res, a), with_if port endp r2 IfInit p2 s2).
Proof.
  intros Hrd Hn Hdir Hf Hrd2 Hk. unfold generic_transfer, mbind, prog_bind.
  rewrite (bind_Ok _ _ _ _ _ (ctl_request_step _ _ _ _ _ _ dir n Hrd Hn Hdir)).
  erewrite bind_Ok by (unfold as_client; rewrite Hf; reflexivity). cbv beta iota.
  rewrite (bind_Ok _ _ _ _ _ (ctl_collect_step _ _ _ _ _ _ _ Hrd2)). cbv beta iota.
  case_bool_decide as Hkind; [|done]. by rewrite (Hk Hkind), Z.eqb_refl.
Qed.

(** After the access to the data file the result is there to be collected. *)
Lemma data_access_step err s port endp p d r r' dir n ev i s2 :
  let st := IfWaitingForDataPipe dir 0 (Z.of_nat n) in
  let res := mk_pts (if completion_code ev =? completion_code_value CSuccess then TkSuccess else TkShortPacket) (moved n ev) in
  endp_ready s port endp p d r st → ring_shape r' → u_range 32 (Z.of_nat n) → answers_trb ev r' i →
  x_states s2 = [] → x_reactor_alive s2 = true → x_guard s2 = None →
  x_port_states s2 = <[port := port_with endp r' st p]> (x_port_states s) →
  ∃ s3, after_data err dir port endp (completion_code ev) (moved n ev) s2 = (Ok tt, s3) ∧ x_world s3 = x_world s2 ∧
    endp_ready s3 port endp (port_with endp r' (IfWaitingForTransferResult res) p) d r' (IfWaitingForTransferResult res) ∧
    (pts_kind res = TkSuccess → moved n ev = Z.of_nat n).
Proof.
  intros st res Hrd Hsh H32 (_ & _ & Hcode) Hst Hal Hg Hp.
  assert (endp_ready s2 port endp (port_with endp r' st p) d r' st) as Hrd2 by (eapply ready_put; done).
  assert (transfer_result (completion_code ev) (moved n ev) = res) as Hres
    by (unfold res, transfer_result; by destruct Hcode as [[Hc _]|Hc]; rewrite Hc).
  eexists. split.
  { apply (after_data_step _ _ _ _ _ _ _ _ _ _ _ Hrd2). destruct Hcode as [[_ Hl]|Hc]; [left|right; by rewrite Hc].
    rewrite (moved_full _ _ H32 Hl). unfold as_u32. by apply as_u_id. }
  rewrite Hres. split; [done|]. split.
  - pose proof (ready_with_if _ _ _ _ _ _ _ (IfWaitingForTransferResult res) Hrd2) as Hrd3.
    by rewrite port_with_twice in Hrd3 at 1.
  - intros Hk. destruct Hcode as [[_ Hl]|Hc]; [by apply moved_full|]. unfold res in Hk. by rewrite Hc in Hk.
Qed.

(** A read goes through the control and data files, and changes the endpoint's ring and
    the machine only. *)
Lemma client_read_step s port endp p d r n phys virt w1 :
  endp_ready s port endp p d r IfInit → endp_direction d = EdIn →
  (0 < n)%nat → Z.of_nat n <= MAX_TRANSFER_SIZE →
  dma_zeroed (Z.of_nat n) (x_world s) = (inr (phys, virt), w1) → u_range 64 phys →
  ∃ i r' dci, enqueue (transfer_trb phys 16 false (Z.of_nat n)) r = Some (Ok i, r') ∧
    endp_num_to_dci endp d = Ok dci ∧
    ∀ e w,
    xhc_doorbell (x_cmd s)
      (<[port := port_with endp r' (IfWaitingForDataPipe CdIn 0 (Z.of_nat n)) p]> (x_port_states s))
      (po_slot p) dci (dma_set phys (replicate n 0) w1) = ([e], w) →
    answers_trb e r' i →
    ∃ s', endp_transfer_read port endp n s
          = (Ok (mk_pts (if completion_code e =? completion_code_value CSuccess
                         then TkSuccess else TkShortPacket) (moved n e), dma_get w phys n), s') ∧
      endp_ready s' port endp (port_with endp r' IfInit p) d r' IfInit ∧ x_world s' = w.
Proof.
  intros Hrd Hdir Hn0 Hn Hal Hph. pose proof Hrd as [].
  destruct (dci_ok endp d rd_endp_range0) as [dci Hdci].
  assert (u_range 32 (Z.of_nat n)) as H32 by (unfold u_range, MAX_TRANSFER_SIZE in *; lia).
  set (st := IfWaitingForDataPipe CdIn 0 (Z.of_nat n)).
  pose proof (ready_with_if s port endp p d r IfInit st Hrd) as Hrd1. set (s1 := with_if port endp r st p s) in *.
  destruct (transfer_read_one s1 port endp (port_with endp r st p) d r st n phys virt w1 dci)
    as (i & r' & He & Hsh & Hx); try done.
  exists i, r', dci. split; [done|]. split; [done|]. intros e w Hdb Ha.
  destruct (Hx e w) as (s2 & Hread & Hst2 & Hal2 & Hg2 & Hp2 & Hw2); [|done|].
  { rewrite port_with_twice. cbn [x_port_states set_port_states with_if s1]. by rewrite insert_insert_eq. }
  destruct (data_access_step EBADF s1 port endp _ d r r' CdIn n e i s2 Hrd1 Hsh H32 Ha Hst2 Hal2 Hg2 Hp2)
    as (s3 & Had & Hw3 & Hrd3 & Hk).
  eexists. split; [|split].
  - unfold endp_transfer_read, as_u32. rewrite as_u_id by done.
    eapply (generic_transfer_step s port endp p d r CdIn); [done|done|done| |exact Hrd3|exact Hk].
    destruct Hrd1 as [Hg1 _ _ Hport1 _ _ _ _ Hep1 _]. unfold on_read_endp_data. fold st s1.
    rewrite (lookup_endpoint _ _ _ _ _ _ _ _ ltac:(by rewrite Hg1) Hport1 Hep1).
    cbn [es_if_state st]. rewrite Z.sub_0_r. unfold as_usize.
    rewrite as_u_id by (unfold u_range, MAX_TRANSFER_SIZE in *; lia). rewrite Z.ltb_irrefl.
    unfold mbind, prog_bind, as_u8. rewrite as_u_id by (unfold u_range; cbn; lia).
    erewrite bind_Ok by exact Hread. cbv beta iota. by rewrite (bind_Ok _ _ _ _ _ Had).
  - pose proof (ready_with_if _ _ _ _ _ _ _ IfInit Hrd3) as Hrd4.
    set (pw := port_with endp r' IfInit _) in Hrd4.
    assert (port_with endp r' IfInit p = pw) as -> by (unfold pw; by rewrite !port_with_twice). exact Hrd4.
  - exact (eq_trans Hw3 Hw2).
Qed.

(** The same for a write. *)
Lemma client_write_step s port endp p d r sbuf phys virt w1 :
  let n := length sbuf in let buf := out_pointer d phys sbuf in
  endp_ready s port endp p d r IfInit → endp_direction d = EdOut →
  (0 < n)%nat → Z.of_nat n <= MAX_TRANSFER_SIZE →
  dma_zeroed (Z.of_nat n) (x_world s) = (inr (phys, virt), w1) → u_range 64 buf.1 →
  dma_get (out_world phys sbuf w1) phys n = sbuf →
  ∃ i r' dci, enqueue (transfer_trb buf.1 16 buf.2 (Z.of_nat n)) r = Some (Ok i, r') ∧
    endp_num_to_dci endp d = Ok dci ∧
    ∀ e w,
    xhc_doorbell (x_cmd s)
      (<[port := port_with endp r' (IfWaitingForDataPipe CdOut 0 (Z.of_nat n)) p]> (x_port_states s))
      (po_slot p) dci (out_world phys sbuf w1) = ([e], w) →
    answers_trb e r' i →
    ∃ s', endp_transfer_write port endp sbuf s
          = (Ok (mk_pts (if completion_code e =? completion_code_value CSuccess
                         then TkSuccess else TkShortPacket) (moved n e)), s') ∧
      endp_ready s' port endp (port_with endp r' IfInit p) d r' IfInit ∧ x_world s' = w.
Proof.
  intros n buf Hrd Hdir Hn0 Hn Hal Hph Hmem. pose proof Hrd as [].
  destruct (dci_ok endp d rd_endp_range0) as [dci Hdci].
  assert (u_range 32 (Z.of_nat n)) as H32 by (unfold u_range, MAX_TRANSFER_SIZE in *; lia).
  set (st := IfWaitingForDataPipe CdOut 0 (Z.of_nat n)).
  pose proof (ready_with_if s port endp p d r IfInit st Hrd) as Hrd1. set (s1 := with_if port endp r st p s) in *.
  destruct (transfer_write_one s1 port endp (port_with endp r st p) d r st sbuf phys virt w1 dci)
    as (i & r' & He & Hsh & Hx); try done.
  exists i, r', dci. split; [done|]. split; [done|]. intros e w Hdb Ha.
  destruct (Hx e w) as (s2 & Hwrite & Hst2 & Hal2 & Hg2 & Hp2 & Hw2); [|done|].
  { rewrite port_with_twice. cbn [x_port_states set_port_states with_if s1]. by rewrite insert_insert_eq. }
  destruct (data_access_step EBADFD s1 port endp _ d r r' CdOut n e i s2 Hrd1 Hsh H32 Ha Hst2 Hal2 Hg2 Hp2)
    as (s3 & Had & Hw3 & Hrd3 & Hk).
  assert (p_bind (λ k, mret (k, tt)) (on_write_endp_data port endp sbuf) s1 = (Ok (moved n e, tt), s3)) as Hf.
  { destruct Hrd1 as [Hg1 _ _ Hport1 _ _ _ _ Hep1 _]. erewrite bind_Ok; [reflexivity|]. unfold on_write_endp_data.
    rewrite (lookup_endpoint _ _ _ _ _ _ _ _ ltac:(by rewrite Hg1) Hport1 Hep1).
    cbn [es_if_state st]. rewrite Z.sub_0_r. unfold as_usize.
    rewrite as_u_id by (unfold u_range, MAX_TRANSFER_SIZE in *; lia). fold n. rewrite Z.ltb_irrefl.
    unfold mbind, prog_bind, as_u8. rewrite as_u_id by (unfold u_range; cbn; lia).
    erewrite bind_Ok by exact Hwrite. cbv beta iota. by rewrite (bind_Ok _ _ _ _ _ Had). }
  pose proof (generic_transfer_step s port endp p d r CdOut (Z.of_nat n) _ _ _ _ _ _ _ Hrd H32 ltac:(done) Hf Hrd3 Hk) as Hgen.
  eexists. split; [|split].
  - unfold endp_transfer_write, as_u32. fold n. rewrite as_u_id by done. unfold mbind, prog_bind. by rewrite (bind_Ok _ _ _ _ _ Hgen).
  - pose proof (ready_with_if _ _ _ _ _ _ _ IfInit Hrd3) as Hrd4.
    set (pw := port_with endp r' IfInit _) in Hrd4.
    assert (port_with endp r' IfInit p = pw) as -> by (unfold pw; by rewrite !port_with_twice). exact Hrd4.
  - exact (eq_trans Hw3 Hw2).
Qed.

(** C14. Reading from an endpoint, end to end.  A class driver reads [n] bytes
    (1 to 65536) from an idle IN endpoint.  The request, the data access and the
    collection of the result go through the control and data files; one TRB that
    points at a zeroed buffer of [n] bytes is enqueued and the endpoint's
    doorbell is rung.  If the controller answers that TRB with success or a short
    packet, the client receives the bytes the controller left in the buffer, the
    matching kind of result and the number of bytes moved, and the endpoint is
    idle again. *)
Theorem client_read_roundtrip s port endp p d r n phys virt w1 :
  endp_ready s port endp p d r IfInit → endp_direction d = EdIn →
  (0 < n)%nat → Z.of_nat n <= MAX_TRANSFER_SIZE →
  dma_zeroed (Z.of_nat n) (x_world s) = (inr (phys, virt), w1) → u_range 64 phys →
  ∃ i r' dci, enqueue (transfer_trb phys 16 false (Z.of_nat n)) r = Some (Ok i, r') ∧
    endp_num_to_dci endp d = Ok dci ∧
    ∀ e w,
    xhc_doorbell (x_cmd s)
      (<[port := port_with endp r' (IfWaitingForDataPipe CdIn 0 (Z.of_nat n)) p]> (x_port_states s))
      (po_slot p) dci (dma_set phys (replicate n 0) w1) = ([e], w) →
    answers_trb e r' i →
    ∃ s', endp_transfer_read port endp n s
          = (Ok (mk_pts (if completion_code e =? completion_code_value CSuccess
                         then TkSuccess else TkShortPacket) (moved n e), dma_get w phys n), s') ∧
      endp_ready s' port endp (port_with endp r' IfInit p) d r' IfInit.
Proof.
  intros Hrd Hdir Hn0 Hn Hal Hph.
  destruct (client_read_step s port endp p d r n phys virt w1 Hrd Hdir Hn0 Hn Hal Hph) as (i & r' & dci & He & Hdci & Hx).
  exists i, r', dci. split; [done|]. split; [done|]. intros e w Hdb Ha.
  destruct (Hx e w Hdb Ha) as (s' & Hs & Hrd' & _). by exists s'.
Qed.
End roundtrip.

(** ** Instances

    A simple encoding that satisfies the laws, and a device with one bulk IN
    endpoint on port 0. *)

Definition all_bytes (bs : list Z) : bool := forallb (λ b, (0 <=? b) && (b <? 256)) bs.

Definition test_req_of_json (bs : list Z) : option XhciEndpCtlReq :=
  match bs with
  | [0; d; a; b; c; e] =>
      if all_bytes [a; b; c; e] then
        Some (CrTransfer (if d =? 0 then CdOut else if d =? 1 then CdIn else CdNoData)
                (le_val [a; b; c; e]))
      else None
  | [1; b] => Some (CrReset (b =? 1))
  | [2] => Some CrStatus
  | _ => None
  end.

Definition test_json_of_req (r : XhciEndpCtlReq) : list Z :=
  match r with
  | CrTransfer d n =>
      0 :: (match d with CdOut => 0 | CdIn => 1 | CdNoData => 2 end) :: le_bytes 4 n
  | CrReset b => [1; of_bool b]
  | CrStatus => [2]
  end.

Definition test_json_of_res (r : XhciEndpCtlRes) : list Z :=
  match r with
  | RsStatus s =>
      [0; match s with EsDisabled => 0 | EsEnabled => 1 | EsHalted => 2 | EsStopped => 3
                     | EsError => 4 end]
  | RsTransferResult st =>
      [1; match pts_kind st with TkSuccess => 0 | TkShortPacket => 1 | TkStalled => 2
                               | TkUnknown => 3 end; pts_bytes_transferred st]
  | RsPending => [2]
  | RsIdle => [3]
  end.

Definition test_res_of_json (bs : list Z) : option XhciEndpCtlRes :=
  match bs with
  | [0; k] =>
      Some (RsStatus (match k with 0 => EsDisabled | 1 => EsEnabled | 2 => EsHalted
                                 | 3 => EsStopped | _ => EsError end))
  | [1; k; n] =>
      Some (RsTransferResult (mk_pts
        (match k with 0 => TkSuccess | 1 => TkShortPacket | 2 => TkStalled | _ => TkUnknown end) n))
  | [2] => Some RsPending
  | [3] => Some RsIdle
  | _ => None
  end.

#[export] Instance test_json : EndpJson := {
  json_of_req := test_json_of_req;
  req_of_json := test_req_of_json;
  json_of_res := test_json_of_res;
  res_of_json := test_res_of_json;
}.

Lemma all_bytes_forall (bs : list Z) : all_bytes bs = true ↔ Forall is_byte bs.
Proof.
  unfold all_bytes. rewrite Forall_forall, forallb_forall. unfold is_byte.
  setoid_rewrite andb_true_iff. setoid_rewrite Z.leb_le. setoid_rewrite Z.ltb_lt.
  setoid_rewrite list_elem_of_In. done.
Qed.

#[export] Instance test_json_laws : EndpJsonLaws.
Proof.
  split.
  - intros [d n|b|] Hr.
    + cbn [json_of_req test_json test_json_of_req req_of_json].
      pose proof (le_bytes_range 4 n) as Hb. pose proof (le_val_bytes 4 n Hr) as Hv.
      cbn [le_bytes] in Hb, Hv |- *.
      destruct d; cbn [test_req_of_json]; rewrite (proj2 (all_bytes_forall _) Hb), Hv; done.
    + by destruct b.
    + done.
  - intros [s|[k n]| |]; [by destruct s|by destruct k|done|done].
  - intros buf d n Hr. cbn in Hr. unfold test_req_of_json in Hr.
    repeat (case_match; try done); simplify_eq;
      apply (le_val_range [_; _; _; _]); by apply all_bytes_forall.
  - intros [s|st| |]; cbn; lia.
Qed.

Definition usb_ring : Ring := mk_ring true (replicate 16 zero_trb) 0x20000 0x20000 0 true.

Definition test_dev_desc : DevDesc :=
  mk_dev_desc 1 0x0200 0 0 0 64 0x1234 0x5678 0x0100 None None None
    [mk_conf_desc 2 1 None 0x80 50 [mk_if_desc 4 0 0 8 6 80 None [bulk_in] []]].

Definition test_port (st : EndpIfState) : PortSt :=
  mk_port 1 (Some 0) (zero_input_ctx 0x30000) (Some test_dev_desc)
    {[ 1 := mk_es (RosRing usb_ring) st ]}.

Definition test_usb (events : list (list Trb)) (st : EndpIfState) : Xhci TestW :=
  test_hci events {[ 0 := test_port st ]}.

Lemma test_ready (events : list (list Trb)) (st : EndpIfState) :
  endp_ready (test_usb events st) 0 1 (test_port st) bulk_in usb_ring st.
Proof. split; try reflexivity; try lia. by split; [|cbn; lia]. Qed.

(** The event that answers the first TRB of the test ring, [k] bytes short. *)
Definition test_answer (c : TrbCompletionCode) (k : Z) : Trb := event_trb_of TTransfer c k 0x20000.

Lemma client_read_roundtrip_witness :
  let e := test_answer CShortPacket 3 in
  ∃ s', endp_transfer_read 0 1 13 (test_usb [[e]] IfInit)
        = (Ok (mk_pts TkShortPacket 10, replicate 13 0), s') ∧
        if_state 0 1 s' = Some IfInit.
Proof.
  intros e.
  destruct (client_read_roundtrip (test_usb [[e]] IfInit) 0 1 (test_port IfInit) bulk_in usb_ring 13
    0x100000 0x100000 (mk_test [[e]] ∅ 0x101000 [] [])) as (i & r' & dci & He & Hd & Hall).
  - apply test_ready.
  - reflexivity.
  - lia.
  - unfold MAX_TRANSFER_SIZE. lia.
  - reflexivity.
  - unfold u_range. lia.
  - vm_compute in He. injection He as <- <-. vm_compute in Hd. injection Hd as <-.
    destruct (Hall e (mk_test [] (mem_put 0x100000 (replicate 13 0) ∅) 0x101000 [] []))
      as (s' & Hr & Hrd).
    + reflexivity.
    + split; [reflexivity|]. split; [reflexivity|]. right. reflexivity.
    + exists s'. split; [rewrite Hr; vm_compute; reflexivity|].
      destruct Hrd as [_ _ _ Hp _ _ _ _ _ _]. unfold if_state. rewrite Hp. reflexivity.
Defined.

Lemma failed_transfer_wedges_witness :
  let e := test_answer CStall 0 in
  let s := test_usb [[e]] (IfWaitingForDataPipe CdIn 0 13) in
  let s' := (on_read_endp_data 0 1 13 s).2 in
  if_state 0 1 s' = Some (IfWaitingForDataPipe CdIn 0 13) ∧
  (on_write_endp_ctl 0 1 (json_of_req (CrReset false)) s').1 = Err (Sys EBADF).
Proof.
  intros e s s'.
  destruct (failed_transfer_wedges 0 1 s s' (Sys EIO) CdIn 0 13) as [Hi Hc].
  - reflexivity.
  - reflexivity.
  - right. exists 13%nat. vm_compute. reflexivity.
  - split; [exact Hi|]. apply (Hc (json_of_req (CrReset false)) (CrReset false)). reflexivity.
Defined.

Lemma ctl_requests_reenter_witness :
  (endp_status 0 1 (test_usb [] IfInit)).1 = Err (CeIo Waits) ∧
  (endp_reset 0 1 true (test_usb [] IfInit)) = (Err (CeIo Waits), test_usb [] IfInit).
Proof.
  destruct (ctl_requests_reenter 0 1 (test_usb [] IfInit) (test_port IfInit)
    (mk_es (RosRing usb_ring) IfInit) true) as (Hs & Hr & _); [reflexivity..|].
  split; [exact Hs|exact Hr].
Defined.

Lemma pipe_ok_test (events : list (list Trb)) : pipe_ok (test_usb events IfInit).
Proof.
  split; [done|]. intros port endp. unfold if_state, test_usb, test_hci. cbn [x_port_states].
  destruct (decide (port = 0)) as [->|Hp].
  - rewrite lookup_singleton_eq. cbn. destruct (decide (endp = 1)) as [->|He].
    + by rewrite lookup_singleton_eq.
    + by rewrite lookup_singleton_ne.
  - by rewrite lookup_singleton_ne.
Qed.

Lemma endpoint_counters_consistent_witness :
  pipe_ok (run_endp_ops [(0, 1, CtlWrite (json_of_req (CrTransfer CdIn 13))); (0, 1, DataRead 8);
                         (0, 1, CtlRead 256)] (test_usb [[test_answer CSuccess 0]] IfInit)).
Proof.
  apply (endpoint_counters_consistent (test_usb [[test_answer CSuccess 0]] IfInit)).
  apply pipe_ok_test.
Defined.

(** A transfer of 100000 bytes: two TRBs over the same 64 KiB. *)
Lemma transfer_td_spec_witness :
  let ls := lefts (td_fuel 100000) 100000 in
  ls = [100000; 34464] ∧ foldr Z.add 0 (chunk_len <$> ls) = 100000 ∧
  ∃ t0 t1, transfer_trb 0x100000 31 false 100000 true zero_trb = (Ok tt, t0) ∧
    transfer_trb 0x100000 31 false 34464 true zero_trb = (Ok tt, t1) ∧
    read_data t0 = 0x100000 ∧ read_data t1 = 0x100000 ∧ Z.testbit (control t0) 4 = true.
Proof.
  intros ls.
  destruct (transfer_td_spec 0x100000 31 false 100000 usb_ring (test_usb [] IfInit))
    as (_ & Hsum & Hall); [lia|unfold u_range; lia|unfold u_range; lia|].
  split; [reflexivity|]. split; [exact Hsum|].
  eexists _, _. split; [reflexivity|]. split; [reflexivity|].
  destruct (Hall 0%nat 100000 true zero_trb _ eq_refl eq_refl) as (H0 & _ & H2 & _).
  destruct (Hall 1%nat 34464 true zero_trb _ eq_refl eq_refl) as (H1 & _).
  split; [exact H0|]. split; [exact H1|exact H2].
Defined.
