(* ===== verification/XhciDesc.v ===== *)
(** USB descriptors: their layout, the parsing of a configuration and the
    description of a device that xhcid gives to the class drivers
    (xhcid/src/usb/*.rs, [AnyDescriptor] and [get_desc] of
    xhcid/src/xhci/scheme.rs, the [fetch_*] methods of xhcid/src/xhci/mod.rs).

    Descriptors are packed little-endian structures; reading one from bytes is
    [plain::from_bytes], whose only check is that there are enough of them
    ([plain_ok], a parameter).  How the compiler lays out the tuple
    [(u8, u8, [u16; 127])] of a string descriptor is a parameter too. *)

From S2P Require Import Prelude UsbSetup XhciTrb XhciRing XhciIface XhciHost XhciEndp.

(** The parts of the surroundings this file relies on. *)
Class Layouts := {
  (** [plain::from_bytes::<T>] on a slice: [size_of::<T>()], then the length. *)
  plain_ok : nat → nat → bool;
  (** The first [u8] and the [u16] array of the string tuple, from its bytes. *)
  str_tuple : list Z → Z * list Z;
}.

(** ** Packed structures *)

Definition u8_at (i : nat) (bs : list Z) : Z := default 0 (bs !! i).

Definition u16_at (i : nat) (bs : list Z) : Z := u8_at i bs + 256 * u8_at (i + 1) bs.

Definition u32_at (i : nat) (bs : list Z) : Z := u16_at i bs + 65536 * u16_at (i + 2) bs.

Record DeviceDescriptor := mk_device_descriptor {
  dvd_length : Z; dvd_kind : Z; dvd_usb : Z; dvd_class : Z; dvd_sub_class : Z; dvd_protocol : Z;
  dvd_packet_size : Z; dvd_vendor : Z; dvd_product : Z; dvd_release : Z;
  dvd_manufacturer_str : Z; dvd_product_str : Z; dvd_serial_str : Z; dvd_configurations : Z;
}.

Definition dec_device (bs : list Z) : DeviceDescriptor :=
  mk_device_descriptor (u8_at 0 bs) (u8_at 1 bs) (u16_at 2 bs) (u8_at 4 bs) (u8_at 5 bs)
    (u8_at 6 bs) (u8_at 7 bs) (u16_at 8 bs) (u16_at 10 bs) (u16_at 12 bs) (u8_at 14 bs)
    (u8_at 15 bs) (u8_at 16 bs) (u8_at 17 bs).

Record DeviceDescriptor8Byte := mk_device8 {
  d8_length : Z; d8_kind : Z; d8_usb : Z; d8_class : Z; d8_sub_class : Z; d8_protocol : Z;
  d8_packet_size : Z;
}.

Definition dec_device8 (bs : list Z) : DeviceDescriptor8Byte :=
  mk_device8 (u8_at 0 bs) (u8_at 1 bs) (u16_at 2 bs) (u8_at 4 bs) (u8_at 5 bs) (u8_at 6 bs)
    (u8_at 7 bs).

Definition minor_usb_vers (d : DeviceDescriptor) : Z := as_u8 (Z.land (dvd_usb d) 0xFF).

Definition major_usb_vers (d : DeviceDescriptor) : Z := as_u8 (Z.land (Z.shiftr (dvd_usb d) 8) 0xFF).

Record ConfigDescriptor := mk_config_descriptor {
  cfd_length : Z; cfd_kind : Z; cfd_total_length : Z; cfd_interfaces : Z;
  cfd_configuration_value : Z; cfd_configuration_str : Z; cfd_attributes : Z; cfd_max_power : Z;
}.

Definition dec_config (bs : list Z) : ConfigDescriptor :=
  mk_config_descriptor (u8_at 0 bs) (u8_at 1 bs) (u16_at 2 bs) (u8_at 4 bs) (u8_at 5 bs)
    (u8_at 6 bs) (u8_at 7 bs) (u8_at 8 bs).

Record InterfaceDescriptor := mk_interface_descriptor {
  ifd_length : Z; ifd_kind : Z; ifd_number : Z; ifd_alternate_setting : Z; ifd_endpoints : Z;
  ifd_class : Z; ifd_sub_class : Z; ifd_protocol : Z; ifd_interface_str : Z;
}.

Definition dec_interface (bs : list Z) : InterfaceDescriptor :=
  mk_interface_descriptor (u8_at 0 bs) (u8_at 1 bs) (u8_at 2 bs) (u8_at 3 bs) (u8_at 4 bs)
    (u8_at 5 bs) (u8_at 6 bs) (u8_at 7 bs) (u8_at 8 bs).

Record EndpointDescriptor := mk_endpoint_descriptor {
  epd_length : Z; epd_kind : Z; epd_address : Z; epd_attributes : Z; epd_max_packet_size : Z;
  epd_interval : Z;
}.

Definition dec_endpoint (bs : list Z) : EndpointDescriptor :=
  mk_endpoint_descriptor (u8_at 0 bs) (u8_at 1 bs) (u8_at 2 bs) (u8_at 3 bs) (u16_at 4 bs)
    (u8_at 6 bs).

Record HidDescriptor := mk_hid_descriptor {
  hid_length : Z; hid_kind : Z; hid_spec_release : Z; hid_country_code : Z;
  hid_num_descriptors : Z; hid_report_desc_ty : Z; hid_report_desc_len : Z;
  hid_optional_desc_ty : Z; hid_optional_desc_len : Z;
}.

Definition dec_hid (bs : list Z) : HidDescriptor :=
  mk_hid_descriptor (u8_at 0 bs) (u8_at 1 bs) (u16_at 2 bs) (u8_at 4 bs) (u8_at 5 bs) (u8_at 6 bs)
    (u16_at 7 bs) (u8_at 9 bs) (u16_at 10 bs).

Record SuperSpeedCompanionDescriptor := mk_sscd {
  sscd_length : Z; sscd_kind : Z; sscd_max_burst : Z; sscd_attributes : Z;
  sscd_bytes_per_interval : Z;
}.

Definition dec_sscd (bs : list Z) : SuperSpeedCompanionDescriptor :=
  mk_sscd (u8_at 0 bs) (u8_at 1 bs) (u8_at 2 bs) (u8_at 3 bs) (u16_at 4 bs).

Record SuperSpeedPlusIsochCmpDescriptor := mk_sspd {
  sspd_length : Z; sspd_kind : Z; sspd_reserved : Z; sspd_bytes_per_interval : Z;
}.

Definition dec_sspd (bs : list Z) : SuperSpeedPlusIsochCmpDescriptor :=
  mk_sspd (u8_at 0 bs) (u8_at 1 bs) (u16_at 2 bs) (u32_at 4 bs).

(** The [From] conversions to the driver interface. *)
Definition endp_desc_from (d : EndpointDescriptor) : EndpDesc :=
  mk_endp_desc (epd_kind d) (epd_address d) (epd_attributes d) (epd_max_packet_size d)
    (epd_interval d) None None.

Definition hid_desc_from (d : HidDescriptor) : HidDesc :=
  mk_hid_desc (hid_kind d) (hid_spec_release d) (hid_country_code d) (hid_num_descriptors d)
    (hid_report_desc_ty d) (hid_report_desc_len d) (hid_optional_desc_ty d)
    (hid_optional_desc_len d).

Definition ssc_from (d : SuperSpeedCompanionDescriptor) : SuperSpeedCmp :=
  mk_ssc (sscd_kind d) (sscd_max_burst d) (sscd_attributes d) (sscd_bytes_per_interval d).

Definition sspc_from (d : SuperSpeedPlusIsochCmpDescriptor) : SuperSpeedPlusIsochCmp :=
  mk_sspc (sspd_kind d) (sspd_bytes_per_interval d).

(** ** [AnyDescriptor] *)

Inductive AnyDescriptor : Type :=
| ADevice (d : DeviceDescriptor)
| AConfig (d : ConfigDescriptor)
| AInterface (d : InterfaceDescriptor)
| AEndpoint (d : EndpointDescriptor)
| AHid (d : HidDescriptor)
| ASuperSpeedCompanion (d : SuperSpeedCompanionDescriptor)
| ASuperSpeedPlusCompanion (d : SuperSpeedPlusIsochCmpDescriptor).

Section desc.
Context {W : Type} `{HC : Controller W} `{HJ : EndpJson} `{HL : Layouts}.

Abbreviation xp := (prog (Xhci W) fault).

(** [*plain::from_bytes(bytes).ok()?] *)
Definition from_bytes {A : Type} (size : nat) (dec : list Z → A) (bs : list Z) : option A :=
  if plain_ok size (length bs) then Some (dec bs) else None.

Definition parse (bytes : list Z) : option (AnyDescriptor * nat) :=
  if decide (length bytes < 2)%nat then None
  else
    let len := u8_at 0 bytes in
    let kind := u8_at 1 bytes in
    if decide (Z.of_nat (length bytes) < len) then None
    else
      d ← (if kind =? 1 then ADevice <$> from_bytes 18 dec_device bytes
           else if kind =? 2 then AConfig <$> from_bytes 9 dec_config bytes
           else if kind =? 4 then AInterface <$> from_bytes 9 dec_interface bytes
           else if kind =? 5 then AEndpoint <$> from_bytes 7 dec_endpoint bytes
           else if kind =? 33 then AHid <$> from_bytes 12 dec_hid bytes
           else if kind =? 48 then ASuperSpeedCompanion <$> from_bytes 6 dec_sscd bytes
           else if kind =? 49 then ASuperSpeedPlusCompanion <$> from_bytes 8 dec_sspd bytes
           else None);
      Some (d, Z.to_nat len).

(** The loop over the configuration data; [None] when [fuel] descriptors were
    not enough. *)
Fixpoint parse_all (fuel : nat) (data : list Z) (i : nat) : option (list AnyDescriptor) :=
  match parse (drop i data) with
  | None => Some []
  | Some (descriptor, len) =>
      match fuel with
      | O => None
      | S fuel => cons descriptor <$> parse_all fuel data (i + len)
      end
  end.

(** The endpoints (and HID descriptors) that follow an interface: how many are
    still wanted, the interface's class, what was collected.  [ss] and [ssp] are
    the constants [supports_superspeed] and [supports_superspeedplus]. *)
Fixpoint collect_endps (ss ssp : bool) (class : Z) (wanted : nat) (items : list AnyDescriptor)
    (eps : list EndpDesc) (hids : list HidDesc) {struct items}
    : list EndpDesc * list HidDesc * list AnyDescriptor :=
  match wanted with
  | O => (eps, hids, items)
  | S wanted' =>
      match items with
      | AEndpoint n :: items =>
          let endp := endp_desc_from n in
          if ss then
            match items with
            | ASuperSpeedCompanion c :: items =>
                let endp := mk_endp_desc (ed_kind endp) (ed_address endp) (ed_attributes endp)
                              (ed_max_packet_size endp) (ed_interval endp) (Some (ssc_from c)) None in
                if has_ssp_companion endp && ssp then
                  match items with
                  | ASuperSpeedPlusCompanion c' :: items =>
                      let endp := mk_endp_desc (ed_kind endp) (ed_address endp)
                                    (ed_attributes endp) (ed_max_packet_size endp)
                                    (ed_interval endp) (ed_ssc endp) (Some (sspc_from c')) in
                      collect_endps ss ssp class wanted' items (eps ++ [endp]) hids
                  | _ :: items => (eps, hids, items)
                  | [] => (eps, hids, [])
                  end
                else collect_endps ss ssp class wanted' items (eps ++ [endp]) hids
            | _ :: items => (eps, hids, items)
            | [] => (eps, hids, [])
            end
          else collect_endps ss ssp class wanted' items (eps ++ [endp]) hids
      | AHid h :: items =>
          if class =? 3 then
            collect_endps ss ssp class wanted items eps (hids ++ [hid_desc_from h])
          else (eps, hids, items)
      | _ :: items => (eps, hids, items)
      | [] => (eps, hids, [])
      end
  end.

(** ** Reading descriptors from the device *)

(** [String::from_utf16]: code points, or an error for a lone surrogate. *)
Fixpoint from_utf16 (us : list Z) : option ustr :=
  match us with
  | [] => Some []
  | u :: us =>
      if (u <? 0xD800) || (0xE000 <=? u) then cons u <$> from_utf16 us
      else if u <? 0xDC00 then
        match us with
        | v :: us =>
            if (0xDC00 <=? v) && (v <? 0xE000) then
              cons (0x10000 + (u - 0xD800) * 1024 + (v - 0xDC00)) <$> from_utf16 us
            else None
        | [] => None
        end
      else None
  end.

Definition force_clear_interrupt : xp unit :=
  modify (λ s, if xhc_ehb (x_world s) then set_world (xhc_clear_ehb (x_world s)) s else s).

(** [get_desc_raw] into a DMA buffer of the descriptor's size. *)
Definition get_desc_raw (port slot : Z) (kind : DescriptorKind) (index : Z) (desc : Dma) : xp unit :=
  pending ← gets (λ s, xhc_ehb (x_world s));
  _ ← (if (pending : bool) then force_clear_interrupt else mret tt);
  let len := as_u16 (Z.of_nat (dm_len desc)) in
  p ← get_port ENOENT port;
  es ← lift_opt (po_endpoint_states p !! 0) EIO;
  ring ← (match es_transfer es with RosRing r => mret r | RosStreams _ => panic end);
  '(first_index, ring) ← ring_put (setup (get_descriptor kind index 0 len) KIn) ring;
  '(_, ring) ← ring_put (data (dm_phys desc) len true) ring;
  '(last_index, ring) ← ring_put (status 0 false true false false) ring;
  _ ← put_port port (with_endpoint 0 (with_endp_ring ring 0 es) p);
  trbs ← next_transfer_event_trb (default_control_pipe (as_u8 port)) ring first_index last_index
           slot def_control_endp_doorbell;
  _ ← lift_opt (ne_src_trb trbs) EIO;
  lift_res (handle_transfer_event_trb (ne_event_trb trbs)).

(** Allocate, fetch, read. *)
Definition fetch_bytes (port slot : Z) (kind : DescriptorKind) (index : Z) (size : nat)
    : xp (list Z) :=
  desc ← alloc_dma_zeroed_unsized size;
  _ ← get_desc_raw port slot kind index desc;
  dma_bytes desc.

Definition fetch_dev_desc_8_byte (port slot : Z) : xp DeviceDescriptor8Byte :=
  bs ← fetch_bytes port slot DkDevice 0 8; mret (dec_device8 bs).

Definition fetch_dev_desc (port slot : Z) : xp DeviceDescriptor :=
  bs ← fetch_bytes port slot DkDevice 0 18; mret (dec_device bs).

(** The configuration descriptor and the 4087 bytes after it. *)
Definition fetch_config_desc (port slot config : Z) : xp (ConfigDescriptor * list Z) :=
  bs ← fetch_bytes port slot DkConfiguration config 4096;
  mret (dec_config bs, drop 9 bs).

Definition fetch_string_desc (port slot index : Z) : xp ustr :=
  bs ← fetch_bytes port slot DkString index 256;
  let '(len, units) := str_tuple bs in
  if 2 <? len then mret (default [] (from_utf16 (take (Z.to_nat ((len - 2) / 2)) units)))
  else mret [].

(** [Some(fetch..)] for a positive string index. *)
Definition opt_string (port slot index : Z) : xp (option ustr) :=
  if 0 <? index then s ← fetch_string_desc port slot index; mret (Some s) else mret None.

Definition new_if_desc (port slot : Z) (desc : InterfaceDescriptor) (endps : list EndpDesc)
    (hids : list HidDesc) : xp IfDesc :=
  s ← opt_string port slot (ifd_interface_str desc);
  mret (mk_if_desc (ifd_kind desc) (ifd_number desc) (ifd_alternate_setting desc) (ifd_class desc)
          (ifd_sub_class desc) (ifd_protocol desc) s endps hids).

(** The loop over the descriptors of a configuration; every pass takes at least
    one, so their number is fuel enough. *)
Fixpoint interfaces_loop (fuel : nat) (port slot : Z) (items : list AnyDescriptor)
    (acc : list IfDesc) : xp (list IfDesc) :=
  match items, fuel with
  | [], _ => mret acc
  | _, O => throw Waits
  | AInterface idesc :: items, S fuel =>
      let '(eps, hids, rest) :=
        collect_endps false false (ifd_class idesc) (Z.to_nat (ifd_endpoints idesc)) items [] [] in
      d ← new_if_desc port slot idesc eps hids;
      interfaces_loop fuel port slot rest (acc ++ [d])
  | _ :: _, S _ => mret acc
  end.

(** One configuration.  The parse loop has no bound of its own: [fuel]. *)
Definition get_config (fuel : nat) (port slot index : Z) : xp ConfDesc :=
  '(desc, data) ← fetch_config_desc port slot index;
  let extra_length := as_usize (cfd_total_length desc - 9) in
  if Z.of_nat (length data) <? extra_length then panic
  else
    let data := take (Z.to_nat extra_length) data in
    match parse_all fuel data 0 with
    | None => throw Waits
    | Some descriptors =>
        interface_descs ← interfaces_loop (length descriptors) port slot descriptors [];
        s ← opt_string port slot (cfd_configuration_str desc);
        mret (mk_conf_desc (cfd_kind desc) (cfd_configuration_value desc) s (cfd_attributes desc)
                (cfd_max_power desc) interface_descs)
    end.

Fixpoint get_configs (fuel : nat) (port slot : Z) (indices : list Z) : xp (list ConfDesc) :=
  match indices with
  | [] => mret []
  | i :: indices =>
      c ← get_config fuel port slot i;
      cs ← get_configs fuel port slot indices;
      mret (c :: cs)
  end.

(** Runs [m] while the guard of [ports] is alive. *)
Definition with_ports_locked {A : Type} (m : xp A) : xp A := λ s,
  let '(r, s') := m (set_ports_locked true s) in (r, set_ports_locked false s').

(** The guard of [ports] taken in the first line lives to the end. *)
Definition get_desc (fuel : nat) (port_id slot : Z) : xp DevDesc :=
  ports ← gets (λ s, xhc_portsc (x_world s));
  with_ports_locked (
    port ← lift_opt (ports !! Z.to_nat port_id) ENOENT;
    if negb (Z.testbit port 0) then sys ENOENT
    else
      raw_dd ← fetch_dev_desc port_id slot;
      manufacturer_str ← opt_string port_id slot (dvd_manufacturer_str raw_dd);
      product_str ← opt_string port_id slot (dvd_product_str raw_dd);
      serial_str ← opt_string port_id slot (dvd_serial_str raw_dd);
      config_descs ←
        get_configs fuel port_id slot (Z.of_nat <$> seq 0 (Z.to_nat (dvd_configurations raw_dd)));
      mret (mk_dev_desc (dvd_kind raw_dd) (dvd_usb raw_dd) (dvd_class raw_dd)
              (dvd_sub_class raw_dd) (dvd_protocol raw_dd) (dvd_packet_size raw_dd)
              (dvd_vendor raw_dd) (dvd_product raw_dd) (dvd_release raw_dd) manufacturer_str
              product_str serial_str config_descs)).
End desc.

(** ** Binary object store *)

Record BosDescriptor := mk_bos { bos_len : Z; bos_kind : Z; bos_total_len : Z; bos_cap_count : Z }.

Definition dec_bos (bs : list Z) : BosDescriptor :=
  mk_bos (u8_at 0 bs) (u8_at 1 bs) (u16_at 2 bs) (u8_at 4 bs).

Record BosDevDescriptorBase := mk_bos_base { bb_len : Z; bb_kind : Z; bb_cap_ty : Z }.

Definition dec_bos_base (bs : list Z) : BosDevDescriptorBase :=
  mk_bos_base (u8_at 0 bs) (u8_at 1 bs) (u8_at 2 bs).

Record BosSuperSpeedDesc := mk_bos_ss {
  bss_len : Z; bss_kind : Z; bss_cap_ty : Z; bss_attrs : Z; bss_speed_supp : Z; bss_func_supp : Z;
  bss_u1_dev_exit_lat : Z; bss_u2_dev_exit_lat : Z;
}.

Definition dec_bos_ss (bs : list Z) : BosSuperSpeedDesc :=
  mk_bos_ss (u8_at 0 bs) (u8_at 1 bs) (u8_at 2 bs) (u8_at 3 bs) (u16_at 4 bs) (u8_at 6 bs)
    (u8_at 7 bs) (u16_at 8 bs).

Record BosSuperSpeedPlusDesc := mk_bos_ssp {
  bsp_len : Z; bsp_kind : Z; bsp_cap_ty : Z; bsp_attrs : Z; bsp_func_supp : Z;
}.

Definition dec_bos_ssp (bs : list Z) : BosSuperSpeedPlusDesc :=
  mk_bos_ssp (u8_at 0 bs) (u8_at 1 bs) (u8_at 2 bs) (u32_at 4 bs) (u32_at 8 bs).

Definition ssac (d : BosSuperSpeedPlusDesc) : Z := as_u8 (Z.land (bsp_attrs d) 0x0000000F).

Record BosUsb2ExtDesc := mk_bos_usb2 { bu_len : Z; bu_kind : Z; bu_cap_ty : Z; bu_attrs : Z }.

Definition dec_bos_usb2 (bs : list Z) : BosUsb2ExtDesc :=
  mk_bos_usb2 (u8_at 0 bs) (u8_at 1 bs) (u8_at 2 bs) (u32_at 3 bs).

Inductive BosAnyDevDesc : Type :=
| BUsb2Ext (d : BosUsb2ExtDesc)
| BSuperSpeed (d : BosSuperSpeedDesc)
| BSuperSpeedPlus (d : BosSuperSpeedPlusDesc)
| BUnknown.

Definition bos_is_superspeed (d : BosAnyDevDesc) : bool :=
  match d with BSuperSpeed _ => true | _ => false end.

Definition bos_is_superspeedplus (d : BosAnyDevDesc) : bool :=
  match d with BSuperSpeedPlus _ => true | _ => false end.

Section bos.
Context `{HL : Layouts}.

(** [BosDevDescIter::next]: the item and the bytes that remain. *)
Definition bos_next (bytes : list Z) : option ((BosDevDescriptorBase * list Z) * list Z) :=
  match from_bytes 3 dec_bos_base bytes with
  | Some desc =>
      if decide (Z.of_nat (length bytes) < bb_len desc) then None
      else Some ((desc, take (Z.to_nat (bb_len desc)) bytes), drop (Z.to_nat (bb_len desc)) bytes)
  | None => None
  end.

(** [BosAnyDevDescIter::next]. *)
Definition bos_any_next (bytes : list Z) : option (BosAnyDevDesc * list Z) :=
  '((base, sl), rest) ← bos_next bytes;
  if bb_cap_ty base =? 0x02 then d ← from_bytes 7 dec_bos_usb2 sl; Some (BUsb2Ext d, rest)
  else if bb_cap_ty base =? 0x03 then d ← from_bytes 10 dec_bos_ss sl; Some (BSuperSpeed d, rest)
  else if bb_cap_ty base =? 0x0A then
    d ← from_bytes 14 dec_bos_ssp sl; Some (BSuperSpeedPlus d, rest)
  else if bb_cap_ty base =? 0 then None
  else Some (BUnknown, rest).

(** [.take(n)] of the iterator. *)
Fixpoint bos_take (n : nat) (bytes : list Z) : list BosAnyDevDesc :=
  match n with
  | O => []
  | S n =>
      match bos_any_next bytes with
      | Some (d, rest) => d :: bos_take n rest
      | None => []
      end
  end.

Definition bos_capability_descs (desc : BosDescriptor) (data : list Z)
    : res errno (list BosAnyDevDesc) :=
  let n := as_usize (bos_total_len desc - 5) in
  if Z.of_nat (length data) <? n then Panic
  else Ok (bos_take (Z.to_nat (bos_cap_count desc)) (take (Z.to_nat n) data)).
End bos.

(** ** The parse loop *)

Section parse_loop.
Context `{HL : Layouts}.
Implicit Types (data : list Z).

(** The positions at which the loop looks for a descriptor. *)
Inductive visited data : nat → Prop :=
| visited_0 : visited data 0
| visited_next i d len :
    visited data i → parse (drop i data) = Some (d, len) → visited data (i + len).

Lemma parse_len bytes d len : parse bytes = Some (d, len) → (len <= length bytes)%nat.
Proof.
  unfold parse. destruct (decide _); [done|]. destruct (decide _) as [|Hl]; [done|].
  intros (x & _ & [= _ <-])%bind_Some. lia.
Qed.

Lemma parse_all_zero fuel data i d :
  parse (drop i data) = Some (d, O) → parse_all fuel data i = None.
Proof.
  intros Hp. induction fuel as [|fuel IH]; cbn [parse_all]; rewrite Hp; [done|].
  by rewrite Nat.add_0_r, IH.
Qed.

(** Enough fuel for a stretch without empty descriptors. *)
Lemma parse_all_some fuel data i :
  visited data i → (∀ j d, visited data j → parse (drop j data) ≠ Some (d, O)) →
  (i <= length data)%nat → (length data - i <= fuel)%nat →
  ∃ ds, parse_all fuel data i = Some ds.
Proof.
  intros Hv Hne. revert i Hv. induction fuel as [|fuel IH]; intros i Hv Hi Hf; cbn [parse_all].
  - rewrite (drop_ge data i) by lia. by eexists.
  - destruct (parse (drop i data)) as [[d len]|] eqn:Hp; [|by eexists].
    pose proof (parse_len _ _ _ Hp) as Hl. rewrite length_drop in Hl.
    assert (len ≠ O) by (intros ->; by eapply Hne).
    destruct (IH (i + len)%nat) as [ds Hds]; [by econstructor|lia|lia|].
    rewrite Hds. by eexists.
Qed.

(** The loop passes through every visited position. *)
Lemma parse_all_through data j fuel ds :
  visited data j → parse_all fuel data 0 = Some ds →
  ∃ fuel' ds', parse_all fuel' data j = Some ds' ∧ (fuel' <= fuel)%nat.
Proof.
  intros Hv Hp. induction Hv as [|j d len Hv IH Hj]; [by eauto|].
  destruct IH as (f & ds' & Hf & Hle).
  destruct f as [|f]; cbn [parse_all] in Hf; rewrite Hj in Hf; [done|].
  destruct (parse_all f data (j + len)) as [ds2|] eqn:E; [|done]. exists f, ds2. split; [done|lia].
Qed.

(** The loop that splits a configuration into descriptors ends exactly when
    no recognised descriptor it comes to has [bLength] 0; as many passes as there
    are bytes are then enough.  At a recognised descriptor of length 0 it never
    advances again, however long it runs (and appends a copy each time). *)
Theorem parse_loop_termination data :
  ((∀ j d, visited data j → parse (drop j data) ≠ Some (d, O)) →
     ∃ ds, parse_all (length data) data 0 = Some ds) ∧
  (∀ j d, visited data j → parse (drop j data) = Some (d, O) →
     ∀ fuel, parse_all fuel data 0 = None).
Proof.
  split.
  - intros Hne. apply parse_all_some; [constructor|done|lia|lia].
  - intros j d Hv Hj fuel. destruct (parse_all fuel data 0) as [ds|] eqn:Hp; [|done].
    destruct (parse_all_through data j fuel ds Hv Hp) as (f & ds' & Hf & _).
    by rewrite (parse_all_zero f data j d Hj) in Hf.
Qed.
End parse_loop.

(** [plain::from_bytes] accepts a slice that is long enough. *)
Class LayoutLaws `{Layouts} := {
  plain_ok_iff : ∀ size len, plain_ok size len = true ↔ (size <= len)%nat;
}.

(** ** Encoding and parsing a configuration *)

Section roundtrip.
Context `{HL : Layouts} `{!LayoutLaws}.

(** The packed images of an interface and of an endpoint descriptor. *)
Definition enc_interface (d : InterfaceDescriptor) : list Z :=
  [ifd_length d; ifd_kind d; ifd_number d; ifd_alternate_setting d; ifd_endpoints d; ifd_class d;
   ifd_sub_class d; ifd_protocol d; ifd_interface_str d].

Definition enc_endpoint (d : EndpointDescriptor) : list Z :=
  [epd_length d; epd_kind d; epd_address d; epd_attributes d] ++ le_bytes 2 (epd_max_packet_size d)
    ++ [epd_interval d].

(** A configuration as the device sends it: each interface with its endpoints. *)
Definition if_item : Type := InterfaceDescriptor * list EndpointDescriptor.

Definition item_ok (it : if_item) : Prop :=
  ifd_length it.1 = 9 ∧ ifd_kind it.1 = 4 ∧ ifd_endpoints it.1 = Z.of_nat (length it.2) ∧
  ifd_interface_str it.1 = 0 ∧
  Forall (λ e, epd_length e = 7 ∧ epd_kind e = 5 ∧ u_range 16 (epd_max_packet_size e)) it.2.

Definition enc_item (it : if_item) : list Z := enc_interface it.1 ++ mjoin (enc_endpoint <$> it.2).

Definition enc_config (its : list if_item) : list Z := mjoin (enc_item <$> its).

Definition item_descs (it : if_item) : list AnyDescriptor :=
  AInterface it.1 :: (AEndpoint <$> it.2).

Lemma plain_ok_true size len : (size <= len)%nat → plain_ok size len = true.
Proof. apply plain_ok_iff. Qed.

Lemma parse_interface d rest :
  ifd_length d = 9 → ifd_kind d = 4 →
  parse (enc_interface d ++ rest) = Some (AInterface d, 9%nat).
Proof.
  intros Hl Hk. unfold parse. rewrite decide_False by (cbn; lia).
  cbn [enc_interface app u8_at lookup list_lookup default]. rewrite Hl, Hk.
  rewrite decide_False by (rewrite ?length_app; cbn; lia). unfold id. cbn [Z.eqb Pos.eqb].
  unfold from_bytes. rewrite plain_ok_true by (cbn; lia). cbn.
  destruct d; cbn in *; by subst.
Qed.

Lemma parse_endpoint d rest :
  epd_length d = 7 → epd_kind d = 5 → u_range 16 (epd_max_packet_size d) →
  parse (enc_endpoint d ++ rest) = Some (AEndpoint d, 7%nat).
Proof.
  intros Hl Hk Hm. unfold parse. rewrite decide_False by (cbn; lia).
  pose proof (le_val_bytes 2 _ Hm) as Hv. cbn [le_bytes le_val] in Hv.
  cbn [enc_endpoint le_bytes app u8_at lookup list_lookup default]. rewrite Hl, Hk.
  rewrite decide_False by (rewrite ?length_app; cbn; lia). unfold id. cbn [Z.eqb Pos.eqb].
  unfold from_bytes. rewrite plain_ok_true by (cbn; lia). cbn -[Z.mul Z.div Z.modulo Z.add].
  destruct d as [l k ad at_ mp iv]; cbn -[Z.mul Z.div Z.modulo Z.add] in *; subst.
  do 3 f_equal. unfold dec_endpoint, u16_at. cbn -[Z.mul Z.div Z.modulo Z.add].
  f_equal. lia.
Qed.

Lemma length_enc_endpoint d : length (enc_endpoint d) = 7%nat.
Proof. done. Qed.

(** The loop reads one encoded descriptor after the other. *)
Lemma parse_all_endpoints fuel pre eps rest ds :
  Forall (λ e, epd_length e = 7 ∧ epd_kind e = 5 ∧ u_range 16 (epd_max_packet_size e)) eps →
  parse_all fuel (pre ++ mjoin (enc_endpoint <$> eps) ++ rest)
    (length pre + 7 * length eps) = Some ds →
  parse_all (length eps + fuel) (pre ++ mjoin (enc_endpoint <$> eps) ++ rest) (length pre)
  = Some ((AEndpoint <$> eps) ++ ds).
Proof.
  intros Hok. revert pre. induction Hok as [|e eps (Hl & Hk & Hm) _ IH]; intros pre Hr.
  { by rewrite Nat.add_0_r in Hr. }
  change (mjoin (enc_endpoint <$> e :: eps)) with (enc_endpoint e ++ mjoin (enc_endpoint <$> eps)) in *.
  rewrite <- app_assoc in *. cbn [length Nat.add parse_all].
  rewrite drop_app_length. rewrite parse_endpoint by done.
  specialize (IH (pre ++ enc_endpoint e)). rewrite <- app_assoc, length_app, length_enc_endpoint in IH.
  rewrite IH; [done|]. rewrite <- Hr. f_equal. cbn [length]. lia.
Qed.

Lemma parse_all_items fuel pre its rest ds :
  Forall item_ok its →
  parse_all fuel (pre ++ enc_config its ++ rest) (length pre + length (enc_config its)) = Some ds →
  parse_all (length (mjoin (item_descs <$> its)) + fuel) (pre ++ enc_config its ++ rest) (length pre)
  = Some (mjoin (item_descs <$> its) ++ ds).
Proof.
  intros Hok. revert pre. induction Hok as [|[i eps] its (Hl & Hk & _ & _ & Heps) _ IH]; intros pre Hr.
  { by rewrite Nat.add_0_r in Hr. }
  unfold enc_config in *.
  change (mjoin (enc_item <$> (i, eps) :: its)) with
    ((enc_interface i ++ mjoin (enc_endpoint <$> eps)) ++ mjoin (enc_item <$> its)) in *.
  change (mjoin (item_descs <$> (i, eps) :: its)) with
    ((AInterface i :: (AEndpoint <$> eps)) ++ mjoin (item_descs <$> its)).
  rewrite <- !app_assoc in *. cbn [app length Nat.add parse_all].
  rewrite drop_app_length. rewrite parse_interface by done.
  rewrite length_app, length_fmap, <- Nat.add_assoc.
  pose proof (parse_all_endpoints (length (mjoin (item_descs <$> its)) + fuel)
    (pre ++ enc_interface i) eps (mjoin (enc_item <$> its) ++ rest)
    (mjoin (item_descs <$> its) ++ ds) Heps) as Hep.
  rewrite <- app_assoc in Hep. rewrite length_app in Hep. change (length (enc_interface i)) with 9%nat in Hep.
  rewrite Hep; [done|].
  assert (length (mjoin (enc_endpoint <$> eps)) = 7 * length eps)%nat as Hlen.
  { clear. induction eps as [|e eps IH]; [done|].
    change (mjoin (enc_endpoint <$> e :: eps)) with (enc_endpoint e ++ mjoin (enc_endpoint <$> eps)).
    rewrite length_app, IH, length_enc_endpoint. cbn [length]. lia. }
  specialize (IH (pre ++ enc_interface i ++ mjoin (enc_endpoint <$> eps))).
  rewrite <- !app_assoc in IH. rewrite !length_app, Hlen in IH.
  change (length (enc_interface i)) with 9%nat in IH.
  rewrite <- Nat.add_assoc. rewrite IH; [done|]. rewrite <- Hr. f_equal.
  rewrite !length_app, Hlen. change (length (enc_interface i)) with 9%nat. lia.
Qed.

Lemma collect_all class eps rest acc :
  collect_endps false false class (length eps) ((AEndpoint <$> eps) ++ rest) acc [] =
  (acc ++ (endp_desc_from <$> eps), [], rest).
Proof.
  revert acc. induction eps as [|e eps IH]; intros acc; cbn.
  - rewrite app_nil_r. by destruct rest.
  - rewrite IH. by rewrite <- app_assoc.
Qed.

(** What the class drivers are told of an interface. *)
Definition item_desc (it : if_item) : IfDesc :=
  mk_if_desc (ifd_kind it.1) (ifd_number it.1) (ifd_alternate_setting it.1) (ifd_class it.1)
    (ifd_sub_class it.1) (ifd_protocol it.1) None (endp_desc_from <$> it.2) [].

Context {W : Type} `{HC : Controller W} `{HJ : EndpJson}.

Lemma interfaces_loop_items port slot its acc (s : Xhci W) fuel :
  Forall item_ok its → (length its <= fuel)%nat →
  interfaces_loop fuel port slot (mjoin (item_descs <$> its)) acc s
  = (Ok (acc ++ (item_desc <$> its)), s).
Proof.
  intros Hok. revert acc fuel.
  induction Hok as [|[i eps] its (_ & _ & Hn & Hs & _) _ IH]; intros acc fuel Hf.
  { rewrite app_nil_r. by destruct fuel. }
  change (mjoin (item_descs <$> (i, eps) :: its)) with
    (AInterface i :: (AEndpoint <$> eps) ++ mjoin (item_descs <$> its)).
  destruct fuel as [|fuel]; [cbn in Hf; lia|]. cbn [interfaces_loop]. cbn [fst snd] in *.
  rewrite Hn, Nat2Z.id, collect_all. cbn [app].
  unfold new_if_desc, opt_string. rewrite Hs. cbn [Z.ltb Z.compare].
  unfold mbind, prog_bind. erewrite bind_Ok by (erewrite bind_Ok by reflexivity; reflexivity).
  rewrite IH by (cbn in Hf; lia). by rewrite <- app_assoc.
Qed.

(** A configuration survives the trip from the device to the class driver:
    the bytes of interfaces, each followed by as many endpoint descriptors as it
    announces, are split into exactly those descriptors within as many passes as
    there are bytes, and grouped into one interface description each, with its
    endpoints in order. *)
Theorem config_roundtrip port slot its (s : Xhci W) :
  Forall item_ok its →
  ∃ ds, parse_all (length (enc_config its)) (enc_config its) 0 = Some ds ∧
        interfaces_loop (length ds) port slot ds [] s = (Ok (item_desc <$> its), s).
Proof.
  intros Hok. exists (mjoin (item_descs <$> its)).
  assert (length (mjoin (item_descs <$> its)) <= length (enc_config its) ∧
          length its <= length (mjoin (item_descs <$> its)))%nat as [Hle Hle'].
  { unfold enc_config. clear. induction its as [|[i eps] its [IH1 IH2]]; [cbn; lia|].
    change (mjoin (enc_item <$> (i, eps) :: its)) with
      ((enc_interface i ++ mjoin (enc_endpoint <$> eps)) ++ mjoin (enc_item <$> its)).
    change (mjoin (item_descs <$> (i, eps) :: its)) with
      ((AInterface i :: (AEndpoint <$> eps)) ++ mjoin (item_descs <$> its)).
    rewrite !length_app. change (length (enc_interface i)) with 9%nat.
    assert (length eps <= length (mjoin (enc_endpoint <$> eps)))%nat.
    { clear. induction eps as [|e eps IH]; [done|].
      change (mjoin (enc_endpoint <$> e :: eps)) with (enc_endpoint e ++ mjoin (enc_endpoint <$> eps)).
      rewrite length_app, length_enc_endpoint. cbn [length]. lia. }
    cbn [length]. rewrite length_fmap. lia. }
  split.
  - pose proof (parse_all_items (length (enc_config its) - length (mjoin (item_descs <$> its)))
      [] its [] [] Hok) as Hp.
    cbn [app length Nat.add] in Hp. rewrite !app_nil_r in Hp.
    rewrite Nat.add_comm, Nat.sub_add in Hp by done. apply Hp.
    destruct (length (enc_config its) - _)%nat; cbn [parse_all];
      by rewrite drop_ge by lia.
  - by apply interfaces_loop_items.
Qed.
End roundtrip.

(** ** A port change during enumeration *)

Section hang.
Context {W : Type} `{HC : Controller W} `{HJ : EndpJson} `{HL : Layouts}.

Lemma ring_put_ok f mk r (s : Xhci W) :
  builds f mk → ring_shape r →
  ∃ i r', ring_put f r s = (Ok (i, r'), s) ∧ ring_shape r' ∧ same_place r r' ∧
    rg_trbs r' !! i = Some (mk (rg_cycle r')).
Proof.
  intros Hb Hr. destruct (enqueue_shape f mk r Hb Hr) as (i & r' & He & Hs & Hp & Hi).
  exists i, r'. split; [|done]. unfold ring_put. rewrite He. reflexivity.
Qed.

Lemma builds_setup stp k :
  setup_wf stp → builds (setup stp k) (λ c, (setup stp k c zero_trb).2).
Proof. intros Hs. apply (builds_op (OpSetup stp k)). intros c. by split_and!. Qed.

Lemma builds_data b l i :
  u_range 64 b → u_range 16 l → builds (data b l i) (λ c, (data b l i c zero_trb).2).
Proof. intros Hb Hl. apply (builds_op (OpData b l i)). intros c. by split_and!. Qed.

Lemma builds_status i :
  builds (status 0 i true false false) (λ c, (status 0 i true false false c zero_trb).2).
Proof. apply (builds_op (OpStatus 0 i true false false)). intros c. split_and!; try done. Qed.

(** A port status change that carries a port number. *)
Definition port_change (e : Trb) : Prop :=
  trb_type e = trb_type_code TPortStatusChange ∧
  completion_code e ≠ completion_code_value CInvalid ∧ has_completion_trb_pointer e = true.

(** While [ports] is locked, a port change in front of the answer stops the
    reactor, and the answer never arrives. *)
Lemma await_locked_hangs kind b i d e rest w' (s : Xhci W) :
  x_ports_locked s = true → port_change e → x_messages s !! x_next_id s = None →
  xhc_doorbell (x_cmd s) (x_port_states s) i d (x_world s) = (e :: rest, w') →
  (await_event kind b i d s).1 = Err Waits.
Proof.
  intros Hlock (Hty & Hcc & Hptr) Hmsg Hdb. unfold await_event.
  cbn [x_next_id x_cmd x_port_states x_world x_states set_next_id set_states]. rewrite Hdb.
  assert (∃ s2, (reactor_thread (e :: rest) (set_world w' (set_next_id (x_next_id s + 1)
    (set_states (x_states s ++ [mk_state (x_next_id s) kind b]) s)))).2 = s2 ∧
    x_messages s2 = x_messages s) as (s2 & -> & Hm).
  { unfold reactor_thread. cbn [x_reactor_alive set_world set_next_id set_states].
    destruct (x_reactor_alive s); [|eexists; split; reflexivity].
    cbn [reactor_run]. rewrite (proj2 (Z.eqb_neq _ _) Hcc).
    unfold check_event_ring_full. rewrite Hty. cbn [Z.eqb andb trb_type_code Pos.eqb].
    unfold handle_port_status_change, port_status_change_port_id. rewrite Hptr.
    unfold mbind, prog_bind, p_bind, modify, clear_csc.
    cbn [x_ports_locked set_enumerate set_world set_next_id set_states]. rewrite Hlock.
    eexists. split; reflexivity. }
  rewrite Hm, Hmsg. done.
Qed.

Lemma err_pair {A : Type} (m : prog (Xhci W) fault A) f s :
  (m s).1 = Err f → m s = (Err f, (m s).2).
Proof. destruct (m s) as [r s']. by intros [= ->]. Qed.

Lemma raw_desc_hangs (s : Xhci W) port slot p r st phys e :
  x_guard s = None → x_messages s = ∅ → x_ports_locked s = true →
  x_port_states s !! port = Some p → po_endpoint_states p !! 0 = Some (mk_es (RosRing r) st) →
  ring_shape r → u_range 64 phys → xhc_ehb (x_world s) = false → port_change e →
  (∀ cmd ports i d, ∃ rest w', xhc_doorbell cmd ports i d (x_world s) = (e :: rest, w')) →
  (get_desc_raw port slot DkDevice 0 (mk_dma phys 18) s).1 = Err Waits.
Proof.
  intros Hg Hmsg Hlock Hp He Hr Hph Hehb Hpc Hdb.
  unfold get_desc_raw, mbind, prog_bind. erewrite bind_Ok by reflexivity.
  rewrite Hehb. erewrite bind_Ok by reflexivity.
  rewrite (bind_Ok _ _ _ _ _ (get_port_ok ENOENT port s p ltac:(by rewrite Hg) Hp)).
  rewrite He. unfold lift_opt at 1. erewrite bind_Ok by reflexivity. cbn [es_transfer].
  erewrite bind_Ok by reflexivity. cbn [dm_phys dm_len].
  destruct (ring_put_ok _ _ r s (builds_setup (get_descriptor DkDevice 0 0 18) KIn
    ltac:(vm_compute; split_and!; discriminate || reflexivity)) Hr)
    as (i1 & r1 & E1 & Hr1 & (_ & _ & Hl1) & Hi1).
  rewrite (bind_Ok _ _ _ _ _ E1). cbv beta iota.
  destruct (ring_put_ok _ _ r1 s (builds_data phys 18 true Hph ltac:(unfold u_range; lia)) Hr1)
    as (i2 & r2 & E2 & Hr2 & (_ & _ & Hl2) & _).
  rewrite (bind_Ok _ _ _ _ _ E2). cbv beta iota.
  destruct (ring_put_ok _ _ r2 s (builds_status false) Hr2)
    as (i3 & r3 & E3 & Hr3 & (_ & _ & Hl3) & Hi3).
  rewrite (bind_Ok _ _ _ _ _ E3). cbv beta iota. erewrite bind_Ok by reflexivity.
  assert (i1 < length (rg_trbs r3))%nat
    by (rewrite <- Hl3, <- Hl2; by eapply lookup_lt_Some).
  assert (i3 < length (rg_trbs r3))%nat by (by eapply lookup_lt_Some).
  match goal with |- context [p_bind _ _ ?q] => set (s3 := q) end.
  assert (∀ k b i d, await_event k b i d s3 = (Err Waits, (await_event k b i d s3).2)) as Haw.
  { intros k b i d. destruct (Hdb (x_cmd s3) (x_port_states s3) i d) as (rest & w' & Hd).
    apply err_pair. apply (await_locked_hangs k b i d e rest w'); [exact Hlock|exact Hpc| |exact Hd].
    change (x_messages s !! x_next_id s3 = None). by rewrite Hmsg. }
  erewrite bind_Err; [reflexivity|].
  unfold next_transfer_event_trb, mbind, prog_bind. rewrite Hi3. erewrite bind_Ok by reflexivity.
  assert (is_transfer_trb (status 0 false true false false (rg_cycle r3) zero_trb).2 = true) as ->
    by (by destruct (rg_cycle r3)).
  cbn [negb]. unfold trb_virt. rewrite !trb_ptr_of_entry by done.
  erewrite bind_Ok by reflexivity. erewrite bind_Ok by reflexivity. apply Haw.
Qed.

(** The description of a device is read while the driver owns the lock of the
    port registers, which the reactor needs for a port status change.  If such a
    change (another device being plugged in or out) is posted before the answer
    to the first descriptor request, the enumeration never returns. *)
Theorem enumeration_hangs_on_port_change (s : Xhci W) fuel port slot p r st sc phys virt w1 e :
  x_guard s = None → x_messages s = ∅ →
  xhc_portsc (x_world s) !! Z.to_nat port = Some sc → Z.testbit sc 0 = true →
  x_port_states s !! port = Some p → po_endpoint_states p !! 0 = Some (mk_es (RosRing r) st) →
  ring_shape r →
  dma_zeroed 18 (x_world s) = (inr (phys, virt), w1) → u_range 64 phys →
  let w2 := dma_set phys (replicate 18 0) w1 in
  xhc_ehb w2 = false → port_change e →
  (∀ cmd ports i d, ∃ rest w', xhc_doorbell cmd ports i d w2 = (e :: rest, w')) →
  (get_desc fuel port slot s).1 = Err Waits.
Proof.
  intros Hg Hmsg Hport Hccs Hp He Hr Hal Hph w2 Hehb Hpc Hdb.
  unfold get_desc, mbind, prog_bind. erewrite bind_Ok by reflexivity.
  unfold with_ports_locked. rewrite Hport.
  set (s0 := set_ports_locked true s).
  assert ((fetch_dev_desc port slot s0).1 = Err Waits) as Hf.
  2:{ unfold lift_opt. erewrite bind_Ok by reflexivity. rewrite Hccs. cbn [negb].
      unfold p_bind at 1. destruct (fetch_dev_desc port slot s0) as [[x|x|] s1]; cbn [fst] in Hf; try done.
      by injection Hf as ->. }
  set (s1 := set_world (dma_set phys (replicate 18 0) w1) s0).
  assert ((get_desc_raw port slot DkDevice 0 (mk_dma phys 18) s1).1 = Err Waits) as Hraw.
  { eapply (raw_desc_hangs s1 port slot p r st phys e); done. }
  apply err_pair in Hraw. unfold fetch_dev_desc, fetch_bytes, mbind, prog_bind.
  erewrite bind_Err; [reflexivity|]. erewrite bind_Ok.
  2:{ unfold alloc_dma_zeroed_unsized. cbn [x_world set_ports_locked s0].
      change (Z.of_nat 18) with 18. rewrite Hal. reflexivity. }
  erewrite bind_Err; [reflexivity|]. exact Hraw.
Qed.
End hang.

(** ** A packed layout *)

#[export] Instance test_layouts : Layouts := {
  plain_ok := Nat.leb;
  str_tuple := λ bs, (u8_at 0 bs, (λ i, u16_at (2 + 2 * i) bs) <$> seq 0 127);
}.

#[export] Instance test_layout_laws : LayoutLaws.
Proof. split. apply Nat.leb_le. Qed.

Definition test_item : if_item :=
  (mk_interface_descriptor 9 4 0 0 1 3 1 2 0, [mk_endpoint_descriptor 7 5 0x81 3 4 10]).

Lemma config_roundtrip_witness :
  ∃ ds, parse_all 16 [9; 4; 0; 0; 1; 3; 1; 2; 0; 7; 5; 129; 3; 4; 0; 10] 0 = Some ds ∧
        interfaces_loop (length ds) 0 1 ds [] (test_hci [] ∅) =
          (Ok [item_desc test_item], test_hci [] ∅).
Proof.
  apply (config_roundtrip 0 1 [test_item]). constructor; [|constructor].
  split_and!; try reflexivity. constructor; [|constructor]. split_and!; [reflexivity|reflexivity|vm_compute; split; [discriminate|reflexivity]].
Defined.

Definition test_change : Trb := event_trb_of TPortStatusChange CSuccess 0 0x02000000.

(** A device that only its default pipe has been set up for. *)
Definition new_port : PortSt :=
  mk_port 1 None (zero_input_ctx 0x30000) None {[ 0 := mk_es (RosRing usb_ring) IfInit ]}.

Definition test_enum : Xhci TestW :=
  mk_xhci (mk_test [[test_change]] ∅ 0x100000 [0x201] []) {[ 0 := new_port ]} None
    (mk_ring true (replicate 256 zero_trb) 0x10000 0x7000 0 true) [] ∅ 0 true [] false.

Lemma enumeration_hangs_on_port_change_witness : (get_desc 100 0 1 test_enum).1 = Err Waits.
Proof.
  eapply (enumeration_hangs_on_port_change test_enum 100 0 1 new_port usb_ring IfInit
    0x201 0x100000 0x100000 _ test_change); try reflexivity.
  - split; [reflexivity|]. simpl. lia.
  - done.
  - split; [reflexivity|]. split; [discriminate|reflexivity].
  - intros cmd ports i d. eexists _, _. reflexivity.
Defined.
