(* ===== verification/XhciConf.v ===== *)
(** Attaching and configuring a device (xhcid/src/xhci/mod.rs: [attach_device] to
    [address_device], xhcid/src/xhci/scheme.rs: [configure_endpoints],
    xhcid/src/xhci/context.rs, xhcid/src/xhci/device_enumerator.rs).

    The input context of a port is a record in its state; [flush_input] is its
    image in the DMA memory, which is what the controller reads when it executes
    a command that points there.  What the port registers do while the driver
    polls or sleeps is the class [PortTime].  The start and the end of the class
    drivers' processes are not part of the state. *)

From S2P Require Import Prelude UsbSetup XhciTrb XhciRing XhciIface XhciHost XhciEndp XhciDesc.

(** The JSON text of a configuration request, and the passing of time. *)
Class ConfJson := { conf_of_json : list Z → option ConfigureEndpointsReq }.

Class PortTime (W : Type) := {
  (** Polling [PORT_PRC] of a port until it is set or a second has passed. *)
  reset_wait : nat → W → W;
  (** The 16 milliseconds after a reset. *)
  reset_settle : W → W;
}.

Section conf.
Context {W : Type} `{Controller W} `{ConfJson} `{PortTime W}.

Abbreviation xp := (prog (Xhci W) fault).

(** ** Memory *)

(** [Dma::zeroed]: the physical and the virtual address of [n] zero bytes. *)
Definition alloc_zeroed (n : Z) : xp (Z * Z) := λ s,
  match dma_zeroed n (x_world s) with
  | (inr a, w) => (Ok a, set_world w s)
  | (inl e, w) => (Err (Sys e), set_world w s)
  end.

(** [Ring::new(ac64, len, link)]. *)
Definition alloc_ring (len : nat) (lnk : bool) : xp Ring :=
  a ← alloc_zeroed (TRB_SIZE * Z.of_nat len);
  lift_res (ring_new (λ _, inr a) len lnk).

Definition words_bytes (ws : list Z) : list Z := mjoin (le_bytes 4 <$> ws).

Definition endp_ctx_words (c : EndpointContext) : list Z :=
  [ec_a c; ec_b c; ec_trl c; ec_trh c; ec_c c; 0; 0; 0].

Definition slot_ctx_words (c : SlotContext) : list Z :=
  [sl_a c; sl_b c; sl_c c; sl_d c; 0; 0; 0; 0].

Definition input_ctx_words (c : InputContext) : list Z :=
  [ic_drop_context c; ic_add_context c; 0; 0; 0; 0; 0; ic_control c]
    ++ slot_ctx_words (ic_slot c) ++ mjoin (endp_ctx_words <$> ic_endpoints c).

Definition flush_input (c : InputContext) : xp unit :=
  modify (λ s, set_world (dma_set (ic_phys c) (words_bytes (input_ctx_words c)) (x_world s)) s).

(** ** Contexts *)

Definition sca_new (count : Z) : xp StreamContextArray :=
  '(phys, _) ← alloc_zeroed (16 * count);
  mret (mk_sca phys (replicate (Z.to_nat count) (0, 0)) ∅).

Definition sca_add_ring (stream_id : Z) (lnk : bool) (a : StreamContextArray)
    : xp StreamContextArray :=
  if stream_id =? 0 then panic
  else
    ring ← alloc_ring 16 lnk;
    let pointer := register ring in
    if negb (Z.land pointer (Z.lnot 0xE) =? pointer) then panic
    else
      _ ← unwrap (sca_contexts a !! Z.to_nat stream_id);
      mret (mk_sca (sca_phys a)
        (<[Z.to_nat stream_id := (Z.lor (as_u32 pointer) (Z.shiftl (sct_code PrimaryRing) 1),
                                  as_u32 (Z.shiftr pointer 32))]> (sca_contexts a))
        (<[stream_id := ring]> (sca_rings a))).

Definition sca_register (a : StreamContextArray) : Z := sca_phys a.

(** The context base address array and the context of every slot. *)
Record DeviceContextList := mk_dcl { dcl_phys : Z; dcl_dcbaa : list Z; dcl_contexts : list Z }.

Fixpoint dcl_loop (n i : nat) (dcbaa contexts : list Z) : xp (list Z * list Z) :=
  match n with
  | O => mret (dcbaa, contexts)
  | S n =>
      '(phys, _) ← alloc_zeroed 1024;
      _ ← unwrap (dcbaa !! i);
      dcl_loop n (S i) (<[i := phys]> dcbaa) (contexts ++ [phys])
  end.

Definition device_context_list_new (max_slots : Z) : xp DeviceContextList :=
  '(phys, _) ← alloc_zeroed 2048;
  '(dcbaa, contexts) ← dcl_loop (Z.to_nat max_slots) 0 (replicate 256 0) [];
  mret (mk_dcl phys dcbaa contexts).

Definition dcbaap (l : DeviceContextList) : Z := dcl_phys l.

Record ScratchpadBufferArray := mk_scratch { sp_entries_phys : Z; sp_entries : list (Z * Z) }.

(** [entry.set_addr] of one page. *)
Definition scratch_entry (addr : Z) : Z * Z := (as_u32 addr, as_u32 (Z.shiftr addr 32)).

Fixpoint scratch_loop (n : nat) (acc : list (Z * Z)) : xp (list (Z * Z)) :=
  match n with
  | O => mret acc
  | S n =>
      '(phys, _) ← alloc_zeroed 4096;
      if negb (phys mod 4096 =? 0) then panic else scratch_loop n (acc ++ [scratch_entry phys])
  end.

Definition scratchpad_new (entries : Z) : xp ScratchpadBufferArray :=
  '(phys, _) ← alloc_zeroed (8 * entries);
  es ← scratch_loop (Z.to_nat entries) [];
  mret (mk_scratch phys es).

Definition setup_scratchpads (buf_count : Z) (l : DeviceContextList)
    : xp (DeviceContextList * option ScratchpadBufferArray) :=
  if buf_count =? 0 then mret (l, None)
  else
    arr ← scratchpad_new buf_count;
    mret (mk_dcl (dcl_phys l) (<[0%nat := sp_entries_phys arr]> (dcl_dcbaa l)) (dcl_contexts l),
          Some arr).

(** ** Endpoint configuration *)

Definition with_input (f : InputContext → InputContext) (p : PortSt) : PortSt :=
  mk_port (po_slot p) (po_cfg_idx p) (f (po_input_context p)) (po_dev_desc p)
    (po_endpoint_states p).

Definition with_cfg_idx (c : option Z) (p : PortSt) : PortSt :=
  mk_port (po_slot p) c (po_input_context p) (po_dev_desc p) (po_endpoint_states p).

Definition with_dev_desc (d : option DevDesc) (p : PortSt) : PortSt :=
  mk_port (po_slot p) (po_cfg_idx p) (po_input_context p) d (po_endpoint_states p).

Definition set_endp_ctx (i : nat) (c : EndpointContext) (ic : InputContext) : InputContext :=
  mk_input_ctx (ic_phys ic) (ic_drop_context ic) (ic_add_context ic) (ic_control ic) (ic_slot ic)
    (<[i := c]> (ic_endpoints ic)).

Definition set_add_context (v : Z) (ic : InputContext) : InputContext :=
  mk_input_ctx (ic_phys ic) (ic_drop_context ic) v (ic_control ic) (ic_slot ic) (ic_endpoints ic).

(** The number of endpoints over all interfaces and the largest context index. *)
Fixpoint count_endpoints (count entries : Z) (eps : list EndpDesc) : res errno (Z * Z) :=
  match eps with
  | [] => Ok (count, entries)
  | e :: eps =>
      let count := as_u8 (count + 1) in
      match endp_num_to_dci count e with
      | Ok entry => count_endpoints count (if entries <? entry then entry else entries) eps
      | Err x => Err x
      | Panic => Panic
      end
  end.

Definition all_endpoints (c : ConfDesc) : list EndpDesc :=
  mjoin (id_endpoints <$> cd_interface_descs c).

Definition CONTEXT_ENTRIES_MASK : Z := 0xF8000000.
Definition CONTEXT_ENTRIES_SHIFT : Z := 27.

(** The slot context and the control word of the input context. *)
Definition conf_slot (entries configuration_value : Z) (req : ConfigureEndpointsReq)
    (ic : InputContext) : InputContext :=
  let sl := ic_slot ic in
  mk_input_ctx (ic_phys ic) 0 1
    (if hc_cie then
       Z.lor (Z.lor (Z.shiftl (default 0 (cer_alternate_setting req)) 16)
                (Z.shiftl (default 0 (cer_interface_desc req)) 8)) configuration_value
     else 0)
    (mk_slot_ctx
       (Z.lor (Z.ldiff (sl_a sl) CONTEXT_ENTRIES_MASK)
          (Z.land (as_u32 (Z.shiftl entries CONTEXT_ENTRIES_SHIFT)) CONTEXT_ENTRIES_MASK))
       (sl_b sl) (sl_c sl) (sl_d sl))
    (ic_endpoints ic).

Definition primary_streams_of (streams : option Z) : Z :=
  match streams with
  | Some log_max_streams =>
      if negb (hc_max_psa_size =? 0)
      then as_u8 (Z.min log_max_streams (as_u8 (hc_max_psa_size + 1)) - 1) else 0
  | None => 0
  end.

(** The average TRB length by endpoint type. *)
Definition avg_trb_len (d : EndpDesc) : xp Z :=
  match ty d with
  | Ctrl => sys EIO
  | Bulk | Isoch => mret 3072
  | Interrupt => mret 1024
  end.

(** The words of an endpoint context. *)
Definition endp_ctx_of (mult primary_streams interval esit ep_ty burst mps ring_ptr avg : Z)
    : EndpointContext :=
  let linear := negb (primary_streams =? 0) in
  mk_endp_ctx
    (as_u32 (Z.lor (Z.lor (Z.lor (Z.lor (Z.shiftl mult 8) (Z.shiftl primary_streams 10))
        (Z.shiftl (of_bool linear) 15)) (Z.shiftl interval 16))
        (Z.shiftl (as_u8 (Z.shiftr (Z.land esit 0x00FF0000) 16)) 24)))
    (as_u32 (Z.lor (Z.lor (Z.lor (Z.lor (Z.shiftl 3 1) (Z.shiftl ep_ty 3)) (Z.shiftl (of_bool false) 7))
        (Z.shiftl burst 8)) (Z.shiftl mps 16)))
    (as_u32 ring_ptr) (as_u32 (Z.shiftr ring_ptr 32))
    (Z.lor avg (as_u32 (Z.shiftl (as_u16 esit) 16))).

(** The transfer ring or the stream array of a new endpoint, and its address. *)
Definition new_transfer (streams : option Z) (primary_streams : Z) : xp (RingOrStreams * Z) :=
  '(t, ptr) ←
    (match streams with
     | Some _ =>
         array ← sca_new (Z.shiftl 1 (primary_streams + 1));
         array ← sca_add_ring 1 true array;
         mret (RosStreams array, sca_register array)
     | None =>
         ring ← alloc_ring 16 true;
         mret (RosRing ring, register ring)
     end);
  if negb (Z.land ptr 0xFFFFFFFFFFFFFF81 =? ptr) then panic else mret (t, ptr).

(** One pass of the loop over the endpoints. *)
Definition conf_endp (port : Z) (speed_id : ProtocolSpeed) (endp_idx : Z) : xp unit :=
  let endp_num := as_u8 (endp_idx + 1) in
  p ← get_port EBADFD port;
  dev_desc ← unwrap (po_dev_desc p);
  d ← lift_opt (get_endp_desc (po_cfg_idx p) (po_dev_desc p) endp_idx) EIO;
  endp_num_xhc ← lift_res (endp_num_to_dci endp_num d);
  let streams := log_max_streams d in
  let primary_streams := primary_streams_of streams in
  let mult := isoch_mult hc_lec d in
  let max_packet_size := endp_ctx_max_packet_size d in
  max_burst_size ← lift_res (endp_ctx_max_burst speed_id dev_desc d);
  max_esit_payload ←
    lift_res (endp_ctx_max_esit_payload speed_id dev_desc d max_packet_size max_burst_size);
  let interval := endp_ctx_interval speed_id d in
  ep_ty ← lift_res (xhci_ep_type d);
  avg ← avg_trb_len d;
  if negb (Z.land ep_ty 0x7 =? ep_ty) || negb (Z.land mult 0x3 =? mult) || (ep_ty =? 0) then panic
  else
    '(t, ring_ptr) ← new_transfer streams primary_streams;
    let p := with_endpoint endp_num (mk_es t IfInit) p in
    _ ← put_port port p;
    if negb (Z.land primary_streams 0x1F =? primary_streams) then panic
    else
      let p := with_input (λ ic,
        set_add_context (Z.lor (ic_add_context ic) (as_u32 (Z.shiftl 1 (endp_num_xhc mod 32)))) ic) p in
      _ ← put_port port p;
      _ ← lift_opt (ic_endpoints (po_input_context p) !! Z.to_nat (endp_num_xhc - 1)) EIO;
      put_port port (with_input (set_endp_ctx (Z.to_nat (endp_num_xhc - 1))
        (endp_ctx_of mult primary_streams interval max_esit_payload ep_ty max_burst_size
           max_packet_size ring_ptr avg)) p).

Fixpoint conf_loop (port : Z) (speed_id : ProtocolSpeed) (indices : list Z) : xp unit :=
  match indices with
  | [] => mret tt
  | i :: indices => _ ← conf_endp port speed_id i; conf_loop port speed_id indices
  end.

(** [ports.lock().unwrap()[port].speed()]. *)
Definition port_speed (sc : Z) : Z := as_u8 (Z.shiftr (Z.land sc (Z.shiftl 0xF 10)) 10).

(** [ports.lock().unwrap()[port]]: the PORTSC register. *)
Definition read_portsc (port : Z) : xp Z :=
  ports ← gets (λ s, xhc_portsc (x_world s));
  unwrap (ports !! Z.to_nat port).

Definition configure_endpoints_once (port : Z) (req : ConfigureEndpointsReq) : xp unit :=
  p ← get_port EBADFD port;
  let p := with_cfg_idx (Some (cer_config_desc req)) p in
  _ ← put_port port p;
  dev_desc ← unwrap (po_dev_desc p);
  config_desc ← lift_opt (dd_config_descs dev_desc !! Z.to_nat (cer_config_desc req)) EBADFD;
  '(endp_desc_count, entries) ← lift_res (count_endpoints 0 1 (all_endpoints config_desc));
  let new_context_entries := as_u8 (entries + 1) in
  if 31 <=? endp_desc_count then sys EIO
  else
    sc ← read_portsc port;
    speed_id ← lift_opt (lookup_psiv hc_mmio hc_ext_caps (as_u8 port) (port_speed sc)) EIO;
    p ← get_port EBADFD port;
    _ ← put_port port
          (with_input (conf_slot new_context_entries (cd_configuration_value config_desc) req) p);
    _ ← conf_loop port speed_id (Z.of_nat <$> seq 0 (Z.to_nat endp_desc_count));
    p ← get_port EBADFD port;
    _ ← flush_input (po_input_context p);
    '(event_trb, _) ← execute_command
      (λ cyc, configure_endpoint (po_slot p) (ic_phys (po_input_context p)) cyc);
    _ ← lift_res (handle_event_trb event_trb);
    set_configuration_req port (cd_configuration_value config_desc).

Definition configure_endpoints (port : Z) (json_buf : list Z) : xp unit :=
  req ← lift_opt (conf_of_json json_buf) EBADMSG;
  if negb (Bool.eqb (bool_decide (is_Some (cer_interface_desc req)))
             (bool_decide (is_Some (cer_alternate_setting req))))
  then sys EBADMSG
  else
    p ← get_port EBADFD port;
    _ ← (if bool_decide (po_cfg_idx p = Some (cer_config_desc req)) then mret tt
         else configure_endpoints_once port req);
    match cer_interface_desc req, cer_alternate_setting req with
    | Some interface_num, Some alternate_setting =>
        set_interface_req port interface_num alternate_setting
    | _, _ => mret tt
    end.

(** ** Attaching *)

(** [port_states.get_mut(&port).unwrap()]. *)
Definition unwrap_port (port : Z) : xp PortSt := λ s,
  if decide (x_guard s = Some port) then (Err guard_reentry, s)
  else unwrap (x_port_states s !! port) s.

(** The packet size in the second word of the default control endpoint. *)
Definition set_packet_size (size : Z) (ic : InputContext) : InputContext :=
  match ic_endpoints ic with
  | c :: cs =>
      mk_input_ctx (ic_phys ic) (ic_drop_context ic) (ic_add_context ic) (ic_control ic)
        (ic_slot ic)
        (mk_endp_ctx (ec_a c) (Z.lor (Z.land (ec_b c) 0x0000FFFF) (Z.shiftl size 16))
           (ec_trl c) (ec_trh c) (ec_c c) :: cs)
  | [] => ic
  end.

Definition evaluate (slot_id : Z) (ic : InputContext) : xp unit :=
  _ ← flush_input ic;
  '(event_trb, _) ← execute_command (λ cyc, evaluate_context slot_id (ic_phys ic) false cyc);
  lift_res (handle_event_trb event_trb).

(** The two updates run while the caller owns the port's write guard. *)
Definition update_max_packet_size (port slot_id : Z) (dev_desc : DeviceDescriptor8Byte) : xp unit :=
  p ← unwrap_port port;
  let ic := set_packet_size (d8_packet_size dev_desc) (po_input_context p) in
  _ ← put_port port (with_input (λ _, ic) p);
  holding port (evaluate slot_id ic).

Definition update_default_control_pipe (port slot_id : Z) (dev_desc : DevDesc) : xp unit :=
  p ← unwrap_port port;
  let ic := po_input_context p in
  let ic := mk_input_ctx (ic_phys ic) 0 (Z.shiftl 1 1) (ic_control ic) (ic_slot ic)
              (ic_endpoints ic) in
  let ic := set_packet_size (dd_packet_size dev_desc) ic in
  _ ← put_port port (with_input (λ _, ic) p);
  holding port (evaluate slot_id ic).

(** The packet size of the default pipe by speed; the last arm is [unreachable!]. *)
Definition default_packet_size (speed_id : ProtocolSpeed) : xp Z :=
  if is_lowspeed speed_id then mret 8
  else if is_fullspeed speed_id then mret 64
  else if is_highspeed speed_id then mret 64
  else if is_superspeed_gen_x speed_id then mret 512
  else panic.

(** Method [Xhci::address_device]; the builder is [XhciTrb.address_device]. *)
Definition address_device_cmd (ic : InputContext) (i slot speed : Z) : xp (Ring * InputContext) :=
  ring ← alloc_ring 16 true;
  let root_hub_port_num := as_u8 (i + 1) in
  speed_id ← unwrap (lookup_psiv hc_mmio hc_ext_caps root_hub_port_num speed);
  max_packet_size ← default_packet_size speed_id;
  let tr := register ring in
  let c0 := default zero_endp_ctx (ic_endpoints ic !! 0%nat) in
  let ic := mk_input_ctx (ic_phys ic) (ic_drop_context ic) (Z.lor (Z.shiftl 1 1) 1) (ic_control ic)
    (mk_slot_ctx (Z.shiftl 1 27) (Z.shiftl root_hub_port_num 16) 0 (sl_d (ic_slot ic)))
    (<[0%nat := mk_endp_ctx (ec_a c0)
        (Z.lor (Z.lor (Z.shiftl 3 1) (Z.shiftl 4 3)) (Z.shiftl max_packet_size 16))
        (as_u32 tr) (as_u32 (Z.shiftr tr 32)) (ec_c c0)]> (ic_endpoints ic)) in
  _ ← flush_input ic;
  '(event_trb, _) ← execute_command (λ cyc, address_device slot (ic_phys ic) false cyc);
  if negb (completion_code event_trb =? completion_code_value CSuccess) then sys EIO
  else mret (ring, ic).

Definition alloc_input_context : xp InputContext :=
  '(phys, _) ← alloc_zeroed 1056;
  mret (zero_input_ctx phys).

Definition slot_type (port : Z) : Z :=
  match supported_protocol hc_mmio hc_ext_caps port with
  | Some protocol => proto_slot_ty hc_mmio protocol
  | None => 0
  end.

Definition new_port_state (slot : Z) (ic : InputContext) (ring : Ring) : PortSt :=
  mk_port slot None ic None {[ 0 := mk_es (RosRing ring) IfInit ]}.

Context `{Layouts}.

(** [fuel] is that of [get_desc].  The class drivers are started at the end;
    their errors are only logged. *)
Definition attach_device (fuel : nat) (port_number : Z) : xp unit :=
  ports ← gets x_port_states;
  if bool_decide (is_Some (ports !! port_number)) then sys EAGAIN
  else
    sc ← read_portsc port_number;
    if Z.testbit sc 0 then
      slot ← enable_port_slot (slot_type port_number);
      input ← alloc_input_context;
      '(ring, input) ← address_device_cmd input port_number slot (port_speed sc);
      _ ← modify (λ s, set_port_states
            (<[port_number := new_port_state slot input ring]> (x_port_states s)) s);
      dev_desc_8_byte ← fetch_dev_desc_8_byte port_number slot;
      _ ← update_max_packet_size port_number slot dev_desc_8_byte;
      dev_desc ← get_desc fuel port_number slot;
      p ← unwrap_port port_number;
      _ ← put_port port_number (with_dev_desc (Some dev_desc) p);
      update_default_control_pipe port_number slot dev_desc
    else mret tt.

Definition detach_device (port_number : Z) : xp unit :=
  ports ← gets x_port_states;
  match ports !! port_number with
  | Some state =>
      _ ← modify (λ s, set_port_states (delete port_number (x_port_states s)) s);
      disable_port_slot (po_slot state)
  | None => mret tt
  end.

(** ** The device enumerator *)

Definition get_pls (port_num : Z) : xp Z :=
  state ← read_portsc port_num;
  mret (Z.land (Z.shiftr state 5) 4).

Definition portsc_writef (port flags : Z) : xp unit :=
  sc ← read_portsc port;
  modify (λ s, set_world (xhc_portsc_write (Z.to_nat port) (Z.lor sc flags) (x_world s)) s).

Definition reset_port (port_num : Z) : xp unit :=
  _ ← portsc_writef port_num PORT_PR;
  modify (λ s, set_world (reset_wait (Z.to_nat port_num) (x_world s)) s).

Definition has_flag (sc flag : Z) : bool := negb (Z.land sc flag =? 0).

(** One request of the enumerator's loop.  Attach and detach errors are logged;
    everything else that fails ends the thread. *)
Definition enumerate_port (fuel : nat) (port_number : Z) : xp unit :=
  let index := as_u8 (port_number - 1) in
  ports ← gets (λ s, xhc_portsc (x_world s));
  match ports !! Z.to_nat index with
  | None => mret tt
  | Some flags =>
      if has_flag flags PORT_CCS then
        _ ← (if has_flag flags PORT_PED then mret tt
             else if has_flag flags PORT_PP && has_flag flags PORT_CCS
                     && negb (has_flag flags PORT_PED) && negb (has_flag flags PORT_PR) then
               _ ← reset_port index;
               _ ← portsc_writef index PORT_PRC;
               modify (λ s, set_world (reset_settle (x_world s)) s)
             else panic);
        r ← attempt (attach_device fuel index);
        match r with inl Waits => throw Waits | _ => mret tt end
      else
        _ ← get_pls index;
        r ← attempt (detach_device index);
        match r with inl Waits => throw Waits | _ => mret tt end
  end.

(** [Xhci::poll]: the requests for the ports that are connected or changed. *)
Definition poll_ports : xp unit :=
  modify (λ s, set_enumerate
    (x_enumerate s ++
     omap (λ '(i, sc), if has_flag sc PORT_CCS || has_flag sc PORT_CSC
                       then Some (as_u8 (Z.of_nat i + 1)) else None)
       (imap pair (xhc_portsc (x_world s)))) s).
End conf.

(** ** Configured endpoints *)

Lemma ring_ptr_mask (p : Z) :
  u_range 64 p → p mod 128 < 2 → Z.land p 0xFFFFFFFFFFFFFF81 = p.
Proof.
  intros Hp Hm.
  change 0xFFFFFFFFFFFFFF81 with (Z.lor 0xFFFFFFFFFFFFFF80 (Z.ones 1)).
  rewrite Z.land_lor_distr_r, (land_of_mask p _ 7 57), Z.land_ones by done.
  rewrite field_alt, Z.mod_small by (unfold u_range in *; zdiv).
  rewrite lor_shiftl_add by (unfold u_range; zdiv). zdiv.
Qed.

(** A new ring's address: the dequeue pointer with the cycle state 1. *)
Lemma register_new (len : nat) (phys virt : Z) :
  u_range 64 phys → phys mod 4096 = 0 →
  register (mk_ring true (replicate len zero_trb) phys virt 0 true) = phys + 1.
Proof.
  intros Hp Hm. unfold register. cbn [rg_phys rg_i rg_cycle of_bool].
  rewrite Z.mul_0_r, Z.add_0_r, (as_u_id 64) by done.
  replace phys with (Z.shiftl (phys / 4096) 12) at 1
    by (rewrite Z.shiftl_mul_pow2 by lia; change (2 ^ 12) with 4096; zdiv).
  rewrite lor_shiftl_add by (unfold u_range; lia). change (2 ^ 12) with 4096. zdiv.
Qed.

(** 1 KiB for interrupt and 3 KiB for isochronous endpoints. *)
Definition typical_trb_len (d : EndpDesc) : Z := match ty d with Interrupt => 1024 | _ => 3072 end.

(** What the context words say of endpoint [d]: interval, error count, type,
    burst, packet size, transfer ring, average TRB length and payload. *)
Definition ctx_describes (speed_id : ProtocolSpeed) (dd : DevDesc) (d : EndpDesc) (ptr : Z)
    (c : EndpointContext) : Prop :=
  ∃ ep_ty burst,
    xhci_ep_type d = Ok ep_ty ∧ endp_ctx_max_burst speed_id dd d = Ok burst ∧
    field 16 8 (ec_a c) = endp_ctx_interval speed_id d ∧
    field 1 2 (ec_b c) = 3 ∧ field 3 3 (ec_b c) = ep_ty ∧ field 8 8 (ec_b c) = burst ∧
    field 16 16 (ec_b c) = endp_ctx_max_packet_size d ∧
    ec_trl c + 2 ^ 32 * ec_trh c = ptr ∧
    field 0 16 (ec_c c) = typical_trb_len d ∧
    field 16 16 (ec_c c) = as_u16 (endp_ctx_max_packet_size d * (burst + 1)).

(** A periodic endpoint, interrupt or isochronous, as a USB 2 device has it. *)
Definition usb2_periodic (d : EndpDesc) : Prop :=
  (ty d = Interrupt ∨ ty d = Isoch) ∧ is_periodic d = Ok true ∧ ed_ssc d = None ∧
  u_range 16 (ed_max_packet_size d) ∧ u_range 8 (ed_interval d).

Lemma interval_range s d : u_range 8 (endp_ctx_interval s d).
Proof. unfold endp_ctx_interval. split_ifs; first [by apply u_range_as_u | unfold u_range; lia]. Qed.

Lemma burst_range s dd d :
  usb2_periodic d → major_version dd = 2 →
  ∃ b, endp_ctx_max_burst s dd d = Ok b ∧ u_range 8 b.
Proof.
  intros (Ht & _ & Hs & _) Hv. unfold endp_ctx_max_burst, is_superspeed. rewrite Hs, Hv.
  rewrite bool_decide_false by (by intros []). cbn [Z.eqb Pos.eqb].
  destruct (_ && _); eexists; (split; [reflexivity|]); [by apply u_range_as_u|unfold u_range; lia].
Qed.

Lemma endp_ctx_of_describes speed_id dd d ep_ty burst ptr :
  usb2_periodic d → xhci_ep_type d = Ok ep_ty → 1 <= ep_ty <= 7 →
  endp_ctx_max_burst speed_id dd d = Ok burst → u_range 8 burst → u_range 64 ptr →
  ctx_describes speed_id dd d ptr
    (endp_ctx_of 0 0 (endp_ctx_interval speed_id d)
       (as_u32 (endp_ctx_max_packet_size d * (burst + 1))) ep_ty burst
       (endp_ctx_max_packet_size d) ptr (typical_trb_len d)).
Proof.
  intros Hd Hty Hr Hb Hbr Hp. exists ep_ty, burst.
  assert (u_range 16 (typical_trb_len d)) as Ht by (unfold typical_trb_len, u_range; destruct (ty d); lia).
  pose proof (interval_range speed_id d) as Hi.
  assert (u_range 16 (endp_ctx_max_packet_size d)) as Hm
    by (apply u_range_land_r; lia).
  assert (u_range 3 ep_ty) as He by (unfold u_range; lia).
  split; [done|]. split; [done|]. unfold endp_ctx_of. cbn [ec_a ec_b ec_trl ec_trh ec_c of_bool].
  split_and!; unfold as_u8, as_u16, as_u32.
  all: try (ctl_field; done).
  - rewrite field_of_cast, (field_low_of_cast 32) by lia.
    rewrite <- (field_join ptr 32 32) at 3 by (lia || done).
    rewrite Z.lor_comm, lor_shiftl_add by (lia || by apply field_range). lia.
  - ctl_field. by rewrite field_low_of_cast by lia.
Qed.

Lemma periodic_ep_type d :
  ty d = Interrupt ∨ ty d = Isoch → ∃ ep, xhci_ep_type d = Ok ep ∧ 1 <= ep <= 7.
Proof.
  intros Ht. unfold xhci_ep_type. rewrite endp_direction_alt. unfold is_control, is_isoch, is_bulk, is_interrupt.
  destruct Ht as [-> | ->]; destruct (addr_in d); eexists; (split; [reflexivity|lia]).
Qed.

Section framing.
Context {W : Type} `{HC : Controller W}.

Lemma frames_alloc n : frames (alloc_zeroed (W := W) n).
Proof. intros v s Hs. unfold alloc_zeroed. by destruct (dma_zeroed n (x_world s)) as [[e|a] w]. Qed.

Lemma frames_cmd_enqueue f : frames (cmd_enqueue (W := W) f).
Proof.
  intros v s Hs. unfold cmd_enqueue. destruct (enqueue f (x_cmd s)) as [[[i|[]|] r]|]; done.
Qed.

Lemma frames_execute f : frames (execute_command (W := W) f).
Proof.
  intros v. unfold execute_command. apply keeps_bind; [apply frames_cmd_enqueue|]. intros i.
  apply keeps_bind; [apply keeps_gets|]. intros r. apply keeps_bind.
  - unfold next_command_completion_event_trb. apply keeps_bind; [apply keeps_unwrap|]. intros t.
    apply Prelude.keeps_if; [apply keeps_panic|].
    apply keeps_bind; [apply frames_lift_empty|]. intros q. apply frames_await.
  - intros trbs. apply keeps_bind; [apply keeps_unwrap|]. intros t.
    apply Prelude.keeps_if; [apply keeps_ret|apply keeps_panic].
Qed.

End framing.

Section configured.
Context {W : Type} `{HC : Controller W} `{HJ : ConfJson} `{HT : PortTime W}.
Variables (port cfg : Z) (speed_id : ProtocolSpeed) (dd : DevDesc) (conf : ConfDesc).

(** The device: USB 2, with at most 15 endpoints, all of them periodic. *)
Hypothesis conf_at : dd_config_descs dd !! Z.to_nat cfg = Some conf.
Hypothesis usb2 : major_version dd = 2.
Hypothesis few : (length (all_endpoints conf) <= 15)%nat.
Hypothesis endps_ok : Forall usb2_periodic (all_endpoints conf).

(** Memory for a ring can be had, in whole pages. *)
Hypothesis alloc_ok : ∀ w : W, ∃ phys virt w',
  dma_zeroed 256 w = (inr (phys, virt), w') ∧ u_range 64 phys ∧ phys mod 4096 = 0.

(** The port is attached, its device is [dd] and [cfg] is selected. *)
Definition selected (s : Xhci W) (p : PortSt) : Prop :=
  x_guard s ≠ Some port ∧ x_port_states s !! port = Some p ∧
  po_cfg_idx p = Some cfg ∧ po_dev_desc p = Some dd ∧
  length (ic_endpoints (po_input_context p)) = 31%nat.

(** Endpoint [k] of the configuration is set up in [p]. *)
Definition endp_configured (p : PortSt) (k : nat) : Prop :=
  ∀ d, all_endpoints conf !! k = Some d →
  ∃ dci ring ctx,
    endp_num_to_dci (Z.of_nat k + 1) d = Ok dci ∧
    po_endpoint_states p !! (Z.of_nat k + 1) = Some (mk_es (RosRing ring) IfInit) ∧
    ring_shape ring ∧
    ic_endpoints (po_input_context p) !! Z.to_nat (dci - 1) = Some ctx ∧
    Z.testbit (ic_add_context (po_input_context p)) dci = true ∧
    ctx_describes speed_id dd d (register ring) ctx.

Lemma new_ring_ok (s : Xhci W) :
  ∃ ring w', new_transfer None 0 s = (Ok (RosRing ring, register ring), set_world w' s) ∧
    ring_shape ring ∧ u_range 64 (register ring).
Proof.
  destruct (alloc_ok (x_world s)) as (phys & virt & w' & Ha & Hp & Hm).
  exists (mk_ring true (replicate 16 zero_trb) phys virt 0 true), w'.
  rewrite register_new by done. assert (u_range 64 (phys + 1)) as Hr by (unfold u_range in *; zdiv).
  split; [|split; [repeat split; cbn; lia|done]].
  unfold new_transfer, alloc_ring, alloc_zeroed, mbind, prog_bind.
  change (TRB_SIZE * Z.of_nat 16) with 256.
  erewrite bind_Ok by (erewrite bind_Ok by (erewrite bind_Ok by (by rewrite Ha);
    cbn [ring_new lift_res]; reflexivity); reflexivity).
  cbv beta iota. rewrite register_new by done.
  rewrite ring_ptr_mask by (done || zdiv). by rewrite Z.eqb_refl.
Qed.
Definition conf_port (p : PortSt) (k : nat) (dci : Z) (ring : Ring) (ctx : EndpointContext)
    : PortSt :=
  with_input (λ ic, set_endp_ctx (Z.to_nat (dci - 1)) ctx
      (set_add_context (Z.lor (ic_add_context ic) (as_u32 (Z.shiftl 1 (dci mod 32)))) ic))
    (with_endpoint (Z.of_nat k + 1) (mk_es (RosRing ring) IfInit) p).

Lemma find_conf_endp p k :
  po_cfg_idx p = Some cfg → po_dev_desc p = Some dd →
  get_endp_desc (po_cfg_idx p) (po_dev_desc p) (Z.of_nat k) = all_endpoints conf !! k.
Proof.
  intros Hc Hd. unfold get_endp_desc. rewrite Hc, Hd. cbn [mbind option_bind]. rewrite conf_at.
  cbn [mbind option_bind]. rewrite find_endp_spec by (unfold all_endpoints in few; lia).
  by rewrite Z.sub_0_r, Nat2Z.id.
Qed.

(** Only the ports and the memory have changed. *)
Definition moved (s s' : Xhci W) : Prop := ∃ ports w, s' = set_port_states ports (set_world w s).

Lemma moved_trans s s1 s2 : moved s s1 → moved s1 s2 → moved s s2.
Proof. intros (m & w & ->) (m' & w' & ->). by exists m', w'. Qed.

Lemma conf_endp_step s p k d :
  selected s p → all_endpoints conf !! k = Some d →
  ∃ s' dci ring ctx, conf_endp port speed_id (Z.of_nat k) s = (Ok tt, s') ∧
    endp_num_to_dci (Z.of_nat k + 1) d = Ok dci ∧ ring_shape ring ∧
    ctx_describes speed_id dd d (register ring) ctx ∧
    moved s s' ∧ x_port_states s' !! port = Some (conf_port p k dci ring ctx).
Proof.
  intros (Hg & Hp & Hc & Hd & Hlen) Hk.
  pose proof (lookup_lt_Some _ _ _ Hk) as Hlt.
  pose proof (proj1 (Forall_lookup _ _) endps_ok _ _ Hk) as Hok.
  pose proof Hok as (Hty & Hper & Hssc & _).
  destruct (burst_range speed_id dd d Hok usb2) as (burst & Hb & Hbr).
  destruct (periodic_ep_type d Hty) as (ep & He & Her).
  destruct (new_ring_ok s) as (ring & w' & Hring & Hsh & Hreg).
  pose proof (dci_value (Z.of_nat k + 1) d ltac:(lia)) as Hdci.
  set (dci := (Z.of_nat k + 1) * 2 + of_bool (is_control d || addr_in d)) in *.
  assert (2 <= dci <= 31) as Hdr by (unfold dci; destruct (is_control d || addr_in d); cbn; lia).
  set (ctx := endp_ctx_of 0 0 (endp_ctx_interval speed_id d)
    (as_u32 (endp_ctx_max_packet_size d * (burst + 1))) ep burst (endp_ctx_max_packet_size d)
    (register ring) (typical_trb_len d)).
  eexists (set_port_states (<[port := conf_port p k dci ring ctx]> _) (set_world w' s)), dci, ring, ctx.
  split; [|split; [exact Hdci|]; split; [exact Hsh|];
           split; [by apply (endp_ctx_of_describes speed_id dd d ep burst)|];
           split; [by eexists _, _|apply lookup_insert_eq]].
  unfold conf_endp, mbind, prog_bind.
  replace (as_u8 (Z.of_nat k + 1)) with (Z.of_nat k + 1)
    by (symmetry; apply as_u_id; unfold u_range; lia).
  rewrite (bind_Ok _ _ _ _ _ (get_port_ok EBADFD port s p Hg Hp)).
  rewrite find_conf_endp, Hk, Hd by done. erewrite bind_Ok by reflexivity.
  erewrite bind_Ok by reflexivity. rewrite Hdci. erewrite bind_Ok by reflexivity.
  rewrite Hb. erewrite bind_Ok by reflexivity.
  unfold endp_ctx_max_esit_payload. rewrite usb2, Hper. cbn [Z.eqb Pos.eqb].
  erewrite bind_Ok by reflexivity. rewrite He. erewrite bind_Ok by reflexivity.
  rewrite (bind_Ok _ _ _ (typical_trb_len d) (set_port_states (x_port_states s) s))
    by (unfold avg_trb_len, typical_trb_len; destruct Hty as [-> | ->]; by destruct s).
  assert (log_max_streams d = None) as -> by (unfold log_max_streams; by rewrite Hssc).
  assert (isoch_mult hc_lec d = 0) as -> by (unfold isoch_mult; rewrite Hssc; by repeat case_match).
  assert (Z.land ep 7 = ep) as -> by (change 7 with (Z.ones 3); rewrite Z.land_ones by lia; apply Z.mod_small; lia).
  rewrite Z.eqb_refl, (proj2 (Z.eqb_neq ep 0)) by lia. cbn [negb orb Z.land Z.eqb primary_streams_of].
  change (Z.land 0 3 =? 0) with true. change (Z.land 0 31 =? 0) with true. cbn [negb orb].
  assert (set_port_states (x_port_states s) s = s) as -> by (by destruct s).
  rewrite (bind_Ok _ _ _ _ _ Hring). cbv beta iota.
  unfold put_port at 1. erewrite bind_Ok by reflexivity. erewrite bind_Ok by reflexivity.
  cbn [po_input_context with_input with_endpoint ic_endpoints set_add_context].
  destruct (lookup_lt_is_Some_2 (ic_endpoints (po_input_context p)) (Z.to_nat (dci - 1)))
    as [c0 ->]; [lia|]. erewrite bind_Ok by reflexivity. reflexivity.
Qed.

Lemma conf_port_self p k d ring ctx dci :
  all_endpoints conf !! k = Some d → endp_num_to_dci (Z.of_nat k + 1) d = Ok dci →
  length (ic_endpoints (po_input_context p)) = 31%nat → ring_shape ring →
  ctx_describes speed_id dd d (register ring) ctx →
  endp_configured (conf_port p k dci ring ctx) k.
Proof.
  intros Hk Hdci Hlen Hr Hc d' Hk'. rewrite Hk in Hk'. injection Hk' as <-.
  pose proof (lookup_lt_Some _ _ _ Hk) as Hlt.
  assert (2 <= dci <= 31) as Hdr.
  { rewrite dci_value in Hdci by lia. injection Hdci as <-.
    destruct (is_control d || addr_in d); cbn; lia. }
  exists dci, ring, ctx. split_and!; try done; unfold conf_port.
  - apply lookup_insert_eq.
  - apply list_lookup_insert_eq. cbn. lia.
  - cbn -[as_u32]. unfold as_u32. rewrite Z.lor_spec, (Z.mod_small dci) by lia.
    rewrite Z.shiftl_1_l, as_u_id.
    2:{ unfold u_range. split; [lia|]. apply Z.pow_lt_mono_r; lia. }
    rewrite Z.pow2_bits_true by lia. by rewrite orb_true_r.
Qed.

Lemma conf_port_other p k j d dci ring ctx :
  j ≠ k → all_endpoints conf !! k = Some d → endp_num_to_dci (Z.of_nat k + 1) d = Ok dci →
  endp_configured p j → endp_configured (conf_port p k dci ring ctx) j.
Proof.
  intros Hne Hk Hdci Hj d' Hd'. destruct (Hj d' Hd') as (dci' & ring' & ctx' & E & Hes & Hr & Hi & Hb & Hc).
  exists dci', ring', ctx'. pose proof (lookup_lt_Some _ _ _ Hk). pose proof (lookup_lt_Some _ _ _ Hd').
  split_and!; try done; unfold conf_port.
  - cbn. by rewrite lookup_insert_ne by lia.
  - cbn. rewrite list_lookup_insert_ne; [done|].
    rewrite dci_value in E, Hdci by lia. injection E as <-. injection Hdci as <-.
    destruct (is_control d || addr_in d), (is_control d' || addr_in d'); cbn; lia.
  - cbn. by rewrite Z.lor_spec, Hb.
Qed.

(** The parts of the port and of its input context the loop leaves alone. *)
Definition same_slot (p p' : PortSt) : Prop :=
  let ic := po_input_context p in
  let ic' := po_input_context p' in
  po_slot p' = po_slot p ∧ ic_phys ic' = ic_phys ic ∧ ic_drop_context ic' = ic_drop_context ic ∧ ic_slot ic' = ic_slot ic ∧
  ic_control ic' = ic_control ic ∧ (Z.testbit (ic_add_context ic) 0 = true → Z.testbit (ic_add_context ic') 0 = true).

Lemma conf_loop_spec n : ∀ s p k,
  selected s p → (k + n = length (all_endpoints conf))%nat →
  (∀ j, (j < k)%nat → endp_configured p j) →
  ∃ s' p', conf_loop port speed_id (Z.of_nat <$> seq k n) s = (Ok tt, s') ∧ selected s' p' ∧ moved s s' ∧ same_slot p p' ∧
    ∀ j, (j < k + n)%nat → endp_configured p' j.
Proof.
  induction n as [|n IH]; intros s p k Hs Hn Hdone; cbn [seq fmap list_fmap conf_loop].
  { exists s, p. rewrite Nat.add_0_r. split_and!; try done. exists (x_port_states s), (x_world s). by destruct s. }
  destruct (lookup_lt_is_Some_2 (all_endpoints conf) k) as [d Hk]; [lia|].
  destruct (conf_endp_step s p k d Hs Hk) as (s1 & dci & ring & ctx & E & Hdci & Hr & Hc & Hm & Hp).
  destruct Hs as (Hg0 & Hp0 & Hcfg & Hdd & Hlen).
  assert (x_guard s1 = x_guard s) as Hg by (by destruct Hm as (? & ? & ->)).
  destruct (IH s1 (conf_port p k dci ring ctx) (S k)) as (s' & p' & E' & Hs' & Hm' & Hsame & Hall).
  - split_and!; [by rewrite Hg|done|done|done|]. cbn. by rewrite length_insert.
  - lia.
  - intros j Hj. destruct (decide (j = k)) as [->|Hne].
    + by eapply conf_port_self.
    + eapply conf_port_other; [done..|]. apply Hdone. lia.
  - exists s', p'. unfold mbind, prog_bind. rewrite (bind_Ok _ _ _ _ _ E). split_and!; [done|done|by eapply moved_trans| |intros j Hj; apply Hall; lia].
    destruct Hsame as (S1 & S2 & S3 & S4 & S5 & S6). split_and!; try done. intros Hb. apply S6.
    unfold conf_port. cbn [with_input with_endpoint po_input_context ic_add_context set_endp_ctx set_add_context]. by rewrite Z.lor_spec, Hb.
Qed.

(** The largest context index of the endpoints from position [c] on. *)
Fixpoint last_index (c entries : Z) (eps : list EndpDesc) : Z :=
  match eps with
  | [] => entries
  | e :: eps => last_index (c + 1) (Z.max entries ((c + 1) * 2 + of_bool (is_control e || addr_in e))) eps
  end.

Lemma count_endpoints_ok eps : ∀ c entries,
  0 <= c → c + Z.of_nat (length eps) <= 15 →
  count_endpoints c entries eps = Ok (c + Z.of_nat (length eps), last_index c entries eps).
Proof.
  induction eps as [|e eps IH]; intros c entries Hc Hl; cbn [count_endpoints last_index length] in *; [by rewrite Z.add_0_r|].
  unfold as_u8. rewrite (as_u_id 8 (c + 1)) by (unfold u_range; lia). rewrite dci_value by lia.
  rewrite IH by lia. f_equal. f_equal; [lia|]. f_equal. destruct (Z.ltb_spec entries ((c + 1) * 2 + of_bool (is_control e || addr_in e))); lia.
Qed.

(** The port is attached and its device is [dd]. *)
Definition attached (s : Xhci W) (p : PortSt) : Prop :=
  x_guard s ≠ Some port ∧ x_port_states s !! port = Some p ∧ po_dev_desc p = Some dd ∧
  length (ic_endpoints (po_input_context p)) = 31%nat.

(** The last steps of [configure_endpoints_once]. *)
Definition finish_configuration (slot phys value : Z) : prog (Xhci W) fault unit :=
  '(event_trb, _) ← execute_command (λ cyc, configure_endpoint slot phys cyc);
  _ ← lift_res (handle_event_trb event_trb);
  set_configuration_req port value.

End configured.

(** ** A configuration that failed *)

Section sticky.
Context {W : Type} `{HC : Controller W} `{HJ : ConfJson} `{HT : PortTime W}.
Variables (port idx : Z).

(** The port counts as configured with [idx], and no guard is held. *)
Definition marked (s : Xhci W) : Prop :=
  x_guard s = None ∧ ∃ p, x_port_states s !! port = Some p ∧ po_cfg_idx p = Some idx.

Lemma marked_frames {A : Type} (m : prog (Xhci W) fault A) : frames m → keeps marked m.
Proof.
  intros Hf s (Hg & p & Hp & Hc). specialize (Hf (port_view s) s eq_refl).
  injection Hf as Hports Hguard. split; [by rewrite Hguard|]. exists p. by rewrite Hports.
Qed.

Lemma marked_put p : po_cfg_idx p = Some idx → keeps marked (put_port port p).
Proof. intros Hc s [Hg _]. split; [done|]. exists p. split; [apply lookup_insert_eq|done]. Qed.

Lemma marked_get {A : Type} e (k : PortSt → prog (Xhci W) fault A) :
  (∀ p, po_cfg_idx p = Some idx → keeps marked (k p)) → keeps marked (p_bind k (get_port e port)).
Proof.
  intros Hk s Hs. unfold p_bind, get_port. destruct (decide _); [done|].
  pose proof Hs as (_ & p & Hp & Hc). rewrite Hp. by apply Hk.
Qed.

Lemma marked_ring_put f r : keeps marked (ring_put (W := W) f r).
Proof. intros s Hs. by rewrite ring_put_state. Qed.

(** One step of a proof that a program keeps the mark. *)
Ltac marked_step :=
  first
    [ apply keeps_ret | apply keeps_throw | apply keeps_panic | apply keeps_gets
    | apply keeps_unwrap | apply marked_ring_put
    | apply marked_put; cbn; assumption
    | apply marked_frames; first [ apply frames_lift_opt | apply frames_lift_res | apply frames_alloc
        | apply frames_execute | apply frames_next_transfer | by apply frames_modify ]
    | apply Prelude.keeps_if | apply marked_get; intros ? ? | apply keeps_bind; [|intros ?]
    | match goal with
      | |- keeps _ (match ?x with _ => _ end) => destruct x
      | |- keeps _ (_ ≫= _) => unfold mbind, prog_bind
      | |- keeps _ (let '_ := ?x in _) => destruct x
      end ].

Lemma marked_transfer st n : keeps marked (new_transfer (W := W) st n).
Proof.
  unfold new_transfer, sca_new, sca_add_ring, alloc_ring. repeat marked_step.
Qed.

Lemma marked_conf_loop speed ixs : keeps marked (conf_loop (W := W) port speed ixs).
Proof.
  induction ixs as [|i ixs IH]; cbn [conf_loop]; [apply keeps_ret|].
  apply keeps_bind; [|by intros _]. unfold conf_endp, avg_trb_len.
  repeat first [apply marked_transfer | marked_step].
Qed.

Lemma marked_set_configuration v : keeps marked (set_configuration_req (W := W) port v).
Proof.
  unfold set_configuration_req, device_req_no_data, execute_control_transfer, sys.
  repeat marked_step.
Qed.

(** Once the request has found the port and its device, it leaves the mark. *)
Lemma configure_marks req s p dd :
  cer_config_desc req = idx →
  x_guard s = None → x_port_states s !! port = Some p → po_dev_desc p = Some dd →
  marked (configure_endpoints_once port req s).2.
Proof.
  intros Hi Hg Hp Hd. unfold configure_endpoints_once, mbind, prog_bind.
  rewrite (bind_Ok _ _ _ _ _ (get_port_ok EBADFD port s p ltac:(by rewrite Hg) Hp)).
  erewrite bind_Ok by reflexivity.
  match goal with |- marked (?m ?s1).2 =>
    enough (keeps marked m) as Hk; [apply (Hk s1); split; [done|]; eexists; split; [apply lookup_insert_eq|cbn; by rewrite Hi]|] end.
  unfold sys, read_portsc, flush_input.
  repeat first [apply marked_conf_loop | apply marked_set_configuration | marked_step].
Qed.

(** A failed configuration is remembered as done.  If a request to configure
    a device fails, for whatever reason, after its port was found, then the same
    request made again answers success at once and does nothing. *)
Theorem failed_configuration_sticks buf req s s' p dd e :
  conf_of_json buf = Some req → cer_config_desc req = idx →
  cer_interface_desc req = None → cer_alternate_setting req = None →
  x_guard s = None →
  x_port_states s !! port = Some p → po_dev_desc p = Some dd →
  configure_endpoints port buf s = (Err e, s') →
  configure_endpoints port buf s' = (Ok tt, s').
Proof.
  intros Hj Hi Hn Ha Hg Hp Hd Hfail.
  assert (marked s') as (Hg' & p' & Hp' & Hc').
  { pose proof (configure_marks req s p dd Hi Hg Hp Hd) as Hm. revert Hfail.
    unfold configure_endpoints, mbind, prog_bind. rewrite Hj. erewrite bind_Ok by reflexivity.
    rewrite Hn, Ha. cbn [bool_decide]. rewrite Bool.eqb_reflx. cbn [negb].
    rewrite (bind_Ok _ _ _ _ _ (get_port_ok EBADFD port s p ltac:(by rewrite Hg) Hp)).
    case_bool_decide as Hcfg.
    - by erewrite bind_Ok by reflexivity.
    - unfold p_bind. destruct (configure_endpoints_once port req s) as [[u|x|] s1]; [done| |done].
      intros [= _ <-]. exact Hm. }
  unfold configure_endpoints, mbind, prog_bind. rewrite Hj. erewrite bind_Ok by reflexivity.
  rewrite Hn, Ha. rewrite Bool.eqb_reflx. cbn [negb].
  rewrite (bind_Ok _ _ _ _ _ (get_port_ok EBADFD port s' p' ltac:(by rewrite Hg') Hp')).
  rewrite bool_decide_true by (by rewrite Hc', Hi). erewrite bind_Ok by reflexivity. reflexivity.
Qed.
End sticky.

(** ** Slots *)

Section slots.
Context {W : Type} `{HC : Controller W}.

(** Memory can be had. *)
Hypothesis alloc_ok : ∀ n (w : W), ∃ a w', dma_zeroed n w = (inr a, w').

Lemma alloc_zeroed_ok n (s : Xhci W) : ∃ a w', alloc_zeroed n s = (Ok a, set_world w' s).
Proof.
  destruct (alloc_ok n (x_world s)) as (a & w' & E). exists a, w'. unfold alloc_zeroed. by rewrite E.
Qed.

Lemma dcl_loop_spec n : ∀ i dcbaa contexts (s : Xhci W),
  length dcbaa = 256%nat → (i + n <= 256)%nat → length contexts = i →
  (∀ j, (j < i)%nat → dcbaa !! j = contexts !! j) →
  (∀ j, (i <= j < 256)%nat → dcbaa !! j = Some 0) →
  ∃ dcbaa' contexts' s', dcl_loop n i dcbaa contexts s = (Ok (dcbaa', contexts'), s') ∧
    length contexts' = (i + n)%nat ∧
    (∀ j, (j < i + n)%nat → dcbaa' !! j = contexts' !! j) ∧
    (∀ j, (i + n <= j < 256)%nat → dcbaa' !! j = Some 0).
Proof.
  induction n as [|n IH]; intros i dcbaa contexts s Hl Hi Hc Hlo Hhi; cbn [dcl_loop].
  { exists dcbaa, contexts, s. rewrite Nat.add_0_r. by split_and!. }
  destruct (alloc_zeroed_ok 1024 s) as ([phys virt] & w' & E).
  unfold mbind, prog_bind. rewrite (bind_Ok _ _ _ _ _ E). cbv beta iota.
  rewrite (Hhi i) by lia. erewrite bind_Ok by reflexivity.
  replace (i + S n)%nat with (S i + n)%nat by lia. apply IH.
  - by rewrite length_insert.
  - lia.
  - rewrite length_app. cbn. lia.
  - intros j Hj. destruct (decide (j = i)) as [->|Hne].
    + rewrite list_lookup_insert_eq by lia. rewrite lookup_app_r by lia. by rewrite Hc, Nat.sub_diag.
    + rewrite list_lookup_insert_ne by done. rewrite lookup_app_l by lia. apply Hlo. lia.
  - intros j Hj. rewrite list_lookup_insert_ne by lia. apply Hhi. lia.
Qed.

(** The device context base address array is off by one: with [n] slots, whose
    ids are 1 to [n], the contexts are entered at the indices 0 to [n - 1]; the
    entry of slot [n] is a null pointer, and when the controller needs scratchpad
    buffers their table replaces the context in entry 0. *)
Theorem last_slot_without_context (n : Z) (bufs : Z) (s : Xhci W) :
  0 < n <= 255 →
  ∃ l s', device_context_list_new n s = (Ok l, s') ∧
    length (dcl_contexts l) = Z.to_nat n ∧
    (∀ i, (i < Z.to_nat n)%nat → dcl_dcbaa l !! i = dcl_contexts l !! i) ∧
    dcl_dcbaa l !! Z.to_nat n = Some 0 ∧
    (∀ l' arr s'', bufs ≠ 0 → setup_scratchpads bufs l s' = (Ok (l', Some arr), s'') →
       dcl_dcbaa l' !! 0%nat = Some (sp_entries_phys arr)).
Proof.
  intros Hn. unfold device_context_list_new, mbind, prog_bind.
  destruct (alloc_zeroed_ok 2048 s) as ([phys virt] & w' & E).
  rewrite (bind_Ok _ _ _ _ _ E). cbv beta iota.
  destruct (dcl_loop_spec (Z.to_nat n) 0 (replicate 256 0) [] (set_world w' s))
    as (dcbaa & contexts & s' & E' & Hlen & Hlo & Hhi); try done; try lia.
  { intros j Hj. apply lookup_replicate_2. lia. }
  rewrite (bind_Ok _ _ _ _ _ E'). cbv beta iota.
  eexists _, s'. split; [reflexivity|]. cbn [dcl_contexts dcl_dcbaa]. split_and!; try done.
  - apply Hhi. lia.
  - intros l' arr s'' Hb. unfold setup_scratchpads. rewrite (proj2 (Z.eqb_neq _ _) Hb).
    unfold mbind, prog_bind, p_bind. destruct (scratchpad_new bufs s') as [[a|e|] s3]; [|done|done].
    intros [= <- <- <-]. cbn. apply list_lookup_insert_eq.
    pose proof (Hlo 0%nat ltac:(lia)) as H0. destruct contexts as [|c cs]; [cbn in Hlen; lia|].
    by eapply lookup_lt_Some.
Qed.
End slots.

(** ** Attaching and detaching *)

Section attach.
Context {W : Type} `{HC : Controller W} `{HJ : ConfJson} `{HT : PortTime W} `{HL : Layouts}.

(** A port is attached at most once. *)
Lemma attach_twice fuel port (s : Xhci W) p :
  x_port_states s !! port = Some p → attach_device fuel port s = (Err (Sys EAGAIN), s).
Proof.
  intros Hp. unfold attach_device, mbind, prog_bind. erewrite bind_Ok by reflexivity.
  by rewrite Hp, bool_decide_true by done.
Qed.

Lemma frames_disable slot : frames (disable_port_slot (W := W) slot).
Proof.
  intros v. unfold disable_port_slot. apply keeps_bind; [apply frames_execute|].
  intros [t u]. apply frames_lift_res.
Qed.

(** Detaching forgets the port, whatever the controller answers to the command. *)
Lemma detach_forgets port (s : Xhci W) :
  x_port_states (detach_device port s).2 = delete port (x_port_states s).
Proof.
  unfold detach_device, mbind, prog_bind. erewrite bind_Ok by reflexivity.
  destruct (x_port_states s !! port) as [p|] eqn:Hp; [|by rewrite delete_id].
  erewrite bind_Ok by reflexivity.
  pose proof (frames_disable (po_slot p) _ (set_port_states (delete port (x_port_states s)) s) eq_refl)
    as Hv.
  by injection Hv as ->.
Qed.

(** A connected port that is neither enabled nor in the disabled state (it is
    being reset, or has no power) ends the enumerator's thread. *)
Lemma enumerator_panics fuel port (s : Xhci W) sc :
  xhc_portsc (x_world s) !! Z.to_nat (as_u8 (port - 1)) = Some sc →
  has_flag sc PORT_CCS = true → has_flag sc PORT_PED = false →
  has_flag sc PORT_PR = true ∨ has_flag sc PORT_PP = false →
  (enumerate_port fuel port s).1 = Panic.
Proof.
  intros Hp Hc He Hr. unfold enumerate_port, mbind, prog_bind. erewrite bind_Ok by reflexivity.
  rewrite Hp, Hc, He. destruct Hr as [-> | ->]; [by rewrite andb_false_r|done].
Qed.
End attach.

(** ** A controller with endless memory *)

#[export] Instance idle_controller : Controller N := {
  hc_ac64 := true;
  hc_lec := false;
  hc_cie := false;
  hc_max_psa_size := 0;
  hc_mmio := λ _, 0;
  hc_ext_caps := [];
  xhc_doorbell := λ _ _ _ _ n, ([], n);
  xhc_portsc := λ _, [0xE03];
  xhc_portsc_write := λ _ _ n, n;
  xhc_ehb := λ _, false;
  xhc_clear_ehb := λ n, n;
  xhc_contexts := λ _, [];
  dma_zeroed := λ _ n, (inr (4096 * (Z.of_N n mod 2 ^ 40), 0), N.succ n);
  dma_get := λ _ _ n, replicate n 0;
  dma_set := λ _ _ n, n;
  guard_reentry := Waits;
}.

#[export] Instance test_conf_json : ConfJson := {
  conf_of_json := λ bs, match bs with [c] => Some (mk_cer c None None) | _ => None end;
}.

#[export] Instance idle_time : PortTime N := { reset_wait := λ _ n, n; reset_settle := λ n, n }.

(** A mouse: one configuration, one interface, one interrupt endpoint. *)
Definition mouse_conf : ConfDesc :=
  mk_conf_desc 2 1 None 0xA0 50 [mk_if_desc 4 0 0 3 1 2 None [intr_in 10] []].

Definition mouse : DevDesc :=
  mk_dev_desc 1 0x0200 0 0 0 8 0x46D 0xC077 0x7200 None None None [mouse_conf].

Definition mouse_port (cfg : option Z) : PortSt :=
  mk_port 1 cfg (zero_input_ctx 0x30000) (Some mouse) {[ 0 := mk_es (RosRing usb_ring) IfInit ]}.

Definition idle_hci (cfg : option Z) : Xhci N :=
  mk_xhci 1%N {[ 0 := mouse_port cfg ]} None
    (mk_ring true (replicate 256 zero_trb) 0x10000 0x7000 0 true) [] ∅ 0 true [] false.


Lemma failed_configuration_sticks_witness :
  ∃ s', configure_endpoints 0 [7] (idle_hci None) = (Err (Sys EBADFD), s') ∧
        configure_endpoints 0 [7] s' = (Ok tt, s').
Proof.
  eexists. split; [vm_compute; reflexivity|].
  apply (failed_configuration_sticks 0 7 [7] (mk_cer 7 None None) (idle_hci None) _
           (mouse_port None) mouse (Sys EBADFD)); vm_compute; reflexivity.
Defined.

Lemma last_slot_without_context_witness :
  ∃ l s', device_context_list_new 64 (idle_hci None) = (Ok l, s') ∧
    length (dcl_contexts l) = 64%nat ∧ dcl_dcbaa l !! 64%nat = Some 0.
Proof.
  destruct (last_slot_without_context (W := N)) with (n := 64) (bufs := 0) (s := idle_hci None)
    as (l & s' & E & Hl & _ & Hn & _).
  - intros n w. eexists _, _. reflexivity.
  - lia.
  - exists l, s'. split_and!; [exact E|exact Hl|exact Hn].
Defined.
