(* ===== verification/XhciScheme.v ===== *)
(** The file scheme of xhcid (xhcid/src/xhci/scheme.rs: paths, handles, device
    requests and [impl Scheme for Xhci]) and the device handle of the class
    drivers (xhcid/src/driver_interface.rs: [XhciClientHandle]).

    Paths are byte strings.  The regular expressions of the source are written as
    the matchers they stand for; [\d{1,3}] followed by a slash or the end is a
    maximal run of one to three digits.  JSON texts are parameters. *)

From S2P Require Import Prelude UsbSetup XhciTrb XhciRing XhciIface XhciHost XhciEndp XhciDesc XhciConf.

(** ** Paths *)

Inductive SchemeParameters : Type :=
| SpTopLevel
| SpPort (port : Z)
| SpPortDesc (port : Z)
| SpPortState (port : Z)
| SpPortReq (port : Z)
| SpEndpoints (port : Z)
| SpEndpoint (port endp : Z) (handle_type : string)
| SpConfigureEndpoints (port : Z).

Definition digit_of (c : Ascii.ascii) : option Z :=
  let n := Z.of_nat (Ascii.nat_of_ascii c) in
  if (48 <=? n) && (n <=? 57) then Some (n - 48) else None.

(** The longest run of digits: how many, their value, and the rest. *)
Fixpoint take_digits (count : nat) (acc : Z) (s : string) : nat * Z * string :=
  match s with
  | EmptyString => (count, acc, s)
  | String c s' =>
      match digit_of c with
      | Some d => take_digits (S count) (acc * 10 + d) s'
      | None => (count, acc, s)
      end
  end.

Definition number (s : string) : option (Z * string) :=
  let '(count, v, rest) := take_digits 0 0 s in
  if ((1 <=? count) && (count <=? 3))%nat then Some (v, rest) else None.

Fixpoint strip (pre s : string) : option string :=
  match pre, s with
  | EmptyString, _ => Some s
  | String a pre, String b s => if decide (a = b) then strip pre s else None
  | String _ _, EmptyString => None
  end.

(** [port(\d{1,3})] and what follows it. *)
Definition port_prefix (s : string) : option (Z * string) := rest ← strip "port" s; number rest.

(** [port(\d{1,3})/endpoints/(\d{1,3})/(ctl|data)$] at the start of [s]. *)
Definition sub_endpoint_here (s : string) : option (Z * Z * string) :=
  '(port, s) ← port_prefix s;
  s ← strip "/endpoints/" s;
  '(endp, s) ← number s;
  ty ← strip "/" s;
  if decide (ty = "ctl" ∨ ty = "data") then Some (port, endp, ty) else None.

(** This expression lacks the [^]: it is searched from every position. *)
Fixpoint sub_endpoint (s : string) : option (Z * Z * string) :=
  match sub_endpoint_here s, s with
  | Some r, _ => Some r
  | None, EmptyString => None
  | None, String _ s => sub_endpoint s
  end.

(** [parse::<u8>] of an endpoint number. *)
Definition endp_u8 (port endp : Z) (ty : string) : res errno SchemeParameters :=
  if endp <? 256 then Ok (SpEndpoint port endp ty) else Err ENOENT.

Definition from_scheme (s : string) : res errno SchemeParameters :=
  let sub :=
    match sub_endpoint s with
    | Some (port, endp, ty) => endp_u8 port endp ty
    | None => if decide (s = "") then Ok SpTopLevel else Err ENOENT
    end in
  match port_prefix s with
  | Some (port, rest) =>
      if decide (rest = "/configure") then Ok (SpConfigureEndpoints port)
      else if decide (rest = "/descriptors") then Ok (SpPortDesc port)
      else if decide (rest = "/state") then Ok (SpPortState port)
      else if decide (rest = "/request") then Ok (SpPortReq port)
      else if decide (rest = "/endpoints") then Ok (SpEndpoints port)
      else match (s' ← strip "/endpoints/" rest; number s') with
           | Some (endp, "") => endp_u8 port endp "root"
           | _ => sub
           end
  | None => sub
  end.

(** ** Handles *)

Inductive EndpointHandleTy : Type :=
| EhData
| EhCtl
| EhRoot (offset : nat) (content : list Z).

Inductive PortReqState : Type :=
| PqInit
| PqWaitingForDeviceBytes (buf : Dma) (stp : Setup)
| PqWaitingForHostBytes (buf : Dma) (stp : Setup)
| PqTmpSetup (stp : Setup)
| PqTmp.

Inductive Handle : Type :=
| HTopLevel (offset : nat) (content : list Z)
| HPort (port : Z) (offset : nat) (content : list Z)
| HPortDesc (port : Z) (offset : nat) (content : list Z)
| HPortState (port : Z) (offset : Z)
| HPortReq (port : Z) (st : PortReqState)
| HEndpoints (port : Z) (offset : nat) (content : list Z)
| HEndpoint (port endp : Z) (ty : EndpointHandleTy)
| HConfigureEndpoints (port : Z).

(** [format!("port{}", n)]. *)
Definition port_name (n : Z) : string := "port" +:+ pretty n.

Definition to_scheme (h : Handle) : string :=
  match h with
  | HTopLevel _ _ => ""
  | HPort port _ _ => port_name port
  | HPortDesc port _ _ => port_name port +:+ "/descriptors"
  | HPortState port _ => port_name port +:+ "/state"
  | HPortReq port _ => port_name port +:+ "/request"
  | HEndpoints port _ _ => port_name port +:+ "/endpoints"
  | HEndpoint port endp ty =>
      port_name port +:+ "/endpoints/" +:+ pretty endp +:+
      match ty with EhData => "/data" | EhCtl => "/ctl" | EhRoot _ _ => "" end
  | HConfigureEndpoints port => port_name port +:+ "/configure"
  end.

Inductive HandleType : Type := HtDirectory | HtFile | HtCharacter.

(** The two [unreachable!] arms are [None]. *)
Definition get_handle_type (h : Handle) : option HandleType :=
  match h with
  | HTopLevel _ _ | HPort _ _ _ | HEndpoints _ _ _ => Some HtDirectory
  | HPortDesc _ _ _ => Some HtFile
  | HPortReq _ PqTmp | HPortReq _ (PqTmpSetup _) => None
  | HPortReq _ _ | HPortState _ _ | HConfigureEndpoints _ => Some HtCharacter
  | HEndpoint _ _ (EhRoot _ _) => Some HtDirectory
  | HEndpoint _ _ _ => Some HtCharacter
  end.

Definition get_buf_len (h : Handle) : option nat :=
  match h with
  | HTopLevel _ b | HPort _ _ b | HEndpoints _ _ b | HPortDesc _ _ b => Some (length b)
  | HPortReq _ (PqWaitingForDeviceBytes b _) | HPortReq _ (PqWaitingForHostBytes b _) =>
      Some (dm_len b)
  | HEndpoint _ _ (EhRoot _ b) => Some (length b)
  | _ => None
  end.

(** The offset and contents of a directory or fixed file, and a new offset. *)
Definition fixed_file (h : Handle) : option (nat * list Z) :=
  match h with
  | HTopLevel o b | HPort _ o b | HPortDesc _ o b | HEndpoints _ o b
  | HEndpoint _ _ (EhRoot o b) => Some (o, b)
  | _ => None
  end.

Definition with_offset (o : nat) (h : Handle) : Handle :=
  match h with
  | HTopLevel _ b => HTopLevel o b
  | HPort p _ b => HPort p o b
  | HPortDesc p _ b => HPortDesc p o b
  | HEndpoints p _ b => HEndpoints p o b
  | HEndpoint p e (EhRoot _ b) => HEndpoint p e (EhRoot o b)
  | _ => h
  end.

(** ** Setup packets of a device request *)

Definition req_direction_from (d : PortReqDirection) : ReqDirection :=
  match d with PrHostToDevice => HostToDevice | PrDeviceToHost => DeviceToHost end.

Definition req_direction_code (d : ReqDirection) : Z :=
  match d with HostToDevice => 0 | DeviceToHost => 1 end.

Definition req_type_from (t : PortReqTy) : ReqType :=
  match t with PtStandard => RtStandard | PtClass => RtClass | PtVendor => RtVendor end.

Definition req_recipient_from (r : PortReqRecipient) : ReqRecipient :=
  match r with
  | PcDevice => RcDevice | PcInterface => RcInterface | PcEndpoint => RcEndpoint
  | PcOther => RcOther | PcVendorSpecific => RcVendorSpecific
  end.

Definition req_setup (req : PortReq) : Setup :=
  mk_setup
    (Z.lor (Z.lor (as_u8 (Z.shiftl (req_direction_code (req_direction_from (pr_direction req))) 7))
              (as_u8 (Z.shiftl (req_type_code (req_type_from (pr_req_type req))) USB_SETUP_REQ_TY_SHIFT)))
       (as_u8 (Z.shiftl (req_recipient_code (req_recipient_from (pr_req_recipient req))) USB_SETUP_RECIPIENT_SHIFT)))
    (pr_request req) (pr_value req) (pr_index req) (pr_length req).

(** ** The scheme *)

(** JSON texts of device requests and of a device description, and the flags of
    [open] (redox_syscall). *)
Class SchemeEnv := {
  port_req_of_json : list Z → option PortReq;
  json_of_port_req : PortReq → list Z;
  json_of_dev_desc : option DevDesc → list Z;
  O_DIRECTORY : Z;
  O_STAT : Z;
  O_RDWR : Z;
  O_WRONLY : Z;
}.

Record XScheme (W : Type) := mk_scheme {
  sc_hci : Xhci W;
  sc_handles : gmap Z Handle;
  sc_next : Z;
}.
Arguments mk_scheme {_} _ _ _.
Arguments sc_hci {_} _.
Arguments sc_handles {_} _.
Arguments sc_next {_} _.

Section scheme.
Context {W : Type} `{HC : Controller W} `{HJ : EndpJson} `{HF : ConfJson} `{HE : SchemeEnv}.

Abbreviation xp := (prog (Xhci W) fault).
Abbreviation sp := (prog (XScheme W) fault).

(** A call of the driver below. *)
Definition hci {A : Type} (m : xp A) : sp A := λ s,
  let '(r, h) := m (sc_hci s) in (r, mk_scheme h (sc_handles s) (sc_next s)).

Definition get_handle (fd : Z) : sp Handle := λ s,
  match sc_handles s !! fd with Some h => (Ok h, s) | None => (Err (Sys EBADF), s) end.

Definition put_handle (fd : Z) (h : Handle) : sp unit :=
  modify (λ s, mk_scheme (sc_hci s) (<[fd := h]> (sc_handles s)) (sc_next s)).

(** *** Device requests *)

Definition port_desc_json (port : Z) : xp (list Z) :=
  p ← get_port ENOENT port; mret (json_of_dev_desc (po_dev_desc p)).

Definition port_req_transfer (port : Z) (buf : option Dma) (stp : Setup) (tk : TransferKind)
    : xp unit :=
  _ ← execute_control_transfer port stp tk
        (data (match buf with Some b => dm_phys b | None => 0 end) (su_length stp)
           (bool_decide (transfer_kind_code tk = transfer_kind_code KIn)));
  mret tt.

Definition port_req_init_st (req : PortReq) : xp PortReqState :=
  let stp := req_setup req in
  if pr_transfers_data req then
    b ← alloc_dma_zeroed_unsized (Z.to_nat (pr_length req));
    mret (match pr_direction req with
          | PrDeviceToHost => PqWaitingForDeviceBytes b stp
          | PrHostToDevice => PqWaitingForHostBytes b stp
          end)
  else mret (PqTmpSetup stp).

(** The handle must still be a request handle when the state is put back. *)
Definition put_req_state (fd : Z) (st : PortReqState) : sp unit :=
  h ← get_handle fd;
  match h with
  | HPortReq port _ => put_handle fd (HPortReq port st)
  | _ => panic
  end.

Definition handle_port_req_write (fd port : Z) (st : PortReqState) (buf : list Z) : sp nat :=
  st ← (match st with
        | PqInit =>
            req ← hci (lift_opt (port_req_of_json buf) EBADMSG);
            st ← hci (port_req_init_st req);
            match st with
            | PqTmpSetup stp =>
                _ ← hci (port_req_transfer port None stp NoData);
                mret PqInit
            | _ => mret st
            end
        | PqWaitingForHostBytes b stp =>
            if negb (Nat.eqb (length buf) (dm_len b)) then throw (Sys EINVAL)
            else
              _ ← hci (dma_copy_in b buf);
              _ ← hci (port_req_transfer port (Some b) stp KOut);
              mret PqInit
        | PqWaitingForDeviceBytes _ _ => throw (Sys EBADF)
        | PqTmp | PqTmpSetup _ => panic
        end);
  _ ← put_req_state fd st;
  mret (length buf).

(** The bytes put into the caller's buffer. *)
Definition handle_port_req_read (fd port : Z) (st : PortReqState) (buf_len : nat) : sp (list Z) :=
  bytes ← (match st with
           | PqWaitingForDeviceBytes b stp =>
               if negb (Nat.eqb buf_len (dm_len b)) then throw (Sys EINVAL)
               else
                 _ ← hci (port_req_transfer port (Some b) stp KIn);
                 hci (dma_bytes b)
           | PqInit | PqWaitingForHostBytes _ _ => throw (Sys EBADF)
           | PqTmp | PqTmpSetup _ => panic
           end);
  _ ← put_req_state fd PqInit;
  mret bytes.

(** *** Opening *)

Definition wants (flags bit : Z) : bool := negb (Z.land flags bit =? 0).

Definition open_handle_top_level (flags : Z) : xp Handle :=
  if wants flags O_DIRECTORY || wants flags O_STAT then
    ports ← gets (λ s, xhc_portsc (x_world s));
    mret (HTopLevel 0 (mjoin (omap (λ '(i, sc),
      if has_flag sc PORT_CCS then Some (string_bytes (port_name (Z.of_nat i)) ++ [10]) else None)
      (imap pair ports))))
  else sys EISDIR.

Definition open_handle_port_descriptors (port flags : Z) : xp Handle :=
  if wants flags O_DIRECTORY && negb (wants flags O_STAT) then sys ENOTDIR
  else contents ← port_desc_json port; mret (HPortDesc port 0 contents).

(** [SlotState::Configured] is 3. *)
Definition open_handle_port (port flags : Z) : xp Handle :=
  if wants flags O_DIRECTORY || wants flags O_STAT then
    p ← get_port ENOENT port;
    st ← slot_state (po_slot p);
    mret (HPort port 0 (string_bytes "descriptors" ++ [10] ++ string_bytes "endpoints" ++ [10]
            ++ (if negb (st =? 3) then string_bytes "configure" ++ [10] else [])))
  else sys EISDIR.

Definition open_handle_port_state (port flags : Z) : xp Handle :=
  if wants flags O_DIRECTORY && negb (wants flags O_STAT) then sys ENOTDIR
  else mret (HPortState port 0).

(** The keys of the [BTreeMap], in order. *)
Definition endpoint_keys (p : PortSt) : list Z :=
  merge_sort Z.le (map_to_list (po_endpoint_states p)).*1.

Definition open_handle_port_endpoints (port flags : Z) : xp Handle :=
  if negb (wants flags O_DIRECTORY) && negb (wants flags O_STAT) then sys EISDIR
  else
    p ← get_port ENOENT port;
    mret (HEndpoints port 0
      (mjoin ((λ k, string_bytes (pretty k) ++ [10]) <$> endpoint_keys p))).

Definition open_handle_endpoint_root (port endp flags : Z) : xp Handle :=
  if negb (wants flags O_DIRECTORY) && negb (wants flags O_STAT) then sys EISDIR
  else
    p ← get_port ENOENT port;
    if bool_decide (po_endpoint_states p !! endp = None) then sys ENOENT
    else mret (HEndpoint port endp
           (EhRoot 0 (string_bytes "ctl" ++ [10] ++ string_bytes "data" ++ [10]))).

Definition open_handle_single_endpoint (port endp : Z) (handle_type : string) (flags : Z)
    : xp Handle :=
  if decide (handle_type = "root") then open_handle_endpoint_root port endp flags
  else if decide (handle_type = "ctl" ∨ handle_type = "data") then
    if wants flags O_DIRECTORY && negb (wants flags O_STAT) then sys EISDIR
    else
      p ← get_port ENOENT port;
      if bool_decide (po_endpoint_states p !! endp = None) then sys ENOENT
      else mret (HEndpoint port endp (if decide (handle_type = "ctl") then EhCtl else EhData))
  else panic.

Definition open_handle_configure_endpoints (port flags : Z) : xp Handle :=
  if wants flags O_DIRECTORY && negb (wants flags O_STAT) then sys ENOTDIR
  else if negb (Z.land flags O_RDWR =? O_WRONLY) && negb (wants flags O_STAT) then sys EACCES
  else mret (HConfigureEndpoints port).

Definition open_handle_port_request (port flags : Z) : xp Handle :=
  if wants flags O_DIRECTORY && negb (wants flags O_STAT) then sys ENOTDIR
  else mret (HPortReq port PqInit).

Definition open_handle (params : SchemeParameters) (flags : Z) : xp Handle :=
  match params with
  | SpTopLevel => open_handle_top_level flags
  | SpPort port => open_handle_port port flags
  | SpPortDesc port => open_handle_port_descriptors port flags
  | SpPortState port => open_handle_port_state port flags
  | SpPortReq port => open_handle_port_request port flags
  | SpEndpoints port => open_handle_port_endpoints port flags
  | SpEndpoint port endp ty => open_handle_single_endpoint port endp ty flags
  | SpConfigureEndpoints port => open_handle_configure_endpoints port flags
  end.

Definition xs_open (path : string) (flags uid : Z) : sp Z :=
  if negb (uid =? 0) then throw (Sys EACCES)
  else
    params ← hci (lift_res (from_scheme path));
    h ← hci (open_handle params flags);
    fd ← gets sc_next;
    _ ← modify (λ s, mk_scheme (sc_hci s) (<[fd := h]> (sc_handles s)) (as_usize (sc_next s + 1)));
    mret fd.

(** *** The other calls *)

(** Mode and size; the size is left alone when there is none. *)
Definition xs_fstat (fd : Z) : sp (HandleType * option nat * bool) :=
  h ← get_handle fd;
  ty ← unwrap (get_handle_type h);
  mret (ty, get_buf_len h, match h with HConfigureEndpoints _ => true | _ => false end).

(** The path is written to the start of the buffer; the length is that of the
    buffer, which is where the end of a cursor over a slice is. *)
Definition xs_fpath (fd : Z) (buf : list Z) : sp (nat * list Z) :=
  h ← get_handle fd;
  let path := string_bytes (to_scheme h) in
  if decide (length buf < length path)%nat then panic
  else mret (length buf, path ++ drop (length path) buf).

(** [whence]: 0 is SEEK_SET, 1 SEEK_CUR, 2 SEEK_END. *)
Definition xs_seek (fd pos whence : Z) : sp Z :=
  h ← get_handle fd;
  match fixed_file h with
  | Some (offset, b) =>
      let max := Z.of_nat (length b) in
      match whence with
      | 0 | 1 | 2 =>
          let target :=
            match whence with
            | 0 => pos
            | 1 => as_i 64 (Z.of_nat offset + pos)
            | _ => as_i 64 (max + pos)
            end in
          let o := Z.max 0 (Z.min target max) in
          _ ← put_handle fd (with_offset (Z.to_nat o) h);
          mret o
      | _ => throw (Sys EINVAL)
      end
  | None =>
      match h with
      | HPortState port _ =>
          match whence with
          | 0 | 1 | 2 => _ ← put_handle fd (HPortState port (as_usize pos)); mret pos
          | _ => throw (Sys EINVAL)
          end
      | _ => throw (Sys ESPIPE)
      end
  end.

(** Reading a fixed file: the copied bytes always start at the beginning. *)
Definition read_fixed (offset : nat) (src : list Z) (buf_len : nat) : list Z * nat :=
  let max_bytes_to_read := Nat.min (length src) buf_len in
  let bytes_to_read := (Nat.max max_bytes_to_read offset - offset)%nat in
  (take bytes_to_read src, offset + bytes_to_read)%nat.

Definition port_state_of (state : Z) : string :=
  match state with
  | 0 => port_state_str PsEnabledOrDisabled
  | 1 => port_state_str PsDefault
  | 2 => port_state_str PsAddressed
  | 3 => port_state_str PsConfigured
  | _ => "unknown"
  end.

(** The offset of a state file is a [usize] that a seek may set to any value;
    the second slice check of [write_dyn_string] can fail. *)
Definition read_port_state (fd port offset : Z) (buf_len : nat) : sp (list Z) :=
  p ← hci (get_port EBADF port);
  ctxs ← hci (gets (λ s, xhc_contexts (x_world s)));
  '(d, _) ← hci (lift_opt (ctxs !! Z.to_nat (po_slot p)) EBADF);
  '(out, o) ← unwrap (write_dyn_string (string_bytes (port_state_of (slot_ctx_state d))) buf_len
                        (Z.to_nat offset));
  _ ← put_handle fd (HPortState port (as_usize (Z.of_nat o)));
  mret out.

(** The bytes the call reports as read, at the start of the caller's buffer. *)
Definition xs_read (fd : Z) (buf_len : nat) : sp (list Z) :=
  h ← get_handle fd;
  match fixed_file h with
  | Some (offset, src) =>
      let '(out, o) := read_fixed offset src buf_len in
      _ ← put_handle fd (with_offset o h);
      mret out
  | None =>
      match h with
      | HEndpoint port endp EhCtl => hci (on_read_endp_ctl port endp buf_len)
      | HEndpoint port endp EhData =>
          '(n, bytes) ← hci (on_read_endp_data port endp buf_len);
          mret (take (Z.to_nat n) bytes)
      | HPortState port offset => read_port_state fd port offset buf_len
      | HPortReq port st =>
          _ ← put_handle fd (HPortReq port PqTmp);
          handle_port_req_read fd port st buf_len
      | _ => throw (Sys EBADF)
      end
  end.

Context `{HT : PortTime W}.

Definition xs_write (fd : Z) (buf : list Z) : sp Z :=
  h ← get_handle fd;
  match h with
  | HConfigureEndpoints port =>
      _ ← hci (configure_endpoints port buf);
      mret (Z.of_nat (length buf))
  | HEndpoint port endp EhCtl => n ← hci (on_write_endp_ctl port endp buf); mret (Z.of_nat n)
  | HEndpoint port endp EhData => hci (on_write_endp_data port endp buf)
  | HPortReq port st =>
      _ ← put_handle fd (HPortReq port PqTmp);
      n ← handle_port_req_write fd port st buf;
      mret (Z.of_nat n)
  | _ => throw (Sys EBADF)
  end.

Definition xs_close (fd : Z) : sp unit :=
  _ ← get_handle fd;
  modify (λ s, mk_scheme (sc_hci s) (delete fd (sc_handles s)) (sc_next s)).

(** ** The device handle of a class driver *)

Abbreviation cp := (prog (XScheme W) ClientError).

Definition via {A : Type} (m : sp A) : cp A := λ s,
  match m s with
  | (Ok a, s') => (Ok a, s')
  | (Err e, s') => (Err (CeIo e), s')
  | (Panic, s') => (Panic, s')
  end.

(** The file is closed when its handle is dropped, after success and failure. *)
Definition then_close {A : Type} (fd : Z) (body : cp A) : cp A := λ s,
  match body s with
  | (Panic, s') => (Panic, s')
  | (r, s') => (r, (xs_close fd s').2)
  end.

(** [File::open] and the use of the file. *)
Definition with_file {A : Type} (path : string) (flags : Z) (body : Z → cp A) : cp A :=
  fd ← via (xs_open path flags 0); then_close fd (body fd).

Definition device_request (port : Z) (req_type : PortReqTy) (req_recipient : PortReqRecipient)
    (request value index flags : Z) (d : DeviceReqData) : cp (list Z) :=
  if 65535 <? Z.of_nat (drd_len d) then throw (CeTransferBufTooLarge (drd_len d))
  else
    let req := mk_port_req (drd_direction d) req_type req_recipient request value index
                 (Z.of_nat (drd_len d))
                 (match d with DNoData => false | _ => true end) in
    let json := json_of_port_req req in
    with_file (port_name port +:+ "/request") flags (λ fd,
      n ← via (xs_write fd json);
      if negb (n =? Z.of_nat (length json))
      then throw (CeInvalid "device_request didn't return the same number of bytes as were written")
      else
        match d with
        | DIn len =>
            bytes ← via (xs_read fd len);
            if negb (Nat.eqb (length bytes) len)
            then throw (CeInvalid "device_request didn't transfer (host2dev) all bytes")
            else mret bytes
        | DOut buf =>
            n ← via (xs_write fd buf);
            if negb (n =? Z.of_nat (length buf))
            then throw (CeInvalid "device_request didn't transfer (dev2host) all bytes")
            else mret []
        | DNoData => mret []
        end).

Definition client_get_descriptor (port : Z) (recipient : PortReqRecipient) (ty idx windex flags : Z)
    (len : nat) : cp (list Z) :=
  device_request port PtStandard recipient 0x06 (Z.lor (Z.shiftl ty 8) idx) windex flags (DIn len).

Definition client_clear_feature (port : Z) (recipient : PortReqRecipient)
    (index feature_sel flags : Z) : cp unit :=
  _ ← device_request port PtStandard recipient 0x01 feature_sel index flags DNoData;
  mret tt.
End scheme.

(** ** Paths of handles *)

Lemma take_digits_app s : ∀ rest c a k v,
  take_digits c a s = (k, v, "") → take_digits c a (s +:+ rest) = take_digits k v rest.
Proof.
  induction s as [|ch s IH]; intros rest c a k v; cbn [take_digits].
  - by intros [= -> ->].
  - change (String ch s +:+ rest) with (String ch (s +:+ rest)). cbn [take_digits]. destruct (digit_of ch); [apply IH|done].
Qed.

(** The decimal names of 0 to 999 are one to three digits. *)
Lemma digits_of_small :
  forallb (λ n, match take_digits 0 0 (pretty (Z.of_nat n)) with
                | (k, v, "") => (1 <=? k)%nat && (k <=? 3)%nat && (v =? Z.of_nat n)
                | _ => false
                end) (seq 0 1000) = true.
Proof. vm_compute. reflexivity. Qed.

Lemma number_pretty n rest :
  0 <= n < 1000 →
  (match rest with EmptyString => True | String c _ => digit_of c = None end) →
  number (pretty n +:+ rest) = Some (n, rest).
Proof.
  intros Hn Hr. pose proof (proj1 (forallb_forall _ _) digits_of_small (Z.to_nat n)) as Hd.
  specialize (Hd ltac:(apply in_seq; lia)). cbv beta in Hd. rewrite Z2Nat.id in Hd by lia.
  destruct (take_digits 0 0 (pretty n)) as [[k v] r] eqn:E.
  destruct r; [|done]. apply andb_prop in Hd as [Hk Hv]. apply Z.eqb_eq in Hv as ->.
  unfold number. rewrite (take_digits_app _ _ _ _ _ _ E).
  assert (take_digits k n rest = (k, n, rest)) as ->.
  { destruct rest as [|c rest]; [done|]. cbn [take_digits]. by rewrite Hr. }
  by rewrite Hk.
Qed.

Lemma strip_app pre s : strip pre (pre +:+ s) = Some s.
Proof.
  induction pre as [|c pre IH]; [by destruct s|].
  change (String c pre +:+ s) with (String c (pre +:+ s)). cbn [strip]. by rewrite decide_True.
Qed.

Lemma port_prefix_name n rest :
  0 <= n < 1000 →
  (match rest with EmptyString => True | String c _ => digit_of c = None end) →
  port_prefix (port_name n +:+ rest) = Some (n, rest).
Proof.
  intros Hn Hr. unfold port_prefix, port_name.
  change (("port" +:+ pretty n) +:+ rest) with ("port" +:+ (pretty n +:+ rest)).
  rewrite strip_app. cbn [mbind option_bind].
  by apply number_pretty.
Qed.

(** What a path of this handle is parsed to. *)
Definition handle_params (h : Handle) : SchemeParameters :=
  match h with
  | HTopLevel _ _ => SpTopLevel
  | HPort port _ _ => SpPort port
  | HPortDesc port _ _ => SpPortDesc port
  | HPortState port _ => SpPortState port
  | HPortReq port _ => SpPortReq port
  | HEndpoints port _ _ => SpEndpoints port
  | HEndpoint port endp ty =>
      SpEndpoint port endp
        (match ty with EhData => "data" | EhCtl => "ctl" | EhRoot _ _ => "root" end)
  | HConfigureEndpoints port => SpConfigureEndpoints port
  end.

Definition handle_ok (h : Handle) : Prop :=
  match h with
  | HTopLevel _ _ => True
  | HPort port _ _ | HPortDesc port _ _ | HPortState port _ | HPortReq port _
  | HEndpoints port _ _ | HConfigureEndpoints port => 0 <= port < 1000
  | HEndpoint port endp _ => 0 <= port < 1000 ∧ 0 <= endp < 256
  end.

(** The names of the ports themselves. *)
Lemma port_names_unknown :
  forallb (λ n, match from_scheme (port_name (Z.of_nat n)) with
                | Err ENOENT => true
                | _ => false
                end) (seq 0 1000) = true.
Proof. vm_compute. reflexivity. Qed.

Lemma port_name_unknown n : 0 <= n < 1000 → from_scheme (port_name n) = Err ENOENT.
Proof.
  intros Hn. pose proof (proj1 (forallb_forall _ _) port_names_unknown (Z.to_nat n)) as Hd.
  specialize (Hd ltac:(apply in_seq; lia)). cbv beta in Hd. rewrite Z2Nat.id in Hd by lia.
  by destruct (from_scheme (port_name n)) as [|[]|].
Qed.

Lemma sub_endpoint_name port endp ty :
  0 <= port < 1000 → 0 <= endp < 256 → ty = "ctl" ∨ ty = "data" →
  sub_endpoint (port_name port +:+ "/endpoints/" +:+ pretty endp +:+ "/" +:+ ty)
  = Some (port, endp, ty).
Proof.
  intros Hp He Ht.
  assert (sub_endpoint_here (port_name port +:+ "/endpoints/" +:+ pretty endp +:+ "/" +:+ ty)
          = Some (port, endp, ty)) as E.
  { unfold sub_endpoint_here. rewrite port_prefix_name by done. cbn [mbind option_bind].
    rewrite strip_app. cbn [mbind option_bind].
    rewrite number_pretty by (lia || done). cbn [mbind option_bind].
    rewrite strip_app. cbn [mbind option_bind]. by rewrite decide_True. }
  destruct (port_name port +:+ _); cbn [sub_endpoint]; by rewrite E.
Qed.

(** The path of an open handle names that handle again: parsing what [fpath]
    writes for it gives the parameters it was opened with, for every kind of
    handle and all port and endpoint numbers a path can carry; only the directory
    of a port has a path that no expression accepts. *)
Theorem handle_path_roundtrip h :
  handle_ok h →
  from_scheme (to_scheme h) =
    match h with HPort _ _ _ => Err ENOENT | _ => Ok (handle_params h) end.
Proof.
  intros Hok. destruct h as [o b|port o b|port o b|port o|port st|port o b|port endp ty|port];
    cbn [to_scheme handle_params handle_ok] in *; [reflexivity|by apply port_name_unknown|..].
  all: unfold from_scheme.
  all: try (rewrite port_prefix_name by done; reflexivity).
  destruct Hok as [Hp He]. rewrite port_prefix_name by done.
  rewrite !decide_False by discriminate. rewrite strip_app. cbn [mbind option_bind].
  destruct ty as [| |o b].
  - rewrite number_pretty by (lia || done). 
    pose proof (sub_endpoint_name port endp "data" Hp He ltac:(auto)) as Hs.
    change ("/" +:+ "data") with "/data" in Hs. rewrite Hs.
    unfold endp_u8. by rewrite (proj2 (Z.ltb_lt _ _)) by lia.
  - rewrite number_pretty by (lia || done). 
    pose proof (sub_endpoint_name port endp "ctl" Hp He ltac:(auto)) as Hs.
    change ("/" +:+ "ctl") with "/ctl" in Hs. rewrite Hs.
    unfold endp_u8. by rewrite (proj2 (Z.ltb_lt _ _)) by lia.
  - rewrite number_pretty by (lia || done).
    unfold endp_u8. by rewrite (proj2 (Z.ltb_lt _ _)) by lia.
Qed.

(** ** Request handles and errors *)

Section poisoned.
Context {W : Type} `{HC : Controller W} `{HJ : EndpJson} `{HF : ConfJson} `{HE : SchemeEnv}
        `{HT : PortTime W}.
Implicit Types (s : XScheme W).

(** The handles are not touched. *)
Definition same_handles {A : Type} (m : prog (XScheme W) fault A) : Prop :=
  ∀ hs, keeps (λ s, sc_handles s = hs) m.

Lemma same_handles_hci {A : Type} (m : prog (Xhci W) fault A) : same_handles (hci m).
Proof. intros hs s <-. unfold hci. by destruct (m (sc_hci s)). Qed.

(** One step of a proof that the handles stay. *)
Ltac same_step :=
  first
    [ apply keeps_ret | apply keeps_throw | apply keeps_panic | apply same_handles_hci
    | apply Prelude.keeps_if | apply keeps_bind; [|intros ?]
    | match goal with |- keeps _ (match ?x with _ => _ end) => destruct x end ].

(** A program that fails before its last step, which puts the handle back. *)
Lemma err_before_put {A B : Type} fd (f : A → PortReqState) (g : A → B)
    (m : prog (XScheme W) fault A) s e s' h :
  same_handles m → sc_handles s !! fd = Some (HPortReq h PqTmp) →
  (a ← m; _ ← put_req_state fd (f a); mret (g a)) s = (Err e, s') →
  sc_handles s' !! fd = Some (HPortReq h PqTmp).
Proof.
  intros Hm Hfd. unfold mbind, prog_bind, p_bind. specialize (Hm _ s eq_refl).
  destruct (m s) as [[a|x|] s1]; cbn [snd] in Hm.
  - unfold put_req_state, get_handle, mbind, prog_bind, p_bind. rewrite Hm, Hfd. done.
  - intros [= _ <-]. by rewrite Hm.
  - done.
Qed.

(** An error poisons a request handle.  If a read or a write of a port's
    request file returns an error (a malformed request or a wrong buffer length
    among them), the handle is left in the placeholder state, and from then on
    every read, write or stat of it panics the driver. *)
Theorem failed_request_poisons s s' fd port st e :
  sc_handles s !! fd = Some (HPortReq port st) →
  ((∃ buf, xs_write fd buf s = (Err e, s')) ∨ (∃ n, xs_read fd n s = (Err e, s'))) →
  sc_handles s' !! fd = Some (HPortReq port PqTmp) ∧
  (∀ buf, (xs_write fd buf s').1 = Panic) ∧ (∀ n, (xs_read fd n s').1 = Panic) ∧
  (xs_fstat fd s').1 = Panic.
Proof.
  intros Hfd Herr.
  assert (sc_handles s' !! fd = Some (HPortReq port PqTmp)) as Htmp.
  { destruct Herr as [[buf Hw]|[n Hr]].
    - unfold xs_write, mbind, prog_bind in Hw.
      erewrite bind_Ok in Hw by (unfold get_handle; by rewrite Hfd).
      cbv beta iota in Hw. erewrite bind_Ok in Hw by reflexivity. unfold p_bind at 1 in Hw.
      match type of Hw with context [handle_port_req_write fd port st buf ?q] =>
        destruct (handle_port_req_write fd port st buf q) as [[n|x|] s1] eqn:E; try done end.
      injection Hw as -> ->. unfold handle_port_req_write in E.
      eapply (err_before_put fd id (λ _, length buf)); [| |exact E]; [|apply lookup_insert_eq].
      intros hs. unfold mbind, prog_bind. repeat same_step.
    - unfold xs_read, mbind, prog_bind in Hr.
      erewrite bind_Ok in Hr by (unfold get_handle; by rewrite Hfd). cbv beta in Hr.
      cbn [fixed_file] in Hr.
      erewrite bind_Ok in Hr by reflexivity.
      eapply (err_before_put fd (λ _, PqInit) id); [| |exact Hr]; [|apply lookup_insert_eq].
      intros hs. unfold mbind, prog_bind. repeat same_step. }
  split; [done|].
  assert (∀ A (k : Handle → prog (XScheme W) fault A),
    p_bind k (get_handle fd) s' = k (HPortReq port PqTmp) s') as Hget.
  { intros A k. unfold p_bind, get_handle. by rewrite Htmp. }
  split_and!; intros; unfold xs_write, xs_read, xs_fstat, mbind, prog_bind; rewrite Hget; reflexivity.
Qed.
End poisoned.

(** ** Reading fixed files *)

Section fixed.
Context {W : Type} `{HC : Controller W} `{HJ : EndpJson} `{HF : ConfJson} `{HE : SchemeEnv}.
Implicit Types (s : XScheme W).

(** [m] reads with a buffer of [k] bytes each. *)
Fixpoint read_all (fd : Z) (k m : nat) : prog (XScheme W) fault (list Z) :=
  match m with
  | O => mret []
  | S m => a ← xs_read fd k; b ← read_all fd k m; mret (a ++ b)
  end.

Lemma fixed_with_offset h o o' src :
  fixed_file h = Some (o, src) → fixed_file (with_offset o' h) = Some (o', src).
Proof. by destruct h as [| | | | | |? ? []|]; cbn; intros [= -> ->]. Qed.

Lemma read_fixed_step s fd h o src k :
  sc_handles s !! fd = Some h → fixed_file h = Some (o, src) →
  xs_read fd k s =
    (Ok (read_fixed o src k).1,
     mk_scheme (sc_hci s) (<[fd := with_offset (read_fixed o src k).2 h]> (sc_handles s)) (sc_next s)).
Proof.
  intros Hfd Hf. unfold xs_read, mbind, prog_bind.
  erewrite bind_Ok by (unfold get_handle; by rewrite Hfd). cbv beta. rewrite Hf.
  destruct (read_fixed o src k) as [out o'] eqn:E. cbv beta iota.
  erewrite bind_Ok by reflexivity. reflexivity.
Qed.

Lemma read_at_end m : ∀ s fd h src k,
  sc_handles s !! fd = Some h → fixed_file h = Some (Nat.min (length src) k, src) →
  ∃ s', read_all fd k m s = (Ok [], s').
Proof.
  induction m as [|m IH]; intros s fd h src k Hfd Hf; cbn [read_all]; [by eexists|].
  assert (read_fixed (Nat.min (length src) k) src k = ([], Nat.min (length src) k)) as E.
  { unfold read_fixed. rewrite Nat.max_id, Nat.sub_diag, Nat.add_0_r. done. }
  unfold mbind, prog_bind. rewrite (bind_Ok _ _ _ _ _ (read_fixed_step s fd h _ src k Hfd Hf)).
  rewrite E. cbn [fst snd].
  destruct (IH (mk_scheme (sc_hci s)
    (<[fd := with_offset (Nat.min (length src) k) h]> (sc_handles s)) (sc_next s))
    fd (with_offset (Nat.min (length src) k) h) src k) as [s' Hs'].
  - apply lookup_insert_eq.
  - by eapply fixed_with_offset.
  - rewrite (bind_Ok _ _ _ _ _ Hs'). by eexists.
Qed.

(** A file of fixed contents (a directory listing or the descriptors of a
    device) can only be read in one piece: however often it is read with a buffer
    of [k] bytes, the reads return its first [k] bytes and then nothing, so that
    a reader with a smaller buffer takes a prefix for the whole. *)
Theorem short_reads_truncate s fd h src k m :
  sc_handles s !! fd = Some h → fixed_file h = Some (O, src) →
  ∃ s', read_all fd k (S m) s = (Ok (take k src), s').
Proof.
  intros Hfd Hf. cbn [read_all]. unfold mbind, prog_bind.
  rewrite (bind_Ok _ _ _ _ _ (read_fixed_step s fd h _ src k Hfd Hf)).
  assert (read_fixed 0 src k = (take k src, Nat.min (length src) k)) as ->.
  { unfold read_fixed. rewrite Nat.max_0_r, Nat.sub_0_r, Nat.add_0_l. f_equal.
    destruct (Nat.le_ge_cases (length src) k).
    - by rewrite Nat.min_l, !take_ge by lia.
    - by rewrite Nat.min_r by lia. }
  cbn [fst snd].
  destruct (read_at_end m (mk_scheme (sc_hci s)
    (<[fd := with_offset (Nat.min (length src) k) h]> (sc_handles s)) (sc_next s))
    fd (with_offset (Nat.min (length src) k) h) src k) as [s' Hs'].
  - apply lookup_insert_eq.
  - by eapply fixed_with_offset.
  - rewrite (bind_Ok _ _ _ _ _ Hs'). exists s'. by rewrite app_nil_r.
Qed.

(** [fpath] reports the length of the caller's buffer instead of the path's, and
    panics when the path does not fit. *)
Lemma fpath_spec s fd h buf :
  sc_handles s !! fd = Some h →
  let path := string_bytes (to_scheme h) in
  xs_fpath fd buf s =
    if decide (length buf < length path)%nat then (Panic, s)
    else (Ok (length buf, path ++ drop (length path) buf), s).
Proof.
  intros Hfd path. unfold xs_fpath, mbind, prog_bind.
  erewrite bind_Ok by (unfold get_handle; by rewrite Hfd). cbv beta zeta. fold path.
  by destruct (decide _).
Qed.
End fixed.

(** ** A device request from the client's call to its result *)

Section request.
Context {W : Type} `{HC : Controller W} `{HJ : EndpJson} `{HF : ConfJson} `{HE : SchemeEnv}
        `{HT : PortTime W}.

(** A port whose default pipe is idle, no other work pending in the driver. *)
Record pipe_ready (s : Xhci W) (port : Z) (p : PortSt) (r : Ring) (st : EndpIfState) : Prop := {
  pr_guard : x_guard s = None;
  pr_states : x_states s = [];
  pr_alive : x_reactor_alive s = true;
  pr_port : x_port_states s !! port = Some p;
  pr_port_range : 0 <= port < 256;
  pr_endpoint : po_endpoint_states p !! 0 = Some (mk_es (RosRing r) st);
  pr_ring : ring_shape r;
}.

Lemma execute_control_in (s : Xhci W) port p r st stp phys len :
  pipe_ready s port p r st → setup_wf stp → u_range 64 phys → u_range 16 len →
  ∃ i1 i2 i3 r1 r2 r3,
    enqueue (setup stp KIn) r = Some (Ok i1, r1) ∧
    enqueue (data phys len true) r1 = Some (Ok i2, r2) ∧
    enqueue (status 0 false true false false) r2 = Some (Ok i3, r3) ∧ ring_shape r3 ∧
    ∀ e w,
    let ports := <[port := port_with 0 r3 st p]> (x_port_states s) in
    xhc_doorbell (x_cmd s) ports (po_slot p) 1 (x_world s) = ([e], w) →
    answers_trb e r3 i3 →
    ∃ s', execute_control_transfer port stp KIn (data phys len true) s = (Ok e, s') ∧
      x_world s' = w ∧ x_states s' = [] ∧ x_reactor_alive s' = true ∧ x_guard s' = None ∧
      x_port_states s' = ports ∧ x_cmd s' = x_cmd s.
Proof.
  intros [] Hwf Hph Hlen.
  destruct (enqueue_shape _ _ r (builds_setup stp KIn Hwf) pr_ring0)
    as (i1 & r1 & E1 & Hr1 & Hp1 & Hi1).
  destruct (enqueue_shape _ _ r1 (builds_data phys len true Hph Hlen) Hr1)
    as (i2 & r2 & E2 & Hr2 & Hp2 & Hi2).
  destruct (enqueue_shape _ _ r2 (builds_status false) Hr2) as (i3 & r3 & E3 & Hr3 & Hp3 & Hi3).
  exists i1, i2, i3, r1, r2, r3. split_and!; try done. intros e w ports Hdb Ha.
  unfold execute_control_transfer, mbind, prog_bind.
  rewrite (bind_Ok _ _ _ _ _ (get_port_ok EBADF port s p ltac:(by rewrite pr_guard0) pr_port0)).
  rewrite pr_endpoint0. erewrite bind_Ok by reflexivity. cbn [es_transfer].
  erewrite bind_Ok by reflexivity.
  assert (∀ f i q q' (s0 : Xhci W), enqueue f q = Some (Ok i, q') → ring_put f q s0 = (Ok (i, q'), s0)) as Hput.
  { intros f i q q' s0 E. unfold ring_put. by rewrite E. }
  rewrite (bind_Ok _ _ _ _ _ (Hput _ _ _ _ s E1)). cbv beta iota.
  rewrite (bind_Ok _ _ _ _ _ (Hput _ _ _ _ s E2)). cbv beta iota.
  change (negb (bool_decide (transfer_kind_code KIn = transfer_kind_code KIn))) with false.
  rewrite (bind_Ok _ _ _ _ _ (Hput _ _ _ _ s E3)). cbv beta iota.
  erewrite bind_Ok by reflexivity. cbn [with_endp_ring es_transfer es_if_state].
  change (set_port_states (<[port:=with_endpoint 0 (mk_es (RosRing r3) st) p]> (x_port_states s)) s)
    with (set_port_states ports s).
  destruct Hp1 as (_ & _ & Hl1), Hp2 as (_ & _ & Hl2), Hp3 as (_ & _ & Hl3).
  assert (i1 < length (rg_trbs r3))%nat
    by (rewrite <- Hl3, <- Hl2; by eapply lookup_lt_Some).
  assert (i3 < length (rg_trbs r3))%nat by (by eapply lookup_lt_Some).
  destruct (await_td (set_port_states ports s) port 0 (port_with 0 r3 st p) r3 st
    (phys_base hc_ac64 r3 + TRB_SIZE * Z.of_nat i1) (phys_base hc_ac64 r3 + TRB_SIZE * Z.of_nat i3)
    false i3 e w 0 1) as (s' & t & Hw & Hprops); try done.
  { apply lookup_insert_eq. }
  { unfold port_with, with_endpoint. cbn. by rewrite lookup_insert_eq. }
  { unfold in_td. lia. }
  pose proof (answers_trb_code _ _ _ Ha) as (_ & Hh & _).
  erewrite bind_Ok.
  2:{ unfold next_transfer_event_trb, mbind, prog_bind. rewrite Hi3.
      erewrite bind_Ok by reflexivity.
      assert (is_transfer_trb (status 0 false true false false (rg_cycle r3) zero_trb).2 = true ∧
              trb_type (status 0 false true false false (rg_cycle r3) zero_trb).2
              = trb_type_code TStatusStage) as [-> ->] by (by destruct (rg_cycle r3)).
      cbn [negb]. unfold trb_virt. rewrite !trb_ptr_of_entry by done.
      erewrite bind_Ok by reflexivity. erewrite bind_Ok by reflexivity. exact Hw. }
  cbn [ne_event_trb ne_src_trb]. erewrite bind_Ok by reflexivity. rewrite Hh.
  erewrite bind_Ok by reflexivity. exists s'. split; [done|]. exact Hprops.
Qed.

Lemma hci_Ok {A : Type} (m : prog (Xhci W) fault A) (s : XScheme W) a x :
  m (sc_hci s) = (Ok a, x) → hci m s = (Ok a, mk_scheme x (sc_handles s) (sc_next s)).
Proof. intros E. unfold hci. by rewrite E. Qed.

(** The state of the scheme with one handle in front of the others. *)
Definition with_handle (x : Xhci W) (fd : Z) (h : Handle) (s : XScheme W) : XScheme W :=
  mk_scheme x (<[fd := h]> (sc_handles s)) (sc_next s).

Lemma put_req_ok (x : Xhci W) fd port st st' s :
  put_req_state fd st' (with_handle x fd (HPortReq port st) s)
  = (Ok tt, with_handle x fd (HPortReq port st') s).
Proof.
  unfold put_req_state, mbind, prog_bind. erewrite bind_Ok.
  2:{ unfold get_handle, with_handle. cbn [sc_handles]. by rewrite lookup_insert_eq. }
  unfold put_handle, modify, with_handle. cbn. by rewrite insert_insert_eq.
Qed.

(** The first call: the request is decoded and a buffer is allocated. *)
Lemma write_request (x : Xhci W) fd port req s json phys virt w1 :
  port_req_of_json json = Some req → pr_transfers_data req = true →
  pr_direction req = PrDeviceToHost → 0 <= pr_length req →
  dma_zeroed (pr_length req) (x_world x) = (inr (phys, virt), w1) →
  let n := Z.to_nat (pr_length req) in
  xs_write fd json (with_handle x fd (HPortReq port PqInit) s)
  = (Ok (Z.of_nat (length json)),
     with_handle (set_world (dma_set phys (replicate n 0) w1) x) fd
       (HPortReq port (PqWaitingForDeviceBytes (mk_dma phys n) (req_setup req))) s).
Proof.
  intros Hj Ht Hd Hl Ha n. unfold xs_write, mbind, prog_bind.
  erewrite bind_Ok by (unfold get_handle, with_handle; cbn [sc_handles]; by rewrite lookup_insert_eq).
  cbv beta iota. erewrite bind_Ok by reflexivity.
  cbn [sc_hci sc_handles sc_next with_handle]. rewrite insert_insert_eq.
  change (mk_scheme x (<[fd:=HPortReq port PqTmp]> (sc_handles s)) (sc_next s))
    with (with_handle x fd (HPortReq port PqTmp) s).
  erewrite bind_Ok; [reflexivity|]. unfold handle_port_req_write, mbind, prog_bind.
  erewrite bind_Ok.
  2:{ erewrite bind_Ok by (apply hci_Ok; by rewrite Hj). cbv beta.
      erewrite bind_Ok.
      2:{ apply hci_Ok. unfold port_req_init_st, mbind, prog_bind. rewrite Ht.
          erewrite bind_Ok; [rewrite Hd; reflexivity|].
          unfold alloc_dma_zeroed_unsized. rewrite Z2Nat.id by done. cbn [sc_hci with_handle].
          rewrite Ha. reflexivity. }
      cbv beta iota. reflexivity. }
  cbv beta. cbn [sc_handles sc_next with_handle].
  match goal with |- p_bind _ _ ?q = _ =>
    change q with (with_handle (set_world (dma_set phys (replicate n 0) w1) x) fd
                     (HPortReq port PqTmp) s) end.
  rewrite (bind_Ok _ _ _ _ _ (put_req_ok _ _ _ _ _ _)). reflexivity.
Qed.

(** The second call: the transfer runs and the buffer is handed over. *)
Lemma read_request (x x' : Xhci W) fd port s b stp e :
  execute_control_transfer port stp KIn (data (dm_phys b) (su_length stp) true) x = (Ok e, x') →
  xs_read fd (dm_len b) (with_handle x fd (HPortReq port (PqWaitingForDeviceBytes b stp)) s)
  = (Ok (dma_get (x_world x') (dm_phys b) (dm_len b)), with_handle x' fd (HPortReq port PqInit) s).
Proof.
  intros Hx. unfold xs_read, mbind, prog_bind.
  erewrite bind_Ok by (unfold get_handle, with_handle; cbn [sc_handles]; by rewrite lookup_insert_eq).
  cbn [fixed_file]. erewrite bind_Ok by reflexivity.
  cbn [sc_hci sc_handles sc_next with_handle]. rewrite insert_insert_eq.
  change (mk_scheme x (<[fd:=HPortReq port PqTmp]> (sc_handles s)) (sc_next s))
    with (with_handle x fd (HPortReq port PqTmp) s).
  unfold handle_port_req_read, mbind, prog_bind. rewrite Nat.eqb_refl. cbn [negb].
  erewrite bind_Ok.
  2:{ erewrite bind_Ok; [apply hci_Ok; reflexivity|]. apply hci_Ok. cbn [sc_hci with_handle].
      unfold port_req_transfer, mbind, prog_bind.
      change (bool_decide (transfer_kind_code KIn = transfer_kind_code KIn)) with true.
      rewrite (bind_Ok _ _ _ _ _ Hx). reflexivity. }
  cbn [sc_handles sc_next sc_hci with_handle].
  match goal with |- p_bind _ _ ?q = _ => change q with (with_handle x' fd (HPortReq port PqTmp) s) end.
  rewrite (bind_Ok _ _ _ _ _ (put_req_ok _ _ _ _ _ _)). reflexivity.
Qed.

Lemma open_request (s : XScheme W) port flags :
  0 <= port < 1000 → wants flags O_DIRECTORY = false →
  xs_open (port_name port +:+ "/request") flags 0 s =
    (Ok (sc_next s),
     mk_scheme (sc_hci s) (<[sc_next s := HPortReq port PqInit]> (sc_handles s))
       (as_usize (sc_next s + 1))).
Proof.
  intros Hp Hf. unfold xs_open, mbind, prog_bind. cbn [Z.eqb negb].
  assert (from_scheme (port_name port +:+ "/request") = Ok (SpPortReq port)) as ->
    by (unfold from_scheme; by rewrite port_prefix_name).
  erewrite bind_Ok by (apply hci_Ok; reflexivity). cbn [open_handle].
  erewrite bind_Ok by (apply hci_Ok; unfold open_handle_port_request; rewrite Hf; reflexivity).
  erewrite bind_Ok by reflexivity. erewrite bind_Ok by reflexivity. reflexivity.
Qed.

(** C15. A control read of a class driver, end to end.  The request file of the
    port is opened, the request is written, the answer read and the file closed.
    On an idle default pipe this enqueues exactly a setup stage with the encoded
    request, a data stage that points at a zeroed buffer of the asked length and
    a status stage, and rings the doorbell; when the controller answers the
    status stage, the caller gets the bytes the controller left in the buffer, no
    handle is left behind and the pipe is idle again. *)
Theorem device_request_roundtrip (s : XScheme W) port p r st ty rcp request value index flags n
    phys virt w1 :
  pipe_ready (sc_hci s) port p r st → sc_handles s !! sc_next s = None →
  wants flags O_DIRECTORY = false →
  u_range 8 request → u_range 16 value → u_range 16 index → Z.of_nat n <= 65535 →
  let req := mk_port_req PrDeviceToHost ty rcp request value index (Z.of_nat n) true in
  port_req_of_json (json_of_port_req req) = Some req →
  dma_zeroed (Z.of_nat n) (x_world (sc_hci s)) = (inr (phys, virt), w1) → u_range 64 phys →
  ∃ i1 i2 i3 r1 r2 r3,
    enqueue (setup (req_setup req) KIn) r = Some (Ok i1, r1) ∧
    enqueue (data phys (Z.of_nat n) true) r1 = Some (Ok i2, r2) ∧
    enqueue (status 0 false true false false) r2 = Some (Ok i3, r3) ∧
    ∀ e w,
    xhc_doorbell (x_cmd (sc_hci s)) (<[port := port_with 0 r3 st p]> (x_port_states (sc_hci s)))
      (po_slot p) 1 (dma_set phys (replicate n 0) w1) = ([e], w) →
    answers_trb e r3 i3 → length (dma_get w phys n) = n →
    ∃ s', device_request port ty rcp request value index flags (DIn n) s
            = (Ok (dma_get w phys n), s') ∧
      sc_handles s' = sc_handles s ∧ pipe_ready (sc_hci s') port (port_with 0 r3 st p) r3 st.
Proof.
  intros Hrd Hfresh Hfl Hrq Hv Hix Hn req Hjson Hal Hph.
  set (x1 := set_world (dma_set phys (replicate n 0) w1) (sc_hci s)).
  assert (pipe_ready x1 port p r st) as Hrd1 by (destruct Hrd; by split).
  assert (setup_wf (req_setup req)) as Hwf.
  { split_and!; try done; [|unfold u_range; cbn; lia].
    repeat apply u_range_lor; by apply u_range_as_u. }
  destruct (execute_control_in x1 port p r st (req_setup req) phys (Z.of_nat n) Hrd1 Hwf Hph
    ltac:(unfold u_range; lia)) as (i1 & i2 & i3 & r1 & r2 & r3 & E1 & E2 & E3 & Hr3 & Hrun).
  exists i1, i2, i3, r1, r2, r3. split_and!; try done. intros e w Hdb Ha Hlen.
  destruct (Hrun e w Hdb Ha) as (x2 & Hx & Hw & Hst & Hal2 & Hg & Hports & _).
  pose proof (pr_port_range _ _ _ _ _ Hrd) as Hpr.
  unfold device_request. rewrite (proj2 (Z.ltb_ge _ _)) by (cbn; lia).
  unfold with_file, mbind, prog_bind.
  erewrite bind_Ok by (unfold via; by rewrite open_request by (lia || done)).
  set (s1 := mk_scheme (sc_hci s) (sc_handles s) (as_usize (sc_next s + 1))).
  change (mk_scheme (sc_hci s) (<[sc_next s:=HPortReq port PqInit]> (sc_handles s))
            (as_usize (sc_next s + 1)))
    with (with_handle (sc_hci s) (sc_next s) (HPortReq port PqInit) s1).
  unfold then_close. cbn [drd_direction drd_len]. fold req.
  erewrite bind_Ok.
  2:{ unfold via. rewrite (write_request (sc_hci s) (sc_next s) port req s1 _ phys virt w1);
        [|done|done|done|cbn; lia|done]. reflexivity. }
  cbv beta. rewrite Z.eqb_refl. cbn [negb].
  change (Z.to_nat (pr_length req)) with (Z.to_nat (Z.of_nat n)). rewrite Nat2Z.id.
  erewrite bind_Ok.
  2:{ unfold via. pose proof (read_request x1 x2 (sc_next s) port s1 (mk_dma phys n)
        (req_setup req) e Hx) as Hread. cbn [dm_len dm_phys] in Hread.
      fold x1. rewrite Hread. reflexivity. }
  rewrite Hw, Hlen, Nat.eqb_refl. cbn [negb]. eexists. split; [reflexivity|].
  unfold xs_close, mbind, prog_bind.
  erewrite bind_Ok by (unfold get_handle, with_handle; cbn [sc_handles]; by rewrite lookup_insert_eq).
  cbn. rewrite delete_insert_id by done. split; [done|].
  split; try done. - by rewrite Hports, lookup_insert_eq.
  - unfold port_with, with_endpoint. cbn. by rewrite lookup_insert_eq.
Qed.
End request.

(** ** Concrete instances *)

(** An encoding of device requests as eight numbers; the descriptors are empty. *)
#[export] Instance test_scheme_env : SchemeEnv := {
  port_req_of_json := λ bs,
    match bs with
    | [d; r; v; i; l; t] =>
        Some (mk_port_req (if d =? 1 then PrDeviceToHost else PrHostToDevice) PtStandard PcDevice
                r v i l (t =? 1))
    | _ => None
    end;
  json_of_port_req := λ q,
    [match pr_direction q with PrDeviceToHost => 1 | PrHostToDevice => 0 end; pr_request q;
     pr_value q; pr_index q; pr_length q; of_bool (pr_transfers_data q)];
  json_of_dev_desc := λ _, [123; 125];
  O_DIRECTORY := 0x10000000;
  O_STAT := 0x20000000;
  O_RDWR := 0x30000;
  O_WRONLY := 0x20000;
}.

#[export] Instance test_time : PortTime TestW := { reset_wait := λ _ w, w; reset_settle := λ w, w }.

Definition test_scheme (events : list (list Trb)) (hs : gmap Z Handle) : XScheme TestW :=
  mk_scheme (test_hci events {[ 0 := new_port ]}) hs 7.

Lemma handle_path_roundtrip_witness :
  from_scheme "port12/endpoints/3/ctl" = Ok (SpEndpoint 12 3 "ctl").
Proof. apply (handle_path_roundtrip (HEndpoint 12 3 EhCtl)). cbn. lia. Defined.

Lemma failed_request_poisons_witness :
  let s := test_scheme [] {[ 3 := HPortReq 0 PqInit ]} in
  (xs_write 3 [1; 2] s).1 = Err (Sys EBADMSG) ∧ (xs_write 3 [1; 2] (xs_write 3 [1; 2] s).2).1 = Panic.
Proof.
  intros s. split; [vm_compute; reflexivity|].
  destruct (failed_request_poisons s (xs_write 3 [1; 2] s).2 3 0 PqInit (Sys EBADMSG)) as (_ & Hw & _).
  - reflexivity.
  - left. exists [1; 2]. reflexivity.
  - apply Hw.
Defined.

Lemma short_reads_truncate_witness :
  let s := test_scheme [] {[ 3 := HPortDesc 0 0 [1; 2; 3; 4; 5] ]} in
  ∃ s', read_all 3 2 4 s = (Ok [1; 2], s').
Proof.
  intros s. apply (short_reads_truncate s 3 (HPortDesc 0 0 [1; 2; 3; 4; 5]) [1; 2; 3; 4; 5] 2 3);
    reflexivity.
Defined.

Lemma device_request_roundtrip_witness :
  let e := event_trb_of TTransfer CSuccess 0 0x20020 in
  ∃ s', device_request 0 PtStandard PcDevice 6 0x100 0 0 (DIn 8) (test_scheme [[e]] ∅)
          = (Ok (replicate 8 0), s') ∧ sc_handles s' = ∅.
Proof.
  intros e.
  destruct (device_request_roundtrip (test_scheme [[e]] ∅) 0 new_port usb_ring IfInit PtStandard
    PcDevice 6 0x100 0 0 8 0x100000 0x100000 (mk_test [[e]] ∅ 0x101000 [] []))
    as (i1 & i2 & i3 & r1 & r2 & r3 & E1 & E2 & E3 & Hall); try reflexivity; try lia.
  - split; try reflexivity; try lia. split; [reflexivity|]. cbn. lia.
  - done.
  - done.
  - done.
  - done.
  - vm_compute in E1. injection E1 as <- <-. vm_compute in E2. injection E2 as <- <-.
    vm_compute in E3. injection E3 as <- <-.
    destruct (Hall e (mk_test [] (mem_put 0x100000 (replicate 8 0) ∅) 0x101000 [] []))
      as (s' & Hs & Hh & _).
    + reflexivity.
    + split_and!; [reflexivity|reflexivity|left; split; reflexivity].
    + reflexivity.
    + exists s'. split; [exact Hs|exact Hh].
Defined.
