(* ===== verification/ScsiCmd.v ===== *)
(** The SCSI commands of the USB mass storage driver: command blocks, the data
    the device answers with, and the walk over mode pages
    (storage/usbscsid/src/scsi/cmds.rs, opcodes.rs).

    A command is a packed structure of native (little-endian) integers; its bytes
    are what is sent.  The fields that SCSI wants big-endian are swapped by
    [to_be] where the code swaps them, and only there.  Views of bytes as
    structures are [plain::from_bytes] ([plain_ok] of [Layouts]) and
    [plain::slice_from_bytes] ([plain_slice]). *)

From S2P Require Import Prelude XhciDesc.

(** [plain::slice_from_bytes::<T>]: [size_of::<T>()], the number of bytes; the
    number of elements, or [None] when it fails. *)
Class PlainSlices := { plain_slice : nat → nat → option nat }.

(** The integer of [n] bytes at offset [i] of a packed structure. *)
Definition le_at (n i : nat) (bs : list Z) : Z := le_val (slice i n bs).

(** ** Operation codes *)

Inductive Opcode : Type :=
| OpTestUnitReady | OpRezeroUnit | OpRequestSense | OpFormatUnit | OpReassignBlocks | OpRead6
| OpWrite6 | OpSeek | OpInquiry | OpModeSelect6 | OpReserve6 | OpRelease6 | OpModeSense6
| OpStartStopUnit | OpRecvDiagnosticRes | OpSendDiagnostic | OpReadCapacity10 | OpRead10
| OpWrite10 | OpSeekExt | OpWriteAndVerify10 | OpVerify10 | OpSyncCache10 | OpReadDefectData10
| OpWriteBuf10 | OpReadBuf10 | OpReadLong10 | OpWriteLong10 | OpChangeDef | OpWriteSame10
| OpUnmap | OpSanitize | OpLogSelect | OpLogSense | OpModeSelect10 | OpReserve10 | OpRelease10
| OpModeSense10 | OpPersistentResvIn | OpPersistentResvOut | OpServiceAction7F | OpRead16
| OpWrite16 | OpWriteAndVerify16 | OpVerify16 | OpSyncCache16 | OpWriteSame16 | OpWriteStream16
| OpReadBuf16 | OpWriteAtomic16 | OpServiceAction9E | OpServiceAction9F | OpReportLuns
| OpSecurityProtoIn | OpServiceActionA3 | OpServiceActionA4 | OpRead12 | OpWrite12
| OpWriteAndVerify12 | OpVerify12 | OpSecurityProtoOut | OpReadDefectData12.

Definition opcode_code (o : Opcode) : Z :=
  match o with
  | OpTestUnitReady => 0x00 | OpRezeroUnit => 0x01 | OpRequestSense => 0x03
  | OpFormatUnit => 0x04 | OpReassignBlocks => 0x07 | OpRead6 => 0x08 | OpWrite6 => 0x0A
  | OpSeek => 0x0B | OpInquiry => 0x12 | OpModeSelect6 => 0x15 | OpReserve6 => 0x16
  | OpRelease6 => 0x17 | OpModeSense6 => 0x1A | OpStartStopUnit => 0x1B
  | OpRecvDiagnosticRes => 0x1C | OpSendDiagnostic => 0x1D | OpReadCapacity10 => 0x25
  | OpRead10 => 0x28 | OpWrite10 => 0x2A | OpSeekExt => 0x2B | OpWriteAndVerify10 => 0x2E
  | OpVerify10 => 0x2F | OpSyncCache10 => 0x35 | OpReadDefectData10 => 0x37
  | OpWriteBuf10 => 0x3B | OpReadBuf10 => 0x3C | OpReadLong10 => 0x3E | OpWriteLong10 => 0x3F
  | OpChangeDef => 0x40 | OpWriteSame10 => 0x41 | OpUnmap => 0x42 | OpSanitize => 0x48
  | OpLogSelect => 0x4C | OpLogSense => 0x4D | OpModeSelect10 => 0x55 | OpReserve10 => 0x56
  | OpRelease10 => 0x57 | OpModeSense10 => 0x5A | OpPersistentResvIn => 0x5E
  | OpPersistentResvOut => 0x5F | OpServiceAction7F => 0x7F | OpRead16 => 0x88
  | OpWrite16 => 0x8A | OpWriteAndVerify16 => 0x8E | OpVerify16 => 0x8F | OpSyncCache16 => 0x91
  | OpWriteSame16 => 0x93 | OpWriteStream16 => 0x9A | OpReadBuf16 => 0x9B
  | OpWriteAtomic16 => 0x9C | OpServiceAction9E => 0x9E | OpServiceAction9F => 0x9F
  | OpReportLuns => 0xA0 | OpSecurityProtoIn => 0xA2 | OpServiceActionA3 => 0xA3
  | OpServiceActionA4 => 0xA4 | OpRead12 => 0xA8 | OpWrite12 => 0xAA
  | OpWriteAndVerify12 => 0xAE | OpVerify12 => 0xAF | OpSecurityProtoOut => 0xB5
  | OpReadDefectData12 => 0xB7
  end.

(** ** Commands *)

Record Inquiry := mk_inquiry {
  inq_opcode : Z; inq_evpd : Z; inq_page_code : Z; inq_alloc_len : Z; inq_control : Z;
}.

Definition inquiry_new (evpd : bool) (page_code alloc_len control : Z) : Inquiry :=
  mk_inquiry (opcode_code OpInquiry) (of_bool evpd) page_code (to_be 2 alloc_len) control.

Definition inquiry_bytes (c : Inquiry) : list Z :=
  [inq_opcode c; inq_evpd c; inq_page_code c] ++ le_bytes 2 (inq_alloc_len c) ++ [inq_control c].

Record RequestSense := mk_request_sense {
  rqs_opcode : Z; rqs_desc : Z; rqs_rsvd : Z; rqs_alloc_len : Z; rqs_control : Z;
}.

Definition MINIMAL_ALLOC_LEN : Z := 252.

Definition request_sense_new (desc : bool) (alloc_len control : Z) : RequestSense :=
  mk_request_sense (opcode_code OpRequestSense) (of_bool desc) 0 alloc_len control.

Definition request_sense_bytes (c : RequestSense) : list Z :=
  [rqs_opcode c; rqs_desc c] ++ le_bytes 2 (rqs_rsvd c) ++ [rqs_alloc_len c; rqs_control c].

(** [Read16] and [Write16] have the same fields. *)
Record Rw16 := mk_rw16 {
  rw_opcode : Z; rw_a : Z; rw_lba : Z; rw_transfer_len : Z; rw_b : Z; rw_control : Z;
}.

Definition read16_new (lba transfer_len control : Z) : Rw16 :=
  mk_rw16 (opcode_code OpRead16) 0 (to_be 8 lba) (to_be 4 transfer_len) 0 control.

Definition write16_new (lba transfer_len control : Z) : Rw16 :=
  mk_rw16 (opcode_code OpWrite16) 0 lba transfer_len 0 control.

Definition rw16_bytes (c : Rw16) : list Z :=
  [rw_opcode c; rw_a c] ++ le_bytes 8 (rw_lba c) ++ le_bytes 4 (rw_transfer_len c) ++
  [rw_b c; rw_control c].

Record ModeSense6 := mk_mode_sense6 {
  ms6_opcode : Z; ms6_a : Z; ms6_b : Z; ms6_subpage_code : Z; ms6_alloc_len : Z; ms6_control : Z;
}.

Definition mode_sense6_new (dbd : bool) (page_code pc subpage_code alloc_len control : Z)
    : ModeSense6 :=
  mk_mode_sense6 (opcode_code OpModeSense6) (Z.shiftl (of_bool dbd) 3)
    (Z.lor page_code (as_u8 (Z.shiftl pc 6))) subpage_code alloc_len control.

Definition mode_sense6_bytes (c : ModeSense6) : list Z :=
  [ms6_opcode c; ms6_a c; ms6_b c; ms6_subpage_code c; ms6_alloc_len c; ms6_control c].

Inductive ModePageControl : Type := CurrentValues | ChangeableChanges | DefaultValues | SavedValue.

Definition mode_page_control_code (p : ModePageControl) : Z :=
  match p with CurrentValues => 0 | ChangeableChanges => 1 | DefaultValues => 2 | SavedValue => 3 end.

Record ModeSense10 := mk_mode_sense10 {
  ms10_opcode : Z; ms10_a : Z; ms10_b : Z; ms10_subpage_code : Z; ms10_alloc_len : Z;
  ms10_control : Z;
}.

(** [u16::from_be] swaps the bytes as [to_be] does. *)
Definition mode_sense10_new (dbd llbaa : bool) (page_code : Z) (pc : ModePageControl)
    (subpage_code alloc_len control : Z) : ModeSense10 :=
  mk_mode_sense10 (opcode_code OpModeSense10)
    (Z.lor (Z.shiftl (of_bool dbd) 3) (Z.shiftl (of_bool llbaa) 4))
    (Z.lor page_code (as_u8 (Z.shiftl (mode_page_control_code pc) 6)))
    subpage_code (to_be 2 alloc_len) control.

Definition get_block_desc (alloc_len control : Z) : ModeSense10 :=
  mode_sense10_new false true 0x3F CurrentValues 0 alloc_len control.

Definition mode_sense10_bytes (c : ModeSense10) : list Z :=
  [ms10_opcode c; ms10_a c; ms10_b c; ms10_subpage_code c; 0; 0; 0] ++
  le_bytes 2 (ms10_alloc_len c) ++ [ms10_control c].

Record ReadCapacity10 := mk_read_capacity10 {
  rc_opcode : Z; rc_rsvd1 : Z; rc_obsolete_lba : Z; rc_control : Z;
}.

Definition read_capacity10_new (control : Z) : ReadCapacity10 :=
  mk_read_capacity10 (opcode_code OpReadCapacity10) 0 0 control.

Definition read_capacity10_bytes (c : ReadCapacity10) : list Z :=
  [rc_opcode c; rc_rsvd1 c] ++ le_bytes 4 (rc_obsolete_lba c) ++ [0; 0; 0; rc_control c].

(** ** Answers *)

Record StandardInquiryData := mk_sid {
  sid_a : Z; sid_rmb : Z; sid_version : Z; sid_b : Z; sid_additional_len : Z; sid_c : Z;
  sid_d : Z; sid_e : Z; sid_t10_vendor_info : Z; sid_product_ident : list Z;
  sid_product_rev_label : Z; sid_driver_serial_no : list Z; sid_vendor_uniq : list Z;
  sid_version_descs : list Z;
}.

Definition SID_SIZE : nat := 96.

Definition dec_standard_inquiry (bs : list Z) : StandardInquiryData :=
  mk_sid (u8_at 0 bs) (u8_at 1 bs) (u8_at 2 bs) (u8_at 3 bs) (u8_at 4 bs) (u8_at 5 bs)
    (u8_at 6 bs) (u8_at 7 bs) (le_at 8 8 bs) (slice 16 16 bs) (le_at 4 32 bs) (slice 36 8 bs)
    (slice 44 12 bs) ((λ i : nat, le_at 2 (58 + 2 * i)%nat bs) <$> seq 0 8).

Definition periph_dev_ty (d : StandardInquiryData) : Z := Z.land (sid_a d) 0x1F.

Definition periph_dev_qual (d : StandardInquiryData) : Z := Z.shiftr (Z.land (sid_a d) 0xE0) 5.

Inductive PeriphDeviceType : Type := DirectAccess | SeqAccess.

Definition periph_device_type_code (p : PeriphDeviceType) : Z :=
  match p with DirectAccess => 0 | SeqAccess => 1 end.

Inductive InquiryVersion : Type := NoConformance | Spc | Spc2 | Spc3 | Spc4 | Spc5.

Definition inquiry_version_code (v : InquiryVersion) : Z :=
  match v with NoConformance => 0 | Spc => 1 | Spc2 => 2 | Spc3 => 3 | Spc4 => 4 | Spc5 => 5 end.

Record FixedFormatSenseData := mk_ffsd {
  ff_a : Z; ff_obsolete : Z; ff_b : Z; ff_info : Z; ff_add_sense_len : Z;
  ff_command_specific_info : Z; ff_add_sense_code : Z; ff_add_sense_code_qual : Z;
  ff_field_replacable_unit_code : Z; ff_sense_key_specific : list Z;
}.

Definition FFSD_SIZE : nat := 18.

Definition dec_ff_sense (bs : list Z) : FixedFormatSenseData :=
  mk_ffsd (u8_at 0 bs) (u8_at 1 bs) (u8_at 2 bs) (le_at 4 3 bs) (u8_at 7 bs) (le_at 4 8 bs)
    (u8_at 12 bs) (u8_at 13 bs) (u8_at 14 bs) (slice 15 3 bs).

Definition additional_len (d : FixedFormatSenseData) : Z := as_u16 (ff_add_sense_len d + 7).

Inductive SenseKey : Type :=
| NoSense | RecoveredError | NotReady | MediumError | HardwareError | IllegalRequest
| UnitAttention | DataProtect | BlankCheck | VendorSpecific | CopyAborted | AbortedCommand
| SkReserved | VolumeOverflow | Miscompare | SkCompleted.

Definition sense_keys : list SenseKey :=
  [NoSense; RecoveredError; NotReady; MediumError; HardwareError; IllegalRequest; UnitAttention;
   DataProtect; BlankCheck; VendorSpecific; CopyAborted; AbortedCommand; SkReserved;
   VolumeOverflow; Miscompare; SkCompleted].

(** The transmute of the four bits: the key with that discriminant. *)
Definition sense_key (d : FixedFormatSenseData) : option SenseKey :=
  sense_keys !! Z.to_nat (Z.land (ff_b d) 15).

Definition u24_be_to_u32 (b0 b1 b2 : Z) : Z := Z.lor (Z.lor (Z.shiftl b0 16) (Z.shiftl b1 8)) b2.

Record ShortLbaModeParamBlkDesc := mk_short { sh_block_count : Z; sh_block_len : Z * Z * Z }.

Record GeneralModeParamBlkDesc := mk_general {
  ge_density_code : Z; ge_block_count : Z * Z * Z; ge_block_length : Z * Z * Z;
}.

Record LongLbaModeParamBlkDesc := mk_long { lo_block_count : Z; lo_block_len : Z }.

(** [mode_param_blk_desc] sizes: 8, 8 and 16 bytes. *)
Definition dec_short (bs : list Z) : ShortLbaModeParamBlkDesc :=
  mk_short (le_at 4 0 bs) (u8_at 5 bs, u8_at 6 bs, u8_at 7 bs).

Definition dec_general (bs : list Z) : GeneralModeParamBlkDesc :=
  mk_general (u8_at 0 bs) (u8_at 1 bs, u8_at 2 bs, u8_at 3 bs) (u8_at 5 bs, u8_at 6 bs, u8_at 7 bs).

Definition dec_long (bs : list Z) : LongLbaModeParamBlkDesc :=
  mk_long (le_at 8 0 bs) (le_at 4 12 bs).

Definition u24 (t : Z * Z * Z) : Z := let '(b0, b1, b2) := t in u24_be_to_u32 b0 b1 b2.

Inductive BlkDesc : Type :=
| BdShort (s : ShortLbaModeParamBlkDesc)
| BdGeneral (g : GeneralModeParamBlkDesc)
| BdLong (l : LongLbaModeParamBlkDesc).

Definition blk_block_size (d : BlkDesc) : Z :=
  match d with
  | BdShort s => u24 (sh_block_len s)
  | BdGeneral g => u24 (ge_block_length g)
  | BdLong l => to_be 4 (lo_block_len l)
  end.

Definition blk_block_count (d : BlkDesc) : Z :=
  match d with
  | BdShort s => to_be 4 (sh_block_count s)
  | BdGeneral g => u24 (ge_block_count g)
  | BdLong l => to_be 8 (lo_block_count l)
  end.

Record ModeParamHeader10 := mk_mph10 {
  mh_mode_data_len : Z; mh_medium_ty : Z; mh_a : Z; mh_b : Z; mh_rsvd : Z; mh_block_desc_len : Z;
}.

Definition MPH10_SIZE : nat := 8.

Definition dec_mode_header10 (bs : list Z) : ModeParamHeader10 :=
  mk_mph10 (le_at 2 0 bs) (u8_at 2 bs) (u8_at 3 bs) (u8_at 4 bs) (u8_at 5 bs) (le_at 2 6 bs).

Definition mode_data_len (h : ModeParamHeader10) : Z := to_be 2 (mh_mode_data_len h).

Definition block_desc_len (h : ModeParamHeader10) : Z := to_be 2 (mh_block_desc_len h).

Definition longlba (h : ModeParamHeader10) : bool := negb (Z.land (mh_b h) 1 =? 0).

Record ModeParamHeader6 := mk_mph6 {
  mh6_mode_data_len : Z; mh6_medium_ty : Z; mh6_a : Z; mh6_block_desc_len : Z;
}.

Definition dec_mode_header6 (bs : list Z) : ModeParamHeader6 :=
  mk_mph6 (u8_at 0 bs) (u8_at 1 bs) (u8_at 2 bs) (u8_at 3 bs).

Record ReadCapacity10ParamData := mk_rcp { rcp_max_lba : Z; rcp_block_len : Z }.

Definition dec_read_capacity10 (bs : list Z) : ReadCapacity10ParamData :=
  mk_rcp (le_at 4 0 bs) (le_at 4 4 bs).

Definition rc10_block_count (d : ReadCapacity10ParamData) : Z := to_be 4 (rcp_max_lba d).

Definition rc10_logical_block_len (d : ReadCapacity10ParamData) : Z := to_be 4 (rcp_block_len d).

(** ** Mode pages *)

Record RwErrorRecoveryPage := mk_rwer {
  er_a : Z; er_page_length : Z; er_b : Z; er_read_retry_count : Z; er_recovery_time_limit : Z;
}.

Definition dec_rw_error_recovery (bs : list Z) : RwErrorRecoveryPage :=
  mk_rwer (u8_at 0 bs) (u8_at 1 bs) (u8_at 2 bs) (u8_at 3 bs) (le_at 2 8 bs).

Record CachingModePage := mk_caching { ca_a : Z; ca_page_length : Z }.

Definition dec_caching (bs : list Z) : CachingModePage := mk_caching (u8_at 0 bs) (u8_at 1 bs).

Inductive AnyModePage : Type :=
| MpRwErrorRecovery (p : RwErrorRecoveryPage)
| MpCaching (p : CachingModePage).

(** [ModePageIterRaw::next]: the page and what is left of the buffer.  The slice
    [2..3] of a sub-page item has one byte and never converts to two; on a
    buffer of two bytes taking it panics. *)
Definition mode_page_raw_next {E : Type} (buffer : list Z) : res E (option (list Z * list Z)) :=
  if (length buffer <? 2)%nat then Ok None
  else
    let a := u8_at 0 buffer in
    if Z.land a (Z.shiftl 1 6) =? 0 then
      let page_len := (Z.to_nat (u8_at 1 buffer) + 1)%nat in
      if (length buffer <? page_len)%nat then Ok None
      else Ok (Some (take page_len buffer, drop page_len buffer))
    else if (length buffer <? 3)%nat then Panic else Ok None.

Section pages.
Context `{Layouts}.

(** [ModePageIter::next]. *)
Definition mode_page_next {E : Type} (buffer : list Z) : res E (option (AnyModePage * list Z)) :=
  match mode_page_raw_next buffer with
  | Ok (Some (page, rest)) =>
      let a := u8_at 0 page in
      let page_code := Z.land a 0x1F in
      if Z.land a (Z.shiftl 1 6) =? 0 then
        if page_code =? 0x01 then
          Ok (if plain_ok 10 (length page)
              then Some (MpRwErrorRecovery (dec_rw_error_recovery page), rest) else None)
        else if page_code =? 0x08 then
          Ok (if plain_ok 2 (length page) then Some (MpCaching (dec_caching page), rest) else None)
        else Ok None
      else Ok None
  | Ok None => Ok None
  | Err e => Err e
  | Panic => Panic
  end.

(** The loop of [Scsi::new] over the pages. *)
Fixpoint mode_pages {E : Type} (fuel : nat) (buffer : list Z) : option (res E (list AnyModePage)) :=
  match fuel with
  | O => None
  | S fuel =>
      match mode_page_next buffer with
      | Ok None => Some (Ok [])
      | Ok (Some (p, rest)) =>
          match mode_pages fuel rest with
          | Some (Ok ps) => Some (Ok (p :: ps))
          | r => r
          end
      | Err e => Some (Err e)
      | Panic => Some Panic
      end
  end.

End pages.

(** ** Command blocks as the device reads them *)

(** SCSI: the address and the length of a 16-byte command are big-endian. *)
Definition cdb_lba (cdb : list Z) : Z := be_val (slice 2 8 cdb).
Definition cdb_blocks (cdb : list Z) : Z := be_val (slice 10 4 cdb).

Lemma slice_mid {A : Type} (pre mid post : list A) off n :
  off = length pre → n = length mid → slice off n (pre ++ mid ++ post) = mid.
Proof. intros -> ->. unfold slice. by rewrite drop_app_length, take_app_length. Qed.

Lemma rw16_slices (c : Rw16) :
  slice 2 8 (rw16_bytes c) = le_bytes 8 (rw_lba c) ∧
  slice 10 4 (rw16_bytes c) = le_bytes 4 (rw_transfer_len c).
Proof.
  unfold rw16_bytes. split.
  - apply slice_mid; [done|by rewrite length_le_bytes].
  - rewrite (app_assoc [_; _]). apply slice_mid; by rewrite ?length_app, !length_le_bytes.
Qed.

Lemma rw16_length (c : Rw16) : length (rw16_bytes c) = 16%nat.
Proof. unfold rw16_bytes. by rewrite !length_app, !length_le_bytes. Qed.

(** A read command addresses the blocks it was made for. *)
Lemma read16_cdb (lba len ctl : Z) :
  u_range 64 lba → u_range 32 len →
  cdb_lba (rw16_bytes (read16_new lba len ctl)) = lba ∧
  cdb_blocks (rw16_bytes (read16_new lba len ctl)) = len.
Proof.
  intros Hl Hn. unfold cdb_lba, cdb_blocks.
  destruct (rw16_slices (read16_new lba len ctl)) as [-> ->]. cbn [read16_new rw_lba rw_transfer_len].
  rewrite !le_bytes_to_be. split; by apply be_val_bytes.
Qed.

(** A write command addresses the block and the length with their bytes in the
    opposite order. *)
Lemma write16_cdb (lba len ctl : Z) :
  cdb_lba (rw16_bytes (write16_new lba len ctl)) = to_be 8 lba ∧
  cdb_blocks (rw16_bytes (write16_new lba len ctl)) = to_be 4 len.
Proof.
  unfold cdb_lba, cdb_blocks.
  by destruct (rw16_slices (write16_new lba len ctl)) as [-> ->].
Qed.

(** A big-endian field of an answer. *)
Lemma to_be_le_at (n i : nat) (bs : list Z) :
  (i + n <= length bs)%nat → Forall is_byte bs → to_be n (le_at n i bs) = be_val (slice i n bs).
Proof.
  intros Hl Hb. unfold to_be, be_bytes, le_at, be_val.
  assert (length (slice i n bs) = n) as Hs by (rewrite length_slice; lia).
  rewrite <- Hs at 1. rewrite le_bytes_val; [done|]. by apply Forall_take, Forall_drop.
Qed.

(** Every four-bit key has a meaning. *)
Lemma sense_key_total (d : FixedFormatSenseData) : is_Some (sense_key d).
Proof.
  unfold sense_key. apply lookup_lt_is_Some. change (length sense_keys) with 16%nat.
  pose proof (u_range_land_r 4 (ff_b d) 15 ltac:(lia)) as Hr. unfold u_range in Hr. lia.
Qed.

(** The loop over the pages ends: a page takes at least one byte. *)
Lemma mode_pages_terminate `{Layouts} (E : Type) fuel buffer :
  (length buffer < fuel)%nat → is_Some (mode_pages (E := E) fuel buffer).
Proof.
  revert buffer. induction fuel as [|fuel IH]; [lia|]. intros buffer Hl. cbn [mode_pages].
  destruct (mode_page_next buffer) as [[[p rest]|]|e|] eqn:Hn; try done.
  assert (length rest < length buffer)%nat as Hr.
  { unfold mode_page_next, mode_page_raw_next in Hn.
    destruct (length buffer <? 2)%nat eqn:H2; [done|]. apply Nat.ltb_ge in H2.
    repeat (case_match; try done); simplify_eq; rewrite length_drop; lia. }
  destruct (IH rest ltac:(lia)) as [r ->]. destruct r as [ps|e|]; done.
Qed.
