(* ===== verification/UsbScsi.v ===== *)
(** The USB mass storage driver: bulk-only transport, the SCSI layer and the
    disk scheme (storage/usbscsid/src/protocol, scsi/mod.rs, scheme.rs, main.rs).

    The driver talks to xhcid through its client library; what it uses of it is
    the class [UsbClient], and [xhci_client] implements it by the endpoint files
    and the request file of [XhciEndp] and [XhciScheme].  The transport is in
    turn the trait [Protocol] for the SCSI layer. *)

From stdpp Require Import pretty.
From S2P Require Import Prelude UsbSetup XhciTrb XhciRing XhciIface XhciHost XhciEndp XhciDesc XhciConf XhciScheme ScsiCmd.

(** ** What the driver uses of the xhcid client

    [XhciEndpHandle] and [XhciClientHandle] of one port; endpoints are named by
    their number.  A read answers the new contents of the caller's buffer. *)
Class UsbClient (D : Type) := {
  usb_open_endpoint : Z → prog D ClientError unit;
  usb_read : Z → nat → prog D ClientError (PortTransferStatus * list Z);
  usb_write : Z → list Z → prog D ClientError PortTransferStatus;
  usb_status : Z → prog D ClientError EndpointStatus;
  usb_reset : Z → bool → prog D ClientError unit;
  usb_request : PortReqTy → PortReqRecipient → Z → Z → Z → DeviceReqData → prog D ClientError (list Z);
  usb_clear_feature : PortReqRecipient → Z → Z → prog D ClientError unit;
  usb_configure : ConfigureEndpointsReq → prog D ClientError unit;
}.

(** ** Errors and results of the transport *)

Inductive ProtocolError : Type :=
| TooLargeCommandBlock (n : nat)
| PeXhci (e : ClientError)
| PeIo
| RecoveryFailed
| PeProtocol (msg : string).

Inductive SendCommandStatusKind : Type := ScSuccess | ScFailed.

#[global] Instance SendCommandStatusKind_eq_dec : EqDecision SendCommandStatusKind.
Proof. solve_decision. Defined.

Record SendCommandStatus := mk_scs { scs_residue : option Z; scs_kind : SendCommandStatusKind }.

(** [NonZeroU32::new]. *)
Definition non_zero_u32 (n : Z) : option Z := if n =? 0 then None else Some n.

Definition bytes_transferred (st : SendCommandStatus) (transfer_len : Z) : Z :=
  as_u32 (transfer_len - default 0 (scs_residue st)).

(** The trait: a command block and its data; the new contents of an In buffer. *)
Class Protocol (P : Type) := {
  send_command : list Z → DeviceReqData → prog P ProtocolError (SendCommandStatus * list Z);
}.

(** ** Bulk-only transport *)

Definition CBW_SIGNATURE : Z := 0x43425355.
Definition CBW_FLAGS_DIRECTION_SHIFT : Z := 7.
Definition CBW_FLAGS_DIRECTION_BIT : Z := Z.shiftl 1 CBW_FLAGS_DIRECTION_SHIFT.
Definition CSW_SIGNATURE : Z := 0x53425355.
Definition FEATURE_ENDPOINT_HALT : Z := 0.

Record CommandBlockWrapper := mk_cbw {
  cbw_signature : Z; cbw_tag : Z; cbw_data_transfer_len : Z; cbw_flags : Z; cbw_lun : Z;
  cbw_cb_len : Z; cbw_command_block : list Z;
}.

Definition cbw_new (tag data_transfer_len : Z) (direction : EndpBinaryDirection) (lun : Z)
    (cb : list Z) : res ProtocolError CommandBlockWrapper :=
  if (16 <? length cb)%nat then Err (TooLargeCommandBlock (length cb))
  else Ok (mk_cbw CBW_SIGNATURE tag data_transfer_len
             (Z.shiftl (match direction with EbOut => 0 | EbIn => 1 end) CBW_FLAGS_DIRECTION_SHIFT)
             lun (as_u8 (Z.of_nat (length cb))) (cb ++ replicate (16 - length cb) 0)).

Definition cbw_bytes (c : CommandBlockWrapper) : list Z :=
  le_bytes 4 (cbw_signature c) ++ le_bytes 4 (cbw_tag c) ++ le_bytes 4 (cbw_data_transfer_len c) ++
  [cbw_flags c; cbw_lun c; cbw_cb_len c] ++ cbw_command_block c.

Inductive CswStatus : Type := CswPassed | CswFailed | CswPhaseError.

Definition csw_status_code (s : CswStatus) : Z :=
  match s with CswPassed => 0 | CswFailed => 1 | CswPhaseError => 2 end.

Record CommandStatusWrapper := mk_csw {
  csw_signature : Z; csw_tag : Z; csw_data_residue : Z; csw_status : Z;
}.

Definition dec_csw (bs : list Z) : CommandStatusWrapper :=
  mk_csw (le_at 4 0 bs) (le_at 4 4 bs) (le_at 4 8 bs) (u8_at 12 bs).

Definition csw_is_valid (c : CommandStatusWrapper) : bool := csw_signature c =? CSW_SIGNATURE.

(** [BulkOnlyTransport]; [bot_dev] is what is behind the handles. *)
Record BulkOnlyTransport (D : Type) := mk_bot {
  bot_dev : D;
  bot_bulk_in_num : Z;
  bot_bulk_out_num : Z;
  bot_max_lun : Z;
  bot_current_tag : Z;
  bot_interface_num : Z;
}.
Arguments mk_bot {_} _ _ _ _ _ _.
Arguments bot_dev {_} _.
Arguments bot_bulk_in_num {_} _.
Arguments bot_bulk_out_num {_} _.
Arguments bot_max_lun {_} _.
Arguments bot_current_tag {_} _.
Arguments bot_interface_num {_} _.

Section bot.
Context {D : Type} `{HU : UsbClient D} `{HL : Layouts}.

Abbreviation bp := (prog (BulkOnlyTransport D) ProtocolError).

Definition set_dev (d : D) (b : BulkOnlyTransport D) : BulkOnlyTransport D :=
  mk_bot d (bot_bulk_in_num b) (bot_bulk_out_num b) (bot_max_lun b) (bot_current_tag b)
    (bot_interface_num b).

Definition set_tag (t : Z) (b : BulkOnlyTransport D) : BulkOnlyTransport D :=
  mk_bot (bot_dev b) (bot_bulk_in_num b) (bot_bulk_out_num b) (bot_max_lun b) t
    (bot_interface_num b).

(** A call of the client library with [?]. *)
Definition client {A : Type} (m : prog D ClientError A) : bp A := λ b,
  match m (bot_dev b) with
  | (Ok a, d) => (Ok a, set_dev d b)
  | (Err e, d) => (Err (PeXhci e), set_dev d b)
  | (Panic, d) => (Panic, set_dev d b)
  end.

(** [plain::from_bytes(..).unwrap()]. *)
Definition plain_unwrap {S E : Type} (size len : nat) : prog S E unit :=
  if plain_ok size len then mret tt else panic.

Definition bulk_only_mass_storage_reset (if_num : Z) : prog D ClientError unit :=
  _ ← usb_request PtClass PcInterface 0xFF 0 if_num DNoData; mret tt.

Definition get_max_lun (if_num : Z) : prog D ClientError Z :=
  bytes ← usb_request PtClass PcInterface 0xFE 0 if_num (DIn 1);
  mret (u8_at 0 bytes).

(** [position(|endpoint| endpoint.direction() == d)]. *)
Fixpoint position (d : EndpDirection) (eps : list EndpDesc) : option nat :=
  match eps with
  | [] => None
  | e :: eps => if bool_decide (endp_direction e = d) then Some O else S <$> position d eps
  end.

Definition bot_init (if_desc : IfDesc) (d : D) : res ProtocolError (BulkOnlyTransport D) * D :=
  match position EdIn (id_endpoints if_desc), position EdOut (id_endpoints if_desc) with
  | Some i, Some o =>
      let bulk_in_num := as_u8 (Z.of_nat i + 1) in
      let bulk_out_num := as_u8 (Z.of_nat o + 1) in
      match (max_lun ← get_max_lun 0;
             _ ← usb_open_endpoint bulk_in_num;
             _ ← usb_open_endpoint bulk_out_num;
             mret max_lun : prog D ClientError Z) d with
      | (Ok max_lun, d') =>
          (Ok (mk_bot d' bulk_in_num bulk_out_num max_lun 0 (id_number if_desc)), d')
      | (Err e, d') => (Err (PeXhci e), d')
      | (Panic, d') => (Panic, d')
      end
  | _, _ => (Panic, d)
  end.

Definition halted (s : EndpointStatus) : bool := bool_decide (s = EsHalted).

Definition clear_stall (num : Z) : bp unit :=
  st ← client (usb_status num);
  if halted st
  then
    _ ← client (usb_reset num false);
    client (usb_clear_feature PcEndpoint num FEATURE_ENDPOINT_HALT)
  else mret tt.

Definition clear_stall_in : bp unit := n ← gets bot_bulk_in_num; clear_stall n.

Definition clear_stall_out : bp unit := n ← gets bot_bulk_out_num; clear_stall n.

(** [a.status()? == Halted || b.status()? == Halted]. *)
Definition any_halted : bp bool :=
  i ← gets bot_bulk_in_num;
  o ← gets bot_bulk_out_num;
  si ← client (usb_status i);
  if halted si then mret true
  else so ← client (usb_status o); mret (halted so).

Definition reset_recovery : bp unit :=
  n ← gets bot_interface_num;
  _ ← client (bulk_only_mass_storage_reset n);
  _ ← clear_stall_in;
  _ ← clear_stall_out;
  h ← any_halted;
  if h : bool then throw RecoveryFailed else mret tt.

(** The method calls itself after every stall; [fuel] bounds the calls, and
    running out of it is waiting for ever. *)
Fixpoint read_csw_raw (fuel : nat) (already : bool) : bp (list Z) :=
  match fuel with
  | O => throw (PeXhci (CeIo Waits))
  | S fuel =>
      i ← gets bot_bulk_in_num;
      '(st, buf) ← client (usb_read i 13);
      match pts_kind st with
      | TkStalled =>
          _ ← (if already : bool then reset_recovery else mret tt);
          _ ← clear_stall_in;
          read_csw_raw fuel true
      | TkShortPacket => if pts_bytes_transferred st =? 13 then mret buf else panic
      | _ => mret buf
      end
  end.

Definition read_csw (fuel : nat) : bp (list Z) := read_csw_raw fuel false.

(** What a data transfer leaves as the early residue. *)
Definition early_residue_of (st : PortTransferStatus) : bp (option Z) :=
  match pts_kind st with
  | TkSuccess => mret None
  | TkShortPacket => mret (non_zero_u32 (pts_bytes_transferred st))
  | TkStalled => panic
  | TkUnknown => throw (PeXhci (CeInvalid "unknown transfer status"))
  end.

Definition send_cbw (bytes : list Z) : bp unit :=
  o ← gets bot_bulk_out_num;
  st ← client (usb_write o bytes);
  match pts_kind st with
  | TkStalled => panic
  | _ => if pts_bytes_transferred st =? 31 then mret tt else panic
  end.

Definition data_phase (data : DeviceReqData) : bp (option Z * list Z) :=
  match data with
  | DIn len =>
      i ← gets bot_bulk_in_num;
      '(st, buf) ← client (usb_read i len);
      r ← early_residue_of st;
      mret (r, buf)
  | DOut buf =>
      o ← gets bot_bulk_out_num;
      st ← client (usb_write o buf);
      r ← early_residue_of st;
      mret (r, [])
  | DNoData => mret (None, [])
  end.

(** The checks of the status wrapper. *)
Definition csw_result (tag : Z) (csw : CommandStatusWrapper) (early_residue : option Z)
    : bp SendCommandStatus :=
  let residue := match early_residue with Some r => Some r | None => non_zero_u32 (csw_data_residue csw) end in
  if negb (csw_is_valid csw) || negb (csw_tag csw =? tag) then
    _ ← reset_recovery;
    h ← any_halted;
    if h : bool then throw (PeProtocol "Reset Recovery didn't reset endpoints")
    else throw (PeProtocol "CSW invalid, but a recover was successful")
  else if csw_status csw =? csw_status_code CswPassed then mret (mk_scs residue ScSuccess)
  else if csw_status csw =? csw_status_code CswFailed then mret (mk_scs residue ScFailed)
  else throw (PeProtocol "bulk-only transport phase error, or other").

Definition bot_send_command (fuel : nat) (cb : list Z) (data : DeviceReqData)
    : bp (SendCommandStatus * list Z) :=
  t ← gets bot_current_tag;
  let tag := as_u32 (t + 1) in
  _ ← modify (set_tag tag);
  _ ← plain_unwrap 31 31;
  match cbw_new tag (as_u32 (Z.of_nat (drd_len data))) (binary_of_req (drd_direction data)) 0 cb with
  | Ok cbw =>
      _ ← send_cbw (cbw_bytes cbw);
      '(early, bytes) ← data_phase data;
      csw_buffer ← read_csw fuel;
      _ ← plain_unwrap 13 13;
      st ← csw_result (cbw_tag cbw) (dec_csw csw_buffer) early;
      mret (st, bytes)
  | Err e => throw e
  | Panic => panic
  end.

End bot.

(** ** The SCSI layer *)

Record Scsi := mk_scsi {
  command_buffer : list Z;
  inquiry_buffer : list Z;
  data_buffer : list Z;
  block_size : Z;
  block_count : Z;
}.

Inductive ScsiError : Type :=
| SeProtocol (e : ProtocolError)
| SeOverflow (msg : string).

Inductive BlkDescSlice : Type :=
| BsShort (l : list ShortLbaModeParamBlkDesc)
| BsGeneral (l : list GeneralModeParamBlkDesc)
| BsLong (l : list LongLbaModeParamBlkDesc).

Definition blk_get (b : BlkDescSlice) (idx : nat) : option BlkDesc :=
  match b with
  | BsShort l => BdShort <$> l !! idx
  | BsLong l => BdLong <$> l !! idx
  | BsGeneral l => BdGeneral <$> l !! idx
  end.

Definition INQUIRY_CMD_LEN : nat := 6.
Definition REQUEST_SENSE_CMD_LEN : nat := 6.
Definition MIN_INQUIRY_ALLOC_LEN : Z := 5.

Section scsi.
Context {P : Type} `{HP : Protocol P} `{HL : Layouts} `{HS : PlainSlices}.

Abbreviation cp := (prog (Scsi * P) ScsiError).

Definition upd (f : Scsi → Scsi) : cp unit := modify (λ '(c, p), (f c, p)).

Definition set_command (l : list Z) (c : Scsi) : Scsi :=
  mk_scsi l (inquiry_buffer c) (data_buffer c) (block_size c) (block_count c).

Definition set_inquiry (l : list Z) (c : Scsi) : Scsi :=
  mk_scsi (command_buffer c) l (data_buffer c) (block_size c) (block_count c).

Definition set_data (l : list Z) (c : Scsi) : Scsi :=
  mk_scsi (command_buffer c) (inquiry_buffer c) l (block_size c) (block_count c).

(** A structure written over the start of the command buffer. *)
Definition put_cmd (bytes : list Z) : cp unit :=
  c ← gets fst;
  _ ← plain_unwrap (length bytes) (length (command_buffer c));
  upd (set_command (bytes ++ drop (length bytes) (command_buffer c))).

(** [protocol.send_command(..)?] with the first [n] bytes of the command buffer. *)
Definition scsi_send (n : nat) (data : DeviceReqData) : cp (SendCommandStatus * list Z) := λ '(c, p),
  match send_command (take n (command_buffer c)) data p with
  | (Ok r, p') => (Ok r, (c, p'))
  | (Err e, p') => (Err (SeProtocol e), (c, p'))
  | (Panic, p') => (Panic, (c, p'))
  end.

(** A command that fills the first [len] bytes of the data buffer. *)
Definition send_data_in (n len : nat) : cp SendCommandStatus :=
  c ← gets fst;
  if (length (data_buffer c) <? len)%nat then panic
  else
    '(st, bytes) ← scsi_send n (DIn len);
    _ ← upd (λ c, set_data (bytes ++ drop len (data_buffer c)) c);
    mret st.

Definition resize_data (n : nat) : cp unit := upd (λ c, set_data (resize n 0 (data_buffer c)) c).

Definition res_standard_inquiry_data : cp StandardInquiryData :=
  c ← gets fst;
  _ ← plain_unwrap SID_SIZE (length (inquiry_buffer c));
  mret (dec_standard_inquiry (inquiry_buffer c)).

Definition res_mode_param_header10 : cp ModeParamHeader10 :=
  c ← gets fst;
  _ ← plain_unwrap MPH10_SIZE (length (data_buffer c));
  mret (dec_mode_header10 (data_buffer c)).

Definition res_ff_sense_data : cp FixedFormatSenseData :=
  c ← gets fst;
  _ ← plain_unwrap FFSD_SIZE (length (data_buffer c));
  mret (dec_ff_sense (data_buffer c)).

Definition res_read_capacity10 : cp ReadCapacity10ParamData :=
  c ← gets fst;
  _ ← plain_unwrap 8 (length (data_buffer c));
  mret (dec_read_capacity10 (data_buffer c)).

(** [plain::slice_from_bytes(bytes).unwrap()]. *)
Definition blk_elems {A : Type} (size : nat) (dec : list Z → A) (bytes : list Z) : cp (list A) :=
  k ← unwrap (plain_slice size (length bytes));
  mret ((λ i : nat, dec (slice (i * size) size bytes)) <$> seq 0 k).

(** [&data_buffer[off..off + len]]. *)
Definition data_slice (off len : nat) : cp (list Z) :=
  c ← gets fst;
  if (length (data_buffer c) <? off + len)%nat then panic
  else mret (slice off len (data_buffer c)).

Definition res_blkdesc_mode10 : cp BlkDescSlice :=
  header ← res_mode_param_header10;
  if longlba header then
    bytes ← data_slice MPH10_SIZE (Z.to_nat (block_desc_len header));
    l ← blk_elems 16 dec_long bytes; mret (BsLong l)
  else
    inq ← res_standard_inquiry_data;
    bytes ← data_slice MPH10_SIZE (Z.to_nat (block_desc_len header));
    if negb (periph_dev_ty inq =? periph_device_type_code DirectAccess)
       && (sid_version inq =? inquiry_version_code Spc3)
    then l ← blk_elems 8 dec_general bytes; mret (BsGeneral l)
    else l ← blk_elems 8 dec_short bytes; mret (BsShort l).

(** The buffer the pages are read from. *)
Definition res_mode_pages10 : cp (list Z) :=
  header ← res_mode_param_header10;
  c ← gets fst;
  let start := (MPH10_SIZE + Z.to_nat (block_desc_len header))%nat in
  if (length (data_buffer c) <? start)%nat then panic else mret (drop start (data_buffer c)).

Definition get_standard_inquiry_data (max_inquiry_len : Z) : cp unit :=
  _ ← put_cmd (inquiry_bytes (inquiry_new false 0 max_inquiry_len 0));
  c ← gets fst;
  let len := Z.to_nat max_inquiry_len in
  if (length (inquiry_buffer c) <? len)%nat then panic
  else
    '(_, bytes) ← scsi_send INQUIRY_CMD_LEN (DIn len);
    upd (λ c, set_inquiry (bytes ++ drop len (inquiry_buffer c)) c).

Definition get_inquiry_alloc_len : cp Z :=
  _ ← get_standard_inquiry_data MIN_INQUIRY_ALLOC_LEN;
  inq ← res_standard_inquiry_data;
  mret (as_u16 (4 + sid_additional_len inq)).

Definition get_ff_sense (alloc_len : Z) : cp unit :=
  _ ← put_cmd (request_sense_bytes (request_sense_new false alloc_len 0));
  _ ← resize_data (Z.to_nat alloc_len);
  _ ← send_data_in REQUEST_SENSE_CMD_LEN (Z.to_nat alloc_len);
  mret tt.

Definition read_capacity : cp ReadCapacity10ParamData :=
  _ ← put_cmd (read_capacity10_bytes (read_capacity10_new 0));
  _ ← resize_data 10;
  _ ← send_data_in 10 8;
  res_read_capacity10.

Definition get_mode_sense10 : cp (ModeParamHeader10 * BlkDescSlice * list Z) :=
  let initial_alloc_len := MPH10_SIZE in
  _ ← put_cmd (mode_sense10_bytes (get_block_desc (Z.of_nat initial_alloc_len) 0));
  _ ← resize_data MPH10_SIZE;
  st ← send_data_in 10 initial_alloc_len;
  _ ← (if bool_decide (scs_kind st = ScFailed)
       then _ ← get_ff_sense 252; _ ← res_ff_sense_data; panic else mret tt);
  header ← res_mode_param_header10;
  let optimal_alloc_len := as_u16 (mode_data_len header + 2) in
  _ ← put_cmd (mode_sense10_bytes (get_block_desc optimal_alloc_len 0));
  _ ← resize_data (Z.to_nat optimal_alloc_len);
  _ ← send_data_in 10 (Z.to_nat optimal_alloc_len);
  header ← res_mode_param_header10;
  descs ← res_blkdesc_mode10;
  pages ← res_mode_pages10;
  mret (header, descs, pages).

Definition get_disk_size (c : Scsi) : Z := as_u64 (block_count c * block_size c).

Definition scsi_zero : Scsi := mk_scsi (replicate 16 0) (replicate 259 0) [] 0 0.

(** The body of [Scsi::new] on the new structure; the pages are only printed. *)
Definition scsi_new_body : cp unit :=
  max_inquiry_len ← get_inquiry_alloc_len;
  _ ← get_standard_inquiry_data max_inquiry_len;
  _ ← res_standard_inquiry_data;
  '(_, blkdescs, pages) ← get_mode_sense10;
  _ ← (match mode_pages (E := ScsiError) (S (length pages)) pages with
       | Some (Ok _) => mret tt
       | _ => panic
       end);
  '(bs, bc) ← (match blk_get blkdescs 0 with
               | Some d => mret (blk_block_size d, blk_block_count d)
               | None => r ← read_capacity; mret (rc10_logical_block_len r, rc10_block_count r)
               end);
  upd (λ c, mk_scsi (command_buffer c) (inquiry_buffer c) (data_buffer c) bs bc).

Definition scsi_new (p : P) : res ScsiError Scsi * P :=
  match scsi_new_body (scsi_zero, p) with
  | (Ok _, (c, p')) => (Ok c, p')
  | (Err e, (_, p')) => (Err e, p')
  | (Panic, (_, p')) => (Panic, p')
  end.

(** The number of whole blocks of a buffer and their bytes, or the error [msg]. *)
Definition whole_blocks (msg : string) (len : nat) : cp (Z * nat) :=
  c ← gets fst;
  if block_size c =? 0 then panic
  else
    let blocks := Z.of_nat len / block_size c in
    let bytes := Z.to_nat (blocks * block_size c) in
    if blocks <? 2 ^ 32 then mret (blocks, bytes)
    else throw (SeOverflow msg).

(** [Scsi::read]: the count it returns and the new contents of the buffer. *)
Definition scsi_read (lba : Z) (buffer : list Z) : cp (Z * list Z) :=
  '(transfer_len, bytes_to_read) ← whole_blocks "number of blocks to read couldn't fit inside a u32" (length buffer);
  _ ← put_cmd (rw16_bytes (read16_new lba transfer_len 0));
  _ ← resize_data bytes_to_read;
  status ← send_data_in 16 bytes_to_read;
  c ← gets fst;
  mret (bytes_transferred status (as_u32 (Z.of_nat bytes_to_read)),
        take bytes_to_read (data_buffer c) ++ drop bytes_to_read buffer).

Definition scsi_write (lba : Z) (buffer : list Z) : cp Z :=
  '(transfer_len, bytes_to_write) ← whole_blocks "number of blocks to write couldn't fit inside a u32" (length buffer);
  _ ← put_cmd (rw16_bytes (write16_new lba transfer_len 0));
  _ ← resize_data bytes_to_write;
  _ ← upd (λ c, set_data (take bytes_to_write buffer ++ drop bytes_to_write (data_buffer c)) c);
  '(status, _) ← scsi_send 16 (DOut (take bytes_to_write buffer));
  mret (bytes_transferred status (as_u32 (Z.of_nat bytes_to_write))).

End scsi.

(** ** The disk scheme *)

Inductive DiskHandle : Type := HList | HDisk.

Record ScsiScheme (P : Type) := mk_ss {
  ss_scsi : Scsi;
  ss_protocol : P;
  ss_handles : gmap Z DiskHandle;
  ss_next_fd : Z;
}.
Arguments mk_ss {_} _ _ _ _.
Arguments ss_scsi {_} _.
Arguments ss_protocol {_} _.
Arguments ss_handles {_} _.
Arguments ss_next_fd {_} _.

(** ["0\n"]. *)
Definition LIST_CONTENTS : list Z := [48; 10].

(** The characters [/] and [p]. *)
Definition SLASH : Ascii.ascii := Ascii.ascii_of_nat 47.
Definition SMALL_P : Ascii.ascii := Ascii.ascii_of_nat 112.

Fixpoint trim_start_slashes (s : string) : string :=
  match s with
  | String c s' => if bool_decide (c = SLASH) then trim_start_slashes s' else s
  | EmptyString => EmptyString
  end.

Fixpoint contains_p (s : string) : bool :=
  match s with
  | String c s' => bool_decide (c = SMALL_P) || contains_p s'
  | EmptyString => false
  end.

Section scheme.
Context {P : Type} `{HP : Protocol P} `{HL : Layouts} `{HE : SchemeEnv}.

Abbreviation ssp := (prog (ScsiScheme P) errno).

Definition scsi_scheme_new (c : Scsi) (p : P) : ScsiScheme P := mk_ss c p ∅ 0.

Definition ss_xopen (path_str : string) (flags uid : Z) : ssp Z :=
  if negb (uid =? 0) then throw EACCES
  else if wants flags O_DIRECTORY && negb (wants flags O_STAT) then throw EACCES
  else
    let path_str := trim_start_slashes path_str in
    handle ← (if bool_decide (path_str = "") then mret HList
              else if contains_p path_str then throw ENOSYS
              else mret HDisk);
    fd ← gets (λ s, as_usize (ss_next_fd s + 1));
    _ ← modify (λ s, mk_ss (ss_scsi s) (ss_protocol s) (<[fd := handle]> (ss_handles s)) fd);
    mret fd.

Definition ss_handle (fd : Z) : ssp DiskHandle := λ s,
  match ss_handles s !! fd with Some h => (Ok h, s) | None => (Err EBADF, s) end.

(** [st_mode], [st_size], and for the disk [st_blksize] and [st_blocks]. *)
Definition ss_fstat (fd : Z) : ssp (HandleType * Z * option (Z * Z)) :=
  h ← ss_handle fd;
  c ← gets ss_scsi;
  match h with
  | HDisk => mret (HtCharacter, get_disk_size c, Some (block_size c, block_count c))
  | HList => mret (HtDirectory, Z.of_nat (length LIST_CONTENTS), None)
  end.

Definition ss_fpath (fd : Z) (buf : list Z) : ssp (nat * list Z) :=
  h ← ss_handle fd;
  let path := match h with HDisk => [48] | HList => [] end in
  let n := (length path `min` length buf)%nat in
  mret (n, take n path ++ drop n buf).

Definition ss_fsize (fd : Z) : ssp Z :=
  h ← ss_handle fd;
  c ← gets ss_scsi;
  match h with
  | HDisk => mret (get_disk_size c)
  | HList => mret (Z.of_nat (length LIST_CONTENTS))
  end.

(** A call of the SCSI layer whose error becomes EIO. *)
Definition on_disk {A : Type} (m : prog (Scsi * P) ScsiError A) : ssp A := λ s,
  match m (ss_scsi s, ss_protocol s) with
  | (Ok a, (c, p)) => (Ok a, mk_ss c p (ss_handles s) (ss_next_fd s))
  | (Err _, (c, p)) => (Err EIO, mk_ss c p (ss_handles s) (ss_next_fd s))
  | (Panic, (c, p)) => (Panic, mk_ss c p (ss_handles s) (ss_next_fd s))
  end.

(** The block of an aligned access. *)
Definition aligned_lba (offset : Z) (len : nat) : ssp Z :=
  bs ← gets (λ s, block_size (ss_scsi s));
  if bs =? 0 then panic
  else if negb (offset mod bs =? 0) || negb (Z.of_nat len mod bs =? 0) then throw EINVAL
  else mret (offset / bs).

Definition ss_read (fd : Z) (buf : list Z) (offset : Z) : ssp (Z * list Z) :=
  h ← ss_handle fd;
  match h with
  | HDisk => lba ← aligned_lba offset (length buf); on_disk (scsi_read lba buf)
  | HList =>
      let src := drop (Z.to_nat offset) LIST_CONTENTS in
      let n := (length src `min` length buf)%nat in
      mret (Z.of_nat n, take n src ++ drop n buf)
  end.

Definition ss_write (fd : Z) (buf : list Z) (offset : Z) : ssp Z :=
  h ← ss_handle fd;
  match h with
  | HDisk => lba ← aligned_lba offset (length buf); on_disk (scsi_write lba buf)
  | HList => throw EBADF
  end.

End scheme.

(** ** The daemon *)

(** The bulk-only transport is the protocol of the SCSI layer. *)
#[export] Instance bot_protocol (fuel : nat) {D : Type} `{HU : UsbClient D} `{HL : Layouts}
  : Protocol (BulkOnlyTransport D) := { send_command := bot_send_command fuel }.

(** The first configuration with a mass storage interface, and that interface. *)
Definition is_mass_storage (i : IfDesc) : bool :=
  (id_class i =? 8) && (id_sub_class i =? 6) && (id_protocol i =? 0x50).

Fixpoint find_mass_storage (configs : list ConfDesc) : option (ConfDesc * IfDesc) :=
  match configs with
  | [] => None
  | c :: configs =>
      match List.find is_mass_storage (cd_interface_descs c) with
      | Some i => Some (c, i)
      | None => find_mass_storage configs
      end
  end.

Section daemon.
Context {D : Type} `{HU : UsbClient D} `{HL : Layouts} `{HS : PlainSlices}.

(** [protocol::setup]; [None] is an unknown protocol. *)
Definition protocol_setup (protocol : Z) (if_desc : IfDesc) (d : D)
    : option (res ProtocolError (BulkOnlyTransport D)) * D :=
  if protocol =? 0x50 then let '(r, d') := bot_init if_desc d in (Some r, d') else (None, d).

(** [daemon] up to its loop, from the description of the device: every [expect]
    and [unwrap] on the way ends the process. *)
Definition daemon_start (fuel : nat) (protocol : Z) (desc : DevDesc) (d : D)
    : option (ScsiScheme (BulkOnlyTransport D)) :=
  '(conf_desc, if_desc) ← find_mass_storage (dd_config_descs desc);
  match usb_configure (mk_cer (cd_configuration_value conf_desc) (Some (id_number if_desc))
                         (Some (id_alternate_setting if_desc))) d with
  | (Ok _, d1) =>
      match protocol_setup protocol if_desc d1 with
      | (Some (Ok b), _) =>
          match scsi_new (HP := bot_protocol fuel) b with
          | (Ok c, b1) =>
              match scsi_read (HP := bot_protocol fuel) 0 (replicate 512 0) (c, b1) with
              | (Ok _, (c', b2)) => Some (scsi_scheme_new c' b2)
              | _ => None
              end
          | _ => None
          end
      | _ => None
      end
  | _ => None
  end.

End daemon.

(** ** The client library over xhcid

    The files of one port of the scheme of [XhciScheme]; an endpoint handle keeps
    its two files open, and its transfers are the calls of [XhciEndp] on them.
    Files are opened with the given flags ([File::open], [OpenOptions]). *)

(** The JSON text of a request to configure endpoints. *)
Class ConfText := { json_of_conf : ConfigureEndpointsReq → list Z }.

Section xhci_client.
Context {W : Type} `{HC : Controller W} `{HJ : EndpJson} `{HF : ConfJson} `{HE : SchemeEnv}.
Context `{HX : ConfText}.
Context (port flags : Z).

Abbreviation xcp := (prog (XScheme W) ClientError).

(** A call that goes to the driver below the scheme. *)
Definition below {A : Type} (m : prog (Xhci W) ClientError A) : xcp A := λ s,
  let '(r, h) := m (sc_hci s) in (r, mk_scheme h (sc_handles s) (sc_next s)).

Definition endp_path (num : Z) (file : string) : string :=
  port_name port +:+ "/endpoints/" +:+ pretty num +:+ "/" +:+ file.

Definition open_endpoint_ctl (num : Z) : xcp Z := via (xs_open (endp_path num "ctl") flags 0).

Definition open_endpoint_data (num : Z) : xcp Z := via (xs_open (endp_path num "data") flags 0).

Definition open_endpoint (num : Z) : xcp unit :=
  _ ← open_endpoint_ctl num; _ ← open_endpoint_data num; mret tt.

Definition client_configure (req : ConfigureEndpointsReq) : xcp unit :=
  let json := json_of_conf req in
  with_file (port_name port +:+ "/configure") flags (λ fd,
    n ← via (xs_write fd json);
    if negb (n =? Z.of_nat (length json))
    then throw (CeInvalid "configure_endpoints didn't read as many bytes as were requested")
    else mret tt).

#[export] Instance xhci_client : UsbClient (XScheme W) := {
  usb_open_endpoint := open_endpoint;
  usb_read num len := below (endp_transfer_read port num len);
  usb_write num buf := below (endp_transfer_write port num buf);
  usb_status num := below (endp_status port num);
  usb_reset num no_clear := below (endp_reset port num no_clear);
  usb_request ty recipient req value index d := device_request port ty recipient req value index flags d;
  usb_clear_feature recipient index feature := client_clear_feature port recipient index feature flags;
  usb_configure := client_configure;
}.

End xhci_client.
