(* ===== verification/UsbDisk.v ===== *)
(** USB mass storage, end to end: a bulk-only transport device in front of a SCSI
    target, and what the driver of [UsbScsi] makes of it.

    [Msd] is the device side of the bulk-only transport (USB mass storage class,
    bulk-only transport 1.0): a command wrapper, an optional data phase, a status
    wrapper.  What executes commands is any [Target].  [UsbDevice] says that the
    client library moves bytes between the driver and such a device; how xhcid
    does that is [XhciEndp]. *)

From S2P Require Import Prelude UsbSetup XhciTrb XhciRing XhciIface XhciHost XhciEndp XhciDesc XhciConf XhciScheme ScsiCmd UsbScsi.

(** ** The device *)

(** The command interpreter behind the transport: from a command block, the
    number of bytes the host wants and the bytes it sent, the status (0 passed,
    1 failed), the data and how many bytes were processed. *)
Record answer (T : Type) := mk_answer { an_status : Z; an_data : list Z; an_done : Z; an_next : T }.
Arguments mk_answer {_} _ _ _ _.
Arguments an_status {_} _.
Arguments an_data {_} _.
Arguments an_done {_} _.
Arguments an_next {_} _.

Class Target (T : Type) := { target_exec : list Z → nat → list Z → T → answer T }.

Inductive Phase : Type :=
| PhCommand
| PhDataIn (data : list Z) (tag residue status : Z)
| PhDataOut (cb : list Z) (tag len : Z)
| PhStatus (tag residue status : Z).

Record Msd (T : Type) := mk_msd { msd_phase : Phase; msd_target : T }.
Arguments mk_msd {_} _ _.
Arguments msd_phase {_} _.
Arguments msd_target {_} _.

(** The command wrapper as the device reads it: tag, length, direction (true is
    to the host) and command block. *)
Definition cbw_decode (bs : list Z) : option (Z * Z * bool * list Z) :=
  if Nat.eqb (length bs) 31 && (le_at 4 0 bs =? 0x43425355)
  then Some (le_at 4 4 bs, le_at 4 8 bs, 128 <=? u8_at 12 bs,
             take (Z.to_nat (u8_at 14 bs)) (slice 15 16 bs))
  else None.

Definition csw_encode (tag residue status : Z) : list Z :=
  le_bytes 4 0x53425355 ++ le_bytes 4 tag ++ le_bytes 4 residue ++ [status].

Section device.
Context {T : Type} `{HT : Target T}.

(** Bytes on the bulk-out pipe; [None] is an endpoint that halts. *)
Definition msd_write (buf : list Z) (m : Msd T) : option (PortTransferStatus * Msd T) :=
  match msd_phase m with
  | PhCommand =>
      '(tag, len, to_host, cb) ← cbw_decode buf;
      let n := Z.to_nat len in
      let run := target_exec cb n [] (msd_target m) in
      Some (mk_pts TkSuccess 31,
            if len =? 0 then mk_msd (PhStatus tag 0 (an_status run)) (an_next run)
            else if to_host : bool
            then mk_msd (PhDataIn (take n (an_data run)) tag (len - an_done run) (an_status run))
                   (an_next run)
            else mk_msd (PhDataOut cb tag len) (msd_target m))
  | PhDataOut cb tag len =>
      let run := target_exec cb (Z.to_nat len) buf (msd_target m) in
      Some (mk_pts TkSuccess (Z.of_nat (length buf)),
            mk_msd (PhStatus tag (len - an_done run) (an_status run)) (an_next run))
  | _ => None
  end.

(** A read of [n] bytes from the bulk-in pipe: the result, and the contents of a
    buffer that was zero. *)
Definition msd_read (n : nat) (m : Msd T) : option (PortTransferStatus * list Z * Msd T) :=
  let answer (bytes : list Z) :=
    (mk_pts (if Nat.eqb (length bytes) n then TkSuccess else TkShortPacket) (Z.of_nat (length bytes)),
     bytes ++ replicate (n - length bytes) 0) in
  match msd_phase m with
  | PhDataIn data tag residue status =>
      if (length data <=? n)%nat
      then Some (answer data, mk_msd (PhStatus tag residue status) (msd_target m)) else None
  | PhStatus tag residue status =>
      if Nat.eqb n 13
      then Some (answer (csw_encode tag residue status), mk_msd PhCommand (msd_target m)) else None
  | _ => None
  end.

End device.

(** The pipes of a client library lead to such a device: endpoint [i] is its
    bulk-in pipe, endpoint [o] its bulk-out pipe, both in the state [dev_ready].
    Not every transfer may be one the client can make ([dev_reads], [dev_writes]):
    it makes those of the protocol's wrappers and short answers.  UsbStack.v shows that
    the client library of xhcid is one, for transfers of at most 64 KiB. *)
Class UsbDevice (D T : Type) `{UsbClient D} `{Target T} (i o : Z) := {
  msd_view : D → Msd T;
  dev_ready : D → Prop;
  dev_reads : nat → Prop;
  dev_writes : list Z → Prop;
  dev_reads_small n : (0 < n <= 512)%nat → dev_reads n;
  dev_writes_wrapper buf : length buf = 31%nat → dev_writes buf;
  device_read : ∀ n d r m', dev_ready d → dev_reads n → msd_read n (msd_view d) = Some (r, m') →
    ∃ d', usb_read i n d = (Ok r, d') ∧ dev_ready d' ∧ msd_view d' = m';
  device_write : ∀ buf d r m', dev_ready d → dev_writes buf → msd_write buf (msd_view d) = Some (r, m') →
    ∃ d', usb_write o buf d = (Ok r, d') ∧ dev_ready d' ∧ msd_view d' = m';
}.

(** ** Wrappers *)

Lemma le_at_mid (n off : nat) (pre post : list Z) (x : Z) :
  off = length pre → u_range (8 * Z.of_nat n) x → le_at n off (pre ++ le_bytes n x ++ post) = x.
Proof.
  intros Hp Hr. unfold le_at. rewrite (slice_mid pre (le_bytes n x) post) by (by rewrite ?length_le_bytes).
  by apply le_val_bytes.
Qed.

Lemma cbw_roundtrip (tag len : Z) (dir : EndpBinaryDirection) (cb : list Z) (c : CommandBlockWrapper) :
  u_range 32 tag → u_range 32 len →
  cbw_new tag len dir 0 cb = Ok c →
  cbw_decode (cbw_bytes c) =
    Some (tag, len, match dir with EbIn => true | EbOut => false end, cb).
Proof.
  intros Ht Hl. unfold cbw_new. destruct (16 <? length cb)%nat eqn:H16; [done|]. apply Nat.ltb_ge in H16.
  intros [= <-]. unfold cbw_bytes, cbw_decode.
  cbn [cbw_signature cbw_tag cbw_data_transfer_len cbw_flags cbw_lun cbw_cb_len cbw_command_block].
  rewrite !length_app, !length_le_bytes, length_replicate. cbn [length].
  replace (4 + (4 + (4 + (3 + (length cb + (16 - length cb))))))%nat with 31%nat by lia.
  assert (le_at 4 0 (le_bytes 4 CBW_SIGNATURE ++ le_bytes 4 tag ++ le_bytes 4 len ++
    [Z.shiftl match dir with EbOut => 0 | EbIn => 1 end CBW_FLAGS_DIRECTION_SHIFT; 0;
     as_u8 (Z.of_nat (length cb))] ++ cb ++ replicate (16 - length cb) 0) = CBW_SIGNATURE) as ->
    by (apply (le_at_mid 4 0 []); [done|unfold u_range, CBW_SIGNATURE; lia]).
  change (Nat.eqb 31 31 && (CBW_SIGNATURE =? 0x43425355)) with true. cbv iota.
  rewrite (le_at_mid 4 4 (le_bytes 4 CBW_SIGNATURE)) by (by rewrite ?length_le_bytes).
  rewrite (app_assoc (le_bytes 4 CBW_SIGNATURE)).
  rewrite (le_at_mid 4 8) by (by rewrite ?length_app, ?length_le_bytes).
  rewrite (app_assoc _ (le_bytes 4 len)).
  set (pre := (le_bytes 4 CBW_SIGNATURE ++ le_bytes 4 tag) ++ le_bytes 4 len).
  assert (length pre = 12%nat) as Hpre by (unfold pre; by rewrite !length_app, !length_le_bytes).
  unfold u8_at. rewrite (lookup_app_r pre _ 12), (lookup_app_r pre _ 14) by (rewrite Hpre; lia).
  rewrite Hpre. cbn [Nat.sub lookup list_lookup app default].
  unfold as_u8, id. rewrite as_u_id by (unfold u_range; lia). rewrite Nat2Z.id. unfold slice.
  rewrite drop_app_ge by (rewrite Hpre; lia). rewrite Hpre. cbn [Nat.sub drop].
  rewrite take_take, (Nat.min_l (length cb)) by lia. rewrite drop_0, take_app_length.
  by destruct dir.
Qed.

Lemma csw_roundtrip (tag residue status : Z) :
  u_range 32 tag → u_range 32 residue →
  dec_csw (csw_encode tag residue status) = mk_csw CSW_SIGNATURE tag residue status.
Proof.
  intros Ht Hr. unfold dec_csw, csw_encode. f_equal.
  - apply le_at_mid; [by rewrite length_le_bytes|done].
  - rewrite app_assoc. apply le_at_mid; [by rewrite length_app, !length_le_bytes|done].
Qed.

Lemma length_csw_encode (tag residue status : Z) : length (csw_encode tag residue status) = 13%nat.
Proof. unfold csw_encode. by rewrite !length_app, !length_le_bytes. Qed.

(** ** One command *)

Section command.
Context {D T : Type} `{HU : UsbClient D} `{HT : Target T} (i o : Z) `{HD : !UsbDevice D T i o}.
Context `{HL : Layouts} `{HLL : !LayoutLaws}.
Implicit Types (b : BulkOnlyTransport D).

(** A ready device in the state [m]. *)
Definition dev_at (m : Msd T) (d : D) : Prop := dev_ready d ∧ msd_view d = m.

(** The transport of device [i], [o], between commands, in front of target [t]. *)
Definition bot_idle (t : T) b : Prop :=
  bot_bulk_in_num b = i ∧ bot_bulk_out_num b = o ∧ dev_at (mk_msd PhCommand t) (bot_dev b).

(** What the driver takes for the residue: the number of bytes that came, when
    some but not all came. *)
Definition residue_of (n : nat) (run : answer T) : option Z :=
  let k := length (take n (an_data run)) in
  if Nat.eqb k n then non_zero_u32 (Z.of_nat n - an_done run)
  else if Nat.eqb k 0 then non_zero_u32 (Z.of_nat n - an_done run) else Some (Z.of_nat k).

Definition kind_of (run : answer T) : SendCommandStatusKind :=
  if an_status run =? 0 then ScSuccess else ScFailed.

(** A run the device can report: passed or failed, not more processed than asked. *)
Definition proper_run (n : nat) (run : answer T) : Prop :=
  (an_status run = 0 ∨ an_status run = 1) ∧ 0 <= an_done run <= Z.of_nat n.

Lemma client_ok {A : Type} (m : prog D ClientError A) b a d' :
  m (bot_dev b) = (Ok a, d') → client m b = (Ok a, set_dev d' b).
Proof. unfold client. by intros ->. Qed.

Lemma plain_unwrap_ok {S E : Type} (size len : nat) (s : S) :
  (size <= len)%nat → plain_unwrap (E := E) size len s = (Ok tt, s).
Proof. intros Hs. unfold plain_unwrap. by rewrite (proj2 (plain_ok_iff size len) Hs). Qed.

Lemma dev_read_at n m d r m' :
  dev_at m d → dev_reads n → msd_read n m = Some (r, m') → ∃ d', usb_read i n d = (Ok r, d') ∧ dev_at m' d'.
Proof. intros [Hr <-] Hn Hm. by apply device_read. Qed.

Lemma dev_write_at buf m d r m' :
  dev_at m d → dev_writes buf → msd_write buf m = Some (r, m') → ∃ d', usb_write o buf d = (Ok r, d') ∧ dev_at m' d'.
Proof. intros [Hr <-] Hn Hm. by apply device_write. Qed.

Lemma cbw_decode_length bs r : cbw_decode bs = Some r → length bs = 31%nat.
Proof. unfold cbw_decode. by destruct (Nat.eqb_spec (length bs) 31). Qed.

Lemma send_cbw_ok buf m b m' :
  bot_bulk_out_num b = o → dev_at m (bot_dev b) → length buf = 31%nat →
  msd_write buf m = Some (mk_pts TkSuccess 31, m') →
  ∃ d', send_cbw buf b = (Ok tt, set_dev d' b) ∧ dev_at m' d'.
Proof.
  intros Ho Hat Hl Hw. destruct (dev_write_at _ _ _ _ _ Hat (dev_writes_wrapper _ Hl) Hw) as (d' & Hd & Hv). exists d'. split; [|done].
  unfold send_cbw, mbind, prog_bind. erewrite bind_Ok by reflexivity. rewrite Ho.
  by rewrite (bind_Ok _ _ _ _ _ (client_ok _ _ _ _ Hd)).
Qed.

Lemma read_csw_ok fuel b tag residue status t :
  bot_bulk_in_num b = i → dev_at (mk_msd (PhStatus tag residue status) t) (bot_dev b) →
  ∃ d', read_csw (S fuel) b = (Ok (csw_encode tag residue status), set_dev d' b) ∧
        dev_at (mk_msd PhCommand t) d'.
Proof.
  intros Hi Hv. edestruct (dev_read_at 13) as (d' & Hd & Hv'); [exact Hv|apply dev_reads_small; lia| |].
  { cbn [msd_read msd_phase msd_target]. change (Nat.eqb 13 13) with true. reflexivity. }
  exists d'. split; [|done]. unfold read_csw. cbn [read_csw_raw].
  unfold mbind, prog_bind. erewrite bind_Ok by reflexivity. rewrite Hi.
  rewrite (bind_Ok _ _ _ _ _ (client_ok _ _ _ _ Hd)). cbv beta iota.
  rewrite length_csw_encode. change (Nat.eqb 13 13) with true. cbn [pts_kind].
  by rewrite app_nil_r.
Qed.

(** The end of a command: the status phase. *)
Lemma status_phase fuel b tag residue status early t :
  bot_bulk_in_num b = i → dev_at (mk_msd (PhStatus tag residue status) t) (bot_dev b) →
  u_range 32 tag → u_range 32 residue → status = 0 ∨ status = 1 →
  ∃ d', (csw_buffer ← read_csw (S fuel);
         _ ← plain_unwrap 13 13;
         csw_result tag (dec_csw csw_buffer) early) b
        = (Ok (mk_scs (match early with Some r => Some r | None => non_zero_u32 residue end)
                 (if status =? 0 then ScSuccess else ScFailed)), set_dev d' b) ∧
        dev_at (mk_msd PhCommand t) d'.
Proof.
  intros Hi Hv Ht Hr Hs. destruct (read_csw_ok fuel _ _ _ _ _ Hi Hv) as (d' & Hd & Hv').
  exists d'. split; [|done]. unfold mbind, prog_bind. rewrite (bind_Ok _ _ _ _ _ Hd).
  erewrite bind_Ok by (by apply plain_unwrap_ok).
  rewrite csw_roundtrip by done. unfold csw_result, csw_is_valid.
  cbn [csw_signature csw_tag csw_status csw_data_residue]. rewrite !Z.eqb_refl. cbn [negb orb].
  change (csw_status_code CswPassed) with 0. change (csw_status_code CswFailed) with 1.
  by destruct Hs as [-> | ->].
Qed.

Definition sent_bytes (data : DeviceReqData) : list Z := match data with DOut buf => buf | _ => [] end.

(** The contents of the buffer of an In request. *)
Definition received (data : DeviceReqData) (run : answer T) : list Z :=
  match data with
  | DIn n => let bytes := take n (an_data run) in bytes ++ replicate (n - length bytes) 0
  | _ => []
  end.

Definition residue_seen (data : DeviceReqData) (run : answer T) : option Z :=
  match data with
  | DIn n => residue_of n run
  | DOut buf => non_zero_u32 (Z.of_nat (length buf) - an_done run)
  | DNoData => None
  end.

(** Data of a length the wrapper can hold, in a transfer the client can make. *)
Definition data_wf (data : DeviceReqData) : Prop :=
  match data with
  | DNoData => True
  | DIn n => 0 < Z.of_nat n < 2 ^ 32 ∧ dev_reads n
  | DOut buf => 0 < Z.of_nat (length buf) < 2 ^ 32 ∧ dev_writes buf
  end.

(** The data phase, from the state the command wrapper left. *)
Lemma data_phase_ok b data cb tag t (run : answer T) :
  let n := Z.of_nat (drd_len data) in
  run = target_exec cb (drd_len data) (sent_bytes data) t → data_wf data →
  bot_bulk_in_num b = i → bot_bulk_out_num b = o →
  dev_at
    (if n =? 0 then mk_msd (PhStatus tag 0 (an_status run)) (an_next run)
     else match data with
          | DIn k => mk_msd (PhDataIn (take k (an_data run)) tag (n - an_done run) (an_status run))
                       (an_next run)
          | _ => mk_msd (PhDataOut cb tag n) t
          end) (bot_dev b) →
  ∃ d' early residue,
    data_phase data b = (Ok (early, received data run), set_dev d' b) ∧
    dev_at (mk_msd (PhStatus tag residue (an_status run)) (an_next run)) d' ∧
    (residue = 0 ∨ residue = n - an_done run) ∧
    match early with Some r => Some r | None => non_zero_u32 residue end = residue_seen data run.
Proof.
  intros n Hrun Hwf Hi Ho Hv. destruct data as [k|buf|]; cbn [data_wf drd_len sent_bytes] in *.
  - assert ((n =? 0) = false) as Hn by (apply Z.eqb_neq; unfold n; lia). rewrite Hn in Hv.
    set (bytes := take k (an_data run)) in *.
    assert (length bytes <= k)%nat as Hk by (unfold bytes; rewrite length_take; lia).
    edestruct (dev_read_at k) as (d' & Hd & Hv'); [exact Hv|apply Hwf| |].
    { cbn [msd_read msd_phase msd_target].
      rewrite (proj2 (Nat.leb_le _ _) Hk). reflexivity. }
    exists d', (if Nat.eqb (length bytes) k then None else non_zero_u32 (Z.of_nat (length bytes))), (n - an_done run).
    split; [|split; [done|]].
    + unfold data_phase, mbind, prog_bind. erewrite bind_Ok by reflexivity. rewrite Hi.
      rewrite (bind_Ok _ _ _ _ _ (client_ok _ _ _ _ Hd)). cbv beta iota.
      unfold early_residue_of. cbn [pts_kind pts_bytes_transferred].
      by destruct (Nat.eqb (length bytes) k).
    + split; [by right|]. cbn [residue_seen]. unfold residue_of. fold bytes.
      destruct (Nat.eqb (length bytes) k); [done|]. unfold non_zero_u32 at 1.
      destruct (Nat.eqb_spec (length bytes) 0) as [->|Hz]; [done|].
      by rewrite (proj2 (Z.eqb_neq _ _)) by lia.
  - assert ((n =? 0) = false) as Hn by (apply Z.eqb_neq; unfold n; lia). rewrite Hn in Hv.
    edestruct (dev_write_at buf) as (d' & Hd & Hv'); [exact Hv|apply Hwf| |].
    { cbn [msd_write msd_phase msd_target]. reflexivity. }
    exists d', None, (n - an_done run). split; [|split].
    + unfold data_phase, mbind, prog_bind. erewrite bind_Ok by reflexivity. rewrite Ho.
      by rewrite (bind_Ok _ _ _ _ _ (client_ok _ _ _ _ Hd)).
    + unfold n in Hv'. rewrite Nat2Z.id, <- Hrun in Hv'. exact Hv'.
    + split; [by right|done].
  - exists (bot_dev b), None, 0. split; [|split; [done|split; [by left|done]]].
    by destruct b.
Qed.

(** One command over an idle device. *)
Lemma send_command_target fuel b t cb data :
  bot_idle t b → (length cb <= 16)%nat → data_wf data →
  let run := target_exec cb (drd_len data) (sent_bytes data) t in
  proper_run (drd_len data) run →
  ∃ b', bot_send_command (S fuel) cb data b
        = (Ok (mk_scs (residue_seen data run) (kind_of run), received data run), b') ∧
        bot_idle (an_next run) b' ∧ bot_current_tag b' = as_u32 (bot_current_tag b + 1).
Proof.
  intros (Hi & Ho & Hv) Hcb Hwf run [Hst Hdone]. set (tag := as_u32 (bot_current_tag b + 1)).
  set (n := Z.of_nat (drd_len data)) in *.
  assert (u_range 32 n) as Hn by (unfold u_range, n; destruct data; cbn in *; lia).
  assert (u_range 32 tag) as Ht by (by apply u_range_as_u).
  unfold bot_send_command, mbind, prog_bind. erewrite bind_Ok by reflexivity. cbv beta zeta. fold tag.
  erewrite bind_Ok by reflexivity. rewrite (bind_Ok _ _ _ _ _ (plain_unwrap_ok 31 31 _ ltac:(done))).
  fold n. unfold as_u32 at 1. rewrite (as_u_id 32 n Hn).
  destruct (cbw_new tag n (binary_of_req (drd_direction data)) 0 cb) as [c|e|] eqn:Hc.
  2,3: unfold cbw_new in Hc; by rewrite (proj2 (Nat.ltb_ge _ _) Hcb) in Hc.
  pose proof (cbw_roundtrip _ _ _ _ _ Ht Hn Hc) as Hdec.
  assert (cbw_tag c = tag) as Hct by (unfold cbw_new in Hc; rewrite (proj2 (Nat.ltb_ge _ _) Hcb) in Hc; by injection Hc as <-).
  edestruct (send_cbw_ok (cbw_bytes c) (mk_msd PhCommand t) (set_tag tag b)) as (d1 & Hsend & Hv1); [done|exact Hv|by eapply cbw_decode_length| |].
  { cbn [msd_write msd_phase msd_target]. rewrite Hdec.
    cbn [mbind option_bind]. reflexivity. }
  rewrite (bind_Ok _ _ _ _ _ Hsend). set (b1 := set_dev d1 (set_tag tag b)).
  edestruct (data_phase_ok b1 data cb tag t run) as (d2 & early & residue & Hdata & Hv2 & Hres & Hseen);
    [done|done|done|done| |].
  { cbn [b1 set_dev bot_dev]. fold n.
    assert (Z.to_nat n = drd_len data) as E by (unfold n; apply Nat2Z.id). rewrite E in Hv1. clear E. unfold run.
    destruct data as [k|buf|]; [done| |done].
    assert ((n =? 0) = false) as E by (apply Z.eqb_neq; unfold n; cbn in *; lia). by rewrite E in *. }
  rewrite (bind_Ok _ _ _ _ _ Hdata). cbv beta iota. rewrite Hct.
  destruct (status_phase fuel (set_dev d2 b1) tag residue (an_status run) early (an_next run))
    as (d3 & Hcsw & Hv3); [done|done|done| |done|].
  { unfold u_range in *. destruct Hres as [-> | ->]; lia. }
  apply bind_inv_Ok in Hcsw as (csw & b3 & Hr3 & Hcsw). rewrite (bind_Ok _ _ _ _ _ Hr3).
  apply bind_inv_Ok in Hcsw as ([] & b4 & Hr4 & Hcsw). rewrite (bind_Ok _ _ _ _ _ Hr4).
  rewrite (bind_Ok _ _ _ _ _ Hcsw). eexists. split; [|split; [|]].
  - rewrite Hseen. reflexivity.
  - by split.
  - done.
Qed.

(** A session: commands one after the other, until one fails with an error. *)
Fixpoint bot_session (fuel : nat) (cmds : list (list Z * DeviceReqData))
    : prog (BulkOnlyTransport D) ProtocolError (list (SendCommandStatus * list Z)) :=
  match cmds with
  | [] => mret []
  | (cb, data) :: cmds =>
      r ← bot_send_command fuel cb data;
      rs ← bot_session fuel cmds;
      mret (r :: rs)
  end.

(** The same session as calls of the target. *)
Fixpoint target_session (cmds : list (list Z * DeviceReqData)) (t : T)
    : list (SendCommandStatus * list Z) * T :=
  match cmds with
  | [] => ([], t)
  | (cb, data) :: cmds =>
      let run := target_exec cb (drd_len data) (sent_bytes data) t in
      let '(rs, t') := target_session cmds (an_next run) in
      ((mk_scs (residue_seen data run) (kind_of run), received data run) :: rs, t')
  end.

Fixpoint session_wf (cmds : list (list Z * DeviceReqData)) (t : T) : Prop :=
  match cmds with
  | [] => True
  | (cb, data) :: cmds =>
      let run := target_exec cb (drd_len data) (sent_bytes data) t in
      (length cb <= 16)%nat ∧ data_wf data ∧ proper_run (drd_len data) run ∧
      session_wf cmds (an_next run)
  end.

(** C8. The bulk-only transport implements calls of the SCSI target.  Over a device
    that follows the bulk-only protocol, a session of commands (each of at most 16
    bytes, with data the client can transfer or none) has exactly the results of calling the
    target with the same command blocks and data, in order: its statuses become
    the kinds of the results, the buffers hold what it answered, and the device is
    left ready for the next command.  The residue is the device's, except after a
    short packet, where it is the number of bytes that came instead of the number
    that did not ([residue_of]). *)
Theorem bot_refines_target fuel cmds b t :
  bot_idle t b → session_wf cmds t →
  ∃ b', bot_session (S fuel) cmds b = (Ok (target_session cmds t).1, b') ∧
        bot_idle (target_session cmds t).2 b'.
Proof.
  revert b t. induction cmds as [|[cb data] cmds IH]; intros b t Hb Hwf; [by exists b|].
  destruct Hwf as (Hcb & Hd & Hp & Hwf). cbn [bot_session target_session].
  destruct (send_command_target fuel b t cb data Hb Hcb Hd Hp) as (b1 & Hs & Hb1 & _).
  destruct (IH b1 _ Hb1 Hwf) as (b2 & Hss & Hb2). exists b2.
  unfold mbind, prog_bind. rewrite (bind_Ok _ _ _ _ _ Hs), (bind_Ok _ _ _ _ _ Hss).
  by destruct (target_session cmds _).
Qed.

End command.

(** ** A disk behind the transport *)

(** A target that is a disk of blocks of [bs] bytes.  Commands that address blocks
    outside it fail without data and change nothing. *)
Class DiskTarget (T : Type) `{Target T} (bs : Z) := {
  disk : T → list Z;
  disk_read_ok : ∀ cdb t, u8_at 0 cdb = 0x88 → 0 <= cdb_lba cdb → 0 <= cdb_blocks cdb →
    (cdb_lba cdb + cdb_blocks cdb) * bs <= Z.of_nat (length (disk t)) →
    let n := Z.to_nat (cdb_blocks cdb * bs) in
    ∃ t', target_exec cdb n [] t
          = mk_answer 0 (slice (Z.to_nat (cdb_lba cdb * bs)) n (disk t)) (Z.of_nat n) t' ∧
          disk t' = disk t;
  disk_out_of_range : ∀ cdb n out t, u8_at 0 cdb = 0x88 ∨ u8_at 0 cdb = 0x8A →
    Z.of_nat (length (disk t)) < (cdb_lba cdb + cdb_blocks cdb) * bs →
    ∃ t', target_exec cdb n out t = mk_answer 1 [] 0 t' ∧ disk t' = disk t;
}.

Section disk.
Context {D T : Type} `{HU : UsbClient D} `{HT : Target T} (i o : Z) `{HD : !UsbDevice D T i o}.
Context (bs : Z) `{HDT : !DiskTarget T bs}.
Context `{HL : Layouts} `{HLL : !LayoutLaws}.
Context (fuel : nat).
#[local] Existing Instance bot_protocol.
#[local] Instance the_protocol : Protocol (BulkOnlyTransport D) := bot_protocol (S fuel).

Abbreviation scsi_state := (Scsi * BulkOnlyTransport D)%type.

(** The SCSI layer of an initialised driver in front of the disk. *)
Definition scsi_ready (t : T) (s : scsi_state) : Prop :=
  block_size s.1 = bs ∧ length (command_buffer s.1) = 16%nat ∧ bot_idle i o t s.2.

Lemma whole_blocks_ok (msg : string) (k : Z) (len : nat) (s : scsi_state) :
  block_size s.1 = bs → 0 < bs → Z.of_nat len = k * bs → Z.of_nat len < 2 ^ 32 →
  whole_blocks msg len s = (Ok (k, len), s).
Proof.
  intros Hb Hpos Hlen Hmax. unfold whole_blocks, mbind, prog_bind. erewrite bind_Ok by reflexivity.
  rewrite Hb, (proj2 (Z.eqb_neq bs 0)) by lia. rewrite Hlen, Z.div_mul by lia.
  rewrite <- Hlen, Nat2Z.id. rewrite (proj2 (Z.ltb_lt k _)) by nia. done.
Qed.

Lemma upd_eq (f : Scsi → Scsi) (s : scsi_state) : upd f s = (Ok tt, (f s.1, s.2)).
Proof. by destruct s. Qed.

Lemma put_cmd_ok (bytes : list Z) (s : scsi_state) :
  length (command_buffer s.1) = 16%nat → (length bytes <= 16)%nat →
  put_cmd bytes s
  = (Ok tt, (set_command (bytes ++ drop (length bytes) (command_buffer s.1)) s.1, s.2)).
Proof.
  intros Hc Hl. destruct s as [sc p]. cbn [fst snd] in *. unfold put_cmd, mbind, prog_bind.
  erewrite bind_Ok by reflexivity. cbn [fst]. rewrite Hc.
  by erewrite bind_Ok by (by apply plain_unwrap_ok).
Qed.

Lemma put_cmd_16 (c : Rw16) (s : scsi_state) :
  length (command_buffer s.1) = 16%nat →
  put_cmd (rw16_bytes c) s = (Ok tt, (set_command (rw16_bytes c) s.1, s.2)).
Proof.
  intros Hc. rewrite put_cmd_ok by (by rewrite ?rw16_length).
  by rewrite drop_ge, app_nil_r by (by rewrite Hc, rw16_length).
Qed.

(** The command at the start of the command buffer, sent to the idle device. *)
Lemma scsi_send_ok (n : nat) (cb : list Z) (data : DeviceReqData) (s : scsi_state) (t : T) :
  take n (command_buffer s.1) = cb → (length cb <= 16)%nat → bot_idle i o t s.2 → data_wf i o data →
  let run := target_exec cb (drd_len data) (sent_bytes data) t in
  proper_run (drd_len data) run →
  ∃ p', scsi_send n data s = (Ok (mk_scs (residue_seen data run) (kind_of run), received data run), (s.1, p')) ∧
        bot_idle i o (an_next run) p'.
Proof.
  intros Hc Hl Hb Hd run Hp. destruct s as [sc p]. cbn [fst snd] in *. unfold scsi_send. rewrite Hc.
  destruct (send_command_target i o fuel p t cb data) as (p' & Hs & Hi & _); try done.
  exists p'. split; [|done]. cbn [send_command the_protocol bot_protocol]. by rewrite Hs.
Qed.

Lemma send_data_in_ok (m : nat) (cb : list Z) (n : nat) (s : scsi_state) (t : T) :
  take m (command_buffer s.1) = cb → (length cb <= 16)%nat → bot_idle i o t s.2 →
  (n <= length (data_buffer s.1))%nat → data_wf i o (DIn n) →
  let run := target_exec cb n [] t in
  proper_run n run →
  ∃ p', send_data_in m n s
        = (Ok (mk_scs (residue_of n run) (kind_of run)),
           (set_data (received (DIn n) run ++ drop n (data_buffer s.1)) s.1, p')) ∧
        bot_idle i o (an_next run) p'.
Proof.
  intros Hc Hcl Hb Hl Hn run Hp. destruct s as [sc p].
  destruct (scsi_send_ok m cb (DIn n) (sc, p) t Hc Hcl Hb Hn Hp) as (p' & Hs & Hi).
  exists p'. split; [|done]. unfold send_data_in, mbind, prog_bind.
  erewrite bind_Ok by reflexivity. rewrite (proj2 (Nat.ltb_ge _ n)) by (cbn in *; lia).
  rewrite (bind_Ok _ _ _ _ _ Hs). cbv beta iota. by erewrite bind_Ok by reflexivity.
Qed.

Lemma length_received (n : nat) (run : answer T) : length (received (DIn n) run) = n.
Proof. cbn [received]. rewrite length_app, length_replicate, length_take. lia. Qed.

(** [Scsi::read] of whole blocks is one command and its result. *)
Lemma scsi_read_eq (lba k : Z) (buffer : list Z) (s : scsi_state) (t : T) :
  scsi_ready t s → 0 < bs → Z.of_nat (length buffer) = k * bs →
  data_wf i o (DIn (length buffer)) →
  let n := length buffer in
  let run := target_exec (rw16_bytes (read16_new lba k 0)) n [] t in
  proper_run n run →
  ∃ s', scsi_read lba buffer s
        = (Ok (bytes_transferred (mk_scs (residue_of n run) (kind_of run)) (Z.of_nat n),
               received (DIn n) run), s') ∧
        scsi_ready (an_next run) s'.
Proof.
  intros (Hb & Hc & Hi) Hpos Hk Hn n run Hp.
  unfold scsi_read, resize_data, mbind, prog_bind.
  rewrite (bind_Ok _ _ _ _ _ (whole_blocks_ok _ k n s Hb Hpos Hk ltac:(apply Hn))). cbv beta iota.
  rewrite (bind_Ok _ _ _ _ _ (put_cmd_16 _ s Hc)), (bind_Ok _ _ _ _ _ (upd_eq _ _)).
  cbn [fst snd]. set (s2 := (_, s.2)).
  assert (length (data_buffer s2.1) = n) as Hdl by (cbn; by rewrite length_resize).
  destruct (send_data_in_ok 16 (rw16_bytes (read16_new lba k 0)) n s2 t) as (p' & Hs & Hi');
    [by apply take_ge; rewrite rw16_length|by rewrite rw16_length|done|lia|done|done|].
  rewrite drop_ge, app_nil_r in Hs by lia.
  rewrite (bind_Ok _ _ _ _ _ Hs). erewrite bind_Ok by reflexivity.
  cbn [fst set_data data_buffer]. rewrite take_ge by (by rewrite length_received).
  unfold as_u32. rewrite as_u_id by (destruct Hn; unfold u_range, n; lia).
  rewrite drop_ge, app_nil_r by done. eexists. split; [reflexivity|].
  split; [done|]. split; [exact (rw16_length _)|done].
Qed.

(** [Scsi::write] of whole blocks. *)
Lemma scsi_write_eq (lba k : Z) (buffer : list Z) (s : scsi_state) (t : T) :
  scsi_ready t s → 0 < bs → Z.of_nat (length buffer) = k * bs →
  data_wf i o (DOut buffer) →
  let n := length buffer in
  let run := target_exec (rw16_bytes (write16_new lba k 0)) n buffer t in
  proper_run n run →
  ∃ s', scsi_write lba buffer s
        = (Ok (bytes_transferred (mk_scs (residue_seen (DOut buffer) run) (kind_of run)) (Z.of_nat n)),
           s') ∧
        scsi_ready (an_next run) s'.
Proof.
  intros (Hb & Hc & Hi) Hpos Hk Hn n run Hp.
  unfold scsi_write, resize_data, mbind, prog_bind.
  rewrite (bind_Ok _ _ _ _ _ (whole_blocks_ok _ k n s Hb Hpos Hk ltac:(apply Hn))). cbv beta iota.
  rewrite (bind_Ok _ _ _ _ _ (put_cmd_16 _ s Hc)), 2!(bind_Ok _ _ _ _ _ (upd_eq _ _)).
  cbn [fst snd]. rewrite (take_ge buffer n) by done. set (s2 := (_, s.2)).
  destruct (scsi_send_ok 16 (rw16_bytes (write16_new lba k 0)) (DOut buffer) s2 t) as (p' & Hs & Hi');
    [by apply take_ge; rewrite rw16_length|by rewrite rw16_length|done|done|done|].
  rewrite (bind_Ok _ _ _ _ _ Hs). cbv beta iota.
  unfold as_u32. rewrite as_u_id by (destruct Hn; unfold u_range, n; lia).
  eexists. split; [reflexivity|]. split; [done|]. split; [exact (rw16_length _)|done].
Qed.

(** ** The disk scheme over the device *)

(** The scheme has the disk open as [fd]. *)
Definition disk_open (fd : Z) (t : T) (s : ScsiScheme (BulkOnlyTransport D)) : Prop :=
  ss_handles s !! fd = Some HDisk ∧ scsi_ready t (ss_scsi s, ss_protocol s).

Lemma aligned_ok (k j : Z) (len : nat) (s : ScsiScheme (BulkOnlyTransport D)) :
  block_size (ss_scsi s) = bs → 0 < bs → Z.of_nat len = k * bs →
  aligned_lba (j * bs) len s = (Ok j, s).
Proof.
  intros Hb Hpos Hl. unfold aligned_lba, mbind, prog_bind. erewrite bind_Ok by reflexivity.
  rewrite Hb, (proj2 (Z.eqb_neq bs 0)) by lia. rewrite Hl, !Z.mod_mul, Z.div_mul by lia. done.
Qed.

Lemma on_disk_ok {A : Type} (m : prog (Scsi * BulkOnlyTransport D) ScsiError A) s a s1 :
  m (ss_scsi s, ss_protocol s) = (Ok a, s1) →
  on_disk m s = (Ok a, mk_ss s1.1 s1.2 (ss_handles s) (ss_next_fd s)).
Proof. intros Hm. unfold on_disk. rewrite Hm. by destruct s1. Qed.

Lemma ss_read_disk fd buf k j s t a s1 :
  disk_open fd t s → 0 < bs → Z.of_nat (length buf) = k * bs →
  scsi_read j buf (ss_scsi s, ss_protocol s) = (Ok a, s1) →
  ss_read fd buf (j * bs) s = (Ok a, mk_ss s1.1 s1.2 (ss_handles s) (ss_next_fd s)).
Proof.
  intros (Hh & Hb & _) Hpos Hk Hr. unfold ss_read, ss_handle, mbind, prog_bind, p_bind at 1. rewrite Hh.
  cbv beta iota. rewrite (bind_Ok _ _ _ _ _ (aligned_ok k j _ s Hb Hpos Hk)). by apply on_disk_ok.
Qed.

Lemma ss_write_disk fd buf k j s t a s1 :
  disk_open fd t s → 0 < bs → Z.of_nat (length buf) = k * bs →
  scsi_write j buf (ss_scsi s, ss_protocol s) = (Ok a, s1) →
  ss_write fd buf (j * bs) s = (Ok a, mk_ss s1.1 s1.2 (ss_handles s) (ss_next_fd s)).
Proof.
  intros (Hh & Hb & _) Hpos Hk Hr. unfold ss_write, ss_handle, mbind, prog_bind, p_bind at 1. rewrite Hh.
  cbv beta iota. rewrite (bind_Ok _ _ _ _ _ (aligned_ok k j _ s Hb Hpos Hk)). by apply on_disk_ok.
Qed.

(** Reading the disk.  A read of [k] blocks at block [j], inside the disk and of a length
    the client can transfer, returns the number of bytes asked for and exactly the bytes
    of the disk at that place; the disk is unchanged and the driver is ready for the next
    request. *)
Lemma disk_read_any fd buf k j s t :
  disk_open fd t s → 0 < bs → 0 <= j →
  Z.of_nat (length buf) = k * bs → data_wf i o (DIn (length buf)) →
  (j + k) * bs <= Z.of_nat (length (disk t)) → j < 2 ^ 64 →
  ∃ s' t', ss_read fd buf (j * bs) s
           = (Ok (Z.of_nat (length buf), slice (Z.to_nat (j * bs)) (length buf) (disk t)), s') ∧
           disk_open fd t' s' ∧ disk t' = disk t.
Proof.
  intros Ho Hpos Hj Hk Hwf Hin H64. pose proof Ho as (Hh & Hrd). pose proof Hwf as [Hn _].
  assert (0 <= j * bs) as Hjb by nia. rewrite Z.mul_add_distr_r in Hin.
  destruct (read16_cdb j k 0) as [Hl Hb]; [done|unfold u_range; nia|].
  destruct (disk_read_ok (rw16_bytes (read16_new j k 0)) t) as (t' & He & Hd);
    rewrite ?Hl, ?Hb; [done|lia|nia|lia|].
  rewrite Hl, Hb, <- Hk, Nat2Z.id in He.
  destruct (scsi_read_eq j k buf (ss_scsi s, ss_protocol s) t) as (s1 & Hr & Hrd1); [done|done|done|done| |].
  { rewrite He. split; [by left|]. cbn [an_done]. lia. }
  rewrite He in Hr, Hrd1. exists (mk_ss s1.1 s1.2 (ss_handles s) (ss_next_fd s)), t'.
  assert (length (slice (Z.to_nat (j * bs)) (length buf) (disk t)) = length buf) as Hlen
    by (rewrite length_slice; lia).
  split; [|split; [split; [done|by destruct s1]|done]].
  erewrite (ss_read_disk fd buf k j s t); [|done|done|done|exact Hr].
  cbn [received an_data]. rewrite take_ge by lia. rewrite Hlen, Nat.sub_diag, app_nil_r.
  do 3 f_equal. unfold bytes_transferred, residue_of. cbn [scs_residue an_data an_done].
  rewrite take_ge by lia. rewrite Hlen, Nat.eqb_refl. unfold non_zero_u32. rewrite Z.sub_diag.
  cbn [Z.eqb default]. unfold as_u32. rewrite as_u_id; unfold u_range; lia.
Qed.

Lemma to_be_4_byte (k : Z) : 0 <= k < 256 → to_be 4 k = k * 2 ^ 24.
Proof.
  intros Hk. unfold to_be, be_bytes. cbn [le_bytes rev app le_val].
  rewrite (Z.mod_small k 256), (Z.div_small k 256) by lia. change (0 / 256) with 0. change (0 / 256) with 0. change (0 mod 256) with 0. lia.
Qed.

(** C35. Writing a USB disk loses the data.  The write command carries its address
    and length little-endian where SCSI has them big-endian.  On a disk of fewer
    than 2^24 blocks, a write of 1 to 255 blocks at any address is a command for at
    least 2^24 blocks; the device refuses it, and the driver answers the caller
    with success and 0 bytes.  The disk is unchanged.  The write is of less than 4 GiB
    and one the client can make ([dev_writes]: 64 KiB for xhcid). *)
Theorem usb_disk_write_lost fd buf k j s t :
  disk_open fd t s → 0 < bs → 0 < k < 256 → 0 <= j →
  Z.of_nat (length buf) = k * bs → Z.of_nat (length buf) < 2 ^ 32 → dev_writes buf →
  Z.of_nat (length (disk t)) < 2 ^ 24 * bs →
  ∃ s' t', ss_write fd buf (j * bs) s = (Ok 0, s') ∧ disk_open fd t' s' ∧ disk t' = disk t.
Proof.
  intros Ho Hpos Hk Hj Hlen Hn Hdw Hsmall. pose proof Ho as (Hh & Hrd).
  destruct (write16_cdb j k 0) as [Hl Hb]. rewrite to_be_4_byte in Hb by lia.
  destruct (disk_out_of_range (rw16_bytes (write16_new j k 0)) (length buf) buf t) as (t' & He & Hd);
    [by right| |].
  { rewrite Hl, Hb. assert (0 <= to_be 8 j) by (apply (le_val_range (be_bytes 8 j)), be_bytes_range). nia. }
  destruct (scsi_write_eq j k buf (ss_scsi s, ss_protocol s) t) as (s1 & Hr & Hrd1); [done|done|done|split; [nia|done]| |].
  { rewrite He. split; [by right|]. cbn [an_done]. lia. }
  rewrite He in Hr, Hrd1. exists (mk_ss s1.1 s1.2 (ss_handles s) (ss_next_fd s)), t'.
  split; [|split; [split; [done|by destruct s1]|done]].
  erewrite (ss_write_disk fd buf k j s t); [|done|done|done|exact Hr].
  do 2 f_equal. unfold bytes_transferred, residue_seen, non_zero_u32. cbn [scs_residue an_done].
  rewrite (proj2 (Z.eqb_neq _ 0)) by nia. cbn [default]. rewrite Z.sub_0_r. unfold id.
  rewrite Z.sub_diag. done.
Qed.

(** Reading outside the disk is not an error either: success, 0 bytes, and a
    buffer of zeros. *)
Lemma usb_disk_read_past_end fd buf k j s t :
  disk_open fd t s → 0 < bs → 0 <= j < 2 ^ 64 →
  Z.of_nat (length buf) = k * bs → data_wf i o (DIn (length buf)) →
  Z.of_nat (length (disk t)) < (j + k) * bs →
  ∃ s' t', ss_read fd buf (j * bs) s = (Ok (0, replicate (length buf) 0), s') ∧
           disk_open fd t' s' ∧ disk t' = disk t.
Proof.
  intros Ho Hpos Hj Hk Hwf Hout. pose proof Ho as (Hh & Hrd). pose proof Hwf as [Hn _].
  destruct (read16_cdb j k 0) as [Hl Hb]; [done|unfold u_range; nia|].
  destruct (disk_out_of_range (rw16_bytes (read16_new j k 0)) (length buf) [] t) as (t' & He & Hd);
    [by left|by rewrite Hl, Hb|].
  destruct (scsi_read_eq j k buf (ss_scsi s, ss_protocol s) t) as (s1 & Hr & Hrd1); [done|done|done|done| |].
  { rewrite He. split; [by right|]. cbn [an_done]. lia. }
  rewrite He in Hr, Hrd1. exists (mk_ss s1.1 s1.2 (ss_handles s) (ss_next_fd s)), t'.
  split; [|split; [split; [done|by destruct s1]|done]].
  erewrite (ss_read_disk fd buf k j s t); [|done|done|done|exact Hr].
  cbn [received an_data]. rewrite take_nil. cbn [length app]. rewrite Nat.sub_0_r.
  do 3 f_equal. unfold bytes_transferred, residue_of, non_zero_u32. cbn [scs_residue an_data an_done].
  rewrite take_nil. cbn [length]. rewrite (proj2 (Nat.eqb_neq 0 (length buf))) by lia.
  change (Nat.eqb 0 0) with true. rewrite (proj2 (Z.eqb_neq _ 0)) by lia. cbn [default]. unfold id.
  by rewrite Z.sub_0_r, Z.sub_diag.
Qed.

(** ** The start of the driver *)

(** [plain::slice_from_bytes] on bytes: as many elements as fit. *)
Class PlainSliceLaws `{PlainSlices} := {
  plain_slice_fit : ∀ size len, (0 < size)%nat → plain_slice size len = Some (len / size)%nat;
}.

(** How such a disk identifies itself: standard inquiry data, mode data without
    block descriptors and pages, and the capacity as the last address. *)
Definition MODE_DATA : list Z := [0; 6; 0; 0; 0; 0; 0; 0].

Class DiskIdent := {
  inquiry_data : list Z;
  inquiry_len : (36 <= length inquiry_data <= 255)%nat;
  inquiry_additional : u8_at 4 inquiry_data = Z.of_nat (length inquiry_data) - 5;
  ident_inquiry : ∀ n t, ∃ t',
    target_exec (inquiry_bytes (inquiry_new false 0 (Z.of_nat n) 0)) n [] t
    = mk_answer 0 (take n inquiry_data) (Z.of_nat (length (take n inquiry_data))) t' ∧
    disk t' = disk t;
  ident_mode : ∀ n t, ∃ t',
    target_exec (mode_sense10_bytes (get_block_desc (Z.of_nat n) 0)) n [] t
    = mk_answer 0 (take n MODE_DATA) (Z.of_nat (length (take n MODE_DATA))) t' ∧ disk t' = disk t;
  ident_capacity : ∀ k t, 0 < k <= 2 ^ 32 → Z.of_nat (length (disk t)) = k * bs → ∃ t',
    target_exec (read_capacity10_bytes (read_capacity10_new 0)) 8 [] t
    = mk_answer 0 (be_bytes 4 (k - 1) ++ be_bytes 4 bs) 8 t' ∧ disk t' = disk t;
}.

Context `{HS : PlainSlices} `{HSL : !PlainSliceLaws} `{HI : !DiskIdent}.

(** The driver while it identifies the device. *)
Record starting (t : T) (s : scsi_state) : Prop := {
  st_command : length (command_buffer s.1) = 16%nat;
  st_inquiry : length (inquiry_buffer s.1) = 259%nat;
  st_idle : bot_idle i o t s.2;
}.

Lemma take_cmd (cb rest : list Z) (n : nat) : n = length cb → take n (cb ++ rest) = cb.
Proof. intros ->. apply take_app_length. Qed.

Lemma length_put (cb l : list Z) (n : nat) :
  length l = n → (length cb <= n)%nat → length (cb ++ drop (length cb) l) = n.
Proof. intros Hl Hc. rewrite length_app, length_drop. lia. Qed.

Lemma inquiry_step (n : nat) s t :
  starting t s → (0 < n <= 259)%nat → (n <= length inquiry_data)%nat →
  ∃ s' t', get_standard_inquiry_data (Z.of_nat n) s = (Ok tt, s') ∧ starting t' s' ∧
    disk t' = disk t ∧
    inquiry_buffer s'.1 = take n inquiry_data ++ drop n (inquiry_buffer s.1).
Proof.
  intros [] Hn Hni. destruct (ident_inquiry n t) as (t' & He & Hd).
  set (cb := inquiry_bytes (inquiry_new false 0 (Z.of_nat n) 0)) in *.
  assert (length cb = 6%nat) as Hcb by done.
  set (s1 := (set_command (cb ++ drop (length cb) (command_buffer s.1)) s.1, s.2)).
  destruct (scsi_send_ok 6 cb (DIn n) s1 t) as (p' & Hs & Hi').
  { by apply take_cmd. } { lia. } { done. } { split; [lia|apply dev_reads_small; lia]. }
  { cbn [drd_len sent_bytes]. rewrite He. split; [by left|]. cbn [an_done]. rewrite length_take. lia. }
  cbn [drd_len sent_bytes] in Hs, Hi'. rewrite He in Hs, Hi'.
  cbn [received an_data] in Hs. rewrite take_take, Nat.min_id, (length_take_le inquiry_data n Hni), Nat.sub_diag, app_nil_r in Hs.
  eexists (set_inquiry (take n inquiry_data ++ drop n (inquiry_buffer s.1)) s1.1, p'), t'.
  split; [|split; [split|done]].
  - unfold get_standard_inquiry_data, mbind, prog_bind. fold cb.
    rewrite (bind_Ok _ _ _ _ _ (put_cmd_ok cb s st_command0 ltac:(lia))). fold s1.
    erewrite bind_Ok by reflexivity. rewrite Nat2Z.id.
    change (inquiry_buffer s1.1) with (inquiry_buffer s.1).
    rewrite st_inquiry0, (proj2 (Nat.ltb_ge 259 n)) by lia. unfold INQUIRY_CMD_LEN.
    rewrite (bind_Ok _ _ _ _ _ Hs). cbv beta iota. by rewrite upd_eq.
  - exact (length_put cb _ 16 st_command0 ltac:(lia)).
  - cbn. rewrite length_app, length_take, length_drop, st_inquiry0. lia.
  - done.
Qed.

Lemma inquiry_view s t : starting t s → res_standard_inquiry_data s = (Ok (dec_standard_inquiry (inquiry_buffer s.1)), s).
Proof.
  intros []. unfold res_standard_inquiry_data, mbind, prog_bind. erewrite bind_Ok by reflexivity.
  rewrite st_inquiry0. by erewrite bind_Ok by (apply plain_unwrap_ok; unfold SID_SIZE; lia).
Qed.

(** A command whose answer fills the first [n] bytes of the data buffer. *)
Lemma command_step (cb : list Z) (m r n : nat) (bytes : list Z) s t t' :
  starting t s → (length cb <= 16)%nat → m = length cb → (0 < n <= r)%nat →
  (n <= 512)%nat → length bytes = n →
  target_exec cb n [] t = mk_answer 0 bytes (Z.of_nat n) t' →
  ∃ s', starting t' s' ∧ data_buffer s'.1 = bytes ++ drop n (resize r 0 (data_buffer s.1)) ∧
    inquiry_buffer s'.1 = inquiry_buffer s.1 ∧
    ∀ A (k : SendCommandStatus → prog scsi_state ScsiError A),
    p_bind (λ _, p_bind (λ _, p_bind k (send_data_in m n)) (resize_data r)) (put_cmd cb) s
    = k (mk_scs None ScSuccess) s'.
Proof.
  intros [] Hcb -> Hn Hmax Hl He.
  set (s1 := (set_data (resize r 0 (data_buffer s.1))
                (set_command (cb ++ drop (length cb) (command_buffer s.1)) s.1), s.2)).
  assert (length (data_buffer s1.1) = r) as Hr by (cbn; by rewrite length_resize).
  destruct (send_data_in_ok (length cb) cb n s1 t) as (p' & Hs & Hi').
  { by apply take_cmd. } { lia. } { done. } { lia. } { split; [lia|apply dev_reads_small; lia]. }
  { rewrite He. split; [by left|]. cbn [an_done]. lia. }
  rewrite He in Hs, Hi'.
  cbn [received an_data] in Hs. rewrite take_ge, Hl, Nat.sub_diag, app_nil_r in Hs by lia.
  unfold residue_of in Hs. cbn [an_data an_done] in Hs.
  rewrite take_ge, Hl, Nat.eqb_refl, Z.sub_diag in Hs by lia.
  eexists. split; [|split; [|split]]; cycle 3.
  - intros A k. unfold resize_data.
    rewrite (bind_Ok _ _ _ _ _ (put_cmd_ok cb s st_command0 Hcb)), (bind_Ok _ _ _ _ _ (upd_eq _ _)).
    cbn [fst snd]. fold s1. by rewrite (bind_Ok _ _ _ _ _ Hs).
  - split; [|done|done]. exact (length_put cb _ 16 st_command0 Hcb).
  - done.
  - done.
Qed.

Lemma header_view s : (8 <= length (data_buffer s.1))%nat →
  res_mode_param_header10 (P := BulkOnlyTransport D) s = (Ok (dec_mode_header10 (data_buffer s.1)), s).
Proof.
  intros Hl. unfold res_mode_param_header10, mbind, prog_bind. erewrite bind_Ok by reflexivity.
  by erewrite bind_Ok by (by apply plain_unwrap_ok).
Qed.

(** Without block descriptors there is nothing to read from the mode data. *)
Lemma no_blkdescs s t : starting t s → data_buffer s.1 = MODE_DATA →
  ∃ l, res_blkdesc_mode10 s = (Ok l, s) ∧ blk_get l 0 = None.
Proof.
  intros Hst Hd. unfold res_blkdesc_mode10, mbind, prog_bind.
  rewrite (bind_Ok _ _ _ _ _ (header_view s ltac:(by rewrite Hd; cbn; lia))). rewrite Hd. cbv beta.
  change (longlba (dec_mode_header10 MODE_DATA)) with false. cbv iota.
  rewrite (bind_Ok _ _ _ _ _ (inquiry_view s t Hst)).
  assert (data_slice MPH10_SIZE (Z.to_nat (block_desc_len (dec_mode_header10 MODE_DATA))) s = (Ok [], s)) as Hsl.
  { unfold data_slice, mbind, prog_bind. erewrite bind_Ok by reflexivity. by rewrite Hd. }
  rewrite (bind_Ok _ _ _ _ _ Hsl).
  assert (∀ A (dec : list Z → A), blk_elems 8 dec [] s = (Ok [], s)) as Hel.
  { intros A dec. unfold blk_elems. rewrite plain_slice_fit by lia. done. }
  case_match; rewrite (bind_Ok _ _ _ _ _ (Hel _ _)); by eexists.
Qed.

Lemma no_pages s : data_buffer s.1 = MODE_DATA →
  res_mode_pages10 (P := BulkOnlyTransport D) s = (Ok [], s).
Proof.
  intros Hd. unfold res_mode_pages10, mbind, prog_bind.
  rewrite (bind_Ok _ _ _ _ _ (header_view s ltac:(by rewrite Hd; cbn; lia))).
  erewrite bind_Ok by reflexivity. by rewrite Hd.
Qed.


Lemma mode_sense_step s t :
  starting t s →
  ∃ s' t' h l, get_mode_sense10 s = (Ok (h, l, []), s') ∧ starting t' s' ∧ disk t' = disk t ∧
    blk_get l 0 = None.
Proof.
  intros Hst. destruct (ident_mode 8 t) as (t1 & He1 & Hd1).
  unfold get_mode_sense10, mbind, prog_bind. cbv zeta.
  edestruct (command_step (mode_sense10_bytes (get_block_desc (Z.of_nat MPH10_SIZE) 0)) 10 MPH10_SIZE
    MPH10_SIZE MODE_DATA s t t1) as (s1 & Hst1 & Hb1 & Hq1 & Hk1); [done|cbn; lia|done|unfold MPH10_SIZE; lia|unfold MPH10_SIZE; lia|done|exact He1|].
  rewrite Hk1. rewrite drop_ge, app_nil_r in Hb1 by (by rewrite length_resize).
  cbv beta. cbn [scs_kind]. rewrite bool_decide_false by done. erewrite bind_Ok by reflexivity.
  rewrite (bind_Ok _ _ _ _ _ (header_view s1 ltac:(by rewrite Hb1; cbn; lia))). rewrite Hb1.
  change (as_u16 (mode_data_len (dec_mode_header10 MODE_DATA) + 2)) with 8.
  change (Z.to_nat 8) with 8%nat.
  destruct (ident_mode 8 t1) as (t2 & He2 & Hd2).
  edestruct (command_step (mode_sense10_bytes (get_block_desc 8 0)) 10 8 8 MODE_DATA s1 t1 t2)
    as (s2 & Hst2 & Hb2 & Hq2 & Hk2); [done|cbn; lia|done|lia|lia|done|exact He2|].
  rewrite Hk2. rewrite drop_ge, app_nil_r in Hb2 by (by rewrite length_resize).
  rewrite (bind_Ok _ _ _ _ _ (header_view s2 ltac:(by rewrite Hb2; cbn; lia))).
  destruct (no_blkdescs s2 t2 Hst2 Hb2) as (l & Hl & Hget).
  rewrite (bind_Ok _ _ _ _ _ Hl), (bind_Ok _ _ _ _ _ (no_pages s2 Hb2)).
  exists s2, t2. do 2 eexists. split; [reflexivity|]. split; [done|]. split; [congruence|done].
Qed.

Lemma capacity_view (k : Z) (rest : list Z) :
  u_range 32 k → u_range 32 bs →
  let d := dec_read_capacity10 (be_bytes 4 k ++ be_bytes 4 bs ++ rest) in
  rc10_block_count d = k ∧ rc10_logical_block_len d = bs.
Proof.
  intros Hk Hb d. unfold d, dec_read_capacity10, rc10_block_count, rc10_logical_block_len, le_at.
  cbn [rcp_max_lba rcp_block_len].
  rewrite (slice_mid [] (be_bytes 4 k) (be_bytes 4 bs ++ rest)) by (by rewrite ?length_be_bytes).
  rewrite (slice_mid (be_bytes 4 k) (be_bytes 4 bs) rest) by (by rewrite ?length_be_bytes).
  assert (∀ x, u_range 32 x → to_be 4 (le_val (be_bytes 4 x)) = x) as Hx.
  { intros x Hx. unfold to_be. fold (to_be 4 x). unfold be_bytes at 1. rewrite le_bytes_to_be.
    by apply (be_val_bytes 4). }
  split; by apply Hx.
Qed.

Lemma capacity_step (k : Z) s t :
  starting t s → 0 < k <= 2 ^ 32 → u_range 32 bs → Z.of_nat (length (disk t)) = k * bs →
  ∃ d s' t', read_capacity s = (Ok d, s') ∧ starting t' s' ∧ disk t' = disk t ∧
    rc10_block_count d = k - 1 ∧ rc10_logical_block_len d = bs.
Proof.
  intros Hst Hk Hbs Hl. destruct (ident_capacity k t Hk Hl) as (t' & He & Hd).
  unfold read_capacity, mbind, prog_bind.
  edestruct (command_step (read_capacity10_bytes (read_capacity10_new 0)) 10 10 8
    (be_bytes 4 (k - 1) ++ be_bytes 4 bs) s t t') as (s' & Hst' & Hb & _ & ->);
    [done|cbn; lia|done|lia|lia|by rewrite length_app, !length_be_bytes|exact He|].
  unfold res_read_capacity10, mbind, prog_bind. erewrite bind_Ok by reflexivity.
  erewrite bind_Ok.
  2:{ apply plain_unwrap_ok. rewrite Hb, !length_app, !length_be_bytes. lia. }
  do 2 eexists. exists t'. split; [reflexivity|]. split; [done|]. split; [done|].
  rewrite Hb, <- app_assoc. apply capacity_view; [unfold u_range; lia|done].
Qed.

(** Starting the driver on a disk of [k] blocks whose mode data has no block
    descriptor: the inquiry, mode sense and capacity commands succeed, the block
    size is the disk's, and the SCSI layer is ready; but the capacity command
    answers the last address, which the driver takes for the number of blocks, so
    the disk it serves is one block short. *)
Theorem start_misses_last_block (k : Z) b t :
  bot_idle i o t b → 0 < k <= 2 ^ 32 → u_range 32 bs → Z.of_nat (length (disk t)) = k * bs →
  ∃ c b' t', scsi_new b = (Ok c, b') ∧ scsi_ready t' (c, b') ∧ disk t' = disk t ∧
    block_count c = k - 1 ∧ get_disk_size c = as_u64 ((k - 1) * bs).
Proof.
  intros Hb Hk Hbs Hl. pose proof inquiry_len as Hil.
  assert (starting t (scsi_zero, b)) as Hst by (by split).
  destruct (inquiry_step 5 (scsi_zero, b) t Hst ltac:(lia) ltac:(lia)) as (s1 & t1 & H1 & Hst1 & Hd1 & Hq1).
  assert (as_u16 (4 + sid_additional_len (dec_standard_inquiry (inquiry_buffer s1.1)))
          = Z.of_nat (length inquiry_data - 1)) as Hal.
  { cbn [dec_standard_inquiry sid_additional_len]. rewrite Hq1. unfold u8_at.
    rewrite lookup_app_l, lookup_take by (rewrite ?length_take; lia).
    rewrite decide_True by lia. fold (u8_at 4 inquiry_data). rewrite inquiry_additional.
    unfold as_u16. rewrite as_u_id; unfold u_range; lia. }
  destruct (inquiry_step (length inquiry_data - 1) s1 t1 Hst1 ltac:(lia) ltac:(lia)) as (s2 & t2 & H2 & Hst2 & Hd2 & _).
  destruct (mode_sense_step s2 t2 Hst2) as (s3 & t3 & h & l & H3 & Hst3 & Hd3 & Hget).
  destruct (capacity_step k s3 t3 Hst3 Hk Hbs ltac:(congruence)) as (d & s4 & t4 & H4 & Hst4 & Hd4 & Hbc & Hbl).
  assert (get_inquiry_alloc_len (scsi_zero, b) = (Ok (Z.of_nat (length inquiry_data - 1)), s1)) as Hlen.
  { unfold get_inquiry_alloc_len, mbind, prog_bind. change MIN_INQUIRY_ALLOC_LEN with (Z.of_nat 5).
    rewrite (bind_Ok _ _ _ _ _ H1), (bind_Ok _ _ _ _ _ (inquiry_view s1 t1 Hst1)). by rewrite Hal. }
  assert (scsi_new_body (scsi_zero, b)
    = (Ok tt, (mk_scsi (command_buffer s4.1) (inquiry_buffer s4.1) (data_buffer s4.1) bs (k - 1), s4.2))) as Hbody.
  { unfold scsi_new_body, mbind, prog_bind.
    rewrite (bind_Ok _ _ _ _ _ Hlen), (bind_Ok _ _ _ _ _ H2), (bind_Ok _ _ _ _ _ (inquiry_view s2 t2 Hst2)).
    rewrite (bind_Ok _ _ _ _ _ H3). cbv beta iota. cbn [length mode_pages mode_page_next mode_page_raw_next Nat.ltb Nat.leb].
    erewrite bind_Ok by reflexivity. rewrite Hget.
    erewrite bind_Ok by (rewrite (bind_Ok _ _ _ _ _ H4); reflexivity).
    cbv beta iota. by rewrite upd_eq, Hbl, Hbc. }
  unfold scsi_new. rewrite Hbody. do 3 eexists. split; [reflexivity|]. destruct Hst4.
  split; [by split|]. split; [congruence|]. by split.
Qed.

End disk.

(** ** A RAM disk behind a USB port *)

Definition RAM_BS : Z := 4.

Definition ram_inquiry : list Z := [0; 0; 4; 2; 31] ++ replicate 31 0.

Definition ram_exec (cdb : list Z) (n : nat) (out : list Z) (t : list Z) : answer (list Z) :=
  let op := u8_at 0 cdb in
  let failed := mk_answer 1 [] 0 t in
  let first (bytes : list Z) := mk_answer 0 (take n bytes) (Z.of_nat (length (take n bytes))) t in
  let inside := (cdb_lba cdb + cdb_blocks cdb) * RAM_BS <=? Z.of_nat (length t) in
  let off := Z.to_nat (cdb_lba cdb * RAM_BS) in
  let len := Z.to_nat (cdb_blocks cdb * RAM_BS) in
  if op =? 0x88 then
    if inside then mk_answer 0 (slice off len t) (Z.of_nat len) t else failed
  else if op =? 0x8A then
    if inside && Nat.eqb (length out) len
    then mk_answer 0 [] (Z.of_nat len) (take off t ++ out ++ drop (off + len) t) else failed
  else if op =? 0x12 then first ram_inquiry
  else if op =? 0x5A then first MODE_DATA
  else if op =? 0x25 then
    mk_answer 0 (be_bytes 4 (Z.of_nat (length t) / RAM_BS - 1) ++ be_bytes 4 RAM_BS) 8 t
  else failed.

#[export] Instance ram_target : Target (list Z) := { target_exec := ram_exec }.

#[export] Instance ram_disk_target : DiskTarget (list Z) RAM_BS.
Proof.
  refine {| disk := λ t, t |}.
  - intros cdb t Hop Hl Hb Hin. exists t. cbn [target_exec ram_target]. unfold ram_exec. rewrite Hop.
    change (0x88 =? 0x88) with true. by rewrite (proj2 (Z.leb_le _ _) Hin).
  - intros cdb n out t Hop Hout. exists t. split; [|done]. cbn [target_exec ram_target]. unfold ram_exec.
    rewrite (proj2 (Z.leb_gt _ _) Hout). by destruct Hop as [-> | ->].
Defined.

#[export] Instance ram_ident : DiskIdent RAM_BS.
Proof.
  refine {| inquiry_data := ram_inquiry |}.
  - cbn. lia.
  - done.
  - intros n t. by exists t.
  - intros n t. by exists t.
  - intros k t Hk Hl. exists t. split; [|done]. cbn [disk ram_disk_target] in Hl.
    cbn [target_exec ram_target]. unfold ram_exec. rewrite Hl, Z.div_mul by (unfold RAM_BS; lia). done.
Defined.

(** The port with this device: bulk-in is endpoint 1, bulk-out is endpoint 2. *)
#[export] Instance ram_client : UsbClient (Msd (list Z)) := {
  usb_open_endpoint _ := mret tt;
  usb_read num n m :=
    match (if num =? 1 then msd_read n m else None) with
    | Some (r, m') => (Ok r, m')
    | None => (Ok (mk_pts TkStalled 0, replicate n 0), m)
    end;
  usb_write num buf m :=
    match (if num =? 2 then msd_write buf m else None) with
    | Some (r, m') => (Ok r, m')
    | None => (Ok (mk_pts TkStalled 0), m)
    end;
  usb_status _ := mret EsEnabled;
  usb_reset _ _ := mret tt;
  usb_request _ _ _ _ _ data := mret (replicate (drd_len data) 0);
  usb_clear_feature _ _ _ := mret tt;
  usb_configure _ := mret tt;
}.

#[export] Instance ram_device : UsbDevice (Msd (list Z)) (list Z) 1 2.
Proof.
  refine {| msd_view := λ m, m; dev_ready := λ _, True; dev_reads := λ _, True; dev_writes := λ _, True |}; [done|done|..].
  - intros n d r m' _ _ Hr. exists m'. cbn [usb_read ram_client]. by rewrite Z.eqb_refl, Hr.
  - intros buf d r m' _ _ Hr. exists m'. cbn [usb_write ram_client]. by rewrite Z.eqb_refl, Hr.
Defined.

#[export] Instance test_slices : PlainSlices := { plain_slice size len := Some (len / size)%nat }.

#[export] Instance test_slice_laws : PlainSliceLaws.
Proof. split. done. Qed.

Definition ram_bytes : list Z := Z.of_nat <$> seq 0 24.

Definition ram_bot : BulkOnlyTransport (Msd (list Z)) := mk_bot (mk_msd PhCommand ram_bytes) 1 2 0 0 0.

Definition ram_scheme : ScsiScheme (BulkOnlyTransport (Msd (list Z))) :=
  mk_ss (mk_scsi (replicate 16 0) (replicate 259 0) [] RAM_BS 5) ram_bot {[ 3 := HDisk ]} 3.

Lemma ram_open : disk_open 1 2 RAM_BS 3 ram_bytes ram_scheme.
Proof. by repeat split. Qed.

Lemma usb_disk_write_lost_witness :
  ∃ s' t', ss_write (HP := bot_protocol 1) 3 [90; 91; 92; 93] (2 * RAM_BS) ram_scheme = (Ok 0, s') ∧
           disk_open 1 2 RAM_BS 3 t' s' ∧ t' = ram_bytes.
Proof.
  destruct (usb_disk_write_lost 1 2 RAM_BS 0 3 [90; 91; 92; 93] 1 2 ram_scheme ram_bytes)
    as (s' & t' & H & Ho & Hd).
  - exact ram_open.
  - unfold RAM_BS. lia.
  - lia.
  - lia.
  - reflexivity.
  - cbn. lia.
  - done.
  - unfold RAM_BS. cbn. lia.
  - exists s', t'. split; [exact H|]. split; [exact Ho|exact Hd].
Defined.

Lemma start_misses_last_block_witness :
  ∃ c b', scsi_new (HP := bot_protocol 1) ram_bot = (Ok c, b') ∧ block_count c = 5.
Proof.
  destruct (start_misses_last_block 1 2 RAM_BS 0 6 ram_bot ram_bytes) as (c & b' & t' & H & _ & _ & Hc & _).
  - by repeat split.
  - lia.
  - unfold u_range, RAM_BS. lia.
  - reflexivity.
  - exists c, b'. split; [exact H|exact Hc].
Defined.

(** A read of a block, then an inquiry for more than the device has. *)
Definition test_session : list (list Z * DeviceReqData) :=
  [(rw16_bytes (read16_new 1 1 0), DIn 4); (inquiry_bytes (inquiry_new false 0 40 0), DIn 40);
   (rw16_bytes (read16_new 99 1 0), DIn 4); ([0; 0; 0; 0; 0; 0], DNoData)].

Lemma bot_refines_target_witness :
  ∃ b', bot_session 1 test_session ram_bot
        = (Ok [(mk_scs None ScSuccess, [4; 5; 6; 7]);
               (mk_scs (Some 36) ScSuccess, ram_inquiry ++ [0; 0; 0; 0]);
               (mk_scs (Some 4) ScFailed, [0; 0; 0; 0]); (mk_scs None ScFailed, [])], b') ∧
        bot_idle 1 2 ram_bytes b'.
Proof.
  destruct (bot_refines_target 1 2 0 test_session ram_bot ram_bytes) as (b' & H & Hb).
  - by repeat split.
  - unfold test_session, session_wf, proper_run, data_wf.
    repeat split; first [by left|by right|vm_compute; reflexivity|vm_compute; discriminate|vm_compute; lia].
  - exists b'. split; [rewrite H; vm_compute; reflexivity|exact Hb].
Defined.
