(* ===== verification/UsbStack.v ===== *)
(** A USB disk behind xhcid: the mass storage driver of [UsbScsi] on the client library of
    xhcid, down to the transfer rings.

    [BulkController] is what a host controller with a bulk-only device on one port does
    when the doorbell of one of the two bulk endpoints is rung: it dequeues the TRB by the rule of
    the specification ([Consumer] of XhciRing.v), moves the bytes between the memory the
    TRB points at and the device, and posts a transfer event.  [xhci_disk] shows that the
    client library over such a controller is a [UsbDevice] for transfers of at most
    64 KiB, so that the theorems of UsbDisk.v hold of it; [usb_disk_read] is the read of a
    disk through all the layers. *)

From S2P Require Import Prelude UsbSetup XhciTrb XhciRing XhciIface XhciHost XhciEndp XhciDesc XhciConf XhciScheme ScsiCmd UsbScsi UsbDisk.

(** ** The controller *)

(** The fields of a transfer TRB: its length, and whether the data is in the TRB. *)
Definition trb_bytes (t : Trb) : nat := Z.to_nat (field 0 17 (status_w t)).
Definition trb_immediate (t : Trb) : bool := Z.testbit (control t) 6.

(** The ring holds one more TRB for the controller, a transfer of its own that asks for an event. *)
Definition one_td (r : Ring) (c : Consumer) (t : Trb) (c' : Consumer) : Prop :=
  consume r c = Some (t, c') ∧ consume r c' = None ∧
  trb_type t = trb_type_code TNormal ∧ Z.testbit (control t) 4 = false ∧ Z.testbit (control t) 5 = true.

Section law.
Context {W T : Type} `{HC : Controller W} `{HT : Target T}.

(** The event for the TRB before [c'], with [residue] bytes not moved. *)
Definition event_for (r : Ring) (c' : Consumer) (kind : PortTransferStatusKind) (residue : Z) (e : Trb) : Prop :=
  trb_type e = trb_type_code TTransfer ∧
  completion_code e = completion_code_value (match kind with TkSuccess => CSuccess | _ => CShortPacket end) ∧
  transfer_length e = residue ∧
  transfer_event_trb_pointer e = Some (phys_base hc_ac64 r + TRB_SIZE * Z.of_nat (pred (c_idx c'))).

(** The ring is in the memory the controller can address. *)
Definition ring_placed (r : Ring) : Prop := u_range 64 (phys_base hc_ac64 r + TRB_SIZE * Z.of_nat (length (rg_trbs r))).

(** What an OUT TRB sends. *)
Definition trb_sends (t : Trb) (w : W) : list Z :=
  if trb_immediate t then take (trb_bytes t) (le_bytes 8 (read_data t)) else dma_get w (read_data t) (trb_bytes t).

End law.

(** An answer of at most [n] bytes: a short one leaves zeros behind it. *)
Definition proper_answer (n : nat) (kind : PortTransferStatusKind) (len : Z) (bytes : list Z) : Prop :=
  0 <= len <= Z.of_nat n ∧ (kind = TkSuccess ∧ len = Z.of_nat n ∨ kind = TkShortPacket) ∧
  bytes = take (Z.to_nat len) bytes ++ replicate (n - Z.to_nat len) 0.

(** A device of type [V] on a port with an IN endpoint [i], device context index [2 * i + 1]: to a read of [n]
    bytes it has an [answer].  Memory for a transfer is there when the driver asks for it. *)
Class InPipe (W V : Type) `{HC : Controller W} (port slot i : Z) (answer : nat → V → option (PortTransferStatus * list Z * V)) := {
  ip_view : W → V;
  ip_consumer : W → Z → Consumer;
  ip_alloc n w : 0 < n <= MAX_TRANSFER_SIZE → ∃ phys virt w', dma_zeroed n w = (inr (phys, virt), w') ∧ u_range 64 phys ∧
    ip_view w' = ip_view w ∧ ip_consumer w' = ip_consumer w;
  ip_set a bs w : ip_view (dma_set a bs w) = ip_view w ∧ ip_consumer (dma_set a bs w) = ip_consumer w ∧
    dma_get (dma_set a bs w) a (length bs) = bs;
  ip_in cmd ports p st r w t c' kind len bytes v' :
    ports !! port = Some p → po_slot p = slot → po_endpoint_states p !! i = Some (mk_es (RosRing r) st) →
    ring_placed r → one_td r (ip_consumer w (2 * i + 1)) t c' → trb_immediate t = false →
    answer (trb_bytes t) (ip_view w) = Some (mk_pts kind len, bytes, v') → proper_answer (trb_bytes t) kind len bytes →
    ∃ e w', xhc_doorbell cmd ports slot (2 * i + 1) w = ([e], w') ∧
      event_for r c' kind (Z.of_nat (trb_bytes t) - len) e ∧ ip_view w' = v' ∧
      ip_consumer w' (2 * i + 1) = c' ∧ (∀ dci, dci ≠ 2 * i + 1 → ip_consumer w' dci = ip_consumer w dci) ∧
      dma_get w' (read_data t) (trb_bytes t)
        = take (Z.to_nat len) bytes ++ drop (Z.to_nat len) (dma_get w (read_data t) (trb_bytes t));
}.

(** A mass storage device, with an OUT endpoint [o], device context index [2 * o], as well. *)
Class BulkController (W T : Type) `{HC : Controller W} `{HT : Target T} (port slot i o : Z) := {
  bc_pipe :: InPipe W (Msd T) port slot i msd_read;
  bc_out cmd ports p st r w t c' kind len m' :
    ports !! port = Some p → po_slot p = slot → po_endpoint_states p !! o = Some (mk_es (RosRing r) st) →
    ring_placed r → one_td r (ip_consumer w (2 * o)) t c' →
    msd_write (trb_sends t w) (ip_view w) = Some (mk_pts kind len, m') →
    ∃ e w', xhc_doorbell cmd ports slot (2 * o) w = ([e], w') ∧
      event_for r c' kind (Z.of_nat (trb_bytes t) - len) e ∧ ip_view w' = m' ∧
      ip_consumer w' (2 * o) = c' ∧ (∀ dci, dci ≠ 2 * o → ip_consumer w' dci = ip_consumer w dci);
}.

(** ** One TRB at a time *)

(** Enqueueing to a ring the controller has emptied leaves it exactly this TRB. *)
Lemma enqueue_one_td (f : bool → trb_prog) (mk : bool → Trb) (r r' : Ring) (c : Consumer) (idx : nat) :
  builds f mk → ring_sim r c [] → enqueue f r = Some (Ok idx, r') →
  (∀ b, trb_type (mk b) = trb_type_code TNormal ∧ Z.testbit (control (mk b)) 4 = false ∧ Z.testbit (control (mk b)) 5 = true) →
  ∃ c', one_td r' c (mk (rg_cycle r')) c' ∧ ring_sim r' c' [] ∧ pred (c_idx c') = idx ∧ same_place r r'.
Proof.
  intros Hb Hsim He Hf. pose proof Hsim as ([Hl Hlen Hi _ _ _] & _).
  destruct (enqueue_sim mk f r c [] Hb Hsim) as (idx' & r2 & He' & Hsim' & _); [unfold capacity; cbn; lia|].
  rewrite He in He'. injection He' as <- <-. destruct (consume_sim _ _ _ Hsim') as (c' & Hc & Hsim2).
  destruct (enqueue_shape f mk r Hb ltac:(by split)) as (idx2 & r3 & He2 & _ & Hpl & _). rewrite He in He2. injection He2 as <- <-.
  exists c'. split; [|split; [exact Hsim2|split; [|exact Hpl]]].
  - split; [exact Hc|]. split; [exact (consume_sim _ _ _ Hsim2)|apply Hf].
  - assert (rg_i r' = S idx) as Hidx.
    { destruct (decide (S (rg_i r) < length (rg_trbs r))%nat) as [Hlt|Hge].
      - rewrite (enqueue_inner f mk r Hb Hlt) in He. by injection He as <- <-.
      - rewrite (enqueue_wrap f mk r) in He by (done || lia). by injection He as <- <-. }
    destruct Hsim2 as (Hok & Hc' & [(_ & Hle & Hq)|(_ & _ & Hpos & _ & Hq)]).
    + apply (f_equal length) in Hq. rewrite length_slice in Hq by (destruct Hok; lia). cbn in Hq. lia.
    + symmetry in Hq. apply app_eq_nil in Hq as [_ Hq]. apply (f_equal length) in Hq.
      rewrite length_slice in Hq by (destruct Hok; lia). cbn in Hq. lia.
Qed.

(** The TRB of a transfer of at most 64 KiB, as the controller reads it. *)
Lemma transfer_trb_view (buffer : Z) (imm : bool) (n : nat) :
  u_range 64 buffer → (0 < n)%nat → Z.of_nat n <= MAX_TRANSFER_SIZE →
  let mk := λ b, (transfer_trb buffer 16 imm (Z.of_nat n) b zero_trb).2 in
  builds (transfer_trb buffer 16 imm (Z.of_nat n)) mk ∧
  ∀ b, (trb_type (mk b) = trb_type_code TNormal ∧ Z.testbit (control (mk b)) 4 = false ∧ Z.testbit (control (mk b)) 5 = true) ∧
    read_data (mk b) = buffer ∧ trb_bytes (mk b) = n ∧ trb_immediate (mk b) = imm.
Proof.
  intros Hb Hn Hmax mk. destruct (builds_transfer_trb buffer 16 imm (Z.of_nat n) Hb ltac:(lia) ltac:(lia)) as [Hbu Hty].
  split; [exact Hbu|]. intros b. destruct (Hbu b zero_trb) as [Hrun _]. fold (mk b) in Hrun.
  destruct (transfer_trb_fields buffer 16 imm (Z.of_nat n) b zero_trb (mk b) Hb ltac:(lia) ltac:(unfold u_range; lia) Hrun) as (Hd & Hs & Hch & Hio).
  rewrite (proj2 (Z.leb_le _ _) Hmax) in Hch, Hio. split; [split; [apply Hty|by split]|]. split; [exact Hd|]. split.
  - unfold trb_bytes. rewrite Hs. unfold chunk_len. lia.
  - unfold mk, transfer_trb, trb_immediate, normal, assert_eq. change (Z.land 16 31 =? 16) with true. cbv iota. cbn [set snd control].
    rewrite (proj2 (Z.leb_le _ _) Hmax). by destruct b, imm.
Qed.

Lemma dci_in endp d dci : 1 <= endp <= 15 → endp_direction d = EdIn → endp_num_to_dci endp d = Ok dci → dci = 2 * endp + 1.
Proof.
  intros He Hd. rewrite dci_value by done. rewrite endp_direction_alt in Hd. intros [= <-].
  destruct (is_control d), (addr_in d); try done; cbn; lia.
Qed.

Lemma dci_out endp d dci : 1 <= endp <= 15 → endp_direction d = EdOut → endp_num_to_dci endp d = Ok dci → dci = 2 * endp.
Proof.
  intros He Hd. rewrite dci_value by done. rewrite endp_direction_alt in Hd. intros [= <-].
  destruct (is_control d), (addr_in d); try done; cbn; lia.
Qed.

Lemma msd_read_shape {T : Type} `{Target T} n (m : Msd T) kind len bytes m' :
  msd_read n m = Some (mk_pts kind len, bytes, m') → proper_answer n kind len bytes.
Proof.
  assert (∀ data : list Z, (length data <= n)%nat →
    mk_pts (if Nat.eqb (length data) n then TkSuccess else TkShortPacket) (Z.of_nat (length data)) = mk_pts kind len →
    data ++ replicate (n - length data) 0 = bytes → proper_answer n kind len bytes) as Hdata.
  { intros data Hl [= <- <-] <-. split; [lia|]. split; [destruct (Nat.eqb_spec (length data) n); [left; by split; [|lia]|by right]|].
    by rewrite Nat2Z.id, take_app_length. }
  unfold msd_read. destruct (msd_phase m); try done.
  - destruct (Nat.leb_spec (length data) n); [|done]. intros Heq. apply (Hdata data); [done|congruence..].
  - destruct (Nat.eqb_spec n 13) as [->|]; [|done]. intros Heq.
    apply (Hdata (csw_encode tag residue status)); [by rewrite length_csw_encode|congruence..].
Qed.

Lemma msd_write_shape {T : Type} `{Target T} buf (m : Msd T) kind len m' :
  msd_write buf m = Some (mk_pts kind len, m') → kind = TkSuccess ∧ len = Z.of_nat (length buf).
Proof.
  unfold msd_write. destruct (msd_phase m); [|done| |done].
  - destruct (cbw_decode buf) as [[[[tag l] b] cb]|] eqn:E; [|done]. intros [= <- <- _]. split; [done|].
    by rewrite (cbw_decode_length _ _ E).
  - by intros [= <- <- _].
Qed.

Section events.
Context {W : Type} `{HC : Controller W}.

(** The controller's event is the answer to the TRB. *)
Lemma event_answers r c' kind residue e idx :
  event_for r c' kind residue e → pred (c_idx c') = idx →
  (kind = TkSuccess ∧ residue = 0 ∨ kind = TkShortPacket) → answers_trb e r idx.
Proof.
  intros (Hty & Hc & Hl & Hp) <- Hk. split; [exact Hty|]. split; [exact Hp|].
  destruct Hk as [[-> ->]| ->]; [left; by split|by right].
Qed.

(** The result a client is told of such an event. *)
Lemma event_result r c' kind n len e :
  event_for r c' kind (Z.of_nat n - len) e → 0 <= len <= Z.of_nat n → u_range 32 (Z.of_nat n) →
  (kind = TkSuccess ∨ kind = TkShortPacket) →
  mk_pts (if completion_code e =? completion_code_value CSuccess then TkSuccess else TkShortPacket) (XhciEndp.moved n e) = mk_pts kind len.
Proof.
  intros (_ & Hc & Hl & _) Hlen Hn Hk. f_equal.
  - rewrite Hc. by destruct Hk as [-> | ->].
  - unfold XhciEndp.moved, as_u32. rewrite Hl, (as_u_id 32 (Z.of_nat n) Hn), as_u_id; [lia|unfold u_range in *; lia].
Qed.

Lemma placed_same r r' : same_place r r' → ring_placed r → ring_placed r'.
Proof. intros (Hp & _ & Hl). unfold ring_placed, phys_base. by rewrite Hp, Hl. Qed.

(** The other endpoints of the port are as they were. *)
Lemma other_endpoint (s s' : Xhci W) port endp p d r other d2 r2 r' st' :
  other ≠ endp → endp_ready s port other p d2 r2 IfInit →
  endp_ready s' port endp (port_with endp r' st' p) d r st' → endp_ready s' port other (port_with endp r' st' p) d2 r2 IfInit.
Proof.
  intros Hne [] []. split; try done. unfold port_with, with_endpoint. cbn. by rewrite lookup_insert_ne.
Qed.
End events.

(** ** Reads *)

Section pipe.
Context {W V : Type} `{HC : Controller W} `{HJ : EndpJson} `{HJL : !EndpJsonLaws}.
Context (port slot i : Z) (answer : nat → V → option (PortTransferStatus * list Z * V)) `{HP : !InPipe W V port slot i answer}.

(** An idle endpoint whose ring is in step with the controller. *)
Record pipe_ready (s : Xhci W) (p : PortSt) (d : EndpDesc) (r : Ring) : Prop := {
  pr_ready : endp_ready s port i p d r IfInit;
  pr_in : endp_direction d = EdIn;
  pr_slot : po_slot p = slot;
  pr_ring : ring_sim r (ip_consumer (x_world s) (2 * i + 1)) [];
  pr_placed : ring_placed r;
}.

(** A read of the client gets what the device answers. *)
Lemma pipe_read n (s : Xhci W) p d r kind len bytes v' :
  pipe_ready s p d r → (0 < n)%nat → Z.of_nat n <= MAX_TRANSFER_SIZE →
  answer n (ip_view (x_world s)) = Some (mk_pts kind len, bytes, v') → proper_answer n kind len bytes →
  ∃ s' r', endp_transfer_read port i n s = (Ok (mk_pts kind len, bytes), s') ∧
    pipe_ready s' (port_with i r' IfInit p) d r' ∧ ip_view (x_world s') = v' ∧
    ∀ dci, dci ≠ 2 * i + 1 → ip_consumer (x_world s') dci = ip_consumer (x_world s) dci.
Proof.
  intros [Hri Hdi Hslot Hsi Hpi] Hn0 Hn Hread Hans. pose proof Hans as (Hlen & Hkind & Hbytes).
  assert (u_range 32 (Z.of_nat n)) as H32 by (unfold u_range, MAX_TRANSFER_SIZE in *; lia).
  destruct (ip_alloc (Z.of_nat n) (x_world s)) as (phys & virt & w1 & Hal & Hph & Hv1 & Hc1); [lia|].
  destruct (ip_set phys (replicate n 0) w1) as (Hv2 & Hc2 & Hg2). rewrite length_replicate in Hg2.
  destruct (client_read_step s port i p d r n phys virt w1 Hri Hdi Hn0 Hn Hal Hph) as (idx & r' & dci & He & Hdci & Hx).
  apply (dci_in _ _ _ (rd_endp_range _ _ _ _ _ _ _ Hri) Hdi) in Hdci as ->.
  destruct (transfer_trb_view phys false n Hph Hn0 Hn) as [Hbu Hf].
  destruct (enqueue_one_td _ _ _ _ _ _ Hbu Hsi He (λ b, proj1 (Hf b))) as (c' & Htd & Hsi' & Hidx & Hpl).
  pose proof (placed_same _ _ Hpl Hpi) as Hpi'.
  destruct (Hf (rg_cycle r')) as (_ & Hptr & Hnb & Himm). set (t := (transfer_trb _ _ _ _ (rg_cycle r') zero_trb).2) in *.
  set (st := IfWaitingForDataPipe CdIn 0 (Z.of_nat n)) in *.
  edestruct (ip_in (x_cmd s) (<[port := port_with i r' st p]> (x_port_states s)) (port_with i r' st p) st r'
    (dma_set phys (replicate n 0) w1) t c' kind len bytes v') as (e & w & Hdb & Hev & Hv & Hci & Hco & Hmem).
  { by rewrite lookup_insert_eq. } { done. } { cbn. by rewrite lookup_insert_eq. }
  { done. } { by rewrite Hc2, Hc1. } { done. } { by rewrite Hnb, Hv2, Hv1. } { by rewrite Hnb. }
  rewrite Hnb in Hev. rewrite Hnb, Hptr, Hg2 in Hmem. rewrite <- Hslot in Hdb.
  destruct (Hx e w Hdb) as (s' & Hrun & Hrd' & Hw').
  { apply (event_answers _ _ _ _ _ _ Hev Hidx). destruct Hkind as [[-> ->]|]; [left; split; [done|lia]|by right]. }
  exists s', r'. split; [|split; [|split; [by rewrite Hw'|]]].
  - rewrite Hrun. f_equal. f_equal. f_equal; [eapply event_result; [exact Hev|done|done|]; destruct Hkind as [[-> _]| ->]; tauto|].
    rewrite Hmem, drop_replicate. by rewrite <- Hbytes.
  - split; [done|done|done|by rewrite Hw', Hci|done].
  - intros dci Hd. by rewrite Hw', Hco, Hc2, Hc1.
Qed.
End pipe.

(** ** The client library *)

Section stack.
Context {W T : Type} `{HC : Controller W} `{HT : Target T} `{HJ : EndpJson} `{HJL : !EndpJsonLaws}.
Context `{HF : ConfJson} `{HE : SchemeEnv} `{HX : ConfText}.
Context (port flags slot i o : Z) `{HB : !BulkController W T port slot i o} (Hio : i ≠ o).

(** The bulk endpoints are configured and idle, and the controller has executed everything on
    their rings. *)
Definition bulk_ready (s : Xhci W) : Prop :=
  ∃ p di ri do ro, pipe_ready port slot i msd_read s p di ri ∧ endp_ready s port o p do ro IfInit ∧ endp_direction do = EdOut ∧
    ring_sim ro (ip_consumer (x_world s) (2 * o)) [] ∧ ring_placed ro.

Lemma bulk_read n (s : Xhci W) kind len bytes m' :
  bulk_ready s → (0 < n)%nat → Z.of_nat n <= MAX_TRANSFER_SIZE →
  msd_read n (ip_view (x_world s)) = Some (mk_pts kind len, bytes, m') →
  ∃ s', endp_transfer_read port i n s = (Ok (mk_pts kind len, bytes), s') ∧ bulk_ready s' ∧ ip_view (x_world s') = m'.
Proof.
  intros (p & di & ri & do & ro & Hpr & Hro & Hdo & Hso & Hpo) Hn0 Hn Hread.
  destruct (pipe_read port slot i msd_read n s p di ri kind len bytes m' Hpr Hn0 Hn Hread (msd_read_shape _ _ _ _ _ _ Hread))
    as (s' & r' & Hrun & Hpr' & Hv & Hc).
  exists s'. split; [done|]. split; [|done]. exists (port_with i r' IfInit p), di, r', do, ro.
  split_and!; [done| |done| |done].
  - eapply other_endpoint; [|exact Hro|exact (pr_ready _ _ _ _ _ _ _ _ Hpr')]. done.
  - rewrite Hc; [done|lia].
Qed.

(** Eight bytes or fewer that go into the TRB come out of it. *)
Lemma immediate_bytes (buf : list Z) :
  Forall is_byte buf → (length buf <= 8)%nat →
  let v := le_val (buf ++ replicate (8 - length buf) 0) in u_range 64 v ∧ take (length buf) (le_bytes 8 v) = buf.
Proof.
  intros Hb Hl v. assert (length (buf ++ replicate (8 - length buf) 0) = 8%nat) as Hlen by (rewrite length_app, length_replicate; lia).
  assert (Forall is_byte (buf ++ replicate (8 - length buf) 0)) as Hall.
  { apply Forall_app. split; [done|]. apply Forall_replicate. unfold is_byte. lia. }
  pose proof (le_val_range _ Hall) as Hr. pose proof (le_bytes_val _ Hall) as Hv. rewrite Hlen in Hr, Hv.
  split; [exact Hr|]. unfold v. rewrite Hv. apply take_app_length.
Qed.

(** The buffers of a write: more than eight bytes, or bytes. *)
Definition bulk_buffer (buf : list Z) : Prop :=
  (0 < length buf)%nat ∧ Z.of_nat (length buf) <= MAX_TRANSFER_SIZE ∧ ((8 < length buf)%nat ∨ Forall is_byte buf).

Lemma out_pointer_sends d phys buf (w1 : W) :
  bulk_buffer buf → u_range 64 phys →
  let b := out_pointer d phys buf in
  u_range 64 b.1 ∧ ∀ t, read_data t = b.1 → trb_bytes t = length buf → trb_immediate t = b.2 →
    trb_sends t (out_world phys buf w1) = buf.
Proof.
  intros (_ & _ & Hb) Hph b. unfold b, out_pointer, trb_sends, out_world.
  destruct (Z.leb_spec (Z.of_nat (length buf)) 8); [destruct (8 <=? ed_max_packet_size d)|].
  - destruct Hb as [Hb|Hb]; [lia|]. destruct (immediate_bytes buf Hb ltac:(lia)) as [Hr Hv].
    split; [exact Hr|]. intros t Hd Hn Hi. cbn [andb fst snd] in *. by rewrite Hi, Hd, Hn.
  - split; [done|]. intros t Hd Hn Hi. cbn [andb fst snd] in *. rewrite Hi, Hd, Hn. apply ip_set.
  - split; [done|]. intros t Hd Hn Hi. cbn [andb fst snd] in *. rewrite Hi, Hd, Hn. apply ip_set.
Qed.

Lemma bulk_write buf (s : Xhci W) kind len m' :
  bulk_ready s → bulk_buffer buf → msd_write buf (ip_view (x_world s)) = Some (mk_pts kind len, m') →
  ∃ s', endp_transfer_write port o buf s = (Ok (mk_pts kind len), s') ∧ bulk_ready s' ∧ ip_view (x_world s') = m'.
Proof.
  intros (p & di & ri & do & ro & [Hri Hdi Hslot Hsi Hpi] & Hro & Hdo & Hso & Hpo) Hbuf Hwrite.
  pose proof Hbuf as (Hn0 & Hn & _). set (n := length buf) in *.
  assert (u_range 32 (Z.of_nat n)) as H32 by (unfold u_range, MAX_TRANSFER_SIZE in *; lia).
  destruct (msd_write_shape _ _ _ _ _ Hwrite) as [-> ->].
  destruct (ip_alloc (Z.of_nat n) (x_world s)) as (phys & virt & w1 & Hal & Hph & Hv1 & Hc1); [lia|].
  destruct (out_pointer_sends do phys buf w1 Hbuf Hph) as [Hp64 Hsend]. set (b := out_pointer do phys buf) in *.
  destruct (ip_set phys (replicate n 0) w1) as (Hv2 & Hc2 & _).
  destruct (ip_set phys buf (dma_set phys (replicate n 0) w1)) as (Hv3 & Hc3 & Hg3).
  change (dma_set phys buf _) with (out_world phys buf w1) in Hv3, Hc3, Hg3.
  destruct (client_write_step s port o p do ro buf phys virt w1 Hro Hdo Hn0 Hn Hal Hp64 Hg3) as (idx & r' & dci & He & Hdci & Hx).
  apply (dci_out _ _ _ (rd_endp_range _ _ _ _ _ _ _ Hro) Hdo) in Hdci as ->. fold n b in He, Hx.
  destruct (transfer_trb_view b.1 b.2 n Hp64 Hn0 Hn) as [Hbu Hf].
  destruct (enqueue_one_td _ _ _ _ _ _ Hbu Hso He (λ x, proj1 (Hf x))) as (c' & Htd & Hso' & Hidx & Hpl).
  pose proof (placed_same _ _ Hpl Hpo) as Hpo'.
  destruct (Hf (rg_cycle r')) as (_ & Hptr & Hnb & Himm). set (t := (transfer_trb _ _ _ _ (rg_cycle r') zero_trb).2) in *.
  edestruct (bc_out (x_cmd s) (<[port := port_with o r' (IfWaitingForDataPipe CdOut 0 (Z.of_nat n)) p]> (x_port_states s))
    (port_with o r' (IfWaitingForDataPipe CdOut 0 (Z.of_nat n)) p) (IfWaitingForDataPipe CdOut 0 (Z.of_nat n)) r'
    (out_world phys buf w1) t c' TkSuccess (Z.of_nat n) m') as (e & w & Hdb & Hev & Hv & Hco & Hci).
  { by rewrite lookup_insert_eq. } { done. } { cbn. by rewrite lookup_insert_eq. }
  { done. } { by rewrite Hc3, Hc2, Hc1. } { by rewrite (Hsend t Hptr Hnb Himm), Hv3, Hv2, Hv1. }
  rewrite Hnb, Z.sub_diag in Hev. rewrite <- Hslot in Hdb.
  destruct (Hx e w Hdb) as (s' & Hrun & Hrd' & Hw').
  { apply (event_answers _ _ _ _ _ _ Hev Hidx). by left. }
  exists s'. split; [|split; [|by rewrite Hw']].
  - rewrite Hrun. f_equal. f_equal. rewrite <- (Z.sub_diag (Z.of_nat n)) in Hev. eapply event_result; [exact Hev|lia|done|by left].
  - exists (port_with o r' IfInit p), di, ri, do, r'. split_and!; [split| | | |]; try done.
    + by eapply other_endpoint.
    + rewrite Hw', Hci, Hc3, Hc2, Hc1; [done|lia].
    + by rewrite Hw', Hco.
Qed.

(** The client library of xhcid on such a port. *)
#[export] Instance xhci_disk : UsbDevice (H := xhci_client port flags) (XScheme W) T i o.
Proof.
  refine {| msd_view := λ s, ip_view (x_world (sc_hci s)); dev_ready := λ s, bulk_ready (sc_hci s);
            dev_reads := λ n, (0 < n)%nat ∧ Z.of_nat n <= MAX_TRANSFER_SIZE; dev_writes := bulk_buffer |}.
  - intros n Hn. unfold MAX_TRANSFER_SIZE. lia.
  - intros buf Hb. unfold bulk_buffer, MAX_TRANSFER_SIZE. lia.
  - intros n s [[kind len] bytes] m' Hrd [Hn0 Hn] Hr. destruct (bulk_read n _ _ _ _ _ Hrd Hn0 Hn Hr) as (h & Hrun & Hrd' & Hv).
    exists (mk_scheme h (sc_handles s) (sc_next s)). split; [|done]. cbn [usb_read xhci_client]. unfold below. by rewrite Hrun.
  - intros buf s [kind len] m' Hrd Hb Hw. destruct (bulk_write buf _ _ _ _ Hrd Hb Hw) as (h & Hrun & Hrd' & Hv).
    exists (mk_scheme h (sc_handles s) (sc_next s)). split; [|done]. cbn [usb_write xhci_client]. unfold below. by rewrite Hrun.
Defined.

Context (bs : Z) `{HDT : !DiskTarget T bs} `{HL : Layouts} `{HLL : !LayoutLaws} (fuel : nat).
#[local] Instance disk_protocol : Protocol (BulkOnlyTransport (XScheme W)) := bot_protocol (HU := xhci_client port flags) (S fuel).

(** The disk is open as [fd] of usbscsid over the client library of xhcid: the driver is between commands, the
    bulk endpoints are configured and idle, and the device is a disk in the state [t]. *)
Definition xdisk_open (fd : Z) (t : T) (s : ScsiScheme (BulkOnlyTransport (XScheme W))) : Prop :=
  disk_open (HU := xhci_client port flags) i o bs fd t s.

(** C7. Reading a USB disk behind xhcid, end to end.  The disk is open, its bulk endpoints are
    configured and idle.  A read of [k] blocks at block [j], inside the disk and of at most
    64 KiB, returns the number of bytes asked for and exactly the bytes of the disk at that
    place; the disk is unchanged and the driver is ready for the next request.  The path
    is the scheme of usbscsid, the SCSI command, the command, data and status phases of
    the transport, the endpoint files and transfer rings of xhcid, and a controller that follows the
    rules of the specification. *)
Theorem usb_disk_read fd buf k j (s : ScsiScheme (BulkOnlyTransport (XScheme W))) t :
  xdisk_open fd t s → 0 < bs → 0 <= j < 2 ^ 64 →
  Z.of_nat (length buf) = k * bs → 0 < Z.of_nat (length buf) <= 65536 →
  (j + k) * bs <= Z.of_nat (length (disk t)) →
  ∃ s' t', ss_read fd buf (j * bs) s
           = (Ok (Z.of_nat (length buf), slice (Z.to_nat (j * bs)) (length buf) (disk t)), s') ∧
           xdisk_open fd t' s' ∧ disk t' = disk t.
Proof.
  intros Ho Hbs Hj Hk Hlen Hin. apply (disk_read_any (HU := xhci_client port flags) i o bs fuel fd buf k j s t); try done; [lia| |lia].
  split; [lia|]. split; [lia|exact (proj2 Hlen)].
Qed.
End stack.

(** ** A RAM disk on a port

    A controller with the RAM disk of UsbDisk.v on port 0, slot 1: bulk-in is endpoint 1, bulk-out
    endpoint 2.  It executes one TRB for a doorbell. *)

Record DiskHc := mk_hc { hc_mem : gmap Z (list Z); hc_next : Z; hc_in : Consumer; hc_out : Consumer; hc_dev : Msd (list Z) }.

Definition hc_get (w : DiskHc) (a : Z) (n : nat) : list Z := take n (default [] (hc_mem w !! a)).
Definition hc_set (a : Z) (bs : list Z) (w : DiskHc) : DiskHc := mk_hc (<[a := bs]> (hc_mem w)) (hc_next w) (hc_in w) (hc_out w) (hc_dev w).

Definition hc_event (r : Ring) (c' : Consumer) (kind : PortTransferStatusKind) (residue : Z) : Trb :=
  event_trb_of TTransfer (match kind with TkSuccess => CSuccess | _ => CShortPacket end) residue
    (phys_base true r + TRB_SIZE * Z.of_nat (pred (c_idx c'))).

Definition hc_do_in (r : Ring) (w : DiskHc) : list Trb * DiskHc :=
  match consume r (hc_in w) with
  | Some (t, c') =>
      match msd_read (trb_bytes t) (hc_dev w) with
      | Some (mk_pts kind len, bytes, m') =>
          let mem := take (Z.to_nat len) bytes ++ drop (Z.to_nat len) (hc_get w (read_data t) (trb_bytes t)) in
          ([hc_event r c' kind (Z.of_nat (trb_bytes t) - len)],
           mk_hc (<[read_data t := mem]> (hc_mem w)) (hc_next w) c' (hc_out w) m')
      | None => ([], w)
      end
  | None => ([], w)
  end.

Definition hc_do_out (r : Ring) (w : DiskHc) : list Trb * DiskHc :=
  match consume r (hc_out w) with
  | Some (t, c') =>
      let bytes := if trb_immediate t then take (trb_bytes t) (le_bytes 8 (read_data t)) else hc_get w (read_data t) (trb_bytes t) in
      match msd_write bytes (hc_dev w) with
      | Some (mk_pts kind len, m') =>
          ([hc_event r c' kind (Z.of_nat (trb_bytes t) - len)], mk_hc (hc_mem w) (hc_next w) (hc_in w) c' m')
      | None => ([], w)
      end
  | None => ([], w)
  end.

Definition hc_ring (ports : gmap Z PortSt) (endp : Z) : option Ring :=
  p ← ports !! 0; es ← po_endpoint_states p !! endp;
  match es_transfer es with RosRing r => Some r | _ => None end.

#[export] Instance disk_hc : Controller DiskHc := {
  hc_ac64 := true; hc_lec := false; hc_cie := false; hc_max_psa_size := 0; hc_mmio := two_caps; hc_ext_caps := [];
  xhc_doorbell _ ports slot db w :=
    match hc_ring ports (db / 2) with
    | Some r => if negb (slot =? 1) then ([], w) else if db =? 3 then hc_do_in r w else if db =? 4 then hc_do_out r w else ([], w)
    | None => ([], w)
    end;
  xhc_portsc _ := []; xhc_portsc_write _ _ w := w; xhc_ehb _ := false; xhc_clear_ehb w := w; xhc_contexts _ := [];
  dma_zeroed n w :=
    (inr (hc_next w mod 2 ^ 40, 0), mk_hc (hc_mem w) (hc_next w + 4096 * (n / 4096 + 1)) (hc_in w) (hc_out w) (hc_dev w));
  dma_get := hc_get; dma_set := hc_set; guard_reentry := Waits;
}.

(** Fields of the event. *)
Lemma event_trb_fields c residue ptr :
  (c = CSuccess ∨ c = CShortPacket) → u_range 24 residue → u_range 64 ptr →
  let e := event_trb_of TTransfer c residue ptr in
  trb_type e = trb_type_code TTransfer ∧ completion_code e = completion_code_value c ∧ transfer_length e = residue ∧
  transfer_event_trb_pointer e = Some ptr.
Proof.
  intros Hc Hr Hp e. assert (completion_code e = completion_code_value c) as Hcode.
  { unfold e, completion_code, event_trb_of, as_u8, TRB_STATUS_COMPLETION_CODE_SHIFT. cbn [status_w].
    rewrite field_of_cast, field_lor, field_shiftl_eq, (field_small 24) by (done || lia).
    rewrite Z.lor_0_r. by destruct Hc as [-> | ->]. }
  split; [done|]. split; [exact Hcode|]. split.
  - unfold e, transfer_length, event_trb_of. cbn [status_w]. change TRB_STATUS_TRANSFER_LENGTH_MASK with (Z.ones 24).
    rewrite <- (Z.shiftr_0_r (Z.lor _ _)). fold (field 0 24 (Z.lor (Z.shiftl (completion_code_value c) 24) residue)).
    rewrite field_lor, field_shiftl_above, field_0_small by (done || lia). apply Z.lor_0_l.
  - assert (read_data e = ptr) as Hd.
    { transitivity (read_data (mk_trb (as_u32 ptr) (as_u32 (Z.shiftr ptr 32)) 0 0)); [|by apply read_data_set].
      unfold read_data, e, event_trb_of. cbn [data_low data_high]. do 2 f_equal. symmetry. unfold as_u32. apply as_u_id.
      rewrite Z.shiftr_div_pow2 by lia. unfold u_range in *. zdiv. }
    unfold transfer_event_trb_pointer, has_completion_trb_pointer. rewrite Hcode, Hd. by destruct Hc as [-> | ->].
Qed.

Lemma hc_event_for r c' kind n len :
  ring_placed (W := DiskHc) r → (pred (c_idx c') <= length (rg_trbs r))%nat → Z.of_nat n < 2 ^ 17 → 0 <= len <= Z.of_nat n →
  event_for (W := DiskHc) r c' kind (Z.of_nat n - len) (hc_event r c' kind (Z.of_nat n - len)).
Proof.
  intros Hp Hc Hn Hl. assert (0 <= phys_base true r) as H0 by (apply phys_base_range).
  apply event_trb_fields; [by destruct kind; tauto| |].
  - unfold u_range. change (2 ^ 17) with 131072 in Hn. change (2 ^ 24) with 16777216. lia.
  - unfold ring_placed, u_range in *. cbn [hc_ac64 disk_hc] in *. unfold TRB_SIZE in *. lia.
Qed.

Lemma consume_in_ring r c t c' : consume r c = Some (t, c') → (pred (c_idx c') <= length (rg_trbs r))%nat.
Proof.
  assert (∀ x t0 y, consume_at r x = Some (t0, y) → (pred (c_idx y) <= length (rg_trbs r))%nat) as Hat.
  { intros x t0 y. unfold consume_at. destruct (rg_trbs r !! c_idx x) eqn:E; [|done]. apply lookup_lt_Some in E.
    destruct (eqb _ _); [|done]. intros [= _ <-]. cbn. lia. }
  unfold consume. destruct (consume_at r c) as [[t0 y]|] eqn:E; [|done]. destruct (_ =? _); [by apply Hat|].
  intros [= _ <-]. by eapply Hat.
Qed.

Lemma trb_bytes_range t : Z.of_nat (trb_bytes t) < 2 ^ 17.
Proof. unfold trb_bytes. pose proof (field_range 0 17 (status_w t) ltac:(done)) as H. unfold u_range in H. lia. Qed.

Lemma hc_ring_eq ports p endp r st :
  ports !! 0 = Some p → po_endpoint_states p !! endp = Some (mk_es (RosRing r) st) → hc_ring ports endp = Some r.
Proof. intros H1 H2. unfold hc_ring. rewrite H1. cbn. by rewrite H2. Qed.

#[export] Instance disk_hc_pipe : InPipe DiskHc (Msd (list Z)) 0 1 1 msd_read.
Proof.
  refine {| ip_view := hc_dev;
            ip_consumer := λ w dci, if dci =? 3 then hc_in w else if dci =? 4 then hc_out w else mk_consumer 0 true |}.
  - intros n w _. do 3 eexists. split; [reflexivity|]. split; [|done].
    pose proof (Z.mod_pos_bound (hc_next w) (2 ^ 40) ltac:(done)). unfold u_range.
    change (2 ^ 40) with 1099511627776 in *. change (2 ^ 64) with 18446744073709551616. lia.
  - intros a bs w. split; [done|]. split; [done|]. cbn [dma_get dma_set disk_hc]. unfold hc_get, hc_set. cbn [hc_mem].
    rewrite lookup_insert_eq. cbn. by apply take_ge.
  - intros cmd ports p st r w t c' kind len bytes m' Hp Hslot Hes Hpl (Hc & _) Himm Hr (Hlen & Hkind & Hb). cbn [xhc_doorbell disk_hc].
    change ((2 * 1 + 1) / 2) with 1. rewrite (hc_ring_eq _ _ _ _ _ Hp Hes). cbn [Z.eqb negb Pos.eqb Z.mul Z.add Pos.add Pos.mul].
    change (consume r (hc_in w) = Some (t, c')) in Hc. unfold hc_do_in. rewrite Hc, Hr. do 2 eexists. split; [reflexivity|].
    split; [apply hc_event_for; [done|by eapply consume_in_ring|apply trb_bytes_range|done]|].
    do 2 (split; [done|]). split; [intros dci Hd; by rewrite (proj2 (Z.eqb_neq dci 3)) by lia|].
    cbn [dma_get disk_hc]. unfold hc_get at 1. cbn [hc_mem]. rewrite lookup_insert_eq. cbn [default].
    apply take_ge. unfold hc_get. rewrite length_app, length_drop, !length_take. lia.
Defined.

#[export] Instance disk_hc_bulk : BulkController DiskHc (list Z) 0 1 1 2.
Proof.
  refine {| bc_pipe := disk_hc_pipe |}.
  intros cmd ports p st r w t c' kind len m' Hp Hslot Hes Hpl (Hc & _) Hw. cbn [xhc_doorbell disk_hc].
  change (2 * 2 / 2) with 2. rewrite (hc_ring_eq _ _ _ _ _ Hp Hes). cbn [Z.eqb negb Pos.eqb Z.mul Z.add Pos.add Pos.mul].
  change (consume r (hc_out w) = Some (t, c')) in Hc. unfold hc_do_out. rewrite Hc. unfold trb_sends in Hw. cbn [dma_get disk_hc] in Hw.
  change (ip_view w) with (hc_dev w) in Hw.
  destruct (msd_write_shape _ _ _ _ _ Hw) as [-> ->]. rewrite Hw. do 2 eexists. split; [reflexivity|].
  split; [|do 2 (split; [done|])].
  - apply hc_event_for; [done|by eapply consume_in_ring|apply trb_bytes_range|].
    split; [lia|]. destruct (trb_immediate t); unfold hc_get; rewrite ?length_take; lia.
  - intros dci Hd. cbn [ip_consumer disk_hc_pipe]. by rewrite (proj2 (Z.eqb_neq dci 4)) by lia.
Defined.

Definition disk_ring (phys : Z) : Ring := mk_ring true (replicate 16 zero_trb) phys phys 0 true.

Definition bulk_out : EndpDesc := mk_endp_desc 5 0x02 2 512 0 None None.

Definition disk_port : PortSt :=
  mk_port 1 (Some 0) (zero_input_ctx 0x30000)
    (Some (mk_dev_desc 1 0x0200 0 0 0 64 0x1234 0x5678 0x0100 None None None
       [mk_conf_desc 2 1 None 0x80 50 [mk_if_desc 4 0 0 8 6 80 None [bulk_in; bulk_out] []]]))
    {[ 1 := mk_es (RosRing (disk_ring 0x20000)) IfInit; 2 := mk_es (RosRing (disk_ring 0x21000)) IfInit ]}.

Definition disk_hci : Xhci DiskHc :=
  mk_xhci (mk_hc ∅ 0x100000 (mk_consumer 0 true) (mk_consumer 0 true) (mk_msd PhCommand ram_bytes)) {[ 0 := disk_port ]} None
    (mk_ring true (replicate 256 zero_trb) 0x10000 0x7000 0 true) [] ∅ 0 true [] false.

#[export] Instance test_conf_text : ConfText := { json_of_conf _ := [] }.

Lemma disk_ring_sim phys : u_range 64 phys → ring_sim (disk_ring phys) (mk_consumer 0 true) [].
Proof. intros Hp. apply (ring_new_ok (λ _, inr (phys, phys)) 16 _ phys phys); [lia|done|done|done]. Qed.

Lemma disk_hci_ready : bulk_ready (T := list Z) 0 1 1 2 disk_hci.
Proof.
  exists disk_port, bulk_in, (disk_ring 0x20000), bulk_out, (disk_ring 0x21000).
  split; [split|split]; [split; try reflexivity; try lia; by split; [|cbn; lia]|reflexivity|reflexivity| | | |split].
  - apply disk_ring_sim; unfold u_range; lia.
  - by vm_compute.
  - split; try reflexivity; try lia. by split; [|cbn; lia].
  - reflexivity.
  - split; [apply disk_ring_sim; unfold u_range; lia|by vm_compute].
Qed.

(** The RAM disk, opened through xhcid: block size 4, six blocks. *)
Definition disk_scheme : ScsiScheme (BulkOnlyTransport (XScheme DiskHc)) :=
  mk_ss (mk_scsi (replicate 16 0) (replicate 259 0) [] RAM_BS 5) (mk_bot (mk_scheme disk_hci ∅ 0) 1 2 0 0 0) {[ 3 := HDisk ]} 3.

Lemma usb_disk_read_witness :
  ∃ s', ss_read (HP := disk_protocol 0 0 0) 3 (replicate 8 0) (2 * RAM_BS) disk_scheme
        = (Ok (8, [8; 9; 10; 11; 12; 13; 14; 15]), s').
Proof.
  destruct (usb_disk_read 0 0 1 1 2 ltac:(done) RAM_BS 0 3 (replicate 8 0) 2 2 disk_scheme ram_bytes) as (s' & t' & H & _).
  - split; [done|]. split; [done|]. split; [done|]. split; [done|]. split; [done|]. split; [exact disk_hci_ready|done].
  - unfold RAM_BS. lia.
  - lia.
  - reflexivity.
  - cbn. lia.
  - unfold RAM_BS. cbn. lia.
  - exists s'. exact H.
Defined.
