(* ===== verification/Inputd.v ===== *)
(** The input multiplexer (inputd/src/main.rs, inputd/src/lib.rs).

    [InputScheme] is the daemon's state; [sc_open], [sc_read], [sc_write],
    [sc_fevent], [sc_fpath] and [sc_close] are the scheme's methods, [handoff] and
    [notify] the two phases that follow a request, and [serve] one iteration of the
    daemon loop.  The two BTreeMaps are finite maps; the notification loop, whose
    order is visible, walks the handles in key order.  Panics ([unwrap], map
    indexing) are results.  [orbclient]'s event decoding and the kernel's
    [EVENT_READ] flag are the parameters of the class [InputEnv]. *)

From Stdlib Require Import Ascii.
From S2P Require Import Prelude.

(** ** Parameters *)

(** What inputd looks at in an [orbclient::EventOption]. *)
Inductive EventOption : Type :=
| EvKey (scancode : Z) (pressed : bool)
| EvResize (width height : Z)
| EvOther.

Class InputEnv := {
  EVENT_READ : Z;
  size_of_Event : nat;
  to_option : list Z → EventOption;
  (** The four padding bytes at the end of a [VtEvent] in memory. *)
  vt_padding : list Z;
}.

(** ** Data *)

Inductive VtEventKind : Type := Activate | Deactivate | Resize.

Record VtEvent := mk_vt_event {
  ve_kind : VtEventKind;
  ve_vt : Z;
  ve_width : Z;
  ve_height : Z;
  ve_stride : Z;
}.

#[global] Instance VtEventKind_eq_dec : EqDecision VtEventKind.
Proof. solve_decision. Defined.

#[global] Instance VtEvent_eq_dec : EqDecision VtEvent.
Proof. solve_decision. Defined.

Inductive Handle : Type :=
| Producer
| Consumer (events : Z) (pending : list Z) (needs_handoff notified : bool) (vt : Z)
| Display (events : Z) (pending : list VtEvent) (notified : bool) (device : string)
    (is_earlyfb : bool)
| Control.

#[global] Instance Handle_eq_dec : EqDecision Handle.
Proof. solve_decision. Defined.

Definition is_producer (h : Handle) : bool := match h with Producer => true | _ => false end.

(** A [Vt] is the name of its display. *)
Record InputScheme := mk_scheme {
  handles : gmap Z Handle;
  next_id : Z;
  next_vt_id : Z;
  vts : gmap Z string;
  super_key : bool;
  active_vt : option Z;
  has_new_events : bool;
  maybe_perform_handoff_to : option string;
}.

Definition scheme_new : InputScheme := mk_scheme ∅ 0 1 ∅ false None false None.

Definition set_handles (m : gmap Z Handle) (s : InputScheme) : InputScheme :=
  mk_scheme m (next_id s) (next_vt_id s) (vts s) (super_key s) (active_vt s)
    (has_new_events s) (maybe_perform_handoff_to s).

Definition set_vts (m : gmap Z string) (s : InputScheme) : InputScheme :=
  mk_scheme (handles s) (next_id s) (next_vt_id s) m (super_key s) (active_vt s)
    (has_new_events s) (maybe_perform_handoff_to s).

Definition set_next_id (n : Z) (s : InputScheme) : InputScheme :=
  mk_scheme (handles s) n (next_vt_id s) (vts s) (super_key s) (active_vt s)
    (has_new_events s) (maybe_perform_handoff_to s).

Definition set_next_vt_id (n : Z) (s : InputScheme) : InputScheme :=
  mk_scheme (handles s) (next_id s) n (vts s) (super_key s) (active_vt s)
    (has_new_events s) (maybe_perform_handoff_to s).

Definition set_super_key (b : bool) (s : InputScheme) : InputScheme :=
  mk_scheme (handles s) (next_id s) (next_vt_id s) (vts s) b (active_vt s)
    (has_new_events s) (maybe_perform_handoff_to s).

Definition set_active_vt (v : option Z) (s : InputScheme) : InputScheme :=
  mk_scheme (handles s) (next_id s) (next_vt_id s) (vts s) (super_key s) v
    (has_new_events s) (maybe_perform_handoff_to s).

Definition set_has_new_events (b : bool) (s : InputScheme) : InputScheme :=
  mk_scheme (handles s) (next_id s) (next_vt_id s) (vts s) (super_key s) (active_vt s)
    b (maybe_perform_handoff_to s).

Definition set_handoff_to (o : option string) (s : InputScheme) : InputScheme :=
  mk_scheme (handles s) (next_id s) (next_vt_id s) (vts s) (super_key s) (active_vt s)
    (has_new_events s) o.

Abbreviation iprog := (prog InputScheme errno).

(** ** Loops over the handles *)

(** [for handle in self.handles.values_mut()]: [f] updates one handle and may
    panic ([None]).  A panic ends the daemon, so the handles updated before it do
    not matter. *)
Definition update_handles (f : Handle → option Handle) : iprog unit :=
  λ s, if decide (map_Forall (λ _ h, is_Some (f h)) (handles s))
       then (Ok tt, set_handles (omap f (handles s)) s)
       else (Panic, s).

(** ** VT switching *)

Definition vt_event (k : VtEventKind) (v : Z) : VtEvent := mk_vt_event k v 0 0 0.

(** The loop body of [switch_vt] for one handle; [None] is the panic of
    [self.vts[&active_vt]]. *)
Definition switch_handle (vtm : gmap Z string) (old : option Z) (new : Z) (h : Handle)
    : option Handle :=
  match h with
  | Display ev pending notified device early =>
      match
        match old with
        | None => Some (pending, notified)
        | Some a =>
            match vtm !! a with
            | None => None
            | Some d =>
                if decide (d = device) then Some (pending ++ [vt_event Deactivate a], false)
                else Some (pending, notified)
            end
        end
      with
      | None => None
      | Some (pending, notified) =>
          match vtm !! new with
          | None => None
          | Some d =>
              if decide (d = device)
              then Some (Display ev (pending ++ [vt_event Activate new]) false device early)
              else Some (Display ev pending notified device early)
          end
      end
  | _ => Some h
  end.

Definition switch_vt (new_active : Z) : iprog unit := λ s,
  if decide (active_vt s = Some new_active) then (Ok tt, s)
  else match vts s !! new_active with
       | None => (Ok tt, s)
       | Some _ =>
           match update_handles (switch_handle (vts s) (active_vt s) new_active) s with
           | (Ok _, s) => (Ok tt, set_active_vt (Some new_active) s)
           | (Err e, s) => (Err e, s)
           | (Panic, s) => (Panic, s)
           end
       end.

(** ** Paths *)

(** [path.split('/')]. *)
Fixpoint split_path (cur : string) (p : string) : list string :=
  match p with
  | EmptyString => [cur]
  | String c p =>
      if decide (c = "/"%char) then cur :: split_path "" p
      else split_path (cur +:+ String c EmptyString) p
  end.

(** [x.parse::<usize>().ok()]. *)
Definition parse_usize : string → option Z := parse_uint (2 ^ 64).

(** ** The scheme's methods *)

Section methods.
Context `{InputEnv}.

(** [self.next_id.fetch_add(1, _)] *)
Definition fetch_add_next_id : iprog Z := λ s,
  (Ok (next_id s), set_next_id (as_usize (next_id s + 1)) s).

Definition open_handle (command : string) (parts : list string) : iprog Handle :=
  if decide (command = "producer") then p_ret Producer
  else if decide (command = "consumer") then
    target ← ok_or (x ← head parts; parse_usize x) EINVAL;
    p_ret (Consumer 0 [] false false target)
  else if decide (command = "handle_early") then
    p_ret (Display 0 [] false (String.concat "." parts) true)
  else if decide (command = "handle") then
    let display := String.concat "." parts in
    _ ← modify (set_handoff_to (Some display));
    active ← gets active_vt;
    p_ret (Display 0 (match active with Some a => [vt_event Activate a] | None => [] end)
             false display false)
  else if decide (command = "control") then p_ret Control
  else throw EINVAL.

Definition sc_open (path : string) : iprog Z :=
  match split_path "" path with
  | [] => throw EINVAL
  | command :: parts =>
      fd ← fetch_add_next_id;
      h ← open_handle command parts;
      _ ← modify (λ s, set_handles (<[fd := h]> (handles s)) s);
      p_ret fd
  end.

(** The string is cut to the caller's buffer. *)
Definition sc_fpath (id : Z) (buf_len : nat) : iprog string :=
  h ← gets (λ s, handles s !! id);
  h ← ok_or h EINVAL;
  match h with
  | Consumer _ _ _ _ vt =>
      display ← gets (λ s, vts s !! vt);
      display ← ok_or display EINVAL;
      p_ret (String.substring 0 (Nat.min (String.length (display +:+ ":" +:+ pretty vt)) buf_len)
               (display +:+ ":" +:+ pretty vt))
  | _ => throw EINVAL
  end.

Definition vt_event_kind_code (k : VtEventKind) : Z :=
  match k with Activate => 0 | Deactivate => 1 | Resize => 2 end.

Definition size_of_VtEvent : nat := 32.

(** [transmute::<VtEvent, [u8; 32]>]. *)
Definition vt_event_bytes (e : VtEvent) : list Z :=
  le_bytes 8 (vt_event_kind_code (ve_kind e)) ++ le_bytes 8 (ve_vt e) ++
  le_bytes 4 (ve_width e) ++ le_bytes 4 (ve_height e) ++ le_bytes 4 (ve_stride e) ++ vt_padding.

Definition set_handle (id : Z) (h : Handle) : iprog unit :=
  modify (λ s, set_handles (<[id := h]> (handles s)) s).

(** The count the call returns and the bytes put into the buffer. *)
Definition sc_read (id : Z) (buf_len : nat) : iprog (Z * list Z) :=
  h ← gets (λ s, handles s !! id);
  h ← ok_or h EINVAL;
  match h with
  | Consumer ev pending needs_handoff notified vt =>
      if needs_handoff then
        _ ← set_handle id (Consumer ev pending false notified vt);
        throw ESTALE
      else
        let copy := Nat.min (length pending) buf_len in
        _ ← set_handle id (Consumer ev (drop copy pending) needs_handoff notified vt);
        p_ret (Z.of_nat copy, take copy pending)
  | Display ev pending notified device early =>
      if decide (buf_len = 0%nat) then
        vt ← gets next_vt_id;
        _ ← modify (set_next_vt_id (as_usize (vt + 1)));
        _ ← modify (λ s, set_vts (<[vt := device]> (vts s)) s);
        p_ret (vt, [])
      else if decide (buf_len mod size_of_VtEvent = 0)%nat then
        let copy := Nat.min (length pending) (buf_len / size_of_VtEvent) in
        _ ← set_handle id (Display ev (drop copy pending) notified device early);
        p_ret (Z.of_nat (copy * size_of_VtEvent), mjoin (vt_event_bytes <$> take copy pending))
      else throw EINVAL
  | Producer => throw EINVAL
  | Control => throw EINVAL
  end.

(** The whole events at the start of a buffer
    ([from_raw_parts(buf, buf.len() / size_of::<Event>())]). *)
Fixpoint events_of (n : nat) (buf : list Z) : list EventOption :=
  match n with
  | O => []
  | S n => to_option (take size_of_Event buf) :: events_of n (drop size_of_Event buf)
  end.

(** The loop body for a resize event; [None] is the panic of
    [self.vts[&self.active_vt.unwrap()]]. *)
Definition resize_handle (vtm : gmap Z string) (active : option Z) (w h : Z) (hd : Handle)
    : option Handle :=
  match hd with
  | Display ev pending notified device early =>
      match active with
      | None => None
      | Some a =>
          match vtm !! a with
          | None => None
          | Some d =>
              if decide (d = device)
              then Some (Display ev (pending ++ [mk_vt_event Resize a w h w]) false device early)
              else Some hd
          end
      end
  | _ => Some hd
  end.

(** One event of a producer's write. *)
Definition handle_event (e : EventOption) : iprog unit :=
  match e with
  | EvKey scancode pressed =>
      super ← gets super_key;
      if (0x3B <=? scancode) && (scancode <=? 0x44) && super then switch_vt (scancode - 0x3A)
      else if (scancode =? 0x57) && super then switch_vt 11
      else if (scancode =? 0x58) && super then switch_vt 12
      else if scancode =? 0x5B then modify (set_super_key pressed)
      else p_ret tt
  | EvResize w h => λ s, update_handles (resize_handle (vts s) (active_vt s) w h) s
  | EvOther => p_ret tt
  end.

Fixpoint handle_events (es : list EventOption) : iprog unit :=
  match es with
  | [] => p_ret tt
  | e :: es => _ ← handle_event e; handle_events es
  end.

(** The final loop of a producer's write. *)
Definition deliver_handle (active : Z) (buf : list Z) (h : Handle) : option Handle :=
  match h with
  | Consumer ev pending nh notified vt =>
      if vt =? active then Some (Consumer ev (pending ++ buf) nh false vt) else Some h
  | _ => Some h
  end.

Definition sc_write (id : Z) (buf : list Z) : iprog Z :=
  _ ← modify (set_has_new_events true);
  h ← gets (λ s, handles s !! id);
  h ← ok_or h EINVAL;
  match h with
  | Control =>
      if decide (length buf = 8%nat) then
        _ ← switch_vt (le_val buf);
        p_ret (Z.of_nat (length buf))
      else throw EINVAL
  | Consumer _ _ _ _ _ => throw EINVAL
  | Display _ _ _ _ _ => throw EINVAL
  | Producer =>
      if (match buf with [b] => 0xf4 <? b | _ => false end) then p_ret 1
      else
        _ ← handle_events (events_of (length buf / size_of_Event) buf);
        h ← gets (λ s, handles s !! id);
        h ← ok_or h EINVAL;
        if is_producer h then
          active ← gets active_vt;
          active ← unwrap active;
          _ ← update_handles (deliver_handle active buf);
          p_ret (Z.of_nat (length buf))
        else panic
  end.

(** Returns no event bits. *)
Definition sc_fevent (id flags : Z) : iprog Z :=
  h ← gets (λ s, handles s !! id);
  h ← ok_or h EINVAL;
  match h with
  | Consumer _ pending nh _ vt =>
      _ ← set_handle id (Consumer flags pending nh false vt); p_ret 0
  | Display _ pending _ device early =>
      _ ← set_handle id (Display flags pending false device early); p_ret 0
  | Producer | Control => throw EINVAL
  end.

Definition sc_close (id : Z) : iprog Z := p_ret 0.

(** ** After the request *)

Definition early_device (h : Handle) : option string :=
  match h with Display _ _ _ device true => Some device | _ => None end.

(** Displays of the early framebuffers. *)
Definition early_displays (s : InputScheme) : list string :=
  omap (λ '(_, h), early_device h) (map_to_list (handles s)).

(** A consumer of a VT that changed hands. *)
Definition handoff_handle (moved : gmap Z string) (h : Handle) : option Handle :=
  match h with
  | Consumer ev pending nh notified vt =>
      match moved !! vt with
      | Some _ => Some (Consumer ev pending true false vt)
      | None => Some h
      end
  | _ => Some h
  end.

Definition handoff : iprog unit := λ s,
  match maybe_perform_handoff_to s with
  | None => (Ok tt, s)
  | Some display =>
      let early := early_displays s in
      let moved := filter (λ kd : Z * string, kd.2 ∈ early) (vts s) in
      let s := set_handoff_to None s in
      let s := set_vts ((λ d, if decide (d ∈ early) then display else d) <$> vts s) s in
      let s := if decide (moved = ∅) then s else set_has_new_events true s in
      update_handles (handoff_handle moved) s
  end.

Definition wants_read (events : Z) : bool := Z.land events EVENT_READ =? EVENT_READ.

(** The notification decision for one handle: [Some (h', post)], or [None] for
    the panic of [active_vt.unwrap()]. *)
Definition notify_handle (active : option Z) (h : Handle) : option (Handle * bool) :=
  match h with
  | Consumer ev pending nh notified vt =>
      if (negb nh && bool_decide (pending = [])) || notified || negb (wants_read ev)
      then Some (h, false)
      else match active with
           | None => None
           | Some a =>
               if negb nh && negb (a =? vt) then Some (h, false)
               else Some (Consumer ev pending nh true vt, true)
           end
  | Display ev pending notified device early =>
      if bool_decide (pending = []) || notified || negb (wants_read ev) then Some (h, false)
      else Some (Display ev pending true device early, true)
  | _ => Some (h, false)
  end.

(** The handles in key order. *)
Definition sorted_ids (m : gmap Z Handle) : list Z := merge_sort (≤) (map_to_list m).*1.

(** [post_fevent] calls are collected in the order they are made. *)
Fixpoint notify_loop (ids : list Z) : iprog (list Z) :=
  match ids with
  | [] => p_ret []
  | id :: ids =>
      h ← gets (λ s, handles s !! id);
      h ← unwrap h;
      active ← gets active_vt;
      r ← unwrap (notify_handle active h);
      _ ← set_handle id r.1;
      posts ← notify_loop ids;
      p_ret (if r.2 : bool then id :: posts else posts)
  end.

Definition notify : iprog (list Z) :=
  new ← gets has_new_events;
  if (new : bool) then (ids ← gets (λ s, sorted_ids (handles s)); notify_loop ids) else p_ret [].

(** ** The daemon *)

Inductive Request : Type :=
| RqOpen (path : string)
| RqFpath (id : Z) (buf_len : nat)
| RqRead (id : Z) (buf_len : nat)
| RqWrite (id : Z) (buf : list Z)
| RqFevent (id flags : Z)
| RqClose (id : Z)
| RqSendFd
| RqCancellation
| RqMsyncMsg
| RqMunmapMsg
| RqMmapMsg.

(** The messages about memory mappings, which the daemon takes for unreachable. *)
Definition about_mapping (rq : Request) : bool :=
  match rq with RqMsyncMsg | RqMunmapMsg | RqMmapMsg => true | _ => false end.

Inductive Reply : Type :=
| RpInt (n : Z)
| RpData (n : Z) (bytes : list Z)
| RpPath (p : string)
| RpErr (e : errno)
| RpNone.

Definition reply {A : Type} (f : A → Reply) (m : iprog A) : iprog Reply :=
  r ← attempt m;
  p_ret (match r with inl e => RpErr e | inr a => f a end).

Definition handle_request (rq : Request) : iprog Reply :=
  match rq with
  | RqOpen path => reply RpInt (sc_open path)
  | RqFpath id n => reply RpPath (sc_fpath id n)
  | RqRead id n => reply (λ '(c, d), RpData c d) (sc_read id n)
  | RqWrite id buf => reply RpInt (sc_write id buf)
  | RqFevent id flags => reply RpInt (sc_fevent id flags)
  | RqClose id => reply RpInt (sc_close id)
  | RqSendFd => p_ret (RpErr EOPNOTSUPP)
  | RqCancellation => p_ret RpNone
  | RqMsyncMsg | RqMunmapMsg | RqMmapMsg => panic
  end.

(** One iteration of the daemon's loop: the reply and the event posts. *)
Definition serve (rq : Request) : iprog (Reply * list Z) :=
  _ ← modify (set_has_new_events false);
  rp ← handle_request rq;
  _ ← handoff;
  posts ← notify;
  p_ret (rp, posts).

Fixpoint serve_all (rqs : list Request) : iprog (list (Reply * list Z)) :=
  match rqs with
  | [] => p_ret []
  | rq :: rqs => r ← serve rq; rs ← serve_all rqs; p_ret (r :: rs)
  end.
End methods.

(** ** Loops over the handles *)

Lemma update_handles_ok (f : Handle → option Handle) (s : InputScheme) :
  (∀ id h, handles s !! id = Some h → is_Some (f h)) →
  update_handles f s = (Ok tt, set_handles (omap f (handles s)) s).
Proof. intros Hf. unfold update_handles. rewrite decide_True; [done|]. exact Hf. Qed.

Lemma update_handles_lookup (f : Handle → option Handle) (s : InputScheme) (id : Z) :
  handles (set_handles (omap f (handles s)) s) !! id = handles s !! id ≫= f.
Proof. simpl. by rewrite lookup_omap. Qed.

(** [switch_handle] succeeds when both VTs exist, and never changes the kind of a
    handle nor touches a handle that is not a display. *)
Lemma switch_handle_ok (vtm : gmap Z string) (old : option Z) (new : Z) (h : Handle) :
  (∀ a, old = Some a → is_Some (vtm !! a)) → is_Some (vtm !! new) →
  is_Some (switch_handle vtm old new h).
Proof.
  intros Hold [dn Hn]. destruct h as [|ev p nh nt vt|ev p nt dev early|]; simpl; try by eexists.
  destruct old as [a|].
  - destruct (Hold a eq_refl) as [da ->]. rewrite Hn. by repeat case_decide; eexists.
  - rewrite Hn. by case_decide; eexists.
Qed.

Lemma resize_handle_ok (vtm : gmap Z string) (a : Z) (w h : Z) (hd : Handle) :
  is_Some (vtm !! a) → is_Some (resize_handle vtm (Some a) w h hd).
Proof.
  intros [d Hd]. destruct hd; simpl; try by eexists.
  rewrite Hd. by case_decide; eexists.
Qed.

Lemma deliver_handle_ok (a : Z) (buf : list Z) (h : Handle) : is_Some (deliver_handle a buf h).
Proof. destruct h; simpl; try by eexists. by case_match; eexists. Qed.

Lemma handoff_handle_ok (moved : gmap Z string) (h : Handle) : is_Some (handoff_handle moved h).
Proof. destruct h; simpl; try by eexists. by case_match; eexists. Qed.

(** ** The invariant *)

(** A VT is active and is one of the known VTs. *)
Definition live (s : InputScheme) : Prop :=
  ∃ v, active_vt s = Some v ∧ is_Some (vts s !! v).

(** Same, while handle [id] is a producer. *)
Definition live_producer (id : Z) (s : InputScheme) : Prop :=
  live s ∧ handles s !! id = Some Producer.

Lemma live_handles (m : gmap Z Handle) (s : InputScheme) : live s → live (set_handles m s).
Proof. done. Qed.

(** What [switch_vt] does in a live state. *)
Lemma switch_vt_live (v : Z) (s : InputScheme) :
  live s →
  switch_vt v s =
    if decide (active_vt s = Some v ∨ vts s !! v = None) then (Ok tt, s)
    else (Ok tt, set_active_vt (Some v)
                   (set_handles (omap (switch_handle (vts s) (active_vt s) v) (handles s)) s)).
Proof.
  intros (a & Ha & Hd). unfold switch_vt.
  destruct (decide (active_vt s = Some v)) as [Heq|Hne].
  - by rewrite decide_True by auto.
  - destruct (vts s !! v) as [d|] eqn:Hv.
    + rewrite decide_False by naive_solver.
      rewrite update_handles_ok; [done|]. intros id h _.
      apply switch_handle_ok; [|by eexists]. intros a' Ha'. congruence.
    + by rewrite decide_True by auto.
Qed.

Lemma switch_vt_safe (id v : Z) : safe (live_producer id) (switch_vt v).
Proof.
  intros s [Hl Hp]. rewrite switch_vt_live by done. case_decide as Hd; [done|].
  simpl. split; [done|]. split.
  - exists v. split; [done|]. simpl. destruct (vts s !! v) eqn:E; [by eexists|]. naive_solver.
  - simpl. by rewrite lookup_omap, Hp.
Qed.

Lemma handle_event_safe (id : Z) (e : EventOption) : safe (live_producer id) (handle_event e).
Proof.
  destruct e as [sc pr|w h|]; unfold handle_event; [|intros s [Hl Hp]|apply safe_ret].
  - repeat safe_step; apply switch_vt_safe.
  - destruct Hl as (a & Ha & Hd). rewrite Ha, update_handles_ok.
    + simpl. split; [done|]. split; [by exists a|]. simpl. by rewrite lookup_omap, Hp.
    + intros i h' _. by apply resize_handle_ok.
Qed.

Lemma handle_events_safe (id : Z) (es : list EventOption) :
  safe (live_producer id) (handle_events es).
Proof.
  induction es as [|e es IH]; cbn [handle_events]; [apply safe_ret|].
  apply safe_bind; [by apply handle_event_safe|by intros _].
Qed.

Lemma handle_event_no_err (e : EventOption) (s : InputScheme) (er : errno) :
  (handle_event e s).1 ≠ Err er.
Proof.
  assert (∀ v s, (switch_vt v s).1 ≠ Err er) as Hsw.
  { intros v s'. unfold switch_vt, update_handles. by repeat case_match; simplify_eq. }
  destruct e; unfold handle_event; [|unfold update_handles; by destruct (decide _)|done].
  unfold mbind, prog_bind, p_bind, gets. repeat (case_match; try by apply Hsw); done.
Qed.

Lemma handle_events_ok (id : Z) (es : list EventOption) (s : InputScheme) :
  live_producer id s → ∃ s', handle_events es s = (Ok tt, s') ∧ live_producer id s'.
Proof.
  revert s. induction es as [|e es IH]; intros s Hs; [by exists s|].
  destruct (safe_total (live_producer id) (handle_event e) s) as (u & s1 & He & H1).
  - apply handle_event_safe.
  - done.
  - intros er. apply handle_event_no_err.
  - destruct (IH s1 H1) as (s2 & Hes & H2). exists s2. split; [|done].
    simpl. unfold mbind, prog_bind. by rewrite (bind_Ok _ _ _ _ _ He).
Qed.

(** ** Notifications *)

Section notifications.
Context `{InputEnv}.

(** A handle that is to be told about readable data. *)
Definition eligible (a : Z) (h : Handle) : bool :=
  match h with
  | Consumer ev pending nh notified vt =>
      wants_read ev && negb notified && (nh || (negb (bool_decide (pending = [])) && (a =? vt)))
  | Display ev pending notified _ _ =>
      wants_read ev && negb notified && negb (bool_decide (pending = []))
  | _ => false
  end.

Definition mark_notified (h : Handle) : Handle :=
  match h with
  | Consumer ev pending nh _ vt => Consumer ev pending nh true vt
  | Display ev pending _ device early => Display ev pending true device early
  | _ => h
  end.

Definition notified_now (a : Z) (h : Handle) : Handle :=
  if eligible a h then mark_notified h else h.

Lemma notify_handle_eq (a : Z) (h : Handle) :
  notify_handle (Some a) h = Some (notified_now a h, eligible a h).
Proof.
  unfold notified_now.
  destruct h as [|ev p nh nt vt|ev p nt dev early|]; simpl; try done.
  - destruct nh, (bool_decide (p = [])), nt, (wants_read ev), (a =? vt); done.
  - destruct (bool_decide (p = [])), nt, (wants_read ev); done.
Qed.

Lemma notified_now_idle (a : Z) (h : Handle) : eligible a (notified_now a h) = false.
Proof.
  unfold notified_now. destruct (eligible a h) eqn:E; [|done].
  by destruct h; simpl in *; rewrite ?andb_false_r.
Qed.

Definition eligible_in (m : gmap Z Handle) (a id : Z) : bool :=
  from_option (eligible a) false (m !! id).

(** The loop over distinct known ids posts the eligible ones and marks them. *)
Lemma notify_loop_spec (m0 : gmap Z Handle) (a : Z) (ids : list Z) (s : InputScheme) :
  active_vt s = Some a → NoDup ids →
  (∀ id, id ∈ ids → is_Some (m0 !! id) ∧ handles s !! id = m0 !! id) →
  ∃ m, notify_loop ids s = (Ok (filter (eligible_in m0 a) ids), set_handles m s) ∧
       (∀ id, m !! id = (if decide (id ∈ ids) then notified_now a else λ h, h) <$> handles s !! id).
Proof.
  revert s. induction ids as [|id ids IH]; intros s Ha Hnd Hin.
  - exists (handles s). split; [by destruct s|]. intros id. simpl. by destruct (handles s !! id).
  - apply NoDup_cons in Hnd as [Hni Hnd].
    destruct (Hin id) as [[h Hh] Hs]; [set_solver|]. rewrite Hh in Hs.
    set (s1 := set_handles (<[id := notified_now a h]> (handles s)) s).
    destruct (IH s1) as (m & Hm & Hlk); [done|done| |].
    { intros i Hi. destruct (Hin i) as [? Hi0]; [set_solver|]. split; [done|].
      rewrite <- Hi0. unfold s1. simpl. apply lookup_insert_ne. set_solver. }
    exists m. split.
    + rewrite filter_cons. cbn [notify_loop]. unfold mbind, prog_bind, p_bind, gets.
      rewrite Hs. cbn [unwrap p_ret]. rewrite Ha, notify_handle_eq.
      cbn -[notify_loop filter eligible_in decide]. fold s1. rewrite Hm.
      replace (eligible_in m0 a id) with (eligible a h) by (unfold eligible_in; by rewrite Hh).
      by destruct (eligible a h).
    + intros i. rewrite Hlk. destruct (decide (i = id)) as [->|Hne].
      * rewrite decide_False by done. rewrite decide_True by set_solver.
        unfold s1. simpl. rewrite lookup_insert_eq, Hs. done.
      * unfold s1 at 1. simpl. rewrite lookup_insert_ne by done.
        destruct (decide (i ∈ ids)); [by rewrite decide_True by set_solver|].
        by rewrite decide_False by set_solver.
Qed.

Lemma elem_of_sorted_ids (m : gmap Z Handle) (id : Z) : id ∈ sorted_ids m ↔ is_Some (m !! id).
Proof.
  unfold sorted_ids. rewrite merge_sort_Permutation, list_elem_of_fmap. split.
  - intros ([i h] & -> & Hi%elem_of_map_to_list). by eexists.
  - intros [h Hh]. exists (id, h). split; [done|]. by apply elem_of_map_to_list.
Qed.

Lemma sorted_ids_NoDup (m : gmap Z Handle) : NoDup (sorted_ids m).
Proof. unfold sorted_ids. rewrite merge_sort_Permutation. apply NoDup_fst_map_to_list. Qed.

Lemma sorted_ids_sorted (m : gmap Z Handle) : StronglySorted (≤) (sorted_ids m).
Proof. apply StronglySorted_merge_sort; apply _. Qed.

(** The whole notification phase. *)
Lemma notify_eq (a : Z) (s : InputScheme) :
  active_vt s = Some a → has_new_events s = true →
  notify s = (Ok (filter (eligible_in (handles s) a) (sorted_ids (handles s))),
              set_handles (notified_now a <$> handles s) s).
Proof.
  intros Ha Hn. unfold notify, mbind, prog_bind, p_bind, gets. rewrite Hn.
  destruct (notify_loop_spec (handles s) a (sorted_ids (handles s)) s) as (m & -> & Hm);
    [done|apply sorted_ids_NoDup| |].
  { intros id Hid%elem_of_sorted_ids. done. }
  f_equal. f_equal. apply map_eq. intros id. rewrite Hm, lookup_fmap.
  destruct (handles s !! id) as [h|] eqn:E; [|done].
  rewrite decide_True; [done|]. apply elem_of_sorted_ids. by eexists.
Qed.

Lemma filter_StronglySorted {A : Type} (R : relation A) (P : A → Prop) `{∀ x, Decision (P x)}
    (l : list A) : StronglySorted R l → StronglySorted R (filter P l).
Proof.
  induction 1 as [|x l Hs IH Hf]; [constructor|]. rewrite filter_cons. case_decide; [|done].
  constructor; [done|]. apply Forall_forall. intros y [_ Hy]%list_elem_of_filter.
  rewrite Forall_forall in Hf. auto.
Qed.

(** In a state with an active VT, the notification phase that follows a
    request with news posts a read event to exactly the handles that asked for
    [EVENT_READ], were not told yet and have something to read (displays: pending
    VT events; consumers: pending bytes while their VT is active, or a pending
    handoff); the posts go out in increasing handle order without repetition, the
    posted handles are marked and nothing else of the handles changes, so that no
    handle is left waiting. *)
Theorem notify_posts_exactly_eligible (a : Z) (s : InputScheme)
    (Ha : active_vt s = Some a) (Hn : has_new_events s = true) :
  ∃ posts s', notify s = (Ok posts, s') ∧
    StronglySorted (≤) posts ∧ NoDup posts ∧
    (∀ id, id ∈ posts ↔ ∃ h, handles s !! id = Some h ∧ eligible a h = true) ∧
    (∀ id, handles s' !! id =
       if decide (id ∈ posts) then mark_notified <$> handles s !! id else handles s !! id) ∧
    (∀ id h, handles s' !! id = Some h → eligible a h = false).
Proof.
  rewrite (notify_eq a s Ha Hn). eexists _, _. split; [done|].
  assert (∀ id, id ∈ filter (eligible_in (handles s) a) (sorted_ids (handles s)) ↔
     ∃ h, handles s !! id = Some h ∧ eligible a h = true) as Hposts.
  { intros id. rewrite list_elem_of_filter, elem_of_sorted_ids. unfold eligible_in.
    destruct (handles s !! id) as [h|]; simpl; split.
    - intros [He _]. exists h. split; [done|]. by apply Is_true_true.
    - intros (h' & [= ->] & He). split; [by apply Is_true_true|by eexists].
    - by intros [[] _].
    - by intros (? & ? & _). }
  split; [apply filter_StronglySorted, sorted_ids_sorted|].
  split; [apply NoDup_filter, sorted_ids_NoDup|]. split; [done|]. cbn [handles set_handles]. split.
  - intros id. rewrite lookup_fmap.
    destruct (handles s !! id) as [h|] eqn:E; [|by destruct (decide _)]. cbn [fmap option_fmap option_map]. unfold notified_now.
    case_decide as Hd; rewrite Hposts in Hd; destruct (eligible a h) eqn:Ee; try done.
    + destruct Hd as (h' & Hh' & He). congruence.
    + destruct Hd. by exists h.
  - intros id h. rewrite lookup_fmap. intros (h0 & _ & ->)%fmap_Some.
    apply notified_now_idle.
Qed.
End notifications.

(** ** Panic freedom of the daemon *)

Section daemon.
Context `{InputEnv}.

Lemma live_vts_insert (v : Z) (d : string) (s : InputScheme) :
  live s → live (set_vts (<[v := d]> (vts s)) s).
Proof.
  intros (a & Ha & Hd). exists a. split; [done|]. simpl.
  destruct (decide (v = a)) as [->|]; [rewrite lookup_insert_eq; by eexists|].
  by rewrite lookup_insert_ne.
Qed.

(** A producer's write, in closed form: the events are handled first, then the
    whole buffer goes to the consumers of the VT that is active by then. *)
Lemma sc_write_producer (id : Z) (buf : list Z) (s : InputScheme) :
  live s → handles s !! id = Some Producer →
  match buf with [b] => 0xf4 <? b | _ => false end = false →
  ∃ s1 a, handle_events (events_of (length buf / size_of_Event) buf) (set_has_new_events true s)
            = (Ok tt, s1) ∧ live_producer id s1 ∧ active_vt s1 = Some a ∧
    sc_write id buf s = (Ok (Z.of_nat (length buf)),
                         set_handles (omap (deliver_handle a buf) (handles s1)) s1).
Proof.
  intros Hl Hp Hb.
  destruct (handle_events_ok id (events_of (length buf / size_of_Event) buf)
              (set_has_new_events true s)) as (s1 & He & Hl1 & Hp1); [done|].
  pose proof Hl1 as (a & Ha & _). exists s1, a. repeat split; [done..|].
  unfold sc_write, mbind, prog_bind, p_bind, modify, gets. cbn [handles set_has_new_events].
  rewrite Hp. cbn [ok_or p_ret]. rewrite Hb, He, Hp1. cbn [ok_or p_ret is_producer].
  rewrite Ha. cbn [unwrap p_ret]. rewrite update_handles_ok; [done|].
  intros i h _. apply deliver_handle_ok.
Qed.

Lemma switch_vt_safe_live (v : Z) : safe live (switch_vt v).
Proof.
  intros s Hl. rewrite switch_vt_live by done. case_decide as Hd; [done|].
  simpl. split; [done|]. exists v. split; [done|]. simpl.
  destruct (vts s !! v) eqn:E; [by eexists|]. naive_solver.
Qed.

Lemma sc_open_safe (path : string) : safe live (sc_open path).
Proof. unfold sc_open, open_handle. by repeat safe_step; apply safe_modify. Qed.

Lemma sc_fpath_safe (id : Z) (n : nat) : safe live (sc_fpath id n).
Proof. unfold sc_fpath. repeat safe_step. Qed.

Lemma sc_fevent_safe (id flags : Z) : safe live (sc_fevent id flags).
Proof. unfold sc_fevent, set_handle. by repeat safe_step; apply safe_modify. Qed.

Lemma sc_read_safe (id : Z) (n : nat) : safe live (sc_read id n).
Proof.
  unfold sc_read, set_handle. repeat safe_step; apply safe_modify; try done.
  intros s. apply live_vts_insert.
Qed.

Lemma sc_write_safe (id : Z) (buf : list Z) : safe live (sc_write id buf).
Proof.
  intros s Hl. destruct (handles s !! id) as [h|] eqn:Hh; last first.
  { unfold sc_write, mbind, prog_bind, p_bind, modify, gets. simpl. by rewrite Hh. }
  destruct h as [|ev p nh nt vt|ev p nt dev early|].
  2,3: unfold sc_write, mbind, prog_bind, p_bind, modify, gets; simpl; by rewrite Hh.
  - destruct (match buf with [b] => 0xf4 <? b | _ => false end) eqn:Hb.
    + unfold sc_write, mbind, prog_bind, p_bind, modify, gets. simpl. by rewrite Hh; simpl; rewrite Hb.
    + destruct (sc_write_producer id buf s) as (s1 & a & _ & [Hl1 _] & _ & ->); done.
  - unfold sc_write, mbind, prog_bind, p_bind, modify, gets. cbn [handles set_has_new_events].
    rewrite Hh. cbn [ok_or p_ret]. case_decide; [|done].
    destruct (switch_vt_safe_live (le_val buf) (set_has_new_events true s) Hl) as [Hp Hl1].
    by destruct (switch_vt _ _) as [[] s1].
Qed.

Lemma handle_request_safe (rq : Request) : about_mapping rq = false → safe live (handle_request rq).
Proof.
  intros Hm. destruct rq; try done; unfold handle_request, reply, sc_close;
    repeat first [apply sc_open_safe | apply sc_fpath_safe | apply sc_read_safe
                 | apply sc_write_safe | apply sc_fevent_safe | safe_step].
Qed.

(** The handoff in closed form. *)
Definition retarget (early : list string) (display d : string) : string :=
  if decide (d ∈ early) then display else d.

Definition moved_vts (s : InputScheme) : gmap Z string :=
  filter (λ kd : Z * string, kd.2 ∈ early_displays s) (vts s).

Lemma handoff_eq (s : InputScheme) :
  handoff s = match maybe_perform_handoff_to s with
              | None => (Ok tt, s)
              | Some display =>
                  (Ok tt, mk_scheme (omap (handoff_handle (moved_vts s)) (handles s)) (next_id s)
                     (next_vt_id s) (retarget (early_displays s) display <$> vts s) (super_key s)
                     (active_vt s)
                     (if decide (moved_vts s = ∅) then has_new_events s else true) None)
              end.
Proof.
  unfold handoff. destruct (maybe_perform_handoff_to s) as [display|]; [|done].
  rewrite update_handles_ok by (intros; apply handoff_handle_ok).
  unfold moved_vts. by case_decide.
Qed.

Lemma handoff_safe : safe live handoff.
Proof.
  intros s (a & Ha & Hd). rewrite handoff_eq.
  destruct (maybe_perform_handoff_to s); simpl; (split; [done|]); exists a; (split; [done|]); simpl.
  - by rewrite lookup_fmap, fmap_is_Some.
  - done.
Qed.

Lemma notify_safe : safe live notify.
Proof.
  intros s Hl. destruct (has_new_events s) eqn:Hn.
  - pose proof Hl as (a & Ha & _). by rewrite (notify_eq a s Ha Hn).
  - unfold notify, mbind, prog_bind, p_bind, gets. by rewrite Hn.
Qed.

Lemma serve_safe (rq : Request) : about_mapping rq = false → safe live (serve rq).
Proof.
  intros Hm. unfold serve.
  repeat first [apply (handle_request_safe rq Hm) | apply handoff_safe | apply notify_safe | safe_step].
Qed.

(** No request ends the daemon with an error: errors become replies. *)
Lemma handle_request_no_err (rq : Request) (s : InputScheme) (e : errno) :
  (handle_request rq s).1 ≠ Err e.
Proof.
  assert (∀ A (f : A → Reply) (m : iprog A), (reply f m s).1 ≠ Err e) as Hr.
  { intros A f m. unfold reply, attempt, mbind, prog_bind, p_bind. by destruct (m s) as [[] ?]. }
  destruct rq; try apply Hr; done.
Qed.

Lemma notify_no_err (s : InputScheme) (e : errno) : live s → (notify s).1 ≠ Err e.
Proof.
  intros Hl. destruct (has_new_events s) eqn:Hn.
  - destruct Hl as (a & Ha & _). by rewrite (notify_eq a s Ha Hn).
  - unfold notify, mbind, prog_bind, p_bind, gets. by rewrite Hn.
Qed.

Lemma serve_live (rq : Request) (s : InputScheme) :
  about_mapping rq = false → live s → ∃ r s', serve rq s = (Ok r, s') ∧ live s'.
Proof.
  intros Hm Hl. apply (safe_total live); [by apply serve_safe|done|]. intros e.
  unfold serve, mbind, prog_bind. unfold p_bind at 1. cbn [modify].
  destruct (safe_total live (handle_request rq) (set_has_new_events false s))
    as (rp & s1 & H1 & Hl1); [by apply handle_request_safe|done|apply handle_request_no_err|].
  destruct (safe_total live handoff s1) as (u & s2 & H2 & Hl2); [apply handoff_safe|done| |].
  { intros e'. rewrite handoff_eq. by case_match. }
  destruct (safe_total live notify s2) as (posts & s3 & H3 & Hl3);
    [apply notify_safe|done|intros ?; by apply notify_no_err|].
  unfold p_bind. rewrite H1, H2, H3. done.
Qed.

(** The daemon panics at a message about a mapping. *)
Lemma serve_mapping (rq : Request) (s : InputScheme) : about_mapping rq = true → (serve rq s).1 = Panic.
Proof. by destruct rq. Qed.

(** C12. Once a VT is active, the daemon survives exactly the sequences of requests without a
    message about a memory mapping (mmap, munmap, msync; the code declares them unreachable).
    Without one, however malformed the requests are, every request gets a reply and the active
    VT remains one of the known VTs; at the first one the daemon panics. *)
Theorem serve_all_never_panics (rqs : list Request) (s : InputScheme) (Hl : live s) :
  if existsb about_mapping rqs then (serve_all rqs s).1 = Panic
  else ∃ rs s', serve_all rqs s = (Ok rs, s') ∧ length rs = length rqs ∧ live s'.
Proof.
  revert s Hl. induction rqs as [|rq rqs IH]; intros s Hl; [by exists [], s|].
  cbn [existsb serve_all]. destruct (about_mapping rq) eqn:Hm; cbn [orb].
  { pose proof (serve_mapping rq s Hm) as Hp. unfold mbind, prog_bind, p_bind. destruct (serve rq s) as [r s1]. cbn [fst] in Hp. by subst r. }
  destruct (serve_live rq s Hm Hl) as (r & s1 & H1 & Hl1). specialize (IH s1 Hl1).
  unfold mbind, prog_bind, p_bind. rewrite H1. destruct (existsb about_mapping rqs).
  - destruct (serve_all rqs s1) as [r2 s2]. cbn [fst] in IH. by subst r2.
  - destruct IH as (rs & s2 & -> & Hlen & Hl2). exists (r :: rs), s2. by cbn [length]; rewrite Hlen.
Qed.
End daemon.

(** ** What a consumer reads *)

Section streams.
Context `{InputEnv}.

(** [id] is a consumer of VT [v] with [p] not yet read. *)
Definition consumer_at (id v : Z) (p : list Z) (s : InputScheme) : Prop :=
  ∃ ev nh nt, handles s !! id = Some (Consumer ev p nh nt v).

(** Handle ids are below the counter. *)
Definition ids_ok (n : Z) (s : InputScheme) : Prop :=
  next_id s = n ∧ ∀ id, is_Some (handles s !! id) → id < n.

(** The bytes a request hands to the reader of [id]. *)
Definition taken (id : Z) (rq : Request) (rp : Reply) : list Z :=
  match rq, rp with
  | RqRead id' _, RpData _ d => if decide (id' = id) then d else []
  | _, _ => []
  end.

(** A keymap command is a single byte above 0xf4. *)
Definition is_command (buf : list Z) : bool :=
  match buf with [b] => 0xf4 <? b | _ => false end.

(** The bytes a request sends to VT [v]; [s1] is the state after it. *)
Definition sent (v : Z) (rq : Request) (s s1 : InputScheme) : list Z :=
  match rq with
  | RqWrite pid buf =>
      if decide (handles s !! pid = Some Producer ∧ is_command buf = false ∧ active_vt s1 = Some v)
      then buf else []
  | _ => []
  end.

Fixpoint sent_all (v : Z) (rqs : list Request) (s : InputScheme) : list Z :=
  match rqs with
  | [] => []
  | rq :: rqs => let s1 := (serve rq s).2 in sent v rq s s1 ++ sent_all v rqs s1
  end.

Fixpoint taken_all (id : Z) (rqs : list Request) (rs : list (Reply * list Z)) : list Z :=
  match rqs, rs with
  | rq :: rqs, r :: rs => taken id rq r.1 ++ taken_all id rqs rs
  | _, _ => []
  end.

Lemma ids_ok_omap (n : Z) (f : Handle → option Handle) (s : InputScheme) :
  ids_ok n s → ids_ok n (set_handles (omap f (handles s)) s).
Proof.
  intros [Hn Hb]. split; [done|]. intros id. simpl. rewrite lookup_omap.
  intros [h Hh]. apply Hb. by destruct (handles s !! id); [eexists|].
Qed.

Lemma ids_ok_insert (n id : Z) (h : Handle) (s : InputScheme) :
  is_Some (handles s !! id) → ids_ok n s → ids_ok n (set_handles (<[id := h]> (handles s)) s).
Proof.
  intros Hi [Hn Hb]. split; [done|]. intros i. simpl.
  destruct (decide (i = id)) as [->|]; [by auto|]. rewrite lookup_insert_ne by done. apply Hb.
Qed.

Lemma consumer_at_omap (id v : Z) (p : list Z) (f : Handle → option Handle) (s : InputScheme) :
  (∀ ev p nh nt v, f (Consumer ev p nh nt v) = Some (Consumer ev p nh nt v)) →
  consumer_at id v p s → consumer_at id v p (set_handles (omap f (handles s)) s).
Proof.
  intros Hf (ev & nh & nt & Hc). exists ev, nh, nt. simpl. by rewrite lookup_omap, Hc; simpl.
Qed.

Lemma switch_vt_frame (id v n w : Z) (p : list Z) (s s' : InputScheme) :
  switch_vt w s = (Ok tt, s') → ids_ok n s → consumer_at id v p s →
  ids_ok n s' ∧ consumer_at id v p s'.
Proof.
  intros Hs Hi Hc. unfold switch_vt, update_handles in Hs. repeat case_match; simplify_eq; try done.
  split.
  - by apply (ids_ok_omap n (switch_handle (vts s) (active_vt s) w)).
  - by apply (consumer_at_omap id v p (switch_handle (vts s) (active_vt s) w)).
Qed.

Lemma handle_event_frame (id v n : Z) (p : list Z) (e : EventOption) (s s' : InputScheme) :
  handle_event e s = (Ok tt, s') → ids_ok n s → consumer_at id v p s →
  ids_ok n s' ∧ consumer_at id v p s'.
Proof.
  destruct e as [sc pr|w h|]; unfold handle_event.
  - unfold mbind, prog_bind, p_bind, gets, modify, p_ret.
    repeat case_match; try apply switch_vt_frame; by intros [= <-].
  - unfold update_handles. destruct (decide _); [|done]. intros [= <-] Hi Hc. split.
    + by apply ids_ok_omap.
    + by apply consumer_at_omap.
  - by intros [= <-].
Qed.

Lemma handle_events_frame (id v n : Z) (p : list Z) (es : list EventOption) (s s' : InputScheme) :
  handle_events es s = (Ok tt, s') → ids_ok n s → consumer_at id v p s →
  ids_ok n s' ∧ consumer_at id v p s'.
Proof.
  revert s. induction es as [|e es IH]; intros s; [by intros [= <-]|].
  cbn [handle_events]. intros ([] & s1 & H1 & H2)%bind_inv_Ok Hi Hc.
  destruct (handle_event_frame id v n p e s s1 H1 Hi Hc). by apply (IH s1).
Qed.

(** What one request does for consumer [id]: [p] and what was sent is what was
    taken and [p']. *)
Definition stream_step (id v : Z) (p : list Z) (rq : Request) (s : InputScheme)
    (rp : Reply) (s1 : InputScheme) : Prop :=
  ∃ p', consumer_at id v p' s1 ∧ taken id rq rp ++ p' = p ++ sent v rq s s1 ∧
        ∃ n', next_id s <= n' <= next_id s + 1 ∧ ids_ok n' s1.

(** A request that neither reads nor writes consumer data. *)
Lemma stream_step_idle (id v n : Z) (p : list Z) (rq : Request) (s : InputScheme)
    (rp : Reply) (s1 : InputScheme) :
  taken id rq rp = [] → sent v rq s s1 = [] → consumer_at id v p s1 →
  ids_ok n s1 → next_id s <= n <= next_id s + 1 → stream_step id v p rq s rp s1.
Proof.
  intros Ht Hs Hc Hi Hn. exists p. rewrite Ht, Hs, app_nil_r. eauto 6.
Qed.

Lemma reply_eq {A : Type} (f : A → Reply) (m : iprog A) (s : InputScheme) :
  (m s).1 ≠ Panic →
  reply f m s = (Ok (match (m s).1 with Ok a => f a | Err e => RpErr e | Panic => RpNone end), (m s).2).
Proof.
  intros Hp. unfold reply, attempt, mbind, prog_bind, p_bind, p_ret.
  by destruct (m s) as [[a|e|] s1].
Qed.

Lemma open_handle_frame (command : string) (parts : list string) (s : InputScheme) :
  handles (open_handle command parts s).2 = handles s ∧
  next_id (open_handle command parts s).2 = next_id s.
Proof.
  unfold open_handle. repeat case_decide; try done.
  unfold mbind at 1 3, prog_bind, p_bind. by destruct (x ← head parts; parse_usize x).
Qed.

Lemma open_step (id v : Z) (p : list Z) (path : string) (s : InputScheme) (rp : Reply) :
  ids_ok (next_id s) s → 0 <= next_id s → next_id s + 1 < 2 ^ 64 → consumer_at id v p s →
  stream_step id v p (RqOpen path) s rp (sc_open path s).2.
Proof.
  intros Hi H0 Hn Hc. pose proof Hc as (ev & nh & nt & Hl).
  assert (as_usize (next_id s + 1) = next_id s + 1) as Hw.
  { unfold as_usize, as_u. apply Z.mod_small. lia. }
  assert (id < next_id s) as Hlt by (apply Hi; by eexists).
  assert (∀ f : InputScheme → InputScheme, handles (f s) = handles s →
            next_id (f s) = next_id s + 1 → ids_ok (next_id s + 1) (f s)) as Hsame.
  { intros f Hf Hnf. split; [done|]. intros i. rewrite Hf. intros Hx%Hi. lia. }
  assert (∀ h (s0 : InputScheme), handles s0 = handles s → next_id s0 = next_id s + 1 →
    ids_ok (next_id s + 1) (set_handles (<[next_id s := h]> (handles s0)) s0) ∧
    consumer_at id v p (set_handles (<[next_id s := h]> (handles s0)) s0)) as Hins.
  { intros h s0 Hf Hnf. split.
    - split; [done|]. intros i. simpl. rewrite Hf.
      destruct (decide (i = next_id s)) as [->|]; [lia|].
      rewrite lookup_insert_ne by done. intros Hx%Hi. lia.
    - exists ev, nh, nt. simpl. rewrite Hf. by rewrite lookup_insert_ne by lia. }
  unfold sc_open. destruct (split_path "" path) as [|command parts].
  { by apply (stream_step_idle id v (next_id s)); [..|lia]. }
  unfold fetch_add_next_id, mbind, prog_bind, p_bind. rewrite Hw.
  set (s0 := set_next_id (next_id s + 1) s).
  pose proof (open_handle_frame command parts s0) as [Hh1 Hn1].
  destruct (open_handle command parts s0) as [[h|e|] s1]; simpl in *.
  - destruct (Hins h s1) as [HA HB]; [done|done|].
    by apply (stream_step_idle id v (next_id s + 1)); [..|lia].
  - apply (stream_step_idle id v (next_id s + 1)); [done|done| |by apply (Hsame (λ _, s1))|lia].
    exists ev, nh, nt. by rewrite Hh1.
  - apply (stream_step_idle id v (next_id s + 1)); [done|done| |by apply (Hsame (λ _, s1))|lia].
    exists ev, nh, nt. by rewrite Hh1.
Qed.

Lemma consumer_at_insert_ne (id id' v : Z) (p : list Z) (h : Handle) (s : InputScheme) :
  id' ≠ id → consumer_at id v p s → consumer_at id v p (set_handles (<[id' := h]> (handles s)) s).
Proof.
  intros Hne (ev & nh & nt & Hc). exists ev, nh, nt. simpl. by rewrite lookup_insert_ne.
Qed.

Lemma consumer_at_insert_eq (id v ev : Z) (p : list Z) (nh nt : bool) (s : InputScheme) :
  consumer_at id v p (set_handles (<[id := Consumer ev p nh nt v]> (handles s)) s).
Proof. exists ev, nh, nt. simpl. by rewrite lookup_insert_eq. Qed.

(** Setting a handle that is there, other than consumer [id]. *)
Lemma stream_step_other (id id' v : Z) (p : list Z) (rq : Request) (h : Handle) (s : InputScheme)
    (rp : Reply) :
  id' ≠ id → taken id rq rp = [] → (∀ s1, sent v rq s s1 = []) →
  ids_ok (next_id s) s → consumer_at id v p s → is_Some (handles s !! id') →
  stream_step id v p rq s rp (set_handles (<[id' := h]> (handles s)) s).
Proof.
  intros Hne Ht Hs Hi Hc Hl. apply (stream_step_idle id v (next_id s)); [done|done| | |lia].
  - by apply consumer_at_insert_ne.
  - by apply ids_ok_insert.
Qed.

Ltac idle_step :=
  match goal with
  | |- stream_step ?id ?v _ _ ?s _ _ =>
      apply (stream_step_idle id v (next_id s)); [by auto|by auto|done|done|lia]
  end.

Ltac other_step := apply stream_step_other; [done|by auto|by auto|done|done|by eexists].

Lemma read_step (id id' v : Z) (p : list Z) (n : nat) (s : InputScheme) (rp : Reply) (s1 : InputScheme) :
  handle_request (RqRead id' n) s = (Ok rp, s1) →
  ids_ok (next_id s) s → consumer_at id v p s →
  stream_step id v p (RqRead id' n) s rp s1.
Proof.
  intros Hr Hi Hc. pose proof Hc as (ev & nh & nt & Hl).
  unfold handle_request, reply, attempt, sc_read, set_handle, mbind, prog_bind, p_bind, gets, modify,
    throw, p_ret in Hr.
  destruct (decide (id' = id)) as [->|Hne].
  - rewrite Hl in Hr. cbn [ok_or p_ret] in Hr. destruct nh; simplify_eq/=.
    + apply (stream_step_idle id v (next_id s)); [done|done| | |lia].
      * apply consumer_at_insert_eq.
      * apply ids_ok_insert; [by eexists|done].
    + exists (drop (Nat.min (length p) n) p). split; [apply consumer_at_insert_eq|]. split.
      * simpl. by rewrite decide_True, app_nil_r, take_drop.
      * exists (next_id s). split; [lia|]. apply ids_ok_insert; [by eexists|done].
  - assert (∀ rp, taken id (RqRead id' n) rp = []) as Ht.
    { intros []; try done. simpl. by rewrite decide_False. }
    destruct (handles s !! id') as [[|ev' p' nh' nt' v'|ev' p' nt' dev early|]|] eqn:Hh;
      simpl in Hr; simplify_eq; try idle_step.
    + destruct nh'; simplify_eq; other_step.
    + repeat case_decide; simplify_eq; try idle_step. other_step.
Qed.

Lemma fevent_step (id id' v fl : Z) (p : list Z) (s : InputScheme) (rp : Reply) (s1 : InputScheme) :
  handle_request (RqFevent id' fl) s = (Ok rp, s1) →
  ids_ok (next_id s) s → consumer_at id v p s →
  stream_step id v p (RqFevent id' fl) s rp s1.
Proof.
  intros Hr Hi Hc. pose proof Hc as (ev & nh & nt & Hl).
  unfold handle_request, reply, attempt, sc_fevent, set_handle, mbind, prog_bind, p_bind, gets, modify,
    throw, p_ret in Hr.
  destruct (decide (id' = id)) as [->|Hne].
  - rewrite Hl in Hr. simplify_eq/=. apply (stream_step_idle id v (next_id s)); [done|done| | |lia].
    + apply consumer_at_insert_eq.
    + apply ids_ok_insert; [by eexists|done].
  - destruct (handles s !! id') as [[|ev' p' nh' nt' v'|ev' p' nt' dev early|]|] eqn:Hh;
      simpl in Hr; simplify_eq; try idle_step; other_step.
Qed.

Lemma deliver_consumer_at (id v a : Z) (p buf : list Z) (s : InputScheme) :
  consumer_at id v p s →
  consumer_at id v (p ++ if v =? a then buf else [])
    (set_handles (omap (deliver_handle a buf) (handles s)) s).
Proof.
  intros (ev & nh & nt & Hc). unfold consumer_at. simpl. rewrite lookup_omap, Hc. simpl.
  destruct (v =? a); [by eauto|]. rewrite app_nil_r. by eauto.
Qed.

Lemma switch_vt_ok (w : Z) (s : InputScheme) : live s → ∃ s', switch_vt w s = (Ok tt, s').
Proof. intros Hl. rewrite switch_vt_live by done. case_decide; eauto. Qed.

Lemma write_step (id id' v : Z) (p buf : list Z) (s : InputScheme) (rp : Reply) (s1 : InputScheme) :
  handle_request (RqWrite id' buf) s = (Ok rp, s1) → live s →
  ids_ok (next_id s) s → consumer_at id v p s →
  stream_step id v p (RqWrite id' buf) s rp s1.
Proof.
  intros Hr Hlive Hi Hc. unfold handle_request in Hr.
  destruct (decide (handles s !! id' = Some Producer ∧ is_command buf = false)) as [[Hp Hb]|Hd].
  - destruct (sc_write_producer id' buf s) as (s2 & a & He & _ & Ha & Hw); [done..|].
    rewrite reply_eq in Hr by (by rewrite Hw). rewrite Hw in Hr. simplify_eq/=.
    destruct (handle_events_frame id v (next_id s) p _ _ _ He) as [Hi2 Hc2]; [done|done|].
    eexists. split; [by apply deliver_consumer_at|]. split.
    + simpl. f_equal. rewrite Ha. destruct (v =? a) eqn:Ev.
      * apply Z.eqb_eq in Ev as ->. by rewrite decide_True.
      * apply Z.eqb_neq in Ev. rewrite decide_False; [done|]. naive_solver.
    + exists (next_id s). split; [lia|]. by apply ids_ok_omap.
  - assert (∀ s1, sent v (RqWrite id' buf) s s1 = []) as Hsent.
    { intros s'. simpl. rewrite decide_False; [done|]. naive_solver. }
    assert (∃ s2, s1 = (sc_write id' buf s).2 ∧ s1 = s2) as (s2 & Hs & <-).
    { rewrite reply_eq in Hr by (apply sc_write_safe, Hlive). simplify_eq. eauto. }
    clear Hr. unfold sc_write, mbind, prog_bind, p_bind, modify, gets in Hs.
    cbn [handles set_has_new_events] in Hs.
    destruct (handles s !! id') as [[| | |]|] eqn:Hh; cbn [ok_or p_ret throw] in Hs.
    + destruct (is_command buf) eqn:Hb; [|naive_solver]. unfold is_command in Hb. rewrite Hb in Hs.
      simpl in Hs. subst s1. idle_step.
    + simpl in Hs. subst s1. idle_step.
    + simpl in Hs. subst s1. idle_step.
    + destruct (decide (length buf = 8%nat)); simpl in Hs;
        [|subst s1; idle_step].
      destruct (switch_vt_ok (le_val buf) (set_has_new_events true s) Hlive) as (s2 & H2).
      rewrite H2 in Hs. simpl in Hs. subst s1.
      destruct (switch_vt_frame id v (next_id s) _ p _ _ H2) as [Hi2 Hc2]; [done|done|].
      idle_step.
    + simpl in Hs. subst s1. idle_step.
Qed.

Lemma request_step (id v : Z) (p : list Z) (rq : Request) (s : InputScheme) (rp : Reply)
    (s1 : InputScheme) :
  handle_request rq s = (Ok rp, s1) → live s → 0 <= next_id s → next_id s + 1 < 2 ^ 64 →
  ids_ok (next_id s) s → consumer_at id v p s → stream_step id v p rq s rp s1.
Proof.
  intros Hr Hl H0 Hn Hi Hc. destruct rq.
  - unfold handle_request in Hr. rewrite reply_eq in Hr by (apply sc_open_safe, Hl).
    simplify_eq. by apply open_step.
  - assert (s1 = s) as ->; [|idle_step]. unfold handle_request in Hr.
    rewrite reply_eq in Hr by (apply sc_fpath_safe, Hl). simplify_eq.
    unfold sc_fpath, mbind, prog_bind, p_bind, gets.
    destruct (handles s !! _) as [[| ? ? ? ? vt | |]|]; try done. simpl. by destruct (vts s !! vt).
  - by apply read_step.
  - by apply write_step.
  - by apply fevent_step.
  - assert (s1 = s) as -> by (by injection Hr). idle_step.
  - assert (s1 = s) as -> by (by injection Hr). idle_step.
  - assert (s1 = s) as -> by (by injection Hr). idle_step.
  - done.
  - done.
  - done.
Qed.

Lemma handoff_frame (id v n : Z) (p : list Z) (s s' : InputScheme) :
  handoff s = (Ok tt, s') → ids_ok n s → consumer_at id v p s →
  ids_ok n s' ∧ consumer_at id v p s' ∧ active_vt s' = active_vt s.
Proof.
  rewrite handoff_eq. destruct (maybe_perform_handoff_to s) as [display|]; intros [= <-] Hi Hc; [|done].
  split; [by apply (ids_ok_omap n (handoff_handle (moved_vts s)))|]. split; [|done].
  destruct Hc as (ev & nh & nt & Hc). unfold consumer_at. simpl. rewrite lookup_omap, Hc. simpl.
  case_match; eauto.
Qed.

Lemma notify_frame (id v n : Z) (p : list Z) (s s' : InputScheme) (posts : list Z) :
  live s → notify s = (Ok posts, s') → ids_ok n s → consumer_at id v p s →
  ids_ok n s' ∧ consumer_at id v p s' ∧ active_vt s' = active_vt s.
Proof.
  intros (a & Ha & _) Hno [Hi1 Hi2] Hc. destruct (has_new_events s) eqn:Hn; last first.
  { unfold notify, mbind, prog_bind, p_bind, gets in Hno. rewrite Hn in Hno.
    injection Hno as <- <-. by split; [split|]. }
  rewrite (notify_eq a s Ha Hn) in Hno. injection Hno as <- <-. split; [split; [done|]|split; [|done]].
  - intros i. simpl. rewrite lookup_fmap, fmap_is_Some. apply Hi2.
  - destruct Hc as (ev & nh & nt & Hc). unfold consumer_at. simpl. rewrite lookup_fmap, Hc.
    unfold notified_now. simpl. destruct (_ && _); simpl; eauto.
Qed.

Lemma serve_step (id v : Z) (p : list Z) (rq : Request) (s : InputScheme) (rp : Reply)
    (posts : list Z) (s1 : InputScheme) :
  serve rq s = (Ok (rp, posts), s1) → live s → 0 <= next_id s → next_id s + 1 < 2 ^ 64 →
  ids_ok (next_id s) s → consumer_at id v p s → stream_step id v p rq s rp s1.
Proof.
  intros Hs Hl H0 Hn Hi Hc. unfold serve, mbind, prog_bind in Hs.
  apply bind_inv_Ok in Hs as (u1 & t1 & [= <- <-] & Hs).
  apply bind_inv_Ok in Hs as (rp' & t2 & Hrq & Hs). apply bind_inv_Ok in Hs as (u2 & t3 & Hho & Hs).
  apply bind_inv_Ok in Hs as (posts' & t4 & Hno & [= <- <- <-]).
  destruct (request_step id v p rq (set_has_new_events false s) rp' t2)
    as (p' & Hc2 & Hp & n' & Hn' & Hi2); [done..|].
  assert (live t2) as Hl2.
  { assert (about_mapping rq = false) as Hm by (by destruct rq).
    destruct (handle_request_safe rq Hm (set_has_new_events false s) Hl) as [_ Hx]. by rewrite Hrq in Hx. }
  assert (live t3) as Hl3 by (destruct (handoff_safe t2 Hl2) as [_ Hx]; by rewrite Hho in Hx).
  destruct u2. destruct (handoff_frame id v n' p' t2 t3 Hho Hi2 Hc2) as (Hi3 & Hc3 & Ha3).
  destruct (notify_frame id v n' p' t3 t4 posts' Hl3 Hno Hi3 Hc3) as (Hi4 & Hc4 & Ha4).
  exists p'. split; [done|]. split; [|by eauto]. rewrite Hp. f_equal.
  destruct rq; try done. cbn [sent set_has_new_events handles]. by rewrite Ha4, Ha3.
Qed.

(** C2. The byte stream of a consumer: over any sequence of requests (as long as
    the handle counter does not wrap), what a consumer of VT [v] had pending
    followed by everything producers wrote while [v] was the active VT is exactly
    what its reads returned followed by what is still pending: no byte is lost,
    duplicated, reordered or leaked to a consumer of another VT, and the consumer
    keeps its VT. *)
Theorem consumer_stream_fifo (id v : Z) (p : list Z) (rqs : list Request) (s s' : InputScheme)
    (rs : list (Reply * list Z))
    (Hl : live s) (H0 : 0 <= next_id s) (Hn : next_id s + Z.of_nat (length rqs) < 2 ^ 64)
    (Hi : ids_ok (next_id s) s) (Hc : consumer_at id v p s)
    (Hs : serve_all rqs s = (Ok rs, s')) :
  ∃ p', consumer_at id v p' s' ∧ p ++ sent_all v rqs s = taken_all id rqs rs ++ p'.
Proof.
  revert p s rs Hl H0 Hn Hi Hc Hs. induction rqs as [|rq rqs IH]; intros p s rs Hl H0 Hn Hi Hc Hs.
  - injection Hs as <- <-. exists p. by rewrite app_nil_r.
  - cbn [serve_all] in Hs. apply bind_inv_Ok in Hs as ([rp posts] & s1 & H1 & Hs).
    apply bind_inv_Ok in Hs as (rs' & s2 & H2 & [= <- <-]).
    assert (about_mapping rq = false) as Hm by (by destruct rq).
    destruct (serve_live rq s Hm Hl) as (r1 & s1' & H1' & Hl1). rewrite H1 in H1'. simplify_eq.
    simpl in Hn.
    destruct (serve_step id v p rq s rp posts s1') as (p1 & Hc1 & Hp1 & n1 & Hn1 & Hi1); [done..|lia|done|done|].
    destruct (IH p1 s1' rs') as (p2 & Hc2 & Hp2); [done| | | |done|done|].
    { destruct Hi1. lia. }
    { destruct Hi1. lia. }
    { pose proof Hi1 as [-> _]. done. }
    exists p2. split; [done|]. cbn [sent_all taken_all fst]. rewrite H1. cbn [snd].
    by rewrite app_assoc, <- Hp1, <- app_assoc, Hp2, app_assoc.
Qed.
End streams.

(** ** The client library *)

Section client.
Context `{InputEnv}.

Definition vt_event_kind_of (n : Z) : option VtEventKind :=
  if n =? 0 then Some Activate else if n =? 1 then Some Deactivate
  else if n =? 2 then Some Resize else None.

(** The 32 bytes read over the caller's [VtEvent]; [None] is an invalid
    discriminant. *)
Definition vt_event_of_bytes (b : list Z) : option VtEvent :=
  k ← vt_event_kind_of (le_val (slice 0 8 b));
  Some (mk_vt_event k (le_val (slice 8 8 b)) (le_val (slice 16 4 b)) (le_val (slice 20 4 b))
          (le_val (slice 24 4 b))).

Definition read_vt_event (id : Z) : iprog (option VtEvent) :=
  r ← sc_read id size_of_VtEvent;
  if decide (r.1 = 0) then p_ret None
  else if decide (r.1 = Z.of_nat size_of_VtEvent) then
    e ← unwrap (vt_event_of_bytes r.2); p_ret (Some e)
  else panic.

Definition register_vt (id : Z) : iprog Z := r ← sc_read id 0; p_ret r.1.

Definition activate_vt (id vt : Z) : iprog Z := sc_write id (le_bytes 8 vt).

Definition vt_event_ok (e : VtEvent) : Prop :=
  u_range 64 (ve_vt e) ∧ u_range 32 (ve_width e) ∧ u_range 32 (ve_height e) ∧
  u_range 32 (ve_stride e).

Lemma vt_event_bytes_of (e : VtEvent) :
  vt_event_ok e → vt_event_of_bytes (vt_event_bytes e) = Some e.
Proof.
  intros (Hv & Hw & Hh & Hs). unfold vt_event_of_bytes.
  change (slice 0 8 (vt_event_bytes e)) with (le_bytes 8 (vt_event_kind_code (ve_kind e))).
  change (slice 8 8 (vt_event_bytes e)) with (le_bytes 8 (ve_vt e)).
  change (slice 16 4 (vt_event_bytes e)) with (le_bytes 4 (ve_width e)).
  change (slice 20 4 (vt_event_bytes e)) with (le_bytes 4 (ve_height e)).
  change (slice 24 4 (vt_event_bytes e)) with (le_bytes 4 (ve_stride e)).
  rewrite !le_val_bytes; try done; [by destruct e as [[] ? ? ? ?]|].
  unfold u_range. destruct (ve_kind e); simpl; lia.
Qed.

(** What the display driver's [read_vt_event] returns: [None] on an empty
    queue; otherwise the oldest queued VT event, field for field, after its trip
    through the 32-byte wire format, and the queue loses exactly that event. *)
Theorem read_vt_event_spec (id ev : Z) (pending : list VtEvent) (nt early : bool) (dev : string)
    (s : InputScheme)
    (Hh : handles s !! id = Some (Display ev pending nt dev early))
    (Hok : Forall vt_event_ok pending) :
  read_vt_event id s =
    (Ok (head pending), set_handles (<[id := Display ev (tail pending) nt dev early]> (handles s)) s).
Proof.
  unfold read_vt_event, sc_read, mbind, prog_bind, p_bind, gets. rewrite Hh. cbn [ok_or p_ret].
  destruct pending as [|e rest]; [done|].
  inversion_clear Hok as [|? ? He _]. cbn -[vt_event_bytes vt_event_of_bytes unwrap].
  rewrite Nat.min_0_r. unfold size_of_VtEvent. cbn -[vt_event_bytes vt_event_of_bytes unwrap].
  rewrite decide_False, decide_True by done. cbn [p_ret fst snd].
  rewrite decide_False, decide_True by done.
  change (mjoin (vt_event_bytes <$> take 0 rest)) with (@nil Z).
  by rewrite app_nil_r, vt_event_bytes_of.
Qed.

(** [register_vt] followed by [activate_vt] in any state of the daemon whose
    active VT, if any, is known: the VT gets a fresh number bound to the display's
    device and becomes the active VT, the display that owned the old VT sees
    [Deactivate] and every display of the device sees [Activate], in this order and
    after everything already queued, and all of these are due a notification; no
    other handle changes. *)
Theorem register_activate_spec (dpy ctl ev : Z) (pending : list VtEvent) (nt early : bool)
    (dev : string) (s : InputScheme)
    (Hd : handles s !! dpy = Some (Display ev pending nt dev early))
    (Hc : handles s !! ctl = Some Control)
    (Hv : u_range 64 (next_vt_id s)) (Hfresh : vts s !! next_vt_id s = None)
    (Hold : ∀ a, active_vt s = Some a → is_Some (vts s !! a)) :
  let v := next_vt_id s in
  ∃ s', (n ← register_vt dpy; activate_vt ctl n) s = (Ok 8, s') ∧
    active_vt s' = Some v ∧ vts s' = <[v := dev]> (vts s) ∧
    ∀ id, handles s' !! id =
      match handles s !! id with
      | Some (Display ev p nt d early) =>
          let gone := match active_vt s with
                      | Some a => if decide (vts s !! a = Some d) then [vt_event Deactivate a] else []
                      | None => []
                      end in
          let here := if decide (d = dev) then [vt_event Activate v] else [] in
          Some (Display ev (p ++ gone ++ here)
                  (if decide (gone ++ here = []) then nt else false) d early)
      | h => h
      end.
Proof.
  intros v. fold v in Hv, Hfresh.
  set (s1 := set_vts (<[v := dev]> (vts s)) (set_next_vt_id (as_usize (v + 1)) s)).
  assert (register_vt dpy s = (Ok v, s1)) as Hr.
  { unfold register_vt, sc_read, mbind, prog_bind, p_bind, gets. by rewrite Hd. }
  assert (∀ a, active_vt s = Some a → a ≠ v) as Hne.
  { intros a Ha ->. destruct (Hold v Ha). congruence. }
  set (f := switch_handle (vts s1) (active_vt s) v).
  assert (update_handles f (set_has_new_events true s1) =
            (Ok tt, set_handles (omap f (handles s)) (set_has_new_events true s1))) as Hu.
  { rewrite update_handles_ok; [done|]. intros id h _. apply switch_handle_ok.
    - intros a Ha. simpl. rewrite lookup_insert_ne by (symmetry; by apply Hne). by apply Hold.
    - simpl. rewrite lookup_insert_eq. by eexists. }
  eexists. split; [|split; [|split]].
  - unfold mbind, prog_bind. rewrite (bind_Ok _ _ _ _ _ Hr).
    unfold activate_vt, sc_write, mbind, prog_bind, p_bind, modify, gets.
    cbn [handles set_has_new_events s1 set_vts set_next_vt_id]. rewrite Hc. cbn [ok_or p_ret].
    rewrite length_le_bytes, decide_True by done. rewrite le_val_bytes by done.
    unfold switch_vt. fold s1.
    rewrite decide_False by (intros Ha; by destruct (Hne _ Ha)).
    replace (vts (set_has_new_events true s1) !! v) with (Some dev)
      by (symmetry; apply lookup_insert_eq).
    change (switch_handle _ _ v) with f. rewrite Hu. done.
  - done.
  - done.
  - intros id. simpl. rewrite lookup_omap.
    destruct (handles s !! id) as [[|? ? ? ? ?|ev' p nt' d early'|]|] eqn:Hid; try done.
    simpl. unfold f. simpl. rewrite lookup_insert_eq.
    destruct (active_vt s) as [a|] eqn:Ha.
    + rewrite lookup_insert_ne by (symmetry; by apply Hne).
      destruct (Hold a eq_refl) as [da Hda]. rewrite Hda.
      repeat case_decide; simplify_eq; try done; rewrite ?app_nil_r, <- ?app_assoc; done.
    + repeat case_decide; simplify_eq; rewrite ?app_nil_r; done.
Qed.
End client.

(** ** Handing the VTs over to a new display driver *)

Section handoffs.
Context `{InputEnv}.

(** When a display driver takes over, every VT shown by an early framebuffer
    moves to the new display and the others stay; a consumer of a moved VT gets
    [ESTALE] on exactly its next read and loses no byte: the read after that
    returns what was pending.  A consumer of any other VT is not disturbed. *)
Theorem handoff_stale_once (display d0 : string) (id ev v : Z) (p : list Z) (nt : bool) (n : nat)
    (s : InputScheme)
    (Hto : maybe_perform_handoff_to s = Some display)
    (Hc : handles s !! id = Some (Consumer ev p false nt v)) (Hv : vts s !! v = Some d0) :
  ∃ s1, handoff s = (Ok tt, s1) ∧ maybe_perform_handoff_to s1 = None ∧
    (∀ w, vts s1 !! w = retarget (early_displays s) display <$> vts s !! w) ∧
    if decide (d0 ∈ early_displays s) then
      has_new_events s1 = true ∧
      ∃ s2 s3, sc_read id n s1 = (Err ESTALE, s2) ∧
               sc_read id n s2 = (Ok (Z.of_nat (length p `min` n), take n p), s3) ∧
               handles s3 !! id = Some (Consumer ev (drop n p) false false v)
    else handles s1 !! id = handles s !! id.
Proof.
  rewrite handoff_eq, Hto. eexists. split; [done|]. split; [done|]. simpl.
  split; [intros w; by rewrite lookup_fmap|]. rewrite lookup_omap, Hc. simpl.
  assert (take (length p `min` n) p = take n p) as Htk.
  { by rewrite <- take_take, take_ge by (rewrite length_take; lia). }
  assert (drop (length p `min` n) p = drop n p) as Hdr.
  { destruct (decide (length p <= n)%nat); [|f_equal; lia]. by rewrite !drop_ge by lia. }
  case_decide as Hd.
  - assert (moved_vts s !! v = Some d0) as Hm by (by apply map_lookup_filter_Some).
    rewrite decide_False by (intros He; by rewrite He in Hm). split; [done|].
    unfold sc_read, mbind, prog_bind, p_bind, gets. simpl. rewrite lookup_omap, Hc. simpl. rewrite Hm.
    eexists _, _. split; [done|]. simpl. rewrite lookup_insert_eq. simpl. rewrite Htk, Hdr.
    split; [done|]. simpl. by rewrite lookup_insert_eq.
  - assert (moved_vts s !! v = None) as ->; [|done].
    apply map_lookup_filter_None. right. intros d Hd'. rewrite Hv in Hd'. by injection Hd' as <-.
Qed.

(** The hypothesis that a VT is active is needed: a producer's write in the
    initial state of the daemon, with no VT registered yet, reaches
    [self.active_vt.unwrap()] and panics, whatever the (non-command) bytes. *)
Theorem write_before_first_vt_panics (buf : list Z)
    (Hev : ∀ b, to_option b = EvOther) (Hb : is_command buf = false) :
  (serve_all [RqOpen "producer"; RqWrite 0 buf] scheme_new).1 = Panic.
Proof.
  assert (∀ n b s, handle_events (events_of n b) s = (Ok tt, s)) as He.
  { induction n as [|n IH]; intros b s; [done|]. cbn [events_of handle_events].
    unfold mbind, prog_bind, p_bind. rewrite Hev. cbn [handle_event p_ret]. apply IH. }
  cbn [serve_all]. unfold mbind at 1, prog_bind, p_bind at 1.
  replace (serve (RqOpen "producer") scheme_new)
    with (Ok (E := errno) (RpInt 0, @nil Z),
          mk_scheme {[0 := Producer]} 1 1 ∅ false None false None) by (vm_compute; reflexivity).
  unfold mbind, prog_bind, p_bind, serve, handle_request, reply, attempt, mbind, prog_bind, p_bind, sc_write.
  unfold mbind, prog_bind, p_bind, modify, gets. cbn [handles set_has_new_events].
  rewrite lookup_singleton_eq. cbn [ok_or p_ret]. unfold is_command in Hb. rewrite Hb, He.
  done.
Qed.

(** The module documentation tells consumers to open [input:consumer]; the
    code wants a VT number after it and refuses that path with [EINVAL], having used
    up a handle number. *)
Lemma open_consumer_needs_vt (s : InputScheme) :
  sc_open "consumer" s = (Err EINVAL, set_next_id (as_usize (next_id s + 1)) s) ∧
  ∀ v, 0 <= v < 10 → ∃ c, parse_usize (String c "") = Some v ∧
    (sc_open ("consumer/" +:+ String c "") s).1 = Ok (next_id s).
Proof.
  split; [done|]. intros v Hv.
  assert (v = 0 ∨ v = 1 ∨ v = 2 ∨ v = 3 ∨ v = 4 ∨ v = 5 ∨ v = 6 ∨ v = 7 ∨ v = 8 ∨ v = 9) as Hc by lia.
  exists (Ascii.ascii_of_nat (48 + Z.to_nat v)).
  by destruct_or! Hc; subst v.
Qed.
End handoffs.

(** ** Witnesses *)

(** An environment with 24-byte events: code, a, b. *)
Definition demo_env : InputEnv := {|
  EVENT_READ := 1;
  size_of_Event := 24;
  to_option b :=
    let code := le_val (slice 0 8 b) in
    if code =? 1 then EvKey (le_val (slice 8 8 b)) (negb (le_val (slice 16 8 b) =? 0))
    else if code =? 5 then EvResize (le_val (slice 8 8 b)) (le_val (slice 16 8 b))
    else EvOther;
  vt_padding := [0; 0; 0; 0];
|}.

Definition demo_event (code a b : Z) : list Z := le_bytes 8 code ++ le_bytes 8 a ++ le_bytes 8 b.

(** A display (handle 0) with VT 1 and VT 2, a control handle 1, a consumer of VT 1
    (handle 2) that wants read events, a producer (handle 3). *)
Definition demo_boot : list Request :=
  [RqOpen "handle_early/display/vesa"; RqRead 0 0; RqRead 0 0; RqOpen "control"; RqWrite 1 (le_bytes 8 1);
   RqOpen "consumer/1"; RqOpen "producer"; RqFevent 2 1].

Definition demo_state : InputScheme := (serve_all (H := demo_env) demo_boot scheme_new).2.

Lemma serve_all_never_panics_witness :
  live demo_state ∧
  ∃ rs s', serve_all (H := demo_env)
             [RqWrite 3 (demo_event 1 0x5B 1 ++ demo_event 1 0x3C 1); RqWrite 9 []; RqRead 2 100]
             demo_state = (Ok rs, s') ∧ length rs = 3%nat ∧ live s'.
Proof.
  assert (live demo_state) as Hl by (exists 1; split; [by vm_compute|by vm_compute; eexists]).
  split; [done|].
  exact (serve_all_never_panics (H := demo_env)
    [RqWrite 3 (demo_event 1 0x5B 1 ++ demo_event 1 0x3C 1); RqWrite 9 []; RqRead 2 100]
    demo_state Hl).
Defined.

Definition demo_rqs : list Request :=
  [RqWrite 3 (demo_event 1 30 1); RqRead 2 10; RqWrite 1 (le_bytes 8 2); RqWrite 3 (demo_event 1 31 1);
   RqRead 2 100].

(** Handle ids of a concrete state, all of them below the counter. *)
Lemma ids_ok_by_list (s : InputScheme) :
  Forall (λ kh, kh.1 < next_id s) (map_to_list (handles s)) → ids_ok (next_id s) s.
Proof.
  intros Hf. split; [done|]. intros id [h Hh%elem_of_map_to_list].
  rewrite Forall_forall in Hf. by apply (Hf (id, h)).
Qed.

Lemma consumer_stream_fifo_witness :
  ∃ rs s', serve_all (H := demo_env) demo_rqs demo_state = (Ok rs, s') ∧
    ∃ p', consumer_at 2 1 p' s' ∧
          [] ++ sent_all (H := demo_env) 1 demo_rqs demo_state = taken_all 2 demo_rqs rs ++ p'.
Proof.
  destruct (serve_all (H := demo_env) demo_rqs demo_state) as [[rs|e|] s'] eqn:E.
  2,3: exfalso; revert E; vm_compute; done.
  exists rs, s'. split; [done|].
  apply (consumer_stream_fifo (H := demo_env) 2 1 [] demo_rqs demo_state s' rs); [..|done].
  - exists 1; split; [by vm_compute|by vm_compute; eexists].
  - by vm_compute.
  - by vm_compute.
  - apply ids_ok_by_list. vm_compute. repeat constructor.
  - exists 1, false, false. by vm_compute.
Defined.

Lemma notify_posts_exactly_eligible_witness :
  let s := (sc_write (H := demo_env) 3 (demo_event 1 30 1) demo_state).2 in
  ∃ posts s', notify (H := demo_env) s = (Ok posts, s') ∧
    StronglySorted (≤) posts ∧ NoDup posts ∧
    (∀ id, id ∈ posts ↔ ∃ h, handles s !! id = Some h ∧ eligible (H := demo_env) 1 h = true) ∧
    (∀ id, handles s' !! id =
       if decide (id ∈ posts) then mark_notified <$> handles s !! id else handles s !! id) ∧
    (∀ id h, handles s' !! id = Some h → eligible (H := demo_env) 1 h = false).
Proof.
  intros s. apply (notify_posts_exactly_eligible (H := demo_env) 1 s); by vm_compute.
Defined.

(** A display with two events queued. *)
Definition demo_display : InputScheme :=
  mk_scheme {[7 := Display 1 [vt_event Deactivate 1; mk_vt_event Resize 2 640 480 640] false "vesa" false;
              8 := Control]}
    9 3 {[1 := "vesa"; 2 := "virtio"]} false (Some 1) false None.

Lemma read_vt_event_spec_witness :
  read_vt_event (H := demo_env) 7 demo_display =
    (Ok (Some (vt_event Deactivate 1)),
     set_handles (<[7 := Display 1 [mk_vt_event Resize 2 640 480 640] false "vesa" false]>
                    (handles demo_display)) demo_display).
Proof.
  apply (read_vt_event_spec (H := demo_env) 7 1 [vt_event Deactivate 1; mk_vt_event Resize 2 640 480 640]
           false false "vesa" demo_display); [by vm_compute|].
  repeat constructor; simpl; unfold u_range; lia.
Defined.

Lemma register_activate_spec_witness :
  ∃ s', (n ← register_vt (H := demo_env) 7; activate_vt (H := demo_env) 8 n) demo_display = (Ok 8, s') ∧
    active_vt s' = Some 3.
Proof.
  destruct (register_activate_spec (H := demo_env) 7 8 1
              [vt_event Deactivate 1; mk_vt_event Resize 2 640 480 640] false false "vesa" demo_display)
    as (s' & Hr & Ha & _); [by vm_compute|by vm_compute|by vm_compute|by vm_compute| |].
  - intros a [= <-]. vm_compute. by eexists.
  - by exists s'.
Defined.

(** A VT of an early framebuffer about to move to [virtio]. *)
Definition demo_handoff : InputScheme :=
  mk_scheme {[0 := Display 0 [] false "vesa" true; 1 := Consumer 1 [5; 6; 7] false true 1]}
    2 2 {[1 := "vesa"]} false (Some 1) false (Some "virtio").

Lemma handoff_stale_once_witness :
  ∃ s1 s2 s3, handoff demo_handoff = (Ok tt, s1) ∧
    sc_read (H := demo_env) 1 2 s1 = (Err ESTALE, s2) ∧
    sc_read (H := demo_env) 1 2 s2 = (Ok (2, [5; 6]), s3).
Proof.
  destruct (handoff_stale_once (H := demo_env) "virtio" "vesa" 1 1 1 [5; 6; 7] true 2 demo_handoff)
    as (s1 & H1 & _ & _ & Hd); [by vm_compute..|].
  rewrite decide_True in Hd by (vm_compute; constructor).
  destruct Hd as (_ & s2 & s3 & H2 & H3 & _). by exists s1, s2, s3.
Defined.

Lemma write_before_first_vt_panics_witness :
  let env := {| EVENT_READ := 1; size_of_Event := 24; to_option _ := EvOther; vt_padding := [0; 0; 0; 0] |} in
  (serve_all (H := env) [RqOpen "producer"; RqWrite 0 [1; 2; 3]] scheme_new).1 = Panic.
Proof.
  intros env. by apply (write_before_first_vt_panics (H := env) [1; 2; 3]).
Defined.
