(* ===== verification/Ps2Controller.v ===== *)
(** The 8042 keyboard controller (input/ps2d/src/controller.rs).

    [Ps2] holds the three byte ports of the controller; its methods are programs
    over the machine state [W] of a port bus ([PortBus], the hardware).  The
    polling loops carry their iteration counts as fuel, which is what the code
    bounds them with, so every method is a total function.  [Traced] is a bus that
    records the port accesses made on it; the theorems about the order of accesses
    and about their number are stated on it for every underlying bus. *)

From S2P Require Import Prelude Io.

(** ** Data *)

Inductive Ps2Error : Type := CommandRetry | NoMoreTries | ReadTimeout | WriteTimeout.

Module StatusFlags.
Definition OUTPUT_FULL : Z := 1.
Definition INPUT_FULL : Z := Z.shiftl 1 1.
Definition SECOND_OUTPUT_FULL : Z := Z.shiftl 1 5.
(** All eight bits are flags. *)
Definition from_bits_truncate (b : Z) : Z := Z.land b 0xFF.
End StatusFlags.

Module ConfigFlags.
Definition FIRST_INTERRUPT : Z := Z.shiftl 1 0.
Definition SECOND_INTERRUPT : Z := Z.shiftl 1 1.
Definition POST_PASSED : Z := Z.shiftl 1 2.
Definition FIRST_DISABLED : Z := Z.shiftl 1 4.
Definition SECOND_DISABLED : Z := Z.shiftl 1 5.
Definition FIRST_TRANSLATE : Z := Z.shiftl 1 6.
(** All eight bits are flags. *)
Definition from_bits_truncate (b : Z) : Z := Z.land b 0xFF.
End ConfigFlags.

(** [contains], [insert] and [remove] of a bitflags type. *)
Definition flags_contains (bits f : Z) : bool := Z.land bits f =? f.

Definition flags_insert (bits f : Z) : Z := Z.lor bits f.

Definition flags_remove (bits f : Z) : Z := Z.land bits (unot 8 f).

Inductive Command : Type :=
| ReadConfig | WriteConfig | DisableSecond | EnableSecond | TestSecond | TestController
| TestFirst | Diagnostic | DisableFirst | EnableFirst | WriteSecond.

Definition command_code (c : Command) : Z :=
  match c with
  | ReadConfig => 0x20 | WriteConfig => 0x60 | DisableSecond => 0xA7 | EnableSecond => 0xA8
  | TestSecond => 0xA9 | TestController => 0xAA | TestFirst => 0xAB | Diagnostic => 0xAC
  | DisableFirst => 0xAD | EnableFirst => 0xAE | WriteSecond => 0xD4
  end.

Inductive KeyboardCommand : Type :=
| KbEnableReporting | KbSetDefaultsDisable | KbSetDefaults | KbReset.

Definition keyboard_command_code (c : KeyboardCommand) : Z :=
  match c with
  | KbEnableReporting => 0xF4 | KbSetDefaultsDisable => 0xF5 | KbSetDefaults => 0xF6 | KbReset => 0xFF
  end.

Inductive KeyboardCommandData : Type := ScancodeSet.

Definition keyboard_command_data_code (c : KeyboardCommandData) : Z :=
  match c with ScancodeSet => 0xF0 end.

Inductive MouseCommand : Type :=
| SetScaling1To1 | SetScaling2To1 | StatusRequest | GetDeviceId | MsEnableReporting
| MsSetDefaultsDisable | MsSetDefaults | MsReset.

Definition mouse_command_code (c : MouseCommand) : Z :=
  match c with
  | SetScaling1To1 => 0xE6 | SetScaling2To1 => 0xE7 | StatusRequest => 0xE9 | GetDeviceId => 0xF2
  | MsEnableReporting => 0xF4 | MsSetDefaultsDisable => 0xF5 | MsSetDefaults => 0xF6
  | MsReset => 0xFF
  end.

Inductive MouseCommandData : Type := SetResolution | SetSampleRate.

Definition mouse_command_data_code (c : MouseCommandData) : Z :=
  match c with SetResolution => 0xE8 | SetSampleRate => 0xF3 end.

Record Ps2 := mk_ps2 {
  p_data : Pio;
  p_status : ReadOnly Pio;
  p_command : WriteOnly Pio;
}.

Definition ps2_new : Ps2 :=
  mk_ps2 (pio_new 0x60) (Build_ReadOnly (pio_new 0x64)) (Build_WriteOnly (pio_new 0x64)).

(** ** Methods *)

Section methods.
Context {W : Type} `{PortBus W} (self : Ps2).

Abbreviation pprog := (prog W Ps2Error).

Definition data_read : pprog Z := λ w, let '(v, w') := io_read (p_data self) w in (Ok v, w').

Definition data_write (v : Z) : pprog unit := λ w, (Ok tt, io_write (p_data self) v w).

Definition command_write (v : Z) : pprog unit := λ w, (Ok tt, wo_write (p_command self) v w).

Definition status : pprog Z := λ w,
  let '(v, w') := ro_read (p_status self) w in (Ok (StatusFlags.from_bits_truncate v), w').

(** [while timeout > 0] with the test [ready] on the status. *)
Fixpoint wait_loop (timeout : nat) (ready : Z → bool) (e : Ps2Error) : pprog unit :=
  match timeout with
  | O => throw e
  | S timeout =>
      st ← status;
      if ready st then p_ret tt else wait_loop timeout ready e
  end.

Definition WAIT_TIMEOUT : nat := Z.to_nat 100000.

Definition wait_read : pprog unit :=
  wait_loop WAIT_TIMEOUT (λ st, flags_contains st StatusFlags.OUTPUT_FULL) ReadTimeout.

Definition wait_write : pprog unit :=
  wait_loop WAIT_TIMEOUT (λ st, negb (flags_contains st StatusFlags.INPUT_FULL)) WriteTimeout.

Fixpoint flush_loop (timeout : nat) : pprog unit :=
  match timeout with
  | O => p_ret tt
  | S timeout =>
      st ← status;
      _ ← (if flags_contains st StatusFlags.OUTPUT_FULL then (_ ← data_read; p_ret tt) else p_ret tt);
      flush_loop timeout
  end.

Definition flush_read : pprog unit := flush_loop 100.

Definition ps2_command (c : Command) : pprog unit :=
  _ ← wait_write; command_write (command_code c).

Definition ps2_read : pprog Z := _ ← wait_read; data_read.

Definition ps2_write (data : Z) : pprog unit := _ ← wait_write; data_write data.

Fixpoint retry_loop (retries : nat) (f : pprog Z) (res : Ps2Error) : pprog Z :=
  match retries with
  | O => throw res
  | S retries =>
      r ← attempt f;
      match r with inr ok => p_ret ok | inl err => retry_loop retries f err end
  end.

Definition retry (retries : nat) (f : pprog Z) : pprog Z := retry_loop retries f NoMoreTries.

Definition ps2_config : pprog Z :=
  v ← retry 4 (_ ← ps2_command ReadConfig; ps2_read);
  p_ret (ConfigFlags.from_bits_truncate v).

Definition set_config (config : Z) : pprog unit :=
  _ ← retry 4 (_ ← ps2_command WriteConfig; _ ← ps2_write config; p_ret 0);
  p_ret tt.

Definition keyboard_command_inner (command : Z) : pprog Z :=
  _ ← ps2_write command;
  value ← ps2_read;
  if value =? 0xFE then throw CommandRetry else p_ret value.

Definition keyboard_command (c : KeyboardCommand) : pprog Z :=
  retry 4 (keyboard_command_inner (keyboard_command_code c)).

(** The result of the second write is dropped. *)
Definition keyboard_command_data (c : KeyboardCommandData) (data : Z) : pprog Z :=
  retry 4 (res ← keyboard_command_inner (keyboard_command_data_code c);
           if negb (res =? 0xFA) then p_ret res
           else _ ← attempt (ps2_write data); ps2_read).

Definition mouse_command_inner (command : Z) : pprog Z :=
  _ ← ps2_command WriteSecond;
  _ ← ps2_write command;
  value ← ps2_read;
  if value =? 0xFE then throw CommandRetry else p_ret value.

Definition mouse_command (c : MouseCommand) : pprog Z :=
  retry 4 (mouse_command_inner (mouse_command_code c)).

Definition mouse_command_data (c : MouseCommandData) (data : Z) : pprog Z :=
  retry 4 (res ← mouse_command_inner (mouse_command_data_code c);
           if negb (res =? 0xFA) then p_ret res
           else _ ← ps2_command WriteSecond; _ ← ps2_write data; ps2_read).

(** [Some (keyboard, data)]. *)
Definition ps2_next : pprog (option (bool * Z)) :=
  st ← status;
  if flags_contains st StatusFlags.OUTPUT_FULL then
    data ← data_read;
    p_ret (Some (negb (flags_contains st StatusFlags.SECOND_OUTPUT_FULL), data))
  else p_ret None.

(** The error branches that only log are gone; their reads stay. *)
Definition init_keyboard : pprog unit :=
  _ ← ps2_command EnableFirst;
  _ ← flush_read;
  b ← keyboard_command KbReset;
  _ ← (if b =? 0xFA then (_ ← attempt ps2_read; p_ret tt) else p_ret tt);
  _ ← flush_read;
  _ ← retry 4 (_ ← flush_read;
               b ← keyboard_command KbSetDefaultsDisable;
               if negb (b =? 0xFA) then throw CommandRetry
               else _ ← flush_read; p_ret b);
  _ ← keyboard_command_data ScancodeSet 2;
  flush_read.

Definition mouse_reset : pprog Z :=
  _ ← flush_read;
  b ← mouse_command MsReset;
  if b =? 0xFA then
    b ← ps2_read;
    if negb (b =? 0xAA) then throw CommandRetry
    else
      b ← ps2_read;
      if negb (b =? 0x00) then throw CommandRetry
      else _ ← flush_read; p_ret b
  else throw CommandRetry.

Definition init_mouse : pprog bool :=
  _ ← ps2_command EnableSecond;
  _ ← flush_read;
  _ ← retry 4 mouse_reset;
  _ ← mouse_command MsSetDefaults;
  _ ← flush_read;
  r1 ← mouse_command_data SetSampleRate 200;
  _ ← (if negb (r1 =? 0xFA) then p_ret tt
       else r2 ← mouse_command_data SetSampleRate 100;
            if negb (r2 =? 0xFA) then p_ret tt
            else _ ← mouse_command_data SetSampleRate 80; p_ret tt);
  _ ← flush_read;
  b ← mouse_command GetDeviceId;
  mouse_extra ← (if b =? 0xFA then (v ← ps2_read; p_ret (v =? 3)) else p_ret false);
  _ ← flush_read;
  _ ← mouse_command_data SetResolution 3;
  _ ← flush_read;
  _ ← mouse_command SetScaling1To1;
  _ ← flush_read;
  _ ← mouse_command_data SetSampleRate 200;
  _ ← flush_read;
  b ← mouse_command StatusRequest;
  _ ← (if negb (b =? 0xFA) then p_ret tt
       else _ ← ps2_read; _ ← ps2_read; _ ← ps2_read; p_ret tt);
  p_ret mouse_extra.

Definition initial_config : Z :=
  Z.lor (Z.lor ConfigFlags.POST_PASSED ConfigFlags.FIRST_DISABLED) ConfigFlags.SECOND_DISABLED.

Definition final_config (mouse_found : bool) (config : Z) : Z :=
  let config := flags_remove config ConfigFlags.FIRST_DISABLED in
  let config := flags_insert config ConfigFlags.FIRST_TRANSLATE in
  let config := flags_insert config ConfigFlags.FIRST_INTERRUPT in
  if mouse_found then
    flags_insert (flags_remove config ConfigFlags.SECOND_DISABLED) ConfigFlags.SECOND_INTERRUPT
  else flags_remove (flags_insert config ConfigFlags.SECOND_DISABLED) ConfigFlags.SECOND_INTERRUPT.

(** Up to the self test. *)
Definition init_reset : pprog unit :=
  _ ← flush_read;
  _ ← ps2_command DisableFirst;
  _ ← ps2_command DisableSecond;
  _ ← flush_read;
  _ ← set_config initial_config;
  flush_read.

(** [assert_eq!(self.read()?, 0x55)]. *)
Definition self_test : pprog unit :=
  _ ← ps2_command TestController;
  v ← ps2_read;
  if v =? 0x55 then p_ret tt else panic.

(** From the devices on. *)
Definition init_devices : pprog (bool * bool) :=
  _ ← init_keyboard;
  r ← attempt init_mouse;
  let '(mouse_found, mouse_extra) := match r with inr ok => (true, ok) | inl _ => (false, false) end in
  _ ← keyboard_command_inner (keyboard_command_code KbEnableReporting);
  _ ← (if mouse_found : bool
       then _ ← mouse_command_inner (mouse_command_code MsEnableReporting); p_ret tt
       else p_ret tt);
  p_ret (mouse_found, mouse_extra).

Definition init_finish (mouse_found mouse_extra : bool) : pprog bool :=
  _ ← set_config (final_config mouse_found initial_config);
  _ ← flush_read;
  p_ret mouse_extra.

Definition ps2_init : pprog bool :=
  _ ← init_reset;
  _ ← self_test;
  _ ← flush_read;
  r ← init_devices;
  init_finish r.1 r.2.
End methods.

(** ** A bus that records the accesses *)

Inductive PortEv : Type := PIn (port v : Z) | POut (port v : Z).

(** The log is newest first. *)
Record Traced (W : Type) := mk_traced { t_bus : W; t_log : list PortEv }.
Arguments mk_traced {W} _ _.
Arguments t_bus {W} _.
Arguments t_log {W} _.

#[export] Instance Traced_bus (W : Type) `{PortBus W} : PortBus (Traced W) := {|
  port_in p t := let '(v, w) := port_in p (t_bus t) in (v, mk_traced w (PIn p v :: t_log t));
  port_out p v t := mk_traced (port_out p v (t_bus t)) (POut p v :: t_log t);
|}.

(** The 8042 handshake: a byte is taken from the data port only right after a
    status that says the output buffer is full, and a byte is written only right
    after a status that says the input buffer is empty. *)
Definition allowed (e : PortEv) (before : list PortEv) : bool :=
  match e, before with
  | PIn 0x60 _, PIn 0x64 st :: _ => Z.testbit st 0
  | PIn 0x60 _, _ => false
  | PIn _ _, _ => true
  | POut _ _, PIn 0x64 st :: _ => negb (Z.testbit st 1)
  | POut _ _, _ => false
  end.

Fixpoint disciplined (log : list PortEv) : bool :=
  match log with
  | [] => true
  | e :: log => allowed e log && disciplined log
  end.

(** The writes, newest first. *)
Fixpoint outs (log : list PortEv) : list (Z * Z) :=
  match log with
  | [] => []
  | POut p v :: log => (p, v) :: outs log
  | PIn _ _ :: log => outs log
  end.

(** [m] keeps the handshake, makes at most [n] port accesses and does not
    panic. *)
Definition wb {W A : Type} (n : Z) (m : prog (Traced W) Ps2Error A) : Prop :=
  ∀ t, disciplined (t_log t) = true →
    disciplined (t_log (m t).2) = true ∧
    Z.of_nat (length (t_log (m t).2)) <= Z.of_nat (length (t_log t)) + n ∧
    (m t).1 ≠ Panic.

Section wb.
Context {W : Type}.

Lemma wb_nonneg {A : Type} (n : Z) (m : prog (Traced W) Ps2Error A) : 0 <= n → (∀ t, (m t).2 = t ∧ (m t).1 ≠ Panic) → wb n m.
Proof. intros Hn Hm t Ht. destruct (Hm t) as [-> Hp]. split; [done|]. split; [lia|done]. Qed.

Lemma wb_ret {A : Type} (a : A) : wb (W := W) 0 (p_ret a).
Proof. by apply wb_nonneg. Qed.

Lemma wb_throw {A : Type} (e : Ps2Error) : wb (W := W) (A := A) 0 (throw e).
Proof. by apply wb_nonneg. Qed.

Lemma wb_bind {A B : Type} (n1 n2 : Z) (m : prog (Traced W) Ps2Error A) (f : A → prog (Traced W) Ps2Error B) :
  wb n1 m → (∀ a, wb n2 (f a)) → wb (n1 + Z.max 0 n2) (p_bind f m).
Proof.
  intros Hm Hf t Ht. destruct (Hm t Ht) as (H1 & H2 & H3). unfold p_bind.
  destruct (m t) as [[a|e|] t1]; simpl in *; [|by split; [|split; [lia|]]|done].
  destruct (Hf a t1 H1) as (H4 & H5 & H6). split; [done|]. split; [lia|done].
Qed.

Lemma wb_attempt {A : Type} (n : Z) (m : prog (Traced W) Ps2Error A) : wb n m → wb n (attempt m).
Proof.
  intros Hm t Ht. destruct (Hm t Ht) as (H1 & H2 & H3). unfold attempt.
  by destruct (m t) as [[a|e|] t1].
Qed.

Lemma wb_if {A : Type} (n1 n2 : Z) (b : bool) (m1 m2 : prog (Traced W) Ps2Error A) :
  wb n1 m1 → wb n2 m2 → wb (Z.max n1 n2) (if b then m1 else m2).
Proof.
  intros H1 H2 t Ht. destruct b; [destruct (H1 t Ht) as (? & ? & ?)|destruct (H2 t Ht) as (? & ? & ?)];
    (split; [done|split; [lia|done]]).
Qed.

Lemma wb_retry (n : Z) (k : nat) (f : prog (Traced W) Ps2Error Z) :
  0 <= n → wb n f → wb (Z.of_nat k * n) (retry k f).
Proof.
  intros Hn Hf. unfold retry. generalize NoMoreTries. induction k as [|k IH]; intros res.
  - by apply wb_throw.
  - replace (Z.of_nat (S k) * n) with (n + Z.max 0 (Z.of_nat k * n)) by nia.
    cbn [retry_loop]. apply wb_bind; [by apply wb_attempt|]. intros [e|v]; [apply IH|].
    apply wb_nonneg; [nia|done].
Qed.
End wb.

(** ** The methods on the recording bus *)

Section traced.
Context {W : Type} `{PortBus W}.

Abbreviation tprog := (prog (Traced W) Ps2Error).

Lemma status_bit (st k : Z) :
  0 <= k < 8 → flags_contains (StatusFlags.from_bits_truncate st) (Z.shiftl 1 k) = Z.testbit st k.
Proof.
  intros Hk. unfold flags_contains, StatusFlags.from_bits_truncate.
  rewrite Z.shiftl_1_l, land_pow2_eqb by lia.
  change 0xFF with (Z.ones 8). rewrite Z.land_spec, Z.ones_spec_low by lia. apply andb_true_r.
Qed.

Lemma status_eq (t : Traced W) :
  ∃ v w, status ps2_new t = (Ok (StatusFlags.from_bits_truncate v), mk_traced w (PIn 0x64 v :: t_log t)).
Proof.
  unfold status, ro_read. simpl. destruct (port_in 0x64 (t_bus t)) as [v w]. by exists v, w.
Qed.

Lemma data_read_eq (t : Traced W) :
  ∃ v w, data_read ps2_new t = (Ok v, mk_traced w (PIn 0x60 v :: t_log t)).
Proof.
  unfold data_read. simpl. destruct (port_in 0x60 (t_bus t)) as [v w]. by exists v, w.
Qed.

(** A polling loop: it only reads the status, at most once per try; it succeeds
    right after a status that passed the test, and fails with its own error. *)
Lemma wait_loop_spec (n : nat) (ready : Z → bool) (e : Ps2Error) (t : Traced W) :
  disciplined (t_log t) = true →
  ∃ t', disciplined (t_log t') = true ∧
    Z.of_nat (length (t_log t')) <= Z.of_nat (length (t_log t)) + Z.of_nat n ∧
    outs (t_log t') = outs (t_log t) ∧
    (wait_loop ps2_new n ready e t = (Err e, t') ∨
     wait_loop ps2_new n ready e t = (Ok tt, t') ∧
     ∃ st log, t_log t' = PIn 0x64 st :: log ∧ ready (StatusFlags.from_bits_truncate st) = true).
Proof.
  revert t. induction n as [|n IH]; intros t Ht.
  { exists t. split; [done|]. split; [lia|]. split; [done|]. by left. }
  destruct (status_eq t) as (v & w & Hs). cbn [wait_loop].
  unfold mbind, prog_bind. rewrite (bind_Ok _ _ _ _ _ Hs).
  destruct (ready _) eqn:Hr.
  - eexists. split; [|split; [|split; [|by right; eauto]]]; simpl; [done|lia|done].
  - destruct (IH (mk_traced w (PIn 0x64 v :: t_log t))) as (t' & H1 & H2 & H3 & H4); [done|].
    exists t'. split; [done|]. split; [simpl in H2; lia|]. by split.
Qed.

Lemma wait_timeout_Z : Z.of_nat WAIT_TIMEOUT = 100000.
Proof. unfold WAIT_TIMEOUT. by rewrite Z2Nat.id. Qed.

Lemma wait_read_spec (t : Traced W) :
  disciplined (t_log t) = true →
  ∃ t', disciplined (t_log t') = true ∧
    Z.of_nat (length (t_log t')) <= Z.of_nat (length (t_log t)) + 100000 ∧
    outs (t_log t') = outs (t_log t) ∧
    (wait_read ps2_new t = (Err ReadTimeout, t') ∨
     wait_read ps2_new t = (Ok tt, t') ∧ ∀ v, allowed (PIn 0x60 v) (t_log t') = true).
Proof.
  intros Ht. destruct (wait_loop_spec WAIT_TIMEOUT
    (λ st, flags_contains st StatusFlags.OUTPUT_FULL) ReadTimeout t Ht) as (t' & H1 & H2 & H3 & H4).
  exists t'. rewrite wait_timeout_Z in H2. split; [done|]. split; [done|]. split; [done|].
  destruct H4 as [H4|(H4 & st & log & Hl & Hr)]; [by left|]. right. split; [done|].
  intros v. rewrite Hl. simpl. rewrite <- Hr. symmetry. apply (status_bit st 0). lia.
Qed.

Lemma wait_write_spec (t : Traced W) :
  disciplined (t_log t) = true →
  ∃ t', disciplined (t_log t') = true ∧
    Z.of_nat (length (t_log t')) <= Z.of_nat (length (t_log t)) + 100000 ∧
    outs (t_log t') = outs (t_log t) ∧
    (wait_write ps2_new t = (Err WriteTimeout, t') ∨
     wait_write ps2_new t = (Ok tt, t') ∧ ∀ p v, allowed (POut p v) (t_log t') = true).
Proof.
  intros Ht. destruct (wait_loop_spec WAIT_TIMEOUT
    (λ st, negb (flags_contains st StatusFlags.INPUT_FULL)) WriteTimeout t Ht) as (t' & H1 & H2 & H3 & H4).
  exists t'. rewrite wait_timeout_Z in H2. split; [done|]. split; [done|]. split; [done|].
  destruct H4 as [H4|(H4 & st & log & Hl & Hr)]; [by left|]. right. split; [done|].
  intros p v. rewrite Hl. simpl. rewrite <- Hr. f_equal. symmetry. apply (status_bit st 1). lia.
Qed.

(** A read: a value from the data port, or a timeout without a write. *)
Lemma ps2_read_spec (t : Traced W) :
  disciplined (t_log t) = true →
  ∃ t', disciplined (t_log t') = true ∧
    Z.of_nat (length (t_log t')) <= Z.of_nat (length (t_log t)) + 100001 ∧
    outs (t_log t') = outs (t_log t) ∧
    (ps2_read ps2_new t = (Err ReadTimeout, t') ∨
     ∃ v log, ps2_read ps2_new t = (Ok v, t') ∧ t_log t' = PIn 0x60 v :: log).
Proof.
  intros Ht. destruct (wait_read_spec t Ht) as (t1 & H1 & H2 & H3 & [H4|[H4 Ha]]);
    unfold ps2_read, mbind, prog_bind, p_bind; rewrite H4.
  - exists t1. split; [done|]. split; [lia|]. split; [done|]. by left.
  - destruct (data_read_eq t1) as (v & w & ->). eexists. split; [|split; [|split; [|by right; eauto]]].
    + cbn [t_log disciplined]. by rewrite Ha, H1.
    + simpl. lia.
    + done.
Qed.

(** A write to the command or the data port. *)
Lemma write_port_spec (p v : Z) (m : Z → tprog unit) (t : Traced W) :
  (∀ t, m v t = (Ok tt, mk_traced (port_out p v (t_bus t)) (POut p v :: t_log t))) →
  disciplined (t_log t) = true →
  ∃ t', disciplined (t_log t') = true ∧
    Z.of_nat (length (t_log t')) <= Z.of_nat (length (t_log t)) + 100001 ∧
    ((_ ← wait_write ps2_new; m v) t = (Err WriteTimeout, t') ∧ outs (t_log t') = outs (t_log t) ∨
     (_ ← wait_write ps2_new; m v) t = (Ok tt, t') ∧ ∃ log, t_log t' = POut p v :: log ∧
       outs log = outs (t_log t)).
Proof.
  intros Hm Ht. destruct (wait_write_spec t Ht) as (t1 & H1 & H2 & H3 & [H4|[H4 Ha]]);
    unfold mbind, prog_bind, p_bind; rewrite H4.
  - exists t1. split; [done|]. split; [lia|]. by left.
  - rewrite Hm. eexists. split; [|split; [|by right; eauto]].
    + cbn [t_log disciplined]. by rewrite Ha, H1.
    + simpl. lia.
Qed.

Lemma ps2_command_spec (c : Command) (t : Traced W) :
  disciplined (t_log t) = true →
  ∃ t', disciplined (t_log t') = true ∧
    Z.of_nat (length (t_log t')) <= Z.of_nat (length (t_log t)) + 100001 ∧
    (ps2_command ps2_new c t = (Err WriteTimeout, t') ∧ outs (t_log t') = outs (t_log t) ∨
     ps2_command ps2_new c t = (Ok tt, t') ∧ ∃ log, t_log t' = POut 0x64 (command_code c) :: log ∧
       outs log = outs (t_log t)).
Proof. by apply write_port_spec. Qed.

Lemma ps2_write_spec (v : Z) (t : Traced W) :
  disciplined (t_log t) = true →
  ∃ t', disciplined (t_log t') = true ∧
    Z.of_nat (length (t_log t')) <= Z.of_nat (length (t_log t)) + 100001 ∧
    (ps2_write ps2_new v t = (Err WriteTimeout, t') ∧ outs (t_log t') = outs (t_log t) ∨
     ps2_write ps2_new v t = (Ok tt, t') ∧ ∃ log, t_log t' = POut 0x60 v :: log ∧
       outs log = outs (t_log t)).
Proof. by apply write_port_spec. Qed.

Lemma wb_read : wb 100001 (ps2_read (W := Traced W) ps2_new).
Proof.
  intros t Ht. destruct (ps2_read_spec t Ht) as (t' & H1 & H2 & _ & [->|(v & log & -> & _)]); done.
Qed.

Lemma wb_command (c : Command) : wb 100001 (ps2_command (W := Traced W) ps2_new c).
Proof.
  intros t Ht. destruct (ps2_command_spec c t Ht) as (t' & H1 & H2 & [[-> _]|[-> _]]); done.
Qed.

Lemma wb_write (v : Z) : wb 100001 (ps2_write (W := Traced W) ps2_new v).
Proof.
  intros t Ht. destruct (ps2_write_spec v t Ht) as (t' & H1 & H2 & [[-> _]|[-> _]]); done.
Qed.

(** Flushing: never an error, no write. *)
Lemma flush_loop_spec (n : nat) (t : Traced W) :
  disciplined (t_log t) = true →
  ∃ t', flush_loop ps2_new n t = (Ok tt, t') ∧ disciplined (t_log t') = true ∧
    Z.of_nat (length (t_log t')) <= Z.of_nat (length (t_log t)) + 2 * Z.of_nat n ∧
    outs (t_log t') = outs (t_log t).
Proof.
  revert t. induction n as [|n IH]; intros t Ht; [exists t; by repeat split; [..|lia]|].
  destruct (status_eq t) as (st & w & Hs). cbn [flush_loop].
  unfold mbind, prog_bind. rewrite (bind_Ok _ _ _ _ _ Hs).
  destruct (flags_contains _ _) eqn:Hf.
  - destruct (data_read_eq (mk_traced w (PIn 0x64 st :: t_log t))) as (v & w' & Hd).
    unfold p_bind at 1 2. rewrite Hd. cbn [p_ret].
    destruct (IH (mk_traced w' (PIn 0x60 v :: PIn 0x64 st :: t_log t))) as (t' & H1 & H2 & H3 & H4).
    { cbn [t_log disciplined allowed]. rewrite Ht.
      change StatusFlags.OUTPUT_FULL with (Z.shiftl 1 0) in Hf.
      rewrite status_bit in Hf by lia. by rewrite Hf. }
    exists t'. split; [done|]. split; [done|]. split; [simpl in H3; lia|done].
  - unfold p_bind. cbn [p_ret].
    destruct (IH (mk_traced w (PIn 0x64 st :: t_log t))) as (t' & H1 & H2 & H3 & H4); [done|].
    exists t'. split; [done|]. split; [done|]. split; [simpl in H3; lia|done].
Qed.

Lemma wb_flush : wb 200 (flush_read (W := Traced W) ps2_new).
Proof.
  intros t Ht. destruct (flush_loop_spec 100 t Ht) as (t' & H1 & H2 & H3 & _).
  unfold flush_read. by rewrite H1.
Qed.
End traced.

(** ** The whole initialisation *)

Lemma wb_le {W A : Type} (n n' : Z) (m : prog (Traced W) Ps2Error A) : wb n m → n <= n' → wb n' m.
Proof. intros Hm Hn t Ht. destruct (Hm t Ht) as (? & ? & ?). split; [done|]. split; [lia|done]. Qed.

Lemma wb_retry_max {W : Type} (n : Z) (k : nat) (f : prog (Traced W) Ps2Error Z) :
  wb n f → wb (Z.of_nat k * Z.max 0 n) (retry k f).
Proof. intros Hf. apply wb_retry; [lia|]. eapply wb_le; [done|lia]. Qed.

(** Derives a bound for a method from the bounds of what it calls. *)
Ltac wb_step :=
  first
    [ apply wb_read | apply wb_command | apply wb_write | apply wb_flush
    | eapply wb_retry_max | eapply wb_attempt | eapply wb_if
    | apply wb_ret | apply wb_throw | eapply wb_bind; [|intros ?] ].

Section init.
Context {W : Type} `{PortBus W}.

Lemma wb_set_config (c : Z) : wb 800008 (set_config (W := Traced W) ps2_new c).
Proof. eapply wb_le; [unfold set_config; repeat wb_step|by vm_compute]. Qed.

Lemma wb_keyboard_inner (c : Z) : wb 200002 (keyboard_command_inner (W := Traced W) ps2_new c).
Proof. eapply wb_le; [unfold keyboard_command_inner; repeat wb_step|by vm_compute]. Qed.

Lemma wb_mouse_inner (c : Z) : wb 300003 (mouse_command_inner (W := Traced W) ps2_new c).
Proof. eapply wb_le; [unfold mouse_command_inner; repeat wb_step|by vm_compute]. Qed.

Lemma wb_keyboard_command (c : KeyboardCommand) :
  wb 800008 (keyboard_command (W := Traced W) ps2_new c).
Proof. apply (wb_retry_max 200002 4), wb_keyboard_inner. Qed.

Lemma wb_mouse_command (c : MouseCommand) : wb 1200012 (mouse_command (W := Traced W) ps2_new c).
Proof. apply (wb_retry_max 300003 4), wb_mouse_inner. Qed.

Lemma wb_keyboard_command_data (c : KeyboardCommandData) (d : Z) :
  wb 1600016 (keyboard_command_data (W := Traced W) ps2_new c d).
Proof.
  eapply wb_le; [unfold keyboard_command_data;
    repeat first [apply wb_keyboard_inner | wb_step]|by vm_compute].
Qed.

Lemma wb_mouse_command_data (c : MouseCommandData) (d : Z) :
  wb 2400024 (mouse_command_data (W := Traced W) ps2_new c d).
Proof.
  eapply wb_le; [unfold mouse_command_data;
    repeat first [apply wb_mouse_inner | wb_step]|by vm_compute].
Qed.

Ltac wb_init_step :=
  first [ apply wb_keyboard_command | apply wb_keyboard_command_data | apply wb_mouse_command
        | apply wb_mouse_command_data | apply wb_set_config | wb_step ].

Lemma wb_init_keyboard : wb 5802258 (init_keyboard (W := Traced W) ps2_new).
Proof. eapply wb_le; [unfold init_keyboard; repeat wb_init_step|by vm_compute]. Qed.

Lemma wb_init_mouse : wb 22903229 (init_mouse (W := Traced W) ps2_new).
Proof. eapply wb_le; [unfold init_mouse, mouse_reset; repeat wb_init_step|by vm_compute]. Qed.

Lemma wb_init_reset : wb 1000610 (init_reset (W := Traced W) ps2_new).
Proof. eapply wb_le; [unfold init_reset; repeat wb_init_step|by vm_compute]. Qed.

Lemma wb_init_devices : wb 29205492 (init_devices (W := Traced W) ps2_new).
Proof.
  eapply wb_le.
  - unfold init_devices. apply wb_bind; [apply wb_init_keyboard|]. intros _.
    apply wb_bind; [apply wb_attempt, wb_init_mouse|]. intros r.
    apply (wb_le 500005); [|done]. destruct r as [e|ok];
      (eapply wb_le; [repeat first [apply wb_keyboard_inner | apply wb_mouse_inner | wb_init_step]
                     |by vm_compute]).
  - by vm_compute.
Qed.

Lemma wb_init_finish (found extra : bool) : wb 800208 (init_finish (W := Traced W) ps2_new found extra).
Proof. eapply wb_le; [unfold init_finish; repeat wb_init_step|by vm_compute]. Qed.

(** The self test is the one place that can panic. *)
Lemma self_test_spec (t : Traced W) :
  disciplined (t_log t) = true →
  disciplined (t_log (self_test ps2_new t).2) = true ∧
  Z.of_nat (length (t_log (self_test ps2_new t).2)) <= Z.of_nat (length (t_log t)) + 200002 ∧
  ((self_test ps2_new t).1 = Panic →
   ∃ v log, t_log (self_test ps2_new t).2 = PIn 0x60 v :: log ∧ v ≠ 0x55 ∧
            head (outs log) = Some (0x64, command_code TestController)).
Proof.
  intros Ht. unfold self_test, mbind, prog_bind, p_bind.
  destruct (ps2_command_spec TestController t Ht) as (t1 & H1 & H2 & [[-> _]|[-> (lg & Hl & _)]]).
  { split; [done|]. split; [simpl; lia|done]. }
  destruct (ps2_read_spec t1 H1) as (t2 & H3 & H4 & H5 & [->|(v & log & -> & Hv)]).
  { split; [done|]. split; [simpl; lia|done]. }
  destruct (v =? 0x55) eqn:Ev; (split; [done|]; split; [simpl; lia|]); [done|].
  intros _. exists v, log. split; [done|]. apply Z.eqb_neq in Ev. split; [done|].
  rewrite Hl, Hv in H5. simpl in H5. by rewrite H5.
Qed.
End init.

Section init_theorems.
Context {W : Type} `{PortBus W}.

(** Same as [wb], but [m] may panic in a state that satisfies [P]. *)
Definition wbp {A : Type} (n : Z) (P : Traced W → Prop) (m : prog (Traced W) Ps2Error A) : Prop :=
  ∀ t, disciplined (t_log t) = true →
    disciplined (t_log (m t).2) = true ∧
    Z.of_nat (length (t_log (m t).2)) <= Z.of_nat (length (t_log t)) + n ∧
    ((m t).1 = Panic → P (m t).2).

Lemma wb_wbp {A : Type} (n : Z) (P : Traced W → Prop) (m : prog (Traced W) Ps2Error A) :
  wb n m → wbp n P m.
Proof. intros Hm t Ht. destruct (Hm t Ht) as (? & ? & ?). by repeat split. Qed.

Lemma wbp_le {A : Type} (n n' : Z) (P : Traced W → Prop) (m : prog (Traced W) Ps2Error A) :
  wbp n P m → n <= n' → wbp n' P m.
Proof. intros Hm Hn t Ht. destruct (Hm t Ht) as (? & ? & ?). split; [done|]. split; [lia|done]. Qed.

Lemma wbp_bind {A B : Type} (n1 n2 : Z) (P : Traced W → Prop) (m : prog (Traced W) Ps2Error A)
    (f : A → prog (Traced W) Ps2Error B) :
  wbp n1 P m → (∀ a, wbp n2 P (f a)) → wbp (n1 + Z.max 0 n2) P (p_bind f m).
Proof.
  intros Hm Hf t Ht. destruct (Hm t Ht) as (H1 & H2 & H3). unfold p_bind.
  destruct (m t) as [[a|e|] t1]; simpl in *.
  - destruct (Hf a t1 H1) as (H4 & H5 & H6). split; [done|]. split; [lia|done].
  - split; [done|]. split; [lia|done].
  - split; [done|]. split; [lia|]. intros _. by apply H3.
Qed.

(** The last access read a wrong answer to the self test. *)
Definition self_test_failed (t : Traced W) : Prop :=
  ∃ v log, t_log t = PIn 0x60 v :: log ∧ v ≠ 0x55 ∧
           head (outs log) = Some (0x64, command_code TestController).

Lemma self_test_wbp : wbp 200002 self_test_failed (self_test (W := Traced W) ps2_new).
Proof. intros t Ht. by apply self_test_spec. Qed.

(** C5. Whatever the hardware does, the initialisation of the controller follows
    the 8042 handshake at every single port access: it takes a byte from the data
    port only right after a status read that showed the output buffer full, and it
    writes a command or data byte only right after a status read that showed the
    input buffer empty. It always returns, after at most 31206512 port accesses. Its
    only panic is the controller answering the self test (the last byte written
    being the TestController command) with something else than 0x55. *)
Theorem init_handshake_bounded (w : W) :
  let r := ps2_init ps2_new (mk_traced w []) in
  disciplined (t_log r.2) = true ∧
  Z.of_nat (length (t_log r.2)) <= 31206512 ∧
  (r.1 = Panic → self_test_failed r.2).
Proof.
  assert (wbp 31206512 self_test_failed (ps2_init (W := Traced W) ps2_new)) as Hwb.
  { eapply wbp_le.
    - unfold ps2_init. apply wbp_bind; [eapply wb_wbp, wb_init_reset|intros _].
      apply wbp_bind; [apply self_test_wbp|intros _]. apply wb_wbp.
      apply wb_bind; [apply wb_flush|intros _]. apply wb_bind; [apply wb_init_devices|intros r].
      apply wb_init_finish.
    - by vm_compute. }
  exact (Hwb (mk_traced w []) eq_refl).
Qed.

(** A successful [retry] ends with a successful run of its body. *)
Lemma retry_Ok_inv (k : nat) (n : Z) (f : prog (Traced W) Ps2Error Z) (v : Z) (t t' : Traced W) :
  wb n f → disciplined (t_log t) = true → retry k f t = (Ok v, t') →
  ∃ t1, disciplined (t_log t1) = true ∧ f t1 = (Ok v, t').
Proof.
  intros Hf. unfold retry. generalize NoMoreTries. revert t.
  induction k as [|k IH]; intros t e Ht Hr; [done|]. cbn [retry_loop] in Hr.
  apply bind_inv_Ok in Hr as (r & t1 & Ha & Hr). unfold attempt in Ha.
  destruct (Hf t Ht) as (H1 & _ & _). destruct (f t) as [[a|e'|] t2] eqn:Ef; simplify_eq.
  - injection Hr as <- <-. by exists t.
  - by apply (IH t1 e').
Qed.

Lemma set_config_outs (c : Z) (t t' : Traced W) :
  disciplined (t_log t) = true → set_config ps2_new c t = (Ok tt, t') →
  disciplined (t_log t') = true ∧
  ∃ rest, outs (t_log t') = (0x60, c) :: (0x64, command_code WriteConfig) :: rest.
Proof.
  intros Ht Hs. unfold set_config in Hs. apply bind_inv_Ok in Hs as (v & t2 & Hr & [= ->]).
  apply (retry_Ok_inv 4 200002) in Hr as (t1 & H1 & Hr); [|eapply wb_le; [repeat wb_step|by vm_compute]|done].
  apply bind_inv_Ok in Hr as (u & t3 & Hc & Hr). apply bind_inv_Ok in Hr as (u' & t4 & Hw & [= _ ->]).
  destruct (ps2_command_spec WriteConfig t1 H1) as (t5 & H5 & _ & [[Hx _]|(Hx & lg & Hl & Ho)]);
    rewrite Hx in Hc; simplify_eq.
  destruct (ps2_write_spec c t3 H5) as (t6 & H6 & _ & [[Hx' _]|(Hx' & lg' & Hl' & Ho')]);
    rewrite Hx' in Hw; simplify_eq.
  split; [done|]. exists (outs lg). rewrite Hl'. simpl. by rewrite Ho', Hl.
Qed.

(** When the initialisation succeeds, the last two bytes written to the
    controller are the WriteConfig command and the final configuration: both ports
    clocked and interrupting with translation (0x47) when the mouse was found, the
    keyboard port only with the second port disabled (0x65) when it was not; the
    extra-packet mode is reported only for a mouse that was found. *)
Theorem init_final_config (w : W) (extra : bool) (t' : Traced W)
    (Hi : ps2_init ps2_new (mk_traced w []) = (Ok extra, t')) :
  ∃ found rest,
    outs (t_log t') = (0x60, if found : bool then 0x47 else 0x65) :: (0x64, 0x60) :: rest ∧
    (extra = true → found = true).
Proof.
  unfold ps2_init in Hi. set (t0 := mk_traced w []) in Hi.
  assert (disciplined (t_log t0) = true) as H0 by done.
  apply bind_inv_Ok in Hi as (u1 & t1 & H1 & Hi). apply bind_inv_Ok in Hi as (u2 & t2 & H2 & Hi).
  apply bind_inv_Ok in Hi as (u3 & t3 & H3 & Hi). apply bind_inv_Ok in Hi as ([found ex] & t4 & H4 & Hi).
  apply bind_inv_Ok in Hi as (u5 & t5 & H5 & Hi). apply bind_inv_Ok in Hi as (u6 & t6 & H6 & [= -> ->]).
  destruct (wb_init_reset t0 H0) as (D1 & _). rewrite H1 in D1. simpl in D1.
  destruct (self_test_spec t1 D1) as (D2 & _). rewrite H2 in D2. simpl in D2.
  destruct (wb_flush t2 D2) as (D3 & _). rewrite H3 in D3. simpl in D3.
  destruct (wb_init_devices t3 D3) as (D4 & _). rewrite H4 in D4. simpl in D4.
  destruct u5. destruct (set_config_outs _ t4 t5 D4 H5) as (D5 & rest & Ho).
  destruct (flush_loop_spec 100 t5 D5) as (t7 & H7 & _ & _ & Hf).
  unfold flush_read in H6. rewrite H7 in H6. simplify_eq.
  exists found, rest. split; [by rewrite Hf, Ho; destruct found|].
  simpl. intros ->. unfold init_devices in H4.
  apply bind_inv_Ok in H4 as (? & ? & _ & H4). apply bind_inv_Ok in H4 as (r & ? & _ & H4).
  destruct r; apply bind_inv_Ok in H4 as (? & ? & _ & H4); apply bind_inv_Ok in H4 as (? & ? & _ & [= ? ? ?]);
    by subst.
Qed.
End init_theorems.

(** ** Retries *)

(** [n] failing runs of [f] in a row: the last error and the state. *)
Fixpoint fail_run {W : Type} (n : nat) (f : prog W Ps2Error Z) (e : Ps2Error) (w : W)
    : option (Ps2Error * W) :=
  match n with
  | O => Some (e, w)
  | S n => match f w with (Err e', w') => fail_run n f e' w' | _ => None end
  end.

(** [retry] runs its body until the first run that does not fail and answers
    with that run's value; a body that fails every time is run exactly [retries]
    times and the answer is the last error ([NoMoreTries] without a single run). *)
Theorem retry_first_success {W : Type} (k : nat) (f : prog W Ps2Error Z) (w : W) :
  ∃ n e w1, fail_run n f NoMoreTries w = Some (e, w1) ∧
    ((n < k)%nat ∧ (∀ e', (f w1).1 ≠ Err e') ∧ retry k f w = f w1 ∨
     n = k ∧ retry k f w = (Err e, w1)).
Proof.
  unfold retry. generalize NoMoreTries. revert w.
  induction k as [|k IH]; intros w e0; [exists 0%nat, e0, w; by auto|].
  cbn [retry_loop]. unfold mbind, prog_bind, p_bind, attempt.
  destruct (f w) as [[v|e|] w'] eqn:Hf.
  - exists 0%nat, e0, w. split; [done|]. left. split; [lia|]. by rewrite Hf.
  - destruct (IH w' e) as (n & e1 & w1 & Hn & Hc). exists (S n), e1, w1. split; [simpl; by rewrite Hf|].
    destruct Hc as [(Hlt & Hne & ->)|(-> & ->)]; [left; split; [lia|done]|by right].
  - exists 0%nat, e0, w. split; [done|]. left. split; [lia|]. by rewrite Hf.
Qed.

(** ** A controller to run against *)

(** A minimal 8042 with a keyboard and a wheel mouse that answer at once. *)
Inductive SimTarget : Type := ToKeyboard | ToMouse | ToConfig.

Record Sim := mk_sim { sim_queue : list Z; sim_target : SimTarget; sim_config : Z }.

Definition sim_out (p v : Z) (s : Sim) : Sim :=
  let push bs := mk_sim (sim_queue s ++ bs) ToKeyboard (sim_config s) in
  if p =? 0x64 then
    if v =? 0x60 then mk_sim (sim_queue s) ToConfig (sim_config s)
    else if v =? 0xD4 then mk_sim (sim_queue s) ToMouse (sim_config s)
    else if v =? 0xAA then push [0x55] else push []
  else
    match sim_target s with
    | ToConfig => mk_sim (sim_queue s) ToKeyboard v
    | ToKeyboard => if v =? 0xFF then push [0xFA; 0xAA] else push [0xFA]
    | ToMouse =>
        if v =? 0xFF then push [0xFA; 0xAA; 0x00] else if v =? 0xF2 then push [0xFA; 3]
        else if v =? 0xE9 then push [0xFA; 0; 3; 200] else push [0xFA]
    end.

Definition sim_in (p : Z) (s : Sim) : Z * Sim :=
  if p =? 0x64 then (match sim_queue s with [] => 0 | _ => 1 end, s)
  else match sim_queue s with
       | [] => (0, s)
       | b :: q => (b, mk_sim q (sim_target s) (sim_config s))
       end.

#[local] Instance Sim_bus : PortBus Sim := {| port_in := sim_in; port_out := sim_out |}.

Definition sim_boot : Sim := mk_sim [0x1C; 0x9C] ToKeyboard 0x77.

Lemma init_final_config_witness :
  ∃ t', ps2_init ps2_new (mk_traced sim_boot []) = (Ok true, t') ∧
    ∃ found rest,
      outs (t_log t') = (0x60, if found : bool then 0x47 else 0x65) :: (0x64, 0x60) :: rest ∧
      (true = true → found = true).
Proof.
  assert ((ps2_init ps2_new (mk_traced sim_boot [])).1 = Ok true) as E by (vm_compute; reflexivity).
  destruct (ps2_init ps2_new (mk_traced sim_boot [])) as [r t'] eqn:Hi. simpl in E. subst r.
  exists t'. split; [done|]. exact (init_final_config sim_boot true t' Hi).
Defined.
