(* ===== verification/Ps2Keymap.v ===== *)
(** Keyboard layouts (input/ps2d/src/keymap.rs, and the layout selection of
    input/ps2d/src/main.rs).

    A layout is a table from scan codes to the plain and the shifted character;
    characters are code points.  The theorems are about the tables as data: what can
    be typed with them, and that no character is in two places. *)

From Stdlib Require Import Ascii.
From S2P Require Import Prelude.

(** The code point of an ASCII character. *)
Definition ch (s : string) : Z :=
  match s with String c _ => Z.of_nat (Ascii.nat_of_ascii c) | EmptyString => 0 end.

(** ** The tables *)

Definition US : list (Z * Z) :=
  [(0, 0); (0x1B, 0x1B); (ch "1", ch "!"); (ch "2", ch "@"); (ch "3", ch "#");
   (ch "4", ch "$"); (ch "5", ch "%"); (ch "6", ch "^"); (ch "7", ch "&"); (ch "8", ch "*");
   (ch "9", ch "("); (ch "0", ch ")"); (ch "-", ch "_"); (ch "=", ch "+"); (0x7F, 0x7F);
   (0x9, 0x9); (ch "q", ch "Q"); (ch "w", ch "W"); (ch "e", ch "E"); (ch "r", ch "R");
   (ch "t", ch "T"); (ch "y", ch "Y"); (ch "u", ch "U"); (ch "i", ch "I"); (ch "o", ch "O");
   (ch "p", ch "P"); (ch "[", ch "{"); (ch "]", ch "}"); (0xA, 0xA); (0, 0); (ch "a", ch "A");
   (ch "s", ch "S"); (ch "d", ch "D"); (ch "f", ch "F"); (ch "g", ch "G"); (ch "h", ch "H");
   (ch "j", ch "J"); (ch "k", ch "K"); (ch "l", ch "L"); (ch ";", ch ":"); (ch "'", 0x22);
   (ch "`", ch "~"); (0, 0); (ch "\", ch "|"); (ch "z", ch "Z"); (ch "x", ch "X");
   (ch "c", ch "C"); (ch "v", ch "V"); (ch "b", ch "B"); (ch "n", ch "N"); (ch "m", ch "M");
   (ch ",", ch "<"); (ch ".", ch ">"); (ch "/", ch "?"); (0, 0); (0, 0); (0, 0);
   (ch " ", ch " ")].

Definition GB : list (Z * Z) :=
  [(0, 0); (0x1B, 0x1B); (ch "1", ch "!"); (ch "2", 0x22); (ch "3", 0xA3); (ch "4", ch "$");
   (ch "5", ch "%"); (ch "6", ch "^"); (ch "7", ch "&"); (ch "8", ch "*"); (ch "9", ch "(");
   (ch "0", ch ")"); (ch "-", ch "_"); (ch "=", ch "+"); (0x7F, 0x7F); (0x9, 0x9);
   (ch "q", ch "Q"); (ch "w", ch "W"); (ch "e", ch "E"); (ch "r", ch "R"); (ch "t", ch "T");
   (ch "y", ch "Y"); (ch "u", ch "U"); (ch "i", ch "I"); (ch "o", ch "O"); (ch "p", ch "P");
   (ch "[", ch "{"); (ch "]", ch "}"); (0xA, 0xA); (0, 0); (ch "a", ch "A"); (ch "s", ch "S");
   (ch "d", ch "D"); (ch "f", ch "F"); (ch "g", ch "G"); (ch "h", ch "H"); (ch "j", ch "J");
   (ch "k", ch "K"); (ch "l", ch "L"); (ch ";", ch ":"); (ch "'", ch "@"); (ch "`", 0xAC);
   (0, 0); (ch "#", ch "~"); (ch "z", ch "Z"); (ch "x", ch "X"); (ch "c", ch "C");
   (ch "v", ch "V"); (ch "b", ch "B"); (ch "n", ch "N"); (ch "m", ch "M"); (ch ",", ch "<");
   (ch ".", ch ">"); (ch "/", ch "?"); (0, 0); (0, 0); (0, 0); (ch " ", ch " "); (0, 0);
   (0, 0); (0, 0); (0, 0); (0, 0); (0, 0); (0, 0); (0, 0); (0, 0); (0, 0); (0, 0); (0, 0);
   (0, 0); (0, 0); (0, 0); (0, 0); (0, 0); (0, 0); (0, 0); (0, 0); (0, 0); (0, 0); (0, 0);
   (0, 0); (0, 0); (0, 0); (0, 0); (0, 0); (ch "\", ch "|")].

Definition DVORAK : list (Z * Z) :=
  [(0, 0); (0x1B, 0x1B); (ch "1", ch "!"); (ch "2", ch "@"); (ch "3", ch "#");
   (ch "4", ch "$"); (ch "5", ch "%"); (ch "6", ch "^"); (ch "7", ch "&"); (ch "8", ch "*");
   (ch "9", ch "("); (ch "0", ch ")"); (ch "[", ch "{"); (ch "]", ch "}"); (0x7F, 0x7F);
   (0x9, 0x9); (ch "'", 0x22); (ch ",", ch "<"); (ch ".", ch ">"); (ch "p", ch "P");
   (ch "y", ch "Y"); (ch "f", ch "F"); (ch "g", ch "G"); (ch "c", ch "C"); (ch "r", ch "R");
   (ch "l", ch "L"); (ch "/", ch "?"); (ch "=", ch "+"); (0xA, 0xA); (0, 0); (ch "a", ch "A");
   (ch "o", ch "O"); (ch "e", ch "E"); (ch "u", ch "U"); (ch "i", ch "I"); (ch "d", ch "D");
   (ch "h", ch "H"); (ch "t", ch "T"); (ch "n", ch "N"); (ch "s", ch "S"); (ch "-", ch "_");
   (ch "`", ch "~"); (0, 0); (ch "\", ch "|"); (ch ";", ch ":"); (ch "q", ch "Q");
   (ch "j", ch "J"); (ch "k", ch "K"); (ch "x", ch "X"); (ch "b", ch "B"); (ch "m", ch "M");
   (ch "w", ch "W"); (ch "v", ch "V"); (ch "z", ch "Z"); (0, 0); (0, 0); (0, 0);
   (ch " ", ch " ")].

Definition AZERTY : list (Z * Z) :=
  [(0, 0); (0x1B, 0x1B); (ch "&", ch "1"); (0xE9, ch "2"); (0x22, ch "3"); (ch "'", ch "4");
   (ch "(", ch "5"); (ch "|", ch "6"); (0xE8, ch "7"); (ch "_", ch "8"); (0xE7, ch "9");
   (0xE0, ch "0"); (ch ")", 0xB0); (ch "=", ch "+"); (0x7F, 0x7F); (0x9, 0x9);
   (ch "a", ch "A"); (ch "z", ch "Z"); (ch "e", ch "E"); (ch "r", ch "R"); (ch "t", ch "T");
   (ch "y", ch "Y"); (ch "u", ch "U"); (ch "i", ch "I"); (ch "o", ch "O"); (ch "p", ch "P");
   (ch "^", 0xA8); (ch "$", 0xA3); (0xA, 0xA); (0, 0); (ch "q", ch "Q"); (ch "s", ch "S");
   (ch "d", ch "D"); (ch "f", ch "F"); (ch "g", ch "G"); (ch "h", ch "H"); (ch "j", ch "J");
   (ch "k", ch "K"); (ch "l", ch "L"); (ch "m", ch "M"); (0xF9, ch "%"); (ch "*", 0xB5);
   (0, 0); (0xEA, 0xCA); (ch "w", ch "W"); (ch "x", ch "X"); (ch "c", ch "C");
   (ch "v", ch "V"); (ch "b", ch "B"); (ch "n", ch "N"); (ch ",", ch "?"); (ch ";", ch ".");
   (ch ":", ch "/"); (ch "!", 0xA7); (0, 0); (0, 0); (0, 0); (ch " ", ch " ")].

Definition BEPO : list (Z * Z) :=
  [(0, 0); (0x1B, 0x1B); (0x22, ch "1"); (0xAB, ch "2"); (0xBB, ch "3"); (ch "(", ch "4");
   (ch ")", ch "5"); (ch "@", ch "6"); (ch "+", ch "7"); (ch "-", ch "8"); (ch "/", ch "9");
   (ch "*", ch "0"); (ch "=", 0xB0); (ch "%", ch "`"); (0x7F, 0x7F); (0x9, 0x9);
   (ch "b", ch "B"); (0xE9, 0xC9); (ch "p", ch "P"); (ch "o", ch "O"); (0xE8, 0xC8);
   (ch "^", ch "!"); (ch "v", ch "V"); (ch "d", ch "D"); (ch "l", ch "L"); (ch "j", ch "J");
   (ch "z", ch "Z"); (ch "w", ch "W"); (0xA, 0xA); (0, 0); (ch "a", ch "A"); (ch "u", ch "U");
   (ch "i", ch "I"); (ch "e", ch "E"); (ch ",", ch ";"); (ch "c", ch "C"); (ch "t", ch "T");
   (ch "s", ch "S"); (ch "r", ch "R"); (ch "n", ch "N"); (ch "m", ch "M"); (0xE7, 0xC7);
   (0, 0); (0xEA, 0xCA); (0xE0, 0xC0); (ch "y", ch "Y"); (ch "x", ch "X"); (ch ".", ch ":");
   (ch "k", ch "K"); (ch "'", ch "?"); (ch "q", ch "Q"); (ch "g", ch "G"); (ch "h", ch "H");
   (ch "f", ch "F"); (0, 0); (0, 0); (0, 0); (ch " ", ch " ")].

Definition IT : list (Z * Z) :=
  [(0, 0); (0x1B, 0x1B); (ch "1", ch "!"); (ch "2", 0x22); (ch "3", 0xA3); (ch "4", ch "$");
   (ch "5", ch "%"); (ch "6", ch "&"); (ch "7", ch "/"); (ch "8", ch "("); (ch "9", ch ")");
   (ch "0", ch "="); (ch "?", ch "'"); (0xEC, ch "^"); (0x7F, 0x7F); (0x9, 0x9);
   (ch "q", ch "Q"); (ch "w", ch "W"); (ch "e", ch "E"); (ch "r", ch "R"); (ch "t", ch "T");
   (ch "y", ch "Y"); (ch "u", ch "U"); (ch "i", ch "I"); (ch "o", ch "O"); (ch "p", ch "P");
   (0xE8, 0xE9); (ch "+", ch "*"); (0xA, 0xA); (ch " ", ch " "); (ch "a", ch "A");
   (ch "s", ch "S"); (ch "d", ch "D"); (ch "f", ch "F"); (ch "g", ch "G"); (ch "h", ch "H");
   (ch "j", ch "J"); (ch "k", ch "K"); (ch "l", ch "L"); (0xF2, 0xE7); (0xE0, 0xB0);
   (0xF9, 0xA7); (0, 0); (ch "<", ch ">"); (ch "z", ch "Z"); (ch "x", ch "X");
   (ch "c", ch "C"); (ch "v", ch "V"); (ch "b", ch "B"); (ch "n", ch "N"); (ch "m", ch "M");
   (ch ",", ch ";"); (ch ".", ch ":"); (ch "-", ch "_"); (0, 0); (0, 0); (0, 0);
   (ch " ", ch " ")].

(** ** Lookup *)

Definition get_char (table : list (Z * Z)) (scancode : Z) (shift : bool) : Z :=
  match table !! Z.to_nat scancode with
  | Some c => if shift then c.2 else c.1
  | None => 0
  end.

Definition us_get_char : Z → bool → Z := get_char US.

Definition gb_get_char : Z → bool → Z := get_char GB.

Definition dvorak_get_char : Z → bool → Z := get_char DVORAK.

Definition azerty_get_char : Z → bool → Z := get_char AZERTY.

Definition bepo_get_char : Z → bool → Z := get_char BEPO.

Definition it_get_char : Z → bool → Z := get_char IT.

(** [to_lowercase] of an ASCII argument. *)
Definition lower_ascii (c : Ascii.ascii) : Ascii.ascii :=
  let n := Ascii.nat_of_ascii c in
  if ((65 <=? n) && (n <=? 90))%nat then Ascii.ascii_of_nat (n + 32) else c.

Fixpoint to_lowercase (s : string) : string :=
  match s with EmptyString => EmptyString | String c s => String (lower_ascii c) (to_lowercase s) end.

(** The layout named on the command line. *)
Definition select_keymap (arg : option string) : (Z → bool → Z) * string :=
  match arg with
  | Some k =>
      let k := to_lowercase k in
      if decide (k = "dvorak") then (dvorak_get_char, "dvorak")
      else if decide (k = "us") then (us_get_char, "us")
      else if decide (k = "gb") then (gb_get_char, "gb")
      else if decide (k = "azerty") then (azerty_get_char, "azerty")
      else if decide (k = "bepo") then (bepo_get_char, "bepo")
      else if decide (k = "it") then (it_get_char, "it")
      else (us_get_char, "us")
  | None => (us_get_char, "us")
  end.

(** ** What can be typed *)

Definition is_letter (c : Z) : bool := (97 <=? c) && (c <=? 122).

Definition is_printable (c : Z) : bool := (32 <=? c) && (c <=? 126).

(** Every key press of a layout with a character: the character, the scan code and
    the shift state. *)
Definition presses (table : list (Z * Z)) : list (Z * (Z * bool)) :=
  mjoin (imap (λ i c, [(c.1, (Z.of_nat i, false)); (c.2, (Z.of_nat i, true))]) table).

Lemma elem_of_presses (table : list (Z * Z)) (c sc : Z) (sh : bool) :
  (c, (sc, sh)) ∈ presses table ↔
  0 <= sc < Z.of_nat (length table) ∧ get_char table sc sh = c.
Proof.
  unfold presses, get_char. rewrite list_elem_of_join. split.
  - intros (l & Hc & (i & p & -> & Hi)%elem_of_lookup_imap).
    assert (i < length table)%nat by (by apply lookup_lt_is_Some; eexists).
    rewrite !elem_of_cons, elem_of_nil in Hc.
    destruct Hc as [[= -> -> ->]|[[= -> -> ->]|[]]]; rewrite Nat2Z.id, Hi; by split; [lia|].
  - intros [Hr Hc]. destruct (lookup_lt_is_Some_2 table (Z.to_nat sc)) as [p Hp]; [lia|].
    rewrite Hp in Hc. exists [(p.1, (sc, false)); (p.2, (sc, true))]. split.
    + destruct sh; subst c; rewrite !elem_of_cons; auto.
    + apply elem_of_lookup_imap. exists (Z.to_nat sc), p. rewrite Z2Nat.id by lia. done.
Qed.

(** The presses of a character. *)
Definition presses_of (table : list (Z * Z)) (c : Z) : list (Z * bool) :=
  (filter (λ p, p.1 = c) (presses table)).*2.

Lemma elem_of_presses_of (table : list (Z * Z)) (c sc : Z) (sh : bool) :
  (sc, sh) ∈ presses_of table c ↔ 0 <= sc < Z.of_nat (length table) ∧ get_char table sc sh = c.
Proof.
  unfold presses_of. rewrite <- elem_of_presses, list_elem_of_fmap. split.
  - intros ([c' [sc' sh']] & [= -> ->] & [Hc Hin]%list_elem_of_filter). simpl in Hc. by subst.
  - intros Hin. exists (c, (sc, sh)). split; [done|]. by apply list_elem_of_filter.
Qed.

(** Code points from [lo], [n] of them. *)
Definition code_range (lo : Z) (n : nat) : list Z := (λ i, lo + Z.of_nat i) <$> seq 0 n.

Lemma elem_of_code_range (lo c : Z) (n : nat) :
  c ∈ code_range lo n ↔ lo <= c < lo + Z.of_nat n.
Proof.
  unfold code_range. rewrite list_elem_of_fmap. split.
  - intros (i & -> & Hi%elem_of_seq). lia.
  - intros Hc. exists (Z.to_nat (c - lo)). split; [lia|]. apply elem_of_seq. lia.
Qed.

Definition layouts : list (list (Z * Z)) := [US; GB; DVORAK; AZERTY; BEPO; IT].

(** Exactly one press, decided by computation. *)
Definition one_press (table : list (Z * Z)) (c : Z) : bool :=
  bool_decide (length (presses_of table c) = 1%nat).

Lemma one_press_unique (table : list (Z * Z)) (c : Z) :
  one_press table c = true →
  ∃ sc sh, get_char table sc sh = c ∧ 0 <= sc < Z.of_nat (length table) ∧
    ∀ sc' sh', 0 <= sc' < Z.of_nat (length table) → get_char table sc' sh' = c →
               sc' = sc ∧ sh' = sh.
Proof.
  intros H1%bool_decide_eq_true. destruct (presses_of table c) as [|[sc sh] [|? ?]] eqn:Hp; try done.
  exists sc, sh. assert ((sc, sh) ∈ presses_of table c) as Hin by (rewrite Hp; constructor).
  apply elem_of_presses_of in Hin as [Hr Hc]. split; [done|]. split; [done|].
  intros sc' sh' Hr' Hc'. assert ((sc', sh') ∈ presses_of table c) as Hin' by (by apply elem_of_presses_of).
  rewrite Hp in Hin'. apply list_elem_of_singleton in Hin'. by simplify_eq.
Qed.

(** With the US, GB and Dvorak layouts every printable ASCII character can be
    typed, and by exactly one combination of key and shift. *)
Theorem ascii_layouts_complete (table : list (Z * Z)) (c : Z)
    (Ht : table ∈ [US; GB; DVORAK]) (Hc : 33 <= c <= 126) :
  ∃ sc sh, get_char table sc sh = c ∧ 0 <= sc < Z.of_nat (length table) ∧
    ∀ sc' sh', 0 <= sc' < Z.of_nat (length table) → get_char table sc' sh' = c →
               sc' = sc ∧ sh' = sh.
Proof.
  assert (Forall (λ t, Forall (λ c, one_press t c = true) (code_range 33 94)) [US; GB; DVORAK]) as Hall.
  { apply (bool_decide_unpack _). vm_compute. exact I. }
  rewrite Forall_forall in Hall. specialize (Hall _ Ht). rewrite Forall_forall in Hall.
  apply one_press_unique, Hall, elem_of_code_range. lia.
Qed.

(** The only press of [c] is unshifted, and shift gives the upper case. *)
Definition letter_ok (table : list (Z * Z)) (c : Z) : bool :=
  one_press table c &&
  match presses_of table c with (sc, false) :: _ => get_char table sc true =? c - 32 | _ => false end.

(** In all six layouts the keys carry each lower case letter exactly once,
    unshifted, and shift turns it into the upper case letter. *)
Theorem letters_shift_to_upper (table : list (Z * Z)) (c : Z)
    (Ht : table ∈ layouts) (Hc : is_letter c = true) :
  ∃ sc, get_char table sc false = c ∧ get_char table sc true = c - 32 ∧
    ∀ sc' sh', 0 <= sc' < Z.of_nat (length table) → get_char table sc' sh' = c →
               sc' = sc ∧ sh' = false.
Proof.
  assert (Forall (λ t, Forall (λ c, letter_ok t c = true) (code_range 97 26)) layouts) as Hall.
  { apply (bool_decide_unpack _). vm_compute. exact I. }
  rewrite Forall_forall in Hall. specialize (Hall _ Ht). rewrite Forall_forall in Hall.
  unfold is_letter in Hc.
  assert (letter_ok table c = true) as [H1 H2]%andb_true_iff
    by (apply Hall, elem_of_code_range; lia).
  destruct (one_press_unique table c H1) as (sc & sh & Hg & Hr & Hu).
  assert ((sc, sh) ∈ presses_of table c) as Hin by (by apply elem_of_presses_of).
  apply bool_decide_eq_true in H1.
  destruct (presses_of table c) as [|[sc1 [|]] [|? ?]]; try done.
  apply list_elem_of_singleton in Hin. simplify_eq. apply Z.eqb_eq in H2. by exists sc1.
Qed.

(** Scan codes of the modifier keys: control, both shifts, alt. *)
Definition modifier_keys : list Z := [0x1D; 0x2A; 0x36; 0x38].

(** Modifier keys carry no character ([\0]) in any layout, shifted or not,
    with one exception: the control key of the Italian layout types a space. *)
Theorem modifiers_silent_except_it (table : list (Z * Z)) (sc : Z) (sh : bool)
    (Ht : table ∈ layouts) (Hs : sc ∈ modifier_keys) :
  get_char table sc sh =
    if decide (table = IT ∧ sc = 0x1D) then ch " " else 0.
Proof.
  assert (Forall (λ t, Forall (λ sc, get_char t sc sh = if decide (t = IT ∧ sc = 0x1D) then ch " " else 0)
            modifier_keys) layouts) as Hall.
  { destruct sh; apply (bool_decide_unpack _); vm_compute; exact I. }
  rewrite Forall_forall in Hall. specialize (Hall _ Ht). rewrite Forall_forall in Hall. by apply Hall.
Qed.

(** The layout argument: the name is taken case-insensitively, every layout
    can be selected, and anything else, or no argument, selects US. *)
Theorem select_keymap_spec (arg : string) :
  select_keymap None = (us_get_char, "us") ∧
  (select_keymap (Some arg)).2 =
    (if decide (to_lowercase arg ∈ ["dvorak"; "us"; "gb"; "azerty"; "bepo"; "it"])
     then to_lowercase arg else "us") ∧
  ∃ table, (table, (select_keymap (Some arg)).2) ∈
             [(DVORAK, "dvorak"); (US, "us"); (GB, "gb"); (AZERTY, "azerty"); (BEPO, "bepo"); (IT, "it")] ∧
           (select_keymap (Some arg)).1 = get_char table.
Proof.
  split; [done|]. unfold select_keymap. split.
  - repeat (case_decide; [by subst; rewrite decide_True by set_solver|]).
    rewrite decide_False; [done|]. rewrite !elem_of_cons, elem_of_nil. tauto.
  - repeat (case_decide; [eexists; split; [|done]; simpl; rewrite !elem_of_cons; tauto|]).
    exists US. split; [|done]. simpl. rewrite !elem_of_cons. tauto.
Qed.

(** ** Witnesses *)

Lemma ascii_layouts_complete_witness :
  ∃ sc sh, get_char GB sc sh = ch "#" ∧ 0 <= sc < Z.of_nat (length GB) ∧
    ∀ sc' sh', 0 <= sc' < Z.of_nat (length GB) → get_char GB sc' sh' = ch "#" → sc' = sc ∧ sh' = sh.
Proof.
  apply (ascii_layouts_complete GB (ch "#")); [set_solver|]. by vm_compute.
Defined.

Lemma letters_shift_to_upper_witness :
  ∃ sc, get_char BEPO sc false = ch "w" ∧ get_char BEPO sc true = ch "w" - 32 ∧
    ∀ sc' sh', 0 <= sc' < Z.of_nat (length BEPO) → get_char BEPO sc' sh' = ch "w" →
               sc' = sc ∧ sh' = false.
Proof.
  apply (letters_shift_to_upper BEPO (ch "w")); [set_solver|]. by vm_compute.
Defined.

Lemma modifiers_silent_except_it_witness :
  get_char IT 0x1D false = if decide (IT = IT ∧ 0x1D = 0x1D) then ch " " else 0.
Proof. apply (modifiers_silent_except_it IT 0x1D false); set_solver. Defined.
