(* ===== verification/Ps2State.v ===== *)
(** The PS/2 driver's state machine (input/ps2d/src/state.rs, input/ps2d/src/vm.rs
    and the byte loop of input/ps2d/src/main.rs).

    [Ps2d] is the driver's state with the machine it runs on ([W]: the port bus of
    the controller and the VMware backdoor) and the events it has written to its
    input producer, oldest first.  [handle] takes one byte of the keyboard or of the
    mouse port.  The key constants of orbclient are the parameter [orb]. *)

From S2P Require Import Prelude Io Ps2Controller.

(** ** Parameters *)

Inductive OrbKey : Type :=
| K_ALT_GR | K_HOME | K_UP | K_PGUP | K_LEFT | K_RIGHT | K_END | K_DOWN | K_PGDN | K_DEL
| K_ESC | K_1 | K_2 | K_3 | K_4 | K_5 | K_6 | K_7 | K_8 | K_9 | K_0 | K_MINUS | K_EQUALS
| K_BKSP | K_TAB | K_Q | K_W | K_E | K_R | K_T | K_Y | K_U | K_I | K_O | K_P | K_BRACE_OPEN
| K_BRACE_CLOSE | K_ENTER | K_CTRL | K_A | K_S | K_D | K_F | K_G | K_H | K_J | K_K | K_L
| K_SEMICOLON | K_QUOTE | K_TICK | K_LEFT_SHIFT | K_BACKSLASH | K_Z | K_X | K_C | K_V | K_B
| K_N | K_M | K_COMMA | K_PERIOD | K_SLASH | K_RIGHT_SHIFT | K_ALT | K_SPACE | K_CAPS | K_F1
| K_F2 | K_F3 | K_F4 | K_F5 | K_F6 | K_F7 | K_F8 | K_F9 | K_F10 | K_NUM_7 | K_NUM_8 | K_NUM_9
| K_NUM_4 | K_NUM_5 | K_NUM_6 | K_NUM_1 | K_NUM_2 | K_NUM_3 | K_NUM_0 | K_F11 | K_F12.

#[global] Instance OrbKey_eq_dec : EqDecision OrbKey.
Proof. solve_decision. Defined.

Class OrbKeys := { orb : OrbKey → Z }.

(** Key codes identify keys, are not 0, and the two shift keys are not among the
    codes the driver spells as numbers. *)
Class OrbKeysOk `{OrbKeys} := {
  orb_nonzero (k : OrbKey) : orb k ≠ 0;
  orb_inj (k k' : OrbKey) : orb k = orb k' → k = k';
  orb_lshift_free : orb K_LEFT_SHIFT ∉ [0xA0; 0xAE; 0xB0; 0x5B];
  orb_rshift_free : orb K_RIGHT_SHIFT ∉ [0xA0; 0xAE; 0xB0; 0x5B];
}.

(** The VMware backdoor: the [in] instruction of [vm::cmd] with the command and the
    argument, and the four registers after it. *)
Class VmBackdoor (W : Type) := { vm_cmd : Z → Z → W → (Z * Z * Z * Z) * W }.

(** ** Data *)

Inductive OrbEvent : Type :=
| KeyEvent (character scancode : Z) (pressed : bool)
| MouseRelativeEvent (dx dy : Z)
| MouseEvent (x y : Z)
| ScrollEvent (x y : Z)
| ButtonEvent (left middle right : bool).

#[global] Instance OrbEvent_eq_dec : EqDecision OrbEvent.
Proof. solve_decision. Defined.

Module MousePacketFlags.
Definition LEFT_BUTTON : Z := 1.
Definition RIGHT_BUTTON : Z := Z.shiftl 1 1.
Definition MIDDLE_BUTTON : Z := Z.shiftl 1 2.
Definition ALWAYS_ON : Z := Z.shiftl 1 3.
Definition X_SIGN : Z := Z.shiftl 1 4.
Definition Y_SIGN : Z := Z.shiftl 1 5.
Definition X_OVERFLOW : Z := Z.shiftl 1 6.
Definition Y_OVERFLOW : Z := Z.shiftl 1 7.
(** All eight bits are flags. *)
Definition from_bits_truncate (b : Z) : Z := Z.land b 0xFF.
End MousePacketFlags.

Module Vm.
Definition MAGIC : Z := 0x564D5868.
Definition GETVERSION : Z := 10.
Definition ABSPOINTER_DATA : Z := 39.
Definition ABSPOINTER_STATUS : Z := 40.
Definition ABSPOINTER_COMMAND : Z := 41.
Definition CMD_ENABLE : Z := 0x45414552.
Definition CMD_DISABLE : Z := 0x000000f5.
Definition CMD_REQUEST_ABSOLUTE : Z := 0x53424152.
Definition CMD_REQUEST_RELATIVE : Z := 0x4c455252.
Definition VERSION : Z := 0x3442554a.
Definition LEFT_BUTTON : Z := 0x20.
Definition RIGHT_BUTTON : Z := 0x10.
Definition MIDDLE_BUTTON : Z := 0x08.
End Vm.

Record Ps2d (W : Type) := mk_ps2d {
  machine : W;
  vmmouse : bool;
  vmmouse_relative : bool;
  input : list OrbEvent;
  extended : bool;
  lshift : bool;
  rshift : bool;
  mouse_x : Z;
  mouse_y : Z;
  mouse_left : bool;
  mouse_middle : bool;
  mouse_right : bool;
  packets : list Z;
  packet_i : nat;
  extra_packet : bool;
}.
Arguments mk_ps2d {W} _ _ _ _ _ _ _ _ _ _ _ _ _ _ _.
Arguments machine {W} _.
Arguments vmmouse {W} _.
Arguments vmmouse_relative {W} _.
Arguments input {W} _.
Arguments extended {W} _.
Arguments lshift {W} _.
Arguments rshift {W} _.
Arguments mouse_x {W} _.
Arguments mouse_y {W} _.
Arguments mouse_left {W} _.
Arguments mouse_middle {W} _.
Arguments mouse_right {W} _.
Arguments packets {W} _.
Arguments packet_i {W} _.
Arguments extra_packet {W} _.

Section updates.
Context {W : Type}.

Definition set_machine (m : W) (s : Ps2d W) : Ps2d W :=
  mk_ps2d m (vmmouse s) (vmmouse_relative s) (input s) (extended s) (lshift s) (rshift s)
    (mouse_x s) (mouse_y s) (mouse_left s) (mouse_middle s) (mouse_right s) (packets s) (packet_i s)
    (extra_packet s).

Definition set_input (l : list OrbEvent) (s : Ps2d W) : Ps2d W :=
  mk_ps2d (machine s) (vmmouse s) (vmmouse_relative s) l (extended s) (lshift s) (rshift s)
    (mouse_x s) (mouse_y s) (mouse_left s) (mouse_middle s) (mouse_right s) (packets s) (packet_i s)
    (extra_packet s).

Definition set_extended (b : bool) (s : Ps2d W) : Ps2d W :=
  mk_ps2d (machine s) (vmmouse s) (vmmouse_relative s) (input s) b (lshift s) (rshift s)
    (mouse_x s) (mouse_y s) (mouse_left s) (mouse_middle s) (mouse_right s) (packets s) (packet_i s)
    (extra_packet s).

Definition set_shifts (l r : bool) (s : Ps2d W) : Ps2d W :=
  mk_ps2d (machine s) (vmmouse s) (vmmouse_relative s) (input s) (extended s) l r
    (mouse_x s) (mouse_y s) (mouse_left s) (mouse_middle s) (mouse_right s) (packets s) (packet_i s)
    (extra_packet s).

Definition set_position (x y : Z) (s : Ps2d W) : Ps2d W :=
  mk_ps2d (machine s) (vmmouse s) (vmmouse_relative s) (input s) (extended s) (lshift s) (rshift s)
    x y (mouse_left s) (mouse_middle s) (mouse_right s) (packets s) (packet_i s) (extra_packet s).

Definition set_buttons (l m r : bool) (s : Ps2d W) : Ps2d W :=
  mk_ps2d (machine s) (vmmouse s) (vmmouse_relative s) (input s) (extended s) (lshift s) (rshift s)
    (mouse_x s) (mouse_y s) l m r (packets s) (packet_i s) (extra_packet s).

Definition set_packets (p : list Z) (i : nat) (s : Ps2d W) : Ps2d W :=
  mk_ps2d (machine s) (vmmouse s) (vmmouse_relative s) (input s) (extended s) (lshift s) (rshift s)
    (mouse_x s) (mouse_y s) (mouse_left s) (mouse_middle s) (mouse_right s) p i (extra_packet s).
End updates.

(** ** The keyboard tables *)

Section tables.
Context `{OrbKeys}.

Definition extended_scancode (ps2_scancode : Z) : Z :=
  match ps2_scancode with
  | 0x20 => 0x80 + 0x20 | 0x2E => 0x80 + 0x2E | 0x30 => 0x80 + 0x30 | 0x38 => orb K_ALT_GR
  | 0x47 => orb K_HOME | 0x48 => orb K_UP | 0x49 => orb K_PGUP | 0x4B => orb K_LEFT
  | 0x4D => orb K_RIGHT | 0x4F => orb K_END | 0x50 => orb K_DOWN | 0x51 => orb K_PGDN
  | 0x53 => orb K_DEL | 0x5B => 0x5B
  | _ => 0
  end.

Definition base_scancode (ps2_scancode : Z) : Z :=
  match ps2_scancode with
  | 0x01 => orb K_ESC | 0x02 => orb K_1 | 0x03 => orb K_2 | 0x04 => orb K_3 | 0x05 => orb K_4
  | 0x06 => orb K_5 | 0x07 => orb K_6 | 0x08 => orb K_7 | 0x09 => orb K_8 | 0x0A => orb K_9
  | 0x0B => orb K_0 | 0x0C => orb K_MINUS | 0x0D => orb K_EQUALS | 0x0E => orb K_BKSP
  | 0x0F => orb K_TAB | 0x10 => orb K_Q | 0x11 => orb K_W | 0x12 => orb K_E | 0x13 => orb K_R
  | 0x14 => orb K_T | 0x15 => orb K_Y | 0x16 => orb K_U | 0x17 => orb K_I | 0x18 => orb K_O
  | 0x19 => orb K_P | 0x1A => orb K_BRACE_OPEN | 0x1B => orb K_BRACE_CLOSE
  | 0x1C => orb K_ENTER | 0x1D => orb K_CTRL | 0x1E => orb K_A | 0x1F => orb K_S
  | 0x20 => orb K_D | 0x21 => orb K_F | 0x22 => orb K_G | 0x23 => orb K_H | 0x24 => orb K_J
  | 0x25 => orb K_K | 0x26 => orb K_L | 0x27 => orb K_SEMICOLON | 0x28 => orb K_QUOTE
  | 0x29 => orb K_TICK | 0x2A => orb K_LEFT_SHIFT | 0x2B => orb K_BACKSLASH | 0x2C => orb K_Z
  | 0x2D => orb K_X | 0x2E => orb K_C | 0x2F => orb K_V | 0x30 => orb K_B | 0x31 => orb K_N
  | 0x32 => orb K_M | 0x33 => orb K_COMMA | 0x34 => orb K_PERIOD | 0x35 => orb K_SLASH
  | 0x36 => orb K_RIGHT_SHIFT | 0x38 => orb K_ALT | 0x39 => orb K_SPACE | 0x3A => orb K_CAPS
  | 0x3B => orb K_F1 | 0x3C => orb K_F2 | 0x3D => orb K_F3 | 0x3E => orb K_F4
  | 0x3F => orb K_F5 | 0x40 => orb K_F6 | 0x41 => orb K_F7 | 0x42 => orb K_F8
  | 0x43 => orb K_F9 | 0x44 => orb K_F10 | 0x47 => orb K_NUM_7 | 0x48 => orb K_NUM_8
  | 0x49 => orb K_NUM_9 | 0x4B => orb K_NUM_4 | 0x4C => orb K_NUM_5 | 0x4D => orb K_NUM_6
  | 0x4F => orb K_NUM_1 | 0x50 => orb K_NUM_2 | 0x51 => orb K_NUM_3 | 0x52 => orb K_NUM_0
  | 0x57 => orb K_F11 | 0x58 => orb K_F12
  | _ => 0
  end.
End tables.

(** ** Methods *)

Section methods.
Context {W : Type} `{OrbKeys, PortBus W, VmBackdoor W} (get_char : Z → bool → Z).

Abbreviation dprog := (prog (Ps2d W) errno).

(** [vm::enable]. *)
Definition vm_enable (relative : bool) (w : W) : bool * W :=
  let '((eax, ebx, _, _), w) := vm_cmd Vm.GETVERSION 0 w in
  if negb (ebx =? Vm.MAGIC) || (eax =? 0xFFFFFFFF) then (false, w)
  else
    let '(_, w) := vm_cmd Vm.ABSPOINTER_COMMAND Vm.CMD_ENABLE w in
    let '((st, _, _, _), w) := vm_cmd Vm.ABSPOINTER_STATUS 0 w in
    if Z.land st 0x0000ffff =? 0 then (false, w)
    else
      let '((version, _, _, _), w) := vm_cmd Vm.ABSPOINTER_DATA 1 w in
      if negb (version =? Vm.VERSION) then
        let '(_, w) := vm_cmd Vm.ABSPOINTER_COMMAND Vm.CMD_DISABLE w in (false, w)
      else
        let '(_, w) := vm_cmd Vm.ABSPOINTER_COMMAND
                         (if relative then Vm.CMD_REQUEST_RELATIVE else Vm.CMD_REQUEST_ABSOLUTE) w in
        (true, w).

(** [None] is the panic of [expect]. *)
Definition ps2d_new (w : W) : option (Ps2d W) :=
  match ps2_init ps2_new w with
  | (Ok extra_packet, w) =>
      let vmmouse_relative := false in
      let '(vmmouse, w) := vm_enable vmmouse_relative w in
      Some (mk_ps2d w vmmouse vmmouse_relative [] false false false 0 0 false false false
              [0; 0; 0; 0] 0 extra_packet)
  | _ => None
  end.

Definition write_event (e : OrbEvent) : dprog unit := modify (λ s, set_input (input s ++ [e]) s).

Definition handle_keyboard (data : Z) : dprog unit :=
  if data =? 0xE0 then modify (set_extended true)
  else
    let '(ps2_scancode, pressed) :=
      if 0x80 <=? data then (data - 0x80, false) else (data, true) in
    ext ← gets extended;
    scancode ← (if (ext : bool)
                then _ ← modify (set_extended false); p_ret (extended_scancode ps2_scancode)
                else p_ret (base_scancode ps2_scancode));
    _ ← (if scancode =? orb K_LEFT_SHIFT then modify (λ s, set_shifts pressed (rshift s) s)
         else if scancode =? orb K_RIGHT_SHIFT then modify (λ s, set_shifts (lshift s) pressed s)
         else p_ret tt);
    if negb (scancode =? 0) then
      shift ← gets (λ s, lshift s || rshift s);
      write_event (KeyEvent (get_char ps2_scancode shift) scancode pressed)
    else p_ret tt.

Definition do_vm_cmd (cmd arg : Z) : dprog (Z * Z * Z * Z) := λ s,
  let '(r, w) := vm_cmd cmd arg (machine s) in (Ok r, set_machine w s).

(** The part shared by both mouse protocols: report a change of the buttons. *)
Definition report_buttons (left middle right : bool) : dprog unit :=
  changed ← gets (λ s, negb (eqb left (mouse_left s)) || negb (eqb middle (mouse_middle s))
                       || negb (eqb right (mouse_right s)));
  if (changed : bool) then
    _ ← modify (set_buttons left middle right);
    write_event (ButtonEvent left middle right)
  else p_ret tt.

(** One packet of the backdoor's queue. *)
Definition vmmouse_packet (st dx dy dz : Z) : dprog unit :=
  relative ← gets vmmouse_relative;
  _ ← (if (relative : bool) then
         if negb (dx =? 0) || negb (dy =? 0)
         then write_event (MouseRelativeEvent (as_i32 dx) (as_i32 dy)) else p_ret tt
       else
         let x := as_i32 dx in
         let y := as_i32 dy in
         moved ← gets (λ s, negb (x =? mouse_x s) || negb (y =? mouse_y s));
         if (moved : bool) then
           _ ← modify (set_position x y);
           write_event (MouseEvent x y)
         else p_ret tt);
  _ ← (if negb (dz =? 0) then write_event (ScrollEvent 0 (as_i32 (- as_i32 dz))) else p_ret tt);
  report_buttons (Z.land st Vm.LEFT_BUTTON =? Vm.LEFT_BUTTON)
    (Z.land st Vm.MIDDLE_BUTTON =? Vm.MIDDLE_BUTTON) (Z.land st Vm.RIGHT_BUTTON =? Vm.RIGHT_BUTTON).

(** [for _i in 0..256]. *)
Fixpoint vmmouse_loop (n : nat) : dprog unit :=
  match n with
  | O => p_ret tt
  | S n =>
      r ← do_vm_cmd Vm.ABSPOINTER_STATUS 0;
      let '(st, _, _, _) := r in
      let queue_length := Z.land st 0xffff in
      if queue_length =? 0 then p_ret tt
      else if negb (queue_length mod 4 =? 0) then p_ret tt
      else
        r ← do_vm_cmd Vm.ABSPOINTER_DATA 4;
        let '(st, dx, dy, dz) := r in
        _ ← vmmouse_packet st dx dy dz;
        vmmouse_loop n
  end.

(** A complete packet of the PS/2 protocol. *)
Definition mouse_packet (flags p1 p2 p3 : Z) (extra : bool) : dprog unit :=
  if negb (flags_contains flags MousePacketFlags.X_OVERFLOW)
     && negb (flags_contains flags MousePacketFlags.Y_OVERFLOW) then
    let dx := if flags_contains flags MousePacketFlags.X_SIGN then p1 - 0x100 else p1 in
    let dy := if flags_contains flags MousePacketFlags.Y_SIGN then - p2 + 0x100 else - p2 in
    let dz := if extra then
                let scroll := as_i8 (Z.land p3 0xF) in
                let scroll := if Z.land scroll (Z.shiftl 1 3) =? Z.shiftl 1 3 then scroll - 16
                              else scroll in
                - scroll
              else 0 in
    _ ← (if negb (dx =? 0) || negb (dy =? 0) then write_event (MouseRelativeEvent dx dy) else p_ret tt);
    _ ← (if negb (dz =? 0) then write_event (ScrollEvent 0 dz) else p_ret tt);
    report_buttons (flags_contains flags MousePacketFlags.LEFT_BUTTON)
      (flags_contains flags MousePacketFlags.MIDDLE_BUTTON)
      (flags_contains flags MousePacketFlags.RIGHT_BUTTON)
  else p_ret tt.

(** [packets[i]], which panics out of range. *)
Definition packet (i : nat) : dprog Z := p ← gets packets; unwrap (p !! i).

Definition handle_mouse (data : Z) : dprog unit :=
  i ← gets packet_i;
  _ ← packet i;
  _ ← modify (λ s, set_packets (<[i := data]> (packets s)) (S i) s);
  p0 ← packet 0;
  let flags := MousePacketFlags.from_bits_truncate p0 in
  if negb (flags_contains flags MousePacketFlags.ALWAYS_ON) then
    modify (set_packets [0; 0; 0; 0] 0)
  else
    full ← gets (λ s, (length (packets s) <=? packet_i s)%nat
                      || (negb (extra_packet s) && (3 <=? packet_i s)%nat));
    if (full : bool) then
      p1 ← packet 1;
      p2 ← packet 2;
      p3 ← packet 3;
      extra ← gets extra_packet;
      _ ← mouse_packet flags p1 p2 p3 extra;
      modify (set_packets [0; 0; 0; 0] 0)
    else p_ret tt.

Definition handle (keyboard : bool) (data : Z) : dprog unit :=
  if keyboard then handle_keyboard data
  else
    vm ← gets vmmouse;
    if (vm : bool) then vmmouse_loop 256 else handle_mouse data.

(** [for i in 0..count { ps2d.handle(keyboard, data[i]) }] *)
Fixpoint handle_bytes (keyboard : bool) (data : list Z) : dprog unit :=
  match data with
  | [] => p_ret tt
  | b :: data => _ ← handle keyboard b; handle_bytes keyboard data
  end.

(** The event loop: chunks of bytes from the two serial files, in the order the
    events come. *)
Fixpoint event_loop (chunks : list (bool * list Z)) : dprog unit :=
  match chunks with
  | [] => p_ret tt
  | (keyboard, data) :: chunks => _ ← handle_bytes keyboard data; event_loop chunks
  end.

(** [Ps2::next] on the driver's machine. *)
Definition do_next : dprog (option (bool * Z)) := λ s,
  match ps2_next ps2_new (machine s) with
  | (Ok r, w) => (Ok r, set_machine w s)
  | (_, w) => (Panic, set_machine w s)
  end.

(** [while let Some(..) = self.ps2.next()], for at most [fuel] bytes; answers
    whether the controller ran dry. *)
Fixpoint irq (fuel : nat) : dprog bool :=
  match fuel with
  | O => p_ret false
  | S fuel =>
      r ← do_next;
      match r with
      | Some (keyboard, data) => _ ← handle keyboard data; irq fuel
      | None => p_ret true
      end
  end.
End methods.

(** ** No panic *)

(** The next packet byte has a place. *)
Definition packet_ok {W : Type} (s : Ps2d W) : Prop :=
  length (packets s) = 4%nat ∧ (packet_i s < if extra_packet s then 4 else 3)%nat.

Section safety.
Context {W : Type} `{OrbKeys, PortBus W, VmBackdoor W} (get_char : Z → bool → Z).

Lemma write_event_safe (e : OrbEvent) : safe packet_ok (write_event (W := W) e).
Proof. by apply safe_modify. Qed.

Lemma report_buttons_safe (l m r : bool) : safe packet_ok (report_buttons (W := W) l m r).
Proof. unfold report_buttons. repeat first [apply write_event_safe | safe_step]. Qed.

Lemma handle_keyboard_safe (data : Z) : safe packet_ok (handle_keyboard (W := W) get_char data).
Proof.
  unfold handle_keyboard. repeat first [apply write_event_safe | safe_step]; by apply safe_modify.
Qed.

Lemma vm_packet_safe (st dx dy dz : Z) : safe packet_ok (vmmouse_packet (W := W) st dx dy dz).
Proof.
  unfold vmmouse_packet.
  repeat first [apply write_event_safe | apply report_buttons_safe | safe_step]; by apply safe_modify.
Qed.

Lemma do_vm_cmd_safe (c a : Z) : safe packet_ok (do_vm_cmd (W := W) c a).
Proof. intros s Hs. unfold do_vm_cmd. by destruct (vm_cmd c a (machine s)). Qed.

Lemma vmmouse_loop_safe (n : nat) : safe packet_ok (vmmouse_loop (W := W) n).
Proof.
  induction n as [|n IH]; cbn [vmmouse_loop]; [apply safe_ret|].
  repeat first [apply IH | apply vm_packet_safe | apply do_vm_cmd_safe | safe_step].
Qed.

(** ** Mouse packets *)

(** An event written under a condition. *)
Lemma cond_write_eq (b : bool) (e : OrbEvent) (s : Ps2d W) :
  (if b then write_event e else p_ret tt) s =
    (Ok (E := errno) tt, set_input (input s ++ if b then [e] else []) s).
Proof. destruct b; [done|]. rewrite app_nil_r. by destruct s. Qed.

(** The report of a change of the buttons. *)
Definition button_events (old new : bool * bool * bool) : list OrbEvent :=
  if decide (old = new) then [] else [ButtonEvent new.1.1 new.1.2 new.2].

Definition buttons (s : Ps2d W) : bool * bool * bool := (mouse_left s, mouse_middle s, mouse_right s).

Lemma report_buttons_eq (l m r : bool) (s : Ps2d W) :
  report_buttons l m r s =
    (Ok tt, set_input (input s ++ button_events (buttons s) (l, m, r)) (set_buttons l m r s)).
Proof.
  unfold report_buttons, button_events, buttons, mbind, prog_bind, p_bind, gets.
  destruct s as [? ? ? ? ? ? ? ? ? ml mm mr ? ? ?]; simpl.
  by destruct l, m, r, ml, mm, mr; simpl; rewrite ?app_nil_r.
Qed.

(** The meaning of a packet: two 9-bit two's complement movements, y pointing up,
    a 4-bit two's complement wheel movement when the mouse has one, three
    buttons. *)
Definition packet_buttons (b0 : Z) : bool * bool * bool :=
  (Z.testbit b0 0, Z.testbit b0 2, Z.testbit b0 1).

Definition packet_events (extra : bool) (old : bool * bool * bool) (b0 b1 b2 b3 : Z) : list OrbEvent :=
  let dx := as_i 9 (b1 + 256 * Z.b2z (Z.testbit b0 4)) in
  let dy := - as_i 9 (b2 + 256 * Z.b2z (Z.testbit b0 5)) in
  let dz := if extra then - as_i 4 b3 else 0 in
  (if decide (dx = 0 ∧ dy = 0) then [] else [MouseRelativeEvent dx dy]) ++
  (if decide (dz = 0) then [] else [ScrollEvent 0 dz]) ++
  button_events old (packet_buttons b0).

(** Packets with an overflow bit are dropped. *)
Definition packet_overflows (b0 : Z) : bool := Z.testbit b0 6 || Z.testbit b0 7.

Lemma mouse_flag_bit (b k : Z) :
  0 <= k < 8 →
  flags_contains (MousePacketFlags.from_bits_truncate b) (Z.shiftl 1 k) = Z.testbit b k.
Proof. apply status_bit. Qed.

Lemma sign_extend_9 (b : Z) (sign : bool) :
  u_range 8 b → (if sign then b - 0x100 else b) = as_i 9 (b + 256 * Z.b2z sign).
Proof.
  unfold u_range, as_i. change (2 ^ 8) with 256. change (2 ^ (9 - 1)) with 256. change (2 ^ 9) with 512.
  intros Hb. destruct sign; simpl Z.b2z; zdiv.
Qed.

Lemma scroll_4 (b : Z) :
  u_range 8 b →
  (let scroll := as_i8 (Z.land b 0xF) in
   if Z.land scroll (Z.shiftl 1 3) =? Z.shiftl 1 3 then scroll - 16 else scroll) = as_i 4 b.
Proof.
  intros Hb. unfold u_range in Hb. change (2 ^ 8) with 256 in Hb.
  assert (b ∈ (Z.of_nat <$> seq 0 256)) as Hin.
  { apply list_elem_of_fmap. exists (Z.to_nat b). split; [lia|]. apply elem_of_seq. lia. }
  revert b Hin Hb. apply (Forall_forall (λ b, 0 <= b < 256 → _)).
  apply (Forall_impl (λ b,
    (let scroll := as_i8 (Z.land b 0xF) in
     if Z.land scroll (Z.shiftl 1 3) =? Z.shiftl 1 3 then scroll - 16 else scroll) = as_i 4 b));
    [|by intros].
  apply (bool_decide_unpack _). vm_compute. exact I.
Qed.

Lemma mouse_packet_eq (b0 b1 b2 b3 : Z) (extra : bool) (s : Ps2d W) :
  u_range 8 b1 → u_range 8 b2 → u_range 8 b3 →
  mouse_packet (MousePacketFlags.from_bits_truncate b0) b1 b2 b3 extra s =
    (Ok tt, if packet_overflows b0 then s
            else let '(l, m, r) := packet_buttons b0 in
                 set_input (input s ++ packet_events extra (buttons s) b0 b1 b2 b3)
                   (set_buttons l m r s)).
Proof.
  intros Hb1 Hb2 Hb3. unfold mouse_packet, packet_overflows, packet_events, packet_buttons.
  change MousePacketFlags.LEFT_BUTTON with (Z.shiftl 1 0).
  unfold MousePacketFlags.X_OVERFLOW, MousePacketFlags.Y_OVERFLOW, MousePacketFlags.X_SIGN,
    MousePacketFlags.Y_SIGN, MousePacketFlags.MIDDLE_BUTTON, MousePacketFlags.RIGHT_BUTTON.
  rewrite !mouse_flag_bit by lia. cbv zeta.
  rewrite (sign_extend_9 b1 (Z.testbit b0 4)) by done.
  replace (if Z.testbit b0 5 then - b2 + 256 else - b2)
    with (- as_i 9 (b2 + 256 * Z.b2z (Z.testbit b0 5)))
    by (rewrite <- sign_extend_9 by done; destruct (Z.testbit b0 5); lia).
  pose proof (scroll_4 b3 Hb3) as Hsc. cbv zeta in Hsc. rewrite Hsc. clear Hsc.
  destruct (Z.testbit b0 6), (Z.testbit b0 7); try done. cbn [negb andb orb].
  set (dx := as_i 9 _). set (dy := - as_i 9 _). set (dz := if extra then _ else 0).
  assert ((if negb (dx =? 0) || negb (dy =? 0) then [MouseRelativeEvent dx dy] else []) =
          (if decide (dx = 0 ∧ dy = 0) then [] else [MouseRelativeEvent dx dy])) as Hmv.
  { destruct (Z.eqb_spec dx 0), (Z.eqb_spec dy 0); simpl;
      first [by rewrite decide_True | by rewrite decide_False by tauto]. }
  assert ((if negb (dz =? 0) then [ScrollEvent 0 dz] else []) =
          (if decide (dz = 0) then [] else [ScrollEvent 0 dz])) as Hz.
  { destruct (Z.eqb_spec dz 0); simpl; first [by rewrite decide_True | by rewrite decide_False]. }
  unfold mbind, prog_bind, p_bind. rewrite !cond_write_eq, report_buttons_eq, Hmv, Hz.
  unfold set_input, set_buttons, buttons. cbn. by rewrite <- !app_assoc.
Qed.

#[local] Arguments Z.testbit : simpl never.

(** One byte of a mouse packet. *)
Lemma handle_mouse_eq (data : Z) (s : Ps2d W) :
  packet_ok s →
  let ps := <[packet_i s := data]> (packets s) in
  handle_mouse data s =
    if negb (Z.testbit (nth 0 ps 0) 3) then (Ok tt, set_packets [0; 0; 0; 0] 0 s)
    else if decide (S (packet_i s) = if extra_packet s then 4 else 3)%nat then
      match mouse_packet (MousePacketFlags.from_bits_truncate (nth 0 ps 0)) (nth 1 ps 0) (nth 2 ps 0)
              (nth 3 ps 0) (extra_packet s) (set_packets ps (S (packet_i s)) s) with
      | (Ok _, s') => (Ok tt, set_packets [0; 0; 0; 0] 0 s')
      | r => r
      end
    else (Ok tt, set_packets ps (S (packet_i s)) s).
Proof.
  intros [Hlen Hi] ps. subst ps. destruct s as [? ? ? ? ? ? ? ? ? ? ? ? ps i extra]; simpl in *.
  destruct ps as [|a [|b [|c [|d [|? ?]]]]]; try discriminate Hlen. clear Hlen.
  assert (∀ x, flags_contains (MousePacketFlags.from_bits_truncate x) MousePacketFlags.ALWAYS_ON
               = Z.testbit x 3) as Hon by (intros x; by apply (mouse_flag_bit x 3)).
  unfold handle_mouse, packet, mbind, prog_bind, p_bind, gets, modify. simpl.
  destruct i as [|[|[|[|i]]]]; [..|destruct extra; lia]; simpl; rewrite Hon;
    (destruct (Z.testbit _ 3) eqn:Hb3; simpl; [|done]); destruct extra; try (exfalso; lia);
    first [rewrite decide_True by lia | rewrite decide_False by lia]; simpl; try done;
    by destruct (mouse_packet _ _ _ _ _ _) as [[[]| |] ?].
Qed.

#[local] Arguments handle : simpl never.

Lemma mouse_packet_frame (flags p1 p2 p3 : Z) (extra : bool) (s : Ps2d W) :
  ∃ evs l m r, mouse_packet flags p1 p2 p3 extra s = (Ok tt, set_input evs (set_buttons l m r s)).
Proof.
  unfold mouse_packet. destruct (_ && _); last first.
  { exists (input s), (mouse_left s), (mouse_middle s), (mouse_right s). by destruct s. }
  cbv zeta. unfold mbind, prog_bind, p_bind. rewrite !cond_write_eq, report_buttons_eq.
  by eexists _, _, _, _.
Qed.

Lemma handle_mouse_safe (data : Z) : safe packet_ok (handle_mouse (W := W) data).
Proof.
  intros s Hs. rewrite handle_mouse_eq by done. pose proof Hs as [Hlen Hi].
  destruct (negb _); [split; [done|]; split; [done|]; simpl; destruct (extra_packet s); lia|].
  case_decide as Hf.
  - destruct (mouse_packet_frame (MousePacketFlags.from_bits_truncate
      (nth 0 (<[packet_i s:=data]> (packets s)) 0)) (nth 1 (<[packet_i s:=data]> (packets s)) 0)
      (nth 2 (<[packet_i s:=data]> (packets s)) 0) (nth 3 (<[packet_i s:=data]> (packets s)) 0)
      (extra_packet s) (set_packets (<[packet_i s:=data]> (packets s)) (S (packet_i s)) s))
      as (evs & l & m & r & ->).
    split; [done|]. split; [done|]. simpl. destruct (extra_packet s); lia.
  - split; [done|]. split; simpl; [by rewrite length_insert|]. destruct (extra_packet s); lia.
Qed.

Lemma handle_safe (keyboard : bool) (data : Z) :
  safe packet_ok (handle (W := W) get_char keyboard data).
Proof.
  unfold handle.
  repeat first [apply handle_keyboard_safe | apply vmmouse_loop_safe | apply handle_mouse_safe | safe_step].
Qed.

Lemma handle_bytes_safe (keyboard : bool) (data : list Z) :
  safe packet_ok (handle_bytes (W := W) get_char keyboard data).
Proof.
  induction data as [|b data IH]; cbn [handle_bytes]; [apply safe_ret|].
  apply safe_bind; [apply handle_safe|done].
Qed.

Lemma event_loop_safe (chunks : list (bool * list Z)) :
  safe packet_ok (event_loop (W := W) get_char chunks).
Proof.
  induction chunks as [|[kb data] chunks IH]; cbn [event_loop]; [apply safe_ret|].
  apply safe_bind; [apply handle_bytes_safe|done].
Qed.

(** ** Streams of packets *)

(** Between packets. *)
Definition idle (s : Ps2d W) : Prop :=
  vmmouse s = false ∧ packets s = [0; 0; 0; 0] ∧ packet_i s = 0%nat.

Lemma idle_ok (s : Ps2d W) : idle s → packet_ok s.
Proof. intros (_ & Hp & Hi). split; [by rewrite Hp|]. rewrite Hi. destruct (extra_packet s); lia. Qed.

(** A byte that cannot start a packet is skipped. *)
Lemma noise_skipped (b : Z) (s : Ps2d W) :
  idle s → Z.testbit b 3 = false → handle get_char false b s = (Ok tt, s).
Proof.
  intros Hs Hb. pose proof Hs as (Hv & Hp & Hi).
  unfold handle, mbind, prog_bind, p_bind, gets. rewrite Hv.
  rewrite handle_mouse_eq by (by apply idle_ok). rewrite Hp, Hi. simpl. rewrite Hb. simpl.
  destruct s; simpl in *. by subst.
Qed.

Record Packet := mk_packet { pk_b0 : Z; pk_b1 : Z; pk_b2 : Z; pk_b3 : Z }.

Definition packet_valid (p : Packet) : Prop :=
  Z.testbit (pk_b0 p) 3 = true ∧ u_range 8 (pk_b1 p) ∧ u_range 8 (pk_b2 p) ∧ u_range 8 (pk_b3 p).

(** The bytes on the wire. *)
Definition packet_bytes (extra : bool) (p : Packet) : list Z :=
  [pk_b0 p; pk_b1 p; pk_b2 p] ++ if extra then [pk_b3 p] else [].

(** The events of a packet and the buttons after it. *)
Definition packet_meaning (extra : bool) (old : bool * bool * bool) (p : Packet)
    : list OrbEvent * (bool * bool * bool) :=
  if packet_overflows (pk_b0 p) then ([], old)
  else (packet_events extra old (pk_b0 p) (pk_b1 p) (pk_b2 p) (pk_b3 p), packet_buttons (pk_b0 p)).

Fixpoint packets_meaning (extra : bool) (old : bool * bool * bool) (ps : list Packet)
    : list OrbEvent * (bool * bool * bool) :=
  match ps with
  | [] => ([], old)
  | p :: ps =>
      let '(evs, b) := packet_meaning extra old p in
      let '(evs', b') := packets_meaning extra b ps in
      (evs ++ evs', b')
  end.

Definition set_all_buttons (b : bool * bool * bool) (s : Ps2d W) : Ps2d W :=
  set_buttons b.1.1 b.1.2 b.2 s.

(** A byte inside a packet is stored; the last one completes the packet. *)
Lemma handle_store (data : Z) (s : Ps2d W) :
  vmmouse s = false → packet_ok s →
  let ps := <[packet_i s := data]> (packets s) in
  Z.testbit (nth 0 ps 0) 3 = true → (S (packet_i s) < if extra_packet s then 4 else 3)%nat →
  handle get_char false data s = (Ok tt, set_packets ps (S (packet_i s)) s).
Proof.
  intros Hv Hs ps Hb Hi. unfold handle, mbind, prog_bind, p_bind, gets. rewrite Hv.
  rewrite handle_mouse_eq by done. fold ps. rewrite Hb. simpl. by rewrite decide_False by lia.
Qed.

Lemma handle_complete (data : Z) (s : Ps2d W) :
  vmmouse s = false → packet_ok s →
  let ps := <[packet_i s := data]> (packets s) in
  let p := mk_packet (nth 0 ps 0) (nth 1 ps 0) (nth 2 ps 0) (nth 3 ps 0) in
  packet_valid p → S (packet_i s) = (if extra_packet s then 4 else 3)%nat →
  handle get_char false data s =
    (Ok tt, set_packets [0; 0; 0; 0] 0
       (set_input (input s ++ (packet_meaning (extra_packet s) (buttons s) p).1)
          (set_all_buttons (packet_meaning (extra_packet s) (buttons s) p).2 s))).
Proof.
  intros Hv Hs ps p (H3 & Hb1 & Hb2 & Hb3) Hi. unfold handle, mbind, prog_bind, p_bind, gets. rewrite Hv.
  rewrite handle_mouse_eq by done. fold ps. simpl in H3. rewrite H3. simpl. rewrite decide_True by lia.
  rewrite mouse_packet_eq by done. unfold packet_meaning. simpl.
  destruct (packet_overflows _); simpl.
  - destruct s; unfold buttons, set_all_buttons; simpl. by rewrite app_nil_r.
  - done.
Qed.

(** One packet, from idle to idle. *)
Lemma packet_handled (p : Packet) (s : Ps2d W) :
  idle s → packet_valid p →
  let r := packet_meaning (extra_packet s) (buttons s) p in
  handle_bytes get_char false (packet_bytes (extra_packet s) p) s =
    (Ok tt, set_input (input s ++ r.1) (set_all_buttons r.2 s)).
Proof.
  intros (Hv & Hp & Hi) Hval. pose proof Hval as (H3 & Hb1 & Hb2 & Hb3). cbv zeta.
  destruct p as [b0 b1 b2 b3], s as [mc vm vr inp ext ls rs mx my ml mm mr ps i extra]; simpl in *. subst.
  assert (∀ (x y : Ps2d W), x = y → (Ok (E := errno) tt, x) = (Ok tt, y)) as Heq by (by intros ? ? ->).
  unfold packet_bytes.
  destruct extra; cbn [app handle_bytes pk_b0 pk_b1 pk_b2 pk_b3]; unfold mbind, prog_bind, p_bind;
    (rewrite handle_store; [|done|by split; simpl; [|lia]|done|simpl; lia]); simpl;
    (rewrite handle_store; [|done|by split; simpl; [|lia]|done|simpl; lia]); simpl.
  - rewrite handle_store; [|done|by split; simpl; [|lia]|done|simpl; lia]. simpl.
    rewrite handle_complete; [|done|by split; simpl; [|lia]|done|done]. done.
  - rewrite handle_complete; [|done|by split; simpl; [|lia]|done|done]. done.
Qed.

Lemma handle_bytes_app (kb : bool) (l1 l2 : list Z) (s s1 : Ps2d W) :
  handle_bytes get_char kb l1 s = (Ok tt, s1) →
  handle_bytes get_char kb (l1 ++ l2) s = handle_bytes get_char kb l2 s1.
Proof.
  revert s. induction l1 as [|b l1 IH]; intros s Hs; [by injection Hs as <-|].
  cbn [handle_bytes app] in *. apply bind_inv_Ok in Hs as ([] & s2 & H2 & Hs).
  unfold mbind, prog_bind, p_bind. rewrite H2. by apply IH.
Qed.

Lemma noise_handled (noise : list Z) (s : Ps2d W) :
  idle s → Forall (λ b, Z.testbit b 3 = false) noise →
  handle_bytes get_char false noise s = (Ok tt, s).
Proof.
  intros Hs. induction 1 as [|b noise Hb _ IH]; [done|]. cbn [handle_bytes].
  unfold mbind, prog_bind, p_bind. by rewrite noise_skipped.
Qed.

(** C10. A stream of mouse packets, each possibly preceded by bytes that cannot
    start a packet: the driver writes exactly the events the packets mean, in order.
    Movements are the 9-bit two's complement values with y inverted, the wheel the
    4-bit two's complement value inverted (only with the extra-packet mode), button
    events are written exactly on changes, overflowing packets are dropped, and
    nothing else of the state changes; after each packet the driver is ready for
    the next. *)
Theorem mouse_stream_meaning (stream : list (list Z * Packet)) (s : Ps2d W)
    (Hs : idle s)
    (Hn : Forall (λ np, Forall (λ b, Z.testbit b 3 = false) np.1 ∧ packet_valid np.2) stream) :
  let bytes := mjoin ((λ np, np.1 ++ packet_bytes (extra_packet s) np.2) <$> stream) in
  let r := packets_meaning (extra_packet s) (buttons s) stream.*2 in
  handle_bytes get_char false bytes s =
    (Ok tt, set_input (input s ++ r.1) (set_all_buttons r.2 s)).
Proof.
  revert s Hs. induction Hn as [|[noise p] stream [Hno Hp] Hn IH]; intros s Hs bytes r.
  - simpl. rewrite app_nil_r. by destruct s.
  - subst bytes r. rewrite !fmap_cons. cbn [mjoin list_join snd packets_meaning]. rewrite <- !app_assoc.
    rewrite (handle_bytes_app _ _ _ s s) by (by apply noise_handled).
    rewrite (handle_bytes_app _ _ _ s _ (packet_handled p s Hs Hp)).
    destruct (packet_meaning (extra_packet s) (buttons s) p) as [evs b].
    set (s1 := set_input (input s ++ evs) (set_all_buttons b s)).
    assert (idle s1) as Hs1 by done.
    pose proof (IH s1 Hs1) as Hr. cbv zeta in Hr.
    change (extra_packet s1) with (extra_packet s) in Hr.
    replace (buttons s1) with b in Hr by (by destruct b as [[]]).
    etrans; [exact Hr|]. destruct (packets_meaning (extra_packet s) b stream.*2) as [evs' b'].
    unfold s1, set_all_buttons, set_input, set_buttons. simpl. by rewrite <- app_assoc.
Qed.

(** ** The keyboard *)

(** A key going down or up: with or without the 0xE0 prefix, its scan code. *)
Record KeyAction := mk_action { ka_ext : bool; ka_code : Z; ka_pressed : bool }.

(** Keys of scan code set 1 whose release byte is not a prefix. *)
Definition action_valid (a : KeyAction) : Prop := 0 <= ka_code a < 0x60.

(** The bytes on the wire. *)
Definition action_bytes (a : KeyAction) : list Z :=
  (if ka_ext a then [0xE0] else []) ++ [if ka_pressed a then ka_code a else ka_code a + 0x80].

(** The state of the shift keys after an action. *)
Definition shifts_after (a : KeyAction) (sh : bool * bool) : bool * bool :=
  if negb (ka_ext a) && (ka_code a =? 0x2A) then (ka_pressed a, sh.2)
  else if negb (ka_ext a) && (ka_code a =? 0x36) then (sh.1, ka_pressed a)
  else sh.

Definition action_scancode (a : KeyAction) : Z :=
  if ka_ext a then extended_scancode (ka_code a) else base_scancode (ka_code a).

Definition action_events (a : KeyAction) (sh : bool * bool) : list OrbEvent :=
  let sh := shifts_after a sh in
  if action_scancode a =? 0 then []
  else [KeyEvent (get_char (ka_code a) (sh.1 || sh.2)) (action_scancode a) (ka_pressed a)].

Fixpoint actions_meaning (l : list KeyAction) (sh : bool * bool) : list OrbEvent * (bool * bool) :=
  match l with
  | [] => ([], sh)
  | a :: l => let '(evs, sh') := actions_meaning l (shifts_after a sh) in (action_events a sh ++ evs, sh')
  end.

(** All codes below a bound. *)
Lemma below_Forall (n : nat) (P : Z → Prop) (x : Z) :
  Forall P (Z.of_nat <$> seq 0 n) → 0 <= x < Z.of_nat n → P x.
Proof.
  intros Hf Hx. rewrite Forall_forall in Hf. apply Hf, list_elem_of_fmap.
  exists (Z.to_nat x). split; [lia|]. apply elem_of_seq. lia.
Qed.

Context `{!OrbKeysOk}.

(** Only scan codes 0x2A and 0x36 are mapped to the shift keys. *)
Lemma extended_not_shift (c : Z) :
  0 <= c < 0x60 → extended_scancode c ≠ orb K_LEFT_SHIFT ∧ extended_scancode c ≠ orb K_RIGHT_SHIFT.
Proof.
  pose proof orb_lshift_free as Hl. pose proof orb_rshift_free as Hr. rewrite !not_elem_of_cons in Hl, Hr.
  pose proof (orb_nonzero K_LEFT_SHIFT) as Hl0. pose proof (orb_nonzero K_RIGHT_SHIFT) as Hr0.
  apply (below_Forall 96 (λ c, extended_scancode c ≠ orb K_LEFT_SHIFT ∧ extended_scancode c ≠ orb K_RIGHT_SHIFT)).
  repeat (apply Forall_cons; split; [split; simpl; first [intros Heq%orb_inj; discriminate Heq | lia]|]).
  by apply Forall_nil.
Qed.

Lemma base_shift (c : Z) :
  0 <= c < 0x60 →
  (base_scancode c = orb K_LEFT_SHIFT ↔ c = 0x2A) ∧ (base_scancode c = orb K_RIGHT_SHIFT ↔ c = 0x36).
Proof.
  pose proof (orb_nonzero K_LEFT_SHIFT) as Hl0. pose proof (orb_nonzero K_RIGHT_SHIFT) as Hr0.
  apply (below_Forall 96 (λ c, (base_scancode c = orb K_LEFT_SHIFT ↔ c = 0x2A) ∧
                               (base_scancode c = orb K_RIGHT_SHIFT ↔ c = 0x36))).
  repeat (apply Forall_cons; split;
    [split; (split; simpl; [first [done | intros Heq%orb_inj; discriminate Heq | intros; lia]
                           |first [done | intros; lia]])|]).
  by apply Forall_nil.
Qed.

Lemma action_shift (a : KeyAction) :
  action_valid a →
  (action_scancode a =? orb K_LEFT_SHIFT) = negb (ka_ext a) && (ka_code a =? 0x2A) ∧
  (action_scancode a =? orb K_RIGHT_SHIFT) = negb (ka_ext a) && (ka_code a =? 0x36).
Proof.
  destruct a as [[|] c p]; unfold action_valid, action_scancode; simpl; intros Hv.
  - destruct (extended_not_shift c Hv). by rewrite !(proj2 (Z.eqb_neq _ _)).
  - destruct (base_shift c Hv) as [[H1l H2l] [H1r H2r]]. split; apply eq_true_iff_eq; rewrite !Z.eqb_eq; tauto.
Qed.

(** A byte that is not the prefix. *)
Lemma handle_key_eq (b c : Z) (p : bool) (s : Ps2d W) :
  b ≠ 0xE0 → (if 0x80 <=? b then (b - 0x80, false) else (b, true)) = (c, p) →
  let code := if extended s then extended_scancode c else base_scancode c in
  let sh := if code =? orb K_LEFT_SHIFT then (p, rshift s)
            else if code =? orb K_RIGHT_SHIFT then (lshift s, p) else (lshift s, rshift s) in
  handle get_char true b s =
    (Ok tt, set_input (input s ++ if code =? 0 then [] else [KeyEvent (get_char c (sh.1 || sh.2)) code p])
              (set_shifts sh.1 sh.2 (set_extended false s))).
Proof.
  intros Hb Hd code sh. unfold handle, handle_keyboard. rewrite (proj2 (Z.eqb_neq _ _) Hb), Hd.
  destruct s as [mc vm vr inp ex ls rs mx my ml mm mr ps i extra]; simpl in *.
  unfold mbind, prog_bind, p_bind, gets. simpl.
  destruct ex; simpl; fold code; subst sh;
    destruct (code =? orb K_LEFT_SHIFT), (code =? orb K_RIGHT_SHIFT), (code =? 0); simpl;
    unfold set_input, set_shifts; simpl; rewrite ?app_nil_r; done.
Qed.

(** One action, from a state without a pending prefix. *)
Lemma action_handled (a : KeyAction) (s : Ps2d W) :
  action_valid a → extended s = false →
  handle_bytes get_char true (action_bytes a) s =
    (Ok tt, let sh := shifts_after a (lshift s, rshift s) in
            set_input (input s ++ action_events a (lshift s, rshift s)) (set_shifts sh.1 sh.2 s)).
Proof.
  intros Hv Hx. pose proof (action_shift a Hv) as [Hl Hr].
  destruct a as [ext c p]. unfold action_valid in Hv. cbn [ka_code ka_ext ka_pressed] in *.
  unfold action_events, shifts_after, action_bytes. cbn [ka_code ka_ext ka_pressed].
  rewrite <- Hl, <- Hr. clear Hl Hr. unfold action_scancode. cbn [ka_code ka_ext ka_pressed].
  set (b := if p then c else c + 0x80).
  assert (b ≠ 0xE0) as Hb by (subst b; destruct p; lia).
  assert ((if 0x80 <=? b then (b - 0x80, false) else (b, true)) = (c, p)) as Hd.
  { subst b. destruct p; [by rewrite (proj2 (Z.leb_gt _ _)) by lia|].
    rewrite (proj2 (Z.leb_le _ _)) by lia. f_equal. lia. }
  destruct ext; cbn [app handle_bytes]; unfold mbind, prog_bind, p_bind.
  - change (handle get_char true 0xE0 s) with (Ok (E := errno) tt, set_extended true s). cbv iota beta.
    rewrite (handle_key_eq b c p _ Hb Hd). cbn -[extended_scancode base_scancode orb Z.eqb].
    destruct s; simpl in Hx; subst. done.
  - rewrite (handle_key_eq b c p _ Hb Hd), Hx. cbn -[extended_scancode base_scancode orb Z.eqb].
    destruct s; simpl in Hx; subst. done.
Qed.

(** Key strokes survive the wire: for any sequence of keys going down and up,
    plain or with the 0xE0 prefix, the driver writes exactly one key event per action
    of a known key, in order, with the key's code, its direction and the character of
    the layout under the shift keys held at that moment (a shift key counting itself),
    none for unknown keys, and ends without a pending prefix. *)
Theorem keyboard_roundtrip (actions : list KeyAction) (s : Ps2d W)
    (Ha : Forall action_valid actions) (Hx : extended s = false) :
  let r := actions_meaning actions (lshift s, rshift s) in
  handle_bytes get_char true (mjoin (action_bytes <$> actions)) s =
    (Ok tt, set_input (input s ++ r.1) (set_shifts r.2.1 r.2.2 s)).
Proof.
  revert s Hx. induction Ha as [|a actions Hv Ha IH]; intros s Hx r.
  - simpl. rewrite app_nil_r. by destruct s.
  - subst r. rewrite fmap_cons. cbn [mjoin list_join actions_meaning].
    rewrite (handle_bytes_app _ _ _ s _ (action_handled a s Hv Hx)). cbv zeta.
    set (sh := shifts_after a (lshift s, rshift s)).
    set (s1 := set_input _ (set_shifts sh.1 sh.2 s)).
    pose proof (IH s1 Hx) as Hr. cbv zeta in Hr.
    replace (lshift s1, rshift s1) with sh in Hr by (by destruct sh).
    etrans; [exact Hr|]. destruct (actions_meaning actions sh) as [evs sh'].
    unfold s1, set_input, set_shifts. simpl. by rewrite <- app_assoc.
Qed.

(** Whatever bytes the two serial ports deliver and however they interleave,
    and whatever the hypervisor answers, the driver never panics after a successful
    start: the packet index stays inside the packet buffer. *)
Theorem driver_never_panics (w : W) (s : Ps2d W) (chunks : list (bool * list Z))
    (Hnew : ps2d_new w = Some s) :
  (event_loop get_char chunks s).1 ≠ Panic ∧ packet_ok (event_loop get_char chunks s).2.
Proof.
  apply event_loop_safe. unfold ps2d_new in Hnew.
  destruct (ps2_init ps2_new w) as [[extra| |] w']; try done.
  destruct (vm_enable false w') as [vm w'']. injection Hnew as <-.
  split; [done|]. simpl. destruct extra; lia.
Qed.

End safety.

(** ** The VMware mouse *)

(** What the backdoor promises: the status counts the queued words (four per
    packet), and reading four words takes the oldest packet. *)
Class VmQueue (W : Type) `{VmBackdoor W} := {
  vm_queue : W → list (Z * Z * Z * Z);
  vm_status_len (w : W) : Z.of_nat (length (vm_queue w)) < 0x4000 →
    Z.land (vm_cmd Vm.ABSPOINTER_STATUS 0 w).1.1.1.1 0xffff = 4 * Z.of_nat (length (vm_queue w));
  vm_status_keep (w : W) : vm_queue (vm_cmd Vm.ABSPOINTER_STATUS 0 w).2 = vm_queue w;
  vm_data_pop (p : Z * Z * Z * Z) (q : list (Z * Z * Z * Z)) (w : W) :
    vm_queue w = p :: q →
    (vm_cmd Vm.ABSPOINTER_DATA 4 w).1 = p ∧ vm_queue (vm_cmd Vm.ABSPOINTER_DATA 4 w).2 = q;
}.

Section vmmouse.
Context {W : Type} `{OrbKeys, PortBus W, VmQueue W}.

(** The events of one packet in absolute mode, given the last position and the
    last buttons: a move on a new position, a scroll, a button change. *)
Definition vm_packet_events (pos : Z * Z) (old : bool * bool * bool) (p : Z * Z * Z * Z)
    : list OrbEvent :=
  let '(st, dx, dy, dz) := p in
  (if decide ((as_i32 dx, as_i32 dy) = pos) then [] else [MouseEvent (as_i32 dx) (as_i32 dy)]) ++
  (if decide (dz = 0) then [] else [ScrollEvent 0 (as_i32 (- as_i32 dz))]) ++
  button_events old (Z.testbit st 5, Z.testbit st 3, Z.testbit st 4).

(** A packet's effect on the state. *)
Definition vm_packet_state (p : Z * Z * Z * Z) (s : Ps2d W) : Ps2d W :=
  let '(st, dx, dy, dz) := p in
  set_input (input s ++ vm_packet_events (mouse_x s, mouse_y s) (buttons s) p)
    (set_buttons (Z.testbit st 5) (Z.testbit st 3) (Z.testbit st 4)
       (set_position (as_i32 dx) (as_i32 dy) s)).

Lemma vmmouse_packet_eq (st dx dy dz : Z) (s : Ps2d W) :
  vmmouse_relative s = false →
  vmmouse_packet st dx dy dz s = (Ok tt, vm_packet_state (st, dx, dy, dz) s).
Proof.
  intros Hr. unfold vmmouse_packet, mbind, prog_bind, p_bind, gets. rewrite Hr.
  assert (∀ k, 0 <= k → (Z.land st (2 ^ k) =? 2 ^ k) = Z.testbit st k) as Hbit
    by (intros; by apply land_pow2_eqb).
  change Vm.LEFT_BUTTON with (2 ^ 5). change Vm.MIDDLE_BUTTON with (2 ^ 3).
  change Vm.RIGHT_BUTTON with (2 ^ 4). rewrite !Hbit by lia. clear Hbit.
  unfold vm_packet_state, vm_packet_events.
  destruct s as [mc vm vr inp ex ls rs mx my ml mm mr ps i extra]; simpl in *. subst vr.
  set (x := as_i32 dx). set (y := as_i32 dy).
  assert ((if negb (x =? mx) || negb (y =? my) then [MouseEvent x y] else []) =
          (if decide ((x, y) = (mx, my)) then [] else [MouseEvent x y])) as Hmv.
  { destruct (Z.eqb_spec x mx), (Z.eqb_spec y my); simpl;
      first [by rewrite decide_True by congruence | by rewrite decide_False by congruence]. }
  rewrite <- Hmv.
  destruct (negb (x =? mx) || negb (y =? my)) eqn:Hm; simpl.
  - rewrite cond_write_eq, report_buttons_eq. unfold set_input, set_buttons, buttons. simpl.
    rewrite <- !app_assoc. by destruct (Z.eqb_spec dz 0); simpl;
      [rewrite decide_True by done|rewrite decide_False by done].
  - apply orb_false_iff in Hm as [->%negb_false_iff%Z.eqb_eq ->%negb_false_iff%Z.eqb_eq].
    rewrite cond_write_eq, report_buttons_eq. unfold set_input, set_buttons, buttons. simpl.
    rewrite <- !app_assoc. by destruct (Z.eqb_spec dz 0); simpl;
      [rewrite decide_True by done|rewrite decide_False by done].
Qed.

(** The state without the machine. *)
Definition run_vm_packets (l : list (Z * Z * Z * Z)) (s : Ps2d W) : Ps2d W :=
  foldl (λ s p, vm_packet_state p s) s l.

Lemma vm_packet_machine (p : Z * Z * Z * Z) (w : W) (s : Ps2d W) :
  vm_packet_state p (set_machine w s) = set_machine w (vm_packet_state p s) ∧
  vmmouse_relative (vm_packet_state p s) = vmmouse_relative s.
Proof. by destruct p as [[[? ?] ?] ?]. Qed.

Lemma run_vm_packets_machine (l : list (Z * Z * Z * Z)) (w : W) (s : Ps2d W) :
  run_vm_packets l (set_machine w s) = set_machine w (run_vm_packets l s).
Proof.
  revert s. induction l as [|p l IH]; intros s; [done|]. simpl.
  destruct (vm_packet_machine p w s) as [-> _]. apply IH.
Qed.

Lemma vmmouse_loop_drains (n : nat) (s : Ps2d W) :
  vmmouse_relative s = false → Z.of_nat (length (vm_queue (machine s))) < 0x4000 →
  ∃ w, vmmouse_loop n s = (Ok tt, set_machine w (run_vm_packets (take n (vm_queue (machine s))) s)) ∧
       vm_queue w = drop n (vm_queue (machine s)).
Proof.
  revert s. induction n as [|n IH]; intros s Hr Hlen.
  { exists (machine s). split; [by destruct s|done]. }
  cbn [vmmouse_loop]. unfold do_vm_cmd, mbind, prog_bind, p_bind.
  pose proof (vm_status_len (machine s) Hlen) as Hst. pose proof (vm_status_keep (machine s)) as Hkeep.
  destruct (vm_cmd Vm.ABSPOINTER_STATUS 0 (machine s)) as [[[[st b] c] d] w1]. simpl in Hst, Hkeep.
  rewrite Hst. destruct (vm_queue (machine s)) as [|p q] eqn:Hq.
  { exists w1. simpl. split; [done|]. by rewrite Hkeep. }
  rewrite (proj2 (Z.eqb_neq (4 * _) 0)) by (simpl; lia).
  rewrite (Z.mul_comm 4), Z.mod_mul by lia. cbn [Z.eqb negb].
  destruct (vm_data_pop p q w1 Hkeep) as [Hd1 Hd2]. simpl machine.
  destruct (vm_cmd Vm.ABSPOINTER_DATA 4 w1) as [r w2]. simpl in Hd1, Hd2. subst r.
  destruct p as [[[st' dx] dy] dz]. rewrite vmmouse_packet_eq by done.
  set (s1 := vm_packet_state _ _).
  destruct (IH s1) as (w3 & H3 & H4); [done|simpl; rewrite Hd2; simpl in Hlen; lia|].
  exists w3. rewrite H3. simpl in H4 |- *. rewrite Hd2 in *. split; [|done].
  f_equal. subst s1. change (set_machine w2 (set_machine w1 s)) with (set_machine w2 s).
  destruct (vm_packet_machine (st', dx, dy, dz) w2 s) as [-> _].
  by rewrite run_vm_packets_machine.
Qed.

(** With the VMware mouse in absolute mode, one interrupt byte drains the
    hypervisor's queue: the (at most 256) oldest packets are processed in order,
    each giving exactly a move when the position changed, a scroll when there is
    one (with the sign inverted) and a button event when a button changed; what
    exceeds 256 packets stays queued in order. *)
Theorem vmmouse_drains_queue (get_char : Z → bool → Z) (s : Ps2d W) (data : Z)
    (Hv : vmmouse s = true) (Hr : vmmouse_relative s = false)
    (Hlen : Z.of_nat (length (vm_queue (machine s))) < 0x4000) :
  ∃ w, handle get_char false data s =
         (Ok tt, set_machine w (run_vm_packets (take 256 (vm_queue (machine s))) s)) ∧
       vm_queue w = drop 256 (vm_queue (machine s)).
Proof.
  unfold handle, mbind, prog_bind, p_bind, gets. rewrite Hv. by apply vmmouse_loop_drains.
Qed.
End vmmouse.

(** ** Witnesses *)

Definition all_keys : list OrbKey :=
  [K_ALT_GR; K_HOME; K_UP; K_PGUP; K_LEFT; K_RIGHT; K_END; K_DOWN; K_PGDN; K_DEL; K_ESC; K_1;
   K_2; K_3; K_4; K_5; K_6; K_7; K_8; K_9; K_0; K_MINUS; K_EQUALS; K_BKSP; K_TAB; K_Q; K_W;
   K_E; K_R; K_T; K_Y; K_U; K_I; K_O; K_P; K_BRACE_OPEN; K_BRACE_CLOSE; K_ENTER; K_CTRL; K_A;
   K_S; K_D; K_F; K_G; K_H; K_J; K_K; K_L; K_SEMICOLON; K_QUOTE; K_TICK; K_LEFT_SHIFT;
   K_BACKSLASH; K_Z; K_X; K_C; K_V; K_B; K_N; K_M; K_COMMA; K_PERIOD; K_SLASH; K_RIGHT_SHIFT;
   K_ALT; K_SPACE; K_CAPS; K_F1; K_F2; K_F3; K_F4; K_F5; K_F6; K_F7; K_F8; K_F9; K_F10;
   K_NUM_7; K_NUM_8; K_NUM_9; K_NUM_4; K_NUM_5; K_NUM_6; K_NUM_1; K_NUM_2; K_NUM_3; K_NUM_0;
   K_F11; K_F12].

(** Keys numbered from 1. *)
Definition demo_orb (k : OrbKey) : Z :=
  match k with
  | K_ALT_GR => 1 | K_HOME => 2 | K_UP => 3 | K_PGUP => 4 | K_LEFT => 5 | K_RIGHT => 6
  | K_END => 7 | K_DOWN => 8 | K_PGDN => 9 | K_DEL => 10 | K_ESC => 11 | K_1 => 12 | K_2 => 13
  | K_3 => 14 | K_4 => 15 | K_5 => 16 | K_6 => 17 | K_7 => 18 | K_8 => 19 | K_9 => 20
  | K_0 => 21 | K_MINUS => 22 | K_EQUALS => 23 | K_BKSP => 24 | K_TAB => 25 | K_Q => 26
  | K_W => 27 | K_E => 28 | K_R => 29 | K_T => 30 | K_Y => 31 | K_U => 32 | K_I => 33
  | K_O => 34 | K_P => 35 | K_BRACE_OPEN => 36 | K_BRACE_CLOSE => 37 | K_ENTER => 38
  | K_CTRL => 39 | K_A => 40 | K_S => 41 | K_D => 42 | K_F => 43 | K_G => 44 | K_H => 45
  | K_J => 46 | K_K => 47 | K_L => 48 | K_SEMICOLON => 49 | K_QUOTE => 50 | K_TICK => 51
  | K_LEFT_SHIFT => 52 | K_BACKSLASH => 53 | K_Z => 54 | K_X => 55 | K_C => 56 | K_V => 57
  | K_B => 58 | K_N => 59 | K_M => 60 | K_COMMA => 61 | K_PERIOD => 62 | K_SLASH => 63
  | K_RIGHT_SHIFT => 64 | K_ALT => 65 | K_SPACE => 66 | K_CAPS => 67 | K_F1 => 68 | K_F2 => 69
  | K_F3 => 70 | K_F4 => 71 | K_F5 => 72 | K_F6 => 73 | K_F7 => 74 | K_F8 => 75 | K_F9 => 76
  | K_F10 => 77 | K_NUM_7 => 78 | K_NUM_8 => 79 | K_NUM_9 => 80 | K_NUM_4 => 81
  | K_NUM_5 => 82 | K_NUM_6 => 83 | K_NUM_1 => 84 | K_NUM_2 => 85 | K_NUM_3 => 86
  | K_NUM_0 => 87 | K_F11 => 88 | K_F12 => 89
  end.

Definition demo_keys : OrbKeys := {| orb := demo_orb |}.

Lemma demo_orb_inverse (k : OrbKey) : all_keys !! Z.to_nat (demo_orb k - 1) = Some k.
Proof. by destruct k. Qed.

Definition demo_keys_ok : @OrbKeysOk demo_keys.
Proof.
  constructor.
  - by intros [].
  - intros k k' Heq. simpl in Heq. pose proof (demo_orb_inverse k) as H1.
    rewrite Heq, demo_orb_inverse in H1. congruence.
  - apply (bool_decide_unpack _). by vm_compute.
  - apply (bool_decide_unpack _). by vm_compute.
Qed.

(** The controller of the init witness, without a hypervisor. *)
Definition sim_vm : VmBackdoor Sim := {| vm_cmd _ _ w := ((0, 0, 0, 0), w) |}.

Definition demo_get_char (c : Z) (shift : bool) : Z := if shift then c + 1000 else c.

Definition demo_ps2d : Ps2d Sim :=
  mk_ps2d sim_boot false false [] false false false 0 0 false false false [0; 0; 0; 0] 0 true.

(** Left shift down, A down and up, shift up, cursor up (0xE0 prefix). *)
Definition demo_actions : list KeyAction :=
  [mk_action false 0x2A true; mk_action false 0x1E true; mk_action false 0x1E false;
   mk_action false 0x2A false; mk_action true 0x48 true].

Lemma keyboard_roundtrip_witness :
  let r := actions_meaning (H := demo_keys) demo_get_char demo_actions (false, false) in
  handle_bytes (H := demo_keys) (H1 := sim_vm) demo_get_char true
    [0x2A; 0x1E; 0x9E; 0xAA; 0xE0; 0x48] demo_ps2d =
    (Ok tt, set_input r.1 (set_shifts r.2.1 r.2.2 demo_ps2d)).
Proof.
  apply (keyboard_roundtrip (H := demo_keys) (H1 := sim_vm) demo_get_char (H2 := demo_keys_ok)
           demo_actions demo_ps2d); [|done].
  repeat constructor; simpl; lia.
Defined.

(** A stray byte, then right 5 and up 3 with the left button, then wheel down. *)
Definition demo_stream : list (list Z * Packet) :=
  [([0xFA - 8], mk_packet 0x09 5 3 0); ([], mk_packet 0x38 0xFF 0xFE 0x0F)].

Lemma mouse_stream_meaning_witness :
  let r := packets_meaning true (false, false, false) demo_stream.*2 in
  handle_bytes (H := demo_keys) (H1 := sim_vm) demo_get_char false
    [0xF2; 0x09; 5; 3; 0; 0x38; 0xFF; 0xFE; 0x0F] demo_ps2d =
    (Ok tt, set_input r.1 (set_all_buttons r.2 demo_ps2d)) ∧
  r.1 = [MouseRelativeEvent 5 (-3); ButtonEvent true false false; MouseRelativeEvent (-1) 2;
         ScrollEvent 0 1; ButtonEvent false false false].
Proof.
  split; [|by vm_compute].
  apply (mouse_stream_meaning (H := demo_keys) (H1 := sim_vm) demo_get_char demo_stream demo_ps2d); [done|].
  repeat constructor; simpl; unfold u_range; try lia; done.
Defined.

Lemma driver_never_panics_witness :
  ∃ s, ps2d_new (H0 := Sim_bus) (H1 := sim_vm) sim_boot = Some s ∧
    (event_loop (H := demo_keys) (H1 := sim_vm) demo_get_char
       [(true, [0xE0; 0xE0; 0x48]); (false, [0; 1; 8; 8; 8; 8; 8]); (true, [0xC8])] s).1 ≠ Panic ∧
    packet_ok (event_loop (H := demo_keys) (H1 := sim_vm) demo_get_char
       [(true, [0xE0; 0xE0; 0x48]); (false, [0; 1; 8; 8; 8; 8; 8]); (true, [0xC8])] s).2.
Proof.
  destruct (ps2d_new (H0 := Sim_bus) (H1 := sim_vm) sim_boot) as [s|] eqn:E.
  - exists s. split; [done|]. by apply (driver_never_panics (H := demo_keys) (H0 := Sim_bus) (H1 := sim_vm) demo_get_char sim_boot s).
  - exfalso. revert E. vm_compute. done.
Defined.

(** A hypervisor whose machine state is the packet queue itself. *)
Definition vm_list_cmd (c a : Z) (q : list (Z * Z * Z * Z)) : (Z * Z * Z * Z) * list (Z * Z * Z * Z) :=
  if c =? Vm.ABSPOINTER_STATUS then ((4 * Z.of_nat (length q), 0, 0, 0), q)
  else match q with p :: q => (p, q) | [] => ((0, 0, 0, 0), []) end.

Definition vm_list : VmBackdoor (list (Z * Z * Z * Z)) := {| vm_cmd := vm_list_cmd |}.

Definition vm_list_queue : @VmQueue (list (Z * Z * Z * Z)) vm_list.
Proof.
  refine {| vm_queue q := q |}.
  - intros q Hq. cbn -[Z.land Z.mul]. rewrite Z.land_comm. change 0xffff with (Z.ones 16).
    rewrite Z.land_comm, Z.land_ones by lia. apply Z.mod_small. lia.
  - done.
  - by intros p q w ->.
Defined.

(** Two packets: a move with a click, then a scroll with the click released. *)
Definition demo_vm : Ps2d (list (Z * Z * Z * Z)) :=
  mk_ps2d [(0x20, 100, 200, 0); (0, 100, 200, 1)] true false [] false false false 0 0 false false false
    [0; 0; 0; 0] 0 false.

Lemma vmmouse_drains_queue_witness :
  (∃ w, handle (H := demo_keys) (H1 := vm_list) demo_get_char false 0 demo_vm =
          (Ok tt, set_machine w (run_vm_packets (take 256 (machine demo_vm)) demo_vm)) ∧
        w = drop 256 (machine demo_vm)) ∧
  input (run_vm_packets (machine demo_vm) demo_vm) =
    [MouseEvent 100 200; ButtonEvent true false false; ScrollEvent 0 (-1); ButtonEvent false false false].
Proof.
  split; [|by vm_compute].
  apply (vmmouse_drains_queue (H := demo_keys) (H1 := vm_list) (H2 := vm_list_queue) demo_get_char
           demo_vm 0); done.
Defined.
