(* ===== verification/VirtioQueue.v ===== *)
(** Split virtqueues (virtio-core/src/transport.rs, virtio-core/src/utils.rs,
    virtio-core/src/spec/split_virtqueue.rs).

    [Queue] is the driver's queue with the memory it shares with the device: the
    descriptor table, the available ring (written by the driver) and the used ring
    (written by the device).  [send] publishes a chain of buffers; [poll] is one poll
    of the future that [send] returns.  The free descriptors are a FIFO
    ([crossbeam_queue::SegQueue]).  The walk over a finished chain has fuel: a chain
    of the driver's own making is never longer than the table.  [step] interleaves
    the driver with a device that completes chains in any order. *)

From S2P Require Import Prelude Sgl.

(** ** Layout *)

Definition align (val al : Z) : Z := Z.land (as_usize (val + al)) (Z.lnot al mod 2 ^ 64).

Definition size_of_Descriptor : Z := 16.

Definition size_of_AvailableRing : Z := 4.

Definition size_of_AvailableRingElement : Z := 2.

Definition size_of_AvailableRingExtra : Z := 2.

Definition size_of_UsedRing : Z := 4.

Definition size_of_UsedRingElement : Z := 8.

Definition size_of_UsedRingExtra : Z := 2.

Definition is_power_of_two (x : Z) : bool := (0 <? x) && (x =? 2 ^ Z.log2 x).

Section layout.
Context `{Platform}.

(** [None] is the panic of the assertion. *)
Definition queue_part_sizes (queue_size : Z) : option (Z * Z * Z) :=
  if is_power_of_two queue_size && negb (queue_size =? 0) then
    let desc := size_of_Descriptor * queue_size in
    let avail_header := size_of_AvailableRing + size_of_AvailableRingExtra in
    let avail := avail_header + size_of_AvailableRingElement * queue_size in
    let used_header := size_of_UsedRing + size_of_UsedRingExtra in
    let used := used_header + size_of_UsedRingElement * queue_size in
    Some (next_multiple_of (align desc 16) PAGE_SIZE, next_multiple_of (align avail 2) PAGE_SIZE,
          next_multiple_of (align used 4) PAGE_SIZE)
  else None.
End layout.

(** ** Descriptors and chains *)

Module DescriptorFlags.
Definition NEXT : Z := Z.shiftl 1 0.
Definition WRITE_ONLY : Z := Z.shiftl 1 1.
Definition INDIRECT : Z := Z.shiftl 1 2.
End DescriptorFlags.

Record Descriptor := mk_descriptor { d_address : Z; d_size : Z; d_flags : Z; d_next : Z }.

Definition set_addr (a : Z) (d : Descriptor) : Descriptor :=
  mk_descriptor a (d_size d) (d_flags d) (d_next d).

Definition set_size (n : Z) (d : Descriptor) : Descriptor :=
  mk_descriptor (d_address d) n (d_flags d) (d_next d).

Definition set_next (n : option Z) (d : Descriptor) : Descriptor :=
  mk_descriptor (d_address d) (d_size d) (d_flags d) (default 0 n).

Definition set_flags (f : Z) (d : Descriptor) : Descriptor :=
  mk_descriptor (d_address d) (d_size d) f (d_next d).

(** [self.flags().contains(NEXT)], after [from_bits_truncate]. *)
Definition has_next (d : Descriptor) : bool :=
  Z.land (Z.land (d_flags d) 7) DescriptorFlags.NEXT =? DescriptorFlags.NEXT.

Record Buffer := mk_buffer { b_buffer : Z; b_size : Z; b_flags : Z }.

(** [Buffer::new], [new_unsized] and [new_sized] on a DMA allocation at [physical]. *)
Definition buffer_new (physical size_of_T : Z) : Buffer := mk_buffer physical size_of_T 0.

Definition buffer_new_unsized (physical size_of_T len : Z) : Buffer :=
  mk_buffer physical (as_usize (size_of_T * len)) 0.

Definition buffer_new_sized (physical size : Z) : Buffer := mk_buffer physical size 0.

Definition buffer_flags (f : Z) (b : Buffer) : Buffer := mk_buffer (b_buffer b) (b_size b) f.

(** [ChainBuilder]: the buffers so far. *)
Definition chain_new : list Buffer := [].

Definition chain (b : Buffer) (l : list Buffer) : list Buffer :=
  l ++ [buffer_flags (Z.lor (b_flags b) DescriptorFlags.NEXT) b].

(** [None] is the panic on an empty chain. *)
Fixpoint build (l : list Buffer) : option (list Buffer) :=
  match l with
  | [] => None
  | [b] => Some [buffer_flags (Z.ldiff (b_flags b) DescriptorFlags.NEXT) b]
  | b :: l => cons b <$> build l
  end.

(** ** The queue *)

Record Queue := mk_queue {
  queue_index : Z;
  queue_size : nat;
  descriptor : list Descriptor;
  (** The available ring. *)
  avail_head : Z;
  avail_elements : list Z;
  (** The used ring: [table_index] and [written]. *)
  used_head_index : Z;
  used_elements : list (Z * Z);
  (** The driver's copy of the used index. *)
  used_head : Z;
  descriptor_stack : list Z;
  (** Requests with a registered waker. *)
  waker : gset Z;
  (** Writes to the notification register. *)
  bell : list Z;
}.

Definition set_descriptor (d : list Descriptor) (q : Queue) : Queue :=
  mk_queue (queue_index q) (queue_size q) d (avail_head q) (avail_elements q) (used_head_index q)
    (used_elements q) (used_head q) (descriptor_stack q) (waker q) (bell q).

Definition set_avail (h : Z) (e : list Z) (q : Queue) : Queue :=
  mk_queue (queue_index q) (queue_size q) (descriptor q) h e (used_head_index q)
    (used_elements q) (used_head q) (descriptor_stack q) (waker q) (bell q).

Definition set_used (h : Z) (e : list (Z * Z)) (q : Queue) : Queue :=
  mk_queue (queue_index q) (queue_size q) (descriptor q) (avail_head q) (avail_elements q) h e
    (used_head q) (descriptor_stack q) (waker q) (bell q).

Definition set_used_head (h : Z) (q : Queue) : Queue :=
  mk_queue (queue_index q) (queue_size q) (descriptor q) (avail_head q) (avail_elements q)
    (used_head_index q) (used_elements q) h (descriptor_stack q) (waker q) (bell q).

Definition set_stack (l : list Z) (q : Queue) : Queue :=
  mk_queue (queue_index q) (queue_size q) (descriptor q) (avail_head q) (avail_elements q)
    (used_head_index q) (used_elements q) (used_head q) l (waker q) (bell q).

Definition set_waker (w : gset Z) (q : Queue) : Queue :=
  mk_queue (queue_index q) (queue_size q) (descriptor q) (avail_head q) (avail_elements q)
    (used_head_index q) (used_elements q) (used_head q) (descriptor_stack q) w (bell q).

Definition set_bell (b : list Z) (q : Queue) : Queue :=
  mk_queue (queue_index q) (queue_size q) (descriptor q) (avail_head q) (avail_elements q)
    (used_head_index q) (used_elements q) (used_head q) (descriptor_stack q) (waker q) b.

Abbreviation qprog := (prog Queue errno).

(** [0..n as u16], the free descriptors of a table of [n]. *)
Definition all_descriptors (n : nat) : list Z := Z.of_nat <$> seq 0 (Z.to_nat (as_u16 (Z.of_nat n))).

(** [Available::from_raw]: every element is set to [u16::MAX]. *)
Definition available_elements (n : nat) : list Z := replicate n 0xFFFF.

(** [Used::from_raw]: element [i % 256] is set to [u32::MAX] for each [i]. *)
Definition used_init (n : nat) : list (Z * Z) :=
  foldl (λ l i, alter (λ e, (0xFFFFFFFF, e.2)) (i mod 256)%nat l) (replicate n (0, 0)) (seq 0 n).

Definition queue_new (index : Z) (n : nat) : Queue :=
  mk_queue index n (replicate n (mk_descriptor 0 0 0 0)) 0 (available_elements n) 0 (used_init n) 0
    (all_descriptors n) ∅ [].

Definition reinit : qprog unit :=
  _ ← modify (set_used_head 0);
  _ ← modify (λ q, set_avail 0 (avail_elements q) q);
  _ ← modify (set_stack []);
  modify (λ q, set_stack (all_descriptors (length (descriptor q))) q).

(** [descriptor_stack.pop()] and [push]. *)
Definition pop : qprog (option Z) := λ q,
  match descriptor_stack q with
  | [] => (Ok None, q)
  | d :: l => (Ok (Some d), set_stack l q)
  end.

Definition push (d : Z) : qprog unit := modify (λ q, set_stack (descriptor_stack q ++ [d]) q).

(** [self.descriptor[i]], which panics out of range, and an update of it. *)
Definition descriptor_at (i : Z) : qprog Descriptor :=
  t ← gets descriptor; unwrap (t !! Z.to_nat i).

Definition update_descriptor (i : Z) (f : Descriptor → Descriptor) : qprog unit :=
  d ← descriptor_at i;
  modify (λ q, set_descriptor (<[Z.to_nat i := f d]> (descriptor q)) q).

(** The loop of [send] over the buffers. *)
Fixpoint send_loop (chain : list Buffer) (first last : option Z) : qprog (option Z * option Z) :=
  match chain with
  | [] => p_ret (first, last)
  | b :: chain =>
      d ← pop;
      d ← unwrap d;
      let first := match first with None => Some d | Some _ => first end in
      _ ← update_descriptor d (set_addr (as_u64 (b_buffer b)));
      _ ← update_descriptor d (set_flags (b_flags b));
      _ ← update_descriptor d (set_size (as_u32 (b_size b)));
      _ ← match last with
          | Some i => update_descriptor i (set_next (Some (as_u16 d)))
          | None => p_ret tt
          end;
      send_loop chain first (Some d)
  end.

(** Available element [index % queue_size]. *)
Definition set_available (index table_index : Z) : qprog unit :=
  n ← gets queue_size;
  e ← gets avail_elements;
  if decide (n = 0%nat) then panic
  else
    let i := (Z.to_nat index mod n)%nat in
    _ ← unwrap (e !! i);
    modify (λ q, set_avail (avail_head q) (<[i := table_index]> (avail_elements q)) q).

(** Answers the [first_descriptor] of the future. *)
Definition send (chain : list Buffer) : qprog Z :=
  r ← send_loop chain None None;
  last ← unwrap r.2;
  first ← unwrap r.1;
  _ ← update_descriptor last (set_next None);
  index ← gets avail_head;
  _ ← set_available index (as_u16 first);
  _ ← modify (λ q, set_avail (as_u16 (index + 1)) (avail_elements q) q);
  _ ← modify (λ q, set_bell (bell q ++ [queue_index q]) q);
  p_ret first.

(** Used element [index % queue_size]. *)
Definition used_at (index : Z) : qprog (Z * Z) :=
  n ← gets queue_size;
  e ← gets used_elements;
  if decide (n = 0%nat) then panic else unwrap (e !! (Z.to_nat index mod n)%nat).

(** The walk that gives the descriptors back; [None] when the fuel runs out. *)
Fixpoint recycle (fuel : nat) (table_index : Z) : qprog (option Z) :=
  match fuel with
  | O => p_ret None
  | S fuel =>
      d ← descriptor_at table_index;
      if has_next d then
        _ ← push (as_u16 table_index);
        recycle fuel (d_next d)
      else p_ret (Some table_index)
  end.

(** [Some written] is [Poll::Ready]. *)
Definition poll (first_descriptor : Z) : qprog (option Z) :=
  _ ← modify (λ q, set_waker ({[first_descriptor]} ∪ waker q) q);
  head ← gets used_head_index;
  mine ← gets used_head;
  if decide (head = mine) then p_ret None
  else
    e ← used_at (as_u16 (head - 1));
    let '(table_index, written) := e in
    if decide (table_index = first_descriptor) then
      n ← gets (λ q, length (descriptor q));
      last ← recycle n table_index;
      last ← unwrap last;
      _ ← push (as_u16 last);
      _ ← modify (λ q, set_waker (waker q ∖ {[first_descriptor]}) q);
      _ ← modify (set_used_head head);
      p_ret (Some written)
    else p_ret None.

(** ** Chains in the descriptor table *)

(** Table entry [i]. *)
Definition entry (t : list Descriptor) (i : Z) : option Descriptor := t !! Z.to_nat i.

Definition in_table (t : list Descriptor) (i : Z) : Prop := 0 <= i < Z.of_nat (length t).

(** [ids] is a chain: every descriptor but the last points to the next one. *)
Fixpoint linked (t : list Descriptor) (ids : list Z) : Prop :=
  match ids with
  | [] => False
  | [i] => ∃ d, entry t i = Some d ∧ has_next d = false
  | i :: (j :: _) as rest => ∃ d, entry t i = Some d ∧ has_next d = true ∧ d_next d = j ∧ linked t rest
  end.

(** The chain [ids] describes [bufs], in order. *)
Fixpoint describes (t : list Descriptor) (ids : list Z) (bufs : list Buffer) : Prop :=
  match ids, bufs with
  | [], [] => True
  | i :: ids, b :: bufs =>
      (∃ d, entry t i = Some d ∧ d_address d = as_u64 (b_buffer b) ∧ d_size d = as_u32 (b_size b) ∧
            d_flags d = b_flags b ∧ match ids with j :: _ => d_next d = j | [] => True end) ∧
      describes t ids bufs
  | _, _ => False
  end.

(** [NEXT] is set on every buffer but the last. *)
Fixpoint chain_flags (bufs : list Buffer) : Prop :=
  match bufs with
  | [] => False
  | [b] => Z.testbit (b_flags b) 0 = false
  | b :: bufs => Z.testbit (b_flags b) 0 = true ∧ chain_flags bufs
  end.

Lemma has_next_bit (d : Descriptor) : has_next d = Z.testbit (d_flags d) 0.
Proof.
  unfold has_next. change DescriptorFlags.NEXT with (2 ^ 0). rewrite land_pow2_eqb by lia.
  change 7 with (Z.ones 3). rewrite Z.land_spec, Z.ones_spec_low by lia. apply andb_true_r.
Qed.

Lemma describes_linked (t : list Descriptor) (ids : list Z) (bufs : list Buffer) :
  describes t ids bufs → chain_flags bufs → linked t ids.
Proof.
  revert bufs. induction ids as [|i ids IH]; intros [|b bufs]; try done.
  intros [(d & He & _ & _ & Hf & Hn) Hd] Hc.
  destruct ids as [|j ids], bufs as [|b' bufs]; try done.
  - exists d. split; [done|]. by rewrite has_next_bit, Hf.
  - destruct Hc as [Hb Hc]. exists d. split; [done|]. split; [by rewrite has_next_bit, Hf|].
    split; [done|]. by apply (IH (b' :: bufs)).
Qed.

Lemma entry_is_Some (t : list Descriptor) (i : Z) : in_table t i → ∃ d, entry t i = Some d.
Proof. intros Hi. apply lookup_lt_is_Some_2. unfold in_table in Hi. lia. Qed.

Lemma entry_insert_ne (t : list Descriptor) (i j : Z) (d : Descriptor) :
  0 <= i → 0 <= j → i ≠ j → entry (<[Z.to_nat i := d]> t) j = entry t j.
Proof. intros. unfold entry. apply list_lookup_insert_ne. lia. Qed.

Lemma entry_insert_eq (t : list Descriptor) (i : Z) (d : Descriptor) :
  in_table t i → entry (<[Z.to_nat i := d]> t) i = Some d.
Proof. intros Hi. unfold entry, in_table in *. apply list_lookup_insert_eq. lia. Qed.

(** Chains elsewhere in the table are not affected by a change of the table. *)
Lemma linked_frame (t t' : list Descriptor) (ids : list Z) :
  (∀ i, i ∈ ids → entry t' i = entry t i) → linked t ids → linked t' ids.
Proof.
  induction ids as [|i ids IH]; [done|]. intros Ht Hl. destruct ids as [|j ids].
  - destruct Hl as (d & He & Hd). exists d. split; [|done]. rewrite Ht by set_solver. done.
  - destruct Hl as (d & He & Hd & Hn & Hl). exists d. rewrite Ht by set_solver.
    split; [done|]. split; [done|]. split; [done|]. apply IH; [|done]. intros k Hk. apply Ht. set_solver.
Qed.

Lemma update_descriptor_eq (i : Z) (f : Descriptor → Descriptor) (q : Queue) (d : Descriptor) :
  entry (descriptor q) i = Some d →
  update_descriptor i f q = (Ok tt, set_descriptor (<[Z.to_nat i := f d]> (descriptor q)) q).
Proof.
  intros He. unfold update_descriptor, descriptor_at, mbind, prog_bind, p_bind, gets.
  unfold entry in He. by rewrite He.
Qed.

(** What [send_loop] leaves of a descriptor. *)
Definition written (b : Buffer) (next : Z) : Descriptor :=
  mk_descriptor (as_u64 (b_buffer b)) (as_u32 (b_size b)) (b_flags b) next.

(** One round of the loop. *)
Lemma send_round (d : Z) (rest : list Z) (b : Buffer) (last : option Z) (q : Queue) (d0 : Descriptor) :
  descriptor_stack q = d :: rest → entry (descriptor q) d = Some d0 → in_table (descriptor q) d →
  (∀ i, last = Some i → in_table (descriptor q) i ∧ i ≠ d) → u_range 16 d →
  ∃ t1, length t1 = length (descriptor q) ∧
    entry t1 d = Some (written b (d_next d0)) ∧
    (∀ i, last = Some i → entry t1 i = set_next (Some d) <$> entry (descriptor q) i) ∧
    (∀ j, 0 <= j → j ≠ d → last ≠ Some j → entry t1 j = entry (descriptor q) j) ∧
    ∀ chain first, send_loop (b :: chain) first last q =
      send_loop chain (match first with None => Some d | Some _ => first end) (Some d)
        (set_stack rest (set_descriptor t1 q)).
Proof.
  intros Hs He Hin Hlast Hu. set (t := descriptor q) in *.
  assert (∀ chain first, send_loop (b :: chain) first last q =
    (_ ← match last with
         | Some i => update_descriptor i (set_next (Some d))
         | None => p_ret tt
         end;
     send_loop chain (match first with None => Some d | Some _ => first end) (Some d))
    (set_stack rest (set_descriptor (<[Z.to_nat d := written b (d_next d0)]> t) q))) as Hloop.
  { intros chain first. cbn [send_loop]. unfold mbind, prog_bind, p_bind, pop. rewrite Hs. cbn [unwrap p_ret].
    set (q1 := set_stack rest q).
    rewrite (update_descriptor_eq d _ q1 d0) by done.
    erewrite (update_descriptor_eq d) by (by apply entry_insert_eq).
    erewrite (update_descriptor_eq d).
    2:{ simpl. rewrite list_insert_insert_eq. by apply entry_insert_eq. }
    simpl. rewrite !list_insert_insert_eq. unfold as_u16. rewrite as_u_id by done. done. }
  set (t0 := <[Z.to_nat d := written b (d_next d0)]> t) in *.
  assert (in_table t0 d) as Hin0 by (unfold in_table, t0; by rewrite length_insert).
  destruct last as [i|].
  - destruct (Hlast i eq_refl) as [Hi Hne]. destruct (entry_is_Some t i Hi) as [di Hdi].
    exists (<[Z.to_nat i := set_next (Some d) di]> t0).
    assert (entry t0 i = Some di) as Hi0.
    { unfold t0. rewrite entry_insert_ne; [done|unfold in_table in *; lia..|done]. }
    split; [by unfold t0; rewrite !length_insert|]. split; [|split; [|split]].
    + rewrite entry_insert_ne by (unfold in_table in *; lia || done).
      by apply entry_insert_eq.
    + intros ? [= <-]. rewrite entry_insert_eq by (unfold in_table, t0 in *; rewrite length_insert; lia).
      by rewrite Hdi.
    + intros j Hj Hjd Hji. rewrite entry_insert_ne by (unfold in_table in *; lia || congruence).
      unfold t0. apply entry_insert_ne; [unfold in_table in *; lia|done|done].
    + intros chain first. rewrite Hloop. unfold mbind, prog_bind, p_bind.
      by rewrite (update_descriptor_eq i _ _ di).
  - exists t0. split; [by unfold t0; rewrite length_insert|]. split; [by apply entry_insert_eq|].
    split; [done|]. split; [|by intros; rewrite Hloop].
    intros j Hj Hjd _. unfold t0. apply entry_insert_ne; [unfold in_table in *; lia|done|done].
Qed.

(** The loop of [send]: the descriptors [ids] taken from the free list describe the
    buffers, the previous descriptor is linked to the first of them, nothing else
    of the table changes. *)
Lemma send_loop_spec (bufs : list Buffer) (ids rest : list Z) (first last : option Z) (q : Queue) :
  descriptor_stack q = ids ++ rest → length ids = length bufs → NoDup ids →
  Forall (in_table (descriptor q)) ids → Z.of_nat (length (descriptor q)) <= 2 ^ 16 →
  (∀ i, last = Some i → in_table (descriptor q) i ∧ i ∉ ids) →
  ∃ t', length t' = length (descriptor q) ∧ describes t' ids bufs ∧
    (∀ i, last = Some i → entry t' i =
       match ids with d :: _ => set_next (Some d) <$> entry (descriptor q) i | [] => entry (descriptor q) i end) ∧
    (∀ j, 0 <= j → j ∉ ids → last ≠ Some j → entry t' j = entry (descriptor q) j) ∧
    send_loop bufs first last q =
      (Ok (match first with None => head ids | Some _ => first end,
           match list.last ids with Some d => Some d | None => last end),
       set_stack rest (set_descriptor t' q)).
Proof.
  revert ids first last q. induction bufs as [|b bufs IH]; intros [|d ids] first last q Hs Hlen Hnd Hin Hsz Hlast;
    try done.
  - exists (descriptor q). split; [done|]. split; [done|]. split; [done|]. split; [done|].
    simpl. simpl in Hs. subst. destruct first, q; done.
  - apply NoDup_cons in Hnd as [Hd Hnd]. apply Forall_cons in Hin as [Hdin Hin].
    destruct (entry_is_Some _ _ Hdin) as [d0 Hd0].
    destruct (send_round d (ids ++ rest) b last q d0) as (t1 & L1 & E1 & P1 & F1 & Hround); [done|done|done| | |].
    { intros i Hi. destruct (Hlast i Hi). split; [done|]. set_solver. }
    { unfold u_range, in_table in *. lia. }
    set (q1 := set_stack (ids ++ rest) (set_descriptor t1 q)) in *.
    destruct (IH ids (match first with None => Some d | Some _ => first end) (Some d) q1)
      as (t2 & L2 & D2 & P2 & F2 & H2).
    + done.
    + simpl in Hlen. lia.
    + done.
    + eapply Forall_impl; [exact Hin|]. intros x Hx. unfold in_table in *. simpl. by rewrite L1.
    + simpl. by rewrite L1.
    + intros i [= <-]. split; [|done]. unfold in_table in *. simpl. by rewrite L1.
    + exists t2. split; [simpl in L2; congruence|]. split; [|split; [|split]].
      * split; [|done]. rewrite (P2 d eq_refl). simpl. rewrite E1.
        destruct ids as [|j ids]; simpl; (eexists; split; [done|]; done).
      * intros i Hi. destruct (Hlast i Hi) as [Hit Hni].
        rewrite F2 by (unfold in_table in *; try lia; set_solver). apply (P1 i Hi).
      * intros j Hj Hjn Hjl. rewrite F2 by (try lia; set_solver). apply F1; [done|set_solver|done].
      * rewrite Hround, H2. do 3 f_equal.
        -- by destruct first.
        -- destruct ids as [|j ids]; [done|]. simpl. by destruct (list.last (j :: ids)) eqn:E; [|by rewrite last_None in E].
Qed.

(** ** Ownership of the descriptors *)

(** Every descriptor is either free or belongs to exactly one request in flight,
    whose chain is linked up. *)
Record queue_ok (q : Queue) (inflight : list (list Z)) : Prop := {
  ok_size : 0 < Z.of_nat (queue_size q) <= 32768;
  ok_desc : length (descriptor q) = queue_size q;
  ok_avail : length (avail_elements q) = queue_size q;
  ok_used : length (used_elements q) = queue_size q;
  ok_owned : descriptor_stack q ++ mjoin inflight ≡ₚ Z.of_nat <$> seq 0 (queue_size q);
  ok_linked : Forall (linked (descriptor q)) inflight;
}.

Lemma ids_perm_facts (n : nat) (l1 l2 : list Z) :
  l1 ++ l2 ≡ₚ Z.of_nat <$> seq 0 n →
  NoDup (l1 ++ l2) ∧ (∀ i, i ∈ l1 ++ l2 → 0 <= i < Z.of_nat n) ∧ (length l1 + length l2 = n)%nat.
Proof.
  intros Hp. split; [|split].
  - rewrite Hp. apply NoDup_fmap_2; [apply _|]. apply NoDup_seq.
  - intros i. rewrite Hp, list_elem_of_fmap. intros (k & -> & Hk%elem_of_seq). lia.
  - rewrite <- length_app, Hp, length_fmap, length_seq. done.
Qed.

(** A step that only moves descriptors around between owners. *)
Lemma queue_ok_inflight (q : Queue) (l1 l2 : list (list Z)) :
  l1 ≡ₚ l2 → queue_ok q l1 → queue_ok q l2.
Proof.
  intros Hp [? ? ? ? Ho Hl]. split; try done.
  - rewrite <- Ho. f_equiv. by rewrite Hp.
  - by rewrite <- Hp.
Qed.

(** Clearing the next field of the last descriptor keeps the description. *)
Lemma describes_close (t : list Descriptor) (ids : list Z) (bufs : list Buffer) (lst : Z) (d : Descriptor) :
  describes t ids bufs → NoDup ids → Forall (in_table t) ids → list.last ids = Some lst →
  entry t lst = Some d → describes (<[Z.to_nat lst := set_next None d]> t) ids bufs.
Proof.
  revert bufs. induction ids as [|i ids IH]; intros [|b bufs]; try done.
  intros [(di & Hi & Hda & Hds & Hdf & Hdn) Hd] [Hni Hnd]%NoDup_cons [Hti Htl]%Forall_cons Hl He.
  destruct ids as [|j ids].
  - injection Hl as ->. rewrite Hi in He. injection He as ->.
    split; [|done]. rewrite entry_insert_eq by done. by exists (set_next None d).
  - change (list.last (i :: j :: ids)) with (list.last (j :: ids)) in Hl.
    split; [|by apply IH].
    assert (lst ∈ j :: ids) as Hin.
    { apply last_Some in Hl as [pre ->]. set_solver. }
    rewrite Forall_forall in Htl. pose proof (Htl lst Hin) as Hlt. unfold in_table in *.
    rewrite entry_insert_ne by (try lia; set_solver). by exists di.
Qed.

(** [send] with enough free descriptors. *)
Lemma send_ok (bufs : list Buffer) (q : Queue) (inflight : list (list Z)) :
  queue_ok q inflight → chain_flags bufs → (length bufs <= length (descriptor_stack q))%nat →
  ∃ q' first ids,
    send bufs q = (Ok first, q') ∧ ids = take (length bufs) (descriptor_stack q) ∧ head ids = Some first ∧
    queue_ok q' (ids :: inflight) ∧ describes (descriptor q') ids bufs ∧
    descriptor_stack q' = drop (length bufs) (descriptor_stack q) ∧
    avail_head q' = as_u16 (avail_head q + 1) ∧
    avail_elements q' = <[(Z.to_nat (avail_head q) mod queue_size q)%nat := first]> (avail_elements q) ∧
    bell q' = bell q ++ [queue_index q] ∧
    used_head q' = used_head q ∧ used_head_index q' = used_head_index q ∧
    used_elements q' = used_elements q ∧ queue_size q' = queue_size q.
Proof.
  intros [Hsz Hd Ha Hu Ho Hl] Hf Hlen.
  set (ids := take (length bufs) (descriptor_stack q)).
  set (rest := drop (length bufs) (descriptor_stack q)).
  assert (descriptor_stack q = ids ++ rest) as Hst by (symmetry; apply take_drop).
  assert (length ids = length bufs) as Hli by (unfold ids; rewrite length_take; lia).
  rewrite Hst, <- app_assoc in Ho.
  destruct (ids_perm_facts _ _ _ Ho) as (Hnd & Hrange & Hcount).
  apply NoDup_app in Hnd as (Hndi & Hdisj & Hndr).
  assert (Forall (in_table (descriptor q)) ids) as Hin.
  { apply Forall_forall. intros i Hi. unfold in_table. rewrite Hd. apply Hrange. set_solver. }
  destruct (send_loop_spec bufs ids rest None None q) as (t1 & L1 & D1 & _ & F1 & Hloop); try done.
  { rewrite Hd. lia. }
  destruct bufs as [|b bufs]; [done|]. destruct ids as [|first ids'] eqn:Eids; [done|]. rewrite <- Eids in *.
  destruct (list.last ids) as [lst|] eqn:Elast; [|apply last_None in Elast; by rewrite Elast in Eids].
  assert (head ids = Some first) as Hhd by (by rewrite Eids). rewrite Hhd in Hloop.
  assert (lst ∈ ids) as Hlin by (apply last_Some in Elast as [pre ->]; set_solver).
  assert (Forall (in_table t1) ids) as Hin1.
  { eapply Forall_impl; [exact Hin|]. intros x Hx. unfold in_table in *. by rewrite L1. }
  assert (in_table t1 lst) as Hlt by (rewrite Forall_forall in Hin1; by apply Hin1).
  destruct (entry_is_Some t1 lst Hlt) as [dl Hdl].
  set (t2 := <[Z.to_nat lst := set_next None dl]> t1).
  assert (describes t2 ids (b :: bufs)) as D2 by (by apply describes_close).
  assert (u_range 16 first) as Hfu.
  { unfold u_range. assert (first ∈ ids) as Hfi by (rewrite Eids; constructor).
    rewrite Forall_forall in Hin. pose proof (Hin _ Hfi) as Hx. unfold in_table in Hx. rewrite Hd in Hx.
    change (2 ^ 16) with 65536. lia. }
  set (i := (Z.to_nat (avail_head q) mod queue_size q)%nat).
  assert (i < length (avail_elements q))%nat as Hi by (rewrite Ha; apply Nat.mod_upper_bound; lia).
  destruct (lookup_lt_is_Some_2 _ _ Hi) as [e He].
  eexists _, first, ids. split; [|split; [done|]].
  { unfold send, mbind, prog_bind. rewrite (bind_Ok _ _ _ _ _ Hloop). cbn [fst snd].
    unfold p_bind at 1 2. cbn [unwrap p_ret].
    rewrite (bind_Ok _ _ _ _ _ (update_descriptor_eq lst (set_next None)
               (set_stack rest (set_descriptor t1 q)) dl Hdl)).
    unfold p_bind at 1, gets at 1. cbn [avail_head set_descriptor set_stack].
    assert (∀ q0 : Queue, queue_size q0 = queue_size q → avail_elements q0 = avail_elements q →
      set_available (avail_head q) (as_u16 first) q0 =
      (Ok tt, set_avail (avail_head q0) (<[i := first]> (avail_elements q)) q0)) as Hav.
    { intros q0 Hq1 Hq2. unfold set_available, mbind, prog_bind, p_bind, gets. rewrite Hq1, Hq2.
      rewrite decide_False by lia. fold i. rewrite He. unfold as_u16. rewrite as_u_id by done.
      unfold modify. cbn [unwrap p_ret]. by rewrite Hq2. }
    erewrite bind_Ok; [|by apply Hav]. reflexivity. }
  split; [done|]. split; [split|]; cbn; try done.
  - rewrite length_insert, L1. done.
  - by rewrite length_insert.
  - rewrite <- Ho. apply Permutation_app_swap_app.
  - apply Forall_cons. split; [by apply (describes_linked _ _ (b :: bufs))|].
    apply Forall_forall. intros c Hc. rewrite Forall_forall in Hl. apply (linked_frame (descriptor q)); [|by auto].
    intros k Hk. assert (k ∈ mjoin inflight) as Hkm by (apply list_elem_of_join; eauto).
    assert (k ∉ ids) as Hkn by (intros Hx; apply (Hdisj k Hx); set_solver).
    assert (0 <= k) as Hk0 by (apply Hrange; set_solver).
    unfold t2. rewrite entry_insert_ne by (unfold in_table in *; try lia; set_solver). by apply F1.
Qed.

(** ** Completion *)

Lemma descriptor_at_eq (i : Z) (q : Queue) (d : Descriptor) :
  entry (descriptor q) i = Some d → descriptor_at i q = (Ok d, q).
Proof. intros He. unfold descriptor_at, mbind, prog_bind, p_bind, gets. unfold entry in He. by rewrite He. Qed.

(** The walk frees a linked chain up to its last descriptor, within as much fuel
    as the chain is long. *)
Lemma recycle_linked (ids : list Z) (fuel : nat) (i : Z) (q : Queue) :
  linked (descriptor q) (i :: ids) → (length (i :: ids) <= fuel)%nat → Forall (u_range 16) (i :: ids) →
  ∃ pre lst, i :: ids = pre ++ [lst] ∧
    recycle fuel i q = (Ok (Some lst), set_stack (descriptor_stack q ++ pre) q).
Proof.
  revert fuel i q. induction ids as [|j ids IH]; intros [|fuel] i q Hl Hf Hu; try (simpl in Hf; lia).
  - destruct Hl as (d & He & Hd). exists [], i. split; [done|]. cbn [recycle].
    unfold mbind, prog_bind. rewrite (bind_Ok _ _ _ _ _ (descriptor_at_eq i q d He)), Hd.
    rewrite app_nil_r. by destruct q.
  - destruct Hl as (d & He & Hd & Hn & Hl). apply Forall_cons in Hu as [Hi Hu].
    set (q1 := set_stack (descriptor_stack q ++ [i]) q).
    destruct (IH fuel j q1) as (pre & lst & Hp & Hr); [done|simpl in *; lia|done|].
    exists (i :: pre), lst. split; [by rewrite Hp|]. cbn [recycle].
    unfold mbind, prog_bind. rewrite (bind_Ok _ _ _ _ _ (descriptor_at_eq i q d He)), Hd.
    unfold p_bind, push, modify. unfold as_u16. rewrite as_u_id by done. fold q1. rewrite Hn, Hr.
    unfold q1, set_stack. simpl. by rewrite <- app_assoc.
Qed.

Lemma linked_cons (t : list Descriptor) (ids : list Z) : linked t ids → ∃ i l, ids = i :: l.
Proof. destruct ids; [done|eauto]. Qed.

(** A poll that finds the request's head in the newest used element. *)
Lemma poll_ready (first w : Z) (ids : list Z) (q : Queue) (inflight : list (list Z)) :
  queue_ok q (ids :: inflight) → head ids = Some first →
  used_head_index q ≠ used_head q →
  used_elements q !! (Z.to_nat (as_u16 (used_head_index q - 1)) mod queue_size q)%nat = Some (first, w) →
  ∃ q', poll first q = (Ok (Some w), q') ∧ queue_ok q' inflight ∧
    descriptor_stack q' = descriptor_stack q ++ ids ∧ used_head q' = used_head_index q ∧
    avail_head q' = avail_head q ∧ avail_elements q' = avail_elements q ∧
    used_head_index q' = used_head_index q ∧ used_elements q' = used_elements q ∧
    queue_size q' = queue_size q ∧ first ∉ waker q'.
Proof.
  intros [Hsz Hd Ha Hu Ho Hl] Hh Hne Hel. apply Forall_cons in Hl as [Hli Hl].
  destruct (ids_perm_facts _ _ _ Ho) as (_ & Hrange & Hcount).
  destruct ids as [|i ids]; [done|]. injection Hh as ->. simpl mjoin in *.
  assert (Forall (u_range 16) (first :: ids)) as Hus.
  { apply Forall_forall. intros k Hk. unfold u_range. change (2 ^ 16) with 65536.
    assert (0 <= k < Z.of_nat (queue_size q)) by (apply Hrange; set_solver). lia. }
  set (q1 := set_waker ({[first]} ∪ waker q) q).
  destruct (recycle_linked ids (length (descriptor q)) first q1) as (pre & lst & Hp & Hr); [done| |done|].
  { rewrite Hd. simpl length in *. rewrite length_app in Hcount. lia. }
  assert (u_range 16 lst) as Hlu by (rewrite Forall_forall in Hus; apply Hus; rewrite Hp; set_solver).
  eexists. split; [|split; [split|]].
  - unfold poll, mbind, prog_bind, p_bind, modify, gets. fold q1.
    change (used_head_index q1) with (used_head_index q). change (used_head q1) with (used_head q).
    rewrite decide_False by done. unfold used_at, mbind, prog_bind, p_bind, gets.
    change (queue_size q1) with (queue_size q). change (used_elements q1) with (used_elements q).
    rewrite decide_False by lia. rewrite Hel. cbn [unwrap p_ret]. rewrite decide_True by done.
    change (length (descriptor q1)) with (length (descriptor q)). rewrite Hr. cbn [unwrap p_ret].
    unfold push, modify, as_u16. rewrite as_u_id by done. reflexivity.
  - done.
  - done.
  - done.
  - done.
  - cbn. rewrite <- Ho, <- (app_assoc _ pre), <- Hp. by rewrite <- app_assoc.
  - done.
  - cbn. rewrite <- (app_assoc _ pre), <- Hp. repeat split; try done. set_solver.
Qed.

(** Any other poll only registers the waker. *)
Lemma poll_pending (first : Z) (q : Queue) (inflight : list (list Z)) :
  queue_ok q inflight →
  used_head_index q = used_head q ∨
  (∃ i w, used_elements q !! (Z.to_nat (as_u16 (used_head_index q - 1)) mod queue_size q)%nat = Some (i, w) ∧
          i ≠ first) →
  poll first q = (Ok None, set_waker ({[first]} ∪ waker q) q).
Proof.
  intros [Hsz Hd Ha Hu Ho Hl] Hc. unfold poll, mbind, prog_bind, p_bind, modify, gets.
  cbn [used_head_index used_head set_waker].
  destruct (decide (used_head_index q = used_head q)) as [Heq|Hne]; [done|].
  destruct Hc as [Hc|(i & w & Hel & Hi)]; [done|].
  unfold used_at, mbind, prog_bind, p_bind, gets. cbn [queue_size used_elements set_waker].
  rewrite decide_False by lia. rewrite Hel. cbn [unwrap p_ret]. by rewrite decide_False.
Qed.

(** ** The driver and the device *)

(** A device that finishes request [first] with [w] bytes written puts it into the
    used ring and then moves the index. *)
Definition device_complete (first w : Z) (q : Queue) : Queue :=
  set_used (as_u16 (used_head_index q + 1))
    (<[(Z.to_nat (used_head_index q) mod queue_size q)%nat := (first, w)]> (used_elements q)) q.

(** One step of driver or device: the queue, and the chains in flight. *)
Inductive step : Queue * list (list Z) → Queue * list (list Z) → Prop :=
| step_send bufs first ids q q' infl :
    chain_flags bufs → send bufs q = (Ok first, q') →
    ids = take (length bufs) (descriptor_stack q) →
    step (q, infl) (q', ids :: infl)
| step_complete first w ids q infl :
    ids ∈ infl → head ids = Some first →
    step (q, infl) (device_complete first w q, infl)
| step_pending first q q' infl :
    poll first q = (Ok None, q') →
    step (q, infl) (q', infl)
| step_ready first w ids q q' infl1 infl2 :
    head ids = Some first → poll first q = (Ok (Some w), q') →
    step (q, infl1 ++ ids :: infl2) (q', infl1 ++ infl2).

Inductive reachable : Queue * list (list Z) → Prop :=
| reach_new index n : 0 < Z.of_nat n <= 32768 → reachable (queue_new index n, [])
| reach_step s s' : reachable s → step s s' → reachable s'.

Lemma queue_new_ok (index : Z) (n : nat) : 0 < Z.of_nat n <= 32768 → queue_ok (queue_new index n) [].
Proof.
  intros Hn. split; cbn; [done|by rewrite length_replicate|by apply length_replicate| | |done].
  - unfold used_init. generalize (seq 0 n). intros l.
    assert (∀ l (u : list (Z * Z)),
      length (foldl (λ l i, alter (λ e, (0xFFFFFFFF, e.2)) (i mod 256)%nat l) u l) = length u) as Hlen.
    { clear. intros l. induction l as [|i l IH]; intros u; simpl; [done|]. by rewrite IH, length_alter. }
    by rewrite Hlen, length_replicate.
  - rewrite app_nil_r. unfold all_descriptors. unfold as_u16. rewrite as_u_id; [by rewrite Nat2Z.id|].
    unfold u_range. change (2 ^ 16) with 65536. lia.
Qed.

(** Not enough free descriptors: [send] panics on [pop().unwrap()]. *)
Lemma send_loop_exhausted (bufs : list Buffer) (first last : option Z) (q : Queue) :
  (length (descriptor_stack q) < length bufs)%nat → NoDup (descriptor_stack q) →
  Forall (in_table (descriptor q)) (descriptor_stack q) → Z.of_nat (length (descriptor q)) <= 2 ^ 16 →
  (∀ i, last = Some i → in_table (descriptor q) i ∧ i ∉ descriptor_stack q) →
  (send_loop bufs first last q).1 = Panic.
Proof.
  revert first last q. induction bufs as [|b bufs IH]; intros first last q Hlen Hnd Hin Hsz Hlast; [simpl in Hlen; lia|].
  destruct (descriptor_stack q) as [|d rest] eqn:Hs.
  { cbn [send_loop]. unfold mbind, prog_bind, p_bind, pop. by rewrite Hs. }
  apply NoDup_cons in Hnd as [Hd Hnd]. apply Forall_cons in Hin as [Hdin Hin].
  destruct (entry_is_Some _ _ Hdin) as [d0 Hd0].
  destruct (send_round d rest b last q d0) as (t1 & L1 & _ & _ & _ & Hround); [done|done|done| | |].
  { intros i Hi. destruct (Hlast i Hi). split; [done|]. set_solver. }
  { unfold u_range, in_table in *. lia. }
  rewrite Hround. apply IH; cbn; [simpl in Hlen; lia|done| |by rewrite L1|].
  - eapply Forall_impl; [exact Hin|]. intros x Hx. unfold in_table in *. by rewrite L1.
  - intros i [= <-]. split; [|done]. unfold in_table in *. by rewrite L1.
Qed.

Lemma send_exhausted (bufs : list Buffer) (q : Queue) (inflight : list (list Z)) :
  queue_ok q inflight → (length (descriptor_stack q) < length bufs)%nat → (send bufs q).1 = Panic.
Proof.
  intros [Hsz Hd Ha Hu Ho Hl] Hlen. destruct (ids_perm_facts _ _ _ Ho) as (Hnd & Hrange & _).
  apply NoDup_app in Hnd as (Hnd & _ & _).
  pose proof (send_loop_exhausted bufs None None q) as Hp. unfold send, mbind, prog_bind, p_bind.
  destruct (send_loop bufs None None q) as [r q']. simpl in Hp. rewrite Hp; try done.
  - apply Forall_forall. intros i Hi. unfold in_table. rewrite Hd. apply Hrange. set_solver.
  - rewrite Hd. change (2 ^ 16) with 65536. lia.
Qed.

(** A poll of a queue in order: what the newest used element says decides. *)
Lemma poll_cases (first : Z) (q : Queue) (inflight : list (list Z)) :
  queue_ok q inflight →
  poll first q = (Ok None, set_waker ({[first]} ∪ waker q) q) ∨
  used_head_index q ≠ used_head q ∧
  ∃ w, used_elements q !! (Z.to_nat (as_u16 (used_head_index q - 1)) mod queue_size q)%nat = Some (first, w) ∧
       ∀ q', poll first q ≠ (Ok None, q').
Proof.
  intros Hok. pose proof Hok as [Hsz Hd Ha Hu Ho Hl].
  destruct (decide (used_head_index q = used_head q)) as [Heq|Hne].
  { left. apply (poll_pending first q inflight); auto. }
  set (k := (Z.to_nat (as_u16 (used_head_index q - 1)) mod queue_size q)%nat).
  destruct (lookup_lt_is_Some_2 (used_elements q) k) as [[i w] Hel].
  { rewrite Hu. unfold k. apply Nat.mod_upper_bound. lia. }
  destruct (decide (i = first)) as [->|Hi]; last first.
  { left. apply (poll_pending first q inflight); eauto. }
  right. split; [done|]. exists w. split; [done|]. intros q' Hq'.
  unfold poll in Hq'. apply bind_inv_Ok in Hq' as (u & q1 & [= <- <-] & Hq').
  apply bind_inv_Ok in Hq' as (h & q2 & [= <- <-] & Hq'). apply bind_inv_Ok in Hq' as (m & q3 & [= <- <-] & Hq').
  cbn [used_head_index used_head set_waker] in Hq'. rewrite decide_False in Hq' by done.
  apply bind_inv_Ok in Hq' as ([i' w'] & q4 & Hu4 & Hq').
  unfold used_at, mbind, prog_bind, p_bind, gets in Hu4. cbn [queue_size used_elements set_waker] in Hu4.
  rewrite decide_False in Hu4 by lia. fold k in Hu4. rewrite Hel in Hu4. injection Hu4 as <- <- <-.
  rewrite decide_True in Hq' by done. repeat apply bind_inv_Ok in Hq' as (? & ? & _ & Hq'). done.
Qed.

(** The invariant is kept by every step. *)
Lemma step_ok (s s' : Queue * list (list Z)) :
  step s s' → queue_ok s.1 s.2 → queue_ok s'.1 s'.2.
Proof.
  destruct 1 as [bufs first ids q q' infl Hf Hs ->|first w ids q infl Hin Hh|first q q' infl Hp
                |first w ids q q' infl1 infl2 Hh Hp]; simpl; intros Hok.
  - destruct (decide (length bufs <= length (descriptor_stack q))%nat) as [Hle|Hgt].
    + destruct (send_ok bufs q infl Hok Hf Hle) as (q1 & f1 & ids & Hs1 & -> & _ & Hok1 & _).
      rewrite Hs in Hs1. by simplify_eq.
    + pose proof (send_exhausted bufs q infl Hok ltac:(lia)) as Hx. by rewrite Hs in Hx.
  - destruct Hok as [? ? ? ? ? ?]. split; try done. cbn. by rewrite length_insert.
  - destruct (poll_cases first q infl Hok) as [Hp'|(_ & w & _ & Hno)]; [|by destruct (Hno q')].
    rewrite Hp in Hp'. injection Hp' as ->. by destruct Hok as [? ? ? ? ? ?].
  - apply (queue_ok_inflight q _ (ids :: infl1 ++ infl2)) in Hok; [|by rewrite Permutation_middle].
    destruct (poll_cases first q _ Hok) as [Hp'|(Hne & w' & Hel & _)]; [by rewrite Hp in Hp'|].
    destruct (poll_ready first w' ids q (infl1 ++ infl2) Hok Hh Hne Hel) as (q1 & Hp1 & Hok1 & _).
    rewrite Hp in Hp1. by simplify_eq.
Qed.

Lemma reachable_ok (s : Queue * list (list Z)) : reachable s → queue_ok s.1 s.2.
Proof. induction 1 as [index n Hn|s s' _ IH Hst]; [by apply queue_new_ok|by apply (step_ok s)]. Qed.

(** C3. In every reachable state of a virtqueue, for any interleaving of sends,
    polls and completions by the device in any order, each descriptor is either free
    or owned by exactly one request in flight, whose chain is intact: no descriptor
    is ever handed out twice, and a chain in flight is never overwritten. *)
Theorem virtqueue_ownership (q : Queue) (inflight : list (list Z)) (Hr : reachable (q, inflight)) :
  descriptor_stack q ++ mjoin inflight ≡ₚ Z.of_nat <$> seq 0 (queue_size q) ∧
  NoDup (descriptor_stack q ++ mjoin inflight) ∧ Forall (linked (descriptor q)) inflight.
Proof.
  destruct (reachable_ok _ Hr) as [_ _ _ _ Ho Hl].
  split; [done|]. split; [|done]. by apply (ids_perm_facts (queue_size q)).
Qed.

(** [send] publishes exactly the chain it was given: it takes as many free
    descriptors as there are buffers, in order, writes address, length (32 bits) and
    flags of each buffer into its descriptor and links them; it puts the head into
    the next slot of the available ring before it moves the ring's index (modulo
    2^16), rings the bell of the queue once, and answers the head.  With fewer free
    descriptors than buffers it panics. *)
Theorem send_publishes (bufs : list Buffer) (q : Queue) (inflight : list (list Z))
    (Hok : queue_ok q inflight) (Hf : chain_flags bufs) :
  if decide (length bufs <= length (descriptor_stack q))%nat then
    ∃ q' first ids, send bufs q = (Ok first, q') ∧
      ids = take (length bufs) (descriptor_stack q) ∧ head ids = Some first ∧
      describes (descriptor q') ids bufs ∧ linked (descriptor q') ids ∧
      descriptor_stack q' = drop (length bufs) (descriptor_stack q) ∧
      avail_head q' = as_u16 (avail_head q + 1) ∧
      avail_elements q' = <[(Z.to_nat (avail_head q) mod queue_size q)%nat := first]> (avail_elements q) ∧
      bell q' = bell q ++ [queue_index q]
  else (send bufs q).1 = Panic.
Proof.
  case_decide as Hlen; [|apply (send_exhausted bufs q inflight Hok); lia].
  destruct (send_ok bufs q inflight Hok Hf Hlen) as (q' & first & ids & H1 & H2 & H3 & H4 & H5 & H6 & H7 & H8 & H9 & _).
  exists q', first, ids. do 4 (split; [done|]). split; [by apply (describes_linked _ _ bufs)|]. done.
Qed.

(** One request at a time: with no request in flight and nothing left to
    consume in the used ring, a request that is sent and then completed by the device
    with [w] bytes is ready at the next poll with that count, and every descriptor is
    free again. *)
Theorem request_roundtrip (bufs : list Buffer) (w : Z) (q : Queue)
    (Hok : queue_ok q []) (Hf : chain_flags bufs) (Hlen : (length bufs <= queue_size q)%nat)
    (Hu : used_head_index q = used_head q) (Hr : u_range 16 (used_head q)) :
  ∃ q1 first q2, send bufs q = (Ok first, q1) ∧
    poll first q1 = (Ok None, set_waker ({[first]} ∪ waker q1) q1) ∧
    poll first (device_complete first w q1) = (Ok (Some w), q2) ∧
    queue_ok q2 [] ∧ descriptor_stack q2 ≡ₚ descriptor_stack q ∧
    used_head_index q2 = used_head q2 ∧ u_range 16 (used_head q2).
Proof.
  pose proof Hok as [Hsz Hd Ha Hul Ho Hl].
  destruct (ids_perm_facts _ _ _ Ho) as (_ & _ & Hcount). simpl in Hcount.
  destruct (send_ok bufs q [] Hok Hf) as (q1 & first & ids & H1 & Hids & Hhd & Hok1 & _ & Hst & _ & _ & _ & Huh & Hui & Hue & Hqs);
    [lia|].
  assert (queue_ok (device_complete first w q1) [ids]) as Hok2.
  { destruct Hok1 as [? ? ? ? ? ?]. split; try done. cbn. by rewrite length_insert. }
  destruct (poll_ready first w ids (device_complete first w q1) [] Hok2 Hhd) as (q2 & H2 & Hok3 & Hst2 & Hu2 & _ & _ & Hui2 & _).
  - cbn. rewrite Huh, Hui, Hu. unfold as_u16, as_u. unfold u_range in Hr. change (2 ^ 16) with 65536 in *.
    destruct (decide (used_head q = 65535)) as [->|]; [done|]. rewrite Z.mod_small by lia. lia.
  - cbn. rewrite Hui, Hqs, Hu, Hue.
    assert ((Z.to_nat (as_u16 (as_u16 (used_head q + 1) - 1)) mod queue_size q)%nat =
            (Z.to_nat (used_head q) mod queue_size q)%nat) as ->.
    { unfold as_u16, as_u. rewrite Zminus_mod_idemp_l. f_equal. f_equal.
      replace (used_head q + 1 - 1) with (used_head q) by lia. by apply Z.mod_small. }
    apply list_lookup_insert_eq. rewrite Hul. apply Nat.mod_upper_bound. lia.
  - exists q1, first, q2. split; [done|]. split.
    { apply (poll_pending first q1 [ids] Hok1). left. congruence. }
    split; [done|]. split; [done|]. split.
    { rewrite Hst2. cbn. rewrite Hst, Hids, Permutation_app_comm. by rewrite take_drop. }
    split; [congruence|]. rewrite Hu2. cbn. apply u_range_as_u. lia.
Qed.

(** [n] polls of one future. *)
Fixpoint poll_n (n : nat) (first : Z) : qprog (list (option Z)) :=
  match n with
  | O => p_ret []
  | S n => r ← poll first; rs ← poll_n n first; p_ret (r :: rs)
  end.

Lemma poll_n_pending (n : nat) (first : Z) (q : Queue) (inflight : list (list Z)) :
  queue_ok q inflight → used_head_index q = used_head q →
  ∃ w, poll_n n first q = (Ok (replicate n None), set_waker w q).
Proof.
  revert q. induction n as [|n IH]; intros q Hok Hu; [exists (waker q); by destruct q|].
  cbn [poll_n]. unfold mbind, prog_bind.
  rewrite (bind_Ok _ _ _ _ _ (poll_pending first q inflight Hok (or_introl Hu))).
  destruct (IH (set_waker ({[first]} ∪ waker q) q)) as (w & Hw).
  - by destruct Hok as [? ? ? ? ? ?].
  - done.
  - exists w. rewrite (bind_Ok _ _ _ _ _ Hw). by destruct q.
Qed.

(** A completion can be lost: [poll] looks only at the newest used element.
    When the device finishes two requests before the driver looks, the first one is
    not recognised; the poll of the second then moves the driver's index past both,
    and from there every poll of the first request is pending, although the device
    has finished it. *)
Theorem completion_lost (q : Queue) (ids1 ids2 : list Z) (f1 f2 w1 w2 : Z) (inflight : list (list Z))
    (n : nat)
    (Hok : queue_ok q (ids2 :: ids1 :: inflight)) (Hh1 : head ids1 = Some f1) (Hh2 : head ids2 = Some f2)
    (Hu : used_head_index q = used_head q) (Hr : u_range 16 (used_head q)) :
  let q1 := device_complete f2 w2 (device_complete f1 w1 q) in
  ∃ q2 q3, poll f1 q1 = (Ok None, q2) ∧ poll f2 q2 = (Ok (Some w2), q3) ∧
    ∃ q4, poll_n n f1 q3 = (Ok (replicate n None), q4) ∧ queue_ok q4 (ids1 :: inflight).
Proof.
  intros q1. pose proof Hok as [Hsz Hd Ha Hul Ho Hl].
  assert (f1 ≠ f2) as Hne.
  { destruct (ids_perm_facts _ _ _ Ho) as (Hnd & _ & _). simpl in Hnd.
    apply NoDup_app in Hnd as (_ & _ & Hnd). apply NoDup_app in Hnd as (_ & Hdis & _).
    destruct ids1 as [|? ?], ids2 as [|? ?]; try done. injection Hh1 as ->. injection Hh2 as ->.
    intros ->. apply (Hdis f2); set_solver. }
  assert (queue_ok q1 (ids2 :: ids1 :: inflight)) as Hok1.
  { split; try done. cbn. by rewrite !length_insert. }
  set (k := (Z.to_nat (as_u16 (used_head_index q + 1)) mod queue_size q)%nat).
  assert (as_u16 (used_head_index q1 - 1) = as_u16 (used_head_index q + 1)) as Hidx.
  { cbn [used_head_index q1 device_complete set_used]. unfold as_u16, as_u. rewrite Zminus_mod_idemp_l.
    replace ((used_head_index q + 1) mod 2 ^ 16 + 1 - 1) with ((used_head_index q + 1) mod 2 ^ 16) by lia.
    apply Z.mod_mod. lia. }
  assert (used_elements q1 !! k = Some (f2, w2)) as Hel.
  { cbn. apply list_lookup_insert_eq. rewrite length_insert, Hul. apply Nat.mod_upper_bound. lia. }
  assert (used_head_index q1 ≠ used_head q) as Hnew.
  { cbn. rewrite Hu. unfold as_u16, as_u, u_range in *. change (2 ^ 16) with 65536 in *.
    rewrite Zplus_mod_idemp_l. intros Heq. zdiv. }
  set (q2 := set_waker ({[f1]} ∪ waker q1) q1).
  assert (queue_ok q2 (ids2 :: ids1 :: inflight)) as Hok2 by (by destruct Hok1).
  destruct (poll_ready f2 w2 ids2 q2 (ids1 :: inflight) Hok2 Hh2) as (q3 & H3 & Hok3 & _ & Hu3 & _ & _ & Hui3 & _).
  { exact Hnew. }
  { cbn [used_head_index used_elements queue_size q2 set_waker]. rewrite Hidx. exact Hel. }
  exists q2, q3. split.
  { apply (poll_pending f1 q1 _ Hok1). right. exists f2, w2. rewrite Hidx. split; [exact Hel|congruence]. }
  split; [done|]. destruct (poll_n_pending n f1 q3 _ Hok3) as (w & Hw); [congruence|].
  eexists. split; [exact Hw|]. by destruct Hok3.
Qed.

(** ** Builders and layout *)

(** The buffers of a chain under construction all carry [NEXT]. *)
Definition chained (l : list Buffer) : Prop := Forall (λ b, Z.testbit (b_flags b) 0 = true) l.

Lemma ldiff_next (f : Z) : Z.testbit (Z.ldiff f DescriptorFlags.NEXT) 0 = false.
Proof. rewrite Z.ldiff_spec. apply andb_false_r. Qed.

Lemma build_flags (l : list Buffer) :
  chained l → l ≠ [] → ∃ l', build l = Some l' ∧ chain_flags l' ∧ length l' = length l ∧
    (λ b, (b_buffer b, b_size b)) <$> l' = (λ b, (b_buffer b, b_size b)) <$> l.
Proof.
  induction 1 as [|b l Hb Hl IH]; [done|]. intros _. destruct l as [|b' l].
  - eexists. split; [done|]. split; [apply ldiff_next|]. done.
  - destruct IH as (l' & H1 & H2 & H3 & H4); [done|]. exists (b :: l').
    split; [cbn [build] in *; by rewrite H1|]. split.
    { destruct l' as [|b1 l']; [done|]. done. }
    split; [simpl in *; lia|]. by rewrite !fmap_cons, H4.
Qed.

(** What [ChainBuilder] builds from a non-empty list of buffers, in their
    order and with their addresses and sizes, is a chain [send] can publish: [NEXT]
    set on all buffers but the last; an empty chain is refused. *)
Theorem chain_builder_spec (bufs : list Buffer) :
  let built := build (foldl (λ l b, chain b l) chain_new bufs) in
  match bufs with
  | [] => built = None
  | _ => ∃ l, built = Some l ∧ chain_flags l ∧ length l = length bufs ∧
         (λ b, (b_buffer b, b_size b)) <$> l = (λ b, (b_buffer b, b_size b)) <$> bufs
  end.
Proof.
  assert (∀ bufs l, chained l →
    let r := foldl (λ l b, chain b l) l bufs in
    chained r ∧ length r = (length l + length bufs)%nat ∧
    (λ b, (b_buffer b, b_size b)) <$> r = ((λ b, (b_buffer b, b_size b)) <$> l) ++ ((λ b, (b_buffer b, b_size b)) <$> bufs))
    as Hfold.
  { clear. induction bufs as [|b bufs IH]; intros l Hl; simpl; [by rewrite app_nil_r|].
    destruct (IH (chain b l)) as (H1 & H2 & H3).
    - apply Forall_app. split; [done|]. apply Forall_singleton. cbn [b_flags buffer_flags].
      by rewrite Z.lor_spec, orb_true_r.
    - split; [done|]. split.
      + rewrite H2. unfold chain. rewrite length_app. simpl. lia.
      + rewrite H3. unfold chain. rewrite fmap_app. simpl. by rewrite <- app_assoc. }
  intros built. destruct bufs as [|b bufs]; [done|].
  destruct (Hfold (b :: bufs) chain_new) as (H1 & H2 & H3); [by apply Forall_nil|].
  destruct (build_flags _ H1) as (l & Hb & Hc & Hlen & Hmap).
  { intros Heq. rewrite Heq in H2. done. }
  exists l. split; [done|]. split; [done|]. split; [by rewrite Hlen, H2|]. by rewrite Hmap, H3.
Qed.

(** [align] adds the alignment and clears one bit: it does not align. *)
Lemma align_does_not_align : align (6 + 8 * 1) 4 = 18 ∧ align 16 16 = 32.
Proof. done. Qed.

(** The sizes of the three queue parts, for every power of two up to 32768
    (the largest queue): whole pages, large enough for the descriptor table, the
    available ring and the used ring, and the used-ring size, which is also what the
    driver allocates for the available ring, is large enough for it too; other sizes
    are refused. *)
Theorem queue_part_sizes_sufficient `{Platform} (qs : Z) (Hq : 0 <= qs <= 32768) :
  match queue_part_sizes qs with
  | Some (d, a, u) =>
      (∃ k, 0 <= k <= 15 ∧ qs = 2 ^ k) ∧
      (PAGE_SIZE | d) ∧ (PAGE_SIZE | a) ∧ (PAGE_SIZE | u) ∧
      16 * qs <= d ∧ 4 + 2 * qs + 2 <= a ∧ 4 + 8 * qs + 2 <= u ∧ 4 + 2 * qs + 2 <= u
  | None => ∀ k, 0 <= k → qs ≠ 2 ^ k
  end.
Proof.
  unfold queue_part_sizes. destruct (is_power_of_two qs && negb (qs =? 0)) eqn:E.
  - apply andb_true_iff in E as [E _]. unfold is_power_of_two in E.
    apply andb_true_iff in E as [E1%Z.ltb_lt E2%Z.eqb_eq].
    set (k := Z.log2 qs) in *. assert (0 <= k <= 15) as Hk.
    { split; [apply Z.log2_nonneg|]. change 15 with (Z.log2 32768). apply Z.log2_le_mono. lia. }
    pose proof page_size_pos as Hp.
    assert (16 * qs <= align (size_of_Descriptor * qs) 16 ∧
            4 + 2 * qs + 2 <= align (size_of_AvailableRing + size_of_AvailableRingExtra + size_of_AvailableRingElement * qs) 2 ∧
            4 + 8 * qs + 2 <= align (size_of_UsedRing + size_of_UsedRingExtra + size_of_UsedRingElement * qs) 4) as (A1 & A2 & A3).
    { rewrite E2. clear -Hk. clearbody k.
      assert (k ∈ Z.of_nat <$> seq 0 16) as Hin.
      { apply list_elem_of_fmap. exists (Z.to_nat k). split; [lia|]. apply elem_of_seq. lia. }
      clear Hk. revert k Hin. apply Forall_forall. repeat (apply Forall_cons; split; [by vm_compute|]). by apply Forall_nil. }
    destruct (next_multiple_bounds (align (size_of_Descriptor * qs) 16) PAGE_SIZE Hp) as [[B1 _] C1]; [lia|].
    destruct (next_multiple_bounds (align (size_of_AvailableRing + size_of_AvailableRingExtra + size_of_AvailableRingElement * qs) 2) PAGE_SIZE Hp) as [[B2 _] C2]; [lia|].
    destruct (next_multiple_bounds (align (size_of_UsedRing + size_of_UsedRingExtra + size_of_UsedRingElement * qs) 4) PAGE_SIZE Hp) as [[B3 _] C3]; [lia|].
    split; [by exists k|]. do 3 (split; [done|]). lia.
  - intros k Hk ->. apply andb_false_iff in E. unfold is_power_of_two in E.
    assert (0 < 2 ^ k) by (by apply Z.pow_pos_nonneg; lia). rewrite Z.log2_pow2, Z.eqb_refl in E by done.
    destruct E as [E|E]; [apply andb_false_iff in E as [E|E]; [lia|done]|]. apply negb_false_iff, Z.eqb_eq in E. lia.
Qed.

(** ** Witnesses *)

Definition demo_bufs : list Buffer := [mk_buffer 0x1000 16 1; mk_buffer 0x2000 512 3; mk_buffer 0x3000 1 2].

Definition demo_queue : Queue := queue_new 0 8.

Lemma demo_queue_ok : queue_ok demo_queue [].
Proof. apply queue_new_ok. lia. Qed.

Lemma demo_flags : chain_flags demo_bufs.
Proof. done. Qed.

Lemma send_publishes_witness :
  ∃ q' first ids, send demo_bufs demo_queue = (Ok first, q') ∧ ids = [0; 1; 2] ∧
    describes (descriptor q') ids demo_bufs.
Proof.
  pose proof (send_publishes demo_bufs demo_queue [] demo_queue_ok demo_flags) as Hs.
  rewrite decide_True in Hs by (vm_compute; lia).
  destruct Hs as (q' & first & ids & H1 & H2 & _ & H4 & _). exists q', first, ids. by subst ids.
Defined.

Lemma request_roundtrip_witness :
  ∃ q1 first q2, send demo_bufs demo_queue = (Ok first, q1) ∧
    poll first q1 = (Ok None, set_waker ({[first]} ∪ waker q1) q1) ∧
    poll first (device_complete first 513 q1) = (Ok (Some 513), q2) ∧
    queue_ok q2 [] ∧ descriptor_stack q2 ≡ₚ descriptor_stack demo_queue ∧
    used_head_index q2 = used_head q2 ∧ u_range 16 (used_head q2).
Proof.
  apply (request_roundtrip demo_bufs 513 demo_queue demo_queue_ok demo_flags).
  - vm_compute. lia.
  - done.
  - by vm_compute.
Defined.

(** Two requests of one buffer each. *)
Definition demo_two : Queue * list (list Z) :=
  let q1 := (send [mk_buffer 0x1000 16 0] demo_queue).2 in
  ((send [mk_buffer 0x2000 16 2] q1).2, [[1]; [0]]).

Lemma send_result (bufs : list Buffer) (q : Queue) (first : Z) :
  (send bufs q).1 = Ok first → send bufs q = (Ok first, (send bufs q).2).
Proof. by destruct (send bufs q) as [r q']; simpl; intros ->. Qed.

Lemma demo_two_reachable : reachable demo_two.
Proof.
  unfold demo_two. apply (reach_step ((send [mk_buffer 0x1000 16 0] demo_queue).2, [[0]])).
  - apply (reach_step (demo_queue, [])); [apply reach_new; lia|].
    apply (step_send [mk_buffer 0x1000 16 0] 0 [0]); [done| |done].
    apply send_result. vm_compute. reflexivity.
  - apply (step_send [mk_buffer 0x2000 16 2] 1 [1]); [done| |vm_compute; reflexivity].
    apply send_result. vm_compute. reflexivity.
Qed.

Lemma virtqueue_ownership_witness :
  descriptor_stack demo_two.1 ++ mjoin demo_two.2 ≡ₚ Z.of_nat <$> seq 0 (queue_size demo_two.1) ∧
  NoDup (descriptor_stack demo_two.1 ++ mjoin demo_two.2) ∧
  Forall (linked (descriptor demo_two.1)) demo_two.2.
Proof. apply (virtqueue_ownership demo_two.1 demo_two.2). apply demo_two_reachable. Defined.

Lemma demo_two_ok : queue_ok demo_two.1 demo_two.2.
Proof. apply reachable_ok, demo_two_reachable. Qed.

Lemma completion_lost_witness :
  ∃ q2 q3, poll 0 (device_complete 1 0 (device_complete 0 16 demo_two.1)) = (Ok None, q2) ∧
    poll 1 q2 = (Ok (Some 0), q3) ∧
    ∃ q4, poll_n 100 0 q3 = (Ok (replicate 100 None), q4) ∧ queue_ok q4 [[0]].
Proof.
  apply (completion_lost demo_two.1 [0] [1] 0 1 16 0 [] 100 demo_two_ok); by vm_compute.
Defined.

(** 4 KiB pages. *)
Definition demo_platform : Platform.
Proof. refine {| PAGE_SIZE := 4096; page_shift := 12 |}; [lia|done]. Defined.

Lemma queue_part_sizes_sufficient_witness :
  match queue_part_sizes (H := demo_platform) 256 with
  | Some (d, a, u) => 16 * 256 <= d ∧ 4 + 2 * 256 + 2 <= a ∧ 4 + 8 * 256 + 2 <= u
  | None => False
  end.
Proof.
  assert (0 <= 256 <= 32768) as Hr by lia.
  pose proof (queue_part_sizes_sufficient (H := demo_platform) 256 Hr) as Hs.
  destruct (queue_part_sizes (H := demo_platform) 256) as [[[d a] u]|] eqn:E; [lia|].
  revert E. vm_compute. done.
Defined.
