(* ===== verification/NvmeQueue.v ===== *)
(** NVMe commands and queues (storage/nvmed/src/nvme/cmd.rs, queues.rs).

    The submission and completion queues are records over their ring memory.  The
    phase tag protocol of the completion queue is proved against a controller that
    posts completions: [cq_step] interleaves the two sides, and the driver's side is
    [complete] of the source. *)

From S2P Require Import Prelude.

(** ** Commands *)

Record NvmeCmd := mk_cmd {
  opcode : Z; c_flags : Z; cid : Z; nsid : Z; c_rsvd : Z; mptr : Z; dptr : Z * Z;
  cdw10 : Z; cdw11 : Z; cdw12 : Z; cdw13 : Z; cdw14 : Z; cdw15 : Z;
}.

Definition cmd_default : NvmeCmd := mk_cmd 0 0 0 0 0 0 (0, 0) 0 0 0 0 0 0.

Definition create_io_completion_queue (cid qid ptr size : Z) (iv : option Z) : NvmeCmd :=
  mk_cmd 5 0 cid 0 0 0 (as_u64 ptr, 0)
    (Z.lor (as_u32 (Z.shiftl size 16)) qid)
    (Z.lor 0x00000001
       (match iv with Some iv => Z.lor 0x00000002 (as_u32 (Z.shiftl iv 16)) | None => 0 end))
    0 0 0 0.

Definition create_io_submission_queue (cid qid ptr size cqid : Z) : NvmeCmd :=
  mk_cmd 1 0 cid 0 0 0 (as_u64 ptr, 0)
    (Z.lor (as_u32 (Z.shiftl size 16)) qid) (Z.lor (as_u32 (Z.shiftl cqid 16)) 1) 0 0 0 0.

Definition identify_namespace (cid ptr nsid : Z) : NvmeCmd :=
  mk_cmd 6 0 cid nsid 0 0 (as_u64 ptr, 0) 0 0 0 0 0 0.

Definition identify_controller (cid ptr : Z) : NvmeCmd :=
  mk_cmd 6 0 cid 0 0 0 (as_u64 ptr, 0) 1 0 0 0 0 0.

Definition identify_namespace_list (cid ptr base : Z) : NvmeCmd :=
  mk_cmd 6 0 cid base 0 0 (as_u64 ptr, 0) 2 0 0 0 0 0.

(** The command id is not used. *)
Definition get_features (cid0 ptr fid : Z) : NvmeCmd :=
  mk_cmd 0xA (c_flags cmd_default) (cid cmd_default) (nsid cmd_default) (c_rsvd cmd_default)
    (mptr cmd_default) (as_u64 ptr, 0) fid (cdw11 cmd_default) (cdw12 cmd_default) (cdw13 cmd_default)
    (cdw14 cmd_default) (cdw15 cmd_default).

Definition nvme_io_read (cid nsid lba blocks_1 ptr0 ptr1 : Z) : NvmeCmd :=
  mk_cmd 2 0 cid nsid 0 0 (ptr0, ptr1) (as_u32 lba) (as_u32 (Z.shiftr lba 32)) blocks_1 0 0 0.

Definition nvme_io_write (cid nsid lba blocks_1 ptr0 ptr1 : Z) : NvmeCmd :=
  mk_cmd 1 0 cid nsid 0 0 (ptr0, ptr1) (as_u32 lba) (as_u32 (Z.shiftr lba 32)) blocks_1 0 0 0.

(** ** Queues *)

Record NvmeComp := mk_comp {
  command_specific : Z; comp_rsvd : Z; sq_head : Z; sq_id : Z; comp_cid : Z; comp_status : Z;
}.

Definition zero_comp : NvmeComp := mk_comp 0 0 0 0 0 0.

Record NvmeCompQueue := mk_cq { cq_data : list NvmeComp; cq_head : Z; cq_phase : bool }.

Definition cq_new : NvmeCompQueue := mk_cq (replicate 256 zero_comp) 0 true.

(** [complete]; the queue is read at its head, which the code keeps in range. *)
Definition complete (cmd_opt : option (Z * NvmeCmd)) (q : NvmeCompQueue)
    : option (Z * NvmeComp) * NvmeCompQueue :=
  let entry := nth (Z.to_nat (cq_head q)) (cq_data q) zero_comp in
  if match cmd_opt with
     | Some (id, cmd) => negb (sq_id entry =? id) || negb (comp_cid entry =? cid cmd)
     | None => false
     end
  then (None, q)
  else if eqb (Z.land (comp_status entry) 1 =? 1) (cq_phase q) then
    let head := as_u16 (cq_head q + 1) mod Z.of_nat (length (cq_data q)) in
    (Some (head, entry), mk_cq (cq_data q) head (if head =? 0 then negb (cq_phase q) else cq_phase q))
  else (None, q).

Record NvmeCmdQueue := mk_sq { sq_data : list NvmeCmd; sq_tail : Z; sq_qhead : Z }.

Definition sq_new : NvmeCmdQueue := mk_sq (replicate 64 cmd_default) 0 0.

Definition sq_is_empty (q : NvmeCmdQueue) : bool := sq_qhead q =? sq_tail q.

Definition sq_is_full (q : NvmeCmdQueue) : bool := sq_qhead q =? as_u16 (sq_tail q + 1).

(** [None] is the panic of the slice access. *)
Definition submit_unchecked (entry : NvmeCmd) (q : NvmeCmdQueue) : option (Z * NvmeCmdQueue) :=
  match sq_data q !! Z.to_nat (sq_tail q) with
  | Some _ =>
      let tail := as_u16 (sq_tail q + 1) mod Z.of_nat (length (sq_data q)) in
      Some (tail, mk_sq (<[Z.to_nat (sq_tail q) := entry]> (sq_data q)) tail (sq_qhead q))
  | None => None
  end.

(** The submitting half of [submit_and_complete_command]: [None] is the panic of
    [assert!(!sq.is_full())]; the command id is the tail before. *)
Definition sq_submit (cmd_init : Z → NvmeCmd) (q : NvmeCmdQueue) : option (NvmeCmd * Z * NvmeCmdQueue) :=
  if sq_is_full q then None
  else
    let cmd := cmd_init (sq_tail q) in
    match submit_unchecked cmd q with
    | Some (tail, q) => Some (cmd, tail, q)
    | None => None
    end.

(** ** The completion queue and the controller *)

(** The controller's side: where it posts next, with which phase tag, and how many
    completions the driver has not taken yet. *)
Record CqDevice := mk_cqd { dev_tail : nat; dev_phase : bool; dev_count : nat }.

Definition with_phase (b : bool) (e : NvmeComp) : NvmeComp :=
  mk_comp (command_specific e) (comp_rsvd e) (sq_head e) (sq_id e) (comp_cid e)
    (2 * (comp_status e / 2) + Z.b2z b).

(** An entry without its phase tag. *)
Definition strip (e : NvmeComp) : NvmeComp := with_phase false e.

Inductive CqOp : Type := CqPost (e : NvmeComp) | CqPoll.

(** The controller posts unless the queue is full; the driver polls. *)
Definition cq_step (op : CqOp) (s : NvmeCompQueue * CqDevice)
    : option NvmeComp * (NvmeCompQueue * CqDevice) :=
  let '(q, d) := s in
  match op with
  | CqPost e =>
      if decide (dev_count d < length (cq_data q))%nat then
        let tail := (S (dev_tail d) mod length (cq_data q))%nat in
        (None, (mk_cq (<[dev_tail d := with_phase (dev_phase d) e]> (cq_data q)) (cq_head q) (cq_phase q),
                mk_cqd tail (if decide (tail = 0)%nat then negb (dev_phase d) else dev_phase d)
                  (S (dev_count d))))
      else (None, s)
  | CqPoll =>
      match complete None q with
      | (Some (_, e), q) => (Some e, (q, mk_cqd (dev_tail d) (dev_phase d) (dev_count d - 1)))
      | (None, q) => (None, (q, d))
      end
  end.

(** [pending] are the posted entries in the ring, oldest first, with the tag of
    their lap; every other slot has the tag of the lap before.  [k] is the number of
    entries taken so far. *)
Definition lap_phase (n i : nat) : bool := Nat.even (i / n).

Definition tag (e : NvmeComp) : bool := Z.land (comp_status e) 1 =? 1.

Record cq_inv (k : nat) (pending : list NvmeComp) (q : NvmeCompQueue) (d : CqDevice) : Prop := {
  inv_len : (0 < length (cq_data q))%nat ∧ Z.of_nat (length (cq_data q)) <= 32768;
  inv_head : cq_head q = Z.of_nat (k mod length (cq_data q));
  inv_phase : cq_phase q = lap_phase (length (cq_data q)) k;
  inv_count : dev_count d = length pending ∧ (length pending <= length (cq_data q))%nat;
  inv_tail : dev_tail d = ((k + length pending) mod length (cq_data q))%nat;
  inv_dphase : dev_phase d = lap_phase (length (cq_data q)) (k + length pending);
  inv_slots : ∀ j, (j < length (cq_data q))%nat →
    ∃ e, cq_data q !! ((k + j) mod length (cq_data q))%nat = Some e ∧
      match pending !! j with
      | Some p => e = p ∧ tag e = lap_phase (length (cq_data q)) (k + j)
      | None => tag e = negb (lap_phase (length (cq_data q)) (k + j))
      end;
}.

Lemma tag_with_phase (b : bool) (e : NvmeComp) : tag (with_phase b e) = b.
Proof.
  unfold tag. cbn [comp_status with_phase]. change 1 with (Z.ones 1). rewrite Z.land_ones by lia.
  change (2 ^ 1) with 2. rewrite Z.add_comm, Z.mul_comm, Z.mod_add by lia. by destruct b.
Qed.

Lemma lap_phase_next (n i : nat) :
  (0 < n)%nat →
  lap_phase n (S i) = if decide (S i mod n = 0)%nat then negb (lap_phase n i) else lap_phase n i.
Proof.
  intros Hn. unfold lap_phase. case_decide as Hd.
  - assert (S i / n = S (i / n))%nat as ->.
    { apply Nat.Div0.div_exact in Hd. pose proof (Nat.div_mod_eq i n). pose proof (Nat.mod_upper_bound i n).
      set (a := (S i / n)%nat) in *. set (b := (i / n)%nat) in *. nia. }
    by rewrite Nat.even_succ, <- Nat.negb_even.
  - assert (S i / n = i / n)%nat as ->; [|done].
    pose proof (Nat.div_mod_eq (S i) n). pose proof (Nat.div_mod_eq i n).
    pose proof (Nat.mod_upper_bound i n). pose proof (Nat.mod_upper_bound (S i) n).
    set (a := (S i / n)%nat) in *. set (b := (i / n)%nat) in *. nia.
Qed.

Lemma lap_phase_wrap (n i : nat) : (0 < n)%nat → lap_phase n (i + n) = negb (lap_phase n i).
Proof.
  intros Hn. unfold lap_phase. replace (i + n)%nat with (i + 1 * n)%nat by lia.
  rewrite Nat.div_add by lia. replace (i / n + 1)%nat with (S (i / n)) by lia.
  by rewrite Nat.even_succ, <- Nat.negb_even.
Qed.

(** The entry the driver looks at. *)
Lemma cq_entry (k : nat) (pending : list NvmeComp) (q : NvmeCompQueue) (d : CqDevice) :
  cq_inv k pending q d →
  ∃ e, nth (Z.to_nat (cq_head q)) (cq_data q) zero_comp = e ∧
    match pending with
    | p :: _ => e = p ∧ tag e = cq_phase q
    | [] => tag e = negb (cq_phase q)
    end.
Proof.
  intros [Hlen Hh Hp _ _ _ Hs]. destruct (Hs 0%nat) as (e & He & Hc); [lia|]. rewrite Nat.add_0_r in He, Hc.
  exists e. split; [rewrite Hh, Nat2Z.id; by apply nth_lookup_Some|]. rewrite Hp.
  by destruct pending.
Qed.

Lemma cq_poll_inv (k : nat) (pending : list NvmeComp) (q : NvmeCompQueue) (d : CqDevice) :
  cq_inv k pending q d →
  match pending with
  | [] => cq_step CqPoll (q, d) = (None, (q, d))
  | e :: rest => ∃ q' d', cq_step CqPoll (q, d) = (Some e, (q', d')) ∧ cq_inv (S k) rest q' d' ∧
                          length (cq_data q') = length (cq_data q)
  end.
Proof.
  intros Hinv. destruct (cq_entry _ _ _ _ Hinv) as (e & He & Hc).
  unfold cq_step, complete. rewrite He. fold (tag e).
  destruct pending as [|p rest].
  - rewrite Hc. by destruct (cq_phase q).
  - destruct Hc as [-> Ht]. rewrite Ht, Bool.eqb_reflx.
    destruct Hinv as [[Hl1 Hl2] Hh Hp [Hc1 Hc2] Htl Hdp Hs].
    set (n := length (cq_data q)) in *.
    assert (as_u16 (cq_head q + 1) mod Z.of_nat n = Z.of_nat (S k mod n)) as Hnext.
    { rewrite Hh. pose proof (Nat.mod_upper_bound k n ltac:(lia)). unfold as_u16, as_u.
      rewrite (Z.mod_small (_ + 1) (2 ^ 16)) by (change (2 ^ 16) with 65536; lia).
      replace (S k mod n)%nat with (S (k mod n) mod n)%nat.
      - replace (Z.of_nat (k mod n) + 1) with (Z.of_nat (S (k mod n))) by lia. by rewrite <- Nat2Z.inj_mod.
      - replace (S (k mod n)) with (k mod n + 1)%nat by lia. rewrite Nat.Div0.add_mod_idemp_l.
        f_equal. lia. }
    rewrite Hnext. eexists _, _. split; [done|]. split; [|done].
    simpl in Hc1, Hc2. split; cbn [cq_data cq_head cq_phase dev_tail dev_phase dev_count]; fold n.
    + done.
    + done.
    + rewrite lap_phase_next, Hp by done. case_decide as Hd; [by rewrite Hd|].
      destruct (Z.eqb_spec (Z.of_nat (S k mod n)) 0); [lia|done].
    + split; lia.
    + rewrite Htl. simpl. f_equal. lia.
    + rewrite Hdp. simpl. f_equal. lia.
    + intros j Hj. destruct (decide (S j = n)) as [Hjn|Hjn].
      * destruct (Hs 0%nat) as (e0 & He0 & Hc0); [lia|]. rewrite Nat.add_0_r in He0, Hc0. exists e0.
        replace (S k + j)%nat with (k + 1 * n)%nat by lia. rewrite Nat.Div0.mod_add. split; [done|].
        rewrite (lookup_ge_None_2 rest j) by lia. simpl in Hc0. destruct Hc0 as [_ ->].
        replace (k + 1 * n)%nat with (k + n)%nat by lia. rewrite lap_phase_wrap by done. by rewrite negb_involutive.
      * destruct (Hs (S j)) as (e0 & He0 & Hc0); [lia|]. exists e0.
        by replace (S k + j)%nat with (k + S j)%nat by lia.
Qed.

Lemma mod_add_inj (n k i j : nat) :
  (i < n)%nat → (j < n)%nat → ((k + i) mod n = (k + j) mod n)%nat → i = j.
Proof.
  intros Hi Hj Heq. pose proof (Nat.div_mod_eq (k + i) n) as H1. pose proof (Nat.div_mod_eq (k + j) n) as H2.
  rewrite Heq in H1. set (r := ((k + j) mod n)%nat) in *.
  set (a := ((k + i) / n)%nat) in *. set (b := ((k + j) / n)%nat) in *.
  destruct (Nat.lt_trichotomy a b) as [|[|]]; nia.
Qed.

Lemma cq_post_inv (k : nat) (pending : list NvmeComp) (q : NvmeCompQueue) (d : CqDevice) (e : NvmeComp) :
  cq_inv k pending q d → (length pending < length (cq_data q))%nat →
  ∃ q' d', cq_step (CqPost e) (q, d) = (None, (q', d')) ∧
    cq_inv k (pending ++ [with_phase (dev_phase d) e]) q' d' ∧ length (cq_data q') = length (cq_data q).
Proof.
  intros [[Hl1 Hl2] Hh Hp [Hc1 Hc2] Htl Hdp Hs] Hlt. unfold cq_step. rewrite decide_True by lia.
  eexists _, _. split; [done|]. split; [|apply length_insert].
  set (n := length (cq_data q)) in *. set (m := length pending) in *.
  assert (dev_tail d < n)%nat as Htn by (rewrite Htl; apply Nat.mod_upper_bound; lia).
  assert (S (dev_tail d) mod n = (k + S m) mod n)%nat as Hnext.
  { rewrite Htl. replace (S ((k + m) mod n)) with ((k + m) mod n + 1)%nat by lia.
    rewrite Nat.Div0.add_mod_idemp_l. f_equal. lia. }
  split; cbn [cq_data cq_head cq_phase dev_tail dev_phase dev_count]; rewrite ?length_insert; fold n;
    rewrite ?length_app; simpl; fold m.
  - done.
  - done.
  - done.
  - lia.
  - rewrite Hnext. f_equal. lia.
  - rewrite Hdp, Hnext. replace (k + (m + 1))%nat with (S (k + m)) by lia.
    replace (k + S m)%nat with (S (k + m)) by lia. by rewrite lap_phase_next.
  - intros j Hj. destruct (decide (j = m)) as [->|Hne].
    + exists (with_phase (dev_phase d) e). rewrite Htl, list_lookup_insert_eq by (fold n; apply Nat.mod_upper_bound; lia).
      split; [done|]. rewrite lookup_app_r by (fold m; lia). fold m. rewrite Nat.sub_diag. simpl.
      split; [done|]. by rewrite tag_with_phase, Hdp.
    + destruct (Hs j Hj) as (e0 & He0 & Hc0). exists e0. split.
      * rewrite list_lookup_insert_ne; [done|]. rewrite Htl. intros Heq. apply Hne. symmetry.
        by apply (mod_add_inj n k).
      * destruct (decide (j < m)%nat).
        -- by rewrite lookup_app_l by done.
        -- rewrite lookup_ge_None_2 in Hc0 by (fold m; lia).
           rewrite lookup_ge_None_2 by (rewrite length_app; simpl; fold m; lia). done.
Qed.

(** The entries the driver got and the entries the controller posted. *)
Fixpoint cq_run (ops : list CqOp) (s : NvmeCompQueue * CqDevice)
    : list NvmeComp * list NvmeComp * (NvmeCompQueue * CqDevice) :=
  match ops with
  | [] => ([], [], s)
  | op :: ops =>
      let posted := match op with
                    | CqPost e => if decide (dev_count s.2 < length (cq_data s.1))%nat then [e] else []
                    | CqPoll => []
                    end in
      let '(r, s1) := cq_step op s in
      let '(got, all, s2) := cq_run ops s1 in
      (option_list r ++ got, posted ++ all, s2)
  end.

Lemma strip_with_phase (b : bool) (e : NvmeComp) : strip (with_phase b e) = strip e.
Proof.
  unfold strip, with_phase. cbn [command_specific comp_rsvd sq_head sq_id comp_cid comp_status].
  f_equal. destruct b; cbn [Z.b2z]; zdiv.
Qed.

Lemma cq_run_inv (ops : list CqOp) (k : nat) (pending : list NvmeComp) (q : NvmeCompQueue) (d : CqDevice) :
  cq_inv k pending q d →
  let '(got, all, (q', d')) := cq_run ops (q, d) in
  ∃ pending', cq_inv (k + length got) pending' q' d' ∧
    strip <$> (pending ++ all) = strip <$> (got ++ pending').
Proof.
  revert k pending q d. induction ops as [|op ops IH]; intros k pending q d Hinv.
  { simpl. exists pending. rewrite Nat.add_0_r, app_nil_r. done. }
  cbn [cq_run]. destruct op as [e|].
  - cbn [fst snd]. pose proof Hinv as [_ _ _ [Hc1 Hc2] _ _ _]. case_decide as Hd.
    + destruct (cq_post_inv k pending q d e Hinv) as (q1 & d1 & -> & Hinv1 & _); [lia|].
      specialize (IH _ _ _ _ Hinv1). destruct (cq_run ops (q1, d1)) as [[got all] [q2 d2]].
      destruct IH as (p' & Hinv2 & Heq). exists p'. split; [done|].
      change (option_list None ++ got) with got. rewrite <- Heq.
      rewrite !fmap_app. simpl. rewrite <- app_assoc. simpl. by rewrite strip_with_phase.
    + assert (cq_step (CqPost e) (q, d) = (None, (q, d))) as -> by (unfold cq_step; by rewrite decide_False).
      specialize (IH _ _ _ _ Hinv). destruct (cq_run ops (q, d)) as [[got all] [q2 d2]]. done.
  - pose proof (cq_poll_inv k pending q d Hinv) as Hstep. destruct pending as [|e rest].
    + rewrite Hstep. specialize (IH _ _ _ _ Hinv). destruct (cq_run ops (q, d)) as [[got all] [q2 d2]]. done.
    + destruct Hstep as (q1 & d1 & -> & Hinv1 & _). specialize (IH _ _ _ _ Hinv1).
      destruct (cq_run ops (q1, d1)) as [[got all] [q2 d2]]. destruct IH as (p' & Hinv2 & Heq).
      exists p'. change (option_list (Some e) ++ got) with (e :: got). cbn [length app].
      split; [by replace (k + S (length got))%nat with (S k + length got)%nat by lia|].
      simpl. f_equal. exact Heq.
Qed.

Lemma cq_new_inv : cq_inv 0 [] cq_new (mk_cqd 0 true 0).
Proof.
  assert (length (cq_data cq_new) = 256%nat) as Hn by apply length_replicate.
  split; rewrite ?Hn; try done.
  - lia.
  - split; [done|simpl; lia].
  - intros j Hj. exists zero_comp. split.
    + rewrite Nat.add_0_l, Nat.mod_small by done. by apply lookup_replicate_2.
    + rewrite Nat.add_0_l. unfold lap_phase. by rewrite Nat.div_small by done.
Qed.

(** The completion queue with its phase tags is a FIFO: for any interleaving
    of completions posted by the controller (which waits while the ring is full) and
    polls by the driver, over any number of laps of the ring, the driver receives
    exactly the posted completions, each once and in order; what it has not received
    is at most a ring's worth, and a poll that answers nothing means there is
    nothing to receive. *)
Theorem completion_queue_fifo (ops : list CqOp) :
  let '(got, posted, (q, d)) := cq_run ops (cq_new, mk_cqd 0 true 0) in
  ∃ pending, strip <$> posted = strip <$> (got ++ pending) ∧ (length pending <= 256)%nat ∧
    ((complete None q).1 = None ↔ pending = []) ∧
    (∀ h e q', complete None q = (Some (h, e), q') →
       head pending = Some e ∧ h = Z.of_nat (S (length got) mod 256) ∧ cq_head q' = h).
Proof.
  pose proof (cq_run_inv ops 0 [] cq_new (mk_cqd 0 true 0) cq_new_inv) as Hr.
  assert (∀ ops s, length (cq_data (cq_run ops s).2.1) = length (cq_data s.1)) as Hlen.
  { clear. induction ops as [|op ops IH]; intros [q d]; [done|]. cbn [cq_run].
    assert (length (cq_data (cq_step op (q, d)).2.1) = length (cq_data q)) as H1.
    { destruct op; unfold cq_step; [case_decide; simpl; by rewrite ?length_insert|].
      unfold complete. repeat case_match; simplify_eq; done. }
    destruct (cq_step op (q, d)) as [r s1]. pose proof (IH s1) as H2.
    destruct (cq_run ops s1) as [[? ?] s2]. simpl in *. congruence. }
  specialize (Hlen ops (cq_new, mk_cqd 0 true 0)).
  destruct (cq_run ops (cq_new, mk_cqd 0 true 0)) as [[got posted] [q d]].
  assert (length (cq_data q) = 256%nat) as Hq by (etrans; [exact Hlen|apply length_replicate]). clear Hlen.
  destruct Hr as (pending & Hinv & Heq). exists pending. split; [done|].
  pose proof Hinv as [_ _ _ [_ Hc] _ _ _]. split; [lia|].
  destruct (cq_entry _ _ _ _ Hinv) as (e & He & Hce).
  pose proof (cq_poll_inv _ _ _ _ Hinv) as Hpoll. unfold cq_step in Hpoll.
  destruct pending as [|p rest].
  - destruct (complete None q) as [[[h e0]|] q0]; [done|]. split; [done|]. by intros h e0 q' [=].
  - destruct Hpoll as (q1 & d1 & Hpoll & Hinv1 & Hl1).
    destruct (complete None q) as [[[h e0]|] q0] eqn:Ec; [|done].
    injection Hpoll as -> -> _.
    split; [done|]. intros h' e' q'' [= <- <- <-]. split; [done|].
    destruct Hinv1 as [_ Hh1 _ _ _ _ _]. rewrite Hl1, Hq in Hh1.
    assert (h = cq_head q1) as ->; [|done].
    unfold complete in Ec. rewrite He in Ec. destruct (eqb _ _); [|done]. by injection Ec as <- _ <-.
Qed.

(** ** The submission queue *)

Definition sq_ok (q : NvmeCmdQueue) : Prop :=
  (1 < length (sq_data q))%nat ∧ Z.of_nat (length (sq_data q)) <= 32768 ∧
  0 <= sq_tail q < Z.of_nat (length (sq_data q)) ∧ 0 <= sq_qhead q < Z.of_nat (length (sq_data q)).

(** The number of commands the controller has not fetched. *)
Definition sq_count (q : NvmeCmdQueue) : Z := (sq_tail q - sq_qhead q) mod Z.of_nat (length (sq_data q)).

(** [is_full] does not see a full queue whose tail is at the end of the ring:
    it compares the head with [tail + 1] without wrapping.  It answers yes exactly
    when one slot is left and the tail is not the last index; in the missed case
    (head 0, tail at the last index) the next submission overwrites the one free
    slot and makes the queue look empty, so that all its commands are lost to the
    controller's count. *)
Theorem sq_is_full_misses_wrap (q : NvmeCmdQueue) (cmd_init : Z → NvmeCmd) (Hq : sq_ok q) :
  let n := Z.of_nat (length (sq_data q)) in
  (sq_is_full q = true ↔ sq_count q = n - 1 ∧ sq_tail q ≠ n - 1) ∧
  (sq_count q = n - 1 → sq_tail q = n - 1 →
   ∃ tail q', sq_submit cmd_init q = Some (cmd_init (sq_tail q), tail, q') ∧
     tail = 0 ∧ sq_is_empty q' = true ∧ sq_count q' = 0).
Proof.
  destruct Hq as (Hl1 & Hl2 & Ht & Hh). cbv zeta. set (n := Z.of_nat (length (sq_data q))) in *.
  unfold sq_is_full, sq_count. fold n.
  assert (as_u16 (sq_tail q + 1) = sq_tail q + 1) as Hw.
  { unfold as_u16, as_u. apply Z.mod_small. change (2 ^ 16) with 65536. lia. }
  assert (((sq_tail q - sq_qhead q) mod n = n - 1 ↔ sq_qhead q = sq_tail q + 1 ∨ sq_qhead q = 0 ∧ sq_tail q = n - 1)) as Hc.
  { destruct (decide (sq_qhead q <= sq_tail q)).
    - rewrite Z.mod_small by lia. lia.
    - replace (sq_tail q - sq_qhead q) with (sq_tail q - sq_qhead q + n + (-1) * n) by lia.
      rewrite Z.mod_add, Z.mod_small by lia. lia. }
  split.
  - rewrite Hw, Z.eqb_eq, Hc. lia.
  - intros Hcnt Htail. assert (sq_qhead q = 0) as H0 by lia.
    destruct (lookup_lt_is_Some_2 (sq_data q) (Z.to_nat (sq_tail q))) as [c0 Hc0]; [lia|].
    unfold sq_submit, sq_is_full. rewrite Hw, (proj2 (Z.eqb_neq _ _)) by lia.
    unfold submit_unchecked. rewrite Hc0, Hw. fold n. rewrite Htail.
    replace (n - 1 + 1) with n by lia. rewrite Z.mod_same by lia.
    eexists _, _. split; [done|]. split; [done|]. unfold sq_is_empty, sq_count. simpl.
    rewrite H0. split; [done|]. by rewrite Zmod_0_l.
Qed.

(** Two 16-bit halves of a dword. *)
Lemma dword_halves (a b : Z) :
  u_range 16 a → u_range 16 b → Z.lor (as_u32 (Z.shiftl a 16)) b = a * 65536 + b.
Proof.
  intros Ha Hb. unfold as_u32. rewrite as_u_id.
  - rewrite lor_shiftl_add by (lia || done). done.
  - unfold u_range in *. rewrite Z.shiftl_mul_pow2 by lia. change (2 ^ 16) with 65536 in *.
    change (2 ^ 32) with 4294967296. lia.
Qed.

(** The commands carry their arguments where the controller looks for them:
    the 64-bit starting block in two dwords, the block count, queue sizes and ids in
    the halves of dword 10, the completion queue and interrupt vector in dword 11;
    every builder keeps the command id it is given, except [get_features], which
    leaves it 0. *)
Theorem nvme_cmd_layout (c ns lba blocks_1 p0 p1 qid ptr size iv cqid fid base : Z)
    (Hlba : u_range 64 lba) (Hqid : u_range 16 qid) (Hsize : u_range 16 size)
    (Hiv : u_range 16 iv) (Hcq : u_range 16 cqid) (Hptr : u_range 64 ptr) :
  (∀ cmd, cmd ∈ [nvme_io_read c ns lba blocks_1 p0 p1; nvme_io_write c ns lba blocks_1 p0 p1] →
     cid cmd = c ∧ nsid cmd = ns ∧ cdw10 cmd + 2 ^ 32 * cdw11 cmd = lba ∧ cdw12 cmd = blocks_1 ∧
     dptr cmd = (p0, p1)) ∧
  (∀ v cmd, cmd = create_io_completion_queue c qid ptr size v →
     cid cmd = c ∧ dptr cmd = (ptr, 0) ∧ cdw10 cmd mod 2 ^ 16 = qid ∧ cdw10 cmd / 2 ^ 16 = size ∧
     Z.testbit (cdw11 cmd) 0 = true) ∧
  (cdw11 (create_io_completion_queue c qid ptr size (Some iv)) = 2 ^ 16 * iv + 3 ∧
   cdw11 (create_io_completion_queue c qid ptr size None) = 1) ∧
  (∀ cmd, cmd = create_io_submission_queue c qid ptr size cqid →
     cid cmd = c ∧ dptr cmd = (ptr, 0) ∧ cdw10 cmd mod 2 ^ 16 = qid ∧ cdw10 cmd / 2 ^ 16 = size ∧
     cdw11 cmd = 2 ^ 16 * cqid + 1) ∧
  cid (identify_namespace c ptr ns) = c ∧ cid (identify_controller c ptr) = c ∧
  cid (identify_namespace_list c ptr base) = c ∧ cid (get_features c ptr fid) = 0.
Proof.
  unfold u_range in Hlba. change (2 ^ 64) with 18446744073709551616 in Hlba.
  assert (as_u64 ptr = ptr) as Hp by (by apply as_u_id).
  assert (∀ a b, u_range 16 a → u_range 16 b → (a * 65536 + b) mod 65536 = b ∧ (a * 65536 + b) / 65536 = a) as Hdm.
  { unfold u_range. change (2 ^ 16) with 65536. intros a b Ha Hb. split; zdiv. }
  change (2 ^ 16) with 65536. change (2 ^ 32) with 4294967296.
  assert (u_range 16 1 ∧ u_range 16 3) as [H1 H3] by (split; done).
  assert (∀ x, Z.lor 1 (Z.lor 2 x) = Z.lor x 3) as Hlor3.
  { intros x. by rewrite Z.lor_assoc, Z.lor_comm. }
  split; [|split; [|split; [|split]]].
  - assert (as_u32 lba + 4294967296 * as_u32 (Z.shiftr lba 32) = lba) as Hlba2.
    { unfold as_u32, as_u. rewrite Z.shiftr_div_pow2 by lia. change (2 ^ 32) with 4294967296. zdiv. }
    intros cmd Hc. rewrite !elem_of_cons, elem_of_nil in Hc. by destruct Hc as [->|[->|[]]].
  - intros v cmd ->. cbn [cid dptr cdw10 cdw11 create_io_completion_queue].
    rewrite Hp, dword_halves by done. destruct (Hdm size qid) as [-> ->]; [done|done|].
    repeat split. by rewrite Z.lor_spec.
  - cbn [cdw11 create_io_completion_queue]. split; [|done]. rewrite Hlor3, dword_halves by done. lia.
  - intros cmd ->. cbn [cid dptr cdw10 cdw11 create_io_submission_queue].
    rewrite Hp, !dword_halves by done. destruct (Hdm size qid) as [-> ->]; [done|done|].
    repeat split. lia.
  - done.
Qed.

(** ** Witnesses *)

Lemma sq_is_full_misses_wrap_witness :
  let q := mk_sq (replicate 64 cmd_default) 63 0 in
  sq_ok q ∧ sq_is_full q = false ∧ ∃ tail q', sq_submit (λ _, cmd_default) q = Some (cmd_default, tail, q') ∧
     tail = 0 ∧ sq_is_empty q' = true ∧ sq_count q' = 0.
Proof.
  assert (sq_ok (mk_sq (replicate 64 cmd_default) 63 0)) as Hq.
  { unfold sq_ok. cbn [sq_data sq_tail sq_qhead]. rewrite length_replicate. lia. }
  split; [exact Hq|]. split; [reflexivity|].
  exact (proj2 (sq_is_full_misses_wrap (mk_sq (replicate 64 cmd_default) 63 0) (λ _, cmd_default) Hq)
           eq_refl eq_refl).
Defined.

Lemma nvme_cmd_layout_witness :
  cdw11 (create_io_completion_queue 7 1 0x100000 255 (Some 2)) = 0x20003 ∧
  cid (get_features 7 0x100000 9) = 0.
Proof.
  destruct (nvme_cmd_layout 7 1 0x123456789 15 0 0 1 0x100000 255 2 1 9 0)
    as (_ & _ & [H1 _] & _ & _ & _ & _ & H2); [unfold u_range; vm_compute; split; congruence..|].
  split; [exact H1|exact H2].
Defined.
