(* ===== verification/NvmeReactor.v ===== *)
(** NVMe command submission and the completion reactor
    (storage/nvmed/src/nvme/cq_reactor.rs, and the doorbells and the state of
    storage/nvmed/src/nvme/mod.rs).

    [Nvme] is the driver's shared state: both kinds of queues, the channel to the
    reactor thread, the reactor's pending requests and the message cells the futures
    wait on (an [Arc<Mutex<Option<..>>>] is an index into [messages], so the aliasing
    between a future and the reactor is kept).  [future_poll] is one poll of a
    [CompletionFuture]; [reactor_entry] and [try_notify_futures] are the two halves of
    the reactor's work on a completion, between which it holds no lock.

    [sys_step] interleaves any number of tasks, the reactor and a controller that
    completes commands in any order, at the granularity of the locks.  The invariant
    [sys_inv] says where the completion of every command is. *)

From S2P Require Import Prelude NvmeQueue.

(** ** State *)

Inductive NotifReq : Type :=
| RequestCompletion (cq_id sq_id cmd_id waker : Z) (message : nat)
| RequestAvailSubmission (sq_id waker : Z).

Inductive PendingReq : Type :=
| PendingCompletion (waker : Z) (message : nat) (cq_id sq_id cmd_id : Z)
| PendingAvailSubmission (waker sq_id : Z).

Record Nvme := mk_nvme {
  submission_queues : gmap Z (NvmeCmdQueue * Z);
  completion_queues : gmap Z (NvmeCompQueue * list Z);
  cqs_for_ivs : gmap Z (list Z);
  (** Doorbell writes: register index and value. *)
  doorbells : list (Z * Z);
  (** The channel to the reactor, and the requests the reactor has taken. *)
  channel : list NotifReq;
  pending_reqs : list PendingReq;
  messages : list (option NvmeComp);
  (** Calls of [wake]. *)
  woken : list Z;
}.

Definition set_sqs (x : gmap Z (NvmeCmdQueue * Z)) (n : Nvme) : Nvme :=
  mk_nvme x (completion_queues n) (cqs_for_ivs n) (doorbells n) (channel n) (pending_reqs n)
    (messages n) (woken n).

Definition set_cqs (x : gmap Z (NvmeCompQueue * list Z)) (n : Nvme) : Nvme :=
  mk_nvme (submission_queues n) x (cqs_for_ivs n) (doorbells n) (channel n) (pending_reqs n)
    (messages n) (woken n).

Definition set_ivs (x : gmap Z (list Z)) (n : Nvme) : Nvme :=
  mk_nvme (submission_queues n) (completion_queues n) x (doorbells n) (channel n) (pending_reqs n)
    (messages n) (woken n).

Definition set_doorbells (x : list (Z * Z)) (n : Nvme) : Nvme :=
  mk_nvme (submission_queues n) (completion_queues n) (cqs_for_ivs n) x (channel n) (pending_reqs n)
    (messages n) (woken n).

Definition set_channel (x : list NotifReq) (n : Nvme) : Nvme :=
  mk_nvme (submission_queues n) (completion_queues n) (cqs_for_ivs n) (doorbells n) x (pending_reqs n)
    (messages n) (woken n).

Definition set_pending (x : list PendingReq) (n : Nvme) : Nvme :=
  mk_nvme (submission_queues n) (completion_queues n) (cqs_for_ivs n) (doorbells n) (channel n) x
    (messages n) (woken n).

Definition set_messages (x : list (option NvmeComp)) (n : Nvme) : Nvme :=
  mk_nvme (submission_queues n) (completion_queues n) (cqs_for_ivs n) (doorbells n) (channel n)
    (pending_reqs n) x (woken n).

Definition set_woken (x : list Z) (n : Nvme) : Nvme :=
  mk_nvme (submission_queues n) (completion_queues n) (cqs_for_ivs n) (doorbells n) (channel n)
    (pending_reqs n) (messages n) x.

Abbreviation nprog := (prog Nvme errno).

(** [Nvme::new]: the admin queues, both with id 0. *)
Definition nvme_new : Nvme :=
  mk_nvme {[0 := (sq_new, 0)]} {[0 := (cq_new, [0])]} {[0 := [0]]} [] [] [] [] [].

Definition doorbell_write (index value : Z) : nprog unit :=
  modify (λ n, set_doorbells (doorbells n ++ [(index, value)]) n).

Definition submission_queue_tail (qid tail : Z) : nprog unit := doorbell_write (2 * qid) tail.

Definition completion_queue_head (qid head : Z) : nprog unit := doorbell_write (2 * qid + 1) head.

(** ** Futures *)

Inductive Future : Type :=
| PendingSubmission (cmd_init : Z → NvmeCmd) (sq_id : Z)
| AwaitingCompletion (cq_id cmd_id sq_id : Z) (message : nat)
| Finished
| Placeholder.

Definition send_req (r : NotifReq) : nprog unit := modify (λ n, set_channel (channel n ++ [r]) n).

(** [Arc::new(Mutex::new(None))] *)
Definition new_message : nprog nat := λ n,
  (Ok (length (messages n)), set_messages (messages n ++ [None]) n).

(** The first state of [poll]. *)
Definition poll_submit (waker : Z) (cmd_init : Z → NvmeCmd) (sq_id : Z) : nprog (option NvmeComp * Future) :=
  sqs ← gets submission_queues;
  e ← unwrap (sqs !! sq_id);
  let '(sq, cq_id) := e in
  if sq_is_full sq then
    _ ← send_req (RequestAvailSubmission sq_id waker);
    p_ret (None, PendingSubmission cmd_init sq_id)
  else
    let cmd_id := sq_tail sq in
    r ← unwrap (submit_unchecked (cmd_init cmd_id) sq);
    let '(tail, sq) := r in
    _ ← modify (set_sqs (<[sq_id := (sq, cq_id)]> sqs));
    message ← new_message;
    _ ← send_req (RequestCompletion cq_id sq_id cmd_id waker message);
    _ ← submission_queue_tail sq_id tail;
    p_ret (None, AwaitingCompletion cq_id cmd_id sq_id message).

(** [message.lock().unwrap().take()] *)
Definition take_message (message : nat) : nprog (option NvmeComp) := λ n,
  match messages n !! message with
  | Some v => (Ok v, set_messages (<[message := None]> (messages n)) n)
  | None => (Panic, n)
  end.

(** One poll; a future that finds no message registers again. *)
Definition future_poll (waker : Z) (f : Future) : nprog (option NvmeComp * Future) :=
  match f with
  | PendingSubmission cmd_init sq_id => poll_submit waker cmd_init sq_id
  | AwaitingCompletion cq_id cmd_id sq_id message =>
      v ← take_message message;
      match v with
      | Some value => p_ret (Some value, Finished)
      | None =>
          _ ← send_req (RequestCompletion cq_id sq_id cmd_id waker message);
          p_ret (None, AwaitingCompletion cq_id cmd_id sq_id message)
      end
  | Finished => panic
  | Placeholder => panic
  end.

(** ** The reactor *)

Definition to_pending (r : NotifReq) : PendingReq :=
  match r with
  | RequestCompletion cq_id sq_id cmd_id waker message => PendingCompletion waker message cq_id sq_id cmd_id
  | RequestAvailSubmission sq_id waker => PendingAvailSubmission waker sq_id
  end.

(** [handle_notif_reqs_raw]: everything in the channel is taken, in order. *)
Definition handle_notif_reqs : nprog unit := modify (λ n,
  set_channel [] (set_pending (pending_reqs n ++ (to_pending <$> channel n)) n)).

Definition wake (w : Z) : nprog unit := modify (λ n, set_woken (woken n ++ [w]) n).

(** [Vec::remove] *)
Definition remove_req (i : nat) : nprog unit :=
  modify (λ n, set_pending (delete i (pending_reqs n)) n).

(** [*message.lock().unwrap() = Some(..)] *)
Definition set_message (message : nat) (e : NvmeComp) : nprog unit :=
  modify (λ n, set_messages (<[message := Some e]> (messages n)) n).

(** [finish_pending_completion]; [true] when the request at [i] was removed. *)
Definition finish_pending_completion (req_cq_id cq_id sq_id_ cmd_id : Z) (waker : Z) (message : nat)
    (entry : NvmeComp) (i : nat) : nprog bool :=
  if (req_cq_id =? cq_id) && (sq_id_ =? sq_id entry) && (cmd_id =? comp_cid entry) then
    _ ← remove_req i;
    _ ← set_message message entry;
    _ ← wake waker;
    p_ret true
  else p_ret false.

Definition finish_pending_avail_submission (sq_id_ waker : Z) (entry : NvmeComp) (i : nat) : nprog bool :=
  if sq_id_ =? sq_id entry then
    _ ← remove_req i;
    _ ← wake waker;
    p_ret true
  else p_ret false.

(** The [while] loop of [try_notify_futures], from index [i]. *)
Fixpoint try_notify_loop (fuel i : nat) (cq_id : Z) (entry : NvmeComp) : nprog unit :=
  match fuel with
  | O => p_ret tt
  | S fuel =>
      reqs ← gets pending_reqs;
      match reqs !! i with
      | None => p_ret tt
      | Some (PendingCompletion waker message req_cq_id sq_id cmd_id) =>
          b ← finish_pending_completion req_cq_id cq_id sq_id cmd_id waker message entry i;
          if (b : bool) then try_notify_loop fuel i cq_id entry else try_notify_loop fuel (S i) cq_id entry
      | Some (PendingAvailSubmission waker sq_id) =>
          b ← finish_pending_avail_submission sq_id waker entry i;
          if (b : bool) then try_notify_loop fuel i cq_id entry else try_notify_loop fuel (S i) cq_id entry
      end
  end.

(** The loop runs once per pending request. *)
Definition try_notify_futures (cq_id : Z) (entry : NvmeComp) : nprog unit :=
  n ← gets (λ n, length (pending_reqs n));
  try_notify_loop n 0 cq_id entry.

(** The first half of the loop body of [poll_completion_queues], up to the release
    of the submission queue's lock. *)
Definition reactor_entry (cq_id : Z) (q : NvmeCompQueue) (sqs_of : list Z) : nprog (option NvmeComp) :=
  match complete None q with
  | (None, _) => p_ret None
  | (Some (head, entry), q) =>
      _ ← modify (λ n, set_cqs (<[cq_id := (q, sqs_of)]> (completion_queues n)) n);
      _ ← completion_queue_head cq_id head;
      sqs ← gets submission_queues;
      e ← unwrap (sqs !! sq_id entry);
      let '(sq, corresponding_cq_id) := e in
      if cq_id =? corresponding_cq_id then
        _ ← modify (set_sqs (<[sq_id entry := (mk_sq (sq_data sq) (sq_tail sq) (sq_head entry), corresponding_cq_id)]> sqs));
        _ ← handle_notif_reqs;
        p_ret (Some entry)
      else panic
  end.

(** The [while let] loop on one completion queue; [false] when the fuel runs out. *)
Fixpoint cq_loop (fuel : nat) (cq_id : Z) : nprog bool :=
  match fuel with
  | O => p_ret false
  | S fuel =>
      cqs ← gets completion_queues;
      e ← unwrap (cqs !! cq_id);
      r ← reactor_entry cq_id e.1 e.2;
      match r with
      | None => p_ret true
      | Some entry =>
          _ ← try_notify_futures cq_id entry;
          cq_loop fuel cq_id
      end
  end.

(** The loop over the completion queues of an interrupt vector.  A missing queue is
    the early return of [?]. *)
Fixpoint cqs_loop (cq_ids : list Z) : nprog (option unit) :=
  match cq_ids with
  | [] => p_ret (Some tt)
  | cq_id :: cq_ids =>
      cqs ← gets completion_queues;
      match cqs !! cq_id with
      | None => p_ret None
      | Some (q, _) =>
          done ← cq_loop (S (length (cq_data q))) cq_id;
          if (done : bool) then cqs_loop cq_ids else panic
      end
  end.

Definition poll_completion_queues (iv : Z) : nprog (option unit) :=
  ivs ← gets cqs_for_ivs;
  match ivs !! iv with
  | None => p_ret None
  | Some cq_ids => cqs_loop cq_ids
  end.

(** ** The notification loop *)

(** Which requests a completion answers. *)
Definition req_matches (cq_id : Z) (e : NvmeComp) (r : PendingReq) : bool :=
  match r with
  | PendingCompletion _ _ rcq sq cmd => (rcq =? cq_id) && (sq =? sq_id e) && (cmd =? comp_cid e)
  | PendingAvailSubmission _ sq => sq =? sq_id e
  end.

Definition req_waker (r : PendingReq) : Z :=
  match r with PendingCompletion w _ _ _ _ => w | PendingAvailSubmission w _ => w end.

Definition req_message (r : PendingReq) : option nat :=
  match r with PendingCompletion _ m _ _ _ => Some m | PendingAvailSubmission _ _ => None end.

(** The message cells after answering the requests [rs]. *)
Definition deliver (e : NvmeComp) (rs : list PendingReq) (ms : list (option NvmeComp)) : list (option NvmeComp) :=
  foldl (λ ms m, <[m := Some e]> ms) ms (omap req_message rs).

(** The whole loop: the matching requests are removed, answered and woken, in order;
    the others stay in order. *)
Definition notified (cq_id : Z) (e : NvmeComp) (keep todo : list PendingReq) (n : Nvme) : Nvme :=
  let hit := filter (λ r, req_matches cq_id e r = true) todo in
  set_woken (woken n ++ (req_waker <$> hit))
    (set_messages (deliver e hit (messages n))
      (set_pending (keep ++ filter (λ r, req_matches cq_id e r = false) todo) n)).

Lemma delete_middle_app {A : Type} (l1 l2 : list A) (x : A) : delete (length l1) (l1 ++ x :: l2) = l1 ++ l2.
Proof. induction l1 as [|y l1 IH]; [done|]. simpl. f_equal. exact IH. Qed.

(** A step of the loop on the request at the index. *)
Lemma try_notify_loop_step (fuel : nat) (keep rest : list PendingReq) (r : PendingReq) (cq_id : Z)
    (e : NvmeComp) (n : Nvme) :
  pending_reqs n = keep ++ r :: rest →
  try_notify_loop (S fuel) (length keep) cq_id e n =
  if req_matches cq_id e r then
    try_notify_loop fuel (length keep) cq_id e
      (set_woken (woken n ++ [req_waker r]) (set_messages (deliver e [r] (messages n)) (set_pending (keep ++ rest) n)))
  else try_notify_loop fuel (S (length keep)) cq_id e n.
Proof.
  intros Hp. cbn [try_notify_loop]. unfold mbind, prog_bind.
  rewrite (bind_Ok (gets pending_reqs) _ n (keep ++ r :: rest) n) by (unfold gets; by rewrite Hp).
  rewrite list_lookup_middle by done. destruct r as [w m rcq sq cmd|w sq]; cbn [req_matches].
  - unfold finish_pending_completion.
    destruct ((rcq =? cq_id) && (sq =? sq_id e) && (cmd =? comp_cid e)); [|done].
    unfold mbind, prog_bind, remove_req, set_message, wake, modify, p_ret, p_bind.
    rewrite Hp, delete_middle_app. done.
  - unfold finish_pending_avail_submission. destruct (sq =? sq_id e); [|done].
    unfold mbind, prog_bind, remove_req, wake, modify, p_ret, p_bind.
    rewrite Hp, delete_middle_app. by destruct n.
Qed.

Lemma try_notify_loop_eq (fuel : nat) (keep todo : list PendingReq) (cq_id : Z) (e : NvmeComp) (n : Nvme) :
  (length todo <= fuel)%nat → pending_reqs n = keep ++ todo →
  try_notify_loop fuel (length keep) cq_id e n = (Ok tt, notified cq_id e keep todo n).
Proof.
  revert fuel keep n. induction todo as [|r todo IH]; intros fuel keep n Hf Hp.
  - assert (notified cq_id e keep [] n = n) as ->.
    { unfold notified. rewrite !filter_nil, <- Hp. simpl. rewrite (app_nil_r (woken n)). by destruct n. }
    destruct fuel; [done|]. cbn [try_notify_loop]. unfold mbind, prog_bind.
    rewrite (bind_Ok (gets pending_reqs) _ n (keep ++ []) n) by (unfold gets; by rewrite Hp).
    by rewrite lookup_ge_None_2 by (rewrite app_nil_r; lia).
  - destruct fuel as [|fuel]; [simpl in Hf; lia|]. rewrite (try_notify_loop_step _ _ todo r) by done.
    simpl in Hf. unfold notified. rewrite !filter_cons. destruct (req_matches cq_id e r) eqn:Hm.
    + rewrite decide_True, decide_False by done. rewrite IH by (done || lia). unfold notified.
      cbn [woken messages pending_reqs set_woken set_messages set_pending].
      f_equal. rewrite fmap_cons, <- app_assoc. cbn [app]. unfold deliver. destruct r; done.
    + rewrite decide_False, decide_True by done.
      replace (S (length keep)) with (length (keep ++ [r])) by (rewrite length_app; simpl; lia).
      rewrite IH; [|lia|by rewrite <- app_assoc]. unfold notified. by rewrite <- app_assoc.
Qed.

Lemma try_notify_futures_eq (cq_id : Z) (e : NvmeComp) (n : Nvme) :
  try_notify_futures cq_id e n = (Ok tt, notified cq_id e [] (pending_reqs n) n).
Proof.
  unfold try_notify_futures, mbind, prog_bind.
  rewrite (bind_Ok (gets _) _ n (length (pending_reqs n)) n) by done.
  by apply (try_notify_loop_eq (length (pending_reqs n)) []).
Qed.

(** A cell after delivery. *)
Lemma deliver_lookup (e : NvmeComp) (rs : list PendingReq) (ms : list (option NvmeComp)) (m : nat) :
  deliver e rs ms !! m =
  if decide (m ∈ omap req_message rs) then (λ _, Some e) <$> ms !! m else ms !! m.
Proof.
  unfold deliver. revert ms. induction (omap req_message rs) as [|i l IH]; intros ms; [done|].
  cbn [foldl]. rewrite IH. destruct (decide (i = m)) as [->|Hne].
  - rewrite (decide_True (P := m ∈ m :: l)) by left.
    destruct (decide (m < length ms)%nat) as [Hlt|Hge].
    + rewrite list_lookup_insert_eq by done. destruct (lookup_lt_is_Some_2 ms m Hlt) as [v ->]. by case_decide.
    + rewrite list_insert_ge, (lookup_ge_None_2 ms m) by lia. by case_decide.
  - rewrite list_lookup_insert_ne by done.
    destruct (decide (m ∈ l)) as [Hin|Hout]; [by rewrite decide_True by (by right)|].
    rewrite decide_False; [done|]. rewrite elem_of_cons. naive_solver.
Qed.

Lemma length_deliver (e : NvmeComp) (rs : list PendingReq) (ms : list (option NvmeComp)) :
  length (deliver e rs ms) = length ms.
Proof.
  unfold deliver. revert ms. induction (omap req_message rs) as [|i l IH]; intros ms; [done|].
  cbn [foldl]. by rewrite IH, length_insert.
Qed.

(** ** Tasks, reactor and controller together *)

(** The I/O queue pair of the driver. *)
Definition QID : Z := 1.

(** [nv] is the driver's memory; [tasks] the futures, by task; [unregistered] the
    tasks that found no message and have yet to send their request; [hand] the entry
    the reactor took and has yet to announce.  [inflight] are the commands the
    controller has yet to complete and [posted] the completions in the ring, with
    their tasks.  [answers] records what the controller posted for the command of a
    task, [results] what the task's future returned. *)
Record Sys := mk_sys {
  nv : Nvme;
  tasks : gmap Z Future;
  unregistered : gset Z;
  hand : option (Z * NvmeComp);
  inflight : list (Z * Z);
  posted : list (Z * NvmeComp);
  answers : gmap Z NvmeComp;
  results : gmap Z NvmeComp;
  cqd : CqDevice;
}.

(** A command with its id. *)
Definition with_cid (cmd : NvmeCmd) (c : Z) : NvmeCmd :=
  mk_cmd (opcode cmd) (c_flags cmd) c (nsid cmd) (c_rsvd cmd) (mptr cmd) (dptr cmd)
    (cdw10 cmd) (cdw11 cmd) (cdw12 cmd) (cdw13 cmd) (cdw14 cmd) (cdw15 cmd).

Inductive SysOp : Type :=
| OpNew (t : Z) (cmd : NvmeCmd)
| OpPoll (t : Z)
| OpPost (t : Z) (specific head status : Z)
| OpDrain
| OpReactor.

(** The id the next command gets is not that of a future that is still waiting. *)
Definition holds_cid (c : Z) (f : Future) : bool :=
  match f with AwaitingCompletion _ c' _ _ => c =? c' | _ => false end.

Definition cid_free (s : Sys) : Prop :=
  ∀ sq cq, submission_queues (nv s) !! QID = Some (sq, cq) → map_Forall (λ _ f, holds_cid (sq_tail sq) f = false) (tasks s).

Definition cid_free_b (s : Sys) : bool :=
  match submission_queues (nv s) !! QID with
  | Some (sq, _) => bool_decide (map_Forall (λ _ f, holds_cid (sq_tail sq) f = false) (tasks s))
  | None => true
  end.

Definition set_nv (n : Nvme) (s : Sys) : Sys :=
  mk_sys n (tasks s) (unregistered s) (hand s) (inflight s) (posted s) (answers s) (results s) (cqd s).

(** A poll of a task's future, with the two halves of its second state apart. *)
Definition step_poll (guarded : bool) (t : Z) (s : Sys) : option Sys :=
  match tasks s !! t with
  | Some (PendingSubmission cmd_init sq_id) =>
      if guarded && negb (cid_free_b s) then Some s
      else match poll_submit t cmd_init sq_id (nv s) with
           | (Ok (_, f), n) =>
               Some (mk_sys n (<[t := f]> (tasks s)) (unregistered s) (hand s)
                       (inflight s ++ match f with
                                      | AwaitingCompletion _ c _ _ => [(t, cid (cmd_init c))]
                                      | _ => []
                                      end)
                       (posted s) (answers s) (results s) (cqd s))
           | _ => None
           end
  | Some (AwaitingCompletion cq_id cmd_id sq_id m) =>
      if decide (t ∈ unregistered s) then
        match send_req (RequestCompletion cq_id sq_id cmd_id t m) (nv s) with
        | (Ok _, n) => Some (mk_sys n (tasks s) (unregistered s ∖ {[t]}) (hand s) (inflight s) (posted s)
                               (answers s) (results s) (cqd s))
        | _ => None
        end
      else
        match take_message m (nv s) with
        | (Ok (Some v), n) => Some (mk_sys n (<[t := Finished]> (tasks s)) (unregistered s) (hand s) (inflight s)
                                      (posted s) (answers s) (<[t := v]> (results s)) (cqd s))
        | (Ok None, n) => Some (mk_sys n (tasks s) ({[t]} ∪ unregistered s) (hand s) (inflight s) (posted s)
                                  (answers s) (results s) (cqd s))
        | _ => None
        end
  | _ => Some s
  end.

(** The controller completes a command of the queue, unless the ring is full. *)
Definition step_post (t specific head status : Z) (s : Sys) : option Sys :=
  match list_find (λ x, x.1 = t) (inflight s), completion_queues (nv s) !! QID with
  | Some (i, (_, c)), Some (q, l) =>
      if decide (dev_count (cqd s) < length (cq_data q))%nat then
        let e := mk_comp specific 0 head QID c status in
        let '(_, (q, d)) := cq_step (CqPost e) (q, cqd s) in
        let e := with_phase (dev_phase (cqd s)) e in
        Some (mk_sys (set_cqs (<[QID := (q, l)]> (completion_queues (nv s))) (nv s)) (tasks s) (unregistered s)
                (hand s) (delete i (inflight s)) (posted s ++ [(t, e)]) (<[t := e]> (answers s)) (results s) d)
      else Some s
  | _, _ => Some s
  end.

(** The reactor takes an entry, or announces the one it has. *)
Definition step_reactor (s : Sys) : option Sys :=
  match hand s with
  | Some (_, e) =>
      match try_notify_futures QID e (nv s) with
      | (Ok _, n) => Some (mk_sys n (tasks s) (unregistered s) None (inflight s) (posted s) (answers s)
                             (results s) (cqd s))
      | _ => None
      end
  | None =>
      match completion_queues (nv s) !! QID with
      | None => None
      | Some (q, l) =>
          match reactor_entry QID q l (nv s) with
          | (Ok None, _) => Some s
          | (Ok (Some e), n) =>
              Some (mk_sys n (tasks s) (unregistered s) ((λ te, (te.1, e)) <$> head (posted s)) (inflight s)
                      (tail (posted s)) (answers s) (results s)
                      (mk_cqd (dev_tail (cqd s)) (dev_phase (cqd s)) (dev_count (cqd s) - 1)))
          | _ => None
          end
      end
  end.

(** [None] is a panic of the driver. *)
Definition sys_step (guarded : bool) (op : SysOp) (s : Sys) : option Sys :=
  match op with
  | OpNew t cmd =>
      match tasks s !! t with
      | Some _ => Some s
      | None => Some (mk_sys (nv s) (<[t := PendingSubmission (with_cid cmd) QID]> (tasks s)) (unregistered s)
                        (hand s) (inflight s) (posted s) (answers s) (results s) (cqd s))
      end
  | OpPoll t => step_poll guarded t s
  | OpPost t specific head status => step_post t specific head status s
  | OpDrain => match handle_notif_reqs (nv s) with (Ok _, n) => Some (set_nv n s) | _ => None end
  | OpReactor => step_reactor s
  end.

Fixpoint sys_run (guarded : bool) (ops : list SysOp) (s : Sys) : option Sys :=
  match ops with
  | [] => Some s
  | op :: ops => s ← sys_step guarded op s; sys_run guarded ops s
  end.

(** A driver that is ready for I/O: the queue pair is new, nothing is waiting, and
    the admin queue, which shares the interrupt vector, has nothing to report. *)
Record ready (n : Nvme) : Prop := {
  ready_sq : submission_queues n !! QID = Some (sq_new, QID);
  ready_cq : ∃ l, completion_queues n !! QID = Some (cq_new, l);
  ready_admin : ∃ q l, completion_queues n !! 0 = Some (q, l) ∧ complete None q = (None, q);
  ready_ivs : cqs_for_ivs n !! 0 = Some [0; QID];
  ready_idle : channel n = [] ∧ pending_reqs n = [];
}.

Definition sys_init (n : Nvme) : Sys := mk_sys n ∅ ∅ None [] [] ∅ ∅ (mk_cqd 0 true 0).

(** ** The invariant *)

Definition entry_of (te : Z * NvmeComp) : Z * Z := (te.1, comp_cid te.2).

(** Commands whose completion has not reached the message cell, with their tasks. *)
Definition live (s : Sys) : list (Z * Z) :=
  inflight s ++ (entry_of <$> posted s) ++ (entry_of <$> option_list (hand s)).

Definition awaiting (s : Sys) (t c : Z) (m : nat) : Prop :=
  tasks s !! t = Some (AwaitingCompletion QID c QID m).

(** Requests the reactor has or will find in its channel. *)
Definition all_reqs (n : Nvme) : list PendingReq := pending_reqs n ++ (to_pending <$> channel n).

Record sys_inv (s : Sys) : Prop := {
  si_sq : ∃ sq, submission_queues (nv s) !! QID = Some (sq, QID) ∧
    0 <= sq_tail sq < Z.of_nat (length (sq_data sq)) ∧ Z.of_nat (length (sq_data sq)) <= 32768;
  si_cq : ∃ q l k, completion_queues (nv s) !! QID = Some (q, l) ∧ cq_inv k (posted s).*2 q (cqd s);
  si_admin : ∃ q l, completion_queues (nv s) !! 0 = Some (q, l) ∧ complete None q = (None, q);
  si_ivs : cqs_for_ivs (nv s) !! 0 = Some [0; QID];
  si_nodup : NoDup (live s).*1;
  si_live t c : (t, c) ∈ live s → ∃ m, awaiting s t c m ∧ messages (nv s) !! m = Some None ∧
    PendingCompletion t m QID QID c ∈ all_reqs (nv s);
  si_hand t e m : hand s = Some (t, e) → awaiting s t (comp_cid e) m →
    PendingCompletion t m QID QID (comp_cid e) ∈ pending_reqs (nv s);
  si_posted t e : (t, e) ∈ posted s ++ option_list (hand s) → answers s !! t = Some e ∧ sq_id e = QID;
  si_inflight t c : (t, c) ∈ inflight s → answers s !! t = None;
  si_form t cq c sq m : tasks s !! t = Some (AwaitingCompletion cq c sq m) → cq = QID ∧ sq = QID;
  si_await t c m : awaiting s t c m → (m < length (messages (nv s)))%nat ∧
    (t ∈ (live s).*1 ∨ ∃ e, messages (nv s) !! m = Some (Some e) ∧ answers s !! t = Some e);
  si_cid t1 t2 c m1 m2 : awaiting s t1 c m1 → awaiting s t2 c m2 → t1 = t2;
  si_msg t1 t2 c1 c2 m : awaiting s t1 c1 m → awaiting s t2 c2 m → t1 = t2;
  si_reqs w m cq sq c : PendingCompletion w m cq sq c ∈ all_reqs (nv s) →
    (m < length (messages (nv s)))%nat ∧ ∀ t c', awaiting s t c' m → c = c';
  si_results t v : results s !! t = Some v → tasks s !! t = Some Finished ∧ answers s !! t = Some v;
  si_sub t f sq : tasks s !! t = Some (PendingSubmission f sq) →
    sq = QID ∧ answers s !! t = None ∧ ∀ c, cid (f c) = c;
  si_new t : tasks s !! t = None → answers s !! t = None ∧ results s !! t = None;
}.

(** Changes of the driver's memory that keep the queues and the cells, and only add
    requests. *)
Lemma inv_frame (s : Sys) (n : Nvme) (u : gset Z) :
  sys_inv s →
  (∃ sq, submission_queues n !! QID = Some (sq, QID) ∧
     0 <= sq_tail sq < Z.of_nat (length (sq_data sq)) ∧ Z.of_nat (length (sq_data sq)) <= 32768) →
  completion_queues n = completion_queues (nv s) → cqs_for_ivs n = cqs_for_ivs (nv s) →
  messages n = messages (nv s) →
  (∀ r, r ∈ all_reqs (nv s) → r ∈ all_reqs n) → (∀ r, r ∈ pending_reqs (nv s) → r ∈ pending_reqs n) →
  (∀ w m cq sq c, PendingCompletion w m cq sq c ∈ all_reqs n →
     PendingCompletion w m cq sq c ∈ all_reqs (nv s) ∨ ∃ t, awaiting s t c m) →
  sys_inv (mk_sys n (tasks s) u (hand s) (inflight s) (posted s) (answers s) (results s) (cqd s)).
Proof.
  intros Hi Hsq Hcq Hiv Hm Hall Hpend Hnew. destruct Hi.
  split; cbn [nv tasks unregistered hand inflight posted answers results cqd]; rewrite ?Hcq, ?Hiv, ?Hm; try done.
  - intros t c Hl. destruct (si_live0 t c Hl) as (m & Ha & Hmm & Hr). exists m. auto.
  - intros t e m Hh Ha. apply Hpend. by apply (si_hand0 t e m).
  - intros w m cq sq c Hr. destruct (Hnew _ _ _ _ _ Hr) as [Hr'|[t Ha]]; [by apply si_reqs0 in Hr'|].
    destruct (si_await0 t c m Ha) as [Hlt _]. split; [done|]. intros t' c' Ha'.
    assert (t = t') as -> by (by apply (si_msg0 t t' c c' m)). unfold awaiting in *. cbn [tasks] in *. congruence.
Qed.

Lemma all_reqs_send (r : NotifReq) (n : Nvme) :
  all_reqs (set_channel (channel n ++ [r]) n) = all_reqs n ++ [to_pending r].
Proof. unfold all_reqs. cbn [channel pending_reqs set_channel]. by rewrite fmap_app, app_assoc. Qed.

Lemma all_reqs_drain (n : Nvme) :
  all_reqs (set_channel [] (set_pending (pending_reqs n ++ (to_pending <$> channel n)) n)) = all_reqs n.
Proof. unfold all_reqs. cbn [channel pending_reqs set_channel set_pending]. by rewrite app_nil_r. Qed.

(** Another [RequestCompletion] for a task that waits. *)
Lemma inv_register (s : Sys) (t c : Z) (m : nat) (u : gset Z) :
  sys_inv s → awaiting s t c m →
  sys_inv (mk_sys (set_channel (channel (nv s) ++ [RequestCompletion QID QID c t m]) (nv s)) (tasks s) u (hand s)
             (inflight s) (posted s) (answers s) (results s) (cqd s)).
Proof.
  intros Hi Ha. apply inv_frame; try done; [by apply Hi| |].
  - intros r Hr. rewrite all_reqs_send. by apply elem_of_app; left.
  - intros w m' cq sq c' Hr. rewrite all_reqs_send in Hr. apply elem_of_app in Hr as [Hr|Hr]; [by left|].
    apply list_elem_of_singleton in Hr. injection Hr as -> -> -> -> ->. right. by exists t.
Qed.

Lemma inv_full (s : Sys) (t : Z) :
  sys_inv s → sys_inv (set_nv (set_channel (channel (nv s) ++ [RequestAvailSubmission QID t]) (nv s)) s).
Proof.
  intros Hi. apply inv_frame; try done; [by apply Hi| |].
  - intros r Hr. rewrite all_reqs_send. by apply elem_of_app; left.
  - intros w m' cq sq c' Hr. rewrite all_reqs_send in Hr. apply elem_of_app in Hr as [Hr|Hr]; [by left|].
    by apply list_elem_of_singleton in Hr.
Qed.

Lemma inv_drain (s : Sys) (n : Nvme) :
  sys_inv s → handle_notif_reqs (nv s) = (Ok tt, n) → sys_inv (set_nv n s).
Proof.
  intros Hi [= <-]. apply inv_frame; rewrite ?all_reqs_drain; try done; [by apply Hi| |by left].
  intros r Hr. cbn [pending_reqs set_channel set_pending]. by apply elem_of_app; left.
Qed.

(** A new task. *)
Lemma inv_new (s : Sys) (t : Z) (cmd : NvmeCmd) :
  sys_inv s → tasks s !! t = None →
  sys_inv (mk_sys (nv s) (<[t := PendingSubmission (with_cid cmd) QID]> (tasks s)) (unregistered s)
             (hand s) (inflight s) (posted s) (answers s) (results s) (cqd s)).
Proof.
  intros Hi Ht. pose proof (si_new s Hi t Ht) as [Hans Hres].
  assert (∀ t' cq c sq m, <[t := PendingSubmission (with_cid cmd) QID]> (tasks s) !! t' = Some (AwaitingCompletion cq c sq m) ↔
            tasks s !! t' = Some (AwaitingCompletion cq c sq m)) as Haw.
  { intros t' cq c sq m. destruct (decide (t' = t)) as [->|]; [rewrite lookup_insert_eq, Ht; split; congruence|].
    by rewrite lookup_insert_ne. }
  destruct Hi. unfold awaiting in *.
  split; unfold awaiting, live in *; cbn [nv tasks unregistered hand inflight posted answers results cqd] in *;
    try setoid_rewrite Haw; try done.
  - intros t' v Hr. destruct (si_results0 t' v Hr) as [Hf Ha]. split; [|done].
    rewrite lookup_insert_ne; [done|]. intros <-. congruence.
  - intros t' f sq Hf. destruct (decide (t' = t)) as [->|].
    + rewrite lookup_insert_eq in Hf. injection Hf as <- <-. done.
    + rewrite lookup_insert_ne in Hf by done. by apply (si_sub0 t').
  - intros t' Hn. destruct (decide (t' = t)) as [->|]; [done|]. rewrite lookup_insert_ne in Hn by done. auto.
Qed.

Lemma awaiting_eq (s : Sys) (t c c' : Z) (m m' : nat) :
  awaiting s t c m → awaiting s t c' m' → c = c' ∧ m = m'.
Proof. unfold awaiting. intros H1 H2. rewrite H1 in H2. by injection H2. Qed.

(** A waiting task whose cell is filled is not live. *)
Lemma filled_not_live (s : Sys) (t c : Z) (m : nat) (v : NvmeComp) :
  sys_inv s → awaiting s t c m → messages (nv s) !! m = Some (Some v) →
  t ∉ (live s).*1 ∧ answers s !! t = Some v.
Proof.
  intros Hi Ha Hm.
  assert (t ∉ (live s).*1) as Hnl.
  { intros ([t' c'] & -> & Hl)%list_elem_of_fmap_1. destruct (si_live s Hi t' c' Hl) as (m' & Ha' & Hm' & _).
    destruct (awaiting_eq _ _ _ _ _ _ Ha Ha') as [_ ->]. congruence. }
  split; [done|]. destruct (si_await s Hi t c m Ha) as [_ [Hl|(e & He & Hans)]]; [done|]. congruence.
Qed.

(** The future takes its message. *)
Lemma inv_take (s : Sys) (t c : Z) (m : nat) (v : NvmeComp) (u : gset Z) :
  sys_inv s → awaiting s t c m → messages (nv s) !! m = Some (Some v) →
  sys_inv (mk_sys (set_messages (<[m := None]> (messages (nv s))) (nv s)) (<[t := Finished]> (tasks s)) u (hand s)
             (inflight s) (posted s) (answers s) (<[t := v]> (results s)) (cqd s)).
Proof.
  intros Hi Ha Hm. destruct (filled_not_live s t c m v Hi Ha Hm) as [Hnl Hans].
  assert (∀ t' cq c' sq m', <[t := Finished]> (tasks s) !! t' = Some (AwaitingCompletion cq c' sq m') ↔
            tasks s !! t' = Some (AwaitingCompletion cq c' sq m') ∧ t' ≠ t) as Haw.
  { intros t' cq c' sq m'. destruct (decide (t' = t)) as [->|]; [rewrite lookup_insert_eq; naive_solver|].
    rewrite lookup_insert_ne by done. naive_solver. }
  assert (∀ t' c' m', awaiting s t' c' m' → t' ≠ t → m' ≠ m) as Hne.
  { intros t' c' m' Ha' Ht ->. apply Ht. by apply (si_msg s Hi t' t c' c m). }
  destruct Hi. unfold awaiting in *.
  split; unfold awaiting, live in *; cbn [nv tasks unregistered hand inflight posted answers results cqd
    submission_queues completion_queues cqs_for_ivs messages pending_reqs set_messages] in *;
    rewrite ?length_insert; try setoid_rewrite Haw; try done.
  - intros t' c' Hl. destruct (si_live0 t' c' Hl) as (m' & Ha' & Hm' & Hr). exists m'.
    assert (t' ≠ t) by (intros ->; apply Hnl, list_elem_of_fmap; by exists (t, c')).
    rewrite list_lookup_insert_ne by (intros ->; by eapply Hne). done.
  - intros t' e m' Hh [Ha' _]. by apply (si_hand0 t').
  - intros t' cq c' sq m' [Ha' _]. by apply (si_form0 t' cq c' sq m').
  - intros t' c' m' [Ha' Ht]. destruct (si_await0 t' c' m' Ha') as [Hlt Hc]. split; [done|].
    rewrite list_lookup_insert_ne by (intros ->; by eapply Hne). done.
  - intros t1 t2 c' m1 m2 [H1 _] [H2 _]. by apply (si_cid0 t1 t2 c' m1 m2).
  - intros t1 t2 c1 c2 m' [H1 _] [H2 _]. by apply (si_msg0 t1 t2 c1 c2 m').
  - intros w m' cq sq c' Hr. destruct (si_reqs0 w m' cq sq c' Hr) as [Hlt Hc]. split; [done|].
    intros t' c'' [Ha' _]. by apply (Hc t').
  - intros t' v'. destruct (decide (t' = t)) as [->|Ht].
    + rewrite !lookup_insert_eq. naive_solver.
    + rewrite !lookup_insert_ne by done. apply si_results0.
  - intros t' f sq Hf. destruct (decide (t' = t)) as [->|Ht]; [by rewrite lookup_insert_eq in Hf|].
    rewrite lookup_insert_ne in Hf by done. by apply (si_sub0 t').
  - intros t' Hn. destruct (decide (t' = t)) as [->|Ht]; [by rewrite lookup_insert_eq in Hn|].
    rewrite lookup_insert_ne in Hn by done. rewrite lookup_insert_ne by done. auto.
Qed.

(** A submission. *)
Lemma inv_submit (s : Sys) (t : Z) (f : Z → NvmeCmd) (sq sq' : NvmeCmdQueue) (tail : Z) :
  sys_inv s → tasks s !! t = Some (PendingSubmission f QID) →
  submission_queues (nv s) !! QID = Some (sq, QID) → submit_unchecked (f (sq_tail sq)) sq = Some (tail, sq') →
  map_Forall (λ _ f, holds_cid (sq_tail sq) f = false) (tasks s) →
  let m := length (messages (nv s)) in
  let n := mk_nvme (<[QID := (sq', QID)]> (submission_queues (nv s))) (completion_queues (nv s))
             (cqs_for_ivs (nv s)) (doorbells (nv s) ++ [(2 * QID, tail)])
             (channel (nv s) ++ [RequestCompletion QID QID (sq_tail sq) t m])
             (pending_reqs (nv s)) (messages (nv s) ++ [None]) (woken (nv s)) in
  sys_inv (mk_sys n (<[t := AwaitingCompletion QID (sq_tail sq) QID m]> (tasks s)) (unregistered s) (hand s)
             (inflight s ++ [(t, sq_tail sq)]) (posted s) (answers s) (results s) (cqd s)).
Proof.
  intros Hi Ht Hsq Hsub Hfree m n. set (c := sq_tail sq) in *.
  destruct (si_sub s Hi t f QID Ht) as (_ & Hans & _).
  assert (∀ t' cq c' sq m', <[t := AwaitingCompletion QID c QID m]> (tasks s) !! t' = Some (AwaitingCompletion cq c' sq m') ↔
            tasks s !! t' = Some (AwaitingCompletion cq c' sq m') ∨ t' = t ∧ cq = QID ∧ c' = c ∧ sq = QID ∧ m' = m) as Haw.
  { intros t' cq c' sq0 m'. destruct (decide (t' = t)) as [->|].
    - rewrite lookup_insert_eq. split; [intros [= <- <- <- <-]; by right|].
      intros [H|(_ & -> & -> & -> & ->)]; [congruence|done].
    - rewrite lookup_insert_ne by done. naive_solver. }
  assert (∀ t' c' m', awaiting s t' c' m' → c' ≠ c) as Hcne.
  { intros t' c' m' Ha ->. specialize (Hfree t' _ Ha). simpl in Hfree. fold c in Hfree. lia. }
  assert (all_reqs n = all_reqs (nv s) ++ [PendingCompletion t m QID QID c]) as Hreqs.
  { unfold all_reqs, n. cbn [channel pending_reqs]. by rewrite fmap_app, app_assoc. }
  assert (live (mk_sys n (<[t := AwaitingCompletion QID c QID m]> (tasks s)) (unregistered s) (hand s)
             (inflight s ++ [(t, c)]) (posted s) (answers s) (results s) (cqd s)) ≡ₚ (t, c) :: live s) as Hlive.
  { unfold live. cbn [inflight posted hand]. rewrite <- app_assoc. simpl. by rewrite <- Permutation_middle. }
  assert (t ∉ (live s).*1) as Hnl.
  { intros ([t' c'] & -> & Hl)%list_elem_of_fmap_1. destruct (si_live s Hi t' c' Hl) as (m' & Ha' & _).
    unfold awaiting in Ha'. simpl in *. congruence. }
  assert (messages n = messages (nv s) ++ [None]) as Hmsg by done.
  destruct Hi. split; unfold awaiting;
    cbn [nv tasks unregistered hand inflight posted answers results cqd];
    rewrite ?Hmsg, ?Hreqs; try setoid_rewrite Haw.
  - exists sq'. cbn [submission_queues n]. rewrite lookup_insert_eq. split; [done|].
    destruct si_sq0 as (sq0 & Hsq0 & Hr1 & Hr2). rewrite Hsq in Hsq0. injection Hsq0 as <-.
    unfold submit_unchecked in Hsub. destruct (sq_data sq !! _); [|done]. injection Hsub as <- <-.
    cbn [sq_tail sq_data]. rewrite length_insert. split; [|done]. apply Z.mod_pos_bound. lia.
  - done.
  - done.
  - done.
  - rewrite Hlive. simpl. by constructor.
  - intros t' c'. rewrite Hlive, elem_of_cons. intros [[= -> ->]|Hl].
    + exists m. split; [by right|]. split; [|apply elem_of_app; right; by left].
      unfold m. by rewrite list_lookup_middle.
    + destruct (si_live0 t' c' Hl) as (m' & Ha' & Hm' & Hr). exists m'. split; [by left|].
      split; [|by apply elem_of_app; left]. by apply lookup_app_l_Some.
  - intros t' e m' Hh Ha'. cbn [pending_reqs n]. destruct Ha' as [Ha'|(-> & _ & Hc & _)]; [by apply (si_hand0 t')|].
    destruct (si_live0 t c) as (m0 & Ha0 & _); [|by destruct (Hcne _ _ _ Ha0)].
    unfold live. rewrite Hh. rewrite !elem_of_app. right. right. simpl. unfold entry_of. simpl. rewrite Hc. by left.
  - done.
  - intros t' c' [Hl|Hl]%elem_of_app; [by apply (si_inflight0 t' c')|].
    apply list_elem_of_singleton in Hl. injection Hl as -> ->. done.
  - intros t' cq c' sq0 m' [Ha'|(_ & -> & _ & -> & _)]; [by apply (si_form0 t' cq c' sq0 m')|done].
  - intros t' c' m' Ha'. rewrite Hlive, fmap_cons, elem_of_cons, length_app. simpl.
    destruct Ha' as [Ha'|(-> & _ & _ & _ & ->)]; [|unfold m; split; [lia|by left; left]].
    destruct (si_await0 t' c' m' Ha') as [Hlt Hc]. split; [lia|].
    destruct Hc as [Hl|(e & He & Hans')]; [by left; right|]. right. exists e. split; [|done].
    by apply lookup_app_l_Some.
  - intros t1 t2 c' m1 m2 [H1|(-> & _ & -> & _ & _)] [H2|(-> & _ & Hc & _ & _)]; [by apply (si_cid0 t1 t2 c' m1 m2)| | |done].
    + subst c'. by destruct (Hcne _ _ _ H1).
    + by destruct (Hcne _ _ _ H2).
  - intros t1 t2 c1 c2 m' [H1|(-> & _ & _ & _ & ->)] [H2|(-> & _ & _ & _ & Hm)]; [by apply (si_msg0 t1 t2 c1 c2 m')| | |done].
    + subst m'. destruct (si_await0 _ _ _ H1) as [? _]. unfold m in *. lia.
    + destruct (si_await0 _ _ _ H2) as [? _]. unfold m in *. lia.
  - intros w m' cq sq0 c' Hr. rewrite length_app. simpl. apply elem_of_app in Hr as [Hr|Hr].
    + destruct (si_reqs0 w m' cq sq0 c' Hr) as [Hlt Hc]. split; [lia|].
      intros t' c'' [Ha'|(_ & _ & _ & _ & ->)]; [by apply (Hc t')|]. unfold m in Hlt. lia.
    + apply list_elem_of_singleton in Hr. injection Hr as -> -> -> -> ->. split; [unfold m; lia|].
      intros t' c'' [Ha'|(_ & _ & -> & _)]; [|done]. destruct (si_await0 _ _ _ Ha') as [? _]. unfold m in *. lia.
  - intros t' v Hr. destruct (si_results0 t' v Hr) as [Hf Ha']. split; [|done].
    rewrite lookup_insert_ne; [done|]. intros <-. congruence.
  - intros t' f' sq0 Hf. destruct (decide (t' = t)) as [->|]; [by rewrite lookup_insert_eq in Hf|].
    rewrite lookup_insert_ne in Hf by done. by apply (si_sub0 t').
  - intros t' Hn. destruct (decide (t' = t)) as [->|]; [by rewrite lookup_insert_eq in Hn|].
    rewrite lookup_insert_ne in Hn by done. auto.
Qed.

Lemma cq_step_post_data (e : NvmeComp) (q : NvmeCompQueue) (d : CqDevice) (k : nat) (p : list NvmeComp) :
  cq_inv k p q d → (dev_count d < length (cq_data q))%nat →
  ∃ q' d', cq_step (CqPost e) (q, d) = (None, (q', d')) ∧ cq_inv k (p ++ [with_phase (dev_phase d) e]) q' d'.
Proof.
  intros Hq Hc. destruct (cq_post_inv k p q d e Hq) as (q' & d' & Hs & Hq' & _); [|by exists q', d'].
  destruct Hq as [_ _ _ [Hcnt _] _ _ _]. lia.
Qed.

(** The controller completes a command. *)
Lemma inv_post (s : Sys) (t specific head status : Z) :
  sys_inv s → ∃ s', step_post t specific head status s = Some s' ∧ sys_inv s'.
Proof.
  intros Hi. unfold step_post. destruct (list_find _ (inflight s)) as [[i [t' c]]|] eqn:Hf; [|by exists s].
  apply list_find_Some in Hf as (Hlk & Heq & _). simpl in Heq. subst t'.
  destruct (si_cq s Hi) as (q & l & k & Hcq & Hinv). rewrite Hcq. case_decide as Hcnt; [|by exists s].
  set (e0 := mk_comp specific 0 head QID c status).
  destruct (cq_step_post_data e0 q (cqd s) k _ Hinv Hcnt) as (q' & d' & -> & Hinv').
  eexists. split; [done|]. set (e := with_phase (dev_phase (cqd s)) e0) in *.
  assert (comp_cid e = c ∧ sq_id e = QID) as [Hec Hes] by done.
  set (s' := mk_sys _ _ _ _ _ _ _ _ _).
  assert (inflight s ≡ₚ (t, c) :: delete i (inflight s)) as Hperm by (by apply delete_Permutation).
  set (rest := delete i (inflight s)) in *. clearbody rest.
  assert (live s' ≡ₚ live s) as Hlive.
  { unfold live, s'. cbn [inflight posted hand]. rewrite fmap_app, Hperm. cbn [fmap list_fmap].
    change (entry_of (t, e)) with (t, c). solve_Permutation. }
  assert ((t, c) ∈ live s) as Hin.
  { unfold live. rewrite Hperm. by left. }
  pose proof (si_nodup s Hi) as Hnd. unfold live in Hnd. rewrite Hperm in Hnd. simpl in Hnd.
  apply NoDup_cons in Hnd as [Hnt _].
  destruct (si_live s Hi t c Hin) as (m & Ha & Hm & Hr).
  assert (∀ t' c', (t', c') ∈ rest → t' ≠ t) as Hni.
  { intros t' c' Hl ->. apply Hnt. rewrite fmap_app, elem_of_app. left. apply list_elem_of_fmap. by exists (t, c'). }
  assert (∀ t' e', (t', e') ∈ posted s ++ option_list (hand s) → t' ≠ t) as Hnp.
  { intros t' e' Hl ->. apply Hnt. rewrite (fmap_app fst), elem_of_app. right. rewrite <- (fmap_app entry_of), <- list_fmap_compose.
    apply list_elem_of_fmap. by exists (t, e'). }
  destruct Hi.
  split; try setoid_rewrite Hlive; unfold s'; cbn [nv tasks unregistered hand inflight posted answers results cqd set_cqs
    submission_queues completion_queues cqs_for_ivs messages pending_reqs]; try done.
  - exists q', l, k. rewrite lookup_insert_eq, fmap_app. done.
  - destruct si_admin0 as (q0 & l0 & H0 & Hc0). exists q0, l0. by rewrite lookup_insert_ne.
  - intros t' e' Hl. rewrite <- app_assoc in Hl. apply elem_of_app in Hl as [Hl|Hl].
    + rewrite lookup_insert_ne; [by apply si_posted0, elem_of_app; left|]. symmetry. apply (Hnp t' e'), elem_of_app. by left.
    + cbn [app] in Hl. apply elem_of_cons in Hl as [[= -> ->]|Hl]; [by rewrite lookup_insert_eq|].
      rewrite lookup_insert_ne; [by apply si_posted0, elem_of_app; right|]. symmetry. apply (Hnp t' e'), elem_of_app. by right.
  - intros t' c' Hl. rewrite lookup_insert_ne by (symmetry; by eapply Hni). apply (si_inflight0 t' c').
    rewrite Hperm. by right.
  - intros t' c' m' Ha'. destruct (si_await0 t' c' m' Ha') as [Hlt Hc]. split; [done|].
    destruct Hc as [Hl|(e' & He' & Hans)]; [by left|].
    destruct (decide (t' = t)) as [->|]; [left; apply list_elem_of_fmap; by exists (t, c)|].
    right. exists e'. by rewrite lookup_insert_ne.
  - intros t' v Hv. destruct (si_results0 t' v Hv) as [Hf Hans]. split; [done|].
    rewrite lookup_insert_ne; [done|]. intros <-. unfold awaiting in Ha. congruence.
  - intros t' f sq Hf. destruct (si_sub0 t' f sq Hf) as (-> & Hans & Hcid).
    rewrite lookup_insert_ne; [done|]. intros <-. unfold awaiting in Ha. congruence.
  - intros t' Hn. rewrite lookup_insert_ne; [by apply si_new0|]. intros <-. unfold awaiting in Ha. congruence.
Qed.

(** A poll of the ring by the driver. *)
Lemma complete_inv (k : nat) (p : list NvmeComp) (q : NvmeCompQueue) (d : CqDevice) :
  cq_inv k p q d →
  match p with
  | [] => complete None q = (None, q)
  | e :: rest => ∃ h q', complete None q = (Some (h, e), q') ∧
      cq_inv (S k) rest q' (mk_cqd (dev_tail d) (dev_phase d) (dev_count d - 1)) ∧
      length (cq_data q') = length (cq_data q)
  end.
Proof.
  intros Hi. pose proof (cq_poll_inv k p q d Hi) as Hp. unfold cq_step in Hp.
  destruct p as [|e rest].
  - destruct (complete None q) as [[[h e]|] q']; [done|]. by injection Hp as ->.
  - destruct Hp as (q' & d' & Hp & Hi' & Hl). destruct (complete None q) as [[[h e']|] q'']; [|done].
    injection Hp as -> -> <-. by exists h, q'.
Qed.

(** The driver's memory after the reactor took the entry [e]. *)
Definition after_entry (qid : Z) (q : NvmeCompQueue) (l : list Z) (h : Z) (e : NvmeComp) (sq : NvmeCmdQueue) (n : Nvme) : Nvme :=
  mk_nvme (<[qid := (mk_sq (sq_data sq) (sq_tail sq) (sq_head e), qid)]> (submission_queues n))
    (<[qid := (q, l)]> (completion_queues n)) (cqs_for_ivs n) (doorbells n ++ [(2 * qid + 1, h)]) []
    (pending_reqs n ++ (to_pending <$> channel n)) (messages n) (woken n).

Lemma reactor_entry_eq (qid : Z) (q q' : NvmeCompQueue) (l : list Z) (h : Z) (e : NvmeComp) (sq : NvmeCmdQueue) (n : Nvme) :
  complete None q = (Some (h, e), q') → sq_id e = qid → submission_queues n !! qid = Some (sq, qid) →
  reactor_entry qid q l n = (Ok (Some e), after_entry qid q' l h e sq n).
Proof.
  intros Hc Hid Hsq. unfold reactor_entry. rewrite Hc.
  unfold mbind, prog_bind, modify, completion_queue_head, doorbell_write, modify, gets, handle_notif_reqs, modify, p_ret, unwrap, p_bind.
  cbn [submission_queues set_cqs set_doorbells]. rewrite Hid, Hsq. unfold p_ret. cbv beta iota. by rewrite Z.eqb_refl.
Qed.

Lemma inv_entry (s : Sys) :
  sys_inv s → hand s = None → ∃ s', step_reactor s = Some s' ∧ sys_inv s' ∧
    (posted s = [] → s' = s) ∧
    (∀ t e rest, posted s = (t, e) :: rest → hand s' = Some (t, e) ∧ posted s' = rest ∧ tasks s' = tasks s ∧
       answers s' = answers s).
Proof.
  intros Hi Hh. unfold step_reactor. rewrite Hh.
  destruct (si_cq s Hi) as (q & l & k & Hcq & Hinv). rewrite Hcq. pose proof (complete_inv _ _ _ _ Hinv) as Hc.
  destruct (posted s) as [|[t e] rest] eqn:Hp.
  { simpl in Hc. unfold reactor_entry. rewrite Hc. exists s. split; [done|]. split; [done|]. split; [done|]. by intros. }
  simpl in Hc. destruct Hc as (h & q' & Hc & Hinv' & _).
  destruct (si_posted s Hi t e) as [Hans Hid]; [rewrite Hp; by left|].
  destruct (si_sq s Hi) as (sq & Hsq & Hr1 & Hr2).
  rewrite (reactor_entry_eq QID q q' l h e sq (nv s) Hc Hid Hsq).
  eexists. split; [done|]. set (s' := mk_sys _ _ _ _ _ _ _ _ _).
  split; [|split; [done|by intros ? ? ? [= <- <- <-]]].
  assert (live s' ≡ₚ live s) as Hlive.
  { unfold live, s'. cbn [inflight posted hand tail head]. rewrite Hh, Hp. simpl. solve_Permutation. }
  assert (all_reqs (nv s') = all_reqs (nv s)) as Hreqs.
  { unfold s', all_reqs. cbn [nv pending_reqs channel after_entry]. by rewrite app_nil_r. }
  destruct Hi.
  split; try setoid_rewrite Hlive; rewrite ?Hreqs; unfold s'; cbn [nv tasks unregistered hand inflight posted answers results cqd
    after_entry submission_queues completion_queues cqs_for_ivs messages pending_reqs]; try done.
  - eexists. rewrite lookup_insert_eq. split; [done|]. cbn [sq_tail sq_data]. done.
  - exists q', l, (S k). rewrite lookup_insert_eq. done.
  - destruct si_admin0 as (q0 & l0 & H0 & Hc0). exists q0, l0. by rewrite lookup_insert_ne.
  - intros t' e' m' [= <- <-] Ha. destruct (si_live0 t (comp_cid e)) as (m0 & Ha0 & _ & Hr).
    + unfold live. rewrite Hp. rewrite !elem_of_app. right. left. by left.
    + by destruct (awaiting_eq _ _ _ _ _ _ Ha Ha0) as [_ ->].
  - intros t' e' Hl. apply si_posted0. rewrite Hp, Hh. revert Hl. simpl. rewrite !elem_of_app, !elem_of_cons.
    intros [?|[?|?%elem_of_nil]]; [right; apply elem_of_app; by left|by left|done].
Qed.

(** The reactor announces an entry. *)
Lemma inv_notify (s : Sys) (t : Z) (e : NvmeComp) :
  sys_inv s → hand s = Some (t, e) →
  ∃ s', step_reactor s = Some s' ∧ sys_inv s' ∧ hand s' = None ∧ posted s' = posted s ∧ tasks s' = tasks s ∧
    answers s' = answers s ∧ t ∈ woken (nv s').
Proof.
  intros Hi Hh. unfold step_reactor. rewrite Hh, try_notify_futures_eq.
  eexists. split; [done|]. set (n' := notified _ _ _ _ _). set (s' := mk_sys _ _ _ _ _ _ _ _ _).
  destruct (si_posted s Hi t e) as [Hans Hid]; [rewrite Hh; apply elem_of_app; right; by left|].
  destruct (si_live s Hi t (comp_cid e)) as (m & Ha & Hm & _).
  { unfold live. rewrite Hh, !elem_of_app. right. right. by left. }
  pose proof (si_hand s Hi t e m Hh Ha) as Hreq.
  set (hit := filter (λ r, req_matches QID e r = true) (pending_reqs (nv s))).
  assert (PendingCompletion t m QID QID (comp_cid e) ∈ hit) as Hhit.
  { apply list_elem_of_filter. split; [|done]. simpl. rewrite Hid, !Z.eqb_refl. done. }
  assert (live s ≡ₚ (t, comp_cid e) :: live s') as Hlive.
  { unfold live, s'. cbn [inflight posted hand]. rewrite Hh. simpl. unfold entry_of at 2. simpl. solve_Permutation. }
  assert (∀ w m' cq sq c, PendingCompletion w m' cq sq c ∈ hit → c = comp_cid e) as Hhc.
  { intros w m' cq sq c [Hmt _]%list_elem_of_filter. simpl in Hmt. lia. }
  assert (∀ t' c' m', awaiting s t' c' m' → t' ≠ t → messages n' !! m' = messages (nv s) !! m') as Hother.
  { intros t' c' m' Ha' Hne. unfold n', notified. cbn [messages set_woken set_messages]. fold hit.
    rewrite deliver_lookup, decide_False; [done|]. intros (r & Hr & Hrm)%list_elem_of_omap.
    destruct r as [w m0 cq sq c|]; [|done]. simpl in Hrm. injection Hrm as ->.
    assert (c = c') as ->.
    { apply list_elem_of_filter in Hr as [_ Hr]. eapply (si_reqs s Hi w m' cq sq c); [|done].
      unfold all_reqs. apply elem_of_app. by left. }
    apply Hhc in Hr as ->. apply Hne. by apply (si_cid s Hi t' t (comp_cid e) m' m). }
  assert (messages n' !! m = Some (Some e)) as Hmine.
  { unfold n', notified. cbn [messages set_woken set_messages]. fold hit.
    rewrite deliver_lookup, decide_True, Hm; [done|]. apply list_elem_of_omap. by eexists. }
  assert (∀ t' c' m', awaiting s t' c' m' → t' ≠ t → PendingCompletion t' m' QID QID c' ∈ all_reqs (nv s) →
            PendingCompletion t' m' QID QID c' ∈ all_reqs n') as Hkeep.
  { intros t' c' m' Ha' Hne. unfold all_reqs. rewrite !elem_of_app. intros [Hr|Hr]; [left|by right].
    unfold n', notified. cbn [pending_reqs set_woken set_messages set_pending app].
    apply list_elem_of_filter. split; [|done]. unfold req_matches. rewrite Hid. simpl. apply Z.eqb_neq.
    intros ->. apply Hne. by apply (si_cid s Hi t' t (comp_cid e) m' m). }
  assert (∀ r, r ∈ all_reqs n' → r ∈ all_reqs (nv s)) as Hsub.
  { intros r. unfold all_reqs. rewrite !elem_of_app. intros [Hr|Hr]; [left|by right].
    unfold n', notified in Hr. cbn [pending_reqs set_woken set_messages set_pending app] in Hr.
    by apply list_elem_of_filter in Hr as [_ Hr]. }
  assert (length (messages n') = length (messages (nv s))) as Hlm by apply length_deliver.
  pose proof (si_nodup s Hi) as Hnd. rewrite Hlive in Hnd. simpl in Hnd. apply NoDup_cons in Hnd as [Hnt Hnd].
  assert (t ∈ woken n') as Hwoken.
  { unfold n', notified. cbn [woken set_woken]. fold hit. apply elem_of_app. right.
    apply list_elem_of_fmap. eexists. by split; [|exact Hhit]. }
  refine (conj _ (conj eq_refl (conj eq_refl (conj eq_refl (conj eq_refl Hwoken))))).
  destruct Hi.
  split; unfold awaiting; cbn [nv tasks]; rewrite ?Hlm;
    cbn [s' unregistered hand inflight posted answers results cqd]; try done.
  all: try change (nv s') with n'; rewrite ?Hlm; try done.
  - intros t' c' Hl. destruct (si_live0 t' c') as (m' & Ha' & Hm' & Hr'); [rewrite Hlive; by right|].
    assert (t' ≠ t) by (intros ->; apply Hnt, list_elem_of_fmap; by exists (t, c')).
    exists m'. split; [done|]. change (nv s') with n'. rewrite (Hother t' c' m') by done. split; [done|]. by apply Hkeep.
  - intros t' e' Hl. apply si_posted0. rewrite app_nil_r in Hl. apply elem_of_app. by left.
  - intros t' c' m' Ha'. destruct (si_await0 t' c' m' Ha') as [Hlt Hc]. split; [done|].
    destruct (decide (t' = t)) as [->|Hne].
    + right. exists e. destruct (awaiting_eq _ _ _ _ _ _ Ha Ha') as [_ <-]. done.
    + change (nv s') with n'. rewrite (Hother t' c' m') by done. destruct Hc as [Hl|?]; [|by right]. left. rewrite Hlive in Hl.
      apply elem_of_cons in Hl as [?|?]; done.
  - intros w m' cq sq c Hr. by apply (si_reqs0 w m' cq sq c), Hsub.
Qed.

(** The submission state of a poll, run. *)
Lemma poll_submit_eq (qid t : Z) (f : Z → NvmeCmd) (sq : NvmeCmdQueue) (n : Nvme) :
  submission_queues n !! qid = Some (sq, qid) → 0 <= sq_tail sq < Z.of_nat (length (sq_data sq)) →
  if sq_is_full sq
  then poll_submit t f qid n =
         (Ok (None, PendingSubmission f qid), set_channel (channel n ++ [RequestAvailSubmission qid t]) n)
  else ∃ tail sq', submit_unchecked (f (sq_tail sq)) sq = Some (tail, sq') ∧
         let m := length (messages n) in
         poll_submit t f qid n =
           (Ok (None, AwaitingCompletion qid (sq_tail sq) qid m),
            mk_nvme (<[qid := (sq', qid)]> (submission_queues n)) (completion_queues n)
             (cqs_for_ivs n) (doorbells n ++ [(2 * qid, tail)])
             (channel n ++ [RequestCompletion qid qid (sq_tail sq) t m])
             (pending_reqs n) (messages n ++ [None]) (woken n)).
Proof.
  intros Hsq Ht. unfold poll_submit, mbind, prog_bind.
  rewrite (bind_Ok (gets submission_queues) _ n (submission_queues n) n) by done.
  rewrite (bind_Ok (unwrap _) _ n (sq, qid) n) by (by rewrite Hsq).
  destruct (sq_is_full sq); [done|].
  destruct (lookup_lt_is_Some_2 (sq_data sq) (Z.to_nat (sq_tail sq))) as [c Hc]; [lia|].
  unfold submit_unchecked. rewrite Hc. eexists _, _. split; [done|]. done.
Qed.

Lemma inv_poll_step (s : Sys) (t : Z) :
  sys_inv s → ∃ s', step_poll true t s = Some s' ∧ sys_inv s'.
Proof.
  intros Hi. unfold step_poll. destruct (tasks s !! t) as [[f sq0|cq c sq0 m| |]|] eqn:Ht; try (by exists s).
  - destruct (si_sub s Hi t f sq0 Ht) as (-> & Hans & Hcid).
    destruct (cid_free_b s) eqn:Hfree; [|by exists s]. cbn [andb negb].
    destruct (si_sq s Hi) as (sq & Hsq & Hr1 & Hr2). pose proof (poll_submit_eq QID t f sq (nv s) Hsq Hr1) as Hp.
    destruct (sq_is_full sq).
    + rewrite Hp. eexists. split; [done|]. rewrite insert_id, app_nil_r by done. by apply inv_full.
    + destruct Hp as (tl & sq' & Hsub & ->). eexists. split; [done|]. rewrite Hcid.
      apply (inv_submit s t f); try done.
      unfold cid_free_b in Hfree. rewrite Hsq in Hfree. by apply bool_decide_eq_true_1 in Hfree.
  - destruct (si_form s Hi t cq c sq0 m Ht) as [-> ->]. case_decide.
    + eexists. split; [done|]. by apply inv_register.
    + destruct (si_await s Hi t c m Ht) as [Hlt _]. destruct (lookup_lt_is_Some_2 _ _ Hlt) as [v Hv].
      unfold take_message. rewrite Hv. destruct v as [v|]; (eexists; split; [done|]); [by apply (inv_take s t c m v)|].
      apply inv_frame; try done; [by apply Hi|by apply list_insert_id|by left].
Qed.

Lemma sys_step_inv (op : SysOp) (s : Sys) :
  sys_inv s → ∃ s', sys_step true op s = Some s' ∧ sys_inv s'.
Proof.
  intros Hi. destruct op as [t cmd|t|t sp hd st| |]; simpl.
  - destruct (tasks s !! t) eqn:Ht; eexists; (split; [done|]); [done|by apply inv_new].
  - by apply inv_poll_step.
  - by apply inv_post.
  - eexists. split; [done|]. by apply (inv_drain s).
  - destruct (hand s) as [[t e]|] eqn:Hh.
    + destruct (inv_notify s t e Hi Hh) as (s' & -> & Hi' & _). by exists s'.
    + destruct (inv_entry s Hi Hh) as (s' & -> & Hi' & _). by exists s'.
Qed.

Lemma sys_init_inv (n : Nvme) : ready n → sys_inv (sys_init n).
Proof.
  intros [Hsq [l Hcq] Hadm Hiv [Hch Hpe]].
  assert (all_reqs n = []) as Hreqs by (unfold all_reqs; by rewrite Hch, Hpe).
  split; unfold awaiting; cbn [nv tasks unregistered hand inflight posted answers results cqd sys_init]; rewrite ?Hreqs;
    try done; try (by intros; set_solver).
  - exists sq_new. split; [done|]. cbn [sq_new sq_tail sq_data]. rewrite length_replicate. lia.
  - exists cq_new, l, 0%nat. split; [done|]. apply cq_new_inv.
  - constructor.
Qed.

Lemma sys_run_inv (ops : list SysOp) (s : Sys) :
  sys_inv s → ∃ s', sys_run true ops s = Some s' ∧ sys_inv s'.
Proof.
  revert s. induction ops as [|op ops IH]; intros s Hi; [by exists s|].
  destruct (sys_step_inv op s Hi) as (s1 & Hs & Hi1). cbn [sys_run]. rewrite Hs. by apply IH.
Qed.

(** ** The interrupt handler *)

(** One turn of the loop on the completion queue is two steps of the system. *)
Lemma cq_loop_turn (fuel : nat) (s s1 s2 : Sys) (t : Z) (e : NvmeComp) (rest : list (Z * NvmeComp)) :
  sys_inv s → hand s = None → posted s = (t, e) :: rest →
  step_reactor s = Some s1 → step_reactor s1 = Some s2 →
  cq_loop (S fuel) QID (nv s) = cq_loop fuel QID (nv s2) ∧
  (∀ w, w ∈ woken (nv s) → w ∈ woken (nv s2)).
Proof.
  intros Hi Hh Hp H1 H2.
  destruct (si_cq s Hi) as (q & l & k & Hcq & Hinv). pose proof (complete_inv _ _ _ _ Hinv) as Hc.
  rewrite Hp in Hc. simpl in Hc. destruct Hc as (h & q' & Hc & _ & _).
  destruct (si_posted s Hi t e) as [_ Hid]; [rewrite Hp; by left|].
  destruct (si_sq s Hi) as (sq & Hsq & _).
  pose proof (reactor_entry_eq QID q q' l h e sq (nv s) Hc Hid Hsq) as He.
  unfold step_reactor in H1. rewrite Hh, Hcq, He, Hp in H1. injection H1 as <-.
  unfold step_reactor in H2. cbn [hand fmap option_fmap option_map head fst nv] in H2.
  rewrite try_notify_futures_eq in H2. injection H2 as <-. cbn [nv].
  split.
  - cbn [cq_loop]. unfold mbind, prog_bind.
    rewrite (bind_Ok (gets completion_queues) _ _ (completion_queues (nv s)) (nv s)) by done.
    rewrite (bind_Ok (unwrap _) _ _ (q, l) (nv s)) by (by rewrite Hcq). cbn [fst snd].
    rewrite (bind_Ok _ _ _ _ _ He), (bind_Ok _ _ _ _ _ (try_notify_futures_eq _ _ _)). done.
  - intros w Hw. unfold notified. cbn [woken set_woken]. apply elem_of_app. by left.
Qed.

Lemma cq_loop_idle (fuel : nat) (cq_id : Z) (q : NvmeCompQueue) (l : list Z) (n : Nvme) :
  completion_queues n !! cq_id = Some (q, l) → complete None q = (None, q) →
  cq_loop (S fuel) cq_id n = (Ok true, n).
Proof.
  intros Hcq Hc. cbn [cq_loop]. unfold mbind, prog_bind.
  rewrite (bind_Ok (gets completion_queues) _ n (completion_queues n) n) by done.
  rewrite (bind_Ok (unwrap _) _ n (q, l) n) by (by rewrite Hcq). cbn [fst snd].
  by rewrite (bind_Ok (reactor_entry cq_id q l) _ n None n) by (unfold reactor_entry; by rewrite Hc).
Qed.

(** The loop on the I/O completion queue ends with every posted entry announced. *)
Lemma cq_loop_spec (fuel : nat) (s : Sys) :
  sys_inv s → hand s = None → (length (posted s) < fuel)%nat →
  ∃ s', cq_loop fuel QID (nv s) = (Ok true, nv s') ∧ sys_inv s' ∧ hand s' = None ∧ posted s' = [] ∧
    tasks s' = tasks s ∧ answers s' = answers s ∧
    ∀ w, w ∈ woken (nv s) ∨ w ∈ (posted s).*1 → w ∈ woken (nv s').
Proof.
  revert s. induction fuel as [|fuel IH]; intros s Hi Hh Hf; [lia|].
  destruct (posted s) as [|[t e] rest] eqn:Hp.
  - exists s. destruct (si_cq s Hi) as (q & l & k & Hcq & Hinv). pose proof (complete_inv _ _ _ _ Hinv) as Hc.
    rewrite Hp in Hc. simpl in Hc. rewrite (cq_loop_idle fuel QID q l) by done. do 6 (split; [done|]).
    intros w [Hw|Hw%elem_of_nil]; done.
  - destruct (inv_entry s Hi Hh) as (s1 & Hs1 & Hi1 & _ & Hcons).
    destruct (Hcons t e rest Hp) as (Hh1 & Hp1 & Ht1 & Ha1).
    destruct (inv_notify s1 t e Hi1 Hh1) as (s2 & Hs2 & Hi2 & Hh2 & Hp2 & Ht2 & Ha2 & Hw2).
    destruct (cq_loop_turn fuel s s1 s2 t e rest Hi Hh Hp Hs1 Hs2) as [-> Hw].
    simpl in Hf. destruct (IH s2 Hi2 Hh2) as (s' & -> & Hi' & Hh' & Hp' & Ht' & Ha' & Hw'); [rewrite Hp2, Hp1; lia|].
    exists s'. do 4 (split; [done|]). split; [congruence|]. split; [congruence|].
    intros w [H|H]; apply Hw'; [left; auto|]. simpl in H. apply elem_of_cons in H as [->|H]; [by left|].
    right. by rewrite Hp2, Hp1.
Qed.

Lemma poll_completion_queues_eq (s : Sys) :
  sys_inv s → hand s = None →
  ∃ s', poll_completion_queues 0 (nv s) = (Ok (Some tt), nv s') ∧ sys_inv s' ∧ hand s' = None ∧ posted s' = [] ∧
    tasks s' = tasks s ∧ answers s' = answers s ∧ ∀ w, w ∈ woken (nv s) ∨ w ∈ (posted s).*1 → w ∈ woken (nv s').
Proof.
  intros Hi Hh. unfold poll_completion_queues, mbind, prog_bind.
  rewrite (bind_Ok (gets cqs_for_ivs) _ (nv s) (cqs_for_ivs (nv s)) (nv s)) by done. rewrite (si_ivs s Hi).
  destruct (si_admin s Hi) as (q0 & l0 & Hcq0 & Hc0). destruct (si_cq s Hi) as (q & l & k & Hcq & Hinv).
  destruct (cq_loop_spec (S (length (cq_data q))) s Hi Hh) as (s' & Hloop & Hrest).
  { destruct Hinv as [_ _ _ [_ Hle] _ _ _]. rewrite length_fmap in Hle. lia. }
  exists s'. split; [|done]. cbn [cqs_loop]. unfold mbind, prog_bind.
  rewrite (bind_Ok (gets completion_queues) _ (nv s) (completion_queues (nv s)) (nv s)) by done. rewrite Hcq0.
  rewrite (bind_Ok _ _ _ _ _ (cq_loop_idle _ 0 q0 l0 (nv s) Hcq0 Hc0)).
  rewrite (bind_Ok (gets completion_queues) _ (nv s) (completion_queues (nv s)) (nv s)) by done. rewrite Hcq.
  by rewrite (bind_Ok _ _ _ _ _ Hloop).
Qed.

(** After the handler, every answered command is in its future's cell. *)
Lemma announced (s : Sys) (t c : Z) (m : nat) (e : NvmeComp) :
  sys_inv s → hand s = None → posted s = [] → awaiting s t c m → answers s !! t = Some e →
  messages (nv s) !! m = Some (Some e).
Proof.
  intros Hi Hh Hp Ha Hans. destruct (si_await s Hi t c m Ha) as [_ [Hl|(e' & He' & Hans')]]; [|congruence].
  apply list_elem_of_fmap in Hl as ([t' c'] & -> & Hl). unfold live in Hl. rewrite Hh, Hp, app_nil_r in Hl.
  apply (si_inflight s Hi) in Hl. simpl in *. congruence.
Qed.

(** ** Properties *)

(** C4. Completions reach their owner: over every interleaving of new futures,
    polls (with the check of the message and the new registration as separate
    steps), completions posted in any order with any status and queue head, and the
    two halves of the reactor's work, as long as a command is not submitted with the
    id of a future that still waits, the driver never panics and a future only ever
    returns the completion the controller posted for its own command.  A future
    whose cell is empty always has a request with its task's waker at the reactor or
    on the way to it, so no wakeup is lost. *)
Theorem completions_reach_their_task (n0 : Nvme) (ops : list SysOp) (Hready : ready n0) :
  ∃ s, sys_run true ops (sys_init n0) = Some s ∧
    (∀ t v, results s !! t = Some v → answers s !! t = Some v) ∧
    (∀ t cq c sq m, tasks s !! t = Some (AwaitingCompletion cq c sq m) →
       (∃ e, messages (nv s) !! m = Some (Some e) ∧ answers s !! t = Some e) ∨
       messages (nv s) !! m = Some None ∧ PendingCompletion t m cq sq c ∈ all_reqs (nv s)).
Proof.
  destruct (sys_run_inv ops _ (sys_init_inv n0 Hready)) as (s & Hrun & Hi). exists s. split; [done|]. split.
  - intros t v Hr. by apply (si_results s Hi).
  - intros t cq c sq m Ht. destruct (si_form s Hi t cq c sq m Ht) as [-> ->].
    destruct (si_await s Hi t c m Ht) as [_ [Hl|?]]; [right|by left].
    apply list_elem_of_fmap in Hl as ([t' c'] & -> & Hl). destruct (si_live s Hi t' c' Hl) as (m' & Ha & Hm & Hr).
    by destruct (awaiting_eq s t' c c' m m' Ht Ha) as [-> ->].
Qed.

(** C9. The interrupt handler ends and announces everything, as long as command ids
    are not reused: in any state reached by steps of which none submits a command
    with the id of a future that still waits ([sys_run true] leaves such a step out;
    [cid_reuse_misdelivers] is what happens otherwise) and in which the reactor is
    between entries, [poll_completion_queues] returns after at most a ring's worth of
    turns, without a panic; afterwards the next poll of every future whose command
    the controller has completed returns that completion, and the tasks whose
    entries were in the ring have been woken. *)
Theorem handler_announces_all (n0 : Nvme) (ops : list SysOp) (Hready : ready n0) :
  ∃ s, sys_run true ops (sys_init n0) = Some s ∧
    (hand s = None →
     ∃ n, poll_completion_queues 0 (nv s) = (Ok (Some tt), n) ∧
       (∀ t, t ∈ (posted s).*1 → t ∈ woken n) ∧
       ∀ t cq c sq m e, tasks s !! t = Some (AwaitingCompletion cq c sq m) → answers s !! t = Some e →
         ∃ n', future_poll t (AwaitingCompletion cq c sq m) n = (Ok (Some e, Finished), n')).
Proof.
  destruct (sys_run_inv ops _ (sys_init_inv n0 Hready)) as (s & Hrun & Hi). exists s. split; [done|]. intros Hh.
  destruct (poll_completion_queues_eq s Hi Hh) as (s' & Hpoll & Hi' & Hh' & Hp' & Ht' & Ha' & Hw).
  exists (nv s'). split; [done|]. split; [auto|]. intros t cq c sq m e Ht Hans.
  destruct (si_form s Hi t cq c sq m Ht) as [-> ->]. rewrite <- Ha' in Hans.
  assert (awaiting s' t c m) as Haw by (unfold awaiting; by rewrite Ht').
  pose proof (announced s' t c m e Hi' Hh' Hp' Haw Hans) as Hm.
  unfold future_poll, mbind, prog_bind. erewrite bind_Ok; [|unfold take_message; by rewrite Hm]. by eexists.
Qed.

(** The notification loop, which removes requests from the vector it walks, is
    equivalent to one filter: it answers exactly the requests that match the entry: they leave the vector in one
    pass, each wakes its task once and in order, their cells hold the entry, and
    every other request and cell is as before. *)
Theorem try_notify_futures_spec (cq_id : Z) (e : NvmeComp) (n : Nvme) :
  ∃ n', try_notify_futures cq_id e n = (Ok tt, n') ∧
    pending_reqs n' = filter (λ r, req_matches cq_id e r = false) (pending_reqs n) ∧
    woken n' = woken n ++ (req_waker <$> filter (λ r, req_matches cq_id e r = true) (pending_reqs n)) ∧
    (∀ m, messages n' !! m =
       if decide (m ∈ omap req_message (filter (λ r, req_matches cq_id e r = true) (pending_reqs n)))
       then (λ _, Some e) <$> messages n !! m else messages n !! m) ∧
    submission_queues n' = submission_queues n ∧ completion_queues n' = completion_queues n ∧
    channel n' = channel n.
Proof.
  rewrite try_notify_futures_eq. eexists. split; [done|]. split; [done|]. split; [done|].
  split; [intros m; apply deliver_lookup|done].
Qed.

(** A driver after initialisation. *)
Definition ready_nvme : Nvme :=
  mk_nvme {[0 := (sq_new, 0); QID := (sq_new, QID)]} {[0 := (cq_new, [0]); QID := (cq_new, [])]}
    {[0 := [0; QID]]} [] [] [] [] [].

Lemma ready_nvme_ready : ready ready_nvme.
Proof.
  split; [reflexivity|by exists []| |reflexivity|done].
  exists cq_new, [0]. split; [reflexivity|]. vm_compute. reflexivity.
Qed.

(** Task 0's command stays with the controller while 63 others are submitted,
    completed and answered; the next command gets task 0's id. *)
Definition reuse_schedule : list SysOp :=
  [OpNew 0 cmd_default; OpPoll 0] ++
  mjoin ((λ i, [OpNew i cmd_default; OpPoll i; OpPost i 0 ((i + 1) mod 64) 0; OpReactor; OpReactor; OpPoll i])
         <$> (Z.of_nat <$> seq 1 63)) ++
  [OpNew 64 cmd_default; OpPoll 64; OpPost 64 0 1 0; OpReactor; OpReactor; OpPoll 0].

(** Without that condition on ids a future can return the completion of another
    command: the id of a command is the slot it was written to, slots are free again
    when the controller has fetched them, and a controller may complete commands out
    of order.  In [reuse_schedule] the future of task 0 returns the completion of
    task 64 while its own command is still with the controller. *)
Theorem cid_reuse_misdelivers :
  ∃ s e, sys_run false reuse_schedule (sys_init ready_nvme) = Some s ∧
    results s !! 0 = Some e ∧ answers s !! 64 = Some e ∧ answers s !! 0 = None ∧ (0, 0) ∈ inflight s.
Proof.
  destruct (sys_run false reuse_schedule (sys_init ready_nvme)) as [s|] eqn:Hs; [|by vm_compute in Hs].
  assert (option_map (λ s, (results s !! 0, answers s !! 64, answers s !! 0, inflight s))
            (sys_run false reuse_schedule (sys_init ready_nvme)) =
          Some (Some (mk_comp 0 0 1 QID 0 1), Some (mk_comp 0 0 1 QID 0 1), None, [(0, 0)])) as Hv
    by (vm_compute; reflexivity).
  rewrite Hs in Hv. cbn [option_map] in Hv. injection Hv as Hr Ha Hn Hf.
  exists s, (mk_comp 0 0 1 QID 0 1). split; [reflexivity|]. split; [exact Hr|]. split; [exact Ha|]. split; [exact Hn|].
  rewrite Hf. left.
Qed.

(** ** Witnesses *)

Definition two_tasks : list SysOp :=
  [OpNew 7 cmd_default; OpNew 8 cmd_default; OpPoll 7; OpPoll 8; OpPoll 7; OpPost 8 0 2 0; OpReactor; OpPoll 7;
   OpReactor; OpPost 7 0 2 4].

Lemma completions_reach_their_task_witness :
  ∃ s, sys_run true (two_tasks ++ [OpReactor; OpReactor; OpPoll 7; OpPoll 8]) (sys_init ready_nvme) = Some s ∧
    (∀ t v, results s !! t = Some v → answers s !! t = Some v) ∧
    results s !! 7 = Some (mk_comp 0 0 2 QID 0 5) ∧ results s !! 8 = Some (mk_comp 0 0 2 QID 1 1).
Proof.
  destruct (completions_reach_their_task ready_nvme (two_tasks ++ [OpReactor; OpReactor; OpPoll 7; OpPoll 8]) ready_nvme_ready)
    as (s & Hs & Hres & _).
  exists s. split; [exact Hs|]. split; [exact Hres|].
  assert (option_map (λ s, (results s !! 7, results s !! 8))
            (sys_run true (two_tasks ++ [OpReactor; OpReactor; OpPoll 7; OpPoll 8]) (sys_init ready_nvme)) =
          Some (Some (mk_comp 0 0 2 QID 0 5), Some (mk_comp 0 0 2 QID 1 1))) as Hv by (vm_compute; reflexivity).
  rewrite Hs in Hv. cbn [option_map] in Hv. injection Hv as H7 H8. split; [exact H7|exact H8].
Defined.

Lemma handler_announces_all_witness :
  ∃ s, sys_run true two_tasks (sys_init ready_nvme) = Some s ∧
    ∃ n, poll_completion_queues 0 (nv s) = (Ok (Some tt), n) ∧ (∀ t, t ∈ (posted s).*1 → t ∈ woken n).
Proof.
  destruct (handler_announces_all ready_nvme two_tasks ready_nvme_ready) as (s & Hs & Hh).
  exists s. split; [exact Hs|]. destruct Hh as (n & Hn & Hw & _).
  - assert (option_map hand (sys_run true two_tasks (sys_init ready_nvme)) = Some None) as Hv by (vm_compute; reflexivity).
    rewrite Hs in Hv. cbn [option_map] in Hv. injection Hv as Hv. exact Hv.
  - exists n. split; [exact Hn|exact Hw].
Defined.
