(* ===== verification/NvmeIo.v ===== *)
(** NVMe transfers (storage/nvmed/src/nvme/mod.rs: submit_and_complete_command,
    namespace_rw, namespace_read, namespace_write, and the PRP list of init).

    A command goes through the driver's real path: [submit_and_complete_command]
    blocks on the future of NvmeReactor.v, and between two polls the controller
    executes what is in the submission queue and the reactor handles the interrupt
    ([io_wait]).  The class [NvmeController] is the device: how it executes a command
    on the machine state [W], which holds the namespace's bytes and the transfer
    buffer; [NvmeLaws] are the NVMe read and write commands.  The theorems go from one
    command through the whole path to the byte ranges of the two transfer loops. *)

From S2P Require Import Prelude NvmeQueue NvmeReactor.

Record NvmeNamespace := mk_ns { ns_id : Z; ns_blocks : Z; ns_block_size : Z }.

(** The transfer buffer: 512 pages, and the PRP list, page [i] at [i * 4096]. *)
Definition buffer_prp (buffer_physical : Z) : list Z :=
  (λ i, as_u64 (buffer_physical + Z.of_nat i * 4096)) <$> seq 0 512.

(** The two PRP fields for a transfer. *)
Definition prp_fields (buffer_physical prp_physical : Z) (bytes : Z) : Z * Z :=
  let prp := buffer_prp buffer_physical in
  if bytes <=? 4096 then (nth 0 prp 0, 0)
  else if bytes <=? 8192 then (nth 0 prp 0, nth 1 prp 0)
  else (nth 0 prp 0, as_u64 (prp_physical + 8)).

(** The controller: executing a command of an I/O queue, or of the admin queue, on the machine
    state [W] gives a status code and the new state. *)
Class NvmeController (W : Type) := {
  nvme_exec : NvmeCmd → W → Z * W;
  admin_exec : NvmeCmd → W → Z * W;
  ns_bytes : W → list Z;
  buffer_bytes : W → list Z;
  set_buffer : list Z → W → W;
  buffer_phys : Z;
  prp_phys : Z;
}.

(** The driver's shared state, the controller's side of the queue pair in use, and the
    machine. *)
Record IoState (W : Type) := mk_io { io_nv : Nvme; io_sq_head : Z; io_cqd : CqDevice; io_w : W }.
Arguments mk_io {W} _ _ _ _.
Arguments io_nv {W} _.
Arguments io_sq_head {W} _.
Arguments io_cqd {W} _.
Arguments io_w {W} _.

Section transfers.
Context {W : Type} `{NvmeController W}.

Abbreviation ioprog := (prog (IoState W) errno).

Definition lift {A : Type} (m : prog Nvme errno A) : ioprog A := λ s,
  let '(r, n) := m (io_nv s) in (r, mk_io n (io_sq_head s) (io_cqd s) (io_w s)).

(** Queue 0 is the admin queue. *)
Definition exec_on (qid : Z) : NvmeCmd → W → Z * W := if qid =? 0 then admin_exec else nvme_exec.

(** The controller fetches the next command, if the tail is ahead of its head,
    executes it and posts the completion with its new head. *)
Definition controller_step (qid : Z) (s : IoState W) : IoState W :=
  match submission_queues (io_nv s) !! qid, completion_queues (io_nv s) !! qid with
  | Some (sq, _), Some (q, l) =>
      if io_sq_head s =? sq_tail sq then s
      else match sq_data sq !! Z.to_nat (io_sq_head s) with
           | None => s
           | Some cmd =>
               let '(status, w) := exec_on qid cmd (io_w s) in
               let head := (io_sq_head s + 1) mod Z.of_nat (length (sq_data sq)) in
               let '(_, (q, d)) := cq_step (CqPost (mk_comp 0 0 head qid (cid cmd) (2 * status))) (q, io_cqd s) in
               mk_io (set_cqs (<[qid := (q, l)]> (completion_queues (io_nv s))) (io_nv s)) head d w
           end
  | _, _ => s
  end.

(** The controller sees the head the driver wrote to the doorbell: how many of its
    entries are not taken yet. *)
Definition see_head (qid : Z) (s : IoState W) : IoState W :=
  match completion_queues (io_nv s) !! qid with
  | Some (q, _) =>
      mk_io (io_nv s) (io_sq_head s)
        (mk_cqd (dev_tail (io_cqd s)) (dev_phase (io_cqd s))
           (Z.to_nat ((Z.of_nat (dev_tail (io_cqd s)) - cq_head q) mod Z.of_nat (length (cq_data q)))))
        (io_w s)
  | None => s
  end.

(** While a task waits: the controller works and the reactor handles its interrupt. *)
Definition io_wait (qid : Z) : ioprog unit :=
  _ ← modify (controller_step qid);
  _ ← lift (poll_completion_queues 0);
  modify (see_head qid).

(** [futures::executor::block_on], for at most [fuel] polls. *)
Fixpoint block_on (qid : Z) (fuel : nat) (f : Future) : ioprog NvmeComp :=
  match fuel with
  | O => panic
  | S fuel =>
      r ← lift (future_poll 0 f);
      match r with
      | (Some c, _) => p_ret c
      | (None, f) => _ ← io_wait qid; block_on qid fuel f
      end
  end.

(** Two polls: one submits, the other takes the completion. *)
Definition submit_and_complete_command (sq_id : Z) (cmd_init : Z → NvmeCmd) : ioprog NvmeComp :=
  block_on sq_id 2 (PendingSubmission cmd_init sq_id).

Definition submit_and_complete_admin_command (cmd_init : Z → NvmeCmd) : ioprog NvmeComp :=
  submit_and_complete_command 0 cmd_init.

Definition namespace_rw (ns : NvmeNamespace) (id lba blocks_1 : Z) (write : bool) : ioprog unit :=
  let bytes := as_u64 ((blocks_1 + 1) * ns_block_size ns) in
  let '(ptr0, ptr1) := prp_fields buffer_phys prp_phys bytes in
  comp ← submit_and_complete_command QID (λ cid,
    if write then nvme_io_write cid id lba blocks_1 ptr0 ptr1
    else nvme_io_read cid id lba blocks_1 ptr0 ptr1);
  if Z.shiftr (comp_status comp) 1 =? 0 then p_ret tt else throw EIO.

(** [(len + block_size - 1) / block_size], with the two assertions. *)
Definition chunk_blocks (ns : NvmeNamespace) (len : nat) : ioprog Z :=
  if ns_block_size ns =? 0 then panic
  else
    let blocks := (Z.of_nat len + ns_block_size ns - 1) / ns_block_size ns in
    if (0 <? blocks) && (blocks <=? 0x10000) then p_ret blocks else panic.

(** The loop over [buf.chunks_mut(8192)]; the answer is what the chunks hold. *)
Fixpoint read_chunks (ns : NvmeNamespace) (id lba : Z) (chunks : list nat) : ioprog (list Z) :=
  match chunks with
  | [] => p_ret []
  | len :: chunks =>
      blocks ← chunk_blocks ns len;
      _ ← namespace_rw ns id lba (as_u16 (blocks - 1)) false;
      data ← gets (λ s, take len (buffer_bytes (io_w s)));
      rest ← read_chunks ns id (as_u64 (lba + blocks)) chunks;
      p_ret (data ++ rest)
  end.

Definition CHUNK : nat := Z.to_nat 8192.

(** The lengths of [buf.chunks_mut(8192)] for a buffer of [n] bytes. *)
Fixpoint chunk_lengths (fuel n : nat) : list nat :=
  match fuel, n with
  | _, O => []
  | O, _ => []
  | S fuel, _ => Nat.min CHUNK n :: chunk_lengths fuel (n - CHUNK)
  end.

(** The number of bytes, and the contents of the buffer. *)
Definition namespace_read (ns : NvmeNamespace) (id lba : Z) (buf_len : nat) : ioprog (Z * list Z) :=
  data ← read_chunks ns id lba (chunk_lengths buf_len buf_len);
  p_ret (Z.of_nat buf_len, data).

Definition fill_buffer (chunk : list Z) : ioprog unit := modify (λ s,
  mk_io (io_nv s) (io_sq_head s) (io_cqd s)
    (set_buffer (chunk ++ drop (length chunk) (buffer_bytes (io_w s))) (io_w s))).

Fixpoint write_chunks (ns : NvmeNamespace) (id lba : Z) (chunks : list (list Z)) : ioprog unit :=
  match chunks with
  | [] => p_ret tt
  | chunk :: chunks =>
      blocks ← chunk_blocks ns (length chunk);
      _ ← fill_buffer chunk;
      _ ← namespace_rw ns id lba (as_u16 (blocks - 1)) true;
      write_chunks ns id (as_u64 (lba + blocks)) chunks
  end.

(** [buf.chunks(8192)] *)
Fixpoint chunks_of (fuel : nat) (buf : list Z) : list (list Z) :=
  match fuel, buf with
  | _, [] => []
  | O, _ => []
  | S fuel, _ => take CHUNK buf :: chunks_of fuel (drop CHUNK buf)
  end.

Definition namespace_write (ns : NvmeNamespace) (id lba : Z) (buf : list Z) : ioprog Z :=
  _ ← write_chunks ns id lba (chunks_of (length buf) buf);
  p_ret (Z.of_nat (length buf)).
End transfers.

(** ** One command *)

(** The queue pair is idle on both sides. *)
Record io_idle {W : Type} (s : IoState W) : Prop := {
  idle_sq : ∃ sq, submission_queues (io_nv s) !! QID = Some (sq, QID) ∧
    (1 < length (sq_data sq))%nat ∧ Z.of_nat (length (sq_data sq)) <= 32768 ∧
    0 <= sq_tail sq < Z.of_nat (length (sq_data sq)) ∧ sq_qhead sq = sq_tail sq ∧ io_sq_head s = sq_tail sq;
  idle_cq : ∃ q l k, completion_queues (io_nv s) !! QID = Some (q, l) ∧ cq_inv k [] q (io_cqd s);
  idle_admin : ∃ q l, completion_queues (io_nv s) !! 0 = Some (q, l) ∧ complete None q = (None, q);
  idle_ivs : cqs_for_ivs (io_nv s) !! 0 = Some [0; QID];
  idle_reqs : channel (io_nv s) = [] ∧ pending_reqs (io_nv s) = [];
}.

(** A completion queue that has nothing to report. *)
Definition cq_quiet (n : Nvme) (i : Z) : Prop := ∃ q l, completion_queues n !! i = Some (q, l) ∧ complete None q = (None, q).

(** The same for the pair [qid], whose interrupt vector is shared with the queues [l1] before and
    [l2] after it. *)
Record pair_idle {W : Type} (qid : Z) (l1 l2 : list Z) (s : IoState W) : Prop := {
  pi_sq : ∃ sq, submission_queues (io_nv s) !! qid = Some (sq, qid) ∧
    (1 < length (sq_data sq))%nat ∧ Z.of_nat (length (sq_data sq)) <= 32768 ∧
    0 <= sq_tail sq < Z.of_nat (length (sq_data sq)) ∧ sq_qhead sq = sq_tail sq ∧ io_sq_head s = sq_tail sq;
  pi_cq : ∃ q l k, completion_queues (io_nv s) !! qid = Some (q, l) ∧ cq_inv k [] q (io_cqd s);
  pi_others : Forall (λ i, i ≠ qid ∧ cq_quiet (io_nv s) i) (l1 ++ l2);
  pi_ivs : cqs_for_ivs (io_nv s) !! 0 = Some (l1 ++ qid :: l2);
  pi_reqs : channel (io_nv s) = [] ∧ pending_reqs (io_nv s) = [];
}.

Lemma io_pair_idle {W : Type} (s : IoState W) : io_idle s ↔ pair_idle QID [0] [] s.
Proof.
  split; intros []; split; try done.
  - repeat constructor; done.
  - by apply Forall_singleton in pi_others0 as [_ ?].
Qed.

(** Other queues are as they were. *)
Definition only_pair (qid : Z) (n n' : Nvme) : Prop :=
  (∀ i, i ≠ qid → submission_queues n' !! i = submission_queues n !! i) ∧
  (∀ i, i ≠ qid → completion_queues n' !! i = completion_queues n !! i) ∧ cqs_for_ivs n' = cqs_for_ivs n.

(** Quiet queues are passed over. *)
Lemma cqs_loop_quiet (l rest : list Z) (n : Nvme) : Forall (cq_quiet n) l → cqs_loop (l ++ rest) n = cqs_loop rest n.
Proof.
  induction 1 as [|i l (q & x & Hcq & Hc) _ IH]; [done|]. cbn [app cqs_loop]. unfold mbind, prog_bind.
  rewrite (bind_Ok (gets completion_queues) _ n (completion_queues n) n) by done. rewrite Hcq.
  by rewrite (bind_Ok _ _ _ _ _ (cq_loop_idle _ i q x n Hcq Hc)).
Qed.

(** The interrupt handler with one entry in the ring and its request in the channel. *)
Lemma irq_one (qid : Z) (l1 l2 : list Z) (n : Nvme) (q : NvmeCompQueue) (l : list Z) (k : nat) (d : CqDevice) (e : NvmeComp)
    (sq : NvmeCmdQueue) (w : Z) (m : nat) :
  completion_queues n !! qid = Some (q, l) → cq_inv k [e] q d → sq_id e = qid →
  submission_queues n !! qid = Some (sq, qid) →
  Forall (λ i, i ≠ qid ∧ cq_quiet n i) (l1 ++ l2) → cqs_for_ivs n !! 0 = Some (l1 ++ qid :: l2) →
  channel n = [RequestCompletion qid qid (comp_cid e) w m] → pending_reqs n = [] → messages n !! m = Some None →
  ∃ n' q', poll_completion_queues 0 n = (Ok (Some tt), n') ∧
    completion_queues n' = <[qid := (q', l)]> (completion_queues n) ∧
    cq_inv (S k) [] q' (mk_cqd (dev_tail d) (dev_phase d) (dev_count d - 1)) ∧
    submission_queues n' = <[qid := (mk_sq (sq_data sq) (sq_tail sq) (sq_head e), qid)]> (submission_queues n) ∧
    cqs_for_ivs n' = cqs_for_ivs n ∧ channel n' = [] ∧ pending_reqs n' = [] ∧
    messages n' !! m = Some (Some e).
Proof.
  intros Hcq Hinv Hid Hsq Hoth Hiv Hch Hpe Hm. apply Forall_app in Hoth as [Ho1 Ho2].
  destruct (complete_inv _ _ _ _ Hinv) as (h & q' & Hc & Hinv' & _).
  pose proof (complete_inv _ _ _ _ Hinv') as Hidle. simpl in Hidle.
  pose proof (reactor_entry_eq qid q q' l h e sq n Hc Hid Hsq) as He.
  set (n1 := after_entry qid q' l h e sq n) in *.
  assert (pending_reqs n1 = [PendingCompletion w m qid qid (comp_cid e)]) as Hp1.
  { unfold n1, after_entry. cbn [pending_reqs]. by rewrite Hch, Hpe. }
  set (n2 := notified qid e [] (pending_reqs n1) n1).
  assert (req_matches qid e (PendingCompletion w m qid qid (comp_cid e)) = true) as Hmt.
  { unfold req_matches. by rewrite Hid, !Z.eqb_refl. }
  assert (completion_queues n2 = <[qid := (q', l)]> (completion_queues n)) as Hcq2 by done.
  exists n2, q'. split; [|do 4 (split; [done|])].
  - unfold poll_completion_queues, mbind, prog_bind.
    rewrite (bind_Ok (gets cqs_for_ivs) _ n (cqs_for_ivs n) n) by done. rewrite Hiv.
    rewrite cqs_loop_quiet by (eapply Forall_impl; [exact Ho1|]; by intros i [_ ?]).
    cbn [cqs_loop]. unfold mbind, prog_bind.
    rewrite (bind_Ok (gets completion_queues) _ n (completion_queues n) n) by done. rewrite Hcq.
    assert (∃ len, length (cq_data q) = S len) as [len ->].
    { destruct Hinv as [[Hl _] _ _ _ _ _ _]. exists (length (cq_data q) - 1)%nat. lia. }
    assert (cq_loop (S (S len)) qid n = (Ok true, n2)) as Hloop.
    { cbn [cq_loop]. unfold mbind, prog_bind.
      rewrite (bind_Ok (gets completion_queues) _ n (completion_queues n) n) by done.
      rewrite (bind_Ok (unwrap _) _ n (q, l) n) by (by rewrite Hcq). cbn [fst snd].
      rewrite (bind_Ok _ _ _ _ _ He), (bind_Ok _ _ _ _ _ (try_notify_futures_eq _ _ _)).
      apply (cq_loop_idle len qid q' l); [by rewrite Hcq2, lookup_insert_eq|done]. }
    rewrite (bind_Ok _ _ _ _ _ Hloop). rewrite <- (app_nil_r l2), cqs_loop_quiet; [done|].
    eapply Forall_impl; [exact Ho2|]. intros i [Hne (qi & li & Hi & Hci)]. exists qi, li. by rewrite Hcq2, lookup_insert_ne.
  - split; [done|]. unfold n2, notified. cbn [pending_reqs messages set_woken set_messages set_pending app].
    rewrite Hp1, !filter_cons, !filter_nil, Hmt. rewrite (decide_True (P := true = true)), (decide_False (P := true = false)) by done. split; [done|].
    rewrite deliver_lookup, decide_True by (simpl; by left). unfold n1, after_entry. cbn [messages]. by rewrite Hm.
Qed.

(** The controller's turn after a submission to an idle queue. *)
Lemma controller_step_eq {W : Type} `{NvmeController W} (qid : Z) (n : Nvme) (d : CqDevice) (w : W) (sq : NvmeCmdQueue)
    (q : NvmeCompQueue) (l : list Z) (k : nat) (cmd : NvmeCmd) (t : Z) :
  submission_queues n !! qid = Some (sq, qid) → completion_queues n !! qid = Some (q, l) → cq_inv k [] q d →
  t ≠ sq_tail sq → sq_data sq !! Z.to_nat t = Some cmd →
  let head := (t + 1) mod Z.of_nat (length (sq_data sq)) in
  let e := with_phase (dev_phase d) (mk_comp 0 0 head qid (cid cmd) (2 * (exec_on qid cmd w).1)) in
  ∃ q' d', controller_step qid (mk_io n t d w) =
             mk_io (set_cqs (<[qid := (q', l)]> (completion_queues n)) n) head d' (exec_on qid cmd w).2 ∧
    cq_inv k [e] q' d'.
Proof.
  intros Hsq Hcq Hinv Ht Hlk head e. unfold controller_step. cbn [io_nv io_sq_head io_cqd io_w].
  rewrite Hsq, Hcq, (proj2 (Z.eqb_neq _ _) Ht), Hlk. destruct (exec_on qid cmd w) as [st w'] eqn:Hex.
  destruct (cq_step_post_data (mk_comp 0 0 head qid (cid cmd) (2 * st)) q d k [] Hinv) as (q' & d' & Hst & Hinv').
  { destruct Hinv as [[Hl _] _ _ [Hc _] _ _ _]. simpl in Hc. lia. }
  fold head. rewrite Hst. exists q', d'. split; [done|]. exact Hinv'.
Qed.

Lemma with_phase_code (qid : Z) (b : bool) (h c st : Z) :
  0 <= st → Z.shiftr (comp_status (with_phase b (mk_comp 0 0 h qid c (2 * st)))) 1 = st.
Proof.
  intros Hst. cbn [comp_status with_phase]. rewrite Z.shiftr_div_pow2 by lia. change (2 ^ 1) with 2.
  destruct b; cbn [Z.b2z]; zdiv.
Qed.

(** Where the tail goes. *)
Lemma sq_tail_next (n t : Z) : 1 < n <= 32768 → 0 <= t < n →
  as_u16 (t + 1) mod n = (t + 1) mod n ∧ (t + 1) mod n ≠ t ∧ 0 <= (t + 1) mod n < n.
Proof.
  intros Hn Ht. unfold as_u16. rewrite as_u_id by (unfold u_range; change (2 ^ 16) with 65536; lia).
  split; [done|]. split; [|apply Z.mod_pos_bound; lia].
  destruct (decide (t + 1 < n)); [rewrite Z.mod_small by lia; lia|].
  replace (t + 1) with n by lia. rewrite Z.mod_same by lia. lia.
Qed.

(** A task waits for its command [cmd] in slot [t]: the controller executes it and the
    reactor announces the completion [e]. *)
Lemma io_wait_eq {W : Type} `{NvmeController W} (qid : Z) (l1 l2 : list Z) (n : Nvme) (d : CqDevice) (w : W) (sq : NvmeCmdQueue)
    (q : NvmeCompQueue) (l : list Z) (k : nat) (cmd : NvmeCmd) (t wk : Z) (m : nat) :
  submission_queues n !! qid = Some (sq, qid) → completion_queues n !! qid = Some (q, l) → cq_inv k [] q d →
  t ≠ sq_tail sq → sq_data sq !! Z.to_nat t = Some cmd →
  Forall (λ i, i ≠ qid ∧ cq_quiet n i) (l1 ++ l2) → cqs_for_ivs n !! 0 = Some (l1 ++ qid :: l2) →
  channel n = [RequestCompletion qid qid (cid cmd) wk m] → pending_reqs n = [] → messages n !! m = Some None →
  let head := (t + 1) mod Z.of_nat (length (sq_data sq)) in
  let e := with_phase (dev_phase d) (mk_comp 0 0 head qid (cid cmd) (2 * (exec_on qid cmd w).1)) in
  ∃ n' d' q' l' k', io_wait qid (mk_io n t d w) = (Ok tt, mk_io n' head d' (exec_on qid cmd w).2) ∧
    completion_queues n' !! qid = Some (q', l') ∧ cq_inv k' [] q' d' ∧
    Forall (λ i, i ≠ qid ∧ cq_quiet n' i) (l1 ++ l2) ∧
    submission_queues n' !! qid = Some (mk_sq (sq_data sq) (sq_tail sq) head, qid) ∧
    cqs_for_ivs n' !! 0 = Some (l1 ++ qid :: l2) ∧ channel n' = [] ∧ pending_reqs n' = [] ∧
    messages n' !! m = Some (Some e) ∧ only_pair qid n n'.
Proof.
  intros Hsq Hcq Hinv Ht Hlk Hoth Hiv Hch Hpe Hm head e.
  destruct (controller_step_eq qid n d w sq q l k cmd t Hsq Hcq Hinv Ht Hlk) as (q1 & d1 & Hctl & Hinv1).
  fold head in Hctl, Hinv1. fold e in Hinv1. set (n2 := set_cqs _ n) in Hctl.
  assert (∀ n', (∃ x, completion_queues n' = <[qid := x]> (completion_queues n)) → Forall (λ i, i ≠ qid ∧ cq_quiet n' i) (l1 ++ l2)) as Hquiet.
  { intros n' (x & Hx). eapply Forall_impl; [exact Hoth|]. intros i (Hne & qi & li & Hi & Hci). split; [done|]. exists qi, li. by rewrite Hx, lookup_insert_ne. }
  destruct (irq_one qid l1 l2 n2 q1 l k d1 e sq wk m) as (n3 & q2 & Hirq & Hcq3 & Hinv3 & Hsq3 & Hiv3 & Hch3 & Hpe3 & Hm3);
    try done; [by unfold n2; cbn [completion_queues set_cqs]; rewrite lookup_insert_eq|by apply Hquiet; eexists|].
  set (d3 := mk_cqd (dev_tail d1) (dev_phase d1) 0).
  assert (dev_count d1 - 1 = 0)%nat as Hcnt by (destruct Hinv3 as [_ _ _ [Hc _] _ _ _]; exact Hc).
  rewrite Hcnt in Hinv3. fold d3 in Hinv3.
  exists n3, d3, q2, l, (S k). split.
  - unfold io_wait, mbind, prog_bind. rewrite (bind_Ok (modify _) _ _ tt (controller_step qid (mk_io n t d w))) by done.
    rewrite Hctl. rewrite (bind_Ok (lift _) _ _ (Some tt) (mk_io n3 head d1 (exec_on qid cmd w).2))
      by (unfold lift; cbn [io_nv io_sq_head io_cqd io_w]; by rewrite Hirq).
    unfold modify, see_head. cbn [io_nv io_sq_head io_cqd io_w]. rewrite Hcq3, lookup_insert_eq.
    destruct Hinv3 as [[Hl _] Hh3 _ _ Htl3 _ _]. cbn [dev_tail d3 length] in Htl3.
    assert (Z.to_nat ((Z.of_nat (dev_tail d1) - cq_head q2) mod Z.of_nat (length (cq_data q2))) = 0%nat) as ->
      by (by rewrite Hh3, Htl3, Nat.add_0_r, Z.sub_diag, Zmod_0_l).
    reflexivity.
  - rewrite Hcq3, lookup_insert_eq. split; [done|]. split; [done|]. split.
    + apply Hquiet. exists (q2, l). rewrite Hcq3. unfold n2. cbn [completion_queues set_cqs]. apply insert_insert_eq.
    + rewrite Hsq3, lookup_insert_eq, Hiv3. split; [reflexivity|]. split; [exact Hiv|]. do 3 (split; [done|]). split; [|split]; [intros i Hi..|done].
      * by rewrite Hsq3, lookup_insert_ne.
      * rewrite Hcq3, lookup_insert_ne by done. unfold n2. cbn [completion_queues set_cqs]. by rewrite lookup_insert_ne.
Qed.

(** The whole path of a command on an idle queue pair. *)
Lemma pair_command_eq {W : Type} `{NvmeController W} (qid : Z) (l1 l2 : list Z) (s : IoState W) (cmd_init : Z → NvmeCmd) :
  pair_idle qid l1 l2 s → (∀ c, cid (cmd_init c) = c) → (∀ c, 0 <= (exec_on qid (cmd_init c) (io_w s)).1) →
  ∃ s' comp, submit_and_complete_command qid cmd_init s = (Ok comp, s') ∧ pair_idle qid l1 l2 s' ∧
    only_pair qid (io_nv s) (io_nv s') ∧
    let r := exec_on qid (cmd_init (comp_cid comp)) (io_w s) in
    io_w s' = r.2 ∧ Z.shiftr (comp_status comp) 1 = r.1.
Proof.
  intros [(sq & Hsq & Hl1 & Hl2 & Ht & Hqh & Hdh) (q & l & k & Hcq & Hinv) Hadm Hiv [Hch Hpe]] Hcid Hst.
  destruct s as [n dh d w]. cbn [io_nv io_sq_head io_cqd io_w] in *. subst dh.
  destruct (sq_tail_next (Z.of_nat (length (sq_data sq))) (sq_tail sq)) as (Hwrap & Hne & Hrange); [lia|done|].
  assert (sq_is_full sq = false) as Hnf.
  { unfold sq_is_full. rewrite Hqh. apply Z.eqb_neq. unfold as_u16.
    rewrite as_u_id by (unfold u_range; change (2 ^ 16) with 65536; lia). lia. }
  pose proof (poll_submit_eq qid 0 cmd_init sq n Hsq Ht) as Hp. rewrite Hnf in Hp.
  destruct Hp as (tl & sq' & Hsub & Hpoll). cbv zeta in Hpoll.
  destruct (lookup_lt_is_Some_2 (sq_data sq) (Z.to_nat (sq_tail sq))) as [c0 Hc0]; [lia|].
  unfold submit_unchecked in Hsub. rewrite Hc0, Hwrap in Hsub. injection Hsub as <- <-.
  set (n1 := mk_nvme _ _ _ _ _ _ _ _) in Hpoll. set (c := sq_tail sq) in *.
  set (sq1 := mk_sq _ _ _) in n1.
  assert (length (sq_data sq1) = length (sq_data sq)) as Hlen by apply length_insert.
  destruct (io_wait_eq qid l1 l2 n1 d w sq1 q l k (cmd_init c) c 0 (length (messages n)))
    as (n2 & d2 & q2 & lq & k2 & Hwait & Hcq2 & Hinv2 & Hadm2 & Hsq2 & Hiv2 & Hch2 & Hpe2 & Hm2 & Ho1 & Ho2 & Ho3); try done.
  { unfold n1. cbn [submission_queues]. by rewrite lookup_insert_eq. }
  { apply list_lookup_insert_eq. lia. }
  { unfold n1. cbn [channel]. by rewrite Hch, Hcid. }
  { unfold n1. cbn [messages]. by rewrite list_lookup_middle. }
  rewrite Hlen, Hcid in *. set (e := with_phase _ _) in Hm2.
  exists (mk_io (set_messages (<[length (messages n) := None]> (messages n2)) n2)
            ((c + 1) mod Z.of_nat (length (sq_data sq))) d2 (exec_on qid (cmd_init c) w).2), e.
  split; [|split; [|split]].
  - unfold submit_and_complete_command. cbn [block_on]. unfold mbind, prog_bind.
    rewrite (bind_Ok (lift _) _ _ (None, AwaitingCompletion qid c qid (length (messages n))) (mk_io n1 c d w))
      by (unfold lift; cbn [io_nv io_sq_head io_cqd io_w future_poll]; by rewrite Hpoll).
    rewrite (bind_Ok _ _ _ _ _ Hwait). unfold lift, future_poll, mbind, prog_bind, take_message, p_bind, p_ret.
    cbn [io_nv io_sq_head io_cqd io_w]. by rewrite Hm2.
  - split; cbn [io_nv io_sq_head io_cqd submission_queues completion_queues cqs_for_ivs channel pending_reqs set_messages].
    + eexists. split; [exact Hsq2|]. cbn [sq_data sq_tail sq_qhead]. rewrite Hlen. change (sq_tail sq1) with ((c + 1) mod Z.of_nat (length (sq_data sq))). done.
    + by exists q2, lq, k2.
    + done.
    + done.
    + done.
  - split; [|split]; [intros i Hi..|]; cbn [io_nv submission_queues completion_queues cqs_for_ivs set_messages].
    + rewrite Ho1 by done. unfold n1. cbn [submission_queues]. by rewrite lookup_insert_ne.
    + by rewrite Ho2.
    + by rewrite Ho3.
  - cbn [io_w]. change (comp_cid e) with c. split; [done|]. by apply with_phase_code.
Qed.

(** The I/O queue pair. *)
Lemma submit_and_complete_eq {W : Type} `{NvmeController W} (s : IoState W) (cmd_init : Z → NvmeCmd) :
  io_idle s → (∀ c, cid (cmd_init c) = c) → (∀ c, 0 <= (nvme_exec (cmd_init c) (io_w s)).1) →
  ∃ s' comp, submit_and_complete_command QID cmd_init s = (Ok comp, s') ∧ io_idle s' ∧
    let r := nvme_exec (cmd_init (comp_cid comp)) (io_w s) in
    io_w s' = r.2 ∧ Z.shiftr (comp_status comp) 1 = r.1.
Proof.
  intros Hi%io_pair_idle Hcid Hst. destruct (pair_command_eq QID [0] [] s cmd_init Hi Hcid Hst) as (s' & comp & E & Hi' & _ & Hr).
  exists s', comp. split; [done|]. split; [by apply io_pair_idle|exact Hr].
Qed.

(** ** Transfers *)

(** How a controller finds the pages of a transfer of [bytes] (page-aligned first
    page): one page, two pages, or a list of the remaining pages at the second
    field. *)
Definition prp_pages (list_at : Z → list Z) (p0 p1 bytes : Z) : list Z :=
  let n := (bytes + 4095) / 4096 in
  if n <=? 1 then [p0] else if n <=? 2 then [p0; p1] else p0 :: take (Z.to_nat (n - 1)) (list_at p1).

(** The PRP list memory of the driver, read at an address. *)
Definition prp_at (buffer_physical prp_physical a : Z) : list Z :=
  drop (Z.to_nat ((a - prp_physical) / 8)) (buffer_prp buffer_physical).

Lemma prp_fields_cover (buffer_physical prp_physical bytes : Z) :
  0 < bytes <= 2097152 → 0 <= prp_physical < 2 ^ 64 - 8 →
  let '(p0, p1) := prp_fields buffer_physical prp_physical bytes in
  prp_pages (prp_at buffer_physical prp_physical) p0 p1 bytes =
    take (Z.to_nat ((bytes + 4095) / 4096)) (buffer_prp buffer_physical).
Proof.
  intros Hb Hp. unfold prp_fields, prp_pages.
  assert (∃ a b l, buffer_prp buffer_physical = a :: b :: l) as (a & b & l & Hprp).
  { unfold buffer_prp. eexists _, _, _. reflexivity. }
  assert (prp_at buffer_physical prp_physical (as_u64 (prp_physical + 8)) = b :: l) as Hat.
  { unfold prp_at, as_u64. rewrite as_u_id by (unfold u_range; lia).
    replace (prp_physical + 8 - prp_physical) with 8 by lia. by rewrite Hprp. }
  rewrite Hprp. simpl nth. destruct (Z.leb_spec bytes 4096); [|destruct (Z.leb_spec bytes 8192)].
  - assert ((bytes + 4095) / 4096 = 1) as -> by zdiv. done.
  - assert ((bytes + 4095) / 4096 = 2) as -> by zdiv. done.
  - assert (2 < (bytes + 4095) / 4096) by zdiv.
    rewrite (proj2 (Z.leb_gt _ 1)), (proj2 (Z.leb_gt _ 2)) by lia. rewrite Hat.
    set (n := (bytes + 4095) / 4096) in *. replace (Z.to_nat n) with (S (Z.to_nat (n - 1))) by lia. done.
Qed.

(** What the controller promises about read (opcode 2) and write (opcode 1)
    commands on the namespace [id] whose PRPs name the first pages of the transfer buffer and whose blocks
    are in the namespace: a successful command moves the bytes; a command that
    fails, or any command as far as the other side is concerned, changes nothing
    else. *)
Class NvmeLaws (W : Type) `{NvmeController W} (id bs : Z) := {
  law_phys : 0 <= prp_phys < 2 ^ 64 - 8;
  law_status (cmd : NvmeCmd) (w : W) : 0 <= (nvme_exec cmd w).1;
  law_set_buffer (b : list Z) (w : W) :
    buffer_bytes (set_buffer b w) = b ∧ ns_bytes (set_buffer b w) = ns_bytes w;
  law_read (cmd : NvmeCmd) (w : W) (start bytes : Z) :
    opcode cmd = 2 → nsid cmd = id → start = (cdw10 cmd + 2 ^ 32 * cdw11 cmd) * bs → bytes = (cdw12 cmd + 1) * bs →
    0 <= start → start + bytes <= Z.of_nat (length (ns_bytes w)) →
    prp_pages (prp_at buffer_phys prp_phys) (dptr cmd).1 (dptr cmd).2 bytes =
      take (Z.to_nat ((bytes + 4095) / 4096)) (buffer_prp buffer_phys) →
    let '(c, w') := nvme_exec cmd w in
    ns_bytes w' = ns_bytes w ∧
    (c = 0 →
     take (Z.to_nat bytes) (buffer_bytes w') = slice (Z.to_nat start) (Z.to_nat bytes) (ns_bytes w));
  law_write (cmd : NvmeCmd) (w : W) (start bytes : Z) :
    opcode cmd = 1 → nsid cmd = id → start = (cdw10 cmd + 2 ^ 32 * cdw11 cmd) * bs → bytes = (cdw12 cmd + 1) * bs →
    0 <= start → start + bytes <= Z.of_nat (length (ns_bytes w)) →
    bytes <= Z.of_nat (length (buffer_bytes w)) →
    prp_pages (prp_at buffer_phys prp_phys) (dptr cmd).1 (dptr cmd).2 bytes =
      take (Z.to_nat ((bytes + 4095) / 4096)) (buffer_prp buffer_phys) →
    let '(c, w') := nvme_exec cmd w in
    length (buffer_bytes w') = length (buffer_bytes w) ∧
    (c = 0 →
     ns_bytes w' = splice (Z.to_nat start) (take (Z.to_nat bytes) (buffer_bytes w)) (ns_bytes w));
}.

Section reads.
Context {W : Type} {bs : Z} (ns : NvmeNamespace) (id : Z) `{NvmeLaws W id bs}.
Context (Hbs : ns_block_size ns = bs) (Hpos : 0 < bs) (Hdiv : (bs | 8192)).

(** Blocks of a chunk of at most 8192 bytes. *)
Lemma chunk_blocks_eq (len : nat) (w : IoState W) :
  0 < Z.of_nat len <= 8192 →
  ∃ blocks, chunk_blocks ns len w = (Ok blocks, w) ∧
    blocks = (Z.of_nat len + bs - 1) / bs ∧ 0 < blocks <= 8192 ∧
    Z.of_nat len <= blocks * bs <= 8192 ∧ blocks * bs < Z.of_nat len + bs.
Proof.
  intros Hlen. unfold chunk_blocks. rewrite Hbs, (proj2 (Z.eqb_neq bs 0)) by lia.
  set (b := (Z.of_nat len + bs - 1) / bs).
  assert (b * bs <= Z.of_nat len + bs - 1 < b * bs + bs) as Hb.
  { unfold b. pose proof (Z.div_mod (Z.of_nat len + bs - 1) bs). pose proof (Z.mod_pos_bound (Z.of_nat len + bs - 1) bs). nia. }
  destruct Hdiv as [m Hm].
  assert (0 < b) by nia. assert (b <= m) by nia. assert (m <= 8192) by nia.
  rewrite (proj2 (Z.ltb_lt 0 b)), (proj2 (Z.leb_le b 0x10000)) by lia.
  exists b. split; [done|]. split; [done|]. split; [lia|]. split; nia.
Qed.

(** The one command of a transfer of at most two pages, what its fields say, and how
    it ends. *)
Lemma rw_command (lba blocks : Z) (write : bool) (s : IoState W) :
  io_idle s → 0 <= lba < 2 ^ 64 → 0 < blocks <= 8192 → blocks * bs <= 8192 →
  ∃ cmd r s', namespace_rw ns id lba (as_u16 (blocks - 1)) write s = (r, s') ∧ io_idle s' ∧
    opcode cmd = (if write then 1 else 2) ∧ nsid cmd = id ∧
    cdw10 cmd + 2 ^ 32 * cdw11 cmd = lba ∧ cdw12 cmd + 1 = blocks ∧
    prp_pages (prp_at buffer_phys prp_phys) (dptr cmd).1 (dptr cmd).2 (blocks * bs) =
      take (Z.to_nat ((blocks * bs + 4095) / 4096)) (buffer_prp buffer_phys) ∧
    io_w s' = (nvme_exec cmd (io_w s)).2 ∧
    (r = Ok tt ∧ (nvme_exec cmd (io_w s)).1 = 0 ∨ r = Err EIO ∧ (nvme_exec cmd (io_w s)).1 ≠ 0).
Proof.
  intros Hidle Hl Hb Hbb. unfold namespace_rw.
  assert (as_u16 (blocks - 1) = blocks - 1) as ->.
  { apply as_u_id. unfold u_range. change (2 ^ 16) with 65536. lia. }
  rewrite Hbs. replace (blocks - 1 + 1) with blocks by lia.
  assert (as_u64 (blocks * bs) = blocks * bs) as ->.
  { apply as_u_id. unfold u_range. change (2 ^ 64) with 18446744073709551616. nia. }
  pose proof (prp_fields_cover buffer_phys prp_phys (blocks * bs) ltac:(nia) law_phys) as Hcov.
  destruct (prp_fields buffer_phys prp_phys (blocks * bs)) as [p0 p1].
  assert (as_u32 lba + 2 ^ 32 * as_u32 (Z.shiftr lba 32) = lba) as Hcl.
  { unfold as_u32, as_u. rewrite Z.shiftr_div_pow2 by lia.
    change (2 ^ 64) with 18446744073709551616 in Hl. change (2 ^ 32) with 4294967296. zdiv. }
  set (init := λ cid, if write then nvme_io_write cid id lba (blocks - 1) p0 p1
                      else nvme_io_read cid id lba (blocks - 1) p0 p1).
  destruct (submit_and_complete_eq s init Hidle) as (s' & comp & Hrun & Hidle' & Hw & Hst);
    [by destruct write|intros; apply law_status|].
  unfold mbind, prog_bind. rewrite (bind_Ok _ _ _ _ _ Hrun), Hst.
  exists (init (comp_cid comp)), (if (nvme_exec (init (comp_cid comp)) (io_w s)).1 =? 0 then Ok tt else Err EIO), s'.
  split; [by destruct (_ =? 0)|]. split; [done|].
  assert (opcode (init (comp_cid comp)) = if write then 1 else 2) as Hop by (by destruct write).
  split; [done|]. split; [by destruct write|]. split; [by destruct write|]. split; [destruct write; simpl; lia|].
  split; [by destruct write|]. split; [done|].
  destruct (Z.eqb_spec (nvme_exec (init (comp_cid comp)) (io_w s)).1 0); [by left|by right].
Qed.

(** A read command. *)
Lemma rw_read (lba blocks : Z) (s : IoState W) :
  io_idle s → 0 <= lba < 2 ^ 64 → 0 < blocks <= 8192 → blocks * bs <= 8192 →
  (lba + blocks) * bs <= Z.of_nat (length (ns_bytes (io_w s))) →
  ∃ r s', namespace_rw ns id lba (as_u16 (blocks - 1)) false s = (r, s') ∧ io_idle s' ∧
    ns_bytes (io_w s') = ns_bytes (io_w s) ∧
    (r = Err EIO ∧ (∃ c, (nvme_exec c (io_w s)).1 ≠ 0) ∨
     r = Ok tt ∧ take (Z.to_nat (blocks * bs)) (buffer_bytes (io_w s')) =
       slice (Z.to_nat (lba * bs)) (Z.to_nat (blocks * bs)) (ns_bytes (io_w s))).
Proof.
  intros Hidle Hl Hb Hbb Hin.
  destruct (rw_command lba blocks false s Hidle Hl Hb Hbb)
    as (cmd & r & s' & Hrun & Hidle' & Hop & Hnsid & Hcl & Hc12 & Hcov & Hw & Hr).
  pose proof (law_read cmd (io_w s) (lba * bs) (blocks * bs) Hop Hnsid ltac:(by rewrite Hcl) ltac:(by rewrite Hc12)
                ltac:(nia) ltac:(nia) Hcov) as Hlaw.
  exists r, s'. split; [done|]. split; [done|]. rewrite Hw. destruct (nvme_exec cmd (io_w s)) as [c w'] eqn:Hex.
  destruct Hlaw as [Hns Hbuf]. simpl in *. split; [done|].
  destruct Hr as [[-> Hok]|[-> Hbad]]; [right; auto|left]. split; [done|]. exists cmd. by rewrite Hex.
Qed.

(** A write command. *)
Lemma rw_write (lba blocks : Z) (s : IoState W) :
  io_idle s → 0 <= lba < 2 ^ 64 → 0 < blocks <= 8192 → blocks * bs <= 8192 →
  (lba + blocks) * bs <= Z.of_nat (length (ns_bytes (io_w s))) →
  8192 <= Z.of_nat (length (buffer_bytes (io_w s))) →
  ∃ r s', namespace_rw ns id lba (as_u16 (blocks - 1)) true s = (r, s') ∧ io_idle s' ∧
    length (buffer_bytes (io_w s')) = length (buffer_bytes (io_w s)) ∧
    (r = Err EIO ∧ (∃ c, (nvme_exec c (io_w s)).1 ≠ 0) ∨
     r = Ok tt ∧ ns_bytes (io_w s') =
       splice (Z.to_nat (lba * bs)) (take (Z.to_nat (blocks * bs)) (buffer_bytes (io_w s))) (ns_bytes (io_w s))).
Proof.
  intros Hidle Hl Hb Hbb Hin Hlb.
  destruct (rw_command lba blocks true s Hidle Hl Hb Hbb)
    as (cmd & r & s' & Hrun & Hidle' & Hop & Hnsid & Hcl & Hc12 & Hcov & Hw & Hr).
  pose proof (law_write cmd (io_w s) (lba * bs) (blocks * bs) Hop Hnsid ltac:(by rewrite Hcl) ltac:(by rewrite Hc12)
                ltac:(nia) ltac:(nia) ltac:(lia) Hcov) as Hlaw.
  exists r, s'. split; [done|]. split; [done|]. rewrite Hw. destruct (nvme_exec cmd (io_w s)) as [c w'] eqn:Hex.
  destruct Hlaw as [Hlen Hns]. simpl in *. split; [done|].
  destruct Hr as [[-> Hok]|[-> Hbad]]; [right; auto|left]. split; [done|]. exists cmd. by rewrite Hex.
Qed.

(** A chunk of at most 8192 bytes that lies in the namespace: its blocks do too, and
    a chunk that is not the last one fills its blocks. *)
Lemma chunk_fits (len : nat) (lba blocks : Z) (size : Z) :
  (bs | size) → Z.of_nat len <= blocks * bs → blocks * bs < Z.of_nat len + bs →
  lba * bs + Z.of_nat len <= size → (lba + blocks) * bs <= size.
Proof. intros [k ->] H1 H2 H3. assert (lba + blocks < k + 1) by nia. nia. Qed.

Abbreviation disk s := (ns_bytes (io_w s)).
Abbreviation buffer s := (buffer_bytes (io_w s)).

(** Some command was answered with an error. *)
Definition command_failed : Prop := ∃ c (w : W), (nvme_exec c w).1 ≠ 0.

Lemma read_chunks_spec (fuel n : nat) (lba : Z) (s : IoState W) :
  io_idle s → (n <= fuel)%nat → 0 <= lba → lba * bs + Z.of_nat n <= Z.of_nat (length (disk s)) →
  (bs | Z.of_nat (length (disk s))) → Z.of_nat (length (disk s)) < 2 ^ 63 →
  ∃ r s', read_chunks ns id lba (chunk_lengths fuel n) s = (r, s') ∧ io_idle s' ∧ disk s' = disk s ∧
    (r = Err EIO ∧ command_failed ∨ r = Ok (slice (Z.to_nat (lba * bs)) n (disk s))).
Proof.
  revert n lba s. induction fuel as [|fuel IH]; intros n lba s Hidle Hf Hl Hin Hk Hmax.
  { assert (n = 0%nat) as -> by lia. eexists _, s. do 3 (split; [done|]). by right. }
  destruct (decide (n = 0%nat)) as [->|Hn].
  { eexists _, s. do 3 (split; [done|]). by right. }
  assert (chunk_lengths (S fuel) n = Nat.min CHUNK n :: chunk_lengths fuel (n - CHUNK)) as -> by (by destruct n).
  assert (Z.of_nat CHUNK = 8192) as HC by done. set (len := Nat.min CHUNK n).
  assert (0 < Z.of_nat len <= 8192 ∧ (len <= n)%nat ∧ (n - CHUNK = n - len)%nat ∧ (n = len ∨ Z.of_nat len = 8192))
    as (Hlen & Hle & -> & Hlast) by lia.
  clearbody len. cbn [read_chunks]. unfold mbind, prog_bind.
  destruct (chunk_blocks_eq len s Hlen) as (blocks & Hcb & _ & Hb & Hbb & Hbl).
  rewrite (bind_Ok _ _ _ _ _ Hcb).
  assert ((lba + blocks) * bs <= Z.of_nat (length (disk s))) as Hfit by (apply (chunk_fits len); (done || lia)).
  change (2 ^ 63) with 9223372036854775808 in Hmax.
  assert (lba + blocks < 2 ^ 64) by (change (2 ^ 64) with 18446744073709551616; nia).
  destruct (rw_read lba blocks s) as (r1 & s1 & Hrw & Hidle1 & Hns & Hr); [done|lia|done|lia|done|].
  destruct Hr as [(-> & c & Hc)|(-> & Hbuf)].
  { eexists _, s1. split; [by apply bind_Err|]. do 2 (split; [done|]). left. split; [done|]. by exists c, (io_w s). }
  rewrite (bind_Ok _ _ _ _ _ Hrw), (bind_Ok (gets _) _ s1 (take len (buffer s1)) s1) by done.
  assert (take len (buffer s1) = slice (Z.to_nat (lba * bs)) len (disk s)) as Hdata.
  { replace len with (Nat.min len (Z.to_nat (blocks * bs))) at 1 by lia.
    rewrite <- take_take, Hbuf. unfold slice. rewrite take_take. f_equal. lia. }
  assert (as_u64 (lba + blocks) = lba + blocks) as -> by (apply as_u_id; unfold u_range; lia).
  destruct (IH (n - len)%nat (lba + blocks) s1) as (r2 & s2 & Hrc & Hidle2 & Hns2 & Hr2);
    [done|lia|lia| |by rewrite Hns|by rewrite Hns|].
  { rewrite Hns. destruct Hlast as [->|Hlast]; lia. }
  rewrite Hns in Hns2, Hr2. destruct Hr2 as [[-> Hc]| ->].
  { eexists _, s2. split; [by apply bind_Err|]. do 2 (split; [done|]). by left. }
  rewrite (bind_Ok _ _ _ _ _ Hrc). eexists _, s2. do 3 (split; [done|]). right. f_equal.
  rewrite Hdata. destruct Hlast as [->|Hlast].
  - by rewrite Nat.sub_diag, slice_0, app_nil_r.
  - replace (Z.to_nat ((lba + blocks) * bs)) with (Z.to_nat (lba * bs) + len)%nat by lia.
    rewrite slice_app. f_equal. lia.
Qed.

Lemma fill_buffer_eq (chunk : list Z) (s : IoState W) :
  io_idle s → Z.of_nat (length chunk) <= Z.of_nat (length (buffer s)) →
  ∃ s', fill_buffer chunk s = (Ok tt, s') ∧ io_idle s' ∧ disk s' = disk s ∧
    length (buffer s') = length (buffer s) ∧ take (length chunk) (buffer s') = chunk.
Proof.
  intros Hidle Hlen. eexists. split; [done|]. cbn [io_w].
  destruct (law_set_buffer (chunk ++ drop (length chunk) (buffer s)) (io_w s)) as [-> ->].
  split; [by destruct Hidle|]. split; [done|]. split; [rewrite length_app, length_drop; lia|].
  by rewrite take_app_length.
Qed.

(** A chunk of a buffer of whole blocks: it is whole blocks itself, and so is the rest. *)
Lemma whole_blocks (buf chunk rest : list Z) (blocks : Z) :
  (bs | Z.of_nat (length buf)) → length chunk = Nat.min CHUNK (length buf) →
  length rest = (length buf - CHUNK)%nat →
  Z.of_nat (length chunk) <= blocks * bs <= 8192 → blocks * bs < Z.of_nat (length chunk) + bs →
  blocks * bs = Z.of_nat (length chunk) ∧ (bs | Z.of_nat (length rest)).
Proof.
  intros Hmul Hlc Hlr Hbb Hbl. assert (Z.of_nat CHUNK = 8192) as HC by done. split.
  - destruct (decide (8192 <= Z.of_nat (length buf))); [lia|].
    assert (length chunk = length buf) as Hc by lia. rewrite Hc in *. destruct Hmul as [k Hk].
    assert (blocks = k) by nia. by subst.
  - rewrite Hlr. destruct (decide (8192 <= Z.of_nat (length buf))).
    + replace (Z.of_nat (length buf - CHUNK)) with (Z.of_nat (length buf) - 8192) by lia. by apply Z.divide_sub_r.
    + replace (length buf - CHUNK)%nat with 0%nat by lia. apply Z.divide_0_r.
Qed.

Lemma write_chunks_spec (fuel : nat) (buf : list Z) (lba : Z) (s : IoState W) :
  io_idle s → (length buf <= fuel)%nat → 0 <= lba → (bs | Z.of_nat (length buf)) →
  lba * bs + Z.of_nat (length buf) <= Z.of_nat (length (disk s)) →
  Z.of_nat (length (disk s)) < 2 ^ 63 → 8192 <= Z.of_nat (length (buffer s)) →
  ∃ r s', write_chunks ns id lba (chunks_of fuel buf) s = (r, s') ∧ io_idle s' ∧
    (r = Err EIO ∧ command_failed ∨ r = Ok tt ∧ disk s' = splice (Z.to_nat (lba * bs)) buf (disk s)).
Proof.
  revert buf lba s. induction fuel as [|fuel IH]; intros buf lba s Hidle Hf Hl Hmul Hin Hmax Hbuf.
  { destruct buf; [|simpl in Hf; lia]. eexists _, s. do 2 (split; [done|]). right. split; [done|].
    unfold splice. simpl. by rewrite Nat.add_0_r, take_drop. }
  destruct (decide (buf = [])) as [->|Hne].
  { eexists _, s. do 2 (split; [done|]). right. split; [done|].
    unfold splice. simpl. by rewrite Nat.add_0_r, take_drop. }
  assert (chunks_of (S fuel) buf = take CHUNK buf :: chunks_of fuel (drop CHUNK buf)) as -> by (by destruct buf).
  assert (0 < length buf)%nat by (destruct buf; [done|simpl; lia]).
  assert (Z.of_nat CHUNK = 8192) as HC by done.
  pose proof (take_drop CHUNK buf) as Hsplit. pose proof (length_take buf CHUNK) as Hlt.
  pose proof (length_drop buf CHUNK) as Hld.
  set (chunk := take CHUNK buf) in *. set (rest := drop CHUNK buf) in *. clearbody chunk rest.
  cbn [write_chunks]. unfold mbind, prog_bind.
  destruct (chunk_blocks_eq (length chunk) s) as (blocks & Hcb & _ & Hb & Hbb & Hbl); [lia|].
  rewrite (bind_Ok _ _ _ _ _ Hcb).
  destruct (whole_blocks buf chunk rest blocks Hmul Hlt Hld Hbb Hbl) as [Hex Hmul'].
  destruct (fill_buffer_eq chunk s Hidle) as (s1 & Hfill & Hidle1 & Hns1 & Hlb1 & Htk1); [lia|].
  rewrite (bind_Ok _ _ _ _ _ Hfill). change (2 ^ 63) with 9223372036854775808 in Hmax.
  assert (lba + blocks < 2 ^ 64) by (change (2 ^ 64) with 18446744073709551616; nia).
  destruct (rw_write lba blocks s1) as (r1 & s2 & Hrw & Hidle2 & Hlb2 & Hr); [done|lia|done|lia|rewrite Hns1; lia|lia|].
  destruct Hr as [(-> & c & Hc)|(-> & Hns2)].
  { eexists _, s2. split; [by apply bind_Err|]. split; [done|]. left. split; [done|]. by exists c, (io_w s1). }
  rewrite (bind_Ok _ _ _ _ _ Hrw). rewrite Hns1, Hex, Nat2Z.id, Htk1 in Hns2.
  assert (as_u64 (lba + blocks) = lba + blocks) as -> by (apply as_u_id; unfold u_range; lia).
  assert (length (disk s2) = length (disk s)) as Hln2 by (rewrite Hns2; apply length_splice; lia).
  destruct (IH rest (lba + blocks) s2) as (r2 & s3 & -> & Hidle3 & Hr2);
    [done|lia|lia|done|rewrite Hln2; lia|by rewrite Hln2|lia|].
  eexists _, s3. do 2 (split; [done|]). destruct Hr2 as [Hr2|[-> Hns3]]; [by left|]. right. split; [done|].
  rewrite Hns3, Hns2. replace (Z.to_nat ((lba + blocks) * bs)) with (Z.to_nat (lba * bs) + length chunk)%nat by lia.
  rewrite splice_splice by lia. by rewrite Hsplit.
Qed.

(** C6. Reading, whatever the length of the buffer, if it lies in the namespace:
    every command goes through the submission queue, the controller and the reactor,
    and the loop over 8192-byte chunks returns exactly the bytes at
    [lba * block_size], unless a command failed, which is answered with EIO.  Nothing
    is written, the transfer ends, and the queues are idle again.  Block sizes are
    those that divide the chunk. *)
Theorem namespace_read_spec (lba : Z) (n : nat) (s : IoState W) (Hidle : io_idle s)
    (Hl : 0 <= lba) (Hin : lba * bs + Z.of_nat n <= Z.of_nat (length (ns_bytes (io_w s))))
    (Hk : (bs | Z.of_nat (length (ns_bytes (io_w s))))) (Hmax : Z.of_nat (length (ns_bytes (io_w s))) < 2 ^ 63) :
  ∃ r s', namespace_read ns id lba n s = (r, s') ∧ io_idle s' ∧ ns_bytes (io_w s') = ns_bytes (io_w s) ∧
    (r = Err EIO ∧ (∃ c v, (nvme_exec c v).1 ≠ 0) ∨
     r = Ok (Z.of_nat n, slice (Z.to_nat (lba * bs)) n (ns_bytes (io_w s)))).
Proof.
  destruct (read_chunks_spec n n lba s) as (r & s' & Hr & Hi & Hns & Hc); [done|lia|done..|].
  unfold namespace_read, mbind, prog_bind. destruct Hc as [[-> Hc]| ->].
  - eexists _, s'. split; [by apply bind_Err|]. eauto.
  - rewrite (bind_Ok _ _ _ _ _ Hr). eexists _, s'. split; [done|]. eauto.
Qed.

(** Writing whole blocks: unless a command failed, which is answered with EIO,
    the namespace afterwards is the old one with exactly the buffer's bytes at
    [lba * block_size]; the queues are idle again. *)
Theorem namespace_write_spec (lba : Z) (buf : list Z) (s : IoState W) (Hidle : io_idle s)
    (Hl : 0 <= lba) (Hmul : (bs | Z.of_nat (length buf)))
    (Hin : lba * bs + Z.of_nat (length buf) <= Z.of_nat (length (ns_bytes (io_w s))))
    (Hmax : Z.of_nat (length (ns_bytes (io_w s))) < 2 ^ 63)
    (Hbuf : 8192 <= Z.of_nat (length (buffer_bytes (io_w s)))) :
  ∃ r s', namespace_write ns id lba buf s = (r, s') ∧ io_idle s' ∧
    (r = Err EIO ∧ (∃ c v, (nvme_exec c v).1 ≠ 0) ∨
     r = Ok (Z.of_nat (length buf)) ∧ ns_bytes (io_w s') = splice (Z.to_nat (lba * bs)) buf (ns_bytes (io_w s))).
Proof.
  destruct (write_chunks_spec (length buf) buf lba s) as (r & s' & Hr & Hi & Hc); [done|lia|done..|].
  unfold namespace_write, mbind, prog_bind. destruct Hc as [[-> Hc]|[-> Hns]].
  - eexists _, s'. split; [by apply bind_Err|]. eauto.
  - rewrite (bind_Ok _ _ _ _ _ Hr). eexists _, s'. split; [done|]. eauto.
Qed.
End reads.

(** ** Witnesses *)

(** A controller whose namespace has 4-byte blocks. *)
Definition toy_exec (cmd : NvmeCmd) (w : list Z * list Z) : Z * (list Z * list Z) :=
  let start := Z.to_nat ((cdw10 cmd + 2 ^ 32 * cdw11 cmd) * 4) in
  let bytes := Z.to_nat ((cdw12 cmd + 1) * 4) in
  if opcode cmd =? 2 then (0, (w.1, slice start bytes w.1 ++ drop bytes w.2))
  else if opcode cmd =? 1 then (0, (splice start (take bytes w.2) w.1, w.2))
  else (1, w).

Instance toy_controller : NvmeController (list Z * list Z) := {
  nvme_exec := toy_exec;
  admin_exec _ w := (1, w);
  ns_bytes := fst;
  buffer_bytes := snd;
  set_buffer b w := (w.1, b);
  buffer_phys := 0x200000;
  prp_phys := 0x400000;
}.

Instance toy_laws : NvmeLaws (list Z * list Z) 1 4.
Proof.
  split.
  - cbn [prp_phys toy_controller]. change (2 ^ 64) with 18446744073709551616. lia.
  - intros cmd w. cbn [nvme_exec toy_controller]. unfold toy_exec. by repeat case_match.
  - done.
  - intros cmd w start bytes Hop _ -> -> H0 Hin _. cbn [nvme_exec ns_bytes buffer_bytes toy_controller] in *.
    unfold toy_exec. rewrite Hop. cbn [fst snd Z.eqb Pos.eqb]. split; [done|]. intros _.
    apply take_app_length'. unfold slice. rewrite length_take, length_drop. lia.
  - intros cmd w start bytes Hop _ -> -> H0 Hin _ _. cbn [nvme_exec ns_bytes buffer_bytes toy_controller] in *.
    unfold toy_exec. rewrite Hop. cbn [fst snd Z.eqb Pos.eqb]. done.
Qed.

Definition toy_world : IoState (list Z * list Z) :=
  mk_io ready_nvme 0 (mk_cqd 0 true 0) ([10; 11; 12; 13; 14; 15; 16; 17; 18; 19; 20; 21], replicate CHUNK 0).

Lemma ready_idle_io {W : Type} (n : Nvme) (w : W) : ready n → io_idle (mk_io n 0 (mk_cqd 0 true 0) w).
Proof.
  intros [Hsq [l Hcq] Hadm Hiv Hreq]. split; try done.
  - exists sq_new. split; [done|]. cbn [sq_new sq_data sq_tail sq_qhead]. rewrite length_replicate. cbn. lia.
  - exists cq_new, l, 0%nat. split; [done|]. apply cq_new_inv.
Qed.

Lemma namespace_read_spec_witness :
  (namespace_read (mk_ns 1 3 4) 1 1 6 toy_world).1 = Ok (6, [14; 15; 16; 17; 18; 19]) ∧
  ∃ r s', namespace_read (mk_ns 1 3 4) 1 1 6 toy_world = (r, s') ∧ io_idle s' ∧
    ns_bytes (io_w s') = ns_bytes (io_w toy_world) ∧
    (r = Err EIO ∧ (∃ c v, (nvme_exec c v).1 ≠ 0) ∨
     r = Ok (Z.of_nat 6, slice (Z.to_nat (1 * 4)) 6 (ns_bytes (io_w toy_world)))).
Proof.
  split; [vm_compute; reflexivity|].
  apply (namespace_read_spec (bs := 4) (mk_ns 1 3 4) 1 eq_refl ltac:(lia) ltac:(by exists 2048) 1 6 toy_world).
  - exact (ready_idle_io _ _ ready_nvme_ready).
  - lia.
  - vm_compute. discriminate.
  - by exists 3.
  - done.
Defined.

Lemma namespace_write_spec_witness :
  ns_bytes (io_w (namespace_write (mk_ns 1 3 4) 1 1 [90; 91; 92; 93] toy_world).2) =
    [10; 11; 12; 13; 90; 91; 92; 93; 18; 19; 20; 21] ∧
  ∃ r s', namespace_write (mk_ns 1 3 4) 1 1 [90; 91; 92; 93] toy_world = (r, s') ∧ io_idle s' ∧
    (r = Err EIO ∧ (∃ c v, (nvme_exec c v).1 ≠ 0) ∨
     r = Ok (Z.of_nat 4) ∧ ns_bytes (io_w s') = splice (Z.to_nat (1 * 4)) [90; 91; 92; 93] (ns_bytes (io_w toy_world))).
Proof.
  split; [vm_compute; reflexivity|].
  apply (namespace_write_spec (bs := 4) (mk_ns 1 3 4) 1 eq_refl ltac:(lia) ltac:(by exists 2048) 1
           [90; 91; 92; 93] toy_world).
  - exact (ready_idle_io _ _ ready_nvme_ready).
  - lia.
  - by exists 1.
  - vm_compute. discriminate.
  - done.
  - vm_compute. discriminate.
Defined.
