(* ===== verification/NetScheme.v ===== *)
(** The network scheme shared by the network drivers (net/driver-network).

    The adapter is the trait [NetworkAdapter]; [AdapterLaws] is what the scheme
    relies on: packets wait in a queue and are read in order.  The scheme's socket
    is the list of requests a tick finds in it and the list of responses and
    events it is sent. *)

From S2P Require Import Prelude.

(** ** The adapter *)

Class NetworkAdapter (A : Type) := {
  mac_address : A → list Z * A;
  (** Positive when a packet waits. *)
  available_for_read : A → Z * A;
  (** The bytes copied into a buffer of the given length, or [None]. *)
  read_packet : nat → prog A errno (option (list Z));
  write_packet : list Z → prog A errno Z;
}.

(** ** Requests and responses *)

(** A call of the scheme; the flags of a read are those of the file. *)
Inductive Call : Type :=
| NcOpen (path : string) (uid : Z)
| NcRead (id : Z) (len : nat) (offset fcntl_flags : Z)
| NcWrite (id : Z) (buf : list Z)
| NcFevent (id : Z)
| NcFpath (id : Z) (len : nat)
| NcFstat (id : Z)
| NcFsync (id : Z)
| NcClose (id : Z).

(** A request with its id. *)
Record CallRequest := mk_call { cr_id : Z; cr_call : Call }.

Inductive RequestKind : Type :=
| RkCall (c : CallRequest)
| RkSendFd (id : Z)
| RkCancellation (id : Z)
| RkMmap.

(** What a call answers.  The bytes of a read are the start of the caller's
    buffer; a packet and the address are told apart by the file read. *)
Inductive NetReply : Type :=
| RpOpened (id : Z) (positioned : bool)
| RpPacket (bytes : list Z)
| RpMac (bytes : list Z)
| RpPath (bytes : list Z)
| RpStat (mode : Z) (size : option Z)
| RpNum (n : Z).

Record Response := mk_response { rs_id : Z; rs_result : errno + NetReply }.

Inductive NetHandle : Type := NhData | NhMac.

Record NetworkScheme (A : Type) := mk_net {
  ns_adapter : A;
  ns_scheme_name : list Z;
  ns_next_id : Z;
  ns_handles : gmap Z NetHandle;
  ns_blocked : list CallRequest;
  ns_responses : list Response;
  ns_events : list Z;
}.
Arguments mk_net {_} _ _ _ _ _ _ _.
Arguments ns_adapter {_} _.
Arguments ns_scheme_name {_} _.
Arguments ns_next_id {_} _.
Arguments ns_handles {_} _.
Arguments ns_blocked {_} _.
Arguments ns_responses {_} _.
Arguments ns_events {_} _.

Definition MODE_FILE : Z := 0x8000.

Section scheme.
Context {A : Type} `{HA : NetworkAdapter A} (O_NONBLOCK : Z).

Abbreviation np := (prog (NetworkScheme A) errno).

Definition net_new (adapter : A) (scheme_name : list Z) : NetworkScheme A :=
  mk_net adapter scheme_name 0 ∅ [] [] [].

Definition set_adapter (a : A) (s : NetworkScheme A) : NetworkScheme A :=
  mk_net a (ns_scheme_name s) (ns_next_id s) (ns_handles s) (ns_blocked s) (ns_responses s) (ns_events s).

Definition set_net_handles (n : Z) (hs : gmap Z NetHandle) (s : NetworkScheme A) : NetworkScheme A :=
  mk_net (ns_adapter s) (ns_scheme_name s) n hs (ns_blocked s) (ns_responses s) (ns_events s).

Definition set_blocked (l : list CallRequest) (s : NetworkScheme A) : NetworkScheme A :=
  mk_net (ns_adapter s) (ns_scheme_name s) (ns_next_id s) (ns_handles s) l (ns_responses s) (ns_events s).

(** [socket.write_response]. *)
Definition respond (r : Response) (s : NetworkScheme A) : NetworkScheme A :=
  mk_net (ns_adapter s) (ns_scheme_name s) (ns_next_id s) (ns_handles s) (ns_blocked s)
    (ns_responses s ++ [r]) (ns_events s).

(** [socket.post_fevent]. *)
Definition post_fevent (id : Z) (s : NetworkScheme A) : NetworkScheme A :=
  mk_net (ns_adapter s) (ns_scheme_name s) (ns_next_id s) (ns_handles s) (ns_blocked s)
    (ns_responses s) (ns_events s ++ [id]).

Definition net_handle (id : Z) : np NetHandle := λ s,
  match ns_handles s !! id with Some h => (Ok h, s) | None => (Err EBADF, s) end.

Definition with_adapter {B : Type} (m : prog A errno B) : np B := λ s,
  let '(r, a) := m (ns_adapter s) in (r, set_adapter a s).

Definition net_xopen (path : string) (uid : Z) : np (option NetReply) :=
  if negb (uid =? 0) then throw EACCES
  else
    '(handle, positioned) ←
      (if bool_decide (path = "") then mret (NhData, false)
       else if bool_decide (path = "mac") then mret (NhMac, true)
       else throw EINVAL);
    id ← gets (λ s, as_usize (ns_next_id s + 1));
    _ ← modify (λ s, set_net_handles id (<[id := handle]> (ns_handles s)) s);
    mret (Some (RpOpened id positioned)).

(** [None] is a call that blocks. *)
Definition net_read (id : Z) (len : nat) (offset fcntl_flags : Z) : np (option NetReply) :=
  h ← net_handle id;
  match h with
  | NhMac =>
      mac ← (λ s, let '(m, a) := mac_address (ns_adapter s) in (Ok m, set_adapter a s));
      if Z.of_nat (length mac) <? offset then panic
      else mret (Some (RpMac (take len (drop (Z.to_nat offset) mac))))
  | NhData =>
      r ← with_adapter (read_packet len);
      match r with
      | Some bytes => mret (Some (RpPacket bytes))
      | None =>
          if negb (Z.land fcntl_flags O_NONBLOCK =? 0) then throw EWOULDBLOCK else mret None
      end
  end.

Definition net_write (id : Z) (buf : list Z) : np (option NetReply) :=
  h ← net_handle id;
  match h with
  | NhMac => throw EINVAL
  | NhData => n ← with_adapter (write_packet buf); mret (Some (RpNum n))
  end.

Definition net_fevent (id : Z) : np (option NetReply) := _ ← net_handle id; mret (Some (RpNum 0)).

(** [while i < buf.len() && j < src.len()]: the bytes that still fit. *)
Fixpoint copy_while (room : nat) (src : list Z) : list Z :=
  match room, src with
  | S room, b :: src => b :: copy_while room src
  | _, _ => []
  end.

Definition net_fpath (id : Z) (len : nat) : np (option NetReply) :=
  h ← net_handle id;
  name ← gets ns_scheme_name;
  let out := copy_while len name in
  let out := if (length out <? len)%nat then out ++ [58] else out in
  let path := match h with NhData => [] | NhMac => [109; 97; 99] end in
  mret (Some (RpPath (out ++ copy_while (len - length out) path))).

Definition net_fstat (id : Z) : np (option NetReply) :=
  h ← net_handle id;
  match h with
  | NhData => mret (Some (RpStat (Z.lor MODE_FILE 448) None))
  | NhMac => mret (Some (RpStat (Z.lor MODE_FILE 256) (Some 6)))
  end.

Definition net_fsync (id : Z) : np (option NetReply) := _ ← net_handle id; mret (Some (RpNum 0)).

Definition net_close (id : Z) : np (option NetReply) :=
  _ ← net_handle id;
  _ ← modify (λ s, set_net_handles (ns_next_id s) (delete id (ns_handles s)) s);
  mret (Some (RpNum 0)).

Definition run_call (c : Call) : np (option NetReply) :=
  match c with
  | NcOpen path uid => net_xopen path uid
  | NcRead id len offset flags => net_read id len offset flags
  | NcWrite id buf => net_write id buf
  | NcFevent id => net_fevent id
  | NcFpath id len => net_fpath id len
  | NcFstat id => net_fstat id
  | NcFsync id => net_fsync id
  | NcClose id => net_close id
  end.

(** [handle_scheme_block]: the response, or [None] when the call blocks. *)
Definition handle_scheme_block (r : CallRequest) : np (option Response) := λ s,
  match run_call (cr_call r) s with
  | (Ok (Some v), s') => (Ok (Some (mk_response (cr_id r) (inr v))), s')
  | (Ok None, s') => (Ok None, s')
  | (Err e, s') => (Ok (Some (mk_response (cr_id r) (inl e))), s')
  | (Panic, s') => (Panic, s')
  end.

(** ** A tick *)

(** The loop over the blocked requests, which removes from the vector it walks;
    [fuel] is the number of passes. *)
Fixpoint blocked_loop (fuel i : nat) : np unit :=
  match fuel with
  | O => panic
  | S fuel =>
      l ← gets ns_blocked;
      match l !! i with
      | None => mret tt
      | Some r =>
          resp ← handle_scheme_block r;
          match resp with
          | Some resp =>
              _ ← modify (respond resp);
              _ ← modify (λ s, set_blocked (delete i (ns_blocked s)) s);
              blocked_loop fuel i
          | None => blocked_loop fuel (S i)
          end
      end
  end.

(** The first blocked request with this id is answered with EINTR. *)
Definition cancel (id : Z) : np unit :=
  l ← gets ns_blocked;
  match list_find (λ r, cr_id r = id) l with
  | Some (i, r) =>
      _ ← modify (λ s, set_blocked (delete i (ns_blocked s)) s);
      modify (respond (mk_response (cr_id r) (inl EINTR)))
  | None => mret tt
  end.

Definition new_request (k : RequestKind) : np unit :=
  match k with
  | RkCall r =>
      resp ← handle_scheme_block r;
      match resp with
      | Some resp => modify (respond resp)
      | None => modify (λ s, set_blocked (ns_blocked s ++ [r]) s)
      end
  | RkSendFd id => modify (respond (mk_response id (inl EOPNOTSUPP)))
  | RkCancellation id => cancel id
  | RkMmap => panic
  end.

Fixpoint new_requests (ks : list RequestKind) : np unit :=
  match ks with
  | [] => mret tt
  | k :: ks => _ ← new_request k; new_requests ks
  end.

(** Every open handle is told, in the order of the ids. *)
Definition handle_ids (hs : gmap Z NetHandle) : list Z :=
  merge_sort Z.le (fst <$> map_to_list hs).

Definition notify_readers : np unit :=
  n ← (λ s, let '(n, a) := available_for_read (ns_adapter s) in (Ok n, set_adapter a s));
  if 0 <? n then modify (λ s, foldl (λ s id, post_fevent id s) s (handle_ids (ns_handles s)))
  else mret tt.

(** [tick] with the requests the socket holds until it answers EAGAIN. *)
Definition tick (ks : list RequestKind) : np unit :=
  l ← gets ns_blocked;
  _ ← blocked_loop (S (length l)) 0;
  _ ← new_requests ks;
  notify_readers.

End scheme.

(** ** What the scheme relies on *)

(** Packets wait in a queue; reading takes the first one, nothing else changes the
    queue, and nothing panics. *)
Class AdapterLaws (A : Type) `{NetworkAdapter A} := {
  ad_ok : A → Prop;
  rx : A → list (list Z);
  mac_law : ∀ a, ad_ok a → length (mac_address a).1 = 6%nat ∧
    ad_ok (mac_address a).2 ∧ rx (mac_address a).2 = rx a;
  available_law : ∀ a, ad_ok a → (0 < (available_for_read a).1 ↔ rx a ≠ []) ∧
    ad_ok (available_for_read a).2 ∧ rx (available_for_read a).2 = rx a;
  read_law : ∀ n a, ad_ok a → ad_ok (read_packet n a).2 ∧
    (read_packet n a).1 = Ok (take n <$> head (rx a)) ∧ rx (read_packet n a).2 = tail (rx a);
  write_law : ∀ buf a, ad_ok a → (write_packet buf a).1 ≠ Panic ∧
    ad_ok (write_packet buf a).2 ∧ rx (write_packet buf a).2 = rx a;
}.

(** ** Calls *)

Section calls.
Context {A : Type} `{HA : NetworkAdapter A} `{HL : !AdapterLaws A} (O_NONBLOCK : Z).
Context (M : nat).
Implicit Types (s : NetworkScheme A).

(** A call as the clients of the scheme make it: buffers of at least [M] bytes,
    and reads of the address inside it. *)
Definition call_ok (c : Call) : Prop :=
  match c with NcRead _ len offset _ => (M <= len)%nat ∧ 0 <= offset <= 6 | _ => True end.

(** The bytes a reader got of a packet. *)
Definition got (p b : list Z) : Prop := ∃ n, b = take n p ∧ (M <= n)%nat.

Definition packet_of (r : Response) : option (list Z) :=
  match rs_result r with inr (RpPacket b) => Some b | _ => None end.

Definition queue s : list (list Z) := rx (ns_adapter s).

(** [s'] follows [s]: requests [ids] came in, and responses were sent.  The packets
    taken from the queue are those of the responses, in order; and every request
    was either answered once or is blocked. *)
Definition advance (ids : list Z) s s' : Prop :=
  ad_ok (ns_adapter s) →
  ad_ok (ns_adapter s') ∧
  ∃ new consumed, ns_responses s' = ns_responses s ++ new ∧
    queue s = consumed ++ queue s' ∧ Forall2 got consumed (omap packet_of new) ∧
    (rs_id <$> new) ++ (cr_id <$> ns_blocked s') ≡ₚ ids ++ (cr_id <$> ns_blocked s).

Lemma advance_refl s : advance [] s s.
Proof. intros Ha. split; [done|]. exists [], []. by rewrite app_nil_r. Qed.

Lemma advance_trans ids1 ids2 s1 s2 s3 :
  advance ids1 s1 s2 → advance ids2 s2 s3 → advance (ids1 ++ ids2) s1 s3.
Proof.
  intros H1 H2 Ha. destruct (H1 Ha) as (Ha2 & n1 & c1 & Hr1 & Hq1 & Hf1 & Hp1).
  destruct (H2 Ha2) as (Ha3 & n2 & c2 & Hr2 & Hq2 & Hf2 & Hp2).
  split; [done|]. exists (n1 ++ n2), (c1 ++ c2). rewrite Hr2, Hr1, Hq1, Hq2, omap_app, fmap_app.
  split; [by rewrite app_assoc|]. split; [by rewrite app_assoc|]. split; [by apply Forall2_app|].
  rewrite <- app_assoc, Hp2. rewrite (app_assoc _ ids2), (Permutation_app_comm _ ids2), <- app_assoc, Hp1.
  rewrite !app_assoc. by rewrite (Permutation_app_comm ids2).
Qed.

(** A state that differs in the handles only. *)
Definition same_io s s' : Prop :=
  ns_blocked s' = ns_blocked s ∧ ns_responses s' = ns_responses s ∧ ns_events s' = ns_events s.

(** What a call does to the scheme: it takes at most one packet, and blocks only
    when there is none. *)
Definition call_result (c : Call) s (r : res errno (option NetReply)) s' : Prop :=
  same_io s s' ∧ ad_ok (ns_adapter s') ∧
  match r with
  | Ok (Some (RpPacket b)) => ∃ p, queue s = p :: queue s' ∧ got p b
  | Ok (Some _) => queue s' = queue s
  | Ok None => queue s = [] ∧ queue s' = [] ∧
      ∃ id len offset flags, c = NcRead id len offset flags ∧ Z.land flags O_NONBLOCK = 0
  | Err _ => queue s' = queue s
  | Panic => False
  end.

Lemma with_handle_result (c : Call) (id : Z) (k : NetHandle → prog (NetworkScheme A) errno (option NetReply)) s :
  ad_ok (ns_adapter s) →
  (∀ h, ns_handles s !! id = Some h → call_result c s (k h s).1 (k h s).2) →
  call_result c s (p_bind k (net_handle id) s).1 (p_bind k (net_handle id) s).2.
Proof.
  intros Ha Hk. unfold p_bind, net_handle. destruct (ns_handles s !! id) as [h|]; [by apply Hk|].
  split; [done|]. split; [exact Ha|]. done.
Qed.

Lemma read_result id len offset flags s :
  ad_ok (ns_adapter s) → call_ok (NcRead id len offset flags) →
  call_result (NcRead id len offset flags) s (net_read O_NONBLOCK id len offset flags s).1
    (net_read O_NONBLOCK id len offset flags s).2.
Proof.
  intros Ha [HM Hoff]. unfold net_read, mbind, prog_bind. apply with_handle_result; [done|].
  intros [|] _.
  - destruct (read_law len (ns_adapter s) Ha) as (Ha' & Hr & Hq).
    unfold with_adapter, p_bind. destruct (read_packet len (ns_adapter s)) as [r a] eqn:E.
    cbn [fst snd] in *. subst r. destruct (rx (ns_adapter s)) as [|p q] eqn:Hrx; cbn [head fmap option_fmap option_map tail] in *.
    + case_match; cbn [fst snd].
      * split; [done|]. split; [done|]. unfold queue. cbn. by rewrite Hq, Hrx.
      * split; [done|]. split; [done|]. unfold queue. cbn [mret prog_ret p_ret].
        split; [done|]. split; [done|]. exists id, len, offset, flags. split; [done|].
        by destruct (Z.eqb_spec (Z.land flags O_NONBLOCK) 0).
    + split; [done|]. split; [done|]. exists p. unfold queue. cbn. rewrite Hrx, Hq. split; [done|].
      by exists len.
  - destruct (mac_law (ns_adapter s) Ha) as (Hl & Ha' & Hq). unfold p_bind.
    destruct (mac_address (ns_adapter s)) as [m a]. cbn [fst snd] in *.
    rewrite Hl, (proj2 (Z.ltb_ge _ _)) by lia.
    split; [by repeat split|]. split; [exact Ha'|exact Hq].
Qed.

(** A call that leaves the adapter alone. *)
Ltac no_packet H := split; [done|]; split; [exact H|]; done.

(** Every call keeps to its result. *)
Lemma run_call_result c s :
  ad_ok (ns_adapter s) → call_ok c →
  call_result c s (run_call O_NONBLOCK c s).1 (run_call O_NONBLOCK c s).2.
Proof.
  intros Ha Hc. destruct c as [path uid|id len offset flags|id buf|id|id len|id|id|id]; cbn [run_call].
  - unfold net_xopen, mbind, prog_bind. destruct (negb (uid =? 0)); [no_packet Ha|].
    destruct (bool_decide (path = "")); [no_packet Ha|]. destruct (bool_decide (path = "mac")); no_packet Ha.
  - by apply read_result.
  - unfold net_write, mbind, prog_bind. apply with_handle_result; [done|]. intros [|] _; [|no_packet Ha].
    destruct (write_law buf (ns_adapter s) Ha) as (Hp & Ha' & Hq).
    unfold with_adapter, p_bind. destruct (write_packet buf (ns_adapter s)) as [[n|e|] a]; cbn [fst snd] in *;
      [|  |done]; (split; [done|]; split; [exact Ha'|exact Hq]).
  - unfold net_fevent, mbind, prog_bind. apply with_handle_result; [done|]. intros h _. no_packet Ha.
  - unfold net_fpath, mbind, prog_bind. apply with_handle_result; [done|]. intros h _. no_packet Ha.
  - unfold net_fstat, mbind, prog_bind. apply with_handle_result; [done|]. intros [|] _; no_packet Ha.
  - unfold net_fsync, mbind, prog_bind. apply with_handle_result; [done|]. intros h _. no_packet Ha.
  - unfold net_close, mbind, prog_bind. apply with_handle_result; [done|]. intros h _. no_packet Ha.
Qed.

(** ** Ticks *)

Definition requests_ok (l : list CallRequest) : Prop := Forall (λ r, call_ok (cr_call r)) l.

(** Readers wait only while there is nothing to read. *)
Definition drained s : Prop := ns_blocked s = [] ∨ queue s = [].

Lemma block_result r s :
  ad_ok (ns_adapter s) → call_ok (cr_call r) →
  ∃ o s', handle_scheme_block O_NONBLOCK r s = (Ok o, s') ∧ same_io s s' ∧ ad_ok (ns_adapter s') ∧
    match o with
    | Some resp => rs_id resp = cr_id r ∧
        ∃ consumed, queue s = consumed ++ queue s' ∧ Forall2 got consumed (omap packet_of [resp])
    | None => queue s = [] ∧ queue s' = []
    end.
Proof.
  intros Ha Hc. pose proof (run_call_result (cr_call r) s Ha Hc) as (Hio & Ha' & Hr).
  unfold handle_scheme_block. destruct (run_call O_NONBLOCK (cr_call r) s) as [[[v|]|e|] s'];
    cbn [fst snd] in *; [| | |done]; do 2 eexists; (split; [reflexivity|]; split; [done|]; split; [done|]).
  - split; [done|]. destruct v as [| b | | | | ]; [by exists [] | | by exists [] ..].
    destruct Hr as (p & Hq & Hg). exists [p]. split; [done|]. by repeat constructor.
  - destruct Hr as (H1 & H2 & _). done.
  - split; [done|]. by exists [].
Qed.

Lemma ids_delete (l : list CallRequest) i r :
  l !! i = Some r → cr_id r :: (cr_id <$> delete i l) ≡ₚ cr_id <$> l.
Proof.
  intros Hl. rewrite <- fmap_cons. apply fmap_Permutation. symmetry. by apply delete_Permutation.
Qed.

(** Answering a request. *)
Lemma advance_answer r s s' resp consumed rest :
  same_io s s' → ad_ok (ns_adapter s') → rs_id resp = cr_id r →
  queue s = consumed ++ queue s' → Forall2 got consumed (omap packet_of [resp]) →
  cr_id r :: (cr_id <$> rest) ≡ₚ (cr_id <$> ns_blocked s) →
  advance [] s (set_blocked rest (respond resp s')).
Proof.
  intros (Hb & Hr & _) Ha' Hid Hq Hf Hp _. split; [exact Ha'|]. exists [resp], consumed.
  cbn [set_blocked respond ns_responses ns_blocked]. rewrite Hr. split; [done|]. split; [exact Hq|].
  split; [done|]. cbn [fmap list_fmap app]. by rewrite Hid.
Qed.

Lemma blocked_loop_ok fuel i s :
  (length (ns_blocked s) < i + fuel)%nat → (i <= length (ns_blocked s))%nat →
  ad_ok (ns_adapter s) → requests_ok (ns_blocked s) → i = 0%nat ∨ queue s = [] →
  ∃ s', blocked_loop O_NONBLOCK fuel i s = (Ok tt, s') ∧ advance [] s s' ∧
    requests_ok (ns_blocked s') ∧ drained s' ∧ ns_events s' = ns_events s.
Proof.
  revert i s. induction fuel as [|fuel IH]; intros i s Hf Hi Ha Hok Hd; [lia|].
  cbn [blocked_loop]. unfold mbind, prog_bind. erewrite bind_Ok by reflexivity.
  destruct (ns_blocked s !! i) as [r|] eqn:Hl.
  2:{ exists s. split; [done|]. split; [apply advance_refl|]. split; [done|].
      split; [|done]. apply lookup_ge_None in Hl. unfold drained. destruct Hd as [-> |Hd]; [left|by right].
      destruct (ns_blocked s); [done|cbn in *; lia]. }
  pose proof (lookup_lt_Some _ _ _ Hl) as Hlt.
  assert (call_ok (cr_call r)) as Hc by (by eapply Forall_lookup_1 in Hok; [|exact Hl]).
  destruct (block_result r s Ha Hc) as (o & s1 & Hh & Hio & Ha1 & Ho).
  rewrite (bind_Ok _ _ _ _ _ Hh). pose proof Hio as (Hb & Hr & He). destruct o as [resp|].
  - destruct Ho as (Hid & consumed & Hq & Hf2). erewrite !bind_Ok by reflexivity.
    set (s2 := set_blocked _ _).
    assert (ns_blocked s2 = delete i (ns_blocked s)) as Hb2 by (cbn; by rewrite Hb).
    pose proof (ids_delete _ _ _ Hl) as Hp.
    destruct (IH i s2) as (s3 & H3 & Hadv & Hok3 & Hd3 & He3).
    + rewrite Hb2, length_delete by done. lia.
    + rewrite Hb2, length_delete by done. lia.
    + exact Ha1.
    + rewrite Hb2. by apply Forall_delete.
    + destruct Hd as [->|Hd]; [by left|right]. rewrite Hd in Hq. by destruct consumed.
    + exists s3. split; [done|].
      split; [|split; [done|split; [done|cbn in *; congruence]]]. apply (advance_trans [] [] s s2 s3); [|done].
      eapply (advance_answer r); try done. cbn [respond ns_blocked]. by rewrite Hb.
  - destruct Ho as (Hq & Hq1). destruct (IH (S i) s1) as (s3 & H3 & Hadv & Hok3 & Hd3 & He3);
      rewrite ?Hb; try done; [lia|by right|].
    exists s3. split; [done|].
      split; [|split; [done|split; [done|cbn in *; congruence]]]. apply (advance_trans [] [] s s1 s3); [|done].
    intros _. split; [done|]. exists [], []. rewrite Hr, Hb, app_nil_r. split; [done|].
    split; [by rewrite Hq, Hq1|]. by split.
Qed.

Definition kind_ok (k : RequestKind) : Prop :=
  match k with RkCall r => call_ok (cr_call r) | RkMmap => False | _ => True end.

(** The ids of the requests that must be answered. *)
Definition kind_ids (k : RequestKind) : list Z :=
  match k with RkCall r => [cr_id r] | RkSendFd id => [id] | _ => [] end.

Lemma cancel_ok id s :
  requests_ok (ns_blocked s) → drained s →
  ∃ s', cancel id s = (Ok tt, s') ∧ advance [] s s' ∧ requests_ok (ns_blocked s') ∧ drained s' ∧
    ns_events s' = ns_events s.
Proof.
  intros Hok Hd. unfold cancel, mbind, prog_bind. erewrite bind_Ok by reflexivity.
  destruct (list_find (λ r, cr_id r = id) (ns_blocked s)) as [[i r]|] eqn:Hf.
  2:{ exists s. split; [done|]. split; [apply advance_refl|done]. }
  apply list_find_Some in Hf as (Hl & Hid & _). erewrite bind_Ok by reflexivity.
  eexists. split; [reflexivity|]. split; [|split; [|split; [|done]]].
  - intros Ha. split; [exact Ha|]. exists [mk_response (cr_id r) (inl EINTR)], [].
    split; [done|]. split; [done|]. split; [constructor|]. by apply ids_delete.
  - cbn. by apply Forall_delete.
  - destruct Hd as [Hd|Hd]; [|by right]. by rewrite Hd in Hl.
Qed.

Lemma new_request_ok k s :
  ad_ok (ns_adapter s) → requests_ok (ns_blocked s) → drained s → kind_ok k →
  ∃ s', new_request O_NONBLOCK k s = (Ok tt, s') ∧ advance (kind_ids k) s s' ∧
    requests_ok (ns_blocked s') ∧ drained s' ∧ ns_events s' = ns_events s.
Proof.
  intros Ha Hok Hd Hk. destruct k as [r|id|id|]; cbn [new_request kind_ids]; [| |by apply cancel_ok|done].
  - destruct (block_result r s Ha Hk) as (o & s1 & Hh & (Hb & Hr & He) & Ha1 & Ho).
    unfold mbind, prog_bind. rewrite (bind_Ok _ _ _ _ _ Hh). destruct o as [resp|].
    + destruct Ho as (Hid & consumed & Hq & Hf2). eexists. split; [reflexivity|].
      split; [|split; [cbn; by rewrite Hb|split; [|done]]].
      * intros _. split; [exact Ha1|]. exists [resp], consumed. cbn. rewrite Hr, Hb, Hid.
        split; [done|]. by split.
      * destruct Hd as [Hd|Hd]; [left; cbn; congruence|right]. rewrite Hd in Hq. by destruct consumed.
    + destruct Ho as (Hq & Hq1). eexists. split; [reflexivity|].
      split; [|split; [|split; [by right|done]]].
      * intros _. split; [exact Ha1|]. exists [], []. cbn. rewrite Hr, Hb, app_nil_r.
        split; [done|]. split; [by unfold queue in *; cbn; rewrite Hq, Hq1|]. split; [constructor|].
        rewrite fmap_app. by rewrite Permutation_app_comm.
      * cbn. rewrite Hb. apply Forall_app. split; [done|]. by constructor.
  - eexists. split; [reflexivity|]. split; [|done]. intros _. split; [exact Ha|].
    exists [mk_response id (inl EOPNOTSUPP)], []. split; [done|]. split; [done|]. split; [constructor|done].
Qed.

Lemma new_requests_ok ks s :
  ad_ok (ns_adapter s) → requests_ok (ns_blocked s) → drained s → Forall kind_ok ks →
  ∃ s', new_requests O_NONBLOCK ks s = (Ok tt, s') ∧ advance (ks ≫= kind_ids) s s' ∧
    requests_ok (ns_blocked s') ∧ drained s' ∧ ns_events s' = ns_events s.
Proof.
  revert s. induction ks as [|k ks IH]; intros s Ha Hok Hd Hks.
  - exists s. split; [done|]. split; [apply advance_refl|done].
  - apply Forall_cons in Hks as [Hk Hks].
    destruct (new_request_ok k s Ha Hok Hd Hk) as (s1 & H1 & Hadv1 & Hok1 & Hd1 & He1).
    destruct (IH s1) as (s2 & H2 & Hadv2 & Hok2 & Hd2 & He2); [by apply Hadv1|done|done|done|].
    exists s2. cbn [new_requests]. unfold mbind, prog_bind. rewrite (bind_Ok _ _ _ _ _ H1). split; [done|].
    split; [by eapply advance_trans|]. split; [done|]. split; [done|congruence].
Qed.

Lemma post_all ids s :
  foldl (λ s id, post_fevent id s) s ids
  = mk_net (ns_adapter s) (ns_scheme_name s) (ns_next_id s) (ns_handles s) (ns_blocked s)
      (ns_responses s) (ns_events s ++ ids).
Proof.
  revert s. induction ids as [|id ids IH]; intros s; cbn [foldl].
  - destruct s. by rewrite app_nil_r.
  - rewrite IH. cbn. by rewrite <- app_assoc.
Qed.

Lemma tick_ok ks s :
  ad_ok (ns_adapter s) → requests_ok (ns_blocked s) → Forall kind_ok ks →
  ∃ s', tick O_NONBLOCK ks s = (Ok tt, s') ∧ advance (ks ≫= kind_ids) s s' ∧
    requests_ok (ns_blocked s') ∧ drained s' ∧
    ns_events s' = ns_events s ++ (if decide (queue s' = []) then [] else handle_ids (ns_handles s')).
Proof.
  intros Ha Hok Hks.
  destruct (blocked_loop_ok (S (length (ns_blocked s))) 0 s) as (s1 & H1 & Hadv1 & Hok1 & Hd1 & He1);
    [lia|lia|done|done|by left|].
  assert (ad_ok (ns_adapter s1)) as Ha1 by (by apply Hadv1).
  destruct (new_requests_ok ks s1 Ha1 Hok1 Hd1 Hks) as (s2 & H2 & Hadv2 & Hok2 & Hd2 & He2).
  assert (ad_ok (ns_adapter s2)) as Ha2 by (by apply Hadv2).
  pose proof (advance_trans _ _ _ _ _ Hadv1 Hadv2) as Hadv.
  destruct (available_law (ns_adapter s2) Ha2) as (Hav & Ha3 & Hq3).
  destruct (Hadv Ha) as (_ & new & consumed & Hr & Hq & Hf & Hp).
  unfold tick, mbind, prog_bind. erewrite bind_Ok by reflexivity.
  rewrite (bind_Ok _ _ _ _ _ H1), (bind_Ok _ _ _ _ _ H2). unfold notify_readers, mbind, prog_bind, p_bind.
  destruct (available_for_read (ns_adapter s2)) as [n a]. cbn [fst snd] in *.
  assert (∀ evs, let s' := mk_net a (ns_scheme_name s2) (ns_next_id s2) (ns_handles s2) (ns_blocked s2)
                    (ns_responses s2) evs in
            advance (ks ≫= kind_ids) s s' ∧ requests_ok (ns_blocked s') ∧ drained s' ∧ queue s' = queue s2) as Hs'.
  { intros evs s'. assert (queue s' = queue s2) as Hqs by exact Hq3. split; [|split; [done|split; [|done]]].
    - intros _. split; [exact Ha3|]. exists new, consumed. rewrite Hqs. done.
    - unfold drained. by rewrite Hqs. }
  destruct (0 <? n) eqn:Hn.
  - apply Z.ltb_lt in Hn. unfold modify. rewrite post_all. eexists. split; [reflexivity|].
    destruct (Hs' (ns_events s2 ++ handle_ids (ns_handles s2))) as (R1 & R2 & R3 & R4).
    cbn [set_adapter ns_adapter ns_scheme_name ns_next_id ns_handles ns_blocked ns_responses ns_events].
    split; [done|]. split; [done|]. split; [done|]. rewrite R4, decide_False by (by apply Hav).
    congruence.
  - apply Z.ltb_ge in Hn. eexists. split; [reflexivity|]. destruct (Hs' (ns_events s2)) as (R1 & R2 & R3 & R4).
    split; [done|]. split; [done|]. split; [done|]. change (queue (set_adapter a s2)) with (rx a).
    rewrite decide_True, app_nil_r; [cbn; congruence|].
    destruct (rx a) eqn:E; [done|]. exfalso. assert (0 < n) by (apply Hav; congruence). lia.
Qed.

(** C30. A tick serves everyone it can.  If the calls read into buffers of at least
    [M] bytes and read the address inside it, a tick returns; packets leave the
    queue in the order they came and each goes to exactly one reader; every
    request, old or new, is answered exactly once or stays blocked; no reader is
    left blocked while a packet waits; and if a packet still waits, every open
    handle is notified, otherwise none is. *)
Theorem tick_serves_readers ks s :
  ad_ok (ns_adapter s) → requests_ok (ns_blocked s) → Forall kind_ok ks →
  ∃ s' new consumed, tick O_NONBLOCK ks s = (Ok tt, s') ∧
    ns_responses s' = ns_responses s ++ new ∧
    queue s = consumed ++ queue s' ∧ Forall2 got consumed (omap packet_of new) ∧
    (rs_id <$> new) ++ (cr_id <$> ns_blocked s') ≡ₚ (ks ≫= kind_ids) ++ (cr_id <$> ns_blocked s) ∧
    (ns_blocked s' ≠ [] → queue s' = []) ∧
    ns_events s' = ns_events s ++ (if decide (queue s' = []) then [] else handle_ids (ns_handles s')).
Proof.
  intros Ha Hok Hks. destruct (tick_ok ks s Ha Hok Hks) as (s' & Ht & Hadv & _ & Hd & He).
  destruct (Hadv Ha) as (_ & new & consumed & Hr & Hq & Hf & Hp). exists s', new, consumed.
  split_and!; try done. intros Hb. by destruct Hd.
Qed.

(** ** Sessions *)

(** A session: packets [ps] arrive at the adapter between ticks, which take requests
    with the ids [ids] from the socket. *)
Inductive net_run (s : NetworkScheme A) : list (list Z) → list Z → NetworkScheme A → Prop :=
| run_start : net_run s [] [] s
| run_arrive ps ids s1 a qs :
    net_run s ps ids s1 → ad_ok a → rx a = queue s1 ++ qs →
    net_run s (ps ++ qs) ids (set_adapter a s1)
| run_tick ps ids s1 ks s2 :
    net_run s ps ids s1 → Forall kind_ok ks → tick O_NONBLOCK ks s1 = (Ok tt, s2) →
    net_run s ps (ids ++ (ks ≫= kind_ids)) s2.

Lemma net_run_fifo a name ps ids s :
  ad_ok a → net_run (net_new a name) ps ids s →
  ad_ok (ns_adapter s) ∧ requests_ok (ns_blocked s) ∧
  ∃ consumed, rx a ++ ps = consumed ++ queue s ∧ Forall2 got consumed (omap packet_of (ns_responses s)) ∧
    (rs_id <$> ns_responses s) ++ (cr_id <$> ns_blocked s) ≡ₚ ids.
Proof.
  intros Ha Hrun.
  induction Hrun as [|ps ids s1 a' qs Hrun IH Ha' Hrx|ps ids s1 ks s2 Hrun IH Hks Ht].
  - split; [done|]. split; [constructor|]. exists []. by rewrite app_nil_r.
  - destruct IH as (_ & Hok & consumed & Hq & Hf & Hp). split; [done|]. split; [done|]. exists consumed.
    split; [|done]. unfold queue at 1. cbn. rewrite Hrx, !app_assoc, Hq. done.
  - destruct IH as (Ha1 & Hok & consumed & Hq & Hf & Hp).
    destruct (tick_ok ks s1 Ha1 Hok Hks) as (s' & Ht' & Hadv & Hok2 & _). rewrite Ht in Ht'.
    injection Ht' as <-. destruct (Hadv Ha1) as (Ha2 & new & c2 & Hr2 & Hq2 & Hf2 & Hp2).
    split; [done|]. split; [done|]. exists (consumed ++ c2). rewrite Hr2, omap_app, fmap_app.
    split; [by rewrite Hq, Hq2, app_assoc|]. split; [by apply Forall2_app|].
    rewrite <- app_assoc, Hp2, <- Hp, !app_assoc. rewrite <- !app_assoc.
    apply Permutation_app_head, Permutation_app_comm.
Qed.

Lemma got_whole (p b : list Z) : got p b → b `prefix_of` p ∧ ((length p <= M)%nat → b = p).
Proof.
  intros (n & -> & Hn). split; [apply prefix_take|]. intros Hl. by rewrite take_ge by lia.
Qed.

(** Network input is a FIFO.  Over any session that starts with an empty scheme,
    the packets that arrived are those handed to readers, in order, followed by those
    still waiting: nothing is lost, repeated or reordered, whoever reads and whatever
    else is asked.  A packet of at most [M] bytes, the smallest buffer used, is handed
    over whole.  Every request was answered exactly once or is still blocked. *)
Theorem net_input_fifo a name ps ids s :
  ad_ok a → net_run (net_new a name) ps ids s →
  ∃ consumed, rx a ++ ps = consumed ++ queue s ∧
    Forall2 (λ p b, b `prefix_of` p ∧ ((length p <= M)%nat → b = p))
      consumed (omap packet_of (ns_responses s)) ∧
    (rs_id <$> ns_responses s) ++ (cr_id <$> ns_blocked s) ≡ₚ ids.
Proof.
  intros Ha Hrun. destruct (net_run_fifo a name ps ids s Ha Hrun) as (_ & _ & consumed & Hq & Hf & Hp).
  exists consumed. split; [done|]. split; [|done]. eapply Forall2_impl; [exact Hf|]. apply got_whole.
Qed.

End calls.

(** ** An adapter for the examples *)

(** A queue of packets, and the packets that were sent. *)
Record LoopNic := mk_loop { lo_in : list (list Z); lo_out : list (list Z) }.

#[local] Instance loop_adapter : NetworkAdapter LoopNic := {
  mac_address a := ([2; 0; 0; 0; 0; 1], a);
  available_for_read a := (Z.of_nat (length (lo_in a)), a);
  read_packet n := λ a, (Ok (take n <$> head (lo_in a)), mk_loop (tail (lo_in a)) (lo_out a));
  write_packet buf := λ a, (Ok (Z.of_nat (length buf)), mk_loop (lo_in a) (lo_out a ++ [buf]));
}.

#[local] Instance loop_laws : AdapterLaws LoopNic.
Proof.
  refine (Build_AdapterLaws _ _ (λ _, True) lo_in _ _ _ _); try done.
  intros a _. cbn. split; [|done]. destruct (lo_in a); cbn; split; (done || lia).
Defined.

(** Opening the data file, two readers, and the address. *)
Definition demo_requests : list RequestKind :=
  [RkCall (mk_call 10 (NcOpen "" 0)); RkCall (mk_call 11 (NcRead 1 4 0 0));
   RkCall (mk_call 12 (NcRead 1 4 0 0)); RkCall (mk_call 13 (NcWrite 1 [7]))].

Lemma tick_serves_readers_witness :
  ∃ s' new consumed, tick (A := LoopNic) 4 demo_requests (net_new (mk_loop [[1; 2; 3]] []) []) = (Ok tt, s') ∧
    ns_responses s' = new ∧ [[1; 2; 3]] = consumed ++ queue s' ∧
    Forall2 (got 4) consumed (omap packet_of new) ∧ ns_events s' = [] ∧ cr_id <$> ns_blocked s' = [12].
Proof.
  destruct (tick_serves_readers (A := LoopNic) 4 4 demo_requests (net_new (mk_loop [[1; 2; 3]] []) []))
    as (s' & new & consumed & Ht & Hr & Hq & Hf & Hp & Hd & He); [done|constructor| |].
  - by repeat constructor; cbn; lia.
  - exists s', new, consumed. vm_compute in Ht. injection Ht as <-. cbn in Hr. subst new.
    split; [by vm_compute|]. done.
Defined.

Lemma net_input_fifo_witness :
  let s0 := net_new (mk_loop [[1; 2; 3]] []) [] in
  let s := (tick (A := LoopNic) 4 demo_requests s0).2 in
  ∃ consumed, [[1; 2; 3]] = consumed ++ queue s ∧
    Forall2 (λ p b, b `prefix_of` p ∧ ((length p <= 4)%nat → b = p)) consumed (omap packet_of (ns_responses s)) ∧
    omap packet_of (ns_responses s) = [[1; 2; 3]].
Proof.
  intros s0 s.
  destruct (net_input_fifo (A := LoopNic) 4 4 (mk_loop [[1; 2; 3]] []) [] [] [10; 11; 12; 13] s)
    as (consumed & Hq & Hf & _); [done| |].
  - apply (run_tick 4 4 s0 [] [] s0 demo_requests s); [apply run_start| |by vm_compute].
    by repeat constructor; cbn; lia.
  - exists consumed. split; [exact Hq|]. split; [exact Hf|]. by vm_compute.
Defined.

(** Reading the address from behind its end panics, whatever the buffer. *)
Lemma mac_read_past_end `{HA : NetworkAdapter A} (nb : Z) (s : NetworkScheme A) id len offset flags :
  ns_handles s !! id = Some NhMac → Z.of_nat (length (mac_address (ns_adapter s)).1) < offset →
  (net_read nb id len offset flags s).1 = Panic.
Proof.
  intros Hh Ho. unfold net_read, net_handle, mbind, prog_bind, p_bind. rewrite Hh.
  destruct (mac_address (ns_adapter s)) as [mac a]. cbn [fst] in Ho.
  by rewrite (proj2 (Z.ltb_lt _ _) Ho).
Qed.
