(* ===== verification/NetCard.v ===== *)
(** What the drivers of network cards share: access to the registers of a driver's
    state, and the receive ring, a ring of [N] slots that the controller fills and
    the driver empties, as a queue of packets.  [slot i] is the packet in slot [i],
    or [None] while the slot belongs to the controller.  The drivers (NetRtl8168,
    NetE1000) instantiate it with their descriptors. *)

From S2P Require Import Prelude Io.

(** ** What the drivers share *)

(** The value of a call that is still spinning when the fuel is used up. *)
Definition still_spinning : errno := EOther (-1).

Definition mac_of (low high : Z) : list Z :=
  [as_u8 low; as_u8 (Z.shiftr low 8); as_u8 (Z.shiftr low 16); as_u8 (Z.shiftr low 24);
   as_u8 high; as_u8 (Z.shiftr high 8)].

Definition addr_low (p : Z) : Z := as_u32 p.
Definition addr_high (p : Z) : Z := as_u32 (Z.shiftr p 32).

(** An index past the end wraps. *)
Definition wrap_index (i len : nat) : nat := if (len <=? i)%nat then O else i.

Lemma wrap_index_lt i n : (0 < n)%nat → (wrap_index i n < n)%nat.
Proof. intros Hn. unfold wrap_index. destruct (Nat.leb_spec n i); lia. Qed.

Lemma wrap_index_succ i n : (i < n)%nat → wrap_index (S i) n = ((i + 1) mod n)%nat.
Proof.
  intros Hi. unfold wrap_index. destruct (Nat.leb_spec n (S i)).
  - assert (i + 1 = n)%nat as -> by lia. by rewrite Nat.Div0.mod_same.
  - rewrite Nat.mod_small; lia.
Qed.

Lemma wrap_index_id i n : (i < n)%nat → wrap_index i n = i.
Proof. intros Hi. unfold wrap_index. destruct (Nat.leb_spec n i); lia. Qed.

Lemma first_pair {A B : Type} (x : A * B) (a : A) : x.1 = a → x = (a, x.2).
Proof. destruct x. cbn. by intros ->. Qed.

(** ** Registers *)

(** A driver state [S] with the registers of its device. *)
Class HasRegs (S W : Type) := {
  dev_regs : S → W;
  set_dev_regs : W → S → S;
  regs_id s : set_dev_regs (dev_regs s) s = s;
  regs_set w w' s : set_dev_regs w' (set_dev_regs w s) = set_dev_regs w' s;
}.

Section registers.
Context {S W R : Type} `{HR : HasRegs S W} `{HIo : Io W R}.
Abbreviation rp := (prog S errno).

Definition on_dev {A : Type} (g : W → A * W) : rp A := λ s,
  let '(v, w) := g (dev_regs s) in (Ok v, set_dev_regs w s).

Definition rread (r : R) : rp Z := on_dev (io_read r).

Definition rwrite (r : R) (v : Z) : rp unit := on_dev (λ w, (tt, io_write r v w)).

Definition rreadf (r : R) (flags : Z) : rp bool := on_dev (readf r flags).

Definition rwritef (r : R) (flags : Z) (v : bool) : rp unit := on_dev (λ w, (tt, writef r flags v w)).

(** [while reg.readf(flags) {}]. *)
Fixpoint wait_clear (fuel : nat) (r : R) (flags : Z) : rp unit :=
  match fuel with
  | O => throw still_spinning
  | Datatypes.S fuel => b ← rreadf r flags; if b : bool then wait_clear fuel r flags else mret tt
  end.

(** A program that changes nothing but the registers. *)
Definition on_regs {A : Type} (m : rp A) : Prop :=
  ∀ s, ∃ (r : res errno A) w, m s = (r, set_dev_regs w s) ∧ r ≠ Panic.

Lemma on_regs_dev {A : Type} (g : W → A * W) : on_regs (on_dev g).
Proof. intros s. unfold on_dev. destruct (g (dev_regs s)) as [v w]. by exists (Ok v), w. Qed.

Lemma on_regs_ret {A : Type} (r : res errno A) : r ≠ Panic → on_regs (λ s, (r, s)).
Proof. intros Hr s. exists r, (dev_regs s). by rewrite regs_id. Qed.

Lemma on_regs_bind {A B : Type} (m : rp A) (f : A → rp B) :
  on_regs m → (∀ a, on_regs (f a)) → on_regs (p_bind f m).
Proof.
  intros Hm Hf s. destruct (Hm s) as (r & w & E & Hr). unfold p_bind. rewrite E.
  destruct r as [a|e|]; [|by exists (Err e), w|done].
  destruct (Hf a (set_dev_regs w s)) as (r' & w' & E' & Hr'). exists r', w'. by rewrite E', regs_set.
Qed.

Lemma on_regs_gets {A : Type} (g : S → A) : on_regs (gets g).
Proof. intros s. exists (Ok (g s)), (dev_regs s). by rewrite regs_id. Qed.

Lemma on_regs_wait fuel (r : R) flags : on_regs (wait_clear fuel r flags).
Proof.
  induction fuel as [|fuel IH]; [by apply on_regs_ret|]. cbn [wait_clear]. apply on_regs_bind.
  - apply on_regs_dev.
  - intros [|]; [done|by apply on_regs_ret].
Qed.

(** A register access first. *)
Lemma after_regs {A B : Type} (m : rp A) (f : A → rp B) (Q : res errno B → S → Prop) s :
  on_regs m → (∀ e w, Q (Err e) (set_dev_regs w s)) →
  (∀ a w, Q (f a (set_dev_regs w s)).1 (f a (set_dev_regs w s)).2) → Q (p_bind f m s).1 (p_bind f m s).2.
Proof.
  intros Hm He Hq. destruct (Hm s) as (r & w & E & Hr). unfold p_bind. rewrite E.
  destruct r as [a|e|]; [apply Hq|apply He|done].
Qed.

Lemma after_modify {B : Type} (g : S → S) (f : unit → rp B) (Q : res errno B → S → Prop) s :
  Q (f tt (g s)).1 (f tt (g s)).2 → Q (p_bind f (modify g) s).1 (p_bind f (modify g) s).2.
Proof. done. Qed.

End registers.

Create HintDb regs.
#[export] Hint Resolve on_regs_dev on_regs_gets on_regs_wait on_regs_bind on_regs_ret : regs.
#[export] Hint Extern 1 (on_regs (rread _)) => apply on_regs_dev : regs.
#[export] Hint Extern 1 (on_regs (rwrite _ _)) => apply on_regs_dev : regs.
#[export] Hint Extern 1 (on_regs (rreadf _ _)) => apply on_regs_dev : regs.
#[export] Hint Extern 1 (on_regs (rwritef _ _ _)) => apply on_regs_dev : regs.

(** ** The ring *)

Section ring.
Context (N : nat).
Implicit Types (slot : nat → option (list Z)) (i j k : nat).

(** The packets from slot [i] on, up to the first slot of the controller. *)
Fixpoint ring_walk (n i : nat) (slot : nat → option (list Z)) : list (list Z) :=
  match n with
  | O => []
  | S n => match slot i with
           | Some p => p :: ring_walk n ((i + 1) mod N) slot
           | None => []
           end
  end.

Definition ring_queue (i : nat) (slot : nat → option (list Z)) : list (list Z) := ring_walk N i slot.

(** From [i] on, [k] slots hold packets and the others belong to the controller. *)
Definition ring_split (k i : nat) (slot : nat → option (list Z)) : Prop :=
  (k <= N)%nat ∧ ∀ j, (j < N)%nat → is_Some (slot ((i + j) mod N)%nat) ↔ (j < k)%nat.

(** [slot'] differs from [slot] in slot [x] only. *)
Definition slot_update (x : nat) (v : option (list Z)) slot slot' : Prop :=
  slot' x = v ∧ ∀ j, (j < N)%nat → j ≠ x → slot' j = slot j.

Lemma mod_past n : (N <= n < 2 * N)%nat → (n mod N = n - N)%nat.
Proof.
  intros Hn. replace n with (n - N + 1 * N)%nat at 1 by lia.
  rewrite Nat.Div0.mod_add, Nat.mod_small by lia. done.
Qed.

(** Two places of the ring seen from [i]. *)
Lemma mod_ne i j k : (i < N)%nat → (j < N)%nat → (k < N)%nat → j ≠ k →
  ((i + j) mod N ≠ (i + k) mod N)%nat.
Proof.
  intros Hi Hj Hk Hne Heq.
  destruct (decide (i + j < N)%nat), (decide (i + k < N)%nat);
    rewrite ?(Nat.mod_small (i + j)), ?(Nat.mod_small (i + k)) in Heq by lia;
    rewrite ?(mod_past (i + j)), ?(mod_past (i + k)) in Heq by lia; lia.
Qed.

Lemma mod_lt n : (0 < N)%nat → (n mod N < N)%nat.
Proof. intros Hn. apply Nat.mod_upper_bound. lia. Qed.

(** The walk in closed form. *)
Lemma walk_split slot i k n m :
  ring_split k i slot → (m + n = N)%nat →
  ring_walk n ((i + m) mod N) slot = (λ j, default [] (slot ((i + j) mod N)%nat)) <$> seq m (k - m).
Proof.
  intros [Hk Hs]. revert m. induction n as [|n IH]; intros m Hm.
  - by replace (k - m)%nat with 0%nat by lia.
  - cbn [ring_walk]. pose proof (Hs m ltac:(lia)) as Hx. destruct (slot ((i + m) mod N)%nat) as [p|] eqn:Hp.
    + assert (m < k)%nat by (apply Hx; by eexists). replace (k - m)%nat with (S (k - S m)) by lia.
      cbn [seq fmap list_fmap]. rewrite Hp. cbn [default]. f_equal.
      rewrite Nat.Div0.add_mod_idemp_l. replace (i + m + 1)%nat with (i + S m)%nat by lia. apply IH. lia.
    + destruct (decide (m < k)%nat) as [Hlt|]; [by apply Hx in Hlt as []|].
      by replace (k - m)%nat with 0%nat by lia.
Qed.

Lemma queue_split slot i k : (i < N)%nat → ring_split k i slot →
  ring_queue i slot = (λ j, default [] (slot ((i + j) mod N)%nat)) <$> seq 0 k.
Proof.
  intros Hi Hk. pose proof (walk_split slot i k N 0 Hk eq_refl) as Hw.
  by rewrite Nat.add_0_r, Nat.mod_small, Nat.sub_0_r in Hw.
Qed.

Lemma split_head slot i k : (i < N)%nat → ring_split k i slot → is_Some (slot i) ↔ (0 < k)%nat.
Proof.
  intros Hi [_ Hs]. specialize (Hs 0%nat ltac:(lia)). by rewrite Nat.add_0_r, Nat.mod_small in Hs.
Qed.

Lemma queue_head slot i k : (i < N)%nat → ring_split k i slot → head (ring_queue i slot) = slot i.
Proof.
  intros Hi Hk. pose proof (split_head slot i k Hi Hk) as Hh. rewrite (queue_split slot i k Hi Hk).
  destruct k as [|k].
  - destruct (slot i) as [p|]; [|done]. assert (0 < 0)%nat by (apply Hh; by eexists). lia.
  - cbn. rewrite Nat.add_0_r, Nat.mod_small by done. destruct Hh as [_ Hh].
    destruct Hh as [p ->]; [lia|done].
Qed.

(** The driver takes the first packet and gives its slot back. *)
Lemma ring_take slot slot' i k p :
  (i < N)%nat → ring_split k i slot → slot i = Some p → slot_update i None slot slot' →
  ring_split (k - 1) ((i + 1) mod N) slot' ∧
  ring_queue ((i + 1) mod N) slot' = tail (ring_queue i slot).
Proof.
  intros Hi Hk Hp [Hn Ho]. assert (0 < k)%nat as Hpos by (apply (split_head slot i k Hi Hk); by eexists).
  pose proof Hk as [HkN Hs].
  assert (∀ j, (j < N - 1)%nat → slot' ((i + 1 + j) mod N)%nat = slot ((i + S j) mod N)%nat) as Hsh.
  { intros j Hj. replace (i + 1 + j)%nat with (i + S j)%nat by lia. apply Ho; [apply mod_lt; lia|].
    rewrite <- (Nat.mod_small i N Hi) at 2. rewrite <- (Nat.add_0_r i) at 2. apply mod_ne; lia. }
  assert (ring_split (k - 1) ((i + 1) mod N) slot') as Hk'.
  { split; [lia|]. intros j Hj. rewrite Nat.Div0.add_mod_idemp_l.
    destruct (decide (j = N - 1)%nat) as [->|Hne].
    - replace (i + 1 + (N - 1))%nat with (i + 1 * N)%nat by lia.
      rewrite Nat.Div0.mod_add, Nat.mod_small, Hn by lia. split; [by intros []|lia].
    - rewrite Hsh, (Hs (S j)) by lia. lia. }
  split; [done|]. rewrite (queue_split _ _ _ (mod_lt _ ltac:(lia)) Hk'), (queue_split _ _ _ Hi Hk).
  destruct k as [|k]; [lia|]. cbn [seq fmap list_fmap tail]. rewrite <- (fmap_S_seq 0 k), <- list_fmap_compose.
  replace (S k - 1)%nat with k by lia. apply list_fmap_ext. intros j y Hy. apply lookup_seq in Hy as [-> Hy].
  cbn [compose]. rewrite Nat.Div0.add_mod_idemp_l, Hsh by lia. done.
Qed.

(** The controller fills its first slot. *)
Lemma ring_store slot slot' i k p :
  (i < N)%nat → ring_split k i slot → (k < N)%nat → slot_update ((i + k) mod N) (Some p) slot slot' →
  ring_split (S k) i slot' ∧ ring_queue i slot' = ring_queue i slot ++ [p].
Proof.
  intros Hi Hk Hlt [Hn Ho]. pose proof Hk as [HkN Hs].
  assert (∀ j, (j < N)%nat → j ≠ k → slot' ((i + j) mod N)%nat = slot ((i + j) mod N)%nat) as Hsame.
  { intros j Hj Hne. apply Ho; [apply mod_lt; lia|]. by apply mod_ne. }
  assert (ring_split (S k) i slot') as Hk'.
  { split; [lia|]. intros j Hj. destruct (decide (j = k)) as [->|Hne].
    - rewrite Hn. split; [lia|]. by eexists.
    - rewrite Hsame, (Hs j Hj) by done. lia. }
  split; [done|]. rewrite (queue_split _ _ _ Hi Hk'), (queue_split _ _ _ Hi Hk), seq_S, fmap_app. f_equal.
  - apply list_fmap_ext. intros j y Hy. apply lookup_seq in Hy as [-> Hy]. by rewrite Hsame by lia.
  - cbn. by rewrite Hn.
Qed.

(** An empty ring. *)
Lemma ring_empty slot i : (i < N)%nat → (∀ j, (j < N)%nat → slot j = None) →
  ring_split 0 i slot ∧ ring_queue i slot = [].
Proof.
  intros Hi Hn. assert (ring_split 0 i slot) as Hs.
  { split; [lia|]. intros j Hj. rewrite Hn by (apply mod_lt; lia). split; [by intros []|lia]. }
  split; [done|]. by rewrite (queue_split _ _ _ Hi Hs).
Qed.

End ring.
