(* ===== verification/NetRtl8168.v ===== *)
(** The Realtek 8168 network driver (net/rtl8168d/src/device.rs): rings of
    descriptors shared with the controller, as an adapter of [NetScheme].

    The registers are an [Io] interface on the device state [W]; what the
    controller does to the transmit ring while the driver spins on it is
    [RtlHw].  The rings and buffers are memory that both sides write: a
    descriptor belongs to the controller while its OWN bit is set. *)

From S2P Require Import Prelude Io NetScheme NetCard.

(** ** Registers and descriptors *)

(** The registers the driver uses, with [Regs]'s names. *)
Inductive RtlReg : Type :=
| RgMac (i : nat) | RgTnpds (i : nat) | RgThpds (i : nat) | RgCmd | RgTppoll | RgImr | RgIsr
| RgTcr | RgRcr | RgCmd9346 | RgTimerInt | RgRms | RgRdsar (i : nat) | RgMtps.

Definition OWN : Z := Z.shiftl 1 31.
Definition EOR : Z := Z.shiftl 1 30.
Definition FS : Z := Z.shiftl 1 29.
Definition LS : Z := Z.shiftl 1 28.

(** [Rd] and [Td]. *)
Record Desc := mk_desc { de_ctrl : Z; de_buffer_low : Z; de_buffer_high : Z }.

Definition zero_desc : Desc := mk_desc 0 0 0.

Definition with_ctrl (c : Z) (d : Desc) : Desc := mk_desc c (de_buffer_low d) (de_buffer_high d).

Definition owned (d : Desc) : bool := Z.land (de_ctrl d) OWN =? OWN.

Definition rd_len (d : Desc) : Z := Z.land (de_ctrl d) 0x3FFF.

Definition RX_RING : nat := 64.
Definition TX_RING : nat := 16.
Definition RX_BUF : nat := 0x1FF8.
Definition TX_BUF : nat := 7552.

(** A ring with its buffers: their physical addresses, their contents, and the
    physical address of the ring. *)
Record RingMem := mk_ring_mem {
  rm_phys : Z; rm_descs : list Desc; rm_buffers : list (list Z); rm_buffer_phys : list Z;
}.

Definition set_descs (l : list Desc) (r : RingMem) : RingMem :=
  mk_ring_mem (rm_phys r) l (rm_buffers r) (rm_buffer_phys r).

Definition set_buffers (l : list (list Z)) (r : RingMem) : RingMem :=
  mk_ring_mem (rm_phys r) (rm_descs r) l (rm_buffer_phys r).

Record Rtl8168 (W : Type) := mk_rtl {
  rt_regs : W;
  rt_receive : RingMem;
  rt_receive_i : nat;
  rt_transmit : RingMem;
  rt_transmit_i : nat;
  rt_transmit_h : RingMem;
  rt_mac_address : list Z;
}.
Arguments mk_rtl {_} _ _ _ _ _ _ _.
Arguments rt_regs {_} _.
Arguments rt_receive {_} _.
Arguments rt_receive_i {_} _.
Arguments rt_transmit {_} _.
Arguments rt_transmit_i {_} _.
Arguments rt_transmit_h {_} _.
Arguments rt_mac_address {_} _.

(** What the controller does to the transmit ring between two looks at it. *)
Class RtlHw (W : Type) := { hw_spin : W → list Desc → W * list Desc }.

Section driver.
Context {W : Type} `{HIo : Io W RtlReg} `{HH : RtlHw W}.

Abbreviation rp := (prog (Rtl8168 W) errno).

Definition set_regs (w : W) (s : Rtl8168 W) : Rtl8168 W :=
  mk_rtl w (rt_receive s) (rt_receive_i s) (rt_transmit s) (rt_transmit_i s) (rt_transmit_h s)
    (rt_mac_address s).

#[export] Instance rtl_regs : HasRegs (Rtl8168 W) W.
Proof. by refine (Build_HasRegs _ _ rt_regs set_regs _ _); [intros []|]. Defined.

Definition set_receive (r : RingMem) (i : nat) (s : Rtl8168 W) : Rtl8168 W :=
  mk_rtl (rt_regs s) r i (rt_transmit s) (rt_transmit_i s) (rt_transmit_h s) (rt_mac_address s).

Definition set_transmit (r : RingMem) (i : nat) (s : Rtl8168 W) : Rtl8168 W :=
  mk_rtl (rt_regs s) (rt_receive s) (rt_receive_i s) r i (rt_transmit_h s) (rt_mac_address s).

Definition set_transmit_h (r : RingMem) (s : Rtl8168 W) : Rtl8168 W :=
  mk_rtl (rt_regs s) (rt_receive s) (rt_receive_i s) (rt_transmit s) (rt_transmit_i s) r
    (rt_mac_address s).

Definition set_mac (m : list Z) (s : Rtl8168 W) : Rtl8168 W :=
  mk_rtl (rt_regs s) (rt_receive s) (rt_receive_i s) (rt_transmit s) (rt_transmit_i s)
    (rt_transmit_h s) m.

(** [std::hint::spin_loop()] while waiting for a descriptor. *)
Definition spin : rp unit :=
  modify (λ s, let '(w, l) := hw_spin (rt_regs s) (rm_descs (rt_transmit s)) in
    set_transmit (set_descs l (rt_transmit s)) (rt_transmit_i s) (set_regs w s)).

(** ** The adapter *)

Definition next_read (s : Rtl8168 W) : Z :=
  let i := wrap_index (rt_receive_i s) (length (rm_descs (rt_receive s))) in
  match rm_descs (rt_receive s) !! i with
  | Some rd => if owned rd then 0 else rd_len rd
  | None => 0
  end.

Definition rtl_read_packet (len : nat) : rp (option (list Z)) := λ s,
  let r := rt_receive s in
  let i := wrap_index (rt_receive_i s) (length (rm_descs r)) in
  match rm_descs r !! i, rm_buffers r !! i with
  | Some rd, Some data =>
      if owned rd then (Ok None, set_receive r i s)
      else
        let n := (len `min` Z.to_nat (rd_len rd))%nat in
        if (length data <? n)%nat then (Panic, set_receive r i s)
        else
          let eor := Z.land (de_ctrl rd) EOR in
          let rd' := with_ctrl (Z.lor (Z.lor OWN eor) (Z.of_nat (length data))) rd in
          (Ok (Some (take n data)), set_receive (set_descs (<[i := rd']> (rm_descs r)) r) (S i) s)
  | _, _ => (Panic, set_receive r i s)
  end.

(** The loop of [write_packet]: a pass for each look at the descriptor. *)
Fixpoint rtl_write_packet (fuel : nat) (buf : list Z) : rp Z :=
  match fuel with
  | O => throw still_spinning
  | S fuel =>
      _ ← modify (λ s, set_transmit (rt_transmit s)
                         (wrap_index (rt_transmit_i s) (length (rm_descs (rt_transmit s)))) s);
      t ← gets rt_transmit;
      i ← gets rt_transmit_i;
      td ← unwrap (rm_descs t !! i);
      if owned td then _ ← spin; rtl_write_packet fuel buf
      else
        data ← unwrap (rm_buffers t !! i);
        if (length data <? length buf)%nat then throw (EOther 90)
        else
          let eor := Z.land (de_ctrl td) EOR in
          let n := length buf in
          let ctrl := Z.lor (Z.lor (Z.lor (Z.lor OWN eor) FS) LS) (Z.of_nat n) in
          _ ← modify (set_transmit
                 (set_descs (<[i := with_ctrl ctrl td]> (rm_descs t))
                    (set_buffers (<[i := buf ++ drop n data]> (rm_buffers t)) t)) i);
          _ ← rwritef RgTppoll (Z.shiftl 1 6) true;
          _ ← wait_clear fuel RgTppoll (Z.shiftl 1 6);
          _ ← modify (λ s, set_transmit (rt_transmit s) (S i) s);
          mret (Z.of_nat n)
  end.

Definition rtl_irq : rp bool :=
  isr ← rread RgIsr;
  _ ← rwrite RgIsr isr;
  imr ← rread RgImr;
  mret (negb (Z.land isr imr =? 0)).

(** ** Initialisation *)

(** The descriptors of a ring with their buffers; [ctrl] is written when given. *)
Definition init_desc (ctrl : option Z) (phys : Z) (d : Desc) : Desc :=
  mk_desc (default (de_ctrl d) ctrl) (addr_low phys) (addr_high phys).

(** [last_mut] and [ctrl.writef(EOR, true)]. *)
Definition mark_last (l : list Desc) : list Desc :=
  alter (λ d, with_ctrl (Z.lor (de_ctrl d) EOR) d) (length l - 1)%nat l.

Definition init_ring (ctrl : option Z) (r : RingMem) : RingMem :=
  set_descs (mark_last (zip_with (init_desc ctrl) (rm_buffer_phys r) (rm_descs r))) r.

Definition rtl_init (fuel : nat) : rp unit :=
  mac_low ← rread (RgMac 0);
  mac_high ← rread (RgMac 1);
  _ ← modify (set_mac (mac_of mac_low mac_high));
  _ ← rwritef RgCmd (Z.shiftl 1 4) true;
  _ ← wait_clear fuel RgCmd (Z.shiftl 1 4);
  _ ← modify (λ s, set_receive (init_ring (Some (Z.lor OWN (Z.of_nat RX_BUF))) (rt_receive s)) (rt_receive_i s) s);
  _ ← modify (λ s, set_transmit (init_ring None (rt_transmit s)) (rt_transmit_i s) s);
  _ ← modify (λ s, set_transmit_h (init_ring None (rt_transmit_h s)) s);
  _ ← rwrite RgCmd9346 (Z.lor (Z.shiftl 1 7) (Z.shiftl 1 6));
  _ ← rwritef RgCmd (Z.lor (Z.shiftl 1 3) (Z.shiftl 1 2)) true;
  _ ← rwrite RgRms 0x1FF8;
  _ ← rwrite RgMtps 0x3B;
  s ← gets id;
  _ ← rwrite (RgTnpds 0) (addr_low (rm_phys (rt_transmit s)));
  _ ← rwrite (RgTnpds 1) (addr_high (rm_phys (rt_transmit s)));
  _ ← rwrite (RgThpds 0) (addr_low (rm_phys (rt_transmit_h s)));
  _ ← rwrite (RgThpds 1) (addr_high (rm_phys (rt_transmit_h s)));
  _ ← rwrite (RgRdsar 0) (addr_low (rm_phys (rt_receive s)));
  _ ← rwrite (RgRdsar 1) (addr_high (rm_phys (rt_receive s)));
  _ ← rwrite RgTimerInt 0;
  isr ← rread RgIsr;
  _ ← rwrite RgIsr isr;
  _ ← rwrite RgImr 0xC0FF;
  _ ← rwrite RgTcr (Z.lor (Z.shiftl 3 24) (Z.shiftl 7 8));
  _ ← rwrite RgRcr 0xE70E;
  rwrite RgCmd9346 0.

(** [Rtl8168::new] on zeroed memory at the given physical addresses. *)
Definition zero_ring (n buf : nat) (phys : Z) (bufs : list Z) : RingMem :=
  mk_ring_mem phys (replicate n zero_desc) (replicate n (replicate buf 0)) bufs.

Definition rtl_zero (w : W) (rxp txp hp : Z) (rxb txb hb : list Z) : Rtl8168 W :=
  mk_rtl w (zero_ring RX_RING RX_BUF rxp rxb) 0 (zero_ring TX_RING TX_BUF txp txb) 0
    (zero_ring 1 TX_BUF hp hb) (replicate 6 0).

Definition rtl_new (fuel : nat) (w : W) (rxp txp hp : Z) (rxb txb hb : list Z)
    : res errno unit * Rtl8168 W :=
  rtl_init fuel (rtl_zero w rxp txp hp rxb txb hb).

(** The trait. *)
#[export] Instance rtl_adapter (fuel : nat) : NetworkAdapter (Rtl8168 W) := {
  mac_address s := (rt_mac_address s, s);
  available_for_read s := (next_read s, s);
  read_packet := rtl_read_packet;
  write_packet := rtl_write_packet fuel;
}.

End driver.

(** ** The receive ring as a queue *)

Section queue.
Context {W : Type} `{HIo : Io W RtlReg} `{HH : RtlHw W}.
Implicit Types (s : Rtl8168 W) (r : RingMem).

Definition packet_at r (i : nat) : option (list Z) :=
  rd ← rm_descs r !! i;
  data ← rm_buffers r !! i;
  if owned rd then None else Some (take (Z.to_nat (rd_len rd)) data).

Definition rtl_rx s : list (list Z) :=
  ring_queue RX_RING (wrap_index (rt_receive_i s) RX_RING) (packet_at (rt_receive s)).

(** A descriptor of the receive ring: the end-of-ring mark is on the last one, and
    one that the controller gave back has a packet that fits. *)
Definition desc_ok (i : nat) (d : Desc) : Prop :=
  Z.testbit (de_ctrl d) 30 = Nat.eqb i (RX_RING - 1) ∧
  (owned d = false → 0 < rd_len d <= Z.of_nat RX_BUF).

Record rx_ok r : Prop := {
  ro_descs : length (rm_descs r) = RX_RING;
  ro_buffers : length (rm_buffers r) = RX_RING;
  ro_sizes : Forall (λ b, length b = RX_BUF) (rm_buffers r);
  ro_desc : ∀ i d, rm_descs r !! i = Some d → desc_ok i d;
}.

Definition split_at (k i : nat) r : Prop := ring_split RX_RING k i (packet_at r).

Record rtl_ok s : Prop := {
  rk_rx : rx_ok (rt_receive s);
  rk_split : ∃ k, split_at k (wrap_index (rt_receive_i s) RX_RING) (rt_receive s);
  rk_mac : length (rt_mac_address s) = 6%nat;
  rk_tx : length (rm_descs (rt_transmit s)) = TX_RING;
  rk_txb : length (rm_buffers (rt_transmit s)) = TX_RING;
}.

Lemma ring_at r i : rx_ok r → (i < RX_RING)%nat →
  ∃ d b, rm_descs r !! i = Some d ∧ rm_buffers r !! i = Some b ∧ length b = RX_BUF ∧ desc_ok i d.
Proof.
  intros [] Hi. destruct (lookup_lt_is_Some_2 (rm_descs r) i) as [d Hd]; [lia|].
  destruct (lookup_lt_is_Some_2 (rm_buffers r) i) as [b Hb]; [lia|].
  exists d, b. split; [done|]. split; [done|]. split; [|by apply ro_desc0].
  by eapply Forall_lookup_1 in ro_sizes0; [|exact Hb].
Qed.

Lemma land_own c : Z.land c OWN = (if Z.testbit c 31 then OWN else 0).
Proof.
  change OWN with (2 ^ 31). pose proof (land_pow2_eqb_0 c 31 ltac:(lia)) as H0.
  pose proof (land_pow2_eqb c 31 ltac:(lia)) as H1.
  destruct (Z.testbit c 31); [by apply Z.eqb_eq|]. cbn [negb] in *. by apply Z.eqb_eq.
Qed.

Lemma owned_bit d : owned d = Z.testbit (de_ctrl d) 31.
Proof. unfold owned. rewrite land_own. by destruct (Z.testbit (de_ctrl d) 31). Qed.

(** What the driver writes back owns the descriptor and keeps its mark. *)
Lemma given_back d n i :
  desc_ok i d → (n <= RX_BUF)%nat →
  let c := Z.lor (Z.lor OWN (Z.land (de_ctrl d) EOR)) (Z.of_nat n) in
  owned (with_ctrl c d) = true ∧ desc_ok i (with_ctrl c d).
Proof.
  intros [He _] Hn c. assert (0 <= Z.of_nat n < 2 ^ 14) as Hr by (unfold RX_BUF in Hn; lia).
  assert (owned (with_ctrl c d) = true) as Ho.
  { rewrite owned_bit. cbn [with_ctrl de_ctrl]. unfold c, OWN. by rewrite !Z.lor_spec. }
  split; [done|]. split; [|by rewrite Ho]. cbn [with_ctrl de_ctrl]. unfold c, OWN, EOR.
  rewrite !Z.lor_spec, Z.land_spec, He, (testbit_above 14 (Z.of_nat n) 30) by (done || lia).
  change (Z.testbit (Z.shiftl 1 31) 30) with false. change (Z.testbit (Z.shiftl 1 30) 30) with true.
  by destruct (Nat.eqb i (RX_RING - 1)).
Qed.

Lemma rx_desc r i d : rx_ok r → (i < RX_RING)%nat → desc_ok i d →
  rx_ok (set_descs (<[i := d]> (rm_descs r)) r).
Proof.
  intros [] Hi Hd. split; cbn; [by rewrite length_insert|done|done|]. intros j e He.
  destruct (decide (i = j)) as [<-|Hne].
  - rewrite list_lookup_insert_eq in He by lia. by injection He as <-.
  - rewrite list_lookup_insert_ne in He by done. by apply ro_desc0.
Qed.

Lemma packet_desc r i d b :
  rm_descs r !! i = Some d → rm_buffers r !! i = Some b →
  packet_at r i = if owned d then None else Some (take (Z.to_nat (rd_len d)) b).
Proof. intros Hd Hb. unfold packet_at. by rewrite Hd, Hb. Qed.

(** Giving a descriptor back empties its slot. *)
Lemma give_slot r i d :
  rx_ok r → (i < RX_RING)%nat → owned d = true →
  slot_update RX_RING i None (packet_at r) (packet_at (set_descs (<[i := d]> (rm_descs r)) r)).
Proof.
  intros Hrx Hi Ho. destruct (ring_at r i Hrx Hi) as (e & b & He & Hb & _). split.
  - rewrite (packet_desc _ i d b); [by rewrite Ho| |done]. cbn.
    apply list_lookup_insert_eq. by rewrite (ro_descs _ Hrx).
  - intros j _ Hne. unfold packet_at. cbn. by rewrite list_lookup_insert_ne.
Qed.

Lemma rx_index s : (wrap_index (rt_receive_i s) RX_RING < RX_RING)%nat.
Proof. apply wrap_index_lt. unfold RX_RING. lia. Qed.

Lemma rtl_rx_head s : rtl_ok s →
  head (rtl_rx s) = packet_at (rt_receive s) (wrap_index (rt_receive_i s) RX_RING).
Proof. intros [_ [k Hk] _ _ _]. exact (queue_head _ _ _ k (rx_index s) Hk). Qed.

Lemma rtl_available s : rtl_ok s → 0 < next_read s ↔ rtl_rx s ≠ [].
Proof.
  intros Hok. pose proof (rtl_rx_head s Hok) as Hh. unfold next_read. destruct Hok.
  rewrite (ro_descs _ rk_rx0). set (i := wrap_index _ _) in *.
  destruct (ring_at _ i rk_rx0 (rx_index s)) as (d & b & Hd & Hb & _ & _ & Hlen).
  rewrite (packet_desc _ i d b Hd Hb) in Hh. rewrite Hd.
  destruct (rtl_rx s) eqn:E, (owned d); cbn in Hh; try done; (split; [try done|]; try lia; try done).
Qed.

Lemma rtl_read s n : rtl_ok s →
  rtl_ok (rtl_read_packet n s).2 ∧ (rtl_read_packet n s).1 = Ok (take n <$> head (rtl_rx s)) ∧
  rtl_rx (rtl_read_packet n s).2 = tail (rtl_rx s).
Proof.
  intros Hok. rewrite rtl_rx_head by done. pose proof Hok as [Hrx [k Hk] Hmac Htx Htxb].
  pose proof (rx_index s) as Hi. pose proof (rtl_rx_head s Hok) as Hh.
  unfold rtl_read_packet. rewrite (ro_descs _ Hrx).
  set (r := rt_receive s) in *. set (i := wrap_index (rt_receive_i s) RX_RING) in *.
  destruct (ring_at r i Hrx Hi) as (d & b & Hd & Hb & Hbl & Hdo).
  pose proof (packet_desc r i d b Hd Hb) as Hp.
  rewrite Hd, Hb, Hp. rewrite Hp in Hh. destruct (owned d) eqn:Ho; cbn [fst snd].
  - assert (wrap_index i RX_RING = i) as Hw by (by apply wrap_index_id).
    split; [split; try done; cbn; rewrite Hw; by exists k|]. split; [done|].
    assert (rtl_rx (set_receive r i s) = rtl_rx s) as ->.
    { unfold rtl_rx. cbn [set_receive rt_receive rt_receive_i]. by rewrite Hw. }
    by destruct (rtl_rx s).
  - pose proof Hdo as [He Hlen]. specialize (Hlen Ho).
    rewrite (proj2 (Nat.ltb_ge _ _)) by lia. rewrite Hbl.
    destruct (given_back d RX_BUF i) as [Ho' Hd']; [done|done|].
    set (d' := with_ctrl _ d) in *. cbn [fst snd fmap option_fmap option_map].
    destruct (ring_take RX_RING _ _ i k _ Hi Hk Hp (give_slot r i d' Hrx Hi Ho')) as [Hk' Hq].
    rewrite <- (wrap_index_succ i RX_RING Hi) in Hk', Hq.
    split; [split; try done; cbn; [by apply rx_desc|by eexists]|]. split; [by rewrite take_take|].
    exact Hq.
Qed.

(** ** Sending *)

(** The controller gives descriptors back and adds none. *)
Class RtlHwLaws := { hw_spin_length : ∀ w l, length (hw_spin w l).2 = length l }.
Context `{HHL : !RtlHwLaws}.

(** The receiving side and the sizes of the transmit ring are as before. *)
Definition tx_frame s s' : Prop :=
  rt_receive s' = rt_receive s ∧ rt_receive_i s' = rt_receive_i s ∧
  rt_mac_address s' = rt_mac_address s ∧
  length (rm_descs (rt_transmit s')) = length (rm_descs (rt_transmit s)) ∧
  length (rm_buffers (rt_transmit s')) = length (rm_buffers (rt_transmit s)).

#[local] Instance tx_frame_preorder : PreOrder tx_frame.
Proof.
  split; [done|]. intros s1 s2 s3 (A1 & A2 & A3 & A4 & A5) (B1 & B2 & B3 & B4 & B5).
  repeat split; congruence.
Qed.

Definition tx_safe {A : Type} (m : prog (Rtl8168 W) errno A) s : Prop :=
  (m s).1 ≠ Panic ∧ tx_frame s (m s).2.

Lemma tx_safe_bind {A B : Type} (m : prog (Rtl8168 W) errno A) (f : A → prog (Rtl8168 W) errno B) s :
  tx_safe m s → (∀ a s', m s = (Ok a, s') → tx_frame s s' → tx_safe (f a) s') → tx_safe (p_bind f m) s.
Proof.
  unfold tx_safe, p_bind. intros [Hm Hf] Hn. destruct (m s) as [[a|e|] s'] eqn:E; cbn [fst snd] in *; [|done|done].
  destruct (Hn a s' eq_refl Hf) as [H1 H2]. split; [done|by etrans].
Qed.

Lemma tx_safe_modify (g : Rtl8168 W → Rtl8168 W) s : tx_frame s (g s) → tx_safe (modify g) s.
Proof. by split. Qed.

Lemma tx_safe_regs {A : Type} (g : W → A * W) s :
  tx_safe (λ s, let '(v, w) := g (rt_regs s) in (Ok v, set_regs w s)) s.
Proof. unfold tx_safe. destruct (g (rt_regs s)). by split. Qed.

Lemma wait_clear_safe fuel reg flags s : tx_safe (wait_clear fuel reg flags) s.
Proof.
  revert s. induction fuel as [|fuel IH]; intros s; [by split|]. cbn [wait_clear].
  unfold mbind, prog_bind. apply tx_safe_bind; [apply (tx_safe_regs (readf reg flags))|].
  intros [|] s' _ _; [apply IH|by split].
Qed.

Lemma rtl_write_safe fuel buf s :
  length (rm_descs (rt_transmit s)) = TX_RING → length (rm_buffers (rt_transmit s)) = TX_RING →
  tx_safe (rtl_write_packet fuel buf) s.
Proof.
  revert s. induction fuel as [|fuel IH]; intros s Hd Hb; [by split|]. cbn [rtl_write_packet].
  unfold mbind, prog_bind. apply tx_safe_bind; [by split|]. intros [] s1 E1 F1. injection E1 as <-.
  apply tx_safe_bind; [by split|]. intros t s2 E2 _. injection E2 as <- <-.
  apply tx_safe_bind; [by split|]. intros i s3 E3 _. injection E3 as <- <-.
  cbn [set_transmit rt_transmit rt_transmit_i]. rewrite Hd. set (i := wrap_index _ TX_RING).
  assert (i < TX_RING)%nat as Hi by (apply wrap_index_lt; unfold TX_RING; lia).
  destruct (lookup_lt_is_Some_2 (rm_descs (rt_transmit s)) i) as [td Htd]; [lia|].
  destruct (lookup_lt_is_Some_2 (rm_buffers (rt_transmit s)) i) as [data Hdata]; [lia|].
  rewrite Htd, Hdata. cbn [unwrap]. apply tx_safe_bind; [by split|]. intros td' s4 E4 _. injection E4 as <- <-.
  destruct (owned td).
  - apply tx_safe_bind.
    { apply tx_safe_modify. cbn. pose proof (hw_spin_length (rt_regs s) (rm_descs (rt_transmit s))) as Hl.
      destruct (hw_spin _ _) as [w l]. by repeat split. }
    intros _ s5 _ (_ & _ & _ & F4 & F5). apply IH; cbn in *; congruence.
  - apply tx_safe_bind; [by split|]. intros data' s5 E5 _. injection E5 as <- <-.
    destruct (length data <? length buf)%nat; [by split|]. apply tx_safe_bind.
    { apply tx_safe_modify. repeat split; cbn; by rewrite length_insert. }
    intros _ s6 _ _. apply tx_safe_bind; [by split|]. intros _ s7 _ _.
    apply tx_safe_bind; [apply wait_clear_safe|]. intros _ s8 _ _.
    apply tx_safe_bind; [by split|]. by split.
Qed.

(** The card is an adapter. *)
#[export] Instance rtl_laws (fuel : nat) : AdapterLaws (Rtl8168 W) (H := rtl_adapter fuel).
Proof.
  refine (Build_AdapterLaws _ (rtl_adapter fuel) rtl_ok rtl_rx _ _ _ _).
  - intros s Hok. by destruct Hok.
  - intros s Hok. split; [by apply rtl_available|done].
  - intros n s Hok. by apply rtl_read.
  - intros buf s [Hrx Hk Hmac Htx Htxb]. destruct (rtl_write_safe fuel buf s Htx Htxb) as (Hp & F1 & F2 & F3 & F4 & F5).
    split; [done|]. cbn [write_packet rtl_adapter]. split.
    + split; [congruence| |congruence|congruence|congruence]. by rewrite F1, F2.
    + unfold rtl_rx. by rewrite F1, F2.
Defined.

(** ** The controller *)

(** The controller stores a packet in descriptor [i]: the data, its length, and the
    descriptor without OWN. *)
Definition hw_store (p : list Z) (i : nat) r : RingMem :=
  match rm_descs r !! i, rm_buffers r !! i with
  | Some d, Some b =>
      set_buffers (<[i := p ++ drop (length p) b]> (rm_buffers r))
        (set_descs (<[i := with_ctrl (Z.lor (Z.land (de_ctrl d) EOR)
                                        (Z.lor (Z.lor FS LS) (Z.of_nat (length p)))) d]> (rm_descs r)) r)
  | _, _ => r
  end.

Lemma stored_desc d n i :
  desc_ok i d → (0 < n <= RX_BUF)%nat →
  let c := Z.lor (Z.land (de_ctrl d) EOR) (Z.lor (Z.lor FS LS) (Z.of_nat n)) in
  owned (with_ctrl c d) = false ∧ desc_ok i (with_ctrl c d) ∧ rd_len (with_ctrl c d) = Z.of_nat n.
Proof.
  intros [He _] Hn c. assert (0 <= Z.of_nat n < 2 ^ 14) as Hr by (unfold RX_BUF in Hn; lia).
  assert (∀ b, 0 <= b → Z.testbit c b
    = (Z.testbit (de_ctrl d) b && (b =? 30)) || ((b =? 29) || (b =? 28)) || Z.testbit (Z.of_nat n) b) as Hc.
  { intros b Hb. unfold c, EOR, FS, LS. rewrite !Z.lor_spec, Z.land_spec, !Z.shiftl_1_l, !Z.pow2_bits_eqb by lia.
    rewrite !(Z.eqb_sym b), !orb_assoc. done. }
  assert (rd_len (with_ctrl c d) = Z.of_nat n) as Hlen.
  { unfold rd_len. cbn [with_ctrl de_ctrl]. apply Z.bits_inj'. intros b Hb.
    rewrite Z.land_spec, Hc by done. change 0x3FFF with (Z.ones 14).
    destruct (decide (b < 14)).
    - rewrite Z.ones_spec_low, andb_true_r by lia.
      rewrite (proj2 (Z.eqb_neq b 30)), (proj2 (Z.eqb_neq b 29)), (proj2 (Z.eqb_neq b 28)) by lia.
      by rewrite andb_false_r.
    - rewrite Z.ones_spec_high, andb_false_r by lia. symmetry. apply (testbit_above 14); [done|lia]. }
  assert (owned (with_ctrl c d) = false) as Ho.
  { rewrite owned_bit. cbn [with_ctrl de_ctrl]. rewrite Hc, (testbit_above 14 (Z.of_nat n)) by (done || lia).
    by rewrite andb_false_r. }
  split; [done|]. split; [|done]. split; [|rewrite Hlen; lia]. cbn [with_ctrl de_ctrl].
  rewrite Hc, He, (testbit_above 14 (Z.of_nat n)) by (done || lia). by destruct (Nat.eqb i (RX_RING - 1)).
Qed.

(** A packet stored in the first descriptor of the controller joins the queue. *)
Lemma hw_store_ok s p k :
  let i := wrap_index (rt_receive_i s) RX_RING in
  rtl_ok s → split_at k i (rt_receive s) → (k < RX_RING)%nat → (0 < length p <= RX_BUF)%nat →
  let s' := set_receive (hw_store p ((i + k) mod RX_RING) (rt_receive s)) (rt_receive_i s) s in
  rtl_ok s' ∧ split_at (S k) i (rt_receive s') ∧ rtl_rx s' = rtl_rx s ++ [p].
Proof.
  intros i Hok Hk Hlt Hp s'. pose proof Hok as [Hrx _ Hmac Htx Htxb]. pose proof (rx_index s) as Hi. fold i in Hi.
  set (x := ((i + k) mod RX_RING)%nat).
  assert (x < RX_RING)%nat as Hx by (apply mod_lt; unfold RX_RING; lia).
  destruct (ring_at (rt_receive s) x Hrx Hx) as (d & b & Hd & Hb & Hbl & Hdo).
  destruct (stored_desc d (length p) x Hdo Hp) as (Ho' & Hdo' & Hlen). set (d' := with_ctrl _ d) in *.
  set (r' := rt_receive s').
  assert (rm_descs r' = <[x := d']> (rm_descs (rt_receive s)) ∧
          rm_buffers r' = <[x := p ++ drop (length p) b]> (rm_buffers (rt_receive s))) as [Hrd Hrb].
  { unfold r', s'. cbn [set_receive rt_receive]. unfold hw_store. fold x. by rewrite Hd, Hb. }
  assert (rx_ok r') as Hrx'.
  { destruct (rx_desc (rt_receive s) x d' Hrx Hx Hdo') as [R1 R2 R3 R4]. cbn in *.
    split; [by rewrite Hrd|by rewrite Hrb, length_insert| |by rewrite Hrd].
    rewrite Hrb. apply Forall_insert; [done|]. rewrite length_app, length_drop, Hbl. lia. }
  assert (slot_update RX_RING x (Some p) (packet_at (rt_receive s)) (packet_at r')) as Hup.
  { split.
    - rewrite (packet_desc r' x d' (p ++ drop (length p) b)).
      + by rewrite Ho', Hlen, Nat2Z.id, take_app_length.
      + rewrite Hrd. apply list_lookup_insert_eq. by rewrite (ro_descs _ Hrx).
      + rewrite Hrb. apply list_lookup_insert_eq. by rewrite (ro_buffers _ Hrx).
    - intros j _ Hne. unfold packet_at. by rewrite Hrd, Hrb, !list_lookup_insert_ne. }
  destruct (ring_store RX_RING _ _ i k p Hi Hk Hlt Hup) as [Hk' Hq].
  split; [|by split]. split; try done. by exists (S k).
Qed.
(** ** Initialisation *)

Lemma length_mark_last l : length (mark_last l) = length l.
Proof. unfold mark_last. by rewrite length_alter. Qed.

Lemma init_ring_length c n b p bufs :
  length bufs = n → length (rm_descs (init_ring c (zero_ring n b p bufs))) = n.
Proof.
  intros Hl. cbn [init_ring set_descs rm_descs]. rewrite length_mark_last, length_zip_with.
  cbn [zero_ring rm_buffer_phys rm_descs]. rewrite length_replicate. lia.
Qed.

(** The receive ring after initialisation: everything belongs to the controller. *)
Lemma init_rx_ok phys bufs :
  length bufs = RX_RING →
  let r := init_ring (Some (Z.lor OWN (Z.of_nat RX_BUF))) (zero_ring RX_RING RX_BUF phys bufs) in
  rx_ok r ∧ split_at 0 0 r.
Proof.
  intros Hl r. set (l := zip_with (init_desc (Some (Z.lor OWN (Z.of_nat RX_BUF)))) bufs (replicate RX_RING zero_desc)).
  assert (length l = RX_RING) as Hll by (unfold l; rewrite length_zip_with, length_replicate; lia).
  assert (rm_descs r = mark_last l) as Hr by done.
  assert (∀ i d, mark_last l !! i = Some d → desc_ok i d ∧ owned d = true) as Hd.
  { intros i d Hi. unfold mark_last in Hi. rewrite Hll in Hi.
    assert (∀ e, l !! i = Some e → de_ctrl e = Z.lor OWN (Z.of_nat RX_BUF)) as Hc.
    { intros e He. unfold l in He. apply lookup_zip_with_Some in He as (x & y & -> & _). done. }
    destruct (decide (i = RX_RING - 1)%nat) as [->|Hne].
    - rewrite list_lookup_alter_eq in Hi. destruct (l !! _) as [e|] eqn:He; [|done].
      injection Hi as <-. unfold desc_ok. rewrite !owned_bit. cbn [with_ctrl de_ctrl].
      rewrite (Hc e eq_refl). done.
    - rewrite list_lookup_alter_ne in Hi by done. unfold desc_ok. rewrite !owned_bit, (Hc d Hi).
      split; [|done]. split; [|done]. symmetry. by apply Nat.eqb_neq. }
  split.
  - split.
    + by rewrite Hr, length_mark_last.
    + exact (length_replicate RX_RING (replicate RX_BUF 0)).
    + cbn [init_ring set_descs rm_buffers zero_ring r]. apply Forall_replicate, length_replicate.
    + intros i d Hi. rewrite Hr in Hi. by apply Hd.
  - apply ring_empty; [unfold RX_RING; lia|]. intros j Hj. unfold packet_at. rewrite Hr.
    destruct (mark_last l !! j) as [d|] eqn:Hd'; [|done]. apply Hd in Hd' as [_ Ho].
    cbn [mbind option_bind]. rewrite Ho. by destruct (rm_buffers r !! j).
Qed.

(** A driver that was initialised is ready, with an empty queue. *)
Definition rtl_fresh s : Prop := rtl_ok s ∧ rt_receive_i s = 0%nat ∧ split_at 0 0 (rt_receive s).

Lemma fresh_regs w s : rtl_fresh s → rtl_fresh (set_regs w s).
Proof. intros ([] & Hi & Hs). by split. Qed.

Lemma rtl_new_ok fuel w rxp txp hp rxb txb hb :
  length rxb = RX_RING → length txb = TX_RING →
  let r := rtl_new fuel w rxp txp hp rxb txb hb in
  r.1 ≠ Panic ∧ (r.1 = Ok tt → rtl_fresh r.2).
Proof.
  intros Hrx Htx r. subst r. unfold rtl_new, rtl_init, mbind, prog_bind.
  set (Q := λ (x : res errno unit) (s : Rtl8168 W), x ≠ Panic ∧ (x = Ok tt → rtl_fresh s)).
  match goal with |- ?x.1 ≠ Panic ∧ _ => change (Q x.1 x.2) end.
  assert (∀ e s, Q (Err e) s) as He by done.
  apply after_regs; [eauto with regs|done|]. intros lo w1.
  apply after_regs; [eauto with regs|done|]. intros hi w2.
  apply after_modify. apply after_regs; [eauto with regs|done|]. intros _ w3.
  apply after_regs; [eauto with regs|done|]. intros _ w4.
  apply after_modify, after_modify, after_modify.
  set (s1 := set_transmit_h _ _).
  assert (rtl_fresh s1) as Hs1.
  { destruct (init_rx_ok rxp rxb Hrx) as [Hok Hsp]. split; [|done]. split.
    - exact Hok.
    - by exists 0%nat.
    - done.
    - exact (init_ring_length None TX_RING TX_BUF txp txb Htx).
    - exact (length_replicate TX_RING (replicate TX_BUF 0)). }
  clearbody s1.
  assert (∀ (m : prog (Rtl8168 W) errno unit) s, on_regs m → rtl_fresh s → Q (m s).1 (m s).2) as Hend.
  { intros m s Hm Hf. destruct (Hm s) as (x & w' & -> & Hx). split; [done|]. intros _. by apply fresh_regs. }
  apply Hend; [|done]. repeat first [apply on_regs_bind; [eauto with regs|intros ?]|eauto with regs].
Qed.

(** ** Sessions with the card *)

Section session.
Context (fuel M : nat) (O_NONBLOCK : Z).
#[local] Existing Instance rtl_adapter.

(** Between ticks of the scheme the controller stores packets in the first
    descriptor it owns. *)
Inductive rtl_session (s0 : NetworkScheme (Rtl8168 W)) :
    list (list Z) → list Z → NetworkScheme (Rtl8168 W) → Prop :=
| session_start : rtl_session s0 [] [] s0
| session_store ps ids n p k :
    rtl_session s0 ps ids n →
    let a := ns_adapter n in
    let i := wrap_index (rt_receive_i a) RX_RING in
    split_at k i (rt_receive a) → (k < RX_RING)%nat → (0 < length p <= RX_BUF)%nat →
    rtl_session s0 (ps ++ [p]) ids
      (set_adapter (set_receive (hw_store p ((i + k) mod RX_RING) (rt_receive a)) (rt_receive_i a) a) n)
| session_tick ps ids n ks n' :
    rtl_session s0 ps ids n → Forall (kind_ok M) ks →
    tick (HA := rtl_adapter fuel) O_NONBLOCK ks n = (Ok tt, n') →
    rtl_session s0 ps (ids ++ (ks ≫= kind_ids)) n'.

Lemma session_run a name ps ids n :
  rtl_ok a → rtl_session (net_new a name) ps ids n →
  net_run (HA := rtl_adapter fuel) O_NONBLOCK M (net_new a name) ps ids n.
Proof.
  intros Ha Hs. induction Hs as [|ps ids n p k Hs IH a' i Hk Hlt Hp|ps ids n ks n' Hs IH Hks Ht].
  - apply run_start.
  - destruct (net_run_fifo (HL := rtl_laws fuel) O_NONBLOCK M _ _ _ _ _ Ha IH) as (Hok & _).
    destruct (hw_store_ok a' p k Hok Hk Hlt Hp) as (Hok' & _ & Hrx). by apply run_arrive.
  - by eapply run_tick.
Qed.

(** C28. From initialisation on, the driver and its scheme hand over what the card
    receives: whenever [init] returns, in any session in which the controller stores
    packets in the next descriptor it owns, between ticks, the packets stored are
    those handed to readers, in order, followed by those in the ring; one that fits
    the readers' buffers is handed over whole; and every request was answered exactly
    once or is blocked. *)
Theorem rtl_input_fifo w rxp txp hp rxb txb hb a name ps ids n :
  length rxb = RX_RING → length txb = TX_RING →
  rtl_new fuel w rxp txp hp rxb txb hb = (Ok tt, a) → rtl_session (net_new a name) ps ids n →
  ∃ consumed, ps = consumed ++ rtl_rx (ns_adapter n) ∧
    Forall2 (λ p b, b `prefix_of` p ∧ ((length p <= M)%nat → b = p))
      consumed (omap packet_of (ns_responses n)) ∧
    (rs_id <$> ns_responses n) ++ (cr_id <$> ns_blocked n) ≡ₚ ids.
Proof.
  intros Hrx Htx Hnew Hs. destruct (rtl_new_ok fuel w rxp txp hp rxb txb hb Hrx Htx) as [_ Hf].
  rewrite Hnew in Hf. cbn [fst snd] in Hf. destruct (Hf eq_refl) as (Ha & Hi & Hk).
  assert (rtl_rx a = []) as Hemp.
  { unfold rtl_rx. rewrite Hi. exact (queue_split RX_RING _ 0 0 ltac:(unfold RX_RING; lia) Hk). }
  destruct (net_run_fifo (HL := rtl_laws fuel) O_NONBLOCK M _ _ _ _ _ Ha (session_run _ _ _ _ _ Ha Hs))
    as (_ & _ & consumed & Hq & Hfo & Hp).
  exists consumed. change (rtl_rx a ++ ps = consumed ++ rtl_rx (ns_adapter n)) in Hq.
  rewrite Hemp in Hq. split; [done|]. split; [|done]. eapply Forall2_impl; [exact Hfo|]. apply got_whole.
Qed.

End session.
End queue.

(** ** A card for the example *)

(** Its registers read as zero apart from the address, and it is idle while the
    driver spins. *)
Definition quiet_read (r : RtlReg) : Z :=
  match r with RgMac 0 => 0x04030201 | RgMac 1 => 0x0605 | _ => 0 end.

#[local] Instance quiet_io : Io unit RtlReg :=
  {| io_width := 32; io_read r w := (quiet_read r, w); io_write _ _ w := w |}.

#[local] Instance quiet_hw : RtlHw unit := {| hw_spin w l := (w, l) |}.

#[local] Instance quiet_laws : RtlHwLaws (W := unit).
Proof. by split. Qed.

Abbreviation quiet_card := (rtl_new 1 tt 0 0 0 (replicate RX_RING 0) (replicate TX_RING 0) [0]).

Lemma quiet_init :
  quiet_card = (Ok tt, quiet_card.2).
Proof. apply first_pair. by vm_compute. Qed.

Lemma quiet_fresh : rtl_fresh quiet_card.2.
Proof.
  apply (rtl_new_ok 1 tt 0 0 0 (replicate RX_RING 0) (replicate TX_RING 0) [0]).
  1-2: apply length_replicate.
  rewrite quiet_init. reflexivity.
Qed.


Definition stored_card (p : list Z) (a : Rtl8168 unit) : NetworkScheme (Rtl8168 unit) :=
  let i := wrap_index (rt_receive_i a) RX_RING in
  set_adapter (set_receive (hw_store p ((i + 0) mod RX_RING) (rt_receive a)) (rt_receive_i a) a) (net_new a []).

Lemma stored_session p (a : Rtl8168 unit) :
  split_at 0 (wrap_index (rt_receive_i a) RX_RING) (rt_receive a) → (0 < length p <= RX_BUF)%nat →
  rtl_session 1 4 4 (net_new a []) [p] [] (stored_card p a).
Proof.
  intros Hs Hp. apply (session_store 1 4 4 _ [] [] (net_new a []) p 0); [apply session_start|done| |done].
  unfold RX_RING. lia.
Qed.

Lemma rtl_input_fifo_witness :
  let n := (tick (HA := rtl_adapter 1) 4 demo_requests (stored_card [1; 2; 3] quiet_card.2)).2 in
  ∃ consumed, [[1; 2; 3]] = consumed ++ rtl_rx (ns_adapter n) ∧
    Forall2 (λ p b, b `prefix_of` p ∧ ((length p <= 4)%nat → b = p)) consumed (omap packet_of (ns_responses n)) ∧
    omap packet_of (ns_responses n) = [[1; 2; 3]].
Proof.
  intros n.
  destruct (rtl_input_fifo 1 4 4 tt 0 0 0 (replicate RX_RING 0) (replicate TX_RING 0) [0]
    quiet_card.2 [] [[1; 2; 3]] [10; 11; 12; 13] n) as (consumed & Hq & Hf & _);
    [apply length_replicate|apply length_replicate|exact quiet_init| |].
  - apply (session_tick 1 4 4 (net_new quiet_card.2 []) [[1; 2; 3]] [] (stored_card [1; 2; 3] quiet_card.2) demo_requests n).
    + apply stored_session; [|unfold RX_BUF; cbn; lia]. rewrite (proj1 (proj2 quiet_fresh)).
      exact (proj2 (proj2 quiet_fresh)).
    + by repeat constructor; cbn; lia.
    + refine (first_pair (tick (HA := rtl_adapter 1) 4 demo_requests (stored_card [1; 2; 3] quiet_card.2)) (Ok tt) _).
      by vm_compute.
  - exists consumed. split; [exact Hq|]. split; [exact Hf|]. by vm_compute.
Defined.
