(* ===== verification/NetE1000.v ===== *)
(** The Intel 8254x network driver (net/e1000d/src/device.rs): rings of descriptors
    shared with the controller, as an adapter of [NetScheme].

    Registers are 32-bit words at an offset, an [Io] interface on the device state
    [W]; what the controller does to the transmit ring between two looks of the
    driver at it is [E1000Hw]. *)

From S2P Require Import Prelude Io NetScheme NetCard.

(** ** Registers and descriptors *)

Definition CTRL : Z := 0x00.
Definition CTRL_LRST : Z := Z.shiftl 1 3.
Definition CTRL_ASDE : Z := Z.shiftl 1 5.
Definition CTRL_SLU : Z := Z.shiftl 1 6.
Definition CTRL_ILOS : Z := Z.shiftl 1 7.
Definition CTRL_RST : Z := Z.shiftl 1 26.
Definition CTRL_VME : Z := Z.shiftl 1 30.
Definition CTRL_PHY_RST : Z := Z.shiftl 1 31.
Definition STATUS : Z := 0x08.
Definition FCAL : Z := 0x28.
Definition FCAH : Z := 0x2C.
Definition FCT : Z := 0x30.
Definition FCTTV : Z := 0x170.
Definition ICR : Z := 0xC0.
Definition IMS : Z := 0xD0.
Definition IMS_RXSEQ : Z := Z.shiftl 1 3.
Definition IMS_RXDMT : Z := Z.shiftl 1 4.
Definition IMS_RX : Z := Z.shiftl 1 6.
Definition IMS_RXT : Z := Z.shiftl 1 7.
Definition RCTL : Z := 0x100.
Definition RCTL_EN : Z := Z.shiftl 1 1.
Definition RCTL_UPE : Z := Z.shiftl 1 3.
Definition RCTL_LPE : Z := Z.shiftl 1 5.
Definition RCTL_LBM : Z := Z.lor (Z.shiftl 1 6) (Z.shiftl 1 7).
Definition RCTL_BAM : Z := Z.shiftl 1 15.
Definition RCTL_BSIZE1 : Z := Z.shiftl 1 16.
Definition RCTL_BSIZE2 : Z := Z.shiftl 1 17.
Definition RCTL_BSEX : Z := Z.shiftl 1 25.
Definition RCTL_SECRC : Z := Z.shiftl 1 26.
Definition RDBAL : Z := 0x2800.
Definition RDBAH : Z := 0x2804.
Definition RDLEN : Z := 0x2808.
Definition RDH : Z := 0x2810.
Definition RDT : Z := 0x2818.
Definition RAL0 : Z := 0x5400.
Definition RAH0 : Z := 0x5404.
Definition TCTL : Z := 0x400.
Definition TCTL_EN : Z := Z.shiftl 1 1.
Definition TCTL_PSP : Z := Z.shiftl 1 3.
Definition TDBAL : Z := 0x3800.
Definition TDBAH : Z := 0x3804.
Definition TDLEN : Z := 0x3808.
Definition TDH : Z := 0x3810.
Definition TDT : Z := 0x3818.

Record ERd := mk_erd {
  rd_buffer : Z; rd_length : Z; rd_checksum : Z; rd_status : Z; rd_error : Z; rd_special : Z;
}.
Definition RD_DD : Z := 1.

Record ETd := mk_etd {
  td_buffer : Z; td_length : Z; td_cso : Z; td_command : Z; td_status : Z; td_css : Z; td_special : Z;
}.
Definition TD_CMD_EOP : Z := 1.
Definition TD_CMD_IFCS : Z := Z.shiftl 1 1.
Definition TD_CMD_RS : Z := Z.shiftl 1 3.

Definition rd_zero : ERd := mk_erd 0 0 0 0 0 0.
Definition td_zero : ETd := mk_etd 0 0 0 0 0 0 0.

Definition E_RING : nat := 16.
Definition E_BUF : nat := 16384.

Record Intel8254x (W : Type) := mk_e1000 {
  e_base : W;
  e_mac_address : list Z;
  e_receive_buffer : list (list Z);
  e_receive_ring : list ERd;
  e_receive_index : nat;
  e_transmit_buffer : list (list Z);
  e_transmit_ring : list ETd;
  e_transmit_ring_free : nat;
  e_transmit_index : nat;
  e_transmit_clean_index : nat;
}.
Arguments mk_e1000 {_} _ _ _ _ _ _ _ _ _ _.
Arguments e_base {_} _.
Arguments e_mac_address {_} _.
Arguments e_receive_buffer {_} _.
Arguments e_receive_ring {_} _.
Arguments e_receive_index {_} _.
Arguments e_transmit_buffer {_} _.
Arguments e_transmit_ring {_} _.
Arguments e_transmit_ring_free {_} _.
Arguments e_transmit_index {_} _.
Arguments e_transmit_clean_index {_} _.

(** What the controller does to the transmit ring before a look at it, reading the
    buffers. *)
Class E1000Hw (W : Type) := { hw_tx : W → list (list Z) → list ETd → W * list ETd }.

(** [(index + 1) & (ring_size - 1)]. *)
Definition wrap_ring (index ring_size : nat) : nat := Nat.land (index + 1) (ring_size - 1).

Section driver.
Context {W : Type} `{HIo : Io W Z} `{HH : E1000Hw W}.
Abbreviation ep := (prog (Intel8254x W) errno).
Implicit Types (s : Intel8254x W).

Definition set_base (w : W) s : Intel8254x W :=
  mk_e1000 w (e_mac_address s) (e_receive_buffer s) (e_receive_ring s) (e_receive_index s)
    (e_transmit_buffer s) (e_transmit_ring s) (e_transmit_ring_free s) (e_transmit_index s)
    (e_transmit_clean_index s).

#[export] Instance e1000_regs : HasRegs (Intel8254x W) W.
Proof. by refine (Build_HasRegs _ _ e_base set_base _ _); [intros []|]. Defined.

Definition e_set_mac (m : list Z) s : Intel8254x W :=
  mk_e1000 (e_base s) m (e_receive_buffer s) (e_receive_ring s) (e_receive_index s)
    (e_transmit_buffer s) (e_transmit_ring s) (e_transmit_ring_free s) (e_transmit_index s)
    (e_transmit_clean_index s).

Definition set_rx (ring : list ERd) (i : nat) s : Intel8254x W :=
  mk_e1000 (e_base s) (e_mac_address s) (e_receive_buffer s) ring i
    (e_transmit_buffer s) (e_transmit_ring s) (e_transmit_ring_free s) (e_transmit_index s)
    (e_transmit_clean_index s).

Definition set_tx (bufs : list (list Z)) (ring : list ETd) (free i clean : nat) s : Intel8254x W :=
  mk_e1000 (e_base s) (e_mac_address s) (e_receive_buffer s) (e_receive_ring s) (e_receive_index s)
    bufs ring free i clean.

Definition read_reg (register : Z) : ep Z := rread register.

(** Writes, then reads the register back. *)
Definition write_reg (register data : Z) : ep Z := _ ← rwrite register data; rread register.

Definition flag (register f : Z) (value : bool) : ep unit :=
  v ← read_reg register;
  _ ← write_reg register (if value then Z.lor v f else Z.land v (unot 32 f));
  mret tt.

(** ** The adapter *)

Definition dd (d : ERd) : bool := Z.land (rd_status d) RD_DD =? RD_DD.

Definition e_available s : Z :=
  match e_receive_ring s !! e_receive_index s with
  | Some d => if dd d then rd_length d else 0
  | None => 0
  end.

Definition clear_status (d : ERd) : ERd :=
  mk_erd (rd_buffer d) (rd_length d) (rd_checksum d) 0 (rd_error d) (rd_special d).

Definition e_read_packet (len : nat) : ep (option (list Z)) :=
  i ← gets e_receive_index;
  d ← (s ← gets id; unwrap (e_receive_ring s !! i));
  if dd d then
    _ ← modify (λ s, set_rx (<[i := clear_status d]> (e_receive_ring s)) i s);
    buffer ← (s ← gets id; unwrap (e_receive_buffer s !! i));
    if Z.of_nat (length buffer) <? rd_length d then panic
    else
      let data := take (Z.to_nat (rd_length d)) buffer in
      let n := (len `min` length data)%nat in
      _ ← write_reg RDT (as_u32 (Z.of_nat i));
      _ ← modify (λ s, set_rx (e_receive_ring s) (wrap_ring i (length (e_receive_ring s))) s);
      mret (Some (take n data))
  else mret None.

(** The loop that looks for sent descriptors when none is free. *)
Fixpoint clean_loop (fuel : nat) : ep unit :=
  match fuel with
  | O => throw still_spinning
  | S fuel =>
      _ ← modify (λ s, let '(w, ring) := hw_tx (e_base s) (e_transmit_buffer s) (e_transmit_ring s) in
            set_tx (e_transmit_buffer s) ring (e_transmit_ring_free s) (e_transmit_index s)
              (e_transmit_clean_index s) (set_base w s));
      s ← gets id;
      d ← unwrap (e_transmit_ring s !! e_transmit_clean_index s);
      let n := length (e_transmit_ring s) in
      if negb (td_status d =? 0) then
        let free := S (e_transmit_ring_free s) in
        _ ← modify (set_tx (e_transmit_buffer s) (e_transmit_ring s) free (e_transmit_index s)
                      (wrap_ring (e_transmit_clean_index s) n));
        if (n <=? free)%nat then mret tt else clean_loop fuel
      else if (0 <? e_transmit_ring_free s)%nat then mret tt
      else if (n <=? e_transmit_ring_free s)%nat then mret tt
      else clean_loop fuel
  end.

Definition fill_td (len : Z) (d : ETd) : ETd :=
  mk_etd (td_buffer d) len 0 (Z.lor (Z.lor TD_CMD_EOP TD_CMD_IFCS) TD_CMD_RS) 0 0 0.

(** The loop ends with a free descriptor, so the count below is positive. *)
Definition e_write_packet (fuel : nat) (buf : list Z) : ep Z :=
  free ← gets e_transmit_ring_free;
  _ ← (if (free =? 0)%nat then clean_loop fuel else mret tt);
  s ← gets id;
  let x := e_transmit_index s in
  d ← unwrap (e_transmit_ring s !! x);
  buffer ← unwrap (e_transmit_buffer s !! x);
  let i := (length buf `min` length buffer)%nat in
  let len := as_u16 (Z.of_nat (length buf) `min` (Z.of_nat (length buffer) - 1)) in
  let n := length (e_transmit_ring s) in
  match e_transmit_ring_free s with
  | O => panic
  | S free =>
      _ ← modify (set_tx (<[x := take i buf ++ drop i buffer]> (e_transmit_buffer s))
                    (<[x := fill_td len d]> (e_transmit_ring s)) free (wrap_ring x n)
                    (e_transmit_clean_index s));
      _ ← write_reg TDT (as_u32 (Z.of_nat (wrap_ring x n)));
      mret (Z.of_nat i)
  end.

Definition e_irq : ep bool := icr ← read_reg ICR; mret (negb (icr =? 0)).

(** ** Initialisation *)

(** [while self.read_reg(CTRL) & CTRL_RST == CTRL_RST], which prints the register. *)
Fixpoint wait_reset (fuel : nat) : ep unit :=
  match fuel with
  | O => throw still_spinning
  | S fuel =>
      v ← read_reg CTRL;
      if Z.land v CTRL_RST =? CTRL_RST then _ ← read_reg CTRL; wait_reset fuel else mret tt
  end.

(** [while self.read_reg(STATUS) & 2 != 2], which prints the register. *)
Fixpoint wait_link (fuel : nat) : ep unit :=
  match fuel with
  | O => throw still_spinning
  | S fuel =>
      v ← read_reg STATUS;
      if negb (Z.land v 2 =? 2) then _ ← read_reg STATUS; wait_link fuel else mret tt
  end.

Definition rx_buffer (phys : Z) (d : ERd) : ERd :=
  mk_erd phys (rd_length d) (rd_checksum d) (rd_status d) (rd_error d) (rd_special d).

Definition tx_buffer (phys : Z) (d : ETd) : ETd :=
  mk_etd phys (td_length d) (td_cso d) (td_command d) (td_status d) (td_css d) (td_special d).

(** The physical addresses of the rings and of their buffers. *)
Record EDma := mk_edma { ed_rx : Z; ed_tx : Z; ed_rx_buffers : list Z; ed_tx_buffers : list Z }.

Definition e_init_mac (fuel : nat) : ep unit :=
  _ ← flag CTRL CTRL_RST true;
  _ ← wait_reset fuel;
  _ ← flag CTRL (Z.lor CTRL_ASDE CTRL_SLU) true;
  _ ← flag CTRL (Z.lor (Z.lor CTRL_LRST CTRL_PHY_RST) CTRL_ILOS) false;
  _ ← write_reg FCAH 0;
  _ ← write_reg FCAL 0;
  _ ← write_reg FCT 0;
  _ ← write_reg FCTTV 0;
  _ ← flag CTRL CTRL_VME false;
  mac_low ← read_reg RAL0;
  mac_high ← read_reg RAH0;
  modify (e_set_mac (mac_of mac_low mac_high)).

Definition e_init_rx (dma : EDma) : ep unit :=
  _ ← modify (λ s, set_rx (zip_with rx_buffer (ed_rx_buffers dma) (e_receive_ring s)) (e_receive_index s) s);
  n ← gets (λ s, Z.of_nat (length (e_receive_ring s)));
  _ ← write_reg RDBAH (addr_high (ed_rx dma));
  _ ← write_reg RDBAL (addr_low (ed_rx dma));
  _ ← write_reg RDLEN (as_u32 (n * 16));
  _ ← write_reg RDH 0;
  _ ← write_reg RDT (as_u32 (n - 1));
  mret tt.

Definition e_init_tx (dma : EDma) : ep unit :=
  _ ← modify (λ s, set_tx (e_transmit_buffer s) (zip_with tx_buffer (ed_tx_buffers dma) (e_transmit_ring s))
                     (e_transmit_ring_free s) (e_transmit_index s) (e_transmit_clean_index s) s);
  n ← gets (λ s, Z.of_nat (length (e_transmit_ring s)));
  _ ← write_reg TDBAH (addr_high (ed_tx dma));
  _ ← write_reg TDBAL (addr_low (ed_tx dma));
  _ ← write_reg TDLEN (as_u32 (n * 16));
  _ ← write_reg TDH 0;
  _ ← write_reg TDT 0;
  mret tt.

Definition e_init_enable (fuel : nat) : ep unit :=
  _ ← write_reg IMS (Z.lor (Z.lor (Z.lor IMS_RXT IMS_RX) IMS_RXDMT) IMS_RXSEQ);
  _ ← flag RCTL RCTL_EN true;
  _ ← flag RCTL RCTL_UPE true;
  _ ← flag RCTL RCTL_LPE true;
  _ ← flag RCTL RCTL_LBM false;
  _ ← flag RCTL RCTL_BAM true;
  _ ← flag RCTL RCTL_BSIZE1 true;
  _ ← flag RCTL RCTL_BSIZE2 false;
  _ ← flag RCTL RCTL_BSEX true;
  _ ← flag RCTL RCTL_SECRC true;
  _ ← flag TCTL TCTL_EN true;
  _ ← flag TCTL TCTL_PSP true;
  _ ← wait_link fuel;
  _ ← read_reg STATUS;
  mret tt.

Definition e_init (fuel : nat) (dma : EDma) : ep unit :=
  _ ← e_init_mac fuel;
  _ ← e_init_rx dma;
  _ ← e_init_tx dma;
  e_init_enable fuel.

Definition e_zero (w : W) : Intel8254x W :=
  mk_e1000 w (replicate 6 0) (replicate E_RING (replicate E_BUF 0)) (replicate E_RING rd_zero) 0
    (replicate E_RING (replicate E_BUF 0)) (replicate E_RING td_zero) 16 0 0.

Definition e_new (fuel : nat) (w : W) (dma : EDma) : res errno unit * Intel8254x W :=
  e_init fuel dma (e_zero w).

(** The trait. *)
#[export] Instance e1000_adapter (fuel : nat) : NetworkAdapter (Intel8254x W) := {
  mac_address s := (e_mac_address s, s);
  available_for_read s := (e_available s, s);
  read_packet := e_read_packet;
  write_packet := e_write_packet fuel;
}.

End driver.

(** ** Receiving *)

Section receive.
Context {W : Type} `{HIo : Io W Z} `{HH : E1000Hw W}.
Implicit Types (s : Intel8254x W).

Definition e_slot s (i : nat) : option (list Z) :=
  d ← e_receive_ring s !! i;
  buffer ← e_receive_buffer s !! i;
  if dd d then Some (take (Z.to_nat (rd_length d)) buffer) else None.

Definition e_rx s : list (list Z) := ring_queue E_RING (e_receive_index s) (e_slot s).

(** A descriptor that was done holds a packet that fits. *)
Definition erd_ok (d : ERd) : Prop := dd d = true → 0 < rd_length d <= Z.of_nat E_BUF.

Record e_ok s : Prop := {
  ek_ring : length (e_receive_ring s) = E_RING;
  ek_buffers : length (e_receive_buffer s) = E_RING;
  ek_sizes : Forall (λ b, length b = E_BUF) (e_receive_buffer s);
  ek_descs : Forall erd_ok (e_receive_ring s);
  ek_index : (e_receive_index s < E_RING)%nat;
  ek_split : ∃ k, ring_split E_RING k (e_receive_index s) (e_slot s);
  ek_mac : length (e_mac_address s) = 6%nat;
  ek_tx : length (e_transmit_ring s) = E_RING;
  ek_txb : length (e_transmit_buffer s) = E_RING;
  ek_txi : (e_transmit_index s < E_RING)%nat;
  ek_clean : (e_transmit_clean_index s < E_RING)%nat;
}.

Lemma wrap_ring_mod i : wrap_ring i E_RING = ((i + 1) mod E_RING)%nat.
Proof. exact (Nat.land_ones (i + 1) 4). Qed.

Lemma e_at s i : e_ok s → (i < E_RING)%nat →
  ∃ d b, e_receive_ring s !! i = Some d ∧ e_receive_buffer s !! i = Some b ∧ length b = E_BUF ∧ erd_ok d ∧
    e_slot s i = if dd d then Some (take (Z.to_nat (rd_length d)) b) else None.
Proof.
  intros Hok Hi. destruct (lookup_lt_is_Some_2 (e_receive_ring s) i) as [d Hd]; [by rewrite (ek_ring s Hok)|].
  destruct (lookup_lt_is_Some_2 (e_receive_buffer s) i) as [b Hb]; [by rewrite (ek_buffers s Hok)|].
  exists d, b. split; [done|]. split; [done|].
  split; [by apply (Forall_lookup_1 _ _ _ _ (ek_sizes s Hok) Hb)|].
  split; [by apply (Forall_lookup_1 _ _ _ _ (ek_descs s Hok) Hd)|].
  unfold e_slot. by rewrite Hd, Hb.
Qed.

Lemma e_rx_head s : e_ok s → head (e_rx s) = e_slot s (e_receive_index s).
Proof. intros Hok. destruct (ek_split s Hok) as [k Hk]. exact (queue_head _ _ _ k (ek_index s Hok) Hk). Qed.

Lemma e_available_ok s : e_ok s → 0 < e_available s ↔ e_rx s ≠ [].
Proof.
  intros Hok. pose proof (e_rx_head s Hok) as Hh. unfold e_available.
  destruct (e_at s _ Hok (ek_index s Hok)) as (d & b & Hd & Hb & _ & Hdo & Hp). rewrite Hp in Hh. rewrite Hd.
  unfold erd_ok in Hdo. destruct (e_rx s), (dd d); cbn in Hh; try done; (split; [try done|]; try lia; try done).
Qed.

(** Clearing the status of a descriptor empties its slot. *)
Lemma clear_slot s i d :
  e_ok s → (i < E_RING)%nat → e_receive_ring s !! i = Some d →
  slot_update E_RING i None (e_slot s) (e_slot (set_rx (<[i := clear_status d]> (e_receive_ring s)) i s)).
Proof.
  intros Hok Hi Hd. destruct (e_at s i Hok Hi) as (d' & b & _ & Hb & _). split.
  - unfold e_slot. cbn. rewrite list_lookup_insert_eq by (by rewrite (ek_ring s Hok)). cbn. by rewrite Hb.
  - intros j _ Hne. unfold e_slot. cbn. by rewrite list_lookup_insert_ne.
Qed.

Lemma write_reg_ok r v s : ∃ x w, write_reg r v s = (Ok x, set_base w s).
Proof.
  unfold write_reg, rwrite, rread, on_dev, mbind, prog_bind, p_bind. cbn.
  destruct (io_read r _) as [x w]. by exists x, w.
Qed.

(** Reading a packet: the driver's part of the state. *)
Lemma e_read_ready s n d b :
  let i := e_receive_index s in
  e_receive_ring s !! i = Some d → e_receive_buffer s !! i = Some b →
  dd d = true → rd_length d <= Z.of_nat (length b) → length (e_receive_ring s) = E_RING →
  ∃ w, e_read_packet n s
    = (Ok (Some (take n (take (Z.to_nat (rd_length d)) b))),
       set_rx (<[i := clear_status d]> (e_receive_ring s)) ((i + 1) mod E_RING) (set_base w s)).
Proof.
  intros i Hd Hb Hdd Hl Hn. unfold e_read_packet, mbind, prog_bind. erewrite bind_Ok by reflexivity.
  erewrite bind_Ok by (unfold p_bind, gets; cbn; fold i; by rewrite Hd).
  fold i. rewrite Hdd. erewrite bind_Ok by reflexivity.
  erewrite bind_Ok by (unfold p_bind, gets; cbn; by rewrite Hb). rewrite (proj2 (Z.ltb_ge _ _)) by done.
  destruct (write_reg_ok RDT (as_u32 (Z.of_nat i)) (set_rx (<[i := clear_status d]> (e_receive_ring s)) i s))
    as (v & w & Hw). rewrite (bind_Ok _ _ _ _ _ Hw). erewrite bind_Ok by reflexivity. exists w.
  cbn [e_receive_ring set_rx set_base mret prog_ret p_ret]. unfold mret, prog_ret, p_ret.
  rewrite length_insert, Hn, wrap_ring_mod. f_equal. f_equal. f_equal.
  rewrite <- (take_take _ n), (take_ge (take _ b) (length _)) by done. done.
Qed.

Lemma e_read s n : e_ok s →
  e_ok (e_read_packet n s).2 ∧ (e_read_packet n s).1 = Ok (take n <$> head (e_rx s)) ∧
  e_rx (e_read_packet n s).2 = tail (e_rx s).
Proof.
  intros Hok. pose proof (e_rx_head s Hok) as Hh. pose proof (ek_index s Hok) as Hi.
  destruct (ek_split s Hok) as [k Hk]. set (i := e_receive_index s) in *.
  destruct (e_at s i Hok Hi) as (d & b & Hd & Hb & Hbl & Hdo & Hp). rewrite Hp in Hh.
  destruct (dd d) eqn:Hdd.
  - destruct (e_read_ready s n d b Hd Hb Hdd) as [w ->]; [rewrite Hbl; by apply Hdo|by apply ek_ring|].
    cbn [fst snd]. rewrite Hh. split; [|split; [done|]]; fold i.
    2:{ exact (proj2 (ring_take E_RING _ _ i k _ Hi Hk Hp (clear_slot s i d Hok Hi Hd))). }
    pose proof (proj1 (ring_take E_RING _ _ i k _ Hi Hk Hp (clear_slot s i d Hok Hi Hd))) as Hk'.
    destruct Hok. split; try done.
    + cbn. by rewrite length_insert.
    + by apply Forall_insert.
    + apply (mod_lt E_RING). unfold E_RING. lia.
    + by exists (k - 1)%nat.
  - assert (e_read_packet n s = (Ok None, s)) as ->.
    { unfold e_read_packet, mbind, prog_bind, p_bind, gets. cbn. fold i. rewrite Hd. cbn. by rewrite Hdd. }
    cbn [fst snd]. rewrite Hh. split; [done|]. split; [done|]. by destruct (e_rx s).
Qed.

(** ** Sending *)

(** The controller adds no descriptors. *)
Class E1000HwLaws := { hw_tx_length : ∀ w b l, length (hw_tx w b l).2 = length l }.
Context `{HHL : !E1000HwLaws}.

(** The loop looks for sent descriptors and ends with a free one. *)
Lemma clean_loop_ok fuel s :
  length (e_transmit_ring s) = E_RING → (e_transmit_clean_index s < E_RING)%nat →
  ∃ r w ring free clean, clean_loop fuel s
    = (r, set_tx (e_transmit_buffer s) ring free (e_transmit_index s) clean (set_base w s)) ∧
    length ring = E_RING ∧ (clean < E_RING)%nat ∧
    ((r = Ok tt ∧ (0 < free)%nat) ∨ r = Err still_spinning).
Proof.
  revert s. induction fuel as [|fuel IH]; intros s Hl Hc.
  - exists (Err still_spinning), (e_base s), (e_transmit_ring s), (e_transmit_ring_free s), (e_transmit_clean_index s).
    split; [by destruct s|]. auto.
  - cbn [clean_loop]. unfold mbind, prog_bind. erewrite bind_Ok by reflexivity. erewrite bind_Ok by reflexivity.
    pose proof (hw_tx_length (e_base s) (e_transmit_buffer s) (e_transmit_ring s)) as Hh.
    destruct (hw_tx (e_base s) (e_transmit_buffer s) (e_transmit_ring s)) as [w ring]. cbn in Hh. rewrite Hl in Hh.
    destruct (lookup_lt_is_Some_2 ring (e_transmit_clean_index s)) as [d Hd]; [by rewrite Hh|].
    cbn [id e_transmit_ring e_transmit_clean_index set_tx set_base]. rewrite Hd. cbn [unwrap].
    erewrite bind_Ok by reflexivity. rewrite Hh. unfold modify.
    assert (∀ c, (wrap_ring c E_RING < E_RING)%nat) as Hw.
    { intros c. rewrite wrap_ring_mod. apply mod_lt. unfold E_RING. lia. }
    destruct (negb (td_status d =? 0)).
    + erewrite bind_Ok by reflexivity. cbn [e_transmit_ring_free set_tx].
      destruct (E_RING <=? S (e_transmit_ring_free s))%nat.
      * do 5 eexists. split; [reflexivity|]. split; [done|]. split; [apply Hw|]. left. split; [done|lia].
      * match goal with |- context [clean_loop fuel ?x] => destruct (IH x) as (r & w' & ring' & f & c & -> & Hr) end.
        { done. } { apply Hw. } by exists r, w', ring', f, c.
    + cbn [e_transmit_ring_free set_tx]. destruct (0 <? e_transmit_ring_free s)%nat eqn:Hf.
      * do 5 eexists. split; [reflexivity|]. split; [done|]. split; [done|]. left. split; [done|]. by apply Nat.ltb_lt.
      * apply Nat.ltb_ge in Hf. rewrite (proj2 (Nat.leb_gt _ _)) by (unfold E_RING; lia).
        match goal with |- context [clean_loop fuel ?x] => destruct (IH x) as (r & w' & ring' & f & c & -> & Hr) end.
        { done. } { done. } by exists r, w', ring', f, c.
Qed.

(** Writing a packet: the driver's part of the state. *)
Lemma e_write_free fuel buf s d b free :
  let x := e_transmit_index s in
  e_transmit_ring_free s = S free → e_transmit_ring s !! x = Some d → e_transmit_buffer s !! x = Some b →
  length (e_transmit_ring s) = E_RING →
  let i := (length buf `min` length b)%nat in
  let len := as_u16 (Z.of_nat (length buf) `min` (Z.of_nat (length b) - 1)) in
  let s' := set_tx (<[x := take i buf ++ drop i b]> (e_transmit_buffer s))
              (<[x := fill_td len d]> (e_transmit_ring s)) free ((x + 1) mod E_RING)
              (e_transmit_clean_index s) s in
  e_write_packet fuel buf s
  = (Ok (Z.of_nat i), (write_reg TDT (as_u32 (Z.of_nat ((x + 1) mod E_RING))) s').2).
Proof.
  intros x Hf Hd Hb Hn i len s'. unfold e_write_packet, mbind, prog_bind. erewrite bind_Ok by reflexivity.
  rewrite Hf. cbn [Nat.eqb]. erewrite bind_Ok by reflexivity. erewrite bind_Ok by reflexivity. cbn [id].
  fold x. rewrite Hd. cbn [unwrap]. erewrite bind_Ok by reflexivity. rewrite Hb. cbn [unwrap].
  erewrite bind_Ok by reflexivity. rewrite Hf. erewrite bind_Ok by reflexivity.
  rewrite Hn, wrap_ring_mod. fold i len s'.
  destruct (write_reg_ok TDT (as_u32 (Z.of_nat ((x + 1) mod E_RING))) s') as (v & w & Hw).
  by rewrite (bind_Ok _ _ _ _ _ Hw), Hw.
Qed.

(** The descriptors are cleaned first when none is free. *)
Lemma e_write_full fuel buf s s1 :
  e_transmit_ring_free s = O → clean_loop fuel s = (Ok tt, s1) → (0 < e_transmit_ring_free s1)%nat →
  e_write_packet fuel buf s = e_write_packet fuel buf s1.
Proof.
  intros Hf Hc Hp. unfold e_write_packet, mbind, prog_bind. erewrite bind_Ok by reflexivity. rewrite Hf.
  cbn [Nat.eqb]. rewrite (bind_Ok _ _ _ _ _ Hc). symmetry. erewrite bind_Ok by reflexivity.
  rewrite (proj2 (Nat.eqb_neq _ _)) by lia. by erewrite bind_Ok by reflexivity.
Qed.

(** The receiving side is as before, and the transmit side has its sizes. *)
Definition tx_keeps s s' : Prop :=
  (∃ w bufs ring free i clean, s' = set_tx bufs ring free i clean (set_base w s) ∧
    length bufs = E_RING ∧ length ring = E_RING ∧ (i < E_RING)%nat ∧ (clean < E_RING)%nat).

Lemma tx_keeps_ok s s' : e_ok s → tx_keeps s s' → e_ok s' ∧ e_rx s' = e_rx s.
Proof.
  intros Hok (w & bufs & ring & free & i & clean & -> & H1 & H2 & H3 & H4).
  split; [|done]. destruct Hok. by split.
Qed.

Lemma e_write_safe fuel buf s : e_ok s →
  (e_write_packet fuel buf s).1 ≠ Panic ∧ tx_keeps s (e_write_packet fuel buf s).2.
Proof.
  assert (∀ s', tx_keeps s s' → e_ok s → (0 < e_transmit_ring_free s')%nat →
    (e_write_packet fuel buf s').1 ≠ Panic ∧ tx_keeps s (e_write_packet fuel buf s').2) as Hfree.
  { intros s' Hk Hok Hp. destruct (tx_keeps_ok s s' Hok Hk) as [Hok' _].
    destruct (lookup_lt_is_Some_2 (e_transmit_ring s') (e_transmit_index s')) as [d Hd];
      [rewrite (ek_tx s' Hok'); apply (ek_txi s' Hok')|].
    destruct (lookup_lt_is_Some_2 (e_transmit_buffer s') (e_transmit_index s')) as [b Hb];
      [rewrite (ek_txb s' Hok'); apply (ek_txi s' Hok')|].
    destruct (e_transmit_ring_free s') as [|free] eqn:Hf; [lia|].
    rewrite (e_write_free fuel buf s' d b free Hf Hd Hb (ek_tx s' Hok')). cbn [fst snd]. split; [done|].
    destruct Hk as (w & bufs & ring & fr & i & clean & -> & H1 & H2 & H3 & H4).
    match goal with |- context [write_reg ?r ?v ?x] => destruct (write_reg_ok r v x) as (y & w' & ->) end.
    exists w'. do 5 eexists. split; [reflexivity|]. cbn [e_transmit_buffer e_transmit_ring set_tx set_base].
    rewrite !length_insert. split; [done|]. split; [done|]. split; [|done]. apply mod_lt. unfold E_RING. lia. }
  intros Hok. destruct (e_transmit_ring_free s) as [|free] eqn:Hf.
  - destruct (clean_loop_ok fuel s (ek_tx s Hok) (ek_clean s Hok)) as (r & w & ring & f & c & Hc & Hr & Hcl & Hres).
    assert (tx_keeps s (clean_loop fuel s).2) as Hk.
    { rewrite Hc. exists w, (e_transmit_buffer s), ring, f, (e_transmit_index s), c. destruct Hok. by split. }
    destruct Hres as [[-> Hp]| ->].
    + rewrite Hc in Hk. rewrite (e_write_full fuel buf s _ Hf Hc Hp). by apply Hfree.
    + unfold e_write_packet, mbind, prog_bind. erewrite bind_Ok by reflexivity. rewrite Hf. cbn [Nat.eqb].
      rewrite (bind_Err _ _ _ _ _ Hc). rewrite Hc in Hk. by split.
  - apply Hfree; [|done|lia].
    exists (e_base s), (e_transmit_buffer s), (e_transmit_ring s), (e_transmit_ring_free s),
      (e_transmit_index s), (e_transmit_clean_index s). split; [by destruct s|]. by destruct Hok.
Qed.

(** The card is an adapter. *)
#[export] Instance e1000_laws (fuel : nat) : AdapterLaws (Intel8254x W) (H := e1000_adapter fuel).
Proof.
  refine (Build_AdapterLaws _ (e1000_adapter fuel) e_ok e_rx _ _ _ _).
  - intros s Hok. by destruct Hok.
  - intros s Hok. split; [by apply e_available_ok|done].
  - intros n s Hok. by apply e_read.
  - intros buf s Hok. destruct (e_write_safe fuel buf s Hok) as [Hp Hk]. split; [done|].
    exact (tx_keeps_ok _ _ Hok Hk).
Defined.

(** ** Initialisation *)

Lemma on_regs_write_reg r v : on_regs (write_reg r v).
Proof. apply on_regs_bind; [apply on_regs_dev|intros _; apply on_regs_dev]. Qed.

Lemma on_regs_flag r f v : on_regs (flag r f v).
Proof.
  apply on_regs_bind; [apply on_regs_dev|]. intros x. apply on_regs_bind; [apply on_regs_write_reg|].
  intros y. by apply (on_regs_ret (Ok tt)).
Qed.

Lemma on_regs_reset fuel : on_regs (wait_reset fuel).
Proof.
  induction fuel as [|fuel IH]; [by apply on_regs_ret|]. cbn [wait_reset]. apply on_regs_bind; [apply on_regs_dev|].
  intros v. destruct (_ =? _); [|by apply (on_regs_ret (Ok tt))]. apply on_regs_bind; [apply on_regs_dev|done].
Qed.

Lemma on_regs_link fuel : on_regs (wait_link fuel).
Proof.
  induction fuel as [|fuel IH]; [by apply on_regs_ret|]. cbn [wait_link]. apply on_regs_bind; [apply on_regs_dev|].
  intros v. destruct (negb _); [|by apply (on_regs_ret (Ok tt))]. apply on_regs_bind; [apply on_regs_dev|done].
Qed.

Lemma on_regs_mret {A : Type} (a : A) : on_regs (mret a : prog (Intel8254x W) errno A).
Proof. by apply (on_regs_ret (Ok a)). Qed.

#[local] Hint Resolve on_regs_write_reg on_regs_flag on_regs_reset on_regs_link on_regs_mret : regs.
#[local] Hint Extern 1 (on_regs (read_reg _)) => apply on_regs_dev : regs.

(** A program that takes states of [P] to states of [P'] when it returns. *)
Definition stage {A : Type} (P P' : Intel8254x W → Prop) (m : prog (Intel8254x W) errno A) : Prop :=
  ∀ s, P s → (m s).1 ≠ Panic ∧ ∀ a, (m s).1 = Ok a → P' (m s).2.

Lemma stage_bind {A B : Type} P1 P2 P3 (m : prog (Intel8254x W) errno A) (f : A → prog (Intel8254x W) errno B) :
  stage P1 P2 m → (∀ a, stage P2 P3 (f a)) → stage P1 P3 (p_bind f m).
Proof.
  intros Hm Hf s Hs. destruct (Hm s Hs) as [Hp Hn]. unfold p_bind.
  destruct (m s) as [[a|e|] s']; cbn [fst snd] in *; [|done|done]. by apply Hf, (Hn a).
Qed.

Lemma stage_regs {A : Type} (P : Intel8254x W → Prop) (m : prog (Intel8254x W) errno A) :
  (∀ w s, P s → P (set_base w s)) → on_regs m → stage P P m.
Proof. intros HP Hm s Hs. destruct (Hm s) as (r & w & -> & Hr). split; [done|]. intros _ _. by apply HP. Qed.

Lemma stage_modify (P P' : Intel8254x W → Prop) g : (∀ s, P s → P' (g s)) → stage P P' (modify g).
Proof. intros Hg s Hs. split; [done|]. intros _ _. by apply Hg. Qed.

(** The memory of a driver, without the registers. *)
Definition mem_like (s0 s : Intel8254x W) : Prop := ∃ w, s = set_base w s0.

Lemma mem_like_regs s0 w s : mem_like s0 s → mem_like s0 (set_base w s).
Proof. intros [w' ->]. by exists w. Qed.

Lemma stage_update g s0 : (∀ w, g (set_base w s0) = set_base w (g s0)) →
  stage (mem_like s0) (mem_like (g s0)) (modify g).
Proof. intros Hg s [w ->]. split; [done|]. intros _ _. exists w. apply Hg. Qed.

Ltac regs := repeat first [apply on_regs_bind; [eauto with regs|intros ?]|solve [eauto with regs]].
Ltac stage_reg :=
  eapply stage_bind; [apply stage_regs; [apply mem_like_regs|solve [eauto with regs]]|intros ?].

Lemma init_mac_stage fuel s0 : stage (mem_like s0)
  (λ s, ∃ m, length m = 6%nat ∧ mem_like (e_set_mac m s0) s) (e_init_mac fuel).
Proof.
  unfold e_init_mac, mbind, prog_bind. do 11 stage_reg.
  apply stage_modify. intros s [w ->]. eexists. split; [|by exists w]. done.
Qed.

Lemma init_rx_stage dma s0 :
  stage (mem_like s0)
    (mem_like (set_rx (zip_with rx_buffer (ed_rx_buffers dma) (e_receive_ring s0)) (e_receive_index s0) s0))
    (e_init_rx dma).
Proof.
  unfold e_init_rx, mbind, prog_bind. eapply stage_bind; [by apply stage_update|].
  intros _. apply stage_regs; [apply mem_like_regs|]. regs.
Qed.

Lemma init_tx_stage fuel dma s0 :
  stage (mem_like s0)
    (mem_like (set_tx (e_transmit_buffer s0) (zip_with tx_buffer (ed_tx_buffers dma) (e_transmit_ring s0))
       (e_transmit_ring_free s0) (e_transmit_index s0) (e_transmit_clean_index s0) s0))
    (p_bind (λ _, e_init_enable fuel) (e_init_tx dma)).
Proof.
  eapply stage_bind.
  - unfold e_init_tx, mbind, prog_bind.
    eapply stage_bind; [by apply stage_update|]. intros _. apply stage_regs; [apply mem_like_regs|regs].
  - intros _. apply stage_regs; [apply mem_like_regs|]. unfold e_init_enable, mbind, prog_bind. regs.
Qed.

(** A driver that was initialised is ready, with an empty queue. *)
Lemma e_new_ok fuel w dma :
  length (ed_rx_buffers dma) = E_RING → length (ed_tx_buffers dma) = E_RING →
  let r := e_new fuel w dma in r.1 ≠ Panic ∧ (r.1 = Ok tt → e_ok r.2 ∧ e_rx r.2 = []).
Proof.
  intros Hrx Htx r. assert (stage (mem_like (e_zero w)) (λ s, e_ok s ∧ e_rx s = []) (e_init fuel dma)) as Hst.
  { eapply stage_bind; [apply init_mac_stage|]. intros _ s (m & Hm & Hs).
    destruct (stage_bind _ _ _ _ _ (init_rx_stage dma _) (λ _, init_tx_stage fuel dma _) s Hs) as [Hp Hn]. split; [exact Hp|]. intros a Ha.
    destruct (Hn a Ha) as [w' Hw]. 
    match type of Hw with ?x = _ => change (e_ok x ∧ e_rx x = []) end. rewrite Hw. clear Hw Hn Hp Ha.
    assert (length (zip_with rx_buffer (ed_rx_buffers dma) (replicate E_RING rd_zero)) = E_RING) as Hl1
      by (rewrite length_zip_with, length_replicate; lia).
    assert (length (zip_with tx_buffer (ed_tx_buffers dma) (replicate E_RING td_zero)) = E_RING) as Hl2
      by (rewrite length_zip_with, length_replicate; lia).
    set (s' := set_base w' _).
    assert (∀ d, d ∈ e_receive_ring s' → dd d = false) as Hdd.
    { intros d Hd. apply elem_of_lookup_zip_with_1 in Hd as (i & x & y & -> & _ & Hy).
      apply lookup_replicate in Hy as [-> _]. done. }
    assert (∀ j, e_slot s' j = None) as Hslot.
    { intros j. unfold e_slot. destruct (e_receive_ring s' !! j) as [d|] eqn:Hd; [|done]. cbn [mbind option_bind].
      rewrite (Hdd d) by (by eapply list_elem_of_lookup_2). by destruct (e_receive_buffer s' !! j). }
    destruct (ring_empty E_RING (e_slot s') 0 ltac:(unfold E_RING; lia)) as [Hsp Hq]; [by intros j _|].
    split; [|exact Hq]. split; try done; try (cbn; unfold E_RING; lia).
    - exact (Forall_replicate _ E_RING (replicate E_BUF 0) (length_replicate E_BUF 0)).
    - apply Forall_forall. intros d Hd Hd'. by rewrite (Hdd d Hd) in Hd'.
    - by exists 0%nat. }
  destruct (Hst (e_zero w)) as [Hp Hn]; [by exists w|]. split; [exact Hp|]. intros Hok. by apply (Hn tt).
Qed.

End receive.

(** ** Transmission *)

(** The transmitter of the controller: it owns the descriptors from its head up to,
    not including, its tail, and sends them in order.  [ec_plan] says how many
    packets it sends before each look of the driver. *)
Record ECard := mk_card {
  ec_head : nat; ec_tail : nat; ec_sent : list (list Z); ec_plan : list nat;
}.

#[local] Instance card_io : Io ECard Z := {|
  io_width := 32;
  io_read r w := (if r =? STATUS then 2 else 0, w);
  io_write r v w :=
    if r =? TDT then mk_card (ec_head w) (Z.to_nat v) (ec_sent w) (ec_plan w)
    else if r =? TDH then mk_card (Z.to_nat v) (ec_tail w) (ec_sent w) (ec_plan w)
    else w
|}.

Definition sent_td (d : ETd) : ETd :=
  mk_etd (td_buffer d) (td_length d) (td_cso d) (td_command d) 1 (td_css d) (td_special d).

(** Sending the packet at the head, if there is one. *)
Definition card_send (w : ECard) (bufs : list (list Z)) (ring : list ETd) : ECard * list ETd :=
  if (ec_head w =? ec_tail w)%nat then (w, ring)
  else
    match ring !! ec_head w, bufs !! ec_head w with
    | Some d, Some b =>
        (mk_card ((ec_head w + 1) mod E_RING) (ec_tail w)
           (ec_sent w ++ [take (Z.to_nat (td_length d)) b]) (ec_plan w),
         <[ec_head w := sent_td d]> ring)
    | _, _ => (w, ring)
    end.

Fixpoint card_sends (n : nat) (w : ECard) (bufs : list (list Z)) (ring : list ETd) : ECard * list ETd :=
  match n with
  | O => (w, ring)
  | S n => let '(w', ring') := card_send w bufs ring in card_sends n w' bufs ring'
  end.

#[local] Instance card_hw : E1000Hw ECard := {|
  hw_tx w bufs ring :=
    match ec_plan w with
    | [] => (w, ring)
    | n :: plan => card_sends n (mk_card (ec_head w) (ec_tail w) (ec_sent w) plan) bufs ring
    end
|}.

Definition at_ring (i j : nat) : nat := (i + j) mod E_RING.

(** From the clean index on: [d] descriptors that were sent, then those of the packets
    [pend]; the rest are free. *)
Record tx_inv (pend : list (list Z)) (d : nat) (w : ECard) (bufs : list (list Z)) (ring : list ETd)
    (free i clean : nat) : Prop := {
  ti_ring : length ring = E_RING;
  ti_bufs : length bufs = E_RING;
  ti_sizes : Forall (λ b, length b = E_BUF) bufs;
  ti_clean : (clean < E_RING)%nat;
  ti_free : (free + d + length pend = E_RING)%nat;
  ti_index : i = at_ring clean (d + length pend);
  ti_tail : ec_tail w = i;
  ti_head : ec_head w = at_ring clean d;
  ti_done : ∀ j, (j < d)%nat → ∃ t, ring !! at_ring clean j = Some t ∧ td_status t ≠ 0;
  ti_pend : ∀ j p, pend !! j = Some p → ∃ t b,
    ring !! at_ring clean (d + j) = Some t ∧ bufs !! at_ring clean (d + j) = Some b ∧
    td_status t = 0 ∧ take (Z.to_nat (td_length t)) b = p;
}.

Lemma at_ring_lt i j : (at_ring i j < E_RING)%nat.
Proof. apply mod_lt. unfold E_RING. lia. Qed.

Lemma at_ring_add i j k : at_ring (at_ring i j) k = at_ring i (j + k).
Proof. unfold at_ring. rewrite Nat.Div0.add_mod_idemp_l. f_equal. lia. Qed.

Lemma at_ring_ne i j k : (i < E_RING)%nat → (j < E_RING)%nat → (k < E_RING)%nat → j ≠ k → at_ring i j ≠ at_ring i k.
Proof. apply mod_ne. Qed.

(** The controller sends the first pending packet; it sends nothing when there is
    none, and none either when the ring is full. *)
Lemma card_send_ok pend d w bufs ring free i clean :
  tx_inv pend d w bufs ring free i clean →
  let '(w', ring') := card_send w bufs ring in
  ∃ out pend', pend = out ++ pend' ∧ ec_sent w' = ec_sent w ++ out ∧ ec_plan w' = ec_plan w ∧
    tx_inv pend' (d + length out) w' bufs ring' free i clean ∧
    (length out = if decide (pend = [] ∨ length pend = E_RING) then 0%nat else 1%nat).
Proof.
  intros [H1 H2 H3 H4 H5 H6 H7 H8 H9 H10]. subst i. unfold card_send. rewrite H7, H8.
  assert (at_ring clean d = at_ring clean (d + length pend) ↔ pend = [] ∨ length pend = E_RING) as Heq.
  { split.
    - intros Heq. destruct pend as [|p pend]; [by left|right]. destruct (decide (length (p :: pend) = E_RING)); [done|].
      exfalso. rewrite <- (at_ring_add clean d (length _)) in Heq.
      assert (at_ring (at_ring clean d) 0 = at_ring clean d) as E0 by (by rewrite at_ring_add, Nat.add_0_r).
      rewrite <- E0 in Heq at 1. revert Heq. cbn in *. apply at_ring_ne; [apply at_ring_lt|unfold E_RING; lia|lia|lia].
    - intros [-> |Hl]; [by rewrite Nat.add_0_r|]. unfold at_ring. rewrite Hl.
      replace (clean + (d + E_RING))%nat with (clean + d + 1 * E_RING)%nat by lia. by rewrite Nat.Div0.mod_add. }
  destruct (Nat.eqb_spec (at_ring clean d) (at_ring clean (d + length pend))) as [E|E].
  - exists [], pend. rewrite app_nil_r, decide_True by (by apply Heq). split_and!; try done. rewrite Nat.add_0_r. by split.
  - rewrite decide_False by (by rewrite <- Heq).
    destruct pend as [|p pend]; [exfalso; apply E; by rewrite Nat.add_0_r|].
    destruct (H10 0%nat p eq_refl) as (t & b & Ht & Hb & Hst & Hp). rewrite Nat.add_0_r in Ht, Hb.
    rewrite Ht, Hb, Hp. exists [p], pend. cbn [ec_sent ec_plan length app]. split_and!; try done.
    assert (length (p :: pend) ≠ E_RING) as Hne by (intros ?; apply E; apply Heq; by right). cbn in H5, Hne.
    split; try done.
    + by rewrite length_insert.
    + lia.
    + f_equal. cbn. lia.
    + cbn. exact (at_ring_add clean d 1).
    + intros j Hj. destruct (decide (j = d)) as [->|Hjd].
      * exists (sent_td t). rewrite list_lookup_insert_eq by (rewrite H1; apply at_ring_lt). done.
      * destruct (H9 j) as (t' & Ht' & Hs'); [lia|]. exists t'.
        rewrite list_lookup_insert_ne; [done|]. apply at_ring_ne; lia.
    + intros j q Hq. pose proof (lookup_lt_Some _ _ _ Hq). destruct (H10 (S j) q Hq) as (t' & b' & Ht' & Hb' & Hs' & Hq').
      exists t', b'. replace (d + 1 + j)%nat with (d + S j)%nat by lia.
      rewrite list_lookup_insert_ne; [done|]. apply at_ring_ne; lia.
Qed.

Lemma card_sends_ok n pend d w bufs ring free i clean :
  tx_inv pend d w bufs ring free i clean →
  let '(w', ring') := card_sends n w bufs ring in
  ∃ pend' d', tx_inv pend' d' w' bufs ring' free i clean ∧ ec_sent w' ++ pend' = ec_sent w ++ pend.
Proof.
  revert pend d w ring. induction n as [|n IH]; intros pend d w ring Hi; cbn [card_sends]; [by eauto|].
  pose proof (card_send_ok _ _ _ _ _ _ _ _ Hi) as Hs. destruct (card_send w bufs ring) as [w1 ring1].
  destruct Hs as (out & pend1 & -> & Hsent & _ & Hi1 & _). specialize (IH _ _ _ _ Hi1).
  destruct (card_sends n w1 bufs ring1) as [w2 ring2]. destruct IH as (pend2 & d2 & Hi2 & Hl).
  exists pend2, d2. split; [done|]. by rewrite Hl, Hsent, app_assoc.
Qed.

(** The packets that were sent and then those that wait. *)
Definition tx_state (log : list (list Z)) (s : Intel8254x ECard) : Prop :=
  ∃ pend d, log = ec_sent (e_base s) ++ pend ∧
    tx_inv pend d (e_base s) (e_transmit_buffer s) (e_transmit_ring s) (e_transmit_ring_free s)
      (e_transmit_index s) (e_transmit_clean_index s).

(** The controller at work. *)
Definition hw_step (s : Intel8254x ECard) : Intel8254x ECard :=
  let '(w, ring) := hw_tx (e_base s) (e_transmit_buffer s) (e_transmit_ring s) in
  set_tx (e_transmit_buffer s) ring (e_transmit_ring_free s) (e_transmit_index s)
    (e_transmit_clean_index s) (set_base w s).

Lemma hw_step_ok log s : tx_state log s → tx_state log (hw_step s).
Proof.
  intros (pend & d & -> & Hi). unfold hw_step, hw_tx. cbn. destruct (ec_plan (e_base s)) as [|n plan].
  - exists pend, d. by destruct s.
  - set (w := mk_card _ _ _ plan).
    assert (tx_inv pend d w (e_transmit_buffer s) (e_transmit_ring s) (e_transmit_ring_free s)
      (e_transmit_index s) (e_transmit_clean_index s)) as Hi' by (by destruct Hi).
    pose proof (card_sends_ok n _ _ _ _ _ _ _ _ Hi') as Hs.
    destruct (card_sends n w _ _) as [w' ring']. destruct Hs as (pend' & d' & Hi2 & Hl).
    exists pend', d'. by split.
Qed.

(** Cleaning a sent descriptor. *)
Lemma clean_one pend d w bufs ring free i clean t :
  tx_inv pend d w bufs ring free i clean → ring !! clean = Some t → td_status t ≠ 0 →
  (free < E_RING)%nat →
  tx_inv pend (d - 1) w bufs ring (S free) i (wrap_ring clean E_RING) .
Proof.
  intros [H1 H2 H3 H4 H5 H6 H7 H8 H9 H10] Ht Hst Hf. rewrite wrap_ring_mod. fold (at_ring clean 1).
  assert (at_ring clean 0 = clean) as H0 by (unfold at_ring; by rewrite Nat.add_0_r, Nat.mod_small).
  assert (0 < d)%nat as Hd.
  { destruct d as [|d]; [|lia]. destruct pend as [|p pend]; [cbn in H5; lia|].
    destruct (H10 0%nat p eq_refl) as (t' & b & Ht' & _ & Hs' & _). rewrite Nat.add_0_r, H0, Ht in Ht'.
    by injection Ht' as <-. }
  split; try done; try apply at_ring_lt; try lia; rewrite ?at_ring_add.
  - rewrite H6. f_equal. lia.
  - rewrite H8. f_equal. lia.
  - intros j Hj. rewrite at_ring_add. destruct (H9 (1 + j)%nat) as (t' & Ht'); [lia|]. by exists t'.
  - intros j p Hp. destruct (H10 j p Hp) as (t' & b & Ht'). exists t', b. rewrite at_ring_add.
    by replace (1 + (d - 1 + j))%nat with (d + j)%nat by lia.
Qed.

Lemma clean_loop_log fuel log s r s' :
  tx_state log s → (e_transmit_ring_free s < E_RING)%nat → clean_loop fuel s = (r, s') → tx_state log s'.
Proof.
  revert s. induction fuel as [|fuel IH]; intros s Hs Hf Hc; [by injection Hc as <- <-|].
  cbn [clean_loop] in Hc. unfold mbind, prog_bind in Hc. erewrite bind_Ok in Hc by reflexivity.
  fold (hw_step s) in Hc. apply hw_step_ok in Hs. assert (e_transmit_ring_free (hw_step s) < E_RING)%nat as Hf1.
  { unfold hw_step. by destruct (hw_tx _ _ _). }
  clear Hf. revert Hs Hf1 Hc. generalize (hw_step s). clear s. intros s Hs Hf Hc.
  erewrite bind_Ok in Hc by reflexivity. cbn [id] in Hc.
  destruct Hs as (pend & d & Hl & Hi). pose proof Hi as [H1 _ _ H4 H5 _ _ _ _ _].
  destruct (lookup_lt_is_Some_2 (e_transmit_ring s) (e_transmit_clean_index s)) as [t Ht]; [by rewrite H1|].
  rewrite Ht, H1 in Hc. cbn [unwrap] in Hc. erewrite bind_Ok in Hc by reflexivity.
  destruct (Z.eqb_spec (td_status t) 0) as [Hst|Hst]; cbn [negb] in Hc.
  - destruct (0 <? e_transmit_ring_free s)%nat; [injection Hc as <- <-; by exists pend, d|].
    destruct (E_RING <=? e_transmit_ring_free s)%nat; [injection Hc as <- <-; by exists pend, d|].
    eapply IH; [|exact Hf|exact Hc]. by exists pend, d.
  - erewrite bind_Ok in Hc by reflexivity.
    pose proof (clean_one _ _ _ _ _ _ _ _ t Hi Ht Hst Hf) as Hi'.
    destruct (E_RING <=? S (e_transmit_ring_free s))%nat eqn:Hle.
    + injection Hc as <- <-. by exists pend, (d - 1)%nat.
    + apply Nat.leb_gt in Hle. eapply IH; [| |exact Hc]; [by exists pend, (d - 1)%nat|done].
Qed.

Lemma card_sends_length n w bufs ring : length (card_sends n w bufs ring).2 = length ring.
Proof.
  revert w ring. induction n as [|n IH]; intros w ring; [done|]. cbn [card_sends].
  destruct (card_send w bufs ring) as [w' ring'] eqn:E. rewrite IH. unfold card_send in E.
  destruct (ec_head w =? ec_tail w)%nat; [by injection E as <- <-|].
  destruct (ring !! ec_head w), (bufs !! ec_head w); injection E as <- <-; by rewrite ?length_insert.
Qed.

#[local] Instance card_laws : E1000HwLaws (W := ECard).
Proof. split. intros w b l. cbn. destruct (ec_plan w); [done|]. apply card_sends_length. Qed.

(** What the controller is given of a packet. *)
Definition on_wire (buf : list Z) : list Z := take (E_BUF - 1) buf.

Lemma filled_packet buf b :
  length b = E_BUF →
  let i := (length buf `min` length b)%nat in
  take (Z.to_nat (as_u16 (Z.of_nat (length buf) `min` (Z.of_nat (length b) - 1)))) (take i buf ++ drop i b)
  = on_wire buf.
Proof.
  intros Hb i. subst i. rewrite Hb. assert (Z.to_nat (as_u16 (Z.of_nat (length buf) `min` (Z.of_nat E_BUF - 1)))
    = (length buf `min` (E_BUF - 1))%nat) as ->.
  { unfold as_u16, as_u. assert (Z.of_nat E_BUF = 16384) as HE by done.
    rewrite HE, Z.mod_small by lia. lia. }
  rewrite take_app_le by (rewrite length_take; lia). rewrite take_take. unfold on_wire.
  destruct (decide (length buf <= E_BUF - 1)%nat); [by rewrite !take_ge by lia|f_equal; lia].
Qed.

Lemma fill_one pend d w bufs ring free i clean t b buf :
  tx_inv pend d w bufs ring (S free) i clean → ring !! i = Some t → bufs !! i = Some b →
  let n := (length buf `min` length b)%nat in
  let len := as_u16 (Z.of_nat (length buf) `min` (Z.of_nat (length b) - 1)) in
  tx_inv (pend ++ [on_wire buf]) d
    (mk_card (ec_head w) ((i + 1) mod E_RING) (ec_sent w) (ec_plan w))
    (<[i := take n buf ++ drop n b]> bufs) (<[i := fill_td len t]> ring) free ((i + 1) mod E_RING) clean.
Proof.
  intros [H1 H2 H3 H4 H5 H6 H7 H8 H9 H10] Ht Hb n len.
  assert (length b = E_BUF) as Hbl by (by apply (Forall_lookup_1 _ _ _ _ H3 Hb)).
  assert (∀ j, (j < d + length pend)%nat → i ≠ at_ring clean j) as Hne.
  { intros j Hj. rewrite H6. apply at_ring_ne; lia. }
  split; try done.
  - by rewrite length_insert.
  - by rewrite length_insert.
  - apply Forall_insert; [done|]. rewrite length_app, length_take, length_drop. lia.
  - rewrite length_app. cbn. lia.
  - fold (at_ring i 1). rewrite H6, at_ring_add, length_app. f_equal. cbn. lia.
  - intros j Hj. destruct (H9 j Hj) as (t' & Ht'). exists t'. rewrite list_lookup_insert_ne; [done|]. apply Hne. lia.
  - intros j p Hp. apply lookup_app_Some in Hp as [Hp|[Hj Hp]].
    + pose proof (lookup_lt_Some _ _ _ Hp). destruct (H10 j p Hp) as (t' & b' & Ht' & Hb' & Hr). exists t', b'.
      rewrite !list_lookup_insert_ne by (apply Hne; lia). done.
    + apply list_lookup_singleton_Some in Hp as [Hj' <-]. replace j with (length pend) by lia. rewrite <- H6.
      exists (fill_td len t), (take n buf ++ drop n b).
      rewrite !list_lookup_insert_eq by (rewrite ?H1, ?H2, H6; apply at_ring_lt).
      split; [done|]. split; [done|]. split; [done|]. by apply filled_packet.
Qed.

(** A write that returns adds its packet. *)
Lemma write_log fuel log s buf n s' :
  tx_state log s → e_write_packet fuel buf s = (Ok n, s') → tx_state (log ++ [on_wire buf]) s'.
Proof.
  assert (∀ s log, tx_state log s → (0 < e_transmit_ring_free s)%nat →
    e_write_packet fuel buf s = (Ok n, s') → tx_state (log ++ [on_wire buf]) s') as Hfree.
  { clear s log. intros s log (pend & d & -> & Hi) Hp Hw. pose proof Hi as [H1 H2 _ _ _ H6 _ _ _ _].
    assert (e_transmit_index s < E_RING)%nat as Hx by (rewrite H6; apply at_ring_lt).
    destruct (lookup_lt_is_Some_2 (e_transmit_ring s) (e_transmit_index s)) as [t Ht]; [by rewrite H1|].
    destruct (lookup_lt_is_Some_2 (e_transmit_buffer s) (e_transmit_index s)) as [b Hb]; [by rewrite H2|].
    destruct (e_transmit_ring_free s) as [|free] eqn:Hf; [lia|].
    rewrite (e_write_free fuel buf s t b free Hf Ht Hb H1) in Hw. injection Hw as <- <-.
    exists (pend ++ [on_wire buf]), d. split.
    - by rewrite app_assoc.
    - assert (Z.to_nat (as_u32 (Z.of_nat ((e_transmit_index s + 1) mod E_RING)))
        = ((e_transmit_index s + 1) mod E_RING)%nat) as Hv.
      { pose proof (mod_lt E_RING (e_transmit_index s + 1) ltac:(unfold E_RING; lia)) as Hm.
        revert Hm. generalize ((e_transmit_index s + 1) mod E_RING)%nat. intros m Hm. unfold E_RING in Hm.
        unfold as_u32, as_u. rewrite Z.mod_small by lia. lia. }
      pose proof (fill_one _ _ _ _ _ _ _ _ t b buf Hi Ht Hb) as Hi'. cbv zeta in Hi'.
      rewrite <- Hv in Hi' at 1. exact Hi'. }
  intros Hs Hw. destruct (e_transmit_ring_free s) as [|free] eqn:Hf; [|apply (Hfree s); [done|lia|done]].
  pose proof Hs as (pend & d & _ & [H1 _ _ H4 _ _ _ _ _ _]).
  destruct (clean_loop_ok (HHL := card_laws) fuel s H1 H4) as (r & w & ring & f & c & Hc & _ & _ & Hres).
  pose proof (clean_loop_log fuel log s _ _ Hs ltac:(rewrite Hf; unfold E_RING; lia) Hc) as Hs1.
  destruct Hres as [[-> Hp]| ->].
  - rewrite (e_write_full fuel buf s _ Hf Hc Hp) in Hw. by apply (Hfree _ _ Hs1 Hp).
  - unfold e_write_packet, mbind, prog_bind in Hw. erewrite bind_Ok in Hw by reflexivity. rewrite Hf in Hw.
    cbn [Nat.eqb] in Hw. by rewrite (bind_Err _ _ _ _ _ Hc) in Hw.
Qed.

(** ** Sessions of the transmitter *)

(** Writes that returned, with the controller at work between them. *)
Inductive tx_session (fuel : nat) (s0 : Intel8254x ECard) : list (list Z) → Intel8254x ECard → Prop :=
| tx_start : tx_session fuel s0 [] s0
| tx_write bufs s buf n s' :
    tx_session fuel s0 bufs s → e_write_packet fuel buf s = (Ok n, s') →
    tx_session fuel s0 (bufs ++ [buf]) s'
| tx_work bufs s : tx_session fuel s0 bufs s → tx_session fuel s0 bufs (hw_step s).

Lemma tx_session_log fuel s0 bufs s :
  tx_state [] s0 → tx_session fuel s0 bufs s → tx_state (on_wire <$> bufs) s.
Proof.
  intros H0 Hs. induction Hs as [|bufs s buf n s' Hs IH Hw|bufs s Hs IH]; [done| |by apply hw_step_ok].
  rewrite fmap_app. by eapply write_log.
Qed.

(** The card after initialisation. *)
Definition e_inited (dma : EDma) (s : Intel8254x ECard) : Intel8254x ECard :=
  set_tx (e_transmit_buffer s) (zip_with tx_buffer (ed_tx_buffers dma) (e_transmit_ring s))
    (e_transmit_ring_free s) (e_transmit_index s) (e_transmit_clean_index s)
    (set_rx (zip_with rx_buffer (ed_rx_buffers dma) (e_receive_ring s)) (e_receive_index s)
      (e_set_mac (mac_of 0 0) (set_base (mk_card 0 0 (ec_sent (e_base s)) (ec_plan (e_base s))) s))).

Lemma e_init_card fuel dma s : e_init (S fuel) dma s = (Ok tt, e_inited dma s).
Proof. destruct s as [[h t sent plan] mac rxb rx rxi txb tx free i clean]. reflexivity. Qed.

Lemma e_new_tx fuel dma h t plan :
  length (ed_tx_buffers dma) = E_RING → tx_state [] (e_new (S fuel) (mk_card h t [] plan) dma).2.
Proof.
  intros Hl. unfold e_new. rewrite e_init_card.
  assert (length (zip_with tx_buffer (ed_tx_buffers dma) (replicate E_RING td_zero)) = E_RING) as Hr
    by (rewrite length_zip_with, length_replicate; lia).
  assert (Forall (λ b : list Z, length b = E_BUF) (replicate E_RING (replicate E_BUF 0))) as Hf
    by apply Forall_replicate, length_replicate.
  exists [], 0%nat. split; [done|]. split; try done; try (intros; lia).
  cbn. unfold E_RING. lia.
Qed.

(** C29. The packets written leave the card in order, once each, and none is overwritten
    before it was sent: from initialisation on, whatever the controller sends between
    the writes and during them, what it sent is a prefix of the packets whose writes
    returned, at most 16 behind.  A packet of at most 16383 bytes is sent unchanged, a
    longer one is cut off there. *)
Theorem e1000_output_fifo k fuel h t plan dma bufs s :
  length (ed_tx_buffers dma) = E_RING →
  tx_session fuel (e_new (S k) (mk_card h t [] plan) dma).2 bufs s →
  ∃ waiting, take (E_BUF - 1) <$> bufs = ec_sent (e_base s) ++ waiting ∧ (length waiting <= 16)%nat.
Proof.
  intros Hl Hs. destruct (tx_session_log _ _ _ _ (e_new_tx k dma h t plan Hl) Hs) as (pend & d & Hlog & Hi).
  exists pend. split; [exact Hlog|]. destruct Hi. unfold E_RING in *. lia.
Qed.

Lemma e1000_output_fifo_witness :
  let s0 := (e_new 1 (mk_card 0 0 [] [1%nat]) (mk_edma 0 0 (replicate 16 0) (replicate 16 0))).2 in
  let s1 := (e_write_packet 1 [1; 2; 3] s0).2 in
  ∃ waiting, [[1; 2; 3]; [4; 5]] = ec_sent (e_base (e_write_packet 1 [4; 5] (hw_step s1)).2) ++ waiting ∧
    (length waiting <= 16)%nat.
Proof.
  intros s0 s1.
  apply (e1000_output_fifo 0 1 0 0 [1%nat] (mk_edma 0 0 (replicate 16 0) (replicate 16 0)) [[1; 2; 3]; [4; 5]]);
    [done|].
  refine (tx_write 1 _ [[1; 2; 3]] (hw_step s1) [4; 5] 2 _ _ (first_pair (e_write_packet 1 [4; 5] (hw_step s1)) (Ok 2) _));
    [|by vm_compute].
  apply tx_work. refine (tx_write 1 _ [] s0 [1; 2; 3] 3 _ _ (first_pair (e_write_packet 1 [1; 2; 3] s0) (Ok 3) _));
    [apply tx_start|by vm_compute].
Defined.

(** ** A full ring *)

(** Sixteen packets wait and none was sent: head and tail are equal. *)
Definition tx_full (s : Intel8254x ECard) : Prop :=
  ∃ pend, length pend = E_RING ∧
    tx_inv pend 0 (e_base s) (e_transmit_buffer s) (e_transmit_ring s) (e_transmit_ring_free s)
      (e_transmit_index s) (e_transmit_clean_index s).

Lemma full_sends n pend w bufs ring free i clean :
  length pend = E_RING → tx_inv pend 0 w bufs ring free i clean →
  card_sends n w bufs ring = (w, ring).
Proof.
  intros Hl Hi. induction n as [|n IH]; [done|]. cbn [card_sends].
  assert (card_send w bufs ring = (w, ring)) as ->; [|done]. unfold card_send.
  destruct Hi. rewrite ti_tail0, ti_head0, ti_index0, Hl. unfold at_ring. rewrite Nat.add_0_l, Nat.add_0_r.
  replace (clean + E_RING)%nat with (clean + 1 * E_RING)%nat by lia. rewrite Nat.Div0.mod_add.
  by rewrite Nat.eqb_refl.
Qed.

(** The controller leaves a full ring alone. *)
Lemma full_step s : tx_full s →
  tx_full (hw_step s) ∧ ec_sent (e_base (hw_step s)) = ec_sent (e_base s) ∧
  e_transmit_ring (hw_step s) = e_transmit_ring s.
Proof.
  intros (pend & Hl & Hi). unfold hw_step, hw_tx. cbn. destruct (ec_plan (e_base s)) as [|n plan].
  - split; [|done]. exists pend. by destruct s.
  - set (w := mk_card _ _ _ plan).
    assert (tx_inv pend 0 w (e_transmit_buffer s) (e_transmit_ring s) (e_transmit_ring_free s)
      (e_transmit_index s) (e_transmit_clean_index s)) as Hi' by (by destruct Hi).
    rewrite (full_sends n pend w _ _ _ _ _ Hl Hi'). split; [|done]. by exists pend.
Qed.

Lemma full_clean fuel s : tx_full s → (clean_loop fuel s).1 = Err still_spinning.
Proof.
  revert s. induction fuel as [|fuel IH]; intros s Hs; [done|].
  cbn [clean_loop]. unfold mbind, prog_bind. erewrite bind_Ok by reflexivity. fold (hw_step s).
  apply full_step in Hs as (Hs & _ & _). revert Hs. generalize (hw_step s). clear s. intros s Hs.
  erewrite bind_Ok by reflexivity. cbn [id]. pose proof Hs as (pend & Hl & Hi).
  destruct pend as [|p pend]; [done|]. destruct Hi. destruct (ti_pend0 0%nat p eq_refl) as (t & b & Ht & _ & Hst & _).
  cbn [length Nat.add] in *. unfold at_ring in Ht. rewrite Nat.add_0_r, Nat.mod_small in Ht by done. rewrite Ht. cbn [unwrap].
  erewrite bind_Ok by reflexivity. rewrite Hst, ti_ring0. cbn [Z.eqb negb].
  assert (e_transmit_ring_free s = 0%nat) as -> by lia. by apply IH.
Qed.

(** Sixteen writes to an idle card fill its ring. *)
Lemma sixteen_fill fuel (bufs : list (list Z)) s0 s :
  tx_state [] s0 → tx_session fuel s0 bufs s → length bufs = E_RING → ec_sent (e_base s) = [] → tx_full s.
Proof.
  intros H0 Hs Hl Hsent. destruct (tx_session_log _ _ _ _ H0 Hs) as (pend & d & Hlog & Hi).
  rewrite Hsent in Hlog. cbn in Hlog. assert (length pend = E_RING) as Hp by (by rewrite <- Hlog, length_fmap).
  exists pend. split; [done|]. assert (d = 0)%nat as -> by (destruct Hi; lia). done.
Qed.

(** The driver fills all sixteen descriptors, and the controller takes equal head
    and tail for an empty ring.  If sixteen packets are written before the first one
    is sent, none of them is ever sent, whatever the controller does from then on, and
    the next write never returns, however long it looks. *)
Theorem e1000_full_ring_stalls k fuel h t plan dma bufs s n :
  length (ed_tx_buffers dma) = E_RING →
  tx_session fuel (e_new (S k) (mk_card h t [] plan) dma).2 bufs s →
  length bufs = 16%nat → ec_sent (e_base s) = [] →
  let s' := Nat.iter n hw_step s in
  ec_sent (e_base s') = [] ∧ ∀ fuel' buf, (e_write_packet fuel' buf s').1 = Err still_spinning.
Proof.
  intros Hl Hs Hb Hsent s'.
  assert (tx_full s' ∧ ec_sent (e_base s') = []) as [Hf He].
  { unfold s'. clear s'. induction n as [|n [IH1 IH2]].
    - split; [|exact Hsent]. eapply sixteen_fill; [apply e_new_tx, Hl|exact Hs|exact Hb|exact Hsent].
    - apply full_step in IH1 as (H1 & H2 & _). split; [exact H1|exact (eq_trans H2 IH2)]. }
  split; [done|]. intros fuel' buf. pose proof (full_clean fuel' s' Hf) as Hc.
  destruct Hf as (pend & Hp & Hi). unfold e_write_packet, mbind, prog_bind. erewrite bind_Ok by reflexivity.
  assert (e_transmit_ring_free s' = 0%nat) as -> by (destruct Hi; lia). cbn [Nat.eqb].
  destruct (clean_loop fuel' s') as [r s''] eqn:E. cbn in Hc. subst r. by rewrite (bind_Err _ _ _ _ _ E).
Qed.

(** Writing the packets one after the other. *)
Fixpoint write_all (bufs : list (list Z)) (s : Intel8254x ECard) : bool * Intel8254x ECard :=
  match bufs with
  | [] => (true, s)
  | buf :: bufs => match e_write_packet 1 buf s with (Ok _, s') => write_all bufs s' | (_, s') => (false, s') end
  end.

Lemma write_all_session s0 done bufs s s' :
  tx_session 1 s0 done s → write_all bufs s = (true, s') → tx_session 1 s0 (done ++ bufs) s'.
Proof.
  revert done s. induction bufs as [|buf bufs IH]; intros done s Hs Hw; cbn [write_all] in Hw.
  - injection Hw as <-. by rewrite app_nil_r.
  - destruct (e_write_packet 1 buf s) as [[n|e|] s1] eqn:E; [|done|done].
    rewrite cons_middle, app_assoc. eapply IH; [|exact Hw]. by eapply tx_write.
Qed.

Lemma e1000_full_ring_stalls_witness :
  let s0 := (e_new 1 (mk_card 0 0 [] []) (mk_edma 0 0 (replicate 16 0) (replicate 16 0))).2 in
  let s := (write_all (replicate 16 [7]) s0).2 in
  let s' := Nat.iter 3 hw_step s in
  ec_sent (e_base s') = [] ∧ ∀ fuel' buf, (e_write_packet fuel' buf s').1 = Err still_spinning.
Proof.
  intros s0 s. refine (e1000_full_ring_stalls 0 1 0 0 [] (mk_edma 0 0 (replicate 16 0) (replicate 16 0))
    (replicate 16 [7]) s 3 _ _ _ _).
  - done.
  - apply (write_all_session s0 [] (replicate 16 [7]) s0); [apply tx_start|].
    refine (first_pair (write_all (replicate 16 [7]) s0) true _). by vm_compute.
  - done.
  - by vm_compute.
Defined.
