(* ===== verification/PciAccess.v ===== *)
(** PCI configuration space as pcid reaches it (pcid/src/cfg_access): through the
    memory windows of the MCFG table or the device tree, and through the
    configuration ports.

    The machine is [PciMachine]: 32-bit memory and port accesses.  [CfgRouting]
    states how the host bridge decodes them.  The files, the device tree library
    and the mapping of physical memory are arguments. *)

From S2P Require Import Prelude.

(** ** Addresses and tables *)

(** [pci_types::PciAddress]. *)
Record PciAddress := mk_pci_address { segment : Z; bus : Z; device : Z; function : Z }.

#[global] Instance pci_address_eq_dec : EqDecision PciAddress.
Proof. solve_decision. Defined.

Record InterruptMap := mk_interrupt_map {
  im_addr : list Z; im_interrupt : Z; im_parent_phandle : Z;
  im_parent_interrupt : list Z; im_parent_interrupt_cells : Z;
}.

Record PcieAlloc := mk_pcie_alloc {
  pa_base_addr : Z; pa_seg_group_num : Z; pa_start_bus : Z; pa_end_bus : Z; pa_rsvd : list Z;
}.

(** [repr(packed)]. *)
Definition pcie_alloc_bytes (a : PcieAlloc) : list Z :=
  le_bytes 8 (pa_base_addr a) ++ le_bytes 2 (pa_seg_group_num a)
  ++ [pa_start_bus a; pa_end_bus a] ++ pa_rsvd a.

Definition dec_pcie_alloc (bs : list Z) : PcieAlloc :=
  mk_pcie_alloc (le_val (slice 0 8 bs)) (le_val (slice 8 2 bs))
    (default 0 (bs !! 10%nat)) (default 0 (bs !! 11%nat)) (slice 12 4 bs).

Definition PCIE_ALLOC_SIZE : nat := 16.
Definition MCFG_SIZE : nat := 44.

(** The header of the table: what [parse] looks at is its length. *)
Definition mcfg_length (bs : list Z) : Z := le_val (slice 4 4 bs).

Fixpoint dec_allocs (n : nat) (bs : list Z) : list PcieAlloc :=
  match n with
  | O => []
  | S n => dec_pcie_alloc (take PCIE_ALLOC_SIZE bs) :: dec_allocs n (drop PCIE_ALLOC_SIZE bs)
  end.

Definition mcfg_parse (bytes : list Z) : option (list Z * list PcieAlloc) :=
  if (length bytes <? MCFG_SIZE)%nat then None
  else
    let header := take MCFG_SIZE bytes in
    let allocs_bytes := drop MCFG_SIZE bytes in
    if negb (mcfg_length header =? Z.of_nat (length bytes)) then None
    else Some (header, dec_allocs (length allocs_bytes / PCIE_ALLOC_SIZE) allocs_bytes).

(** The cells of the device tree's interrupt map; [next_chunk] of fewer cells than
    asked for uses up the iterator.  [cells_of] is the number of interrupt cells of
    the node with a phandle, [None] when there is none. *)
Fixpoint interrupt_map_loop (fuel : nat) (cells_of : Z → option Z) (l : list Z) :
    res errno (list InterruptMap) :=
  match fuel with
  | O => Ok []
  | S fuel =>
      match l with
      | a1 :: a2 :: a3 :: int1 :: phandle :: l =>
          match cells_of phandle with
          | None => Panic
          | Some n =>
              let entry p := mk_interrupt_map [a1; a2; a3] int1 phandle p n in
              let rest p l := match interrupt_map_loop fuel cells_of l with
                              | Ok es => Ok (entry p :: es)
                              | r => r
                              end in
              if n =? 1 then match l with a :: l => rest [a; 0; 0] l | _ => Ok [] end
              else if n =? 2 then match l with a :: b :: l => rest [a; b; 0] l | _ => Ok [] end
              else if n =? 3 then match l with a :: b :: c :: l => rest [a; b; c] l | _ => Ok [] end
              else Ok []
          end
      | _ => Ok []
      end
  end.

Definition interrupt_map (cells_of : Z → option Z) (l : list Z) : res errno (list InterruptMap) :=
  interrupt_map_loop (S (length l)) cells_of l.

(** ** The windows *)

Definition BYTES_PER_BUS : Z := Z.shiftl 1 20.

(** A mapped window; [al_mem] is where it is mapped. *)
Record Alloc := mk_alloc { al_seg : Z; al_start_bus : Z; al_end_bus : Z; al_mem : Z }.

Record Pcie := mk_pcie {
  pc_allocs : list Alloc; pc_interrupt_map : list InterruptMap; pc_interrupt_map_mask : list Z;
}.

(** The order of the pairs of a segment (16 bits) and a bus (8 bits). *)
Definition pair_key (seg b : Z) : Z := seg * 256 + b.

Definition al_key (a : Alloc) : Z := pair_key (al_seg a) (al_start_bus a).

Definition al_le (a b : Alloc) : Prop := al_key a <= al_key b.

#[global] Instance al_le_dec a b : Decision (al_le a b).
Proof. unfold al_le. apply _. Defined.

#[global] Instance al_le_total : Total al_le.
Proof. intros a b. unfold al_le. lia. Qed.

#[global] Instance al_le_trans : Transitive al_le.
Proof. intros a b c. unfold al_le. lia. Qed.

(** [PhysBorrowed::map] is [phys_map]: where the memory was mapped, if it was. *)
Definition map_alloc (phys_map : Z → Z → option Z) (desc : PcieAlloc) : option Alloc :=
  let len := as_usize (BYTES_PER_BUS * (pa_end_bus desc - pa_start_bus desc + 1)) in
  p ← phys_map (pa_base_addr desc) len;
  Some (mk_alloc (pa_seg_group_num desc) (pa_start_bus desc) (pa_end_bus desc) p).

Definition from_allocs (phys_map : Z → Z → option Z) (allocs : list PcieAlloc)
    (im : list InterruptMap) (mask : list Z) : Pcie :=
  mk_pcie (merge_sort al_le (omap (map_alloc phys_map) allocs)) im mask.

Definition MAX_MASK : list Z := replicate 4 (2 ^ 32 - 1).

Definition pcie_fallback : Pcie := mk_pcie [] [] MAX_MASK.

(** [Pcie::new]: the tables of ACPI, then the device tree, then the ports.  The
    arguments are what the two searches found. *)
Definition pcie_new (phys_map : Z → Z → option Z) (mcfg : option (list Z))
    (dtb : option (list PcieAlloc * list InterruptMap * list Z)) : Pcie :=
  match mcfg ≫= mcfg_parse with
  | Some (_, allocs) => from_allocs phys_map allocs [] MAX_MASK
  | None =>
      match dtb with
      | Some (allocs, im, mask) => from_allocs phys_map allocs im mask
      | None => pcie_fallback
      end
  end.

(** [binary_search_by_key] on a sorted list: the element with the key, or where it
    would be. *)
Fixpoint search_by_key (k : Z) (l : list Alloc) : nat + nat :=
  match l with
  | [] => inr O
  | a :: l =>
      if al_key a <? k then sum_map S S (search_by_key k l)
      else if al_key a =? k then inl O else inr O
  end.

Definition bus_addr (p : Pcie) (seg b : Z) : option Z :=
  let at_alloc a := Some (al_mem a + as_u8 (b - al_start_bus a) * BYTES_PER_BUS) in
  match search_by_key (pair_key seg b) (pc_allocs p) with
  | inl i => a ← pc_allocs p !! i; at_alloc a
  | inr O => None
  | inr (S i) => a ← pc_allocs p !! i; if al_end_bus a <? b then None else at_alloc a
  end.

(** In dwords; [None] is a failed assertion. *)
Definition bus_addr_offset_in_dwords (a : PciAddress) (offset : Z) : option Z :=
  if negb (Z.land offset 0xFFFC =? offset) || negb (Z.land offset 0x0FFF =? offset) then None
  else Some (Z.shiftr (Z.lor (Z.lor (Z.shiftl (device a) 15) (Z.shiftl (function a) 12)) offset) 2).

Section access.
Context {W : Type}.

(** 32-bit accesses of memory and ports. *)
Class PciMachine := {
  mem_read : Z → W → Z * W;
  mem_write : Z → Z → W → W;
  port_in32 : Z → W → Z * W;
  port_out32 : Z → Z → W → W;
}.
Context `{HM : PciMachine}.

Abbreviation cp := (prog W errno).

Definition load32 (addr : Z) : cp Z := λ w, let '(v, w') := mem_read addr w in (Ok v, w').

Definition inl32 (port : Z) : cp Z := λ w, let '(v, w') := port_in32 port w in (Ok v, w').

(** ** The ports *)

Definition fallback_address (a : PciAddress) (offset : Z) : cp Z :=
  if negb (segment a =? 0) then panic
  else if negb (Z.land offset 0xFC =? offset) then panic
  else mret (Z.lor (Z.lor (Z.lor (Z.lor 0x80000000 (Z.shiftl (bus a) 16))
               (Z.shiftl (device a) 11)) (Z.shiftl (function a) 8)) offset).

(** [u8::try_from(offset)]. *)
Definition offset_u8 (offset : Z) : cp Z := if 255 <? offset then panic else mret offset.

Definition fallback_read (a : PciAddress) (offset : Z) : cp Z :=
  offset ← offset_u8 offset;
  addr ← fallback_address a offset;
  _ ← modify (port_out32 0xCF8 addr);
  inl32 0xCFC.

Definition fallback_write (a : PciAddress) (offset value : Z) : cp unit :=
  offset ← offset_u8 offset;
  addr ← fallback_address a offset;
  _ ← modify (port_out32 0xCF8 addr);
  modify (port_out32 0xCFC value).

(** ** The windows and the ports *)

Definition mmio_addr (p : Pcie) (a : PciAddress) (offset : Z) : cp (option Z) :=
  if negb (segment a =? 0) then panic
  else
    match bus_addr p (segment a) (bus a) with
    | None => mret None
    | Some base =>
        match bus_addr_offset_in_dwords a offset with
        | None => panic
        | Some n => mret (Some (base + 4 * n))
        end
    end.

Definition pcie_read (p : Pcie) (a : PciAddress) (offset : Z) : cp Z :=
  m ← mmio_addr p a offset;
  match m with
  | Some addr => load32 addr
  | None => fallback_read a offset
  end.

Definition pcie_write (p : Pcie) (a : PciAddress) (offset value : Z) : cp unit :=
  m ← mmio_addr p a offset;
  match m with
  | Some addr => modify (mem_write addr value)
  | None => fallback_write a offset value
  end.

End access.
Arguments PciMachine : clear implicits.

(** ** The tables *)

Definition pcie_alloc_ok (a : PcieAlloc) : Prop :=
  u_range 64 (pa_base_addr a) ∧ u_range 16 (pa_seg_group_num a) ∧ u_range 8 (pa_start_bus a) ∧
  u_range 8 (pa_end_bus a) ∧ length (pa_rsvd a) = 4%nat.

Lemma length_pcie_alloc_bytes a : pcie_alloc_ok a → length (pcie_alloc_bytes a) = PCIE_ALLOC_SIZE.
Proof.
  intros (_ & _ & _ & _ & Hr). unfold pcie_alloc_bytes.
  rewrite !length_app, !length_le_bytes. cbn [length]. rewrite Hr. done.
Qed.

Lemma dec_pcie_alloc_bytes a : pcie_alloc_ok a → dec_pcie_alloc (pcie_alloc_bytes a) = a.
Proof.
  destruct a as [base seg start fin rsvd]. intros (Hb & Hs & _ & _ & Hr). cbn in Hb, Hs, Hr.
  unfold dec_pcie_alloc, pcie_alloc_bytes. cbn [pa_base_addr pa_seg_group_num pa_start_bus pa_end_bus pa_rsvd].
  assert (slice 0 8 (le_bytes 8 base ++ le_bytes 2 seg ++ [start; fin] ++ rsvd) = le_bytes 8 base) as ->.
  { unfold slice. rewrite drop_0, take_app_le by (by rewrite length_le_bytes). apply take_ge. by rewrite length_le_bytes. }
  assert (slice 8 2 (le_bytes 8 base ++ le_bytes 2 seg ++ [start; fin] ++ rsvd) = le_bytes 2 seg) as ->.
  { unfold slice. rewrite drop_app_length' by (by rewrite length_le_bytes).
    rewrite take_app_le by (by rewrite length_le_bytes). apply take_ge. by rewrite length_le_bytes. }
  rewrite !le_val_bytes by done.
  f_equal. change (take 4 rsvd = rsvd). apply take_ge. by rewrite Hr.
Qed.

Lemma dec_allocs_bytes l rest :
  Forall pcie_alloc_ok l → dec_allocs (length l) ((l ≫= pcie_alloc_bytes) ++ rest) = l.
Proof.
  induction 1 as [|a l Ha _ IH]; [done|]. cbn [length dec_allocs mbind list_bind].
  rewrite <- app_assoc, take_app_length' by (symmetry; by apply length_pcie_alloc_bytes).
  rewrite drop_app_length' by (symmetry; by apply length_pcie_alloc_bytes). by rewrite dec_pcie_alloc_bytes, IH.
Qed.

Lemma length_allocs_bytes l : Forall pcie_alloc_ok l →
  length (l ≫= pcie_alloc_bytes) = (length l * PCIE_ALLOC_SIZE)%nat.
Proof.
  induction 1 as [|a l Ha _ IH]; [done|]. cbn [length mbind list_bind].
  rewrite length_app, length_pcie_alloc_bytes, IH by done. lia.
Qed.

(** A table whose length field is right is parsed into exactly its entries; bytes
    after the last whole entry are ignored. *)
Lemma mcfg_roundtrip header l rest :
  length header = MCFG_SIZE → Forall pcie_alloc_ok l → (length rest < PCIE_ALLOC_SIZE)%nat →
  let bytes := header ++ (l ≫= pcie_alloc_bytes) ++ rest in
  mcfg_length header = Z.of_nat (length bytes) → mcfg_parse bytes = Some (header, l).
Proof.
  intros Hh Hl Hr bytes Hlen. unfold mcfg_parse.
  rewrite (proj2 (Nat.ltb_ge _ _)) by (unfold bytes; rewrite length_app; lia).
  unfold bytes at 1 3 4 5. rewrite take_app_length', drop_app_length' by done. rewrite Hlen, Z.eqb_refl. cbn [negb].
  rewrite length_app, length_allocs_bytes by done.
  rewrite Nat.div_add_l, Nat.div_small, Nat.add_0_r by (unfold PCIE_ALLOC_SIZE; (lia || done)).
  by rewrite dec_allocs_bytes.
Qed.

(** ** Finding the window of a bus *)

Definition alloc_ok (a : Alloc) : Prop :=
  0 <= al_seg a ∧ 0 <= al_start_bus a <= al_end_bus a ∧ al_end_bus a < 256.

(** The window [a] of segment 0 holds the bus. *)
Definition covers (b : Z) (a : Alloc) : Prop := al_seg a = 0 ∧ al_start_bus a <= b <= al_end_bus a.

(** No bus is in two windows. *)
Definition disjoint_windows (l : list Alloc) : Prop :=
  ∀ a a' b, a ∈ l → a' ∈ l → covers b a → covers b a' → a = a'.

Lemma search_spec k l :
  StronglySorted al_le l →
  match search_by_key k l with
  | inl i => ∃ a, l !! i = Some a ∧ al_key a = k
  | inr i => ∀ j a, l !! j = Some a → if decide (j < i)%nat then al_key a < k else k < al_key a
  end ∧ match search_by_key k l with inl i | inr i => (i <= length l)%nat end.
Proof.
  induction 1 as [|a l Hs IH Ha]; [split; [intros j a Hj; by rewrite lookup_nil in Hj|cbn; lia]|]. cbn [search_by_key]. destruct IH as [IH1 IH2].
  destruct (Z.ltb_spec (al_key a) k) as [Hlt|Hge].
  - destruct (search_by_key k l) as [i|i]; cbn [sum_map]; (split; [|cbn; lia]); [exact IH1|].
    intros [|j] a' Hj; cbn in Hj; [by injection Hj as <-; rewrite decide_True by lia|].
    specialize (IH1 j a' Hj). destruct (decide (j < i)%nat), (decide (S j < S i)%nat); (lia || done).
  - destruct (Z.eqb_spec (al_key a) k) as [Heq|Hne]; (split; [|cbn; lia]); [by exists a|].
    intros [|j] a' Hj; cbn in Hj; rewrite decide_False by lia; [injection Hj as <-; lia|].
    apply (Forall_lookup_1 _ _ _ _ Ha) in Hj. unfold al_le in Hj. lia.
Qed.

Lemma key_bus a seg b : alloc_ok a → 0 <= b < 256 → al_key a = pair_key seg b → al_seg a = seg ∧ al_start_bus a = b.
Proof. intros (H1 & H2 & H3) Hb Hk. unfold al_key, pair_key in Hk. lia. Qed.

(** [bus_addr] finds the window of a bus, when there is one. *)
Lemma bus_addr_covered l im mask a b :
  StronglySorted al_le l → Forall alloc_ok l → disjoint_windows l → 0 <= b < 256 → a ∈ l → covers b a →
  bus_addr (mk_pcie l im mask) 0 b = Some (al_mem a + (b - al_start_bus a) * BYTES_PER_BUS).
Proof.
  intros Hs Hok Hd Hb Ha Hc. unfold bus_addr. cbn [pc_allocs].
  rewrite Forall_forall in Hok. pose proof (Hok a Ha) as (A1 & A2 & A3). pose proof Hc as [C1 C2].
  destruct (search_spec (pair_key 0 b) l Hs) as [Hsp Hlen].
  destruct (search_by_key (pair_key 0 b) l) as [i|i].
  - destruct Hsp as (a' & Hi & Hk). rewrite Hi. cbn [mbind option_bind].
    pose proof (Hok a' (list_elem_of_lookup_2 _ _ _ Hi)) as Ha'. destruct (key_bus a' 0 b Ha' Hb Hk) as [K1 K2].
    assert (a = a') as <-.
    { apply (Hd a a' b); [done|by eapply list_elem_of_lookup_2|done|]. split; [done|]. destruct Ha' as (_ & ? & _). lia. }
    unfold as_u8. by rewrite as_u_id by (unfold u_range; lia).
  - apply list_elem_of_lookup_1 in Ha as [j Hj]. pose proof (Hsp j a Hj) as Hja.
    destruct (decide (j < i)%nat) as [Hji|Hji].
    2:{ unfold al_key, pair_key in Hja. lia. }
    destruct i as [|i]; [lia|]. destruct (lookup_lt_is_Some_2 l i) as [a' Hi]; [lia|]. rewrite Hi. cbn [mbind option_bind].
    pose proof (Hsp i a' Hi) as Hia. rewrite decide_True in Hia by lia.
    pose proof (Hok a' (list_elem_of_lookup_2 _ _ _ Hi)) as (B1 & B2 & B3).
    assert (al_key a <= al_key a') as Hle.
    { destruct (decide (j = i)) as [->|]; [rewrite Hi in Hj; by injection Hj as ->|].
      exact (StronglySorted_app_1_elem_of al_le (take i l) (drop i l) a a' ltac:(by rewrite take_drop)
        ltac:(apply (list_elem_of_lookup_2 _ j); rewrite lookup_take_lt by lia; done)
        ltac:(apply (list_elem_of_lookup_2 _ 0%nat); by rewrite lookup_drop, Nat.add_0_r)). }
    assert (a = a') as <-.
    { apply (Hd a a' (al_start_bus a')); [by eapply list_elem_of_lookup_2|by eapply list_elem_of_lookup_2| |].
      - unfold al_key, pair_key in *. split; [done|]. lia.
      - unfold al_key, pair_key in *. split; lia. }
    rewrite (proj2 (Z.ltb_ge _ _)) by lia. unfold as_u8. by rewrite as_u_id by (unfold u_range; lia).
Qed.

(** Otherwise there is none. *)
Lemma bus_addr_uncovered l im mask b :
  StronglySorted al_le l → Forall alloc_ok l → 0 <= b < 256 → (∀ a, a ∈ l → ¬ covers b a) →
  bus_addr (mk_pcie l im mask) 0 b = None.
Proof.
  intros Hs Hok Hb Hc. unfold bus_addr. cbn [pc_allocs]. rewrite Forall_forall in Hok.
  destruct (search_spec (pair_key 0 b) l Hs) as [Hsp Hlen].
  destruct (search_by_key (pair_key 0 b) l) as [i|[|i]]; [|done|].
  - destruct Hsp as (a' & Hi & Hk). apply list_elem_of_lookup_2 in Hi as Hin. pose proof (Hok a' Hin) as Ha'.
    destruct (key_bus a' 0 b Ha' Hb Hk) as [K1 K2]. exfalso. apply (Hc a' Hin). split; [done|].
    destruct Ha' as (_ & ? & _). lia.
  - destruct (lookup_lt_is_Some_2 l i) as [a' Hi]; [lia|]. rewrite Hi. cbn [mbind option_bind].
    pose proof (Hsp i a' Hi) as Hia. rewrite decide_True in Hia by lia. apply list_elem_of_lookup_2 in Hi as Hin.
    pose proof (Hok a' Hin) as (B1 & B2 & B3). destruct (Z.ltb_spec (al_end_bus a') b); [done|]. exfalso.
    apply (Hc a' Hin). unfold al_key, pair_key in Hia. split; lia.
Qed.

(** ** Routing *)

Definition pci_addr_ok (a : PciAddress) : Prop :=
  segment a = 0 ∧ u_range 8 (bus a) ∧ u_range 5 (device a) ∧ u_range 3 (function a).

(** How the host bridge decodes the accesses.  The machine holds a configuration space [cfg_space],
    whose registers are read and written, with whatever effects that has in it, by [cfg_read] and
    [cfg_write].  A window holds 1 MiB for each of its buses, 32 KiB for each device and 4 KiB for
    each function; the port 0xCF8 selects the register that 0xCFC accesses, which is no access
    itself. *)
Class CfgRouting (W C : Type) `{HM : PciMachine W} (windows : list Alloc) := {
  cfg_space : W → C;
  cfg_read : PciAddress → Z → C → Z * C;
  cfg_write : PciAddress → Z → Z → C → C;
  window_read a n w : a ∈ windows → 0 <= n < (al_end_bus a - al_start_bus a + 1) * 2 ^ 20 →
    let '(v, w') := mem_read (al_mem a + n) w in
    (v, cfg_space w')
    = cfg_read (mk_pci_address (al_seg a) (al_start_bus a + Z.shiftr n 20) (field 15 5 n) (field 12 3 n))
        (field 0 12 n) (cfg_space w);
  window_write a n v w : a ∈ windows → 0 <= n < (al_end_bus a - al_start_bus a + 1) * 2 ^ 20 →
    cfg_space (mem_write (al_mem a + n) v w)
    = cfg_write (mk_pci_address (al_seg a) (al_start_bus a + Z.shiftr n 20) (field 15 5 n) (field 12 3 n))
        (field 0 12 n) v (cfg_space w);
  port_read x w : Z.testbit x 31 = true →
    let '(v, w') := port_in32 0xCFC (port_out32 0xCF8 x w) in
    (v, cfg_space w')
    = cfg_read (mk_pci_address 0 (field 16 8 x) (field 11 5 x) (field 8 3 x)) (field 0 8 x) (cfg_space w);
  port_write x v w : Z.testbit x 31 = true →
    cfg_space (port_out32 0xCFC v (port_out32 0xCF8 x w))
    = cfg_write (mk_pci_address 0 (field 16 8 x) (field 11 5 x) (field 8 3 x)) (field 0 8 x) v (cfg_space w);
}.

(** A register offset, and the masks the assertions use. *)
Lemma land_mask o m s n : 0 <= s → 0 <= n → m = Z.shiftl (Z.ones n) s → u_range (s + n) o →
  (Z.land o m =? o) = (field 0 s o =? 0).
Proof.
  intros Hs Hn Hm Ho. rewrite (land_of_mask o m s n Hs Hn Hm).
  pose proof (field_join o s n Hs Hn Ho) as Hj. destruct (Z.eqb_spec (field 0 s o) 0) as [E|E].
  - rewrite E, Z.lor_0_l in Hj. by apply Z.eqb_eq.
  - apply Z.eqb_neq. intros Heq. rewrite <- Heq in Hj at 3. apply E.
    assert (field 0 s (Z.lor (field 0 s o) (Z.shiftl (field s n o) s)) = field 0 s (Z.shiftl (field s n o) s)) as Hf
      by (by rewrite Hj).
    rewrite field_lor, field_shiftl_above, Z.lor_0_r in Hf by lia.
    by rewrite field_0_small in Hf by (by apply field_range).
Qed.

Section routing.
Context {W : Type} `{HM : PciMachine W}.

Definition ecam_offset (a : PciAddress) (offset : Z) : Z :=
  Z.lor (Z.lor (Z.shiftl (device a) 15) (Z.shiftl (function a) 12)) offset.

Lemma ecam_fields a offset :
  pci_addr_ok a → u_range 12 offset →
  u_range 20 (ecam_offset a offset) ∧ field 15 5 (ecam_offset a offset) = device a ∧
  field 12 3 (ecam_offset a offset) = function a ∧ field 0 12 (ecam_offset a offset) = offset.
Proof.
  intros (_ & _ & Hd & Hf) Ho. unfold ecam_offset. split_and!.
  - repeat apply u_range_lor; [apply (u_range_shiftl 20 5)|apply (u_range_shiftl 20 3)|apply (u_range_mono 12)]; (done || lia).
  - rewrite !field_lor, field_shiftl_eq, (field_shiftl_past 15 5 12 3), (field_small 15) by
      (done || lia || (apply (u_range_mono 12 15); (done || lia))).
    by rewrite !Z.lor_0_r, field_0_small.
  - rewrite !field_lor, field_shiftl_above, field_shiftl_eq, (field_small 12) by (done || lia).
    by rewrite Z.lor_0_l, Z.lor_0_r, field_0_small.
  - rewrite !field_lor, !field_shiftl_above by lia. by rewrite !Z.lor_0_l, field_0_small.
Qed.

Lemma cf8_fields a offset :
  pci_addr_ok a → u_range 8 offset →
  let x := Z.lor (Z.lor (Z.lor (Z.lor 0x80000000 (Z.shiftl (bus a) 16)) (Z.shiftl (device a) 11))
             (Z.shiftl (function a) 8)) offset in
  Z.testbit x 31 = true ∧ field 16 8 x = bus a ∧ field 11 5 x = device a ∧ field 8 3 x = function a ∧ field 0 8 x = offset.
Proof.
  intros (_ & Hb & Hd & Hf) Ho x. change 0x80000000 with (Z.shiftl 1 31) in x. unfold x. split_and!.
  - by rewrite !Z.lor_spec.
  - rewrite !field_lor, (field_shiftl_above 16 8 31), field_shiftl_eq, (field_shiftl_past 16 8 11 5),
      (field_shiftl_past 16 8 8 3), (field_small 16) by (done || lia || (apply (u_range_mono 8 16); (done || lia))).
    by rewrite Z.lor_0_l, !Z.lor_0_r, field_0_small.
  - rewrite !field_lor, (field_shiftl_above 11 5 31), (field_shiftl_above 11 5 16), field_shiftl_eq,
      (field_shiftl_past 11 5 8 3), (field_small 11) by (done || lia || (apply (u_range_mono 8 11); (done || lia))).
    by rewrite !Z.lor_0_l, !Z.lor_0_r, field_0_small.
  - rewrite !field_lor, (field_shiftl_above 8 3 31), (field_shiftl_above 8 3 16), (field_shiftl_above 8 3 11),
      field_shiftl_eq, (field_small 8) by (done || lia).
    by rewrite !Z.lor_0_l, !Z.lor_0_r, field_0_small.
  - rewrite !field_lor, !field_shiftl_above by lia. by rewrite !Z.lor_0_l, field_0_small.
Qed.

End routing.

#[global] Instance covers_dec b a : Decision (covers b a).
Proof. unfold covers. apply _. Defined.

Section access_routed.
Context {W : Type} `{HM : PciMachine W}.
Context (phys_map : Z → Z → option Z) (descs : list PcieAlloc) (im : list InterruptMap) (mask : list Z).

Abbreviation windows := (omap (map_alloc phys_map) descs).
Abbreviation pcie := (from_allocs phys_map descs im mask).

Context {C : Type} `{HR : !CfgRouting W C windows}.
Context (Hok : Forall alloc_ok windows) (Hdis : disjoint_windows windows).

(** [m] is the one access of a register that [cfg_read], or [cfg_write], is. *)
Definition reads (a : PciAddress) (offset : Z) (m : prog W errno Z) (w : W) : Prop :=
  ∃ v w', m w = (Ok v, w') ∧ (v, cfg_space w') = cfg_read a offset (cfg_space w).
Definition writes (a : PciAddress) (offset v : Z) (m : prog W errno unit) (w : W) : Prop :=
  ∃ w', m w = (Ok tt, w') ∧ cfg_space w' = cfg_write a offset v (cfg_space w).

Lemma sorted_windows : StronglySorted al_le (pc_allocs pcie).
Proof. apply StronglySorted_merge_sort; apply _. Qed.

Lemma perm_windows : pc_allocs pcie ≡ₚ windows.
Proof. apply merge_sort_Permutation. Qed.

Lemma in_windows a : a ∈ pc_allocs pcie ↔ a ∈ windows.
Proof. by rewrite perm_windows. Qed.

Lemma covered_addr a win :
  pci_addr_ok a → win ∈ windows → covers (bus a) win →
  bus_addr pcie 0 (bus a) = Some (al_mem win + (bus a - al_start_bus win) * BYTES_PER_BUS).
Proof.
  intros (_ & Hb & _) Hw Hc. apply bus_addr_covered; [apply sorted_windows| | | |by apply in_windows|done].
  - by rewrite perm_windows.
  - intros x y b Hx Hy. apply Hdis; by apply in_windows.
  - exact Hb.
Qed.

Lemma uncovered_addr a :
  pci_addr_ok a → (∀ win, win ∈ windows → ¬ covers (bus a) win) → bus_addr pcie 0 (bus a) = None.
Proof.
  intros (_ & Hb & _) Hw. apply bus_addr_uncovered; [apply sorted_windows| |exact Hb|].
  - by rewrite perm_windows.
  - intros win Hin. apply Hw. by apply in_windows.
Qed.

Lemma aligned_masks offset : u_range 12 offset → field 0 2 offset = 0 →
  Z.land offset 0xFFFC = offset ∧ Z.land offset 0x0FFF = offset.
Proof.
  intros Ho Ha. split.
  - apply Z.eqb_eq. rewrite (land_mask offset 0xFFFC 2 14); [by rewrite Ha|lia|lia|done|].
    apply (u_range_mono 12); [lia|done].
  - apply Z.eqb_eq. rewrite (land_mask offset 0x0FFF 0 12) by (done || lia).
    unfold field. change (Z.ones 0) with 0. by rewrite Z.land_0_r.
Qed.

(** A register in a window. *)
Lemma mmio_covered a win offset (w : W) :
  pci_addr_ok a → u_range 12 offset → field 0 2 offset = 0 → win ∈ windows → covers (bus a) win →
  mmio_addr pcie a offset w
  = (Ok (Some (al_mem win + ((bus a - al_start_bus win) * 2 ^ 20 + ecam_offset a offset))), w).
Proof.
  intros Ha Ho Hal Hw Hc. unfold mmio_addr. pose proof Ha as (Hs & _). rewrite Hs. cbn [Z.eqb negb].
  rewrite (covered_addr a win Ha Hw Hc). unfold bus_addr_offset_in_dwords.
  destruct (aligned_masks offset Ho Hal) as [-> ->]. rewrite Z.eqb_refl. cbn [negb orb].
  fold (ecam_offset a offset). assert (4 * Z.shiftr (ecam_offset a offset) 2 = ecam_offset a offset) as ->.
  { assert (field 0 2 (ecam_offset a offset) = 0) as Hf.
    { unfold ecam_offset. rewrite !field_lor, !field_shiftl_above, Hal by lia. done. }
    rewrite field_alt in Hf by lia. rewrite Z.shiftr_div_pow2 by lia. change (2 ^ 0) with 1 in Hf.
    rewrite Z.div_1_r in Hf. zdiv. }
  unfold BYTES_PER_BUS. change (Z.shiftl 1 20) with (2 ^ 20). unfold mret, prog_ret, p_ret. by rewrite Z.add_assoc.
Qed.

Lemma window_decode a win offset :
  pci_addr_ok a → u_range 12 offset → covers (bus a) win →
  let n := (bus a - al_start_bus win) * 2 ^ 20 + ecam_offset a offset in
  0 <= n < (al_end_bus win - al_start_bus win + 1) * 2 ^ 20 ∧
  mk_pci_address (al_seg win) (al_start_bus win + Z.shiftr n 20) (field 15 5 n) (field 12 3 n) = a ∧
  field 0 12 n = offset.
Proof.
  intros Ha Ho (Hs & Hc) n. destruct (ecam_fields a offset Ha Ho) as (Hr & Hd & Hf & H0).
  assert (n = Z.lor (Z.shiftl (bus a - al_start_bus win) 20) (ecam_offset a offset)) as Hn
    by (by rewrite lor_shiftl_add by (done || lia)).
  unfold u_range in Hr. split; [unfold n; lia|].
  assert (Z.shiftr n 20 = bus a - al_start_bus win) as Hq.
  { rewrite Z.shiftr_div_pow2 by lia. unfold n. rewrite Z.div_add_l, Z.div_small by lia. lia. }
  rewrite Hq. rewrite Hn, !field_lor, !(field_shiftl_above _ _ 20), !Z.lor_0_l, Hd, Hf, H0 by lia.
  split; [|done]. destruct a as [sg b d f], Ha as (Hsg & _). cbn in *. subst. f_equal; [done|lia].
Qed.

(** A register behind the ports. *)
Lemma ports_access a offset (w : W) :
  pci_addr_ok a → field 0 2 offset = 0 → 0 <= offset →
  if 256 <=? offset then (fallback_read a offset w).1 = Panic ∧ ∀ v, (fallback_write a offset v w).1 = Panic
  else reads a offset (fallback_read a offset) w ∧ ∀ v, writes a offset v (fallback_write a offset v) w.
Proof.
  intros Ha Hal H0. destruct (Z.leb_spec 256 offset) as [Hlt|Hlt].
  - unfold fallback_read, fallback_write, offset_u8, mbind, prog_bind, p_bind.
    rewrite (proj2 (Z.ltb_lt 255 offset)) by lia. done.
  - assert (u_range 8 offset) as Ho by (unfold u_range; lia).
    destruct (cf8_fields a offset Ha Ho) as (X1 & X2 & X3 & X4 & X5).
    set (x := Z.lor (Z.lor _ _) offset) in *.
    assert (∀ B (k : Z → prog W errno B),
      p_bind k (p_bind (fallback_address a) (offset_u8 offset)) w = k x w) as Hx.
    { intros B k. unfold offset_u8, fallback_address, p_bind. rewrite (proj2 (Z.ltb_ge 255 offset)) by lia.
      pose proof Ha as (-> & _). cbn [Z.eqb negb mret prog_ret p_ret].
      unfold mret, prog_ret, p_ret. rewrite (land_mask offset 0xFC 2 6), Hal by (done || lia). done. }
    assert (a = mk_pci_address 0 (field 16 8 x) (field 11 5 x) (field 8 3 x)) as Hax.
    { rewrite X2, X3, X4. destruct a as [sg b d f], Ha as (Hsg & _). cbn in Hsg |- *. by rewrite Hsg. }
    assert (∀ B (k : Z → prog W errno B), p_bind (λ o, p_bind k (fallback_address a o)) (offset_u8 offset) w = k x w) as Hx'.
    { intros B k. rewrite <- Hx. unfold p_bind, offset_u8. by destruct (255 <? offset). }
    split; [|intros v]; unfold reads, writes, fallback_read, fallback_write, mbind, prog_bind; rewrite Hx'.
    + unfold p_bind, modify, inl32. pose proof (port_read x w X1) as Hr. rewrite <- Hax, X5 in Hr.
      destruct (port_in32 0xCFC (port_out32 0xCF8 x w)) as [v w']. by exists v, w'.
    + unfold p_bind, modify. pose proof (port_write x v w X1) as Hr. rewrite <- Hax, X5 in Hr. by eexists.
Qed.

(** One aligned access of a register of segment 0. *)
Lemma access_routed a offset (w : W) :
  pci_addr_ok a → u_range 12 offset → offset mod 4 = 0 →
  if bool_decide (Exists (covers (bus a)) windows) || (offset <? 256) then
    reads a offset (pcie_read pcie a offset) w ∧ ∀ v, writes a offset v (pcie_write pcie a offset v) w
  else (pcie_read pcie a offset w).1 = Panic ∧ ∀ v, (pcie_write pcie a offset v w).1 = Panic.
Proof.
  intros Ha Ho Hal.
  assert (field 0 2 offset = 0) as Hal'.
  { rewrite field_alt by lia. change (2 ^ 0) with 1. by rewrite Z.div_1_r. }
  unfold reads, writes, pcie_read, pcie_write, mbind, prog_bind. case_bool_decide as Hc; cbn [orb].
  - apply list.Exists_exists in Hc as (win & Hin & Hc).
    pose proof (mmio_covered a win offset w Ha Ho Hal' Hin Hc) as Hm.
    destruct (window_decode a win offset Ha Ho Hc) as (Hn & Hdec & H0).
    split; [|intros v]; rewrite (bind_Ok _ _ _ _ _ Hm).
    + unfold load32. pose proof (window_read win _ w Hin Hn) as Hr. rewrite Hdec, H0 in Hr.
      destruct (mem_read _ w) as [v w']. by exists v, w'.
    + unfold modify. pose proof (window_write win _ v w Hin Hn) as Hr. rewrite Hdec, H0 in Hr. by eexists.
  - assert (mmio_addr pcie a offset w = (Ok None, w)) as Hm.
    { unfold mmio_addr. pose proof Ha as (Hs & _). rewrite Hs. cbn [Z.eqb negb].
      rewrite (uncovered_addr a Ha); [done|].
      intros win Hin Hcov. apply Hc. apply list.Exists_exists. by exists win. }
    pose proof (ports_access a offset w Ha Hal' (proj1 Ho)) as Hp. rewrite Z.leb_antisym in Hp.
    destruct (offset <? 256); cbn [negb] in Hp; destruct Hp as [Hp1 Hp2]; (split; [|intros v]); rewrite (bind_Ok _ _ _ _ _ Hm); [exact Hp1|exact (Hp2 v)|done|done].
Qed.

End access_routed.

(** ** Sequences of accesses *)

Inductive CfgAccess : Type := CaRead (a : PciAddress) (offset : Z) | CaWrite (a : PciAddress) (offset value : Z).

Definition ca_addr (x : CfgAccess) : PciAddress := match x with CaRead a _ | CaWrite a _ _ => a end.
Definition ca_offset (x : CfgAccess) : Z := match x with CaRead _ o | CaWrite _ o _ => o end.

(** The accesses one after the other, and what the reads returned. *)
Fixpoint pcie_run `{HM : PciMachine W} (p : Pcie) (l : list CfgAccess) : prog W errno (list Z) :=
  match l with
  | [] => mret []
  | CaRead a offset :: l => v ← pcie_read p a offset; vs ← pcie_run p l; mret (v :: vs)
  | CaWrite a offset value :: l => _ ← pcie_write p a offset value; pcie_run p l
  end.

(** The same on the configuration space. *)
Fixpoint cfg_run `{HR : CfgRouting W C ws} (l : list CfgAccess) (c : C) : list Z * C :=
  match l with
  | [] => ([], c)
  | CaRead a offset :: l => let '(v, c) := cfg_read a offset c in let '(vs, c) := cfg_run l c in (v :: vs, c)
  | CaWrite a offset value :: l => cfg_run l (cfg_write a offset value c)
  end.

(** An aligned access of a register of segment 0. *)
Definition access_ok (x : CfgAccess) : Prop := pci_addr_ok (ca_addr x) ∧ u_range 12 (ca_offset x) ∧ ca_offset x mod 4 = 0.

(** Behind the ports there are 256 bytes of a function. *)
Definition in_reach (ws : list Alloc) (x : CfgAccess) : bool := bool_decide (Exists (covers (bus (ca_addr x))) ws) || (ca_offset x <? 256).

(** C31. Configuration accesses reach the registers they name.  With windows that do not overlap, in
    any order, a sequence of aligned reads and writes of registers of segment 0, each through the
    window that holds its bus or else through the two ports, returns exactly what the same accesses
    of the configuration space of the machine return and has their effects, one after the other, as
    long as no register above 255 of a bus without window is accessed; at the first such access
    pcid panics. *)
Theorem config_access_routed `{HM : PciMachine W} phys_map descs im mask
    {C : Type} `{HR : !CfgRouting W C (omap (map_alloc phys_map) descs)} (l : list CfgAccess) (w : W) :
  let ws := omap (map_alloc phys_map) descs in
  let p := from_allocs phys_map descs im mask in
  Forall alloc_ok ws → disjoint_windows ws → Forall access_ok l →
  if forallb (in_reach ws) l then
    ∃ w', pcie_run p l w = (Ok (cfg_run l (cfg_space w)).1, w') ∧ cfg_space w' = (cfg_run l (cfg_space w)).2
  else (pcie_run p l w).1 = Panic.
Proof.
  intros ws p Hok Hdis Hl. revert w. induction Hl as [|x l (Ha & Ho & Hal) _ IH]; intros w; cbn [forallb]; [by exists w|].
  pose proof (access_routed phys_map descs im mask Hok Hdis (ca_addr x) (ca_offset x) w Ha Ho Hal) as Hx.
  change (bool_decide _ || _) with (in_reach ws x) in Hx. destruct (in_reach ws x); cbn [andb].
  - destruct x as [a o|a o v]; cbn [pcie_run cfg_run ca_addr ca_offset] in *; unfold mbind, prog_bind.
    + destruct Hx as [(v & w1 & E & Hv) _]. rewrite (bind_Ok _ _ _ _ _ E), <- Hv. specialize (IH w1).
      destruct (forallb (in_reach ws) l).
      * destruct IH as (w' & E' & Hw'). exists w'. rewrite (bind_Ok _ _ _ _ _ E'). by destruct (cfg_run l (cfg_space w1)).
      * unfold p_bind. destruct (pcie_run p l w1) as [[]]; done.
    + destruct (proj2 Hx v) as (w1 & E & Hw1). rewrite (bind_Ok _ _ _ _ _ E), <- Hw1. apply IH.
  - destruct x as [a o|a o v]; cbn [pcie_run ca_addr ca_offset] in *; unfold mbind, prog_bind, p_bind.
    + destruct (pcie_read p a o w) as [r w1] eqn:E. destruct Hx as [Hx _]. unfold p in E. rewrite E in Hx. cbn [fst] in Hx. by subst r.
    + destruct (pcie_write p a o v w) as [r w1] eqn:E. pose proof (proj2 Hx v) as Hy. unfold p in E. rewrite E in Hy. cbn [fst] in Hy. by subst r.
Qed.

(** A machine for the examples: the register behind 0xCF8, and the configuration
    space; one window for the buses 0 and 1, mapped at 0. *)
Definition PciBox : Type := Z * gmap (Z * Z * Z * Z) Z.

Definition box_key (a : PciAddress) (offset : Z) : Z * Z * Z * Z := (bus a, device a, function a, offset).

Definition box_read (a : PciAddress) (offset : Z) (w : PciBox) : Z * PciBox :=
  (default (2 ^ 32 - 1) (w.2 !! box_key a offset), w).

Definition box_write (a : PciAddress) (offset v : Z) (w : PciBox) : PciBox :=
  (w.1, <[box_key a offset := v]> w.2).

Definition box_window (n : Z) : PciAddress :=
  mk_pci_address 0 (0 + Z.shiftr n 20) (field 15 5 n) (field 12 3 n).

Definition box_port (x : Z) : PciAddress := mk_pci_address 0 (field 16 8 x) (field 11 5 x) (field 8 3 x).

#[local] Instance box_machine : PciMachine PciBox := {|
  mem_read n w := box_read (box_window n) (field 0 12 n) w;
  mem_write n v w := box_write (box_window n) (field 0 12 n) v w;
  port_in32 p w := box_read (box_port w.1) (field 0 8 w.1) w;
  port_out32 p v w := if p =? 0xCF8 then (v, w.2) else box_write (box_port w.1) (field 0 8 w.1) v w;
|}.

Definition box_map (base len : Z) : option Z := Some 0.
Definition box_descs : list PcieAlloc := [mk_pcie_alloc 0xB0000000 0 0 1 [0; 0; 0; 0]].

#[local] Instance box_routing : CfgRouting PciBox (gmap (Z * Z * Z * Z) Z) (omap (map_alloc box_map) box_descs).
Proof.
  refine (Build_CfgRouting _ _ _ _ snd (λ a o c, ((box_read a o (0, c)).1, c)) (λ a o v c, (box_write a o v (0, c)).2) _ _ _ _); [| |done|done].
  - intros a n w Ha _. apply list_elem_of_singleton in Ha as ->. done.
  - intros a n v w Ha _. apply list_elem_of_singleton in Ha as ->. done.
Defined.

(** A write through the window, one through the ports to a bus without window, and both read back. *)
Definition box_accesses : list CfgAccess :=
  [CaWrite (mk_pci_address 0 1 2 3) 0x40 7; CaWrite (mk_pci_address 0 9 0 0) 0x3C 5; CaRead (mk_pci_address 0 1 2 3) 0x40; CaRead (mk_pci_address 0 9 0 0) 0x3C].

Lemma config_access_routed_witness :
  ∃ w', pcie_run (from_allocs box_map box_descs [] MAX_MASK) box_accesses (0, ∅) = (Ok [7; 5], w').
Proof.
  assert (∃ w', pcie_run (from_allocs box_map box_descs [] MAX_MASK) box_accesses (0, ∅)
    = (Ok (cfg_run box_accesses ∅).1, w') ∧ w'.2 = (cfg_run box_accesses ∅).2) as (w' & E & _).
  - refine (config_access_routed box_map box_descs [] MAX_MASK box_accesses (0, ∅) _ _ _).
    + repeat constructor; cbn; lia.
    + intros a a' b Ha Ha'. apply list_elem_of_singleton in Ha as ->. by apply list_elem_of_singleton in Ha' as ->.
    + repeat constructor; cbn; lia.
  - exists w'. rewrite E. reflexivity.
Defined.
