(* ===== verification/PciConfig.v ===== *)
(** What pcid tells drivers apart by and tells them (pcid/src/config.rs and
    pcid/src/driver_interface): matching a function with the configuration, the
    base address registers, MSI and MSI-X data, vendor capabilities. *)

From Stdlib Require Import Ascii.
From S2P Require Import Prelude PciAccess.

(** ** Matching *)

Record FullDeviceId := mk_device_id {
  di_vendor_id : Z; di_device_id : Z; di_class : Z; di_subclass : Z; di_interface : Z; di_revision : Z;
}.

#[global] Instance device_id_eq_dec : EqDecision FullDeviceId.
Proof. solve_decision. Defined.

(** The ids are those of the map, in its order. *)
Record DriverConfig := mk_driver_config {
  dc_name : option string;
  dc_class : option Z;
  dc_subclass : option Z;
  dc_interface : option Z;
  dc_ids : option (list (string * list Z));
  dc_vendor : option Z;
  dc_device : option Z;
  dc_device_id_range : option (Z * Z);
  dc_command : option (list string);
}.

Fixpoint trim_0x (s : string) : string :=
  match s with
  | String "0"%char (String "x"%char s) => trim_0x s
  | _ => s
  end.

Definition hex_digit (c : Ascii.ascii) : option Z :=
  let n := Z.of_nat (Ascii.nat_of_ascii c) in
  if (48 <=? n) && (n <=? 57) then Some (n - 48)
  else if (97 <=? n) && (n <=? 102) then Some (n - 87)
  else if (65 <=? n) && (n <=? 70) then Some (n - 55)
  else None.

Fixpoint hex_digits (acc : Z) (s : string) : option Z :=
  match s with
  | EmptyString => Some acc
  | String c s => d ← hex_digit c; hex_digits (16 * acc + d) s
  end.

(** [i64::from_str_radix(s, 16)]. *)
Definition parse_i64_hex (s : string) : option Z :=
  let in_range x := if (- 2 ^ 63 <=? x) && (x <? 2 ^ 63) then Some x else None in
  match s with
  | EmptyString => None
  | String "-"%char s => if bool_decide (s = "") then None else x ← hex_digits 0 s; in_range (- x)
  | String "+"%char s => if bool_decide (s = "") then None else x ← hex_digits 0 s; in_range x
  | s => x ← hex_digits 0 s; in_range x
  end.

(** The loop over the ids: [None] is a vendor that does not parse. *)
Fixpoint ids_match (id : FullDeviceId) (ids : list (string * list Z)) (found : bool) : option bool :=
  match ids with
  | [] => Some found
  | (vendor, devices) :: ids =>
      v ← parse_i64_hex (trim_0x vendor);
      if negb (as_u16 v =? di_vendor_id id) then ids_match id ids found
      else ids_match id ids (found || existsb (Z.eqb (di_device_id id)) devices)
  end.

(** [Some] field that differs. *)
Definition differs (o : option Z) (x : Z) : bool := match o with Some y => negb (y =? x) | None => false end.

Definition out_of_range (o : option (Z * Z)) (x : Z) : bool :=
  match o with Some (start, fin) => (x <? start) || (fin <=? x) | None => false end.

(** [None] is a panic. *)
Definition match_function (c : DriverConfig) (id : FullDeviceId) : option bool :=
  if differs (dc_class c) (di_class id) then Some false
  else if differs (dc_subclass c) (di_subclass id) then Some false
  else if differs (dc_interface c) (di_interface id) then Some false
  else
    ok ← (match dc_ids c with
          | Some ids => ids_match id ids false
          | None => Some (negb (differs (dc_vendor c) (di_vendor_id id))
                          && negb (differs (dc_device c) (di_device_id id)))
          end);
    if negb ok then Some false
    else Some (negb (out_of_range (dc_device_id_range c) (di_device_id id))).

(** ** Base address registers *)

Inductive PciBar : Type :=
| BarNone
| BarMemory32 (addr size : Z)
| BarMemory64 (addr size : Z)
| BarPort (port : Z).

#[global] Instance pci_bar_eq_dec : EqDecision PciBar.
Proof. solve_decision. Defined.

Definition bar_is_none (b : PciBar) : bool := match b with BarNone => true | _ => false end.

Definition expect_port (b : PciBar) : option Z := match b with BarPort p => Some p | _ => None end.

Definition expect_mem (b : PciBar) : option (Z * Z) :=
  match b with BarMemory32 a n | BarMemory64 a n => Some (a, n) | _ => None end.

(** ** MSI and MSI-X *)

Record MsiAddrAndData := mk_msi_data { md_addr : Z; md_data : Z }.

Record MsiInfo := mk_msi_info {
  mi_log2_multiple_message_capable : Z; mi_is_64bit : bool; mi_has_per_vector_masking : bool;
}.

Record MsixInfo := mk_msix_info {
  mx_table_bar : Z; mx_table_offset : Z; mx_table_size : Z; mx_pba_bar : Z; mx_pba_offset : Z;
}.

Definition div_ceil (a b : Z) : Z := (a + b - 1) / b.

(** [None] is a panic. *)
Definition msix_validate (i : MsixInfo) (bars : list PciBar) : option unit :=
  if 5 <? mx_table_bar i then None
  else if 5 <? mx_pba_bar i then None
  else
    let table_min_length := as_u16 (mx_table_size i * 16) in
    let pba_min_length := div_ceil (mx_table_size i) 8 in
    tb ← bars !! Z.to_nat (mx_table_bar i);
    '(_, table_bar_size) ← expect_mem tb;
    pb ← bars !! Z.to_nat (mx_pba_bar i);
    '(_, pba_bar_size) ← expect_mem pb;
    let inside size n := (0 <=? n) && (n <? size) in
    if negb (inside table_bar_size (mx_table_offset i + table_min_length)) then None
    else if negb (inside pba_bar_size (mx_pba_offset i + pba_min_length)) then None
    else Some tt.

(** A table entry as four words. *)
Record MsixTableEntry := mk_msix_entry { mt_addr_lo : Z; mt_addr_hi : Z; mt_msg_data : Z; mt_vec_ctl : Z }.

Definition mt_addr (e : MsixTableEntry) : Z := Z.lor (mt_addr_lo e) (Z.shiftl (mt_addr_hi e) 32).

Definition VEC_CTL_MASK_BIT : Z := 1.

Definition set_masked (masked : bool) (e : MsixTableEntry) : MsixTableEntry :=
  mk_msix_entry (mt_addr_lo e) (mt_addr_hi e) (mt_msg_data e)
    (if masked then Z.lor (mt_vec_ctl e) VEC_CTL_MASK_BIT
     else Z.land (mt_vec_ctl e) (Z.lxor VEC_CTL_MASK_BIT (Z.ones 32))).

Definition mt_mask : MsixTableEntry → MsixTableEntry := set_masked true.
Definition mt_unmask : MsixTableEntry → MsixTableEntry := set_masked false.

Definition write_addr_and_data (d : MsiAddrAndData) (e : MsixTableEntry) : MsixTableEntry :=
  mk_msix_entry (as_u32 (md_addr d)) (as_u32 (Z.shiftr (md_addr d) 32)) (md_data d) (mt_vec_ctl e).

Inductive TriggerMode : Type := TmEdge | TmLevel.
Inductive LevelTriggerMode : Type := LtDeassert | LtAssert.
Inductive DeliveryMode : Type := DmFixed | DmLowestPriority | DmSmi | DmNmi | DmInit | DmExtInit.

Definition trigger_mode_code (t : TriggerMode) : Z := match t with TmEdge => 0 | TmLevel => 1 end.
Definition level_trigger_mode_code (t : LevelTriggerMode) : Z := match t with LtDeassert => 0 | LtAssert => 1 end.
Definition delivery_mode_code (d : DeliveryMode) : Z :=
  match d with DmFixed => 0 | DmLowestPriority => 1 | DmSmi => 2 | DmNmi => 4 | DmInit => 5 | DmExtInit => 7 end.

Definition message_address (destination_id : Z) (redirect_hint dest_mode_logical : bool) : Z :=
  Z.lor (Z.lor (Z.lor 0xFEE00000 (Z.shiftl destination_id 12)) (Z.shiftl (of_bool redirect_hint) 3))
    (Z.shiftl (of_bool dest_mode_logical) 2).

Definition message_data (t : TriggerMode) (l : LevelTriggerMode) (d : DeliveryMode) (vector : Z) : Z :=
  Z.lor (Z.lor (Z.lor (Z.shiftl (trigger_mode_code t) 15) (Z.shiftl (level_trigger_mode_code l) 14))
           (Z.shiftl (delivery_mode_code d) 8)) vector.

Definition message_data_level_triggered (l : LevelTriggerMode) (d : DeliveryMode) (vector : Z) : Z :=
  message_data TmLevel l d vector.

Definition message_data_edge_triggered (d : DeliveryMode) (vector : Z) : Z :=
  message_data TmEdge LtDeassert d vector.

(** ** Vendor capabilities *)

(** [(start..fin).step_by(4)]. *)
Fixpoint steps_4 (n : nat) (start : Z) : list Z :=
  match n with O => [] | S n => start :: steps_4 n (start + 4) end.

Section vendor.
Context {W : Type} (read : Z → prog W errno Z).

Fixpoint read_dwords (offsets : list Z) : prog W errno (list Z) :=
  match offsets with
  | [] => mret []
  | o :: offsets => d ← read o; rest ← read_dwords offsets; mret (le_bytes 4 d ++ rest)
  end.

(** The data after the three bytes of the header. *)
Definition vendor_parse (offset : Z) : prog W errno (list Z) :=
  dword ← read offset;
  let len := Z.land (Z.shiftr dword 16) 0xFF in
  if 0 <? len then
    if (3 <? len) && (len mod 4 =? 0) then
      raw ← read_dwords (steps_4 (Z.to_nat (len / 4)) offset);
      mret (drop 3 raw)
    else panic
  else mret [].

End vendor.

(** ** What matches *)

(** The vendor of an entry of the ids. *)
Definition entry_vendor (vendor : string) : option Z := as_u16 <$> parse_i64_hex (trim_0x vendor).

(** A function matches a configuration. *)
Record function_matches (c : DriverConfig) (id : FullDeviceId) : Prop := {
  fm_class : ∀ x, dc_class c = Some x → x = di_class id;
  fm_subclass : ∀ x, dc_subclass c = Some x → x = di_subclass id;
  fm_interface : ∀ x, dc_interface c = Some x → x = di_interface id;
  fm_ids : ∀ ids, dc_ids c = Some ids →
    ∃ vendor devices, (vendor, devices) ∈ ids ∧ entry_vendor vendor = Some (di_vendor_id id) ∧ di_device_id id ∈ devices;
  fm_vendor : ∀ x, dc_ids c = None → dc_vendor c = Some x → x = di_vendor_id id;
  fm_device : ∀ x, dc_ids c = None → dc_device c = Some x → x = di_device_id id;
  fm_range : ∀ start fin, dc_device_id_range c = Some (start, fin) → start <= di_device_id id < fin;
}.

Lemma differs_false o x : differs o x = false ↔ ∀ y, o = Some y → y = x.
Proof.
  destruct o as [y|]; cbn; [|naive_solver]. rewrite negb_false_iff, Z.eqb_eq. naive_solver.
Qed.

Lemma differs_true o x : differs o x = true → ∃ y, o = Some y ∧ y ≠ x.
Proof. destruct o as [y|]; [|done]. cbn. rewrite negb_true_iff, Z.eqb_neq. naive_solver. Qed.

Lemma ids_match_spec id ids found :
  Forall (λ e, is_Some (entry_vendor e.1)) ids →
  ∃ b, ids_match id ids found = Some b ∧
    (b = true ↔ found = true ∨ ∃ vendor devices, (vendor, devices) ∈ ids ∧
       entry_vendor vendor = Some (di_vendor_id id) ∧ di_device_id id ∈ devices).
Proof.
  intros Hok. revert found. induction Hok as [|[vendor devices] ids [v Hv] _ IH]; intros found; cbn [ids_match].
  - exists found. split; [done|]. split; [by left|]. intros [?|(v & d & Hin & _)]; [done|]. by apply not_elem_of_nil in Hin.
  - cbn [fst] in Hv. unfold entry_vendor in Hv. apply fmap_Some in Hv as (x & Hx & ->). rewrite Hx. cbn [mbind option_bind].
    assert (existsb (Z.eqb (di_device_id id)) devices = true ↔ di_device_id id ∈ devices) as Hdev.
    { rewrite existsb_exists. split.
      - intros (y & Hy & He). apply Z.eqb_eq in He. subst y. by apply list_elem_of_In.
      - intros Hin. exists (di_device_id id). split; [by apply list_elem_of_In|apply Z.eqb_refl]. }
    destruct (Z.eqb_spec (as_u16 x) (di_vendor_id id)) as [E|E]; cbn [negb].
    + destruct (IH (found || existsb (Z.eqb (di_device_id id)) devices)) as (b & -> & Hb). exists b. split; [done|].
      rewrite Hb, orb_true_iff, Hdev. split.
      * intros [[?|?]|(v & d & Hin & Hr)]; [by left|right|right]; [exists vendor, devices|exists v, d].
        -- split; [by left|]. unfold entry_vendor. by rewrite Hx, <- E.
        -- split; [by right|done].
      * intros [?|(v & d & Hin & Hr & Hd)]; [by left; left|].
        apply elem_of_cons in Hin as [[= -> ->]|Hin]; [by left; right|]. right. by exists v, d.
    + destruct (IH found) as (b & -> & Hb). exists b. split; [done|]. rewrite Hb. split.
      * intros [?|(v & d & Hin & Hr)]; [by left|right]. exists v, d. split; [by right|done].
      * intros [?|(v & d & Hin & Hr & Hd)]; [by left|].
        apply elem_of_cons in Hin as [[= -> ->]|Hin]; [|right; by exists v, d].
        unfold entry_vendor in Hr. rewrite Hx in Hr. injection Hr as Hr. done.
Qed.

(** Matching decides exactly the conditions of a configuration: class, subclass and
    interface, one of the ids if ids are given and vendor and device otherwise, and the
    half-open range of device ids.  With vendors that are hexadecimal numbers it never
    panics. *)
Theorem match_function_spec c id :
  (∀ ids, dc_ids c = Some ids → Forall (λ e, is_Some (entry_vendor e.1)) ids) →
  ∃ b, match_function c id = Some b ∧ (b = true ↔ function_matches c id).
Proof.
  intros Hids. unfold match_function.
  destruct (differs (dc_class c) _) eqn:H1.
  { exists false. split; [done|]. split; [done|]. intros []. apply differs_true in H1 as (y & ? & ?). naive_solver. }
  destruct (differs (dc_subclass c) _) eqn:H2.
  { exists false. split; [done|]. split; [done|]. intros []. apply differs_true in H2 as (y & ? & ?). naive_solver. }
  destruct (differs (dc_interface c) _) eqn:H3.
  { exists false. split; [done|]. split; [done|]. intros []. apply differs_true in H3 as (y & ? & ?). naive_solver. }
  rewrite differs_false in H1, H2, H3.
  assert (∃ ok, match dc_ids c with
    | Some ids => ids_match id ids false
    | None => Some (negb (differs (dc_vendor c) (di_vendor_id id)) && negb (differs (dc_device c) (di_device_id id)))
    end = Some ok ∧ (ok = true ↔
      (∀ ids, dc_ids c = Some ids → ∃ vendor devices, (vendor, devices) ∈ ids ∧
         entry_vendor vendor = Some (di_vendor_id id) ∧ di_device_id id ∈ devices) ∧
      (∀ x, dc_ids c = None → dc_vendor c = Some x → x = di_vendor_id id) ∧
      (∀ x, dc_ids c = None → dc_device c = Some x → x = di_device_id id))) as (ok & -> & Hm).
  { destruct (dc_ids c) as [ids|].
    - destruct (ids_match_spec id ids false (Hids ids eq_refl)) as (b & Hb & Hs). exists b. split; [done|].
      rewrite Hs. naive_solver.
    - eexists. split; [reflexivity|]. rewrite andb_true_iff, !negb_true_iff, !differs_false. naive_solver. }
  cbn [mbind option_bind].
  assert (out_of_range (dc_device_id_range c) (di_device_id id) = false ↔
    ∀ start fin, dc_device_id_range c = Some (start, fin) → start <= di_device_id id < fin) as Hr.
  { destruct (dc_device_id_range c) as [[st fin]|]; cbn; [|naive_solver]. rewrite orb_false_iff, Z.ltb_ge, Z.leb_gt.
    split; [by intros ? ? ? [= <- <-]|]. intros Hx. by apply Hx. }
  destruct ok; cbn [negb].
  - eexists. split; [reflexivity|]. rewrite negb_true_iff, Hr. destruct Hm as [Hm _]. destruct (Hm eq_refl) as (M1 & M2 & M3).
    split; [intros; by split|by intros []].
  - exists false. split; [done|]. split; [done|]. intros []. apply Hm. done.
Qed.

Lemma match_function_spec_witness :
  let id := mk_device_id 0x8086 0x100E 2 0 0 3 in
  let c := mk_driver_config None (Some 2) None None (Some [("0x8086", [0x1004; 0x100E])]) None None None None in
  function_matches c id.
Proof.
  intros id c. destruct (match_function_spec c id) as (b & Hb & Hm).
  - intros ids [= <-]. repeat constructor. by eexists.
  - vm_compute in Hb. injection Hb as <-. by apply Hm.
Defined.

(** ** Tables in their registers *)

(** A table that passed the check is inside its registers, and so is the array of
    pending bits. *)
Lemma msix_validate_inside i bars :
  0 <= mx_table_size i <= 2048 → msix_validate i bars = Some tt →
  ∃ tb ta tsize pb pa psize,
    bars !! Z.to_nat (mx_table_bar i) = Some tb ∧ expect_mem tb = Some (ta, tsize) ∧
    bars !! Z.to_nat (mx_pba_bar i) = Some pb ∧ expect_mem pb = Some (pa, psize) ∧
    mx_table_offset i + 16 * mx_table_size i < tsize ∧ mx_table_size i <= 8 * (psize - mx_pba_offset i).
Proof.
  intros Hn Hv. unfold msix_validate in Hv. destruct (5 <? mx_table_bar i); [done|]. destruct (5 <? mx_pba_bar i); [done|].
  destruct (bars !! Z.to_nat (mx_table_bar i)) as [tb|]; [|done]. cbn [mbind option_bind] in Hv.
  destruct (expect_mem tb) as [[ta tsize]|] eqn:Ht; [|done]. cbn [mbind option_bind] in Hv.
  destruct (bars !! Z.to_nat (mx_pba_bar i)) as [pb|]; [|done]. cbn [mbind option_bind] in Hv.
  destruct (expect_mem pb) as [[pa psize]|] eqn:Hp; [|done]. cbn [mbind option_bind] in Hv.
  exists tb, ta, tsize, pb, pa, psize. split_and!; try done.
  - destruct ((0 <=? _) && (_ <? tsize)) eqn:E; [|done]. apply andb_true_iff in E as [_ E]. apply Z.ltb_lt in E.
    unfold as_u16 in E. rewrite as_u_id in E by (unfold u_range; lia). lia.
  - destruct ((0 <=? _) && (_ <? tsize)); [|done]. cbn [negb] in Hv.
    destruct ((0 <=? _) && (_ <? psize)) eqn:E; [|done]. apply andb_true_iff in E as [_ E]. apply Z.ltb_lt in E.
    unfold div_ceil in E. zdiv.
Qed.

(** A table of 256 entries that fills its register exactly is refused. *)
Lemma msix_validate_refuses_full :
  msix_validate (mk_msix_info 0 0 256 1 0)
    [BarMemory32 0xF0000000 4096; BarMemory32 0xF0001000 4096; BarNone; BarNone; BarNone; BarNone] = None.
Proof. done. Qed.

(** What is written to a table entry is read back, and masking keeps it. *)
Lemma msix_entry_roundtrip d e :
  u_range 64 (md_addr d) →
  mt_addr (write_addr_and_data d e) = md_addr d ∧ mt_msg_data (write_addr_and_data d e) = md_data d ∧
  (∀ m, mt_addr (set_masked m e) = mt_addr e ∧ mt_msg_data (set_masked m e) = mt_msg_data e ∧
     Z.testbit (mt_vec_ctl (set_masked m e)) 0 = m).
Proof.
  intros Hd. split_and!; [|done|].
  - unfold mt_addr, write_addr_and_data. cbn [mt_addr_lo mt_addr_hi]. unfold as_u32.
    rewrite (field_low_of_cast 32), (field_of_cast 32 32) by lia. by apply (field_join _ 32 32).
  - intros m. split_and!; [done|done|]. unfold set_masked. cbn [mt_vec_ctl]. destruct m.
    + rewrite Z.lor_spec. apply orb_true_r.
    + rewrite Z.land_spec. apply andb_false_r.
Qed.

(** Side conditions on the ranges of fields. *)
Ltac side := first [done | lia | match goal with H : ∀ s, 8 <= s → _ |- _ => apply H; lia end].

(** The fields of an interrupt message. *)
Lemma message_fields t l d vector dest rh dm :
  u_range 8 vector → u_range 8 dest →
  let data := message_data t l d vector in
  let addr := message_address dest rh dm in
  field 0 8 data = vector ∧ field 8 3 data = delivery_mode_code d ∧
  field 14 1 data = level_trigger_mode_code l ∧ field 15 1 data = trigger_mode_code t ∧
  field 20 12 addr = 0xFEE ∧ field 12 8 addr = dest ∧ field 3 1 addr = of_bool rh ∧ field 2 1 addr = of_bool dm.
Proof.
  intros Hv Hd data addr. assert (u_range 3 (delivery_mode_code d)) as Hdm by (by destruct d).
  assert (u_range 1 (level_trigger_mode_code l)) as Hl by (by destruct l).
  assert (u_range 1 (trigger_mode_code t)) as Ht by (by destruct t).
  unfold data, message_data, addr, message_address. change 0xFEE00000 with (Z.shiftl 0xFEE 20).
  assert (∀ s, 8 <= s → 0 <= vector < 2 ^ s) as Hvs by (intros s Hs; by apply (u_range_mono 8 s)).
  assert (u_range 1 (of_bool rh)) as Hrh by (by destruct rh). assert (u_range 1 (of_bool dm)) as Hdmb by (by destruct dm).
  split_and!; rewrite !field_lor.
  - rewrite !field_shiftl_above by lia. by rewrite !Z.lor_0_l, field_0_small.
  - rewrite !(field_shiftl_above 8 3) by lia. rewrite field_shiftl_eq, (field_small 8 3 vector) by side.
    by rewrite !Z.lor_0_l, Z.lor_0_r, field_0_small.
  - rewrite (field_shiftl_above 14 1 15), field_shiftl_eq, (field_shiftl_past 14 1 8 3), (field_small 14) by side.
    by rewrite Z.lor_0_l, !Z.lor_0_r, field_0_small.
  - rewrite field_shiftl_eq, (field_shiftl_past 15 1 14 1), (field_shiftl_past 15 1 8 3), (field_small 15) by side.
    by rewrite !Z.lor_0_r, field_0_small.
  - rewrite field_shiftl_eq, (field_shiftl_past 20 12 12 8), (field_shiftl_past 20 12 3 1), (field_shiftl_past 20 12 2 1)
      by side. done.
  - rewrite (field_shiftl_above 12 8 20), field_shiftl_eq, (field_shiftl_past 12 8 3 1), (field_shiftl_past 12 8 2 1)
      by side. by rewrite Z.lor_0_l, !Z.lor_0_r, field_0_small.
  - rewrite !(field_shiftl_above 3 1), field_shiftl_eq, (field_shiftl_past 3 1 2 1) by side.
    rewrite !Z.lor_0_l, Z.lor_0_r. apply field_of_bool. lia.
  - rewrite !(field_shiftl_above 2 1), field_shiftl_eq by lia. rewrite !Z.lor_0_l. apply field_of_bool. lia.
Qed.

(** ** Vendor capabilities *)

(** Reading dwords of a memory of bytes. *)
Definition reads_bytes {W : Type} (read : Z → prog W errno Z) (mem : Z → Z) : Prop :=
  ∀ o w, read o w = (Ok (le_val [mem o; mem (o + 1); mem (o + 2); mem (o + 3)]), w).

Fixpoint mem_bytes (mem : Z → Z) (n : nat) (o : Z) : list Z :=
  match n with O => [] | S n => mem o :: mem_bytes mem n (o + 1) end.

Lemma read_dwords_bytes {W : Type} (read : Z → prog W errno Z) mem n o w :
  (∀ x, is_byte (mem x)) → reads_bytes read mem →
  read_dwords read (steps_4 n o) w = (Ok (mem_bytes mem (4 * n) o), w).
Proof.
  intros Hm Hr. revert o. induction n as [|n IH]; intros o; [done|]. cbn [steps_4 read_dwords].
  unfold mbind, prog_bind. rewrite (bind_Ok _ _ _ _ _ (Hr o w)), (bind_Ok _ _ _ _ _ (IH (o + 4))).
  unfold mret, prog_ret, p_ret. do 2 f_equal.
  replace (4 * S n)%nat with (S (S (S (S (4 * n)))))%nat by lia. cbn [mem_bytes].
  assert (Forall is_byte [mem o; mem (o + 1); mem (o + 2); mem (o + 3)]) as Hb
    by (repeat (apply Forall_cons_2; [apply Hm|]); constructor).
  pose proof (le_bytes_val _ Hb) as E. cbn [length] in E. rewrite E. cbn [app]. by rewrite <- !Z.add_assoc.
Qed.

(** A capability whose length byte is a multiple of 4 greater than 3 gives its bytes
    from the length byte's successor on. *)
Lemma vendor_parse_bytes {W : Type} (read : Z → prog W errno Z) mem o w n :
  (∀ x, is_byte (mem x)) → reads_bytes read mem → mem (o + 2) = 4 * Z.of_nat n → (0 < n)%nat →
  vendor_parse read o w = (Ok (mem_bytes mem (4 * n - 3) (o + 3)), w).
Proof.
  intros Hm Hr Hlen Hn. unfold vendor_parse, mbind, prog_bind. rewrite (bind_Ok _ _ _ _ _ (Hr o w)).
  assert (Z.land (Z.shiftr (le_val [mem o; mem (o + 1); mem (o + 2); mem (o + 3)]) 16) 0xFF = mem (o + 2)) as ->.
  { change 0xFF with (Z.ones 8). rewrite Z.land_ones, Z.shiftr_div_pow2 by lia. cbn [le_val].
    pose proof (Hm o). pose proof (Hm (o + 1)). pose proof (Hm (o + 2)). unfold is_byte in *. change (2 ^ 16) with 65536. zdiv. }
  rewrite Hlen, (proj2 (Z.ltb_lt _ _)) by lia.
  assert ((3 <? 4 * Z.of_nat n) && (4 * Z.of_nat n mod 4 =? 0) = true) as ->.
  { apply andb_true_iff. rewrite Z.ltb_lt, Z.eqb_eq. split; [lia|zdiv]. }
  replace (Z.to_nat (4 * Z.of_nat n / 4)) with n by (rewrite Z.mul_comm, Z.div_mul by lia; lia).
  rewrite (bind_Ok _ _ _ _ _ (read_dwords_bytes read mem n o w Hm Hr)).
  unfold mret, prog_ret, p_ret. do 2 f_equal. replace (4 * n)%nat with (S (S (S (4 * n - 3))))%nat by lia.
  cbn [mem_bytes drop]. rewrite drop_0. f_equal; lia.
Qed.
