(* ===== verification/PciServer.v ===== *)
(** The conversation of pcid with a driver (pcid/src/driver_handler.rs and
    PciFunctionHandle in pcid/src/driver_interface/mod.rs): length-prefixed
    messages over two pipes, and the requests the server answers.

    The capabilities of pci_types and the encoding of messages are parameters,
    with what the code relies on as laws. *)

From S2P Require Import Prelude PciAccess PciConfig.

(** ** Messages *)

Record LegacyInterruptLine := mk_irq_line { li_irq : Z; li_phandled : option (Z * list Z * Z) }.

Record PciFunction := mk_pci_function {
  pf_addr : PciAddress; pf_bars : list PciBar; pf_legacy_interrupt_line : option LegacyInterruptLine;
  pf_full_device_id : FullDeviceId;
}.

Record SubdriverArguments := mk_args { sa_func : PciFunction }.

Inductive PciFeature : Type := FtMsi | FtMsiX.

#[global] Instance pci_feature_eq_dec : EqDecision PciFeature.
Proof. solve_decision. Defined.

Inductive PciFeatureInfo : Type := FiMsi (i : MsiInfo) | FiMsiX (i : MsixInfo).

Record MsiSetFeatureInfo := mk_msi_set {
  ms_multi_message_enable : option Z; ms_message_address_and_data : option MsiAddrAndData; ms_mask_bits : option Z;
}.

Inductive SetFeatureInfo : Type := SfMsi (i : MsiSetFeatureInfo) | SfMsiX (function_mask : option bool).

Inductive PcidClientRequest : Type :=
| RqConfig | RqFeatures | RqVendorCapabilities
| RqEnableFeature (f : PciFeature) | RqFeatureInfo (f : PciFeature) | RqSetFeatureInfo (i : SetFeatureInfo)
| RqReadConfig (offset : Z) | RqWriteConfig (offset value : Z).

Inductive PcidServerResponseError : Type := NonexistentFeature (f : PciFeature) | InvalidBitPattern.

Inductive PcidClientResponse : Type :=
| RsConfig (a : SubdriverArguments) | RsAllFeatures (l : list PciFeature) | RsVendorCapabilities (l : list (list Z))
| RsFeatureEnabled (f : PciFeature) | RsError (e : PcidServerResponseError)
| RsFeatureInfo (f : PciFeature) (i : PciFeatureInfo) | RsSetFeatureInfo (f : PciFeature)
| RsReadConfig (v : Z) | RsWriteConfig.

(** ** Capabilities *)

(** The capabilities of pci_types; setters get the capability mutably. *)
Class PciCaps (W Msi Msix : Type) := {
  msi_multiple_message_capable : Msi → Z;
  msi_is_64bit : Msi → bool;
  msi_has_per_vector_masking : Msi → bool;
  msi_set_enabled : bool → Msi → W → Msi * W;
  msi_set_multiple_message_enable : Z → Msi → W → Msi * W;
  msi_multiple_message_enable : Msi → W → Z * W;
  msi_set_message_info : Z → Z → Msi → W → Msi * W;
  msi_set_message_mask : Z → Msi → W → Msi * W;
  msix_table_bar : Msix → Z;
  msix_table_offset : Msix → Z;
  msix_table_size : Msix → Z;
  msix_pba_bar : Msix → Z;
  msix_pba_offset : Msix → Z;
  msix_set_enabled : bool → Msix → W → Msix * W;
  msix_set_function_mask : bool → Msix → W → Msix * W;
}.

Inductive PciCapability (Msi Msix : Type) : Type :=
| CapMsi (c : Msi) | CapMsiX (c : Msix) | CapVendor (offset : Z) | CapOther.
Arguments CapMsi {_ _} c.
Arguments CapMsiX {_ _} c.
Arguments CapVendor {_ _} offset.
Arguments CapOther {_ _}.

Section server.
Context {W Msi Msix : Type} `{HM : !PciMachine W} `{HC : !PciCaps W Msi Msix}.
(** The largest message data [set_message_info] takes. *)
Context (p : Pcie) (max_data : Z).

Abbreviation Cap := (PciCapability Msi Msix).

Record DriverHandler := mk_handler { dh_addr : PciAddress; dh_capabilities : list Cap; dh_world : W }.

Abbreviation hp := (prog DriverHandler errno).

Definition set_caps (l : list Cap) (w : W) (h : DriverHandler) : DriverHandler := mk_handler (dh_addr h) l w.

(** [find_map] for the first MSI and the first MSI-X capability. *)
Fixpoint find_msi (l : list Cap) : option (nat * Msi) :=
  match l with
  | [] => None
  | CapMsi c :: _ => Some (O, c)
  | _ :: l => '(i, c) ← find_msi l; Some (S i, c)
  end.

Fixpoint find_msix (l : list Cap) : option (nat * Msix) :=
  match l with
  | [] => None
  | CapMsiX c :: _ => Some (O, c)
  | _ :: l => '(i, c) ← find_msix l; Some (S i, c)
  end.

(** A setter on the first capability of its kind. *)
Definition on_msi (g : Msi → W → Msi * W) (i : nat) (c : Msi) : hp unit :=
  modify (λ h, let '(c', w) := g c (dh_world h) in set_caps (<[i := CapMsi c']> (dh_capabilities h)) w h).

Definition on_msix (g : Msix → W → Msix * W) (i : nat) (c : Msix) : hp unit :=
  modify (λ h, let '(c', w) := g c (dh_world h) in set_caps (<[i := CapMsiX c']> (dh_capabilities h)) w h).

Definition on_world {A : Type} (m : prog W errno A) : hp A := λ h,
  let '(r, w) := m (dh_world h) in (r, set_caps (dh_capabilities h) w h).

Fixpoint vendor_capabilities (l : list Cap) : hp (list (list Z)) :=
  match l with
  | [] => mret []
  | CapVendor offset :: l =>
      a ← gets dh_addr;
      d ← on_world (vendor_parse (pcie_read p a) offset);
      rest ← vendor_capabilities l;
      mret (d :: rest)
  | _ :: l => vendor_capabilities l
  end.

Definition feature_of (c : Cap) : option PciFeature :=
  match c with CapMsi _ => Some FtMsi | CapMsiX _ => Some FtMsiX | _ => None end.

Definition missing (f : PciFeature) : hp PcidClientResponse := mret (RsError (NonexistentFeature f)).

Definition disable_msix : hp unit :=
  caps ← gets dh_capabilities;
  match find_msix caps with Some (i, c) => on_msix (msix_set_enabled false) i c | None => mret tt end.

Definition disable_msi : hp unit :=
  caps ← gets dh_capabilities;
  match find_msi caps with Some (i, c) => on_msi (msi_set_enabled false) i c | None => mret tt end.

Definition enable_feature (f : PciFeature) : hp PcidClientResponse :=
  match f with
  | FtMsi =>
      _ ← disable_msix;
      caps ← gets dh_capabilities;
      match find_msi caps with
      | Some (i, c) => _ ← on_msi (msi_set_enabled true) i c; mret (RsFeatureEnabled f)
      | None => missing f
      end
  | FtMsiX =>
      _ ← disable_msi;
      caps ← gets dh_capabilities;
      match find_msix caps with
      | Some (i, c) => _ ← on_msix (msix_set_enabled true) i c; mret (RsFeatureEnabled f)
      | None => missing f
      end
  end.

Definition feature_info (f : PciFeature) : hp PcidClientResponse :=
  caps ← gets dh_capabilities;
  match f with
  | FtMsi =>
      match find_msi caps with
      | Some (_, c) =>
          mret (RsFeatureInfo f (FiMsi (mk_msi_info (msi_multiple_message_capable c) (msi_is_64bit c)
                                          (msi_has_per_vector_masking c))))
      | None => missing f
      end
  | FtMsiX =>
      match find_msix caps with
      | Some (_, c) =>
          mret (RsFeatureInfo f (FiMsiX (mk_msix_info (msix_table_bar c) (msix_table_offset c) (msix_table_size c)
                                           (msix_pba_bar c) (msix_pba_offset c))))
      | None => missing f
      end
  end.

Definition invalid : hp (option PcidClientResponse) := mret (Some (RsError InvalidBitPattern)).

(** [None]: go on. *)
Definition set_multi_message (mme : option Z) : hp (option PcidClientResponse) :=
  match mme with
  | None => mret None
  | Some mme =>
      caps ← gets dh_capabilities;
      match find_msi caps with
      | None => mret None
      | Some (i, c) =>
          if msi_multiple_message_capable c <? mme then invalid
          else if 5 <? mme then invalid
          else _ ← on_msi (msi_set_multiple_message_enable mme) i c; mret None
      end
  end.

Definition set_msi_message (d : option MsiAddrAndData) : hp (option PcidClientResponse) :=
  match d with
  | None => mret None
  | Some d =>
      caps ← gets dh_capabilities;
      match find_msi caps with
      | None => mret None
      | Some (i, c) =>
          if negb (Z.land (md_addr d) 3 =? 0) then invalid
          else
            n ← on_world (λ w, let '(n, w') := msi_multiple_message_enable c w in (Ok n, w'));
            if negb (Z.land (md_data d) (as_u32 (Z.shiftl 1 n) - 1) =? 0) then invalid
            else if max_data <? md_data d then panic
            else _ ← on_msi (msi_set_message_info (md_addr d) (md_data d)) i c; mret None
      end
  end.

Definition set_mask_bits (m : option Z) : hp unit :=
  match m with
  | None => mret tt
  | Some m =>
      caps ← gets dh_capabilities;
      match find_msi caps with
      | None => mret tt
      | Some (i, c) => on_msi (msi_set_message_mask m) i c
      end
  end.

Definition set_feature_info (s : SetFeatureInfo) : hp PcidClientResponse :=
  caps ← gets dh_capabilities;
  match s with
  | SfMsi s =>
      match find_msi caps with
      | None => missing FtMsi
      | Some _ =>
          r ← set_multi_message (ms_multi_message_enable s);
          match r with
          | Some e => mret e
          | None =>
              r ← set_msi_message (ms_message_address_and_data s);
              match r with
              | Some e => mret e
              | None => _ ← set_mask_bits (ms_mask_bits s); mret (RsSetFeatureInfo FtMsi)
              end
          end
      end
  | SfMsiX function_mask =>
      match find_msix caps with
      | None => missing FtMsiX
      | Some (i, c) =>
          _ ← (match function_mask with
               | Some m => on_msix (msix_set_function_mask m) i c
               | None => mret tt
               end);
          mret (RsSetFeatureInfo FtMsiX)
      end
  end.

Definition pcid_respond (r : PcidClientRequest) (args : SubdriverArguments) : hp PcidClientResponse :=
  match r with
  | RqVendorCapabilities =>
      caps ← gets dh_capabilities; l ← vendor_capabilities caps; mret (RsVendorCapabilities l)
  | RqConfig => mret (RsConfig args)
  | RqFeatures => caps ← gets dh_capabilities; mret (RsAllFeatures (omap feature_of caps))
  | RqEnableFeature f => enable_feature f
  | RqFeatureInfo f => feature_info f
  | RqSetFeatureInfo i => set_feature_info i
  | RqReadConfig offset => a ← gets dh_addr; v ← on_world (pcie_read p a offset); mret (RsReadConfig v)
  | RqWriteConfig offset value =>
      a ← gets dh_addr; _ ← on_world (pcie_write p a offset value); mret RsWriteConfig
  end.

End server.
Arguments DriverHandler : clear implicits.

(** ** The pipes *)

(** bincode on a message type. *)
Class Codec (T : Type) := { encode : T → list Z; decode : list Z → option T }.

(** The values a message can have: those of the Rust types of its fields, with at most 256
    capabilities of at most 256 bytes. *)
Class Sendable (T : Type) := sendable : T → Prop.

Definition bar_typed (b : PciBar) : Prop :=
  match b with
  | BarNone => True
  | BarMemory32 a n => u_range 32 a ∧ u_range 32 n
  | BarMemory64 a n => u_range 64 a ∧ u_range 64 n
  | BarPort q => u_range 16 q
  end.

Definition line_typed (l : LegacyInterruptLine) : Prop :=
  u_range 8 (li_irq l) ∧
  match li_phandled l with
  | Some (phandle, addr, cells) => u_range 32 phandle ∧ Forall (u_range 32) addr ∧ (length addr <= 256)%nat ∧ u_range 64 cells
  | None => True
  end.

Definition device_id_typed (d : FullDeviceId) : Prop :=
  u_range 16 (di_vendor_id d) ∧ u_range 16 (di_device_id d) ∧ u_range 8 (di_class d) ∧ u_range 8 (di_subclass d) ∧
  u_range 8 (di_interface d) ∧ u_range 8 (di_revision d).

Definition function_typed (f : PciFunction) : Prop :=
  (u_range 16 (segment (pf_addr f)) ∧ u_range 8 (bus (pf_addr f)) ∧ u_range 8 (device (pf_addr f)) ∧ u_range 8 (function (pf_addr f))) ∧
  (Forall bar_typed (pf_bars f) ∧ (length (pf_bars f) <= 256)%nat) ∧
  from_option line_typed True (pf_legacy_interrupt_line f) ∧ device_id_typed (pf_full_device_id f).

#[global] Instance request_sendable : Sendable PcidClientRequest := λ r,
  match r with
  | RqSetFeatureInfo (SfMsi i) =>
      from_option (u_range 8) True (ms_multi_message_enable i) ∧
      from_option (λ d, u_range 64 (md_addr d) ∧ u_range 32 (md_data d)) True (ms_message_address_and_data i) ∧
      from_option (u_range 32) True (ms_mask_bits i)
  | RqReadConfig offset => u_range 16 offset
  | RqWriteConfig offset value => u_range 16 offset ∧ u_range 32 value
  | _ => True
  end.

Definition info_typed (i : PciFeatureInfo) : Prop :=
  match i with
  | FiMsi i => u_range 8 (mi_log2_multiple_message_capable i)
  | FiMsiX i => u_range 8 (mx_table_bar i) ∧ u_range 32 (mx_table_offset i) ∧ u_range 16 (mx_table_size i) ∧
      u_range 8 (mx_pba_bar i) ∧ u_range 32 (mx_pba_offset i)
  end.

#[global] Instance response_sendable : Sendable PcidClientResponse := λ r,
  match r with
  | RsConfig a => function_typed (sa_func a)
  | RsAllFeatures l => (length l <= 256)%nat
  | RsVendorCapabilities l => (length l <= 256)%nat ∧ Forall (λ d, (length d <= 256)%nat ∧ Forall is_byte d) l
  | RsFeatureInfo _ i => info_typed i
  | RsReadConfig v => u_range 32 v
  | _ => True
  end.

(** Such messages are encoded in bytes, read back, and fit the limit of [recv]. *)
Class CodecLaws (T : Type) `{Codec T} `{Sendable T} := {
  decode_encode x : sendable x → decode (encode x) = Some x;
  encode_bytes x : Forall is_byte (encode x);
  encode_size x : sendable x → Z.of_nat (length (encode x)) <= 0x100000;
}.

Inductive PcidClientHandleError : Type :=
| IoError | SerializationError | InvalidResponse (r : PcidClientResponse).

(** [send]: the length as eight bytes, then the message. *)
Definition frame {T : Type} `{Codec T} (x : T) : list Z :=
  le_bytes 8 (Z.of_nat (length (encode x))) ++ encode x.

(** [recv] on the bytes of a pipe: the message, an error (end of the pipe, a message
    that does not decode), or a panic, and what is left. *)
Definition recv {T : Type} `{Codec T} (pipe : list Z) : res PcidClientHandleError T * list Z :=
  if (length pipe <? 8)%nat then (Err IoError, [])
  else
    let len := le_val (take 8 pipe) in
    let rest := drop 8 pipe in
    if 0x100000 <? len then (Panic, rest)
    else if (length rest <? Z.to_nat len)%nat then (Err IoError, [])
    else
      match decode (take (Z.to_nat len) rest) with
      | Some x => (Ok x, drop (Z.to_nat len) rest)
      | None => (Err SerializationError, drop (Z.to_nat len) rest)
      end.

Lemma recv_frame {T : Type} `{CodecLaws T} (x : T) rest : sendable x → recv (frame x ++ rest) = (Ok x, rest).
Proof.
  intros Hx. unfold recv, frame. pose proof (encode_size x Hx) as Hs. rewrite <- app_assoc.
  rewrite (proj2 (Nat.ltb_ge _ _)) by (rewrite length_app, length_le_bytes; lia).
  rewrite take_app_length' by (by rewrite length_le_bytes). rewrite drop_app_length' by (by rewrite length_le_bytes).
  rewrite le_val_bytes by (unfold u_range; change (2 ^ (8 * Z.of_nat 8)) with (2 ^ 64); lia). rewrite (proj2 (Z.ltb_ge _ _)) by lia. rewrite Nat2Z.id.
  rewrite (proj2 (Nat.ltb_ge _ _)) by (rewrite length_app; lia).
  by rewrite take_app_length, drop_app_length, decode_encode by done.
Qed.

Section link.
Context {W Msi Msix : Type} `{HM : !PciMachine W} `{HC : !PciCaps W Msi Msix}.
Context `{HQ : Codec PcidClientRequest} `{HS : Codec PcidClientResponse}.
Context (p : Pcie) (max_data : Z) (args : SubdriverArguments).

(** The two pipes and the thread that serves them; a thread that has ended closed its
    ends. *)
Record Link := mk_link {
  ln_to_client : list Z; ln_from_client : list Z; ln_server : DriverHandler W Msi Msix; ln_alive : bool;
}.

Abbreviation lp := (prog Link PcidClientHandleError).

(** One pass of the loop of [handle_spawn]. *)
Definition serve_one (l : Link) : Link :=
  if ln_alive l then
    match recv (ln_from_client l) with
    | (Ok msg, rest) =>
        match pcid_respond p max_data msg args (ln_server l) with
        | (Ok r, h) => mk_link (ln_to_client l ++ frame r) rest h true
        | (_, h) => mk_link (ln_to_client l) rest h false
        end
    | (_, rest) => mk_link (ln_to_client l) rest (ln_server l) false
    end
  else l.

(** A request of the client: [send], the server at work, [recv]. *)
Definition client_send (r : PcidClientRequest) : lp unit := λ l,
  if ln_alive l then (Ok tt, mk_link (ln_to_client l) (ln_from_client l ++ frame r) (ln_server l) (ln_alive l))
  else (Err IoError, l).

Definition client_recv : lp PcidClientResponse := λ l,
  let '(r, rest) := recv (ln_to_client l) in
  (r, mk_link rest (ln_from_client l) (ln_server l) (ln_alive l)).

Definition client_call (r : PcidClientRequest) : lp PcidClientResponse :=
  _ ← client_send r; _ ← modify serve_one; client_recv.

Definition bad {A : Type} (r : PcidClientResponse) : lp A := throw (InvalidResponse r).

Definition get_vendor_capabilities : lp (list (list Z)) :=
  r ← client_call RqVendorCapabilities; match r with RsVendorCapabilities a => mret a | r => bad r end.

Definition fetch_all_features : lp (list PciFeature) :=
  r ← client_call RqFeatures; match r with RsAllFeatures a => mret a | r => bad r end.

Definition client_enable_feature (f : PciFeature) : lp unit :=
  r ← client_call (RqEnableFeature f);
  match r with RsFeatureEnabled f' => if decide (f' = f) then mret tt else bad r | r => bad r end.

Definition client_feature_info (f : PciFeature) : lp PciFeatureInfo :=
  r ← client_call (RqFeatureInfo f);
  match r with RsFeatureInfo f' i => if decide (f' = f) then mret i else bad r | r => bad r end.

Definition client_set_feature_info (i : SetFeatureInfo) : lp unit :=
  r ← client_call (RqSetFeatureInfo i); match r with RsSetFeatureInfo _ => mret tt | r => bad r end.

Definition client_read_config (offset : Z) : lp Z :=
  r ← client_call (RqReadConfig offset); match r with RsReadConfig v => mret v | r => bad r end.

Definition client_write_config (offset value : Z) : lp unit :=
  r ← client_call (RqWriteConfig offset value); match r with RsWriteConfig => mret tt | r => bad r end.

Definition connect_default : lp SubdriverArguments :=
  r ← client_call RqConfig; match r with RsConfig a => mret a | r => bad r end.

End link.
Arguments Link : clear implicits.

(** ** Calls *)

Section calls.
Context {W Msi Msix : Type} `{HM : !PciMachine W} `{HC : !PciCaps W Msi Msix}.
Context `{HQ : Codec PcidClientRequest} `{HQL : !CodecLaws PcidClientRequest}.
Context `{HS : Codec PcidClientResponse} `{HSL : !CodecLaws PcidClientResponse}.
Context (p : Pcie) (max_data : Z) (args : SubdriverArguments).

Abbreviation idle h := (mk_link (W := W) (Msi := Msi) (Msix := Msix) [] [] h true).

(** A call is a call of [respond]; a server that panics is gone. *)
Lemma client_call_respond r h :
  sendable r → (∀ v h', pcid_respond p max_data r args h = (Ok v, h') → sendable v) →
  client_call p max_data args r (idle h)
  = match pcid_respond p max_data r args h with
    | (Ok v, h') => (Ok v, idle h')
    | (_, h') => (Err IoError, mk_link [] [] h' false)
    end.
Proof.
  intros Hr Hv. unfold client_call, mbind, prog_bind. erewrite bind_Ok by reflexivity. erewrite bind_Ok by reflexivity.
  unfold serve_one. cbn [ln_alive ln_from_client ln_to_client ln_server].
  rewrite app_nil_l, <- (app_nil_r (frame r)), recv_frame by done.
  destruct (pcid_respond p max_data r args h) as [[v|e|] h']; [|done|done].
  unfold client_recv. cbn [ln_to_client ln_from_client ln_server ln_alive app].
  by rewrite <- (app_nil_r (frame v)), recv_frame by (by eapply Hv).
Qed.

End calls.

(** ** The two interrupt modes *)

(** Whether the two modes are enabled in the device, what the setters do to that, and which
    registers of a function hold the two bits; the values of the fields of a capability. *)
Class CapsLaws (W Msi Msix : Type) `{HM : !PciMachine W} `{HC : !PciCaps W Msi Msix} (p : Pcie) := {
  msi_on : W → bool;
  msix_on : W → bool;
  msi_set_enabled_law b c w : let w' := (msi_set_enabled b c w).2 in msi_on w' = b ∧ msix_on w' = msix_on w;
  msix_set_enabled_law b c w : let w' := (msix_set_enabled b c w).2 in msix_on w' = b ∧ msi_on w' = msi_on w;
  mme_law n c w : let w' := (msi_set_multiple_message_enable n c w).2 in msi_on w' = msi_on w ∧ msix_on w' = msix_on w;
  mme_read_law c w : let w' := (msi_multiple_message_enable c w).2 in msi_on w' = msi_on w ∧ msix_on w' = msix_on w;
  info_law x y c w : let w' := (msi_set_message_info x y c w).2 in msi_on w' = msi_on w ∧ msix_on w' = msix_on w;
  mask_law n c w : let w' := (msi_set_message_mask n c w).2 in msi_on w' = msi_on w ∧ msix_on w' = msix_on w;
  function_mask_law b c w :
    let w' := (msix_set_function_mask b c w).2 in msi_on w' = msi_on w ∧ msix_on w' = msix_on w;
  read_law a o w : let w' := (pcie_read p a o w).2 in msi_on w' = msi_on w ∧ msix_on w' = msix_on w;
  read_u32 a o w v w' : pcie_read p a o w = (Ok v, w') → u_range 32 v;
  control_register : PciAddress → Z → bool;
  write_law a o v w : control_register a o = false →
    let w' := (pcie_write p a o v w).2 in msi_on w' = msi_on w ∧ msix_on w' = msix_on w;
  msi_typed c : u_range 8 (msi_multiple_message_capable c);
  msix_typed c : info_typed (FiMsiX (mk_msix_info (msix_table_bar c) (msix_table_offset c) (msix_table_size c) (msix_pba_bar c) (msix_pba_offset c)));
}.

Section modes.
Context {W Msi Msix : Type} `{HM : !PciMachine W} `{HC : !PciCaps W Msi Msix} (p : Pcie).
Context `{HL : !CapsLaws W Msi Msix p} (max_data : Z).
Implicit Types (h : DriverHandler W Msi Msix).

(** The two modes are not both on, and a mode that is on has its capability. *)
Record modes_ok h : Prop := {
  mo_exclusive : msi_on (dh_world h) = true → msix_on (dh_world h) = true → False;
  mo_msi : msi_on (dh_world h) = true → is_Some (find_msi (dh_capabilities h));
  mo_msix : msix_on (dh_world h) = true → is_Some (find_msix (dh_capabilities h));
}.

(** The same function with as many capabilities. *)
Definition same_function h h' : Prop :=
  dh_addr h' = dh_addr h ∧ length (dh_capabilities h') = length (dh_capabilities h).

#[local] Instance same_function_equiv : PreOrder same_function.
Proof. split; [done|]. intros h1 h2 h3 (A1 & A2) (B1 & B2). split; congruence. Qed.

(** The same modes and the same kinds of capabilities. *)
Definition same_modes h h' : Prop :=
  same_function h h' ∧
  msi_on (dh_world h') = msi_on (dh_world h) ∧ msix_on (dh_world h') = msix_on (dh_world h) ∧
  (is_Some (find_msi (dh_capabilities h')) ↔ is_Some (find_msi (dh_capabilities h))) ∧
  (is_Some (find_msix (dh_capabilities h')) ↔ is_Some (find_msix (dh_capabilities h))).

#[local] Instance same_modes_equiv : PreOrder same_modes.
Proof.
  split; [done|]. intros h1 h2 h3 (A0 & A1 & A2 & A3 & A4) (B0 & B1 & B2 & B3 & B4). unfold same_modes.
  rewrite B1, B2, B3, B4. split; [by etrans|done].
Qed.

Lemma same_modes_ok h h' : same_modes h h' → modes_ok h → modes_ok h'.
Proof. intros (_ & E1 & E2 & E3 & E4) []. split; rewrite ?E1, ?E2, ?E3, ?E4; auto. Qed.

(** The function has the capability. *)
Definition feature_found (f : PciFeature) h : bool :=
  match f with FtMsi => bool_decide (is_Some (find_msi (dh_capabilities h))) | FtMsiX => bool_decide (is_Some (find_msix (dh_capabilities h))) end.

(** Programs that leave the modes alone. *)
Definition quiet {A : Type} (m : prog (DriverHandler W Msi Msix) errno A) : Prop := ∀ h, same_modes h (m h).2.

Lemma quiet_bind {A B : Type} (m : prog (DriverHandler W Msi Msix) errno A) (f : A → prog (DriverHandler W Msi Msix) errno B) :
  quiet m → (∀ a, quiet (f a)) → quiet (p_bind f m).
Proof.
  intros Hm Hf h. specialize (Hm h). unfold p_bind. destruct (m h) as [[a|e|] h']; cbn [snd] in *; [|done|done].
  etrans; [exact Hm|apply Hf].
Qed.

Lemma quiet_ret {A : Type} (r : res errno A) : quiet (λ h, (r, h)).
Proof. by intros h. Qed.

Lemma quiet_gets {A : Type} (f : DriverHandler W Msi Msix → A) : quiet (gets f).
Proof. by intros h. Qed.

Lemma insert_cons {A : Type} (l : list A) j x y : <[S j := y]> (x :: l) = x :: <[j := y]> l.
Proof. done. Qed.

Lemma find_msi_insert (l : list (PciCapability Msi Msix)) i c c' :
  find_msi l = Some (i, c) →
  find_msi (<[i := CapMsi c']> l) = Some (i, c') ∧ find_msix (<[i := CapMsi c']> l) = find_msix l.
Proof.
  revert i. induction l as [|x l IH]; intros i Hf; [done|].
  destruct x as [m|m|o|]; cbn [find_msi] in Hf; [injection Hf as <- <-; done| | |];
    (destruct (find_msi l) as [[j d]|]; [|done]; cbn in Hf; injection Hf as <- <-;
     destruct (IH j eq_refl) as [H1 H2]; rewrite insert_cons; cbn [find_msi find_msix];
     rewrite H1, ?H2; done).
Qed.

Lemma find_msix_insert (l : list (PciCapability Msi Msix)) i c c' :
  find_msix l = Some (i, c) →
  find_msix (<[i := CapMsiX c']> l) = Some (i, c') ∧ find_msi (<[i := CapMsiX c']> l) = find_msi l.
Proof.
  revert i. induction l as [|x l IH]; intros i Hf; [done|].
  destruct x as [m|m|o|]; cbn [find_msix] in Hf; [|injection Hf as <- <-; done| |];
    (destruct (find_msix l) as [[j d]|]; [|done]; cbn in Hf; injection Hf as <- <-;
     destruct (IH j eq_refl) as [H1 H2]; rewrite insert_cons; cbn [find_msi find_msix];
     rewrite H1, ?H2; done).
Qed.

(** A setter of the first MSI capability. *)
Lemma on_msi_step g i c h :
  find_msi (dh_capabilities h) = Some (i, c) →
  let h' := (on_msi g i c h).2 in
  dh_world h' = (g c (dh_world h)).2 ∧ is_Some (find_msi (dh_capabilities h')) ∧
  find_msix (dh_capabilities h') = find_msix (dh_capabilities h) ∧ same_function h h'.
Proof.
  intros Hf. unfold on_msi, modify. cbn [snd]. destruct (g c (dh_world h)) as [c' w].
  destruct (find_msi_insert _ _ _ c' Hf) as [H1 H2]. cbn. rewrite H1. split; [done|]. split; [by eexists|]. split; [exact H2|]. split; [done|apply length_insert].
Qed.

Lemma on_msix_step g i c h :
  find_msix (dh_capabilities h) = Some (i, c) →
  let h' := (on_msix g i c h).2 in
  dh_world h' = (g c (dh_world h)).2 ∧ is_Some (find_msix (dh_capabilities h')) ∧
  find_msi (dh_capabilities h') = find_msi (dh_capabilities h) ∧ same_function h h'.
Proof.
  intros Hf. unfold on_msix, modify. cbn [snd]. destruct (g c (dh_world h)) as [c' w].
  destruct (find_msix_insert _ _ _ c' Hf) as [H1 H2]. cbn. rewrite H1. split; [done|]. split; [by eexists|]. split; [exact H2|]. split; [done|apply length_insert].
Qed.

(** A setter that leaves the modes alone. *)
Lemma on_msi_quiet g i c h :
  find_msi (dh_capabilities h) = Some (i, c) →
  (∀ w, msi_on (g c w).2 = msi_on w ∧ msix_on (g c w).2 = msix_on w) → same_modes h (on_msi g i c h).2.
Proof.
  intros Hf Hg. destruct (on_msi_step g i c h Hf) as (H1 & H2 & H3 & H4). unfold same_modes. rewrite H1, H3.
  destruct (Hg (dh_world h)) as [-> ->]. rewrite Hf. split_and!; try done.
Qed.

Lemma on_msix_quiet g i c h :
  find_msix (dh_capabilities h) = Some (i, c) →
  (∀ w, msi_on (g c w).2 = msi_on w ∧ msix_on (g c w).2 = msix_on w) → same_modes h (on_msix g i c h).2.
Proof.
  intros Hf Hg. destruct (on_msix_step g i c h Hf) as (H1 & H2 & H3 & H4). unfold same_modes. rewrite H1, H3.
  destruct (Hg (dh_world h)) as [-> ->]. rewrite Hf. split_and!; try done.
Qed.

Lemma on_world_quiet {A : Type} (m : prog W errno A) :
  (∀ w, msi_on (m w).2 = msi_on w ∧ msix_on (m w).2 = msix_on w) → quiet (on_world m).
Proof.
  intros Hm h. unfold on_world. destruct (Hm (dh_world h)) as [H1 H2].
  destruct (m (dh_world h)) as [r w]. by split_and!.
Qed.

Lemma read_dwords_modes a l w :
  msi_on (read_dwords (pcie_read p a) l w).2 = msi_on w ∧ msix_on (read_dwords (pcie_read p a) l w).2 = msix_on w.
Proof.
  revert w. induction l as [|o l IH]; intros w; [done|]. cbn [read_dwords]. unfold mbind, prog_bind, p_bind.
  destruct (read_law a o w) as [R1 R2]. destruct (pcie_read p a o w) as [[d|e|] w1]; cbn [snd] in *; [|done|done].
  destruct (IH w1) as [I1 I2]. destruct (read_dwords (pcie_read p a) l w1) as [[r|e|] w2]; cbn [snd] in *;
    exact (conj (eq_trans I1 R1) (eq_trans I2 R2)).
Qed.

Lemma vendor_parse_modes a o w :
  msi_on (vendor_parse (pcie_read p a) o w).2 = msi_on w ∧ msix_on (vendor_parse (pcie_read p a) o w).2 = msix_on w.
Proof.
  unfold vendor_parse, mbind, prog_bind, p_bind. destruct (read_law a o w) as [R1 R2].
  destruct (pcie_read p a o w) as [[d|e|] w1]; cbn [snd] in *; [|done|done].
  destruct (0 <? _); [|done]. destruct (_ && _); [|done].
  match goal with |- context [read_dwords _ ?l w1] => destruct (read_dwords_modes a l w1) as [I1 I2];
    destruct (read_dwords (pcie_read p a) l w1) as [[r|e|] w2] end; cbn [snd] in *;
    exact (conj (eq_trans I1 R1) (eq_trans I2 R2)).
Qed.

Lemma vendor_quiet l : quiet (vendor_capabilities p l).
Proof.
  induction l as [|[c|c|o|] l IH]; cbn [vendor_capabilities]; try done.
  apply quiet_bind; [apply quiet_gets|]. intros a. apply quiet_bind; [apply on_world_quiet, vendor_parse_modes|].
  intros d. apply quiet_bind; [done|]. intros rest. apply (quiet_ret (Ok (d :: rest))).
Qed.

Lemma mret_quiet {A : Type} (a : A) : quiet (mret a).
Proof. by intros h. Qed.

Lemma set_multi_message_quiet o : quiet (set_multi_message o).
Proof.
  destruct o as [mme|]; [|apply mret_quiet]. intros h. unfold set_multi_message, mbind, prog_bind.
  erewrite bind_Ok by reflexivity. destruct (find_msi (dh_capabilities h)) as [[i c]|] eqn:Hf; [|done].
  destruct (_ <? mme); [done|]. destruct (5 <? mme); [done|]. erewrite bind_Ok by reflexivity.
  exact (on_msi_quiet (msi_set_multiple_message_enable mme) i c h Hf (λ w, mme_law mme c w)).
Qed.

Lemma set_message_quiet o : quiet (set_msi_message max_data o).
Proof.
  destruct o as [d|]; [|apply mret_quiet]. intros h. unfold set_msi_message, mbind, prog_bind.
  erewrite bind_Ok by reflexivity. destruct (find_msi (dh_capabilities h)) as [[i c]|] eqn:Hf; [|done].
  destruct (negb (Z.land (md_addr d) 3 =? 0)); [done|].
  pose proof (mme_read_law c (dh_world h)) as [M1 M2]. unfold on_world, p_bind.
  destruct (msi_multiple_message_enable c (dh_world h)) as [n w]. cbn [snd] in *.
  set (h1 := set_caps (dh_capabilities h) w h).
  assert (same_modes h h1) as Hs by (by split_and!).
  destruct (negb _); [done|]. destruct (max_data <? md_data d); [done|].
  etrans; [exact Hs|]. assert (find_msi (dh_capabilities h1) = Some (i, c)) as Hf1 by done.
  exact (on_msi_quiet (msi_set_message_info (md_addr d) (md_data d)) i c h1 Hf1 (λ w, info_law _ _ c w)).
Qed.

Lemma set_mask_bits_quiet o : quiet (set_mask_bits o).
Proof.
  destruct o as [m|]; [|apply mret_quiet]. intros h. unfold set_mask_bits, mbind, prog_bind.
  erewrite bind_Ok by reflexivity. destruct (find_msi (dh_capabilities h)) as [[i c]|] eqn:Hf; [|done].
  exact (on_msi_quiet (msi_set_message_mask m) i c h Hf (λ w, mask_law m c w)).
Qed.

Lemma set_feature_info_quiet i : quiet (set_feature_info max_data i).
Proof.
  destruct i as [s|mask]; intros h; unfold set_feature_info, mbind, prog_bind; erewrite bind_Ok by reflexivity.
  - destruct (find_msi (dh_capabilities h)); [|done]. revert h. apply quiet_bind; [apply set_multi_message_quiet|].
    intros [e|]; [apply mret_quiet|]. apply quiet_bind; [apply set_message_quiet|].
    intros [e|]; [apply mret_quiet|]. apply quiet_bind; [apply set_mask_bits_quiet|]. intros _. apply mret_quiet.
  - destruct (find_msix (dh_capabilities h)) as [[i c]|] eqn:Hf; [|done]. destruct mask as [m|]; [|done].
    erewrite bind_Ok by reflexivity.
    exact (on_msix_quiet (msix_set_function_mask m) i c h Hf (λ w, function_mask_law m c w)).
Qed.

Lemma disable_msix_modes h : modes_ok h →
  ∃ h1, disable_msix h = (Ok tt, h1) ∧ msix_on (dh_world h1) = false ∧
    msi_on (dh_world h1) = msi_on (dh_world h) ∧ find_msi (dh_capabilities h1) = find_msi (dh_capabilities h) ∧ same_function h h1.
Proof.
  intros [_ _ M3]. unfold disable_msix, mbind, prog_bind. erewrite bind_Ok by reflexivity.
  destruct (find_msix (dh_capabilities h)) as [[i c]|] eqn:Hx.
  - pose proof (on_msix_step (msix_set_enabled false) i c h Hx) as (H1 & _ & H3 & H4).
    exists (on_msix (msix_set_enabled false) i c h).2. split; [reflexivity|].
    destruct (msix_set_enabled_law false c (dh_world h)) as [L1 L2]. rewrite H1. split_and!; done.
  - exists h. split_and!; try done. destruct (msix_on (dh_world h)); [|done]. by destruct M3 as [y Hy].
Qed.

Lemma disable_msi_modes h : modes_ok h →
  ∃ h1, disable_msi h = (Ok tt, h1) ∧ msi_on (dh_world h1) = false ∧
    msix_on (dh_world h1) = msix_on (dh_world h) ∧ find_msix (dh_capabilities h1) = find_msix (dh_capabilities h) ∧ same_function h h1.
Proof.
  intros [_ M2 _]. unfold disable_msi, mbind, prog_bind. erewrite bind_Ok by reflexivity.
  destruct (find_msi (dh_capabilities h)) as [[i c]|] eqn:Hx.
  - pose proof (on_msi_step (msi_set_enabled false) i c h Hx) as (H1 & _ & H3 & H4).
    exists (on_msi (msi_set_enabled false) i c h).2. split; [reflexivity|].
    destruct (msi_set_enabled_law false c (dh_world h)) as [L1 L2]. rewrite H1. split_and!; done.
  - exists h. split_and!; try done. destruct (msi_on (dh_world h)); [|done]. by destruct M2 as [y Hy].
Qed.

(** Enabling a mode turns the other one off first. *)
Lemma enable_modes f h : modes_ok h →
  ∃ v h', enable_feature f h = (Ok v, h') ∧ modes_ok h' ∧ same_function h h' ∧
  if feature_found f h then
    v = RsFeatureEnabled f ∧ msi_on (dh_world h') = bool_decide (f = FtMsi) ∧ msix_on (dh_world h') = bool_decide (f = FtMsiX)
  else v = RsError (NonexistentFeature f).
Proof.
  intros Hok. destruct f; unfold enable_feature, mbind, prog_bind, feature_found.
  - destruct (disable_msix_modes h Hok) as (h1 & E1 & N1 & N2 & N3 & N4).
    rewrite (bind_Ok _ _ _ _ _ E1). erewrite bind_Ok by reflexivity.
    destruct (find_msi (dh_capabilities h1)) as [[i c]|] eqn:Hf; rewrite <- N3.
    + pose proof (on_msi_step (msi_set_enabled true) i c h1 Hf) as (H1 & H2 & H3 & H4). erewrite bind_Ok by reflexivity.
      destruct (msi_set_enabled_law true c (dh_world h1)) as [L1 L2].
      exists (RsFeatureEnabled FtMsi), (on_msi (msi_set_enabled true) i c h1).2. split; [done|]. split; [|split; [by etrans|]].
      * split; rewrite H1, ?L1, ?L2, ?N1; done.
      * rewrite H1, L1, L2, N1. done.
    + exists (RsError (NonexistentFeature FtMsi)), h1. split; [done|]. split; [|by split]. destruct Hok. split; [by rewrite N1| |by rewrite N1]. by rewrite N2, Hf, N3.
  - destruct (disable_msi_modes h Hok) as (h1 & E1 & N1 & N2 & N3 & N4).
    rewrite (bind_Ok _ _ _ _ _ E1). erewrite bind_Ok by reflexivity.
    destruct (find_msix (dh_capabilities h1)) as [[i c]|] eqn:Hf; rewrite <- N3.
    + pose proof (on_msix_step (msix_set_enabled true) i c h1 Hf) as (H1 & H2 & H3 & H4). erewrite bind_Ok by reflexivity.
      destruct (msix_set_enabled_law true c (dh_world h1)) as [L1 L2].
      exists (RsFeatureEnabled FtMsiX), (on_msix (msix_set_enabled true) i c h1).2. split; [done|]. split; [|split; [by etrans|]].
      * split; rewrite H1, ?L1, ?L2, ?N1; done.
      * rewrite H1, L1, L2, N1. done.
    + exists (RsError (NonexistentFeature FtMsiX)), h1. split; [done|]. split; [|by split]. destruct Hok. split; [by rewrite N1|by rewrite N1|]. by rewrite N2, Hf, N3.
Qed.

End modes.

(** ** Answers that can be sent *)

Lemma dwords_sendable {W : Type} (read : Z → prog W errno Z) l w d w' :
  read_dwords read l w = (Ok d, w') → length d = (4 * length l)%nat ∧ Forall is_byte d.
Proof.
  revert w d w'. induction l as [|o l IH]; intros w d w' E; cbn [read_dwords] in E; [by injection E as <- <-|].
  apply bind_inv_Ok in E as (x & w1 & _ & E). apply bind_inv_Ok in E as (rest & w2 & Hr & E). assert (d = le_bytes 4 x ++ rest) as -> by (by injection E).
  destruct (IH _ _ _ Hr) as [H1 H2]. rewrite length_app, length_le_bytes, H1. split; [cbn [length]; lia|]. apply Forall_app. split; [apply le_bytes_range|done].
Qed.

Lemma length_steps_4 n o : length (steps_4 n o) = n.
Proof. revert o. induction n as [|n IH]; intros o; [done|]. cbn [steps_4 length]. by rewrite IH. Qed.

Lemma vendor_parse_sendable {W : Type} (read : Z → prog W errno Z) o w d w' :
  vendor_parse read o w = (Ok d, w') → (length d <= 256)%nat ∧ Forall is_byte d.
Proof.
  unfold vendor_parse. intros E. apply bind_inv_Ok in E as (x & w1 & _ & E). set (n := Z.land _ _) in E.
  assert (0 <= n < 256) as Hn. { unfold n. change 0xFF with (Z.ones 8). rewrite Z.land_ones by lia. apply Z.mod_pos_bound. done. }
  destruct (0 <? n); [|by injection E as <- <-; split; [cbn; lia|constructor]]. destruct (_ && _); [|done].
  apply bind_inv_Ok in E as (raw & w2 & Hr & E). assert (d = drop 3 raw) as -> by (by injection E). destruct (dwords_sendable _ _ _ _ _ Hr) as [H1 H2].
  rewrite length_steps_4 in H1. rewrite length_drop, H1. split; [|by apply Forall_drop].
  assert (n / 4 < 64) by (apply Z.div_lt_upper_bound; lia). pose proof (Z.div_pos n 4). lia.
Qed.

Section answers.
Context {W Msi Msix : Type} `{HM : !PciMachine W} `{HC : !PciCaps W Msi Msix} (p : Pcie) (max_data : Z).
Implicit Types (h : DriverHandler W Msi Msix).

Lemma vendor_sendable l h v h' :
  vendor_capabilities p l h = (Ok v, h') → (length v <= length l)%nat ∧ Forall (λ d, (length d <= 256)%nat ∧ Forall is_byte d) v.
Proof.
  revert h v h'. induction l as [|[c|c|o|] l IH]; intros h v h' E; cbn [vendor_capabilities] in E; cbn [length].
  - by injection E as <- <-.
  - destruct (IH _ _ _ E). split; [lia|done].
  - destruct (IH _ _ _ E). split; [lia|done].
  - apply bind_inv_Ok in E as (a & h1 & _ & E). apply bind_inv_Ok in E as (d & h2 & Hd & E). apply bind_inv_Ok in E as (rest & h3 & Hrest & E). injection E as <- <-.
    destruct (IH _ _ _ Hrest). unfold on_world in Hd. destruct (vendor_parse (pcie_read p a) o (dh_world h1)) as [x w] eqn:Ev. injection Hd as -> _.
    apply vendor_parse_sendable in Ev. split; [cbn [length]; lia|by constructor].
  - destruct (IH _ _ _ E). split; [lia|done].
Qed.

Lemma multi_answer o h x h' : set_multi_message o h = (Ok (Some x), h') → x = RsError InvalidBitPattern.
Proof.
  destruct o as [m|]; [|done]. intros E. apply bind_inv_Ok in E as (caps & h1 & _ & E). destruct (find_msi caps) as [[i c]|]; [|done].
  destruct (_ <? m); [by injection E as <- _|]. destruct (5 <? m); [by injection E as <- _|]. by apply bind_inv_Ok in E as (u & h2 & _ & E).
Qed.

Lemma message_answer o h x h' : set_msi_message max_data o h = (Ok (Some x), h') → x = RsError InvalidBitPattern.
Proof.
  destruct o as [d|]; [|done]. intros E. apply bind_inv_Ok in E as (caps & h1 & _ & E). destruct (find_msi caps) as [[i c]|]; [|done].
  destruct (negb _); [by injection E as <- _|]. apply bind_inv_Ok in E as (n & h2 & _ & E). destruct (negb _); [by injection E as <- _|].
  destruct (_ <? _); [done|]. by apply bind_inv_Ok in E as (u & h3 & _ & E).
Qed.

Lemma set_answer i h v h' : set_feature_info max_data i h = (Ok v, h') → sendable v.
Proof.
  intros E. destruct i as [i|m]; apply bind_inv_Ok in E as (caps & h1 & _ & E).
  - destruct (find_msi caps) as [[j c]|]; [|by injection E as <- _]. apply bind_inv_Ok in E as ([x|] & h2 & E2 & E); [injection E as <- _; apply multi_answer in E2; by subst x|].
    apply bind_inv_Ok in E as ([x|] & h3 & E3 & E); [injection E as <- _; apply message_answer in E3; by subst x|].
    apply bind_inv_Ok in E as (u & h4 & _ & E). by injection E as <- _.
  - destruct (find_msix caps) as [[j c]|]; [|by injection E as <- _]. apply bind_inv_Ok in E as (u & h2 & _ & E). by injection E as <- _.
Qed.

End answers.

(** ** Conversations *)

Section conversations.
Context {W Msi Msix : Type} `{HM : !PciMachine W} `{HC : !PciCaps W Msi Msix}.
Context `{HQ : Codec PcidClientRequest} `{HQL : !CodecLaws PcidClientRequest}.
Context `{HS : Codec PcidClientResponse} `{HSL : !CodecLaws PcidClientResponse}.
Context (phys_map : Z → Z → option Z) (descs : list PcieAlloc) (im : list InterruptMap) (mask : list Z).

Abbreviation windows := (omap (map_alloc phys_map) descs).
Abbreviation p := (from_allocs phys_map descs im mask).

Context {C : Type} `{HR : !CfgRouting W C windows} `{HL : !CapsLaws W Msi Msix p}.
Context (max_data : Z) (args : SubdriverArguments).
Implicit Types (h : DriverHandler W Msi Msix).

Abbreviation idle h := (mk_link (W := W) (Msi := Msi) (Msix := Msix) [] [] h true).

(** A driver that makes requests one after the other, and what each call returned. *)
Fixpoint converse (rs : list PcidClientRequest) (l : Link W Msi Msix) : list (res PcidClientHandleError PcidClientResponse) * Link W Msi Msix :=
  match rs with
  | [] => ([], l)
  | r :: rs =>
      let '(a, l) := client_call p max_data args r l in
      let '(answers, l) := converse rs l in
      (a :: answers, l)
  end.

(** What the answer [v] says of the function, and what the request did to it. *)
Definition answered (r : PcidClientRequest) h (v : PcidClientResponse) h' : Prop :=
  let w := dh_world h in
  let w' := dh_world h' in
  match r with
  | RqConfig => v = RsConfig args ∧ h' = h
  | RqFeatures => ∃ l, v = RsAllFeatures l ∧ h' = h ∧ ∀ f, f ∈ l ↔ feature_found f h = true
  | RqVendorCapabilities => ∃ l, v = RsVendorCapabilities l ∧ same_modes p h h'
  | RqEnableFeature f =>
      if feature_found f h then
        v = RsFeatureEnabled f ∧ msi_on w' = bool_decide (f = FtMsi) ∧ msix_on w' = bool_decide (f = FtMsiX)
      else v = RsError (NonexistentFeature f)
  | RqFeatureInfo f => if feature_found f h then h' = h ∧ ∃ i, v = RsFeatureInfo f i else h' = h ∧ v = RsError (NonexistentFeature f)
  | RqSetFeatureInfo _ => same_modes p h h'
  | RqReadConfig offset => ∃ x, v = RsReadConfig x ∧ (x, cfg_space w') = cfg_read (dh_addr h) offset (cfg_space w)
  | RqWriteConfig offset x => v = RsWriteConfig ∧ cfg_space w' = cfg_write (dh_addr h) offset x (cfg_space w)
  end.

(** The requests that can make the server panic: a vendor capability of a strange length, message
    data that is too large. *)
Definition may_panic (r : PcidClientRequest) : bool :=
  match r with RqVendorCapabilities => true | RqSetFeatureInfo (SfMsi i) => bool_decide (is_Some (ms_message_address_and_data i)) | _ => false end.

(** Configuration registers are accessed aligned and in reach, and the ones that hold the two modes
    are not written. *)
Definition request_ok (a : PciAddress) (r : PcidClientRequest) : Prop :=
  sendable r ∧
  match r with
  | RqReadConfig offset => access_ok (CaRead a offset) ∧ in_reach windows (CaRead a offset) = true
  | RqWriteConfig offset x =>
      access_ok (CaWrite a offset x) ∧ in_reach windows (CaWrite a offset x) = true ∧ control_register a offset = false
  | _ => True
  end.

(** Each request is answered by its own answer, with the two modes apart all the time; a server that
    panicked is gone, and later requests return errors. *)
Inductive conversation : list PcidClientRequest → list (res PcidClientHandleError PcidClientResponse) →
    DriverHandler W Msi Msix → DriverHandler W Msi Msix → Prop :=
| cv_end h : modes_ok p h → conversation [] [] h h
| cv_answer r rs v answers h h1 h' :
    modes_ok p h → answered r h v h1 → same_function h h1 → conversation rs answers h1 h' →
    conversation (r :: rs) (Ok v :: answers) h h'
| cv_gone r rs h h' :
    modes_ok p h → may_panic r = true → modes_ok p h' →
    conversation (r :: rs) (replicate (S (length rs)) (Err IoError)) h h'.

Context (Hok : Forall alloc_ok windows) (Hdis : disjoint_windows windows) (Hargs : sendable (RsConfig args)).

Lemma found_msi (l : list (PciCapability Msi Msix)) : is_Some (find_msi l) ↔ ∃ c, CapMsi c ∈ l.
Proof.
  induction l as [|x l IH]; [split; [by intros []|intros (c & H); by apply not_elem_of_nil in H]|].
  setoid_rewrite elem_of_cons. destruct x as [c|c|o|]; cbn [find_msi]; [split; [by exists c; left|by eexists]| | |];
    (transitivity (is_Some (find_msi l)); [by destruct (find_msi l) as [[]|]|rewrite IH; naive_solver]).
Qed.

Lemma found_msix (l : list (PciCapability Msi Msix)) : is_Some (find_msix l) ↔ ∃ c, CapMsiX c ∈ l.
Proof.
  induction l as [|x l IH]; [split; [by intros []|intros (c & H); by apply not_elem_of_nil in H]|].
  setoid_rewrite elem_of_cons. destruct x as [c|c|o|]; cbn [find_msix]; [|split; [by exists c; left|by eexists]| |];
    (transitivity (is_Some (find_msix l)); [by destruct (find_msix l) as [[]|]|rewrite IH; naive_solver]).
Qed.

Lemma found_features h f : f ∈ omap feature_of (dh_capabilities h) ↔ feature_found f h = true.
Proof.
  rewrite list_elem_of_omap. unfold feature_found. destruct f; rewrite bool_decide_eq_true, ?found_msi, ?found_msix; (split; [intros ([c|c|o|] & Hin & Hx)|intros (c & Hin)]); try done; eauto.
Qed.

(** Requests that leave the modes alone. *)
Lemma quiet_keeps (m : prog (DriverHandler W Msi Msix) errno PcidClientResponse) h :
  quiet p m → modes_ok p h → modes_ok p (m h).2 ∧ same_function h (m h).2 ∧ same_modes p h (m h).2.
Proof. intros Hm Ho. specialize (Hm h). split; [by eapply same_modes_ok|]. split; [exact (proj1 Hm)|done]. Qed.

Lemma info_answer f h : ∃ v, feature_info f h = (Ok v, h) ∧ sendable v ∧ answered (RqFeatureInfo f) h v h.
Proof.
  unfold feature_info, mbind, prog_bind, answered, feature_found. erewrite bind_Ok by reflexivity.
  destruct f; [destruct (find_msi (dh_capabilities h)) as [[i c]|]|destruct (find_msix (dh_capabilities h)) as [[i c]|]]; eexists; (split; [reflexivity|]);
    [|done| |done]; (split; [|split; [done|by eexists]]).
  - apply (msi_typed c).
  - apply (msix_typed c).
Qed.

Lemma set_total i h : may_panic (RqSetFeatureInfo i) = false → ∃ v, (set_feature_info max_data i h).1 = Ok v.
Proof.
  intros Hp. destruct i as [i|m]; unfold set_feature_info, mbind, prog_bind; erewrite bind_Ok by reflexivity.
  - apply bool_decide_eq_false in Hp. destruct (find_msi (dh_capabilities h)) as [[j c]|]; [|by eexists].
    assert (∃ x h1, set_multi_message (ms_multi_message_enable i) h = (Ok x, h1)) as (x & h1 & E1).
    { unfold set_multi_message. destruct (ms_multi_message_enable i) as [n|]; [|by eexists _, _]. unfold mbind, prog_bind. erewrite bind_Ok by reflexivity.
      destruct (find_msi (dh_capabilities h)) as [[k d]|]; [|by eexists _, _]. destruct (_ <? n); [by eexists _, _|]. destruct (5 <? n); by eexists _, _. }
    rewrite (bind_Ok _ _ _ _ _ E1). destruct x; [by eexists|]. destruct (ms_message_address_and_data i); [by destruct Hp|]. erewrite bind_Ok by reflexivity.
    assert (∃ h2, set_mask_bits (ms_mask_bits i) h1 = (Ok tt, h2)) as (h2 & E2).
    { unfold set_mask_bits. destruct (ms_mask_bits i) as [n|]; [|by eexists]. unfold mbind, prog_bind. erewrite bind_Ok by reflexivity.
      destruct (find_msi (dh_capabilities h1)) as [[k d]|]; by eexists. }
    rewrite (bind_Ok _ _ _ _ _ E2). by eexists.
  - destruct (find_msix (dh_capabilities h)) as [[j c]|]; [|by eexists]. destruct m; erewrite bind_Ok by reflexivity; by eexists.
Qed.

Lemma length_omap_le {A B : Type} (f : A → option B) (l : list A) : (length (omap f l) <= length l)%nat.
Proof. induction l as [|x l IH]; [done|]. cbn. destruct (f x); cbn; lia. Qed.

Lemma access_respond h r : modes_ok p h → pci_addr_ok (dh_addr h) → request_ok (dh_addr h) r →
  match r with RqReadConfig _ | RqWriteConfig _ _ => True | _ => False end →
  ∃ v h', pcid_respond p max_data r args h = (Ok v, h') ∧ sendable v ∧ modes_ok p h' ∧ same_function h h' ∧ answered r h v h'.
Proof.
  intros Ho Ha [Hs Hr] Hc. destruct r as [| | | | | |o|o x]; try done; cbn [pcid_respond]; unfold mbind, prog_bind.
  - destruct Hr as [(_ & Hu & Hm) Hin]. cbn [ca_offset] in Hu, Hm. pose proof (access_routed phys_map descs im mask Hok Hdis (dh_addr h) o (dh_world h) Ha Hu Hm) as Hacc.
    change (bool_decide _ || _) with (in_reach windows (CaRead (dh_addr h) o)) in Hacc. rewrite Hin in Hacc. destruct Hacc as [(v & w' & E & Hv) _].
    erewrite bind_Ok by reflexivity. assert (on_world (pcie_read p (dh_addr h) o) h = (Ok v, set_caps (dh_capabilities h) w' h)) as Ew by (unfold on_world; by rewrite E).
    rewrite (bind_Ok _ _ _ _ _ Ew). eexists _, _. split; [reflexivity|]. split; [exact (read_u32 _ _ _ _ _ E)|].
    pose proof (read_law (p := p) (dh_addr h) o (dh_world h)) as [L1 L2]. rewrite E in L1, L2. cbn [snd] in L1, L2.
    split; [destruct Ho; split; cbn; rewrite ?L1, ?L2; done|]. split; [done|]. exists v. split; [done|exact Hv].
  - destruct Hr as ((_ & Hu & Hm) & Hin & Hreg). cbn [ca_offset] in Hu, Hm. pose proof (access_routed phys_map descs im mask Hok Hdis (dh_addr h) o (dh_world h) Ha Hu Hm) as Hacc.
    change (bool_decide _ || _) with (in_reach windows (CaWrite (dh_addr h) o x)) in Hacc. rewrite Hin in Hacc. destruct (proj2 Hacc x) as (w' & E & Hv).
    erewrite bind_Ok by reflexivity. assert (on_world (pcie_write p (dh_addr h) o x) h = (Ok tt, set_caps (dh_capabilities h) w' h)) as Ew by (unfold on_world; by rewrite E).
    rewrite (bind_Ok _ _ _ _ _ Ew). eexists _, _. split; [reflexivity|]. split; [done|].
    pose proof (write_law (p := p) (dh_addr h) o x (dh_world h) Hreg) as [L1 L2]. rewrite E in L1, L2. cbn [snd] in L1, L2.
    split; [destruct Ho; split; cbn; rewrite ?L1, ?L2; done|]. split; [done|]. split; [done|exact Hv].
Qed.

(** One request. *)
Lemma respond_answered r h :
  modes_ok p h → (length (dh_capabilities h) <= 256)%nat → pci_addr_ok (dh_addr h) → request_ok (dh_addr h) r →
  let x := pcid_respond p max_data r args h in
  modes_ok p x.2 ∧ same_function h x.2 ∧
  match x.1 with Ok v => sendable v ∧ answered r h v x.2 | _ => may_panic r = true end.
Proof.
  intros Ho Hlen Ha Hr x. destruct r as [| | |f|f|i|o|o y]; unfold x; clear x.
  - done.
  - split; [done|]. split; [done|]. cbn. split; [exact (Nat.le_trans _ _ _ (length_omap_le _ _) Hlen)|]. eexists. split; [reflexivity|]. split; [done|]. intros f. apply found_features.
  - cbn [pcid_respond]. destruct (quiet_keeps (caps ← gets dh_capabilities; l ← vendor_capabilities p caps; mret (RsVendorCapabilities l)) h) as (H1 & H2 & H3); [|done|].
    { apply quiet_bind; [apply quiet_gets|]. intros caps. apply quiet_bind; [apply vendor_quiet|]. by intros l. }
    split; [done|]. split; [done|]. revert H3. unfold mbind, prog_bind. erewrite bind_Ok by reflexivity. unfold p_bind. destruct (vendor_capabilities p (dh_capabilities h) h) as [[l|e|] h'] eqn:E; [|done|done].
    intros H3. apply vendor_sendable in E as [E1 E2]. cbn. split; [split; [lia|done]|]. by exists l.
  - cbn [pcid_respond]. destruct (enable_modes p f h Ho) as (v & h' & E & H1 & H2 & H3). rewrite E. cbn [fst snd]. split; [done|]. split; [done|]. unfold answered.
    destruct (feature_found f h); [destruct H3 as (-> & H3)|subst v]; by split.
  - destruct (info_answer f h) as (v & E & H1 & H2). cbn [pcid_respond]. by rewrite E.
  - cbn [pcid_respond]. destruct (quiet_keeps (set_feature_info max_data i) h (set_feature_info_quiet p max_data i) Ho) as (H1 & H2 & H3). split; [done|]. split; [done|].
    destruct (set_feature_info max_data i h) as [[v|e|] h'] eqn:E; cbn [fst snd] in *; [split; [by eapply set_answer|done]| |];
      (destruct (may_panic (RqSetFeatureInfo i)) eqn:Em; [done|]); destruct (set_total i h Em) as (v & Et); by rewrite E in Et.
  - destruct (access_respond h _ Ho Ha Hr I) as (v & h' & -> & ?). naive_solver.
  - destruct (access_respond h _ Ho Ha Hr I) as (v & h' & -> & ?). naive_solver.
Qed.

Lemma call_dead r h : client_call p max_data args r (mk_link [] [] h false) = (Err IoError, mk_link [] [] h false).
Proof. done. Qed.

Lemma converse_dead rs h : converse rs (mk_link [] [] h false) = (replicate (length rs) (Err IoError), mk_link [] [] h false).
Proof. induction rs as [|r rs IH]; [done|]. cbn [converse length replicate]. rewrite call_dead, IH. done. Qed.

(** C33. A driver's conversation with its server in pcid.  Over the two pipes each request gets its own
    answer: the configuration, the features the function has, the value of the register read; a
    write changes the register it names.  MSI and MSI-X are never both on: a request that enables
    one turns the other one off, is answered with what was enabled when the function has the
    capability, and all other requests leave both alone.  The requests are values of their Rust
    types; registers are accessed aligned and within reach of pcid, and the two control registers
    are not written directly.  A vendor capability of a strange length and message data that is
    too large make the server panic; then every later request returns an error. *)
Theorem interrupt_modes_exclusive rs h :
  modes_ok p h → (length (dh_capabilities h) <= 256)%nat → pci_addr_ok (dh_addr h) → Forall (request_ok (dh_addr h)) rs →
  let '(answers, l) := converse rs (idle h) in
  conversation rs answers h (ln_server l).
Proof.
  intros Ho Hlen Ha Hrs. remember (dh_addr h) as a eqn:Ea. revert h Ho Hlen Ea. induction Hrs as [|r rs Hr _ IH]; intros h Ho Hlen ->; [by constructor|].
  destruct (respond_answered r h Ho Hlen Ha Hr) as (H1 & H2 & H3). cbn [converse].
  rewrite client_call_respond; [|exact (proj1 Hr)|intros v h' E; rewrite E in H3; exact (proj1 H3)].
  destruct (pcid_respond p max_data r args h) as [[v|e|] h'] eqn:E; cbn [fst snd] in *.
  - destruct H3 as [_ H3]. destruct H2 as [H2 H2']. specialize (IH h' H1). rewrite H2, H2' in IH. specialize (IH Hlen eq_refl).
    destruct (converse rs (idle h')) as [answers l]. by apply (cv_answer r rs v answers h h').
  - rewrite converse_dead. by apply (cv_gone r rs h h').
  - rewrite converse_dead. by apply (cv_gone r rs h h').
Qed.

(** Asking for a mode that the function does not have turns the other one off. *)
Lemma enable_missing_disables f h :
  modes_ok p h → feature_found f h = false →
  ∃ l', client_enable_feature p max_data args f (idle h) = (Err (InvalidResponse (RsError (NonexistentFeature f))), l') ∧
    msi_on (dh_world (ln_server l')) = false ∧ msix_on (dh_world (ln_server l')) = false.
Proof.
  intros Ho Hf. destruct (enable_modes p f h Ho) as (v & h' & E & _ & _ & Hv). rewrite Hf in Hv. subst v.
  unfold client_enable_feature, mbind, prog_bind, p_bind. rewrite client_call_respond; [|done|intros v h'' E'; cbn [pcid_respond] in E'; rewrite E in E'; by injection E' as <- _].
  cbn [pcid_respond]. rewrite E. eexists. split; [reflexivity|]. cbn [ln_server]. pose proof Ho as [_ M2 M3].
  unfold enable_feature, mbind, prog_bind in E. destruct f; cbn [feature_found] in Hf; apply bool_decide_eq_false in Hf.
  - destruct (disable_msix_modes p h Ho) as (h1 & E1 & N1 & N2 & N3 & _). rewrite (bind_Ok _ _ _ _ _ E1) in E. erewrite bind_Ok in E by reflexivity.
    rewrite N3 in E. destruct (find_msi (dh_capabilities h)); [by destruct Hf|]. injection E as <-. rewrite N1, N2. split; [|done].
    destruct (msi_on (dh_world h)); [|done]. by destruct M2 as [y Hy].
  - destruct (disable_msi_modes p h Ho) as (h1 & E1 & N1 & N2 & N3 & _). rewrite (bind_Ok _ _ _ _ _ E1) in E. erewrite bind_Ok in E by reflexivity.
    rewrite N3 in E. destruct (find_msix (dh_capabilities h)); [by destruct Hf|]. injection E as <-. rewrite N1, N2. split; [done|].
    destruct (msix_on (dh_world h)); [|done]. by destruct M3 as [y Hy].
Qed.

End conversations.
(** ** An encoding, and a function for the example *)

(** A format: how a value is written in bytes and read back, for which values, and in how many bytes
    at most. *)
Record Fmt (T : Type) := mk_fmt {
  f_enc : T → list Z;
  f_dec : list Z → option (T * list Z);
  f_ok : T → Prop;
  f_max : Z;
  f_pos : 0 <= f_max;
  f_back x rest : f_ok x → f_dec (f_enc x ++ rest) = Some (x, rest);
  f_bytes x : Forall is_byte (f_enc x);
  f_size x : f_ok x → Z.of_nat (length (f_enc x)) <= f_max;
}.
Arguments f_enc {_} f. Arguments f_dec {_} f. Arguments f_ok {_} f. Arguments f_max {_} f.
Arguments f_pos {_} f. Arguments f_back {_} f. Arguments f_bytes {_} f. Arguments f_size {_} f.

#[local, program] Definition fmt_uint (n : nat) : Fmt Z :=
  mk_fmt Z (le_bytes n) (λ l, if (length l <? n)%nat then None else Some (le_val (take n l), drop n l))
    (u_range (8 * Z.of_nat n)) (Z.of_nat n) _ _ _ _.
Next Obligation. lia. Qed.
Next Obligation.
  intros n x rest Hx. cbv beta. rewrite (proj2 (Nat.ltb_ge _ _)) by (rewrite length_app, length_le_bytes; lia).
  by rewrite take_app_length', drop_app_length', le_val_bytes by (done || by rewrite length_le_bytes).
Qed.
Next Obligation. intros n x. apply le_bytes_range. Qed.
Next Obligation. intros n x _. by rewrite length_le_bytes. Qed.

#[local, program] Definition fmt_unit : Fmt unit := mk_fmt unit (λ _, []) (λ l, Some (tt, l)) (λ _, True) 0 _ _ _ _.
Next Obligation. done. Qed.
Next Obligation. by intros []. Qed.
Next Obligation. constructor. Qed.
Next Obligation. done. Qed.

Definition dec_pair {A B : Type} (f : Fmt A) (g : Fmt B) (l : list Z) : option (A * B * list Z) :=
  '(a, l) ← f_dec f l; '(b, l) ← f_dec g l; Some (a, b, l).

#[local, program] Definition fmt_pair {A B : Type} (f : Fmt A) (g : Fmt B) : Fmt (A * B) :=
  mk_fmt (A * B) (λ x, f_enc f x.1 ++ f_enc g x.2) (dec_pair f g)
    (λ x, f_ok f x.1 ∧ f_ok g x.2) (f_max f + f_max g) _ _ _ _.
Next Obligation. intros A B f g. pose proof (f_pos f). pose proof (f_pos g). lia. Qed.
Next Obligation. intros A B f g [a b] rest [Ha Hb]. cbn. unfold dec_pair. rewrite <- app_assoc, f_back by done. cbn. by rewrite f_back. Qed.
Next Obligation. intros A B f g x. apply Forall_app. split; apply f_bytes. Qed.
Next Obligation. intros A B f g x [Ha Hb]. pose proof (f_size f _ Ha). pose proof (f_size g _ Hb). rewrite length_app. lia. Qed.

(** A byte for the variant. *)
Definition enc_sum {A B : Type} (f : Fmt A) (g : Fmt B) (x : A + B) : list Z :=
  match x with inl a => 0 :: f_enc f a | inr b => 1 :: f_enc g b end.

Definition dec_sum {A B : Type} (f : Fmt A) (g : Fmt B) (l : list Z) : option ((A + B) * list Z) :=
  match l with
  | 0 :: l => '(a, l) ← f_dec f l; Some (inl a, l)
  | 1 :: l => '(b, l) ← f_dec g l; Some (inr b, l)
  | _ => None
  end.

Definition ok_sum {A B : Type} (f : Fmt A) (g : Fmt B) (x : A + B) : Prop := match x with inl a => f_ok f a | inr b => f_ok g b end.

#[local, program] Definition fmt_sum {A B : Type} (f : Fmt A) (g : Fmt B) : Fmt (A + B) :=
  mk_fmt (A + B) (enc_sum f g) (dec_sum f g) (ok_sum f g) (1 + f_max f + f_max g) _ _ _ _.
Next Obligation. intros A B f g. pose proof (f_pos f). pose proof (f_pos g). lia. Qed.
Next Obligation. intros A B f g [a|b] rest Hx; cbn; by rewrite f_back. Qed.
Next Obligation. intros A B f g [a|b]; cbn; (constructor; [done|apply f_bytes]). Qed.
Next Obligation.
  intros A B f g [a|b] Hx; cbn [enc_sum length]; pose proof (f_pos f); pose proof (f_pos g); [pose proof (f_size f _ Hx)|pose proof (f_size g _ Hx)]; lia.
Qed.

Definition dec_map {A B : Type} (back : B → A) (f : Fmt B) (l : list Z) : option (A * list Z) := '(b, l) ← f_dec f l; Some (back b, l).

#[local, program] Definition fmt_map {A B : Type} (to : A → B) (back : B → A) (Hback : ∀ x, back (to x) = x) (f : Fmt B) : Fmt A :=
  mk_fmt A (λ x, f_enc f (to x)) (dec_map back f) (λ x, f_ok f (to x)) (f_max f) (f_pos f) _ _ _.
Next Obligation. intros A B to back Hback f x rest Hx. unfold dec_map. rewrite f_back by done. cbn. by rewrite Hback. Qed.
Next Obligation. intros. apply f_bytes. Qed.
Next Obligation. intros A B to back Hback f x Hx. by apply f_size. Qed.

Definition option_sum {A : Type} (o : option A) : unit + A := match o with None => inl tt | Some a => inr a end.
Definition sum_option {A : Type} (x : unit + A) : option A := match x with inl _ => None | inr a => Some a end.

#[local] Definition fmt_option {A : Type} (f : Fmt A) : Fmt (option A) :=
  fmt_map option_sum sum_option (λ o, match o with None => eq_refl | Some _ => eq_refl end) (fmt_sum fmt_unit f).

#[local] Definition fmt_bool : Fmt bool :=
  fmt_map (λ b : bool, if b then inl tt else inr tt) (λ x, match x with inl _ => true | inr _ => false end)
    (λ b, match b with true => eq_refl | false => eq_refl end) (fmt_sum fmt_unit fmt_unit).

Fixpoint dec_many {A : Type} (f : Fmt A) (n : nat) (l : list Z) : option (list A * list Z) :=
  match n with
  | O => Some ([], l)
  | S n => '(a, l) ← f_dec f l; '(rest, l) ← dec_many f n l; Some (a :: rest, l)
  end.

Lemma dec_many_back {A : Type} (f : Fmt A) (xs : list A) rest :
  Forall (f_ok f) xs → dec_many f (length xs) (concat (f_enc f <$> xs) ++ rest) = Some (xs, rest).
Proof.
  induction 1 as [|x xs Hx _ IH]; [done|]. cbn [length dec_many fmap list_fmap concat]. rewrite <- app_assoc, f_back by done. cbn. by rewrite IH.
Qed.

Lemma many_size {A : Type} (f : Fmt A) (xs : list A) :
  Forall (f_ok f) xs → Z.of_nat (length (concat (f_enc f <$> xs))) <= Z.of_nat (length xs) * f_max f.
Proof.
  induction 1 as [|x xs Hx _ IH]; [done|]. cbn [fmap list_fmap concat length]. rewrite length_app. pose proof (f_size f x Hx). lia.
Qed.

Lemma many_bytes {A : Type} (f : Fmt A) (xs : list A) : Forall is_byte (concat (f_enc f <$> xs)).
Proof. induction xs as [|x xs IH]; [constructor|]. cbn. apply Forall_app. split; [apply f_bytes|done]. Qed.

Definition dec_list {A : Type} (f : Fmt A) (l : list Z) : option (list A * list Z) := '(n, l) ← f_dec (fmt_uint 8) l; dec_many f (Z.to_nat n) l.

#[local, program] Definition fmt_list {A : Type} (f : Fmt A) : Fmt (list A) :=
  mk_fmt (list A) (λ xs, le_bytes 8 (Z.of_nat (length xs)) ++ concat (f_enc f <$> xs))
    (dec_list f)
    (λ xs, (length xs <= 256)%nat ∧ Forall (f_ok f) xs) (8 + 256 * f_max f) _ _ _ _.
Next Obligation. intros A f. pose proof (f_pos f). lia. Qed.
Next Obligation.
  intros A f xs rest [Hl Hxs]. unfold dec_list. rewrite <- app_assoc. change (le_bytes 8 (Z.of_nat (length xs))) with (f_enc (fmt_uint 8) (Z.of_nat (length xs))).
  rewrite f_back by (unfold f_ok, fmt_uint, u_range; change (2 ^ (8 * Z.of_nat 8)) with (2 ^ 64); lia). cbn. rewrite Nat2Z.id. by apply dec_many_back.
Qed.
Next Obligation. intros A f xs. apply Forall_app. split; [apply le_bytes_range|apply many_bytes]. Qed.
Next Obligation.
  intros A f xs [Hl Hxs]. rewrite length_app, length_le_bytes. pose proof (many_size f xs Hxs). pose proof (f_pos f). nia.
Qed.

(** Messages as pairs and sums. *)
Definition bar_sum (b : PciBar) : unit + (Z * Z) + (Z * Z) + Z :=
  match b with
  | BarNone => inl (inl (inl tt)) | BarMemory32 a n => inl (inl (inr (a, n)))
  | BarMemory64 a n => inl (inr (a, n)) | BarPort q => inr q
  end.

Definition sum_bar (x : unit + (Z * Z) + (Z * Z) + Z) : PciBar :=
  match x with
  | inl (inl (inl _)) => BarNone | inl (inl (inr (a, n))) => BarMemory32 a n
  | inl (inr (a, n)) => BarMemory64 a n | inr q => BarPort q
  end.

Lemma sum_bar_sum b : sum_bar (bar_sum b) = b.
Proof. by destruct b. Qed.

#[local] Definition fmt_bar : Fmt PciBar :=
  fmt_map bar_sum sum_bar sum_bar_sum
    (fmt_sum (fmt_sum (fmt_sum fmt_unit (fmt_pair (fmt_uint 4) (fmt_uint 4))) (fmt_pair (fmt_uint 8) (fmt_uint 8))) (fmt_uint 2)).

Definition device_id_tuple (d : FullDeviceId) : Z * Z * Z * Z * Z * Z :=
  (di_vendor_id d, di_device_id d, di_class d, di_subclass d, di_interface d, di_revision d).
Definition tuple_device_id (x : Z * Z * Z * Z * Z * Z) : FullDeviceId := let '(v, d, c, s, i, r) := x in mk_device_id v d c s i r.

Lemma tuple_device_id_tuple d : tuple_device_id (device_id_tuple d) = d.
Proof. by destruct d. Qed.

Definition function_tuple (f : PciFunction) : Z * Z * Z * Z * list PciBar * option (Z * option (Z * list Z * Z)) * (Z * Z * Z * Z * Z * Z) :=
  (segment (pf_addr f), bus (pf_addr f), device (pf_addr f), function (pf_addr f), pf_bars f,
   (λ l, (li_irq l, li_phandled l)) <$> pf_legacy_interrupt_line f, device_id_tuple (pf_full_device_id f)).
Definition tuple_function (x : Z * Z * Z * Z * list PciBar * option (Z * option (Z * list Z * Z)) * (Z * Z * Z * Z * Z * Z)) : PciFunction :=
  let '(sg, b, d, f, bars, line, id) := x in
  mk_pci_function (mk_pci_address sg b d f) bars ((λ '(i, q), mk_irq_line i q) <$> line) (tuple_device_id id).

Lemma tuple_function_tuple f : tuple_function (function_tuple f) = f.
Proof. destruct f as [[] bars [[]|] id]; cbn; by destruct id. Qed.

#[local] Definition fmt_function : Fmt PciFunction :=
  fmt_map function_tuple tuple_function tuple_function_tuple
    (fmt_pair (fmt_pair (fmt_pair (fmt_pair (fmt_pair (fmt_pair (fmt_uint 2) (fmt_uint 1)) (fmt_uint 1)) (fmt_uint 1)) (fmt_list fmt_bar))
       (fmt_option (fmt_pair (fmt_uint 1) (fmt_option (fmt_pair (fmt_pair (fmt_uint 4) (fmt_list (fmt_uint 4))) (fmt_uint 8))))))
       (fmt_pair (fmt_pair (fmt_pair (fmt_pair (fmt_pair (fmt_uint 2) (fmt_uint 2)) (fmt_uint 1)) (fmt_uint 1)) (fmt_uint 1)) (fmt_uint 1))).

Definition feature_bool (f : PciFeature) : bool := match f with FtMsi => true | FtMsiX => false end.
Definition bool_feature (b : bool) : PciFeature := if b then FtMsi else FtMsiX.

Definition ReqSum : Type :=
  unit + unit + unit + bool + bool + (option Z * option (Z * Z) * option Z) + option bool + Z + (Z * Z).

Definition req_sum (r : PcidClientRequest) : ReqSum :=
  match r with
  | RqConfig => inl (inl (inl (inl (inl (inl (inl (inl tt)))))))
  | RqFeatures => inl (inl (inl (inl (inl (inl (inl (inr tt)))))))
  | RqVendorCapabilities => inl (inl (inl (inl (inl (inl (inr tt))))))
  | RqEnableFeature f => inl (inl (inl (inl (inl (inr (feature_bool f))))))
  | RqFeatureInfo f => inl (inl (inl (inl (inr (feature_bool f)))))
  | RqSetFeatureInfo (SfMsi i) =>
      inl (inl (inl (inr (ms_multi_message_enable i,
        (λ d, (md_addr d, md_data d)) <$> ms_message_address_and_data i, ms_mask_bits i))))
  | RqSetFeatureInfo (SfMsiX m) => inl (inl (inr m))
  | RqReadConfig o => inl (inr o)
  | RqWriteConfig o v => inr (o, v)
  end.

Definition sum_req (x : ReqSum) : PcidClientRequest :=
  match x with
  | inl (inl (inl (inl (inl (inl (inl (inl _))))))) => RqConfig
  | inl (inl (inl (inl (inl (inl (inl (inr _))))))) => RqFeatures
  | inl (inl (inl (inl (inl (inl (inr _)))))) => RqVendorCapabilities
  | inl (inl (inl (inl (inl (inr b))))) => RqEnableFeature (bool_feature b)
  | inl (inl (inl (inl (inr b)))) => RqFeatureInfo (bool_feature b)
  | inl (inl (inl (inr (m, d, k)))) => RqSetFeatureInfo (SfMsi (mk_msi_set m ((λ '(a, v), mk_msi_data a v) <$> d) k))
  | inl (inl (inr m)) => RqSetFeatureInfo (SfMsiX m)
  | inl (inr o) => RqReadConfig o
  | inr (o, v) => RqWriteConfig o v
  end.

Lemma sum_req_sum r : sum_req (req_sum r) = r.
Proof. destruct r as [| | |[]|[]|[[m [[]|] k]|]| |]; done. Qed.

Definition InfoSum : Type := (Z * bool * bool) + (Z * Z * Z * Z * Z).

Definition info_sum (i : PciFeatureInfo) : InfoSum :=
  match i with
  | FiMsi i => inl (mi_log2_multiple_message_capable i, mi_is_64bit i, mi_has_per_vector_masking i)
  | FiMsiX i => inr (mx_table_bar i, mx_table_offset i, mx_table_size i, mx_pba_bar i, mx_pba_offset i)
  end.

Definition sum_info (x : InfoSum) : PciFeatureInfo :=
  match x with
  | inl (a, b, c) => FiMsi (mk_msi_info a b c)
  | inr (a, b, c, d, e) => FiMsiX (mk_msix_info a b c d e)
  end.

Definition RspSum : Type :=
  PciFunction + list bool + list (list Z) + bool + option bool + (bool * InfoSum) + bool + Z + unit.

Definition rsp_sum (r : PcidClientResponse) : RspSum :=
  match r with
  | RsConfig a => inl (inl (inl (inl (inl (inl (inl (inl (sa_func a))))))))
  | RsAllFeatures l => inl (inl (inl (inl (inl (inl (inl (inr (feature_bool <$> l))))))))
  | RsVendorCapabilities l => inl (inl (inl (inl (inl (inl (inr l))))))
  | RsFeatureEnabled f => inl (inl (inl (inl (inl (inr (feature_bool f))))))
  | RsError (NonexistentFeature f) => inl (inl (inl (inl (inr (Some (feature_bool f))))))
  | RsError InvalidBitPattern => inl (inl (inl (inl (inr None))))
  | RsFeatureInfo f i => inl (inl (inl (inr (feature_bool f, info_sum i))))
  | RsSetFeatureInfo f => inl (inl (inr (feature_bool f)))
  | RsReadConfig v => inl (inr v)
  | RsWriteConfig => inr tt
  end.

Definition sum_rsp (x : RspSum) : PcidClientResponse :=
  match x with
  | inl (inl (inl (inl (inl (inl (inl (inl f))))))) => RsConfig (mk_args f)
  | inl (inl (inl (inl (inl (inl (inl (inr l))))))) => RsAllFeatures (bool_feature <$> l)
  | inl (inl (inl (inl (inl (inl (inr l)))))) => RsVendorCapabilities l
  | inl (inl (inl (inl (inl (inr b))))) => RsFeatureEnabled (bool_feature b)
  | inl (inl (inl (inl (inr (Some b))))) => RsError (NonexistentFeature (bool_feature b))
  | inl (inl (inl (inl (inr None)))) => RsError InvalidBitPattern
  | inl (inl (inl (inr (b, i)))) => RsFeatureInfo (bool_feature b) (sum_info i)
  | inl (inl (inr b)) => RsSetFeatureInfo (bool_feature b)
  | inl (inr v) => RsReadConfig v
  | inr _ => RsWriteConfig
  end.

Lemma bool_feature_bool f : bool_feature (feature_bool f) = f.
Proof. by destruct f. Qed.

Lemma sum_rsp_sum r : sum_rsp (rsp_sum r) = r.
Proof.
  destruct r as [[]|l|l|f|[f|]|f i|f|v|]; cbn [rsp_sum sum_rsp]; rewrite ?bool_feature_bool; try done.
  - f_equal. rewrite <- list_fmap_compose. rewrite <- (list_fmap_id l) at 2. apply list_fmap_ext.
    intros j f _. apply bool_feature_bool.
  - by destruct i as [[]|[]].
Qed.

#[local] Definition fmt_request : Fmt PcidClientRequest :=
  fmt_map req_sum sum_req sum_req_sum
    (fmt_sum (fmt_sum (fmt_sum (fmt_sum (fmt_sum (fmt_sum (fmt_sum (fmt_sum fmt_unit fmt_unit) fmt_unit) fmt_bool) fmt_bool)
       (fmt_pair (fmt_pair (fmt_option (fmt_uint 1)) (fmt_option (fmt_pair (fmt_uint 8) (fmt_uint 4)))) (fmt_option (fmt_uint 4))))
       (fmt_option fmt_bool)) (fmt_uint 2)) (fmt_pair (fmt_uint 2) (fmt_uint 4))).

#[local] Definition fmt_info : Fmt InfoSum :=
  fmt_sum (fmt_pair (fmt_pair (fmt_uint 1) fmt_bool) fmt_bool)
    (fmt_pair (fmt_pair (fmt_pair (fmt_pair (fmt_uint 1) (fmt_uint 4)) (fmt_uint 2)) (fmt_uint 1)) (fmt_uint 4)).

#[local] Definition fmt_response : Fmt PcidClientResponse :=
  fmt_map rsp_sum sum_rsp sum_rsp_sum
    (fmt_sum (fmt_sum (fmt_sum (fmt_sum (fmt_sum (fmt_sum (fmt_sum (fmt_sum fmt_function (fmt_list fmt_bool)) (fmt_list (fmt_list (fmt_uint 1)))) fmt_bool)
       (fmt_option fmt_bool)) (fmt_pair fmt_bool fmt_info)) fmt_bool) (fmt_uint 4)) fmt_unit).

Lemma request_in_format r : sendable r → f_ok fmt_request r.
Proof. destruct r as [| | |[]|[]|[[[m|] [[]|] [k|]]|[[]|]]| |]; cbn; tauto. Qed.

Lemma bars_in_format l : Forall bar_typed l → Forall (f_ok fmt_bar) l.
Proof. intros H. eapply Forall_impl; [exact H|]. intros []; cbn; tauto. Qed.

Lemma function_in_format f : function_typed f → f_ok fmt_function f.
Proof.
  destruct f as [[sg b d fn] bars line []]. unfold function_typed. cbn. intros (H1 & (H2 & H3) & H4 & H5). apply bars_in_format in H2.
  unfold device_id_typed in H5. destruct line as [[irq [[[ph l] n]|]]|]; unfold line_typed in H4; cbn in *; unfold ok_sum; cbn; tauto.
Qed.

Lemma data_in_format (l : list (list Z)) : Forall (λ d, (length d <= 256)%nat ∧ Forall is_byte d) l → Forall (f_ok (fmt_list (fmt_uint 1))) l.
Proof. intros H. eapply Forall_impl; [exact H|]. intros d [H1 H2]. split; [done|]. eapply Forall_impl; [exact H2|]. intros x Hx. exact Hx. Qed.

Lemma all_bools (l : list bool) : Forall (f_ok fmt_bool) l.
Proof. apply Forall_forall. by intros []. Qed.

Lemma response_in_format r : sendable r → f_ok fmt_response r.
Proof.
  destruct r as [a|l|l|[]|[[]|]|[] [[? [] []]|[]]|[]|v|]; [apply function_in_format| | |cbn; tauto..].
  - intros Hl. split; [by rewrite length_fmap|apply all_bools].
  - intros [H1 H2]. split; [done|by apply data_in_format].
Qed.

#[local] Instance req_codec : Codec PcidClientRequest := {| encode := f_enc fmt_request; decode l := fst <$> f_dec fmt_request l |}.
#[local] Instance rsp_codec : Codec PcidClientResponse := {| encode := f_enc fmt_response; decode l := fst <$> f_dec fmt_response l |}.

Lemma fmt_decode {T : Type} (f : Fmt T) x : f_ok f x → fst <$> f_dec f (f_enc f x) = Some x.
Proof. intros Hx. pose proof (f_back f x [] Hx) as E. rewrite app_nil_r in E. by rewrite E. Qed.

#[local] Instance req_codec_laws : CodecLaws PcidClientRequest.
Proof.
  split; cbn [encode decode req_codec].
  - intros x Hx. by apply fmt_decode, request_in_format.
  - intros x. apply f_bytes.
  - intros x Hx. etrans; [apply f_size, request_in_format, Hx|]. by vm_compute.
Qed.

#[local] Instance rsp_codec_laws : CodecLaws PcidClientResponse.
Proof.
  split; cbn [encode decode rsp_codec].
  - intros x Hx. by apply fmt_decode, response_in_format.
  - intros x. apply f_bytes.
  - intros x Hx. etrans; [apply f_size, response_in_format, Hx|]. by vm_compute.
Qed.

(** A function behind the two ports: the register at 0xCF8, the configuration space, and whether
    the two modes are on. *)
Definition FnBox : Type := Z * gmap (Z * Z * Z * Z) Z * (bool * bool).

Definition fn_key (x : Z) : Z * Z * Z * Z := (field 16 8 x, field 11 5 x, field 8 3 x, field 0 8 x).

#[local] Instance fn_machine : PciMachine FnBox := {|
  mem_read _ w := (0, w); mem_write _ _ w := w;
  port_in32 _ w := (as_u32 (default (2 ^ 32 - 1) (w.1.2 !! fn_key w.1.1)), w);
  port_out32 q v w := if q =? 0xCF8 then (v, w.1.2, w.2) else (w.1.1, <[fn_key w.1.1 := v]> w.1.2, w.2);
|}.

#[local] Instance fn_caps : PciCaps FnBox unit unit := {|
  msi_multiple_message_capable _ := 0; msi_is_64bit _ := true; msi_has_per_vector_masking _ := false;
  msi_set_enabled b c w := (c, (w.1, (b, w.2.2))); msi_set_multiple_message_enable _ c w := (c, w);
  msi_multiple_message_enable _ w := (0, w); msi_set_message_info _ _ c w := (c, w);
  msi_set_message_mask _ c w := (c, w);
  msix_table_bar _ := 0; msix_table_offset _ := 0; msix_table_size _ := 1; msix_pba_bar _ := 0; msix_pba_offset _ := 0;
  msix_set_enabled b c w := (c, (w.1, (w.2.1, b))); msix_set_function_mask _ c w := (c, w);
|}.

Definition no_map (base len : Z) : option Z := None.

#[local] Instance fn_routing : CfgRouting FnBox (gmap (Z * Z * Z * Z) Z) (omap (map_alloc no_map) []).
Proof.
  refine (Build_CfgRouting _ _ _ _ (λ w, w.1.2)
    (λ a o c, (as_u32 (default (2 ^ 32 - 1) (c !! (bus a, device a, function a, o))), c))
    (λ a o v c, <[(bus a, device a, function a, o) := v]> c) _ _ _ _); [by intros a n w Ha%not_elem_of_nil|by intros a n v w Ha%not_elem_of_nil|done|done].
Defined.

Abbreviation fn_pcie := (from_allocs no_map [] [] MAX_MASK).

(** No window: the access goes to the ports or panics. *)
Lemma fn_read a o (w : FnBox) :
  let r := pcie_read fn_pcie a o w in (∀ v, r.1 = Ok v → u_range 32 v) ∧ r.2.2 = w.2.
Proof.
  unfold pcie_read, mmio_addr, mbind, prog_bind, p_bind. destruct (negb (segment a =? 0)) eqn:Hs; [done|].
  change (bus_addr fn_pcie 0 (bus a)) with (@None Z). unfold mret, prog_ret, p_ret, fallback_read, offset_u8, fallback_address, mbind, prog_bind, p_bind, mret, prog_ret, p_ret. rewrite Hs.
  destruct (255 <? o); [done|]. destruct (negb (Z.land o 0xFC =? o)); [done|]. cbn. split; [|done]. intros v [= <-]. apply (u_range_as_u 32). lia.
Qed.

Lemma fn_write a o v (w : FnBox) : (pcie_write fn_pcie a o v w).2.2 = w.2.
Proof.
  unfold pcie_write, mmio_addr, mbind, prog_bind, p_bind. destruct (negb (segment a =? 0)) eqn:Hs; [done|].
  change (bus_addr fn_pcie 0 (bus a)) with (@None Z). unfold mret, prog_ret, p_ret, fallback_write, offset_u8, fallback_address, mbind, prog_bind, p_bind, mret, prog_ret, p_ret. rewrite Hs.
  destruct (255 <? o); [done|]. by destruct (negb (Z.land o 0xFC =? o)).
Qed.

#[local] Instance fn_laws : CapsLaws FnBox unit unit fn_pcie.
Proof.
  refine (Build_CapsLaws _ _ _ _ _ _ (λ w, w.2.1) (λ w, w.2.2) _ _ _ _ _ _ _ _ _ (λ _ _, false) _ _ _); try done.
  - intros a o w. pose proof (proj2 (fn_read a o w)) as H. exact (conj (f_equal fst H) (f_equal snd H)).
  - intros a o w v w' E. exact (proj1 (fn_read a o w) v (f_equal fst E)).
  - intros a o v w _. pose proof (fn_write a o v w) as H. exact (conj (f_equal fst H) (f_equal snd H)).
Defined.

Definition both_caps (w : FnBox) : DriverHandler FnBox unit unit :=
  mk_handler (mk_pci_address 0 0 3 0) [CapMsi tt; CapMsiX tt] w.

Definition fn_args : SubdriverArguments :=
  mk_args (mk_pci_function (mk_pci_address 0 0 3 0) [BarMemory32 0xFEB00000 0x1000; BarPort 0xC000] None (mk_device_id 0x8086 0x100E 2 0 0 3)).

Definition fn_talk : list PcidClientRequest :=
  [RqConfig; RqEnableFeature FtMsi; RqWriteConfig 0x3C 11; RqReadConfig 0x3C; RqEnableFeature FtMsiX].

(** MSI is enabled, a register is written and read back, then MSI-X is enabled. *)
Lemma interrupt_modes_exclusive_witness :
  let '(answers, l) := converse no_map [] [] MAX_MASK 65535 fn_args fn_talk (mk_link [] [] (both_caps (0, ∅, (false, false))) true) in
  answers = [Ok (RsConfig fn_args); Ok (RsFeatureEnabled FtMsi); Ok RsWriteConfig; Ok (RsReadConfig 11); Ok (RsFeatureEnabled FtMsiX)] ∧
  (dh_world (ln_server l)).2 = (false, true) ∧
  conversation no_map [] [] MAX_MASK fn_args fn_talk answers (both_caps (0, ∅, (false, false))) (ln_server l).
Proof.
  assert (let '(answers, l) := converse no_map [] [] MAX_MASK 65535 fn_args fn_talk (mk_link [] [] (both_caps (0, ∅, (false, false))) true) in
    conversation no_map [] [] MAX_MASK fn_args fn_talk answers (both_caps (0, ∅, (false, false))) (ln_server l)) as Hc.
  { apply (interrupt_modes_exclusive no_map [] [] MAX_MASK 65535 fn_args).
    - constructor.
    - intros a b c Ha. by apply not_elem_of_nil in Ha.
    - unfold sendable, response_sendable, function_typed, device_id_typed. cbn. repeat constructor; lia.
    - split; done.
    - cbn. lia.
    - repeat constructor; cbn; lia.
    - unfold fn_talk. repeat constructor; cbn; try lia. }
  destruct (converse no_map [] [] MAX_MASK 65535 fn_args fn_talk _) as [answers l] eqn:E.
  assert (answers = (converse no_map [] [] MAX_MASK 65535 fn_args fn_talk (mk_link [] [] (both_caps (0, ∅, (false, false))) true)).1) as Ea by (by rewrite E).
  assert ((dh_world (ln_server l)).2 = (dh_world (ln_server (converse no_map [] [] MAX_MASK 65535 fn_args fn_talk (mk_link [] [] (both_caps (0, ∅, (false, false))) true)).2)).2) as El by (by rewrite E).
  split; [rewrite Ea; by vm_compute|]. split; [rewrite El; by vm_compute|exact Hc].
Defined.
