(* ===== verification/PciEnum.v ===== *)
(** The enumeration of the PCI buses and the start of drivers (pcid/src/main.rs,
    the command line of pcid/src/driver_handler.rs, and the interrupt vectors of
    pcid/src/driver_interface/irq_helpers.rs).

    The headers of pci_types are the interface [PciHeaders]; starting a driver is
    the command that is run. *)

From Stdlib Require Import Ascii.
From S2P Require Import Prelude PciAccess PciConfig PciServer.

(** ** Headers *)

Inductive HeaderType : Type := HtEndpoint | HtPciPciBridge | HtOther.

(** [pci_types::Bar]. *)
Inductive TyBar : Type := TbIo (port : Z) | TbMemory32 (address size : Z) | TbMemory64 (address size : Z).

Class PciHeaders (W : Type) := {
  hdr_id : PciAddress → prog W errno (Z * Z);
  (** revision, class, subclass, interface *)
  hdr_revision_and_class : PciAddress → prog W errno (Z * Z * Z * Z);
  hdr_type : PciAddress → prog W errno HeaderType;
  hdr_secondary_bus : PciAddress → prog W errno Z;
  hdr_bar : PciAddress → Z → prog W errno (option TyBar);
  hdr_update_command : PciAddress → (Z → Z) → prog W errno unit;
  (** the pair (pin, line) the closure was given *)
  hdr_update_interrupt : PciAddress → (Z * Z → Z * Z) → prog W errno (Z * Z);
  hdr_has_capabilities : PciAddress → prog W errno bool;
  hdr_capabilities : PciAddress → prog W errno (list Z);
}.

Definition IO_ENABLE : Z := 1.
Definition MEMORY_ENABLE : Z := 2.
Definition BUS_MASTER_ENABLE : Z := 4.

(** ** Starting a driver *)

Definition starts_with (c : Ascii.ascii) (s : string) : bool :=
  match s with String c' _ => bool_decide (c = c') | EmptyString => false end.

(** The program and its arguments; [None] is a command without a program, an
    argument that starts with [$] panics. *)
Definition spawn_command (args : list string) : res errno (option (string * list string)) :=
  match args with
  | [] => Ok None
  | program :: args =>
      let program := if starts_with "/"%char program then program else "/usr/lib/drivers/" +:+ program in
      if existsb (starts_with "$"%char) args then Panic else Ok (Some (program, args))
  end.

(** A driver that was started. *)
Record Spawned := mk_spawned {
  sp_function : PciFunction; sp_capabilities : list Z; sp_program : string; sp_args : list string;
}.

Section pcid.
Context {W : Type} `{HH : PciHeaders W} (pcie : Pcie).
Abbreviation mp := (prog W errno).

(** The six registers; a 64-bit register uses up the next one. *)
Fixpoint read_bars (a : PciAddress) (n : nat) (i : Z) (skip : bool) : mp (list PciBar) :=
  match n with
  | O => mret []
  | S n =>
      if skip then rest ← read_bars a n (i + 1) false; mret (BarNone :: rest)
      else
        b ← hdr_bar a i;
        '(bar, skip) ←
          (match b with
           | Some (TbIo port) => if port <? 65536 then mret (BarPort port, false) else panic
           | Some (TbMemory32 address size) => mret (BarMemory32 address size, false)
           | Some (TbMemory64 address size) => mret (BarMemory64 address size, true)
           | None => mret (BarNone, false)
           end);
        rest ← read_bars a n (i + 1) skip;
        mret (bar :: rest)
  end.

Definition set_line (pl : Z * Z) : Z * Z := let '(pin, line) := pl in (pin, if line =? 0xFF then 9 else line).

(** The parent interrupt of the device tree for a pin. *)
Definition find_mapping (a : PciAddress) (pin : Z) : option (Z * list Z * Z) :=
  let mask k := default 0 (pc_interrupt_map_mask pcie !! k) in
  let dt_address := Z.lor (Z.lor (Z.shiftl (bus a) 16) (Z.shiftl (device a) 11)) (Z.shiftl (function a) 8) in
  let addr := [Z.land dt_address (mask 0%nat); 0; 0] in
  let interrupt := Z.land pin (mask 3%nat) in
  '(_, x) ← list_find (λ x, im_addr x = addr ∧ im_interrupt x = interrupt) (pc_interrupt_map pcie);
  Some (im_parent_phandle x, im_parent_interrupt x, im_parent_interrupt_cells x).

(** What is done for one driver that matches. *)
Definition start_driver (a : PciAddress) (id : FullDeviceId) (args : list string) : mp (list Spawned) :=
  bars ← read_bars a 6 0 false;
  _ ← hdr_update_command a (λ cmd, Z.lor (Z.lor (Z.lor cmd BUS_MASTER_ENABLE) MEMORY_ENABLE) IO_ENABLE);
  pl ← hdr_update_interrupt a set_line;
  let '(pin, irq) := set_line pl in
  let enabled := (1 <=? pin) && (pin <=? 4) in
  let phandled := if enabled then find_mapping a pin else None in
  has ← hdr_has_capabilities a;
  caps ← (if has : bool then hdr_capabilities a else mret []);
  let func := mk_pci_function a bars (if enabled then Some (mk_irq_line irq phandled) else None) id in
  match spawn_command args with
  | Ok (Some (program, rest)) => mret [mk_spawned func caps program rest]
  | Ok None => mret []
  | Err e => throw e
  | Panic => panic
  end.

Fixpoint handle_parsed_header (drivers : list DriverConfig) (a : PciAddress) (id : FullDeviceId) : mp (list Spawned) :=
  match drivers with
  | [] => mret []
  | d :: drivers =>
      m ← unwrap (match_function d id);
      here ← (match m : bool, dc_command d with
              | true, Some args => start_driver a id args
              | _, _ => mret []
              end);
      rest ← handle_parsed_header drivers a id;
      mret (here ++ rest)
  end.

(** ** The buses *)

Context (drivers : list DriverConfig).

(** One function: the drivers started and the buses found.  [None]: no function. *)
Definition scan_function (b dev func : Z) : mp (option (list Spawned * list Z)) :=
  let a := mk_pci_address 0 b dev func in
  '(vendor_id, device_id) ← hdr_id a;
  if (vendor_id =? 0xffff) && (device_id =? 0xffff) then mret None
  else
    '(revision, class, subclass, interface) ← hdr_revision_and_class a;
    let id := mk_device_id vendor_id device_id class subclass interface revision in
    ty ← hdr_type a;
    match ty with
    | HtEndpoint => l ← handle_parsed_header drivers a id; mret (Some (l, []))
    | HtPciPciBridge => s ← hdr_secondary_bus a; mret (Some ([], [s]))
    | HtOther => mret (Some ([], []))
    end.

(** The functions from [func] on; a device without function 0 is skipped. *)
Fixpoint scan_functions (n : nat) (b dev func : Z) : mp (list Spawned * list Z) :=
  match n with
  | O => mret ([], [])
  | S n =>
      r ← scan_function b dev func;
      match r with
      | None => if func =? 0 then mret ([], []) else scan_functions n b dev (func + 1)
      | Some (l, bs) =>
          '(l', bs') ← scan_functions n b dev (func + 1);
          mret (l ++ l', bs ++ bs')
      end
  end.

Fixpoint scan_devices (n : nat) (b dev : Z) : mp (list Spawned * list Z) :=
  match n with
  | O => mret ([], [])
  | S n =>
      '(l, bs) ← scan_functions 8 b dev 0;
      '(l', bs') ← scan_devices n b (dev + 1);
      mret (l ++ l', bs ++ bs')
  end.

Definition scan_bus (b : Z) : mp (list Spawned * list Z) := scan_devices 32 b 0.

(** The loop over [bus_nums], which grows behind [bus_i]; a pass for each bus. *)
Fixpoint scan_loop (fuel bus_i : nat) (bus_nums : list Z) : mp (list Spawned * list Z) :=
  match fuel with
  | O => throw ETIMEDOUT
  | S fuel =>
      match bus_nums !! bus_i with
      | None => mret ([], bus_nums)
      | Some b =>
          '(l, bs) ← scan_bus b;
          '(l', bus_nums) ← scan_loop fuel (S bus_i) (bus_nums ++ bs);
          mret (l ++ l', bus_nums)
      end
  end.

(** [main_inner]: the drivers started and the buses visited, within [fuel] passes. *)
Definition enumerate (fuel : nat) : mp (list Spawned * list Z) := scan_loop fuel 0 [0].

End pcid.

(** ** What is there *)

Inductive FnKind : Type := FkEndpoint | FkBridge (secondary : Z) | FkOther.

Record FnDesc := mk_fn { fd_id : FullDeviceId; fd_kind : FnKind }.

Definition fn_type (k : FnKind) : HeaderType :=
  match k with FkEndpoint => HtEndpoint | FkBridge _ => HtPciPciBridge | FkOther => HtOther end.

(** Programs that return, from and to states of [ok]. *)
Definition returns {W A : Type} (ok : W → Prop) (m : prog W errno A) (P : A → Prop) : Prop :=
  ∀ w, ok w → ∃ a w', m w = (Ok a, w') ∧ ok w' ∧ P a.

Lemma returns_bind {W A B : Type} (ok : W → Prop) (m : prog W errno A) (f : A → prog W errno B) P Q :
  returns ok m P → (∀ a, P a → returns ok (f a) Q) → returns ok (p_bind f m) Q.
Proof.
  intros Hm Hf w Hw. destruct (Hm w Hw) as (a & w1 & E & Hw1 & Ha). rewrite (bind_Ok _ _ _ _ _ E). by apply Hf.
Qed.

Lemma returns_ret {W A : Type} (ok : W → Prop) (a : A) (P : A → Prop) : P a → returns ok (mret a) P.
Proof. intros Ha w Hw. by exists a, w. Qed.

(** A machine with the functions [fn_at] whose headers can be read and set up. *)
Class Topology (W : Type) `{HH : PciHeaders W} := {
  topo_ok : W → Prop;
  fn_at : PciAddress → option FnDesc;
  topo_present a d : fn_at a = Some d → ¬ (di_vendor_id (fd_id d) = 0xffff ∧ di_device_id (fd_id d) = 0xffff);
  topo_id a : returns topo_ok (hdr_id a) (λ r, r =
    match fn_at a with Some d => (di_vendor_id (fd_id d), di_device_id (fd_id d)) | None => (0xffff, 0xffff) end);
  topo_class a d : fn_at a = Some d → returns topo_ok (hdr_revision_and_class a) (λ r, r =
    (di_revision (fd_id d), di_class (fd_id d), di_subclass (fd_id d), di_interface (fd_id d)));
  topo_type a d : fn_at a = Some d → returns topo_ok (hdr_type a) (λ t, t = fn_type (fd_kind d));
  topo_secondary a d s : fn_at a = Some d → fd_kind d = FkBridge s → returns topo_ok (hdr_secondary_bus a) (λ x, x = s);
  topo_bar a i : returns topo_ok (hdr_bar a i) (λ b, ∀ q, b = Some (TbIo q) → q < 65536);
  topo_command a f : returns topo_ok (hdr_update_command a f) (λ _, True);
  topo_interrupt a f : returns topo_ok (hdr_update_interrupt a f) (λ _, True);
  topo_has_caps a : returns topo_ok (hdr_has_capabilities a) (λ _, True);
  topo_caps a : returns topo_ok (hdr_capabilities a) (λ _, True);
}.

Section enumeration.
Context {W : Type} `{HH : PciHeaders W} `{HT : !Topology W} (pcie : Pcie) (drivers : list DriverConfig).

(** ** Starting the drivers of a function *)

(** The commands that are run for a function, in the order of the configuration. *)
Definition launch (id : FullDeviceId) (d : DriverConfig) : option (string * list string) :=
  match match_function d id, dc_command d with
  | Some true, Some args => match spawn_command args with Ok r => r | _ => None end
  | _, _ => None
  end.

Definition launches (ds : list DriverConfig) (a : PciAddress) (id : FullDeviceId) : list (PciAddress * string * list string) :=
  (λ c, (a, c.1, c.2)) <$> omap (launch id) ds.

Definition launched (s : Spawned) : PciAddress * string * list string :=
  (pf_addr (sp_function s), sp_program s, sp_args s).

(** Vendors that parse, and no variables in commands. *)
Definition driver_ok (d : DriverConfig) : Prop :=
  (∀ ids, dc_ids d = Some ids → Forall (λ e, is_Some (entry_vendor e.1)) ids) ∧
  (∀ args, dc_command d = Some args → spawn_command args ≠ Panic).

Lemma match_function_some d id : driver_ok d → is_Some (match_function d id).
Proof.
  intros [Hids _]. unfold match_function.
  destruct (differs _ _); [by eexists|]. destruct (differs _ _); [by eexists|]. destruct (differs _ _); [by eexists|].
  destruct (dc_ids d) as [ids|].
  - destruct (ids_match_spec id ids false (Hids ids eq_refl)) as (b & -> & _). cbn. destruct b; by eexists.
  - cbn. destruct (negb _); by eexists.
Qed.

Lemma read_bars_returns a n i skip : returns topo_ok (read_bars a n i skip) (λ l, length l = n).
Proof.
  revert i skip. induction n as [|n IH]; intros i skip; cbn [read_bars]; [by apply returns_ret|].
  unfold mbind, prog_bind. destruct skip.
  - eapply returns_bind; [apply IH|]. intros l Hl. apply returns_ret. cbn. by rewrite Hl.
  - eapply returns_bind; [apply topo_bar|]. intros b Hb.
    apply (returns_bind _ _ _ (λ _, True)).
    + destruct b as [[q| |]|]; try by apply returns_ret.
      rewrite (proj2 (Z.ltb_lt q 65536)) by (by apply Hb). by apply returns_ret.
    + intros [bar sk] _. eapply returns_bind; [apply IH|]. intros l Hl. apply returns_ret. cbn. by rewrite Hl.
Qed.

Lemma start_driver_returns a id args : spawn_command args ≠ Panic →
  returns topo_ok (start_driver pcie a id args)
    (λ l, launched <$> l = match spawn_command args with Ok (Some c) => [(a, c.1, c.2)] | _ => [] end ∧
       Forall (λ s, length (pf_bars (sp_function s)) = 6%nat ∧ pf_full_device_id (sp_function s) = id) l).
Proof.
  intros Hp. unfold start_driver, mbind, prog_bind.
  eapply returns_bind; [apply read_bars_returns|]. intros bars Hbars.
  eapply returns_bind; [apply topo_command|]. intros _ _.
  eapply returns_bind; [apply topo_interrupt|]. intros pl _. destruct (set_line pl) as [pin irq].
  eapply returns_bind; [apply topo_has_caps|]. intros has _.
  apply (returns_bind _ _ _ (λ _, True)); [destruct has; [apply topo_caps|by apply returns_ret]|]. intros caps _.
  assert (∀ e, spawn_command args ≠ Err e) as He.
  { intros e. unfold spawn_command. destruct args; [done|]. by destruct (existsb _ _). }
  destruct (spawn_command args) as [[[program rest]|]|e|]; [| |by destruct (He e)|done].
  - apply returns_ret. split; [done|]. by repeat constructor.
  - apply returns_ret. split; [done|constructor].
Qed.

Lemma handle_returns ds a id : Forall driver_ok ds →
  returns topo_ok (handle_parsed_header pcie ds a id) (λ l, launched <$> l = launches ds a id).
Proof.
  induction 1 as [|d ds Hd _ IH]; cbn [handle_parsed_header]; [by apply returns_ret|].
  destruct (match_function_some d id Hd) as [b Hb]. rewrite Hb. unfold mbind, prog_bind. cbn [unwrap].
  eapply returns_bind; [by apply (returns_ret _ b (λ x, x = b))|]. intros ? ->.
  apply (returns_bind _ _ _ (λ l, launched <$> l = (λ c, (a, c.1, c.2)) <$> omap (launch id) [d])).
  - unfold omap, list_omap, launch. rewrite Hb. destruct b, (dc_command d) as [args|] eqn:Hc; try by apply returns_ret.
    destruct Hd as [_ Hp]. specialize (Hp args Hc).
    intros w Hw. destruct (start_driver_returns a id args Hp w Hw) as (l & w' & E & Hw' & Hl & _).
    exists l, w'. split; [done|]. split; [done|]. rewrite Hl. by destruct (spawn_command args) as [[c|]|e|].
  - intros here Hh. eapply returns_bind; [exact IH|]. intros rest Hr. apply returns_ret.
    rewrite fmap_app, Hh, Hr. unfold launches. rewrite <- fmap_app, <- omap_app. done.
Qed.

(** ** Scanning a bus *)

(** The drivers of a function and the bus behind it. *)
Definition fn_launches (a : PciAddress) (d : FnDesc) : list (PciAddress * string * list string) :=
  match fd_kind d with FkEndpoint => launches drivers a (fd_id d) | _ => [] end.

Definition fn_bus (d : FnDesc) : list Z := match fd_kind d with FkBridge s => [s] | _ => [] end.

(** The functions of a device that are there. *)
Fixpoint functions_from (n : nat) (b dev func : Z) : list (PciAddress * FnDesc) :=
  match n with
  | O => []
  | S n =>
      let a := mk_pci_address 0 b dev func in
      match fn_at a with Some d => [(a, d)] | None => [] end ++ functions_from n b dev (func + 1)
  end.

Definition device_functions (b dev : Z) : list (PciAddress * FnDesc) :=
  match fn_at (mk_pci_address 0 b dev 0) with None => [] | Some _ => functions_from 8 b dev 0 end.

Fixpoint devices_from (n : nat) (b dev : Z) : list (PciAddress * FnDesc) :=
  match n with O => [] | S n => device_functions b dev ++ devices_from n b (dev + 1) end.

Definition bus_functions (b : Z) : list (PciAddress * FnDesc) := devices_from 32 b 0.

Definition bus_launches (b : Z) : list (PciAddress * string * list string) :=
  bus_functions b ≫= λ x, fn_launches x.1 x.2.

(** The buses behind the bridges of a bus. *)
Definition children (b : Z) : list Z := bus_functions b ≫= λ x, fn_bus x.2.

(** A scan that finds the functions [fs]. *)
Definition scanned (fs : list (PciAddress * FnDesc)) (r : list Spawned * list Z) : Prop :=
  launched <$> r.1 = (fs ≫= λ x, fn_launches x.1 x.2) ∧ r.2 = (fs ≫= λ x, fn_bus x.2).

Lemma scanned_app fs fs' l bs l' bs' :
  scanned fs (l, bs) → scanned fs' (l', bs') → scanned (fs ++ fs') (l ++ l', bs ++ bs').
Proof.
  intros [H1 H2] [H3 H4]. split; cbn [fst snd] in *; rewrite bind_app; [by rewrite fmap_app, H1, H3|by rewrite H2, H4].
Qed.

Context (Hcfg : Forall driver_ok drivers).

Lemma scan_function_returns b dev func :
  let a := mk_pci_address 0 b dev func in
  returns topo_ok (scan_function pcie drivers b dev func)
    (λ r, match fn_at a, r with
          | None, None => True
          | Some d, Some r => scanned [(a, d)] r
          | _, _ => False
          end).
Proof.
  intros a. unfold scan_function, mbind, prog_bind. fold a. eapply returns_bind; [apply topo_id|]. intros r ->.
  destruct (fn_at a) as [d|] eqn:Hfn; [|by apply returns_ret].
  pose proof (topo_present a d Hfn) as Hp.
  destruct ((di_vendor_id (fd_id d) =? 0xffff) && (di_device_id (fd_id d) =? 0xffff)) eqn:E.
  { exfalso. apply Hp. apply andb_true_iff in E as [E1 E2]. by rewrite Z.eqb_eq in E1, E2. }
  eapply returns_bind; [by apply topo_class|]. intros ? ->.
  eapply returns_bind; [by apply topo_type|]. intros ? ->.
  destruct (fd_kind d) as [|sec|] eqn:Hk; cbn [fn_type].
  - eapply returns_bind; [by apply handle_returns|]. intros l Hl. apply returns_ret. split; cbn [fst snd].
    + rewrite Hl. cbn. unfold fn_launches. rewrite Hk, app_nil_r. by destruct (fd_id d).
    + cbn. unfold fn_bus. by rewrite Hk.
  - eapply returns_bind; [by apply (topo_secondary a d sec)|]. intros ? ->. apply returns_ret.
    split; cbn; [unfold fn_launches|unfold fn_bus]; by rewrite Hk.
  - apply returns_ret. split; cbn; [unfold fn_launches|unfold fn_bus]; by rewrite Hk.
Qed.

Lemma scan_functions_after n b dev func : 0 < func →
  returns topo_ok (scan_functions pcie drivers n b dev func) (scanned (functions_from n b dev func)).
Proof.
  revert func. induction n as [|n IH]; intros func Hf; cbn [scan_functions functions_from]; [by apply returns_ret|].
  unfold mbind, prog_bind. eapply returns_bind; [apply scan_function_returns|]. intros r Hr.
  destruct (fn_at _) as [d|], r as [[l bs]|]; try done.
  - eapply returns_bind; [apply IH; lia|]. intros [l' bs'] Hr'. apply returns_ret. by apply scanned_app.
  - rewrite (proj2 (Z.eqb_neq func 0)) by lia. cbn [app]. apply IH. lia.
Qed.

Lemma scan_device_returns b dev :
  returns topo_ok (scan_functions pcie drivers 8 b dev 0) (scanned (device_functions b dev)).
Proof.
  unfold device_functions. cbn [scan_functions functions_from]. unfold mbind, prog_bind.
  eapply returns_bind; [apply scan_function_returns|]. intros r Hr.
  destruct (fn_at (mk_pci_address 0 b dev 0)) as [d|], r as [[l bs]|]; try done; [|by apply returns_ret].
  eapply returns_bind; [apply (scan_functions_after 7 b dev (0 + 1)); lia|]. intros [l' bs'] Hr'.
  apply returns_ret. by apply (scanned_app [_]).
Qed.

Lemma scan_devices_returns n b dev :
  returns topo_ok (scan_devices pcie drivers n b dev) (scanned (devices_from n b dev)).
Proof.
  revert dev. induction n as [|n IH]; intros dev; cbn [scan_devices devices_from]; [by apply returns_ret|].
  unfold mbind, prog_bind. eapply returns_bind; [apply scan_device_returns|]. intros [l bs] Hr.
  eapply returns_bind; [apply IH|]. intros [l' bs'] Hr'. apply returns_ret. by apply scanned_app.
Qed.

Lemma scan_bus_returns b :
  returns topo_ok (scan_bus pcie drivers b) (λ r, launched <$> r.1 = bus_launches b ∧ r.2 = children b).
Proof. apply (scan_devices_returns 32 b 0). Qed.

(** ** All buses *)

(** Buses are numbered: every bridge has its own bus behind it, and none is bus 0. *)
Record numbered : Prop := {
  nb_range : ∀ b c, c ∈ children b → 0 < c < 256;
  nb_nodup : ∀ b, NoDup (children b);
  nb_parent : ∀ b b' c, c ∈ children b → c ∈ children b' → b = b';
}.

Definition bus_reachable (b : Z) : Prop := rtc (λ x y, y ∈ children x) 0 b.

(** The list of buses after [i] passes. *)
Record bus_list (i : nat) (L : list Z) : Prop := {
  bl_eq : L = 0 :: (take i L ≫= children);
  bl_nodup : NoDup L;
  bl_reach : Forall bus_reachable L;
  bl_index : (i <= length L)%nat;
}.

Lemma bus_list_length i L : numbered → bus_list i L → (length L <= 256)%nat.
Proof.
  intros Hn [Heq Hnd Hre _]. rewrite <- (length_seq 256 0), <- (length_fmap Z.of_nat).
  apply submseteq_length. apply NoDup_submseteq; [done|]. intros x Hx.
  assert (0 <= x < 256) as Hr.
  { rewrite Heq in Hx. apply elem_of_cons in Hx as [->|Hx]; [lia|].
    apply list_elem_of_bind in Hx as (b & Hc & _). apply (nb_range Hn) in Hc. lia. }
  apply list_elem_of_fmap. exists (Z.to_nat x). split; [lia|]. apply elem_of_seq. lia.
Qed.

Lemma bus_list_step i L b : numbered → bus_list i L → L !! i = Some b → bus_list (S i) (L ++ children b).
Proof.
  intros Hn [Heq Hnd Hre Hi] Hb. pose proof (lookup_lt_Some _ _ _ Hb) as Hlt.
  assert (take (S i) (L ++ children b) = take i L ++ [b]) as Ht.
  { rewrite take_app_le by lia. by apply take_S_r. }
  split.
  - rewrite Ht, bind_app. cbn [mbind list_bind]. rewrite app_nil_r, app_comm_cons. by rewrite <- Heq.
  - apply NoDup_app. split; [done|]. split; [|apply (nb_nodup Hn)]. intros x Hx Hc.
    rewrite Heq in Hx. apply elem_of_cons in Hx as [->|Hx]; [apply (nb_range Hn) in Hc; lia|].
    apply list_elem_of_bind in Hx as (b' & Hc' & Hb'). assert (b' = b) as -> by (by eapply (nb_parent Hn)).
    apply list_elem_of_lookup_1 in Hb' as [j Hj]. pose proof (lookup_lt_Some _ _ _ Hj) as Hji. rewrite length_take in Hji.
    rewrite lookup_take_lt in Hj by lia. pose proof (NoDup_lookup _ _ _ _ Hnd Hj Hb). lia.
  - apply Forall_app. split; [done|]. apply Forall_forall. intros c Hc.
    rewrite Forall_forall in Hre. eapply rtc_r; [|exact Hc]. apply Hre. by eapply list_elem_of_lookup_2.
  - rewrite length_app. lia.
Qed.

Lemma scan_loop_returns fuel i L : numbered → bus_list i L → (256 < i + fuel)%nat →
  returns topo_ok (scan_loop pcie drivers fuel i L)
    (λ r, bus_list (length r.2) r.2 ∧ launched <$> r.1 = (drop i r.2 ≫= bus_launches) ∧ L `prefix_of` r.2).
Proof.
  intros Hn. revert i L. induction fuel as [|fuel IH]; intros i L Hbl Hf.
  - pose proof (bus_list_length i L Hn Hbl). destruct Hbl. lia.
  - cbn [scan_loop]. destruct (L !! i) as [b|] eqn:Hb.
    + unfold mbind, prog_bind. eapply returns_bind; [apply scan_bus_returns|]. intros [l bs] [Hl Hbs]. cbn [fst snd] in *. subst bs.
      eapply returns_bind; [apply IH; [by apply bus_list_step|lia]|]. intros [l' L'] (Hbl' & Hl' & [k Hk]). cbn [fst snd] in *.
      apply returns_ret. cbn [fst snd]. split; [done|].
      assert (L' !! i = Some b) as Hb' by (rewrite Hk, <- app_assoc; by apply lookup_app_l_Some).
      split; [|exists (children b ++ k); by rewrite Hk, <- app_assoc].
      rewrite (drop_S _ _ _ Hb'). cbn [mbind list_bind]. by rewrite fmap_app, Hl, Hl'.
    + apply lookup_ge_None in Hb. apply returns_ret. cbn [fst snd].
      assert (i = length L) as -> by (destruct Hbl; lia). split; [done|]. split; [by rewrite drop_all|done].
Qed.

(** C32. With numbered buses the enumeration ends, within 256 passes, after visiting every
    bus that can be reached from bus 0 exactly once, and has started exactly the
    drivers configured for the endpoints it found: for every function of a device that
    has a function 0, on each of those buses, every matching driver with a command, in
    order. *)
Theorem enumeration_complete (w : W) :
  numbered → topo_ok w →
  ∃ l L w', enumerate pcie drivers 257 w = (Ok (l, L), w') ∧
    NoDup L ∧ (∀ b, b ∈ L ↔ bus_reachable b) ∧ launched <$> l = (L ≫= bus_launches).
Proof.
  intros Hn Hw. destruct (scan_loop_returns 257 0 [0] Hn) with (w := w) as ([l L] & w' & E & _ & Hbl & Hl & _); [|lia|done|].
  { split; [done|apply NoDup_singleton|by repeat constructor|cbn; lia]. }
  cbn [fst snd] in *. exists l, L, w'. split; [exact E|]. destruct Hbl as [Heq Hnd Hre _].
  split; [done|]. split; [|by rewrite Hl, drop_0]. rewrite Forall_forall in Hre. intros b. split; [by apply Hre|].
  intros Hr. unfold bus_reachable in Hr. rewrite firstn_all in Heq.
  refine (rtc_ind_r (λ x, x ∈ L) 0 _ _ b Hr).
  - rewrite Heq. by left.
  - intros x y _ Hy Hx. rewrite Heq. right. apply list_elem_of_bind. by exists x.
Qed.

Lemma scan_loop_again fuel i L w :
  0 ∈ children 0 → topo_ok w → (∃ j, (i <= j)%nat ∧ L !! j = Some 0) →
  (scan_loop pcie drivers fuel i L w).1 = Err ETIMEDOUT.
Proof.
  intros H0. revert i L w. induction fuel as [|fuel IH]; intros i L w Hw (j & Hij & Hj); [done|].
  cbn [scan_loop]. pose proof (lookup_lt_Some _ _ _ Hj) as Hlt.
  destruct (lookup_lt_is_Some_2 L i) as [b Hb]; [lia|]. rewrite Hb. unfold mbind, prog_bind.
  destruct (scan_bus_returns b w Hw) as ([l bs] & w1 & E & Hw1 & Hl & Hbs). cbn [fst snd] in *. subst bs.
  rewrite (bind_Ok _ _ _ _ _ E).
  assert ((scan_loop pcie drivers fuel (S i) (L ++ children b) w1).1 = Err ETIMEDOUT) as Hr.
  { apply IH; [done|]. destruct (decide (j = i)) as [->|Hne].
    - rewrite Hj in Hb. injection Hb as <-. apply list_elem_of_lookup_1 in H0 as [k Hk].
      exists (length L + k)%nat. split; [lia|]. by rewrite lookup_app_r, Nat.add_comm, Nat.add_sub by lia.
    - exists j. split; [lia|]. by apply lookup_app_l_Some. }
  destruct (scan_loop pcie drivers fuel (S i) (L ++ children b) w1) as [r w2] eqn:E2. cbn [fst] in Hr. subst r.
  by rewrite (bind_Err _ _ _ _ _ E2).
Qed.

(** A bridge on bus 0 that the firmware did not number (its secondary bus is 0)
    keeps the enumeration going for ever: bus 0 is scanned again and again, and its
    drivers are started again each time.  No number of passes is enough. *)
Theorem unnumbered_bridge_loops (w : W) fuel :
  topo_ok w → 0 ∈ children 0 → (enumerate pcie drivers fuel w).1 = Err ETIMEDOUT.
Proof. intros Hw H0. apply scan_loop_again; [done|done|]. by exists 0%nat. Qed.

End enumeration.

(** ** A machine for the examples *)

(** Functions that never change. *)
Section table.
Context (table : PciAddress → option FnDesc).

Definition table_ids (a : PciAddress) : Z * Z :=
  match table a with Some d => (di_vendor_id (fd_id d), di_device_id (fd_id d)) | None => (0xffff, 0xffff) end.

Definition table_headers : PciHeaders unit := {|
  hdr_id a := mret (table_ids a);
  hdr_revision_and_class a :=
    mret (match table a with
          | Some d => (di_revision (fd_id d), di_class (fd_id d), di_subclass (fd_id d), di_interface (fd_id d))
          | None => (0, 0, 0, 0)
          end);
  hdr_type a := mret (match table a with Some d => fn_type (fd_kind d) | None => HtOther end);
  hdr_secondary_bus a :=
    mret (match table a with Some d => match fd_kind d with FkBridge s => s | _ => 0 end | None => 0 end);
  hdr_bar _ _ := mret None;
  hdr_update_command _ _ := mret tt;
  hdr_update_interrupt _ _ := mret (0, 0);
  hdr_has_capabilities _ := mret false;
  hdr_capabilities _ := mret [];
|}.

Lemma table_topology :
  (∀ a d, table a = Some d → di_vendor_id (fd_id d) ≠ 0xffff) → Topology unit (HH := table_headers).
Proof.
  intros Hv. refine (Build_Topology _ table_headers (λ _, True) table _ _ _ _ _ _ _ _ _ _); try (intros; by apply returns_ret).
  - intros a d Hd [E _]. by apply (Hv a d).
  - intros a d Hd. apply returns_ret. by rewrite Hd.
  - intros a d Hd. apply returns_ret. by rewrite Hd.
  - intros a d s Hd Hk. apply returns_ret. by rewrite Hd, Hk.
Defined.

End table.

Definition nic : FnDesc := mk_fn (mk_device_id 0x8086 0x100E 2 0 0 3) FkEndpoint.
Definition bridge (s : Z) : FnDesc := mk_fn (mk_device_id 0x8086 0x2448 6 4 0 1) (FkBridge s).

(** A bridge on bus 0 with bus [s] behind it, and a network card on bus 1. *)
Definition demo_table (s : Z) (a : PciAddress) : option FnDesc :=
  if decide (a = mk_pci_address 0 0 1 0) then Some (bridge s)
  else if decide (a = mk_pci_address 0 1 2 0) then Some nic else None.

Lemma demo_vendor s a d : demo_table s a = Some d → di_vendor_id (fd_id d) ≠ 0xffff.
Proof. unfold demo_table. case_decide; [by intros [= <-]|]. case_decide; [by intros [= <-]|done]. Qed.

Definition demo_drivers : list DriverConfig :=
  [mk_driver_config None (Some 2) None None (Some [("0x8086", [0x100E])]) None None None (Some ["e1000d"])].

Lemma demo_drivers_ok : Forall driver_ok demo_drivers.
Proof.
  repeat constructor; cbn; [intros ids [= <-]; repeat constructor; by eexists|]. by intros args [= <-].
Qed.

Lemma empty_bus `{HT : Topology W} b : (∀ a, bus a = b → fn_at a = None) → children b = [].
Proof.
  intros Hn. unfold children, bus_functions. generalize 32%nat, 0. intros n. induction n as [|n IH]; intros dev; [done|].
  cbn [devices_from]. unfold device_functions. rewrite Hn by done. apply IH.
Qed.

#[local] Instance demo_topology (s : Z) : Topology unit (HH := table_headers (demo_table s)) :=
  table_topology (demo_table s) (demo_vendor s).

Lemma demo_children s b :
  children (HT := demo_topology s) b = if decide (b = 0) then [s] else [].
Proof.
  destruct (decide (b = 0)) as [->|H0]; [by vm_compute|].
  destruct (decide (b = 1)) as [->|H1]; [by vm_compute|].
  apply empty_bus. intros a Ha. change (demo_table s a = None). unfold demo_table.
  rewrite !decide_False; [done| |]; intros ->; cbn in Ha; lia.
Qed.

Lemma demo_numbered : numbered (HT := demo_topology 1).
Proof.
  split; intros b.
  - intros c Hc. rewrite demo_children in Hc. case_decide; [apply list_elem_of_singleton in Hc; lia|by apply not_elem_of_nil in Hc].
  - rewrite demo_children. case_decide; [apply NoDup_singleton|constructor].
  - intros b' c Hc Hc'. rewrite demo_children in Hc, Hc'.
    do 2 case_decide; try (by apply not_elem_of_nil in Hc); try (by apply not_elem_of_nil in Hc'). congruence.
Qed.

Lemma enumeration_complete_witness :
  ∃ l L w', enumerate (HH := table_headers (demo_table 1)) pcie_fallback demo_drivers 257 tt = (Ok (l, L), w') ∧
    L = [0; 1] ∧ launched <$> l = [(mk_pci_address 0 1 2 0, "/usr/lib/drivers/e1000d", [])].
Proof.
  destruct (enumeration_complete (HT := demo_topology 1) pcie_fallback demo_drivers demo_drivers_ok tt demo_numbered I)
    as (l & L & w' & E & _ & _ & Hl).
  exists l, L, w'. split; [exact E|]. vm_compute in E. injection E as <- <- <-. by split.
Defined.

Lemma unnumbered_bridge_loops_witness :
  (enumerate (HH := table_headers (demo_table 0)) pcie_fallback demo_drivers 1000 tt).1 = Err ETIMEDOUT.
Proof.
  apply (unnumbered_bridge_loops (HT := demo_topology 0) pcie_fallback demo_drivers demo_drivers_ok tt 1000 I).
  rewrite demo_children. by left.
Defined.

(** ** Interrupt vectors *)

(** [allocate_aligned_interrupt_vectors]: the loop over the interrupts that are
    listed.  [create] opens the file of an interrupt: [Ok true] when it is reserved,
    [Ok false] when it is not there. *)
(** [s.parse::<u8>().ok()]. *)
Definition parse_u8 : string → option Z := parse_uint 256.

Section vectors.
Context {W : Type} (read_dir : Z → prog W errno (list (errno + string))) (create : Z → Z → prog W errno bool).

(** The numbers among the entries of a directory, and the errors. *)
Definition irq_numbers (entries : list (errno + string)) : list (errno + Z) :=
  omap (λ entry, match entry with inl e => Some (inl e) | inr name => inr <$> parse_u8 name end) entries.

Fixpoint vector_loop (cpu_id : Z) (available : list (errno + Z)) (alignment count index : Z) (first : option Z)
    (handles : list Z) : prog W errno (option Z * list Z) :=
  match available with
  | [] => mret (first, handles)
  | inl e :: _ => throw e
  | inr number :: available =>
      if negb (number mod alignment =? 0) then vector_loop cpu_id available alignment count index first handles
      else
        let f := default number first in
        let irq := as_u8 (f + index) in
        if count <=? index then mret (Some f, handles)
        else
          b ← create cpu_id irq;
          if b : bool then
            vector_loop cpu_id available alignment count (as_u8 (index + 1)) (Some f) (handles ++ [irq])
          else mret (Some f, handles)
  end.

Definition allocate_aligned_interrupt_vectors (cpu_id alignment count : Z) : prog W errno (option (Z * list Z)) :=
  if 255 <? cpu_id then panic
  else if count =? 0 then mret None
  else
    entries ← read_dir cpu_id;
    '(first, handles) ← vector_loop cpu_id (irq_numbers entries) alignment count 0 None [];
    match first, handles with
    | Some f, _ :: _ => mret (Some (as_u8 (f + 32), handles))
    | _, _ => mret None
    end.

Definition allocate_interrupt_vectors (cpu_id count : Z) : prog W errno (option (Z * list Z)) :=
  allocate_aligned_interrupt_vectors cpu_id 1 count.

Definition allocate_single_interrupt_vector (cpu_id : Z) : prog W errno (option (Z * Z)) :=
  r ← allocate_interrupt_vectors cpu_id 1;
  match r with
  | Some (base, [f]) => mret (Some (base, f))
  | Some _ => panic
  | None => mret None
  end.

(** The message and the interrupt of a single vector for MSI. *)
Definition allocate_single_interrupt_vector_for_msi (cpu_id : Z) : prog W errno (MsiAddrAndData * Z) :=
  if 255 <? cpu_id then panic
  else
    let addr := message_address cpu_id false false in
    r ← attempt (allocate_single_interrupt_vector cpu_id);
    match r with
    | inr (Some (vector, irq)) => mret (mk_msi_data addr (message_data_edge_triggered DmFixed vector), irq)
    | _ => panic
    end.

(** The interrupts that are reserved follow each other from an aligned one. *)
Lemma vector_loop_consecutive cpu available alignment count index first handles w r w' :
  0 <= index <= count → count < 256 → (index = 0 → first = None) →
  (∀ f, first = Some f → f mod alignment = 0) → (0 < index → is_Some first) →
  (∀ f, first = Some f → handles = (λ k, as_u8 (f + k)) <$> seqZ 0 index) → (first = None → handles = []) →
  vector_loop cpu available alignment count index first handles w = (Ok r, w') →
  match r.1 with
  | Some f => f mod alignment = 0 ∧ ∃ n, 0 <= n <= count ∧ r.2 = (λ k, as_u8 (f + k)) <$> seqZ 0 n
  | None => r.2 = []
  end.
Proof.
  revert index first handles w.
  induction available as [|[e|number] available IH]; intros index first handles w Hi Hc H0 Hal Hs Hh Hn E;
    cbn [vector_loop] in E; [|done|].
  - injection E as <- <-. destruct first as [f|]; cbn; [|by apply Hn]. split; [by apply Hal|].
    exists index. by rewrite (Hh f eq_refl).
  - destruct (Z.eqb_spec (number mod alignment) 0) as [Hm|Hm]; cbn [negb] in E; [|by eapply (IH index first handles w)].
    set (f := default number first) in *.
    assert (f mod alignment = 0) as Hf by (unfold f; destruct first as [x|]; [by apply Hal|done]).
    assert (handles = (λ k, as_u8 (f + k)) <$> seqZ 0 index) as Hhf.
    { unfold f. destruct first as [x|]; [by apply Hh|]. rewrite Hn by done.
      assert (index = 0) as -> by (destruct (decide (0 < index)) as [Hlt|]; [by destruct (Hs Hlt)|lia]). done. }
    destruct (Z.leb_spec count index) as [Hle|Hlt].
    + injection E as <- <-. cbn. split; [done|]. by exists index.
    + unfold mbind, prog_bind in E. destruct (create cpu (as_u8 (f + index)) w) as [[b|e|] w1] eqn:Ec;
        [rewrite (bind_Ok _ _ _ _ _ Ec) in E|by rewrite (bind_Err _ _ _ _ _ Ec) in E|unfold p_bind in E; by rewrite Ec in E].
      destruct b; [|injection E as <- <-; cbn; split; [done|]; by exists index].
      unfold as_u8 in E at 1. rewrite as_u_id in E by (unfold u_range; lia).
      eapply (IH (index + 1) (Some f)); [lia|done|lia| | | | |exact E].
      * by intros ? [= <-].
      * by eexists.
      * intros ? [= <-]. rewrite Hhf, seqZ_app by lia. rewrite fmap_app. do 2 f_equal.
      * done.
Qed.

(** The vector of a single interrupt is the interrupt plus 32, and its message goes to
    the processor with that vector. *)
Lemma single_vector_msi cpu entries n rest w w1 w' :
  0 <= cpu < 256 → 0 <= n < 224 → read_dir cpu w = (Ok entries, w1) → irq_numbers entries = inr n :: rest →
  create cpu n w1 = (Ok true, w') →
  (∀ x rest', rest = x :: rest' → ∃ y, x = inr y) →
  ∃ m, allocate_single_interrupt_vector_for_msi cpu w = (Ok (m, n), w') ∧
    field 0 8 (md_data m) = n + 32 ∧ field 8 3 (md_data m) = 0 ∧ field 12 8 (md_addr m) = cpu.
Proof.
  intros Hc Hn Er En Ec Hr. unfold allocate_single_interrupt_vector_for_msi.
  assert ((255 <? cpu) = false) as H255 by (apply Z.ltb_ge; lia). rewrite H255.
  assert (vector_loop cpu (inr n :: rest) 1 1 0 None [] w1 = (Ok (Some n, [n]), w')) as Hl.
  { cbn [vector_loop default]. rewrite Z.mod_1_r. cbn [Z.eqb negb]. rewrite Z.add_0_r. change (as_u8 (0 + 1)) with 1. unfold as_u8.
    rewrite as_u_id by (unfold u_range; lia). change (1 <=? 0) with false. cbv iota. unfold mbind, prog_bind.
    rewrite (bind_Ok _ _ _ _ _ Ec). destruct rest as [|x rest]; cbn [vector_loop app]; [done|].
    destruct (Hr x rest eq_refl) as [y ->]. rewrite Z.mod_1_r. done. }
  assert (allocate_single_interrupt_vector cpu w = (Ok (Some (n + 32, n)), w')) as Ha.
  { unfold allocate_single_interrupt_vector, allocate_interrupt_vectors, allocate_aligned_interrupt_vectors.
    rewrite H255. cbn [Z.eqb]. unfold mbind, prog_bind, p_bind. rewrite Er, En, Hl. cbn beta iota.
    unfold mret, prog_ret, p_ret, as_u8. cbn beta iota. rewrite as_u_id by (unfold u_range; lia). done. }
  unfold mbind, prog_bind, p_bind, attempt. rewrite Ha. eexists. split; [reflexivity|]. cbn [md_data md_addr].
  destruct (message_fields TmEdge LtDeassert DmFixed (n + 32) cpu false false) as (F1 & F2 & _ & _ & _ & F6 & _);
    [unfold u_range; lia|exact Hc|]. split_and!; [exact F1|exact F2|exact F6].
Qed.

End vectors.

(** Eight free interrupts from an aligned one on, and room for eight: only the first
    is reserved, since each interrupt after it is skipped for its alignment. *)
Lemma aligned_range_not_allocated :
  allocate_aligned_interrupt_vectors (λ _, mret (inr <$> ["8"; "9"; "10"; "11"; "12"; "13"; "14"; "15"]))
    (λ _ _, mret true) 0 8 8 tt = (Ok (Some (40, [8])), tt).
Proof. done. Qed.
