(* ===== verification/Ahci.v ===== *)
(** An AHCI port (storage/ahcid/src/ahci/hba.rs and fis.rs).

    The registers of a port are an instance of the trait [Io] whose state holds, beside
    the controller, the memory the driver shares with it: the command list, the command
    tables and two buffers.  A controller acts when a register is accessed, so that it
    may finish a command, and write to that memory, between any two accesses.

    Of a command table the driver uses the command FIS, the ATAPI command and the first
    region descriptor; the other descriptors stay zero.  The loops that wait for a
    register take a bound on the number of reads, and end with [ETIMEDOUT] beyond it. *)

From S2P Require Import Prelude Io.

(** ** Constants *)

Definition ATA_CMD_READ_DMA_EXT : Z := 0x25.
Definition ATA_CMD_WRITE_DMA_EXT : Z := 0x35.
Definition ATA_CMD_IDENTIFY : Z := 0xEC.
Definition ATA_CMD_IDENTIFY_PACKET : Z := 0xA1.
Definition ATA_CMD_PACKET : Z := 0xA0.
Definition ATA_DEV_BUSY : Z := 0x80.
Definition ATA_DEV_DRQ : Z := 0x08.
Definition HBA_PORT_CMD_CR : Z := Z.shiftl 1 15.
Definition HBA_PORT_CMD_FR : Z := Z.shiftl 1 14.
Definition HBA_PORT_CMD_FRE : Z := Z.shiftl 1 4.
Definition HBA_PORT_CMD_ST : Z := 1.
Definition HBA_PORT_IS_ERR : Z :=
  Z.lor (Z.lor (Z.lor (Z.shiftl 1 30) (Z.shiftl 1 29)) (Z.shiftl 1 28)) (Z.shiftl 1 27).
Definition HBA_SSTS_PRESENT : Z := 0x3.
Definition HBA_SIG_ATA : Z := 0x00000101.
Definition HBA_SIG_ATAPI : Z := 0xEB140101.
Definition HBA_SIG_PM : Z := 0x96690101.
Definition HBA_SIG_SEMB : Z := 0xC33C0101.

(** [u32::MAX]. *)
Definition U32_MAX : Z := 2 ^ 32 - 1.

(** ** Structures shared with the controller *)

Inductive HbaPortType : Type := HpNone | HpUnknown (sig : Z) | HpSATA | HpSATAPI | HpPM | HpSEMB.

Inductive FisType : Type :=
| FtRegH2D | FtRegD2H | FtDmaAct | FtDmaSetup | FtData | FtBist | FtPioSetup | FtDevBits.

Definition fis_type_code (t : FisType) : Z :=
  match t with
  | FtRegH2D => 0x27 | FtRegD2H => 0x34 | FtDmaAct => 0x39 | FtDmaSetup => 0x41
  | FtData => 0x46 | FtBist => 0x58 | FtPioSetup => 0x5F | FtDevBits => 0xA1
  end.

Record FisRegH2D := mk_fis {
  fr_fis_type : Z; fr_pm : Z; fr_command : Z; fr_featurel : Z;
  fr_lba0 : Z; fr_lba1 : Z; fr_lba2 : Z; fr_device : Z;
  fr_lba3 : Z; fr_lba4 : Z; fr_lba5 : Z; fr_featureh : Z;
  fr_countl : Z; fr_counth : Z; fr_icc : Z; fr_control : Z;
}.

(** [size_of::<FisRegH2D>()], with the four reserved bytes at its end. *)
Definition FIS_SIZE : Z := 20.

Record HbaPrdtEntry := mk_prdt { pd_dba_low : Z; pd_dba_high : Z; pd_dbc : Z }.

Record HbaCmdTable := mk_cmd_table { ct_cfis : FisRegH2D; ct_acmd : list Z; ct_prdt0 : HbaPrdtEntry }.

Record HbaCmdHeader := mk_cmd_header { ch_cfl : Z; ch_prdtl : Z; ch_ctba_low : Z; ch_ctba_high : Z }.

Definition zero_fis : FisRegH2D := mk_fis 0 0 0 0 0 0 0 0 0 0 0 0 0 0 0 0.
Definition zero_table : HbaCmdTable := mk_cmd_table zero_fis (replicate 16 0) (mk_prdt 0 0 0).
Definition zero_header : HbaCmdHeader := mk_cmd_header 0 0 0 0.

(** Where the memory of a port is, for the controller. *)
Record AhciPhys := mk_ahci_phys {
  ph_clb : Z; ph_ctba : nat → Z; ph_fb : Z; ph_buf : Z; ph_dest : Z;
}.

(** [am_buf] is the transfer buffer of a disk, [am_dest] the 256 words of [identify]. *)
Record AhciMem := mk_ahci_mem {
  am_clb : list HbaCmdHeader; am_ctbas : list HbaCmdTable; am_buf : list Z; am_dest : list Z;
}.

Definition set_clb (x : list HbaCmdHeader) (m : AhciMem) : AhciMem := mk_ahci_mem x (am_ctbas m) (am_buf m) (am_dest m).
Definition set_ctbas (x : list HbaCmdTable) (m : AhciMem) : AhciMem := mk_ahci_mem (am_clb m) x (am_buf m) (am_dest m).
Definition set_buf (x : list Z) (m : AhciMem) : AhciMem := mk_ahci_mem (am_clb m) (am_ctbas m) x (am_dest m).
Definition set_dest (x : list Z) (m : AhciMem) : AhciMem := mk_ahci_mem (am_clb m) (am_ctbas m) (am_buf m) x.

(** The registers of [HbaPort] the driver uses; [PClb] and [PFb] have two halves. *)
Inductive PReg : Type :=
| PClb (high : bool) | PFb (high : bool) | PIs | PIe | PCmd | PTfd | PSig | PSsts | PSctl | PSerr
| PSact | PCi | PSntf | PFbs.

(** The two halves of a physical address. *)
Definition low32 (p : Z) : Z := as_u32 p.
Definition high32 (p : Z) : Z := as_u32 (Z.shiftr (as_u64 p) 32).

(** ** Operations *)

Section hba.
Context {W : Type} `{HIo : Io (AhciMem * W) PReg} (ph : AhciPhys).

Abbreviation S := (AhciMem * W)%type.
Abbreviation ap := (prog S errno).

Definition preg_read (r : PReg) : ap Z := λ s, let '(v, s) := io_read r s in (Ok v, s).
Definition preg_write (r : PReg) (v : Z) : ap unit := modify (io_write r v).
Definition preg_readf (r : PReg) (flags : Z) : ap bool := λ s, let '(b, s) := readf r flags s in (Ok b, s).
Definition preg_writef (r : PReg) (flags : Z) (value : bool) : ap unit := modify (writef r flags value).

Definition on_mem (f : AhciMem → AhciMem) : ap unit := modify (λ '(m, w), (f m, w)).

Definition probe : ap HbaPortType :=
  b ← preg_readf PSsts HBA_SSTS_PRESENT;
  if b : bool then
    sig ← preg_read PSig;
    mret (if sig =? HBA_SIG_ATA then HpSATA
          else if sig =? HBA_SIG_ATAPI then HpSATAPI
          else if sig =? HBA_SIG_PM then HpPM
          else if sig =? HBA_SIG_SEMB then HpSEMB
          else HpUnknown sig)
  else mret HpNone.

(** [while r.readf(flags) { spin_loop() }]. *)
Fixpoint spin_while (fuel : nat) (r : PReg) (flags : Z) : ap unit :=
  match fuel with
  | O => throw ETIMEDOUT
  | Datatypes.S fuel => b ← preg_readf r flags; if b : bool then spin_while fuel r flags else mret tt
  end.

Context (fuel : nat).

Definition port_start : ap unit :=
  _ ← spin_while fuel PCmd HBA_PORT_CMD_CR;
  preg_writef PCmd (Z.lor HBA_PORT_CMD_FRE HBA_PORT_CMD_ST) true.

Definition port_stop : ap unit :=
  _ ← preg_writef PCmd HBA_PORT_CMD_ST false;
  _ ← spin_while fuel PCmd (Z.lor HBA_PORT_CMD_FR HBA_PORT_CMD_CR);
  preg_writef PCmd HBA_PORT_CMD_FRE false.

(** The first clear bit among [n] from bit [i] on. *)
Fixpoint first_clear (n : nat) (i slots : Z) : option Z :=
  match n with
  | O => None
  | Datatypes.S n => if Z.land slots (Z.shiftl 1 i) =? 0 then Some i else first_clear n (i + 1) slots
  end.

Definition port_slot : ap (option Z) :=
  a ← preg_read PSact;
  c ← preg_read PCi;
  mret (first_clear 32 0 (Z.lor a c)).

Definition point_header (i : nat) (h : HbaCmdHeader) : HbaCmdHeader :=
  mk_cmd_header (ch_cfl h) 0 (low32 (ph_ctba ph i)) (high32 (ph_ctba ph i)).

Definition port_init : ap unit :=
  _ ← port_stop;
  _ ← on_mem (λ m, set_clb (imap point_header (am_clb m)) m);
  _ ← preg_write (PClb false) (low32 (ph_clb ph));
  _ ← preg_write (PClb true) (high32 (ph_clb ph));
  _ ← preg_write (PFb false) (low32 (ph_fb ph));
  _ ← preg_write (PFb true) (high32 (ph_fb ph));
  st ← preg_read PIs;
  _ ← preg_write PIs st;
  _ ← preg_write PIe 23;
  serr ← preg_read PSerr;
  _ ← preg_write PSerr serr;
  sctl ← preg_read PSctl;
  _ ← preg_write PSctl (Z.lor sctl (Z.shiftl 7 8));
  _ ← preg_writef PCmd (Z.lor (Z.shiftl 1 2) (Z.shiftl 1 1)) true;
  _ ← preg_read PCmd;
  mret tt.

(** What [ata_start] does to the header and the table of a slot before the command's
    own part [f]: the table is zeroed. *)
Definition prepare (f : HbaCmdHeader → HbaCmdTable → HbaCmdHeader * HbaCmdTable) (h : HbaCmdHeader) :
    HbaCmdHeader * HbaCmdTable :=
  let h := mk_cmd_header (as_u8 (FIS_SIZE / 4)) (ch_prdtl h) (ch_ctba_low h) (ch_ctba_high h) in
  let fis := mk_fis (fis_type_code FtRegH2D) 0 0 0 0 0 0 0 0 0 0 0 0 0 0 0 in
  f h (mk_cmd_table fis (replicate 16 0) (mk_prdt 0 0 0)).

(** The header and the table of a slot of the lists. *)
Definition fill_slot (f : HbaCmdHeader → HbaCmdTable → HbaCmdHeader * HbaCmdTable) (slot : nat) : ap unit := λ s,
  match am_clb s.1 !! slot, am_ctbas s.1 !! slot with
  | Some h, Some _ =>
      let '(h, t) := prepare f h in
      (Ok tt, (set_ctbas (<[slot := t]> (am_ctbas s.1)) (set_clb (<[slot := h]> (am_clb s.1)) s.1), s.2))
  | _, _ => (Panic, s)
  end.

Definition ata_start (f : HbaCmdHeader → HbaCmdTable → HbaCmdHeader * HbaCmdTable) : ap (option Z) :=
  _ ← preg_write PIs U32_MAX;
  slot ← port_slot;
  match slot with
  | Some slot =>
      _ ← fill_slot f (Z.to_nat slot);
      _ ← spin_while fuel PTfd (Z.lor ATA_DEV_BUSY ATA_DEV_DRQ);
      _ ← preg_writef PCi (Z.shiftl 1 slot) true;
      _ ← port_start;
      mret (Some slot)
  | None => mret None
  end.

Definition ata_running (slot : Z) : ap bool :=
  c ← preg_readf PCi (Z.shiftl 1 slot);
  b ← (if c : bool then mret true else preg_readf PTfd 0x80);
  if b : bool then st ← preg_read PIs; mret (Z.land st HBA_PORT_IS_ERR =? 0) else mret false.

Fixpoint wait_running (fuel : nat) (slot : Z) : ap unit :=
  match fuel with
  | O => throw ETIMEDOUT
  | Datatypes.S fuel => b ← ata_running slot; if b : bool then wait_running fuel slot else mret tt
  end.

(** The registers that are logged after an error, in the order they are read. *)
Definition ERROR_REGS : list PReg := [PIs; PIe; PCmd; PTfd; PSsts; PSctl; PSerr; PSact; PCi; PSntf; PFbs].

Fixpoint read_error_regs (l : list PReg) : ap unit :=
  match l with [] => mret tt | r :: l => _ ← preg_read r; read_error_regs l end.

Definition ata_stop (slot : Z) : ap unit :=
  _ ← wait_running fuel slot;
  _ ← port_stop;
  st ← preg_read PIs;
  if negb (Z.land st HBA_PORT_IS_ERR =? 0) then
    _ ← read_error_regs ERROR_REGS;
    _ ← preg_write PIs U32_MAX;
    throw EIO
  else mret tt.

(** ** Commands *)

Definition prdt_to (p dbc : Z) : HbaPrdtEntry := mk_prdt (low32 p) (high32 p) dbc.

Definition identify_fill (cmd : Z) (h : HbaCmdHeader) (t : HbaCmdTable) : HbaCmdHeader * HbaCmdTable :=
  let f := ct_cfis t in
  (mk_cmd_header (ch_cfl h) 1 (ch_ctba_low h) (ch_ctba_high h),
   mk_cmd_table
     (mk_fis (fr_fis_type f) (Z.shiftl 1 7) cmd (fr_featurel f) (fr_lba0 f) (fr_lba1 f) (fr_lba2 f) 0
        (fr_lba3 f) (fr_lba4 f) (fr_lba5 f) (fr_featureh f) 1 0 (fr_icc f) (fr_control f))
     (ct_acmd t) (prdt_to (ph_dest ph) (Z.lor 512 1))).

Definition dma_fill (block sectors : Z) (write : bool) (h : HbaCmdHeader) (t : HbaCmdTable) :
    HbaCmdHeader * HbaCmdTable :=
  let f := ct_cfis t in
  let cfl := if write then Z.lor (Z.lor (ch_cfl h) (Z.shiftl 1 7)) (Z.shiftl 1 6) else ch_cfl h in
  (mk_cmd_header cfl 1 (ch_ctba_low h) (ch_ctba_high h),
   mk_cmd_table
     (mk_fis (fr_fis_type f) (Z.shiftl 1 7) (if write then ATA_CMD_WRITE_DMA_EXT else ATA_CMD_READ_DMA_EXT)
        (fr_featurel f) (as_u8 block) (as_u8 (Z.shiftr block 8)) (as_u8 (Z.shiftr block 16)) (Z.shiftl 1 6)
        (as_u8 (Z.shiftr block 24)) (as_u8 (Z.shiftr block 32)) (as_u8 (Z.shiftr block 40)) (fr_featureh f)
        (as_u8 sectors) (as_u8 (Z.shiftr sectors 8)) (fr_icc f) (fr_control f))
     (ct_acmd t) (prdt_to (ph_buf ph) (Z.lor (as_u32 (sectors * 512)) 1))).

Definition atapi_fill (cmd : list Z) (size : Z) (h : HbaCmdHeader) (t : HbaCmdTable) : HbaCmdHeader * HbaCmdTable :=
  let f := ct_cfis t in
  (mk_cmd_header (Z.lor (ch_cfl h) (Z.shiftl 1 5)) 1 (ch_ctba_low h) (ch_ctba_high h),
   mk_cmd_table
     (mk_fis (fr_fis_type f) (Z.shiftl 1 7) ATA_CMD_PACKET 1 (fr_lba0 f) 0 0 0
        (fr_lba3 f) (fr_lba4 f) (fr_lba5 f) 0 (fr_countl f) (fr_counth f) (fr_icc f) (fr_control f))
     cmd (prdt_to (ph_buf ph) (as_u32 (size - 1)))).

(** The number of bytes from the words of [identify]. *)
Definition identify_size (d : list Z) : Z :=
  let w k := default 0 (d !! k) in
  let sectors := Z.lor (Z.lor (Z.lor (w 100%nat) (Z.shiftl (w 101%nat) 16)) (Z.shiftl (w 102%nat) 32))
                   (Z.shiftl (w 103%nat) 48) in
  let sectors := if sectors =? 0 then Z.lor (w 60%nat) (Z.shiftl (w 61%nat) 16) else sectors in
  as_u64 (sectors * 512).

Definition identify_inner (cmd : Z) : ap (option Z) :=
  _ ← on_mem (set_dest (replicate 256 0));
  slot ← ata_start (identify_fill cmd);
  match slot with
  | None => mret None
  | Some slot =>
      r ← attempt (ata_stop slot);
      match r with
      | inr _ => d ← gets (λ s, am_dest s.1); mret (Some (identify_size d))
      | inl ETIMEDOUT => throw ETIMEDOUT
      | inl _ => mret None
      end
  end.

Definition identify : ap (option Z) := identify_inner ATA_CMD_IDENTIFY.
Definition identify_packet : ap (option Z) := identify_inner ATA_CMD_IDENTIFY_PACKET.

Definition ata_dma (block sectors : Z) (write : bool) : ap (option Z) :=
  if (0 <? sectors) && (sectors <? 256) then ata_start (dma_fill block sectors write) else panic.

Definition atapi_dma (cmd : list Z) (size : Z) : ap unit :=
  slot ← ata_start (atapi_fill cmd size);
  slot ← ok_or slot EIO;
  ata_stop slot.

End hba.

(** ** The controller

    What a driver may rely on, after the AHCI specification.  A command goes through
    the phases below; the transfer happens while registers are read, within
    [al_bound] reads. *)

Inductive PortPhase : Type := PhIdle | PhIssued (slot : Z) | PhBusy (slot : Z) (n : nat) | PhDone (slot : Z) (ok : bool).

Definition at_rest (p : PortPhase) : Prop := match p with PhIdle | PhDone _ _ => True | _ => False end.
Definition not_busy (p : PortPhase) : Prop := match p with PhBusy _ _ => False | _ => True end.

(** A command as the controller reads it from memory. *)
Inductive HbaCmd : Type := HcRead (lba n : Z) | HcWrite (lba n : Z) | HcIdentify | HcOther.

Definition fis_lba (f : FisRegH2D) : Z := le_val [fr_lba0 f; fr_lba1 f; fr_lba2 f; fr_lba3 f; fr_lba4 f; fr_lba5 f].
Definition fis_count (f : FisRegH2D) : Z := le_val [fr_countl f; fr_counth f].
Definition join32 (low high : Z) : Z := low + 2 ^ 32 * high.

(** A register FIS with the command bit, of five dwords, with one region. *)
Definition hba_command (ph : AhciPhys) (clb : Z * Z) (m : AhciMem) (slot : nat) : HbaCmd :=
  match am_clb m !! slot, am_ctbas m !! slot with
  | Some h, Some t =>
      let f := ct_cfis t in
      let addr := join32 (pd_dba_low (ct_prdt0 t)) (pd_dba_high (ct_prdt0 t)) in
      let room := Z.land (pd_dbc (ct_prdt0 t)) 0x3FFFFF + 1 in
      let write := Z.testbit (ch_cfl h) 6 in
      if (join32 clb.1 clb.2 =? ph_clb ph) && (join32 (ch_ctba_low h) (ch_ctba_high h) =? ph_ctba ph slot)
         && (Z.land (ch_cfl h) 0x1F =? 5) && (ch_prdtl h =? 1) && (fr_fis_type f =? 0x27) && Z.testbit (fr_pm f) 7
      then
        if (fr_command f =? 0xEC) && negb write && (addr =? ph_dest ph) && (512 <=? room) then HcIdentify
        else if Z.testbit (fr_device f) 6 && (addr =? ph_buf ph) && (0 <? fis_count f) && (fis_count f * 512 <=? room) then
          if (fr_command f =? 0x25) && negb write then HcRead (fis_lba f) (fis_count f)
          else if (fr_command f =? 0x35) && write then HcWrite (fis_lba f) (fis_count f)
          else HcOther
        else HcOther
      else HcOther
  | _, _ => HcOther
  end.

(** The words a drive of these bytes answers to IDENTIFY DEVICE. *)
Definition ident_ok (words d : list Z) : Prop :=
  length words = 256%nat ∧ Forall (u_range 16) words ∧ 0 < Z.of_nat (length d) ∧
  512 * (default 0 (words !! 100%nat) + 2 ^ 16 * default 0 (words !! 101%nat)
         + 2 ^ 32 * default 0 (words !! 102%nat) + 2 ^ 48 * default 0 (words !! 103%nat)) = Z.of_nat (length d).

(** What a command that succeeds, or fails, does to memory and to the bytes of the drive. *)
Definition executed (c : HbaCmd) (m : AhciMem) (d : list Z) (m' : AhciMem) (d' : list Z) : Prop :=
  match c with
  | HcRead lba n =>
      (lba + n) * 512 <= Z.of_nat (length d) →
      m' = set_buf (splice 0 (slice (Z.to_nat (lba * 512)) (Z.to_nat (n * 512)) d) (am_buf m)) m ∧ d' = d
  | HcWrite lba n =>
      (lba + n) * 512 <= Z.of_nat (length d) →
      m' = m ∧ d' = splice (Z.to_nat (lba * 512)) (take (Z.to_nat (n * 512)) (am_buf m)) d
  | HcIdentify => d' = d ∧ ∃ words, m' = set_dest words m ∧ ident_ok words d
  | HcOther => True
  end.

Definition failed (c : HbaCmd) (m : AhciMem) (d : list Z) (m' : AhciMem) (d' : list Z) : Prop :=
  match c with
  | HcRead lba n => d' = d ∧ ∃ b, m' = set_buf b m ∧ length b = length (am_buf m)
  | HcWrite lba n =>
      (lba + n) * 512 <= Z.of_nat (length d) →
      m' = m ∧ ∃ x, length x = Z.to_nat (n * 512) ∧ d' = splice (Z.to_nat (lba * 512)) x d
  | HcIdentify => d' = d ∧ ∃ words, m' = set_dest words m
  | HcOther => True
  end.

Definition finished (c : HbaCmd) (ok : bool) : AhciMem → list Z → AhciMem → list Z → Prop :=
  if ok then executed c else failed c.

(** A read of a register: the view before and after. *)
Inductive hba_read_step (ph : AhciPhys) (clb : Z * Z) :
    PortPhase * AhciMem * list Z → PortPhase * AhciMem * list Z → Prop :=
| rs_quiet p m d : not_busy p → hba_read_step ph clb (p, m, d) (p, m, d)
| rs_work slot n n' m d : (n' < n)%nat → hba_read_step ph clb (PhBusy slot n, m, d) (PhBusy slot n', m, d)
| rs_end slot n ok m d m' d' :
    finished (hba_command ph clb m (Z.to_nat slot)) ok m d m' d' →
    hba_read_step ph clb (PhBusy slot n, m, d) (PhDone slot ok, m', d').

(** The value read, by the phase afterwards: the bit of [PxCI] is set until a command
    has been executed, an error shows in [PxIS]. *)
Definition reg_value (r : PReg) (v : Z) (p : PortPhase) : Prop :=
  match r, p with
  | PCi, PhIdle | PSact, PhIdle => v = 0
  | PCi, PhBusy slot _ => 0 <= slot → Z.testbit v slot = true
  | PCi, PhDone slot true => Z.testbit v slot = false
  | PTfd, PhIdle | PTfd, PhDone _ true => Z.testbit v 7 = false
  | PIs, PhBusy _ _ | PIs, PhDone _ true => Z.land v HBA_PORT_IS_ERR = 0
  | PIs, PhDone _ false => Z.land v HBA_PORT_IS_ERR ≠ 0
  | _, _ => True
  end.

(** A write of a register, with [PxCMD.ST] before it.  Commands are issued while it is set. *)
Definition hba_write_step (r : PReg) (v : Z) (st : bool) (p p' : PortPhase) : Prop :=
  match r with
  | PIs => at_rest p → p' = PhIdle
  | PCi => st = true → p = PhIdle → ∀ slot, 0 <= slot < 32 → v = 2 ^ slot → ∃ n, p' = PhBusy slot n
  | PCmd => at_rest p → Z.testbit v 0 = false → p' = p
  | _ => p = PhIdle → p' = PhIdle
  end.

Class AhciLaws (W : Type) `{HIo : Io (AhciMem * W) PReg} (ph : AhciPhys) := {
  al_phase : W → PortPhase;
  (** the bytes of the drive *)
  al_disk : W → list Z;
  (** the command list base *)
  al_clb : W → Z * Z;
  (** PxCMD.ST *)
  al_st : W → bool;
  (** reads of PxCMD before PxCMD.CR clears *)
  al_cr : W → nat;
  al_bound : nat;
  al_width : io_width = 32;
  al_cr_bound w : (al_cr w < al_bound)%nat;
  al_busy_bound w slot n : al_phase w = PhBusy slot n → (n < al_bound)%nat;
  al_read r m w v m' w' : io_read r (m, w) = (v, (m', w')) →
    al_clb w' = al_clb w ∧ al_st w' = al_st w ∧ (al_cr w' <= al_cr w)%nat ∧
    hba_read_step ph (al_clb w) (al_phase w, m, al_disk w) (al_phase w', m', al_disk w') ∧
    reg_value r v (al_phase w') ∧
    (r = PCmd → Z.testbit v 0 = al_st w ∧ (not_busy (al_phase w) → Z.testbit v 15 = true → (al_cr w' < al_cr w)%nat));
  al_write r v m w m' w' : io_write r v (m, w) = (m', w') →
    m' = m ∧ al_disk w' = al_disk w ∧
    al_clb w' = (match r with PClb false => (v, (al_clb w).2) | PClb true => ((al_clb w).1, v) | _ => al_clb w end) ∧
    al_st w' = (match r with PCmd => Z.testbit v 0 | _ => al_st w end) ∧
    hba_write_step r v (al_st w) (al_phase w) (al_phase w');
}.

(** What the driver needs beyond the specification.  It issues every command while the port is
    stopped and starts the port afterwards; the specification says that software shall not do
    that, and not what happens then.  A controller with deferred issue keeps the command
    and executes it once [PxCMD.ST] is set. *)
Definition deferred_step (r : PReg) (v : Z) (st : bool) (p p' : PortPhase) : Prop :=
  match r with
  | PCi => st = false → p = PhIdle → ∀ slot, 0 <= slot < 32 → v = 2 ^ slot → p' = PhIssued slot
  | PCmd => ∀ slot, p = PhIssued slot → Z.testbit v 0 = true → ∃ n, p' = PhBusy slot n
  | _ => True
  end.

Class AhciDeferred (W : Type) `{HL : AhciLaws W ph} := {
  ad_write r v m w m' w' : io_write r v (m, w) = (m', w') → deferred_step r v (al_st w) (al_phase w) (al_phase w');
}.

(** ** Port operations *)


Lemma testbit_readf v k flags : 0 <= k → Z.testbit flags k = true → Z.land v flags = flags → Z.testbit v k = true.
Proof.
  intros Hk Hf E. apply (f_equal (λ x, Z.testbit x k)) in E. cbn in E. rewrite Z.land_spec, Hf, andb_true_r in E. done.
Qed.

Lemma read_step_quiet ph clb p m d p' m' d' :
  hba_read_step ph clb (p, m, d) (p', m', d') → not_busy p → p' = p ∧ m' = m ∧ d' = d.
Proof. inversion 1; subst; [done|by intros []..]. Qed.

Lemma read_step_busy ph clb slot n m d p' m' d' :
  hba_read_step ph clb (PhBusy slot n, m, d) (p', m', d') →
  (∃ n', (n' < n)%nat ∧ p' = PhBusy slot n' ∧ m' = m ∧ d' = d) ∨
  (∃ ok, p' = PhDone slot ok ∧ finished (hba_command ph clb m (Z.to_nat slot)) ok m d m' d').
Proof. inversion 1 as [? ? ? Hq| |]; subst; [by destruct Hq|left; by eexists|right; by eexists]. Qed.

Section laws.
Context {W : Type} `{HL : AhciLaws W ph} `{HDef : !AhciDeferred W}.
Abbreviation S := (AhciMem * W)%type.

(** What the driver knows of a port. *)
Record Port (p : PortPhase) (m : AhciMem) (d : list Z) (clb : Z * Z) (st : bool) (s : S) : Prop := {
  po_mem : s.1 = m;
  po_phase : al_phase s.2 = p;
  po_disk : al_disk s.2 = d;
  po_clb : al_clb s.2 = clb;
  po_st : al_st s.2 = st;
}.

(** [PxCMD.CR] of the state does not take longer than that of another. *)
Abbreviation cr_le s' s := (al_cr (ph := ph) s'.2 <= al_cr (ph := ph) s.2)%nat.

Lemma preg_read_quiet r p m d clb st s :
  Port p m d clb st s → not_busy p →
  wp (preg_read r) (ok_then (λ v s', Port p m d clb st s' ∧ reg_value r v p ∧ cr_le s' s ∧
    (r = PCmd → Z.testbit v 0 = st ∧ (Z.testbit v 15 = true → (al_cr (ph := ph) s'.2 < al_cr (ph := ph) s.2)%nat)))) s.
Proof.
  intros [<- Hp <- <- <-] Hn. destruct s as [m0 w]. cbn [fst snd] in *. unfold wp, preg_read.
  destruct (io_read r (m0, w)) as [v [m' w']] eqn:E. cbn.
  destruct (al_read _ _ _ _ _ _ E) as (E1 & E2 & E3 & E4 & E5 & E6). rewrite Hp in E4, E6.
  destruct (read_step_quiet _ _ _ _ _ _ _ _ E4 Hn) as (Q1 & -> & Q3).
  split_and!; [constructor; cbn; congruence|by rewrite <- Q1|done|]. intros ->. destruct (E6 eq_refl) as [E7 E8]. split; [done|by apply E8].
Qed.

Lemma preg_readf_quiet r flags p m d clb st s :
  Port p m d clb st s → not_busy p →
  wp (preg_readf r flags) (ok_then (λ b s', Port p m d clb st s' ∧ cr_le s' s ∧ ∃ v, b = (Z.land v flags =? flags) ∧
    reg_value r v p ∧ (r = PCmd → Z.testbit v 15 = true → (al_cr (ph := ph) s'.2 < al_cr (ph := ph) s.2)%nat))) s.
Proof.
  intros HP Hn. pose proof (preg_read_quiet r p m d clb st s HP Hn) as H. unfold wp, preg_read, preg_readf, readf in *.
  destruct (io_read r s) as [v s']. cbn in *. destruct H as (H1 & H2 & H3 & H4). split_and!; [done..|].
  exists v. split_and!; [done..|]. intros Hr. apply (proj2 (H4 Hr)).
Qed.

Lemma preg_write_port r v p m d clb st s :
  Port p m d clb st s →
  wp (preg_write r v) (ok_then (λ _ s', ∃ p', hba_write_step r v st p p' ∧ deferred_step r v st p p' ∧
    Port p' m d (match r with PClb false => (v, clb.2) | PClb true => (clb.1, v) | _ => clb end)
      (match r with PCmd => Z.testbit v 0 | _ => st end) s')) s.
Proof.
  intros [<- <- <- <- <-]. destruct s as [m0 w]. unfold wp, preg_write, modify. cbn.
  destruct (io_write r v (m0, w)) as [m' w'] eqn:E. destruct (al_write _ _ _ _ _ _ E) as (-> & E2 & E3 & E4 & E5).
  eexists. split; [exact E5|]. split; [exact (ad_write _ _ _ _ _ _ E)|]. constructor; cbn; done.
Qed.

(** A change of some bits of a register at rest. *)
Lemma preg_writef_port r flags value p m d clb st s :
  Port p m d clb st s → not_busy p →
  wp (preg_writef r flags value) (ok_then (λ _ s', ∃ v p', reg_value r v p ∧ (r = PCmd → Z.testbit v 0 = st) ∧
    let v' := if value then Z.lor v flags else Z.land v (unot 32 flags) in
    hba_write_step r v' st p p' ∧ deferred_step r v' st p p' ∧
    Port p' m d (match r with PClb false => (v', clb.2) | PClb true => (clb.1, v') | _ => clb end)
      (match r with PCmd => Z.testbit v' 0 | _ => st end) s')) s.
Proof.
  intros HP Hn. pose proof (preg_read_quiet r p m d clb st s HP Hn) as H. unfold wp, preg_read in H.
  unfold wp, preg_writef, writef, modify. destruct (io_read r s) as [v s1]. cbn in H |- *.
  destruct H as (H1 & H2 & _ & H4). rewrite al_width.
  set (v' := if value then _ else _). destruct (preg_write_port r v' _ _ _ _ _ _ H1) as (p' & Hs & Hd & HP').
  exists v, p'. split_and!; [done| |done|done|by destruct value]. intros Hr. apply (proj1 (H4 Hr)).
Qed.

Lemma spin_cmd fuel flags p m d clb st s :
  Port p m d clb st s → not_busy p → Z.testbit flags 15 = true → (al_cr (ph := ph) s.2 < fuel)%nat →
  wp (spin_while fuel PCmd flags) (ok_then (λ _ s', Port p m d clb st s')) s.
Proof.
  intros HP Hn Hf. revert s HP. induction fuel as [|fuel IH]; intros s HP Hc; [lia|]. cbn [spin_while].
  eapply wp_seq; [by apply preg_readf_quiet|]. intros b s' (HP' & Hle & v & -> & _ & H15).
  destruct (Z.eqb_spec (Z.land v flags) flags) as [E|_]; [|exact HP'].
  apply IH; [done|]. specialize (H15 eq_refl (testbit_readf _ 15 _ ltac:(lia) Hf E)). lia.
Qed.

Lemma unot_bit w flags k : 0 <= k < w → Z.testbit (unot w flags) k = negb (Z.testbit flags k).
Proof. intros Hk. unfold unot. by rewrite Z.lxor_spec, Z.ones_spec_low, xorb_true_r by lia. Qed.

Lemma port_stop_spec fuel p m d clb st s :
  Port p m d clb st s → at_rest p → (al_bound <= fuel)%nat →
  wp (port_stop fuel) (ok_then (λ _ s', Port p m d clb false s')) s.
Proof.
  intros HP Hr Hf. assert (not_busy p) as Hn by (by destruct p). unfold port_stop.
  eapply wp_seq; [by apply preg_writef_port|]. intros _ s1 (v1 & p1 & _ & _ & Hw1 & _ & HP1). cbv zeta in *.
  assert (Z.testbit (Z.land v1 (unot 32 HBA_PORT_CMD_ST)) 0 = false) as Hb1.
  { rewrite Z.land_spec, unot_bit by lia. apply andb_false_r. }
  rewrite Hb1 in HP1. rewrite (Hw1 Hr Hb1) in HP1.
  eapply wp_seq; [apply spin_cmd; [exact HP1|done|done|]|].
  { eapply Nat.lt_le_trans; [apply al_cr_bound|done]. }
  intros [] s2 HP2. cbn beta in HP2. eapply wp_seq_mono; [by apply preg_writef_port|].
  intros _ s3 (v3 & p3 & _ & Hv3 & Hw3 & _ & HP3). cbv zeta in *.
  assert (Z.testbit (Z.land v3 (unot 32 HBA_PORT_CMD_FRE)) 0 = false) as Hb3.
  { by rewrite Z.land_spec, (Hv3 eq_refl). }
  rewrite Hb3 in HP3. by rewrite (Hw3 Hr Hb3) in HP3.
Qed.

Lemma port_start_spec fuel slot m d clb st s :
  Port (PhIssued slot) m d clb st s → (al_bound <= fuel)%nat →
  wp (port_start fuel) (ok_then (λ _ s', ∃ n, Port (PhBusy slot n) m d clb true s')) s.
Proof.
  intros HP Hf. unfold port_start. eapply wp_seq; [apply spin_cmd; [exact HP|done|done|]|].
  { eapply Nat.lt_le_trans; [apply al_cr_bound|done]. }
  intros [] s1 HP1. cbn beta in HP1. eapply wp_seq_mono; [by apply preg_writef_port|].
  intros _ s2 (v & p & _ & _ & _ & Hw & HP2). cbv zeta in *.
  assert (Z.testbit (Z.lor v (Z.lor HBA_PORT_CMD_FRE HBA_PORT_CMD_ST)) 0 = true) as Hb.
  { rewrite Z.lor_spec. apply orb_true_r. }
  rewrite Hb in HP2. destruct (Hw slot eq_refl Hb) as [n ->]. by exists n.
Qed.

Lemma port_slot_spec m d clb st s :
  Port PhIdle m d clb st s → wp port_slot (ok_then (λ o s', o = Some 0 ∧ Port PhIdle m d clb st s')) s.
Proof.
  intros HP. unfold port_slot. eapply wp_seq; [by apply preg_read_quiet|]. intros a s1 (HP1 & Ha & _). cbn in Ha.
  eapply wp_seq; [by apply preg_read_quiet|]. intros c s2 (HP2 & Hc & _). cbn in Hc. subst. by split.
Qed.

(** The memory with a command in slot 0. *)
Definition with_cmd (f : HbaCmdHeader → HbaCmdTable → HbaCmdHeader * HbaCmdTable) (m : AhciMem) : AhciMem :=
  match am_clb m with
  | h :: _ =>
      let '(h, t) := prepare f h in set_ctbas (<[0%nat := t]> (am_ctbas m)) (set_clb (<[0%nat := h]> (am_clb m)) m)
  | [] => m
  end.

Lemma ata_start_spec fuel f p m d clb s :
  Port p m d clb false s → at_rest p → (al_bound <= fuel)%nat → (0 < fuel)%nat → am_clb m ≠ [] → am_ctbas m ≠ [] →
  wp (ata_start fuel f) (ok_then (λ o s', o = Some 0 ∧ ∃ n, Port (PhBusy 0 n) (with_cmd f m) d clb true s')) s.
Proof.
  intros HP Hr Hf H0 Hcl Hct. unfold ata_start.
  eapply wp_seq; [by apply preg_write_port|]. intros _ s1 (p1 & Hw1 & _ & HP1). rewrite (Hw1 Hr) in HP1.
  eapply wp_seq; [by apply port_slot_spec|]. intros o s2 (-> & HP2).
  eapply (wp_seq _ _ (λ _, Port PhIdle (with_cmd f m) d clb false)).
  { unfold wp, fill_slot, with_cmd. destruct s2 as [m2 w2]. destruct HP2 as [E1 E2 E3 E4 E5]. cbn in E1. subst m2. cbn. change (Z.to_nat 0) with 0%nat.
    destruct (am_clb m) as [|h ?]; [done|]. destruct (am_ctbas m) as [|t ?]; [done|]. cbn.
    destruct (prepare f h) as [h' t']. cbn. by constructor. }
  intros [] s3 HP3. cbn beta in HP3. destruct fuel as [|fuel]; [lia|].
  eapply (wp_seq _ _ (λ _, Port PhIdle (with_cmd f m) d clb false)).
  { cbn [spin_while]. eapply wp_seq; [by apply preg_readf_quiet|]. intros b s' (HP' & _ & v & -> & Hv & _). change (Z.testbit v 7 = false) in Hv.
    destruct (Z.eqb_spec (Z.land v (Z.lor ATA_DEV_BUSY ATA_DEV_DRQ)) (Z.lor ATA_DEV_BUSY ATA_DEV_DRQ)) as [E|_]; [|done].
    exfalso. by rewrite (testbit_readf v 7 (Z.lor ATA_DEV_BUSY ATA_DEV_DRQ) ltac:(lia) eq_refl E) in Hv. }
  intros [] s4 HP4. cbn beta in HP4. eapply wp_seq; [by apply preg_writef_port|].
  intros _ s5 (v & p5 & Hv & _ & _ & Hw & HP5). cbn in Hv. subst v. cbv zeta in *. cbn [Z.lor] in Hw.
  rewrite (Hw eq_refl eq_refl 0 ltac:(lia) eq_refl) in HP5.
  eapply wp_seq; [by eapply port_start_spec; [exact HP5|]|]. intros [] s6 [n HP6]. split; [done|]. by exists n.
Qed.


(** A command in slot 0 that was started with memory [m] and bytes [d]. *)
Definition Running (m : AhciMem) (d : list Z) (clb : Z * Z) (s : S) : Prop :=
  (∃ n, Port (PhBusy 0 n) m d clb true s) ∨
  (∃ ok m' d', finished (hba_command ph clb m 0) ok m d m' d' ∧ Port (PhDone 0 ok) m' d' clb true s).

(** Bounds the reads until it ends. *)
Definition work (s : S) : nat := match al_phase s.2 with PhBusy _ n => Datatypes.S n | _ => 0 end.

Lemma preg_read_running r m d clb s :
  Running m d clb s →
  wp (preg_read r) (ok_then (λ v s', Running m d clb s' ∧ reg_value r v (al_phase s'.2) ∧ (work s' <= work s)%nat ∧
    (work s = 0%nat ∨ work s' < work s)%nat)) s.
Proof.
  intros [[n HP]|(ok & m' & d' & Hf & HP)].
  - destruct HP as [<- Hp <- <- Hst]. destruct s as [m0 w]. cbn [fst snd] in *. unfold wp, preg_read.
    destruct (io_read r (m0, w)) as [v [m' w']] eqn:E. cbn.
    destruct (al_read _ _ _ _ _ _ E) as (E1 & E2 & _ & E4 & E5 & _). rewrite Hp in E4.
    unfold work. cbn [snd]. rewrite Hp.
    destruct (read_step_busy _ _ _ _ _ _ _ _ _ E4) as [(n' & Hlt & Q1 & -> & Q3)|(ok & Q1 & Hf)]; rewrite Q1.
    + split_and!; [|by rewrite Q1 in E5|lia|right; lia]. left. exists n'. constructor; cbn; congruence.
    + split_and!; [|by rewrite Q1 in E5|lia|right; lia]. right. exists ok, m', (al_disk w').
      split; [done|]. constructor; cbn; congruence.
  - eapply wp_seq_mono; [by apply preg_read_quiet|]. intros v s' (HP' & Hv & _).
    unfold work. rewrite (po_phase _ _ _ _ _ _ HP), (po_phase _ _ _ _ _ _ HP').
    split_and!; [|done|done|by left]. right. by exists ok, m', d'.
Qed.

Lemma preg_readf_running r flags m d clb s :
  Running m d clb s →
  wp (preg_readf r flags) (ok_then (λ b s', Running m d clb s' ∧ (work s' <= work s)%nat ∧
    (work s = 0%nat ∨ work s' < work s)%nat ∧ ∃ v, b = (Z.land v flags =? flags) ∧ reg_value r v (al_phase s'.2))) s.
Proof.
  intros HR. pose proof (preg_read_running r m d clb s HR) as H. unfold wp, preg_read, preg_readf, readf in *.
  destruct (io_read r s) as [v s']. cbn in *. destruct H as (H1 & H2 & H3 & H4). split_and!; [done..|]. by exists v.
Qed.

(** A command in slot 0 that has ended. *)
Definition Ended (m : AhciMem) (d : list Z) (clb : Z * Z) (st : bool) (s : S) : Prop :=
  ∃ ok m' d', finished (hba_command ph clb m 0) ok m d m' d' ∧ Port (PhDone 0 ok) m' d' clb st s.

Lemma ata_running_spec m d clb s :
  Running m d clb s →
  wp (ata_running 0) (ok_then (λ b s', if b : bool then Running m d clb s' ∧ (work s' < work s)%nat
                                         else Ended m d clb true s')) s.
Proof.
  intros HR. unfold ata_running. eapply wp_seq; [by apply preg_readf_running|].
  intros c s1 ([[n HP1]|(ok & m' & d' & Hf & HP1)] & Hle & Hlt & v & -> & Hv);
    rewrite (po_phase _ _ _ _ _ _ HP1) in Hv; change (Z.shiftl 1 0) with (2 ^ 0);
    rewrite land_pow2_eqb by lia.
  - change (0 <= 0 → Z.testbit v 0 = true) in Hv. rewrite (Hv (Z.le_refl 0)).
    assert (work s1 = Datatypes.S n) as Hw by (unfold work; by rewrite (po_phase _ _ _ _ _ _ HP1)).
    eapply (wp_seq _ _ (λ b s', b = true ∧ s' = s1)); [by split|]. intros b s' [-> ->].
    eapply wp_seq; [apply preg_read_running; left; by exists n|].
    intros v2 s2 (HR2 & Hv2 & Hle2 & Hlt2). cbn.
    destruct HR2 as [[n2 HP2]|(ok & m' & d' & Hf & HP2)]; rewrite (po_phase _ _ _ _ _ _ HP2) in Hv2.
    + cbn in Hv2. rewrite Hv2. cbn. split; [left; by exists n2|lia].
    + destruct ok; cbn in Hv2.
      * rewrite Hv2. cbn. split; [right; by exists true, m', d'|lia].
      * rewrite (proj2 (Z.eqb_neq _ _)) by done. by exists false, m', d'.
  - assert (Ended m d clb true s1) as HE by (by exists ok, m', d').
    eapply (wp_seq _ _ (λ b s', Port (PhDone 0 ok) m' d' clb true s' ∧ (ok = true → b = false))).
    + destruct ok.
      * change (Z.testbit v 0 = false) in Hv. rewrite Hv.
        eapply wp_seq_mono; [by apply preg_readf_quiet|]. intros b s' (HP' & _ & v' & -> & Hv' & _).
        split; [done|]. intros _. change (Z.testbit v' 7 = false) in Hv'. change 0x80 with (2 ^ 7).
        by rewrite land_pow2_eqb by lia.
      * destruct (Z.testbit v 0); [by split|].
        eapply wp_seq_mono; [by apply preg_readf_quiet|]. intros b s' (HP' & _). by split.
    + intros b s2 [HP2 Hb]. destruct b.
      * destruct ok; [by specialize (Hb eq_refl)|]. eapply wp_seq; [by apply preg_read_quiet|].
        intros v3 s3 (HP3 & Hv3 & _). cbn in Hv3. cbn. rewrite (proj2 (Z.eqb_neq _ _)) by done. by exists false, m', d'.
      * by exists ok, m', d'.
Qed.

Lemma wait_running_spec fuel m d clb s :
  Running m d clb s → (work s < fuel)%nat → wp (wait_running fuel 0) (ok_then (λ _ s', Ended m d clb true s')) s.
Proof.
  revert s. induction fuel as [|fuel IH]; intros s HR Hw; [lia|]. cbn [wait_running].
  eapply wp_seq; [by apply ata_running_spec|]. intros [|] s' H; [|exact H].
  destruct H as [HR' Hlt]. apply IH; [done|lia].
Qed.

Lemma read_error_regs_quiet l p m d clb st s :
  Port p m d clb st s → not_busy p → wp (read_error_regs l) (ok_then (λ _ s', Port p m d clb st s')) s.
Proof.
  intros HP Hn. revert s HP. induction l as [|r l IH]; intros s HP; [exact HP|]. cbn [read_error_regs].
  eapply wp_seq; [by apply preg_read_quiet|]. intros v s' (HP' & _). by apply IH.
Qed.

Lemma work_bound m d clb s : Running m d clb s → (work s <= al_bound)%nat.
Proof.
  intros _. unfold work. destruct (al_phase s.2) as [| |slot n|] eqn:E; [lia|lia| |lia].
  pose proof (al_busy_bound _ _ _ E). lia.
Qed.

(** A command that was started is waited for: it has been executed, or [EIO]. *)
Lemma ata_stop_spec fuel m d clb s :
  Running m d clb s → (al_bound < fuel)%nat →
  wp (ata_stop fuel 0) (λ r s', ∃ p m' d', at_rest p ∧ Port p m' d' clb false s' ∧
    (r = Ok tt ∧ executed (hba_command ph clb m 0) m d m' d' ∨ r = Err EIO ∧ failed (hba_command ph clb m 0) m d m' d')) s.
Proof.
  intros HR Hf. unfold ata_stop.
  eapply wp_seq; [apply wait_running_spec; [exact HR|pose proof (work_bound _ _ _ _ HR); lia]|].
  intros [] s1 (ok & m' & d' & Hfin & HP1).
  eapply wp_seq; [eapply port_stop_spec; [exact HP1|done|lia]|]. intros [] s2 HP2. cbn beta in HP2.
  eapply wp_seq; [by apply preg_read_quiet|]. intros v s3 (HP3 & Hv & _). destruct ok; cbn in Hv.
  - rewrite Hv. cbn. exists (PhDone 0 true), m', d'. split_and!; [done|exact HP3|]. by left.
  - rewrite (proj2 (Z.eqb_neq _ _)) by done. cbn [negb].
    eapply wp_seq; [by apply read_error_regs_quiet|]. intros [] s4 HP4. cbn beta in HP4.
    eapply wp_seq; [by apply preg_write_port|]. intros [] s5 (p & Hp & _ & HP5). rewrite (Hp I) in HP5.
    exists PhIdle, m', d'. split_and!; [done|exact HP5|]. by right.
Qed.

(** ** The commands in memory *)

Record phys_ok : Prop := {
  pk_clb : u_range 64 (ph_clb ph); pk_ctba i : (i < 32)%nat → u_range 64 (ph_ctba ph i); pk_buf : u_range 64 (ph_buf ph);
  pk_dest : u_range 64 (ph_dest ph);
}.

(** The command list after [port_init]: each header points to its table. *)
Record mem_ok (m : AhciMem) : Prop := {
  mo_clb : length (am_clb m) = 32%nat;
  mo_ctbas : length (am_ctbas m) = 32%nat;
  mo_buf : Z.of_nat (length (am_buf m)) = 131072;
  mo_points i h : am_clb m !! i = Some h → ch_ctba_low h = low32 (ph_ctba ph i) ∧ ch_ctba_high h = high32 (ph_ctba ph i);
}.

Definition clb_regs : Z * Z := (low32 (ph_clb ph), high32 (ph_clb ph)).

Lemma join_halves p : u_range 64 p → join32 (low32 p) (high32 p) = p.
Proof.
  intros Hp. unfold join32, low32, high32, as_u32, as_u64. rewrite (as_u_id 64) by done. unfold as_u.
  rewrite Z.shiftr_div_pow2 by lia. unfold u_range in Hp. rewrite (Z.mod_small (p / 2 ^ 32)); [|split; [apply Z.div_pos; lia|]].
  - pose proof (Z.div_mod p (2 ^ 32)). lia.
  - apply Z.div_lt_upper_bound; lia.
Qed.

Lemma lba_bytes block : [as_u8 block; as_u8 (Z.shiftr block 8); as_u8 (Z.shiftr block 16); as_u8 (Z.shiftr block 24);
  as_u8 (Z.shiftr block 32); as_u8 (Z.shiftr block 40)] = le_bytes 6 block.
Proof. cbn [le_bytes]. rewrite !Z.shiftr_div_pow2 by lia. unfold as_u8, as_u. rewrite !Z.div_div by lia. done. Qed.

Lemma dbc_room sectors : 0 < sectors < 256 → Z.land (Z.lor (as_u32 (sectors * 512)) 1) 0x3FFFFF + 1 = sectors * 512 + 2.
Proof.
  intros Hs. unfold as_u32. rewrite as_u_id by (unfold u_range; lia).
  replace (sectors * 512) with (Z.shiftl (sectors * 256) 1) by (rewrite Z.shiftl_mul_pow2 by lia; change (2 ^ 1) with 2; lia).
  rewrite lor_shiftl_add by (unfold u_range; lia). change 0x3FFFFF with (Z.ones 22). rewrite Z.land_ones by lia.
  rewrite Z.shiftl_mul_pow2, Z.mod_small by lia. lia.
Qed.

Lemma hba_command_dma m block sectors write :
  phys_ok → mem_ok m → u_range 48 block → 0 < sectors < 256 →
  hba_command ph clb_regs (with_cmd (dma_fill ph block sectors write) m) 0 =
  if write then HcWrite block sectors else HcRead block sectors.
Proof.
  intros [K1 K2 K3 K4] [M1 M2 _ M4] Hb Hs. specialize (K2 0%nat ltac:(lia)). unfold hba_command, with_cmd.
  destruct (am_clb m) as [|h hs] eqn:Eh; [done|]. destruct (am_ctbas m) as [|t ts] eqn:Et; [done|].
  destruct (M4 0%nat h eq_refl) as [P1 P2]. cbn -[Z.land Z.lor join32 fis_lba fis_count Z.testbit low32 high32 Z.shiftl].
  rewrite P1, P2. unfold clb_regs. cbn [fst snd]. rewrite !join_halves, !Z.eqb_refl by done. rewrite dbc_room by done.
  set (cfl := if write then _ else _).
  assert (Z.land cfl 31 = 5) as -> by (unfold cfl; by destruct write).
  assert (Z.testbit cfl 6 = write) as -> by (unfold cfl; by destruct write).
  unfold fis_lba, fis_count. cbn [fr_lba0 fr_lba1 fr_lba2 fr_lba3 fr_lba4 fr_lba5 fr_countl fr_counth].
  rewrite lba_bytes, le_val_bytes by exact Hb.
  assert (le_val [as_u8 sectors; as_u8 (Z.shiftr sectors 8)] = sectors) as ->.
  { unfold as_u8. rewrite as_u_id by (unfold u_range; lia). rewrite Z.shiftr_div_pow2, Z.div_small by lia.
    cbn [le_val]. change (as_u 8 0) with 0. lia. }
  rewrite (proj2 (Z.ltb_lt 0 sectors)), (proj2 (Z.leb_le (sectors * 512) _)) by lia.
  by destruct write.
Qed.

Lemma hba_command_identify m :
  phys_ok → mem_ok m → hba_command ph clb_regs (with_cmd (identify_fill ph ATA_CMD_IDENTIFY) m) 0 = HcIdentify.
Proof.
  intros [K1 K2 K3 K4] [M1 M2 _ M4]. specialize (K2 0%nat ltac:(lia)). unfold hba_command, with_cmd.
  destruct (am_clb m) as [|h hs] eqn:Eh; [done|]. destruct (am_ctbas m) as [|t ts] eqn:Et; [done|].
  destruct (M4 0%nat h eq_refl) as [P1 P2]. cbn -[Z.land Z.lor join32 fis_lba fis_count Z.testbit low32 high32 Z.shiftl].
  rewrite P1, P2. unfold clb_regs. cbn [fst snd]. by rewrite !join_halves, !Z.eqb_refl by done.
Qed.

Lemma with_cmd_ok f m : 
  (∀ h t, let '(h', _) := f h t in ch_ctba_low h' = ch_ctba_low h ∧ ch_ctba_high h' = ch_ctba_high h) →
  mem_ok m → mem_ok (with_cmd f m) ∧ am_buf (with_cmd f m) = am_buf m ∧ am_dest (with_cmd f m) = am_dest m.
Proof.
  intros Hf HM. pose proof HM as [M1 M2 M3 M4]. unfold with_cmd. destruct (am_clb m) as [|h hs] eqn:Eh; [done|].
  unfold prepare. set (h0 := mk_cmd_header _ _ _ _). set (t0 := mk_cmd_table _ _ _). specialize (Hf h0 t0).
  destruct (f h0 t0) as [h' t']. destruct Hf as [F1 F2]. split; [|done]. constructor; cbn [am_clb am_ctbas am_buf set_clb set_ctbas].
  - by rewrite length_insert.
  - by rewrite length_insert.
  - done.
  - intros i h1 Hi. destruct i as [|i]; cbn in Hi.
    + injection Hi as <-. rewrite F1, F2. by apply (M4 0%nat h).
    + by apply (M4 (Datatypes.S i)).
Qed.

(** A write that leaves an idle port idle. *)
Lemma idle_write r v m d clb st s :
  Port PhIdle m d clb st s →
  match r with PIs | PIe | PSctl | PSerr | PFb _ | PClb _ => True | _ => False end →
  wp (preg_write r v) (ok_then (λ _ s', Port PhIdle m d
    (match r with PClb false => (v, clb.2) | PClb true => (clb.1, v) | _ => clb end) st s')) s.
Proof.
  intros HP Hr. eapply wp_seq_mono; [by apply preg_write_port|]. intros _ s' (p' & Hw & _ & HP').
  destruct r as [[]|[]| | | | | | | | | | | |]; try done; try (by rewrite (Hw I) in HP'); by rewrite (Hw eq_refl) in HP'.
Qed.

Lemma init_mem_ok m :
  length (am_clb m) = 32%nat → length (am_ctbas m) = 32%nat → Z.of_nat (length (am_buf m)) = 131072 →
  mem_ok (set_clb (imap (point_header ph) (am_clb m)) m).
Proof.
  intros H1 H2 H3. constructor; cbn [am_clb am_ctbas am_buf set_clb]; [by rewrite length_imap|done|done|].
  intros i h. rewrite list_lookup_imap. intros (h0 & _ & ->)%fmap_Some_1. done.
Qed.

Lemma port_init_spec fuel m d clb st s :
  Port PhIdle m d clb st s → (al_bound <= fuel)%nat →
  wp (port_init ph fuel) (ok_then (λ _ s',
    Port PhIdle (set_clb (imap (point_header ph) (am_clb m)) m) d clb_regs false s')) s.
Proof.
  intros HP Hf. unfold port_init. set (m1 := set_clb _ m).
  eapply wp_seq; [by eapply port_stop_spec; [exact HP|..]|]. intros [] s1 HP1. cbn beta in HP1.
  eapply (wp_seq _ _ (λ _, Port PhIdle m1 d clb false)).
  { unfold wp, on_mem, modify. destruct s1 as [m0 w0]. destruct HP1 as [E1 E2 E3 E4 E5]. cbn in *. subst m0. by constructor. }
  intros [] s2 HP2. cbn beta in HP2.
  eapply wp_seq; [by apply idle_write|]. intros [] s3 HP3. cbn beta iota in HP3.
  eapply wp_seq; [by apply idle_write|]. intros [] s4 HP4. cbn beta iota in HP4.
  eapply wp_seq; [by apply idle_write|]. intros [] s5 HP5. cbn beta iota in HP5.
  eapply wp_seq; [by apply idle_write|]. intros [] s6 HP6. cbn beta iota in HP6.
  eapply wp_seq; [by apply preg_read_quiet|]. intros is7 s7 (HP7 & _).
  eapply wp_seq; [by apply idle_write|]. intros [] s8 HP8. cbn beta iota in HP8.
  eapply wp_seq; [by apply idle_write|]. intros [] s9 HP9. cbn beta iota in HP9.
  eapply wp_seq; [by apply preg_read_quiet|]. intros serr s10 (HP10 & _).
  eapply wp_seq; [by apply idle_write|]. intros [] s11 HP11. cbn beta iota in HP11.
  eapply wp_seq; [by apply preg_read_quiet|]. intros sctl s12 (HP12 & _).
  eapply wp_seq; [by apply idle_write|]. intros [] s13 HP13. cbn beta iota in HP13.
  eapply wp_seq; [by apply preg_writef_port|]. intros [] s14 (v & p & _ & Hv & Hw & _ & HP14). cbv zeta in *.
  assert (Z.testbit (Z.lor v (Z.lor (Z.shiftl 1 2) (Z.shiftl 1 1))) 0 = false) as Hb.
  { by rewrite Z.lor_spec, (Hv eq_refl). }
  rewrite Hb in HP14. rewrite (Hw I Hb) in HP14.
  eapply wp_seq; [by apply preg_read_quiet|]. intros v15 s15 (HP15 & _). exact HP15.
Qed.

Lemma identify_size_ok words d :
  ident_ok words d → Z.of_nat (length d) < 2 ^ 63 → identify_size words = Z.of_nat (length d).
Proof.
  intros (Hl & Hw & H0 & H512) Hd. unfold identify_size.
  assert (∀ k, u_range 16 (default 0 (words !! k))) as Hk.
  { intros k. destruct (words !! k) as [x|] eqn:E; cbn; [by eapply Forall_lookup_1|unfold u_range; lia]. }
  pose proof (Hk 100%nat) as K0. pose proof (Hk 101%nat) as K1. pose proof (Hk 102%nat) as K2. pose proof (Hk 103%nat) as K3.
  set (w0 := default 0 (words !! 100%nat)) in *. set (w1 := default 0 (words !! 101%nat)) in *.
  set (w2 := default 0 (words !! 102%nat)) in *. set (w3 := default 0 (words !! 103%nat)) in *.
  assert (Z.lor (Z.lor (Z.lor w0 (Z.shiftl w1 16)) (Z.shiftl w2 32)) (Z.shiftl w3 48) =
          w0 + 2 ^ 16 * w1 + 2 ^ 32 * w2 + 2 ^ 48 * w3) as ->.
  { rewrite (Z.lor_comm w0), lor_shiftl_add by (unfold u_range in *; lia).
    rewrite (Z.lor_comm _ (Z.shiftl w2 32)), lor_shiftl_add by (unfold u_range in *; lia).
    rewrite (Z.lor_comm _ (Z.shiftl w3 48)), lor_shiftl_add by (unfold u_range in *; lia). lia. }
  rewrite (proj2 (Z.eqb_neq _ 0)) by lia. unfold as_u64. rewrite as_u_id by (unfold u_range; lia). lia.
Qed.

(** Set-up of a command: the header keeps the address of its table. *)
Lemma identify_fill_keeps cmd h t : let '(h', _) := identify_fill ph cmd h t in
  ch_ctba_low h' = ch_ctba_low h ∧ ch_ctba_high h' = ch_ctba_high h.
Proof. done. Qed.

Lemma dma_fill_keeps block sectors write h t : let '(h', _) := dma_fill ph block sectors write h t in
  ch_ctba_low h' = ch_ctba_low h ∧ ch_ctba_high h' = ch_ctba_high h.
Proof. done. Qed.

Lemma mem_ok_nonempty m : mem_ok m → am_clb m ≠ [] ∧ am_ctbas m ≠ [].
Proof. intros [H1 H2 _ _]. split; intros E; rewrite E in *; done. Qed.

Lemma mem_ok_dest x m : mem_ok m → mem_ok (set_dest x m).
Proof. by intros []. Qed.

Lemma mem_ok_buf x m : mem_ok m → length x = length (am_buf m) → mem_ok (set_buf x m).
Proof. intros [] E. constructor; [done|done| |done]. cbn [am_buf set_buf]. by rewrite E. Qed.

(** IDENTIFY DEVICE finds the size of the drive, unless it fails. *)
Lemma identify_spec fuel p m d s :
  Port p m d clb_regs false s → at_rest p → mem_ok m → phys_ok → (al_bound < fuel)%nat → Z.of_nat (length d) < 2 ^ 63 →
  wp (identify ph fuel) (ok_then (λ o s', (o = Some (Z.of_nat (length d)) ∨ o = None) ∧
    ∃ p' m', at_rest p' ∧ mem_ok m' ∧ Port p' m' d clb_regs false s')) s.
Proof.
  intros HP Hr HM HK Hf Hd. unfold identify, identify_inner. set (m1 := set_dest (replicate 256 0) m).
  assert (mem_ok m1) as HM1 by (by apply mem_ok_dest).
  eapply (wp_seq _ _ (λ _, Port p m1 d clb_regs false)).
  { unfold wp, on_mem, modify. destruct s as [m0 w0]. destruct HP as [E1 E2 E3 E4 E5]. cbn in *. subst m0. by constructor. }
  intros [] s1 HP1. cbn beta in HP1. destruct (mem_ok_nonempty _ HM1) as [N1 N2].
  eapply wp_seq; [eapply ata_start_spec; [exact HP1|done|lia|lia|done|done]|]. intros o s2 (-> & n & HP2).
  destruct (with_cmd_ok (identify_fill ph ATA_CMD_IDENTIFY) m1 (identify_fill_keeps ATA_CMD_IDENTIFY) HM1) as [HM2 _].
  apply wp_bind. unfold wp at 1, attempt.
  assert (Running (with_cmd (identify_fill ph ATA_CMD_IDENTIFY) m1) d clb_regs s2) as HR by (left; by exists n).
  pose proof (ata_stop_spec fuel _ _ _ _ HR Hf) as Hs. unfold wp in Hs. rewrite (hba_command_identify _ HK HM1) in Hs.
  destruct (ata_stop fuel 0 s2) as [r s3]. cbn [fst snd] in Hs.
  destruct Hs as (p' & m' & d' & Hp' & HP3 & [(-> & -> & words & -> & Hid)|(-> & -> & words & ->)]); cbn.
  - split; [left; destruct HP3 as [-> _ _ _ _]; cbn; f_equal; by apply identify_size_ok|].
    exists p', (set_dest words (with_cmd (identify_fill ph ATA_CMD_IDENTIFY) m1)). split_and!; [done|by apply mem_ok_dest|done].
  - split; [by right|]. exists p', (set_dest words (with_cmd (identify_fill ph ATA_CMD_IDENTIFY) m1)).
    split_and!; [done|by apply mem_ok_dest|done].
Qed.

(** One transfer, from its start to its end. *)
Lemma ata_dma_spec fuel block sectors write p m d s :
  Port p m d clb_regs false s → at_rest p → mem_ok m → (al_bound < fuel)%nat → 0 < sectors < 256 →
  wp (ata_dma ph fuel block sectors write) (ok_then (λ o s', o = Some 0 ∧
    Running (with_cmd (dma_fill ph block sectors write) m) d clb_regs s')) s.
Proof.
  intros HP Hr HM Hf Hs. unfold ata_dma. rewrite (proj2 (Z.ltb_lt _ _)), (proj2 (Z.ltb_lt _ _)) by lia. cbn [andb].
  destruct (mem_ok_nonempty _ HM) as [N1 N2].
  eapply wp_seq_mono; [eapply ata_start_spec; [exact HP|done|lia|lia|done|done]|]. intros o s2 (-> & n & HP2).
  split; [done|]. left. by exists n.
Qed.

End laws.
