(* ===== verification/AhciDisk.v ===== *)
(** SATA disks and ATAPI drives behind an AHCI port
    (storage/ahcid/src/ahci/disk_ata.rs, disk_atapi.rs and mod.rs).

    A buffer of a caller is its address, which [request] compares, and its bytes.  The
    loops of [read] and [write] poll [request] a bounded number of times and end with
    [ETIMEDOUT] beyond. *)

From S2P Require Import Prelude Io Ahci.

(** ** Disks *)

Inductive BufferKind : Type := BkRead (buffer : list Z) | BkWrite (buffer : list Z).

Record AtaRequest := mk_request {
  rq_address : Z; rq_total_sectors : Z; rq_sector : Z; rq_running_opt : option (Z * Z);
}.

Record DiskATA (W : Type) := mk_disk_ata {
  da_id : Z; da_size : Z; da_request_opt : option AtaRequest; da_port : AhciMem * W;
}.
Arguments mk_disk_ata {W} _ _ _ _.
Arguments da_id {W} _.
Arguments da_size {W} _.
Arguments da_request_opt {W} _.
Arguments da_port {W} _.

Section disk_ata.
Context {W : Type} `{HIo : Io (AhciMem * W) PReg} (ph : AhciPhys) (fuel : nat).

Abbreviation dp := (prog (DiskATA W) errno).

Definition set_request_opt (r : option AtaRequest) (d : DiskATA W) : DiskATA W :=
  mk_disk_ata (da_id d) (da_size d) r (da_port d).

Definition set_port (s : AhciMem * W) (d : DiskATA W) : DiskATA W :=
  mk_disk_ata (da_id d) (da_size d) (da_request_opt d) s.

Definition on_port {A : Type} (m : prog (AhciMem * W) errno A) : dp A := λ d,
  let '(r, s) := m (da_port d) in (r, set_port s d).

Definition kind_buffer (k : BufferKind) : list Z := match k with BkRead b | BkWrite b => b end.
Definition kind_write (k : BufferKind) : bool := match k with BkRead _ => false | BkWrite _ => true end.

(** The memory of the port is zeroed when it is allocated; [w] is the controller. *)
Definition zero_mem : AhciMem :=
  mk_ahci_mem (replicate 32 zero_header) (replicate 32 zero_table) (replicate (Z.to_nat (256 * 512)) 0) (replicate 256 0).

Definition ata_new (id : Z) (w : W) : res errno (DiskATA W) :=
  match (_ ← port_init ph fuel; identify ph fuel) (zero_mem, w) with
  | (Ok size, s) => Ok (mk_disk_ata id (default 0 size) None s)
  | (Err e, _) => Err e
  | (Panic, _) => Panic
  end.

(** The start of the next part of a request, or its end. *)
Definition request_next (block : Z) (k : BufferKind) (r : AtaRequest) : dp (option Z * list Z) :=
  if rq_sector r <? rq_total_sectors r then
    let left := rq_total_sectors r - rq_sector r in
    let sectors := if 255 <=? left then 255 else left in
    _ ← (match k with
         | BkWrite buffer =>
             on_port (on_mem (λ m, set_buf (splice 0 (slice (Z.to_nat (rq_sector r * 512)) (Z.to_nat (sectors * 512)) buffer)
                                              (am_buf m)) m))
         | BkRead _ => mret tt
         end);
    slot ← on_port (ata_dma ph fuel (as_u64 (block + rq_sector r)) sectors (kind_write k));
    let running := match slot with Some slot => Some (slot, sectors) | None => rq_running_opt r end in
    _ ← modify (set_request_opt (Some (mk_request (rq_address r) (rq_total_sectors r) (rq_sector r) running)));
    mret (None, kind_buffer k)
  else mret (Some (rq_sector r * 512), kind_buffer k).

(** What was read goes from the transfer buffer to the caller's. *)
Definition copy_back (m : AhciMem) (sector sectors : Z) (k : BufferKind) : BufferKind :=
  match k with
  | BkRead buffer => BkRead (splice (Z.to_nat (sector * 512)) (take (Z.to_nat (sectors * 512)) (am_buf m)) buffer)
  | BkWrite buffer => BkWrite buffer
  end.

(** One pass of [request]; the second part of the answer is the buffer afterwards. *)
Definition request (block address : Z) (k : BufferKind) : dp (option Z * list Z) :=
  let total_sectors := Z.of_nat (length (kind_buffer k)) / 512 in
  ro ← gets da_request_opt;
  _ ← modify (set_request_opt None);
  match ro with
  | Some r =>
      if (address =? rq_address r) && (total_sectors =? rq_total_sectors r) then
        match rq_running_opt r with
        | None => request_next block k r
        | Some (slot, sectors) =>
            b ← on_port (ata_running slot);
            if b : bool then
              _ ← modify (set_request_opt (Some r));
              mret (None, kind_buffer k)
            else
              _ ← on_port (ata_stop fuel slot);
              m ← gets (λ d, (da_port d).1);
              request_next block (copy_back m (rq_sector r) sectors k)
                (mk_request (rq_address r) (rq_total_sectors r) (rq_sector r + sectors) None)
        end
      else
        _ ← modify (set_request_opt (Some r));
        mret (None, kind_buffer k)
  | None => request_next block k (mk_request address total_sectors 0 None)
  end.

Definition with_buffer (k : BufferKind) (b : list Z) : BufferKind :=
  match k with BkRead _ => BkRead b | BkWrite _ => BkWrite b end.

(** [loop { match self.request(..)? { .. } }]. *)
Fixpoint request_loop (polls : nat) (block address : Z) (k : BufferKind) : dp (Z * list Z) :=
  match polls with
  | O => throw ETIMEDOUT
  | S polls =>
      '(o, b) ← request block address k;
      match o with
      | Some count => mret (count, b)
      | None => request_loop polls block address (with_buffer k b)
      end
  end.

Definition ata_read (polls : nat) (block address : Z) (buffer : list Z) : dp (option Z * list Z) :=
  '(count, b) ← request_loop polls block address (BkRead buffer);
  mret (Some count, b).

Definition ata_write (polls : nat) (block address : Z) (buffer : list Z) : dp (option Z) :=
  '(count, _) ← request_loop polls block address (BkWrite buffer);
  mret (Some count).

Definition ata_block_length : dp Z := mret 512.

Definition ata_size : dp Z := gets da_size.

End disk_ata.

(** ** Transfers *)

Lemma take_slice (a b : nat) (l : list Z) : take a l ++ slice a b l = take (a + b) l.
Proof. unfold slice. by rewrite take_take_drop. Qed.

Section transfer.
Context {W : Type} `{HL : AhciLaws W ph} `{HDef : !AhciDeferred W}.
(** The caller's buffer and the bytes of the drive at the start, and where they meet. *)
Context (write : bool) (buf0 d0 : list Z) (block total : Z).
Context (Hblock : 0 <= block) (Htotal : 0 <= total) (Hlen : total * 512 <= Z.of_nat (length buf0)).
Context (Hrange : (block + total) * 512 <= Z.of_nat (length d0)).

Abbreviation nb := (Z.to_nat (block * 512)).
Abbreviation bytes k := (Z.to_nat (k * 512)).

(** After [k] sectors: the bytes of the drive and of the buffer. *)
Definition stored (k : Z) (d b : list Z) : Prop :=
  if write then d = splice nb (take (bytes k) buf0) d0 ∧ b = buf0
  else d = d0 ∧ b = splice 0 (slice nb (bytes k) d0) buf0.

(** A write changes nothing outside of the sectors it was given. *)
Definition within (d : list Z) : Prop :=
  if write then ∃ x, length x = bytes total ∧ d = splice nb x d0 else d = d0.

Definition sector_cmd (k c : Z) : HbaCmd := if write then HcWrite (block + k) c else HcRead (block + k) c.

Definition loaded (k c : Z) (m : AhciMem) : Prop :=
  if write then take (bytes c) (am_buf m) = slice (bytes k) (bytes c) buf0 else True.

Definition copied (k c : Z) (m : AhciMem) (b : list Z) : list Z :=
  if write then b else splice (bytes k) (take (bytes c) (am_buf m)) b.

Lemma stored_0 : stored 0 d0 buf0.
Proof. unfold stored. cbn. destruct write; by rewrite ?slice_0, splice_nil. Qed.

Lemma stored_lengths k d b : 0 <= k <= total → stored k d b → length d = length d0 ∧ length b = length buf0.
Proof.
  intros Hk. unfold stored. destruct write; intros [-> ->].
  - rewrite length_splice; [done|]. rewrite length_take. lia.
  - rewrite length_splice; [done|]. rewrite length_slice; lia.
Qed.

Lemma stored_within k d b : 0 <= k <= total → stored k d b → within d.
Proof.
  intros Hk. unfold stored, within. destruct write; intros [-> _]; [|done].
  exists (take (bytes k) buf0 ++ slice (nb + bytes k) (bytes (total - k)) d0). split.
  - rewrite length_app, length_take, length_slice; lia.
  - rewrite (splice_extend _ _ (bytes (total - k))); rewrite length_take; [|lia]. do 3 f_equal. lia.
Qed.

Lemma stored_step k c d b m m' d' :
  0 <= k → 0 < c <= 255 → k + c <= total → mem_ok (ph := ph) m → stored k d b → loaded k c m →
  executed (sector_cmd k c) m d m' d' → stored (k + c) d' (copied k c m' b) ∧ mem_ok (ph := ph) m'.
Proof.
  intros Hk Hc Hkc HM Hst Hld He. destruct (stored_lengths k d b ltac:(lia) Hst) as [Ld Lb].
  pose proof (mo_buf _ HM) as Hbuf. unfold stored, loaded, copied, sector_cmd, executed in *.
  replace (bytes (k + c)) with (bytes k + bytes c)%nat by lia. destruct write; cbn in He.
  - destruct Hst as [-> ->]. destruct He as [-> ->]; [lia|]. rewrite Hld. split; [|done]. split; [|done].
    assert (length (take (bytes k) buf0) = bytes k) as Ht by (rewrite length_take; lia).
    replace (Z.to_nat ((block + k) * 512)) with (nb + length (take (bytes k) buf0))%nat by lia.
    rewrite splice_splice by (rewrite length_slice; lia). by rewrite take_slice.
  - destruct Hst as [-> ->]. destruct He as [-> ->]; [lia|].
    set (x := slice (Z.to_nat ((block + k) * 512)) (Z.to_nat (c * 512)) d0).
    assert (length x = bytes c) as Hx by (unfold x; rewrite length_slice; lia).
    split; [split; [done|]|apply mem_ok_buf; [done|rewrite length_splice; lia]]. cbn [am_buf set_buf].
    assert (take (bytes c) (splice 0 x (am_buf m)) = x) as ->.
    { unfold splice. rewrite take_0. cbn [app]. apply take_app_length'. done. }
    assert (length (slice nb (bytes k) d0) = bytes k) as Hs by (rewrite length_slice; lia).
    rewrite <- Hs at 1. change (length (slice nb (bytes k) d0)) with (0 + length (slice nb (bytes k) d0))%nat.
    rewrite splice_splice by lia. f_equal. unfold x. replace (Z.to_nat ((block + k) * 512)) with (nb + bytes k)%nat by lia.
    by rewrite slice_app.
Qed.

Lemma failed_within k c d b m m' d' :
  0 <= k → 0 < c <= 255 → k + c <= total → mem_ok (ph := ph) m → stored k d b →
  failed (sector_cmd k c) m d m' d' → within d' ∧ mem_ok (ph := ph) m'.
Proof.
  intros Hk Hc Hkc HM Hst He. destruct (stored_lengths k d b ltac:(lia) Hst) as [Ld Lb].
  pose proof (mo_buf _ HM) as Hbuf. unfold stored, within, sector_cmd, failed in *. destruct write; cbn in He.
  - destruct Hst as [-> ->]. destruct He as [-> (x & Hx & ->)]; [lia|]. split; [|done].
    assert (length (take (bytes k) buf0) = bytes k) as Ht by (rewrite length_take; lia).
    replace (Z.to_nat ((block + k) * 512)) with (nb + length (take (bytes k) buf0))%nat by lia.
    rewrite splice_splice by lia. rewrite (splice_extend _ _ (bytes (total - k - c))) by (rewrite length_app; lia).
    eexists. split; [|reflexivity]. rewrite !length_app, length_slice; rewrite ?length_app; lia.
  - destruct Hst as [-> ->]. destruct He as [-> (x & -> & Hx)]. split; [done|]. by apply mem_ok_buf.
Qed.

(** *** The loop *)

Context (address : Z) (fuel : nat) (Hfuel : (al_bound (ph := ph) < fuel)%nat) (Hphys : phys_ok (ph := ph)).
Context (H48 : block + total <= 2 ^ 48) (Hsectors : total = Z.of_nat (length buf0) / 512).

Abbreviation D := (DiskATA W).
Abbreviation kind b := (if write then BkWrite b else BkRead b).

(** No request is under way. *)
Definition DiskAt (d : list Z) (D : DiskATA W) : Prop :=
  da_request_opt D = None ∧ ∃ p m, at_rest p ∧ mem_ok (ph := ph) m ∧ Port p m d (clb_regs (ph := ph)) false (da_port D).

(** The part of [c] sectors after the first [k] is under way. *)
Definition InFlight (k : Z) (d b : list Z) (D : DiskATA W) : Prop :=
  ∃ m c, 0 <= k ∧ 0 < c <= 255 ∧ k + c <= total ∧ stored k d b ∧ loaded k c m ∧ mem_ok (ph := ph) m ∧
    Running (ph := ph) (with_cmd (dma_fill ph (block + k) c write) m) d (clb_regs (ph := ph)) (da_port D) ∧
    da_request_opt D = Some (mk_request address total k (Some (0, c))).

Lemma wp_on_port {A : Type} (m : prog (AhciMem * W) errno A) Q D :
  wp m (λ r s', Q r (set_port s' D)) (da_port D) → wp (on_port m) Q D.
Proof. unfold wp, on_port. by destruct (m (da_port D)). Qed.

Lemma kind_fields b : kind_buffer (kind b) = b ∧ kind_write (kind b) = write.
Proof. by destruct write. Qed.

Lemma kind_length k d b : 0 <= k <= total → stored k d b → Z.of_nat (length b) / 512 = total.
Proof. intros Hk Hst. destruct (stored_lengths k d b Hk Hst) as [_ ->]. by rewrite Hsectors. Qed.

(** The bytes of the next part are put into the transfer buffer. *)
Lemma load_buffer k c b d D :
  0 <= k → 0 < c <= 255 → k + c <= total → stored k d b → DiskAt d D →
  wp (match kind b with
      | BkWrite buffer => on_port (on_mem (λ m, set_buf (splice 0 (slice (bytes k) (bytes c) buffer) (am_buf m)) m))
      | BkRead _ => mret tt
      end)
    (ok_then (λ _ D', da_request_opt D' = None ∧ ∃ p m, at_rest p ∧ mem_ok (ph := ph) m ∧ loaded k c m ∧
       Port p m d (clb_regs (ph := ph)) false (da_port D'))) D.
Proof.
  intros Hk Hc Hkc Hst (Hro & p & m & Hp & HM & HP). unfold loaded. destruct write eqn:Ew; cbv iota.
  - apply wp_on_port. unfold wp, on_mem, modify. destruct (da_port D) as [m0 w0]. destruct HP as [E1 E2 E3 E4 E5]. cbn in *.
    subst m0. split; [done|]. assert (b = buf0) as -> by (unfold stored in Hst; rewrite Ew in Hst; by destruct Hst).
    pose proof (mo_buf _ HM). set (x := slice (bytes k) (bytes c) buf0).
    assert (length x = bytes c) as Hx by (unfold x; rewrite length_slice; lia).
    exists p, (set_buf (splice 0 x (am_buf m)) m). split_and!; [done|apply mem_ok_buf; [done|apply length_splice; lia]| |by constructor].
    cbn [am_buf set_buf]. unfold splice. rewrite take_0. cbn [app]. by apply take_app_length'.
  - split; [done|]. by exists p, m.
Qed.

Lemma request_next_spec k d b D :
  0 <= k <= total → stored k d b → DiskAt d D →
  wp (request_next ph fuel block (kind b) (mk_request address total k None))
    (ok_then (λ '(o, b') D', b' = b ∧
       (o = None ∧ InFlight k d b D' ∨ o = Some (total * 512) ∧ stored total d b ∧ DiskAt d D'))) D.
Proof.
  intros Hk Hst HD. unfold request_next. cbn [rq_sector rq_total_sectors rq_address rq_running_opt].
  destruct (kind_fields b) as [-> ->]. destruct (Z.ltb_spec k total) as [Hlt|Hge].
  - set (c := if 255 <=? total - k then 255 else total - k).
    assert (0 < c <= 255 ∧ k + c <= total) as [Hc Hkc] by (unfold c; destruct (Z.leb_spec 255 (total - k)); lia).
    eapply wp_seq; [eapply (load_buffer k c b d); [lia|lia|lia|done|done]|]. intros [] D1 (Hro & p & m & Hp & HM & Hld & HP).
    apply wp_bind, wp_on_port. unfold as_u64. rewrite as_u_id by (unfold u_range; lia).
    eapply wp_mono; [eapply ata_dma_spec; [exact HP|done|done|done|lia]|].
    intros [o|?|] s' Ho; [|done..]. destruct Ho as [-> HR].
    split; [done|]. left. split; [done|]. exists m, c. split_and!; done || lia.
  - replace k with total in * by lia. split; [done|]. right. by split_and!.
Qed.

Definition pot (k : Z) (D : DiskATA W) : nat :=
  Z.to_nat (total - k) * (al_bound (ph := ph) + 2) + work (ph := ph) (da_port D).

(** What a poll of a request leads to. *)
Definition Polled (n : nat) (r : res errno (option Z * list Z)) (D' : DiskATA W) : Prop :=
  (∃ b' k' d', r = Ok (None, b') ∧ InFlight k' d' b' D' ∧ (pot k' D' < n)%nat) ∨
  (∃ b' d', r = Ok (Some (total * 512), b') ∧ stored total d' b' ∧ DiskAt d' D') ∨
  (r = Err EIO ∧ ∃ d', within d' ∧ DiskAt d' D').

Lemma pot_next k c D : 0 < c → k + c <= total → 0 <= k → (work (ph := ph) (da_port D) <= al_bound (ph := ph))%nat →
  ∀ w, (pot (k + c) D < Z.to_nat (total - k) * (al_bound (ph := ph) + 2) + w)%nat.
Proof.
  intros Hc Hkc Hk Hw w. unfold pot. replace (Z.to_nat (total - k)) with (Z.to_nat c + Z.to_nat (total - (k + c)))%nat by lia.
  assert (1 <= Z.to_nat c)%nat by lia. nia.
Qed.

Lemma InFlight_work k d b D : InFlight k d b D → (work (ph := ph) (da_port D) <= al_bound (ph := ph))%nat.
Proof. intros (m & c & _ & _ & _ & _ & _ & _ & HR & _). by eapply work_bound. Qed.

(** The part under way has ended: the next one, the end, or the error. *)
Lemma finish_part k c d b m D :
  0 <= k → 0 < c <= 255 → k + c <= total → stored k d b → loaded k c m → mem_ok (ph := ph) m →
  da_request_opt D = None →
  Running (ph := ph) (with_cmd (dma_fill ph (block + k) c write) m) d (clb_regs (ph := ph)) (da_port D) →
  wp (_ ← on_port (ata_stop fuel 0);
      m ← gets (λ d, (da_port d).1);
      request_next ph fuel block (copy_back m k c (kind b)) (mk_request address total (k + c) None))
    (Polled (Z.to_nat (total - k) * (al_bound (ph := ph) + 2))) D.
Proof.
  intros Hk Hc Hkc Hst Hld HM Hro HR.
  destruct (with_cmd_ok (dma_fill ph (block + k) c write) m (dma_fill_keeps (ph := ph) (block + k) c write) HM) as (HMf & Hbf & _).
  assert (hba_command ph (clb_regs (ph := ph)) (with_cmd (dma_fill ph (block + k) c write) m) 0 = sector_cmd k c) as Hcmd.
  { apply hba_command_dma; [done|done|unfold u_range; lia|lia]. }
  apply wp_bind, wp_on_port. pose proof (ata_stop_spec fuel _ _ _ _ HR Hfuel) as Hs. rewrite Hcmd in Hs.
  eapply wp_mono; [exact Hs|]. intros r s' (p & m' & d' & Hp & HP & [[-> He]|[-> He]]).
  - destruct (stored_step k c d b _ m' d' Hk Hc Hkc HMf Hst ltac:(unfold loaded in *; by rewrite Hbf) He) as [Hst' HM'].
    apply wp_gets. cbn [da_port set_port].
    replace s'.1 with m' by (by destruct HP). 
    assert (copy_back m' k c (kind b) = kind (copied k c m' b)) as -> by (unfold copied; by destruct write).
    eapply wp_mono; [eapply (request_next_spec (k + c)); [lia|exact Hst'|]|].
    + split; [done|]. by exists p, m'.
    + intros [[o b']|?|] D' Ho; [|done..]. destruct Ho as [-> [[-> HI]|(-> & Hf & HD')]].
      * left. eexists _, _, _. split_and!; [done|exact HI|].
        rewrite <- (Nat.add_0_r (_ * _)%nat). apply pot_next; [lia|lia|lia|by eapply InFlight_work].
      * right. left. by eexists _, _.
  - destruct (failed_within k c d b _ m' d' Hk Hc Hkc HMf Hst He) as [Hw HM'].
    right. right. split; [done|]. exists d'. split; [done|]. split; [done|]. by exists p, m'.
Qed.

Lemma Polled_mono n n' r D : Polled n r D → (n <= n')%nat → Polled n' r D.
Proof. intros [(b & k & d & H1 & H2 & H3)|H] Hn; [left; exists b, k, d; split_and!; [done|done|lia]|by right]. Qed.

Lemma request_inflight k d b D : InFlight k d b D → wp (request ph fuel block address (kind b)) (Polled (pot k D)) D.
Proof.
  intros HI. pose proof HI as (m & c & Hk & Hc & Hkc & Hst & Hld & HM & HR & Hro). unfold request.
  rewrite (proj1 (kind_fields b)), (kind_length k d b) by (done || lia).
  apply wp_gets, wp_modify.
  rewrite Hro. cbn [rq_address rq_total_sectors rq_running_opt rq_sector]. rewrite !Z.eqb_refl. cbn [andb].
  apply wp_bind, wp_on_port. eapply wp_mono; [by apply ata_running_spec|]. intros [[|]|?|] s' H; [| |done..].
  - destruct H as [HR' Hw]. cbn [da_port set_request_opt] in Hw. left. exists b, k, d. split_and!; [by destruct write| |unfold pot; cbn [da_port set_request_opt set_port]; apply Nat.add_lt_mono_l; exact Hw].
    exists m, c. split_and!; done || lia.
  - pose proof (finish_part k c d b m (set_port s' (set_request_opt None D)) Hk Hc Hkc Hst Hld HM eq_refl (or_intror H)) as Hfp.
    eapply wp_mono; [exact Hfp|]. intros r D' HP. eapply Polled_mono; [exact HP|]. unfold pot. lia.
Qed.

(** How the loop ends. *)
Definition Transferred (r : res errno (Z * list Z)) (D' : DiskATA W) : Prop :=
  (∃ b' d', r = Ok (total * 512, b') ∧ stored total d' b' ∧ DiskAt d' D') ∨
  (r = Err EIO ∧ ∃ d', within d' ∧ DiskAt d' D').

Lemma kind_with b b' : with_buffer (kind b) b' = kind b'.
Proof. by destruct write. Qed.

Lemma loop_step polls b D n :
  wp (request ph fuel block address (kind b)) (Polled n) D →
  (∀ k d b D, InFlight k d b D → (pot k D < polls)%nat →
     wp (request_loop ph fuel polls block address (kind b)) Transferred D) →
  (n <= polls)%nat → wp (request_loop ph fuel (S polls) block address (kind b)) Transferred D.
Proof.
  intros Hreq IH Hn. cbn [request_loop]. apply wp_bind. eapply wp_mono; [exact Hreq|].
  intros r D' [(b' & k' & d' & -> & HI & Hp)|[(b' & d' & -> & Hst & HD)|(-> & d' & Hw & HD)]].
  - rewrite kind_with. apply (IH k' d'); [done|lia].
  - left. by exists b', d'.
  - right. split; [done|]. by exists d'.
Qed.

Lemma loop_inflight polls k d b D :
  InFlight k d b D → (pot k D < polls)%nat →
  wp (request_loop ph fuel polls block address (kind b)) Transferred D.
Proof.
  revert k d b D. induction polls as [|polls IH]; intros k d b D HI Hp; [lia|].
  eapply loop_step; [by eapply request_inflight|exact IH|lia].
Qed.

Lemma transfer_spec polls D :
  DiskAt d0 D → (Z.to_nat total * (al_bound (ph := ph) + 2) + al_bound (ph := ph) + 2 <= polls)%nat →
  wp (request_loop ph fuel polls block address (kind buf0)) Transferred D.
Proof.
  intros HD Hp. destruct polls as [|polls]; [lia|].
  eapply (loop_step _ _ _ (Z.to_nat total * (al_bound (ph := ph) + 2) + al_bound (ph := ph) + 1)); [|by intros; eapply loop_inflight|lia].
  unfold request. rewrite (proj1 (kind_fields buf0)), <- Hsectors. destruct HD as [Hro HD].
  apply wp_gets, wp_modify. rewrite Hro.
  eapply wp_mono; [eapply (request_next_spec 0 d0 buf0); [lia|apply stored_0|by split]|].
  intros [[o b']|?|] D' Ho; [|done..]. destruct Ho as [-> [[-> HI]|(-> & Hf & HD')]].
  - left. exists buf0, 0, d0. split_and!; [done|done|]. pose proof (InFlight_work _ _ _ _ HI). unfold pot.
    rewrite Z.sub_0_r. lia.
  - right. left. by exists buf0, d0.
Qed.

End transfer.

(** ** A drive is an array of bytes *)

Inductive AtaOp : Type := AtaRead (block address : Z) (buffer : list Z) | AtaWrite (block address : Z) (buffer : list Z).

Definition op_block (o : AtaOp) : Z := match o with AtaRead b _ _ | AtaWrite b _ _ => b end.
Definition op_address (o : AtaOp) : Z := match o with AtaRead _ a _ | AtaWrite _ a _ => a end.
Definition op_buffer (o : AtaOp) : list Z := match o with AtaRead _ _ b | AtaWrite _ _ b => b end.
Definition op_write (o : AtaOp) : bool := match o with AtaRead _ _ _ => false | AtaWrite _ _ _ => true end.
Definition op_sectors (o : AtaOp) : Z := Z.of_nat (length (op_buffer o)) / 512.

(** The operation is inside a drive of [n] bytes. *)
Definition op_in (n : Z) (o : AtaOp) : Prop :=
  0 <= op_block o ∧ (op_block o + op_sectors o) * 512 <= n ∧ op_block o + op_sectors o <= 2 ^ 48.

(** What an operation answers (the count and the buffer), and what it leaves: all whole
    sectors of the buffer, or [EIO]. *)
Inductive array_op (d : list Z) : AtaOp → res errno (option Z * list Z) → list Z → Prop :=
| ao_read block address buf n :
    n = Z.of_nat (length buf) / 512 * 512 →
    array_op d (AtaRead block address buf)
      (Ok (Some n, slice (Z.to_nat (block * 512)) (Z.to_nat n) d ++ drop (Z.to_nat n) buf)) d
| ao_write block address buf n :
    n = Z.of_nat (length buf) / 512 * 512 →
    array_op d (AtaWrite block address buf) (Ok (Some n, buf))
      (splice (Z.to_nat (block * 512)) (take (Z.to_nat n) buf) d)
| ao_read_error block address buf : array_op d (AtaRead block address buf) (Err EIO) d
| ao_write_error block address buf x :
    Z.of_nat (length x) = Z.of_nat (length buf) / 512 * 512 →
    array_op d (AtaWrite block address buf) (Err EIO) (splice (Z.to_nat (block * 512)) x d).

Inductive array_run : list Z → list AtaOp → list (res errno (option Z * list Z)) → list Z → Prop :=
| ar_nil d : array_run d [] [] d
| ar_cons d o r d1 os rs d2 : array_op d o r d1 → array_run d1 os rs d2 → array_run d (o :: os) (r :: rs) d2.

Section ata_theorem.
Context {W : Type} `{HL : AhciLaws W ph} `{HDef : !AhciDeferred W} (fuel polls : nat).

Definition run_ata_op (o : AtaOp) : prog (DiskATA W) errno (option Z * list Z) :=
  match o with
  | AtaRead block address buf => ata_read ph fuel polls block address buf
  | AtaWrite block address buf => n ← ata_write ph fuel polls block address buf; mret (n, buf)
  end.

Fixpoint run_ops (os : list AtaOp) (D : DiskATA W) : list (res errno (option Z * list Z)) * DiskATA W :=
  match os with
  | [] => ([], D)
  | o :: os => let '(r, D) := run_ata_op o D in let '(rs, D) := run_ops os D in (r :: rs, D)
  end.

Definition enough_polls (o : AtaOp) : Prop :=
  (Z.to_nat (op_sectors o) * (al_bound (ph := ph) + 2) + al_bound (ph := ph) + 2 <= polls)%nat.

Lemma stored_all write block buf d d' b' :
  0 <= block → (block + Z.of_nat (length buf) / 512) * 512 <= Z.of_nat (length d) →
  stored write buf d block (Z.of_nat (length buf) / 512) d' b' →
  let n := Z.to_nat (Z.of_nat (length buf) / 512 * 512) in
  if write then d' = splice (Z.to_nat (block * 512)) (take n buf) d ∧ b' = buf
  else d' = d ∧ b' = slice (Z.to_nat (block * 512)) n d ++ drop n buf.
Proof.
  intros Hb Hr. unfold stored. destruct write; [done|]. intros [-> ->]. split; [done|]. unfold splice.
  set (q := Z.of_nat (length buf) / 512) in *. assert (0 <= q) by (unfold q; zdiv).
  rewrite take_0, length_slice by lia. done.
Qed.

(** Operations one after the other. *)
Lemma run_op_spec o d D :
  (al_bound (ph := ph) < fuel)%nat → phys_ok (ph := ph) → DiskAt (ph := ph) d D → op_in (Z.of_nat (length d)) o → enough_polls o →
  ∃ d', array_op d o (run_ata_op o D).1 d' ∧ DiskAt (ph := ph) d' (run_ata_op o D).2 ∧ length d' = length d.
Proof.
  intros Hf HK HD (Hb & Hr & H48) Hp. set (total := op_sectors o) in *.
  assert (0 <= total ∧ total * 512 <= Z.of_nat (length (op_buffer o))) as [Ht Hl] by (unfold total, op_sectors; zdiv).
  pose proof (transfer_spec (op_write o) (op_buffer o) d (op_block o) total Hb Ht Hl Hr (op_address o) fuel Hf HK H48
                eq_refl polls D HD Hp) as HT.
  unfold run_ata_op. destruct o as [block address buf|block address buf];
    cbn [op_write op_buffer op_block op_address op_sectors] in *; unfold ata_read, ata_write, mbind, prog_bind, p_bind;
    unfold wp in HT; destruct (request_loop ph fuel polls block address _ D) as [r D'];
    cbn [fst snd] in HT; destruct HT as [(b' & d' & -> & Hst & HD')|(-> & d' & Hw & HD')].
  - destruct (stored_all false block buf d d' b' Hb Hr Hst) as [-> ->]. exists d. split_and!; [by constructor|done|done].
  - exists d'. cbn in Hw. subst d'. split_and!; [by constructor|done|done].
  - destruct (stored_all true block buf d d' b' Hb Hr Hst) as [-> ->].
    eexists. split_and!; [by constructor|done|]. apply length_splice. rewrite length_take.
    change (Z.of_nat (length buf) / 512) with total. lia.
  - destruct Hw as (x & Hx & ->). eexists. split_and!; [constructor|done|apply length_splice; lia].
    change (Z.of_nat (length buf) / 512) with total. lia.
Qed.

Lemma run_ops_spec os d D :
  (al_bound (ph := ph) < fuel)%nat → phys_ok (ph := ph) → DiskAt (ph := ph) d D →
  Forall (op_in (Z.of_nat (length d))) os → Forall enough_polls os →
  ∃ d', array_run d os (run_ops os D).1 d' ∧ DiskAt (ph := ph) d' (run_ops os D).2.
Proof.
  intros Hf HK HD Ho Hp. revert d D HD Ho. induction os as [|o os IH]; intros d D HD Ho; [exists d; by split; [constructor|]|].
  apply Forall_cons in Ho as [Ho Hos]. apply Forall_cons in Hp as [Hp Hps].
  destruct (run_op_spec o d D Hf HK HD Ho Hp) as (d1 & A1 & D1 & L1). cbn [run_ops].
  destruct (run_ata_op o D) as [r D']. cbn [fst snd] in *. rewrite <- L1 in Hos.
  destruct (IH Hps d1 D' D1 Hos) as (d2 & A2 & D2). destruct (run_ops os D') as [rs D'']. cbn [fst snd] in *.
  exists d2. split; [by econstructor|done].
Qed.

Lemma ata_new_spec id w :
  (al_bound (ph := ph) < fuel)%nat → phys_ok (ph := ph) → al_phase (ph := ph) w = PhIdle →
  Z.of_nat (length (al_disk (ph := ph) w)) < 2 ^ 63 →
  ∃ D, ata_new ph fuel id w = Ok D ∧ DiskAt (ph := ph) (al_disk (ph := ph) w) D ∧
    (da_size D = Z.of_nat (length (al_disk (ph := ph) w)) ∨ da_size D = 0).
Proof.
  intros Hf HK Hi Hd. unfold ata_new.
  assert (Port (ph := ph) PhIdle zero_mem (al_disk (ph := ph) w) (al_clb (ph := ph) w) (al_st (ph := ph) w) (zero_mem, w)) as HP
    by (by constructor).
  assert (mem_ok (ph := ph) (set_clb (imap (point_header ph) (am_clb zero_mem)) zero_mem)) as HM.
  { apply init_mem_ok; [done|done|]. cbn [am_buf zero_mem]. rewrite length_replicate. lia. }
  assert (wp (_ ← port_init ph fuel; identify ph fuel) (ok_then (λ o s',
    (o = Some (Z.of_nat (length (al_disk (ph := ph) w))) ∨ o = None) ∧ ∃ p' m', at_rest p' ∧ mem_ok (ph := ph) m' ∧
    Port (ph := ph) p' m' (al_disk (ph := ph) w) (clb_regs (ph := ph)) false s')) (zero_mem, w)) as H.
  { eapply wp_seq; [eapply port_init_spec; [exact HP|lia]|]. intros [] s1 HP1. cbn beta in HP1.
    eapply identify_spec; [exact HP1|done|exact HM|done|done|done]. }
  unfold wp in H. destruct ((_ ← port_init ph fuel; identify ph fuel) (zero_mem, w)) as [[o|?|] s']; [|done..].
  destruct H as [Ho (p' & m' & Hp' & HM' & HP')]. eexists. split; [reflexivity|]. split.
  - split; [done|]. by exists p', m'.
  - cbn. destruct Ho as [-> | ->]; [by left|by right].
Qed.
End ata_theorem.


(** ** ATAPI drives *)

Definition SCSI_READ_CAPACITY : Z := 0x25.
Definition SCSI_READ10 : Z := 0x28.

(** [AeOutOfBounds] is a copy past the end of the caller's buffer, which the code does
    not notice. *)
Inductive AtapiErr : Type := AeErrno (e : errno) | AeOutOfBounds.

Definition read10_cmd (block count : Z) : list Z := [SCSI_READ10; 0] ++ be_bytes 4 block ++ [0] ++ be_bytes 2 count ++ replicate 7 0.

Section atapi.
(** The port and its packet commands; the transfer buffer. *)
Context {P : Type} (dma : list Z → Z → prog P errno unit) (buf : P → list Z).

Abbreviation pp := (prog P AtapiErr).

Definition lift_dma (cmd : list Z) (size : Z) : pp unit := λ p,
  match dma cmd size p with
  | (Ok tt, p) => (Ok tt, p)
  | (Err e, p) => (Err (AeErrno e), p)
  | (Panic, p) => (Panic, p)
  end.

Definition atapi_read_capacity : pp (Z * Z) :=
  _ ← lift_dma (SCSI_READ_CAPACITY :: replicate 15 0) 8;
  b ← gets buf;
  mret (as_u32 (be_val (slice 0 4 b) + 1), be_val (slice 4 4 b)).

(** [size] answers 0 when the capacity is not known. *)
Definition atapi_size : prog P AtapiErr Z :=
  r ← attempt atapi_read_capacity;
  mret (match r with inr (blk_count, blk_size) => as_u64 (blk_count * blk_size) | inl _ => 0 end).

Definition atapi_block_length : pp Z := '(_, blk_size) ← atapi_read_capacity; mret blk_size.

(** The first [n] bytes of the transfer buffer to offset [off] of the caller's. *)
Definition copy_out (off n : Z) (buffer : list Z) : pp (list Z) :=
  if off + n <=? Z.of_nat (length buffer) then b ← gets buf; mret (splice (Z.to_nat off) (take (Z.to_nat n) b) buffer)
  else throw AeOutOfBounds.

(** [while sectors - sector >= buf_len]; subtractions wrap. *)
Fixpoint atapi_chunks (fuel : nat) (block blk_len sectors sector : Z) (buffer : list Z) : pp (Z * list Z) :=
  let buf_len := 256 * 512 / blk_len in
  let buf_size := buf_len * blk_len in
  match fuel with
  | O => throw (AeErrno ETIMEDOUT)
  | S fuel =>
      if buf_len <=? as_u32 (sectors - sector) then
        _ ← lift_dma (read10_cmd (as_u32 (as_u32 block + sector)) (as_u16 buf_len)) buf_size;
        buffer ← copy_out (sector * blk_len) buf_size buffer;
        atapi_chunks fuel block blk_len sectors (as_u32 (sector + blk_len)) buffer
      else mret (sector, buffer)
  end.

Definition atapi_read (fuel : nat) (block : Z) (buffer : list Z) : pp (option Z * list Z) :=
  blk_len ← atapi_block_length;
  if blk_len =? 0 then panic
  else
    let sectors := as_u32 (Z.of_nat (length buffer)) / blk_len in
    '(sector, buffer) ← atapi_chunks fuel block blk_len sectors 0 buffer;
    if sector <? sectors then
      _ ← lift_dma (read10_cmd (as_u32 (as_u32 block + sector)) (as_u16 (sectors - sector))) (256 * 512 / blk_len * blk_len);
      buffer ← copy_out (sector * blk_len) (as_u32 ((sectors - sector) * blk_len)) buffer;
      mret (Some (as_u32 (sectors * blk_len)), buffer)
    else mret (Some (as_u32 (sector * blk_len)), buffer).

Definition atapi_write (block : Z) (buffer : list Z) : pp (option Z) := throw (AeErrno EBADF).

End atapi.

(** A drive of [n] blocks of 2048 bytes: what the two commands put into the buffer. *)
Record CdLaws {P : Type} (dma : list Z → Z → prog P errno unit) (buf : P → list Z) (bytes : list Z) : Prop := {
  cd_blocks : ∃ n, 0 < n < 2 ^ 31 ∧ Z.of_nat (length bytes) = n * 2048;
  cd_capacity p : ∃ p', dma (SCSI_READ_CAPACITY :: replicate 15 0) 8 p = (Ok tt, p') ∧
    slice 0 8 (buf p') = be_bytes 4 (Z.of_nat (length bytes) / 2048 - 1) ++ be_bytes 4 2048;
  cd_read p block count size : 0 <= block → 0 < count → count * 2048 <= size → size <= 131072 →
    (block + count) * 2048 <= Z.of_nat (length bytes) →
    ∃ p', dma (read10_cmd block count) size p = (Ok tt, p') ∧
      take (Z.to_nat (count * 2048)) (buf p') = slice (Z.to_nat (block * 2048)) (Z.to_nat (count * 2048)) bytes;
  cd_other p block count size : ∃ p', dma (read10_cmd block count) size p = (Ok tt, p');
}.

Section cd.
Context {P : Type} (dma : list Z → Z → prog P errno unit) (buf : P → list Z) (bytes : list Z) (HC : CdLaws dma buf bytes).

Lemma cd_block_length p : ∃ p', atapi_block_length dma buf p = (Ok 2048, p').
Proof.
  destruct (cd_capacity _ _ _ HC p) as (p' & E & Hb). exists p'.
  unfold atapi_block_length, atapi_read_capacity, lift_dma, mbind, prog_bind, p_bind, gets. rewrite E. cbn -[be_val slice be_bytes].
  f_equal. f_equal. assert (slice 4 4 (buf p') = slice 4 4 (slice 0 8 (buf p'))) as ->.
  { rewrite slice_slice by lia. done. }
  rewrite Hb. unfold slice. rewrite drop_app_length' by (by rewrite length_be_bytes). by vm_compute.
Qed.

(** Below 64 blocks a read is one command. *)
Lemma small_cd_read fuel p block buffer :
  0 <= block < 2 ^ 32 → 2048 <= Z.of_nat (length buffer) < 131072 →
  (block + Z.of_nat (length buffer) / 2048) * 2048 <= Z.of_nat (length bytes) → (0 < fuel)%nat →
  ∃ p', let n := Z.of_nat (length buffer) / 2048 * 2048 in
    atapi_read dma buf fuel block buffer p =
    (Ok (Some n, slice (Z.to_nat (block * 2048)) (Z.to_nat n) bytes ++ drop (Z.to_nat n) buffer), p').
Proof.
  intros Hb Hl Hr Hf. unfold atapi_read. destruct (cd_block_length p) as [p1 E1].
  unfold mbind, prog_bind. rewrite (bind_Ok _ _ _ _ _ E1). cbn [Z.eqb].
  assert (∀ x, 0 <= x < 2 ^ 32 → as_u32 x = x) as Hu by (intros; by apply as_u_id).
  rewrite (Hu (Z.of_nat (length buffer))) by lia. set (q := Z.of_nat (length buffer) / 2048) in *.
  assert (0 < q < 64 ∧ q * 2048 <= Z.of_nat (length buffer)) as [Hq Hql] by (unfold q; zdiv).
  destruct fuel as [|fuel]; [lia|]. cbn [atapi_chunks]. change (256 * 512 / 2048) with 64.
  rewrite Z.sub_0_r, (Hu q) by lia. rewrite (proj2 (Z.leb_gt 64 q)) by lia.
  unfold p_bind at 1. cbn [p_ret mret prog_ret]. rewrite (proj2 (Z.ltb_lt 0 q)) by lia.
  rewrite Z.sub_0_r, Z.add_0_r, !(Hu block) by lia. rewrite (Hu (q * 2048)) by lia.
  unfold as_u16. rewrite (as_u_id 16) by (unfold u_range; lia).
  destruct (cd_read _ _ _ HC p1 block q (64 * 2048)) as (p2 & E2 & Hd); [lia..|].
  exists p2. cbv zeta. unfold p_bind at 1, lift_dma. rewrite E2. unfold copy_out.
  rewrite (proj2 (Z.leb_le _ _)) by lia. unfold p_bind, gets, mret, prog_ret, p_ret, mbind, prog_bind. cbn.
  do 3 f_equal. unfold splice. cbn [Z.to_nat Z.mul]. rewrite take_0, Hd, length_slice by lia. done.
Qed.

Lemma large_cd_read fuel p block buffer :
  131072 <= Z.of_nat (length buffer) < 2048 * 2048 → (1 < fuel)%nat →
  ∃ p', atapi_read dma buf fuel block buffer p = (Err AeOutOfBounds, p').
Proof.
  intros Hl Hf. unfold atapi_read. destruct (cd_block_length p) as [p1 E1].
  unfold mbind, prog_bind. rewrite (bind_Ok _ _ _ _ _ E1). cbn [Z.eqb].
  assert (∀ x, 0 <= x < 2 ^ 32 → as_u32 x = x) as Hu by (intros; by apply as_u_id).
  rewrite (Hu (Z.of_nat (length buffer))) by lia. set (q := Z.of_nat (length buffer) / 2048) in *.
  assert (64 <= q < 2048) as Hq by (unfold q; zdiv).
  destruct fuel as [|[|fuel]]; [lia..|].
  destruct (cd_other _ _ _ HC p1 (as_u32 (as_u32 block + 0)) (as_u16 64) (64 * 2048)) as (p2 & E2).
  destruct (cd_other _ _ _ HC p2 (as_u32 (as_u32 block + 2048)) (as_u16 64) (64 * 2048)) as (p3 & E3).
  exists p3. apply bind_Err. cbn [atapi_chunks]. change (256 * 512 / 2048) with 64. rewrite Z.sub_0_r, (Hu q) by lia.
  rewrite (proj2 (Z.leb_le 64 q)) by lia. unfold mbind, prog_bind. unfold p_bind at 1, lift_dma at 1. rewrite E2.
  unfold p_bind at 1, copy_out at 1. rewrite (proj2 (Z.leb_le _ _)) by lia.
  unfold mbind, prog_bind, p_bind at 1, gets. cbn [mret prog_ret p_ret].
  change (as_u32 (0 + 2048)) with 2048.
  assert (as_u32 (q - 2048) = q - 2048 + 2 ^ 32) as ->.
  { unfold as_u32, as_u. symmetry. apply (Z.mod_unique_pos _ _ (-1)); lia. }
  rewrite (proj2 (Z.leb_le 64 _)) by lia. unfold p_bind at 1, lift_dma. rewrite E3.
  unfold p_bind at 1, copy_out. rewrite length_splice by (rewrite length_take; lia).
  rewrite (proj2 (Z.leb_gt _ _)) by lia. done.
Qed.

End cd.

(** A read of 64 or more blocks from an ATAPI drive with blocks of 2048 bytes, of
    which every command succeeds, copies past the end of the caller's buffer: the loop
    advances by the length of a block instead of the number of blocks it has read, and
    the number of blocks left wraps around. *)
Theorem atapi_large_read_overflows {P : Type} dma (buf : P → list Z) bytes fuel p block buffer :
  CdLaws dma buf bytes → 131072 <= Z.of_nat (length buffer) < 2048 * 2048 → (1 < fuel)%nat →
  (atapi_read dma buf fuel block buffer p).1 = Err AeOutOfBounds.
Proof. intros HC Hl Hf. destruct (large_cd_read dma buf bytes HC fuel p block buffer Hl Hf) as [p' ->]. done. Qed.

(** ** A drive in memory *)

(** The packet commands of a drive of [bytes]; the state is the transfer buffer. *)
Definition cd_dma (bytes cmd : list Z) (size : Z) : prog (list Z) errno unit := λ b,
  if bool_decide (take 1 cmd = [SCSI_READ10]) then
    let block := be_val (slice 2 4 cmd) in
    let count := be_val (slice 7 2 cmd) in
    (Ok tt, slice (Z.to_nat (block * 2048)) (Z.to_nat (count * 2048)) bytes)
  else (Ok tt, be_bytes 4 (Z.of_nat (length bytes) / 2048 - 1) ++ be_bytes 4 2048).

Lemma cd_dma_laws bytes n : 0 < n < 2 ^ 16 → Z.of_nat (length bytes) = n * 2048 → CdLaws (cd_dma bytes) id bytes.
Proof.
  intros Hn Hl. split.
  - exists n. lia.
  - intros p. eexists. split; [reflexivity|]. apply take_ge. rewrite length_app, !length_be_bytes. lia.
  - intros p block count size Hb Hc Hs Hs2 Hr. eexists. split; [reflexivity|]. unfold id.
    assert (slice 2 4 (read10_cmd block count) = be_bytes 4 block) as ->.
    { unfold read10_cmd, slice. cbn [app]. rewrite !skipn_cons, drop_0. by rewrite take_app_length' by (by rewrite length_be_bytes). }
    assert (slice 7 2 (read10_cmd block count) = be_bytes 2 count) as ->.
    { unfold read10_cmd, slice. cbn [app]. rewrite skipn_cons, skipn_cons, cons_middle, app_assoc.
      rewrite drop_app_length' by (rewrite length_app, length_be_bytes; done).
      by rewrite take_app_length' by (by rewrite length_be_bytes). }
    rewrite !be_val_bytes by (unfold u_range; cbn; lia). unfold slice. by rewrite take_take, Nat.min_id.
  - intros p block count size. by eexists.
Qed.

Lemma atapi_large_read_overflows_witness :
  (atapi_read (cd_dma (replicate (Z.to_nat (4096 * 2048)) 7)) id 2 0 (replicate (Z.to_nat (64 * 2048)) 0) []).1 = Err AeOutOfBounds.
Proof.
  apply (atapi_large_read_overflows _ _ (replicate (Z.to_nat (4096 * 2048)) 7)).
  - apply (cd_dma_laws _ 4096); rewrite ?length_replicate; lia.
  - rewrite length_replicate. lia.
  - lia.
Defined.

(** ** A controller in memory *)

(** A port that finishes a command at the second read after its start, and refuses what
    is outside of the drive. *)
Record ToyHba := mk_toy_hba { tb_phase : PortPhase; tb_disk : list Z; tb_clb : Z * Z; tb_st : bool }.

Definition toy_words (sectors : Z) : list Z := <[100%nat := sectors]> (replicate 256 0).

Definition toy_fits (c : HbaCmd) (d : list Z) : bool :=
  match c with
  | HcRead lba n | HcWrite lba n => (lba + n) * 512 <=? Z.of_nat (length d)
  | HcIdentify =>
      let n := Z.of_nat (length d) / 512 in (0 <? n) && (n <? 2 ^ 16) && (n * 512 =? Z.of_nat (length d))
  | HcOther => true
  end.

Definition hba_exec (c : HbaCmd) (m : AhciMem) (d : list Z) : AhciMem * list Z :=
  match c with
  | HcRead lba n => (set_buf (splice 0 (slice (Z.to_nat (lba * 512)) (Z.to_nat (n * 512)) d) (am_buf m)) m, d)
  | HcWrite lba n => (m, splice (Z.to_nat (lba * 512)) (take (Z.to_nat (n * 512)) (am_buf m)) d)
  | HcIdentify => (set_dest (toy_words (Z.of_nat (length d) / 512)) m, d)
  | HcOther => (m, d)
  end.

Section toy.
Context (ph : AhciPhys).

Definition toy_step (s : AhciMem * ToyHba) : AhciMem * ToyHba :=
  let '(m, w) := s in
  match tb_phase w with
  | PhBusy slot (S n) => (m, mk_toy_hba (PhBusy slot 0) (tb_disk w) (tb_clb w) (tb_st w))
  | PhBusy slot O =>
      let c := hba_command ph (tb_clb w) m (Z.to_nat slot) in
      if toy_fits c (tb_disk w) then
        let '(m', d') := hba_exec c m (tb_disk w) in (m', mk_toy_hba (PhDone slot true) d' (tb_clb w) (tb_st w))
      else (m, mk_toy_hba (PhDone slot false) (tb_disk w) (tb_clb w) (tb_st w))
  | _ => s
  end.

Definition toy_value (r : PReg) (w : ToyHba) : Z :=
  match r, tb_phase w with
  | PCi, PhBusy slot _ => 2 ^ slot
  | PIs, PhDone _ false => 2 ^ 30
  | PCmd, _ => of_bool (tb_st w)
  | _, _ => 0
  end.

Definition toy_write (r : PReg) (v : Z) (w : ToyHba) : ToyHba :=
  let p := tb_phase w in
  match r with
  | PIs => mk_toy_hba (match p with PhIdle | PhDone _ _ => PhIdle | _ => p end) (tb_disk w) (tb_clb w) (tb_st w)
  | PCi => mk_toy_hba (match p with PhIdle => if 0 <? v then if tb_st w then PhBusy (Z.log2 v) 1 else PhIssued (Z.log2 v) else p | _ => p end)
             (tb_disk w) (tb_clb w) (tb_st w)
  | PCmd => mk_toy_hba (match p with PhIssued slot => if Z.testbit v 0 then PhBusy slot 1 else p | _ => p end)
              (tb_disk w) (tb_clb w) (Z.testbit v 0)
  | PClb false => mk_toy_hba p (tb_disk w) (v, (tb_clb w).2) (tb_st w)
  | PClb true => mk_toy_hba p (tb_disk w) ((tb_clb w).1, v) (tb_st w)
  | _ => w
  end.

#[local] Instance toy_io : Io (AhciMem * ToyHba) PReg := {|
  io_width := 32;
  io_read r s := let s := toy_step s in (toy_value r s.2, s);
  io_write r v s := (s.1, toy_write r v s.2);
|}.

(** The phase, with the delay cut to what the port does. *)
Definition toy_phase (w : ToyHba) : PortPhase :=
  match tb_phase w with PhBusy slot n => PhBusy slot (n `min` 1) | p => p end.

Lemma toy_exec_ok c m d : toy_fits c d = true → let '(m', d') := hba_exec c m d in executed c m d m' d'.
Proof.
  unfold toy_fits, hba_exec, executed. destruct c as [lba n|lba n| |]; [done..| |done]. intros [[H1 H2]%andb_prop H3]%andb_prop.
  apply Z.ltb_lt in H1, H2. apply Z.eqb_eq in H3. split; [done|]. eexists. split; [done|].
  unfold toy_words, ident_ok. rewrite length_insert. split_and!; [by rewrite length_replicate| |lia|].
  - apply Forall_insert; [|unfold u_range; lia]. apply Forall_replicate. unfold u_range; lia.
  - rewrite list_lookup_insert_eq by (rewrite length_replicate; lia). rewrite !list_lookup_insert_ne by lia.
    rewrite !lookup_replicate_2 by lia. cbn [default from_option]. unfold id. lia.
Qed.

Lemma toy_exec_failed c m d : toy_fits c d = false → failed c m d m d.
Proof.
  destruct m as [clb ctbas buf dest], c as [lba n|lba n| |]; cbn; [|intros ?%Z.leb_gt; lia| |done].
  - intros _. split; [done|]. by exists buf.
  - intros _. split; [done|]. by exists dest.
Qed.

Lemma toy_step_spec m w m' w' :
  toy_step (m, w) = (m', w') →
  tb_clb w' = tb_clb w ∧ tb_st w' = tb_st w ∧
  hba_read_step ph (tb_clb w) (toy_phase w, m, tb_disk w) (toy_phase w', m', tb_disk w').
Proof.
  unfold toy_step, toy_phase. destruct w as [p d clb st]. cbn [tb_phase tb_disk tb_clb tb_st].
  destruct p as [|slot|slot [|n]|slot ok]; try (intros [= <- <-]; split_and!; [done..|by apply rs_quiet]).
  - destruct (toy_fits (hba_command ph clb m (Z.to_nat slot)) d) eqn:Ef.
    + pose proof (toy_exec_ok _ m d Ef) as He. destruct (hba_exec _ m d) as [m1 d1]. intros [= <- <-].
      split_and!; [done..|]. by apply rs_end.
    + intros [= <- <-]. split_and!; [done..|]. apply rs_end. by apply toy_exec_failed.
  - intros [= <- <-]. split_and!; [done..|]. cbn. apply rs_work. lia.
Qed.

Lemma toy_value_ok r w : reg_value r (toy_value r w) (toy_phase w).
Proof.
  unfold toy_value, toy_phase. destruct w as [p d clb st]. cbn [tb_phase tb_st].
  destruct r, p as [|slot|slot n|slot [|]]; cbn [reg_value]; try done; try apply Z.testbit_0_l.
  intros Hs. by apply Z.pow2_bits_true.
Qed.

#[local] Instance toy_hba_laws : AhciLaws ToyHba ph.
Proof.
  refine {| al_phase := toy_phase; al_disk := tb_disk; al_clb := tb_clb; al_st := tb_st; al_cr := λ _, 0%nat; al_bound := 2 |}.
  - done.
  - lia.
  - intros w slot n. unfold toy_phase. destruct (tb_phase w); intros [= <- <-]. lia.
  - intros r m w v m' w' E. change (io_read r (m, w)) with (toy_value r (toy_step (m, w)).2, toy_step (m, w)) in E.
    destruct (toy_step (m, w)) as [m1 w1] eqn:Es. injection E as <- <- <-.
    destruct (toy_step_spec _ _ _ _ Es) as (H1 & H2 & H3). split_and!; [done|done|lia|done|apply toy_value_ok|].
    intros ->. unfold toy_value. cbn [snd]. rewrite <- H2. destruct w1 as [p ? ? st]; cbn [tb_phase tb_st]. by destruct p, st.
  - intros r v m w m' w' E. cbn in E. injection E as <- <-. destruct w as [p d clb st].
    destruct r as [[]|[]| | | | | | | | | | | |]; cbn; split_and!; try done; unfold toy_phase; cbn [tb_phase].
    all: try (by intros ->). all: try (by destruct p).
    intros -> Hp slot Hs ->. destruct p; simplify_eq.
    rewrite (proj2 (Z.ltb_lt 0 _)) by (apply Z.pow_pos_nonneg; lia). rewrite Z.log2_pow2 by lia. by exists 1%nat.
Defined.

#[local] Instance toy_hba_deferred : AhciDeferred ToyHba.
Proof.
  split. intros r v m w m' w' E. cbn in E. injection E as <- <-. destruct w as [p d clb st].
  destruct r as [[]|[]| | | | | | | | | | | |]; cbn; try done; unfold toy_phase; cbn [tb_phase tb_st].
  - intros slot Hp Hv. destruct p; simplify_eq. rewrite Hv. by exists 1%nat.
  - intros -> Hp slot Hs ->. destruct p; simplify_eq.
    rewrite (proj2 (Z.ltb_lt 0 _)) by (apply Z.pow_pos_nonneg; lia). by rewrite Z.log2_pow2 by lia.
Defined.
End toy.

Definition demo_phys : AhciPhys := mk_ahci_phys 0x1000 (λ i, 0x100000 + 0x100000 * Z.of_nat i) 0x2000 0x3000 0x4000.

Definition demo_hba : ToyHba := mk_toy_hba PhIdle (replicate 2048 7) (0, 0) true.

(** Write the second sector of a drive of four, then read the whole drive. *)
Definition demo_ops : list AtaOp := [AtaWrite 1 0x8000 (replicate 512 9); AtaRead 0 0x9000 (replicate 2048 0)].


(** The same run evaluated: the write and the read succeed, and the read returns what
    was written between what was there. *)
Lemma demo_run :
  match ata_new (HIo := toy_io demo_phys) demo_phys 3 0 demo_hba with
  | Ok D => (da_size D, (run_ops (HIo := toy_io demo_phys) (ph := demo_phys) 3 20 demo_ops D).1) =
      (2048, [Ok (Some 512, replicate 512 9);
              Ok (Some 2048, replicate 512 7 ++ replicate 512 9 ++ replicate 1024 7)])
  | _ => False
  end.
Proof. by vm_compute. Qed.
