(* ===== verification/DiskScheme.v ===== *)
(** The disk scheme with partitions (storage/ahcid/src/scheme.rs; the schemes of ided and
    bcm2835-sdhcid have the same methods).

    A disk is an instance of [SchemeDisk], the trait [Disk]; the partition table is what
    partitionlib found.  Paths are ASCII.  [ArrayDisk] is what a disk promises, and the
    client theorems are stated against it. *)

From Stdlib Require Import Ascii.
From S2P Require Import Prelude.

(** ** Disks *)

(** [sd_read] and [sd_write] take the first block and the caller's buffer; a read returns
    the buffer afterwards. *)
Class SchemeDisk (D : Type) := {
  sd_block_length : prog D errno Z;
  sd_size : prog D errno Z;
  sd_read : Z → list Z → prog D errno (option Z * list Z);
  sd_write : Z → list Z → prog D errno (option Z);
}.

Record Partition := mk_partition { pt_start_lba : Z; pt_size : Z }.

Record DiskWrapper (D : Type) := mk_wrapper { dw_disk : D; dw_pt : option (list Partition) }.
Arguments mk_wrapper {D} _ _.
Arguments dw_disk {D} _.
Arguments dw_pt {D} _.

Inductive DsHandle : Type := DhList (contents : list Z) | DhDisk (i : Z) | DhPartition (i p : Z).

Record DiskScheme (D : Type) := mk_disk_scheme {
  ds_name : list Z; ds_disks : list (DiskWrapper D); ds_handles : gmap Z DsHandle; ds_next_id : Z;
}.
Arguments mk_disk_scheme {D} _ _ _ _.
Arguments ds_name {D} _.
Arguments ds_disks {D} _.
Arguments ds_handles {D} _.
Arguments ds_next_id {D} _.

Inductive StMode : Type := MODE_DIR | MODE_REG.

(** The fields of [Stat] the scheme fills in. *)
Record DsStat := mk_ds_stat { st_mode : StMode; st_size : Z; st_blksize : option Z; st_blocks : option Z }.

(** ** Paths *)

Fixpoint trim_left (s : string) : string :=
  match s with
  | String c s' => if decide (c = "/"%char) then trim_left s' else s
  | EmptyString => s
  end.

Fixpoint trim_right (s : string) : string :=
  match s with
  | EmptyString => s
  | String c s =>
      let r := trim_right s in
      if decide (r = "" ∧ c = "/"%char) then "" else String c r
  end.

(** [path.trim_matches('/')]. *)
Definition trim_matches (s : string) : string := trim_right (trim_left s).

(** What is before and after the first [p]. *)
Fixpoint split_p (s : string) : option (string * string) :=
  match s with
  | EmptyString => None
  | String c s =>
      if decide (c = "p"%char) then Some ("", s)
      else '(a, b) ← split_p s; Some (String c a, b)
  end.

Definition disk_line (i : Z) : list Z := string_bytes (pretty i) ++ [10].

Definition part_path (i p : Z) : string := pretty i +:+ "p" +:+ pretty p.

Definition part_line (i p : Z) : list Z := string_bytes (part_path i p) ++ [10].

(** The lines of a disk. *)
Definition disk_lines {D : Type} (i : nat) (d : DiskWrapper D) : list Z :=
  disk_line (Z.of_nat i) ++
  match dw_pt d with
  | None => []
  | Some parts => mjoin (imap (λ p _, part_line (Z.of_nat i) (Z.of_nat p)) parts)
  end.

(** ** The scheme *)

Section scheme.
Context {D : Type} `{HD : SchemeDisk D} (O_DIRECTORY O_STAT : Z).

Abbreviation sp := (prog (DiskScheme D) errno).

Definition disk_scheme_new (name : list Z) (disks : list (DiskWrapper D)) : DiskScheme D :=
  mk_disk_scheme name disks ∅ 0.

Definition set_disks (x : list (DiskWrapper D)) (s : DiskScheme D) : DiskScheme D :=
  mk_disk_scheme (ds_name s) x (ds_handles s) (ds_next_id s).

Definition set_ds_handles (x : gmap Z DsHandle) (s : DiskScheme D) : DiskScheme D :=
  mk_disk_scheme (ds_name s) (ds_disks s) x (ds_next_id s).

(** A handle that excludes the opening of a disk or of one of its partitions. *)
Definition conflicts (h : DsHandle) (disk_i : Z) (part_i_opt : option Z) : bool :=
  match h with
  | DhDisk i => disk_i =? i
  | DhPartition i p =>
      (disk_i =? i) && match part_i_opt with Some part_i => part_i =? p | None => true end
  | DhList _ => false
  end.

Definition check_locks (disk_i : Z) (part_i_opt : option Z) : sp unit :=
  hs ← gets ds_handles;
  if existsb (λ kh, conflicts kh.2 disk_i part_i_opt) (map_to_list hs) then throw ENOLCK else mret tt.

Definition lookup_disk (disks : list (DiskWrapper D)) (i : Z) : option (DiskWrapper D) := disks !! Z.to_nat i.

Definition lookup_part (d : DiskWrapper D) (p : Z) : option Partition := parts ← dw_pt d; parts !! Z.to_nat p.

Definition open_dir (flags : Z) : sp DsHandle :=
  if negb (Z.land flags O_DIRECTORY =? O_DIRECTORY) && negb (Z.land flags O_STAT =? O_STAT) then throw EISDIR
  else disks ← gets ds_disks; mret (DhList (mjoin (imap disk_lines disks))).

Definition open_part (disk_id_str part_id_str : string) : sp DsHandle :=
  if bool_decide (part_id_str = "") then throw ENOENT
  else
    i ← ok_or (parse_uint (2 ^ 64) disk_id_str) ENOENT;
    p ← ok_or (parse_uint (2 ^ 32) part_id_str) ENOENT;
    disks ← gets ds_disks;
    disk ← ok_or (lookup_disk disks i) ENOENT;
    match lookup_part disk p with
    | None => throw ENOENT
    | Some _ => _ ← check_locks i (Some p); mret (DhPartition i p)
    end.

Definition open_disk (path_str : string) : sp DsHandle :=
  i ← ok_or (parse_uint (2 ^ 64) path_str) ENOENT;
  disks ← gets ds_disks;
  match lookup_disk disks i with
  | None => throw ENOENT
  | Some _ => _ ← check_locks i None; mret (DhDisk i)
  end.

(** The handle for a path. *)
Definition resolve (path_str : string) (flags : Z) : sp DsHandle :=
  if bool_decide (path_str = "") then open_dir flags
  else match split_p path_str with
       | Some (disk_id_str, part_id_str) => open_part disk_id_str part_id_str
       | None => open_disk path_str
       end.

Definition ds_xopen (path : string) (flags uid : Z) : sp Z :=
  if negb (uid =? 0) then throw EACCES
  else
    handle ← resolve (trim_matches path) flags;
    id ← gets ds_next_id;
    _ ← modify (λ s, mk_disk_scheme (ds_name s) (ds_disks s) (<[id := handle]> (ds_handles s)) (as_usize (id + 1)));
    mret id.

Definition ds_handle (id : Z) : sp DsHandle := hs ← gets ds_handles; ok_or (hs !! id) EBADF.

(** A call of a disk. *)
Definition with_disk {A : Type} (i : Z) (m : prog D errno A) : sp A := λ s,
  match ds_disks s !! Z.to_nat i with
  | None => (Err EBADF, s)
  | Some d =>
      let '(r, d') := m (dw_disk d) in
      (r, set_disks (<[Z.to_nat i := mk_wrapper d' (dw_pt d)]> (ds_disks s)) s)
  end.

Definition the_part (i p : Z) : sp Partition :=
  disks ← gets ds_disks;
  d ← ok_or (lookup_disk disks i) EBADF;
  ok_or (lookup_part d p) EBADF.

Definition ds_fstat (id : Z) : sp DsStat :=
  h ← ds_handle id;
  match h with
  | DhList data => mret (mk_ds_stat MODE_DIR (Z.of_nat (length data)) None None)
  | DhDisk number =>
      size ← with_disk number sd_size;
      blk ← with_disk number sd_block_length;
      mret (mk_ds_stat MODE_REG size (Some blk) None)
  | DhPartition i p =>
      part ← the_part i p;
      blk ← with_disk i sd_block_length;
      blk' ← with_disk i sd_block_length;
      mret (mk_ds_stat MODE_REG (as_u64 (pt_size part * blk)) (Some blk') (Some (pt_size part)))
  end.

(** The loops of [fpath]: bytes go to [buf[i..]] while there is room. *)
Fixpoint put_bytes (src : list Z) (i : nat) (buf : list Z) : nat * list Z :=
  match src with
  | [] => (i, buf)
  | x :: src => if (i <? length buf)%nat then put_bytes src (S i) (<[i := x]> buf) else (i, buf)
  end.

Definition handle_path (h : DsHandle) : list Z :=
  match h with
  | DhList _ => []
  | DhDisk number => string_bytes (pretty number)
  | DhPartition i p => string_bytes (part_path i p)
  end.

Definition ds_fpath (id : Z) (buf : list Z) : sp (nat * list Z) :=
  h ← ds_handle id;
  name ← gets ds_name;
  let '(i, buf) := put_bytes name 0 buf in
  let '(i, buf) := if (i <? length buf)%nat then (S i, <[i := 58]> buf) else (i, buf) in
  mret (put_bytes (handle_path h) i buf).

(** The absolute block of an offset of a partition. *)
Definition part_block (i p offset : Z) : sp Z :=
  blk ← with_disk i sd_block_length;
  if blk =? 0 then panic
  else
    let rel_block := offset / blk in
    part ← the_part i p;
    if pt_size part <=? rel_block then throw EOVERFLOW
    else mret (as_u64 (pt_start_lba part + rel_block)).

Definition disk_block (i offset : Z) : sp Z :=
  blk ← with_disk i sd_block_length;
  if blk =? 0 then panic else mret (offset / blk).

Definition ds_read (id : Z) (buf : list Z) (offset : Z) : sp (option Z * list Z) :=
  h ← ds_handle id;
  match h with
  | DhList data =>
      let src := drop (Z.to_nat offset) data in
      let n := (length src `min` length buf)%nat in
      mret (Some (Z.of_nat n), take n src ++ drop n buf)
  | DhDisk i => block ← disk_block i offset; with_disk i (sd_read block buf)
  | DhPartition i p => block ← part_block i p offset; with_disk i (sd_read block buf)
  end.

Definition ds_write (id : Z) (buf : list Z) (offset : Z) : sp (option Z) :=
  h ← ds_handle id;
  match h with
  | DhList _ => throw EBADF
  | DhDisk i => block ← disk_block i offset; with_disk i (sd_write block buf)
  | DhPartition i p => block ← part_block i p offset; with_disk i (sd_write block buf)
  end.

Definition ds_fsize (id : Z) : sp Z :=
  h ← ds_handle id;
  match h with
  | DhList data => mret (Z.of_nat (length data))
  | DhDisk i => with_disk i sd_size
  | DhPartition i p =>
      part ← the_part i p;
      blk ← with_disk i sd_block_length;
      mret (as_u64 (blk * pt_size part))
  end.

Definition ds_close (id : Z) : sp unit :=
  hs ← gets ds_handles;
  match hs !! id with
  | None => throw EBADF
  | Some _ => modify (set_ds_handles (delete id hs))
  end.

End scheme.

(** ** Exclusive handles *)

(** Two handles that share blocks of a disk. *)
Definition overlap (h h' : DsHandle) : bool :=
  match h, h' with
  | DhDisk i, DhDisk j | DhDisk i, DhPartition j _ | DhPartition i _, DhDisk j => i =? j
  | DhPartition i p, DhPartition j q => (i =? j) && (p =? q)
  | _, _ => false
  end.

(** The disk and the partition of a handle exist; [pts] are the partition tables. *)
Definition names (pts : list (option (list Partition))) (h : DsHandle) : Prop :=
  match h with
  | DhList _ => True
  | DhDisk i => 0 <= i ∧ is_Some (pts !! Z.to_nat i)
  | DhPartition i p => 0 <= i ∧ 0 <= p ∧ ∃ parts, pts !! Z.to_nat i = Some (Some parts) ∧ is_Some (parts !! Z.to_nat p)
  end.

Lemma overlap_sym h h' : overlap h h' = overlap h' h.
Proof.
  destruct h as [l|i|i p], h' as [l'|j|j q]; cbn; try done; try apply Z.eqb_sym.
  by rewrite (Z.eqb_sym i), (Z.eqb_sym p).
Qed.

Lemma parse_digits_nonneg bound s acc v : 0 <= acc → parse_digits bound acc s = Some v → 0 <= v.
Proof.
  revert acc. induction s as [|c s IH]; intros acc Ha; cbn; [by intros [= <-]|]. unfold digit.
  destruct (_ && _) eqn:E; [|done]. apply andb_prop in E as [E1%Z.leb_le _]. destruct (_ <? _); [|done].
  apply IH. lia.
Qed.

Lemma parse_uint_nonneg bound s v : parse_uint bound s = Some v → 0 <= v.
Proof.
  unfold parse_uint. destruct s as [|c [|c' s]]; [done|by apply parse_digits_nonneg|].
  case_decide; by apply parse_digits_nonneg.
Qed.

Ltac keeps_step :=
  first
    [ apply keeps_ret | apply keeps_throw | apply keeps_panic | apply keeps_gets | apply keeps_ok_or
    | apply keeps_bind; [|intros ?]
    | match goal with
      | |- keeps _ (if ?b then _ else _) => destruct b
      | |- keeps _ (match ?x with _ => _ end) => destruct x
      | |- keeps _ (let '(_, _) := ?x in _) => destruct x
      end ].

Section exclusive.
Context {D : Type} `{HD : SchemeDisk D} (O_DIRECTORY O_STAT : Z).

Definition pts (s : DiskScheme D) : list (option (list Partition)) := dw_pt <$> ds_disks s.

(** What the methods of open files leave alone. *)
Definition shape (s : DiskScheme D) := (ds_name s, ds_handles s, ds_next_id s, pts s).

Record ds_ok (s : DiskScheme D) : Prop := {
  dok_exclusive id id' h h' : id ≠ id' → ds_handles s !! id = Some h → ds_handles s !! id' = Some h' → overlap h h' = false;
  dok_names id h : ds_handles s !! id = Some h → names (pts s) h;
  dok_ids id : is_Some (ds_handles s !! id) → id < ds_next_id s;
}.

Lemma check_locks_ok disk_i part (s : DiskScheme D) u s' :
  check_locks disk_i part s = (Ok u, s') →
  s' = s ∧ ∀ id h, ds_handles s !! id = Some h → conflicts h disk_i part = false.
Proof.
  unfold check_locks, mbind, prog_bind, p_bind, gets.
  destruct (existsb _ _) eqn:E; [done|]. intros [= _ <-]. split; [done|]. intros id h Hh.
  apply not_true_iff_false. intros Hc. apply not_true_iff_false in E. apply E. apply existsb_exists.
  exists (id, h). split; [|done]. by apply list_elem_of_In, elem_of_map_to_list.
Qed.

Lemma resolve_keeps path flags s : keeps (λ s', s' = s) (resolve (D := D) O_DIRECTORY O_STAT path flags).
Proof. unfold resolve, open_dir, open_part, open_disk, check_locks. repeat keeps_step. Qed.

Lemma resolve_ok path flags (s : DiskScheme D) h s' :
  resolve O_DIRECTORY O_STAT path flags s = (Ok h, s') →
  names (pts s) h ∧ ∀ id h', ds_handles s !! id = Some h' → overlap h h' = false.
Proof.
  unfold resolve. case_bool_decide as Hp.
  - unfold open_dir. destruct (_ && _); [done|]. intros [= <- _]. by split.
  - destruct (split_p path) as [[a b]|].
    + unfold open_part. case_bool_decide as Hb; [done|]. intros (i & s1 & E1 & H)%bind_inv_Ok.
      destruct (parse_uint (2 ^ 64) a) as [i'|] eqn:Ei; [|done]. injection E1 as -> ->.
      apply bind_inv_Ok in H as (p & s2 & E2 & H). destruct (parse_uint (2 ^ 32) b) as [p'|] eqn:Ep; [|done].
      injection E2 as -> ->. apply bind_inv_Ok in H as (ds & s3 & [= <- <-] & H).
      apply bind_inv_Ok in H as (d & s4 & E4 & H). destruct (lookup_disk _ i) as [d'|] eqn:Ed; [|done].
      injection E4 as -> ->. destruct (lookup_part d p) as [part|] eqn:Epart; [|done].
      apply bind_inv_Ok in H as (u & s5 & (-> & Hl)%check_locks_ok & [= <- <-]). split.
      * unfold lookup_part in Epart. destruct (dw_pt d) as [parts|] eqn:Ept; [|done]. cbn in Epart.
        split_and!; [by eapply parse_uint_nonneg|by eapply parse_uint_nonneg|]. exists parts. split; [|by eexists].
        unfold pts. rewrite list_lookup_fmap. unfold lookup_disk in Ed. rewrite Ed. cbn. by rewrite Ept.
      * intros id h' Hh. specialize (Hl id h' Hh). destruct h' as [l|j|j q]; done.
    + unfold open_disk. intros (i & s1 & E1 & H)%bind_inv_Ok.
      destruct (parse_uint (2 ^ 64) path) as [i'|] eqn:Ei; [|done]. injection E1 as -> ->.
      apply bind_inv_Ok in H as (ds & s3 & [= <- <-] & H).
      destruct (lookup_disk _ i) as [d'|] eqn:Ed; [|done].
      apply bind_inv_Ok in H as (u & s5 & (-> & Hl)%check_locks_ok & [= <- <-]). split.
      * split; [by eapply parse_uint_nonneg|]. unfold pts. rewrite list_lookup_fmap. unfold lookup_disk in Ed. rewrite Ed. by eexists.
      * intros id h' Hh. specialize (Hl id h' Hh). destruct h' as [l|j|j q]; cbn in *; rewrite ?andb_true_r in Hl; done.
Qed.

Lemma with_disk_shape {A : Type} i (m : prog D errno A) x : keeps (λ s, shape s = x) (with_disk i m).
Proof.
  intros s <-. unfold with_disk. destruct (ds_disks s !! Z.to_nat i) as [d|] eqn:Ed; [|done].
  destruct (m (dw_disk d)) as [r d']. cbn. unfold shape. cbn. f_equal. unfold pts. cbn [ds_disks set_disks].
  rewrite list_fmap_insert. apply list_insert_id. rewrite list_lookup_fmap, Ed. done.
Qed.

(** A request to the scheme. *)
Inductive DsCall : Type :=
| DcXopen (path : string) (flags uid : Z) | DcFstat (id : Z) | DcFpath (id : Z) (buf : list Z)
| DcRead (id : Z) (buf : list Z) (offset : Z) | DcWrite (id : Z) (buf : list Z) (offset : Z)
| DcFsize (id : Z) | DcClose (id : Z).

(** The state afterwards, whatever is answered. *)
Definition after_call (c : DsCall) (s : DiskScheme D) : DiskScheme D :=
  match c with
  | DcXopen path flags uid => (ds_xopen O_DIRECTORY O_STAT path flags uid s).2
  | DcFstat id => (ds_fstat id s).2
  | DcFpath id buf => (ds_fpath id buf s).2
  | DcRead id buf offset => (ds_read id buf offset s).2
  | DcWrite id buf offset => (ds_write id buf offset s).2
  | DcFsize id => (ds_fsize id s).2
  | DcClose id => (ds_close id s).2
  end.

Definition after_calls (cs : list DsCall) (s : DiskScheme D) : DiskScheme D := foldl (flip after_call) s cs.

Lemma ds_ok_shape s s' : shape s' = shape s → ds_ok s → ds_ok s'.
Proof.
  intros [= H1 H2 H3 H4] [K1 K2 K3].
  constructor; rewrite ?H2, ?H3, ?H4; [exact K1|exact K2|exact K3].
Qed.

Lemma shape_parts s s' : shape s' = shape s → pts s' = pts s ∧ ds_next_id s' = ds_next_id s.
Proof. by intros [= H1 H2 H3 H4]. Qed.

(** The methods of open files leave handles and partition tables alone. *)
Lemma quiet_calls c s : match c with DcXopen _ _ _ | DcClose _ => False | _ => True end → shape (after_call c s) = shape s.
Proof.
  destruct c; intros Hc; try done; cbn [after_call];
    unfold ds_fstat, ds_fpath, ds_read, ds_write, ds_fsize, ds_handle, the_part, part_block, disk_block.
  all: match goal with |- shape (?m ?t).2 = shape ?t => enough (keeps (λ s1, shape s1 = shape t) m) as Hk by (by apply Hk) end.
  all: repeat first [keeps_step | apply with_disk_shape].
Qed.

Lemma close_ok id s : ds_ok s → ds_ok (ds_close id s).2 ∧ pts (ds_close id s).2 = pts s ∧ ds_next_id (ds_close id s).2 = ds_next_id s.
Proof.
  intros HO. unfold ds_close, mbind, prog_bind, p_bind, gets. destruct (ds_handles s !! id) as [h|] eqn:E; [|done].
  cbn. split; [|done]. destruct HO as [K1 K2 K3]. constructor; cbn [ds_handles set_ds_handles ds_next_id].
  - intros id1 id2 h1 h2 Hne [_ H1]%lookup_delete_Some [_ H2]%lookup_delete_Some. by eapply K1.
  - intros id1 h1 [_ H1]%lookup_delete_Some. by eapply K2.
  - intros id1 [h1 [_ H1]%lookup_delete_Some]. apply K3. by eexists.
Qed.

Lemma xopen_ok path flags uid s :
  ds_ok s → 0 <= ds_next_id s → ds_next_id s + 1 < 2 ^ 64 →
  let s' := (ds_xopen O_DIRECTORY O_STAT path flags uid s).2 in
  ds_ok s' ∧ pts s' = pts s ∧ ds_next_id s <= ds_next_id s' <= ds_next_id s + 1.
Proof.
  intros HO H0 Hn. unfold ds_xopen. destruct (negb _); [cbn; split_and!; [done|done|lia|lia]|].
  unfold mbind, prog_bind, p_bind. pose proof (resolve_keeps (trim_matches path) flags s s eq_refl) as Hk.
  destruct (resolve O_DIRECTORY O_STAT (trim_matches path) flags s) as [[h|e|] s1] eqn:E; cbn in Hk; subst s1;
    [|cbn; split_and!; [done|done|lia|lia]|cbn; split_and!; [done|done|lia|lia]].
  destruct (resolve_ok _ _ _ _ _ E) as [Hnm Hex]. destruct HO as [K1 K2 K3].
  unfold gets, modify. cbn. unfold as_usize. rewrite as_u_id by (unfold u_range; lia).
  split; [|split; [done|lia]]. constructor; cbn [ds_handles ds_next_id].
  - intros id id' h1 h2 Hne [[<- <-]|[_ H1]]%lookup_insert_Some [[<- <-]|[_ H2]]%lookup_insert_Some; [done| | |by eapply K1].
    + by eapply Hex.
    + rewrite overlap_sym. by eapply Hex.
  - intros id h1 [[<- <-]|[_ H1]]%lookup_insert_Some; [done|by eapply K2].
  - intros id [h1 [[<- <-]|[_ H1]]%lookup_insert_Some]; [lia|]. specialize (K3 id ltac:(by eexists)). lia.
Qed.

Lemma after_calls_ok cs s :
  ds_ok s → 0 <= ds_next_id s → ds_next_id s + Z.of_nat (length cs) < 2 ^ 64 →
  ds_ok (after_calls cs s) ∧ pts (after_calls cs s) = pts s.
Proof.
  revert s. induction cs as [|c cs IH]; intros s HO H0 Hn; [by split|]. cbn [length] in Hn. unfold after_calls. cbn [foldl flip].
  assert (ds_ok (after_call c s) ∧ pts (after_call c s) = pts s ∧
          ds_next_id s <= ds_next_id (after_call c s) <= ds_next_id s + 1) as (HO' & Hp & Hi).
  { destruct c; try (match goal with |- ds_ok (after_call ?c ?t) ∧ _ => pose proof (quiet_calls c t I) as Hs end;
      destruct (shape_parts _ _ Hs) as [Hs1 Hs2]; split_and!; [by eapply ds_ok_shape|done|lia|lia]).
    - apply xopen_ok; [done|lia|lia].
    - destruct (close_ok id s HO) as (C1 & C2 & C3). split_and!; [exact C1|exact C2|cbn [after_call]; lia..]. }
  destruct (IH _ HO' ltac:(lia) ltac:(lia)) as [I1 I2]. split; [done|]. unfold after_calls in I2. by rewrite I2.
Qed.

End exclusive.

(** C17. Over any sequence of requests the open files of the disk scheme do not share
    blocks: a disk that is open is not open a second time, none of its partitions is open,
    and no partition is open twice; and the disk and the partition of every open file
    exist, so that no access of an open file fails with [EBADF]. *)
Theorem disk_handles_exclusive {D : Type} `{HD : SchemeDisk D} O_DIRECTORY O_STAT name (disks : list (DiskWrapper D)) cs :
  Z.of_nat (length cs) < 2 ^ 64 →
  let s := after_calls O_DIRECTORY O_STAT cs (disk_scheme_new name disks) in
  (∀ id id' h h', id ≠ id' → ds_handles s !! id = Some h → ds_handles s !! id' = Some h' → overlap h h' = false) ∧
  (∀ id h, ds_handles s !! id = Some h → names (dw_pt <$> ds_disks s) h).
Proof.
  intros Hc. destruct (after_calls_ok O_DIRECTORY O_STAT cs (disk_scheme_new name disks)) as [[K1 K2 _] _]; [|done|done|done].
  split; cbn; [intros ? ? ? ? _ []%lookup_empty_Some|intros ? ? []%lookup_empty_Some|intros ? [? []%lookup_empty_Some]].
Qed.

#[local] Instance null_disk : SchemeDisk unit := {|
  sd_block_length := mret 512; sd_size := mret 1024; sd_read := λ _ b, mret (Some 0, b); sd_write := λ _ _, mret (Some 0);
|}.

(** Two partitions: the second one is opened, the whole disk and the second one again
    are refused, the first one is opened. *)
Definition demo_calls : list DsCall :=
  [DcXopen "/0p1" 0 0; DcXopen "0" 0 0; DcXopen "0p1/" 0 0; DcXopen "0p0" 0 0].

Definition demo_disks : list (DiskWrapper unit) := [mk_wrapper tt (Some [mk_partition 0 1; mk_partition 1 1])].

Lemma disk_handles_exclusive_witness :
  let s := after_calls 1 2 demo_calls (disk_scheme_new [] demo_disks) in
  ds_handles s !! 0 = Some (DhPartition 0 1) ∧ ds_handles s !! 1 = Some (DhPartition 0 0) ∧ size (ds_handles s) = 2%nat ∧
  overlap (DhPartition 0 1) (DhPartition 0 0) = false.
Proof.
  intros s. split_and!; [by vm_compute..|].
  destruct (disk_handles_exclusive 1 2 [] demo_disks demo_calls) as [H _]; [by vm_compute|].
  apply (H 0 1); [done|by vm_compute|by vm_compute].
Defined.

(** ** Contents *)

(** What a disk promises: blocks of [ad_blk] bytes; a transfer inside the disk is of all
    whole blocks of the buffer, or fails with [EIO]. *)
Class ArrayDisk (D : Type) `{HD : SchemeDisk D} := {
  ad_blk : Z;
  ad_ok : D → Prop;
  ad_bytes : D → list Z;
  ad_blk_pos : 0 < ad_blk;
  ad_block_length d : ad_ok d → ∃ d', sd_block_length d = (Ok ad_blk, d') ∧ ad_ok d' ∧ ad_bytes d' = ad_bytes d;
  ad_read d block buf :
    ad_ok d → 0 <= block → (block + Z.of_nat (length buf) / ad_blk) * ad_blk <= Z.of_nat (length (ad_bytes d)) →
    ∃ r d', sd_read block buf d = (r, d') ∧ ad_ok d' ∧ ad_bytes d' = ad_bytes d ∧
      let n := Z.of_nat (length buf) / ad_blk * ad_blk in
      (r = Ok (Some n, slice (Z.to_nat (block * ad_blk)) (Z.to_nat n) (ad_bytes d) ++ drop (Z.to_nat n) buf) ∨ r = Err EIO);
  ad_write d block buf :
    ad_ok d → 0 <= block → (block + Z.of_nat (length buf) / ad_blk) * ad_blk <= Z.of_nat (length (ad_bytes d)) →
    ∃ r d', sd_write block buf d = (r, d') ∧ ad_ok d' ∧
      let n := Z.of_nat (length buf) / ad_blk * ad_blk in
      (r = Ok (Some n) ∧ ad_bytes d' = splice (Z.to_nat (block * ad_blk)) (take (Z.to_nat n) buf) (ad_bytes d) ∨
       r = Err EIO ∧ ∃ x, Z.of_nat (length x) = n ∧ ad_bytes d' = splice (Z.to_nat (block * ad_blk)) x (ad_bytes d));
}.

Section contents.
Context {D : Type} `{HA : ArrayDisk D}.

(** The disk [i] with its bytes, and the partition [p] on it. *)
Record mounted (s : DiskScheme D) (i p : Z) (part : Partition) (d : D) : Prop := {
  mt_disk : ∃ parts, ds_disks s !! Z.to_nat i = Some (mk_wrapper d (Some parts)) ∧ parts !! Z.to_nat p = Some part;
  mt_ok : ad_ok d;
  mt_part : 0 <= pt_start_lba part ∧ 0 <= pt_size part ∧
            (pt_start_lba part + pt_size part) * ad_blk <= Z.of_nat (length (ad_bytes d)) ∧
            pt_start_lba part + pt_size part < 2 ^ 64;
}.

Lemma with_disk_run {A : Type} i (m : prog D errno A) s d pt r d' :
  ds_disks s !! Z.to_nat i = Some (mk_wrapper d pt) → m d = (r, d') →
  ∃ s', with_disk i m s = (r, s') ∧ ds_handles s' = ds_handles s ∧ ds_disks s' !! Z.to_nat i = Some (mk_wrapper d' pt).
Proof.
  intros Hd Hm. unfold with_disk. rewrite Hd. cbn [dw_disk dw_pt]. rewrite Hm. eexists. split; [done|]. split; [done|].
  cbn [ds_disks set_disks]. apply list_lookup_insert_eq. by eapply lookup_lt_Some.
Qed.

Lemma part_block_spec s i p part d offset :
  mounted s i p part d → 0 <= offset → offset / ad_blk < pt_size part →
  ∃ s' d', part_block i p offset s = (Ok (pt_start_lba part + offset / ad_blk), s') ∧ mounted s' i p part d' ∧
    ad_bytes d' = ad_bytes d ∧ ds_handles s' = ds_handles s.
Proof.
  intros [(parts & Hd & Hp) Hok Hpt] H0 Ho. destruct (ad_block_length d Hok) as (d' & E & Hok' & Hb).
  destruct (with_disk_run i _ s d _ _ _ Hd E) as (s' & Es & Hh & Hd').
  pose proof (ad_blk_pos (D := D)). assert (0 <= offset / ad_blk) by (apply Z.div_pos; lia).
  exists s', d'. split_and!; [|constructor; [by exists parts|done|by rewrite Hb]|done|done].
  unfold part_block, mbind, prog_bind. rewrite (bind_Ok _ _ _ _ _ Es). rewrite (proj2 (Z.eqb_neq _ _)) by lia.
  unfold the_part, mbind, prog_bind, p_bind, gets, lookup_disk. rewrite Hd'. cbn [ok_or p_ret].
  unfold lookup_part. cbn [dw_pt mbind option_bind]. rewrite Hp. cbn [ok_or p_ret].
  rewrite (proj2 (Z.leb_gt _ _)) by lia. unfold as_u64. rewrite as_u_id by (unfold u_range; lia). done.
Qed.

Lemma partition_read_spec s id i p part d buf offset :
  mounted s i p part d → ds_handles s !! id = Some (DhPartition i p) → 0 <= offset →
  offset / ad_blk < pt_size part → offset / ad_blk + Z.of_nat (length buf) / ad_blk <= pt_size part →
  ∃ r s' d', ds_read id buf offset s = (r, s') ∧ mounted s' i p part d' ∧ ad_bytes d' = ad_bytes d ∧
    let n := Z.of_nat (length buf) / ad_blk * ad_blk in
    (r = Ok (Some n, slice (Z.to_nat ((pt_start_lba part + offset / ad_blk) * ad_blk)) (Z.to_nat n) (ad_bytes d)
               ++ drop (Z.to_nat n) buf) ∨ r = Err EIO).
Proof.
  intros HM Hh H0 Ho Hn. destruct (part_block_spec s i p part d offset HM H0 Ho) as (s1 & d1 & E1 & HM1 & Hb1 & Hh1).
  pose proof HM1 as [(parts & Hd & Hp) Hok (P1 & P2 & P3 & P4)]. pose proof (ad_blk_pos (D := D)).
  assert (0 <= offset / ad_blk) by (apply Z.div_pos; lia).
  destruct (ad_read d1 (pt_start_lba part + offset / ad_blk) buf Hok) as (r & d2 & E2 & Hok2 & Hb2 & Hr); [lia| |].
  { eapply Z.le_trans; [|exact P3]. apply Z.mul_le_mono_nonneg_r; lia. }
  destruct (with_disk_run i _ s1 d1 _ _ _ Hd E2) as (s2 & Es & _ & Hd2).
  exists r, s2, d2. split_and!.
  - unfold ds_read, mbind, prog_bind. erewrite bind_Ok; [|unfold ds_handle, mbind, prog_bind, p_bind, gets; rewrite Hh; reflexivity].
    cbv beta iota. rewrite (bind_Ok _ _ _ _ _ E1). exact Es.
  - constructor; [by exists parts|done|]. rewrite Hb2. by split_and!.
  - by rewrite Hb2.
  - rewrite <- Hb1. exact Hr.
Qed.

(** A write of a partition, wherever it ends. *)
Lemma partition_write_spec s id i p part d buf offset :
  mounted s i p part d → ds_handles s !! id = Some (DhPartition i p) → 0 <= offset →
  offset / ad_blk < pt_size part →
  (pt_start_lba part + offset / ad_blk + Z.of_nat (length buf) / ad_blk) * ad_blk <= Z.of_nat (length (ad_bytes d)) →
  ∃ r s' d', ds_write id buf offset s = (r, s') ∧ mounted s' i p part d' ∧
    let n := Z.of_nat (length buf) / ad_blk * ad_blk in
    let start := Z.to_nat ((pt_start_lba part + offset / ad_blk) * ad_blk) in
    (r = Ok (Some n) ∧ ad_bytes d' = splice start (take (Z.to_nat n) buf) (ad_bytes d) ∨
     r = Err EIO ∧ ∃ x, Z.of_nat (length x) = n ∧ ad_bytes d' = splice start x (ad_bytes d)).
Proof.
  intros HM Hh H0 Ho Hn. destruct (part_block_spec s i p part d offset HM H0 Ho) as (s1 & d1 & E1 & HM1 & Hb1 & Hh1).
  pose proof HM1 as [(parts & Hd & Hp) Hok (P1 & P2 & P3 & P4)]. pose proof (ad_blk_pos (D := D)).
  assert (0 <= offset / ad_blk) by (apply Z.div_pos; lia).
  assert (0 <= Z.of_nat (length buf) / ad_blk * ad_blk <= Z.of_nat (length buf)) as Hq.
  { split; [apply Z.mul_nonneg_nonneg; [apply Z.div_pos|]; lia|]. rewrite Z.mul_comm. apply Z.mul_div_le. lia. }
  destruct (ad_write d1 (pt_start_lba part + offset / ad_blk) buf Hok) as (r & d2 & E2 & Hok2 & Hr); [lia|by rewrite Hb1|].
  destruct (with_disk_run i _ s1 d1 _ _ _ Hd E2) as (s2 & Es & _ & Hd2).
  exists r, s2, d2. split_and!.
  - unfold ds_write, mbind, prog_bind. erewrite bind_Ok; [|unfold ds_handle, mbind, prog_bind, p_bind, gets; rewrite Hh; reflexivity].
    cbv beta iota. rewrite (bind_Ok _ _ _ _ _ E1). exact Es.
  - constructor; [by exists parts|done|]. split_and!; [done|done| |done].
    assert (length (ad_bytes d2) = length (ad_bytes d1)) as ->; [|done].
    destruct Hr as [[_ ->]|[_ (x & Hx & ->)]]; apply length_splice; rewrite ?length_take; rewrite Hb1; lia.
  - rewrite <- Hb1. exact Hr.
Qed.

End contents.

Lemma take_splice_below (a off : nat) (x l : list Z) : (a <= off)%nat → (off <= length l)%nat → take a (splice off x l) = take a l.
Proof. intros Ha Hl. unfold splice. rewrite take_app_le by (rewrite length_take; lia). rewrite take_take. f_equal. lia. Qed.

Lemma drop_splice_above (b off : nat) (x l : list Z) :
  (off + length x <= b)%nat → (b <= length l)%nat → drop b (splice off x l) = drop b l.
Proof.
  intros Hb Hl. unfold splice. rewrite drop_app_ge by (rewrite length_take; lia).
  rewrite drop_app_ge by (rewrite length_take; lia). rewrite drop_drop, length_take. f_equal. lia.
Qed.

Lemma splice_shift (a o : nat) (x l : list Z) :
  (a <= length l)%nat → splice (a + o) x l = take a l ++ splice o x (drop a l).
Proof. intros Hl. unfold splice. rewrite (app_assoc (take a l)), take_take_drop, drop_drop. do 3 f_equal. lia. Qed.

Lemma take_splice (m o : nat) (x l : list Z) :
  (o + length x <= m)%nat → (m <= length l)%nat → take m (splice o x l) = splice o x (take m l).
Proof.
  intros Ho Hl. unfold splice. rewrite take_app_ge by (rewrite length_take; lia). rewrite take_take.
  replace (o `min` m)%nat with o by lia. f_equal. rewrite length_take. replace (o `min` length l)%nat with o by lia.
  rewrite take_app_ge by lia. f_equal. rewrite skipn_firstn_comm. f_equal. lia.
Qed.

Lemma slice_splice_in (a o m : nat) (x l : list Z) :
  (o + length x <= m)%nat → (a + m <= length l)%nat → slice a m (splice (a + o) x l) = splice o x (slice a m l).
Proof.
  intros Ho Hl. unfold slice. rewrite splice_shift by lia. rewrite drop_app_length' by (rewrite length_take; lia).
  apply take_splice; [done|]. rewrite length_drop. lia.
Qed.

Section partitions.
Context {D : Type} `{HA : ArrayDisk D}.

Abbreviation from part := (Z.to_nat (pt_start_lba part * ad_blk)).
Abbreviation len part := (Z.to_nat (pt_size part * ad_blk)).

(** The bytes of a partition. *)
Definition part_bytes (part : Partition) (d : D) : list Z := slice (from part) (len part) (ad_bytes d).

(** The bytes of the disk outside of it. *)
Definition around (part : Partition) (d : D) : list Z * list Z :=
  (take (from part) (ad_bytes d), drop (from part + len part) (ad_bytes d)).

Lemma splice_partition part (d d' : D) off x :
  0 <= pt_start_lba part → 0 <= pt_size part → 0 <= off →
  (pt_start_lba part + pt_size part) * ad_blk <= Z.of_nat (length (ad_bytes d)) →
  off * ad_blk + Z.of_nat (length x) <= pt_size part * ad_blk →
  ad_bytes d' = splice (Z.to_nat ((pt_start_lba part + off) * ad_blk)) x (ad_bytes d) →
  part_bytes part d' = splice (Z.to_nat (off * ad_blk)) x (part_bytes part d) ∧ around part d' = around part d.
Proof.
  intros H1 H2 H3 H4 H5 E. pose proof (ad_blk_pos (D := D)) as H0. unfold part_bytes, around. rewrite E.
  assert (0 <= pt_start_lba part * ad_blk ∧ 0 <= pt_size part * ad_blk ∧ 0 <= off * ad_blk) as (K1 & K2 & K3)
    by (split_and!; apply Z.mul_nonneg_nonneg; lia).
  rewrite Z.mul_add_distr_r in H4. rewrite Z.mul_add_distr_r, Z2Nat.inj_add by lia.
  rewrite slice_splice_in by lia. split; [done|]. f_equal; [apply take_splice_below; lia|].
  apply drop_splice_above; [lia|lia].
Qed.

End partitions.

(** C18. A partition is an array of bytes of its own: a read through its handle that ends
    in the partition returns the whole blocks of the buffer from the partition's bytes at
    the block of the offset, and a write puts them there and leaves every byte of the disk
    outside of the partition as it was, whether it succeeds or fails with [EIO]. *)
Theorem partition_is_array {D : Type} `{HA : ArrayDisk D} s id i p part (d : D) buf offset :
  mounted s i p part d → ds_handles s !! id = Some (DhPartition i p) → 0 <= offset →
  offset / ad_blk < pt_size part → offset / ad_blk + Z.of_nat (length buf) / ad_blk <= pt_size part →
  let n := Z.of_nat (length buf) / ad_blk * ad_blk in
  let at_ := Z.to_nat (offset / ad_blk * ad_blk) in
  (∃ r s' d', ds_read id buf offset s = (r, s') ∧ mounted s' i p part d' ∧ ad_bytes d' = ad_bytes d ∧
     (r = Ok (Some n, slice at_ (Z.to_nat n) (part_bytes part d) ++ drop (Z.to_nat n) buf) ∨ r = Err EIO)) ∧
  (∃ r s' d', ds_write id buf offset s = (r, s') ∧ mounted s' i p part d' ∧ around part d' = around part d ∧
     (r = Ok (Some n) ∧ part_bytes part d' = splice at_ (take (Z.to_nat n) buf) (part_bytes part d) ∨ r = Err EIO)).
Proof.
  intros HM Hh H0 Ho Hn n at_. pose proof HM as [_ _ (P1 & P2 & P3 & P4)]. pose proof (ad_blk_pos (D := D)).
  assert (0 <= offset / ad_blk) as Hq by (apply Z.div_pos; lia).
  assert (0 <= n <= Z.of_nat (length buf)) as Hn'.
  { unfold n. split; [apply Z.mul_nonneg_nonneg; [apply Z.div_pos|]; lia|]. rewrite Z.mul_comm. apply Z.mul_div_le. lia. }
  assert ((offset / ad_blk + Z.of_nat (length buf) / ad_blk) * ad_blk <= pt_size part * ad_blk) as Hm
    by (apply Z.mul_le_mono_nonneg_r; lia). rewrite Z.mul_add_distr_r in Hm. fold n in Hm.
  assert (0 <= pt_start_lba part * ad_blk) by (apply Z.mul_nonneg_nonneg; lia).
  assert (0 <= offset / ad_blk * ad_blk) by (apply Z.mul_nonneg_nonneg; lia). split.
  - destruct (partition_read_spec s id i p part d buf offset HM Hh H0 Ho Hn) as (r & s' & d' & E & HM' & Hb & Hr).
    exists r, s', d'. split_and!; [done..|]. fold n in Hr. unfold part_bytes, at_. rewrite slice_slice by lia.
    rewrite <- Z2Nat.inj_add, <- Z.mul_add_distr_r by lia. exact Hr.
  - destruct (partition_write_spec s id i p part d buf offset HM Hh H0 Ho) as (r & s' & d' & E & HM' & Hr).
    { rewrite Z.mul_add_distr_r in P3. rewrite !Z.mul_add_distr_r. fold n. lia. }
    exists r, s', d'. fold n in Hr. cbv zeta in Hr. destruct Hr as [[-> Hb]|[-> (x & Hx & Hb)]].
    + destruct (splice_partition part d d' (offset / ad_blk) (take (Z.to_nat n) buf)) as [S1 S2]; [lia..|rewrite length_take; lia|done|].
      split_and!; [done..|]. by left.
    + destruct (splice_partition part d d' (offset / ad_blk) x) as [S1 S2]; [lia..|done|].
      split_and!; [done..|]. by right.
Qed.

(** The bounds of a partition are only checked for the first block of an access: a
    write of one block more than the partition has, from its start, is accepted, and
    overwrites the block after the partition. *)
Theorem partition_write_escapes {D : Type} `{HA : ArrayDisk D} s id i p part (d : D) buf :
  mounted s i p part d → ds_handles s !! id = Some (DhPartition i p) → 0 < pt_size part →
  Z.of_nat (length buf) = (pt_size part + 1) * ad_blk →
  (pt_start_lba part + pt_size part + 1) * ad_blk <= Z.of_nat (length (ad_bytes d)) →
  ∃ r s' d', ds_write id buf 0 s = (r, s') ∧ mounted s' i p part d' ∧
    (r = Ok (Some ((pt_size part + 1) * ad_blk)) ∧
     slice (Z.to_nat ((pt_start_lba part + pt_size part) * ad_blk)) (Z.to_nat ad_blk) (ad_bytes d') =
     drop (Z.to_nat (pt_size part * ad_blk)) buf ∨ r = Err EIO).
Proof.
  intros HM Hh Hp Hl Hd. pose proof HM as [_ _ (P1 & P2 & P3 & P4)]. pose proof (ad_blk_pos (D := D)) as Hb0.
  assert (Z.of_nat (length buf) / ad_blk = pt_size part + 1) as Hdiv by (rewrite Hl; apply Z.div_mul; lia).
  assert (0 / ad_blk = 0) as Hz by (apply Z.div_0_l; lia).
  destruct (partition_write_spec s id i p part d buf 0 HM Hh) as (r & s' & d' & E & HM' & Hr); [lia|lia| |].
  { rewrite Hz, Hdiv, Z.add_0_r, Z.add_assoc. exact Hd. }
  exists r, s', d'. split_and!; [done|done|]. cbv zeta in Hr. rewrite Hz, Hdiv, Z.add_0_r in Hr.
  destruct Hr as [[-> Hb]|[-> _]]; [left|by right]. split; [done|]. rewrite Hb.
  assert (0 <= pt_start_lba part * ad_blk ∧ 0 <= pt_size part * ad_blk) as [K1 K2]
    by (split; apply Z.mul_nonneg_nonneg; lia).
  rewrite !Z.mul_add_distr_r, Z.mul_1_l in *. rewrite take_ge by lia.
  rewrite Z2Nat.inj_add by lia. set (a := Z.to_nat (pt_start_lba part * ad_blk)). set (b := Z.to_nat (pt_size part * ad_blk)).
  assert (drop b buf = slice b (Z.to_nat ad_blk) buf) as -> by (unfold slice; rewrite take_ge; [done|rewrite length_drop; lia]).
  rewrite <- (slice_slice a (length buf)) by lia. rewrite slice_splice by lia. done.
Qed.

(** ** A disk in memory *)

(** Blocks of four bytes. *)
#[local] Instance mem_disk : SchemeDisk (list Z) := {|
  sd_block_length := mret 4;
  sd_size := gets (λ d, Z.of_nat (length d));
  sd_read block buf := λ d,
    let n := Z.to_nat (Z.of_nat (length buf) / 4 * 4) in
    (Ok (Some (Z.of_nat (length buf) / 4 * 4), slice (Z.to_nat (block * 4)) n d ++ drop n buf), d);
  sd_write block buf := λ d,
    let n := Z.to_nat (Z.of_nat (length buf) / 4 * 4) in
    (Ok (Some (Z.of_nat (length buf) / 4 * 4)), splice (Z.to_nat (block * 4)) (take n buf) d);
|}.

#[local] Instance mem_array_disk : ArrayDisk (list Z).
Proof.
  refine {| ad_blk := 4; ad_ok := λ _, True; ad_bytes := id |}; [lia| | |].
  - intros d _. by exists d.
  - intros d block buf _ _ _. eexists _, d. split_and!; [done..|]. by left.
  - intros d block buf _ _ _. eexists _, _. split_and!; [done..|]. by left.
Defined.

Definition demo_bytes : list Z := [0; 1; 2; 3; 4; 5; 6; 7; 8; 9; 10; 11; 12; 13; 14; 15].

(** The second and third block of four are a partition, which is open. *)
Definition demo_mounted : DiskScheme (list Z) :=
  mk_disk_scheme [] [mk_wrapper demo_bytes (Some [mk_partition 1 2])] {[0 := DhPartition 0 0]} 1.

Lemma demo_mounted_ok : mounted demo_mounted 0 0 (mk_partition 1 2) demo_bytes.
Proof. constructor; [by eexists|done|by vm_compute]. Qed.

Lemma partition_is_array_witness :
  ∃ r s' d', ds_write 0 [90; 91; 92; 93] 4 demo_mounted = (r, s') ∧ mounted s' 0 0 (mk_partition 1 2) d' ∧
    around (mk_partition 1 2) d' = ([0; 1; 2; 3], [12; 13; 14; 15]).
Proof.
  destruct (partition_is_array demo_mounted 0 0 0 (mk_partition 1 2) demo_bytes [90; 91; 92; 93] 4 demo_mounted_ok)
    as [_ (r & s' & d' & E & HM & Ha & _)]; [by vm_compute..|].
  exists r, s', d'. split_and!; [done|done|]. by rewrite Ha.
Defined.

Lemma partition_write_escapes_witness :
  ∃ r s' d', ds_write 0 (replicate 12 99) 0 demo_mounted = (r, s') ∧ mounted s' 0 0 (mk_partition 1 2) d' ∧
    (r = Ok (Some 12) ∧ slice 12 4 d' = [99; 99; 99; 99] ∨ r = Err EIO).
Proof.
  destruct (partition_write_escapes demo_mounted 0 0 0 (mk_partition 1 2) demo_bytes (replicate 12 99) demo_mounted_ok)
    as (r & s' & d' & E & HM & Hr); [by vm_compute..|].
  exists r, s', d'. split_and!; [done|done|]. exact Hr.
Defined.

(** ** Printed paths *)

Lemma split_p_digits bound acc s v t : parse_digits bound acc s = Some v → split_p (s +:+ String "p"%char t) = Some (s, t).
Proof.
  revert acc. induction s as [|c s IH]; intros acc; [done|]. cbn [parse_digits]. destruct (digit c) as [x|] eqn:Ec; [|done].
  cbv zeta. destruct (_ <? _); [|done]. intros H. change (String c s +:+ String "p"%char t) with (String c (s +:+ String "p"%char t)).
  cbn [split_p]. rewrite decide_False by (by intros ->). rewrite (IH _ H). done.
Qed.

Lemma parse_digits_of_pretty bound n : 0 <= n < bound → parse_digits bound 0 (pretty n) = Some n.
Proof.
  intros Hn. pose proof (parse_uint_pretty bound n Hn) as H. unfold parse_uint in H.
  destruct (pretty n) as [|c [|c' s]] eqn:E; [done|done|]. case_decide as Hc; [|done]. subst c. exfalso.
  destruct n as [|q|q]; [done| |lia]. change (pretty (Z.pos q)) with (pretty (N.pos q)) in E.
  unfold pretty, pretty_N in E. rewrite decide_False in E by done.
  pose proof (parse_digits_pretty bound (N.pos q) "" ltac:(lia)) as Hq. rewrite E in Hq. done.
Qed.

(** The printed path of a partition names it: opening what [fpath] or the directory shows
    gives the partition, if no open file excludes it. *)
Lemma open_part_path {D : Type} `{HD : SchemeDisk D} O_DIRECTORY O_STAT flags (s : DiskScheme D) i p :
  0 <= i < 2 ^ 64 → 0 <= p < 2 ^ 32 → names (pts s) (DhPartition i p) →
  (∀ id h, ds_handles s !! id = Some h → overlap h (DhPartition i p) = false) →
  resolve O_DIRECTORY O_STAT (part_path i p) flags s = (Ok (DhPartition i p), s).
Proof.
  intros Hi Hp (_ & _ & parts & Hpt & [part Hpart]) Hex. unfold resolve, part_path.
  change ("p" +:+ pretty p) with (String "p"%char (pretty p)).
  pose proof (split_p_digits _ _ _ _ (pretty p) (parse_digits_of_pretty _ i Hi)) as Hsp.
  rewrite bool_decide_eq_false_2 by (intros E; by rewrite E in Hsp). rewrite Hsp. unfold open_part.
  pose proof (parse_uint_pretty _ p Hp) as Hpp. rewrite bool_decide_eq_false_2 by (intros E; by rewrite E in Hpp).
  rewrite (parse_uint_pretty _ i Hi), Hpp. unfold mbind, prog_bind, p_bind, gets. cbn [ok_or p_ret].
  unfold pts in Hpt. rewrite list_lookup_fmap in Hpt. apply fmap_Some_1 in Hpt as (d & Hd & Ed).
  unfold lookup_disk. rewrite Hd. cbn [ok_or p_ret]. unfold lookup_part. rewrite <- Ed. cbn [mbind option_bind]. rewrite Hpart.
  unfold check_locks, mbind, prog_bind, p_bind, gets. destruct (existsb _ _) eqn:Ee; [|done]. exfalso.
  apply existsb_exists in Ee as ([id h] & Hin%list_elem_of_In%elem_of_map_to_list & Hc). specialize (Hex id h Hin).
  destruct h as [l|j|j q]; cbn in *; [done| |].
  - by rewrite Z.eqb_sym, Hc in Hex.
  - by rewrite (Z.eqb_sym j), (Z.eqb_sym q), Hc in Hex.
Qed.
