(* ===== verification/AhciScheme.v ===== *)
(** The AHCI controller as a whole (storage/ahcid/src/ahci/mod.rs, [HbaMem] of hba.rs and
    the interrupt handler of storage/ahcid/src/scheme.rs), and its drives as disks of the
    disk scheme. *)

From S2P Require Import Prelude Io Ahci AhciDisk DiskScheme.

(** ** Drives *)

Record DiskATAPI (W : Type) := mk_disk_atapi { dt_id : Z; dt_size : Z; dt_port : AhciMem * W }.
Arguments mk_disk_atapi {W} _ _ _.
Arguments dt_id {W} _.
Arguments dt_size {W} _.
Arguments dt_port {W} _.

(** [Box<dyn Disk>]. *)
Inductive AhciDrive (W : Type) : Type := DrATA (d : DiskATA W) | DrATAPI (d : DiskATAPI W).
Arguments DrATA {W} _.
Arguments DrATAPI {W} _.

Section drives.
Context {W : Type} `{HIo : Io (AhciMem * W) PReg} (ph : Z → AhciPhys) (fuel : nat).

Definition atapi_new (id : Z) (w : W) : res errno (DiskATAPI W) :=
  match (_ ← port_init (ph id) fuel; identify_packet (ph id) fuel) (zero_mem, w) with
  | (Ok size, s) => Ok (mk_disk_atapi id (default 0 size) s)
  | (Err e, _) => Err e
  | (Panic, _) => Panic
  end.

(** The drive at a port, if there is one that could be set up. *)
Definition disk_of_port (i : Z) (w : W) : res errno (option (AhciDrive W)) :=
  match probe (zero_mem, w) with
  | (Ok HpSATA, (_, w)) =>
      match ata_new (ph i) fuel i w with
      | Ok d => Ok (Some (DrATA d))
      | Err ETIMEDOUT => Err ETIMEDOUT
      | Err _ => Ok None
      | Panic => Panic
      end
  | (Ok HpSATAPI, (_, w)) =>
      match atapi_new i w with
      | Ok d => Ok (Some (DrATAPI d))
      | Err ETIMEDOUT => Err ETIMEDOUT
      | Err _ => Ok None
      | Panic => Panic
      end
  | (Ok _, _) => Ok None
  | (Err e, _) => Err e
  | (Panic, _) => Panic
  end.

(** The ports from [i] on that the controller implements. *)
Fixpoint collect_disks (pi i : Z) (ports : list W) : res errno (list (AhciDrive W)) :=
  match ports with
  | [] => Ok []
  | w :: ports =>
      if Z.land pi (Z.shiftl 1 i) =? Z.shiftl 1 i then
        match disk_of_port i w with
        | Ok o =>
            match collect_disks pi (i + 1) ports with
            | Ok ds => Ok (option_list o ++ ds)
            | r => r
            end
        | Err e => Err e
        | Panic => Panic
        end
      else collect_disks pi (i + 1) ports
  end.

End drives.

(** ** The registers of the controller *)

Inductive HReg : Type := HCap | HGhc | HIs | HPi | HVs | HCap2 | HBohc.

Section hba.
Context {G W : Type} `{HG : Io G HReg} `{HIo : Io (AhciMem * W) PReg}.

(** The controller's registers and the ports. *)
Abbreviation gp := (prog (G * list (AhciMem * W)) errno).

Definition hreg_read (r : HReg) : gp Z := λ s, let '(v, g) := io_read r s.1 in (Ok v, (g, s.2)).
Definition hreg_write (r : HReg) (v : Z) : gp unit := modify (λ s, (io_write r v s.1, s.2)).

Definition hba_init : gp unit :=
  _ ← hreg_write HGhc (Z.lor (Z.shiftl 1 31) (Z.shiftl 1 1));
  _ ← hreg_read HCap; _ ← hreg_read HGhc; _ ← hreg_read HIs; _ ← hreg_read HPi;
  _ ← hreg_read HVs; _ ← hreg_read HCap2; _ ← hreg_read HBohc;
  mret tt.

(** [port.is.write(port.is.read())]. *)
Definition clear_port (s : AhciMem * W) : AhciMem * W := let '(v, s) := io_read PIs s in io_write PIs v s.

Definition clear_ports (pi_is : Z) (ports : list (AhciMem * W)) : list (AhciMem * W) :=
  imap (λ i s, if 0 <? Z.land pi_is (Z.shiftl 1 (Z.of_nat i)) then clear_port s else s) ports.

Definition hba_irq : gp bool :=
  st ← hreg_read HIs;
  if 0 <? st then
    pi ← hreg_read HPi;
    _ ← modify (λ s, (s.1, clear_ports (Z.land pi st) s.2));
    _ ← hreg_write HIs st;
    mret true
  else mret false.

Definition of_res {A : Type} (r : res errno A) : gp A := λ s, (r, s).

(** [disks]: the controllers of the ports before the drives are set up. *)
Definition ahci_disks (ph : Z → AhciPhys) (fuel : nat) (ws : list W) : gp (list (AhciDrive W)) :=
  _ ← hba_init;
  pi ← hreg_read HPi;
  of_res (collect_disks ph fuel pi 0 ws).

End hba.

(** ** Drives as disks *)

(** The polls a transfer of a buffer needs. *)
Definition polls_for (bound : nat) (buf : list Z) : nat := Z.to_nat (Z.of_nat (length buf) / 512) * (bound + 2) + bound + 2.

Section scheme_disk.
Context {W : Type} `{HL : AhciLaws W ph} `{HDef : !AhciDeferred W} (address : Z).

Abbreviation bound := (al_bound (ph := ph)).

#[local] Instance ata_scheme_disk : SchemeDisk (DiskATA W) := {|
  sd_block_length := ata_block_length;
  sd_size := ata_size;
  sd_read block buf := ata_read ph (S bound) (polls_for bound buf) block address buf;
  sd_write block buf := ata_write ph (S bound) (polls_for bound buf) block address buf;
|}.

Lemma array_read_inv d block buf r d' :
  array_op d (AtaRead block address buf) r d' →
  let n := Z.of_nat (length buf) / 512 * 512 in
  d' = d ∧ (r = Ok (Some n, slice (Z.to_nat (block * 512)) (Z.to_nat n) d ++ drop (Z.to_nat n) buf) ∨ r = Err EIO).
Proof. inversion 1; subst; split; [done|by left|done|by right]. Qed.

Lemma array_write_inv d block buf r d' :
  array_op d (AtaWrite block address buf) r d' →
  let n := Z.of_nat (length buf) / 512 * 512 in
  r = Ok (Some n, buf) ∧ d' = splice (Z.to_nat (block * 512)) (take (Z.to_nat n) buf) d ∨
  r = Err EIO ∧ ∃ x, Z.of_nat (length x) = n ∧ d' = splice (Z.to_nat (block * 512)) x d.
Proof. inversion 1; subst; [by left|right; by split; [|eexists]]. Qed.

(** A SATA drive keeps what the scheme asks of a disk. *)
Lemma ata_array_disk (Hph : phys_ok (ph := ph)) : ArrayDisk (DiskATA W).
Proof.
  refine {| ad_blk := 512; ad_bytes D := al_disk (ph := ph) (da_port D).2;
            ad_ok D := DiskAt (ph := ph) (al_disk (ph := ph) (da_port D).2) D ∧
                       Z.of_nat (length (al_disk (ph := ph) (da_port D).2)) <= 2 ^ 57 |}; [lia| | |].
  - intros D HD. by exists D.
  - intros D block buf [HD Hl] Hb Hr.
    destruct (run_op_spec (S bound) (polls_for bound buf) (AtaRead block address buf) _ D ltac:(lia) Hph HD) as (d' & Ha & HD' & Hln).
    { split_and!; [done|done|]. cbn [op_block]. unfold op_sectors. cbn [op_buffer]. lia. }
    { unfold enough_polls, op_sectors, polls_for. cbn [op_buffer]. lia. }
    cbn [run_ata_op] in Ha, HD'. cbn [sd_read ata_scheme_disk]. destruct (ata_read _ _ _ _ _ _ D) as [r D'].
    cbn [fst snd] in *. pose proof HD' as (_ & p & m & _ & _ & [_ _ Hd _ _]). exists r, D'.
    apply array_read_inv in Ha as [-> Hres]. split_and!; [done|by rewrite Hd|by rewrite Hd|done|exact Hres].
  - intros D block buf [HD Hl] Hb Hr.
    destruct (run_op_spec (S bound) (polls_for bound buf) (AtaWrite block address buf) _ D ltac:(lia) Hph HD) as (d' & Ha & HD' & Hln).
    { split_and!; [done|done|]. cbn [op_block]. unfold op_sectors. cbn [op_buffer]. lia. }
    { unfold enough_polls, op_sectors, polls_for. cbn [op_buffer]. lia. }
    cbn [run_ata_op] in Ha, HD'. cbn [sd_write ata_scheme_disk]. unfold mbind, prog_bind, p_bind in Ha, HD'.
    destruct (ata_write _ _ _ _ _ _ D) as [r D'].
    assert (DiskAt (ph := ph) d' D') as HD1 by (by destruct r).
    pose proof HD1 as (_ & p & m & _ & _ & [_ _ Hd _ _]). exists r, D'.
    apply array_write_inv in Ha. split_and!; [done|by rewrite Hd|rewrite Hd; lia|]. rewrite Hd.
    destruct r as [o|e|]; cbn [fst snd] in Ha; destruct Ha as [[E ->]|[E Hx]]; try done; injection E as <-.
    + by left.
    + by right.
Qed.
End scheme_disk.

(** The interrupt handler leaves the drives at rest as they are: it only takes back the
    interrupt of a command that has ended. *)
Lemma clear_port_rest {W : Type} `{HL : AhciLaws W ph} `{HDef : !AhciDeferred W} p m d clb st s :
  Port (ph := ph) p m d clb st s → at_rest p → Port (ph := ph) PhIdle m d clb st (clear_port s).
Proof.
  intros HP Hr. assert (not_busy p) as Hn by (by destruct p).
  pose proof (preg_read_quiet (ph := ph) PIs p m d clb st s HP Hn) as H. unfold wp, preg_read in H. unfold clear_port.
  destruct (io_read PIs s) as [v s1]. cbn in H. destruct H as (HP1 & _).
  destruct (preg_write_port (ph := ph) PIs v p m d clb st s1 HP1) as (p' & Hw & _ & HP2). by rewrite (Hw Hr) in HP2.
Qed.

(** Probing a port finds the kind of drive by its signature, and changes nothing. *)
Lemma probe_rest {W : Type} `{HL : AhciLaws W ph} `{HDef : !AhciDeferred W} p m d clb st s :
  Port (ph := ph) p m d clb st s → at_rest p → ∃ t s', probe s = (Ok t, s') ∧ Port (ph := ph) p m d clb st s'.
Proof.
  intros HP Hr. assert (not_busy p) as Hn by (by destruct p).
  assert (wp probe (ok_then (λ _ s', Port (ph := ph) p m d clb st s')) s) as H.
  { unfold probe. eapply wp_seq; [by apply preg_readf_quiet|]. intros [|] s1 (HP1 & _); [|exact HP1].
    eapply wp_seq; [by apply preg_read_quiet|]. intros v s2 (HP2 & _). exact HP2. }
  unfold wp in H. destruct (probe s) as [[t|e|] s']; [|done..]. by exists t, s'.
Qed.
