(* ===== verification/Ide.v ===== *)
(** The IDE driver ided (storage/ided/src/ide.rs and the probing of storage/ided/src/main.rs):
    the registers of a channel, programmed and bus master transfers, the disks.

    A register is a constructor of [IReg], one per port: the status and the command register
    share a port, and so do the alternate status and the device control register.  The state
    of a channel is the memory the bus master works on, [ChanMem], and the world [W]; reading
    a register may change both.  The clock of the time limits is the class [Clock].  The
    loops that wait have fuel and end in [ETIMEDOUT] when it runs out; [polling_returns]
    shows that fuel for one nanosecond more than the time limit is enough. *)

From S2P Require Import Prelude Io.

Inductive AtaCommand : Type :=
| ReadPio | ReadPioExt | ReadDma | ReadDmaExt | WritePio | WritePioExt | WriteDma | WriteDmaExt
| CacheFlush | CacheFlushExt | Packet | IdentifyPacket | Identify.

Definition ata_command_code (c : AtaCommand) : Z :=
  match c with
  | ReadPio => 0x20 | ReadPioExt => 0x24 | ReadDma => 0xC8 | ReadDmaExt => 0x25
  | WritePio => 0x30 | WritePioExt => 0x34 | WriteDma => 0xCA | WriteDmaExt => 0x35
  | CacheFlush => 0xE7 | CacheFlushExt => 0xEA
  | Packet => 0xA0 | IdentifyPacket => 0xA1 | Identify => 0xEC
  end.

(** One second, in nanoseconds. *)
Definition TIMEOUT : Z := 1000000000.

Record PrdtEntry := mk_prd { pr_phys : Z; pr_size : Z; pr_flags : Z }.

Record ChanMem := mk_chan_mem { cm_prdt : list PrdtEntry; cm_buf : list Z }.

(** The physical addresses of the two. *)
Record ChanPhys := mk_chan_phys { cp_prdt : Z; cp_buf : Z }.

Definition set_cm_prdt (x : list PrdtEntry) (m : ChanMem) : ChanMem := mk_chan_mem x (cm_buf m).
Definition set_cm_buf (x : list Z) (m : ChanMem) : ChanMem := mk_chan_mem (cm_prdt m) x.

Inductive IReg : Type :=
| IrData | IrError | IrCount | IrLba0 | IrLba1 | IrLba2 | IrDevice | IrStatus
| IrControl | IrBmCommand | IrBmStatus | IrBmPrdt.

#[export] Instance ireg_eq_dec : EqDecision IReg.
Proof. solve_decision. Defined.

(** The port of each register. *)
Definition channel_port (base control_base busmaster_base : Z) (r : IReg) : Z :=
  match r with
  | IrData => base
  | IrError => as_u16 (base + 1)
  | IrCount => as_u16 (base + 2)
  | IrLba0 => as_u16 (base + 3)
  | IrLba1 => as_u16 (base + 4)
  | IrLba2 => as_u16 (base + 5)
  | IrDevice => as_u16 (base + 6)
  | IrStatus => as_u16 (base + 7)
  | IrControl => control_base
  | IrBmCommand => busmaster_base
  | IrBmStatus => as_u16 (busmaster_base + 2)
  | IrBmPrdt => as_u16 (busmaster_base + 4)
  end.

(** [128 * 512]: the size of the buffer, and of the chunks of a transfer. *)
Definition IDE_CHUNK : nat := Z.to_nat 65536.

Definition channel_mem : ChanMem := mk_chan_mem (replicate 128 (mk_prd 0 0 0)) (replicate IDE_CHUNK 0).

Definition primary_compat (busmaster_base : Z) : IReg → Z := channel_port 0x1F0 0x3F6 busmaster_base.

Definition secondary_compat (busmaster_base : Z) : IReg → Z := channel_port 0x170 0x376 busmaster_base.

Record AtaDisk := mk_ata_disk { ad_chan_i : Z; ad_dev : Z; ad_size : Z; ad_dma : bool; ad_lba_48 : bool }.

(** [Instant::now], in nanoseconds. *)
Class Clock (W : Type) := clock_now : W → Z * W.

Section ide.
Context {W : Type} `{HIo : Io (ChanMem * W) IReg} `{HC : Clock W} (ph : ChanPhys) (fuel : nat).

Abbreviation S := (ChanMem * W)%type.
Abbreviation ip := (prog S errno).

Definition ireg_read (r : IReg) : ip Z := λ s, let '(v, s) := io_read r s in (Ok v, s).
Definition ireg_write (r : IReg) (v : Z) : ip unit := modify (io_write r v).
Definition ireg_writef (r : IReg) (flags : Z) (value : bool) : ip unit := modify (writef r flags value).
Definition now : ip Z := λ '(m, w), let '(t, w) := clock_now w in (Ok t, (m, w)).
Definition on_chan (f : ChanMem → ChanMem) : ip unit := modify (λ '(m, w), (f m, w)).

(** ** Waiting *)

Definition check_status : ip Z :=
  status ← ireg_read IrStatus;
  if negb (Z.land status 0x01 =? 0) then _ ← ireg_read IrError; throw EIO
  else if negb (Z.land status 0x20 =? 0) then throw EIO
  else mret status.

Fixpoint poll_loop (fuel : nat) (read : bool) (start : Z) : ip unit :=
  match fuel with
  | O => throw ETIMEDOUT
  | Datatypes.S fuel =>
      status ← check_status;
      if Z.land status 0x80 =? 0 then
        if read && (Z.land status 0x08 =? 0) then throw EIO else mret tt
      else
        t ← now;
        if TIMEOUT <=? t - start then throw EIO else poll_loop fuel read start
  end.

Definition polling (read : bool) : ip unit :=
  _ ← ireg_read IrControl;
  _ ← ireg_read IrControl;
  _ ← ireg_read IrControl;
  _ ← ireg_read IrControl;
  start ← now;
  poll_loop fuel read start.

(** The loop that waits for the bus master; its value is the error bit. *)
Fixpoint busmaster_loop (fuel : nat) (start : Z) : ip bool :=
  match fuel with
  | O => throw ETIMEDOUT
  | Datatypes.S fuel =>
      status ← ireg_read IrBmStatus;
      if negb (Z.land status (Z.shiftl 1 1) =? 0) then mret true
      else if Z.land status 1 =? 0 then mret false
      else
        t ← now;
        if TIMEOUT <=? t - start then throw EIO else busmaster_loop fuel start
  end.

(** ** One command *)

Definition prd_entry (sectors i : nat) : PrdtEntry :=
  mk_prd (cp_buf ph + Z.of_nat i * 512) 512 (if decide (i + 1 = sectors)%nat then Z.shiftl 1 15 else 0).

(** [for i in l { prdt[i] = .. }]; an address above 4 GiB panics. *)
Fixpoint fill_prdt (sectors : nat) (l : list nat) : ip unit :=
  match l with
  | [] => mret tt
  | i :: l =>
      if cp_buf ph + Z.of_nat i * 512 <? 2 ^ 32 then
        prdt ← gets (λ s, cm_prdt s.1);
        if decide (i < length prdt)%nat then
          _ ← on_chan (set_cm_prdt (<[i := prd_entry sectors i]> prdt));
          fill_prdt sectors l
        else panic
      else panic
  end.

Definition begin_dma (sectors : nat) (write : bool) : ip unit :=
  _ ← ireg_writef IrBmCommand 1 false;
  _ ← fill_prdt sectors (seq 0 sectors);
  if cp_prdt ph <? 2 ^ 32 then
    _ ← ireg_write IrBmPrdt (cp_prdt ph);
    _ ← ireg_writef IrBmCommand (Z.shiftl 1 3) (negb write);
    ireg_write IrBmStatus 6
  else panic.

(** Selects the drive and sets the sector count and the block address. *)
Definition set_registers (d : AtaDisk) (block sectors : Z) : ip unit :=
  _ ← ireg_write IrDevice (Z.lor 0xE0 (as_u8 (Z.shiftl (ad_dev d) 4)));
  _ ← (if ad_lba_48 d then
         _ ← ireg_writef IrControl 0x80 true;
         _ ← ireg_write IrCount (as_u8 (Z.shiftr sectors 8));
         _ ← ireg_write IrLba0 (as_u8 (Z.shiftr block 24));
         _ ← ireg_write IrLba1 (as_u8 (Z.shiftr block 32));
         _ ← ireg_write IrLba2 (as_u8 (Z.shiftr block 40));
         ireg_writef IrControl 0x80 false
       else mret tt);
  _ ← ireg_write IrCount (as_u8 sectors);
  _ ← ireg_write IrLba0 (as_u8 block);
  _ ← ireg_write IrLba1 (as_u8 (Z.shiftr block 8));
  ireg_write IrLba2 (as_u8 (Z.shiftr block 16)).

Definition read_command (d : AtaDisk) : AtaCommand :=
  if ad_dma d then if ad_lba_48 d then ReadDmaExt else ReadDma
  else if ad_lba_48 d then ReadPioExt else ReadPio.

Definition write_command (d : AtaDisk) : AtaCommand :=
  if ad_dma d then if ad_lba_48 d then WriteDmaExt else WriteDma
  else if ad_lba_48 d then WritePioExt else WritePio.

Definition send_command (c : AtaCommand) : ip unit := ireg_write IrStatus (ata_command_code c).

(** Runs the bus master until the transfer has ended. *)
Definition run_dma : ip unit :=
  _ ← ireg_writef IrBmCommand 1 true;
  _ ← polling false;
  start ← now;
  error ← busmaster_loop fuel start;
  _ ← ireg_writef IrBmCommand 1 false;
  _ ← ireg_write IrBmStatus 6;
  if error : bool then throw EIO else mret tt.

(** [chunk[off ..]] gets the bytes of a dword, one by one. *)
Definition put_dword (off : nat) (data : Z) (chunk : list Z) : ip (list Z) :=
  if decide (off + 4 <= length chunk)%nat then
    mret (splice off [as_u8 data; as_u8 (Z.shiftr data 8); as_u8 (Z.shiftr data 16); as_u8 (Z.shiftr data 24)] chunk)
  else panic.

Fixpoint pio_dwords (n off : nat) (chunk : list Z) : ip (list Z) :=
  match n with
  | O => mret chunk
  | Datatypes.S n =>
      data ← ireg_read IrData;
      chunk ← put_dword off data chunk;
      pio_dwords n (off + 4) chunk
  end.

Fixpoint pio_sectors (n sector : nat) (chunk : list Z) : ip (list Z) :=
  match n with
  | O => mret chunk
  | Datatypes.S n =>
      _ ← polling true;
      chunk ← pio_dwords 128 (sector * 512) chunk;
      pio_sectors n (sector + 1) chunk
  end.

(** The dword at [off]; every byte is an index of the chunk. *)
Definition get_dword (off : nat) (chunk : list Z) : ip Z :=
  a ← unwrap (chunk !! off);
  b ← unwrap (chunk !! (off + 1)%nat);
  c ← unwrap (chunk !! (off + 2)%nat);
  d ← unwrap (chunk !! (off + 3)%nat);
  mret (Z.lor (Z.lor (Z.lor a (Z.shiftl b 8)) (Z.shiftl c 16)) (Z.shiftl d 24)).

Fixpoint pio_out_dwords (n off : nat) (chunk : list Z) : ip unit :=
  match n with
  | O => mret tt
  | Datatypes.S n =>
      v ← get_dword off chunk;
      _ ← ireg_write IrData v;
      pio_out_dwords n (off + 4) chunk
  end.

Fixpoint pio_out_sectors (n sector : nat) (chunk : list Z) : ip unit :=
  match n with
  | O => mret tt
  | Datatypes.S n =>
      _ ← polling false;
      _ ← pio_out_dwords 128 (sector * 512) chunk;
      pio_out_sectors n (sector + 1) chunk
  end.

(** ** Chunks of 64 KiB *)

Definition chunk_sectors (chunk : list Z) : nat := ((length chunk + 511) / 512)%nat.

(** [chunk.copy_from_slice(&chan.buf[..chunk.len()])]. *)
Definition from_buf (chunk : list Z) : ip (list Z) :=
  buf ← gets (λ s, cm_buf s.1);
  if decide (length chunk <= length buf)%nat then mret (take (length chunk) buf) else panic.

(** [chan.buf[..chunk.len()].copy_from_slice(chunk)]. *)
Definition to_buf (chunk : list Z) : ip unit :=
  buf ← gets (λ s, cm_buf s.1);
  if decide (length chunk <= length buf)%nat then on_chan (set_cm_buf (splice 0 chunk buf)) else panic.

Definition read_chunk (d : AtaDisk) (block : Z) (chunk : list Z) : ip (list Z) :=
  if block <? 0x1000000000000 then
    let sectors := chunk_sectors chunk in
    if decide (sectors <= 128)%nat then
      _ ← (if ad_dma d then begin_dma sectors false else mret tt);
      _ ← set_registers d block (Z.of_nat sectors);
      _ ← send_command (read_command d);
      if ad_dma d then _ ← run_dma; from_buf chunk else pio_sectors sectors 0 chunk
    else panic
  else panic.

Definition write_chunk (d : AtaDisk) (block : Z) (chunk : list Z) : ip unit :=
  if block <? 0x1000000000000 then
    let sectors := chunk_sectors chunk in
    if decide (sectors <= 128)%nat then
      _ ← (if ad_dma d then _ ← begin_dma sectors true; to_buf chunk else mret tt);
      _ ← set_registers d block (Z.of_nat sectors);
      _ ← send_command (write_command d);
      _ ← (if ad_dma d then run_dma else pio_out_sectors sectors 0 chunk);
      _ ← send_command (if ad_lba_48 d then CacheFlushExt else CacheFlush);
      polling false
    else panic
  else panic.

(** The loop over the chunks of what is left of the buffer; [n] is at least its length. *)
Fixpoint read_loop (n : nat) (d : AtaDisk) (start_block count : Z) (buffer : list Z) : ip (Z * list Z) :=
  match n, buffer with
  | _, [] | O, _ => mret (count, [])
  | Datatypes.S n, _ =>
      chunk ← read_chunk d (as_u64 (start_block + count / 512)) (take IDE_CHUNK buffer);
      '(total, rest) ← read_loop n d start_block (count + Z.of_nat (length (take IDE_CHUNK buffer))) (drop IDE_CHUNK buffer);
      mret (total, chunk ++ rest)
  end.

Fixpoint write_loop (n : nat) (d : AtaDisk) (start_block count : Z) (buffer : list Z) : ip Z :=
  match n, buffer with
  | _, [] | O, _ => mret count
  | Datatypes.S n, _ =>
      _ ← write_chunk d (as_u64 (start_block + count / 512)) (take IDE_CHUNK buffer);
      write_loop n d start_block (count + Z.of_nat (length (take IDE_CHUNK buffer))) (drop IDE_CHUNK buffer)
  end.

(** The second part of the answer is the buffer afterwards. *)
Definition ide_read (d : AtaDisk) (start_block : Z) (buffer : list Z) : ip (option Z * list Z) :=
  '(count, buffer) ← read_loop (length buffer) d start_block 0 buffer;
  mret (Some count, buffer).

Definition ide_write (d : AtaDisk) (start_block : Z) (buffer : list Z) : ip (option Z) :=
  count ← write_loop (length buffer) d start_block 0 buffer;
  mret (Some count).

(** [id]: channel and device. *)
Definition ide_id (d : AtaDisk) : Z := Z.lor (as_usize (Z.shiftl (ad_chan_i d) 1)) (ad_dev d).

Definition ide_block_length : Z := 512.

(** ** Probing *)

(** The sectors of a drive and whether its addresses have 48 bits, from the words of
    IDENTIFY DEVICE. *)
Definition identify_lba (dest : list Z) : Z * bool :=
  let w k := default 0 (dest !! k) in
  let sectors := Z.lor (Z.lor (Z.lor (w 100%nat) (Z.shiftl (w 101%nat) 16)) (Z.shiftl (w 102%nat) 32))
                   (Z.shiftl (w 103%nat) 48) in
  if sectors =? 0 then (Z.lor (w 60%nat) (Z.shiftl (w 61%nat) 16), false) else (sectors, true).

Fixpoint identify_loop (fuel : nat) : ip bool :=
  match fuel with
  | O => throw ETIMEDOUT
  | Datatypes.S fuel =>
      status ← ireg_read IrStatus;
      if negb (Z.land status 1 =? 0) then mret true
      else if (Z.land status 0x80 =? 0) && negb (Z.land status 0x08 =? 0) then mret false
      else identify_loop fuel
  end.

Fixpoint identify_words (n : nat) : ip (list Z) :=
  match n with
  | O => mret []
  | Datatypes.S n =>
      data ← ireg_read IrData;
      rest ← identify_words n;
      mret (as_u16 data :: as_u16 (Z.shiftr data 16) :: rest)
  end.

Definition probe_device (chan_i : Z) (dma : bool) (dev : Z) : ip (option AtaDisk) :=
  _ ← ireg_write IrDevice (Z.lor 0xA0 (as_u8 (Z.shiftl dev 4)));
  _ ← send_command Identify;
  status ← ireg_read IrStatus;
  if status =? 0 then mret None
  else
    error ← identify_loop fuel;
    if error : bool then mret None
    else
      dest ← identify_words 128;
      let '(sectors, lba_48) := identify_lba dest in
      mret (Some (mk_ata_disk chan_i dev (as_u64 (sectors * 512)) dma lba_48)).

Definition probe_channel (chan_i : Z) (dma : bool) : ip (list AtaDisk) :=
  _ ← ireg_write IrControl 2;
  a ← probe_device chan_i dma 0;
  b ← probe_device chan_i dma 1;
  mret (option_list a ++ option_list b).

End ide.
