(* ===== verification/IdeDisk.v ===== *)
(** A channel with a drive, after the ATA and the bus master IDE specifications, and what the
    driver of [Ide] does with it.

    A drive is seen through its phase, the command block registers (each holds the last
    two values written), and its bytes; [IdeLaws] says how register accesses move it.
    [ide_read_bytes] and [ide_write_bytes] are the reads and writes of a disk,
    [ide_lba28_aliases] shows what a drive without 48-bit addresses does above 8 GiB. *)

From S2P Require Import Prelude Io Ide.

(** ** The drive *)

(** The command block registers: the last value written and the one before. *)
Record IdeRegs := mk_ide_regs {
  ir_count : Z * Z; ir_lba0 : Z * Z; ir_lba1 : Z * Z; ir_lba2 : Z * Z;
  ir_dev : Z; ir_prd : Z; ir_to_memory : bool; ir_start : bool;
}.

Definition reg_write (r : IReg) (v : Z) (g : IdeRegs) : IdeRegs :=
  match g with
  | mk_ide_regs c a0 a1 a2 dev p dir st =>
      match r with
      | IrCount => mk_ide_regs (v, c.1) a0 a1 a2 dev p dir st
      | IrLba0 => mk_ide_regs c (v, a0.1) a1 a2 dev p dir st
      | IrLba1 => mk_ide_regs c a0 (v, a1.1) a2 dev p dir st
      | IrLba2 => mk_ide_regs c a0 a1 (v, a2.1) dev p dir st
      | IrDevice => mk_ide_regs c a0 a1 a2 v p dir st
      | IrBmPrdt => mk_ide_regs c a0 a1 a2 dev v dir st
      | IrBmCommand => mk_ide_regs c a0 a1 a2 dev p (Z.testbit v 3) (Z.testbit v 0)
      | _ => g
      end
  end.

Inductive IdeCmd : Type := IcRead (dma : bool) (lba n : Z) | IcWrite (lba n : Z) | IcFlush | IcOther.

(** The address and the count of a command with 48-bit or 28-bit addresses; a count of 0
    stands for the largest one. *)
Definition regs_lba (ext : bool) (g : IdeRegs) : Z :=
  if ext then le_val [(ir_lba0 g).1; (ir_lba1 g).1; (ir_lba2 g).1; (ir_lba0 g).2; (ir_lba1 g).2; (ir_lba2 g).2]
  else le_val [(ir_lba0 g).1; (ir_lba1 g).1; (ir_lba2 g).1] + 2 ^ 24 * Z.land (ir_dev g) 15.

Definition regs_count (ext : bool) (g : IdeRegs) : Z :=
  let n := if ext then le_val [(ir_count g).1; (ir_count g).2] else (ir_count g).1 in
  if n =? 0 then if ext then 65536 else 256 else n.

(** A command for drive [dev] in LBA mode. *)
Definition ide_command (dev : Z) (g : IdeRegs) (code : Z) : IdeCmd :=
  if (Z.land (Z.shiftr (ir_dev g) 4) 1 =? dev) && Z.testbit (ir_dev g) 6 then
    if code =? 0x20 then IcRead false (regs_lba false g) (regs_count false g)
    else if code =? 0x24 then IcRead false (regs_lba true g) (regs_count true g)
    else if code =? 0xC8 then IcRead true (regs_lba false g) (regs_count false g)
    else if code =? 0x25 then IcRead true (regs_lba true g) (regs_count true g)
    else if code =? 0xCA then IcWrite (regs_lba false g) (regs_count false g)
    else if code =? 0x35 then IcWrite (regs_lba true g) (regs_count true g)
    else if (code =? 0xE7) || (code =? 0xEA) then IcFlush
    else IcOther
  else IcOther.

(** [IpIn n data]: [data] is left to be read by the host, the sector is ready after [n] more
    reads of the status; [IpDma] waits for the bus master and [IpRun] transfers; [IpEnd] is
    the end of a transfer, false after an error of the bus master; [IpFault] is an error of
    the drive. *)
Inductive IdePhase : Type :=
| IpIdle | IpFault
| IpIn (n : nat) (data : list Z)
| IpDma (write : bool) (lba n : Z)
| IpRun (k : nat) (write : bool) (lba n : Z)
| IpEnd (ok : bool)
| IpBusy (k : nat).

#[export] Instance ide_phase_eq_dec : EqDecision IdePhase.
Proof. solve_decision. Defined.

Definition ide_rest (p : IdePhase) : Prop := match p with IpIdle | IpFault | IpEnd _ => True | _ => False end.

(** The reads of the status for which the drive is busy. *)
Definition busy_for (p : IdePhase) : nat :=
  match p with IpIn n _ => n | IpRun k _ _ _ | IpBusy k => S k | _ => O end.

(** What a transfer does to memory and to the bytes of the drive. *)
Definition dma_done (ok write : bool) (lba n : Z) (m : ChanMem) (d : list Z) (m' : ChanMem) (d' : list Z) : Prop :=
  let from := Z.to_nat (lba * 512) in
  let len := Z.to_nat (n * 512) in
  if write then m' = m ∧ ∃ x, length x = len ∧ d' = splice from x d ∧ (ok = true → x = take len (cm_buf m))
  else d' = d ∧ ∃ b, length b = length (cm_buf m) ∧ m' = set_cm_buf b m ∧ (ok = true → take len b = slice from len d).

(** What happens while the host looks at the drive. *)
Inductive ide_settle : IdePhase * ChanMem * list Z → IdePhase * ChanMem * list Z → Prop :=
| st_still p m d : busy_for p = O → ide_settle (p, m, d) (p, m, d)
| st_in n n' data m d : (n' < n)%nat → ide_settle (IpIn n data, m, d) (IpIn n' data, m, d)
| st_in_fault n data m d : ide_settle (IpIn (S n) data, m, d) (IpFault, m, d)
| st_run k k' w lba n m d : (k' < k)%nat → ide_settle (IpRun k w lba n, m, d) (IpRun k' w lba n, m, d)
| st_end k ok w lba n m d m' d' : dma_done ok w lba n m d m' d' → ide_settle (IpRun k w lba n, m, d) (IpEnd ok, m', d')
| st_run_fault k w lba n m d m' d' : dma_done false w lba n m d m' d' → ide_settle (IpRun k w lba n, m, d) (IpFault, m', d')
| st_busy k k' m d : (k' < k)%nat → ide_settle (IpBusy k, m, d) (IpBusy k', m, d)
| st_flushed k p m d : p = IpIdle ∨ p = IpFault → ide_settle (IpBusy k, m, d) (p, m, d).

(** A read of the data register takes the next dword; a new sector may be late or fail. *)
Inductive ide_data : IdePhase → Z → IdePhase → Prop :=
| dt_more data : (4 < length data)%nat → Z.of_nat (length data) mod 512 ≠ 4 →
    ide_data (IpIn 0 data) (le_val (take 4 data)) (IpIn 0 (drop 4 data))
| dt_sector n data : (4 < length data)%nat → Z.of_nat (length data) mod 512 = 4 →
    ide_data (IpIn 0 data) (le_val (take 4 data)) (IpIn n (drop 4 data))
| dt_last data : length data = 4%nat → ide_data (IpIn 0 data) (le_val data) IpIdle.

(** The value read, by the phase afterwards. *)
Definition ide_value (r : IReg) (v : Z) (g : IdeRegs) (p : IdePhase) : Prop :=
  match r with
  | IrStatus =>
      match p with
      | IpFault => Z.land v 0x01 ≠ 0 ∨ Z.land v 0x20 ≠ 0
      | _ => Z.land v 0x01 = 0 ∧ Z.land v 0x20 = 0 ∧ (Z.land v 0x80 = 0 ↔ busy_for p = O) ∧
             ((∃ data, p = IpIn 0 data) → Z.land v 0x08 ≠ 0)
      end
  | IrControl => ide_rest p → Z.testbit v 2 = false
  | IrBmCommand => Z.testbit v 3 = ir_to_memory g ∧ Z.testbit v 0 = ir_start g
  | IrBmStatus =>
      match p with
      | IpEnd true => Z.land v 3 = 0
      | IpEnd false => Z.land v 2 ≠ 0
      | _ => True
      end
  | _ => True
  end.

(** The table the bus master reads describes the first [n] sectors of the buffer. *)
Definition prdt_covers (ph : ChanPhys) (m : ChanMem) (n : nat) : Prop :=
  ∀ i, (i < n)%nat → ∃ e, cm_prdt m !! i = Some e ∧ pr_phys e = cp_buf ph + 512 * Z.of_nat i ∧ pr_size e = 512 ∧
    (Z.testbit (pr_flags e) 15 = true ↔ (i + 1 = n)%nat).

Definition in_drive (lba n : Z) (d : list Z) : Prop := (lba + n) * 512 <= Z.of_nat (length d).

(** A write of the command register at rest, and of the others. *)
Definition ide_write_step (ph : ChanPhys) (dev : Z) (r : IReg) (v : Z) (g : IdeRegs) (m : ChanMem) (d : list Z)
    (p p' : IdePhase) : Prop :=
  match r with
  | IrStatus => ide_rest p →
      match ide_command dev g v with
      | IcRead dma lba n => in_drive lba n d →
          if dma then p' = IpDma false lba n
          else ∃ k, p' = IpIn k (slice (Z.to_nat (lba * 512)) (Z.to_nat (n * 512)) d)
      | IcWrite lba n => in_drive lba n d → p' = IpDma true lba n
      | IcFlush => ∃ k, p' = IpBusy k
      | IcOther => True
      end
  | IrControl => ide_rest p → Z.testbit v 2 = false → p' = p
  | IrBmCommand =>
      (ide_rest p → Z.testbit v 0 = false → p' = p) ∧
      (∀ w lba n, p = IpDma w lba n → Z.testbit v 0 = true → Z.testbit v 3 = negb w → ir_prd g = cp_prdt ph →
         prdt_covers ph m (Z.to_nat n) → ∃ k, p' = IpRun k w lba n)
  | _ => ide_rest p → p' = p
  end.

(** The clock goes on with every reading, and never back. *)
Class ClockLaws (W : Type) `{Io (ChanMem * W) IReg} `{Clock W} := {
  cl_time : W → Z;
  cl_now w t w' : clock_now w = (t, w') → t = cl_time w' ∧ cl_time w < cl_time w';
  cl_read r m w v m' w' : io_read r (m, w) = (v, (m', w')) → cl_time w <= cl_time w';
}.

Class IdeLaws (W : Type) `{HIo : Io (ChanMem * W) IReg} `{HC : Clock W} (ph : ChanPhys) (dev : Z) := {
  il_clock :: ClockLaws W;
  il_phase : W → IdePhase;
  il_regs : W → IdeRegs;
  il_disk : W → list Z;
  (** the drive is ready after [il_bound] looks, which take at most [il_tick] each, in time *)
  il_bound : nat;
  il_tick : Z;
  il_in_time : 2 * il_tick * (Z.of_nat il_bound + 2) < TIMEOUT;
  il_tick_pos : 0 < il_tick;
  il_width : io_width = 8;
  il_busy_bound w : (busy_for (il_phase w) <= il_bound)%nat;
  il_now w t w' : clock_now w = (t, w') →
    cl_time w' <= cl_time w + il_tick ∧ il_phase w' = il_phase w ∧ il_regs w' = il_regs w ∧ il_disk w' = il_disk w;
  il_read r m w v m' w' : io_read r (m, w) = (v, (m', w')) →
    cl_time w' <= cl_time w + il_tick ∧ il_regs w' = il_regs w ∧ ide_value r v (il_regs w) (il_phase w') ∧
    (r ≠ IrData → ide_settle (il_phase w, m, il_disk w) (il_phase w', m', il_disk w')) ∧
    (r = IrData → ∀ data, il_phase w = IpIn 0 data → (4 <= length data)%nat →
       ide_data (il_phase w) v (il_phase w') ∧ m' = m ∧ il_disk w' = il_disk w);
  il_write r v m w m' w' : io_write r v (m, w) = (m', w') →
    m' = m ∧ il_disk w' = il_disk w ∧ il_regs w' = reg_write r v (il_regs w) ∧
    ide_write_step ph dev r v (il_regs w) m (il_disk w) (il_phase w) (il_phase w');
}.

(** ** Waiting ends *)

Section clock.
Context {W : Type} `{HCL : ClockLaws W}.
Abbreviation S := (ChanMem * W)%type.

(** The program does not run out of fuel, and the clock does not go back. *)
Definition returns {A : Type} (m : prog S errno A) : Prop :=
  ∀ s, (m s).1 ≠ Err ETIMEDOUT ∧ cl_time s.2 <= cl_time (m s).2.2.

Lemma read_returns r : returns (ireg_read r).
Proof.
  intros [m w]. unfold ireg_read. destruct (io_read r (m, w)) as [v [m' w']] eqn:E. split; [done|]. cbn. by eapply cl_read.
Qed.

Lemma bind_returns {A B : Type} (f : A → prog S errno B) (m : prog S errno A) :
  returns m → (∀ a, returns (f a)) → returns (p_bind f m).
Proof.
  intros Hm Hf s. unfold p_bind. specialize (Hm s). destruct (m s) as [[a|e|] s1]; cbn in *.
  - destruct (Hf a s1). split; [done|lia].
  - destruct Hm. split; [congruence|lia].
  - split; [done|]. by destruct Hm.
Qed.

Lemma const_returns {A : Type} (r : res errno A) : r ≠ Err ETIMEDOUT → returns (λ s, (r, s)).
Proof. intros Hr s. split; [done|]. cbn. lia. Qed.

Lemma check_status_returns : returns check_status.
Proof.
  unfold check_status, mbind, prog_bind. apply bind_returns; [apply read_returns|]. intros v. case_match.
  - apply bind_returns; [apply read_returns|]. intros ?. by apply const_returns.
  - case_match; by apply const_returns.
Qed.

(** A loop that looks at the clock once per round. *)
Lemma clock_round {A : Type} (start : Z) (k : prog S errno A) s :
  ((TIMEOUT <=? cl_time (now s).2.2 - start) = false → (k (now s).2).1 ≠ Err ETIMEDOUT) →
  (p_bind (λ t, if TIMEOUT <=? t - start then throw EIO else k) now s).1 ≠ Err ETIMEDOUT.
Proof.
  intros Hk. unfold p_bind. destruct s as [m w]. unfold now in *. destruct (clock_now w) as [t w'] eqn:E. cbn in *.
  destruct (cl_now _ _ _ E) as [-> _]. destruct (TIMEOUT <=? cl_time w' - start); [done|]. by apply Hk.
Qed.

Lemma now_later s : cl_time s.2 < cl_time (now s).2.2.
Proof. destruct s as [m w]. unfold now. destruct (clock_now w) as [t w'] eqn:E. cbn. by apply (cl_now _ _ _ E). Qed.

Lemma poll_loop_returns fuel read start s :
  TIMEOUT - (cl_time s.2 - start) < Z.of_nat fuel → 0 < Z.of_nat fuel → (poll_loop fuel read start s).1 ≠ Err ETIMEDOUT.
Proof.
  revert s. induction fuel as [|fuel IH]; intros s Ht Hf; [lia|]. cbn [poll_loop]. unfold mbind, prog_bind, p_bind at 1.
  pose proof (check_status_returns s) as [Hr Hc]. destruct (check_status s) as [[v|e|] s1]; cbn in *; [|congruence|done].
  case_match; [by case_match|]. apply clock_round. intros Hnow. pose proof (now_later s1) as Hl. apply Z.leb_gt in Hnow.
  apply IH; lia.
Qed.

Lemma busmaster_loop_returns fuel start s :
  TIMEOUT - (cl_time s.2 - start) < Z.of_nat fuel → 0 < Z.of_nat fuel → (busmaster_loop fuel start s).1 ≠ Err ETIMEDOUT.
Proof.
  revert s. induction fuel as [|fuel IH]; intros s Ht Hf; [lia|]. cbn [busmaster_loop]. unfold mbind, prog_bind, p_bind at 1.
  pose proof (read_returns IrBmStatus s) as [Hr Hc]. destruct (ireg_read IrBmStatus s) as [[v|e|] s1]; cbn in *; [|congruence|done].
  case_match; [done|]. case_match; [done|]. apply clock_round. intros Hnow. pose proof (now_later s1) as Hl. apply Z.leb_gt in Hnow.
  apply IH; lia.
Qed.

Lemma now_start {A : Type} (f : Z → prog S errno A) s : ∃ s1, p_bind f now s = f (cl_time s1.2) s1.
Proof.
  destruct s as [m w]. unfold p_bind, now. destruct (clock_now w) as [t w'] eqn:E. destruct (cl_now _ _ _ E) as [-> _].
  by exists (m, w').
Qed.

(** Whatever the drive does, [polling] is over when the time is. *)
Lemma polling_returns fuel read s : TIMEOUT < Z.of_nat fuel → (polling fuel read s).1 ≠ Err ETIMEDOUT.
Proof.
  intros Hf. unfold polling, mbind, prog_bind.
  assert (∀ (k : Z → prog S errno unit) s, (∀ v s, (k v s).1 ≠ Err ETIMEDOUT) →
    (p_bind k (ireg_read IrControl) s).1 ≠ Err ETIMEDOUT) as Hread.
  { intros k s0 Hk. unfold p_bind. pose proof (read_returns IrControl s0) as [Hr _].
    destruct (ireg_read IrControl s0) as [[v|e|] s1]; cbn in *; [apply Hk|congruence|done]. }
  do 4 (apply Hread; clear s; intros _ s). destruct (now_start (λ start, poll_loop fuel read start) s) as [s1 ->].
  assert (0 < TIMEOUT) by done. apply poll_loop_returns; lia.
Qed.

End clock.

(** Programs that do not run out of fuel. *)
Definition ends {S A : Type} (m : prog S errno A) : Prop := ∀ s, (m s).1 ≠ Err ETIMEDOUT.

Section ends.
Context {S : Type}.

Lemma ends_bind {A B : Type} (f : A → prog S errno B) (m : prog S errno A) : ends m → (∀ a, ends (f a)) → ends (p_bind f m).
Proof.
  intros Hm Hf s. unfold p_bind. specialize (Hm s). destruct (m s) as [[a|e|] s1]; cbn in *; [apply Hf|congruence|done].
Qed.

Lemma ends_ret {A : Type} (a : A) : ends (S := S) (p_ret a).
Proof. done. Qed.

Lemma ends_panic {A : Type} : ends (S := S) (A := A) panic.
Proof. done. Qed.

Lemma ends_throw {A : Type} : ends (S := S) (A := A) (throw EIO).
Proof. done. Qed.

Lemma ends_gets {A : Type} (g : S → A) : ends (gets g).
Proof. done. Qed.

Lemma ends_modify (g : S → S) : ends (modify g).
Proof. done. Qed.

Lemma ends_unwrap {A : Type} (o : option A) : ends (S := S) (unwrap o).
Proof. by destruct o. Qed.
End ends.

Create HintDb ends.
#[export] Hint Resolve ends_ret ends_panic ends_throw ends_gets ends_modify ends_unwrap : ends.

(** Follows the shape of a program. *)
Ltac ends :=
  repeat (intros; cbv beta zeta;
    first [ progress (eauto 1 with ends)
          | match goal with
            | |- ends (mbind _ _) => apply ends_bind
            | |- ends (p_bind _ _) => apply ends_bind
            | |- ends (match ?x with _ => _ end) => destruct x
            | |- ends ?m => progress (unfold mret, prog_ret)
            end ]).

Section always.
Context {W : Type} `{HCL : ClockLaws W} (ph : ChanPhys) (fuel : nat) (Hfuel : TIMEOUT < Z.of_nat fuel).

Lemma ends_read r : ends (S := ChanMem * W) (ireg_read r).
Proof. intros s. apply read_returns. Qed.

Lemma ends_write r v : ends (S := ChanMem * W) (ireg_write r v).
Proof. done. Qed.

Lemma ends_writef r f v : ends (S := ChanMem * W) (ireg_writef r f v).
Proof. done. Qed.

Lemma ends_on_chan f : ends (S := ChanMem * W) (on_chan f).
Proof. done. Qed.

Lemma ends_polling read : ends (S := ChanMem * W) (polling fuel read).
Proof. intros s. by apply polling_returns. Qed.

#[local] Hint Resolve ends_read ends_write ends_writef ends_on_chan ends_polling : ends.

Lemma ends_busmaster {A : Type} (f : bool → prog (ChanMem * W) errno A) :
  (∀ b, ends (f b)) → ends (p_bind (λ start, p_bind f (busmaster_loop fuel start)) now).
Proof.
  intros Hf s. destruct (now_start (λ start, p_bind f (busmaster_loop fuel start)) s) as [s1 ->].
  unfold p_bind. assert (0 < TIMEOUT) by done.
  assert ((busmaster_loop fuel (cl_time s1.2) s1).1 ≠ Err ETIMEDOUT) as Hb by (apply busmaster_loop_returns; lia).
  destruct (busmaster_loop fuel (cl_time s1.2) s1) as [[b|e|] s2]; cbn in *; [apply Hf|congruence|done].
Qed.

Lemma ends_fill_prdt sectors l : ends (S := ChanMem * W) (fill_prdt ph sectors l).
Proof. induction l as [|i l IH]; cbn [fill_prdt]; ends. Qed.

Lemma ends_pio_dwords n off chunk : ends (S := ChanMem * W) (pio_dwords n off chunk).
Proof. revert off chunk. induction n as [|n IH]; intros off chunk; cbn [pio_dwords]; unfold put_dword; ends. Qed.

Lemma ends_pio_sectors n k chunk : ends (S := ChanMem * W) (pio_sectors fuel n k chunk).
Proof. revert k chunk. induction n as [|n IH]; intros k chunk; cbn [pio_sectors]; ends. apply ends_pio_dwords. Qed.

Lemma ends_pio_out_dwords n off chunk : ends (S := ChanMem * W) (pio_out_dwords n off chunk).
Proof. revert off. induction n as [|n IH]; intros off; cbn [pio_out_dwords]; unfold get_dword; ends. Qed.

Lemma ends_pio_out_sectors n k chunk : ends (S := ChanMem * W) (pio_out_sectors fuel n k chunk).
Proof. revert k. induction n as [|n IH]; intros k; cbn [pio_out_sectors]; ends. apply ends_pio_out_dwords. Qed.

Lemma ends_run_dma : ends (S := ChanMem * W) (run_dma fuel).
Proof.
  unfold run_dma. apply ends_bind; [ends|intros _]. apply ends_bind; [ends|intros _]. apply ends_busmaster. ends.
Qed.

#[local] Hint Resolve ends_fill_prdt ends_pio_sectors ends_pio_out_sectors ends_run_dma : ends.

Lemma ends_read_chunk d block chunk : ends (S := ChanMem * W) (read_chunk ph fuel d block chunk).
Proof. unfold read_chunk, begin_dma, set_registers, send_command, from_buf. ends. Qed.

Lemma ends_write_chunk d block chunk : ends (S := ChanMem * W) (write_chunk ph fuel d block chunk).
Proof. unfold write_chunk, begin_dma, set_registers, send_command, to_buf. ends. Qed.

#[local] Hint Resolve ends_read_chunk ends_write_chunk : ends.

Lemma ends_read_loop n d start count buffer : ends (S := ChanMem * W) (read_loop ph fuel n d start count buffer).
Proof. revert count buffer. induction n as [|n IH]; intros count buffer; cbn [read_loop]; destruct buffer; ends. Qed.

Lemma ends_write_loop n d start count buffer : ends (S := ChanMem * W) (write_loop ph fuel n d start count buffer).
Proof. revert count buffer. induction n as [|n IH]; intros count buffer; cbn [write_loop]; destruct buffer; ends. Qed.

End always.

(** Reads and writes of an IDE disk end, whatever the drive answers: with fuel for one
    nanosecond more than the time limit no loop runs out of it. *)
Theorem ide_transfers_end {W : Type} `{HCL : ClockLaws W} ph fuel d block buffer (s : ChanMem * W) :
  TIMEOUT < Z.of_nat fuel →
  (ide_read ph fuel d block buffer s).1 ≠ Err ETIMEDOUT ∧ (ide_write ph fuel d block buffer s).1 ≠ Err ETIMEDOUT.
Proof.
  intros Hf. split; revert s; fold (ends (ide_read ph fuel d block buffer)); fold (ends (ide_write ph fuel d block buffer)).
  - unfold ide_read. apply ends_bind; [by apply ends_read_loop|]. intros [count b]. apply ends_ret.
  - unfold ide_write. apply ends_bind; [by apply ends_write_loop|]. intros count. apply ends_ret.
Qed.

(** ** The channel *)

Lemma settle_still p m d p' m' d' : ide_settle (p, m, d) (p', m', d') → busy_for p = O → p' = p ∧ m' = m ∧ d' = d.
Proof. inversion 1; subst; cbn; try done; lia. Qed.

(** Every look at a busy drive brings its end nearer. *)
Lemma settle_less p m d p' m' d' : ide_settle (p, m, d) (p', m', d') → (0 < busy_for p')%nat → (busy_for p' < busy_for p)%nat.
Proof. inversion 1 as [| | | | | | |? ? ? ? [-> | ->]]; subst; cbn; lia. Qed.

(** What a drive in a phase can come to while it is looked at. *)
Definition reach (p0 : IdePhase) (m0 : ChanMem) (d0 : list Z) (p : IdePhase) (m : ChanMem) (d : list Z) : Prop :=
  match p0 with
  | IpIn _ data => m = m0 ∧ d = d0 ∧ ((∃ n, p = IpIn n data) ∨ p = IpFault)
  | IpRun _ w lba n =>
      ((∃ k, p = IpRun k w lba n) ∧ m = m0 ∧ d = d0) ∨ (∃ ok, p = IpEnd ok ∧ dma_done ok w lba n m0 d0 m d) ∨
      (p = IpFault ∧ dma_done false w lba n m0 d0 m d)
  | IpBusy _ => m = m0 ∧ d = d0 ∧ ((∃ k, p = IpBusy k) ∨ p = IpIdle ∨ p = IpFault)
  | _ => p = p0 ∧ m = m0 ∧ d = d0
  end.

Lemma reach_refl p m d : reach p m d p m d.
Proof. destruct p; cbn; eauto 10. Qed.

Lemma reach_step p0 m0 d0 p m d p' m' d' :
  reach p0 m0 d0 p m d → ide_settle (p, m, d) (p', m', d') → reach p0 m0 d0 p' m' d'.
Proof.
  intros Hr Hs. destruct p0; cbn in *; destruct_and?;
    repeat match goal with H : _ ∨ _ |- _ => destruct H | H : ∃ _, _ |- _ => destruct H | H : _ ∧ _ |- _ => destruct H end; subst;
    inversion Hs as [| | | | | | |? ? ? ? [-> | ->]]; subst; cbn in *; try done; eauto 10; naive_solver.
Qed.

Section laws.
Context {W : Type} `{HL : IdeLaws W ph dev}.
Abbreviation S := (ChanMem * W)%type.
Abbreviation tick := (il_tick (ph := ph) (dev := dev)).

Record Chan (p : IdePhase) (m : ChanMem) (d : list Z) (g : IdeRegs) (s : S) : Prop := {
  cn_mem : s.1 = m;
  cn_phase : il_phase s.2 = p;
  cn_disk : il_disk s.2 = d;
  cn_regs : il_regs s.2 = g;
}.

Lemma ireg_read_chan r p m d g s :
  Chan p m d g s → r ≠ IrData →
  wp (ireg_read r) (ok_then (λ v s', ∃ p' m' d', ide_settle (p, m, d) (p', m', d') ∧ Chan p' m' d' g s' ∧
    ide_value r v g p' ∧ cl_time s'.2 <= cl_time s.2 + tick)) s.
Proof.
  intros [<- <- <- <-] Hr. destruct s as [m0 w]. unfold wp, ireg_read. destruct (io_read r (m0, w)) as [v [m' w']] eqn:E. cbn.
  destruct (il_read _ _ _ _ _ _ E) as (E1 & E2 & E3 & E4 & _). eexists _, _, _. split_and!; [by apply E4| |done|done].
  by constructor.
Qed.

Lemma ireg_read_still r p m d g s :
  Chan p m d g s → r ≠ IrData → busy_for p = O →
  wp (ireg_read r) (ok_then (λ v s', Chan p m d g s' ∧ ide_value r v g p)) s.
Proof.
  intros HP Hr Hb. eapply wp_seq_mono; [by apply ireg_read_chan|]. intros v s' (p' & m' & d' & Hs & HP' & Hv & _).
  destruct (settle_still _ _ _ _ _ _ Hs Hb) as (-> & -> & ->). done.
Qed.

Lemma ireg_write_chan r v p m d g s :
  Chan p m d g s →
  wp (ireg_write r v) (ok_then (λ _ s', ∃ p', ide_write_step ph dev r v g m d p p' ∧ Chan p' m d (reg_write r v g) s')) s.
Proof.
  intros [<- <- <- <-]. destruct s as [m0 w]. unfold wp, ireg_write, modify. cbn.
  destruct (io_write r v (m0, w)) as [m' w'] eqn:E. destruct (il_write _ _ _ _ _ _ E) as (-> & E2 & E3 & E4).
  eexists. split; [exact E4|]. by constructor.
Qed.

Lemma ireg_writef_chan r flags value p m d g s :
  Chan p m d g s → r ≠ IrData → busy_for p = O →
  wp (ireg_writef r flags value) (ok_then (λ _ s', ∃ v p', ide_value r v g p ∧
    let v' := if value then Z.lor v flags else Z.land v (unot 8 flags) in
    ide_write_step ph dev r v' g m d p p' ∧ Chan p' m d (reg_write r v' g) s')) s.
Proof.
  intros HP Hr Hb. pose proof (ireg_read_still r p m d g s HP Hr Hb) as H. unfold wp, ireg_read in H.
  unfold wp, ireg_writef, writef, modify. destruct (io_read r s) as [v s1]. cbn in H |- *. destruct H as [H1 H2].
  rewrite il_width. set (v' := if value then _ else _). destruct (ireg_write_chan r v' _ _ _ _ _ H1) as (p' & Hw & HP').
  exists v, p'. split; [done|]. by destruct value.
Qed.

(** A register the drive keeps its phase over. *)
Lemma ireg_write_rest r v p m d g s :
  Chan p m d g s → ide_rest p → (match r with IrStatus | IrControl | IrBmCommand => False | _ => True end) →
  wp (ireg_write r v) (ok_then (λ _ s', Chan p m d (reg_write r v g) s')) s.
Proof.
  intros HP Hr Hg. eapply wp_seq_mono; [by apply ireg_write_chan|]. intros _ s' (p' & Hw & HP').
  assert (p' = p) as -> by (by destruct r; try done; apply Hw). done.
Qed.

Lemma now_chan p m d g s :
  Chan p m d g s → wp now (ok_then (λ t s', Chan p m d g s' ∧ t = cl_time s'.2 ∧ cl_time s'.2 <= cl_time s.2 + tick)) s.
Proof.
  intros [<- <- <- <-]. destruct s as [m0 w]. unfold wp, now. destruct (clock_now w) as [t w'] eqn:E. cbn.
  destruct (il_now _ _ _ E) as (E1 & E2 & E3 & E4). destruct (cl_now _ _ _ E) as [E5 _]. split_and!; [by constructor|done|done].
Qed.

(** ** Waiting for the drive *)

(** How a wait from a phase comes out: an error shows the fault of the drive. *)
Definition waited (p0 : IdePhase) (m0 : ChanMem) (d0 : list Z) (g : IdeRegs) (r : res errno unit) (s : S) : Prop :=
  ∃ p m d, reach p0 m0 d0 p m d ∧ Chan p m d g s ∧
    (r = Err EIO ∧ p = IpFault ∨ r = Ok tt ∧ busy_for p = O ∧ p ≠ IpFault).

Definition reads_data (p : IdePhase) : Prop := ∃ n data, p = IpIn n data.

Lemma check_status_chan p m d g s :
  Chan p m d g s →
  wp check_status (λ r s', ∃ p' m' d', ide_settle (p, m, d) (p', m', d') ∧ Chan p' m' d' g s' ∧
    (r = Err EIO ∧ p' = IpFault ∨
     ∃ v, r = Ok v ∧ p' ≠ IpFault ∧ (Z.land v 0x80 = 0 ↔ busy_for p' = O) ∧
       ((∃ data, p' = IpIn 0 data) → Z.land v 0x08 ≠ 0) ∧ cl_time s'.2 <= cl_time s.2 + tick)) s.
Proof.
  intros HP. unfold check_status. eapply wp_seq; [by apply ireg_read_chan|]. intros v s1 (p1 & m1 & d1 & Hs & HP1 & Hv & Ht).
  destruct (decide (p1 = IpFault)) as [->|Hne].
  - cbn in Hv. destruct (Z.eqb_spec (Z.land v 1) 0) as [E1|E1]; cbn [negb].
    + destruct (Z.eqb_spec (Z.land v 32) 0) as [E2|E2]; [by destruct Hv|]. cbn [negb]. exists IpFault, m1, d1. split_and!; [done..|]. by left.
    + eapply wp_seq; [by apply ireg_read_still|]. intros _ s2 [HP2 _]. exists IpFault, m1, d1. split_and!; [done..|]. by left.
  - assert (Z.land v 1 = 0 ∧ Z.land v 32 = 0 ∧ (Z.land v 128 = 0 ↔ busy_for p1 = O) ∧
            ((∃ data, p1 = IpIn 0 data) → Z.land v 8 ≠ 0)) as (E1 & E2 & E3 & E4) by (by destruct p1).
    rewrite E1, E2. cbn [negb Z.eqb]. exists p1, m1, d1. split_and!; [done..|]. right. exists v. done.
Qed.

Lemma poll_loop_chan fuel read start p0 m0 d0 p m d g s :
  reach p0 m0 d0 p m d → Chan p m d g s → (read = true → reads_data p0) → (busy_for p < fuel)%nat →
  cl_time s.2 - start + 2 * tick * (Z.of_nat (busy_for p) + 1) < TIMEOUT →
  wp (poll_loop fuel read start) (waited p0 m0 d0 g) s.
Proof.
  revert p m d s. induction fuel as [|fuel IH]; intros p m d s Hr HP Hrd Hf Ht; [lia|]. cbn [poll_loop].
  apply wp_bind. eapply wp_mono; [by apply check_status_chan|]. intros r s1 (p1 & m1 & d1 & Hs & HP1 & Hres).
  pose proof (reach_step _ _ _ _ _ _ _ _ _ Hr Hs) as Hr1. destruct Hres as [[-> ->]|(v & -> & Hne & Hb & Hd & Ht1)].
  { exists IpFault, m1, d1. split_and!; [done..|]. by left. }
  pose proof il_tick_pos as Htick. destruct (Z.eqb_spec (Z.land v 128) 0) as [E|E].
  - assert (busy_for p1 = O) as Hz by tauto.
    assert (read && (Z.land v 8 =? 0) = false) as ->.
    { destruct read; [|done]. cbn. apply Z.eqb_neq. apply Hd. destruct (Hrd eq_refl) as (n & data & ->). cbn in Hr1.
      destruct Hr1 as (_ & _ & [[n' ->]| ->]); [|done]. cbn in Hz. subst n'. by exists data. }
    exists p1, m1, d1. split_and!; [done..|]. right. done.
  - assert (0 < busy_for p1)%nat as Hz by (destruct (decide (busy_for p1 = O)); [tauto|lia]).
    pose proof (settle_less _ _ _ _ _ _ Hs Hz) as Hl.
    eapply wp_seq; [by apply now_chan|]. intros t s2 (HP2 & -> & Ht2).
    assert (2 * tick * (Z.of_nat (busy_for p1) + 1) <= 2 * tick * Z.of_nat (busy_for p)) as Hm.
    { apply Z.mul_le_mono_nonneg_l; lia. }
    rewrite Z.mul_add_distr_l, Z.mul_1_r in Ht. rewrite (proj2 (Z.leb_gt _ _)) by lia. eapply IH; [done..|lia|lia].
Qed.

Lemma polling_chan fuel read p m d g s :
  Chan p m d g s → (read = true → reads_data p) → (il_bound < fuel)%nat → wp (polling fuel read) (waited p m d g) s.
Proof.
  intros HP Hrd Hf. unfold polling. pose proof (reach_refl p m d) as Hr.
  assert (∀ (f : Z → prog S errno unit) p1 m1 d1 s1, reach p m d p1 m1 d1 → Chan p1 m1 d1 g s1 →
    (∀ v p2 m2 d2 s2, reach p m d p2 m2 d2 → Chan p2 m2 d2 g s2 → wp (f v) (waited p m d g) s2) →
    wp (p_bind f (ireg_read IrControl)) (waited p m d g) s1) as Hread.
  { intros f p1 m1 d1 s1 Hr1 HP1 Hk. eapply wp_seq; [by apply ireg_read_chan|]. intros v s2 (p2 & m2 & d2 & Hs & HP2 & _).
    eapply Hk; [by eapply reach_step|done]. }
  do 4 (eapply Hread; [eassumption..|]; clear dependent s; intros _ ? ? ? s ? HP).
  eapply wp_seq; [by apply now_chan|]. intros t s1 (HP1 & -> & _).
  assert (busy_for p3 <= il_bound)%nat as Hb by (destruct HP1 as [_ <- _ _]; apply il_busy_bound).
  eapply poll_loop_chan; [eassumption..|lia|]. pose proof il_in_time. pose proof il_tick_pos.
  assert (2 * tick * (Z.of_nat (busy_for p3) + 1) <= 2 * tick * (Z.of_nat il_bound + 2)) by (apply Z.mul_le_mono_nonneg_l; lia).
  lia.
Qed.

(** ** Commands *)

Definition failed (p : IdePhase) : Prop := p = IpFault ∨ p = IpEnd false.

Definition chan_mem_ok (m : ChanMem) : Prop := length (cm_prdt m) = 128%nat ∧ length (cm_buf m) = IDE_CHUNK.

Definition phys_32 : Prop := 0 <= cp_buf ph < 2 ^ 32 - 65536 ∧ 0 <= cp_prdt ph < 2 ^ 32.

Lemma fill_prdt_spec sectors l p m d g s :
  Chan p m d g s → (∀ i, i ∈ l → (i < length (cm_prdt m))%nat ∧ cp_buf ph + Z.of_nat i * 512 < 2 ^ 32) →
  wp (fill_prdt ph sectors l) (ok_then (λ _ s', ∃ x, Chan p (set_cm_prdt x m) d g s' ∧ length x = length (cm_prdt m) ∧
    (∀ i, i ∈ l → x !! i = Some (prd_entry ph sectors i)) ∧ (∀ i, i ∉ l → x !! i = cm_prdt m !! i))) s.
Proof.
  revert m s. induction l as [|i l IH]; intros m s HP Hl; cbn [fill_prdt].
  - exists (cm_prdt m). split_and!; [by destruct m|done|by intros i ?%elem_of_nil|done].
  - destruct (Hl i) as [Hi Ha]; [set_solver|]. rewrite (proj2 (Z.ltb_lt _ _)) by done. apply wp_gets.
    rewrite (cn_mem _ _ _ _ _ HP). rewrite decide_True by done. apply wp_modify. cbv beta.
    set (x0 := <[i := prd_entry ph sectors i]> (cm_prdt m)).
    assert (Chan p (set_cm_prdt x0 m) d g (let '(m0, w) := s in (set_cm_prdt x0 m0, w))) as HP1.
    { destruct s as [m0 w]. destruct HP as [E1 E2 E3 E4]. cbn in E1. subst m0. by constructor. }
    assert (∀ j, j ∈ l → (j < length (cm_prdt (set_cm_prdt x0 m)))%nat ∧ cp_buf ph + Z.of_nat j * 512 < 2 ^ 32) as Hl1.
    { intros j Hj. cbn. unfold x0. rewrite length_insert. apply Hl. set_solver. }
    eapply wp_seq_mono; [by apply IH|]. intros _ s' (x & HP' & Hlen & Hin & Hout). cbn in *. unfold x0 in Hlen, Hout. rewrite length_insert in Hlen.
    exists x. split_and!; [done|done| |].
    + intros j Hj. destruct (decide (j ∈ l)) as [Hjl|Hjl]; [by apply Hin|]. assert (j = i) as -> by set_solver.
      rewrite Hout by done. by apply list_lookup_insert_eq.
    + intros j Hj. rewrite Hout by set_solver. apply list_lookup_insert_ne. set_solver.
Qed.

Lemma begin_dma_spec sectors write p m d g s :
  Chan p m d g s → ide_rest p → chan_mem_ok m → (sectors <= 128)%nat → phys_32 →
  wp (begin_dma ph sectors write) (ok_then (λ _ s', ∃ m' g', Chan p m' d g' s' ∧ chan_mem_ok m' ∧ cm_buf m' = cm_buf m ∧
    prdt_covers ph m' sectors ∧ ir_prd g' = cp_prdt ph ∧ ir_to_memory g' = negb write)) s.
Proof.
  intros HP Hr [Hm1 Hm2] Hs [Hb Hp]. unfold begin_dma. assert (busy_for p = O) as Hbusy by (by destruct p).
  eapply wp_seq; [by apply ireg_writef_chan|]. intros _ s1 (v1 & p1 & _ & Hw1 & HP1). cbv zeta in *.
  assert (p1 = p) as ->.
  { apply Hw1; [done|]. rewrite Z.land_spec, unot_testbit by lia. apply andb_false_r. }
  eapply wp_seq; [eapply fill_prdt_spec; [exact HP1|]|].
  { intros i Hi. apply elem_of_seq in Hi. split; [lia|]. lia. }
  intros _ s2 (x & HP2 & Hlen & Hin & _). rewrite (proj2 (Z.ltb_lt (cp_prdt ph) _)) by lia.
  eapply wp_seq; [by apply ireg_write_rest; [exact HP2|..]|]. intros [] s3 HP3. cbn beta in HP3.
  eapply wp_seq; [by apply ireg_writef_chan|]. intros _ s4 (v4 & p4 & [_ Hst] & Hw4 & HP4). cbv zeta in *.
  set (v' := if negb write then _ else _) in *.
  assert (ir_start (reg_write IrBmPrdt (cp_prdt ph) (reg_write IrBmCommand (Z.land v1 (unot 8 1)) g)) = false) as Hs0.
  { destruct g. cbn [reg_write ir_start]. rewrite Z.land_spec, unot_testbit by lia. apply andb_false_r. }
  rewrite Hs0 in Hst.
  assert (Z.testbit v' 3 = negb write ∧ Z.testbit v' 0 = false) as [Hv3 Hv0].
  { unfold v'. destruct write; cbn [negb]; rewrite ?Z.land_spec, ?Z.lor_spec, ?unot_testbit, ?Hst by lia; split; try done;
      [apply andb_false_r|apply orb_true_r]. }
  rewrite (proj1 Hw4 Hr Hv0) in HP4.
  eapply wp_seq_mono; [by apply ireg_write_rest; [exact HP4|..]|]. intros [] s5 HP5. cbn beta in HP5. eexists _, _. split_and!; [exact HP5|..].
  - split; cbn; [lia|done].
  - done.
  - intros i Hi. exists (prd_entry ph sectors i). cbn. split_and!; [apply Hin, elem_of_seq; lia|lia|done|].
    by case_decide.
  - by destruct g.
  - destruct g. exact Hv3.
Qed.

(** The block a drive is asked for: without 48-bit addresses only 24 bits are sent. *)
Definition sent_block (dsk : AtaDisk) (block : Z) : Z := if ad_lba_48 dsk then block else block mod 2 ^ 24.

(** What the registers say after [set_registers]. *)
Record addressed (dsk : AtaDisk) (block n : Z) (g g' : IdeRegs) : Prop := {
  ad_bm : ir_prd g' = ir_prd g ∧ ir_to_memory g' = ir_to_memory g;
  ad_sel : (Z.land (Z.shiftr (ir_dev g') 4) 1 =? dev) && Z.testbit (ir_dev g') 6 = true;
  ad_lba : regs_lba (ad_lba_48 dsk) g' = sent_block dsk block;
  ad_count : regs_count (ad_lba_48 dsk) g' = n;
}.

Lemma byte_split_3 x : [as_u8 x; as_u8 (Z.shiftr x 8); as_u8 (Z.shiftr x 16)] = le_bytes 3 x.
Proof. cbn [le_bytes]. rewrite !Z.shiftr_div_pow2 by lia. unfold as_u8, as_u. by rewrite !Z.div_div by lia. Qed.

Lemma byte_split_4 x : [as_u8 x; as_u8 (Z.shiftr x 8); as_u8 (Z.shiftr x 16); as_u8 (Z.shiftr x 24)] = le_bytes 4 x.
Proof. cbn [le_bytes]. rewrite !Z.shiftr_div_pow2 by lia. unfold as_u8, as_u. by rewrite !Z.div_div by lia. Qed.

Lemma byte_split_6 x :
  [as_u8 x; as_u8 (Z.shiftr x 8); as_u8 (Z.shiftr x 16); as_u8 (Z.shiftr x 24); as_u8 (Z.shiftr x 32); as_u8 (Z.shiftr x 40)] =
  le_bytes 6 x.
Proof. cbn [le_bytes]. rewrite !Z.shiftr_div_pow2 by lia. unfold as_u8, as_u. by rewrite !Z.div_div by lia. Qed.

Lemma le_val_mod k x : 0 <= x → le_val (le_bytes k x) = x mod 2 ^ (8 * Z.of_nat k).
Proof.
  revert x. induction k as [|k IH]; intros x Hx; cbn [le_bytes le_val]; [by rewrite Z.mod_1_r|].
  rewrite IH by (apply Z.div_pos; lia). replace (8 * Z.of_nat (Datatypes.S k)) with (8 + 8 * Z.of_nat k) by lia.
  rewrite Z.pow_add_r by lia. change (2 ^ 8) with 256. rewrite Z.rem_mul_r by lia. lia.
Qed.

Lemma wp_write_rest {A : Type} (f : unit → prog S errno A) Q r v p m d g s :
  Chan p m d g s → ide_rest p → (match r with IrStatus | IrControl | IrBmCommand => False | _ => True end) →
  (∀ s', Chan p m d (reg_write r v g) s' → wp (f tt) Q s') → wp (p_bind f (ireg_write r v)) Q s.
Proof. intros HP Hr Hg Hk. eapply wp_seq; [by apply ireg_write_rest|]. intros [] s'. apply Hk. Qed.

Lemma set_address_spec dsk block n p m d g s :
  Chan p m d g s → ide_rest p → ad_dev dsk = dev → dev = 0 ∨ dev = 1 → 0 <= block < 2 ^ 48 → 0 < n <= 128 →
  wp (set_registers dsk block n) (ok_then (λ _ s', ∃ g', Chan p m d g' s' ∧ addressed dsk block n g g')) s.
Proof.
  intros HP Hr Hd Hdev Hblk Hn. unfold set_registers. rewrite Hd. assert (busy_for p = O) as Hbusy by (by destruct p).
  eapply wp_seq; [by apply ireg_write_rest; [exact HP|..]|]. intros [] s1 HP1. cbn beta in HP1.
  set (dv := Z.lor 224 (as_u8 (Z.shiftl dev 4))) in *.
  assert ((Z.land (Z.shiftr dv 4) 1 =? dev) && Z.testbit dv 6 = true ∧ Z.land dv 15 = 0) as [Hsel Hnib].
  { unfold dv. by destruct Hdev as [E|E]; rewrite E. }
  assert (as_u8 n = n) as Hn8 by (apply as_u_id; unfold u_range; lia).
  apply (wp_seq _ _ (λ _ s2, ∃ g2, Chan p m d g2 s2 ∧ ir_prd g2 = ir_prd g ∧ ir_to_memory g2 = ir_to_memory g ∧ ir_dev g2 = dv ∧
    (ad_lba_48 dsk = true → (ir_count g2).1 = as_u8 (Z.shiftr n 8) ∧ (ir_lba0 g2).1 = as_u8 (Z.shiftr block 24) ∧
       (ir_lba1 g2).1 = as_u8 (Z.shiftr block 32) ∧ (ir_lba2 g2).1 = as_u8 (Z.shiftr block 40)))).
  { destruct (ad_lba_48 dsk); [|exists (reg_write IrDevice dv g); split_and!; [exact HP1|by destruct g..|done]].
    eapply wp_seq; [by apply ireg_writef_chan; [exact HP1|..]|]. intros _ t1 (v1 & q1 & Hv1 & Hw1 & Q1). cbv zeta in *.
    assert (q1 = p) as ->. { apply Hw1; [done|]. rewrite Z.lor_spec. by rewrite (Hv1 Hr). }
    do 4 (eapply wp_write_rest; [eassumption|done|done|]; intros ? ?).
    eapply wp_seq_mono; [by apply ireg_writef_chan; [eassumption|..]|]. intros _ t6 (v6 & q6 & Hv6 & Hw6 & Q6). cbv zeta in *.
    assert (q6 = p) as ->. { apply Hw6; [done|]. rewrite Z.land_spec. by rewrite (Hv6 Hr). }
    eexists. split; [exact Q6|]. by destruct g. }
  intros _ s2 (g2 & HP2 & E1 & E2 & E3 & E4).
  do 3 (eapply wp_write_rest; [eassumption|done|done|]; intros ? ?).
  eapply wp_seq_mono; [by apply ireg_write_rest; [eassumption|..]|]. intros [] s6 HP6. cbn beta in HP6.
  eexists. split; [exact HP6|]. destruct g2 as [c a0 a1 a2 dd pp dir st]. cbn [reg_write ir_prd ir_to_memory ir_dev ir_count ir_lba0 ir_lba1 ir_lba2] in *.
  subst. constructor; cbn [reg_write ir_prd ir_to_memory ir_dev ir_count ir_lba0 ir_lba1 ir_lba2]; [done|done|..].
  - unfold regs_lba, sent_block. cbn [reg_write ir_dev ir_lba0 ir_lba1 ir_lba2 fst snd]. destruct (ad_lba_48 dsk).
    + destruct (E4 eq_refl) as (_ & -> & -> & ->). rewrite byte_split_6, le_val_mod by lia. apply Z.mod_small. exact Hblk.
    + rewrite byte_split_3, le_val_mod, Hnib by lia. change (8 * Z.of_nat 3) with 24. lia.
  - unfold regs_count. cbn [reg_write ir_count fst snd]. destruct (ad_lba_48 dsk).
    + destruct (E4 eq_refl) as (-> & _). rewrite Hn8. assert (as_u8 (Z.shiftr n 8) = 0) as ->.
      { rewrite Z.shiftr_div_pow2, Z.div_small by lia. done. }
      cbn [le_val]. rewrite (proj2 (Z.eqb_neq _ _)) by lia. lia.
    + rewrite Hn8. by rewrite (proj2 (Z.eqb_neq _ _)) by lia.
Qed.

(** A transfer by the bus master. *)
Lemma run_dma_spec fuel write lba n m d g s :
  Chan (IpDma write lba n) m d g s → ir_prd g = cp_prdt ph → ir_to_memory g = negb write → prdt_covers ph m (Z.to_nat n) →
  (il_bound < fuel)%nat →
  wp (run_dma fuel) (λ r s', ∃ ok p m' d' g', Chan p m' d' g' s' ∧ ide_rest p ∧ ir_dev g' = ir_dev g ∧
    dma_done ok write lba n m d m' d' ∧
    if ok : bool then r = Ok tt ∧ ¬ failed p else r = Err EIO ∧ failed p) s.
Proof.
  intros HP Hp Ht Hc Hf. unfold run_dma.
  eapply wp_seq; [by apply ireg_writef_chan|]. intros _ s1 (v1 & p1 & [Hv1 _] & [_ Hw1] & HP1). cbv zeta in *.
  destruct (Hw1 write lba n eq_refl) as [k ->]; [|rewrite Z.lor_spec, Hv1, Ht; apply orb_false_r|done|done|].
  { rewrite Z.lor_spec. apply orb_true_r. }
  apply wp_bind. eapply wp_mono; [by eapply polling_chan|]. intros r s2 (p2 & m2 & d2 & Hr2 & HP2 & [[-> ->]|(-> & Hb2 & Hn2)]); cbn in Hr2.
  { destruct Hr2 as [[[? ?] _]|[(ok & ? & _)|[_ Hd]]]; [done..|].
    exists false, IpFault, m2, d2, (reg_write IrBmCommand (Z.lor v1 1) g). split_and!; [done|done|by destruct g|done|done|by left]. }
  destruct Hr2 as [[[? ->] _]|[(ok & -> & Hd)|[? _]]]; [done| |done].
  eapply wp_seq; [by apply now_chan|]. intros t s3 (HP3 & _). destruct fuel as [|fuel]; [lia|]. cbn [busmaster_loop].
  apply (wp_seq _ _ (λ b s4, b = negb ok ∧ Chan (IpEnd ok) m2 d2 (reg_write IrBmCommand (Z.lor v1 1) g) s4)).
  { eapply wp_seq; [by apply ireg_read_still|]. intros v s4 [HP4 Hv]. change (Z.shiftl 1 1) with 2. destruct ok; cbn in Hv.
    - assert (Z.land v 2 = 0 ∧ Z.land v 1 = 0) as [-> ->].
      { split; [change 2 with (Z.land 3 2)|change 1 with (Z.land 3 1)]; by rewrite Z.land_assoc, Hv. }
      done.
    - by rewrite (proj2 (Z.eqb_neq _ _) Hv). }
  intros b s4 [-> HP4]. eapply wp_seq; [by apply ireg_writef_chan|]. intros _ s5 (v5 & p5 & _ & [Hw5 _] & HP5). cbv zeta in *.
  rewrite Hw5 in HP5; [|done|rewrite Z.land_spec, unot_testbit by lia; apply andb_false_r].
  eapply wp_write_rest; [exact HP5|done|done|]. intros s6 HP6.
  exists ok, (IpEnd ok), m2, d2. eexists. split_and!; [by destruct ok; exact HP6|done|by destruct g|done|].
  destruct ok; (split; [done|]); [by intros [|]|by right].
Qed.

(** ** Programmed transfers *)

Lemma ireg_read_data data m d g s :
  Chan (IpIn 0 data) m d g s → (4 <= length data)%nat →
  wp (ireg_read IrData) (ok_then (λ v s', ∃ p', ide_data (IpIn 0 data) v p' ∧ Chan p' m d g s')) s.
Proof.
  intros [<- Hp <- <-] Hl. destruct s as [m0 w]. unfold wp, ireg_read. destruct (io_read IrData (m0, w)) as [v [m' w']] eqn:E. cbn in *.
  destruct (il_read _ _ _ _ _ _ E) as (_ & E2 & _ & _ & E5). destruct (E5 eq_refl data Hp Hl) as (E6 & -> & E7).
  rewrite Hp in E6. eexists. split; [exact E6|]. by constructor.
Qed.

(** The phase after data has been taken. *)
Definition in_phase (data : list Z) (p : IdePhase) : Prop := if decide (data = []) then p = IpIdle else ∃ n, p = IpIn n data.

Lemma dword_back data : Forall is_byte data → (4 <= length data)%nat → le_bytes 4 (le_val (take 4 data)) = take 4 data.
Proof.
  intros Hb Hl. assert (length (take 4 data) = 4%nat) as E by (rewrite length_take; lia). rewrite <- E at 1.
  apply le_bytes_val. by apply Forall_take.
Qed.

Lemma pio_dwords_spec k : ∀ off chunk data m d g s,
  Chan (IpIn 0 data) m d g s → Forall is_byte data → (0 < k <= 128)%nat → (4 * k <= length data)%nat →
  (Z.of_nat (length data) - 4 * Z.of_nat k) mod 512 = 0 → (off + 4 * k <= length chunk)%nat →
  wp (pio_dwords k off chunk) (ok_then (λ c s', c = splice off (take (4 * k) data) chunk ∧
    ∃ p, in_phase (drop (4 * k) data) p ∧ Chan p m d g s')) s.
Proof.
  induction k as [|k IH]; intros off chunk data m d g s HP Hby Hk Hl Hm Hc; [lia|]. cbn [pio_dwords].
  eapply wp_seq; [apply ireg_read_data; [exact HP|lia]|]. intros v s1 (p1 & Hd & HP1).
  unfold put_dword. rewrite decide_True by lia. apply (wp_bind (p_ret _)). unfold wp at 1. cbn [p_ret fst snd]. rewrite byte_split_4.
  assert (v = le_val (take 4 data)) as ->.
  { inversion Hd as [| |? Hlen]; subst; [done..|]. by rewrite take_ge by lia. }
  rewrite dword_back by (done || lia). destruct (decide (k = 0)%nat) as [->|Hk0].
  - cbn [pio_dwords]. split; [done|]. exists p1. split; [|exact HP1]. unfold in_phase. change (4 * 1)%nat with 4%nat.
    inversion Hd as [? Hlen Hmod|n0 ? Hlen Hmod|? Hlen]; subst.
    + exfalso. apply Hmod. change (4 * Z.of_nat 1) with 4 in Hm. zdiv.
    + case_decide as E; [|by exists n0]. apply (f_equal length) in E. rewrite length_drop in E. cbn in E. lia.
    + rewrite decide_True; [done|]. apply drop_ge. lia.
  - assert (p1 = IpIn 0 (drop 4 data)) as ->.
    { inversion Hd as [? Hlen Hmod|? ? Hlen Hmod|? Hlen]; subst; [done|exfalso; zdiv|lia]. }
    assert (length (take 4 data) = 4%nat) as L4 by (rewrite length_take; lia).
    eapply wp_seq_mono; [apply IH; [exact HP1|by apply Forall_drop|lia|rewrite length_drop; lia|..]|].
    + rewrite length_drop. rewrite <- Hm. f_equal. lia.
    + rewrite length_splice by lia. lia.
    + intros c s' (-> & p & Hin & HP'). rewrite drop_drop in Hin. replace (4 + 4 * k)%nat with (4 * Datatypes.S k)%nat in Hin by lia.
      split; [|by exists p]. replace (off + 4)%nat with (off + length (take 4 data))%nat by lia.
      rewrite splice_splice by (rewrite !length_take, length_drop; lia). f_equal.
      replace (4 * Datatypes.S k)%nat with (4 + 4 * k)%nat by lia. by rewrite take_take_drop.
Qed.

Lemma pio_sectors_spec fuel k : ∀ sector chunk data p m d g s,
  in_phase data p → Chan p m d g s → Forall is_byte data → length data = (k * 512)%nat → (il_bound < fuel)%nat →
  length chunk = ((sector + k) * 512)%nat →
  wp (pio_sectors fuel k sector chunk) (λ r s', (r = Ok (take (sector * 512) chunk ++ data) ∧ Chan IpIdle m d g s') ∨
    (r = Err EIO ∧ Chan IpFault m d g s')) s.
Proof.
  induction k as [|k IH]; intros sector chunk data p m d g s Hin HP Hby Hl Hf Hc; cbn [pio_sectors].
  - apply nil_length_inv in Hl. subst data. unfold in_phase in Hin. rewrite decide_True in Hin by done. subst p. left.
    split; [|done]. rewrite app_nil_r, take_ge by lia. done.
  - assert (data ≠ []) as Hne by (intros ->; cbn in Hl; lia). unfold in_phase in Hin. rewrite decide_False in Hin by done.
    destruct Hin as [n0 ->]. apply wp_bind. eapply wp_mono; [eapply polling_chan; [exact HP|intros _; by eexists _, _|done]|].
    intros r s1 (p1 & m1 & d1 & (-> & -> & Hp1) & HP1 & [[-> ->]|(-> & Hb & Hnf)]); [by right|].
    destruct Hp1 as [[n1 ->]| ->]; [|done]. cbn in Hb. subst n1.
    eapply wp_seq; [eapply pio_dwords_spec; [exact HP1|done|lia|lia|..]|].
    + rewrite Hl. replace (Z.of_nat (Datatypes.S k * 512) - 4 * Z.of_nat 128) with (Z.of_nat k * 512) by lia. apply Z.mod_mul. lia.
    + lia.
    + change (4 * 128)%nat with 512%nat. intros c s2 (-> & p2 & Hin2 & HP2).
      assert (length (take 512 data) = 512%nat) as L by (rewrite length_take; lia).
      eapply wp_mono; [eapply IH; [exact Hin2|exact HP2|by apply Forall_drop|rewrite length_drop; lia|done|rewrite length_splice by lia; lia]|].
      intros r s3 [[-> HP3]|[-> HP3]]; [left|by right]. split; [|done]. f_equal. unfold splice. rewrite L.
      replace ((sector + 1) * 512)%nat with (length (take (sector * 512) chunk ++ take 512 data))
        by (rewrite length_app, L, length_take; lia).
      rewrite app_assoc, take_app_length, <- app_assoc. by rewrite take_drop.
Qed.

(** ** Chunks *)

Section disk.
Context (dsk : AtaDisk) (fuel : nat).
Hypothesis Hdev : ad_dev dsk = dev.
Hypothesis Hdev01 : dev = 0 ∨ dev = 1.
Hypothesis Hphys : phys_32.
Hypothesis Hfuel : (il_bound < fuel)%nat.

(** The channel between two transfers. *)
Definition Ready (d : list Z) (s : S) : Prop := ∃ p m g, Chan p m d g s ∧ ide_rest p ∧ chan_mem_ok m.

(** The same after a command that failed. *)
Definition Failed (d : list Z) (s : S) : Prop := ∃ p m g, Chan p m d g s ∧ failed p ∧ chan_mem_ok m.

Lemma command_ready c p m d g s :
  Chan p m d g s → wp (send_command c) (ok_then (λ _ s', ∃ p',
    ide_write_step ph dev IrStatus (ata_command_code c) g m d p p' ∧ Chan p' m d g s')) s.
Proof.
  intros HP. eapply wp_seq_mono; [by apply ireg_write_chan|]. intros _ s' (p' & Hw & HP'). exists p'. split; [exact Hw|].
  by destruct g.
Qed.

(** What the drive makes of a read or a write command. *)
Lemma decoded_read block n g g' :
  addressed dsk block n g g' →
  ide_command dev g' (ata_command_code (read_command dsk)) = IcRead (ad_dma dsk) (sent_block dsk block) n.
Proof.
  intros [_ Hs Hl Hc]. unfold ide_command. rewrite Hs. unfold read_command.
  destruct (ad_dma dsk), (ad_lba_48 dsk); cbn in *; by rewrite Hl, Hc.
Qed.

Lemma decoded_write block n g g' :
  addressed dsk block n g g' → ad_dma dsk = true →
  ide_command dev g' (ata_command_code (write_command dsk)) = IcWrite (sent_block dsk block) n.
Proof.
  intros [_ Hs Hl Hc] Hdma. unfold ide_command. rewrite Hs. unfold write_command. rewrite Hdma.
  destruct (ad_lba_48 dsk); cbn in *; by rewrite Hl, Hc.
Qed.

Lemma decoded_flush b g' :
  (Z.land (Z.shiftr (ir_dev g') 4) 1 =? dev) && Z.testbit (ir_dev g') 6 = true →
  ide_command dev g' (ata_command_code (if b : bool then CacheFlushExt else CacheFlush)) = IcFlush.
Proof. intros Hs. unfold ide_command. rewrite Hs. by destruct b. Qed.

Lemma sectors_of chunk k : length chunk = (k * 512)%nat → chunk_sectors chunk = k.
Proof. intros H. unfold chunk_sectors. rewrite H. rewrite Nat.add_comm, Nat.div_add by lia. done. Qed.

Lemma sent_block_nonneg block : 0 <= block → 0 <= sent_block dsk block.
Proof. intros H. unfold sent_block. destruct (ad_lba_48 dsk); [done|]. by apply Z.mod_pos_bound. Qed.

Lemma read_chunk_spec block chunk k d s :
  Ready d s → Forall is_byte d → length chunk = (k * 512)%nat → (0 < k <= 128)%nat → 0 <= block < 2 ^ 48 →
  in_drive (sent_block dsk block) (Z.of_nat k) d →
  wp (read_chunk ph fuel dsk block chunk) (λ r s',
    (r = Ok (slice (Z.to_nat (sent_block dsk block * 512)) (length chunk) d) ∧ Ready d s') ∨ (r = Err EIO ∧ Failed d s')) s.
Proof.
  intros (p & m & g & HP & Hr & Hm) Hby Hl Hk Hb Hin. unfold read_chunk. change 281474976710656 with (2 ^ 48).
  rewrite (proj2 (Z.ltb_lt _ _)) by lia. rewrite (sectors_of _ _ Hl), decide_True by lia.
  apply (wp_seq _ _ (λ _ s1, ∃ m1 g1, Chan p m1 d g1 s1 ∧ chan_mem_ok m1 ∧
    (ad_dma dsk = true → prdt_covers ph m1 k ∧ ir_prd g1 = cp_prdt ph ∧ ir_to_memory g1 = true))).
  { destruct (ad_dma dsk); [|by exists m, g]. eapply wp_seq_mono; [eapply begin_dma_spec; [exact HP|done|done|lia|done]|].
    intros _ s1 (m1 & g1 & HP1 & Hm1 & _ & Hc1 & Hp1 & Ht1). exists m1, g1. done. }
  intros _ s1 (m1 & g1 & HP1 & Hm1 & Hd1).
  eapply wp_seq; [apply (set_address_spec dsk block (Z.of_nat k)); [exact HP1|done..|lia]|]. intros _ s2 (g2 & HP2 & Ha2).
  eapply wp_seq; [by apply command_ready|]. intros _ s3 (p3 & Hw3 & HP3). cbn in Hw3. specialize (Hw3 Hr).
  rewrite (decoded_read _ _ _ _ Ha2) in Hw3. specialize (Hw3 Hin).
  assert (Z.to_nat (Z.of_nat k * 512) = length chunk) as Elen by lia.
  assert (Z.to_nat (sent_block dsk block * 512) + length chunk <= length d)%nat as Hrange.
  { unfold in_drive in Hin. pose proof (sent_block_nonneg block ltac:(lia)). lia. }
  destruct (ad_dma dsk).
  - subst p3. destruct (Hd1 eq_refl) as (Hc & Hp & Ht). destruct (ad_bm _ _ _ _ _ Ha2) as [Hp2 Ht2].
    apply wp_bind. eapply wp_mono; [eapply run_dma_spec; [exact HP3|congruence|rewrite Ht2, Ht; done|by rewrite Nat2Z.id|done]|].
    intros r s4 (ok & p4 & m4 & d4 & g4 & HP4 & Hr4 & _ & (-> & b & Hbl & -> & Hok) & Hres).
    assert (chan_mem_ok (set_cm_buf b m1)) as Hm4 by (destruct Hm1; split; cbn; congruence).
    destruct ok; destruct Hres as [-> Hp4]; [|right; split; [done|by eexists _, _, _]].
    unfold from_buf. apply wp_gets. rewrite (cn_mem _ _ _ _ _ HP4). cbn [cm_buf set_cm_buf].
    rewrite decide_True by (destruct Hm1 as [_ Hm1]; rewrite Hbl, Hm1; unfold IDE_CHUNK; lia). left. split; [|by eexists _, _, _].
    cbn. specialize (Hok eq_refl). rewrite Elen in Hok. by rewrite Hok.
  - destruct Hw3 as [n0 ->]. set (data := slice _ _ d) in *.
    assert (length data = (k * 512)%nat) as Hdl by (unfold data; rewrite length_slice; lia).
    eapply wp_mono; [eapply (pio_sectors_spec fuel k 0 chunk data); [|exact HP3|..]|].
    + unfold in_phase. rewrite decide_False; [by exists n0|]. intros E. rewrite E in Hdl. cbn in Hdl. lia.
    + unfold data, slice. by apply Forall_take, Forall_drop.
    + done.
    + done.
    + lia.
    + intros r s4 [[-> HP4]|[-> HP4]]; [left|right]; (split; [|eexists _, _, _; split_and!; [exact HP4|by try left|done]]); [|done].
      cbn. unfold data. by rewrite Elen.
Qed.

Lemma write_chunk_spec block chunk k d s :
  Ready d s → ad_dma dsk = true → length chunk = (k * 512)%nat → (0 < k <= 128)%nat → 0 <= block < 2 ^ 48 →
  in_drive (sent_block dsk block) (Z.of_nat k) d →
  wp (write_chunk ph fuel dsk block chunk) (λ r s',
    (r = Ok tt ∧ Ready (splice (Z.to_nat (sent_block dsk block * 512)) chunk d) s') ∨
    (r = Err EIO ∧ ∃ x, length x = length chunk ∧ Failed (splice (Z.to_nat (sent_block dsk block * 512)) x d) s')) s.
Proof.
  intros (p & m & g & HP & Hr & Hm) Hdma Hl Hk Hb Hin. unfold write_chunk. change 281474976710656 with (2 ^ 48).
  rewrite (proj2 (Z.ltb_lt _ _)) by lia. rewrite (sectors_of _ _ Hl), decide_True by lia. rewrite Hdma.
  apply (wp_seq _ _ (λ _ s1, ∃ m1 g1, Chan p m1 d g1 s1 ∧ chan_mem_ok m1 ∧ take (length chunk) (cm_buf m1) = chunk ∧
    prdt_covers ph m1 k ∧ ir_prd g1 = cp_prdt ph ∧ ir_to_memory g1 = false)).
  { eapply wp_seq; [eapply begin_dma_spec; [exact HP|done|done|lia|done]|].
    intros _ s1 (m1 & g1 & HP1 & [Hm1 Hm1'] & Eb & Hc1 & Hp1 & Ht1). unfold to_buf. apply wp_gets. rewrite (cn_mem _ _ _ _ _ HP1).
    rewrite decide_True by (rewrite Hm1'; unfold IDE_CHUNK; lia). unfold wp, on_chan, modify.
    exists (set_cm_buf (splice 0 chunk (cm_buf m1)) m1), g1. split_and!; [|split|..]; cbn.
    - destruct s1 as [m0 w]. destruct HP1 as [E1 E2 E3 E4]. cbn in E1. subst m0. by constructor.
    - done.
    - rewrite length_splice by (rewrite Hm1'; unfold IDE_CHUNK; lia). done.
    - unfold splice. rewrite take_0. cbn [app]. apply take_app_length.
    - done.
    - done.
    - done. }
  intros _ s1 (m1 & g1 & HP1 & Hm1 & Hbuf & Hc1 & Hp1 & Ht1).
  eapply wp_seq; [apply (set_address_spec dsk block (Z.of_nat k)); [exact HP1|done..|lia]|]. intros _ s2 (g2 & HP2 & Ha2).
  eapply wp_seq; [by apply command_ready|]. intros _ s3 (p3 & Hw3 & HP3). cbn in Hw3. specialize (Hw3 Hr).
  rewrite (decoded_write _ _ _ _ Ha2 Hdma) in Hw3. specialize (Hw3 Hin). subst p3.
  destruct (ad_bm _ _ _ _ _ Ha2) as [Hp2 Ht2]. assert (Z.to_nat (Z.of_nat k * 512) = length chunk) as Elen by lia.
  apply wp_bind. eapply wp_mono; [eapply run_dma_spec; [exact HP3|congruence|rewrite Ht2, Ht1; done|by rewrite Nat2Z.id|done]|].
  intros r s4 (ok & p4 & m4 & d4 & g4 & HP4 & Hr4 & Hg4 & (-> & x & Hx & -> & Hok) & Hres). rewrite Elen in *.
  destruct ok; destruct Hres as [-> Hp4]; [|right; split; [done|]; exists x; split; [done|by eexists _, _, _]].
  specialize (Hok eq_refl). rewrite Hbuf in Hok. subst x.
  eapply wp_seq; [by apply command_ready|]. intros _ s5 (p5 & Hw5 & HP5). cbn in Hw5. specialize (Hw5 Hr4).
  rewrite decoded_flush in Hw5 by (rewrite Hg4; apply Ha2). destruct Hw5 as [n ->].
  eapply wp_mono; [by eapply polling_chan|].
  intros r s6 (p6 & m6 & d6 & (-> & -> & Hp6) & HP6 & [[-> ->]|(-> & Hb6 & Hn6)]).
  - right. split; [done|]. exists chunk. split; [done|]. eexists _, _, _. split_and!; [exact HP6|by left|done].
  - left. split; [done|]. destruct Hp6 as [[n' ->]|[-> | ->]]; [done| |done]. eexists _, _, _. split_and!; [exact HP6|done|done].
Qed.

(** ** Whole transfers *)

(** Blocks below this one are sent as they are. *)
Definition block_limit : Z := if ad_lba_48 dsk then 2 ^ 48 else 2 ^ 24.

Lemma sent_block_id block : 0 <= block < block_limit → sent_block dsk block = block.
Proof. unfold sent_block, block_limit. destruct (ad_lba_48 dsk); [done|]. intros H. by apply Z.mod_small. Qed.

Lemma block_limit_48 : block_limit <= 2 ^ 48.
Proof. unfold block_limit. destruct (ad_lba_48 dsk); lia. Qed.

(** The first chunk of [j] sectors. *)
Lemma first_chunk (buffer : list Z) j :
  length buffer = (j * 512)%nat → (0 < j)%nat →
  let k := Nat.min 128 j in
  length (take IDE_CHUNK buffer) = (k * 512)%nat ∧ length (drop IDE_CHUNK buffer) = ((j - k) * 512)%nat ∧ (0 < k <= 128)%nat ∧ (k <= j)%nat ∧
  take IDE_CHUNK buffer = take (k * 512) buffer ∧ drop IDE_CHUNK buffer = drop (k * 512) buffer.
Proof.
  intros Hl Hj k. rewrite length_take, length_drop, Hl. unfold k, IDE_CHUNK. change (Z.to_nat 65536) with (128 * 512)%nat.
  split_and!; try lia; destruct (decide (128 <= j)%nat); rewrite ?Nat.min_l, ?Nat.min_r by lia; try done.
  - rewrite !take_ge by lia. done.
  - rewrite !drop_ge by lia. done.
Qed.

Lemma read_loop_spec n start d : ∀ c j buffer s,
  Ready d s → Forall is_byte d → length buffer = (j * 512)%nat → (j <= n)%nat → 0 <= start → 0 <= c →
  start + c + Z.of_nat j <= block_limit → in_drive (start + c) (Z.of_nat j) d →
  wp (read_loop ph fuel n dsk start (c * 512) buffer) (λ r s',
    (r = Ok (c * 512 + Z.of_nat (length buffer), slice (Z.to_nat ((start + c) * 512)) (length buffer) d) ∧ Ready d s') ∨
    (r = Err EIO ∧ Failed d s')) s.
Proof.
  induction n as [|n IH]; intros c j buffer s HR Hby Hl Hn Hs0 Hc Hlim Hin.
  { assert (buffer = []) as -> by (apply nil_length_inv; lia). left. cbn. split; [|done]. f_equal. f_equal. lia. }
  destruct (decide (j = O)) as [->|Hj].
  { assert (buffer = []) as -> by (apply nil_length_inv; lia). left. cbn. split; [|done]. f_equal. f_equal. lia. }
  pose proof block_limit_48 as H48. assert (buffer ≠ []) as Hne by (intros ->; cbn in Hl; lia).
  destruct (first_chunk buffer j Hl ltac:(lia)) as (L1 & L2 & Hk & Hkj & E1 & E2). set (k := Nat.min 128 j) in *.
  assert (read_loop ph fuel (Datatypes.S n) dsk start (c * 512) buffer =
    (chunk ← read_chunk ph fuel dsk (as_u64 (start + c * 512 / 512)) (take IDE_CHUNK buffer);
     '(total, rest) ← read_loop ph fuel n dsk start (c * 512 + Z.of_nat (length (take IDE_CHUNK buffer))) (drop IDE_CHUNK buffer);
     mret (total, chunk ++ rest))) as -> by (by destruct buffer).
  rewrite Z.div_mul by lia. unfold as_u64. rewrite as_u_id by (unfold u_range; lia).
  assert (sent_block dsk (start + c) = start + c) as Es by (apply sent_block_id; lia).
  apply wp_bind. eapply wp_mono; [eapply (read_chunk_spec (start + c) _ k); [done|done|done|done|lia|]|].
  { rewrite Es. unfold in_drive in *. lia. }
  rewrite Es. intros r s1 [[-> HR1]|[-> HF]]; [|by right]. rewrite L1.
  replace (c * 512 + Z.of_nat (k * 512)) with ((c + Z.of_nat k) * 512) by lia.
  apply wp_bind. eapply wp_mono; [eapply (IH (c + Z.of_nat k) (j - k)%nat); [done|done|done|lia|done|lia|lia|]|].
  { unfold in_drive in *. lia. }
  intros r s2 [[-> HR2]|[-> HF2]]; [left|by right]. unfold mret, prog_ret, p_ret. cbn [fst snd]. split; [|exact HR2]. rewrite L2, Hl. apply (f_equal Ok), (f_equal2 pair); [lia|].
  replace (Z.to_nat ((start + (c + Z.of_nat k)) * 512)) with (Z.to_nat ((start + c) * 512) + k * 512)%nat by lia.
  rewrite slice_app. f_equal. lia.
Qed.

Lemma write_loop_spec n start : ∀ c j buffer d s,
  Ready d s → ad_dma dsk = true → length buffer = (j * 512)%nat → (j <= n)%nat → 0 <= start → 0 <= c →
  start + c + Z.of_nat j <= block_limit → in_drive (start + c) (Z.of_nat j) d →
  wp (write_loop ph fuel n dsk start (c * 512) buffer) (λ r s',
    (r = Ok (c * 512 + Z.of_nat (length buffer)) ∧ Ready (splice (Z.to_nat ((start + c) * 512)) buffer d) s') ∨
    (r = Err EIO ∧ ∃ x, length x = length buffer ∧ Failed (splice (Z.to_nat ((start + c) * 512)) x d) s')) s.
Proof.
  induction n as [|n IH]; intros c j buffer d s HR Hdma Hl Hn Hs0 Hc Hlim Hin.
  { assert (buffer = []) as -> by (apply nil_length_inv; lia). left. cbn. rewrite splice_nil. split; [|done]. f_equal. lia. }
  destruct (decide (j = O)) as [->|Hj].
  { assert (buffer = []) as -> by (apply nil_length_inv; lia). left. cbn. rewrite splice_nil. split; [|done]. f_equal. lia. }
  pose proof block_limit_48 as H48. assert (buffer ≠ []) as Hne by (intros ->; cbn in Hl; lia).
  destruct (first_chunk buffer j Hl ltac:(lia)) as (L1 & L2 & Hk & Hkj & E1 & E2). set (k := Nat.min 128 j) in *.
  assert (write_loop ph fuel (Datatypes.S n) dsk start (c * 512) buffer =
    (_ ← write_chunk ph fuel dsk (as_u64 (start + c * 512 / 512)) (take IDE_CHUNK buffer);
     write_loop ph fuel n dsk start (c * 512 + Z.of_nat (length (take IDE_CHUNK buffer))) (drop IDE_CHUNK buffer))) as ->
    by (by destruct buffer).
  rewrite Z.div_mul by lia. unfold as_u64. rewrite as_u_id by (unfold u_range; lia).
  assert (sent_block dsk (start + c) = start + c) as Es by (apply sent_block_id; lia).
  unfold in_drive in *. set (from := Z.to_nat ((start + c) * 512)).
  assert (Z.to_nat ((start + (c + Z.of_nat k)) * 512) = from + k * 512)%nat as Efrom by (unfold from; lia).
  assert (from + j * 512 <= length d)%nat as Hd by (unfold from; lia).
  apply wp_bind. eapply wp_mono; [eapply (write_chunk_spec (start + c) _ k); [done|done|done|done|lia|]|].
  { rewrite Es. unfold in_drive. lia. }
  rewrite Es. fold from. intros r s1 [[-> HR1]|[-> (x & Hx & HF)]].
  - rewrite L1. replace (c * 512 + Z.of_nat (k * 512)) with ((c + Z.of_nat k) * 512) by lia.
    assert (length (splice from (take IDE_CHUNK buffer) d) = length d) as Ls by (apply length_splice; lia).
    eapply wp_mono; [eapply (IH (c + Z.of_nat k) (j - k)%nat); [done|done|done|lia|done|lia|lia|rewrite Ls; lia]|].
    rewrite Efrom. intros r s2 [[-> HR2]|[-> (x & Hx & HF)]]; rewrite <- L1, splice_splice in * by lia.
    + left. split; [f_equal; lia|]. by rewrite take_drop in HR2.
    + right. split; [done|]. exists (take IDE_CHUNK buffer ++ x). split; [rewrite length_app; lia|done].
  - right. split; [done|]. exists (x ++ slice (from + length x) ((j - k) * 512) d). rewrite length_app, length_slice by lia.
    split; [lia|]. by rewrite <- splice_extend by lia.
Qed.

End disk.
End laws.

(** What a caller may rely on. *)
Record ide_setup {W : Type} `{HL : IdeLaws W ph dev} (dsk : AtaDisk) (fuel : nat) : Prop := {
  is_dev : ad_dev dsk = dev;
  is_dev01 : dev = 0 ∨ dev = 1;
  is_phys : phys_32 (ph := ph);
  is_fuel : (il_bound < fuel)%nat;
}.

(** C19. An IDE disk is an array of bytes.  A read of whole sectors, in any of the four modes
    (programmed or bus master transfers, 28- or 48-bit addresses), returns the bytes of the
    drive; a write by the bus master replaces exactly those bytes.  EIO is answered only when
    the drive or the bus master reported an error; then a read has changed nothing and a
    write nothing outside its range.  With 28-bit addresses this holds for the first 2^24
    sectors. *)
Theorem ide_disk_array {W : Type} `{HL : IdeLaws W ph dev} dsk fuel start j buffer d (s : ChanMem * W) :
  ide_setup dsk fuel → Ready d s → length buffer = (j * 512)%nat → 0 <= start → start + Z.of_nat j <= block_limit dsk →
  in_drive start (Z.of_nat j) d →
  (Forall is_byte d → wp (ide_read ph fuel dsk start buffer) (λ r s',
     (r = Ok (Some (Z.of_nat (length buffer)), slice (Z.to_nat (start * 512)) (length buffer) d) ∧ Ready d s') ∨
     (r = Err EIO ∧ Failed d s')) s) ∧
  (ad_dma dsk = true → wp (ide_write ph fuel dsk start buffer) (λ r s',
     (r = Ok (Some (Z.of_nat (length buffer))) ∧ Ready (splice (Z.to_nat (start * 512)) buffer d) s') ∨
     (r = Err EIO ∧ ∃ x, length x = length buffer ∧ Failed (splice (Z.to_nat (start * 512)) x d) s')) s).
Proof.
  intros [Hd Hd01 Hp Hf] HR Hl Hs Hlim Hin. assert (j <= length buffer)%nat as Hjl by lia. rewrite <- (Z.add_0_r start) in Hlim, Hin. split.
  - intros Hby. unfold ide_read. apply wp_bind.
    eapply wp_mono; [by eapply (read_loop_spec dsk fuel Hd Hd01 Hp Hf (length buffer) start d 0 j)|].
    rewrite Z.add_0_r. intros r s' [[-> H]|[-> H]]; [left|by right]. by split.
  - intros Hdma. unfold ide_write. apply wp_bind.
    eapply wp_mono; [by eapply (write_loop_spec dsk fuel Hd Hd01 Hp Hf (length buffer) start 0 j)|].
    rewrite Z.add_0_r. intros r s' [[-> H]|[-> H]]; [left|by right]. by split.
Qed.

(** On a drive without 48-bit addresses an access above sector 2^24 goes to another
    sector: only 24 bits of the address are sent.  A read returns the bytes of sector
    [block mod 2^24], and a write by the bus master destroys them. *)
Theorem ide_lba28_aliases {W : Type} `{HL : IdeLaws W ph dev} dsk fuel block k buffer d (s : ChanMem * W) :
  ide_setup dsk fuel → Ready d s → ad_lba_48 dsk = false → ad_dma dsk = true → Forall is_byte d →
  length buffer = (k * 512)%nat → (0 < k <= 128)%nat → 2 ^ 24 <= block < 2 ^ 28 →
  in_drive (block mod 2 ^ 24) (Z.of_nat k) d →
  let from := Z.to_nat (block mod 2 ^ 24 * 512) in
  wp (ide_read ph fuel dsk block buffer) (λ r s',
    (r = Ok (Some (Z.of_nat (length buffer)), slice from (length buffer) d) ∧ Ready d s') ∨ (r = Err EIO ∧ Failed d s')) s ∧
  wp (ide_write ph fuel dsk block buffer) (λ r s',
    (r = Ok (Some (Z.of_nat (length buffer))) ∧ Ready (splice from buffer d) s') ∨
    (r = Err EIO ∧ ∃ x, length x = length buffer ∧ Failed (splice from x d) s')) s.
Proof.
  intros [Hd Hd01 Hp Hf] HR H48 Hdma Hby Hl Hk Hb Hin from.
  assert (sent_block dsk block = block mod 2 ^ 24) as Es by (unfold sent_block; by rewrite H48).
  assert (∃ n, length buffer = Datatypes.S n) as [n Hn] by (exists (pred (length buffer)); lia).
  assert (take IDE_CHUNK buffer = buffer) as Et by (apply take_ge; unfold IDE_CHUNK; lia).
  assert (drop IDE_CHUNK buffer = []) as Ed by (apply drop_ge; unfold IDE_CHUNK; lia).
  assert (as_u64 (block + 0 / 512) = block) as Eb by (rewrite Z.add_0_r; apply as_u_id; unfold u_range; lia).
  destruct buffer as [|b0 buffer]; [done|]. unfold from. rewrite <- Es in *. split.
  - unfold ide_read. rewrite Hn. cbn [read_loop]. rewrite Et, Ed, Eb. apply wp_bind, wp_bind.
    eapply wp_mono; [by eapply (read_chunk_spec dsk fuel Hd Hd01 Hp Hf block _ k); [..|lia|]|].
    intros r s' [[-> H]|[-> H]]; [|by right]. rewrite Hn. destruct n; left; (split; [|exact H]); cbn -[slice]; by rewrite app_nil_r.
  - unfold ide_write. rewrite Hn. cbn [write_loop]. rewrite Et, Ed, Eb. apply wp_bind, wp_bind.
    eapply wp_mono; [by eapply (write_chunk_spec dsk fuel Hd Hd01 Hp Hf block _ k); [..|lia|]|].
    intros r s' [[-> H]|[-> H]]; [|right; by rewrite <- Hn]. rewrite Hn. destruct n; left; by split.
Qed.

(** ** A drive in memory *)

Record ToyIde := mk_toy_ide { ty_phase : IdePhase; ty_regs : IdeRegs; ty_disk : list Z; ty_time : Z }.

(** The toy drive is never late. *)
Definition prompt (p : IdePhase) : IdePhase :=
  match p with
  | IpIn _ data => IpIn 0 data
  | IpRun _ w lba n => IpRun 0 w lba n
  | IpBusy _ => IpBusy 0
  | p => p
  end.

Definition toy_dma (w : bool) (lba n : Z) (m : ChanMem) (d : list Z) : IdePhase * ChanMem * list Z :=
  let from := Z.to_nat (lba * 512) in
  let len := Z.to_nat (n * 512) in
  if decide (len <= length (cm_buf m) ∧ from + len <= length d)%nat then
    if w then (IpEnd true, m, splice from (take len (cm_buf m)) d)
    else (IpEnd true, set_cm_buf (splice 0 (slice from len d) (cm_buf m)) m, d)
  else if w then (IpFault, m, splice from (replicate len 0) d)
  else (IpFault, m, d).

Definition toy_look (m : ChanMem) (w : ToyIde) : IdePhase * ChanMem * list Z :=
  match prompt (ty_phase w) with
  | IpRun _ wr lba n => toy_dma wr lba n m (ty_disk w)
  | IpBusy _ => (IpIdle, m, ty_disk w)
  | p => (p, m, ty_disk w)
  end.

Definition toy_ide_value (r : IReg) (g : IdeRegs) (p : IdePhase) : Z :=
  match r with
  | IrStatus => match p with IpFault => 0x41 | IpIn _ _ => 0x48 | _ => 0x40 end
  | IrBmCommand => (if ir_to_memory g then 8 else 0) + (if ir_start g then 1 else 0)
  | IrBmStatus => match p with IpEnd false => 2 | _ => 0 end
  | _ => 0
  end.

Definition toy_data (p : IdePhase) : Z * IdePhase :=
  match p with
  | IpIn _ data => (le_val (take 4 data), if decide (length data <= 4)%nat then IpIdle else IpIn 0 (drop 4 data))
  | p => (0, p)
  end.

Definition toy_ide_write (dev : Z) (r : IReg) (v : Z) (w : ToyIde) : IdePhase :=
  let p := prompt (ty_phase w) in
  match r with
  | IrStatus =>
      match ide_command dev (ty_regs w) v with
      | IcRead true lba n => IpDma false lba n
      | IcRead false lba n => IpIn 0 (slice (Z.to_nat (lba * 512)) (Z.to_nat (n * 512)) (ty_disk w))
      | IcWrite lba n => IpDma true lba n
      | IcFlush => IpBusy 0
      | IcOther => p
      end
  | IrBmCommand => match p with IpDma wr lba n => if Z.testbit v 0 then IpRun 0 wr lba n else p | _ => p end
  | _ => p
  end.

Section toy.
Context (ph : ChanPhys) (dev : Z).

#[local] Instance toy_ide_io : Io (ChanMem * ToyIde) IReg := {|
  io_width := 8;
  io_read := λ r '(m, w),
    match r with
    | IrData => let '(v, p) := toy_data (prompt (ty_phase w)) in (v, (m, mk_toy_ide p (ty_regs w) (ty_disk w) (ty_time w)))
    | _ => let '(p, m, d) := toy_look m w in
           (toy_ide_value r (ty_regs w) p, (m, mk_toy_ide p (ty_regs w) d (ty_time w)))
    end;
  io_write := λ r v '(m, w), (m, mk_toy_ide (toy_ide_write dev r v w) (reg_write r v (ty_regs w)) (ty_disk w) (ty_time w));
|}.

#[local] Instance toy_clock : Clock ToyIde :=
  λ w, (ty_time w + 1, mk_toy_ide (ty_phase w) (ty_regs w) (ty_disk w) (ty_time w + 1)).

#[local] Instance toy_clock_laws : ClockLaws ToyIde.
Proof.
  refine {| cl_time := ty_time |}.
  - intros w t w' [= <- <-]. cbn. lia.
  - intros r m w v m' w'. cbn. destruct r; repeat case_match; intros; simplify_eq; cbn; lia.
Defined.

Lemma toy_dma_done w lba n m d p' m' d' :
  toy_dma w lba n m d = (p', m', d') → ∃ ok, (ok = true ∧ p' = IpEnd true ∨ ok = false ∧ p' = IpFault) ∧ dma_done ok w lba n m d m' d'.
Proof.
  unfold toy_dma, dma_done. intros E. destruct (decide _) as [[H1 H2]|_]; destruct w; simplify_eq.
  - exists true. split; [by left|]. split; [done|]. eexists. split_and!; [|done|done]. rewrite length_take. lia.
  - exists true. split; [by left|]. split; [done|]. eexists. split_and!; [|done|].
    + rewrite length_splice; [done|]. rewrite length_slice; lia.
    + intros _. unfold splice. rewrite take_0. cbn [app]. by rewrite take_app_length' by (rewrite length_slice; lia).
  - exists false. split; [by right|]. split; [done|]. eexists. split_and!; [|done|done]. by rewrite length_replicate.
  - exists false. split; [by right|]. split; [done|]. exists (cm_buf m'). by destruct m'.
Qed.

Lemma toy_look_settles m w p' m' d' :
  toy_look m w = (p', m', d') → ide_settle (prompt (ty_phase w), m, ty_disk w) (p', m', d') ∧ busy_for p' = O ∧ prompt p' = p'.
Proof.
  unfold toy_look. destruct (ty_phase w) eqn:Ep; cbn [prompt]; intros E; simplify_eq; try by (split; [by apply st_still|]).
  - destruct (toy_dma_done _ _ _ _ _ _ _ _ E) as (ok & [[-> ->]|[-> ->]] & Hd); (split; [|done]);
      [by apply st_end|by apply st_run_fault].
  - split; [|done]. apply st_flushed. by left.
Qed.

#[local] Instance toy_ide_laws : IdeLaws ToyIde ph dev.
Proof.
  refine {| il_clock := toy_clock_laws; il_phase := λ w, prompt (ty_phase w); il_regs := ty_regs; il_disk := ty_disk;
            il_bound := 1%nat; il_tick := 1 |}; try done.
  - intros w. by destruct (ty_phase w); cbn; lia.
  - intros w t w' [= <- <-]. cbn. split_and!; [lia|done..].
  - intros r m w v m' w' E. destruct (decide (r = IrData)) as [->|Hr].
    + cbn in E. destruct (toy_data (prompt (ty_phase w))) as [v0 p0] eqn:Ed. simplify_eq. cbn. split_and!; [lia|done..|].
      intros _ data Hp Hl. rewrite Hp in *. cbn in Ed. simplify_eq. split; [|done]. case_decide as Hd; cbn.
      * rewrite take_ge by lia. apply dt_last. lia.
      * destruct (decide (Z.of_nat (length data) mod 512 = 4)); [apply dt_sector|apply dt_more]; done || lia.
    + assert ((let '(p, m, d) := toy_look m w in
           (toy_ide_value r (ty_regs w) p, (m, mk_toy_ide p (ty_regs w) d (ty_time w)))) = (v, (m', w'))) as E' by (by destruct r).
      clear E. destruct (toy_look m w) as [[p0 m0] d0] eqn:El. simplify_eq. destruct (toy_look_settles _ _ _ _ _ El) as (Hs & Hb & Hp).
      cbn. rewrite Hp. split_and!; [lia|done| |by intros _|done].
      destruct r; cbn; try done.
      * destruct p0; cbn in *; try done; try (by left); split_and!; try done; try by intros [].
      * by destruct (ir_to_memory (ty_regs w)), (ir_start (ty_regs w)).
      * by destruct p0 as [| | | | |[]|].
  - intros r v m w m' w' E. cbn in E. simplify_eq. cbn. split_and!; [done..|]. unfold toy_ide_write.
    destruct r; cbn; try (by intros H; destruct (ty_phase w)).
    + intros _. destruct (ide_command dev (ty_regs w) v) as [[] lba n|lba n| |]; try done; try (by eexists).
    + split.
      * intros Hr Hb. by destruct (ty_phase w).
      * intros wr lba n Hp Hb _ _ _. rewrite Hp. cbn. rewrite Hb. by eexists.
Defined.


Lemma toy_ready (d : list Z) (g : IdeRegs) : Ready (ph := ph) (dev := dev) d (channel_mem, mk_toy_ide IpIdle g d 0).
Proof.
  exists IpIdle, channel_mem, g. split; [by constructor|]. split; [done|]. split; cbn [cm_prdt cm_buf channel_mem].
  - apply length_replicate.
  - apply length_replicate.
Qed.

End toy.

Definition demo_chan : ChanPhys := mk_chan_phys 0x1000 0x10000.

Definition demo_regs : IdeRegs := mk_ide_regs (0, 0) (0, 0) (0, 0) (0, 0) 0 0 false false.

Definition demo_drive : ChanMem * ToyIde := (channel_mem, mk_toy_ide IpIdle demo_regs (replicate 2048 7) 0).

Definition demo_dsk (dma lba_48 : bool) : AtaDisk := mk_ata_disk 0 1 2048 dma lba_48.

(** A write and a read of a sector in each mode. *)
Definition demo_ide_run (dma lba_48 : bool) : res errno (option Z * list Z) :=
  let io := toy_ide_io 1 in
  let s := (ide_write (HIo := io) (HC := toy_clock) demo_chan 2 (demo_dsk true lba_48) 1 (replicate 512 9) demo_drive).2 in
  (ide_read (HIo := io) (HC := toy_clock) demo_chan 2 (demo_dsk dma lba_48) 0 (replicate 1536 0) s).1.

Lemma demo_ide_runs :
  let r := Ok (Some 1536, replicate 512 7 ++ replicate 512 9 ++ replicate 512 7) in
  demo_ide_run true true = r ∧ demo_ide_run true false = r ∧ demo_ide_run false true = r ∧ demo_ide_run false false = r.
Proof. vm_compute. done. Qed.

Lemma demo_setup dma lba_48 : ide_setup (HL := toy_ide_laws demo_chan 1) (demo_dsk dma lba_48) 2.
Proof. split; [done|by right|split; done|cbn; lia]. Qed.

Lemma ide_transfers_end_witness :
  let fuel := Z.to_nat (TIMEOUT + 1) in
  (ide_read (HIo := toy_ide_io 1) (HC := toy_clock) demo_chan fuel (demo_dsk false false) 3 (replicate 512 0) demo_drive).1
    ≠ Err ETIMEDOUT.
Proof.
  intros fuel. apply (ide_transfers_end (HCL := toy_clock_laws 1) demo_chan fuel (demo_dsk false false) 3 (replicate 512 0) demo_drive).
  unfold fuel. rewrite Z2Nat.id by (unfold TIMEOUT; lia). lia.
Defined.

Lemma ide_disk_array_witness :
  wp (ide_read (HIo := toy_ide_io 1) (HC := toy_clock) demo_chan 2 (demo_dsk true true) 1 (replicate 1024 0)) (λ r s',
    (r = Ok (Some 1024, replicate 1024 7) ∧ Ready (HL := toy_ide_laws demo_chan 1) (replicate 2048 7) s') ∨
    (r = Err EIO ∧ Failed (HL := toy_ide_laws demo_chan 1) (replicate 2048 7) s')) demo_drive.
Proof.
  apply (ide_disk_array (HL := toy_ide_laws demo_chan 1) (demo_dsk true true) 2 1 2 (replicate 1024 0) (replicate 2048 7) demo_drive
    (demo_setup true true) (toy_ready demo_chan 1 _ _)); [done|lia|cbn; lia|done|].
  apply Forall_replicate. by vm_compute.
Defined.

Lemma ide_lba28_aliases_witness :
  wp (ide_read (HIo := toy_ide_io 1) (HC := toy_clock) demo_chan 2 (demo_dsk true false) (2 ^ 24 + 1) (replicate 512 0)) (λ r s',
    (r = Ok (Some 512, replicate 512 7) ∧ Ready (HL := toy_ide_laws demo_chan 1) (replicate 2048 7) s') ∨
    (r = Err EIO ∧ Failed (HL := toy_ide_laws demo_chan 1) (replicate 2048 7) s')) demo_drive.
Proof.
  apply (ide_lba28_aliases (HL := toy_ide_laws demo_chan 1) (demo_dsk true false) 2 (2 ^ 24 + 1) 1 (replicate 512 0) (replicate 2048 7)
    demo_drive (demo_setup true false) (toy_ready demo_chan 1 _ _)); [done|done| |done|lia|lia|done].
  apply Forall_replicate. by vm_compute.
Defined.
