(* ===== verification/NvmeScheme.v ===== *)
(** The files of nvmed (storage/nvmed/src/scheme.rs): namespaces and their partitions, over the
    transfers of [NvmeIo].

    The state holds the driver with its queues, shared by all namespaces.  The maps of the
    source are ordered by key; the namespaces are a list of pairs in that order, because their
    order shows in the listing.  Handles, paths and the parts of [fpath] are those of
    [DiskScheme], whose text this scheme repeats.  The parser of partition tables, of
    partitionlib, is a parameter that works on the reader [NvDevice]. *)

From S2P Require Import Prelude BlockIo NvmeQueue NvmeReactor NvmeIo DiskScheme.

Record NvWrapper := mk_nv_wrapper { nw_inner : NvmeNamespace; nw_pt : option (list Partition) }.

(** The reader that the parser gets. *)
Record NvDevice := mk_nv_device { nd_offset : Z; nd_block_bytes : list Z }.

Record NvScheme (W : Type) := mk_nv_scheme {
  nv_name : list Z;
  nv_io : IoState W;
  nv_disks : list (Z * NvWrapper);
  nv_handles : gmap Z DsHandle;
  nv_next_id : Z;
}.
Arguments mk_nv_scheme {W} _ _ _ _ _.
Arguments nv_name {W} _.
Arguments nv_io {W} _.
Arguments nv_disks {W} _.
Arguments nv_handles {W} _.
Arguments nv_next_id {W} _.

(** The lookup of an ordered map. *)
Fixpoint map_get {A : Type} (k : Z) (l : list (Z * A)) : option A :=
  match l with
  | [] => None
  | (k', a) :: l => if k' =? k then Some a else map_get k l
  end.

(** ** The reader *)

Section device.
Context {W : Type} `{NvmeController W} (ns : NvmeNamespace).

Abbreviation rp := (prog (IoState W * NvDevice) IoError).

Definition set_offset (off : Z) (s : IoState W * NvDevice) : IoState W * NvDevice :=
  (s.1, mk_nv_device off (nd_block_bytes s.2)).

Definition nv_seek (from : SeekFrom) : rp Z :=
  offset ← gets (λ s, nd_offset s.2);
  let size := as_u64 (ns_blocks ns * ns_block_size ns) in
  if 2 ^ 63 <=? size then throw TooLarge
  else
    let off :=
      match from with
      | SStart new_pos => Z.min size new_pos
      | SCurrent new_pos => as_u64 (Z.max 0 (Z.min size (as_i64 (as_i64 offset + new_pos))))
      | SEnd new_pos => as_u64 (Z.max 0 (Z.min (as_i64 (size + new_pos)) size))
      end in
    _ ← modify (set_offset off);
    mret off.

(** The closure [read_block]: the state is the driver and the block buffer. *)
Definition nv_read_block (block : Z) : prog (IoState W * list Z) IoError unit := λ '(s, bb),
  if ns_blocks ns <=? block then (Err (RawOsError EOVERFLOW), (s, bb))
  else
    match namespace_read ns (ns_id ns) block (length bb) s with
    | (Ok (bytes, data), s) =>
        if (bytes =? Z.of_nat (length bb)) && (bytes =? as_usize (ns_block_size ns)) then (Ok tt, (s, data)) else (Panic, (s, data))
    | (Err e, s) => (Err (RawOsError e), (s, bb))
    | (Panic, s) => (Panic, (s, bb))
    end.

(** What is read, for a buffer of [n] bytes. *)
Definition nv_dev_read (n : nat) : rp (list Z) := λ '(s, dv),
  if 2 ^ 32 <=? ns_block_size ns then (Panic, (s, dv))
  else
    match block_read nv_read_block (nd_offset dv) (ns_block_size ns) n (s, nd_block_bytes dv) with
    | Some (Ok k, out, (s, bb)) => (Ok out, (s, mk_nv_device (as_u64 (nd_offset dv + k)) bb))
    | Some (Err e, out, (s, bb)) => (Err e, (s, mk_nv_device (nd_offset dv) bb))
    | Some (Panic, out, (s, bb)) => (Panic, (s, mk_nv_device (nd_offset dv) bb))
    | None => (Panic, (s, dv))
    end.

(** [partitionlib::get_partitions], given the two methods of the reader and the block size. *)
Context (get_partitions : (nat → rp (list Z)) → (SeekFrom → rp Z) → Z → rp (option (list Partition))).

Definition nv_pt (s : IoState W) : option (list Partition) * IoState W :=
  if (ns_block_size ns =? 512) || (ns_block_size ns =? 4096) then
    let dv := mk_nv_device 0 (replicate (Z.to_nat (ns_block_size ns)) 0) in
    let '(r, (s, _)) := get_partitions nv_dev_read nv_seek (ns_block_size ns) (s, dv) in
    (match r with Ok (Some parts) => Some parts | _ => None end, s)
  else (None, s).

Definition nv_wrapper_new (s : IoState W) : NvWrapper * IoState W :=
  let '(pt, s) := nv_pt s in (mk_nv_wrapper ns pt, s).
End device.

(** ** The scheme *)

Section scheme.
Context {W : Type} `{NvmeController W} (O_DIRECTORY O_STAT : Z).

Abbreviation np := (prog (NvScheme W) errno).

Fixpoint wrap_all
    (get_partitions : NvmeNamespace → (nat → prog (IoState W * NvDevice) IoError (list Z)) →
       (SeekFrom → prog (IoState W * NvDevice) IoError Z) → Z → prog (IoState W * NvDevice) IoError (option (list Partition)))
    (disks : list (Z * NvmeNamespace)) (s : IoState W) : list (Z * NvWrapper) * IoState W :=
  match disks with
  | [] => ([], s)
  | (k, ns) :: disks =>
      let '(w, s) := nv_wrapper_new ns (get_partitions ns) s in
      let '(l, s) := wrap_all get_partitions disks s in
      ((k, w) :: l, s)
  end.

Definition nv_scheme_new
    (get_partitions : NvmeNamespace → (nat → prog (IoState W * NvDevice) IoError (list Z)) →
       (SeekFrom → prog (IoState W * NvDevice) IoError Z) → Z → prog (IoState W * NvDevice) IoError (option (list Partition)))
    (name : list Z) (s : IoState W) (disks : list (Z * NvmeNamespace)) : NvScheme W :=
  let '(disks, s) := wrap_all get_partitions disks s in
  mk_nv_scheme name s disks ∅ 0.

Definition set_nv_handles (x : gmap Z DsHandle) (s : NvScheme W) : NvScheme W :=
  mk_nv_scheme (nv_name s) (nv_io s) (nv_disks s) x (nv_next_id s).

(** A call of the driver. *)
Definition with_nvme {A : Type} (m : prog (IoState W) errno A) : np A := λ s,
  let '(r, io) := m (nv_io s) in (r, mk_nv_scheme (nv_name s) io (nv_disks s) (nv_handles s) (nv_next_id s)).

Definition nv_check_locks (disk_i : Z) (part_i_opt : option Z) : np unit :=
  hs ← gets nv_handles;
  if existsb (λ kh, conflicts kh.2 disk_i part_i_opt) (map_to_list hs) then throw ENOLCK else mret tt.

Definition nv_disk_lines (nsid : Z) (d : NvWrapper) : list Z :=
  disk_line nsid ++
  match nw_pt d with
  | None => []
  | Some parts => mjoin (imap (λ p _, part_line nsid (Z.of_nat p)) parts)
  end.

Definition nv_list (disks : list (Z * NvWrapper)) : list Z := mjoin ((λ kd, nv_disk_lines kd.1 kd.2) <$> disks).

Definition nv_open_part (nsid_str part_num_str : string) : np DsHandle :=
  if bool_decide (part_num_str = "") then throw ENOENT
  else
    nsid ← ok_or (parse_uint (2 ^ 32) nsid_str) ENOENT;
    part_num ← ok_or (parse_uint (2 ^ 32) part_num_str) ENOENT;
    disks ← gets nv_disks;
    match map_get nsid disks with
    | Some disk =>
        parts ← ok_or (nw_pt disk) ENOENT;
        match parts !! Z.to_nat part_num with
        | Some _ => _ ← nv_check_locks nsid (Some part_num); mret (DhPartition nsid part_num)
        | None => throw ENOENT
        end
    | None => throw ENOENT
    end.

Definition nv_open_disk (path_str : string) : np DsHandle :=
  nsid ← ok_or (parse_uint (2 ^ 32) path_str) ENOENT;
  disks ← gets nv_disks;
  match map_get nsid disks with
  | Some _ => _ ← nv_check_locks nsid None; mret (DhDisk nsid)
  | None => throw ENOENT
  end.

Definition nv_resolve (path_str : string) (flags : Z) : np DsHandle :=
  if bool_decide (path_str = "") then
    if (Z.land flags O_DIRECTORY =? O_DIRECTORY) || (Z.land flags O_STAT =? O_STAT) then
      disks ← gets nv_disks; mret (DhList (nv_list disks))
    else throw EISDIR
  else match split_p path_str with
       | Some (nsid_str, part_num_str) => nv_open_part nsid_str part_num_str
       | None => nv_open_disk path_str
       end.

Definition nv_xopen (path_str : string) (flags uid : Z) : np Z :=
  if negb (uid =? 0) then throw EACCES
  else
    handle ← nv_resolve (trim_matches path_str) flags;
    id ← gets nv_next_id;
    _ ← modify (λ s, mk_nv_scheme (nv_name s) (nv_io s) (nv_disks s) (<[id := handle]> (nv_handles s)) (as_usize (id + 1)));
    mret id.

Definition nv_handle (id : Z) : np DsHandle := hs ← gets nv_handles; ok_or (hs !! id) EBADF.

Definition nv_disk (nsid : Z) : np NvWrapper := disks ← gets nv_disks; ok_or (map_get nsid disks) EBADF.

Definition nv_part (d : NvWrapper) (part_num : Z) : np Partition :=
  parts ← ok_or (nw_pt d) EBADF;
  ok_or (parts !! Z.to_nat part_num) EBADF.

(** [block_size.try_into::<u32>().expect(..)] *)
Definition blksize_u32 (ns : NvmeNamespace) : np Z :=
  if ns_block_size ns <? 2 ^ 32 then mret (ns_block_size ns) else panic.

Definition nv_fstat (id : Z) : np DsStat :=
  h ← nv_handle id;
  match h with
  | DhList data => mret (mk_ds_stat MODE_DIR (Z.of_nat (length data)) None None)
  | DhDisk number =>
      d ← nv_disk number;
      blk ← blksize_u32 (nw_inner d);
      mret (mk_ds_stat MODE_REG (as_u64 (ns_blocks (nw_inner d) * ns_block_size (nw_inner d))) (Some blk) (Some (ns_blocks (nw_inner d))))
  | DhPartition i p =>
      d ← nv_disk i;
      part ← nv_part d p;
      blk ← blksize_u32 (nw_inner d);
      mret (mk_ds_stat MODE_REG (as_u64 (pt_size part * ns_block_size (nw_inner d))) (Some blk) (Some (pt_size part)))
  end.

Definition nv_fpath (id : Z) (buf : list Z) : np (nat * list Z) :=
  h ← nv_handle id;
  name ← gets nv_name;
  let '(i, buf) := put_bytes name 0 buf in
  let '(i, buf) := if (i <? length buf)%nat then (S i, <[i := 58]> buf) else (i, buf) in
  mret (put_bytes (handle_path h) i buf).

(** The block of an offset; a partition checks the first block of the access. *)
Definition nv_disk_block (d : NvWrapper) (offset : Z) : np Z :=
  if ns_block_size (nw_inner d) =? 0 then panic else mret (offset / ns_block_size (nw_inner d)).

Definition nv_part_block (d : NvWrapper) (part : Partition) (offset : Z) : np Z :=
  rel_block ← nv_disk_block d offset;
  if pt_size part <=? rel_block then throw EOVERFLOW else mret (as_u64 (pt_start_lba part + rel_block)).

Definition nv_read (id : Z) (buf : list Z) (offset : Z) : np (Z * list Z) :=
  h ← nv_handle id;
  match h with
  | DhList data =>
      let src := drop (Z.to_nat offset) data in
      let n := (length src `min` length buf)%nat in
      mret (Z.of_nat n, take n src ++ drop n buf)
  | DhDisk i =>
      d ← nv_disk i;
      block ← nv_disk_block d offset;
      with_nvme (namespace_read (nw_inner d) (ns_id (nw_inner d)) block (length buf))
  | DhPartition i p =>
      d ← nv_disk i;
      part ← nv_part d p;
      block ← nv_part_block d part offset;
      with_nvme (namespace_read (nw_inner d) (ns_id (nw_inner d)) block (length buf))
  end.

Definition nv_write (id : Z) (buf : list Z) (offset : Z) : np Z :=
  h ← nv_handle id;
  match h with
  | DhList _ => throw EBADF
  | DhDisk i =>
      d ← nv_disk i;
      block ← nv_disk_block d offset;
      with_nvme (namespace_write (nw_inner d) (ns_id (nw_inner d)) block buf)
  | DhPartition i p =>
      d ← nv_disk i;
      part ← nv_part d p;
      block ← nv_part_block d part offset;
      with_nvme (namespace_write (nw_inner d) (ns_id (nw_inner d)) block buf)
  end.

Definition nv_fsize (id : Z) : np Z :=
  h ← nv_handle id;
  match h with
  | DhList data => mret (Z.of_nat (length data))
  | DhDisk i => d ← nv_disk i; mret (as_u64 (ns_blocks (nw_inner d) * ns_block_size (nw_inner d)))
  | DhPartition i p =>
      d ← nv_disk i;
      part ← nv_part d p;
      mret (as_u64 (pt_size part * ns_block_size (nw_inner d)))
  end.

Definition nv_close (id : Z) : np unit :=
  hs ← gets nv_handles;
  match hs !! id with
  | None => throw EBADF
  | Some _ => modify (set_nv_handles (delete id hs))
  end.

End scheme.

(** ** Files are arrays *)

(** The blocks of a namespace behind a handle. *)
Definition nv_region (nsid : Z) (d : NvWrapper) (h : DsHandle) : option (Z * Z) :=
  match h with
  | DhList _ => None
  | DhDisk i => if i =? nsid then Some (0, ns_blocks (nw_inner d)) else None
  | DhPartition i p =>
      if i =? nsid then parts ← nw_pt d; part ← parts !! Z.to_nat p; Some (pt_start_lba part, pt_size part) else None
  end.

Section files.
Context {W : Type} {bs : Z} (ns : NvmeNamespace) `{HL : NvmeLaws W (ns_id ns) bs}.
Context (Hbs : ns_block_size ns = bs) (Hpos : 0 < bs) (Hdiv : (bs | 8192)).

Abbreviation bytes s := (ns_bytes (io_w (nv_io s))).

(** Everything but the driver and the device. *)
Definition nv_frame (s : NvScheme W) := (nv_name s, nv_disks s, nv_handles s, nv_next_id s).

(** A file of [size] blocks at block [start], open at [id]. *)
Record nv_open (s : NvScheme W) (id start size : Z) : Prop := {
  no_idle : io_idle (nv_io s);
  no_disk : ∃ nsid pt h, nv_handles s !! id = Some h ∧ map_get nsid (nv_disks s) = Some (mk_nv_wrapper ns pt) ∧
    nv_region nsid (mk_nv_wrapper ns pt) h = Some (start, size);
  no_size : Z.of_nat (length (bytes s)) = ns_blocks ns * bs;
  no_63 : ns_blocks ns * bs < 2 ^ 63;
  no_region : 0 <= start ∧ 0 <= size ∧ start + size <= ns_blocks ns;
}.

(** The bytes of the file, and the bytes around it. *)
Definition nv_file (start size : Z) (s : NvScheme W) : list Z := slice (Z.to_nat (start * bs)) (Z.to_nat (size * bs)) (bytes s).

Definition nv_around (start size : Z) (s : NvScheme W) : list Z * list Z :=
  (take (Z.to_nat (start * bs)) (bytes s), drop (Z.to_nat (start * bs) + Z.to_nat (size * bs)) (bytes s)).

(** An access to a file comes to the transfer of the namespace at the right block. *)
Lemma nv_access s id start size offset :
  nv_open s id start size → 0 <= offset → offset / bs < size →
  (∀ buf, nv_read id buf offset s = with_nvme (namespace_read ns (ns_id ns) (start + offset / bs) (length buf)) s) ∧
  (∀ buf, nv_write id buf offset s = with_nvme (namespace_write ns (ns_id ns) (start + offset / bs) buf) s).
Proof.
  intros [_ (nsid & pt & h & Hh & Hd & Hr) _ H63 (R1 & R2 & R3)] Ho Hs.
  assert (0 <= offset / bs) as Hq by (apply Z.div_pos; lia).
  assert (start + offset / bs < 2 ^ 63).
  { assert (ns_blocks ns <= ns_blocks ns * bs); [|lia]. rewrite <- (Z.mul_1_r (ns_blocks ns)) at 1. apply Z.mul_le_mono_nonneg_l; lia. }
  assert (∀ d : NvWrapper, nw_inner d = ns → nv_disk_block (W := W) d offset s = (Ok (offset / bs), s)) as Hblk.
  { intros d Ed. unfold nv_disk_block. rewrite Ed, Hbs. by rewrite (proj2 (Z.eqb_neq _ _)) by lia. }
  assert (nv_handle id s = (Ok h, s)) as Eh by (unfold nv_handle, mbind, prog_bind, p_bind, gets; by rewrite Hh).
  assert (nv_disk nsid s = (Ok (mk_nv_wrapper ns pt), s)) as Ed by (unfold nv_disk, mbind, prog_bind, p_bind, gets; by rewrite Hd).
  destruct h as [|i|i p]; cbn [nv_region nw_inner nw_pt] in Hr; [done| |].
  - destruct (Z.eqb_spec i nsid) as [->|]; [|done]. injection Hr as <- <-.
    split; intros buf; unfold nv_read, nv_write, mbind, prog_bind; rewrite (bind_Ok _ _ _ _ _ Eh); cbv iota;
      rewrite (bind_Ok _ _ _ _ _ Ed), (bind_Ok _ _ _ _ _ (Hblk (mk_nv_wrapper ns pt) eq_refl)); done.
  - destruct (Z.eqb_spec i nsid) as [->|]; [|done]. destruct pt as [parts|]; cbn in Hr; [|done].
    destruct (parts !! Z.to_nat p) as [part|] eqn:Ep; cbn in Hr; [|done]. injection Hr as <- <-.
    assert (nv_part (mk_nv_wrapper ns (Some parts)) p s = (Ok part, s)) as Epart.
    { unfold nv_part, mbind, prog_bind, p_bind. cbn. by rewrite Ep. }
    assert (nv_part_block (mk_nv_wrapper ns (Some parts)) part offset s = (Ok (pt_start_lba part + offset / bs), s)) as Eb.
    { unfold nv_part_block, mbind, prog_bind. rewrite (bind_Ok _ _ _ _ _ (Hblk (mk_nv_wrapper ns (Some parts)) eq_refl)).
      rewrite (proj2 (Z.leb_gt _ _)) by lia. unfold as_u64. rewrite as_u_id by (unfold u_range; lia). done. }
    split; intros buf; unfold nv_read, nv_write, mbind, prog_bind; rewrite (bind_Ok _ _ _ _ _ Eh); cbv iota;
      rewrite (bind_Ok _ _ _ _ _ Ed), (bind_Ok _ _ _ _ _ Epart), (bind_Ok _ _ _ _ _ Eb); done.
Qed.

Lemma with_nvme_eq {A : Type} (m : prog (IoState W) errno A) s r io :
  m (nv_io s) = (r, io) → ∃ s', with_nvme m s = (r, s') ∧ nv_io s' = io ∧ nv_frame s' = nv_frame s.
Proof. intros E. unfold with_nvme. rewrite E. by eexists. Qed.

Lemma namespace_read_eq lba n s :
  io_idle s → 0 <= lba → lba * bs + Z.of_nat n <= Z.of_nat (length (ns_bytes (io_w s))) →
  (bs | Z.of_nat (length (ns_bytes (io_w s)))) → Z.of_nat (length (ns_bytes (io_w s))) < 2 ^ 63 →
  ∃ r s', namespace_read ns (ns_id ns) lba n s = (r, s') ∧ io_idle s' ∧ ns_bytes (io_w s') = ns_bytes (io_w s) ∧
    (r = Err EIO ∧ (∃ c (v : W), (nvme_exec c v).1 ≠ 0) ∨ r = Ok (Z.of_nat n, slice (Z.to_nat (lba * bs)) n (ns_bytes (io_w s)))).
Proof.
  intros Hi Hl Hin Hk Hm. destruct (read_chunks_spec ns (ns_id ns) Hbs Hpos Hdiv n n lba s) as (r & s' & Hr & Hi' & Hns & Hc); [done|lia|done..|].
  unfold namespace_read, mbind, prog_bind. destruct Hc as [[-> Hc]| ->].
  - eexists _, s'. split; [by apply bind_Err|]. eauto.
  - rewrite (bind_Ok _ _ _ _ _ Hr). eexists _, s'. split; [done|]. eauto.
Qed.

Lemma namespace_write_eq lba buf s :
  io_idle s → 0 <= lba → (bs | Z.of_nat (length buf)) →
  lba * bs + Z.of_nat (length buf) <= Z.of_nat (length (ns_bytes (io_w s))) →
  Z.of_nat (length (ns_bytes (io_w s))) < 2 ^ 63 → 8192 <= Z.of_nat (length (buffer_bytes (io_w s))) →
  ∃ r s', namespace_write ns (ns_id ns) lba buf s = (r, s') ∧ io_idle s' ∧
    (r = Err EIO ∧ (∃ c (v : W), (nvme_exec c v).1 ≠ 0) ∨
     r = Ok (Z.of_nat (length buf)) ∧ ns_bytes (io_w s') = splice (Z.to_nat (lba * bs)) buf (ns_bytes (io_w s))).
Proof.
  intros Hi Hl Hk Hin Hm Hb.
  destruct (write_chunks_spec ns (ns_id ns) Hbs Hpos Hdiv (length buf) buf lba s) as (r & s' & Hr & Hi' & Hc); [done|lia|done..|].
  unfold namespace_write, mbind, prog_bind. destruct Hc as [[-> Hc]|[-> Hns]].
  - eexists _, s'. split; [by apply bind_Err|]. eauto.
  - rewrite (bind_Ok _ _ _ _ _ Hr). eexists _, s'. split; [done|]. eauto.
Qed.

End files.

(** C20. A file of nvmed, a namespace or a partition of it, is an array of bytes: a read that
    lies in the file returns the bytes of the file at the block of the offset; a write of
    whole blocks replaces exactly those bytes and leaves everything around the file as it
    was.  The commands go through the queues, the controller and the reactor; a command that
    fails is answered with EIO, and the queues are idle again. *)
Theorem nvme_file_is_array {W : Type} {bs : Z} ns `{HL : NvmeLaws W (ns_id ns) bs} s id start size buf offset :
  ns_block_size ns = bs → 0 < bs → (bs | 8192) → nv_open (W := W) (bs := bs) ns s id start size → 0 <= offset → (0 < length buf)%nat →
  offset / bs * bs + Z.of_nat (length buf) <= size * bs →
  let at_ := Z.to_nat (offset / bs * bs) in
  (∃ r s', nv_read id buf offset s = (r, s') ∧ io_idle (nv_io s') ∧ nv_frame s' = nv_frame s ∧
     ns_bytes (io_w (nv_io s')) = ns_bytes (io_w (nv_io s)) ∧
     (r = Err EIO ∧ (∃ c (v : W), (nvme_exec c v).1 ≠ 0) ∨
      r = Ok (Z.of_nat (length buf), slice at_ (length buf) (nv_file (bs := bs) start size s)))) ∧
  ((bs | Z.of_nat (length buf)) → 8192 <= Z.of_nat (length (buffer_bytes (io_w (nv_io s)))) →
   ∃ r s', nv_write id buf offset s = (r, s') ∧ io_idle (nv_io s') ∧ nv_frame s' = nv_frame s ∧
     (r = Err EIO ∧ (∃ c (v : W), (nvme_exec c v).1 ≠ 0) ∨
      r = Ok (Z.of_nat (length buf)) ∧ nv_file (bs := bs) start size s' = splice at_ buf (nv_file (bs := bs) start size s) ∧
      nv_around (bs := bs) start size s' = nv_around (bs := bs) start size s)).
Proof.
  intros Hbs Hpos Hdiv HO Ho Hl Hin at_. pose proof HO as [Hi _ Hsz H63 (R1 & R2 & R3)].
  assert (0 <= offset / bs) as Hq by (apply Z.div_pos; lia).
  assert (0 <= offset / bs * bs ∧ 0 <= start * bs) as [K1 K2] by (split; apply Z.mul_nonneg_nonneg; lia).
  assert (offset / bs < size) as Hs by nia.
  assert (start * bs + size * bs <= ns_blocks ns * bs) as Hreg by (rewrite <- Z.mul_add_distr_r; apply Z.mul_le_mono_nonneg_r; lia).
  destruct (nv_access ns Hbs Hpos s id start size offset HO Ho Hs) as [Er Ew].
  assert (Z.to_nat ((start + offset / bs) * bs) = Z.to_nat (start * bs) + at_)%nat as Eat.
  { unfold at_. rewrite Z.mul_add_distr_r, Z2Nat.inj_add by lia. done. }
  split.
  - destruct (namespace_read_eq ns Hbs Hpos Hdiv (start + offset / bs) (length buf) (nv_io s)) as (r & io & E & Hio & Hb & Hr);
      [done|lia|rewrite Z.mul_add_distr_r; lia|rewrite Hsz; by apply Z.divide_factor_r|lia|].
    destruct (with_nvme_eq _ s r io E) as (s' & Es & <- & Hf). exists r, s'. rewrite Er. split_and!; [done..|].
    destruct Hr as [Hr|Hr]; [by left|right]. rewrite Hr. do 2 f_equal. unfold nv_file. rewrite slice_slice by lia. by rewrite Eat.
  - intros Hk Hbuf.
    destruct (namespace_write_eq ns Hbs Hpos Hdiv (start + offset / bs) buf (nv_io s)) as (r & io & E & Hio & Hr);
      [done|lia|done|rewrite Z.mul_add_distr_r; lia|lia|done|].
    destruct (with_nvme_eq _ s r io E) as (s' & Es & <- & Hf). exists r, s'. rewrite Ew. split_and!; [done..|].
    destruct Hr as [Hr|[Hr Hb]]; [by left|right]. split; [done|]. rewrite Eat in Hb. unfold nv_file, nv_around. rewrite Hb. split.
    + apply slice_splice_in; lia.
    + f_equal; [apply take_splice_below; lia|apply drop_splice_above; lia].
Qed.

(** ** The reader of partition tables *)

(** With a controller that does not fail, the parser reads the bytes of the namespace. *)
Lemma nv_dev_read_bytes {W : Type} {bs : Z} ns `{HL : NvmeLaws W (ns_id ns) bs} n (s : IoState W) dv :
  ns_block_size ns = bs → 0 < bs < 2 ^ 32 → (bs | 8192) → (∀ c (w : W), (nvme_exec c w).1 = 0) → io_idle s →
  Z.of_nat (length (ns_bytes (io_w s))) = ns_blocks ns * bs → ns_blocks ns * bs < 2 ^ 63 →
  Z.of_nat (length (nd_block_bytes dv)) = bs → 0 <= nd_offset dv → (0 < n)%nat →
  nd_offset dv + Z.of_nat n <= ns_blocks ns * bs →
  ∃ s' bb, nv_dev_read ns n (s, dv) =
    (Ok (slice (Z.to_nat (nd_offset dv)) n (ns_bytes (io_w s))), (s', mk_nv_device (nd_offset dv + Z.of_nat n) bb)) ∧
    io_idle s' ∧ ns_bytes (io_w s') = ns_bytes (io_w s).
Proof.
  intros Hbs Hpos Hdiv Hok Hi Hsz H63 Hbb Ho Hn Hin. set (content := ns_bytes (io_w s)) in *.
  set (P := λ x : IoState W * list Z, io_idle x.1 ∧ ns_bytes (io_w x.1) = content ∧ Z.of_nat (length x.2) = bs).
  assert ((bs | Z.of_nat (length content))) as Hwhole by (rewrite Hsz; apply Z.divide_factor_r).
  assert (∀ k x, P x → 0 <= k → (k + 1) * bs <= Z.of_nat (length content) →
    ∃ x', nv_read_block ns k x = (Ok tt, x') ∧ P x' ∧ x'.2 = slice (Z.to_nat (k * bs)) (Z.to_nat bs) content) as Hread.
  { intros k [s0 bb] (P1 & P2 & P3) Hk Hk2. cbn in P1, P2, P3. unfold nv_read_block.
    assert (k + 1 <= ns_blocks ns) by (rewrite Hsz in Hk2; apply Z.mul_le_mono_pos_r in Hk2; lia).
    assert (0 <= k * bs) by (apply Z.mul_nonneg_nonneg; lia). rewrite Z.mul_add_distr_r, Z.mul_1_l in Hk2.
    rewrite (proj2 (Z.leb_gt _ _)) by lia.
    destruct (namespace_read_eq ns Hbs (proj1 Hpos) Hdiv k (length bb) s0) as (r & s1 & E & Hi1 & Hb1 & Hr);
      [done|done|rewrite P2; lia|by rewrite P2|rewrite P2; lia|].
    rewrite E. destruct Hr as [[_ (c & v & Hc)]|Hr]; [by rewrite Hok in Hc|]. rewrite Hr, P3, Hbs, Z.eqb_refl.
    unfold as_usize. rewrite as_u_id by (unfold u_range; lia). rewrite Z.eqb_refl. eexists. split; [done|].
    rewrite P2. assert (length bb = Z.to_nat bs) as -> by lia. split; [|done]. split; [done|]. split; [cbn; congruence|]. cbn.
    rewrite length_slice; lia. }
  destruct (block_read_loop_spec (nv_read_block ns) content bs P (proj1 Hpos) Hwhole Hread n n (nd_offset dv) [] (s, nd_block_bytes dv))
    as ([s' bb] & E & HP); [by split_and!|lia|lia|lia|lia|].
  exists s', bb. split; [|by destruct HP as (? & ? & _)].
  unfold nv_dev_read. rewrite Hbs, (proj2 (Z.leb_gt _ _)) by lia. unfold block_read. rewrite decide_False by lia.
  assert (clamp_len (nd_offset dv) n = n) as -> by (unfold clamp_len; lia). rewrite E. cbn [app length Nat.add].
  unfold as_u64. rewrite as_u_id by (unfold u_range; lia). done.
Qed.

(** ** Witness *)

(** A namespace of three blocks of four bytes, with a partition on the last two. *)
Definition demo_nv : NvScheme (list Z * list Z) :=
  mk_nv_scheme [] toy_world [(1, mk_nv_wrapper (mk_ns 1 3 4) (Some [mk_partition 1 2]))] ∅ 0.

Definition demo_nv_open : NvScheme (list Z * list Z) := (nv_xopen 1 2 "/1p0" 0 0 demo_nv).2.

Lemma nvme_file_is_array_witness :
  (nv_read 0 [0; 0; 0] 4 demo_nv_open).1 = Ok (3, [18; 19; 20]) ∧
  ∃ r s', nv_read 0 [0; 0; 0] 4 demo_nv_open = (r, s') ∧ io_idle (nv_io s') ∧ nv_frame s' = nv_frame demo_nv_open.
Proof.
  split; [by vm_compute|].
  destruct (nvme_file_is_array (bs := 4) (mk_ns 1 3 4) demo_nv_open 0 1 2 [0; 0; 0] 4) as [(r & s' & E & Hi & Hf & _) _];
    [done|lia|by exists 2048| |lia|cbn; lia|by vm_compute|by exists r, s'].
  split.
  - exact (ready_idle_io _ _ ready_nvme_ready).
  - exists 1, (Some [mk_partition 1 2]), (DhPartition 1 0). split_and!; by vm_compute.
  - by vm_compute.
  - by vm_compute.
  - cbn. lia.
Defined.
