(* ===== verification/NvmeInit.v ===== *)
(** The start of nvmed (storage/nvmed/src/nvme/mod.rs: init, interrupt masking, the creation of
    the I/O queues; storage/nvmed/src/nvme/identify.rs).

    [nvme_init] is the handshake with the controller registers: [nvme_init_enables] shows
    that it ends with an enabled controller whose admin queues are the driver's, programmed
    while the controller was disabled.  The admin commands go through the path of
    NvmeIo.v on queue 0; the class [DmaMemory] is the memory the answers and the queues are in,
    and [AdminLaws] what the specification says of the identify and queue creation commands.
    [init_with_queues_ready] shows which namespaces the driver finds and which queues the
    controller has afterwards. *)

From S2P Require Import Prelude Io NvmeQueue NvmeReactor NvmeIo PciConfig.

(** ** Interrupts *)

Inductive InterruptMethod : Type :=
| ImIntx
| ImMsi (msi_info : MsiInfo) (log2_multiple_message_enabled : Z)
| ImMsiX (info : MsixInfo) (table : list MsixTableEntry).

Definition is_intx (m : InterruptMethod) : bool := match m with ImIntx => true | _ => false end.
Definition is_msi (m : InterruptMethod) : bool := match m with ImMsi _ _ => true | _ => false end.
Definition is_msix (m : InterruptMethod) : bool := match m with ImMsiX _ _ => true | _ => false end.

(** The interrupts by vector; the file of each is a number. *)
Inductive InterruptSources : Type := IsMsiX (files : list (Z * Z)) | IsMsi (files : list (Z * Z)) | IsIntx (file : Z).

Definition sources_list (s : InterruptSources) : list (Z * Z) :=
  match s with IsMsiX files | IsMsi files => files | IsIntx file => [(0, file)] end.

Inductive NReg : Type :=
| NCapLow | NCapHigh | NVs | NIntms | NIntmc | NCc | NCsts | NNssr | NAqa | NAsqLow | NAsqHigh | NAcqLow | NAcqHigh
| NCmbloc | NCmbsz.

(** The physical addresses of the admin queues. *)
Record AdminPhys := mk_admin_phys { aq_asq : Z; aq_acq : Z }.

Section regs.
Context {W : Type} `{HIo : Io W NReg} (ph : AdminPhys).

Abbreviation ip := (prog (W * InterruptMethod) errno).

Definition nreg_read (r : NReg) : ip Z := λ '(w, im), let '(v, w) := io_read r w in (Ok v, (w, im)).
Definition nreg_write (r : NReg) (v : Z) : ip unit := modify (λ '(w, im), (io_write r v w, im)).
Definition nreg_writef (r : NReg) (flags : Z) (value : bool) : ip unit := modify (λ '(w, im), (writef r flags value w, im)).
Definition set_method (x : InterruptMethod) : ip unit := modify (λ '(w, _), (w, x)).

(** Spins until the ready bit has the value. *)
Fixpoint wait_ready (fuel : nat) (ready : bool) : ip unit :=
  match fuel with
  | O => throw ETIMEDOUT
  | S fuel =>
      csts ← nreg_read NCsts;
      if Bool.eqb (Z.land csts 1 =? 1) ready then mret tt else wait_ready fuel ready
  end.

(** The lengths of the rings of [sq_new] and [cq_new]. *)
Definition ASQ_LEN : Z := 64.
Definition ACQ_LEN : Z := 256.

Definition init_interrupts : ip unit :=
  im ← gets snd;
  match im with
  | ImIntx | ImMsi _ _ => _ ← nreg_write NIntms 0xFFFFFFFF; nreg_write NIntmc 1
  | ImMsiX info table =>
      match table with
      | [] => panic
      | e :: table => set_method (ImMsiX info (mt_unmask e :: table))
      end
  end.

Definition nvme_init (fuel : nat) : ip unit :=
  _ ← nreg_writef NCc 1 false;
  _ ← wait_ready fuel false;
  _ ← init_interrupts;
  _ ← nreg_write NAqa (Z.lor (as_u32 (Z.shiftl (ACQ_LEN - 1) 16)) (ASQ_LEN - 1));
  _ ← nreg_write NAsqLow (as_u32 (aq_asq ph));
  _ ← nreg_write NAsqHigh (as_u32 (Z.shiftr (aq_asq ph) 32));
  _ ← nreg_write NAcqLow (as_u32 (aq_acq ph));
  _ ← nreg_write NAcqHigh (as_u32 (Z.shiftr (aq_acq ph) 32));
  cc ← nreg_read NCc;
  _ ← nreg_write NCc (Z.lor (Z.land cc 0xFF00000F) (Z.lor (Z.shiftl 4 20) (Z.shiftl 6 16)));
  _ ← nreg_writef NCc 1 true;
  wait_ready fuel true.

(** ** Masking *)

(** The masks for MSI: bits to set and to clear. *)
Fixpoint msi_masks (log2 : Z) (vectors : list (Z * bool)) (to_mask to_clear : Z) : res errno (Z * Z) :=
  match vectors with
  | [] => Ok (to_mask, to_clear)
  | (vector, mask) :: vectors =>
      if vector <? Z.shiftl 1 log2 then
        let bit := Z.shiftl 1 (as_u8 vector) in
        if mask : bool then
          if Z.land to_clear bit =? bit then Panic else msi_masks log2 vectors (Z.lor to_mask bit) to_clear
        else
          if Z.land to_mask bit =? bit then Panic else msi_masks log2 vectors to_mask (Z.lor to_clear bit)
      else Panic
  end.

Fixpoint msix_mask (vectors : list (Z * bool)) (table : list MsixTableEntry) : option (list MsixTableEntry) :=
  match vectors with
  | [] => Some table
  | (vector, mask) :: vectors =>
      e ← table !! Z.to_nat vector;
      msix_mask vectors (<[Z.to_nat vector := set_masked mask e]> table)
  end.

Definition set_vectors_masked (vectors : list (Z * bool)) : ip unit :=
  im ← gets snd;
  match im with
  | ImIntx =>
      match vectors with
      | [] => mret tt
      | [(vector, mask)] =>
          if vector =? 0 then nreg_write (if mask : bool then NIntms else NIntmc) 1 else panic
      | _ => panic
      end
  | ImMsi _ log2 =>
      match msi_masks log2 vectors 0 0 with
      | Ok (to_mask, to_clear) =>
          _ ← (if to_mask =? 0 then mret tt else nreg_write NIntms to_mask);
          if to_clear =? 0 then mret tt else nreg_write NIntmc to_clear
      | _ => panic
      end
  | ImMsiX info table =>
      table ← unwrap (msix_mask vectors table);
      set_method (ImMsiX info table)
  end.

Definition set_vector_masked (vector : Z) (masked : bool) : ip unit := set_vectors_masked [(vector, masked)].

End regs.

(** ** The enable handshake *)

(** What the specification says of a controller: CC.EN is the last value written, CSTS.RDY
    follows it within [rl_bound] reads; the queue registers may be written while the
    controller is disabled and not ready. *)
Class NvmeRegLaws (W : Type) `{HIo : Io W NReg} := {
  rl_cc : W → Z;
  rl_rdy : W → bool;
  rl_left : W → nat;
  rl_bound : nat;
  rl_aqa : W → Z;
  rl_asq : W → Z * Z;
  rl_acq : W → Z * Z;
  rl_width : io_width = 32;
  rl_left_bound w : (rl_left w < rl_bound)%nat;
  rl_read r w v w' : io_read r w = (v, w') →
    rl_cc w' = rl_cc w ∧ rl_aqa w' = rl_aqa w ∧ rl_asq w' = rl_asq w ∧ rl_acq w' = rl_acq w ∧
    (rl_rdy w = Z.testbit (rl_cc w) 0 → rl_rdy w' = rl_rdy w) ∧
    (r = NCc → v = rl_cc w) ∧
    (r = NCsts → (Z.land v 1 =? 1) = rl_rdy w' ∧
       (rl_rdy w' ≠ Z.testbit (rl_cc w) 0 → (rl_left w' < rl_left w)%nat));
  rl_write_cc v w : rl_cc (io_write NCc v w) = v ∧ rl_rdy (io_write NCc v w) = rl_rdy w ∧ rl_aqa (io_write NCc v w) = rl_aqa w ∧
    rl_asq (io_write NCc v w) = rl_asq w ∧ rl_acq (io_write NCc v w) = rl_acq w;
  rl_write_other r v w : r ≠ NCc →
    rl_cc (io_write r v w) = rl_cc w ∧ rl_rdy (io_write r v w) = rl_rdy w ∧
    (rl_rdy w = false → Z.testbit (rl_cc w) 0 = false →
     rl_aqa (io_write r v w) = (match r with NAqa => v | _ => rl_aqa w end) ∧
     rl_asq (io_write r v w) = (match r with NAsqLow => (v, (rl_asq w).2) | NAsqHigh => ((rl_asq w).1, v) | _ => rl_asq w end) ∧
     rl_acq (io_write r v w) = (match r with NAcqLow => (v, (rl_acq w).2) | NAcqHigh => ((rl_acq w).1, v) | _ => rl_acq w end));
}.

Section handshake.
Context {W : Type} `{HL : NvmeRegLaws W} (ph : AdminPhys).
Abbreviation S := (W * InterruptMethod)%type.

(** What is known of the registers: [CC], ready, and the queue registers. *)
Definition Regs (cc : Z) (rdy : bool) (q : Z * (Z * Z) * (Z * Z)) (im : InterruptMethod) (s : S) : Prop :=
  rl_cc s.1 = cc ∧ rl_rdy s.1 = rdy ∧ (rl_aqa s.1, rl_asq s.1, rl_acq s.1) = q ∧ s.2 = im.

Lemma nreg_write_cc v cc rdy q im s :
  Regs cc rdy q im s → wp (nreg_write NCc v) (ok_then (λ _ s', Regs v rdy q im s')) s.
Proof.
  destruct s as [w im0]. intros (E1 & E2 & E3 & E4). unfold wp, nreg_write, modify. cbn [fst snd] in *.
  destruct (rl_write_cc v w) as (L1 & L2 & L3 & L4 & L5). split_and!; cbn; [done|congruence| |done]. by rewrite L3, L4, L5.
Qed.

(** Bits of [CC] are read and written back. *)
Lemma nreg_writef_cc flags b cc rdy q im s :
  Regs cc rdy q im s → (rdy = Z.testbit cc 0) →
  wp (nreg_writef NCc flags b) (ok_then (λ _ s', Regs (if b then Z.lor cc flags else Z.land cc (unot 32 flags)) rdy q im s')) s.
Proof.
  destruct s as [w im0]. intros (E1 & E2 & E3 & E4) Hr. unfold wp, nreg_writef, modify, writef. cbn [fst snd] in *.
  destruct (io_read NCc w) as [v w'] eqn:E. destruct (rl_read _ _ _ _ E) as (L1 & L2 & L3 & L4 & L5 & L6 & _).
  rewrite (L6 eq_refl), rl_width, E1. set (v' := if b then _ else _).
  destruct (rl_write_cc v' w') as (K1 & K2 & K3 & K4 & K5). split_and!; cbn; [by destruct b| | |done].
  - rewrite K2, L5; [done|by rewrite E2, E1].
  - rewrite K3, K4, K5, L2, L3, L4. done.
Qed.

Lemma nreg_write_other r v cc q im s :
  Regs cc false q im s → Z.testbit cc 0 = false → r ≠ NCc →
  wp (nreg_write r v) (ok_then (λ _ s', Regs cc false
    (match r with NAqa => v | _ => q.1.1 end,
     match r with NAsqLow => (v, q.1.2.2) | NAsqHigh => (q.1.2.1, v) | _ => q.1.2 end,
     match r with NAcqLow => (v, q.2.2) | NAcqHigh => (q.2.1, v) | _ => q.2 end) im s')) s.
Proof.
  destruct s as [w im0]. intros (E1 & E2 & <- & E4) Hc Hr. unfold wp, nreg_write, modify. cbn [fst snd] in *.
  destruct (rl_write_other r v w Hr) as (L1 & L2 & L3). destruct L3 as (L3 & L4 & L5); [congruence..|].
  split_and!; cbn; [congruence|congruence|by rewrite L3, L4, L5|done].
Qed.

Lemma wait_ready_spec fuel cc q im rdy b s :
  Regs cc rdy q im s → b = Z.testbit cc 0 → (rl_left s.1 < fuel)%nat →
  wp (wait_ready fuel b) (ok_then (λ _ s', Regs cc b q im s')) s.
Proof.
  intros HR Hb. revert rdy s HR. induction fuel as [|fuel IH]; intros rdy s HR Hf; [lia|]. cbn [wait_ready].
  destruct s as [w im0]. destruct HR as (E1 & E2 & E3 & E4). cbn [fst snd] in *. unfold wp, mbind, prog_bind, p_bind, nreg_read.
  destruct (io_read NCsts w) as [v w'] eqn:E. destruct (rl_read _ _ _ _ E) as (L1 & L2 & L3 & L4 & L5 & _ & L7).
  destruct (L7 eq_refl) as [L8 L9]. rewrite L8. assert (Regs cc (rl_rdy w') q im (w', im0)) as HR'.
  { split_and!; cbn; [congruence|done|by rewrite L2, L3, L4|done]. }
  destruct (Bool.eqb (rl_rdy w') b) eqn:Eb.
  - apply eqb_prop in Eb. rewrite <- Eb. exact HR'.
  - apply (IH (rl_rdy w') (w', im0) HR'). cbn [fst]. rewrite E1, <- Hb in L9. assert (rl_rdy w' ≠ b) as Hn by (intros Hx; by rewrite Hx, eqb_reflx in Eb).
    specialize (L9 Hn). lia.
Qed.

Lemma wait_ready_spec' fuel cc q im rdy b s :
  Regs cc rdy q im s → b = Z.testbit cc 0 → (rl_bound <= fuel)%nat → wp (wait_ready fuel b) (ok_then (λ _ s', Regs cc b q im s')) s.
Proof. intros HR Hb Hf. eapply wait_ready_spec; [done|done|]. eapply Nat.lt_le_trans; [apply rl_left_bound|done]. Qed.

(** The interrupt method after [init]: vector 0 of a MSI-X table is unmasked. *)
Definition unmasked (im im' : InterruptMethod) : Prop :=
  match im with
  | ImMsiX info (e :: table) => im' = ImMsiX info (mt_unmask e :: table)
  | _ => im' = im
  end.

Lemma init_interrupts_spec cc q im s :
  Regs cc false q im s → Z.testbit cc 0 = false → (∀ info, im ≠ ImMsiX info []) →
  wp init_interrupts (ok_then (λ _ s', ∃ im', unmasked im im' ∧ Regs cc false q im' s')) s.
Proof.
  intros HR Hc Him. destruct q as [[aqa asq] acq]. unfold init_interrupts. apply wp_gets.
  assert (s.2 = im) as -> by (by destruct HR as (_ & _ & _ & ->)).
  destruct im as [|info log2|info [|e table]]; [| |by destruct (Him info)|].
  1, 2: eapply wp_seq; [by apply nreg_write_other; [exact HR|..]|]; intros [] s1 HR1; cbn beta in HR1;
    eapply wp_seq_mono; [by apply nreg_write_other; [exact HR1|..]|]; intros [] s2 HR2; by eexists.
  destruct s as [w im0]. destruct HR as (E1 & E2 & E3 & E4). exists (ImMsiX info (mt_unmask e :: table)). done.
Qed.

End handshake.

Lemma field_land_mask s n x m : field s n m = 0 → field s n (Z.land x m) = 0.
Proof. unfold field. intros H. rewrite Z.shiftr_land, <- Z.land_assoc, H. apply Z.land_0_r. Qed.

(** The initialisation of an NVMe controller ends with the controller enabled and ready,
    whatever it was before: the admin queue sizes and addresses are those of the driver and
    were written while the controller was disabled, the entry sizes are 64 and 16 bytes, the
    page size is 4 KiB, and the first MSI-X vector is unmasked. *)
Theorem nvme_init_enables {W : Type} `{HL : NvmeRegLaws W} ph fuel cc rdy q im (s : W * InterruptMethod) :
  Regs cc rdy q im s → rdy = Z.testbit cc 0 → (∀ info, im ≠ ImMsiX info []) → (rl_bound <= fuel)%nat →
  wp (nvme_init ph fuel) (ok_then (λ _ s', ∃ cc' im',
    Regs cc' true (255 * 2 ^ 16 + 63, (as_u32 (aq_asq ph), as_u32 (Z.shiftr (aq_asq ph) 32)),
                   (as_u32 (aq_acq ph), as_u32 (Z.shiftr (aq_acq ph) 32))) im' s' ∧
    Z.testbit cc' 0 = true ∧ field 16 4 cc' = 6 ∧ field 20 4 cc' = 4 ∧ field 4 12 cc' = 0 ∧ unmasked im im')) s.
Proof.
  intros HR Hrdy Him Hf. destruct q as [[aqa asq] acq]. unfold nvme_init.
  eapply wp_seq; [by apply nreg_writef_cc|]. intros [] s1 HR1. cbn beta iota in HR1. set (cc0 := Z.land cc (unot 32 1)) in *.
  assert (Z.testbit cc0 0 = false) as Hc0 by (unfold cc0; rewrite Z.land_spec, unot_testbit by lia; apply andb_false_r).
  eapply wp_seq; [by eapply wait_ready_spec'; [exact HR1|..]|]. intros [] s2 HR2. cbn beta in HR2.
  eapply wp_seq; [by eapply init_interrupts_spec; [exact HR2|..]|]. intros _ s3 (im' & Hun & HR3).
  do 5 (eapply wp_seq; [by apply nreg_write_other; [eassumption|..]|]; intros [] ? ?; cbn beta iota in *).
  cbn [fst snd] in *. match goal with H : Regs _ false _ im' ?x |- _ => rename H into HR8; rename x into s8 end.
  apply wp_bind. unfold wp at 1. destruct s8 as [w8 im8]. unfold nreg_read. destruct (io_read NCc w8) as [v w9] eqn:E. cbn [fst snd].
  destruct HR8 as (E1 & E2 & E3 & E4). cbn [fst snd] in *. destruct (rl_read _ _ _ _ E) as (L1 & L2 & L3 & L4 & L5 & L6 & _).
  rewrite (L6 eq_refl), E1.
  assert (Regs cc0 false (rl_aqa w8, rl_asq w8, rl_acq w8) im' (w9, im8)) as HR9.
  { split_and!; cbn [fst snd]; [congruence| |by rewrite L2, L3, L4|done]. rewrite L5; [done|]. by rewrite E2, E1, Hc0. }
  rewrite E3 in HR9. set (cc1 := Z.lor (Z.land cc0 4278190095) _).
  assert (Z.testbit cc1 0 = false) as Hc1 by (unfold cc1; by rewrite Z.lor_spec, Z.land_spec, Hc0).
  eapply wp_seq; [eapply nreg_write_cc; exact HR9|]. intros [] s10 HR10. cbn beta in HR10.
  eapply wp_seq; [by apply nreg_writef_cc; [exact HR10|]|]. intros [] s11 HR11. cbn beta iota in HR11.
  assert (Z.testbit (Z.lor cc1 1) 0 = true) as Hc2 by (rewrite Z.lor_spec; apply orb_true_r).
  eapply wp_seq_mono; [by eapply wait_ready_spec'; [exact HR11|..]|]. intros [] s12 HR12. cbn beta in HR12.
  exists (Z.lor cc1 1), im'. split_and!; [exact HR12|done| | | |done]; unfold cc1; rewrite !field_lor, field_land_mask by done; done.
Qed.

(** A vector is never both masked and unmasked by one call. *)
Lemma msi_masks_disjoint log2 vectors m c m' c' :
  Forall (λ v, 0 <= v.1) vectors → Z.land m c = 0 → msi_masks log2 vectors m c = Ok (m', c') → Z.land m' c' = 0.
Proof.
  intros Hv. revert m c. induction Hv as [|[v b] vs Hv _ IH]; intros m c Hd E; cbn [msi_masks] in E; [by simplify_eq|].
  destruct (v <? Z.shiftl 1 log2); [|done]. rewrite Z.shiftl_1_l in E.
  assert (0 <= as_u8 v) as Hk by (apply (u_range_as_u 8); lia).
  assert (∀ x, (Z.land x (2 ^ as_u8 v) =? 2 ^ as_u8 v) = false → Z.land x (2 ^ as_u8 v) = 0) as Hbit.
  { intros x Hx. rewrite land_pow2_eqb in Hx by done. apply Z.eqb_eq. rewrite land_pow2_eqb_0 by done. by rewrite Hx. }
  destruct b; destruct (Z.land _ (2 ^ as_u8 v) =? 2 ^ as_u8 v) eqn:Eb; try done; apply Hbit in Eb; apply (IH _ _) in E; try done.
  - rewrite Z.land_lor_distr_l, Hd. rewrite Z.land_comm. by rewrite Eb.
  - rewrite Z.land_lor_distr_r, Hd. by rewrite Eb.
Qed.

(** ** Identify *)

(** The answer to IDENTIFY NAMESPACE, by the offsets of [IdentifyNamespaceData]. *)
Definition id_nsze (data : list Z) : Z := le_val (slice 0 8 data).
Definition id_ncap (data : list Z) : Z := le_val (slice 8 8 data).
Definition id_flbas (data : list Z) : Z := default 0 (data !! 26%nat).
Definition formatted_lba_size_idx (data : list Z) : Z := Z.land (id_flbas data) 0xF.
Definition formatted_lba_size (data : list Z) : Z :=
  le_val (slice (128 + 4 * Z.to_nat (formatted_lba_size_idx data)) 4 data).
Definition has_metadata_after_data (data : list Z) : bool := negb (Z.land (id_flbas data) (Z.shiftl 1 4) =? 0).

Inductive RelativePerformance : Type := RpBest | RpBetter | RpGood | RpDegraded.

Definition rp_code (r : RelativePerformance) : Z := match r with RpBest => 0 | RpBetter => 1 | RpGood => 2 | RpDegraded => 3 end.

(** The order of the source: better is greater. *)
Definition rp_cmp (a b : RelativePerformance) : comparison := CompOpp (rp_code a ?= rp_code b).

Definition relative_performance (f : Z) : RelativePerformance :=
  match Z.land (Z.shiftr f 24) 3 with 0 => RpBest | 1 => RpBetter | 2 => RpGood | _ => RpDegraded end.

Definition log_lba_data_size (f : Z) : Z := as_u8 (Z.land (Z.shiftr f 16) 0xFF).
Definition lba_is_available (f : Z) : bool := negb (log_lba_data_size f =? 0).
Definition metadata_size (f : Z) : Z := as_u16 (Z.land f 0xFFFF).

Definition lba_data_size (f : Z) : option Z :=
  if log_lba_data_size f <? 9 then None
  else if 32 <=? log_lba_data_size f then None
  else Some (Z.shiftl 1 (log_lba_data_size f)).

(** Memory for the queues and for the answers of admin commands ([Dma::zeroed]). *)
Class DmaMemory (W : Type) := {
  dma_alloc : nat → W → Z * W;
  dma_bytes : Z → nat → W → list Z;
}.

(** The physical addresses of the queues of the driver. *)
Record QueuePhys := mk_qphys { cq_phys : gmap Z Z; sq_phys : gmap Z Z }.

Section admin.
Context {W : Type} `{HC : NvmeController W} `{HM : DmaMemory W}.

Abbreviation dp := (prog (IoState W * QueuePhys) errno).

Definition on_io {A : Type} (m : prog (IoState W) errno A) : dp A := λ '(s, a), let '(r, s) := m s in (r, (s, a)).
Definition on_nvme (f : Nvme → Nvme) : dp unit := modify (λ '(s, a), (mk_io (f (io_nv s)) (io_sq_head s) (io_cqd s) (io_w s), a)).
Definition alloc (len : nat) : dp Z := λ '(s, a),
  let '(p, w) := dma_alloc len (io_w s) in (Ok p, (mk_io (io_nv s) (io_sq_head s) (io_cqd s) w, a)).
Definition admin_command (cmd_init : Z → NvmeCmd) : dp NvmeComp := on_io (submit_and_complete_admin_command cmd_init).

(** The strings of the answer are only logged. *)
Definition nv_identify_controller : dp unit :=
  p ← alloc 4104;
  _ ← admin_command (λ cid, identify_controller cid p);
  mret tt.

(** [take_while(|&nsid| nsid != 0)] of the dwords. *)
Fixpoint nsid_list (n : nat) (data : list Z) : list Z :=
  match n with
  | O => []
  | Datatypes.S n => let nsid := le_val (take 4 data) in if nsid =? 0 then [] else nsid :: nsid_list n (drop 4 data)
  end.

Definition nv_identify_namespace_list (base : Z) : dp (list Z) :=
  p ← alloc 4096;
  _ ← admin_command (λ cid, identify_namespace_list cid p base);
  data ← gets (λ s, dma_bytes p 4096 (io_w s.1));
  mret (nsid_list 1024 data).

Definition nv_identify_namespace (nsid : Z) : dp NvmeNamespace :=
  p ← alloc 4096;
  _ ← admin_command (λ cid, identify_namespace cid p nsid);
  data ← gets (λ s, dma_bytes p 4096 (io_w s.1));
  block_size ← unwrap (lba_data_size (formatted_lba_size data));
  mret (mk_ns nsid (id_nsze data) block_size).

(** ** Queues *)

(** The queue of the map, or a new one; its address and its length. *)
Definition cq_entry_or_new (io_cq_id : Z) : dp (Z * Z) :=
  cqs ← gets (λ s, completion_queues (io_nv s.1));
  match cqs !! io_cq_id with
  | Some (q, _) => p ← gets (λ s, cq_phys s.2 !! io_cq_id); ptr ← unwrap p; mret (ptr, Z.of_nat (length (cq_data q)))
  | None =>
      ptr ← alloc (16 * length (cq_data cq_new));
      _ ← on_nvme (set_cqs (<[io_cq_id := (cq_new, [])]> cqs));
      _ ← modify (λ '(s, a), (s, mk_qphys (<[io_cq_id := ptr]> (cq_phys a)) (sq_phys a)));
      mret (ptr, Z.of_nat (length (cq_data cq_new)))
  end.

Definition nv_create_completion_queue (io_cq_id : Z) (vector : option Z) : dp unit :=
  '(ptr, len) ← cq_entry_or_new io_cq_id;
  if (2 ^ 16 <=? len) || (len =? 0) then panic
  else
    _ ← admin_command (λ cid, create_io_completion_queue cid io_cq_id ptr (len - 1) vector);
    match vector with
    | Some vector => on_nvme (λ n, set_ivs (<[vector := default [] (cqs_for_ivs n !! vector) ++ [io_cq_id]]> (cqs_for_ivs n)) n)
    | None => mret tt
    end.

Definition sq_entry_or_new (io_sq_id io_cq_id : Z) : dp (Z * Z) :=
  sqs ← gets (λ s, submission_queues (io_nv s.1));
  match sqs !! io_sq_id with
  | Some (q, _) => p ← gets (λ s, sq_phys s.2 !! io_sq_id); ptr ← unwrap p; mret (ptr, Z.of_nat (length (sq_data q)))
  | None =>
      ptr ← alloc (64 * length (sq_data sq_new));
      _ ← on_nvme (set_sqs (<[io_sq_id := (sq_new, io_cq_id)]> sqs));
      _ ← modify (λ '(s, a), (s, mk_qphys (cq_phys a) (<[io_sq_id := ptr]> (sq_phys a))));
      mret (ptr, Z.of_nat (length (sq_data sq_new)))
  end.

Definition nv_create_submission_queue (io_sq_id io_cq_id : Z) : dp unit :=
  '(ptr, len) ← sq_entry_or_new io_sq_id io_cq_id;
  if (2 ^ 16 <=? len) || (len =? 0) then panic
  else
    _ ← admin_command (λ cid, create_io_submission_queue cid io_sq_id ptr (len - 1) io_cq_id);
    mret tt.

Fixpoint identify_all (nsids : list Z) : dp (gmap Z NvmeNamespace) :=
  match nsids with
  | [] => mret ∅
  | nsid :: nsids =>
      ns ← nv_identify_namespace nsid;
      rest ← identify_all nsids;
      mret (rest ∪ {[nsid := ns]})
  end.

Definition init_with_queues : dp (gmap Z NvmeNamespace) :=
  _ ← nv_identify_controller;
  nsids ← nv_identify_namespace_list 0;
  namespaces ← identify_all nsids;
  _ ← nv_create_completion_queue 1 (Some 0);
  _ ← nv_create_submission_queue 1 1;
  mret namespaces.

End admin.

(** ** What is found *)

(** The fields of the commands that create queues: the id and the number of entries, the interrupt
    vector if interrupts are enabled, the completion queue of a submission queue. *)
Definition new_qid (cmd : NvmeCmd) : Z := field 0 16 (cdw10 cmd).
Definition new_entries (cmd : NvmeCmd) : Z := field 16 16 (cdw10 cmd) + 1.
Definition new_vector (cmd : NvmeCmd) : option Z := if Z.testbit (cdw11 cmd) 1 then Some (field 16 16 (cdw11 cmd)) else None.
Definition new_cqid (cmd : NvmeCmd) : Z := field 16 16 (cdw11 cmd).
Definition contiguous (cmd : NvmeCmd) : bool := Z.testbit (cdw11 cmd) 0.

(** A controller as the specification has it.  It knows its namespaces, whose answers to the identify
    commands it writes to the page the command points to (the list is padded with zeros), and the
    I/O queues that were created: where they are, how many entries they have, the vector of a
    completion queue and the completion queue of a submission queue.  A queue is created that is
    new, contiguous and on a page, has an id and a size the controller supports, and whose completion
    queue exists. *)
Class AdminLaws (W : Type) `{HC : NvmeController W} `{HM : DmaMemory W} := {
  an_ids : list Z;
  an_data : Z → list Z;
  an_few : (length an_ids <= 1024)%nat;
  an_id id : id ∈ an_ids → 0 < id < 2 ^ 32;
  an_unique : NoDup an_ids;
  an_cqs : W → gmap Z (Z * Z * option Z);
  an_sqs : W → gmap Z (Z * Z * Z);
  an_max_id : Z;
  an_max_entries : Z;
  an_status cmd w : 0 <= (admin_exec cmd w).1;
  an_alloc n w : let '(p, w') := dma_alloc n w in
    u_range 64 p ∧ p mod 4096 = 0 ∧ an_cqs w' = an_cqs w ∧ an_sqs w' = an_sqs w;
  an_identify cmd w : opcode cmd = 6 →
    let w' := (admin_exec cmd w).2 in
    an_cqs w' = an_cqs w ∧ an_sqs w' = an_sqs w ∧
    ((dptr cmd).1 mod 4096 = 0 →
     (cdw10 cmd = 2 → nsid cmd = 0 →
        dma_bytes (dptr cmd).1 4096 w' = mjoin (le_bytes 4 <$> an_ids) ++ replicate (4 * (1024 - length an_ids)) 0) ∧
     (cdw10 cmd = 0 → nsid cmd ∈ an_ids → dma_bytes (dptr cmd).1 4096 w' = an_data (nsid cmd)));
  an_create_cq cmd w : opcode cmd = 5 → contiguous cmd = true → (dptr cmd).1 mod 4096 = 0 →
    1 <= new_qid cmd <= an_max_id → 2 <= new_entries cmd <= an_max_entries → an_cqs w !! new_qid cmd = None →
    let w' := (admin_exec cmd w).2 in
    an_cqs w' = <[new_qid cmd := ((dptr cmd).1, new_entries cmd, new_vector cmd)]> (an_cqs w) ∧ an_sqs w' = an_sqs w;
  an_create_sq cmd w : opcode cmd = 1 → contiguous cmd = true → (dptr cmd).1 mod 4096 = 0 →
    1 <= new_qid cmd <= an_max_id → 2 <= new_entries cmd <= an_max_entries → an_sqs w !! new_qid cmd = None →
    is_Some (an_cqs w !! new_cqid cmd) →
    let w' := (admin_exec cmd w).2 in
    an_sqs w' = <[new_qid cmd := ((dptr cmd).1, new_entries cmd, new_cqid cmd)]> (an_sqs w) ∧ an_cqs w' = an_cqs w;
}.

(** What the driver makes of the answer for a namespace. *)
Definition namespace_of (id : Z) (data : list Z) : option NvmeNamespace :=
  bs ← lba_data_size (formatted_lba_size data); Some (mk_ns id (id_nsze data) bs).

Lemma nsid_list_spec ids rest n :
  Forall (λ id, 0 < id < 2 ^ 32) ids → (length ids <= n)%nat → (rest = [] ∨ le_val (take 4 rest) = 0) →
  nsid_list n (mjoin (le_bytes 4 <$> ids) ++ rest) = ids.
Proof.
  intros Hids. revert n. induction Hids as [|id ids Hid _ IH]; intros n Hn Hrest.
  - cbn. destruct n; [done|]. cbn [nsid_list]. destruct Hrest as [-> | ->]; done.
  - destruct n as [|n]; [cbn in Hn; lia|]. rewrite fmap_cons. cbn [mjoin list_join]. rewrite <- app_assoc. cbn [nsid_list].
    rewrite take_app_length' by (by rewrite length_le_bytes). rewrite drop_app_length' by (by rewrite length_le_bytes).
    rewrite le_val_bytes by (unfold u_range; lia). rewrite (proj2 (Z.eqb_neq _ _)) by lia. rewrite IH; [done|cbn in Hn; lia|done].
Qed.

(** A block size the driver accepts is a power of two between 512 bytes and 2 GiB. *)
Lemma lba_data_size_pow f bs : lba_data_size f = Some bs → ∃ k, 9 <= k < 32 ∧ bs = 2 ^ k.
Proof.
  unfold lba_data_size. destruct (Z.ltb_spec (log_lba_data_size f) 9); [done|]. destruct (Z.leb_spec 32 (log_lba_data_size f)); [done|].
  intros [= <-]. exists (log_lba_data_size f). rewrite Z.shiftl_1_l. split; [lia|done].
Qed.


Section found.
Context {W : Type} `{HL : AdminLaws W}.
Abbreviation DS := (IoState W * QueuePhys)%type.

(** Where the start has come to: the admin pair is idle on both sides and its vector also serves
    [l2]; the I/O queues of the driver, where they are, and the queues of the controller. *)
Record Started (l2 : list Z) (cq : option (NvmeCompQueue * list Z)) (sq : option (NvmeCmdQueue * Z)) (a : QueuePhys)
    (ccqs : gmap Z (Z * Z * option Z)) (csqs : gmap Z (Z * Z * Z)) (s : DS) : Prop := {
  st_idle : pair_idle 0 [] l2 s.1;
  st_cq : completion_queues (io_nv s.1) !! 1 = cq;
  st_sq : submission_queues (io_nv s.1) !! 1 = sq;
  st_phys : s.2 = a;
  st_ccqs : an_cqs (io_w s.1) = ccqs;
  st_csqs : an_sqs (io_w s.1) = csqs;
}.

(** The address of a page. *)
Definition page_addr (p : Z) : Prop := u_range 64 p ∧ p mod 4096 = 0.

Lemma page_addr_u64 p : page_addr p → as_u64 p = p ∧ p mod 4096 = 0.
Proof. intros [Hp Hal]. split; [by apply as_u_id|done]. Qed.

Lemma alloc_spec len l2 cq sq a ccqs csqs (s : DS) :
  Started l2 cq sq a ccqs csqs s →
  wp (alloc len) (ok_then (λ p s', (page_addr p ∧ io_nv s'.1 = io_nv s.1) ∧ Started l2 cq sq a ccqs csqs s')) s.
Proof.
  destruct s as [s a0]. intros [Hi ? ? ? ? ?]. unfold wp, alloc. pose proof (an_alloc len (io_w s)) as H.
  destruct (dma_alloc len (io_w s)) as [p w']. destruct H as (Hr & Hal & Hc & Hs). split; [done|].
  destruct Hi as [Hsq Hcq Ho Hv Hq]. split; cbn in *; [by split|congruence..].
Qed.

(** A command of the admin queue: the controller executes it once. *)
Lemma command_spec (f : Z → NvmeCmd) l2 cq sq a ccqs csqs ccqs' csqs' (R : W → Prop) (s : DS) :
  Started l2 cq sq a ccqs csqs s → (∀ c, cid (f c) = c) →
  (∀ c, let w' := (admin_exec (f c) (io_w s.1)).2 in an_cqs w' = ccqs' ∧ an_sqs w' = csqs' ∧ R w') →
  wp (admin_command f) (ok_then (λ _ s', R (io_w s'.1) ∧ Started l2 cq sq a ccqs' csqs' s')) s.
Proof.
  destruct s as [s a0]. intros [Hi Hcq Hsq Ha Hc Hs] Hcid Heff. cbn [fst snd] in *. unfold wp, admin_command, on_io, submit_and_complete_admin_command.
  destruct (pair_command_eq 0 [] l2 s f Hi Hcid) as (s' & comp & -> & Hi' & (Ho1 & Ho2 & _) & Hw & _); [intros c; apply an_status|].
  cbn [fst snd ok_then]. cbv zeta in Hw. change (exec_on 0 ?x ?y) with (admin_exec x y) in Hw.
  destruct (Heff (comp_cid comp)) as (E1 & E2 & HR). rewrite <- Hw in E1, E2, HR. split; [exact HR|].
  split; cbn [fst snd]; [done|by rewrite Ho2|by rewrite Ho1|done..].
Qed.

(** An identify command leaves the queues as they are. *)
Lemma identify_command_spec (f : Z → NvmeCmd) p ids dw data l2 cq sq a ccqs csqs (s : DS) :
  (∀ c, f c = mk_cmd 6 0 c ids 0 0 (as_u64 p, 0) dw 0 0 0 0 0) → page_addr p →
  (dw = 2 ∧ ids = 0 → data = mjoin (le_bytes 4 <$> an_ids) ++ replicate (4 * (1024 - length an_ids)) 0) →
  (dw = 0 ∧ ids ∈ an_ids → data = an_data ids) →
  Started l2 cq sq a ccqs csqs s →
  wp (admin_command f) (ok_then (λ _ s',
    ((dw = 2 ∧ ids = 0) ∨ (dw = 0 ∧ ids ∈ an_ids) → dma_bytes p 4096 (io_w s'.1) = data) ∧ Started l2 cq sq a ccqs csqs s')) s.
Proof.
  intros Hf [Hp Hal]%page_addr_u64 Hlist Hone Hst.
  eapply (command_spec f _ _ _ _ _ _ _ _ (λ w, ((dw = 2 ∧ ids = 0) ∨ (dw = 0 ∧ ids ∈ an_ids)) → dma_bytes p 4096 w = data)); [exact Hst|by intros c; rewrite Hf|].
  intros c. rewrite Hf. cbv zeta. destruct (an_identify (mk_cmd 6 0 c ids 0 0 (as_u64 p, 0) dw 0 0 0 0 0) (io_w s.1) eq_refl) as (-> & -> & Hd).
  cbn [dptr fst cdw10 nsid] in Hd. rewrite Hp in Hd. destruct (Hd Hal) as [H1 H2]. destruct Hst. split_and!; [done..|].
  rewrite Hp. intros [[Hdw Hid]|[Hdw Hid]]; [rewrite H1, Hlist|rewrite H2, Hone]; done.
Qed.

Lemma identify_controller_spec l2 cq sq a ccqs csqs (s : DS) :
  Started l2 cq sq a ccqs csqs s → wp nv_identify_controller (ok_then (λ _ s', Started l2 cq sq a ccqs csqs s')) s.
Proof.
  intros Hst. unfold nv_identify_controller. eapply wp_seq; [by apply alloc_spec|]. intros p s1 [[Hp _] Hst1].
  eapply wp_seq; [eapply (identify_command_spec _ p 0 1 []); [done|done|lia|lia|exact Hst1]|]. intros _ s2 [_ Hst2]. exact Hst2.
Qed.

Lemma identify_list_spec l2 cq sq a ccqs csqs (s : DS) :
  Started l2 cq sq a ccqs csqs s →
  wp (nv_identify_namespace_list 0) (ok_then (λ l s', l = an_ids ∧ Started l2 cq sq a ccqs csqs s')) s.
Proof.
  intros Hst. unfold nv_identify_namespace_list. eapply wp_seq; [by apply alloc_spec|]. intros p s1 [[Hp _] Hst1].
  eapply wp_seq; [eapply (identify_command_spec _ p 0 2); [done|done|by intros _|lia|exact Hst1]|]. intros _ s2 [Hd Hst2]. apply wp_gets.
  split; [|exact Hst2]. rewrite Hd by (by left). apply nsid_list_spec.
  - apply Forall_forall. intros id Hid. by apply an_id.
  - apply an_few.
  - destruct (1024 - length an_ids)%nat as [|k]; [by left|]. right. by replace (4 * Datatypes.S k)%nat with (Datatypes.S (Datatypes.S (Datatypes.S (Datatypes.S (4 * k))))) by lia.
Qed.

Lemma identify_one_spec id ns l2 cq sq a ccqs csqs (s : DS) :
  id ∈ an_ids → namespace_of id (an_data id) = Some ns → Started l2 cq sq a ccqs csqs s →
  wp (nv_identify_namespace id) (ok_then (λ x s', x = ns ∧ Started l2 cq sq a ccqs csqs s')) s.
Proof.
  intros Hid Hns Hst. unfold nv_identify_namespace. eapply wp_seq; [by apply alloc_spec|]. intros p s1 [[Hp _] Hst1].
  eapply wp_seq; [eapply (identify_command_spec _ p id 0); [done|done|lia|by intros _|exact Hst1]|]. intros _ s2 [Hd Hst2]. apply wp_gets.
  rewrite Hd by (by right). unfold namespace_of in Hns.
  destruct (lba_data_size (formatted_lba_size (an_data id))) as [bs|]; cbn in Hns; [|done]. by simplify_eq.
Qed.

Lemma identify_all_spec ids l2 cq sq a ccqs csqs (s : DS) :
  (∀ id, id ∈ ids → id ∈ an_ids ∧ is_Some (namespace_of id (an_data id))) → NoDup ids → Started l2 cq sq a ccqs csqs s →
  wp (identify_all ids) (ok_then (λ m s',
    (∀ id, m !! id = if decide (id ∈ ids) then namespace_of id (an_data id) else None) ∧ Started l2 cq sq a ccqs csqs s')) s.
Proof.
  intros Hids Hnd. revert s. induction Hnd as [|id ids Hn _ IH]; intros s Hst; cbn [identify_all].
  - split; [|exact Hst]. intros id. by rewrite decide_False by (intros H; by apply elem_of_nil in H).
  - destruct (Hids id) as [Hin [ns Hns]]; [set_solver|]. eapply wp_seq; [by eapply identify_one_spec|]. intros x s1 [-> Hst1].
    eapply wp_seq; [apply IH; [set_solver|exact Hst1]|]. intros m s2 [Hm Hst2]. split; [|exact Hst2].
    intros k. destruct (decide (k = id)) as [->|Hne].
    + rewrite lookup_union_r by (by rewrite Hm, decide_False). rewrite lookup_singleton_eq. rewrite decide_True by set_solver. done.
    + rewrite lookup_union_l by (by rewrite lookup_singleton_ne). rewrite Hm.
      destruct (decide (k ∈ ids)); [rewrite decide_True by set_solver|rewrite decide_False by set_solver]; done.
Qed.

(** A new completion queue of the driver. *)
Lemma started_cq p a ccqs csqs (s : IoState W) :
  Started [] None None a ccqs csqs (s, a) →
  Started [] (Some (cq_new, [])) None (mk_qphys (<[1 := p]> (cq_phys a)) (sq_phys a)) ccqs csqs
    (mk_io (set_cqs (<[1 := (cq_new, [])]> (completion_queues (io_nv s))) (io_nv s)) (io_sq_head s) (io_cqd s) (io_w s),
     mk_qphys (<[1 := p]> (cq_phys a)) (sq_phys a)).
Proof.
  intros [[Hq1 (q & l & k & Hq2 & Hinv) Ho Hv Hr] Hcq Hsq Ha Hc Hs]. cbn in *. split; cbn; [|by rewrite lookup_insert_eq|done..].
  split; cbn; [done| |done..]. exists q, l, k. by rewrite lookup_insert_ne.
Qed.

Lemma started_sq p l2 cq a ccqs csqs (s : IoState W) :
  Started l2 cq None a ccqs csqs (s, a) →
  Started l2 cq (Some (sq_new, 1)) (mk_qphys (cq_phys a) (<[1 := p]> (sq_phys a))) ccqs csqs
    (mk_io (set_sqs (<[1 := (sq_new, 1)]> (submission_queues (io_nv s))) (io_nv s)) (io_sq_head s) (io_cqd s) (io_w s),
     mk_qphys (cq_phys a) (<[1 := p]> (sq_phys a))).
Proof.
  intros [[(sq & Hq1) Hq2 Ho Hv Hr] Hcq Hsq Ha Hc Hs]. cbn in *. split; cbn; [|done|by rewrite lookup_insert_eq|done..].
  split; cbn; [|done..]. exists sq. by rewrite lookup_insert_ne.
Qed.

(** Vector 0 also serves queue 1. *)
Lemma started_iv sq a ccqs csqs (s : IoState W) :
  Started [] (Some (cq_new, [])) sq a ccqs csqs (s, a) →
  Started [1] (Some (cq_new, [])) sq a ccqs csqs
    (mk_io (set_ivs (<[0 := default [] (cqs_for_ivs (io_nv s) !! 0) ++ [1]]> (cqs_for_ivs (io_nv s))) (io_nv s))
       (io_sq_head s) (io_cqd s) (io_w s), a).
Proof.
  intros [[Hq1 Hq2 Ho Hv Hr] Hcq Hsq Ha Hc Hs]. cbn in *. split; cbn; [|done..]. split; cbn; [done..| |by rewrite Hv, lookup_insert_eq|done].
  constructor; [|done]. split; [done|]. exists cq_new, []. split; [exact Hcq|by vm_compute].
Qed.

(** The completion queue: new, told to the controller, and added to vector 0. *)
Lemma create_cq_spec csqs (s : DS) :
  1 <= an_max_id → 256 <= an_max_entries → Started [] None None (mk_qphys ∅ ∅) ∅ csqs s →
  wp (nv_create_completion_queue 1 (Some 0)) (ok_then (λ _ s', ∃ p,
    Started [1] (Some (cq_new, [])) None (mk_qphys {[1 := p]} ∅) {[1 := (p, 256, Some 0)]} csqs s')) s.
Proof.
  intros Hid Hen Hst. unfold nv_create_completion_queue.
  eapply (wp_seq _ _ (λ r s', r.2 = 256 ∧ page_addr r.1 ∧ Started [] (Some (cq_new, [])) None (mk_qphys {[1 := r.1]} ∅) ∅ csqs s')).
  { unfold cq_entry_or_new. apply wp_gets. rewrite (st_cq _ _ _ _ _ _ _ Hst). eapply wp_seq; [by apply alloc_spec|].
    intros p [s1 a1] [[Hp E] Hst1]. cbn [fst] in E. rewrite <- E. pose proof (st_phys _ _ _ _ _ _ _ Hst1) as E1. cbn in E1. subst a1.
    split; [done|]. split; [done|]. exact (started_cq p _ _ _ _ Hst1). }
  intros [p len] s1 (Hl & [Hp Hal]%page_addr_u64 & Hst1). cbn [fst snd] in *. subst len. cbn [Z.leb Z.eqb Z.compare Pos.compare orb].
  eapply wp_seq.
  { eapply (command_spec _ _ _ _ _ _ _ {[1 := (p, 256, Some 0)]} csqs (λ _, True)); [exact Hst1|done|]. intros c. cbv zeta.
    destruct (an_create_cq (create_io_completion_queue c 1 p 255 (Some 0)) (io_w s1.1)) as [E1 E2]; [done|done| | | | |].
    - cbn [create_io_completion_queue dptr fst]. by rewrite Hp.
    - change (new_qid _) with 1. lia.
    - change (new_entries _) with 256. lia.
    - by rewrite (st_ccqs _ _ _ _ _ _ _ Hst1).
    - change (256 - 1) with 255. rewrite E1, E2, (st_ccqs _ _ _ _ _ _ _ Hst1), (st_csqs _ _ _ _ _ _ _ Hst1).
      cbn [create_io_completion_queue dptr fst]. by rewrite Hp. }
  intros _ [s2 a2] [_ Hst2]. pose proof (st_phys _ _ _ _ _ _ _ Hst2) as E2. cbn in E2. subst a2. exists p. exact (started_iv _ _ _ _ _ Hst2).
Qed.

Lemma create_sq_spec pc ccqs (s : DS) :
  1 <= an_max_id → 256 <= an_max_entries → is_Some (ccqs !! 1) →
  Started [1] (Some (cq_new, [])) None (mk_qphys {[1 := pc]} ∅) ccqs ∅ s →
  wp (nv_create_submission_queue 1 1) (ok_then (λ _ s', ∃ p,
    Started [1] (Some (cq_new, [])) (Some (sq_new, 1)) (mk_qphys {[1 := pc]} {[1 := p]}) ccqs {[1 := (p, 64, 1)]} s')) s.
Proof.
  intros Hid Hen Hcc Hst. unfold nv_create_submission_queue.
  eapply (wp_seq _ _ (λ r s', r.2 = 64 ∧ page_addr r.1 ∧
    Started [1] (Some (cq_new, [])) (Some (sq_new, 1)) (mk_qphys {[1 := pc]} {[1 := r.1]}) ccqs ∅ s')).
  { unfold sq_entry_or_new. apply wp_gets. rewrite (st_sq _ _ _ _ _ _ _ Hst). eapply wp_seq; [by apply alloc_spec|].
    intros p [s1 a1] [[Hp E] Hst1]. cbn [fst] in E. rewrite <- E. pose proof (st_phys _ _ _ _ _ _ _ Hst1) as E1. cbn in E1. subst a1.
    split; [done|]. split; [done|]. exact (started_sq p _ _ _ _ _ _ Hst1). }
  intros [p len] s1 (Hl & [Hp Hal]%page_addr_u64 & Hst1). cbn [fst snd] in *. subst len. cbn [Z.leb Z.eqb Z.compare Pos.compare orb].
  eapply wp_seq.
  { eapply (command_spec _ _ _ _ _ _ _ ccqs {[1 := (p, 64, 1)]} (λ _, True)); [exact Hst1|done|]. intros c. cbv zeta.
    destruct (an_create_sq (create_io_submission_queue c 1 p 63 1) (io_w s1.1)) as [E1 E2]; [done|done| | | | | |].
    - cbn [create_io_submission_queue dptr fst]. by rewrite Hp.
    - change (new_qid _) with 1. lia.
    - change (new_entries _) with 64. lia.
    - by rewrite (st_csqs _ _ _ _ _ _ _ Hst1).
    - by rewrite (st_ccqs _ _ _ _ _ _ _ Hst1).
    - change (64 - 1) with 63. rewrite E1, E2, (st_ccqs _ _ _ _ _ _ _ Hst1), (st_csqs _ _ _ _ _ _ _ Hst1).
      cbn [create_io_submission_queue dptr fst]. by rewrite Hp. }
  intros _ s2 [_ Hst2]. exists p. exact Hst2.
Qed.

(** After the start the driver can transfer. *)
Lemma started_ready a ccqs csqs (s : DS) :
  Started [1] (Some (cq_new, [])) (Some (sq_new, 1)) a ccqs csqs s → ready (io_nv s.1).
Proof.
  intros [[_ (q & l & k & Hq & Hinv) _ Hv Hr] Hcq Hsq _ _ _]. split; [done|by exists []| |done..].
  exists q, l. split; [done|]. exact (complete_inv _ _ _ _ Hinv).
Qed.

End found.

(** A machine before the start: nothing was sent to the controller, which has no I/O queues. *)
Definition before_start {W : Type} (w : W) : IoState W * QueuePhys := (mk_io nvme_new 0 (mk_cqd 0 true 0) w, mk_qphys ∅ ∅).

(** C22. The start of the driver, every admin command through the admin queue, the controller and
    the reactor.  It ends, and finds exactly the namespaces of the controller, with the size and
    the block size it reports.  The controller then has exactly one pair of I/O queues: completion
    queue 1 of 256 entries with interrupt vector 0, submission queue 1 of 64 entries that posts
    to it, both where the driver has them, and the driver is ready for transfers.  The controller
    must support queues of 256 entries (the driver does not look at CAP.MQES), and have only block sizes
    the driver accepts. *)
Theorem init_with_queues_ready {W : Type} `{HL : AdminLaws W} (w : W) :
  an_cqs w = ∅ → an_sqs w = ∅ → 1 <= an_max_id → 256 <= an_max_entries →
  (∀ id, id ∈ an_ids → is_Some (namespace_of id (an_data id))) →
  wp init_with_queues (ok_then (λ m s', ready (io_nv s'.1) ∧
    (∀ id, m !! id = if decide (id ∈ an_ids) then namespace_of id (an_data id) else None) ∧
    ∃ pc ps, s'.2 = mk_qphys {[1 := pc]} {[1 := ps]} ∧
      an_cqs (io_w s'.1) = {[1 := (pc, 256, Some 0)]} ∧ an_sqs (io_w s'.1) = {[1 := (ps, 64, 1)]})) (before_start w).
Proof.
  intros Hc Hs Hid Hen Hns. assert (Started [] None None (mk_qphys ∅ ∅) ∅ ∅ (before_start w)) as Hst.
  { split; [|done..|exact Hc|exact Hs]. split; [|exists cq_new, [0], 0%nat; split; [done|apply cq_new_inv]|done..].
    exists sq_new. split; [done|]. cbn; lia. }
  unfold init_with_queues. eapply wp_seq; [by apply identify_controller_spec|]. intros [] s1 Hst1.
  eapply wp_seq; [by apply identify_list_spec|]. intros l s2 [-> Hst2].
  eapply wp_seq; [apply identify_all_spec; [|apply an_unique|exact Hst2]|].
  { intros id Hi. split; [done|by apply Hns]. }
  intros m s3 [Hm Hst3]. eapply wp_seq; [by apply create_cq_spec|]. intros [] s4 [pc Hst4].
  eapply wp_seq; [eapply create_sq_spec; [done|done| |exact Hst4]; by rewrite lookup_singleton_eq|]. intros [] s5 [ps Hst5].
  split; [exact (started_ready _ _ _ _ Hst5)|]. split; [exact Hm|]. exists pc, ps. by destruct Hst5.
Qed.

(** ** Toy controllers *)

(** Namespaces 1 and 2, the first with 512 and the second with 4096 byte blocks. *)
Definition demo_ns_data (id : Z) : list Z :=
  le_bytes 8 (id * 100) ++ replicate 18 0 ++ [id - 1] ++ replicate 101 0 ++
  le_bytes 4 (9 * 2 ^ 16) ++ le_bytes 4 (12 * 2 ^ 16) ++ replicate 3960 0.

Definition demo_answer (c : NvmeCmd) : list Z :=
  if cdw10 c =? 2 then mjoin (le_bytes 4 <$> [1; 2]) ++ replicate (4 * 1022) 0 else demo_ns_data (nsid c).

(** Pages given out, their contents, and the queues that were created. *)
Record DemoNvme := mk_demo {
  dn_pages : nat; dn_mem : gmap Z (list Z); dn_cqs : gmap Z (Z * Z * option Z); dn_sqs : gmap Z (Z * Z * Z) }.

(** Up to 8 queues of at most 1024 entries. *)
Definition demo_queue_ok (cmd : NvmeCmd) : bool :=
  contiguous cmd && ((dptr cmd).1 mod 4096 =? 0) && (1 <=? new_qid cmd) && (new_qid cmd <=? 8) &&
  (2 <=? new_entries cmd) && (new_entries cmd <=? 1024).

Definition demo_exec (cmd : NvmeCmd) (w : DemoNvme) : Z * DemoNvme :=
  let '(mk_demo n mem cqs sqs) := w in
  match opcode cmd with
  | 6 => (0, mk_demo n (<[(dptr cmd).1 := demo_answer cmd]> mem) cqs sqs)
  | 5 =>
      if demo_queue_ok cmd && bool_decide (cqs !! new_qid cmd = None)
      then (0, mk_demo n mem (<[new_qid cmd := ((dptr cmd).1, new_entries cmd, new_vector cmd)]> cqs) sqs) else (1, w)
  | 1 =>
      if demo_queue_ok cmd && bool_decide (sqs !! new_qid cmd = None) && bool_decide (is_Some (cqs !! new_cqid cmd))
      then (0, mk_demo n mem cqs (<[new_qid cmd := ((dptr cmd).1, new_entries cmd, new_cqid cmd)]> sqs)) else (1, w)
  | _ => (1, w)
  end.

#[export] Instance demo_controller : NvmeController DemoNvme := {|
  nvme_exec _ w := (1, w); admin_exec := demo_exec; ns_bytes _ := []; buffer_bytes _ := []; set_buffer _ w := w;
  buffer_phys := 0; prp_phys := 0;
|}.

(** Memory of 2^30 pages. *)
#[export] Instance demo_memory : DmaMemory DemoNvme := {|
  dma_alloc len w :=
    (4096 * (Z.of_nat (dn_pages w) mod 2 ^ 30), mk_demo (dn_pages w + (len + 4095) / 4096) (dn_mem w) (dn_cqs w) (dn_sqs w));
  dma_bytes p len w := take len (default [] (dn_mem w !! p));
|}.

Lemma length_demo_ns_data id : length (demo_ns_data id) = 4096%nat.
Proof. unfold demo_ns_data. rewrite !length_app, !length_le_bytes, !length_replicate. done. Qed.

Lemma demo_answer_list c : cdw10 c = 2 → take 4096 (demo_answer c) = mjoin (le_bytes 4 <$> [1; 2]) ++ replicate (4 * 1022) 0.
Proof. intros H. unfold demo_answer. rewrite H. by vm_compute. Qed.

Lemma demo_answer_one c : cdw10 c = 0 → take 4096 (demo_answer c) = demo_ns_data (nsid c).
Proof. intros H. unfold demo_answer. rewrite H. cbn [Z.eqb]. apply take_ge. by rewrite length_demo_ns_data. Qed.

Lemma demo_queue_ok_true cmd :
  contiguous cmd = true → (dptr cmd).1 mod 4096 = 0 → 1 <= new_qid cmd <= 8 → 2 <= new_entries cmd <= 1024 → demo_queue_ok cmd = true.
Proof. intros H1 H2 H3 H4. unfold demo_queue_ok. rewrite H1, H2. rewrite !(proj2 (Z.leb_le _ _)) by lia. done. Qed.

#[export, program] Instance demo_admin_laws : AdminLaws DemoNvme := {|
  an_ids := [1; 2]; an_data := demo_ns_data; an_cqs := dn_cqs; an_sqs := dn_sqs; an_max_id := 8; an_max_entries := 1024;
|}.
Next Obligation. cbn. lia. Qed.
Next Obligation. intros id Hid. rewrite !elem_of_cons, elem_of_nil in Hid. lia. Qed.
Next Obligation. apply (bool_decide_unpack _). by vm_compute. Qed.
Next Obligation. intros cmd [n mem cqs sqs]. cbn [admin_exec demo_controller]. unfold demo_exec. repeat case_match; simplify_eq/=; lia. Qed.
Next Obligation.
  intros len w. cbn [dma_alloc demo_memory]. pose proof (Z.mod_pos_bound (Z.of_nat (dn_pages w)) (2 ^ 30) ltac:(done)) as Hb.
  split; [|split; [|done]].
  - unfold u_range. change (2 ^ 64) with 18446744073709551616. change (2 ^ 30) with 1073741824 in *. lia.
  - rewrite Z.mul_comm. by apply Z.mod_mul.
Qed.
Next Obligation.
  intros cmd [n mem cqs sqs] Hop. cbn [admin_exec demo_controller]. unfold demo_exec. rewrite Hop. cbv zeta. cbn [snd]. split; [done|]. split; [done|].
  intros _. cbn [dma_bytes demo_memory dn_mem]. rewrite lookup_insert_eq. cbn [default].
  split; intros; [by apply demo_answer_list|by apply demo_answer_one].
Qed.
Next Obligation.
  intros cmd [n mem cqs sqs] Hop Hc Hal Hq Hn Hnew. cbn [admin_exec demo_controller dn_cqs] in *. unfold demo_exec.
  rewrite Hop, demo_queue_ok_true, bool_decide_eq_true_2 by done. done.
Qed.
Next Obligation.
  intros cmd [n mem cqs sqs] Hop Hc Hal Hq Hn Hnew Hcq. cbn [admin_exec demo_controller dn_cqs dn_sqs] in *. unfold demo_exec.
  rewrite Hop, demo_queue_ok_true, !bool_decide_eq_true_2 by done. done.
Qed.

(** The hypotheses of [init_with_queues_ready] hold of it. *)
Lemma init_with_queues_ready_witness :
  wp init_with_queues (ok_then (λ m s', ready (io_nv s'.1) ∧
    (∀ id, m !! id = if decide (id ∈ an_ids) then namespace_of id (an_data id) else None) ∧
    ∃ pc ps, s'.2 = mk_qphys {[1 := pc]} {[1 := ps]} ∧
      an_cqs (io_w s'.1) = {[1 := (pc, 256, Some 0)]} ∧ an_sqs (io_w s'.1) = {[1 := (ps, 64, 1)]}))
    (before_start (mk_demo 1 ∅ ∅ ∅)) ∧
  an_ids = [1; 2] ∧ namespace_of 2 (an_data 2) = Some (mk_ns 2 200 4096).
Proof.
  split; [|split; [done|by vm_compute]]. apply (init_with_queues_ready (W := DemoNvme)); [done|done|cbn; lia|cbn; lia|].
  intros id Hid. change (id ∈ [1; 2]) in Hid. rewrite !elem_of_cons, elem_of_nil in Hid.
  destruct Hid as [-> | [-> | []]]; eexists; by vm_compute.
Defined.

#[export] Instance NReg_eq_dec : EqDecision NReg.
Proof. solve_decision. Defined.

(** Registers that follow the enable bit after one more read of the status. *)
Record ToyRegs := mk_toy_regs { tr_cc : Z; tr_rdy : bool; tr_wait : bool; tr_aqa : Z; tr_asq : Z * Z; tr_acq : Z * Z }.

Definition toy_settle (w : ToyRegs) : ToyRegs :=
  if tr_wait w then mk_toy_regs (tr_cc w) (tr_rdy w) false (tr_aqa w) (tr_asq w) (tr_acq w)
  else mk_toy_regs (tr_cc w) (Z.testbit (tr_cc w) 0) false (tr_aqa w) (tr_asq w) (tr_acq w).

#[export] Instance toy_regs_io : Io ToyRegs NReg := {|
  io_width := 32;
  io_read r w := match r with
    | NCc => (tr_cc w, w)
    | NCsts => let w' := toy_settle w in (Z.b2z (tr_rdy w'), w')
    | _ => (0, w)
    end;
  io_write r v w := match r with
    | NCc => mk_toy_regs v (tr_rdy w) true (tr_aqa w) (tr_asq w) (tr_acq w)
    | NAqa => mk_toy_regs (tr_cc w) (tr_rdy w) (tr_wait w) v (tr_asq w) (tr_acq w)
    | NAsqLow => mk_toy_regs (tr_cc w) (tr_rdy w) (tr_wait w) (tr_aqa w) (v, (tr_asq w).2) (tr_acq w)
    | NAsqHigh => mk_toy_regs (tr_cc w) (tr_rdy w) (tr_wait w) (tr_aqa w) ((tr_asq w).1, v) (tr_acq w)
    | NAcqLow => mk_toy_regs (tr_cc w) (tr_rdy w) (tr_wait w) (tr_aqa w) (tr_asq w) (v, (tr_acq w).2)
    | NAcqHigh => mk_toy_regs (tr_cc w) (tr_rdy w) (tr_wait w) (tr_aqa w) (tr_asq w) ((tr_acq w).1, v)
    | _ => w
    end;
|}.

Lemma toy_settle_same w :
  tr_cc (toy_settle w) = tr_cc w ∧ tr_aqa (toy_settle w) = tr_aqa w ∧ tr_asq (toy_settle w) = tr_asq w ∧
  tr_acq (toy_settle w) = tr_acq w ∧ (tr_rdy w = Z.testbit (tr_cc w) 0 → tr_rdy (toy_settle w) = tr_rdy w) ∧
  (tr_rdy (toy_settle w) ≠ Z.testbit (tr_cc w) 0 → tr_wait w = true ∧ tr_wait (toy_settle w) = false).
Proof. destruct w as [cc rdy [] aqa asq acq]; cbn [toy_settle tr_wait tr_cc tr_rdy tr_aqa tr_asq tr_acq]; by split_and!. Qed.

#[export, program] Instance toy_regs_laws : NvmeRegLaws ToyRegs := {|
  rl_cc := tr_cc; rl_rdy := tr_rdy; rl_left w := if tr_wait w then 1%nat else 0%nat; rl_bound := 2;
  rl_aqa := tr_aqa; rl_asq := tr_asq; rl_acq := tr_acq;
|}.
Next Obligation. done. Qed.
Next Obligation. intros w. cbv beta. case_match; lia. Qed.
Next Obligation.
  intros r w v w' E. destruct (decide (r = NCsts)) as [->|Hr].
  - cbn [io_read toy_regs_io] in E. injection E as <- <-.
    destruct (toy_settle_same w) as (-> & -> & -> & -> & H1 & H2).
    do 5 (split; [done|]). split; [done|]. intros _. split; [by destruct (tr_rdy (toy_settle w))|].
    intros H. destruct (H2 H) as [-> ->]. lia.
  - assert (w' = w) as -> by (destruct r; cbn in E; congruence).
    do 5 (split; [done|]). split; [|done]. intros ->. cbn in E. congruence.
Qed.
Next Obligation. done. Qed.
Next Obligation. intros r v w Hr. by destruct r. Qed.

(** The hypotheses of [nvme_init_enables] hold of it. *)
Lemma nvme_init_enables_witness :
  let w := mk_toy_regs 1 true false 0 (0, 0) (0, 0) in
  wp (nvme_init (mk_admin_phys 0x1000 0x2000) 2) (ok_then (λ _ s', ∃ cc' im',
    Regs cc' true (255 * 2 ^ 16 + 63, (0x1000, 0), (0x2000, 0)) im' s' ∧
    Z.testbit cc' 0 = true ∧ field 16 4 cc' = 6 ∧ field 20 4 cc' = 4 ∧ field 4 12 cc' = 0 ∧ unmasked ImIntx im')) (w, ImIntx).
Proof.
  apply (nvme_init_enables (W := ToyRegs) (mk_admin_phys 0x1000 0x2000) 2 1 true (0, (0, 0), (0, 0)) ImIntx).
  - by split_and!.
  - by vm_compute.
  - done.
  - cbn. lia.
Defined.
