(* ===== verification/Acpi.v ===== *)
(** The ACPI tables of acpid (acpid/src/acpi.rs, the root table of acpid/src/main.rs) and the
    remapping tables (acpid/src/acpi/dmar/mod.rs).

    A table is the bytes of memory the firmware left; [load_from_physical] reads them
    through windows of a few pages.  [load_from_physical_eq] shows that the windows fit together: the
    result is the table at the address, wherever it lies.  [dmar_init_hangs] shows why
    the remapping table cannot be enumerated. *)

From S2P Require Import Prelude.

Definition PAGE_SIZE : Z := 4096.

(** ** Headers *)

Record SdtSignature := mk_sig { sg_signature : list Z; sg_oem_id : list Z; sg_oem_table_id : list Z }.

#[export] Instance SdtSignature_eq_dec : EqDecision SdtSignature.
Proof. solve_decision. Defined.

Record SdtHeader := mk_sdt_header {
  sh_signature : list Z; sh_length : Z; sh_revision : Z; sh_checksum : Z; sh_oem_id : list Z; sh_oem_table_id : list Z;
  sh_oem_revision : Z; sh_creator_id : Z; sh_creator_revision : Z;
}.

Definition SDT_HEADER_SIZE : nat := 36.

(** The packed struct over the bytes; [None] when there are too few. *)
Definition sdt_header (b : list Z) : option SdtHeader :=
  if (length b <? SDT_HEADER_SIZE)%nat then None
  else Some (mk_sdt_header (slice 0 4 b) (le_val (slice 4 4 b)) (le_val (slice 8 1 b)) (le_val (slice 9 1 b)) (slice 10 6 b)
               (slice 16 8 b) (le_val (slice 24 4 b)) (le_val (slice 28 4 b)) (le_val (slice 32 4 b))).

Definition header_signature (h : SdtHeader) : SdtSignature := mk_sig (sh_signature h) (sh_oem_id h) (sh_oem_table_id h).

Inductive InvalidSdtError : Type := InvalidSize | BadChecksum.
Inductive TablePhysLoadError : Type := TpIo (e : errno) | TpValidity (e : InvalidSdtError).

(** A validated table. *)
Record Sdt := mk_sdt { sdt_bytes : list Z }.

Definition sum_u8 (b : list Z) : Z := fold_left (λ s x, as_u8 (s + x)) b 0.

Definition sdt_new (b : list Z) : res InvalidSdtError Sdt :=
  match sdt_header b with
  | None => Err InvalidSize
  | Some h =>
      if negb (sh_length h =? Z.of_nat (length b)) then Err InvalidSize
      else if negb (sum_u8 b =? 0) then Err BadChecksum
      else Ok (mk_sdt b)
  end.

(** [Deref]: the header of a validated table; the default is never used. *)
Definition sdt_hdr (s : Sdt) : SdtHeader :=
  default (mk_sdt_header [] 0 0 0 [] [] 0 0 0) (sdt_header (sdt_bytes s)).

Definition sdt_signature (s : Sdt) : SdtSignature := header_signature (sdt_hdr s).

Definition sdt_data (s : Sdt) : list Z := drop SDT_HEADER_SIZE (sdt_bytes s).

(** ** Loading *)

(** [PhysmapGuard::map]: the bytes of a number of pages; the mapping is undone when the guard
    is dropped. *)
Class PhysMap (W : Type) := physmap : Z → Z → prog W errno (list Z).

Definition SIMULTANEOUS_PAGE_COUNT : Z := 4.

Section load.
Context {W : Type} `{HP : PhysMap W}.

Abbreviation lp := (prog W TablePhysLoadError).

Definition guard_map (page page_count : Z) : lp (list Z) := λ w,
  match physmap page page_count w with
  | (Ok b, w) => (Ok b, w)
  | (Err e, w) => (Err (TpIo e), w)
  | (Panic, w) => (Panic, w)
  end.

(** The rest of a table behind the pages of its header; out of fuel is an error that is never
    reached. *)
Fixpoint load_loop (fuel : nat) (left offset : Z) (loaded : list Z) : lp (list Z) :=
  if left <=? 0 then mret loaded
  else
    match fuel with
    | O => panic
    | S fuel =>
        let to_copy := Z.min left (PAGE_SIZE * SIMULTANEOUS_PAGE_COUNT) in
        pages ← guard_map offset ((to_copy + PAGE_SIZE - 1) / PAGE_SIZE);
        if (length pages <? Z.to_nat to_copy)%nat then panic
        else load_loop fuel (left - to_copy) (offset + to_copy) (loaded ++ take (Z.to_nat to_copy) pages)
    end.

Definition load_from_physical (physaddr : Z) : lp Sdt :=
  let start_page := physaddr / PAGE_SIZE * PAGE_SIZE in
  let page_offset := physaddr mod PAGE_SIZE in
  let count := if PAGE_SIZE - page_offset <? Z.of_nat SDT_HEADER_SIZE then 2 else 1 in
  pages ← guard_map start_page count;
  if (length pages <? SDT_HEADER_SIZE)%nat then panic
  else
    let sdt_mem := drop (Z.to_nat page_offset) pages in
    h ← unwrap (sdt_header (take SDT_HEADER_SIZE sdt_mem));
    let total_length := sh_length h in
    let base_length := Z.min total_length (Z.of_nat (length sdt_mem)) in
    let extended_length := total_length - base_length in
    loaded ← load_loop (Z.to_nat extended_length) extended_length (start_page + count * PAGE_SIZE)
               (take (Z.to_nat base_length) sdt_mem);
    match sdt_new loaded with
    | Ok s => mret s
    | Err e => throw (TpValidity e)
    | Panic => panic
    end.

End load.

(** ** The root table (acpid/src/main.rs) *)

(** [chunks(n)] of the data of the table; a chunk that is too short panics. *)
Fixpoint root_entries (n fuel : nat) (data : list Z) : option (list Z) :=
  match data, fuel with
  | [], _ | _, O => Some []
  | _, S fuel =>
      if (length data <? n)%nat then None
      else rest ← root_entries n fuel (drop n data); Some (le_val (take n data) :: rest)
  end.

Definition rxsdt_addresses (sdt : Sdt) : option (list Z) :=
  let data := sdt_data sdt in
  if bool_decide (sh_signature (sdt_hdr sdt) = string_bytes "RSDT") then root_entries 4 (length data) data
  else if bool_decide (sh_signature (sdt_hdr sdt) = string_bytes "XSDT") then root_entries 8 (length data) data
  else None.

(** ** FADT *)

Definition FADT_SIZE : nat := 116.
Definition FADT2_SIZE : nat := 128.

(** The size of [Fadt] itself, a counted pointer to the bytes, which the check uses. *)
Definition FADT_HANDLE_SIZE : Z := 16.

Record Fadt := mk_fadt { fadt_sdt : Sdt }.

Definition fadt_new (s : Sdt) : option Fadt :=
  if negb (bool_decide (sh_signature (sdt_hdr s) = string_bytes "FACP")) || (sh_length (sdt_hdr s) <? FADT_HANDLE_SIZE)
  then None else Some (mk_fadt s).

(** Fields by offset; [None] is the panic of [Deref] or of the slice. *)
Definition fadt_field (off n : nat) (f : Fadt) : option Z :=
  if (length (sdt_bytes (fadt_sdt f)) <? FADT_SIZE)%nat then None else Some (le_val (slice off n (sdt_bytes (fadt_sdt f)))).

Definition fadt_dsdt : Fadt → option Z := fadt_field 40 4.
Definition fadt_pm1a_control_block : Fadt → option Z := fadt_field 64 4.

(** [acpi_2_struct] with its [x_dsdt]. *)
Definition acpi_2_x_dsdt (f : Fadt) : option (option Z) :=
  let b := sdt_bytes (fadt_sdt f) in
  if (length b <? FADT_SIZE)%nat then None
  else Some (if (length b - FADT_SIZE <? FADT2_SIZE)%nat then None else Some (le_val (slice (FADT_SIZE + 24) 8 b))).

(** ** The windows fit together *)

(** The bytes of memory from an address on. *)
Definition mem_bytes (mem : Z → Z) (a : Z) (n : nat) : list Z := (λ i, mem (a + Z.of_nat i)) <$> seq 0 n.

Lemma length_mem_bytes mem a n : length (mem_bytes mem a n) = n.
Proof. unfold mem_bytes. by rewrite length_fmap, length_seq. Qed.

Lemma mem_bytes_app mem a n m : mem_bytes mem a (n + m) = mem_bytes mem a n ++ mem_bytes mem (a + Z.of_nat n) m.
Proof.
  unfold mem_bytes. rewrite seq_app, fmap_app. f_equal. cbn [Nat.add]. replace (seq n m) with (Nat.add n <$> seq 0 m) by (by rewrite fmap_add_seq, Nat.add_0_r).
  rewrite <- list_fmap_compose.
  apply list_fmap_ext. intros i x _. cbn. f_equal. lia.
Qed.

Lemma take_mem_bytes mem a n m : (m <= n)%nat → take m (mem_bytes mem a n) = mem_bytes mem a m.
Proof. intros H. replace n with (m + (n - m))%nat by lia. rewrite mem_bytes_app. apply take_app_length'. by rewrite length_mem_bytes. Qed.

Lemma drop_mem_bytes mem a n m : (m <= n)%nat → drop m (mem_bytes mem a n) = mem_bytes mem (a + Z.of_nat m) (n - m).
Proof. intros H. replace n with (m + (n - m))%nat at 1 by lia. rewrite mem_bytes_app. apply drop_app_length'. by rewrite length_mem_bytes. Qed.

Lemma slice_mem_bytes mem a n o m : (o + m <= n)%nat → slice o m (mem_bytes mem a n) = mem_bytes mem (a + Z.of_nat o) m.
Proof. intros H. unfold slice. rewrite drop_mem_bytes, take_mem_bytes by lia. done. Qed.

(** What the system call promises: whole pages can be mapped and show the memory. *)
Class PhysLaws (W : Type) `{HP : PhysMap W} := {
  pl_mem : Z → Z;
  pl_byte a : is_byte (pl_mem a);
  pl_map page n w : 0 <= page → page mod PAGE_SIZE = 0 → 0 < n →
    physmap page n w = (Ok (mem_bytes pl_mem page (Z.to_nat (n * PAGE_SIZE))), w);
}.

Section load_laws.
Context {W : Type} `{HL : PhysLaws W}.

Lemma guard_map_spec page n w :
  0 <= page → page mod PAGE_SIZE = 0 → 0 < n → guard_map page n w = (Ok (mem_bytes pl_mem page (Z.to_nat (n * PAGE_SIZE))), w).
Proof. intros. unfold guard_map. by rewrite pl_map. Qed.

(** The rest of a table is appended, whatever its length. *)
Lemma load_loop_spec fuel left offset a k w :
  0 <= left → (Z.to_nat left <= fuel)%nat → 0 <= offset → offset mod PAGE_SIZE = 0 → offset = a + Z.of_nat k →
  load_loop fuel left offset (mem_bytes pl_mem a k) w = (Ok (mem_bytes pl_mem a (k + Z.to_nat left)), w).
Proof.
  revert left offset k. induction fuel as [|fuel IH]; intros left offset k Hl Hf Ho Hal Hk; cbn [load_loop].
  - replace left with 0 by lia. by rewrite Nat.add_0_r.
  - destruct (Z.leb_spec left 0) as [H0|H0]; [replace left with 0 by lia; by rewrite Nat.add_0_r|].
    unfold SIMULTANEOUS_PAGE_COUNT, PAGE_SIZE in *. set (c := Z.min left (4096 * 4)).
    unfold mbind, prog_bind. rewrite (bind_Ok _ _ _ _ _ (guard_map_spec offset ((c + 4096 - 1) / 4096) w Ho Hal ltac:(zdiv))).
    rewrite length_mem_bytes. assert (c <= (c + 4096 - 1) / 4096 * 4096) as Hc by zdiv. unfold PAGE_SIZE.
    rewrite (proj2 (Nat.ltb_ge _ _)) by lia. rewrite take_mem_bytes by lia. rewrite Hk, <- mem_bytes_app.
    destruct (Z.eq_dec c left) as [E|E].
    + rewrite E, Z.sub_diag. replace (load_loop fuel 0) with (load_loop (W := W) fuel (Z.of_nat 0)) by done.
      destruct fuel; cbn [load_loop]; by rewrite (proj2 (Z.leb_le (Z.of_nat 0) 0)) by lia.
    + assert (c = 16384 ∧ 16384 < left) as [-> Hlt] by lia. rewrite IH; [do 3 f_equal; lia|lia|lia|lia| |lia]. subst offset. zdiv.
Qed.

(** Loading a table is reading the bytes its header counts, at any address. *)
Lemma load_from_physical_eq a w :
  0 <= a → let len := Z.to_nat (le_val (mem_bytes pl_mem (a + 4) 4)) in
  load_from_physical a w =
    match sdt_new (mem_bytes pl_mem a len) with
    | Ok s => (Ok s, w) | Err e => (Err (TpValidity e), w) | Panic => (Panic, w)
    end.
Proof.
  intros Ha len. unfold load_from_physical, SDT_HEADER_SIZE.  set (po := a mod PAGE_SIZE). set (sp := a / PAGE_SIZE * PAGE_SIZE).
  assert (0 <= po < 4096 ∧ a = sp + po ∧ sp mod 4096 = 0 ∧ 0 <= sp) as (Hpo & Ea & Hal & Hsp)
    by (unfold po, sp, PAGE_SIZE; split_and!; zdiv).
  set (count := if PAGE_SIZE - po <? Z.of_nat 36 then 2 else 1). assert (36 <= count * 4096 - po ∧ 0 < count <= 2) as [Hco Hc] by (unfold count, PAGE_SIZE; destruct (Z.ltb_spec (4096 - po) (Z.of_nat 36)); lia).
  unfold mbind, prog_bind. rewrite (bind_Ok _ _ _ _ _ (guard_map_spec sp count w Hsp Hal ltac:(lia))).
  rewrite length_mem_bytes. unfold PAGE_SIZE in *. rewrite (proj2 (Nat.ltb_ge _ _)) by lia.
  rewrite drop_mem_bytes by lia. rewrite Z2Nat.id by lia. rewrite <- Ea. set (n := (Z.to_nat (count * 4096) - Z.to_nat po)%nat).
  assert (Z.of_nat n = count * 4096 - po) as Hn by (unfold n; lia).
  rewrite take_mem_bytes by lia. unfold sdt_header at 1, SDT_HEADER_SIZE. rewrite length_mem_bytes.
  cbn [Nat.ltb Nat.leb unwrap]. erewrite bind_Ok by reflexivity. cbn [sh_length]. rewrite slice_mem_bytes by lia. change (Z.of_nat 4) with 4.
  assert (u_range 32 (le_val (mem_bytes pl_mem (a + 4) 4))) as Hlen.
  { replace 32 with (8 * Z.of_nat (length (mem_bytes pl_mem (a + 4) 4))) by (by rewrite length_mem_bytes).
    apply le_val_range. apply Forall_fmap, Forall_forall. intros i _. apply pl_byte. }
  unfold u_range in Hlen. set (total := le_val _) in *. set (base := Z.min total (Z.of_nat n)).
  rewrite take_mem_bytes by lia.
  assert (load_loop (Z.to_nat (total - base)) (total - base) (sp + count * 4096) (mem_bytes pl_mem a (Z.to_nat base)) w
          = (Ok (mem_bytes pl_mem a len), w)) as E.
  { destruct (Z.le_gt_cases total (Z.of_nat n)) as [H|H].
    - replace (total - base) with 0 by lia. change (Z.to_nat 0) with 0%nat. cbn [load_loop]. cbv [Z.leb Z.compare mret prog_ret p_ret]. do 3 f_equal. lia.
    - rewrite load_loop_spec; [do 3 f_equal; lia|lia..| |lia]. unfold PAGE_SIZE. zdiv. }
  rewrite (bind_Ok _ _ _ _ _ E). by destruct (sdt_new _).
Qed.

End load_laws.

(** ** Finding tables *)

Definition has_signature (sig : list Z) (s : Sdt) : bool := bool_decide (sh_signature (sdt_hdr s) = sig).

(** [position]; that there are more is only logged. *)
Definition find_single_sdt_pos (sig : list Z) (tables : list Sdt) : option nat :=
  fst <$> list_find (λ s, has_signature sig s = true) tables.

Definition find_multiple_sdts (sig : list Z) (tables : list Sdt) : list Sdt := filter (λ s, has_signature sig s = true) tables.

Definition take_single_sdt (sig : list Z) (tables : list Sdt) : option Sdt :=
  pos ← find_single_sdt_pos sig tables; tables !! pos.

Definition sdt_from_signature (sig : SdtSignature) (tables : list Sdt) : option Sdt :=
  snd <$> list_find (λ s, sdt_signature s = sig) tables.

(** The index of the tables of the root table. *)
Definition get_signature_from_index (index : nat) (order : list (option SdtSignature)) : option SdtSignature := mjoin (order !! index).

(** [rposition]. *)
Fixpoint get_index_from_signature (sig : SdtSignature) (order : list (option SdtSignature)) : option nat :=
  match order with
  | [] => None
  | x :: order =>
      match get_index_from_signature sig order with
      | Some i => Some (S i)
      | None => if bool_decide (x = Some sig) then Some O else None
      end
  end.

Definition new_index (sig : SdtSignature) (order : list (option SdtSignature)) : list (option SdtSignature) := order ++ [Some sig].

(** ** The remapping table *)

Definition DMAR_SIZE : nat := 48.

Record Dmar := mk_dmar { dmar_sdt : Sdt }.

Definition remapping_structs_area (d : Dmar) : list Z := drop DMAR_SIZE (sdt_bytes (dmar_sdt d)).

(** The outer [None] is the failed assertion. *)
Definition dmar_new (s : Sdt) : option (option Dmar) :=
  if has_signature (string_bytes "DMAR") s
  then Some (if sh_length (sdt_hdr s) <? Z.of_nat DMAR_SIZE then None else Some (mk_dmar s))
  else None.

Inductive EntryType : Type := EtDrhd | EtRmrr | EtAtsr | EtRhsa | EtAndd | EtSatc.

Definition entry_type_of (x : Z) : option EntryType :=
  match x with
  | 0 => Some EtDrhd | 1 => Some EtRmrr | 2 => Some EtAtsr | 3 => Some EtRhsa | 4 => Some EtAndd | 5 => Some EtSatc | _ => None
  end.

Record DmarDrhdHeader := mk_drhd { dr_kind : Z; dr_length : Z; dr_flags : Z; dr_segment : Z; dr_base : Z }.
Record DmarRmrrHeader := mk_rmrr { rm_kind : Z; rm_length : Z; rm_segment : Z; rm_base : Z; rm_limit : Z }.
Record DmarAtsrHeader := mk_atsr { as_kind : Z; as_length : Z; as_flags : Z; as_segment : Z }.
Record DmarRhsa := mk_rhsa { rh_kind : Z; rh_length : Z; rh_base : Z; rh_domain : Z }.
Record DmarAnddHeader := mk_andd { an_kind : Z; an_length : Z; an_acpi_dev : Z }.
Record DmarSatcHeader := mk_satc { sa_kind : Z; sa_length : Z; sa_flags : Z; sa_seg_num : Z }.
Record DeviceScopeHeader := mk_scope { ds_ty : Z; ds_len : Z; ds_enumeration_id : Z; ds_start_bus_num : Z }.

(** The entries keep their bytes, the headers are views. *)
Inductive DmarEntry : Type :=
| DeDrhd (raw : list Z) | DeRmrr (raw : list Z) | DeAtsr (raw : list Z) | DeRhsa (e : DmarRhsa) | DeAndd (raw : list Z)
| DeSatc (raw : list Z) | DeTooShort (t : EntryType) | DeUnknown (ty : Z).

Abbreviation u off n b := (le_val (slice off n b)).

Definition DRHD_SIZE : nat := 16.
Definition RMRR_SIZE : nat := 24.
Definition ATSR_SIZE : nat := 8.
Definition RHSA_SIZE : nat := 20.
Definition ANDD_SIZE : nat := 8.
Definition SATC_SIZE : nat := 8.
Definition SCOPE_SIZE : nat := 6.

Definition drhd_header (b : list Z) : DmarDrhdHeader := mk_drhd (u 0 2 b) (u 2 2 b) (u 4 1 b) (u 6 2 b) (u 8 8 b).
Definition rmrr_header (b : list Z) : DmarRmrrHeader := mk_rmrr (u 0 2 b) (u 2 2 b) (u 6 2 b) (u 8 8 b) (u 16 8 b).
Definition atsr_header (b : list Z) : DmarAtsrHeader := mk_atsr (u 0 2 b) (u 2 2 b) (u 4 1 b) (u 6 2 b).
Definition andd_header (b : list Z) : DmarAnddHeader := mk_andd (u 0 2 b) (u 2 2 b) (u 7 1 b).
Definition satc_header (b : list Z) : DmarSatcHeader := mk_satc (u 0 2 b) (u 2 2 b) (u 4 1 b) (u 6 2 b).
Definition scope_header (b : list Z) : DeviceScopeHeader := mk_scope (u 0 1 b) (u 1 1 b) (u 4 1 b) (u 5 1 b).

Definition sized {A : Type} (n : nat) (f : list Z → A) (raw : list Z) : option A := if (length raw <? n)%nat then None else Some (f raw).

Definition drhd_try_new : list Z → option DmarEntry := sized DRHD_SIZE DeDrhd.
Definition rmrr_try_new : list Z → option DmarEntry := sized RMRR_SIZE DeRmrr.
Definition atsr_try_new : list Z → option DmarEntry := sized ATSR_SIZE DeAtsr.
Definition rhsa_try_new : list Z → option DmarEntry :=
  sized RHSA_SIZE (λ b, DeRhsa (mk_rhsa (u 0 2 b) (u 2 2 b) (u 8 8 b) (u 16 4 b))).
Definition andd_try_new : list Z → option DmarEntry := sized ANDD_SIZE DeAndd.
Definition satc_try_new : list Z → option DmarEntry := sized SATC_SIZE DeSatc.

Definition device_scope_area (raw : list Z) : list Z := drop DRHD_SIZE raw.

(** [DeviceScope::try_new] keeps all the bytes it is given. *)
Definition scope_try_new (raw : list Z) : option (list Z) :=
  if (length raw <? SCOPE_SIZE)%nat then None
  else if Z.of_nat (length raw) <? ds_len (scope_header raw) then None
  else Some raw.

Definition scope_path (raw : list Z) : list Z := drop SCOPE_SIZE raw.

(** [DmarRawIter::next]: the entry and the rest.  The length is read from the bytes of the
    type, whose name the conversion reuses. *)
Definition dmar_raw_next (bytes : list Z) : option ((Z * list Z) * list Z) :=
  if (length bytes <? 2)%nat then None
  else
    let type_bytes := take 2 bytes in
    if (length bytes <? 4)%nat then None
    else
      let remainder := drop 4 bytes in
      let len_bytes := type_bytes in
      let ty := le_val type_bytes in
      let len := le_val len_bytes in
      if Z.of_nat (length remainder) <? len then None
      else Some ((ty, take (Z.to_nat len) bytes), drop (Z.to_nat len) bytes).

Definition dmar_next (bytes : list Z) : option (DmarEntry * list Z) :=
  '((raw_type, raw), bytes) ← dmar_raw_next bytes;
  match entry_type_of raw_type with
  | None => Some (DeUnknown raw_type, bytes)
  | Some entry_type =>
      let item_opt :=
        match entry_type with
        | EtDrhd => drhd_try_new raw | EtRmrr => rmrr_try_new raw | EtAtsr => atsr_try_new raw
        | EtRhsa => rhsa_try_new raw | EtAndd => andd_try_new raw | EtSatc => satc_try_new raw
        end in
      Some (default (DeTooShort entry_type) item_opt, bytes)
  end.

(** The loop of [Dmar::init]; [map] maps the registers of a unit, which are then printed. *)
Fixpoint dmar_loop {W E : Type} (map : Z → prog W E unit) (fuel : nat) (bytes : list Z) : prog W E bool :=
  match fuel with
  | O => mret false
  | S fuel =>
      match dmar_next bytes with
      | None => mret true
      | Some (DeDrhd raw, bytes) => _ ← map (dr_base (drhd_header raw)); dmar_loop map fuel bytes
      | Some (_, bytes) => dmar_loop map fuel bytes
      end
  end.

(** [true]: finished, [false]: still running after [fuel] entries. *)
Definition dmar_init {W E : Type} (map : Z → prog W E unit) (fuel : nat) (tables : list Sdt) : prog W E bool :=
  match take_single_sdt (string_bytes "DMAR") tables with
  | None => mret true
  | Some s =>
      dmar ← unwrap (dmar_new s);
      match dmar with
      | None => mret true
      | Some dmar => dmar_loop map fuel (remapping_structs_area dmar)
      end
  end.

(** ** The loop does not advance *)

Lemma dmar_drhd_stays bytes :
  (4 <= length bytes)%nat → le_val (take 2 bytes) = 0 → dmar_next bytes = Some (DeTooShort EtDrhd, bytes).
Proof.
  intros Hl E. unfold dmar_next, dmar_raw_next. rewrite (proj2 (Nat.ltb_ge _ _)) by lia. rewrite (proj2 (Nat.ltb_ge _ _)) by lia.
  cbv zeta. rewrite E. rewrite (proj2 (Z.ltb_ge _ _)) by lia. done.
Qed.

(** C38. The enumeration of a DMAR table whose first structure describes a remapping unit (as
    the specification of the table demands) never ends: the length of an entry is read from
    the field of its type, which is 0, so the iterator yields the same entry for ever. *)
Theorem dmar_init_hangs {W E : Type} (map : Z → prog W E unit) tables pos s fuel (w : W) :
  find_single_sdt_pos (string_bytes "DMAR") tables = Some pos → tables !! pos = Some s →
  (DMAR_SIZE + 4 <= length (sdt_bytes s))%nat → sh_length (sdt_hdr s) = Z.of_nat (length (sdt_bytes s)) →
  le_val (slice DMAR_SIZE 2 (sdt_bytes s)) = 0 →
  dmar_init map fuel tables w = (Ok false, w).
Proof.
  intros Hpos Hs Hlen Hh Hty. unfold dmar_init, take_single_sdt. rewrite Hpos. cbn [mbind option_bind]. rewrite Hs.
  unfold find_single_sdt_pos in Hpos. destruct (list_find _ tables) as [[i x]|] eqn:Ef; [|done]. cbn in Hpos. injection Hpos as ->.
  apply list_find_Some in Ef as (Ex & Hx & _). assert (x = s) as -> by congruence.
  unfold dmar_new. rewrite Hx, Hh. rewrite (proj2 (Z.ltb_ge _ _)) by lia. unfold mbind, prog_bind. cbn [unwrap]. erewrite bind_Ok by reflexivity.
  assert (∀ f, dmar_loop map f (remapping_structs_area (mk_dmar s)) w = (Ok false, w)) as H; [|apply H].
  induction f as [|f IH]; [done|]. cbn [dmar_loop]. rewrite dmar_drhd_stays; [exact IH| |exact Hty].
  unfold remapping_structs_area. cbn [dmar_sdt]. rewrite length_drop. lia.
Qed.

(** A table with one remapping unit. *)
Definition demo_dmar : Sdt :=
  mk_sdt (string_bytes "DMAR" ++ le_bytes 4 64 ++ replicate 40 0 ++ le_bytes 2 0 ++ le_bytes 2 16 ++ replicate 4 0 ++ le_bytes 8 0xFED90000).

Lemma dmar_init_hangs_witness : dmar_init (λ _, p_ret (S := unit) (E := errno) tt) 1000 [demo_dmar] tt = (Ok false, tt).
Proof.
  apply (dmar_init_hangs (λ _, p_ret tt) [demo_dmar] 0 demo_dmar 1000 tt).
  - by vm_compute.
  - done.
  - apply Nat.leb_le. by vm_compute.
  - by vm_compute.
  - by vm_compute.
Defined.
