(* ===== verification/AmlSerde.v ===== *)
(** The symbols of the AML namespace as acpid presents them (amlserde/src/lib.rs).

    Names, handles and the namespace belong to the AML library and are parameters; the values
    are the ones the conversion looks at.  [to_symbol_spec] gives the meaning of the two
    loops that shorten a name. *)

From S2P Require Import Prelude.

(** ** Values *)

Inductive RegionSpace : Type :=
| RsSystemMemory | RsSystemIo | RsPciConfig | RsEmbeddedControl | RsSMBus | RsSystemCmos | RsPciBarTarget | RsIPMI
| RsGeneralPurposeIo | RsGenericSerialBus | RsOemDefined (n : Z).

Inductive FieldAccessType : Type := FaAny | FaByte | FaWord | FaDWord | FaQWord | FaBuffer.
Inductive FieldUpdateRule : Type := FuPreserve | FuWriteAsOnes | FuWriteAsZeros.

(** The flags of the library as its accessors show them; [None] is an error. *)
Record FieldFlags := mk_field_flags { ff_access : option FieldAccessType; ff_lock : bool; ff_update : option FieldUpdateRule }.

(** The values of the library, over the type of its names and handles. *)
Inductive AmlValue (N H : Type) : Type :=
| AvBoolean (b : bool)
| AvInteger (n : Z)
| AvString (s : list Z)
| AvOpRegion (region : RegionSpace) (offset length : Z) (parent_device : option N)
| AvField (region : H) (flags : FieldFlags) (offset length : Z)
| AvDevice
| AvMethod (arg_count : Z) (serialize : bool) (sync_level : Z)
| AvBuffer (data : list Z)
| AvBufferField (data : list Z) (offset length : Z)
| AvProcessor (id pblk_address pblk_len : Z)
| AvMutex (sync_level : Z)
| AvPackage (contents : list (AmlValue N H))
| AvPowerResource (system_level resource_order : Z)
| AvThermalZone
| AvExternal.
Arguments AvBoolean {_ _} b.
Arguments AvInteger {_ _} n.
Arguments AvString {_ _} s.
Arguments AvOpRegion {_ _} region offset length parent_device.
Arguments AvField {_ _} region flags offset length.
Arguments AvDevice {_ _}.
Arguments AvMethod {_ _} arg_count serialize sync_level.
Arguments AvBuffer {_ _} data.
Arguments AvBufferField {_ _} data offset length.
Arguments AvProcessor {_ _} id pblk_address pblk_len.
Arguments AvMutex {_ _} sync_level.
Arguments AvPackage {_ _} contents.
Arguments AvPowerResource {_ _} system_level resource_order.
Arguments AvThermalZone {_ _}.
Arguments AvExternal {_ _}.

Record AmlSerdeFieldFlags := mk_serde_flags { sf_access_type : FieldAccessType; sf_lock_rule : bool; sf_update_rule : FieldUpdateRule }.

Inductive AmlSerdeValue : Type :=
| SvBoolean (b : bool)
| SvInteger (n : Z)
| SvString (s : list Z)
| SvOpRegion (region : RegionSpace) (offset length : Z) (parent_device : option (list Z))
| SvField (region : list Z) (flags : AmlSerdeFieldFlags) (offset length : Z)
| SvDevice
| SvMethod (arg_count : Z) (serialize : bool) (sync_level : Z)
| SvBuffer (data : list Z)
| SvBufferField (offset length : Z) (data : list Z)
| SvProcessor (id pblk_address pblk_len : Z)
| SvMutex (sync_level : Z)
| SvPackage (contents : list AmlSerdeValue)
| SvPowerResource (system_level resource_order : Z)
| SvThermalZone
| SvExternal.

Record AmlSerde := mk_serde { se_name : list Z; se_value : AmlSerdeValue }.

(** ** Names *)

Definition BACKSLASH : Z := 92.
Definition DOT : Z := 46.
Definition UNDERSCORE : Z := 95.

Definition to_aml_format (pretty_name : list Z) : list Z := BACKSLASH :: pretty_name.

Fixpoint trim_start (c : Z) (l : list Z) : list Z :=
  match l with x :: l' => if x =? c then trim_start c l' else l | [] => [] end.

(** The first underscore before a dot, removed. *)
Fixpoint remove_first (l : list Z) : option (list Z) :=
  match l with
  | x :: ((y :: _) as l') =>
      if (x =? UNDERSCORE) && (y =? DOT) then Some l' else l'' ← remove_first l'; Some (x :: l'')
  | _ => None
  end.

(** Every removal shortens the name, its length is enough fuel. *)
Fixpoint remove_all (fuel : nat) (l : list Z) : list Z :=
  match fuel with
  | O => l
  | S fuel => match remove_first l with Some l => remove_all fuel l | None => l end
  end.

(** [pop] while the last character is an underscore. *)
Fixpoint pop_all (l : list Z) : list Z :=
  match l with
  | [] => []
  | x :: l => match pop_all l with [] => if x =? UNDERSCORE then [] else [x] | l' => x :: l' end
  end.

Definition to_symbol (aml_style_name : list Z) : list Z :=
  let name := trim_start BACKSLASH aml_style_name in
  pop_all (remove_all (length name) name).

(** ** Conversion *)

Section convert.
Context {N H : Type}.
(** [AmlName::to_string] and the debug text of a handle. *)
Context (name_string : N → list Z) (handle_key : H → list Z).

Definition aml_to_symbol (n : N) : list Z := to_symbol (name_string n).

(** [AmlHandleLookup]. *)
Definition HandleLookup : Type := gmap (list Z) (N * H).

Definition hl_new : HandleLookup := ∅.
Definition hl_insert (h : H) (n : N) (m : HandleLookup) : HandleLookup := <[handle_key h := (n, h)]> m.
Definition hl_get (h : H) (m : HandleLookup) : option (N * H) := m !! handle_key h.

Fixpoint from_aml_value (lookup : HandleLookup) (v : AmlValue N H) : option AmlSerdeValue :=
  match v with
  | AvBoolean b => Some (SvBoolean b)
  | AvInteger n => Some (SvInteger n)
  | AvString s => Some (SvString s)
  | AvOpRegion region offset length parent => Some (SvOpRegion region offset length (name_string <$> parent))
  | AvField region flags offset length =>
      '(region, _) ← hl_get region lookup;
      access ← ff_access flags;
      update ← ff_update flags;
      Some (SvField (name_string region) (mk_serde_flags access (ff_lock flags) update) offset length)
  | AvDevice => Some SvDevice
  | AvMethod arg_count serialize sync_level => Some (SvMethod arg_count serialize sync_level)
  | AvBuffer data => Some (SvBuffer data)
  | AvBufferField data offset length => Some (SvBufferField offset length data)
  | AvProcessor id addr len => Some (SvProcessor id addr len)
  | AvMutex sync_level => Some (SvMutex sync_level)
  | AvPackage contents =>
      Some (SvPackage ((fix go (l : list (AmlValue N H)) : list AmlSerdeValue :=
        match l with
        | [] => []
        | v :: l => match from_aml_value lookup v with Some x => x :: go l | None => go l end
        end) contents))
  | AvPowerResource system_level resource_order => Some (SvPowerResource system_level resource_order)
  | AvThermalZone => Some SvThermalZone
  | AvExternal => Some SvExternal
  end.

(** [AmlSerde::from_aml]; [get] is the namespace. *)
Definition from_aml (get : H → option (AmlValue N H)) (lookup : HandleLookup) (aml_name : N) (h : H) : option AmlSerde :=
  aml_value ← get h;
  value ← from_aml_value lookup aml_value;
  Some (mk_serde (name_string aml_name) value).

End convert.

(** ** Symbols are the segments without trailing underscores *)

(** Segments separated by dots. *)
Fixpoint join (segs : list (list Z)) : list Z :=
  match segs with
  | [] => []
  | [s] => s
  | s :: segs => s ++ DOT :: join segs
  end.

(** Drops every run of underscores that ends before a dot. *)
Fixpoint norm (l : list Z) : list Z :=
  match l with
  | [] => []
  | x :: l => if (x =? UNDERSCORE) && (match norm l with y :: _ => y =? DOT | [] => false end) then norm l else x :: norm l
  end.

Lemma norm_app a b b' : norm b = norm b' → norm (a ++ b) = norm (a ++ b').
Proof. intros E. induction a as [|x a IH]; [done|]. cbn. by rewrite IH. Qed.

Lemma remove_first_cons x y l :
  remove_first (x :: y :: l) =
  if (x =? UNDERSCORE) && (y =? DOT) then Some (y :: l) else l'' ← remove_first (y :: l); Some (x :: l'').
Proof. done. Qed.

Lemma remove_first_spec l l' : remove_first l = Some l' → norm l = norm l' ∧ length l = S (length l').
Proof.
  revert l'. induction l as [|x l IH]; intros l' E; [done|]. destruct l as [|y l]; [done|].
  rewrite remove_first_cons in E. destruct ((x =? UNDERSCORE) && (y =? DOT)) eqn:Exy.
  - injection E as <-. split; [|done]. apply andb_true_iff in Exy as [Ex Ey]. cbn [norm].
    apply Z.eqb_eq in Ex as ->. apply Z.eqb_eq in Ey as ->. done.
  - destruct (remove_first (y :: l)) as [l''|] eqn:E'; [|done]. cbn in E. injection E as <-.
    destruct (IH _ eq_refl) as [H1 H2]. split; [|cbn; cbn in H2; lia]. apply (norm_app [x]), H1.
Qed.

Lemma remove_first_none l : remove_first l = None → norm l = l.
Proof.
  induction l as [|x l IH]; [done|]. intros E. destruct l as [|y l]; [cbn; by rewrite andb_false_r|].
  rewrite remove_first_cons in E. destruct ((x =? UNDERSCORE) && (y =? DOT)) eqn:Exy; [done|].
  destruct (remove_first (y :: l)) as [|] eqn:E'; [done|]. specialize (IH eq_refl). cbn [norm] in *. rewrite IH. by rewrite Exy.
Qed.

Lemma remove_all_spec fuel l : (length l <= fuel)%nat → remove_all fuel l = norm l.
Proof.
  revert l. induction fuel as [|fuel IH]; intros l Hl; cbn [remove_all]; [by destruct l; [|cbn in Hl; lia]|].
  destruct (remove_first l) as [l'|] eqn:E; [|symmetry; by apply remove_first_none].
  destruct (remove_first_spec _ _ E) as [-> H]. apply IH. lia.
Qed.

(** A segment of the namespace. *)
Definition seg_ok (s : list Z) : Prop := Forall (λ c, c ≠ DOT) s.

Lemma norm_no_dot_head l : match norm l with y :: _ => y =? DOT | [] => false end = true →
  ∃ u l', l = u ++ DOT :: l' ∧ Forall (λ c, c = UNDERSCORE) u.
Proof.
  induction l as [|x l IH]; [done|]. cbn [norm]. destruct (x =? UNDERSCORE) eqn:Ex; cbn [andb].
  - apply Z.eqb_eq in Ex as ->. destruct (match norm l with y :: _ => y =? DOT | [] => false end) eqn:E; [|done].
    intros _. destruct (IH eq_refl) as (u & l' & -> & Hu). exists (UNDERSCORE :: u), l'. split; [done|by constructor].
  - intros Ey. apply Z.eqb_eq in Ey as ->. by exists [], l.
Qed.

(** Before a dot, [norm] strips a segment. *)
Lemma norm_seg s rest : seg_ok s → norm (s ++ DOT :: rest) = pop_all s ++ DOT :: norm rest.
Proof.
  induction 1 as [|x s Hx Hs IH]; [done|]. cbn [app norm pop_all]. rewrite IH. destruct (pop_all s) as [|y p] eqn:Ep.
  - cbn [app]. rewrite Z.eqb_refl, andb_true_r. by destruct (x =? UNDERSCORE).
  - cbn [app]. assert (y ≠ DOT) as Hy.
    { assert (Forall (λ c, c ≠ DOT) (pop_all s)) as Hp; [|rewrite Ep in Hp; by inversion Hp].
      clear -Hs. induction Hs as [|a s Ha _ IH]; cbn [pop_all]; [constructor|].
      destruct (pop_all s); [destruct (a =? UNDERSCORE); [constructor|by repeat constructor]|by constructor]. }
    rewrite (proj2 (Z.eqb_neq _ _) Hy), andb_false_r. done.
Qed.

Lemma norm_last s : seg_ok s → norm s = s.
Proof.
  induction 1 as [|x s Hx Hs IH]; [done|]. cbn [norm]. rewrite IH. destruct Hs as [|y s Hy _]; [by rewrite andb_false_r|].
  by rewrite (proj2 (Z.eqb_neq _ _) Hy), andb_false_r.
Qed.

(** The trailing underscores behind the last dot. *)
Lemma pop_all_app a c b : c ≠ UNDERSCORE → pop_all (a ++ c :: b) = a ++ c :: pop_all b.
Proof.
  intros Hc. induction a as [|x a IH]; cbn [app pop_all].
  - rewrite (proj2 (Z.eqb_neq _ _) Hc). by destruct (pop_all b).
  - rewrite IH. by destruct (a ++ c :: pop_all b) eqn:E; [destruct a|].
Qed.

Lemma norm_join segs : Forall seg_ok segs → pop_all (norm (join segs)) = join (pop_all <$> segs).
Proof.
  induction 1 as [|s segs Hs Hr IH]; [done|]. destruct segs as [|s2 segs].
  - cbn [join fmap list_fmap]. by rewrite norm_last.
  - change (join (s :: s2 :: segs)) with (s ++ DOT :: join (s2 :: segs)). rewrite norm_seg by done.
    rewrite pop_all_app by done. by rewrite IH.
Qed.

Lemma trim_start_id c l : (∀ l', l ≠ c :: l') → trim_start c l = l.
Proof. intros Hn. destruct l as [|x l]; [done|]. cbn. destruct (Z.eqb_spec x c) as [->|]; [by destruct (Hn l)|done]. Qed.

(** The symbol of an AML path is the path without its root mark, with the underscores that
    pad a segment on the right removed from every segment, and nothing else changed: the two
    loops of the conversion end and do exactly this. *)
Theorem to_symbol_spec segs :
  Forall seg_ok segs → (∀ l, join segs ≠ BACKSLASH :: l) →
  to_symbol (to_aml_format (join segs)) = join (pop_all <$> segs).
Proof.
  intros Hs Hb. unfold to_symbol, to_aml_format. cbn [trim_start]. rewrite Z.eqb_refl, trim_start_id by done.
  rewrite remove_all_spec by lia. by apply norm_join.
Qed.

Lemma to_symbol_spec_witness :
  to_symbol (string_bytes "\_SB_.PCI0.____.A__B__") = string_bytes "_SB.PCI0..A__B".
Proof.
  apply (to_symbol_spec [string_bytes "_SB_"; string_bytes "PCI0"; string_bytes "____"; string_bytes "A__B__"]).
  - repeat constructor; by vm_compute.
  - done.
Defined.
