(* ===== verification/AcpiScheme.v ===== *)
(** acpid: the context with its tables and symbols (AmlSymbols, AcpiContext, Fadt::init and
    the shutdown of acpid/src/acpi.rs), the pages AML code reaches (acpid/src/aml_physmem.rs)
    and the files of the acpi scheme (acpid/src/scheme.rs).

    The AML interpreter is a library, the class [Aml].  [table_served] follows a table from
    the memory of the firmware to a reader of the scheme. *)

From S2P Require Import Prelude Acpi AmlSerde.

(** ** Pages for AML code *)

(** The mapped pages by physical page. *)
Definition AmlPageCache : Type := gmap Z Z.

(** Memory behind mappings: [pm_map] maps a page read-only, reads and writes go through a
    virtual address. *)
Class PageMap (W : Type) := {
  pm_map : Z → prog W errno Z;
  pm_load : Z → nat → W → list Z;
  pm_store : Z → list Z → W → W;
}.

Definition PAGE_MASK (phys : Z) : Z := phys - phys mod PAGE_SIZE.
Definition OFFSET_MASK (phys : Z) : Z := phys mod PAGE_SIZE.

Section physmem.
Context {W : Type} `{HM : PageMap W}.

Abbreviation mp := (prog (AmlPageCache * W) errno).

Definition get_page (phys_target : Z) : mp Z := λ '(c, w),
  let phys_page := PAGE_MASK phys_target in
  match c !! phys_page with
  | Some virt => (Ok virt, (c, w))
  | None =>
      match pm_map phys_page w with
      | (Ok virt, w) => (Ok virt, (<[phys_page := virt]> c, w))
      | (Err e, w) => (Err e, (c, w))
      | (Panic, w) => (Panic, (c, w))
      end
  end.

(** For a type of [size] bytes; an address that is not aligned panics. *)
Definition sized_index (size phys_target : Z) : mp Z :=
  if phys_target mod size =? 0 then mret (OFFSET_MASK phys_target / size) else panic.

Definition read_from_phys (size phys_target : Z) : mp Z :=
  virt_page ← get_page phys_target;
  index ← sized_index size phys_target;
  gets (λ s, le_val (pm_load (virt_page + index * size) (Z.to_nat size) s.2)).

Definition write_to_phys (size phys_target val : Z) : mp unit :=
  virt_page ← get_page phys_target;
  index ← sized_index size phys_target;
  modify (λ '(c, w), (c, pm_store (virt_page + index * size) (le_bytes (Z.to_nat size) val) w)).

Definition page_cache_clear : mp unit := modify (λ '(_, w), (∅, w)).

(** [read_u8] to [read_u64]: an error reads as 0. *)
Definition handler_read (size address : Z) : mp Z :=
  r ← attempt (read_from_phys size address);
  mret (match r with inr v => v | inl _ => 0 end).

(** [write_u8] to [write_u64]: an error is only logged. *)
Definition handler_write (size address value : Z) : mp unit :=
  _ ← attempt (write_to_phys size address value);
  mret tt.

End physmem.

(** ** AML *)

(** The library: contexts [A], names [N], segments [G] and handles [H].  The interpreter
    reaches memory through the page cache. *)
Class Aml (A N G H : Type) := {
  aml_context_new : A;
  aml_parse_table : list Z → A * AmlPageCache → bool * (A * AmlPageCache);
  aml_levels : A → option (list (N * list (G * H)));
  aml_resolve : G → N → option N;
  aml_get : A → H → option (AmlValue N H);
  aml_get_by_path : list Z → A → option (AmlValue N H);
  aml_name_string : N → list Z;
  aml_handle_key : H → list Z;
}.

Section acpi.
Context {A N G H : Type} `{HA : Aml A N G H}.
(** The text a value is serialised to. *)
Context (ron_string : AmlSerde → option (list Z)).

Record AmlSymbols := mk_symbols { sy_context : A; sy_cache : gmap (list Z) (list Z); sy_pages : AmlPageCache }.

Definition symbols_new : AmlSymbols := mk_symbols aml_context_new ∅ ∅.

(** An error is logged by the caller. *)
Definition parse_aml (aml : list Z) (s : AmlSymbols) : AmlSymbols :=
  let '(_, (ctx, pages)) := aml_parse_table aml (sy_context s, sy_pages s) in mk_symbols ctx (sy_cache s) pages.

Definition sy_lookup (symbol : list Z) (s : AmlSymbols) : option (list Z) := sy_cache s !! symbol.

(** The names of a level; one that does not resolve is skipped. *)
Fixpoint level_symbols (level : N) (values : list (G * H)) : list (N * list Z * H) :=
  match values with
  | [] => []
  | (seg, handle) :: values =>
      match aml_resolve seg level with
      | Some name => (name, aml_to_symbol aml_name_string name, handle) :: level_symbols level values
      | None => level_symbols level values
      end
  end.

Definition symbol_list (levels : list (N * list (G * H))) : list (N * list Z * H) :=
  mjoin ((λ l, level_symbols l.1 l.2) <$> levels).

Fixpoint fill_lookup (l : list (N * list Z * H)) (m : HandleLookup (N := N) (H := H)) : HandleLookup :=
  match l with [] => m | (aml_name, _, handle) :: l => fill_lookup l (hl_insert aml_handle_key handle aml_name m) end.

(** The description of a symbol; empty when it cannot be serialised. *)
Definition description (ctx : A) (lookup : HandleLookup (N := N) (H := H)) (aml_name : N) (handle : H) : list Z :=
  default [] (v ← from_aml aml_name_string aml_handle_key (aml_get ctx) lookup aml_name handle; ron_string v).

Fixpoint fill_cache (ctx : A) (lookup : HandleLookup (N := N) (H := H)) (l : list (N * list Z * H)) (c : gmap (list Z) (list Z))
    : gmap (list Z) (list Z) :=
  match l with
  | [] => c
  | (aml_name, name, handle) :: l => fill_cache ctx lookup l (<[name := description ctx lookup aml_name handle]> c)
  end.

Definition build_cache (s : AmlSymbols) : AmlSymbols :=
  match aml_levels (sy_context s) with
  | None => s
  | Some levels =>
      let l := symbol_list levels in
      mk_symbols (sy_context s) (fill_cache (sy_context s) (fill_lookup l hl_new) l ∅) (sy_pages s)
  end.

(** ** The context *)

Record AcpiContext := mk_acpi {
  ac_tables : list Sdt; ac_dsdt : option Sdt; ac_fadt : option Fadt; ac_symbols : AmlSymbols;
  ac_sdt_order : list (option SdtSignature); ac_next_ctx : Z;
}.

Section init.
Context {W : Type} `{HP : PhysMap W}.

Abbreviation lp := (prog W TablePhysLoadError).

(** [expect]: an error panics. *)
Definition expect {B : Type} (m : lp B) : lp B :=
  r ← attempt m;
  match r with inr x => mret x | inl _ => panic end.

Fixpoint load_tables (addrs : list Z) : lp (list Sdt) :=
  match addrs with
  | [] => mret []
  | a :: addrs =>
      s ← expect (load_from_physical a);
      rest ← load_tables addrs;
      mret (s :: rest)
  end.

(** [Fadt::init]: the FADT, the DSDT it points to and the tables with the DSDT.  The 64-bit
    pointer is read, printed and not used. *)
Definition fadt_init (tables : list Sdt) : lp (option Fadt * option Sdt * list Sdt) :=
  fadt_sdt ← unwrap (take_single_sdt (string_bytes "FACP") tables);
  match fadt_new fadt_sdt with
  | None => mret (None, None, tables)
  | Some fadt =>
      x_dsdt ← unwrap (acpi_2_x_dsdt fadt);
      dsdt ← unwrap (fadt_dsdt fadt);
      r ← attempt (load_from_physical dsdt);
      match r with
      | inl _ => mret (None, None, tables)
      | inr dsdt_sdt => mret (Some fadt, Some dsdt_sdt, tables ++ [dsdt_sdt])
      end
  end.

(** [build_aml_context]: the DSDT, then every SSDT; then the pages are dropped. *)
Definition build_aml_context (dsdt : option Sdt) (tables : list Sdt) (s : AmlSymbols) : AmlSymbols :=
  let s := match dsdt with Some d => parse_aml (sdt_data d) s | None => s end in
  let s := fold_left (λ s t, parse_aml (sdt_data t) s) (find_multiple_sdts (string_bytes "SSDT") tables) s in
  mk_symbols (sy_context s) (sy_cache s) ∅.

Definition acpi_init (addrs : list Z) : lp AcpiContext :=
  tables ← load_tables addrs;
  let order := fold_left (λ o t, new_index (sdt_signature t) o) tables [] in
  '(fadt, dsdt, tables) ← fadt_init tables;
  mret (mk_acpi tables dsdt fadt (build_aml_context dsdt tables symbols_new) order 0).

End init.

(** What the daemon does with the root table the kernel hands it. *)
Definition acpi_start {W : Type} `{HP : PhysMap W} (rxsdt : list Z) : prog W TablePhysLoadError AcpiContext :=
  match sdt_new rxsdt with
  | Ok sdt => addrs ← unwrap (rxsdt_addresses sdt); acpi_init addrs
  | _ => panic
  end.

Definition set_symbols (x : AmlSymbols) (c : AcpiContext) : AcpiContext :=
  mk_acpi (ac_tables c) (ac_dsdt c) (ac_fadt c) x (ac_sdt_order c) (ac_next_ctx c).

(** [aml_symbols]: the cache is built when it is empty. *)
Definition aml_symbols (c : AcpiContext) : AcpiContext :=
  if bool_decide (sy_cache (ac_symbols c) = ∅) then set_symbols (build_cache (ac_symbols c)) c else c.

Definition aml_symbols_reset (c : AcpiContext) : AcpiContext :=
  set_symbols (mk_symbols (sy_context (ac_symbols c)) ∅ (sy_pages (ac_symbols c))) c.

(** [set_global_s_state]: the port and the value written, when it comes to that; it then spins
    for ever.  The outer [None] is a panic. *)
Definition s5_write (state : Z) (c : AcpiContext) : option (option (Z * Z)) :=
  if negb (state =? 5) then Some None
  else
    match ac_fadt c with
    | None => Some None
    | Some fadt =>
        port ← fadt_pm1a_control_block fadt;
        match aml_get_by_path (string_bytes "\_S5") (sy_context (ac_symbols c)) with
        | Some (AvPackage package) =>
            typa ← package !! 0%nat;
            match typa with
            | AvInteger slp_typa =>
                typb ← package !! 1%nat;
                match typb with
                | AvInteger _ => Some (Some (as_u16 port, Z.lor (Z.shiftl 1 13) (as_u16 slp_typa)))
                | _ => Some None
                end
            | _ => Some None
            end
        | _ => Some None
        end
    end.

End acpi.
Arguments AmlSymbols A : clear implicits.
Arguments AcpiContext A : clear implicits.

(** ** The scheme *)

Inductive HandleKind : Type :=
| HkTopLevel | HkTables | HkTable (s : SdtSignature) | HkSymbols | HkSymbol (description : list Z).

Definition is_dir (k : HandleKind) : bool := match k with HkTopLevel | HkTables | HkSymbols => true | _ => false end.

Record AcpiHandle := mk_ah { ah_kind : HandleKind; ah_stat : bool }.

Record AcpiScheme (A : Type) := mk_as { as_ctx : AcpiContext A; as_handles : gmap Z AcpiHandle; as_next_fd : Z }.
Arguments mk_as {_} as_ctx as_handles as_next_fd.
Arguments as_ctx {_} a.
Arguments as_handles {_} a.
Arguments as_next_fd {_} a.

(** A call answers an error, or never answers: the lock of the symbols is taken for writing
    while a handle holds it for reading. *)
Inductive acpi_stop : Type := AcErr (e : errno) | AcHang.

Definition acpi_scheme_new {A : Type} (c : AcpiContext A) : AcpiScheme A := mk_as c ∅ 0.

Definition to_ascii_lowercase (c : Z) : Z := if (65 <=? c) && (c <=? 90) then c + 32 else c.

Definition parse_hex_digit (hex : Z) : option Z :=
  let hex := to_ascii_lowercase hex in
  if (97 <=? hex) && (hex <=? 102) then Some (hex - 97 + 10)
  else if (48 <=? hex) && (hex <=? 57) then Some (hex - 48)
  else None.

Definition parse_hex_2digit (a b : Z) : option Z :=
  m ← parse_hex_digit a; l ← parse_hex_digit b; Some (Z.lor (as_u8 (Z.shiftl m 4)) l).

(** [parse_oem_id] and [parse_oem_table_id]. *)
Fixpoint parse_hex_bytes (hex : list Z) : option (list Z) :=
  match hex with
  | a :: b :: hex => x ← parse_hex_2digit a b; rest ← parse_hex_bytes hex; Some (x :: rest)
  | _ => Some []
  end.

(** The lengths are checked by [get]. *)
Definition parse_table (table : list Z) : option SdtSignature :=
  if (length table <? 34)%nat then None
  else if negb (default 0 (table !! 4%nat) =? 45) then None
  else if negb (default 0 (table !! 17%nat) =? 45) then None
  else if (34 <? length table)%nat then None
  else
    oem_id ← parse_hex_bytes (slice 5 12 table);
    oem_table_id ← parse_hex_bytes (slice 18 16 table);
    Some (mk_sig (take 4 table) oem_id oem_table_id).

(** [split('/')]. *)
Fixpoint split_slash (l : list Z) : list (list Z) :=
  match l with
  | [] => [[]]
  | c :: l =>
      if c =? 47 then [] :: split_slash l
      else match split_slash l with s :: r => (c :: s) :: r | [] => [[c]] end
  end.

(** The name of a table in the directory: hexadecimal with capital letters. *)
Definition table_hex_digit (x : Z) : Z := if x <? 10 then x + 48 else x + 55.
Definition hex_byte (x : Z) : list Z := [table_hex_digit (x / 16); table_hex_digit (x mod 16)].
Definition table_name (s : SdtSignature) : list Z :=
  sg_signature s ++ [45] ++ mjoin (hex_byte <$> sg_oem_id s) ++ [45] ++ mjoin (hex_byte <$> sg_oem_table_id s).

(** A buffer for directory entries, which are names with the position of the next one. *)
Class DirBuf (B : Type) := db_entry : list Z → Z → bool → B → res errno B.

Section scheme.
Context {A N G H : Type} `{HA : Aml A N G H}.
Context (ron_string : AmlSerde → option (list Z)) (is_utf8 : list Z → bool).
(** The flags of the system. *)
Context (O_STAT O_DIRECTORY O_ACCMODE O_RDONLY O_SYMLINK : Z).

Abbreviation sp := (prog (AcpiScheme A) acpi_stop).

Definition err {X : Type} (e : errno) : sp X := throw (AcErr e).

(** The symbols are read under the lock of the handles that are open. *)
Definition lock_symbols : sp unit := λ s,
  if bool_decide (sy_cache (ac_symbols (as_ctx s)) = ∅) && existsb (λ kv, match ah_kind kv.2 with HkSymbols => true | _ => false end) (map_to_list (as_handles s))
  then (Err AcHang, s)
  else (Ok tt, mk_as (aml_symbols ron_string (as_ctx s)) (as_handles s) (as_next_fd s)).

Definition open_kind (components : list (list Z)) : sp HandleKind :=
  match components with
  | [[]] => mret HkTopLevel
  | [c] =>
      if bool_decide (c = string_bytes "tables") then mret HkTables
      else if bool_decide (c = string_bytes "symbols") then _ ← lock_symbols; mret HkSymbols
      else err ENOENT
  | [c; x] =>
      if bool_decide (c = string_bytes "tables") then sig ← ok_or (parse_table x) (AcErr ENOENT); mret (HkTable sig)
      else if bool_decide (c = string_bytes "symbols") then
        _ ← lock_symbols;
        d ← gets (λ s, sy_lookup x (ac_symbols (as_ctx s)));
        d ← ok_or d (AcErr ENOENT);
        mret (HkSymbol d)
      else err ENOENT
  | _ => err ENOENT
  end.

Definition has (flags bit : Z) : bool := Z.land flags bit =? bit.

Definition acpi_xopen (path : list Z) (flags : Z) : sp Z :=
  let path := trim_start 47 path in
  let flag_stat := has flags O_STAT in
  let flag_dir := has flags O_DIRECTORY in
  kind ← open_kind (take 3 (split_slash path));
  if is_dir kind && negb flag_dir && negb flag_stat then err EISDIR
  else if negb (is_dir kind) && flag_dir && negb flag_stat then err ENOTDIR
  else if negb (Z.land flags O_ACCMODE =? O_RDONLY) && negb flag_stat then err EINVAL
  else if has flags O_SYMLINK && negb flag_stat then err EINVAL
  else
    fd ← gets as_next_fd;
    _ ← modify (λ s, mk_as (as_ctx s) (<[fd := mk_ah kind flag_stat]> (as_handles s)) (as_usize (fd + 1)));
    mret fd.

Definition get_acpi_handle (id : Z) (e : errno) : sp AcpiHandle := h ← gets (λ s, as_handles s !! id); ok_or h (AcErr e).

Definition kind_bytes (k : HandleKind) (other : errno) : sp (list Z) :=
  match k with
  | HkTable sig =>
      t ← gets (λ s, sdt_from_signature sig (ac_tables (as_ctx s)));
      t ← ok_or t (AcErr EBADFD);
      mret (sdt_bytes t)
  | HkSymbol d => mret d
  | _ => err other
  end.

(** [HandleKind::len]. *)
Definition kind_len (k : HandleKind) : sp Z :=
  match k with
  | HkTable sig =>
      t ← gets (λ s, sdt_from_signature sig (ac_tables (as_ctx s)));
      t ← ok_or t (AcErr EBADFD);
      mret (sh_length (sdt_hdr t))
  | HkSymbol d => mret (Z.of_nat (length d))
  | _ => mret 0
  end.

(** The size, and whether it is a directory. *)
Definition acpi_fstat (id : Z) : sp (Z * bool) :=
  h ← get_acpi_handle id EBADF;
  n ← kind_len (ah_kind h);
  mret (n, is_dir (ah_kind h)).

(** The buffer after the read and the count. *)
Definition acpi_read (id : Z) (buf : list Z) (offset : Z) : sp (Z * list Z) :=
  h ← get_acpi_handle id EBADF;
  if ah_stat h then err EBADF
  else
    src ← kind_bytes (ah_kind h) EINVAL;
    let src := drop (Nat.min (length src) (Z.to_nat offset)) src in
    let to_copy := Nat.min (length src) (length buf) in
    mret (Z.of_nat to_copy, splice 0 (take to_copy src) buf).

Section dents.
Context {B : Type} `{HB : DirBuf B}.

(** The entries from a position on; an error ends the call. *)
Fixpoint put_entries (dir : bool) (idx skip : Z) (names : list (list Z)) (buf : B) : sp B :=
  match names with
  | [] => mret buf
  | name :: names =>
      if idx <? skip then put_entries dir (idx + 1) skip names buf
      else
        match db_entry name (idx + 1) dir buf with
        | Ok buf => put_entries dir (idx + 1) skip names buf
        | Err e => err e
        | Panic => panic
        end
  end.

(** The tables: a signature that is not text ends the call. *)
Fixpoint put_tables (idx skip : Z) (tables : list Sdt) (buf : B) : sp B :=
  match tables with
  | [] => mret buf
  | t :: tables =>
      if idx <? skip then put_tables (idx + 1) skip tables buf
      else if negb (is_utf8 (sh_signature (sdt_hdr t))) then err EIO
      else
        match db_entry (table_name (sdt_signature t)) (idx + 1) false buf with
        | Ok buf => put_tables (idx + 1) skip tables buf
        | Err e => err e
        | Panic => panic
        end
  end.

(** The symbols in the order of the map. *)
Definition acpi_getdents (id : Z) (buf : B) (opaque_offset : Z) : sp B :=
  h ← get_acpi_handle id EOPNOTSUPP;
  match ah_kind h with
  | HkTopLevel => put_entries true 0 opaque_offset [string_bytes "tables"; string_bytes "symbols"] buf
  | HkSymbols => names ← gets (λ s, fst <$> map_to_list (sy_cache (ac_symbols (as_ctx s)))); put_entries false 0 opaque_offset names buf
  | HkTables => tables ← gets (λ s, ac_tables (as_ctx s)); put_tables 0 opaque_offset tables buf
  | _ => err EIO
  end.

End dents.

Definition acpi_write (id : Z) (buf : list Z) (offset : Z) : sp Z := err EBADF.

Definition acpi_close (id : Z) : sp Z :=
  h ← gets (λ s, as_handles s !! id);
  match h with
  | None => err EBADF
  | Some _ => _ ← modify (λ s, mk_as (as_ctx s) (delete id (as_handles s)) (as_next_fd s)); mret 0
  end.

End scheme.

(** ** Names of tables *)

Lemma parse_hex_digit_print x : 0 <= x < 16 → parse_hex_digit (table_hex_digit x) = Some x.
Proof.
  intros Hx. assert (x ∈ [0;1;2;3;4;5;6;7;8;9;10;11;12;13;14;15]) as Hin by (rewrite !elem_of_cons, elem_of_nil; lia).
  repeat (apply elem_of_cons in Hin as [->|Hin]; [done|]). by apply elem_of_nil in Hin.
Qed.

Lemma parse_hex_byte x : is_byte x → parse_hex_2digit (table_hex_digit (x / 16)) (table_hex_digit (x mod 16)) = Some x.
Proof.
  unfold is_byte. intros Hx. unfold parse_hex_2digit. rewrite !parse_hex_digit_print by zdiv. cbn [mbind option_bind]. f_equal.
  assert (as_u8 (Z.shiftl (x / 16) 4) = Z.shiftl (x / 16) 4) as ->.
  { apply as_u_id. unfold u_range. rewrite Z.shiftl_mul_pow2 by lia. change (2 ^ 4) with 16. change (2 ^ 8) with 256. zdiv. }
  rewrite lor_shiftl_add by (unfold u_range; change (2 ^ 4) with 16; zdiv). change (2 ^ 4) with 16. zdiv.
Qed.

Lemma hex_cons x l : mjoin (hex_byte <$> x :: l) = table_hex_digit (x / 16) :: table_hex_digit (x mod 16) :: mjoin (hex_byte <$> l).
Proof. done. Qed.

Lemma parse_hex_bytes_print l : Forall is_byte l → parse_hex_bytes (mjoin (hex_byte <$> l)) = Some l.
Proof.
  induction 1 as [|x l Hx _ IH]; [done|]. rewrite hex_cons. cbn [parse_hex_bytes].
  rewrite parse_hex_byte by done. cbn [mbind option_bind]. by rewrite IH.
Qed.

Lemma length_hex l : length (mjoin (hex_byte <$> l)) = (2 * length l)%nat.
Proof. induction l as [|x l IH]; [done|]. rewrite hex_cons. cbn [length]. lia. Qed.

Record sig_ok (s : SdtSignature) : Prop := {
  so_sig : length (sg_signature s) = 4%nat;
  so_oem : length (sg_oem_id s) = 6%nat;
  so_table : length (sg_oem_table_id s) = 8%nat;
  so_oem_bytes : Forall is_byte (sg_oem_id s);
  so_table_bytes : Forall is_byte (sg_oem_table_id s);
}.

Lemma parse_table_name s : sig_ok s → parse_table (table_name s) = Some s.
Proof.
  intros [H1 H2 H3 H4 H5]. unfold parse_table, table_name. set (o := mjoin _). set (t := mjoin (hex_byte <$> sg_oem_table_id s)).
  assert (length o = 12%nat) as Lo by (unfold o; rewrite length_hex; lia). assert (length t = 16%nat) as Lt by (unfold t; rewrite length_hex; lia).
  rewrite !length_app. cbn [length]. rewrite H1, Lo, Lt. cbn [Nat.add Nat.ltb Nat.leb].
  rewrite lookup_app_r by lia. rewrite H1. change (4 - 4)%nat with 0%nat. cbn [app lookup list_lookup default]. rewrite Z.eqb_refl. cbn [negb].
  rewrite lookup_app_r by lia. rewrite H1. change (17 - 4)%nat with 13%nat. change ((45 :: o ++ 45 :: t) !! 13%nat) with ((o ++ 45 :: t) !! 12%nat).
  rewrite lookup_app_r by lia. rewrite Lo. cbn [Nat.sub lookup list_lookup default]. rewrite Z.eqb_refl. cbn [negb].
  assert (slice 5 12 (sg_signature s ++ 45 :: o ++ 45 :: t) = o) as ->.
  { unfold slice. rewrite drop_app_ge by lia. rewrite H1. cbn [Nat.sub drop]. by apply take_app_length'. }
  assert (slice 18 16 (sg_signature s ++ 45 :: o ++ 45 :: t) = t) as ->.
  { unfold slice. rewrite drop_app_ge by lia. rewrite H1. cbn [Nat.sub]. rewrite skipn_cons. rewrite drop_app_ge by lia. rewrite Lo. cbn [Nat.sub drop].
    apply take_ge. lia. }
  unfold o, t. rewrite !parse_hex_bytes_print by done. cbn [mbind option_bind]. rewrite take_app_length' by done. by destruct s.
Qed.

Lemma split_slash_none l : Forall (λ c, c ≠ 47) l → split_slash l = [l].
Proof. induction 1 as [|c l Hc _ IH]; [done|]. cbn [split_slash]. rewrite (proj2 (Z.eqb_neq _ _) Hc). by rewrite IH. Qed.

Lemma split_slash_app a l : Forall (λ c, c ≠ 47) a → split_slash (a ++ 47 :: l) = a :: split_slash l.
Proof. induction 1 as [|c a Hc _ IH]; [done|]. cbn [app split_slash]. rewrite (proj2 (Z.eqb_neq _ _) Hc). by rewrite IH. Qed.

Lemma hex_no_slash l : Forall is_byte l → Forall (λ c, c ≠ 47) (mjoin (hex_byte <$> l)).
Proof.
  induction 1 as [|x l Hx _ IH]; [constructor|]. rewrite hex_cons. unfold is_byte in Hx.
  repeat constructor; [| |exact IH]; unfold table_hex_digit; case_match; rewrite ?Z.ltb_lt, ?Z.ltb_ge in *; zdiv.
Qed.

(** The path of a table. *)
Definition table_path (s : SdtSignature) : list Z := string_bytes "tables/" ++ table_name s.

Lemma split_table_path s :
  sig_ok s → Forall (λ c, c ≠ 47) (sg_signature s) →
  take 3 (split_slash (trim_start 47 (table_path s))) = [string_bytes "tables"; table_name s].
Proof.
  intros Hs Hn. unfold table_path. change (string_bytes "tables/") with (string_bytes "tables" ++ [47]). rewrite <- app_assoc.
  rewrite trim_start_id by done. cbn [app]. rewrite (split_slash_app (string_bytes "tables")) by (repeat constructor; by vm_compute).
  rewrite split_slash_none; [done|]. unfold table_name. apply Forall_app; split; [done|]. repeat constructor; [done|].
  apply Forall_app; split; [apply hex_no_slash, Hs|]. repeat constructor; [done|]. apply hex_no_slash, Hs.
Qed.

(** ** From memory to a reader *)

(** The bytes of the table at an address, as many as its header says. *)
Definition mem_table (mem : Z → Z) (a : Z) : list Z := mem_bytes mem a (Z.to_nat (le_val (mem_bytes mem (a + 4) 4))).

Lemma sdt_new_ok b s : sdt_new b = Ok s → s = mk_sdt b ∧ (36 <= length b)%nat.
Proof.
  unfold sdt_new, sdt_header, SDT_HEADER_SIZE. destruct (Nat.ltb_spec (length b) 36); [done|].
  destruct (negb _); [done|]. destruct (negb _); [done|]. by intros [= <-].
Qed.

Lemma sdt_signature_ok b : (36 <= length b)%nat → Forall is_byte b → sig_ok (sdt_signature (mk_sdt b)).
Proof.
  intros Hb Hf. unfold sdt_signature, sdt_hdr, sdt_header, SDT_HEADER_SIZE. cbn [sdt_bytes]. rewrite (proj2 (Nat.ltb_ge _ _)) by done.
  split; cbn -[slice]; [rewrite length_slice; lia..| |]; by apply Forall_take, Forall_drop.
Qed.

Section tables.
Context {A N G H : Type} `{HA : Aml A N G H} {W : Type} `{HL : PhysLaws W}.

Abbreviation table a := (mem_table pl_mem a).
Abbreviation sdt_at a := (mk_sdt (table a)).

Lemma load_tables_spec addrs w :
  (∀ a, a ∈ addrs → 0 <= a ∧ sdt_new (table a) = Ok (sdt_at a)) →
  load_tables addrs w = (Ok ((λ a, sdt_at a) <$> addrs), w).
Proof.
  induction addrs as [|a addrs IH]; intros Ha; [done|]. cbn [load_tables].
  destruct (Ha a) as [H0 Hv]; [set_solver|].
  assert (expect (load_from_physical a) w = (Ok (sdt_at a), w)) as E.
  { unfold expect, attempt, mbind, prog_bind, p_bind. rewrite load_from_physical_eq by done. fold (table a). by rewrite Hv. }
  unfold mbind, prog_bind. rewrite (bind_Ok _ _ _ _ _ E). rewrite (bind_Ok _ _ _ _ _ (IH ltac:(set_solver))). done.
Qed.

(** The tables stay in front, the DSDT may be added behind them. *)
Lemma fadt_init_spec tables t w :
  take_single_sdt (string_bytes "FACP") tables = Some t → Forall is_byte (sdt_bytes t) → (FADT_SIZE <= length (sdt_bytes t))%nat →
  ∃ f d more, fadt_init tables w = (Ok (f, d, tables ++ more), w).
Proof.
  intros Ht Hby Hl. unfold fadt_init. rewrite Ht. unfold mbind, prog_bind. cbn [unwrap]. erewrite bind_Ok by reflexivity.
  destruct (fadt_new t) as [fadt|] eqn:Ef; [|exists None, None, []; by rewrite app_nil_r].
  assert (fadt_sdt fadt = t) as Et by (unfold fadt_new in Ef; destruct (_ || _); [done|]; by injection Ef as <-).
  unfold acpi_2_x_dsdt, fadt_dsdt, fadt_field. rewrite Et. rewrite (proj2 (Nat.ltb_ge _ _)) by done. cbn [unwrap].
  do 2 (erewrite bind_Ok by reflexivity). unfold attempt, p_bind. rewrite load_from_physical_eq.
  - destruct (sdt_new _) as [d|e|] eqn:Ed; [|exists None, None, []; by rewrite app_nil_r|]; [by eexists _, _, _|].
    by unfold sdt_new in Ed; destruct (sdt_header _); [destruct (negb _); [|destruct (negb _)]|].
  - assert (u_range (8 * Z.of_nat (length (slice 40 4 (sdt_bytes t)))) (le_val (slice 40 4 (sdt_bytes t)))) as Hr; [|apply Hr].
    apply le_val_range. by apply Forall_take, Forall_drop.
Qed.

(** The first table of a signature. *)
Lemma sdt_from_signature_first tables i t :
  tables !! i = Some t → (∀ j t', (j < i)%nat → tables !! j = Some t' → sdt_signature t' ≠ sdt_signature t) →
  sdt_from_signature (sdt_signature t) tables = Some t.
Proof.
  intros Hi Hf. unfold sdt_from_signature. assert (list_find (λ s, sdt_signature s = sdt_signature t) tables = Some (i, t)) as ->; [|done].
  apply list_find_Some. split_and!; [done|done|]. intros j t' Ht' Hj. by eapply Hf.
Qed.

Lemma take_single_spec sig tables :
  Exists (λ s, has_signature sig s = true) tables → ∃ t, take_single_sdt sig tables = Some t ∧ t ∈ tables ∧ has_signature sig t = true.
Proof.
  intros Hex. unfold take_single_sdt, find_single_sdt_pos.
  destruct (list_find (λ s, has_signature sig s = true) tables) as [[i t]|] eqn:E.
  - apply list_find_Some in E as (E & Ht & _). exists t. cbn. split; [done|]. split; [|done]. by eapply list_elem_of_lookup_2.
  - apply list_find_None in E. rewrite Exists_exists in Hex. destruct Hex as (x & Hin & Hx). rewrite Forall_forall in E. by destruct (E x Hin).
Qed.

End tables.

Section served.
Context {A N G H : Type} `{HA : Aml A N G H} {W : Type} `{HL : PhysLaws W}.
Context (ron_string : AmlSerde → option (list Z)) (O_STAT O_DIRECTORY O_ACCMODE O_RDONLY O_SYMLINK : Z).

Abbreviation xopen := (acpi_xopen ron_string O_STAT O_DIRECTORY O_ACCMODE O_RDONLY O_SYMLINK).

(** The flags of a plain open for reading. *)
Definition plain_open (flags : Z) : Prop :=
  has flags O_STAT = false ∧ has flags O_DIRECTORY = false ∧ Z.land flags O_ACCMODE = O_RDONLY ∧ has flags O_SYMLINK = false.

Lemma xopen_table sig flags (s : AcpiScheme A) :
  sig_ok sig → Forall (λ c, c ≠ 47) (sg_signature sig) → plain_open flags →
  xopen (table_path sig) flags s =
    (Ok (as_next_fd s), mk_as (as_ctx s) (<[as_next_fd s := mk_ah (HkTable sig) false]> (as_handles s)) (as_usize (as_next_fd s + 1))).
Proof.
  intros Hs Hn (F1 & F2 & F3 & F4). unfold acpi_xopen. rewrite split_table_path by done. rewrite F1, F2, F4.
  assert (open_kind ron_string [string_bytes "tables"; table_name sig] s = (Ok (HkTable sig), s)) as E.
  { unfold open_kind. rewrite bool_decide_true by done. by rewrite parse_table_name. }
  unfold mbind, prog_bind. rewrite (bind_Ok _ _ _ _ _ E). rewrite F3, Z.eqb_refl. done.
Qed.

Lemma read_table fd sig t buf off (s : AcpiScheme A) :
  as_handles s !! fd = Some (mk_ah (HkTable sig) false) → sdt_from_signature sig (ac_tables (as_ctx s)) = Some t → 0 <= off →
  let n := Nat.min (length (sdt_bytes t) - Z.to_nat off) (length buf) in
  acpi_read fd buf off s = (Ok (Z.of_nat n, splice 0 (slice (Z.to_nat off) n (sdt_bytes t)) buf), s).
Proof.
  intros Hh Ht Ho n. unfold acpi_read, get_acpi_handle, kind_bytes, mbind, prog_bind, p_bind, gets. rewrite Hh. cbn [ok_or ah_stat ah_kind p_ret mret prog_ret].
  unfold p_ret. rewrite Ht. cbn [ok_or]. unfold p_ret. cbv beta iota zeta delta [mret prog_ret p_ret]. do 2 f_equal.
  destruct (Nat.le_gt_cases (Z.to_nat off) (length (sdt_bytes t))) as [Hle|Hgt].
  - rewrite (Nat.min_r (length (sdt_bytes t)) (Z.to_nat off)) by done. unfold slice. rewrite length_drop. done.
  - rewrite (Nat.min_l (length (sdt_bytes t)) (Z.to_nat off)) by lia. rewrite drop_all. assert (n = 0%nat) as -> by lia. done.
Qed.

End served.

(** C23. The tables that the root table lists are served as the firmware left them: the start
    of acpid returns when every listed table is valid and one is a FADT of full length (a
    DSDT that cannot be loaded is only reported), and from then on, whatever was opened
    before, opening the name under which a table is listed and reading from it returns exactly
    the bytes in memory, at any offset; of tables with one name the first is read. *)
Theorem table_served {A N G H W : Type} `{HA : Aml A N G H} `{HL : PhysLaws W} ron_string O_STAT O_DIRECTORY O_ACCMODE O_RDONLY O_SYMLINK addrs w :
  (∀ a, a ∈ addrs → 0 <= a ∧ is_Some (match sdt_new (mem_table pl_mem a) with Ok s => Some s | _ => None end)) →
  (∃ a, a ∈ addrs ∧ slice 0 4 (mem_table pl_mem a) = string_bytes "FACP") →
  (∀ a, a ∈ addrs → slice 0 4 (mem_table pl_mem a) = string_bytes "FACP" → (FADT_SIZE <= length (mem_table pl_mem a))%nat) →
  ∃ ctx, acpi_init addrs w = (Ok ctx, w) ∧
    ∀ i a sig flags (s : AcpiScheme A) buf off,
      addrs !! i = Some a → sig = sdt_signature (mk_sdt (mem_table pl_mem a)) →
      (∀ j a', (j < i)%nat → addrs !! j = Some a' → sdt_signature (mk_sdt (mem_table pl_mem a')) ≠ sig) →
      Forall (λ c, c ≠ 47) (sg_signature sig) → as_ctx s = ctx → 0 <= off →
      plain_open O_STAT O_DIRECTORY O_ACCMODE O_RDONLY O_SYMLINK flags →
      let n := Nat.min (length (mem_table pl_mem a) - Z.to_nat off) (length buf) in
      ∃ s', acpi_xopen ron_string O_STAT O_DIRECTORY O_ACCMODE O_RDONLY O_SYMLINK (table_path sig) flags s = (Ok (as_next_fd s), s') ∧
        acpi_read (as_next_fd s) buf off s' = (Ok (Z.of_nat n, splice 0 (slice (Z.to_nat off) n (mem_table pl_mem a)) buf), s').
Proof.
  intros Hv (af & Haf & Hsf) Hlf.
  assert (∀ a, Forall is_byte (mem_table pl_mem a)) as Hby by (intros a; apply Forall_fmap, Forall_forall; intros i _; apply pl_byte).
  assert (∀ a, a ∈ addrs → 0 <= a ∧ sdt_new (mem_table pl_mem a) = Ok (mk_sdt (mem_table pl_mem a)) ∧ (36 <= length (mem_table pl_mem a))%nat) as Hv'.
  { intros a Ha. destruct (Hv a Ha) as [H0 [s Hs]]. destruct (sdt_new (mem_table pl_mem a)) as [x| |] eqn:E; try done.
    destruct (sdt_new_ok _ _ E) as [-> ?]. done. }
  assert (∀ a, a ∈ addrs → sh_signature (sdt_hdr (mk_sdt (mem_table pl_mem a))) = slice 0 4 (mem_table pl_mem a)) as Hsig.
  { intros a Ha. destruct (Hv' a Ha) as (_ & _ & Hl). unfold sdt_hdr, sdt_header, SDT_HEADER_SIZE. cbn [sdt_bytes]. by rewrite (proj2 (Nat.ltb_ge _ _)). }
  set (tables := (λ a, mk_sdt (mem_table pl_mem a)) <$> addrs).
  destruct (take_single_spec (string_bytes "FACP") tables) as (t & Ht & Hin & Hts).
  { apply Exists_exists. exists (mk_sdt (mem_table pl_mem af)). split; [apply list_elem_of_fmap; by exists af|].
    unfold has_signature. rewrite Hsig by done. by apply bool_decide_true. }
  apply list_elem_of_fmap in Hin as (at_ & -> & Hat). unfold has_signature in Hts. rewrite Hsig in Hts by done. apply bool_decide_eq_true in Hts.
  destruct (fadt_init_spec tables _ w Ht (Hby at_) (Hlf at_ Hat Hts)) as (f & d & more & Ef).
  eexists. split.
  - unfold acpi_init, mbind, prog_bind. erewrite bind_Ok by (apply load_tables_spec; intros a Ha; split; by apply Hv').
    erewrite bind_Ok by exact Ef. reflexivity.
  - intros i a sig flags s buf off Hi Hsg Hfirst Hsl Hctx Ho Hfl n. assert (a ∈ addrs) as Hin by (by eapply list_elem_of_lookup_2).
    assert (sig_ok sig) as Hok by (subst sig; apply sdt_signature_ok; [by apply Hv'|apply Hby]).
    eexists. split; [by apply xopen_table|]. apply (read_table _ sig (mk_sdt (mem_table pl_mem a))); [apply lookup_insert_eq| |done].
    cbn [as_ctx]. rewrite Hctx. cbn [ac_tables]. subst sig. apply (sdt_from_signature_first _ i).
    + apply lookup_app_l_Some. unfold tables. by rewrite list_lookup_fmap, Hi.
    + intros j t' Hj Ht'. apply lookup_lt_Some in Hi. assert (length tables = length addrs) as Hlt by apply length_fmap.
      rewrite lookup_app_l in Ht' by lia. unfold tables in Ht'. rewrite list_lookup_fmap in Ht'.
      destruct (addrs !! j) as [a'|] eqn:Ea'; [|done]. cbn in Ht'. injection Ht' as <-. by eapply Hfirst.
Qed.

(** ** A toy machine *)

(** A FADT that points nowhere and a second table behind it, across a page boundary. *)
Definition demo_facp : list Z :=
  string_bytes "FACP" ++ le_bytes 4 116 ++ [1; 5] ++ string_bytes "DEMO01" ++ string_bytes "DEMO0001" ++ replicate 92 0.
Definition demo_ssdt : list Z :=
  string_bytes "SSDT" ++ le_bytes 4 40 ++ [2; 33] ++ string_bytes "DEMO01" ++ string_bytes "DEMO0002" ++ replicate 12 0 ++ [1; 2; 3; 4].
Definition demo_ssdt_addr : Z := 0x1FF0.

Definition demo_mem (a : Z) : Z :=
  if (0x1000 <=? a) && (a <? 0x1074) then default 0 (demo_facp !! Z.to_nat (a - 0x1000))
  else if (demo_ssdt_addr <=? a) && (a <? demo_ssdt_addr + 40) then default 0 (demo_ssdt !! Z.to_nat (a - demo_ssdt_addr))
  else 0.

#[export] Instance demo_physmap : PhysMap unit := λ page n w, (Ok (mem_bytes demo_mem page (Z.to_nat (n * PAGE_SIZE))), w).

Lemma demo_bytes l i : Forall is_byte l → is_byte (default 0 (l !! i)).
Proof. intros Hl. destruct (l !! i) as [x|] eqn:E; [|done]. by eapply Forall_lookup_1. Qed.

#[export] Instance demo_phys_laws : PhysLaws unit.
Proof.
  refine {| pl_mem := demo_mem |}; [|done]. intros a. unfold demo_mem.
  destruct (_ && _); [|destruct (_ && _)]; [apply demo_bytes..|done]; by repeat constructor.
Defined.

(** An interpreter with an empty namespace. *)
#[export] Instance demo_aml : Aml unit unit unit unit := {|
  aml_context_new := tt; aml_parse_table _ s := (true, s); aml_levels _ := Some []; aml_resolve _ _ := None;
  aml_get _ _ := None; aml_get_by_path _ _ := None; aml_name_string _ := []; aml_handle_key _ := [];
|}.

Lemma table_served_witness :
  ∃ ctx, acpi_init (A := unit) (W := unit) [0x1000; demo_ssdt_addr] tt = (Ok ctx, tt) ∧
    ∀ s : AcpiScheme unit, as_ctx s = ctx →
    ∃ s', acpi_xopen (λ _, None) 8 16 3 0 32 (table_path (sdt_signature (mk_sdt demo_ssdt))) 0 s = (Ok (as_next_fd s), s') ∧
      acpi_read (as_next_fd s) (replicate 3 0) 36 s' = (Ok (3, [1; 2; 3]), s').
Proof.
  destruct (table_served (A := unit) (N := unit) (G := unit) (H := unit) (W := unit) (λ _, None) 8 16 3 0 32 [0x1000; demo_ssdt_addr] tt) as (ctx & E & Hs).
  - intros a Ha. rewrite !elem_of_cons, elem_of_nil in Ha. destruct Ha as [-> | [-> | []]]; split; [done| |done|]; eexists; by vm_compute.
  - exists 0x1000. split; [by left|by vm_compute].
  - intros a Ha Hf. rewrite !elem_of_cons, elem_of_nil in Ha. destruct Ha as [-> | [-> | []]]; [apply Nat.leb_le; by vm_compute|exfalso; by vm_compute in Hf].
  - exists ctx. split; [exact E|]. intros s Hctx.
    assert (mem_table pl_mem demo_ssdt_addr = demo_ssdt) as Em by (by vm_compute).
    specialize (Hs 1%nat demo_ssdt_addr (sdt_signature (mk_sdt demo_ssdt)) 0 s (replicate 3 0) 36 eq_refl). rewrite Em in Hs.
    apply Hs; clear Hs.
    + reflexivity.
    + intros j a' Hj Ha'. destruct j; [|lia]. injection Ha' as <-. by vm_compute.
    + by repeat constructor.
    + exact Hctx.
    + lia.
    + clear E Hctx. by vm_compute.
Defined.

(** ** The page cache is transparent *)

(** A mapped page shows the memory behind it, and mapping one leaves the others. *)
Class PageLaws (W : Type) `{HM : PageMap W} := {
  pg_mem : W → Z → Z;
  pg_shows : W → Z → Z → Prop;
  pg_load virt page off n w : pg_shows w virt page → 0 <= off → off + Z.of_nat n <= PAGE_SIZE →
    pm_load (virt + off) n w = mem_bytes (pg_mem w) (page + off) n;
  pg_map page w : page mod PAGE_SIZE = 0 → ∃ virt w', pm_map page w = (Ok virt, w') ∧ pg_shows w' virt page ∧ pg_mem w' = pg_mem w ∧
    ∀ v p, pg_shows w v p → pg_shows w' v p;
}.

Section cache.
Context {W : Type} `{HL : PageLaws W}.

Definition cache_ok (s : AmlPageCache * W) : Prop := ∀ page virt, s.1 !! page = Some virt → pg_shows s.2 virt page.

Lemma get_page_spec a s :
  cache_ok s → ∃ virt s', get_page a s = (Ok virt, s') ∧ cache_ok s' ∧ pg_shows s'.2 virt (PAGE_MASK a) ∧ pg_mem s'.2 = pg_mem s.2.
Proof.
  destruct s as [c w]. intros Hc. unfold get_page. destruct (c !! PAGE_MASK a) as [virt|] eqn:E.
  - exists virt, (c, w). split_and!; [done|done|by apply Hc|done].
  - destruct (pg_map (PAGE_MASK a) w) as (virt & w' & -> & Hs & Hm & Hk); [unfold PAGE_MASK, PAGE_SIZE; zdiv|].
    exists virt, (<[PAGE_MASK a := virt]> c, w'). split_and!; [done| |done|done].
    intros page v Hv. cbn [fst snd] in *. apply lookup_insert_Some in Hv as [[<- <-]|[_ Hv]]; [done|]. by apply Hk, (Hc page v).
Qed.

(** AML code that reads an aligned address sees memory, cached or not. *)
Lemma handler_read_spec size a s :
  cache_ok s → 0 <= a → a mod size = 0 → size ∈ [1; 2; 4; 8] →
  ∃ s', handler_read size a s = (Ok (le_val (mem_bytes (pg_mem s.2) a (Z.to_nat size))), s') ∧ cache_ok s' ∧ pg_mem s'.2 = pg_mem s.2.
Proof.
  intros Hc Ha Hal Hsz. destruct (get_page_spec a s Hc) as (virt & s' & E & Hc' & Hs & Hm). exists s'. split; [|done].
  unfold handler_read, read_from_phys, mbind, prog_bind, attempt. unfold p_bind at 1. rewrite (bind_Ok _ _ _ _ _ E).
  unfold sized_index. rewrite Hal, Z.eqb_refl. erewrite bind_Ok by reflexivity. unfold gets. cbv beta iota. do 2 f_equal.
  assert (0 < size) as Hpos by (rewrite !elem_of_cons, elem_of_nil in Hsz; lia).
  assert (OFFSET_MASK a / size * size = OFFSET_MASK a ∧ OFFSET_MASK a + size <= PAGE_SIZE) as [-> Hend].
  { unfold OFFSET_MASK, PAGE_SIZE. rewrite !elem_of_cons, elem_of_nil in Hsz. destruct Hsz as [-> | [-> | [-> | [-> | []]]]]; split; zdiv. }
  rewrite (pg_load virt (PAGE_MASK a) (OFFSET_MASK a)); [|done|unfold OFFSET_MASK, PAGE_SIZE; zdiv|lia].
  rewrite Hm. unfold PAGE_MASK, OFFSET_MASK. by rewrite Z.sub_add.
Qed.

End cache.
