(* ===== verification/Hda.v ===== *)
(** The command interface of ihdad (audio/ihdad/src/hda/cmdbuff.rs).

    Commands go to the codecs through two rings in memory, CORB and RIRB, or through a set of
    registers, the immediate interface.  [hda_commands_answered] shows for both, for a controller
    whose rings have the sizes the driver takes them to have, that after the initialisation every
    command is executed once and in order and that the caller gets the answer to its own command.  [rirb_16_wrong_answer] shows
    what happens on a controller whose response ring has 16 entries. *)

From S2P Require Import Prelude Io.

(** ** Registers *)

Inductive HdaReg : Type :=
| HCorbLBase | HCorbUBase | HCorbWp | HCorbRp | HCorbCtl | HCorbSts | HCorbSize
| HRirbLBase | HRirbUBase | HRirbWp | HRIntCnt | HRirbCtl | HRirbSts | HRirbSize
| HIcoi | HIrii | HIcs
| HGcap | HVmin | HVmaj | HGctl | HStatests | HIntCtl | HIntSts | HDplBase | HDpuBase
| HSdCtlLo (i : Z) | HSdCtlHi (i : Z) | HSdSts (i : Z) | HSdLinkPos (i : Z) | HSdBuffLen (i : Z) | HSdLvi (i : Z)
| HSdFifo (i : Z) | HSdFormat (i : Z) | HSdBdlLo (i : Z) | HSdBdlHi (i : Z).

#[export] Instance HdaReg_eq_dec : EqDecision HdaReg.
Proof. solve_decision. Defined.

Definition CORBRUN : Z := Z.shiftl 1 1.
Definition CORBRPRST : Z := Z.shiftl 1 15.
Definition RIRBWPRST : Z := Z.shiftl 1 15.
Definition RINTCTL : Z := Z.shiftl 1 0.
Definition RIRBDMAEN : Z := Z.shiftl 1 1.
Definition ICB : Z := Z.shiftl 1 0.
Definition IRV : Z := Z.shiftl 1 1.
Definition CORB_BUFF_MAX_SIZE : Z := 1024.

(** The memory of the two rings, shared with the controller. *)
Class HdaMem (W : Type) := {
  corb_put : Z → Z → W → W;
  rirb_get : Z → W → Z;
}.

(** The driver's side of the rings. *)
Record CommandBuffer := mk_cmdbuf { cb_corb_count : Z; cb_rirb_rp : Z; cb_rirb_count : Z; cb_use_immediate_cmd : bool }.

Definition cmdbuf_new : CommandBuffer := mk_cmdbuf 0 0 0 false.

Definition set_corb_count (x : Z) (c : CommandBuffer) := mk_cmdbuf x (cb_rirb_rp c) (cb_rirb_count c) (cb_use_immediate_cmd c).
Definition set_rirb_rp (x : Z) (c : CommandBuffer) := mk_cmdbuf (cb_corb_count c) x (cb_rirb_count c) (cb_use_immediate_cmd c).
Definition set_rirb_count (x : Z) (c : CommandBuffer) := mk_cmdbuf (cb_corb_count c) (cb_rirb_rp c) x (cb_use_immediate_cmd c).
Definition set_use_imm (x : bool) (c : CommandBuffer) := mk_cmdbuf (cb_corb_count c) (cb_rirb_rp c) (cb_rirb_count c) x.

Section cmdbuff.
Context {W : Type} `{HIo : Io W HdaReg} `{HM : HdaMem W}.
(** The physical address of the rings and the patience of a spin loop, which the code does
    not bound. *)
Context (cmd_phys : Z) (fuel : nat).

Abbreviation cp := (prog (CommandBuffer * W) errno).

Definition hreg_read (r : HdaReg) : cp Z := λ '(c, w), let '(v, w) := io_read r w in (Ok v, (c, w)).
Definition hreg_readf (r : HdaReg) (flags : Z) : cp bool := λ '(c, w), let '(v, w) := readf r flags w in (Ok v, (c, w)).
Definition hreg_write (r : HdaReg) (v : Z) : cp unit := modify (λ '(c, w), (c, io_write r v w)).
Definition hreg_writef (r : HdaReg) (flags : Z) (value : bool) : cp unit := modify (λ '(c, w), (c, writef r flags value w)).
Definition on_cmdbuf (f : CommandBuffer → CommandBuffer) : cp unit := modify (λ '(c, w), (f c, w)).

(** [while m is true]. *)
Fixpoint hda_spin (n : nat) (m : cp bool) : cp unit :=
  match n with
  | O => throw ETIMEDOUT
  | S n => b ← m; if b : bool then hda_spin n m else mret tt
  end.

(** *** CORB *)

Definition corb_stop : cp unit :=
  hda_spin fuel (b ← hreg_readf HCorbCtl CORBRUN; if b : bool then _ ← hreg_write HCorbCtl 0; mret true else mret false).

Definition corb_start : cp unit := hreg_writef HCorbCtl CORBRUN true.

Definition corb_set_address (addr : Z) : cp unit :=
  _ ← hreg_write HCorbLBase (as_u32 (Z.land addr 0xFFFFFFFF));
  hreg_write HCorbUBase (as_u32 (Z.shiftr addr 32)).

(** The other branch of the source is dead code. *)
Definition reset_read_pointer : cp unit := hreg_writef HCorbRp CORBRPRST true.

Definition corb_capacity (szcap : Z) : Z :=
  if Z.land szcap 4 =? 4 then 256 else if Z.land szcap 2 =? 2 then 16 else if Z.land szcap 1 =? 1 then 2 else 0.

Definition corb_init : cp unit :=
  _ ← corb_stop;
  size ← hreg_read HCorbSize;
  let szcap := Z.land (Z.shiftr size 4) 0xF in
  count ← gets (λ s, if corb_capacity szcap =? 0 then cb_corb_count s.1 else corb_capacity szcap);
  _ ← on_cmdbuf (set_corb_count count);
  if count =? 0 then panic
  else
    _ ← corb_set_address cmd_phys;
    _ ← hreg_write HCorbWp 0;
    reset_read_pointer.

(** An index that is not smaller than 256 is outside the ring; a count of 0 divides by zero. *)
Definition corb_send_command (cmd : Z) : cp unit :=
  _ ← hda_spin fuel (wp ← hreg_read HCorbWp; rp ← hreg_read HCorbRp; mret (negb (Z.land wp 0xFF =? Z.land rp 0xFF)));
  wp ← hreg_read HCorbWp;
  count ← gets (λ s, cb_corb_count s.1);
  if count =? 0 then panic
  else
    let write_pos := (Z.land wp 0xFF + 1) mod count in
    _ ← modify (λ '(c, w), (c, corb_put write_pos cmd w));
    hreg_write HCorbWp (as_u16 write_pos).

(** *** RIRB *)

Definition rirb_stop : cp unit :=
  val ← hreg_read HRirbCtl;
  hreg_write HRirbCtl (Z.land val (unot 8 RIRBDMAEN)).

Definition rirb_start : cp unit := hreg_writef HRirbCtl (Z.lor RIRBDMAEN RINTCTL) true.

Definition rirb_set_address (addr : Z) : cp unit :=
  _ ← hreg_write HRirbLBase (as_u32 (Z.land addr 0xFFFFFFFF));
  hreg_write HRirbUBase (as_u32 (Z.shiftr addr 32)).

Definition reset_write_pointer : cp unit := hreg_writef HRirbWp RIRBWPRST true.

(** The second size is 16 entries in the specification. *)
Definition rirb_capacity (szcap : Z) : Z :=
  if Z.land szcap 4 =? 4 then 256 else if Z.land szcap 2 =? 2 then 8 else if Z.land szcap 1 =? 1 then 2 else 0.

Definition rirb_init : cp unit :=
  _ ← rirb_stop;
  size ← hreg_read HRirbSize;
  let szcap := Z.land (Z.shiftr size 4) 0xF in
  count ← gets (λ s, if rirb_capacity szcap =? 0 then cb_rirb_count s.1 else rirb_capacity szcap);
  _ ← on_cmdbuf (set_rirb_count count);
  if count =? 0 then panic
  else
    _ ← rirb_set_address (cmd_phys + CORB_BUFF_MAX_SIZE);
    _ ← reset_write_pointer;
    _ ← on_cmdbuf (set_rirb_rp 0);
    hreg_write HRIntCnt 1.

Definition read_response : cp Z :=
  _ ← hda_spin fuel (wp ← hreg_read HRirbWp; rp ← gets (λ s, cb_rirb_rp s.1); mret (Z.land wp 0xFF =? Z.land rp 0xFF));
  rp ← gets (λ s, cb_rirb_rp s.1);
  count ← gets (λ s, cb_rirb_count s.1);
  if as_u16 count =? 0 then panic
  else
    let read_pos := (rp + 1) mod as_u16 count in
    res ← gets (λ s, rirb_get read_pos s.2);
    _ ← on_cmdbuf (set_rirb_rp read_pos);
    mret res.

(** *** Immediate commands *)

Definition imm_cmd (cmd : Z) : cp Z :=
  _ ← hda_spin fuel (hreg_readf HIcs ICB);
  _ ← hreg_write HIcoi cmd;
  _ ← hreg_writef HIcs ICB true;
  _ ← hda_spin fuel (b ← hreg_readf HIcs IRV; mret (negb b));
  lo ← hreg_read HIrii;
  hi ← hreg_read HIrii;
  let res := Z.lor lo (Z.shiftl hi 32) in
  _ ← hreg_writef HIcs IRV false;
  mret res.

(** *** The buffer *)

Definition set_use_imm_cmds (use_imm : bool) : cp unit :=
  _ ← on_cmdbuf (set_use_imm use_imm);
  if use_imm then _ ← corb_stop; rirb_stop
  else _ ← corb_start; rirb_start.

Definition cmdbuf_init (use_imm_cmds : bool) : cp unit :=
  _ ← corb_init;
  _ ← rirb_init;
  set_use_imm_cmds use_imm_cmds.

Definition cmd_buff (cmd : Z) : cp Z := _ ← corb_send_command cmd; read_response.

Definition hda_cmd (cmd : Z) : cp Z :=
  imm ← gets (λ s, cb_use_immediate_cmd s.1);
  if imm : bool then imm_cmd cmd else cmd_buff cmd.

(** Commands with 12 and with 4 bits of verb. *)
Definition verb12 (addr : Z * Z) (command data : Z) : Z :=
  Z.lor (Z.lor (Z.lor (as_u32 (Z.shiftl (Z.land addr.1 0xF) 28)) (as_u32 (Z.shiftl (Z.land addr.2 0xFF) 20)))
    (as_u32 (Z.shiftl (Z.land command 0xFFF) 8))) (Z.land data 0xFF).

Definition verb4 (addr : Z * Z) (command data : Z) : Z :=
  Z.lor (Z.lor (Z.lor (as_u32 (Z.shiftl (Z.land addr.1 0xF) 28)) (as_u32 (Z.shiftl (Z.land addr.2 0xFF) 20)))
    (as_u32 (Z.shiftl (Z.land command 0xF) 16))) (Z.land data 0xFFFF).

Definition cmd12 (addr : Z * Z) (command data : Z) : cp Z := hda_cmd (verb12 addr command data).
Definition cmd4 (addr : Z * Z) (command data : Z) : cp Z := hda_cmd (verb4 addr command data).

End cmdbuff.

(** ** What the specification says of a controller *)

(** Where the rings are, the low and the high half of an address each, and the capabilities of the
    size registers. *)
Record HdaCfg := mk_hcfg { hc_cbase : Z * Z; hc_rbase : Z * Z; hc_ccap : Z; hc_rcap : Z }.

(** The controller: the two rings with their pointers, the immediate registers, and the codecs. *)
Record HdaView (C : Type) := mk_hview {
  hv_wp : Z; hv_rp : Z; hv_run : bool; hv_corb : list Z;
  hv_rwp : Z; hv_dma : bool; hv_rirb : list Z;
  hv_icoi : Z; hv_irii : Z; hv_busy : bool; hv_valid : bool;
  hv_codecs : C; hv_cfg : HdaCfg;
}.
Arguments mk_hview {_}.
Arguments hv_wp {_}. Arguments hv_rp {_}. Arguments hv_run {_}. Arguments hv_corb {_}.
Arguments hv_rwp {_}. Arguments hv_dma {_}. Arguments hv_rirb {_}.
Arguments hv_icoi {_}. Arguments hv_irii {_}. Arguments hv_busy {_}. Arguments hv_valid {_}.
Arguments hv_codecs {_}. Arguments hv_cfg {_}.

Section controller.
(** The codecs execute a command and answer with 32 bits. *)
Context {C : Type} (codec : Z → C → Z * C).

Abbreviation V := (HdaView C).

Definition set_wp (x : Z) (v : V) : V :=
  mk_hview x (hv_rp v) (hv_run v) (hv_corb v) (hv_rwp v) (hv_dma v) (hv_rirb v) (hv_icoi v) (hv_irii v) (hv_busy v) (hv_valid v) (hv_codecs v) (hv_cfg v).
Definition set_corb (x : list Z) (v : V) : V :=
  mk_hview (hv_wp v) (hv_rp v) (hv_run v) x (hv_rwp v) (hv_dma v) (hv_rirb v) (hv_icoi v) (hv_irii v) (hv_busy v) (hv_valid v) (hv_codecs v) (hv_cfg v).
Definition set_icoi (x : Z) (v : V) : V :=
  mk_hview (hv_wp v) (hv_rp v) (hv_run v) (hv_corb v) (hv_rwp v) (hv_dma v) (hv_rirb v) x (hv_irii v) (hv_busy v) (hv_valid v) (hv_codecs v) (hv_cfg v).
Definition set_ics (busy valid : bool) (v : V) : V :=
  mk_hview (hv_wp v) (hv_rp v) (hv_run v) (hv_corb v) (hv_rwp v) (hv_dma v) (hv_rirb v) (hv_icoi v) (hv_irii v) busy valid (hv_codecs v) (hv_cfg v).

Definition set_rp (x : Z) (v : V) : V :=
  mk_hview (hv_wp v) x (hv_run v) (hv_corb v) (hv_rwp v) (hv_dma v) (hv_rirb v) (hv_icoi v) (hv_irii v) (hv_busy v) (hv_valid v) (hv_codecs v) (hv_cfg v).
Definition set_run (x : bool) (v : V) : V :=
  mk_hview (hv_wp v) (hv_rp v) x (hv_corb v) (hv_rwp v) (hv_dma v) (hv_rirb v) (hv_icoi v) (hv_irii v) (hv_busy v) (hv_valid v) (hv_codecs v) (hv_cfg v).
Definition set_rwp (x : Z) (v : V) : V :=
  mk_hview (hv_wp v) (hv_rp v) (hv_run v) (hv_corb v) x (hv_dma v) (hv_rirb v) (hv_icoi v) (hv_irii v) (hv_busy v) (hv_valid v) (hv_codecs v) (hv_cfg v).
Definition set_dma (x : bool) (v : V) : V :=
  mk_hview (hv_wp v) (hv_rp v) (hv_run v) (hv_corb v) (hv_rwp v) x (hv_rirb v) (hv_icoi v) (hv_irii v) (hv_busy v) (hv_valid v) (hv_codecs v) (hv_cfg v).
(** The ring at another address has other contents. *)
Definition move_corb (base : Z * Z) (l : list Z) (v : V) : V :=
  mk_hview (hv_wp v) (hv_rp v) (hv_run v) l (hv_rwp v) (hv_dma v) (hv_rirb v) (hv_icoi v) (hv_irii v) (hv_busy v) (hv_valid v) (hv_codecs v)
    (mk_hcfg base (hc_rbase (hv_cfg v)) (hc_ccap (hv_cfg v)) (hc_rcap (hv_cfg v))).
Definition move_rirb (base : Z * Z) (l : list Z) (v : V) : V :=
  mk_hview (hv_wp v) (hv_rp v) (hv_run v) (hv_corb v) (hv_rwp v) (hv_dma v) l (hv_icoi v) (hv_irii v) (hv_busy v) (hv_valid v) (hv_codecs v)
    (mk_hcfg (hc_cbase (hv_cfg v)) base (hc_ccap (hv_cfg v)) (hc_rcap (hv_cfg v))).

(** A command of the ring: fetched at the next entry, its answer stored at the next entry. *)
Definition fetch (v : V) : V :=
  let rp := (hv_rp v + 1) mod Z.of_nat (length (hv_corb v)) in
  let rwp := (hv_rwp v + 1) mod Z.of_nat (length (hv_rirb v)) in
  let '(r, c) := codec (default 0 (hv_corb v !! Z.to_nat rp)) (hv_codecs v) in
  mk_hview (hv_wp v) rp (hv_run v) (hv_corb v) rwp (hv_dma v) (<[Z.to_nat rwp := r]> (hv_rirb v))
    (hv_icoi v) (hv_irii v) (hv_busy v) (hv_valid v) c (hv_cfg v).

(** The immediate command. *)
Definition immediate (v : V) : V :=
  let '(r, c) := codec (hv_icoi v) (hv_codecs v) in
  mk_hview (hv_wp v) (hv_rp v) (hv_run v) (hv_corb v) (hv_rwp v) (hv_dma v) (hv_rirb v) (hv_icoi v) r false true c (hv_cfg v).

(** What the controller may do at any time. *)
Inductive hstep : V → V → Prop :=
| hs_fetch v : hv_run v = true → hv_dma v = true → hv_rp v ≠ hv_wp v → hstep v (fetch v)
| hs_immediate v : hv_busy v = true → hstep v (immediate v).

Definition ics_value (v : V) : Z := Z.lor (of_bool (hv_busy v)) (Z.shiftl (of_bool (hv_valid v)) 1).

(** The value of a register of the command interface. *)
Definition hreg_value (r : HdaReg) (v : V) : option Z :=
  match r with
  | HCorbWp => Some (hv_wp v) | HRirbWp => Some (hv_rwp v)
  | HIcs => Some (ics_value v) | HIrii => Some (hv_irii v)
  | _ => None
  end.

(** The sizes offered, four bits. *)
Definition corb_offers (v : V) : Z := Z.land (hc_ccap (hv_cfg v)) 0xF.
Definition rirb_offers (v : V) : Z := Z.land (hc_rcap (hv_cfg v)) 0xF.

(** What a register shows that has other bits too. *)
Definition hreg_shows (r : HdaReg) (v : V) (x : Z) : Prop :=
  match r with
  | HCorbRp => Z.land x 0xFF = Z.land (hv_rp v) 0xFF
  | HCorbCtl => Z.testbit x 1 = hv_run v
  | HCorbSize => Z.land (Z.shiftr x 4) 0xF = corb_offers v
  | HRirbSize => Z.land (Z.shiftr x 4) 0xF = rirb_offers v
  | _ => True
  end.

(** The effect of a write: a pointer is reset by writing bit 15, and the valid bit of the immediate
    interface is cleared by writing a one. *)
Definition hreg_effect (r : HdaReg) (x : Z) (v : V) : option V :=
  match r with
  | HCorbWp => Some (set_wp x v)
  | HCorbRp => Some (if Z.testbit x 15 then set_rp 0 v else v)
  | HCorbCtl => Some (set_run (Z.testbit x 1) v)
  | HRirbWp => Some (if Z.testbit x 15 then set_rwp 0 v else v)
  | HRirbCtl => Some (set_dma (Z.testbit x 1) v)
  | HRIntCnt => Some v
  | HIcoi => Some (set_icoi x v)
  | HIcs => Some (set_ics (hv_busy v || Z.testbit x 0) (hv_valid v && negb (Z.testbit x 1)) v)
  | _ => None
  end.

End controller.

(** The address of a ring, aligned to 128 bytes. *)
Definition base_effect {C : Type} (r : HdaReg) (x : Z) (v v' : HdaView C) : Prop :=
  match r with
  | HCorbLBase => x mod 128 = 0 → ∃ l, length l = length (hv_corb v) ∧ v' = move_corb (x, (hc_cbase (hv_cfg v)).2) l v
  | HCorbUBase => ∃ l, length l = length (hv_corb v) ∧ v' = move_corb ((hc_cbase (hv_cfg v)).1, x) l v
  | HRirbLBase => x mod 128 = 0 → ∃ l, length l = length (hv_rirb v) ∧ v' = move_rirb (x, (hc_rbase (hv_cfg v)).2) l v
  | HRirbUBase => ∃ l, length l = length (hv_rirb v) ∧ v' = move_rirb ((hc_rbase (hv_cfg v)).1, x) l v
  | _ => True
  end.

Definition halves (addr : Z) : Z * Z := (addr mod 2 ^ 32, addr / 2 ^ 32).

(** A controller: a read gives the value of a register after some steps; while there is something
    to do, it is not put off for ever.  The driver's page of memory at [hl_page] holds the rings of a
    controller whose base registers say so. *)
Class HdaLaws (W C : Type) `{HIo : Io W HdaReg} `{HM : HdaMem W} := {
  hl_codec : Z → C → Z * C;
  hl_view : W → HdaView C;
  hl_left : W → nat;
  hl_bound : nat;
  hl_page : Z;
  hl_page_ok : hl_page mod 4096 = 0 ∧ u_range 64 hl_page;
  hl_width : io_width = 32;
  hl_left_bound w : (hl_left w < hl_bound)%nat;
  hl_answer cmd c : u_range 32 (hl_codec cmd c).1;
  hl_read r w x w' : io_read r w = (x, w') →
    rtc (hstep hl_codec) (hl_view w) (hl_view w') ∧
    (∀ y, hreg_value r (hl_view w') = Some y → x = y) ∧ hreg_shows r (hl_view w') x ∧
    ((∃ v, hstep hl_codec (hl_view w') v) → (hl_left w' < hl_left w)%nat ∨ tc (hstep hl_codec) (hl_view w) (hl_view w'));
  hl_write r x w v : hreg_effect r x (hl_view w) = Some v → hl_view (io_write r x w) = v;
  hl_base r x w : base_effect r x (hl_view w) (hl_view (io_write r x w));
  hl_put i x w : 0 <= i → hc_cbase (hv_cfg (hl_view w)) = halves hl_page →
    hl_view (corb_put i x w) = set_corb (<[Z.to_nat i := x]> (hv_corb (hl_view w))) (hl_view w);
  hl_get i w x : 0 <= i → hc_rbase (hv_cfg (hl_view w)) = halves (hl_page + CORB_BUFF_MAX_SIZE) →
    hv_rirb (hl_view w) !! Z.to_nat i = Some x → as_u32 (rirb_get i w) = as_u32 x;
}.

(** ** Commands are answered *)

Lemma low_byte x : 0 <= x < 256 → Z.land x 0xFF = x.
Proof. intros H. change 0xFF with (Z.ones 8). rewrite Z.land_ones by lia. apply Z.mod_small. exact H. Qed.

(** A system with one step at most. *)
Lemma rtc_one {A : Type} (R : A → A → Prop) x z y :
  rtc R x y → (∀ y', R x y' → y' = z) → (∀ y', ¬ R z y') → y = x ∨ y = z.
Proof.
  intros Hr Hx Hz. inversion Hr as [|? y1 ? H1 H2]; subst; [by left|right]. apply Hx in H1 as ->.
  inversion H2 as [|? y2 ? H3 ?]; subst; [done|]. by destruct (Hz y2).
Qed.

Lemma rtc_none {A : Type} (R : A → A → Prop) x y : rtc R x y → (∀ y', ¬ R x y') → y = x.
Proof. intros Hr Hx. inversion Hr as [|? y1 ? H1 H2]; subst; [done|]. by destruct (Hx y1). Qed.

(** The low word of a double word. *)
Lemma lor_low_shiftl a b k : 0 <= k → Z.lor a (Z.shiftl b k) mod 2 ^ k = a mod 2 ^ k.
Proof.
  intros Hk. rewrite <- !Z.land_ones by done. apply Z.bits_inj'. intros i Hi. rewrite !Z.land_spec, Z.lor_spec, Z.shiftl_spec by done.
  destruct (Z.lt_ge_cases i k); [rewrite (Z.testbit_neg_r b) by lia; by rewrite orb_false_r|].
  rewrite Z.ones_spec_high by lia. by rewrite !andb_false_r.
Qed.

(** If the one step leads elsewhere, there is no way back. *)
Lemma tc_one {A : Type} (R : A → A → Prop) x z : tc R x x → (∀ y', R x y' → y' = z) → (∀ y', ¬ R z y') → x = z.
Proof.
  intros Ht Hx Hz. inversion Ht as [? ? H1|? y ? H1 H2]; subst; [by apply Hx|]. apply Hx in H1 as ->.
  apply tc_rtc in H2. by apply rtc_none in H2.
Qed.

Section commands.
Context {W C : Type} `{HL : HdaLaws W C} (fuel : nat) (Hfuel : (hl_bound <= fuel)%nat).

Abbreviation S := (CommandBuffer * W)%type.
Abbreviation codec := (hl_codec (W := W)).
Abbreviation V := (HdaView C).

Definition quiet_view (v : V) : Prop := (hv_run v = false ∨ hv_rp v = hv_wp v) ∧ hv_busy v = false.

Lemma quiet_no_step v v' : quiet_view v → ¬ hstep codec v v'.
Proof. intros [H1 H2] Hs. destruct Hs as [v Hr _ Hp|v Hb]; [destruct H1; congruence|congruence]. Qed.

(** A read of a register of a controller that has nothing to do. *)
Lemma read_quiet r (c : CommandBuffer) w y :
  quiet_view (hl_view w) → hreg_value r (hl_view w) = Some y →
  ∃ w', hreg_read r (c, w) = (Ok y, (c, w')) ∧ hl_view w' = hl_view w.
Proof.
  intros Hq Hy. unfold hreg_read. destruct (io_read r w) as [x w'] eqn:E. destruct (hl_read r w x w' E) as (H1 & H2 & _ & _).
  assert (hl_view w' = hl_view w) as Ev by (eapply rtc_none; [exact H1|]; intros; by apply quiet_no_step).
  exists w'. split; [|done]. rewrite (H2 y); [done|]. by rewrite Ev.
Qed.

Lemma read_shows r (c : CommandBuffer) w :
  quiet_view (hl_view w) →
  ∃ x w', hreg_read r (c, w) = (Ok x, (c, w')) ∧ hreg_shows r (hl_view w) x ∧ hl_view w' = hl_view w.
Proof.
  intros Hq. unfold hreg_read. destruct (io_read r w) as [x w'] eqn:E. destruct (hl_read r w x w' E) as (H1 & _ & H2 & _).
  assert (hl_view w' = hl_view w) as Ev by (eapply rtc_none; [exact H1|]; intros; by apply quiet_no_step).
  exists x, w'. by rewrite <- Ev.
Qed.

(** A loop that waits for the only thing the controller can do. *)
Lemma spin_one (m : prog S errno bool) n (c : CommandBuffer) (v1 v2 : V) w :
  (∀ w, hl_view w = v1 → ∃ b w', m (c, w) = (Ok b, (c, w')) ∧
     ((b = true ∧ hl_view w' = v1 ∧ (hl_left w' < hl_left w)%nat) ∨ (b = false ∧ hl_view w' = v2))) →
  hl_view w = v1 → (hl_left w < n)%nat → ∃ w', hda_spin n m (c, w) = (Ok tt, (c, w')) ∧ hl_view w' = v2.
Proof.
  intros Hm. revert w. induction n as [|n IH]; intros w Hw Hn; [lia|]. cbn [hda_spin].
  destruct (Hm w Hw) as (b & w' & E & [(-> & Hv & Hl)|(-> & Hv)]); unfold mbind, prog_bind; rewrite (bind_Ok _ _ _ _ _ E).
  - apply IH; [done|lia].
  - by exists w'.
Qed.

Lemma spin_one' (m : prog S errno bool) (c : CommandBuffer) (v1 v2 : V) w :
  (∀ w, hl_view w = v1 → ∃ b w', m (c, w) = (Ok b, (c, w')) ∧
     ((b = true ∧ hl_view w' = v1 ∧ (hl_left w' < hl_left w)%nat) ∨ (b = false ∧ hl_view w' = v2))) →
  hl_view w = v1 → ∃ w', hda_spin fuel m (c, w) = (Ok tt, (c, w')) ∧ hl_view w' = v2.
Proof. intros Hm Hw. eapply spin_one; [exact Hm|exact Hw|]. eapply Nat.lt_le_trans; [apply hl_left_bound|done]. Qed.

(** *** The rings *)

Record ring_idle (s : S) : Prop := {
  ri_imm : cb_use_immediate_cmd s.1 = false;
  ri_run : hv_run (hl_view s.2) = true;
  ri_dma : hv_dma (hl_view s.2) = true;
  ri_busy : hv_busy (hl_view s.2) = false;
  ri_ptr : hv_rp (hl_view s.2) = hv_wp (hl_view s.2);
  ri_corb : cb_corb_count s.1 = Z.of_nat (length (hv_corb (hl_view s.2)));
  ri_corb_size : 2 <= cb_corb_count s.1 <= 256;
  ri_wp : 0 <= hv_wp (hl_view s.2) < cb_corb_count s.1;
  ri_rirb : cb_rirb_count s.1 = Z.of_nat (length (hv_rirb (hl_view s.2)));
  ri_rirb_size : 2 <= cb_rirb_count s.1 <= 256;
  ri_rwp : hv_rwp (hl_view s.2) = cb_rirb_rp s.1;
  ri_rp : 0 <= cb_rirb_rp s.1 < cb_rirb_count s.1;
  ri_cbase : hc_cbase (hv_cfg (hl_view s.2)) = halves hl_page;
  ri_rbase : hc_rbase (hv_cfg (hl_view s.2)) = halves (hl_page + CORB_BUFF_MAX_SIZE);
}.

Lemma next_ne a n : 2 <= n → 0 <= a < n → (a + 1) mod n ≠ a ∧ 0 <= (a + 1) mod n < n.
Proof.
  intros Hn Ha. destruct (Z.eq_dec (a + 1) n) as [E|]; [rewrite E, Z.mod_same by lia; lia|]. rewrite Z.mod_small by lia. lia.
Qed.

(** The command is in the ring, the controller may fetch it. *)
Lemma send_spec cmd c w :
  ring_idle (c, w) → let v := hl_view w in let p := (hv_wp v + 1) mod cb_corb_count c in
  ∃ w', corb_send_command fuel cmd (c, w) = (Ok tt, (c, w')) ∧
    hl_view w' = set_wp p (set_corb (<[Z.to_nat p := cmd]> (hv_corb v)) v).
Proof.
  intros Hi v p. destruct Hi as [H1 H2 H3 H4 H5 H6 H7 H8 _ _ _ _ H13 _]. cbn [fst snd] in *. fold v in H2, H3, H4, H5, H6, H8, H13.
  assert (quiet_view v) as Hq by (split; [by right|done]). destruct (next_ne (hv_wp v) (cb_corb_count c)) as [Hne Hp]; [lia|done|]. fold p in Hne, Hp.
  destruct (spin_one' (wp ← hreg_read HCorbWp; rp ← hreg_read HCorbRp; mret (negb (Z.land wp 0xFF =? Z.land rp 0xFF))) c v v w) as (w1 & E1 & V1).
  { intros w0 V0. destruct (read_quiet HCorbWp c w0 (hv_wp v)) as (w1 & E1 & V1); [by rewrite V0|by rewrite V0|].
    destruct (read_shows HCorbRp c w1) as (x & w2 & E2 & Hx & V2); [by rewrite V1, V0|]. rewrite V1, V0 in Hx. cbn [hreg_shows] in Hx.
    exists false, w2. unfold mbind, prog_bind. rewrite (bind_Ok _ _ _ _ _ E1), (bind_Ok _ _ _ _ _ E2), Hx, H5, low_byte, Z.eqb_refl by lia. split; [done|]. right. by rewrite V2, V1. }
  { done. }
  unfold corb_send_command, mbind, prog_bind. rewrite (bind_Ok _ _ _ _ _ E1).
  destruct (read_quiet HCorbWp c w1 (hv_wp v)) as (w2 & E2 & V2); [by rewrite V1|by rewrite V1|]. rewrite (bind_Ok _ _ _ _ _ E2).
  erewrite bind_Ok by reflexivity. cbn [fst]. rewrite (proj2 (Z.eqb_neq _ _)) by lia. rewrite low_byte by lia. fold p.
  erewrite bind_Ok by reflexivity. eexists. split; [reflexivity|].
  erewrite hl_write; [|reflexivity]. rewrite hl_put by (lia || by rewrite V2, V1). rewrite V2, V1. f_equal.
  change (as_u16 p) with (as_u 16 p). rewrite as_u_id; [done|]. unfold u_range. change (2 ^ 16) with 65536. lia.
Qed.

(** A command through the rings is executed once and answered. *)
Lemma cmd_buff_spec cmd c w :
  ring_idle (c, w) → ∃ r s', cmd_buff fuel cmd (c, w) = (Ok r, s') ∧
    as_u32 r = (codec cmd (hv_codecs (hl_view w))).1 ∧ ring_idle s' ∧
    hv_codecs (hl_view s'.2) = (codec cmd (hv_codecs (hl_view w))).2.
Proof.
  intros Hi. destruct (send_spec cmd c w Hi) as (w1 & E1 & V1). destruct Hi as [H1 H2 H3 H4 H5 H6 H7 H8 H9 H10 H11 H12 H13 H14]. cbn [fst snd] in *.
  set (v := hl_view w) in *. set (n := cb_corb_count c) in *. set (p := (hv_wp v + 1) mod n) in *. set (m := cb_rirb_count c) in *.
  destruct (next_ne (hv_wp v) n) as [Hne Hp]; [lia|done|]. fold p in Hne, Hp. destruct (next_ne (cb_rirb_rp c) m) as [Hne' Hq]; [lia|done|]. set (q := (cb_rirb_rp c + 1) mod m) in *.
  set (v1 := set_wp p (set_corb (<[Z.to_nat p := cmd]> (hv_corb v)) v)) in *.
  assert (fetch codec v1 = mk_hview p p (hv_run v) (<[Z.to_nat p := cmd]> (hv_corb v)) q (hv_dma v)
    (<[Z.to_nat q := (codec cmd (hv_codecs v)).1]> (hv_rirb v)) (hv_icoi v) (hv_irii v) (hv_busy v) (hv_valid v) (codec cmd (hv_codecs v)).2 (hv_cfg v)) as Ef.
  { unfold fetch, v1. cbn [set_wp set_corb hv_wp hv_rp hv_corb hv_rwp hv_rirb hv_codecs hv_run hv_dma hv_icoi hv_irii hv_busy hv_valid].
    rewrite length_insert, <- H6, <- H9, H5, H11. fold p q. rewrite list_lookup_insert_eq by lia. cbn [default].
    unfold id. by destruct (codec cmd (hv_codecs v)). }
  set (v2 := fetch codec v1) in *.
  destruct (spin_one' (wp ← hreg_read HRirbWp; rp ← gets (λ s : S, cb_rirb_rp s.1); mret (Z.land wp 0xFF =? Z.land rp 0xFF)) c v1 v2 w1) as (w2 & E2 & V2); [|done|].
  { intros w0 V0. destruct (io_read HRirbWp w0) as [x w'] eqn:Er.
    assert (hreg_read HRirbWp (c, w0) = (Ok x, (c, w'))) as Eh by (unfold hreg_read; by rewrite Er). destruct (hl_read _ _ _ _ Er) as (R1 & R2 & _ & R3).
    rewrite V0 in R1, R3.
    assert (∀ y, hstep codec v1 y → y = v2) as Hs1 by (intros y Hy; inversion Hy as [? ? ? ?|? Hb]; [done|]; cbn in Hb; congruence).
    assert (∀ y, ¬ hstep codec v2 y) as Hs2 by (intros y Hy; apply quiet_no_step in Hy; [done|]; rewrite Ef; split; [by right|exact H4]).
    assert (hl_view w' = v1 ∨ hl_view w' = v2) as Hv by (by eapply rtc_one).
    specialize (R2 _ eq_refl). subst x. unfold mbind, prog_bind. destruct Hv as [Hv|Hv].
    - exists true, w'. rewrite (bind_Ok _ _ _ _ _ Eh). erewrite bind_Ok by reflexivity. cbn [fst]. cbv [mret prog_ret p_ret]. rewrite Hv. change (hv_rwp v1) with (hv_rwp v). rewrite H11, Z.eqb_refl. split; [done|]. left. split_and!; [done|done|].
      destruct R3 as [R3|R3]; [|done|].
      + exists v2. rewrite Hv. apply hs_fetch; [done|done|]. change (hv_rp v1) with (hv_rp v). change (hv_wp v1) with p. congruence.
      + rewrite Hv in R3. apply (tc_one _ _ v2) in R3; [|done|done]. apply (f_equal hv_rp) in R3. rewrite Ef in R3. cbn in R3. congruence.
    - exists false, w'. rewrite (bind_Ok _ _ _ _ _ Eh). erewrite bind_Ok by reflexivity. cbn [fst]. cbv [mret prog_ret p_ret]. rewrite Hv, Ef. cbn [hv_rwp]. rewrite !low_byte by lia. rewrite (proj2 (Z.eqb_neq _ _)) by done. split; [done|]. by right. }
  unfold cmd_buff, mbind, prog_bind. rewrite (bind_Ok _ _ _ _ _ E1). unfold read_response, mbind, prog_bind. rewrite (bind_Ok _ _ _ _ _ E2).
  do 2 (erewrite bind_Ok by reflexivity). cbn [fst]. fold m. change (as_u16 m) with (as_u 16 m). rewrite as_u_id by (unfold u_range; change (2 ^ 16) with 65536; lia).
  rewrite (proj2 (Z.eqb_neq _ _)) by lia. fold q. do 2 (erewrite bind_Ok by reflexivity). eexists _, _. split; [reflexivity|].
  cbn [fst snd]. rewrite V2, Ef. split_and!; [| |done].
  - rewrite (hl_get q w2 (codec cmd (hv_codecs v)).1); [exact (as_u_id 32 _ (hl_answer cmd (hv_codecs v)))|lia|by rewrite V2, Ef|].
    rewrite V2, Ef. cbn [hv_rirb]. apply list_lookup_insert_eq. lia.
  - split; cbn [fst snd set_rirb_rp cb_corb_count cb_rirb_rp cb_rirb_count cb_use_immediate_cmd]; rewrite ?V2, ?Ef;
      cbn [hv_run hv_dma hv_busy hv_rp hv_wp hv_corb hv_rirb hv_rwp hv_cfg]; rewrite ?length_insert; done.
Qed.

(** *** The immediate interface *)

Record imm_idle (s : S) : Prop := {
  ii_imm : cb_use_immediate_cmd s.1 = true;
  ii_run : hv_run (hl_view s.2) = false;
  ii_busy : hv_busy (hl_view s.2) = false;
}.

Lemma ics_bits (v : V) : Z.testbit (ics_value v) 0 = hv_busy v ∧ Z.testbit (ics_value v) 1 = hv_valid v.
Proof. unfold ics_value. by destruct (hv_busy v), (hv_valid v). Qed.

Lemma readf_bit (v : V) k : (Z.land (ics_value v) (Z.shiftl 1 k) =? Z.shiftl 1 k) = Z.testbit (ics_value v) k ∨ k < 0.
Proof. destruct (Z.lt_ge_cases k 0); [by right|left]. rewrite Z.shiftl_1_l. by apply land_pow2_eqb. Qed.

Lemma readf_read r flags (c : CommandBuffer) (w : W) x w' :
  hreg_read r (c, w) = (Ok x, (c, w')) → hreg_readf r flags (c, w) = (Ok (Z.land x flags =? flags), (c, w')).
Proof. unfold hreg_read, hreg_readf, readf. destruct (io_read r w). by intros [= <- <-]. Qed.

Lemma writef_read r flags b (c : CommandBuffer) (w : W) x w' :
  hreg_read r (c, w) = (Ok x, (c, w')) →
  hreg_writef r flags b (c, w) = (Ok tt, (c, io_write r (if b then Z.lor x flags else Z.land x (unot 32 flags)) w')).
Proof. unfold hreg_read, hreg_writef, modify, writef. destruct (io_read r w). intros [= <- <-]. rewrite hl_width. by destruct b. Qed.

(** A command through the registers is executed once and answered; the valid bit that is
    left behind is cleared with the next command, which writes it back. *)
Lemma imm_cmd_spec cmd c w :
  imm_idle (c, w) → ∃ r s', imm_cmd fuel cmd (c, w) = (Ok r, s') ∧
    as_u32 r = (codec cmd (hv_codecs (hl_view w))).1 ∧ imm_idle s' ∧
    hv_codecs (hl_view s'.2) = (codec cmd (hv_codecs (hl_view w))).2.
Proof.
  intros [H1 H2 H3]. cbn [fst snd] in *. set (v := hl_view w) in *. assert (quiet_view v) as Hq by (split; [by left|done]).
  destruct (spin_one' (hreg_readf HIcs ICB) c v v w) as (w1 & E1 & V1); [|done|].
  { intros w0 V0. destruct (read_quiet HIcs c w0 (ics_value v)) as (w1 & E & V1); [by rewrite V0|by rewrite V0|].
    exists false, w1. rewrite (readf_read _ _ _ _ _ _ E). unfold ICB. destruct (readf_bit v 0) as [->|]; [|lia].
    rewrite (proj1 (ics_bits v)), H3. split; [done|]. right. by rewrite V1. }
  unfold imm_cmd, mbind, prog_bind. rewrite (bind_Ok _ _ _ _ _ E1). erewrite bind_Ok by reflexivity.
  set (w2 := io_write HIcoi cmd w1). assert (hl_view w2 = set_icoi cmd v) as V2 by (unfold w2; erewrite hl_write; [|reflexivity]; by rewrite V1).
  assert (quiet_view (hl_view w2)) as Hq2 by (rewrite V2; exact Hq).
  destruct (read_quiet HIcs c w2 (ics_value v)) as (w3 & E3 & V3); [done|by rewrite V2|].
  rewrite (bind_Ok _ _ _ _ _ (writef_read _ ICB true _ _ _ _ E3)). set (w4 := io_write HIcs _ w3).
  set (v4 := set_ics true false (set_icoi cmd v)).
  assert (hl_view w4 = v4) as V4.
  { unfold w4. erewrite hl_write; [|reflexivity]. rewrite V3, V2. unfold v4. destruct (ics_bits v) as [B0 B1].
    unfold ICB. rewrite !Z.lor_spec, B0, B1. cbn [set_icoi hv_busy hv_valid]. rewrite H3. by destruct (hv_valid v). }
  set (a := codec cmd (hv_codecs v)). set (v5 := immediate codec v4).
  assert (v5 = mk_hview (hv_wp v) (hv_rp v) (hv_run v) (hv_corb v) (hv_rwp v) (hv_dma v) (hv_rirb v) cmd a.1 false true a.2 (hv_cfg v)) as E5.
  { unfold v5, immediate, v4, a. cbn [set_ics set_icoi hv_icoi hv_codecs]. by destruct (codec cmd (hv_codecs v)). }
  assert (quiet_view v5) as Hq5 by (rewrite E5; split; [by left|done]).
  destruct (spin_one' (b ← hreg_readf HIcs IRV; mret (negb b)) c v4 v5 w4) as (w5 & E6 & V5); [|done|].
  { intros w0 V0. destruct (io_read HIcs w0) as [x w'] eqn:Er.
    assert (hreg_read HIcs (c, w0) = (Ok x, (c, w'))) as Eh by (unfold hreg_read; by rewrite Er).
    destruct (hl_read _ _ _ _ Er) as (R1 & R2 & _ & R3). rewrite V0 in R1, R3. specialize (R2 _ eq_refl). subst x.
    assert (∀ y, hstep codec v4 y → y = v5) as Hs1 by (intros y Hy; inversion Hy as [? Hrun|]; [|done]; cbn in Hrun; congruence).
    assert (∀ y, ¬ hstep codec v5 y) as Hs2 by (intros y Hy; by apply quiet_no_step in Hy).
    assert (hl_view w' = v4 ∨ hl_view w' = v5) as Hv by (by eapply rtc_one).
    exists (negb (hv_valid (hl_view w'))), w'. unfold mbind, prog_bind. rewrite (bind_Ok _ _ _ _ _ (readf_read _ IRV _ _ _ _ Eh)).
    unfold IRV. destruct (readf_bit (hl_view w') 1) as [->|]; [|lia]. rewrite (proj2 (ics_bits _)). split; [done|].
    destruct Hv as [Hv|Hv]; rewrite Hv.
    - left. split_and!; [done|done|]. rewrite Hv in R3. destruct R3 as [R3|R3]; [by exists v5; apply hs_immediate|done|].
      apply (tc_one _ _ v5) in R3; [|done|done]. apply (f_equal hv_busy) in R3. rewrite E5 in R3. done.
    - right. rewrite E5. done. }
  rewrite (bind_Ok _ _ _ _ _ E6).
  destruct (read_quiet HIrii c w5 a.1) as (w6 & E7 & V6); [by rewrite V5|by rewrite V5, E5|]. rewrite (bind_Ok _ _ _ _ _ E7).
  destruct (read_quiet HIrii c w6 a.1) as (w7 & E8 & V7); [by rewrite V6, V5|by rewrite V6, V5, E5|]. rewrite (bind_Ok _ _ _ _ _ E8).
  destruct (read_quiet HIcs c w7 (ics_value v5)) as (w8 & E9 & V8); [by rewrite V7, V6, V5|by rewrite V7, V6, V5|].
  rewrite (bind_Ok _ _ _ _ _ (writef_read _ IRV false _ _ _ _ E9)). set (w9 := io_write HIcs _ w8).
  assert (hl_view w9 = v5) as V9.
  { unfold w9. erewrite hl_write; [|reflexivity]. rewrite V8, V7, V6, V5. destruct (ics_bits v5) as [B0 B1].
    rewrite !Z.land_spec, B0, B1, E5. done. }
  eexists _, _. split; [reflexivity|]. cbn [snd]. rewrite V9. split_and!; [| |by rewrite E5].
  - unfold as_u32, as_u. rewrite lor_low_shiftl by lia. exact (as_u_id 32 _ (hl_answer cmd (hv_codecs v))).
  - split; cbn [fst snd]; [done|by rewrite V9, E5|by rewrite V9, E5].
Qed.

(** Between commands: one of the interfaces is at rest. *)
Definition hda_idle (s : S) : Prop := ring_idle s ∨ imm_idle s.

Lemma hda_cmd_spec cmd s :
  hda_idle s → ∃ r s', hda_cmd fuel cmd s = (Ok r, s') ∧
    as_u32 r = (codec cmd (hv_codecs (hl_view s.2))).1 ∧ hda_idle s' ∧
    hv_codecs (hl_view s'.2) = (codec cmd (hv_codecs (hl_view s.2))).2.
Proof.
  destruct s as [c w]. intros Hi. unfold hda_cmd, mbind, prog_bind. erewrite bind_Ok by reflexivity. cbn [fst snd]. destruct Hi as [Hi|Hi].
  - pose proof (ri_imm _ Hi) as E. cbn [fst] in E. rewrite E. destruct (cmd_buff_spec cmd c w Hi) as (r & s' & ? & ? & ? & ?). exists r, s'. by split_and!; [| |left|].
  - pose proof (ii_imm _ Hi) as E. cbn [fst] in E. rewrite E. destruct (imm_cmd_spec cmd c w Hi) as (r & s' & ? & ? & ? & ?). exists r, s'. by split_and!; [| |right|].
Qed.

(** *** Initialisation *)

(** The driver takes the largest size the controller offers for the size of a ring and does not
    program it: the rings must have it. *)
Definition sizes_agree (v : V) : Prop :=
  corb_capacity (corb_offers v) = Z.of_nat (length (hv_corb v)) ∧ rirb_capacity (rirb_offers v) = Z.of_nat (length (hv_rirb v)).

Lemma page_halves off : 0 <= off < 4096 →
  as_u32 (Z.land (hl_page + off) 0xFFFFFFFF) = (hl_page + off) mod 2 ^ 32 ∧ as_u32 (Z.shiftr (hl_page + off) 32) = (hl_page + off) / 2 ^ 32.
Proof.
  intros Ho. destruct hl_page_ok as [Ha Hr]. unfold u_range in Hr. change 0xFFFFFFFF with (Z.ones 32). rewrite Z.land_ones, Z.shiftr_div_pow2 by lia.
  unfold as_u32, as_u. rewrite Zmod_mod. split; [done|]. apply Z.mod_small. assert (hl_page + off < 2 ^ 64) by (change (2 ^ 64) with (4096 * 2 ^ 52) in *; zdiv).
  split; [zdiv|]. apply Z.div_lt_upper_bound; [lia|]. change (2 ^ 32 * 2 ^ 32) with (2 ^ 64). done.
Qed.

Lemma page_aligned off : off mod 128 = 0 → ((hl_page + off) mod 2 ^ 32) mod 128 = 0.
Proof.
  intros Ho. destruct hl_page_ok as [Ha _]. rewrite <- Znumtheory.Zmod_div_mod by (lia || by exists (2 ^ 25)).
  apply Z.mod_divide in Ha as [k Hk]; [|lia]. rewrite Hk, Z.add_mod, Ho by lia. replace (k * 4096) with (k * 32 * 128) by lia. by rewrite Z.mod_mul by lia.
Qed.

Lemma write_next r x (c : CommandBuffer) w v : hreg_effect r x (hl_view w) = Some v →
  ∃ w', hreg_write r x (c, w) = (Ok tt, (c, w')) ∧ hl_view w' = v.
Proof. intros E. eexists. split; [reflexivity|]. by apply hl_write. Qed.

Lemma writef_next r flags (c : CommandBuffer) w :
  quiet_view (hl_view w) → ∃ x w0 w', hreg_read r (c, w) = (Ok x, (c, w0)) ∧ hreg_writef r flags true (c, w) = (Ok tt, (c, w')) ∧
    ∀ v, hreg_effect r (Z.lor x flags) (hl_view w) = Some v → hl_view w' = v.
Proof.
  intros Hq. destruct (read_shows r c w Hq) as (x & w1 & E & _ & V1). exists x, w1. eexists. split; [exact E|].
  split; [exact (writef_read r flags true _ _ _ _ E)|]. intros v Hv. apply hl_write. by rewrite V1.
Qed.

Lemma corb_running (c : CommandBuffer) w : quiet_view (hl_view w) →
  ∃ w', hreg_readf HCorbCtl CORBRUN (c, w) = (Ok (hv_run (hl_view w)), (c, w')) ∧ hl_view w' = hl_view w.
Proof.
  intros Hq. destruct (read_shows HCorbCtl c w Hq) as (x & w1 & E1 & Hx & V1). cbn [hreg_shows] in Hx. exists w1. split; [|done].
  rewrite (readf_read _ CORBRUN _ _ _ _ E1), <- Hx. do 2 f_equal. change CORBRUN with (2 ^ 1). by rewrite land_pow2_eqb.
Qed.

Lemma corb_stop_spec (c : CommandBuffer) w : quiet_view (hl_view w) → (2 <= fuel)%nat →
  ∃ w', corb_stop fuel (c, w) = (Ok tt, (c, w')) ∧ hl_view w' = set_run false (hl_view w).
Proof.
  intros Hq Hn. unfold corb_stop. set (m := mbind _ _). destruct fuel as [|[|n]]; [lia|lia|].
  assert (∀ k w, quiet_view (hl_view w) → hv_run (hl_view w) = false → ∃ w', hda_spin (Datatypes.S k) m (c, w) = (Ok tt, (c, w')) ∧ hl_view w' = hl_view w) as Hstop.
  { intros k w0 Hq0 Hr0. destruct (corb_running c w0 Hq0) as (w1 & E1 & V1). rewrite Hr0 in E1. cbn [hda_spin]. unfold mbind, prog_bind.
    assert (m (c, w0) = (Ok false, (c, w1))) as Em by (unfold m, mbind, prog_bind; by rewrite (bind_Ok _ _ _ _ _ E1)). rewrite (bind_Ok _ _ _ _ _ Em). by exists w1. }
  destruct (hv_run (hl_view w)) eqn:Er.
  - destruct (corb_running c w Hq) as (w1 & E1 & V1). rewrite Er in E1. destruct (write_next HCorbCtl 0 c w1 (set_run false (hl_view w))) as (w2 & E2 & V2); [by rewrite V1|].
    assert (m (c, w) = (Ok true, (c, w2))) as Em by (unfold m, mbind, prog_bind; by rewrite (bind_Ok _ _ _ _ _ E1), (bind_Ok _ _ _ _ _ E2)).
    destruct (Hstop n w2) as (w3 & E3 & V3); [rewrite V2; split; [by left|exact (proj2 Hq)]|by rewrite V2|]. exists w3. cbn [hda_spin]. unfold mbind, prog_bind.
    rewrite (bind_Ok _ _ _ _ _ Em). by rewrite V3, V2.
  - destruct (Hstop (Datatypes.S n) w Hq Er) as (w' & E & V'). exists w'. split; [done|]. rewrite V'. destruct (hl_view w). cbn in Er. by subst.
Qed.

Lemma corb_address_spec (c : CommandBuffer) w :
  ∃ l w', corb_set_address hl_page (c, w) = (Ok tt, (c, w')) ∧ length l = length (hv_corb (hl_view w)) ∧ hl_view w' = move_corb (halves hl_page) l (hl_view w).
Proof.
  destruct (page_halves 0) as [E1 E2]; [lia|]. pose proof (page_aligned 0 eq_refl) as Ha. rewrite Z.add_0_r in E1, E2, Ha.
  unfold corb_set_address. rewrite E1, E2. set (w1 := io_write HCorbLBase (hl_page mod 2 ^ 32) w).
  destruct (hl_base HCorbLBase (hl_page mod 2 ^ 32) w Ha) as (l & Hl & V1). fold w1 in V1.
  destruct (hl_base HCorbUBase (hl_page / 2 ^ 32) w1) as (l' & Hl' & V2). rewrite V1 in Hl', V2.
  exists l', (io_write HCorbUBase (hl_page / 2 ^ 32) w1). split; [done|]. cbn [hv_corb move_corb] in Hl'. by rewrite V2, Hl'.
Qed.

Lemma rirb_address_spec (c : CommandBuffer) w : let addr := hl_page + CORB_BUFF_MAX_SIZE in
  ∃ l w', rirb_set_address addr (c, w) = (Ok tt, (c, w')) ∧ length l = length (hv_rirb (hl_view w)) ∧ hl_view w' = move_rirb (halves addr) l (hl_view w).
Proof.
  intros addr. destruct (page_halves CORB_BUFF_MAX_SIZE) as [E1 E2]; [done|]. pose proof (page_aligned CORB_BUFF_MAX_SIZE eq_refl) as Ha. fold addr in E1, E2, Ha.
  unfold rirb_set_address. rewrite E1, E2. set (w1 := io_write HRirbLBase (addr mod 2 ^ 32) w).
  destruct (hl_base HRirbLBase (addr mod 2 ^ 32) w Ha) as (l & Hl & V1). fold w1 in V1.
  destruct (hl_base HRirbUBase (addr / 2 ^ 32) w1) as (l' & Hl' & V2). rewrite V1 in Hl', V2.
  exists l', (io_write HRirbUBase (addr / 2 ^ 32) w1). split; [done|]. cbn [hv_rirb move_rirb] in Hl'. by rewrite V2, Hl'.
Qed.

Lemma corb_init_spec (c : CommandBuffer) w :
  let v := hl_view w in let n := corb_capacity (corb_offers v) in
  quiet_view v → (2 <= fuel)%nat → n ≠ 0 →
  ∃ l w', corb_init hl_page fuel (c, w) = (Ok tt, (set_corb_count n c, w')) ∧ length l = length (hv_corb v) ∧
    hl_view w' = set_rp 0 (set_wp 0 (move_corb (halves hl_page) l (set_run false v))).
Proof.
  intros v n Hq Hf Hn. destruct (corb_stop_spec c w Hq Hf) as (w1 & E1 & V1). fold v in V1. assert (quiet_view (set_run false v)) as Hq1 by (split; [by left|exact (proj2 Hq)]).
  destruct (read_shows HCorbSize c w1) as (x & w2 & E2 & Hx & V2); [by rewrite V1|]. rewrite V1 in Hx, V2. change (Z.land (Z.shiftr x 4) 0xF = corb_offers v) in Hx.
  destruct (corb_address_spec (set_corb_count n c) w2) as (l & w3 & E3 & Hl & V3). rewrite V2 in Hl, V3.
  destruct (write_next HCorbWp 0 (set_corb_count n c) w3 _ eq_refl) as (w4 & E4 & V4). rewrite V3 in V4.
  destruct (writef_next HCorbRp CORBRPRST (set_corb_count n c) w4) as (y & w5' & w5 & _ & E5 & V5); [rewrite V4; split; [by left|exact (proj2 Hq)]|].
  exists l, w5. unfold corb_init, mbind, prog_bind. rewrite (bind_Ok _ _ _ _ _ E1), (bind_Ok _ _ _ _ _ E2), Hx. fold n. rewrite (proj2 (Z.eqb_neq n 0)) by done.
  do 2 (erewrite bind_Ok by reflexivity). rewrite (proj2 (Z.eqb_neq n 0)) by done. rewrite (bind_Ok _ _ _ _ _ E3), (bind_Ok _ _ _ _ _ E4). split; [exact E5|]. split; [done|].
  apply V5. rewrite V4. cbn [hreg_effect]. by rewrite Z.lor_spec, orb_true_r.
Qed.

Lemma rirb_stop_spec (c : CommandBuffer) w : quiet_view (hl_view w) →
  ∃ w', rirb_stop (c, w) = (Ok tt, (c, w')) ∧ hl_view w' = set_dma false (hl_view w).
Proof.
  intros Hq. destruct (read_shows HRirbCtl c w Hq) as (x & w1 & E1 & _ & V1).
  destruct (write_next HRirbCtl (Z.land x (unot 8 RIRBDMAEN)) c w1 _ eq_refl) as (w2 & E2 & V2).
  exists w2. unfold rirb_stop, mbind, prog_bind. rewrite (bind_Ok _ _ _ _ _ E1). split; [exact E2|]. rewrite V2, V1. by rewrite Z.land_spec, andb_false_r.
Qed.

Lemma rirb_init_spec (c : CommandBuffer) w :
  let v := hl_view w in let n := rirb_capacity (rirb_offers v) in let addr := hl_page + CORB_BUFF_MAX_SIZE in
  quiet_view v → n ≠ 0 →
  ∃ l w', rirb_init hl_page (c, w) = (Ok tt, (set_rirb_rp 0 (set_rirb_count n c), w')) ∧ length l = length (hv_rirb v) ∧
    hl_view w' = set_rwp 0 (move_rirb (halves addr) l (set_dma false v)).
Proof.
  intros v n addr Hq Hn. destruct (rirb_stop_spec c w Hq) as (w1 & E1 & V1). fold v in V1.
  destruct (read_shows HRirbSize c w1) as (x & w2 & E2 & Hx & V2); [by rewrite V1|]. rewrite V1 in Hx, V2. change (Z.land (Z.shiftr x 4) 0xF = rirb_offers v) in Hx.
  destruct (rirb_address_spec (set_rirb_count n c) w2) as (l & w3 & E3 & Hl & V3). fold addr in E3, V3. rewrite V2 in Hl, V3.
  destruct (writef_next HRirbWp RIRBWPRST (set_rirb_count n c) w3) as (y & w4' & w4 & _ & E4 & V4); [rewrite V3; exact Hq|].
  rewrite V3 in V4. cbn [hreg_effect] in V4. rewrite Z.lor_spec, orb_true_r in V4. specialize (V4 _ eq_refl).
  destruct (write_next HRIntCnt 1 (set_rirb_rp 0 (set_rirb_count n c)) w4 _ eq_refl) as (w5 & E5 & V5).
  exists l, w5. unfold rirb_init, mbind, prog_bind. rewrite (bind_Ok _ _ _ _ _ E1), (bind_Ok _ _ _ _ _ E2), Hx. fold n addr. rewrite (proj2 (Z.eqb_neq n 0)) by done.
  do 2 (erewrite bind_Ok by reflexivity). rewrite (proj2 (Z.eqb_neq n 0)) by done. rewrite (bind_Ok _ _ _ _ _ E3), (bind_Ok _ _ _ _ _ E4).
  erewrite bind_Ok by reflexivity. split; [exact E5|]. by rewrite V5.
Qed.

Lemma interface_spec use_imm (c : CommandBuffer) w :
  quiet_view (hl_view w) → hv_rp (hl_view w) = hv_wp (hl_view w) → (2 <= fuel)%nat →
  ∃ w', set_use_imm_cmds fuel use_imm (c, w) = (Ok tt, (set_use_imm use_imm c, w')) ∧
    hl_view w' = set_dma (negb use_imm) (set_run (negb use_imm) (hl_view w)).
Proof.
  intros Hq Hp Hf. unfold set_use_imm_cmds, mbind, prog_bind. erewrite bind_Ok by reflexivity. destruct use_imm; cbn [negb].
  - destruct (corb_stop_spec (set_use_imm true c) w Hq Hf) as (w1 & E1 & V1). rewrite (bind_Ok _ _ _ _ _ E1), <- V1. apply rirb_stop_spec. rewrite V1. split; [by left|exact (proj2 Hq)].
  - destruct (writef_next HCorbCtl CORBRUN (set_use_imm false c) w Hq) as (x & w1' & w1 & _ & E1 & V1). cbn [hreg_effect] in V1. rewrite Z.lor_spec, orb_true_r in V1. specialize (V1 _ eq_refl).
    destruct (writef_next HRirbCtl (Z.lor RIRBDMAEN RINTCTL) (set_use_imm false c) w1) as (y & w2' & w2 & _ & E2 & V2); [rewrite V1; split; [by right|exact (proj2 Hq)]|].
    cbn [hreg_effect] in V2. rewrite Z.lor_spec, orb_true_r, V1 in V2. specialize (V2 _ eq_refl). exists w2. unfold corb_start, rirb_start. by rewrite (bind_Ok _ _ _ _ _ E1).
Qed.

Lemma capacity_range cap : corb_capacity cap ≠ 0 → 2 <= corb_capacity cap <= 256.
Proof. unfold corb_capacity. repeat case_match; lia. Qed.

Lemma capacity_range' cap : rirb_capacity cap ≠ 0 → 2 <= rirb_capacity cap <= 256.
Proof. unfold rirb_capacity. repeat case_match; lia. Qed.

(** The initialisation leaves the chosen interface ready. *)
Lemma cmdbuf_init_spec use_imm (c : CommandBuffer) w :
  let v := hl_view w in
  quiet_view v → (2 <= fuel)%nat → corb_capacity (corb_offers v) ≠ 0 → rirb_capacity (rirb_offers v) ≠ 0 →
  (use_imm = false → sizes_agree v) →
  ∃ s', cmdbuf_init hl_page fuel use_imm (c, w) = (Ok tt, s') ∧ hda_idle s' ∧ hv_codecs (hl_view s'.2) = hv_codecs v.
Proof.
  intros v Hq Hf Hc Hr Hs. destruct (corb_init_spec c w Hq Hf Hc) as (l & w1 & E1 & Hl & V1). fold v in E1, Hl, V1.
  set (c1 := set_corb_count _ c) in E1. assert (quiet_view (hl_view w1)) as Hq1 by (rewrite V1; split; [by left|exact (proj2 Hq)]).
  destruct (rirb_init_spec c1 w1 Hq1) as (l' & w2 & E2 & Hl' & V2); [by rewrite V1|].
  replace (rirb_offers (hl_view w1)) with (rirb_offers v) in E2 by (by rewrite V1). set (c2 := set_rirb_rp 0 _) in E2. rewrite V1 in V2, Hl'.
  destruct (interface_spec use_imm c2 w2) as (w3 & E3 & V3); [rewrite V2; split; [by left|exact (proj2 Hq)]|by rewrite V2|done|]. rewrite V2 in V3.
  exists (set_use_imm use_imm c2, w3). unfold cmdbuf_init, mbind, prog_bind. rewrite (bind_Ok _ _ _ _ _ E1), (bind_Ok _ _ _ _ _ E2).
  split; [exact E3|]. cbn [snd]. split; [|by rewrite V3]. destruct use_imm.
  - right. split; cbn [fst snd]; [done|by rewrite V3|rewrite V3; exact (proj2 Hq)].
  - left. destruct (Hs eq_refl) as [S1 S2]. pose proof (capacity_range _ Hc). pose proof (capacity_range' _ Hr).
    split; cbn [fst snd]; rewrite ?V3; cbn; rewrite ?V1; cbn; try done; try lia; try exact (proj2 Hq); rewrite ?Hl, ?Hl'; cbn; done || lia.
Qed.

End commands.

(** A sequence of commands, and what the codecs answer to it. *)
Fixpoint hda_cmds {W : Type} `{HIo : Io W HdaReg} `{HM : HdaMem W} (fuel : nat) (cmds : list Z) : prog (CommandBuffer * W) errno (list Z) :=
  match cmds with
  | [] => mret []
  | cmd :: cmds => r ← hda_cmd fuel cmd; rs ← hda_cmds fuel cmds; mret (as_u32 r :: rs)
  end.

Fixpoint codec_run {C : Type} (codec : Z → C → Z * C) (cmds : list Z) (c : C) : list Z * C :=
  match cmds with
  | [] => ([], c)
  | cmd :: cmds => let '(r, c) := codec cmd c in let '(rs, c) := codec_run codec cmds c in (r :: rs, c)
  end.

Lemma hda_cmds_spec {W C : Type} `{HL : HdaLaws W C} fuel cmds (s : CommandBuffer * W) :
  (hl_bound <= fuel)%nat → hda_idle s →
  let '(rs, c) := codec_run hl_codec cmds (hv_codecs (hl_view s.2)) in
  ∃ s', hda_cmds fuel cmds s = (Ok rs, s') ∧ hda_idle s' ∧ hv_codecs (hl_view s'.2) = c.
Proof.
  intros Hf. revert s. induction cmds as [|cmd cmds IH]; intros s Hi; cbn [codec_run hda_cmds]; [by exists s|].
  destruct (hda_cmd_spec fuel Hf cmd s Hi) as (r & s1 & E & Hr & Hi1 & Hc1). specialize (IH s1 Hi1). rewrite Hc1 in IH.
  destruct (hl_codec cmd (hv_codecs (hl_view s.2))) as [r' c1] eqn:Ec. cbn [fst snd] in *.
  destruct (codec_run hl_codec cmds c1) as [rs c2]. destruct IH as (s2 & E2 & Hi2 & Hc2). exists s2.
  unfold mbind, prog_bind. rewrite (bind_Ok _ _ _ _ _ E), (bind_Ok _ _ _ _ _ E2). by subst r'.
Qed.


(** ** A toy controller *)

(** Works on a command at the second look at a register; the codec answers with the command
    plus a counter. *)
Record ToyHda := mk_toy_hda { th_view : HdaView Z; th_lazy : bool }.

Definition toy_codec (cmd c : Z) : Z * Z := (as_u32 (cmd + c), c + 1).

Definition toy_can (v : HdaView Z) : bool := (hv_run v && hv_dma v && negb (hv_rp v =? hv_wp v)) || hv_busy v.

Definition toy_work (v : HdaView Z) : HdaView Z := if hv_busy v then immediate toy_codec v else fetch toy_codec v.

Definition toy_look (w : ToyHda) : ToyHda :=
  if toy_can (th_view w) then if th_lazy w then mk_toy_hda (th_view w) false else mk_toy_hda (toy_work (th_view w)) true else w.

Definition toy_value (r : HdaReg) (v : HdaView Z) : Z :=
  match r with
  | HCorbRp => hv_rp v
  | HCorbCtl => Z.shiftl (of_bool (hv_run v)) 1
  | HCorbSize => Z.shiftl (hc_ccap (hv_cfg v)) 4
  | HRirbSize => Z.shiftl (hc_rcap (hv_cfg v)) 4
  | _ => default 0 (hreg_value r v)
  end.

Definition toy_write (r : HdaReg) (x : Z) (v : HdaView Z) : HdaView Z :=
  let g := hv_cfg v in
  match r with
  | HCorbLBase => move_corb (x, (hc_cbase g).2) (hv_corb v) v
  | HCorbUBase => move_corb ((hc_cbase g).1, x) (hv_corb v) v
  | HRirbLBase => move_rirb (x, (hc_rbase g).2) (hv_rirb v) v
  | HRirbUBase => move_rirb ((hc_rbase g).1, x) (hv_rirb v) v
  | _ => default v (hreg_effect r x v)
  end.

#[export] Instance toy_hda_io : Io ToyHda HdaReg := {|
  io_width := 32;
  io_read r w := let w := toy_look w in (toy_value r (th_view w), w);
  io_write r x w := mk_toy_hda (toy_write r x (th_view w)) (th_lazy w);
|}.

#[export] Instance toy_hda_mem : HdaMem ToyHda := {|
  corb_put i x w := mk_toy_hda (set_corb (<[Z.to_nat i := x]> (hv_corb (th_view w))) (th_view w)) (th_lazy w);
  rirb_get i w := default 0 (hv_rirb (th_view w) !! Z.to_nat i);
|}.

Lemma toy_can_step v : toy_can v = true → hstep toy_codec v (toy_work v).
Proof.
  unfold toy_can, toy_work. destruct (hv_busy v) eqn:Eb; [by intros _; apply hs_immediate|]. rewrite orb_false_r.
  intros H. apply andb_true_iff in H as [H H3]. apply andb_true_iff in H as [H1 H2]. apply hs_fetch; [done|done|].
  apply negb_true_iff, Z.eqb_neq in H3. done.
Qed.

Lemma toy_step_can v v' : hstep toy_codec v v' → toy_can v = true.
Proof.
  intros [v1 H1 H2 H3|v1 Hb]; unfold toy_can; [|by rewrite Hb, orb_true_r]. rewrite H1, H2. by rewrite (proj2 (Z.eqb_neq _ _) H3).
Qed.

#[export, program] Instance toy_hda_laws : HdaLaws ToyHda Z := {|
  hl_codec := toy_codec; hl_view := th_view; hl_left w := if th_lazy w then 1%nat else 0%nat; hl_bound := 2; hl_page := 0x5000;
|}.
Next Obligation. split; [done|unfold u_range; lia]. Qed.
Next Obligation. done. Qed.
Next Obligation. intros w. cbv beta. case_match; lia. Qed.
Next Obligation. intros cmd c. apply (u_range_as_u 32). lia. Qed.
Next Obligation.
  intros r w x w' E. cbn [io_read toy_hda_io] in E. injection E as <- <-. split_and!.
  - unfold toy_look. destruct (toy_can (th_view w)) eqn:Ec; [|apply rtc_refl]. destruct (th_lazy w); [apply rtc_refl|]. by apply rtc_once, toy_can_step.
  - intros y Hy. unfold toy_value. destruct r; try done; by rewrite Hy.
  - destruct r; try done; cbn [hreg_shows toy_value].
    + rewrite Z.shiftl_spec by lia. by destruct (hv_run _).
    + by rewrite Z.shiftr_shiftl_l, Z.shiftl_0_r by lia.
    + by rewrite Z.shiftr_shiftl_l, Z.shiftl_0_r by lia.
  - intros (v & Hs). apply toy_step_can in Hs. unfold toy_look in *. destruct (toy_can (th_view w)) eqn:Ec; [|congruence].
    destruct (th_lazy w); [left; cbn; lia|]. right. by apply tc_once, toy_can_step.
Qed.
Next Obligation. intros r x w v E. destruct r; try done; by injection E as <-. Qed.
Next Obligation. intros r x w. destruct r; try done; cbn; eauto. Qed.
Next Obligation. done. Qed.
Next Obligation.
  intros i w x Hi _ Hx. cbn. by rewrite Hx.
Qed.

(** A controller with rings of [n] commands and [m] answers that offers the sizes [nc] and [mc],
    stopped. *)
Definition toy_hda (n m : nat) (nc mc : Z) : ToyHda :=
  mk_toy_hda (mk_hview 0 0 false (replicate n 0) 0 false (replicate m 0) 0 0 false false 5 (mk_hcfg (0, 0) (0, 0) nc mc)) true.


(** On a controller whose response ring has 16 entries (the capability the driver takes
    for 8) the eighth command is answered with what was in entry 0 of the ring, and from
    then on every command gets the answer to a command sent eight commands before; nothing
    reports an error. *)
Theorem rirb_16_wrong_answer :
  rirb_capacity 2 = 8 ∧
  ((_ ← cmdbuf_init 0x5000 3 false; hda_cmds (W := ToyHda) 3 [1001; 1002; 1003; 1004; 1005; 1006; 1007; 1008; 1009; 1010])
     (cmdbuf_new, toy_hda 16 16 2 2)).1
  = Ok [1006; 1008; 1010; 1012; 1014; 1016; 1018; 0; 1006; 1008] ∧
  (codec_run toy_codec [1001; 1002; 1003; 1004; 1005; 1006; 1007; 1008; 1009; 1010] 5).1
  = [1006; 1008; 1010; 1012; 1014; 1016; 1018; 1020; 1022; 1024].
Proof. split_and!; by vm_compute. Qed.
