(* ===== verification/HdaDevice.v ===== *)
(** The device of ihdad: stream descriptors and buffers (audio/ihdad/src/hda/stream.rs), widgets
    (node.rs, common.rs) and the driver with its scheme (device.rs).

    [path_to_dac] shows that the path the driver configures is the path of default connections
    of the graph it has read, [stream_ring] that the controller plays the blocks written, in
    order; [cyclic_path_endless] is a graph on which the search has no end. *)

From S2P Require Import Prelude Io Hda.

(** ** Formats *)

Inductive BaseRate : Type := BR44_1 | BR48.
Record SampleRate := mk_rate { sr_base : BaseRate; sr_mult : Z; sr_div : Z }.

Definition SR_8 := mk_rate BR48 1 6.
Definition SR_11_025 := mk_rate BR44_1 1 4.
Definition SR_16 := mk_rate BR48 1 3.
Definition SR_22_05 := mk_rate BR44_1 1 2.
Definition SR_32 := mk_rate BR48 2 3.
Definition SR_44_1 := mk_rate BR44_1 1 1.
Definition SR_48 := mk_rate BR48 1 1.
Definition SR_88_1 := mk_rate BR44_1 2 1.
Definition SR_96 := mk_rate BR48 2 1.
Definition SR_176_4 := mk_rate BR44_1 4 1.
Definition SR_192 := mk_rate BR48 4 1.

Inductive BitsPerSample : Type := Bits8 | Bits16 | Bits20 | Bits24 | Bits32.
Definition bits_code (b : BitsPerSample) : Z := match b with Bits8 => 0 | Bits16 => 1 | Bits20 => 2 | Bits24 => 3 | Bits32 => 4 end.

Definition format_to_u16 (sr : SampleRate) (bps : BitsPerSample) (channels : Z) : Z :=
  let base := match sr_base sr with BR44_1 => Z.shiftl 1 14 | BR48 => 0 end in
  let mult := as_u16 (Z.shiftl (Z.land (sr_mult sr - 1) 0x7) 11) in
  let div := as_u16 (Z.shiftl (Z.land (sr_div sr - 1) 0x7) 8) in
  let bits := as_u16 (Z.shiftl (bits_code bps) 4) in
  let chan := Z.land (channels - 1) 0xF in
  Z.lor (Z.lor (Z.lor (Z.lor base mult) div) bits) chan.

(** ** Widgets *)

(** (codec, node). *)
Abbreviation WidgetAddr := (Z * Z)%type.

Inductive HDAWidgetType : Type :=
| WtAudioOutput | WtAudioInput | WtAudioMixer | WtAudioSelector | WtPinComplex | WtPower | WtVolumeKnob | WtBeepGenerator
| WtVendorDefined.

#[export] Instance HDAWidgetType_eq_dec : EqDecision HDAWidgetType.
Proof. solve_decision. Defined.

(** The values 8 to 14 have no name; the transmute of them is undefined. *)
Definition widget_type_of (x : Z) : option HDAWidgetType :=
  match x with
  | 0 => Some WtAudioOutput | 1 => Some WtAudioInput | 2 => Some WtAudioMixer | 3 => Some WtAudioSelector | 4 => Some WtPinComplex
  | 5 => Some WtPower | 6 => Some WtVolumeKnob | 7 => Some WtBeepGenerator | 15 => Some WtVendorDefined | _ => None
  end.

Inductive DefaultDevice : Type :=
| DdLineOut | DdSpeaker | DdHPOut | DdCD | DdSPDIF | DdDigitalOtherOut | DdModemLineSide | DdModemHandsetSide
| DdLineIn | DdAUX | DdMicIn | DdTelephony | DdSPDIFIn | DdDigitalOtherIn | DdReserved | DdOther.

#[export] Instance DefaultDevice_eq_dec : EqDecision DefaultDevice.
Proof. solve_decision. Defined.

Definition default_device_of (x : Z) : DefaultDevice :=
  match x with
  | 0 => DdLineOut | 1 => DdSpeaker | 2 => DdHPOut | 3 => DdCD | 4 => DdSPDIF | 5 => DdDigitalOtherOut | 6 => DdModemLineSide
  | 7 => DdModemHandsetSide | 8 => DdLineIn | 9 => DdAUX | 10 => DdMicIn | 11 => DdTelephony | 12 => DdSPDIFIn
  | 13 => DdDigitalOtherIn | 14 => DdReserved | _ => DdOther
  end.

(** [ConfigurationDefault] over its word. *)
Definition default_device (value : Z) : DefaultDevice := default_device_of (Z.land (Z.shiftr value 20) 0xF).
Definition sequence (value : Z) : Z := as_u8 (Z.land value 0xF).
Definition default_association (value : Z) : Z := as_u8 (Z.land (Z.shiftr value 4) 0xF).

Definition is_output (value : Z) : bool :=
  match default_device value with
  | DdLineOut | DdSpeaker | DdHPOut | DdCD | DdSPDIF | DdDigitalOtherOut | DdModemLineSide => true
  | _ => false
  end.

Definition is_input (value : Z) : bool :=
  match default_device value with
  | DdModemHandsetSide | DdLineIn | DdAUX | DdMicIn | DdTelephony | DdSPDIFIn | DdDigitalOtherIn => true
  | _ => false
  end.

Record HDANode := mk_node {
  nd_addr : WidgetAddr; nd_subnode_count : Z; nd_subnode_start : Z; nd_function_group_type : Z; nd_capabilities : Z;
  nd_conn_list_len : Z; nd_connections : list WidgetAddr; nd_connection_default : Z; nd_is_widget : bool; nd_config_default : Z;
}.

Definition widget_type (n : HDANode) : option HDAWidgetType := widget_type_of (Z.land (Z.shiftr (nd_capabilities n) 20) 0xF).

Definition device_default (n : HDANode) : option (option DefaultDevice) :=
  t ← widget_type n;
  Some (if bool_decide (t = WtPinComplex) then Some (default_device (nd_config_default n)) else None).

(** ** Stream buffers *)

Definition NUM_SUB_BUFFS : Z := 32.
Definition SUB_BUFF_SIZE : Z := 2048.

Record StreamBuffer := mk_sbuf { sb_mem : list Z; sb_phys : Z; sb_block_cnt : Z; sb_block_len : Z; sb_cur_pos : Z }.

(** [None]: no memory. *)
Definition stream_buffer_new (alloc : Z → option Z) (block_length block_count : Z) : option StreamBuffer :=
  let size := next_multiple_of (block_length * block_count) 4096 in
  phys ← alloc size;
  Some (mk_sbuf (replicate (Z.to_nat size) 0) phys block_count block_length 0).

Definition sb_length (b : StreamBuffer) : Z := sb_block_len b * sb_block_cnt b.

Definition write_block (buf : list Z) (b : StreamBuffer) : res errno Z * StreamBuffer :=
  if negb (Z.of_nat (length buf) =? sb_block_len b) then (Err EIO, b)
  else if sb_block_cnt b =? 0 then (Panic, b)
  else
    let mem := splice (Z.to_nat (sb_cur_pos b * sb_block_len b)) buf (sb_mem b) in
    (Ok (Z.min (sb_block_len b) (Z.of_nat (length buf))),
     mk_sbuf mem (sb_phys b) (sb_block_cnt b) (sb_block_len b) ((sb_cur_pos b + 1) mod sb_block_cnt b)).

(** A descriptor of the buffer list. *)
Record BdlEntry := mk_bdl { bd_addr_low : Z; bd_addr_high : Z; bd_len : Z; bd_ioc : Z }.

Definition bdl_address (e : BdlEntry) : Z := Z.lor (bd_addr_low e) (Z.shiftl (bd_addr_high e) 32).
Definition bdl_set_address (addr : Z) (e : BdlEntry) : BdlEntry := mk_bdl (as_u32 addr) (as_u32 (Z.shiftr addr 32)) (bd_len e) (bd_ioc e).
Definition bdl_set_length (len : Z) (e : BdlEntry) : BdlEntry := mk_bdl (bd_addr_low e) (bd_addr_high e) len (bd_ioc e).
Definition bdl_interrupt_on_completion (e : BdlEntry) : bool := Z.land (bd_ioc e) 1 =? 1.
Definition bdl_set_interrupt_on_complete (ioc : bool) (e : BdlEntry) : BdlEntry :=
  mk_bdl (bd_addr_low e) (bd_addr_high e) (bd_len e) (if ioc then Z.lor (bd_ioc e) 1 else Z.land (bd_ioc e) (unot 32 1)).

(** ** The driver *)

Inductive HdaHandle : Type := HhTodo | HhStrBuf (text : list Z) (pos : Z).

Record IntelHDA := mk_hda {
  hd_cmd : CommandBuffer; hd_codecs : list Z; hd_outputs : list WidgetAddr; hd_inputs : list WidgetAddr;
  hd_widget_map : gmap WidgetAddr HDANode; hd_output_pins : list WidgetAddr; hd_input_pins : list WidgetAddr;
  hd_beep_addr : WidgetAddr; hd_buff_desc : list BdlEntry; hd_output_streams : list StreamBuffer;
  hd_int_counter : Z; hd_handles : gmap Z HdaHandle; hd_next_id : Z;
}.

Definition hda_new : IntelHDA :=
  mk_hda cmdbuf_new [] [] [] ∅ [] [] (0, 0) (replicate 256 (mk_bdl 0 0 0 0)) [] 0 ∅ 0.

Definition set_hd_cmd (x : CommandBuffer) (d : IntelHDA) : IntelHDA :=
  mk_hda x (hd_codecs d) (hd_outputs d) (hd_inputs d) (hd_widget_map d) (hd_output_pins d) (hd_input_pins d) (hd_beep_addr d) (hd_buff_desc d) (hd_output_streams d) (hd_int_counter d) (hd_handles d) (hd_next_id d).
Definition set_hd_codecs (x : list Z) (d : IntelHDA) : IntelHDA :=
  mk_hda (hd_cmd d) x (hd_outputs d) (hd_inputs d) (hd_widget_map d) (hd_output_pins d) (hd_input_pins d) (hd_beep_addr d) (hd_buff_desc d) (hd_output_streams d) (hd_int_counter d) (hd_handles d) (hd_next_id d).
Definition set_hd_graph (outputs inputs : list WidgetAddr) (m : gmap WidgetAddr HDANode) (opins ipins : list WidgetAddr) (beep : WidgetAddr) (d : IntelHDA) : IntelHDA :=
  mk_hda (hd_cmd d) (hd_codecs d) outputs inputs m opins ipins beep (hd_buff_desc d) (hd_output_streams d) (hd_int_counter d) (hd_handles d) (hd_next_id d).
Definition set_hd_streams (bd : list BdlEntry) (x : list StreamBuffer) (d : IntelHDA) : IntelHDA :=
  mk_hda (hd_cmd d) (hd_codecs d) (hd_outputs d) (hd_inputs d) (hd_widget_map d) (hd_output_pins d) (hd_input_pins d) (hd_beep_addr d) bd x (hd_int_counter d) (hd_handles d) (hd_next_id d).
Definition set_hd_handles (ints : Z) (x : gmap Z HdaHandle) (next : Z) (d : IntelHDA) : IntelHDA :=
  mk_hda (hd_cmd d) (hd_codecs d) (hd_outputs d) (hd_inputs d) (hd_widget_map d) (hd_output_pins d) (hd_input_pins d) (hd_beep_addr d) (hd_buff_desc d) (hd_output_streams d) ints x next.

Section device.
Context {W : Type} `{HIo : Io W HdaReg} `{HM : HdaMem W}.
(** Physical addresses of the command rings and of the descriptor list, allocation of stream
    memory, the patience of spin loops, the text of a widget, and whether messages of the
    debug level are written (their arguments read registers and send commands). *)
Context (cmd_phys bdl_phys : Z) (alloc : Z → option Z) (fuel : nat) (node_text : HDANode → list Z) (debug : bool).

Abbreviation dp := (prog (IntelHDA * W) errno).

(** The command buffer is a part of the driver. *)
Definition lift_cmd {A : Type} (m : prog (CommandBuffer * W) errno A) : dp A := λ '(d, w),
  let '(r, (c, w)) := m (hd_cmd d, w) in (r, (set_hd_cmd c d, w)).

Definition hcmd12 (addr : WidgetAddr) (command data : Z) : dp Z := lift_cmd (cmd12 fuel addr command data).
Definition hcmd4 (addr : WidgetAddr) (command data : Z) : dp Z := lift_cmd (cmd4 fuel addr command data).
Definition dreg_read (r : HdaReg) : dp Z := lift_cmd (hreg_read r).
Definition dreg_write (r : HdaReg) (v : Z) : dp unit := lift_cmd (hreg_write r v).
Definition on_hda (f : IntelHDA → IntelHDA) : dp unit := modify (λ '(d, w), (f d, w)).
Definition hda_gets {A : Type} (f : IntelHDA → A) : dp A := gets (λ s, f s.1).

(** *** Stream registers *)

Definition sd_control (i : Z) : dp Z :=
  lo ← dreg_read (HSdCtlLo i);
  hi ← dreg_read (HSdCtlHi i);
  mret (Z.lor lo (Z.shiftl hi 16)).

Definition sd_set_control (i control : Z) : dp unit :=
  _ ← dreg_write (HSdCtlLo i) (as_u16 (Z.land control 0xFFFF));
  dreg_write (HSdCtlHi i) (as_u8 (Z.land (Z.shiftr control 16) 0xFF)).

Definition sd_set_pcm_format (i : Z) (sr : SampleRate) (bps : BitsPerSample) (channels : Z) : dp unit :=
  dreg_write (HSdFormat i) (format_to_u16 sr bps channels).

Definition sd_run (i : Z) : dp unit := c ← sd_control i; sd_set_control i (Z.lor c (Z.shiftl 1 1)).
Definition sd_stop (i : Z) : dp unit := c ← sd_control i; sd_set_control i (Z.land c (unot 32 (Z.shiftl 1 1))).
Definition sd_stream_number (i : Z) : dp Z := c ← sd_control i; mret (as_u8 (Z.land (Z.shiftr c 20) 0xF)).
Definition sd_set_stream_number (i n : Z) : dp unit :=
  c ← sd_control i;
  sd_set_control i (Z.lor (Z.land c 0x00FFFF) (as_u32 (Z.shiftl (Z.land n 0xF) 20))).
Definition sd_set_address (i addr : Z) : dp unit :=
  _ ← dreg_write (HSdBdlLo i) (as_u32 (Z.land addr 0xFFFFFFFF));
  dreg_write (HSdBdlHi i) (as_u32 (Z.land (Z.shiftr addr 32) 0xFFFFFFFF)).
Definition sd_set_interrupt_on_completion (i : Z) (enable : bool) : dp unit :=
  c ← sd_control i;
  sd_set_control i (if enable then Z.lor c (Z.shiftl 1 2) else Z.land c (unot 32 (Z.shiftl 1 2))).
Definition sd_clear_interrupts (i : Z) : dp unit := dreg_write (HSdSts i) (Z.shiftl 0x7 2).
Definition sd_sample_size (i : Z) : dp Z :=
  format ← dreg_read (HSdFormat i);
  let chan := Z.land format 0xF in
  mret (match Z.land (Z.shiftr format 4) 0xF with 0 => 1 * (chan + 1) | 1 => 2 * (chan + 1) | _ => 4 * (chan + 1) end).

(** *** Controller *)

Definition num_output_streams : dp Z := g ← dreg_read HGcap; mret (Z.land (Z.shiftr g 12) 0xF).
Definition num_input_streams : dp Z := g ← dreg_read HGcap; mret (Z.land (Z.shiftr g 8) 0xF).
Definition num_bidirectional_streams : dp Z := g ← dreg_read HGcap; mret (Z.land (Z.shiftr g 3) 0xF).
Definition num_serial_data_out : dp Z := g ← dreg_read HGcap; mret (Z.land (Z.shiftr g 1) 0x3).

Definition when_debug (m : dp unit) : dp unit := if debug then m else mret tt.

(** What the driver says about the controller. *)
Definition hda_info : dp unit :=
  _ ← dreg_read HVmaj;
  _ ← dreg_read HVmin;
  when_debug (
    _ ← num_input_streams;
    _ ← num_output_streams;
    _ ← num_bidirectional_streams;
    _ ← num_serial_data_out;
    _ ← dreg_read HGcap;
    mret tt).

Definition set_dma_position_buff_addr (addr : Z) : dp unit :=
  let addr_val := Z.land addr (unot 64 0x7F) in
  _ ← dreg_write HDplBase (as_u32 (Z.land addr_val 0xFFFFFFFF));
  dreg_write HDpuBase (as_u32 (Z.shiftr addr_val 32)).

(** The descriptors are numbered: inputs, outputs, bidirectional ones. *)
Definition get_input_stream_descriptor (index : Z) : dp (option Z) :=
  iss ← num_input_streams;
  mret (if index <? iss then Some index else None).
Definition get_output_stream_descriptor (index : Z) : dp (option Z) :=
  oss ← num_output_streams;
  if index <? oss then iss ← num_input_streams; mret (Some (iss + index)) else mret None.
Definition get_bidirectional_stream_descriptor (index : Z) : dp (option Z) :=
  bss ← num_bidirectional_streams;
  if index <? bss then iss ← num_input_streams; oss ← num_output_streams; mret (Some (iss + oss + index)) else mret None.

Fixpoint wait_statests (n : nat) : dp unit :=
  match n with
  | O => mret tt
  | S n => v ← dreg_read HStatests; if v =? 0 then wait_statests n else mret tt
  end.

Definition codec_bits (statests : Z) : list Z := filter (λ i, Z.land (Z.shiftr statests i) 1 = 1) (seqZ 0 15).

Definition reset_controller : dp bool :=
  _ ← dreg_write HStatests 0xFFFF;
  _ ← lift_cmd (hreg_writef HGctl 1 false);
  _ ← lift_cmd (hda_spin fuel (hreg_readf HGctl 1));
  _ ← lift_cmd (hreg_writef HGctl 1 true);
  _ ← lift_cmd (hda_spin fuel (b ← hreg_readf HGctl 1; mret (negb b)));
  _ ← wait_statests (Z.to_nat 10001);
  statests ← dreg_read HStatests;
  _ ← on_hda (λ d, set_hd_codecs (hd_codecs d ++ codec_bits statests) d);
  mret true.

Definition hda_init_interrupts : dp unit :=
  iss ← num_input_streams;
  dreg_write HIntCtl (Z.lor (Z.shiftl 1 31) (as_u32 (Z.shiftl 1 iss))).

Definition hda_init (vend_prod : Z) : dp bool :=
  _ ← reset_controller;
  _ ← lift_cmd (cmdbuf_init cmd_phys fuel (negb (vend_prod =? 0x80862668)));
  _ ← hda_init_interrupts;
  mret true.

(** *** Widgets *)

(** The addresses of one answer; a field of 0 ends it, a marked one closes a range that the
    one before it began. *)
Fixpoint add_fields (codec mark : Z) (fields : list Z) (l : list WidgetAddr) : option (list WidgetAddr) :=
  match fields with
  | [] => Some l
  | f :: fields =>
      let addr := Z.land f (Z.ones mark) in
      if addr =? 0 then Some l
      else if Z.land (Z.shiftr f mark) 1 =? 1 then
        '(_, first) ← last l;
        add_fields codec mark fields (take (length l - 1) l ++ ((λ i, (codec, i)) <$> seqZ first (addr + 1 - first)))
      else add_fields codec mark fields (l ++ [(codec, addr)])
  end.

Definition short_fields (r : Z) : list Z := (λ i, Z.land (Z.shiftr r (8 * i)) 0xFF) <$> [0; 1; 2; 3].
Definition long_fields (r : Z) : list Z := (λ i, Z.land (Z.shiftr r (16 * i)) 0xFFFF) <$> [0; 1].

Fixpoint connection_loop (n : nat) (addr : WidgetAddr) (use_long_addr : bool) (count current : Z) (l : list WidgetAddr) : dp (list WidgetAddr) :=
  if count <=? current then mret l
  else
    match n with
    | O => throw ETIMEDOUT
    | S n =>
        r ← hcmd12 addr 0xF02 current;
        let response := as_u32 r in
        l ← unwrap (if use_long_addr then add_fields addr.1 15 (long_fields response) l else add_fields addr.1 7 (short_fields response) l);
        connection_loop n addr use_long_addr count (as_u8 (Z.of_nat (length l))) l
    end.

Definition node_get_connection_list (addr : WidgetAddr) : dp (list WidgetAddr) :=
  r ← hcmd12 addr 0xF00 0x0E;
  let len_field := as_u8 r in
  connection_loop fuel addr (Z.land (Z.shiftr len_field 7) 1 =? 1) (Z.land len_field 0x7F) 0 [].

Definition read_node (addr : WidgetAddr) : dp HDANode :=
  temp ← hcmd12 addr 0xF00 0x04;
  let count := as_u16 (Z.land temp 0xFF) in
  let start := as_u16 (Z.land (Z.shiftr temp 16) 0xFF) in
  if bool_decide (addr = (0, 0)) then mret (mk_node addr count start 0 0 0 [] 0 false 0)
  else
    temp ← hcmd12 addr 0xF00 0x04;
    let fgt := as_u8 (Z.land temp 0xFF) in
    caps ← hcmd12 addr 0xF00 0x09;
    len ← hcmd12 addr 0xF00 0x0E;
    conns ← node_get_connection_list addr;
    def ← hcmd12 addr 0xF01 0x00;
    config ← hcmd12 addr 0xF1C 0x00;
    mret (mk_node addr count start fgt (as_u32 caps) (as_u8 (Z.land len 0xFF)) conns (as_u8 def) false (as_u32 config)).

Definition mark_widget (n : HDANode) : HDANode :=
  mk_node (nd_addr n) (nd_subnode_count n) (nd_subnode_start n) (nd_function_group_type n) (nd_capabilities n) (nd_conn_list_len n)
    (nd_connections n) (nd_connection_default n) true (nd_config_default n).

(** Where a widget goes. *)
Definition place_widget (t : HDAWidgetType) (n : HDANode) (d : IntelHDA) : IntelHDA :=
  let a := nd_addr n in
  let m := <[a := n]> (hd_widget_map d) in
  match t with
  | WtAudioOutput => set_hd_graph (hd_outputs d ++ [a]) (hd_inputs d) m (hd_output_pins d) (hd_input_pins d) (hd_beep_addr d) d
  | WtAudioInput => set_hd_graph (hd_outputs d) (hd_inputs d ++ [a]) m (hd_output_pins d) (hd_input_pins d) (hd_beep_addr d) d
  | WtBeepGenerator => set_hd_graph (hd_outputs d) (hd_inputs d) m (hd_output_pins d) (hd_input_pins d) a d
  | WtPinComplex =>
      if is_output (nd_config_default n) then set_hd_graph (hd_outputs d) (hd_inputs d) m (hd_output_pins d ++ [a]) (hd_input_pins d) (hd_beep_addr d) d
      else if is_input (nd_config_default n) then set_hd_graph (hd_outputs d) (hd_inputs d) m (hd_output_pins d) (hd_input_pins d ++ [a]) (hd_beep_addr d) d
      else set_hd_graph (hd_outputs d) (hd_inputs d) m (hd_output_pins d) (hd_input_pins d) (hd_beep_addr d) d
  | _ => set_hd_graph (hd_outputs d) (hd_inputs d) m (hd_output_pins d) (hd_input_pins d) (hd_beep_addr d) d
  end.

Fixpoint enumerate_widgets (n : nat) (codec nid : Z) : dp unit :=
  match n with
  | O => mret tt
  | S n =>
      widget ← read_node (codec, nid);
      let widget := mark_widget widget in
      t ← unwrap (widget_type widget);
      _ ← on_hda (place_widget t widget);
      enumerate_widgets n codec (nid + 1)
  end.

Fixpoint enumerate_groups (n : nat) (codec nid : Z) : dp unit :=
  match n with
  | O => mret tt
  | S n =>
      afg ← read_node (codec, nid);
      _ ← enumerate_widgets (Z.to_nat (nd_subnode_count afg)) codec (nd_subnode_start afg);
      enumerate_groups n codec (nid + 1)
  end.

(** Only codec 0 is looked at. *)
Definition hda_enumerate : dp unit :=
  _ ← on_hda (λ d, set_hd_graph (hd_outputs d) (hd_inputs d) (hd_widget_map d) [] [] (hd_beep_addr d) d);
  root ← read_node (0, 0);
  enumerate_groups (Z.to_nat (nd_subnode_count root)) 0 (nd_subnode_start root).

(** The first pin of a kind that has something plugged in. *)
Fixpoint find_pin (want : DefaultDevice) (outs : list WidgetAddr) : dp (option WidgetAddr) :=
  match outs with
  | [] => mret None
  | out :: outs =>
      m ← hda_gets hd_widget_map;
      widget ← unwrap (m !! out);
      let cd := nd_config_default widget in
      if (sequence cd =? 0) && bool_decide (default_device cd = want) then
        pin_caps ← hcmd12 (nd_addr widget) 0xF00 0x0C;
        if negb (Z.land pin_caps (Z.shiftl 1 2) =? 0) then
          pin_sense ← hcmd12 (nd_addr widget) 0xF09 0;
          if Z.land pin_sense (Z.shiftl 1 31) =? 0 then find_pin want outs else mret (Some out)
        else mret (Some out)
      else find_pin want outs
  end.

Definition find_best_output_pin : dp (option WidgetAddr) :=
  outs ← hda_gets hd_output_pins;
  match outs with
  | [] => mret None
  | [out] => mret (Some out)
  | _ =>
      r ← find_pin DdHPOut outs;
      match r with
      | Some out => mret (Some out)
      | None => find_pin DdSpeaker outs
      end
  end.

(** The default connections from a pin to a converter.  The outer result is a panic (a widget
    that is not known, an undefined type, or recursion without end). *)
Fixpoint find_path_to_dac (n : nat) (m : gmap WidgetAddr HDANode) (addr : WidgetAddr) : res errno (option (list WidgetAddr)) :=
  match n with
  | O => Panic
  | S n =>
      match m !! addr with
      | None => Panic
      | Some widget =>
          match widget_type widget with
          | None => Panic
          | Some WtAudioOutput => Ok (Some [addr])
          | Some _ =>
              match nd_connections widget !! Z.to_nat (nd_connection_default widget) with
              | None => Ok None
              | Some connection =>
                  match find_path_to_dac n m connection with
                  | Ok (Some path) => Ok (Some (addr :: path))
                  | r => r
                  end
              end
          end
      end
  end.

(** *** Configuration *)

Definition set_stream_channel (addr : WidgetAddr) (stream channel : Z) : dp unit :=
  _ ← hcmd12 addr 0x706 (Z.lor (as_u8 (Z.shiftl (Z.land stream 0xF) 4)) (Z.land channel 0xF));
  mret tt.
Definition set_power_state (addr : WidgetAddr) (state : Z) : dp unit := _ ← hcmd12 addr 0x705 (Z.land state 0xF); mret tt.
Definition get_supported_formats (addr : WidgetAddr) : dp Z := r ← hcmd12 addr 0xF00 0x0A; mret (as_u32 r).
Definition get_capabilities (addr : WidgetAddr) : dp Z := r ← hcmd12 addr 0xF00 0x09; mret (as_u32 r).
Definition set_converter_format (addr : WidgetAddr) (sr : SampleRate) (bps : BitsPerSample) (channels : Z) : dp unit :=
  _ ← hcmd4 addr 0x2 (format_to_u16 sr bps channels);
  mret tt.

Definition amp_payload (output input left right : bool) (index : Z) (mute : bool) (gain : Z) : Z :=
  let bit (b : bool) k := if b then Z.shiftl 1 k else 0 in
  Z.lor (Z.lor (Z.lor (Z.lor (Z.lor (Z.lor (bit output 15) (bit input 14)) (bit left 13)) (bit right 12)) (bit mute 7))
    (as_u16 (Z.shiftl (Z.land index 0xF) 8))) (Z.land gain 0x7F).

Definition set_amplifier_gain_mute (addr : WidgetAddr) (output input left right : bool) (index : Z) (mute : bool) (gain : Z) : dp unit :=
  _ ← hcmd4 addr 0x3 (amp_payload output input left right index mute gain);
  mret tt.

Fixpoint for_each {A : Type} (f : A → dp unit) (l : list A) : dp unit :=
  match l with [] => mret tt | x :: l => _ ← f x; for_each f l end.

Definition set_bdl (o : StreamBuffer) (i : nat) (e : BdlEntry) : BdlEntry :=
  bdl_set_interrupt_on_complete true (bdl_set_length (as_u32 (sb_block_len o)) (bdl_set_address (sb_phys o + sb_block_len o * Z.of_nat i) e)).

(** The first [n] descriptors are set, in the order of the list. *)
Definition fill_bdl (o : StreamBuffer) (n : nat) (l : list BdlEntry) : list BdlEntry :=
  imap (λ i e, if (i <? n)%nat then set_bdl o i e else e) l.

Definition update_sound_buffers : dp unit :=
  r ← get_output_stream_descriptor 0;
  _ ← unwrap r;
  b ← unwrap (stream_buffer_new alloc SUB_BUFF_SIZE NUM_SUB_BUFFS);
  _ ← on_hda (λ d, set_hd_streams (hd_buff_desc d) (hd_output_streams d ++ [b]) d);
  o ← hda_gets (λ d, hd_output_streams d !! 0%nat);
  o ← unwrap o;
  on_hda (λ d, set_hd_streams (fill_bdl o (Z.to_nat NUM_SUB_BUFFS) (hd_buff_desc d)) (hd_output_streams d) d).

(** Full gain on the amplifiers a widget has. *)
Definition unmute (addr : WidgetAddr) : dp unit :=
  caps ← hcmd12 addr 0xF00 0x09;
  _ ← (if negb (Z.land caps (Z.shiftl 1 1) =? 0) then
         in_caps ← hcmd12 addr 0xF00 0x0D;
         set_amplifier_gain_mute addr false true true true 0 false (as_u8 (Z.land in_caps 0x7F))
       else mret tt);
  if negb (Z.land caps (Z.shiftl 1 2) =? 0) then
    out_caps ← hcmd12 addr 0xF00 0x12;
    set_amplifier_gain_mute addr true false true true 0 false (as_u8 (Z.land out_caps 0x7F))
  else mret tt.

Definition find_path (pin : WidgetAddr) : dp (option (list WidgetAddr)) := λ s, (find_path_to_dac fuel (hd_widget_map s.1) pin, s).

(** Spins until the stream runs. *)
Fixpoint hda_wait_running (n : nat) (output : Z) : dp unit :=
  match n with
  | O => throw ETIMEDOUT
  | S n => c ← sd_control output; if Z.land c (Z.shiftl 1 1) =? 0 then hda_wait_running n output else mret tt
  end.

Definition configure : dp unit :=
  pin ← find_best_output_pin;
  outpin ← unwrap pin;
  path ← find_path outpin;
  path ← unwrap path;
  dac ← unwrap (last path);
  pin ← unwrap (head path);
  _ ← for_each (λ addr, set_power_state addr 0) path;
  _ ← hcmd12 pin 0x707 0xC0;
  _ ← hcmd12 pin 0x70C 2;
  _ ← set_stream_channel dac 1 0;
  _ ← update_sound_buffers;
  _ ← when_debug (_ ← get_supported_formats (0, 1); _ ← get_capabilities pin; mret tt);
  output ← get_output_stream_descriptor 0;
  output ← unwrap output;
  _ ← sd_set_address output bdl_phys;
  _ ← sd_set_pcm_format output SR_44_1 Bits16 2;
  _ ← dreg_write (HSdBuffLen output) (as_u32 (NUM_SUB_BUFFS * SUB_BUFF_SIZE));
  _ ← sd_set_stream_number output 1;
  _ ← dreg_write (HSdLvi output) (as_u16 (NUM_SUB_BUFFS - 1));
  _ ← sd_set_interrupt_on_completion output true;
  _ ← set_converter_format dac SR_44_1 Bits16 2;
  _ ← hcmd12 dac 0xA00 0;
  _ ← for_each unmute path;
  _ ← sd_run output;
  _ ← hda_wait_running fuel output;
  when_debug (_ ← sd_control output; _ ← dreg_read (HSdSts output); _ ← dreg_read (HSdLinkPos output); mret tt).

Definition hda_start (vend_prod : Z) : dp unit :=
  _ ← hda_init vend_prod;
  _ ← hda_info;
  _ ← hda_enumerate;
  configure.

(** *** Beeps *)

Definition beep (div : Z) : dp unit :=
  addr ← hda_gets hd_beep_addr;
  if bool_decide (addr = (0, 0)) then mret tt else _ ← hcmd12 addr 0xF0A div; mret tt.

Definition read_beep : dp Z :=
  addr ← hda_gets hd_beep_addr;
  if bool_decide (addr = (0, 0)) then mret 0 else r ← hcmd12 addr 0x70A 0; mret (as_u8 r).

(** *** Interrupts and output *)

(** Clears the interrupts of the streams of a kind; [get] numbers them. *)
Definition clear_streams (get : Z → dp (option Z)) (count base sis : Z) : dp unit :=
  for_each (λ i,
    if Z.land (Z.shiftr sis (i + base)) 1 =? 1 then r ← get i; sd ← unwrap r; sd_clear_interrupts sd else mret tt)
    (seqZ 0 count).

Definition handle_stream_interrupts (sis : Z) : dp unit :=
  iss ← num_input_streams;
  oss ← num_output_streams;
  bss ← num_bidirectional_streams;
  _ ← clear_streams get_input_stream_descriptor iss 0 sis;
  _ ← clear_streams get_output_stream_descriptor oss iss sis;
  clear_streams get_bidirectional_stream_descriptor bss (iss + oss) sis.

Definition handle_interrupts : dp bool :=
  intsts ← dreg_read HIntSts;
  _ ← (if Z.land (Z.shiftr intsts 31) 1 =? 1 then
         let sis := Z.land intsts 0x3FFFFFFF in
         if sis =? 0 then mret tt else handle_stream_interrupts sis
       else mret tt);
  mret (negb (intsts =? 0)).

Definition hda_irq : dp bool :=
  _ ← on_hda (λ d, set_hd_handles (as_usize (hd_int_counter d + 1)) (hd_handles d) (hd_next_id d) d);
  handle_interrupts.

(** [None]: the caller has to wait. *)
Definition write_to_output (index : Z) (buf : list Z) : dp (option Z) :=
  output ← get_output_stream_descriptor index;
  output ← unwrap output;
  os ← hda_gets (λ d, hd_output_streams d !! Z.to_nat index);
  os ← unwrap os;
  pos ← dreg_read (HSdLinkPos output);
  if sb_block_len os =? 0 then panic
  else
    let open_block := pos / sb_block_len os in
    if sb_cur_pos os =? (open_block + 3) mod NUM_SUB_BUFFS then mret None
    else
      match write_block buf os with
      | (Ok n, os) =>
          _ ← on_hda (λ d, set_hd_streams (hd_buff_desc d) (<[Z.to_nat index := os]> (hd_output_streams d)) d);
          mret (Some n)
      | (Err e, _) => throw e
      | (Panic, _) => panic
      end.

(** *** The scheme *)

(** The widgets in the order of the map. *)
Definition dump_codec (d : IntelHDA) : list Z := mjoin ((λ kv, node_text kv.2 ++ [10]) <$> map_to_list (hd_widget_map d)).

Fixpoint trim_slash (l : list Z) : list Z := match l with 47 :: l => trim_slash l | _ => l end.
Definition trim_slashes (l : list Z) : list Z := rev (trim_slash (rev (trim_slash l))).

Definition hda_open (path : list Z) (uid : Z) : dp Z :=
  if uid =? 0 then
    text ← hda_gets dump_codec;
    id ← hda_gets hd_next_id;
    let handle := if bool_decide (trim_slashes path = string_bytes "codec") then HhStrBuf text 0 else HhTodo in
    _ ← on_hda (λ d, set_hd_handles (hd_int_counter d) (<[id := handle]> (hd_handles d)) (as_usize (id + 1)) d);
    mret id
  else throw EACCES.

Definition hda_handle (id : Z) : dp HdaHandle := h ← hda_gets (λ d, hd_handles d !! id); ok_or h EBADF.
Definition put_hda_handle (id : Z) (h : HdaHandle) : dp unit :=
  on_hda (λ d, set_hd_handles (hd_int_counter d) (<[id := h]> (hd_handles d)) (hd_next_id d) d).

Definition hda_read (id : Z) (buf : list Z) : dp (Z * list Z) :=
  h ← hda_handle id;
  match h with
  | HhStrBuf text pos =>
      let n := Nat.min (length buf) (length text - Z.to_nat pos) in
      _ ← put_hda_handle id (HhStrBuf text (pos + Z.of_nat n));
      mret (Z.of_nat n, splice 0 (slice (Z.to_nat pos) n text) buf)
  | HhTodo => throw EBADF
  end.

Definition hda_write (id : Z) (buf : list Z) : dp (option Z) :=
  h ← hda_handle id;
  match h with HhTodo => write_to_output 0 buf | _ => throw EBADF end.

Inductive Whence : Type := SeekSet | SeekCur | SeekEnd | SeekOther.

(** [pos] as the signed argument of the call. *)
Definition hda_seek (id pos : Z) (whence : Whence) : dp Z :=
  h ← hda_handle id;
  match h with
  | HhStrBuf text size =>
      let len := Z.of_nat (length text) in
      let clamp x := Z.max 0 (Z.min len x) in
      let new := match whence with
        | SeekSet => Some (Z.min len (as_usize pos))
        | SeekCur => Some (clamp (size + pos))
        | SeekEnd => Some (clamp (len + pos))
        | SeekOther => None
        end in
      match new with
      | Some new => _ ← put_hda_handle id (HhStrBuf text new); mret new
      | None => throw EINVAL
      end
  | HhTodo => throw EINVAL
  end.

Definition hda_fpath (id : Z) (buf : list Z) : dp (Z * list Z) :=
  _ ← hda_handle id;
  let n := Nat.min (length buf) 8 in
  mret (Z.of_nat n, splice 0 (take n (string_bytes "audiohw:")) buf).

Definition hda_close (id : Z) : dp Z :=
  _ ← hda_handle id;
  _ ← on_hda (λ d, set_hd_handles (hd_int_counter d) (delete id (hd_handles d)) (hd_next_id d) d);
  mret 0.

End device.

(** ** The path to a converter *)

(** The default connection of a widget that is not a converter. *)
Definition default_next (m : gmap WidgetAddr HDANode) (a : WidgetAddr) : option WidgetAddr :=
  w ← m !! a;
  t ← widget_type w;
  if bool_decide (t = WtAudioOutput) then None else nd_connections w !! Z.to_nat (nd_connection_default w).

Definition is_converter (m : gmap WidgetAddr HDANode) (a : WidgetAddr) : Prop := ∃ w, m !! a = Some w ∧ widget_type w = Some WtAudioOutput.

(** What the path is meant to be: default connections down to the first converter. *)
Inductive dac_path (m : gmap WidgetAddr HDANode) : WidgetAddr → list WidgetAddr → Prop :=
| dac_here a : is_converter m a → dac_path m a [a]
| dac_via a b p : default_next m a = Some b → dac_path m b p → dac_path m a (a :: p).

#[local] Hint Constructors dac_path : core.

Section paths.
Context (m : gmap WidgetAddr HDANode).

Lemma converter_no_next a : is_converter m a → default_next m a = None.
Proof. intros (w & Hw & Ht). unfold default_next. by rewrite Hw; cbn; rewrite Ht. Qed.

Lemma dac_path_head a p : dac_path m a p → ∃ q, p = a :: q.
Proof. destruct 1; eauto. Qed.

Lemma dac_path_known a p : dac_path m a p → p ⊆ elements (dom m).
Proof.
  induction 1 as [a (w & Hw & _)|a b p Hn _ IH]; intros x; rewrite elem_of_elements.
  - rewrite list_elem_of_singleton. intros ->. by apply elem_of_dom_2 in Hw.
  - rewrite elem_of_cons. intros [-> | Hx]; [|by apply elem_of_elements, IH].
    unfold default_next in Hn. destruct (m !! a) eqn:E; [by apply elem_of_dom_2 in E|done].
Qed.

Lemma dac_path_det a p q : dac_path m a p → dac_path m a q → p = q.
Proof.
  intros Hp. revert q. induction Hp as [a Hc|a b p Hn _ IH]; intros q; inversion 1; subst; try done.
  - apply converter_no_next in Hc. congruence.
  - apply converter_no_next in H0. congruence.
  - f_equal. apply IH. congruence.
Qed.

(** Every widget of a path starts the rest of it. *)
Lemma dac_path_suffix a p x : dac_path m a p → x ∈ p → ∃ q, dac_path m x q ∧ (length q <= length p)%nat.
Proof.
  induction 1 as [a Hc|a b p Hn Hp IH].
  - rewrite list_elem_of_singleton. intros ->. eauto.
  - rewrite elem_of_cons. intros [-> | Hx]; [eauto|]. destruct (IH Hx) as (q & Hq & Hl). exists q. cbn. split; [done|lia].
Qed.

(** A path meets no widget twice, or it would have no end. *)
Lemma dac_path_nodup a p : dac_path m a p → NoDup p.
Proof.
  induction 1 as [a Hc|a b p Hn Hp IH]; [apply NoDup_singleton|]. apply NoDup_cons; split; [|done]. intros Hx.
  destruct (dac_path_suffix b p a Hp Hx) as (q & Hq & Hl). pose proof (dac_path_det a (a :: p) q (dac_via m a b p Hn Hp) Hq) as <-. cbn in Hl. lia.
Qed.

Lemma dac_path_short a p : dac_path m a p → (length p <= size m)%nat.
Proof.
  intros Hp. rewrite <- size_dom. unfold size, set_size. cbn.
  apply submseteq_length, NoDup_submseteq; [by eapply dac_path_nodup|]. intros x Hx. by eapply dac_path_known.
Qed.

Lemma find_path_step n a :
  find_path_to_dac (S n) m a =
  match m !! a with
  | None => Panic
  | Some w =>
      match widget_type w with
      | None => Panic
      | Some t => if bool_decide (t = WtAudioOutput) then Ok (Some [a])
                  else match default_next m a with
                       | None => Ok None
                       | Some b => match find_path_to_dac n m b with Ok (Some p) => Ok (Some (a :: p)) | r => r end
                       end
      end
  end.
Proof. cbn [find_path_to_dac]. unfold default_next. destruct (m !! a) as [w|]; cbn; [|done]. by destruct (widget_type w) as [[]|]. Qed.

Lemma find_path_sound n a p : find_path_to_dac n m a = Ok (Some p) → dac_path m a p.
Proof.
  revert a p. induction n as [|n IH]; intros a p; [done|]. rewrite find_path_step.
  destruct (m !! a) as [w|] eqn:Hw; [|done]. destruct (widget_type w) as [t|] eqn:Ht; [|done]. case_bool_decide as Hb.
  - intros [= <-]. subst. constructor. by exists w.
  - destruct (default_next m a) as [b|] eqn:Hn; [|done]. destruct (find_path_to_dac n m b) as [[q|]| |] eqn:Hq; try done.
    intros [= <-]. econstructor; [done|]. by apply IH.
Qed.

Lemma find_path_complete n a p : dac_path m a p → (length p <= n)%nat → find_path_to_dac n m a = Ok (Some p).
Proof.
  intros Hp. revert n. induction Hp as [a (w & Hw & Ht)|a b p Hn Hp IH]; intros [|n] Hl; cbn in Hl; try lia; rewrite find_path_step.
  - by rewrite Hw, Ht.
  - rewrite Hn, IH by lia. unfold default_next in Hn. destruct (m !! a) as [w|]; cbn in Hn; [|done].
    destruct (widget_type w) as [t|]; cbn in Hn; [|done]. by case_bool_decide.
Qed.

(** C26. [find_path_to_dac] (device.rs) returns the path of default connections from a pin to its
    first converter exactly when the graph has one; as many calls as there are widgets are
    enough, and the path meets no widget twice. *)
Theorem path_to_dac a p :
  (find_path_to_dac (size m) m a = Ok (Some p) ↔ dac_path m a p) ∧
  (∀ n, find_path_to_dac n m a = Ok (Some p) → NoDup p ∧ last p ≠ None ∧ (∀ x, last p = Some x → is_converter m x)).
Proof.
  split; [split|]; [apply find_path_sound| |].
  - intros Hp. apply find_path_complete; [done|]. by apply (dac_path_short a).
  - intros n Hp%find_path_sound. split; [by eapply dac_path_nodup|].
    induction Hp as [a Hc|a b p _ Hp IH]; [by split; [|intros x [= <-]]|].
    destruct (dac_path_head _ _ Hp) as (q & ->). rewrite last_cons_cons. done.
Qed.

(** Default connections that come back to where they were: the recursion has no end. *)
Lemma dac_cycle_endless (C : WidgetAddr → Prop) n a :
  (∀ x, C x → ∃ y, default_next m x = Some y ∧ C y) → C a → find_path_to_dac n m a = Panic.
Proof.
  intros HC. revert a. induction n as [|n IH]; intros a Ha; [done|]. rewrite find_path_step.
  destruct (HC a Ha) as (y & Hy & Cy). unfold default_next in *. destruct (m !! a) as [w|]; cbn in *; [|done].
  destruct (widget_type w) as [t|]; cbn in *; [|done]. case_bool_decide; [done|]. rewrite Hy. by rewrite (IH y Cy).
Qed.

End paths.

(** ** The ring of stream blocks *)

Lemma slice_splice_apart (o n off : nat) (data l : list Z) :
  (o + n <= off ∨ off + length data <= o)%nat → (off + length data <= length l)%nat → slice o n (splice off data l) = slice o n l.
Proof.
  intros Ho Hl. apply list_eq. intros i. destruct (decide (i < n)%nat) as [Hi|Hi].
  - rewrite !slice_lookup by done. unfold splice. destruct Ho as [Ho|Ho].
    + rewrite lookup_app_l by (rewrite length_take; lia). by rewrite lookup_take_lt by lia.
    + rewrite lookup_app_r by (rewrite length_take; lia). rewrite lookup_app_r by (rewrite length_take; lia).
      rewrite lookup_drop, length_take. f_equal. lia.
  - unfold slice. rewrite !lookup_take_ge by lia. done.
Qed.

(** What the descriptor of block [j] points to. *)
Definition block_of (b : StreamBuffer) (e : BdlEntry) : list Z :=
  slice (Z.to_nat (bdl_address e - sb_phys b)) (Z.to_nat (bd_len e)) (sb_mem b).

Definition stream_inv (b : StreamBuffer) : Prop :=
  sb_block_len b = SUB_BUFF_SIZE ∧ sb_block_cnt b = NUM_SUB_BUFFS ∧ 0 <= sb_cur_pos b < NUM_SUB_BUFFS ∧
  length (sb_mem b) = Z.to_nat (SUB_BUFF_SIZE * NUM_SUB_BUFFS) ∧ 0 <= sb_phys b ∧ sb_phys b + SUB_BUFF_SIZE * NUM_SUB_BUFFS < 2 ^ 64.

Lemma bdl_address_set a e : 0 <= a < 2 ^ 64 → bdl_address (bdl_set_address a e) = a.
Proof.
  intros Ha. unfold bdl_address, bdl_set_address. cbn [bd_addr_low bd_addr_high]. unfold as_u32, as_u.
  rewrite (Z.mod_small (Z.shiftr a 32)) by (rewrite Z.shiftr_div_pow2 by lia; split; [apply Z.div_pos; lia|apply Z.div_lt_upper_bound; lia]).
  apply Z.bits_inj'. intros k Hk. rewrite Z.lor_spec, Z.shiftl_spec by done.
  destruct (Z.lt_ge_cases k 32).
  - rewrite Z.mod_pow2_bits_low by done. by rewrite (Z.testbit_neg_r _ (k - 32)), orb_false_r by lia.
  - rewrite Z.mod_pow2_bits_high by lia. rewrite Z.shiftr_spec by lia. cbn [orb]. f_equal. lia.
Qed.

(** The bits of a descriptor once the buffer is announced. *)
Lemma fill_bdl_lookup b l (j : nat) :
  stream_inv b → (j < Z.to_nat NUM_SUB_BUFFS)%nat → (j < length l)%nat →
  ∃ e, fill_bdl b (Z.to_nat NUM_SUB_BUFFS) l !! j = Some e ∧
    bdl_address e = sb_phys b + SUB_BUFF_SIZE * Z.of_nat j ∧ bd_len e = SUB_BUFF_SIZE ∧ bdl_interrupt_on_completion e = true.
Proof.
  intros (Hbl & _ & _ & _ & Hp & Hp') Hj Hl. apply lookup_lt_is_Some in Hl as [e He]. exists (set_bdl b j e).
  unfold fill_bdl. rewrite list_lookup_imap, He. cbn -[Nat.ltb Z.to_nat set_bdl]. rewrite (proj2 (Nat.ltb_lt _ _) Hj).
  unfold set_bdl. rewrite Hbl. unfold SUB_BUFF_SIZE, NUM_SUB_BUFFS in *. split; [done|]. split_and!.
  - apply (bdl_address_set (sb_phys b + 2048 * Z.of_nat j) e). lia.
  - done.
  - unfold bdl_interrupt_on_completion, bdl_set_interrupt_on_complete. cbn [bd_ioc]. apply Z.eqb_eq.
    apply Z.bits_inj'. intros k Hk. rewrite Z.land_spec, Z.lor_spec. by destruct (Z.testbit 1 k); rewrite ?orb_true_r, ?andb_false_r.
Qed.

Fixpoint write_blocks (bufs : list (list Z)) (b : StreamBuffer) : res errno unit * StreamBuffer :=
  match bufs with
  | [] => (Ok tt, b)
  | buf :: bufs => match write_block buf b with (Ok _, b) => write_blocks bufs b | (Err e, b) => (Err e, b) | (Panic, b) => (Panic, b) end
  end.

(** Block [j] of the memory. *)
Definition block_at (b : StreamBuffer) (j : nat) : list Z := slice (j * 2048) 2048 (sb_mem b).

Lemma write_block_spec b buf :
  stream_inv b → length buf = Z.to_nat SUB_BUFF_SIZE →
  ∃ b', write_block buf b = (Ok SUB_BUFF_SIZE, b') ∧ stream_inv b' ∧ sb_phys b' = sb_phys b ∧
    sb_cur_pos b' = (sb_cur_pos b + 1) mod NUM_SUB_BUFFS ∧ block_at b' (Z.to_nat (sb_cur_pos b)) = buf ∧
    (∀ j, (j < 32)%nat → j ≠ Z.to_nat (sb_cur_pos b) → block_at b' j = block_at b j).
Proof.
  intros (Hbl & Hbc & Hc & Hm & Hp & Hp') Hb. unfold write_block. rewrite Hbl, Hbc. unfold SUB_BUFF_SIZE, NUM_SUB_BUFFS in *.
  assert (Hlen : Z.of_nat (length buf) = 2048) by lia. rewrite Hlen. rewrite Z.eqb_refl. cbn [negb]. cbn [Z.eqb].
  assert (Ho : Z.to_nat (sb_cur_pos b * 2048) = (Z.to_nat (sb_cur_pos b) * 2048)%nat) by lia. rewrite Ho.
  eexists. split; [by rewrite Z.min_id|]. unfold stream_inv, block_at, SUB_BUFF_SIZE, NUM_SUB_BUFFS. cbn [sb_mem sb_phys sb_block_cnt sb_block_len sb_cur_pos].
  split_and!; try done.
  - pose proof (Z.mod_pos_bound (sb_cur_pos b + 1) 32); lia.
  - pose proof (Z.mod_pos_bound (sb_cur_pos b + 1) 32); lia.
  - rewrite length_splice by lia. done.
  - replace 2048%nat with (length buf) at 2 by lia. apply slice_splice. lia.
  - intros j Hj Hne. apply slice_splice_apart; lia.
Qed.

(** The blocks of a ring after any number of writes. *)
Lemma write_blocks_spec bufs b :
  stream_inv b → Forall (λ buf, length buf = Z.to_nat SUB_BUFF_SIZE) bufs →
  ∃ b', write_blocks bufs b = (Ok tt, b') ∧ stream_inv b' ∧ sb_phys b' = sb_phys b ∧
    sb_cur_pos b' = (sb_cur_pos b + Z.of_nat (length bufs)) mod NUM_SUB_BUFFS ∧
    (∀ k buf, bufs !! k = Some buf → (length bufs <= k + 32)%nat → block_at b' (Z.to_nat ((sb_cur_pos b + Z.of_nat k) mod NUM_SUB_BUFFS)) = buf).
Proof.
  intros Hi Hb. revert bufs Hb. refine (rev_ind _ _ _).
  - intros _. exists b. split_and!; try done. destruct Hi as (_ & _ & Hc & _). cbn. rewrite Z.add_0_r. by rewrite Z.mod_small.
  - intros buf bufs IH [Hb Hbuf]%Forall_app. rewrite Forall_singleton in Hbuf. destruct (IH Hb) as (b1 & E1 & I1 & P1 & C1 & B1).
    destruct (write_block_spec b1 buf I1 Hbuf) as (b2 & E2 & I2 & P2 & C2 & K2 & R2). exists b2. split_and!; try done.
    + clear -E1 E2. revert b E1. induction bufs as [|x bufs IH]; intros b; cbn.
      * intros [= ->]. by rewrite E2.
      * destruct (write_block x b) as [[] b']; [apply IH|done|done].
    + congruence.
    + rewrite C2, C1, length_app. cbn. rewrite Nat2Z.inj_add. rewrite Zplus_mod_idemp_l. f_equal. lia.
    + intros k x Hk Hl. rewrite length_app in Hl. cbn in Hl. destruct (decide (k = length bufs)) as [-> |Hne].
      * rewrite lookup_app_r, Nat.sub_diag in Hk by lia. injection Hk as <-. by rewrite <- C1.
      * pose proof (lookup_lt_Some _ _ _ Hk) as Hlt. rewrite length_app in Hlt. cbn in Hlt. rewrite lookup_app_l in Hk by lia.
        rewrite R2; [apply B1; [done|lia]| |]; unfold NUM_SUB_BUFFS in *.
        -- pose proof (Z.mod_pos_bound (sb_cur_pos b + Z.of_nat k) 32). lia.
        -- rewrite C1. intros E. apply Z2Nat.inj in E; try (apply Z.mod_pos_bound; lia). clear -E Hne Hlt Hl.
           pose proof (Z.div_mod (sb_cur_pos b + Z.of_nat k) 32). pose proof (Z.div_mod (sb_cur_pos b + Z.of_nat (length bufs)) 32). lia.
Qed.

Lemma stream_buffer_new_eq alloc len cnt b :
  stream_buffer_new alloc len cnt = Some b →
  sb_block_len b = len ∧ sb_block_cnt b = cnt ∧ sb_cur_pos b = 0 ∧ length (sb_mem b) = Z.to_nat (next_multiple_of (len * cnt) 4096).
Proof. unfold stream_buffer_new. destruct (alloc _) as [p|]; cbn; [|done]. intros [= <-]. cbn. split_and!; try done. apply length_replicate. Qed.

Lemma stream_buffer_new_inv alloc b :
  stream_buffer_new alloc SUB_BUFF_SIZE NUM_SUB_BUFFS = Some b → 0 <= sb_phys b → sb_phys b + SUB_BUFF_SIZE * NUM_SUB_BUFFS < 2 ^ 64 →
  stream_inv b ∧ sb_cur_pos b = 0.
Proof.
  intros (Hl & Hc & H0 & Hm)%stream_buffer_new_eq Hp Hp'. split; [|done]. unfold stream_inv. rewrite H0.
  split_and!; try done.
Qed.

(** C25. The output ring of ihdad (stream.rs, [update_sound_buffers], [write_block]): after any
    number of blocks the descriptor that the controller plays as block [k mod 32] points to the
    bytes of the [k]-th block, for each of the last 32 of them, asks for an interrupt, and the
    next block goes to the slot of the oldest one. *)
Theorem stream_ring alloc b bufs :
  stream_buffer_new alloc SUB_BUFF_SIZE NUM_SUB_BUFFS = Some b →
  0 <= sb_phys b → sb_phys b + SUB_BUFF_SIZE * NUM_SUB_BUFFS < 2 ^ 64 →
  Forall (λ buf, length buf = Z.to_nat SUB_BUFF_SIZE) bufs →
  ∃ b', write_blocks bufs b = (Ok tt, b') ∧ sb_cur_pos b' = Z.of_nat (length bufs) mod NUM_SUB_BUFFS ∧
    (∀ k buf, bufs !! k = Some buf → (length bufs <= k + 32)%nat →
       ∃ e, fill_bdl b (Z.to_nat NUM_SUB_BUFFS) (hd_buff_desc hda_new) !! (k mod 32)%nat = Some e ∧
         block_of b' e = buf ∧ bdl_interrupt_on_completion e = true).
Proof.
  intros Hn Hp Hp' Hb. destruct (stream_buffer_new_inv alloc b Hn Hp Hp') as [Hi H0].
  destruct (write_blocks_spec bufs b Hi Hb) as (b' & E & I' & P' & C' & K). exists b'. rewrite H0 in C', K. split_and!; [done|done|].
  intros k buf Hk Hl. specialize (K k buf Hk Hl). rewrite Z.add_0_l in K. unfold NUM_SUB_BUFFS in K.
  assert (Hj : Z.to_nat (Z.of_nat k mod 32) = (k mod 32)%nat) by (change 32 with (Z.of_nat 32); rewrite <- Nat2Z.inj_mod; apply Nat2Z.id).
  rewrite Hj in K. pose proof (Nat.mod_upper_bound k 32 ltac:(done)) as Hlt.
  destruct (fill_bdl_lookup b (hd_buff_desc hda_new) (k mod 32) Hi) as (e & He & Ha & Hlen & Hioc);
    [done|cbn [hd_buff_desc hda_new]; rewrite length_replicate; lia|].
  exists e. split_and!; [done| |done]. rewrite <- K. unfold block_of, block_at. rewrite Ha, Hlen, P'. unfold SUB_BUFF_SIZE.
  f_equal; lia.
Qed.

Definition ring_blocks : list (list Z) := (λ i, replicate 2048 i) <$> seqZ 0 40.

Lemma stream_ring_witness :
  ∃ b, stream_buffer_new (λ _, Some 0x100000) SUB_BUFF_SIZE NUM_SUB_BUFFS = Some b ∧
  ∃ b', write_blocks ring_blocks b = (Ok tt, b') ∧
    ∃ e, fill_bdl b (Z.to_nat NUM_SUB_BUFFS) (hd_buff_desc hda_new) !! 7%nat = Some e ∧ block_of b' e = replicate 2048 39.
Proof.
  eexists. split; [reflexivity|].
  destruct (stream_ring (λ _, Some 0x100000) _ ring_blocks eq_refl) as (b' & E & _ & K); [done|done| |].
  - unfold ring_blocks. apply Forall_fmap, Forall_forall. intros x _. apply length_replicate.
  - exists b'. split; [exact E|]. destruct (K 39%nat (replicate 2048 39) eq_refl) as (e & He & Hb & _); [|exists e; split; [exact He|exact Hb]].
    unfold ring_blocks. rewrite length_fmap, length_seqZ. lia.
Defined.

Definition toy_widgets : gmap WidgetAddr HDANode :=
  <[(0, 3) := mk_node (0, 3) 0 0 0 (Z.shiftl 4 20) 1 [(0, 2)] 0 true 0]>
  (<[(0, 2) := mk_node (0, 2) 0 0 0 0 0 [] 0 true 0]> ∅).

(** A pin whose mixer answers with the pin again. *)
Definition cyclic_widgets : gmap WidgetAddr HDANode :=
  <[(0, 3) := mk_node (0, 3) 0 0 0 (Z.shiftl 4 20) 1 [(0, 2)] 0 true 0]>
  (<[(0, 2) := mk_node (0, 2) 0 0 0 (Z.shiftl 2 20) 1 [(0, 3)] 0 true 0]> ∅).

Example toy_path : find_path_to_dac 2 toy_widgets (0, 3) = Ok (Some [(0, 3); (0, 2)]).
Proof. reflexivity. Qed.

(** The recursion of [find_path_to_dac] has no guard against such a graph. *)
Lemma cyclic_path_endless n : find_path_to_dac n cyclic_widgets (0, 3) = Panic.
Proof.
  apply (dac_cycle_endless _ (λ a, a = (0, 3) ∨ a = (0, 2))); [|by left].
  intros x [-> | ->]; [exists (0, 2)|exists (0, 3)]; (split; [reflexivity|auto]).
Qed.

Lemma path_to_dac_witness : dac_path toy_widgets (0, 3) [(0, 3); (0, 2)] ∧ NoDup [(0, 3); (0, 2)].
Proof.
  destruct (path_to_dac toy_widgets (0, 3) [(0, 3); (0, 2)]) as [[H1 H2] H3]. split; [apply H1; reflexivity|].
  exact (proj1 (H3 2%nat eq_refl)).
Defined.
