(* ===== verification/UsbHidStack.v ===== *)
(** A HID device behind xhcid: the interrupt endpoint the driver of [UsbHid] reads is one of
    [UsbStack], so that the client library of xhcid delivers the reports of the device
    ([xhci_hid]) and what [UsbHid] shows of the driver holds over it. *)

From S2P Require Import Prelude UsbSetup XhciTrb XhciRing XhciIface XhciHost XhciEndp XhciDesc XhciConf XhciScheme ScsiCmd UsbScsi UsbDisk UsbStack UsbHid.

(** A device with reports to send: a read of the length of the next one gets it. *)
Definition report_answer (n : nat) (reports : list (list Z)) : option (PortTransferStatus * list Z * list (list Z)) :=
  match reports with
  | b :: bs => if Nat.eqb (length b) n then Some (mk_pts TkSuccess (Z.of_nat n), b, bs) else None
  | [] => None
  end.

Lemma report_answer_shape n v kind len bytes v' :
  report_answer n v = Some (mk_pts kind len, bytes, v') → proper_answer n kind len bytes.
Proof.
  destruct v as [|b bs]; [done|]. cbn. destruct (Nat.eqb_spec (length b) n) as [<-|]; [|done]. intros [= <- <- <- <-].
  split; [lia|]. split; [by left|]. by rewrite Nat2Z.id, firstn_all, Nat.sub_diag, app_nil_r.
Qed.

Section stack.
Context {W : Type} `{HC : Controller W} `{HJ : EndpJson} `{HJL : !EndpJsonLaws}.
Context `{HF : ConfJson} `{HE : SchemeEnv} `{HX : ConfText} `{HU : HidUsages}.
Context (port flags slot interface i : Z) `{HP : !InPipe W (list (list Z)) port slot i report_answer}.

(** The endpoint is configured and idle. *)
Definition report_ready (s : XScheme W) : Prop := ∃ p d r, pipe_ready port slot i report_answer (sc_hci s) p d r.

#[export] Instance xhci_hid : HidDevice (HC := xhci_client port flags) (XScheme W) interface (Some i).
Proof.
  refine {| hid_pending := λ s, ip_view (x_world (sc_hci s)); hid_ready := report_ready |}.
  intros s b bs (p & d & r & Hpr) Hv Hl.
  destruct (pipe_read port slot i report_answer (length b) (sc_hci s) p d r TkSuccess (Z.of_nat (length b)) b bs Hpr)
    as (h & r' & Hrun & Hpr' & Hv' & _).
  - lia.
  - unfold MAX_TRANSFER_SIZE. lia.
  - rewrite Hv. cbn. by rewrite Nat.eqb_refl.
  - apply (report_answer_shape _ (b :: bs) _ _ _ bs). cbn. by rewrite Nat.eqb_refl.
  - eexists _, (mk_scheme h (sc_handles s) (sc_next s)). split; [cbn [usb_read xhci_client]; unfold below; by rewrite Hrun|].
    split; [by exists (port_with i r' IfInit p), d, r'|exact Hv'].
Defined.
End stack.
