(* ===== verification/Graphics.v ===== *)
(** The graphics stack below the consoles: areas to be redrawn and the client's view of a
    display (graphics/graphics-ipc/src/legacy.rs), the display scheme all graphics drivers share
    (graphics/driver-graphics/src/lib.rs), and vesad, which shows a virtual terminal by copying
    it to a linear frame buffer (graphics/vesad/src/*.rs).

    The memory of a screen is shared: the scheme hands its address to the client, which draws
    into it.  [FbAdapter] therefore keeps the buffers by address, and a screen holds the
    address.  An access outside a buffer is a panic of the model.

    [sync_rects_spec] says what a redraw shows, [clip_right_edge] what becomes of an area that
    crosses the right edge; [damages_roundtrip] and [display_size_roundtrip] are the data that
    pass between client and driver. *)

From Stdlib Require Import Ascii.
From S2P Require Import Prelude Inputd.

(** ** Areas *)

(** Signed words. *)
Record Damage := mk_damage { dg_x : Z; dg_y : Z; dg_width : Z; dg_height : Z }.

Definition clip (width height : Z) (d : Damage) : Damage :=
  let x := Z.min (dg_x d) width in
  let w := if width <? as_i 32 (x + dg_width d) then as_i 32 (dg_width d - Z.min (dg_width d) (as_i 32 (width - x))) else dg_width d in
  let y := Z.min (dg_y d) height in
  let h := if height <? as_i 32 (y + dg_height d) then Z.min (dg_height d) (as_i 32 (height - y)) else dg_height d in
  mk_damage x y w h.

(** The structure as bytes, for the write call. *)
Definition DAMAGE_SIZE : nat := 16.
Definition damage_bytes (d : Damage) : list Z :=
  le_bytes 4 (dg_x d) ++ le_bytes 4 (dg_y d) ++ le_bytes 4 (dg_width d) ++ le_bytes 4 (dg_height d).
Definition i32_at (off : nat) (b : list Z) : Z := as_i 32 (le_val (slice off 4 b)).
Definition damage_of (b : list Z) : Damage := mk_damage (i32_at 0 b) (i32_at 4 b) (i32_at 8 b) (i32_at 12 b).

(** [from_raw_parts] with [len / size_of::<Damage>()] entries. *)
Fixpoint damages_of (n : nat) (b : list Z) : list Damage :=
  match n with O => [] | S n => damage_of (take DAMAGE_SIZE b) :: damages_of n (drop DAMAGE_SIZE b) end.

(** ** The display scheme *)

Definition gfx_split (c : Ascii.ascii) : string → string → list string :=
  fix go (cur p : string) : list string :=
    match p with
    | EmptyString => [cur]
    | String a p => if decide (a = c) then cur :: go "" p else go (cur +:+ String a EmptyString) p
    end.

(** The trait [GraphicsAdapter] with [Resource]. *)
Class GraphicsAdapter (A R : Type) := {
  ga_displays : A → list Z;
  ga_display_size : Z → prog A errno (Z * Z);
  ga_create_resource : Z → Z → prog A errno R;
  ga_map_resource : R → prog A errno Z;
  ga_set_scanout : Z → R → prog A errno unit;
  ga_flush_resource : Z → R → option (list Damage) → prog A errno unit;
  res_width : R → Z;
  res_height : R → Z;
}.

(** A handle is [Handle::Screen] with its terminal and its screen. *)
Record GraphicsScheme (A R : Type) := mk_gscheme {
  gs_adapter : A; gs_name : string; gs_next_id : Z; gs_handles : gmap Z (Z * Z); gs_active_vt : Z; gs_vts_res : gmap Z (gmap Z R);
}.
Arguments mk_gscheme {_ _} gs_adapter gs_name gs_next_id gs_handles gs_active_vt gs_vts_res.
Arguments gs_adapter {_ _} _.
Arguments gs_name {_ _} _.
Arguments gs_next_id {_ _} _.
Arguments gs_handles {_ _} _.
Arguments gs_active_vt {_ _} _.
Arguments gs_vts_res {_ _} _.

Section scheme.
Context {A R : Type} `{HA : GraphicsAdapter A R}.

Abbreviation GS := (GraphicsScheme A R).
Abbreviation gp := (prog GS errno).

(** [assert!(scheme_name.starts_with("display"))]. *)
Definition gscheme_new (adapter : A) (scheme_name : string) : option GS :=
  if String.prefix "display" scheme_name then Some (mk_gscheme adapter scheme_name 0 ∅ 0 ∅) else None.

Definition set_gadapter (a : A) (s : GS) : GS := mk_gscheme a (gs_name s) (gs_next_id s) (gs_handles s) (gs_active_vt s) (gs_vts_res s).
Definition set_gfx_vt (vt : Z) (s : GS) : GS := mk_gscheme (gs_adapter s) (gs_name s) (gs_next_id s) (gs_handles s) vt (gs_vts_res s).
Definition set_vts_res (m : gmap Z (gmap Z R)) (s : GS) : GS := mk_gscheme (gs_adapter s) (gs_name s) (gs_next_id s) (gs_handles s) (gs_active_vt s) m.
Definition set_gfx_handles (next : Z) (h : gmap Z (Z * Z)) (s : GS) : GS := mk_gscheme (gs_adapter s) (gs_name s) next h (gs_active_vt s) (gs_vts_res s).

Definition on_adapter {B : Type} (m : prog A errno B) : gp B := λ s, let '(r, a) := m (gs_adapter s) in (r, set_gadapter a s).

(** The screen of a terminal on a display, made on its first use. *)
Definition resource_or_insert (vt display_id : Z) : gp R :=
  m ← gets gs_vts_res;
  match m !! vt ≫= (.!! display_id) with
  | Some r => mret r
  | None =>
      '(width, height) ← on_adapter (ga_display_size display_id);
      r ← on_adapter (ga_create_resource width height);
      _ ← modify (λ s, set_vts_res (<[vt := <[display_id := r]> (default ∅ (gs_vts_res s !! vt))]> (gs_vts_res s)) s);
      mret r
  end.

Fixpoint activate_displays (vt : Z) (displays : list Z) : gp unit :=
  match displays with
  | [] => mret tt
  | display_id :: displays =>
      resource ← resource_or_insert vt display_id;
      _ ← on_adapter (ga_set_scanout display_id resource);
      _ ← modify (set_gfx_vt vt);
      activate_displays vt displays
  end.

Definition handle_vt_event (e : VtEvent) : gp unit :=
  match ve_kind e with
  | Activate => displays ← gets (λ s, ga_displays (gs_adapter s)); activate_displays (ve_vt e) displays
  | Deactivate => mret tt
  | Resize => mret tt
  end.

(** A terminal that is not a number is an [unwrap] of an error. *)
Definition gfx_open (path : string) : gp Z :=
  if bool_decide (path = "") then throw EINVAL
  else
    let screen := gfx_split "." "" (default "" (head (gfx_split "/" "" path))) in
    vt ← unwrap (parse_uint (2 ^ 64) (default "" (screen !! 0%nat)));
    let id := default 0 (parse_uint (2 ^ 64) (default "" (screen !! 1%nat))) in
    n ← gets (λ s, Z.of_nat (length (ga_displays (gs_adapter s))));
    if n <=? id then throw EINVAL
    else
      _ ← resource_or_insert vt id;
      next ← gets (λ s, as_usize (gs_next_id s + 1));
      _ ← modify (λ s, set_gfx_handles next (<[next := (vt, id)]> (gs_handles s)) s);
      mret next.

Definition gfx_handle (id : Z) (e : errno) : gp (Z * Z) := h ← gets (λ s, gs_handles s !! id); ok_or h e.

(** [self.vts_res[vt][screen]]. *)
Definition gfx_resource (vt screen : Z) : gp R := r ← gets (λ s, gs_vts_res s !! vt ≫= (.!! screen)); unwrap r.

Definition gfx_path (name : string) (vt screen : Z) (r : R) : string :=
  name +:+ ":" +:+ pretty vt +:+ "." +:+ pretty screen +:+ "/" +:+ pretty (res_width r) +:+ "/" +:+ pretty (res_height r).

(** The bytes written to the start of the buffer. *)
Definition gfx_fpath (id : Z) (len : nat) : gp (list Z) :=
  '(vt, screen) ← gfx_handle id EBADF;
  resource ← gfx_resource vt screen;
  name ← gets gs_name;
  let path := string_bytes (gfx_path name vt screen resource) in
  if (len <? length path)%nat then panic else mret path.

Definition gfx_fsync (id : Z) : gp Z :=
  '(vt, screen) ← gfx_handle id EBADF;
  active ← gets gs_active_vt;
  if negb (vt =? active) then mret 0
  else
    resource ← gfx_resource vt screen;
    _ ← on_adapter (ga_flush_resource screen resource None);
    mret 0.

Definition gfx_read (id : Z) : gp Z := _ ← gfx_handle id EBADF; throw EINVAL.

Definition gfx_write (id : Z) (buf : list Z) : gp Z :=
  '(vt, screen) ← gfx_handle id EBADF;
  active ← gets gs_active_vt;
  if negb (vt =? active) then mret (Z.of_nat (length buf))
  else
    resource ← gfx_resource vt screen;
    let damage := damages_of (length buf / DAMAGE_SIZE)%nat buf in
    _ ← on_adapter (ga_flush_resource screen resource (Some damage));
    mret (Z.of_nat (length buf)).

Definition gfx_close (id : Z) : gp Z :=
  _ ← gfx_handle id EBADF;
  _ ← modify (λ s, set_gfx_handles (gs_next_id s) (delete id (gs_handles s)) s);
  mret 0.

(** The address of the memory of the screen. *)
Definition gfx_mmap_prep (id : Z) : gp Z :=
  '(vt, screen) ← gfx_handle id EINVAL;
  resource ← gfx_resource vt screen;
  on_adapter (ga_map_resource resource).

(** *** Requests *)

Inductive GfxCall : Type :=
| GcOpen (path : string) | GcFpath (id : Z) (len : nat) | GcFsync (id : Z) | GcRead (id : Z) | GcWrite (id : Z) (buf : list Z) | GcClose (id : Z) | GcMmap (id : Z).

Inductive GfxRequest : Type := GrCall (c : GfxCall) | GrSendFd | GrCancellation | GrMsg.

(** What is answered: a number, or the path. *)
Definition GfxReply : Type := errno + (Z * list Z).

Definition gfx_call (c : GfxCall) : gp (Z * list Z) :=
  match c with
  | GcOpen path => r ← gfx_open path; mret (r, [])
  | GcFpath id len => r ← gfx_fpath id len; mret (Z.of_nat (length r), r)
  | GcFsync id => r ← gfx_fsync id; mret (r, [])
  | GcRead id => r ← gfx_read id; mret (r, [])
  | GcWrite id buf => r ← gfx_write id buf; mret (r, [])
  | GcClose id => r ← gfx_close id; mret (r, [])
  | GcMmap id => r ← gfx_mmap_prep id; mret (r, [])
  end.

(** One pass over the requests that have arrived; the answers in order. *)
Fixpoint gfx_tick (requests : list GfxRequest) : gp (list GfxReply) :=
  match requests with
  | [] => mret []
  | GrCall c :: requests => r ← attempt (gfx_call c); rs ← gfx_tick requests; mret (r :: rs)
  | GrSendFd :: requests => rs ← gfx_tick requests; mret (inl EOPNOTSUPP :: rs)
  | GrCancellation :: requests => gfx_tick requests
  | GrMsg :: requests => panic
  end.

End scheme.

(** ** The client's display *)

(** [LegacyGraphicsHandle::map_display]: the size in the path of the display.  [None]: a panic
    (a path without a colon). *)
Definition display_size_of (url : string) : option (Z * Z) :=
  path ← gfx_split ":" "" url !! 1%nat;
  let parts := drop 1 (gfx_split "/" "" path) in
  let number i := default 0 (parse_uint (2 ^ 64) (default "" (parts !! i))) in
  Some (number 0%nat, number 1%nat).

Definition sync_rects_bytes (rects : list Damage) : list Z := mjoin (damage_bytes <$> rects).

(** ** vesad *)

Record FrameBuffer := mk_fb { fb_onscreen : list Z; fb_phys : Z; fb_width : Z; fb_height : Z; fb_stride : Z }.

(** [None]: the memory cannot be mapped. *)
Definition fb_new (physmap : Z → Z → option (list Z)) (phys width height stride : Z) : option FrameBuffer :=
  let size := stride * height in
  onscreen ← physmap phys (size * 4);
  Some (mk_fb onscreen phys width height stride).

Definition hex_value (c : Ascii.ascii) : option Z :=
  let n := Z.of_nat (Ascii.nat_of_ascii c) in
  if (48 <=? n) && (n <=? 57) then Some (n - 48)
  else if (97 <=? n) && (n <=? 102) then Some (n - 87)
  else if (65 <=? n) && (n <=? 70) then Some (n - 55)
  else None.

Fixpoint parse_hex (acc : Z) (p : string) : option Z :=
  match p with
  | EmptyString => Some acc
  | String c p => d ← hex_value c; let v := acc * 16 + d in if v <? 2 ^ 64 then parse_hex v p else None
  end.

(** [usize::from_str_radix(p, 16)]: an optional [+], then at least one digit. *)
Definition from_hex (p : string) : option Z :=
  match p with
  | EmptyString => None
  | String c EmptyString => parse_hex 0 p
  | String c p' => if decide (c = "+"%char) then parse_hex 0 p' else parse_hex 0 p
  end.

Definition parse_number (part : string) : option Z :=
  if String.prefix "0x" part then from_hex (String.substring 2 (String.length part) part) else parse_uint (2 ^ 64) part.

Definition fb_parse (physmap : Z → Z → option (list Z)) (var : string) : option (option FrameBuffer) :=
  let parts := gfx_split "," "" var in
  match p ← parts !! 0%nat; phys ← parse_number p;
        p ← parts !! 1%nat; width ← parse_number p;
        p ← parts !! 2%nat; height ← parse_number p;
        p ← parts !! 3%nat; stride ← parse_number p;
        Some (phys, width, height, stride) with
  | None => Some None
  | Some (phys, width, height, stride) => fb ← fb_new physmap phys width height stride; Some (Some fb)
  end.

(** The frame buffers of the command environment: the first from four variables, the others
    from FRAMEBUFFER1 on until one is not set. *)
Fixpoint more_framebuffers (physmap : Z → Z → option (list Z)) (vars : list (option string)) : option (list FrameBuffer) :=
  match vars with
  | [] | None :: _ => Some []
  | Some var :: vars =>
      r ← fb_parse physmap var;
      rest ← more_framebuffers physmap vars;
      Some (match r with Some fb => fb :: rest | None => rest end)
  end.

(** [None]: a panic.  [Some []]: there is no frame buffer and the driver returns. *)
Definition vesad_framebuffers (physmap : Z → Z → option (list Z)) (width height addr stride : string) (vars : list (option string)) : option (list FrameBuffer) :=
  width ← from_hex width;
  height ← from_hex height;
  phys ← from_hex addr;
  stride ← from_hex stride;
  if phys =? 0 then Some []
  else
    fb ← fb_new physmap phys width height stride;
    rest ← more_framebuffers physmap (take 1023 vars);
    Some (fb :: rest).

(** A screen: its size and the address of its pixels. *)
Record GraphicScreen := mk_screen { sc_width : Z; sc_height : Z; sc_ptr : Z }.

Record FbAdapter := mk_fba { fba_framebuffers : list FrameBuffer; fba_heap : gmap Z (list Z); fba_alloc : Z }.

Abbreviation ap := (prog FbAdapter errno).

(** Memory that holds nothing else, filled with zeros. *)
Definition screen_new (width height : Z) : ap GraphicScreen := λ a,
  let ptr := fba_alloc a in
  (Ok (mk_screen width height ptr),
   mk_fba (fba_framebuffers a) (<[ptr := replicate (Z.to_nat (width * height)) 0]> (fba_heap a)) (ptr + 1)).

(** Copies rows of [w] pixels from [off] at [src] to [on] at [dst]. *)
Fixpoint copy_rows (rows : nat) (w off_stride on_stride : nat) (off : list Z) (src dst : nat) (on : list Z) : option (list Z) :=
  match rows with
  | O => Some on
  | S rows =>
      if (w =? 0)%nat then copy_rows rows w off_stride on_stride off (src + off_stride) (dst + on_stride) on
      else if ((src + w <=? length off) && (dst + w <=? length on))%nat then
        copy_rows rows w off_stride on_stride off (src + off_stride) (dst + on_stride) (splice dst (slice src w off) on)
      else None
  end.

(** [try_into().unwrap_or(0)] of a signed word to [usize]. *)
Definition usize_or_0 (x : Z) : nat := Z.to_nat (Z.max 0 x).

Definition sync_rect (s : GraphicScreen) (off : list Z) (d : Damage) (fb : FrameBuffer) : option FrameBuffer :=
  if (2 ^ 31 <=? sc_width s) || (2 ^ 31 <=? sc_height s) then None
  else
    let r := clip (sc_width s) (sc_height s) d in
    let start_x := usize_or_0 (dg_x r) in
    let start_y := usize_or_0 (dg_y r) in
    let w := usize_or_0 (dg_width r) in
    let h := usize_or_0 (dg_height r) in
    let width := Z.to_nat (sc_width s) in
    let stride := Z.to_nat (fb_stride fb) in
    on ← copy_rows h w width stride off (start_y * width + start_x)%nat (start_y * stride + start_x)%nat (fb_onscreen fb);
    Some (mk_fb on (fb_phys fb) (fb_width fb) (fb_height fb) (fb_stride fb)).

Fixpoint sync_rects (s : GraphicScreen) (off : list Z) (rects : list Damage) (fb : FrameBuffer) : option FrameBuffer :=
  match rects with
  | [] => Some fb
  | d :: rects => fb ← sync_rect s off d fb; sync_rects s off rects fb
  end.

(** The size does not fit a signed word: an [unwrap] of an error. *)
Definition redraw (s : GraphicScreen) (off : list Z) (fb : FrameBuffer) : option FrameBuffer :=
  if (2 ^ 31 <=? sc_width s) || (2 ^ 31 <=? sc_height s) then None
  else sync_rects s off [mk_damage 0 0 (sc_width s) (sc_height s)] fb.

(** Runs [f] on a frame buffer with the memory of the screen. *)
Definition with_fb (display_id : Z) (s : GraphicScreen) (f : list Z → FrameBuffer → option FrameBuffer) : ap unit := λ a,
  match fba_framebuffers a !! Z.to_nat display_id, fba_heap a !! sc_ptr s with
  | Some fb, Some off =>
      match f off fb with
      | Some fb => (Ok tt, mk_fba (<[Z.to_nat display_id := fb]> (fba_framebuffers a)) (fba_heap a) (fba_alloc a))
      | None => (Panic, a)
      end
  | _, _ => (Panic, a)
  end.

#[export] Instance vesad_adapter : GraphicsAdapter FbAdapter GraphicScreen := {
  ga_displays a := seqZ 0 (Z.of_nat (length (fba_framebuffers a)));
  ga_display_size display_id := λ a,
    match fba_framebuffers a !! Z.to_nat display_id with
    | Some fb => (Ok (as_u32 (fb_width fb), as_u32 (fb_height fb)), a)
    | None => (Panic, a)
    end;
  ga_create_resource := screen_new;
  ga_map_resource s := mret (sc_ptr s);
  ga_set_scanout display_id s := with_fb display_id s (redraw s);
  ga_flush_resource display_id s damage :=
    match damage with
    | Some damage => with_fb display_id s (λ off, sync_rects s off damage)
    | None => with_fb display_id s (redraw s)
    end;
  res_width s := as_u32 (sc_width s);
  res_height s := as_u32 (sc_height s);
}.

(** ** What a redraw shows *)

Lemma copy_rows_spec rows w offs ons off : ∀ src dst on,
  (w <= offs)%nat → (w <= ons)%nat →
  (∀ r, (r < rows)%nat → (src + r * offs + w <= length off)%nat ∧ (dst + r * ons + w <= length on)%nat) →
  ∃ on', copy_rows rows w offs ons off src dst on = Some on' ∧ length on' = length on ∧
    (∀ r k, (r < rows)%nat → (k < w)%nat → on' !! (dst + r * ons + k)%nat = off !! (src + r * offs + k)%nat) ∧
    (∀ i, (∀ r k, (r < rows)%nat → (k < w)%nat → i ≠ (dst + r * ons + k)%nat) → on' !! i = on !! i).
Proof.
  induction rows as [|rows IH]; intros src dst on Ho Hn Hb; cbn [copy_rows].
  { exists on. split_and!; try done; intros; lia. }
  destruct (Nat.eqb_spec w 0) as [->|Hw].
  { destruct (IH (src + offs)%nat (dst + ons)%nat on) as (on' & E & Hl & _ & Hk); [lia|lia| |].
    - intros r Hr. specialize (Hb (S r)). lia.
    - exists on'. split_and!; try done; [intros; lia|]. intros i _. apply Hk. intros; lia. }
  destruct (Hb 0%nat ltac:(lia)) as [Hs Hd]. rewrite (proj2 (Nat.leb_le _ _)), (proj2 (Nat.leb_le _ _)) by lia. cbn [andb].
  assert (Hls : length (slice src w off) = w) by (apply length_slice; lia).
  assert (Hlp : length (splice dst (slice src w off) on) = length on) by (apply length_splice; lia).
  destruct (IH (src + offs)%nat (dst + ons)%nat (splice dst (slice src w off) on)) as (on' & E & Hl & Hc & Hk); [done|done| |].
  { intros r Hr. rewrite Hlp. specialize (Hb (S r)). lia. }
  exists on'. split; [done|]. split; [congruence|]. split.
  - intros [|r] k Hr Hk'; [|replace (dst + S r * ons + k)%nat with (dst + ons + r * ons + k)%nat by lia; rewrite Hc by lia; f_equal; lia].
    rewrite Hk by (intros; nia). unfold splice. rewrite lookup_app_r by (rewrite length_take; lia). rewrite lookup_app_l by (rewrite length_take; lia).
    rewrite length_take, slice_lookup by lia. f_equal. lia.
  - intros i Hi. rewrite Hk by (intros r k Hr Hk'; specialize (Hi (S r) k); lia). unfold splice.
    specialize (Hi 0%nat (i - dst)%nat ltac:(lia)). destruct (decide (i < dst)%nat).
    + rewrite lookup_app_l by (rewrite length_take; lia). by rewrite lookup_take_lt by lia.
    + rewrite lookup_app_r by (rewrite length_take; lia). rewrite lookup_app_r by (rewrite length_take; lia). rewrite lookup_drop, length_take. f_equal. lia.
Qed.

(** A screen with its memory fits a frame buffer. *)
Record fits (s : GraphicScreen) (off : list Z) (fb : FrameBuffer) : Prop := {
  ft_width : 0 <= sc_width s < 2 ^ 31;
  ft_height : 0 <= sc_height s < 2 ^ 31;
  ft_stride : sc_width s <= fb_stride fb;
  ft_off : length off = Z.to_nat (sc_width s * sc_height s);
  ft_on : length (fb_onscreen fb) = Z.to_nat (fb_stride fb * sc_height s);
}.

Definition screen_pixel (s : GraphicScreen) (off : list Z) (x y : nat) : option Z := off !! (y * Z.to_nat (sc_width s) + x)%nat.
Definition fb_pixel (fb : FrameBuffer) (x y : nat) : option Z := fb_onscreen fb !! (y * Z.to_nat (fb_stride fb) + x)%nat.

(** An area that does not cross the left and right edges of the screen. *)
Definition area_ok (s : GraphicScreen) (d : Damage) : Prop :=
  0 <= dg_x d ∧ 0 <= dg_width d ∧ dg_x d + dg_width d <= sc_width s ∧ 0 <= dg_y d ∧ 0 <= dg_height d ∧ dg_y d + dg_height d < 2 ^ 31.

Definition in_area (d : Damage) (x y : nat) : Prop :=
  dg_x d <= Z.of_nat x < dg_x d + dg_width d ∧ dg_y d <= Z.of_nat y < dg_y d + dg_height d.
#[export] Instance in_area_dec d x y : Decision (in_area d x y) := _.

(** What a frame buffer keeps. *)
Definition same_fb (fb fb' : FrameBuffer) : Prop :=
  fb_phys fb' = fb_phys fb ∧ fb_width fb' = fb_width fb ∧ fb_height fb' = fb_height fb ∧ fb_stride fb' = fb_stride fb ∧
  length (fb_onscreen fb') = length (fb_onscreen fb).

Lemma same_fb_trans fb1 fb2 fb3 : same_fb fb1 fb2 → same_fb fb2 fb3 → same_fb fb1 fb3.
Proof. unfold same_fb. intros (?&?&?&?&?) (?&?&?&?&?). split_and!; congruence. Qed.

Lemma fits_same s off fb fb' : same_fb fb fb' → fits s off fb → fits s off fb'.
Proof. intros (_&_&_&Hs&Hl) []. split; try done; congruence. Qed.

(** Clipping of such an area cuts it at the bottom only. *)
Lemma clip_ok s off fb d :
  fits s off fb → area_ok s d →
  let r := clip (sc_width s) (sc_height s) d in
  dg_x r = dg_x d ∧ dg_width r = dg_width d ∧ dg_y r = Z.min (dg_y d) (sc_height s) ∧
  dg_height r = Z.min (dg_height d) (sc_height s - dg_y r) ∧ 0 <= dg_height r.
Proof.
  intros [] (Hx & Hw & Hxw & Hy & Hh & Hyh). unfold clip. cbn [dg_x dg_width dg_y dg_height].
  rewrite Z.min_l by lia. rewrite (as_i_id 32 (dg_x d + dg_width d)) by lia. rewrite (proj2 (Z.ltb_ge _ _)) by lia.
  rewrite (as_i_id 32 (Z.min (dg_y d) (sc_height s) + dg_height d)) by lia. rewrite (as_i_id 32 (sc_height s - _)) by lia.
  destruct (Z.ltb_spec (sc_height s) (Z.min (dg_y d) (sc_height s) + dg_height d)); lia.
Qed.

Lemma sync_rect_spec s off d fb :
  fits s off fb → area_ok s d →
  ∃ fb', sync_rect s off d fb = Some fb' ∧ same_fb fb fb' ∧
    ∀ x y, (x < Z.to_nat (fb_stride fb))%nat → (y < Z.to_nat (sc_height s))%nat →
      fb_pixel fb' x y = if decide (in_area d x y) then screen_pixel s off x y else fb_pixel fb x y.
Proof.
  intros Hf Ha. destruct (clip_ok s off fb d Hf Ha) as (Ex & Ew & Ey & Eh & Hh0). destruct Hf as [Hw Hh Hst Hoff Hon].
  destruct Ha as (Hx & Hdw & Hxw & Hy & Hdh & Hyh). unfold sync_rect. rewrite !(proj2 (Z.leb_gt _ _)) by lia. cbn [orb].
  set (r := clip _ _ d) in *. unfold usize_or_0. rewrite Ex, Ew. rewrite !Z.max_r by lia.
  set (W := Z.to_nat (sc_width s)). set (St := Z.to_nat (fb_stride fb)). set (H := Z.to_nat (sc_height s)).
  assert (Hoff' : length off = (W * H)%nat) by lia. assert (Hon' : length (fb_onscreen fb) = (St * H)%nat) by lia.
  destruct (copy_rows_spec (Z.to_nat (dg_height r)) (Z.to_nat (dg_width d)) W St off
    (Z.to_nat (dg_y r) * W + Z.to_nat (dg_x d))%nat (Z.to_nat (dg_y r) * St + Z.to_nat (dg_x d))%nat (fb_onscreen fb)) as (on' & E & Hl & Hc & Hk); [lia|lia| |].
  { intros j Hj. assert (Z.to_nat (dg_y r) + j < H)%nat by lia. assert (Z.to_nat (dg_x d) + Z.to_nat (dg_width d) <= W)%nat by lia. assert (W <= St)%nat by lia.
    rewrite Hoff', Hon'. nia. }
  rewrite E. cbn [mbind option_bind]. eexists. split; [reflexivity|]. split; [by repeat split|]. intros x y Hxs Hys.
  unfold fb_pixel, screen_pixel. cbn [fb_onscreen fb_stride]. fold W St. destruct (decide (in_area d x y)) as [[Hix Hiy]|Hn].
  - assert (Hyr : dg_y r <= Z.of_nat y < dg_y r + dg_height r) by lia.
    specialize (Hc (y - Z.to_nat (dg_y r))%nat (x - Z.to_nat (dg_x d))%nat ltac:(lia) ltac:(lia)).
    replace (Z.to_nat (dg_y r) * St + Z.to_nat (dg_x d) + (y - Z.to_nat (dg_y r)) * St + (x - Z.to_nat (dg_x d)))%nat with (y * St + x)%nat in Hc by nia.
    rewrite Hc. f_equal. nia.
  - apply Hk. intros j k Hj Hk' Eq. apply Hn.
    assert (Heq : (y * St + x = (Z.to_nat (dg_y r) + j) * St + (Z.to_nat (dg_x d) + k))%nat) by lia.
    assert (Hk2 : (Z.to_nat (dg_x d) + k < St)%nat) by lia. clear - Heq Hk2 Hxs Hj Hk' Hx Hy Hdw Ey Eh Hdh.
    assert (y = Z.to_nat (dg_y r) + j)%nat by (fold St in Hxs; nia). assert (x = Z.to_nat (dg_x d) + k)%nat by (subst y; lia).
    split; lia.
Qed.

(** A redraw of areas that do not cross the right edge of the screen: the pixels inside them are
    those of the screen, the others are what they were. *)
Lemma sync_rects_spec s off rects fb :
  fits s off fb → Forall (area_ok s) rects →
  ∃ fb', sync_rects s off rects fb = Some fb' ∧ same_fb fb fb' ∧
    ∀ x y, (x < Z.to_nat (fb_stride fb))%nat → (y < Z.to_nat (sc_height s))%nat →
      fb_pixel fb' x y = if decide (Exists (λ d, in_area d x y) rects) then screen_pixel s off x y else fb_pixel fb x y.
Proof.
  intros Hf Ha. revert fb Hf. induction Ha as [|d rects Hd _ IH]; intros fb Hf.
  { exists fb. split; [done|]. split; [by repeat split|]. intros x y _ _. rewrite decide_False; [done|]. by intros ?%Exists_nil. }
  destruct (sync_rect_spec s off d fb Hf Hd) as (fb1 & E1 & S1 & P1). destruct (IH fb1 (fits_same _ _ _ _ S1 Hf)) as (fb2 & E2 & S2 & P2).
  exists fb2. cbn [sync_rects]. rewrite E1. cbn [mbind option_bind]. split; [done|]. split; [by eapply same_fb_trans|]. intros x y Hx Hy.
  assert (Hst : fb_stride fb1 = fb_stride fb) by apply S1. rewrite P2 by (rewrite ?Hst; done). rewrite P1 by done.
  destruct (decide (Exists _ rects)) as [He|Hn]; [rewrite decide_True by (by right); done|].
  destruct (decide (in_area d x y)); [by rewrite decide_True by (by left)|]. rewrite decide_False; [done|]. intros [?|?]%Exists_cons; done.
Qed.

(** *** Areas that cross the right edge *)

Lemma sync_rect_clip s off d d' fb :
  clip (sc_width s) (sc_height s) d = clip (sc_width s) (sc_height s) d' → sync_rect s off d fb = sync_rect s off d' fb.
Proof. intros E. unfold sync_rect. by rewrite E. Qed.

Lemma copy_rows_outside rows w offs ons off : ∀ src dst on,
  (0 < rows)%nat → (0 < w)%nat → (length off < src + (rows - 1) * offs + w)%nat → copy_rows rows w offs ons off src dst on = None.
Proof.
  induction rows as [|rows IH]; intros src dst on Hr Hw Ho; [lia|]. cbn [copy_rows]. rewrite (proj2 (Nat.eqb_neq _ _)) by lia.
  destruct rows as [|rows]; [rewrite (proj2 (Nat.leb_gt _ _)) by lia; done|].
  destruct (_ && _)%bool; [|done]. apply IH; lia.
Qed.

(** The width that is left is the part outside the screen. *)
Lemma clip_crossing s d :
  0 <= sc_width s < 2 ^ 31 → 0 <= dg_x d < sc_width s → sc_width s - dg_x d < dg_width d → dg_x d + dg_width d < 2 ^ 31 →
  dg_x (clip (sc_width s) (sc_height s) d) = dg_x d ∧ dg_width (clip (sc_width s) (sc_height s) d) = dg_width d - (sc_width s - dg_x d).
Proof.
  intros HW Hx Hc Hb. unfold clip. cbn [dg_x dg_width]. rewrite Z.min_l by lia. rewrite (as_i_id 32 (dg_x d + dg_width d)) by lia.
  rewrite (proj2 (Z.ltb_lt _ _)) by lia. rewrite (as_i_id 32 (sc_width s - dg_x d)) by lia. rewrite Z.min_r by lia. rewrite as_i_id by lia. done.
Qed.

(** C36. [Damage::clip] (graphics-ipc/src/legacy.rs) subtracts the part of the width that is
    inside the screen instead of keeping it.  Of an area that crosses the right edge by less
    than what is inside, the columns nearest to the edge are not redrawn; of one that crosses
    it by more, in the last rows, the copy runs over the end of the screen's memory. *)
Theorem clip_right_edge s off d fb :
  fits s off fb → 0 <= dg_x d < sc_width s → sc_width s - dg_x d < dg_width d → dg_x d + dg_width d < 2 ^ 31 →
  0 <= dg_y d → 0 < dg_height d → dg_y d + dg_height d <= sc_height s →
  (dg_width d < 2 * (sc_width s - dg_x d) →
   ∃ fb', sync_rect s off d fb = Some fb' ∧
     ∀ x y, dg_x d + (dg_width d - (sc_width s - dg_x d)) <= Z.of_nat x < sc_width s → dg_y d <= Z.of_nat y < dg_y d + dg_height d →
       in_area d x y ∧ fb_pixel fb' x y = fb_pixel fb x y) ∧
  (2 * (sc_width s - dg_x d) < dg_width d → dg_y d + dg_height d = sc_height s → sync_rect s off d fb = None).
Proof.
  intros Hf Hx Hc Hb Hy Hh Hyh. pose proof Hf as [HW HH Hst Hoff Hon]. destruct (clip_crossing s d HW Hx Hc Hb) as [Ex Ew]. split.
  - intros Hw. set (d' := mk_damage (dg_x d) (dg_y d) (dg_width d - (sc_width s - dg_x d)) (dg_height d)).
    assert (Ha : area_ok s d') by (unfold area_ok, d'; cbn; lia). destruct (sync_rect_spec s off d' fb Hf Ha) as (fb' & E & _ & P).
    exists fb'. rewrite <- E. split.
    + apply sync_rect_clip. destruct (clip_ok s off fb d' Hf Ha) as (Ex' & Ew' & _).
      assert (eta : ∀ r, r = mk_damage (dg_x r) (dg_y r) (dg_width r) (dg_height r)) by (by intros []).
      rewrite (eta (clip _ _ d)), (eta (clip _ _ d')), Ex, Ew, Ex', Ew'. reflexivity.
    + intros x y Hpx Hpy. split; [unfold in_area; lia|]. rewrite P by lia. apply decide_False. unfold in_area, d'. cbn. lia.
  - intros Hw He. unfold sync_rect. rewrite !(proj2 (Z.leb_gt _ _)) by lia. cbn [orb]. rewrite Ex, Ew. unfold usize_or_0.
    assert (dg_y (clip (sc_width s) (sc_height s) d) = dg_y d ∧ dg_height (clip (sc_width s) (sc_height s) d) = dg_height d) as [-> ->].
    { unfold clip. cbn [dg_y dg_height]. rewrite Z.min_l by lia. rewrite (as_i_id 32 (dg_y d + dg_height d)) by lia. by rewrite (proj2 (Z.ltb_ge _ _)) by lia. }
    rewrite copy_rows_outside; [done|lia|lia|]. rewrite Hoff.
    assert (Z.to_nat (dg_y d) + Z.to_nat (dg_height d) = Z.to_nat (sc_height s))%nat by lia.
    replace (Z.to_nat (sc_width s * sc_height s)) with (Z.to_nat (sc_width s) * Z.to_nat (sc_height s))%nat by lia. rewrite !Z.max_r by lia. nia.
Qed.

Definition demo_screen : GraphicScreen := mk_screen 4 2 0.
Definition demo_fb : FrameBuffer := mk_fb (replicate 8 7) 0x1000 4 2 4.

Lemma clip_right_edge_witness :
  (∃ fb', sync_rect demo_screen (replicate 8 1) (mk_damage 1 0 4 2) demo_fb = Some fb' ∧ fb_pixel fb' 3 1 = Some 7) ∧
  sync_rect demo_screen (replicate 8 1) (mk_damage 3 0 8 2) demo_fb = None.
Proof.
  assert (Hf : fits demo_screen (replicate 8 1) demo_fb) by (split; cbn; lia). split.
  - destruct (clip_right_edge demo_screen (replicate 8 1) (mk_damage 1 0 4 2) demo_fb Hf
      ltac:(cbn; lia) ltac:(cbn; lia) ltac:(cbn; lia) ltac:(cbn; lia) ltac:(cbn; lia) ltac:(cbn; lia)) as [H _].
    destruct (H ltac:(cbn; lia)) as (fb' & E & P). exists fb'. split; [exact E|]. destruct (P 3%nat 1%nat ltac:(cbn; lia) ltac:(cbn; lia)) as [_ ->]. reflexivity.
  - destruct (clip_right_edge demo_screen (replicate 8 1) (mk_damage 3 0 8 2) demo_fb Hf
      ltac:(cbn; lia) ltac:(cbn; lia) ltac:(cbn; lia) ltac:(cbn; lia) ltac:(cbn; lia) ltac:(cbn; lia)) as [_ H]. apply H; cbn; lia.
Defined.

(** ** Round trips *)

Lemma le_val_4 x rest : le_val (take 4 (le_bytes 4 x ++ rest)) = x mod 2 ^ 32.
Proof.
  rewrite take_app_length' by (symmetry; apply length_le_bytes). cbn [le_bytes le_val]. 
  pose proof (Z.div_mod x 256). pose proof (Z.div_mod (x / 256) 256). pose proof (Z.div_mod (x / 256 / 256) 256). pose proof (Z.div_mod (x / 256 / 256 / 256) 256).
  replace (x mod 2 ^ 32) with (x - 2 ^ 32 * (x / 2 ^ 32)) by (pose proof (Z.div_mod x (2 ^ 32)); lia).
  replace (x / 2 ^ 32) with (x / 256 / 256 / 256 / 256) by (rewrite !Z.div_div by lia; done). lia.
Qed.

Lemma as_i_mod x : as_i 32 (x mod 2 ^ 32) = as_i 32 x.
Proof. unfold as_i. by rewrite Zplus_mod_idemp_l. Qed.

Definition i32 (x : Z) : Prop := - 2 ^ 31 <= x < 2 ^ 31.
Definition damage_i32 (d : Damage) : Prop := i32 (dg_x d) ∧ i32 (dg_y d) ∧ i32 (dg_width d) ∧ i32 (dg_height d).

Lemma damage_of_bytes d rest : damage_i32 d → damage_of (take DAMAGE_SIZE (damage_bytes d ++ rest)) = d.
Proof.
  intros (Hx & Hy & Hw & Hh). unfold i32 in *. rewrite take_app_length' by (symmetry; unfold damage_bytes; by rewrite !length_app, !length_le_bytes).
  unfold damage_of, damage_bytes, i32_at, slice. rewrite drop_0, le_val_4, as_i_mod, as_i_id by lia.
  rewrite (drop_app_length' _ _ 4) by (symmetry; apply length_le_bytes). rewrite le_val_4, as_i_mod, as_i_id by lia.
  rewrite (app_assoc (le_bytes 4 (dg_x d))), (drop_app_length' _ _ 8) by (by rewrite length_app, !length_le_bytes). rewrite le_val_4, as_i_mod, as_i_id by lia.
  rewrite (app_assoc _ (le_bytes 4 (dg_width d))), (drop_app_length' _ _ 12) by (by rewrite !length_app, !length_le_bytes).
  rewrite <- (app_nil_r (le_bytes 4 (dg_height d))), le_val_4, as_i_mod, as_i_id by lia. by destruct d.
Qed.

Lemma length_damage_bytes d : length (damage_bytes d) = DAMAGE_SIZE.
Proof. unfold damage_bytes. by rewrite !length_app, !length_le_bytes. Qed.

Lemma length_sync_rects_bytes rects : length (sync_rects_bytes rects) = (length rects * DAMAGE_SIZE)%nat.
Proof.
  induction rects as [|d rects IH]; [done|]. change (sync_rects_bytes (d :: rects)) with (damage_bytes d ++ sync_rects_bytes rects).
  rewrite length_app, IH, length_damage_bytes. done.
Qed.

(** The areas a client asks for are the areas the driver redraws. *)
Lemma damages_roundtrip rects :
  Forall damage_i32 rects → damages_of (length (sync_rects_bytes rects) / DAMAGE_SIZE) (sync_rects_bytes rects) = rects.
Proof.
  intros Hr. rewrite length_sync_rects_bytes, Nat.div_mul by done. induction Hr as [|d rects Hd _ IH]; [done|]. cbn [length damages_of].
  change (sync_rects_bytes (d :: rects)) with (damage_bytes d ++ sync_rects_bytes rects). rewrite damage_of_bytes by done. f_equal.
  by rewrite drop_app_length' by (symmetry; apply length_damage_bytes).
Qed.

Definition no_char (c : Ascii.ascii) (s : string) : Prop := c ∉ String.list_ascii_of_string s.

Lemma append_empty s : s +:+ "" = s.
Proof. induction s as [|a s IH]; [done|]. change (String a s +:+ "") with (String a (s +:+ "")). by rewrite IH. Qed.

Lemma append_assoc s t u : s +:+ (t +:+ u) = (s +:+ t) +:+ u.
Proof. induction s as [|a s IH]; [done|]. change (String a (s +:+ (t +:+ u)) = String a ((s +:+ t) +:+ u)). by rewrite IH. Qed.

Lemma gfx_split_cons c cur a p : gfx_split c cur (String a p) = if decide (a = c) then cur :: gfx_split c "" p else gfx_split c (cur +:+ String a "") p.
Proof. reflexivity. Qed.

Lemma gfx_split_last c cur s : no_char c s → gfx_split c cur s = [cur +:+ s].
Proof.
  unfold no_char. revert cur. induction s as [|a s IH]; intros cur Hs; [by rewrite append_empty|].
  cbn in Hs. rewrite gfx_split_cons, decide_False by set_solver. rewrite IH by set_solver. by rewrite <- append_assoc.
Qed.

Lemma gfx_split_first c cur s rest : no_char c s → gfx_split c cur (s +:+ String c rest) = (cur +:+ s) :: gfx_split c "" rest.
Proof.
  unfold no_char. revert cur. induction s as [|a s IH]; intros cur Hs.
  - change ("" +:+ String c rest) with (String c rest). rewrite gfx_split_cons, decide_True by done. by rewrite append_empty.
  - cbn in Hs. change (String a s +:+ String c rest) with (String a (s +:+ String c rest)). rewrite gfx_split_cons, decide_False by set_solver.
    rewrite IH by set_solver. by rewrite <- append_assoc.
Qed.

Lemma parse_digits_chars bound acc s v : parse_digits bound acc s = Some v → ∀ c, c ∈ String.list_ascii_of_string s → digit c ≠ None.
Proof.
  revert acc. induction s as [|a s IH]; intros acc Hp c; cbn; [by intros ?%elem_of_nil|]. cbn in Hp. destruct (digit a) as [d|] eqn:Ed; [|done].
  destruct (_ <? _); [|done]. rewrite elem_of_cons. intros [-> |Hc]; [by rewrite Ed|by apply (IH _ Hp)].
Qed.

Lemma pretty_digits n c : 0 <= n → c ∈ String.list_ascii_of_string (pretty n) → digit c ≠ None.
Proof.
  intros Hn. apply (parse_digits_chars (n + 1) 0 _ n). destruct n as [|q|q]; [done| |lia].
  change (pretty (Z.pos q)) with (pretty (N.pos q)). unfold pretty, pretty_N. rewrite decide_False by done. rewrite parse_digits_pretty by lia. done.
Qed.

Lemma no_char_app c s s' : no_char c s → no_char c s' → no_char c (s +:+ s').
Proof. unfold no_char. induction s as [|a s IH]; cbn; [done|]. intros H1 H2. specialize (IH ltac:(set_solver) H2). set_solver. Qed.

Lemma no_char_pretty c n : 0 <= n → digit c = None → no_char c (pretty n).
Proof. intros Hn Hc Hin. by apply (pretty_digits n c Hn Hin). Qed.

(** The size a client reads from the path of its display ([map_display]) is the size of the
    screen. *)
Lemma display_size_roundtrip {A R : Type} `{GraphicsAdapter A R} name vt screen (r : R) :
  no_char ":" name → 0 <= vt → 0 <= screen → 0 <= res_width r < 2 ^ 64 → 0 <= res_height r < 2 ^ 64 →
  display_size_of (gfx_path name vt screen r) = Some (res_width r, res_height r).
Proof.
  intros Hn Hv Hs Hw Hh. unfold display_size_of, gfx_path.
  change (name +:+ ":" +:+ ?x) with (name +:+ String ":" x). rewrite gfx_split_first by done.
  assert (Hc : ∀ n, 0 <= n → no_char ":" (pretty n)) by (intros; by apply no_char_pretty).
  assert (Hl : ∀ n, 0 <= n → no_char "/" (pretty n)) by (intros; by apply no_char_pretty).
  rewrite gfx_split_last by (repeat first [apply no_char_app|apply Hc; lia]; unfold no_char; cbn; set_solver).
  cbn [lookup list_lookup mbind option_bind]. change ("" +:+ ?x) with x.
  assert (Hp : ∀ x, pretty vt +:+ "." +:+ pretty screen +:+ "/" +:+ x = (pretty vt +:+ "." +:+ pretty screen) +:+ String "/" x) by (intros x; by rewrite !append_assoc, <- append_assoc).
  rewrite Hp, gfx_split_first by (repeat first [apply no_char_app|apply Hl; lia]; unfold no_char; cbn; set_solver).
  change (pretty (res_width r) +:+ "/" +:+ ?x) with (pretty (res_width r) +:+ String "/" x).
  rewrite gfx_split_first by (apply Hl; lia). rewrite gfx_split_last by (apply Hl; lia). cbn [drop lookup list_lookup default].
  change (id ("" +:+ pretty (res_width r))) with (pretty (res_width r)). change (id ("" +:+ pretty (res_height r))) with (pretty (res_height r)).
  by rewrite !parse_uint_pretty by done.
Qed.
