(* ===== verification/Console.v ===== *)
(** Text consoles: drawing of characters (graphics/console-draw/src/lib.rs) and the terminals of
    fbcond over it (graphics/fbcond/src/text.rs, display.rs), on top of the display scheme with
    vesad.

    The terminal emulator ransid is a class; it turns the bytes written into drawing events.
    Coordinates are natural numbers: those of a console are far below the width of a machine
    word.  The pixels are those of a screen of [Graphics], in the memory shared with the driver.

    [console_write_ok] says that a write returns, and that the areas it hands to the driver cover
    every pixel it has changed. *)

From S2P Require Import Prelude Io Inputd Ps2Controller Ps2State Graphics.

(** ** The terminal emulator *)

Inductive RansidEvent : Type :=
| EvChar (x y : nat) (c rgb : Z) (bold : bool)
| EvInput (data : list Z)
| EvRect (x y w h : nat) (rgb : Z)
| EvScreenBuffer
| EvMove (from_x from_y to_x to_y w h : nat)
| EvResize
| EvTitle.

Class Ransid (C : Type) := {
  rs_new : nat → nat → C;
  rs_resize : nat → nat → C → C;
  rs_x : C → nat; rs_y : C → nat; rs_w : C → nat; rs_h : C → nat; rs_cursor : C → bool;
  rs_set_x : nat → C → C; rs_set_y : nat → C → C;
  rs_write : list Z → C → list RansidEvent * C;
}.

(** ** Drawing *)

Record DrawMap := mk_map { mp_pixels : list Z; mp_width : nat; mp_height : nat }.
Definition set_pixels (p : list Z) (m : DrawMap) : DrawMap := mk_map p (mp_width m) (mp_height m).

(** [len] pixels from [base] on become [g column old]; [None]: outside the memory. *)
Definition update_row (len base : nat) (g : nat → Z → Z) (p : list Z) : option (list Z) :=
  if (len =? 0)%nat then Some p
  else if (base + len <=? length p)%nat then Some (splice base (imap g (slice base len p)) p)
  else None.

(** The same for [rows] rows, [stride] pixels apart. *)
Fixpoint update_rows (rows row len stride base : nat) (g : nat → nat → Z → Z) (p : list Z) : option (list Z) :=
  match rows with
  | O => Some p
  | S rows => p ← update_row len base (g row) p; update_rows rows (S row) len stride (base + stride) g p
  end.

Definition draw_rect (x y w h : nat) (color : Z) (m : DrawMap) : option DrawMap :=
  let start_y := Nat.min (mp_height m) y in
  let end_y := Nat.min (mp_height m) (y + h) in
  let start_x := Nat.min (mp_width m) x in
  let len := (Nat.min (mp_width m) (x + w) - start_x)%nat in
  p ← update_rows (end_y - start_y) 0 len (mp_width m) (y * mp_width m + start_x) (λ _ _ _, color) (mp_pixels m);
  Some (set_pixels p m).

Definition invert (x y w h : nat) (m : DrawMap) : option DrawMap :=
  let start_y := Nat.min (mp_height m) y in
  let end_y := Nat.min (mp_height m) (y + h) in
  let start_x := Nat.min (mp_width m) x in
  let len := (Nat.min (mp_width m) (x + w) - start_x)%nat in
  p ← update_rows (end_y - start_y) 0 len (mp_width m) (y * mp_width m + start_x) (λ _ _ c, unot 32 c) (mp_pixels m);
  Some (set_pixels p m).

Section drawing.
(** The font of orbclient: 16 bytes per character. *)
Context (FONT : list Z).

Definition draw_char (x y : nat) (character color : Z) (m : DrawMap) : option DrawMap :=
  if ((x + 8 <=? mp_width m) && (y + 16 <=? mp_height m))%nat then
    let font_i := (16 * Z.to_nat character)%nat in
    if (font_i + 16 <=? length FONT)%nat then
      let bit row col := Z.land (Z.shiftr (default 0 (FONT !! (font_i + row)%nat)) (7 - Z.of_nat col)) 1 =? 1 in
      p ← update_rows 16 0 8 (mp_width m) (y * mp_width m + x) (λ row col c, if bit row col then color else c) (mp_pixels m);
      Some (set_pixels p m)
    else Some m
  else Some m.

(** [ptr::copy] inside the pixels. *)
Definition move_row (from_ to_ len : nat) (p : list Z) : list Z :=
  if ((from_ + len <=? length p) && (to_ + len <=? length p))%nat then splice to_ (slice from_ len p) p else p.

Fixpoint move_pixel_rows (n pixel_y from_row to_row from_x to_x len width : nat) (p : list Z) : list Z :=
  match n with
  | O => p
  | S n =>
      let p := move_row ((from_row * 16 + pixel_y) * width + from_x * 8) ((to_row * 16 + pixel_y) * width + to_x * 8) len p in
      move_pixel_rows n (S pixel_y) from_row to_row from_x to_x len width p
  end.

(** Rows are moved from the top when they go up, from the bottom when they go down. *)
Fixpoint move_rows (n raw_y from_x from_y to_x to_y w h width : nat) (p : list Z) (changed : gset nat) : list Z * gset nat :=
  match n with
  | O => (p, changed)
  | S n =>
      let y := (if to_y <? from_y then raw_y else h - raw_y - 1)%nat in
      let p := move_pixel_rows 16 0 (from_y + y) (to_y + y) from_x to_x (w * 8) width p in
      move_rows n (S raw_y) from_x from_y to_x to_y w h width p ({[(to_y + y)%nat]} ∪ changed)
  end.

(** ** The console *)

Record TextScreen (C : Type) := mk_text { tx_console : C; tx_changed : gset nat }.
Arguments mk_text {C} tx_console tx_changed.
Arguments tx_console {C} _.
Arguments tx_changed {C} _.

Context {C : Type} `{HR : Ransid C}.

Definition text_new : TextScreen C := mk_text (rs_new 0 0) ∅.

Definition console_event (e : RansidEvent) (s : DrawMap * gset nat * list Z) : option (DrawMap * gset nat * list Z) :=
  let '(m, changed, input) := s in
  match e with
  | EvChar x y c rgb _ => m ← draw_char (x * 8) (y * 16) c rgb m; Some (m, {[y]} ∪ changed, input)
  | EvInput data => Some (m, changed, input ++ data)
  | EvRect x y w h rgb => m ← draw_rect (x * 8) (y * 16) (w * 8) (h * 16) rgb m; Some (m, list_to_set (seq y h) ∪ changed, input)
  | EvScreenBuffer => Some s
  | EvMove from_x from_y to_x to_y w h =>
      let '(p, changed) := move_rows h 0 from_x from_y to_x to_y w h (mp_width m) (mp_pixels m) changed in
      Some (set_pixels p m, changed, input)
  | EvResize => Some s
  | EvTitle => Some s
  end.

Fixpoint console_events (es : list RansidEvent) (s : DrawMap * gset nat * list Z) : option (DrawMap * gset nat * list Z) :=
  match es with [] => Some s | e :: es => s ← console_event e s; console_events es s end.

(** The cursor is drawn by inverting its cell. *)
Definition invert_cursor (c : C) (m : DrawMap) (changed : gset nat) : option (DrawMap * gset nat) :=
  if rs_cursor c && (rs_x c <? rs_w c)%nat && (rs_y c <? rs_h c)%nat then
    m ← invert (rs_x c * 8) (rs_y c * 16) 8 16 m;
    Some (m, {[rs_y c]} ∪ changed)
  else Some (m, changed).

Definition clamp_cursor (c : C) : C :=
  let c := if (rs_w c <? rs_x c)%nat then rs_set_x (rs_w c) c else c in
  if (rs_h c <? rs_y c)%nat then rs_set_y (rs_h c) c else c.

Definition set_last_height (damage : list Damage) : option (list Damage) :=
  d ← last damage;
  Some (take (length damage - 1) damage ++ [mk_damage (dg_x d) (dg_y d) (dg_width d) (as_i 32 (dg_height d + 16))]).

(** Runs of changed rows become one area each.  [None]: a row that is not a signed word. *)
Fixpoint damage_rows (width last_change : Z) (rows : list nat) (damage : list Damage) : option (list Damage) :=
  match rows with
  | [] => Some damage
  | r :: rows =>
      let change := Z.of_nat r in
      damage ← (if change =? last_change + 1 then set_last_height damage
                else if change <? 2 ^ 31 then Some (damage ++ [mk_damage 0 (as_i 32 (change * 16)) width 16]) else None);
      damage_rows width change rows damage
  end.

(** The rows of the ordered set. *)
Definition sorted_rows (changed : gset nat) : list nat := merge_sort Nat.le (elements changed).

(** [TextScreen::write]: the pixels, the areas to redraw, and what the emulator answers. *)
Definition console_write (buf : list Z) (t : TextScreen C) (m : DrawMap) (input : list Z) : option (TextScreen C * DrawMap * list Z * list Damage) :=
  let c := clamp_cursor (rs_resize (mp_width m / 8) (mp_height m / 16) (tx_console t)) in
  '(m, changed) ← invert_cursor c m (tx_changed t);
  let '(es, c) := rs_write buf c in
  '(m, changed, input) ← console_events es (m, changed, input);
  '(m, changed) ← invert_cursor c m changed;
  if (Z.of_nat (mp_width m) <? 2 ^ 31) then
    damage ← damage_rows (Z.of_nat (mp_width m)) (2 ^ 64 - 2) (sorted_rows changed) [];
    Some (mk_text c ∅, m, input, damage)
  else None.

End drawing.
Arguments mk_text {C} tx_console tx_changed.
Arguments tx_console {C} _.
Arguments tx_changed {C} _.

(** ** Terminals of fbcond *)

(** The display of a terminal: the handle of the scheme, and the memory it maps. *)
Record FbDisplay := mk_display { dp_handle : Z; dp_ptr : Z; dp_width : Z; dp_height : Z }.

Record FbText (C : Type) := mk_fbtext { ft_display : FbDisplay; ft_inner : TextScreen C; ft_ctrl : bool; ft_input : list Z }.
Arguments mk_fbtext {C} ft_display ft_inner ft_ctrl ft_input.
Arguments ft_display {C} _.
Arguments ft_inner {C} _.
Arguments ft_ctrl {C} _.
Arguments ft_input {C} _.

(** [char::encode_utf8]. *)
Definition encode_utf8 (c : Z) : list Z :=
  if c <? 0x80 then [c]
  else if c <? 0x800 then [0xC0 + c / 64; 0x80 + c mod 64]
  else if c <? 0x10000 then [0xE0 + c / 4096; 0x80 + (c / 64) mod 64; 0x80 + c mod 64]
  else [0xF0 + c / 262144; 0x80 + (c / 4096) mod 64; 0x80 + (c / 64) mod 64; 0x80 + c mod 64].

Definition ESC (s : string) : list Z := 0x1B :: string_bytes s.

(** What a key that is pressed types. *)
Definition key_bytes (ctrl : bool) (scancode character : Z) : list Z :=
  match scancode with
  | 0x0E => [0x7F]
  | 0x47 => ESC "[H" | 0x48 => ESC "[A" | 0x49 => ESC "[5~" | 0x4B => ESC "[D" | 0x4D => ESC "[C" | 0x4F => ESC "[F"
  | 0x50 => ESC "[B" | 0x51 => ESC "[6~" | 0x52 => ESC "[2~" | 0x53 => ESC "[3~"
  | _ =>
      let c := if ctrl && (65 <=? character) && (character <=? 90) then character - 65 + 1
               else if ctrl && (97 <=? character) && (character <=? 122) then character - 97 + 1
               else character in
      if c =? 0 then [] else encode_utf8 c
  end.

Section terminal.
Context (FONT : list Z) {C : Type} `{HR : Ransid C}.

Definition fbtext_new (d : FbDisplay) : FbText C := mk_fbtext d text_new false [].

Definition text_input (event : OrbEvent) (t : FbText C) : FbText C :=
  match event with
  | KeyEvent character scancode pressed =>
      if scancode =? 0x1D then mk_fbtext (ft_display t) (ft_inner t) pressed (ft_input t)
      else if pressed then mk_fbtext (ft_display t) (ft_inner t) (ft_ctrl t) (ft_input t ++ key_bytes (ft_ctrl t) scancode character)
      else t
  | _ => t
  end.

Definition text_can_read (t : FbText C) : bool := negb (bool_decide (ft_input t = [])).

(** The bytes read into the start of a buffer of [len]. *)
Definition text_read (len : nat) (t : FbText C) : list Z * FbText C :=
  (take len (ft_input t), mk_fbtext (ft_display t) (ft_inner t) (ft_ctrl t) (drop len (ft_input t))).

(** *** On the display scheme *)

Abbreviation VS := (GraphicsScheme FbAdapter GraphicScreen).
Abbreviation vp := (prog VS errno).

Definition expect_ok {B : Type} (m : vp B) : vp B := λ s, match m s with (Err _, s) => (Panic, s) | r => r end.

(** [Display::open_vt] with [map_display]; [path] is what inputd opens. *)
Definition open_display (path : string) : vp FbDisplay :=
  id ← gfx_open path;
  url ← expect_ok (gfx_fpath id 4096);
  size ← unwrap (display_size_of (String.string_of_list_ascii ((λ b, Ascii.ascii_of_nat (Z.to_nat b)) <$> url)));
  ptr ← expect_ok (gfx_mmap_prep id);
  mret (mk_display id ptr size.1 size.2).

(** A client draws into the memory it has mapped. *)
Definition poke (ptr : Z) (p : list Z) (s : VS) : VS :=
  let a := gs_adapter s in set_gadapter (mk_fba (fba_framebuffers a) (<[ptr := p]> (fba_heap a)) (fba_alloc a)) s.

(** [TextScreen::write] of fbcond: draw, then tell the driver what changed. *)
Definition text_write (buf : list Z) (t : FbText C) : vp (FbText C) :=
  let d := ft_display t in
  p ← gets (λ s, fba_heap (gs_adapter s) !! dp_ptr d);
  p ← unwrap p;
  r ← unwrap (console_write FONT buf (ft_inner t) (mk_map p (Z.to_nat (dp_width d)) (Z.to_nat (dp_height d))) (ft_input t));
  let '(inner, m, input, damage) := r in
  _ ← modify (poke (dp_ptr d) (mp_pixels m));
  _ ← expect_ok (gfx_write (dp_handle d) (sync_rects_bytes damage));
  mret (mk_fbtext d inner (ft_ctrl t) input).

End terminal.
Arguments mk_fbtext {C} ft_display ft_inner ft_ctrl ft_input.
Arguments ft_display {C} _.
Arguments ft_inner {C} _.
Arguments ft_ctrl {C} _.
Arguments ft_input {C} _.

(** ** What drawing changes *)

(** The emulator draws inside the size it was given, and keeps it. *)
Definition ev_inside (w h : nat) (e : RansidEvent) : Prop :=
  match e with
  | EvChar _ y _ _ _ => (y < h)%nat
  | EvRect _ y _ h' _ => (y + h' <= h)%nat
  | EvMove _ _ to_x to_y w' h' => (to_x + w' <= w)%nat ∧ (to_y + h' <= h)%nat
  | _ => True
  end.

Class RansidLaws (C : Type) `{Ransid C} := {
  rl_resize w h c : rs_w (rs_resize w h c) = w ∧ rs_h (rs_resize w h c) = h;
  rl_set_x x c : rs_w (rs_set_x x c) = rs_w c ∧ rs_h (rs_set_x x c) = rs_h c;
  rl_set_y y c : rs_w (rs_set_y y c) = rs_w c ∧ rs_h (rs_set_y y c) = rs_h c;
  rl_write buf c : rs_w (rs_write buf c).2 = rs_w c ∧ rs_h (rs_write buf c).2 = rs_h c;
  rl_inside buf c : Forall (ev_inside (rs_w c) (rs_h c)) (rs_write buf c).1;
}.

(** Pixels that differ are in the rows of characters [chg]. *)
Definition only_rows (W : nat) (chg : gset nat) (p p' : list Z) : Prop :=
  ∀ x y, (x < W)%nat → (y / 16)%nat ∉ chg → p' !! (y * W + x)%nat = p !! (y * W + x)%nat.

Lemma only_rows_step W chg chg' p p' p'' : only_rows W chg p p' → only_rows W chg' p' p'' → only_rows W (chg' ∪ chg) p p''.
Proof. intros H1 H2 x y Hx Hy. rewrite H2 by set_solver. apply H1; set_solver. Qed.

Lemma splice_lookup_out (base : nat) (data p : list Z) i :
  (base + length data <= length p)%nat → (i < base ∨ base + length data <= i)%nat → splice base data p !! i = p !! i.
Proof.
  intros Hl Hi. unfold splice. destruct Hi.
  - rewrite lookup_app_l by (rewrite length_take; lia). by rewrite lookup_take_lt by lia.
  - rewrite lookup_app_r by (rewrite length_take; lia). rewrite lookup_app_r by (rewrite length_take; lia). rewrite lookup_drop, length_take. f_equal. lia.
Qed.

Lemma update_row_spec len base g p :
  (base + len <= length p)%nat →
  ∃ p', update_row len base g p = Some p' ∧ length p' = length p ∧ ∀ i, (i < base ∨ base + len <= i)%nat → p' !! i = p !! i.
Proof.
  intros Hl. unfold update_row. destruct (Nat.eqb_spec len 0) as [->|]; [by exists p|]. rewrite (proj2 (Nat.leb_le _ _)) by lia.
  assert (Hd : length (imap g (slice base len p)) = len) by (rewrite length_imap; by apply length_slice).
  eexists. split; [reflexivity|]. split; [apply length_splice; lia|]. intros i Hi. apply splice_lookup_out; lia.
Qed.

Lemma update_rows_spec rows len stride g : ∀ row base p,
  (∀ r, (r < rows)%nat → (base + r * stride + len <= length p)%nat) →
  ∃ p', update_rows rows row len stride base g p = Some p' ∧ length p' = length p ∧
    ∀ i, (∀ r, (r < rows)%nat → (i < base + r * stride ∨ base + r * stride + len <= i)%nat) → p' !! i = p !! i.
Proof.
  induction rows as [|rows IH]; intros row base p Hb; cbn [update_rows]; [by exists p|].
  destruct (update_row_spec len base (g row) p) as (p1 & E1 & L1 & K1); [specialize (Hb 0%nat); lia|]. rewrite E1. cbn [mbind option_bind].
  destruct (IH (S row) (base + stride)%nat p1) as (p2 & E2 & L2 & K2); [intros r Hr; rewrite L1; specialize (Hb (S r)); lia|].
  exists p2. split; [done|]. split; [congruence|]. intros i Hi. rewrite K2; [|intros r Hr; specialize (Hi (S r)); lia]. apply K1. specialize (Hi 0%nat). lia.
Qed.

(** A block of rows inside the memory: only its rows change. *)
Lemma block_spec (W H x y rows len : nat) g p row :
  length p = (W * H)%nat → (x + len <= W)%nat → (rows ≠ 0 → y + rows <= H)%nat →
  ∃ p', update_rows rows row len W (y * W + x) g p = Some p' ∧ length p' = length p ∧
    ∀ px py, (px < W)%nat → ¬ (y <= py < y + rows)%nat → p' !! (py * W + px)%nat = p !! (py * W + px)%nat.
Proof.
  intros Hl Hx Hy. destruct (update_rows_spec rows len W g row (y * W + x) p) as (p' & E & L & K).
  { intros r Hr. rewrite Hl. assert (y + r < H)%nat by lia. nia. }
  exists p'. split; [done|]. split; [done|]. intros px py Hpx Hpy. apply K. intros r Hr. destruct (decide (py < y + r)%nat).
  - left. nia.
  - right. assert (py ≠ y + r)%nat by lia. nia.
Qed.

(** The map, the changed rows, and the pixels when the write began. *)
Record drawn (W H : nat) (p0 : list Z) (m : DrawMap) (chg : gset nat) : Prop := {
  dn_width : mp_width m = W;
  dn_height : mp_height m = H;
  dn_length : length (mp_pixels m) = (W * H)%nat;
  dn_only : only_rows W chg p0 (mp_pixels m);
  dn_rows : ∀ r, r ∈ chg → (r < H / 16)%nat;
}.

Lemma drawn_start W H p : length p = (W * H)%nat → drawn W H p (mk_map p W H) ∅.
Proof. intros Hl. split; [done..| |]; [by intros x y _ _|set_solver]. Qed.

(** New pixels whose differences are in rows that are noted. *)
Lemma drawn_step W H p0 m chg p' new :
  drawn W H p0 m chg → length p' = (W * H)%nat → only_rows W new (mp_pixels m) p' → (∀ r, r ∈ new → (r < H / 16)%nat) →
  drawn W H p0 (set_pixels p' m) (new ∪ chg).
Proof. intros [] Hl Ho Hn. split; try done; [by eapply only_rows_step|]. intros r. rewrite elem_of_union. intros [?|?]; eauto. Qed.

Lemma row_bound (H cy ch r : nat) : (cy + ch <= H / 16)%nat → (r < ch * 16)%nat → (cy * 16 + r < H)%nat.
Proof. intros Hc Hr. pose proof (Nat.div_mod_eq H 16). lia. Qed.

Lemma block_rows (cy ch y : nat) : (cy * 16 <= y < cy * 16 + ch * 16)%nat → (cy <= y / 16 < cy + ch)%nat.
Proof. intros Hy. split; [apply Nat.div_le_lower_bound; lia|apply Nat.Div0.div_lt_upper_bound; lia]. Qed.

(** [rect] and [invert], on cells. *)
Lemma cells_spec W H p0 m chg (cx cy cw ch : nat) g :
  drawn W H p0 m chg → (cy + ch <= H / 16)%nat →
  let x := (cx * 8)%nat in let y := (cy * 16)%nat in let w := (cw * 8)%nat in let h := (ch * 16)%nat in
  ∃ p', update_rows (Nat.min (mp_height m) (y + h) - Nat.min (mp_height m) y) 0 (Nat.min (mp_width m) (x + w) - Nat.min (mp_width m) x)
          (mp_width m) (y * mp_width m + Nat.min (mp_width m) x) g (mp_pixels m) = Some p' ∧
    drawn W H p0 (set_pixels p' m) (list_to_set (seq cy ch) ∪ chg).
Proof.
  intros Hd Hc x y w h. pose proof Hd as [Ew Eh El _ _]. rewrite Ew, Eh.
  assert (Hh : (cy * 16 + ch * 16 <= H)%nat) by (pose proof (Nat.div_mod_eq H 16); lia).
  destruct (block_spec W H (Nat.min W x) y (Nat.min H (y + h) - Nat.min H y) (Nat.min W (x + w) - Nat.min W x) g (mp_pixels m) 0) as (p' & E & L & K); [done|lia|lia|].
  exists p'. split; [done|]. apply drawn_step; [done|congruence| |].
  - intros px py Hpx Hpy. apply K; [done|]. intros Hin. apply Hpy. apply elem_of_list_to_set, elem_of_seq. apply block_rows. unfold y, h in Hin. lia.
  - intros r Hr. apply elem_of_list_to_set, elem_of_seq in Hr. lia.
Qed.

Lemma rect_ok W H p0 m chg cx cy cw ch color :
  drawn W H p0 m chg → (cy + ch <= H / 16)%nat →
  ∃ m', draw_rect (cx * 8) (cy * 16) (cw * 8) (ch * 16) color m = Some m' ∧ drawn W H p0 m' (list_to_set (seq cy ch) ∪ chg).
Proof. intros Hd Hc. destruct (cells_spec W H p0 m chg cx cy cw ch (λ _ _ _, color) Hd Hc) as (p' & E & D). unfold draw_rect. rewrite E. by eexists. Qed.

Lemma invert_ok W H p0 m chg cx cy :
  drawn W H p0 m chg → (cy < H / 16)%nat → ∃ m', invert (cx * 8) (cy * 16) 8 16 m = Some m' ∧ drawn W H p0 m' ({[cy]} ∪ chg).
Proof.
  intros Hd Hc. destruct (cells_spec W H p0 m chg cx cy 1 1 (λ _ _ c, unot 32 c) Hd) as (p' & E & D); [lia|].
  change (1 * 8)%nat with 8%nat in E. change (1 * 16)%nat with 16%nat in E. unfold invert. rewrite E. eexists. split; [reflexivity|].
  replace ({[cy]} : gset nat) with (list_to_set (seq cy 1) : gset nat) by (cbn; set_solver). exact D.
Qed.

Lemma char_ok FONT W H p0 m chg cx cy c color :
  drawn W H p0 m chg → (cy < H / 16)%nat → ∃ m', draw_char FONT (cx * 8) (cy * 16) c color m = Some m' ∧ drawn W H p0 m' ({[cy]} ∪ chg).
Proof.
  intros Hd Hc. pose proof Hd as [Ew Eh El _ _].
  assert (Hsame : drawn W H p0 m ({[cy]} ∪ chg)).
  { destruct m. apply drawn_step with (p' := mp_pixels0) (new := {[cy]}) in Hd; try done. intros r Hr. apply elem_of_singleton in Hr. by subst. }
  unfold draw_char. destruct (_ && _)%bool eqn:Eb; [|by exists m]. apply andb_true_iff in Eb as [Ex%Nat.leb_le Ey%Nat.leb_le]. rewrite Ew, Eh in *.
  destruct (_ <=? length FONT)%nat; [|by exists m].
  match goal with |- context [update_rows 16 0 8 W _ ?g _] => destruct (block_spec W H (cx * 8) (cy * 16) 16 8 g (mp_pixels m) 0) as (p' & E & L & K) end; [done|lia|lia|].
  rewrite E. eexists. split; [reflexivity|]. apply drawn_step; [done|congruence| |].
  - intros px py Hpx Hpy. apply K; [done|]. intros Hin. apply Hpy. apply elem_of_singleton. pose proof (block_rows cy 1 py). lia.
  - intros r Hr. apply elem_of_singleton in Hr. by subst.
Qed.

(** *** Moving *)

Lemma move_row_spec from_ to_ len p : length (move_row from_ to_ len p) = length p ∧ ∀ i, (i < to_ ∨ to_ + len <= i)%nat → move_row from_ to_ len p !! i = p !! i.
Proof.
  unfold move_row. destruct (_ && _)%bool eqn:Eb; [|done]. apply andb_true_iff in Eb as [Ef%Nat.leb_le Et%Nat.leb_le].
  assert (Hd : length (slice from_ len p) = len) by (by apply length_slice). split; [apply length_splice; lia|]. intros i Hi. apply splice_lookup_out; lia.
Qed.

Lemma move_pixel_rows_spec n fr tr fx tx len W : ∀ py p,
  (tx * 8 + len <= W)%nat → (py + n <= 16)%nat →
  length (move_pixel_rows n py fr tr fx tx len W p) = length p ∧ only_rows W {[tr]} p (move_pixel_rows n py fr tr fx tx len W p).
Proof.
  induction n as [|n IH]; intros py p Hx Hn; cbn [move_pixel_rows]; [by split; [|intros x y _ _]|].
  destruct (move_row_spec ((fr * 16 + py) * W + fx * 8) ((tr * 16 + py) * W + tx * 8) len p) as [L1 K1]. set (p1 := move_row _ _ _ _) in *.
  destruct (IH (S py) p1 Hx ltac:(lia)) as [L2 K2]. split; [congruence|]. intros x y Hpx Hy. rewrite K2 by done. apply K1.
  assert (y ≠ tr * 16 + py)%nat as Hne. { intros ->. apply Hy. apply elem_of_singleton. pose proof (block_rows tr 1 (tr * 16 + py)). lia. }
  destruct (decide (y < tr * 16 + py)%nat); [left; nia|right; nia].
Qed.

Lemma move_rows_ok n : ∀ raw_y W H p0 m chg fx fy tx ty w h,
  drawn W H p0 m chg → (tx + w <= W / 8)%nat → (ty + h <= H / 16)%nat → (raw_y + n = h)%nat →
  drawn W H p0 (set_pixels (move_rows n raw_y fx fy tx ty w h W (mp_pixels m) chg).1 m) (move_rows n raw_y fx fy tx ty w h W (mp_pixels m) chg).2.
Proof.
  induction n as [|n IH]; intros raw_y W H p0 m chg fx fy tx ty w h Hd Hx Hy Hn; cbn [move_rows fst snd].
  { destruct Hd. by destruct m. }
  set (y := (if ty <? fy then raw_y else h - raw_y - 1)%nat).
  assert (Hyr : (y < h)%nat) by (unfold y; destruct (_ <? _)%nat; lia).
  destruct (move_pixel_rows_spec 16 (fy + y) (ty + y) fx tx (w * 8) W 0 (mp_pixels m)) as [L K]; [pose proof (Nat.div_mod_eq W 8); lia|lia|].
  set (p1 := move_pixel_rows _ _ _ _ _ _ _ _ _) in *.
  assert (Hd1 : drawn W H p0 (set_pixels p1 m) ({[(ty + y)%nat]} ∪ chg)).
  { apply drawn_step; [done|rewrite L; apply Hd|done|]. intros r Hr. apply elem_of_singleton in Hr. lia. }
  apply (IH (S raw_y) W H p0 (set_pixels p1 m)) with (fx := fx) (fy := fy) (tx := tx) (ty := ty) (w := w) (h := h) in Hd1; [|done|done|lia].
  exact Hd1.
Qed.

(** *** A write *)

Section writes.
Context (FONT : list Z) {C : Type} `{HR : Ransid C} `{HL : !RansidLaws C}.

Lemma console_event_ok W H p0 m chg input e :
  drawn W H p0 m chg → ev_inside (W / 8) (H / 16) e →
  ∃ m' chg' input', console_event FONT e (m, chg, input) = Some (m', chg', input') ∧ drawn W H p0 m' chg'.
Proof.
  intros Hd He. destruct e as [x y c rgb bold|data|x y w h rgb| |fx fy tx ty w h| |]; cbn [console_event ev_inside] in *; try by (do 3 eexists).
  - destruct (char_ok FONT W H p0 m chg x y c rgb Hd He) as (m' & E & D). rewrite E. by do 3 eexists.
  - destruct (rect_ok W H p0 m chg x y w h rgb Hd He) as (m' & E & D). rewrite E. by do 3 eexists.
  - destruct He as [Hx Hy]. pose proof (move_rows_ok h 0 W H p0 m chg fx fy tx ty w h Hd Hx Hy ltac:(lia)) as D. rewrite (dn_width _ _ _ _ _ Hd).
    destruct (move_rows _ _ _ _ _ _ _ _ _ _ _) as [p chg']. by do 3 eexists.
Qed.

Lemma console_events_ok W H p0 es : ∀ m chg input,
  drawn W H p0 m chg → Forall (ev_inside (W / 8) (H / 16)) es →
  ∃ m' chg' input', console_events FONT es (m, chg, input) = Some (m', chg', input') ∧ drawn W H p0 m' chg'.
Proof.
  induction es as [|e es IH]; intros m chg input Hd He; cbn [console_events]; [by do 3 eexists|]. apply Forall_cons in He as [He Hes].
  destruct (console_event_ok W H p0 m chg input e Hd He) as (m1 & c1 & i1 & E & D). rewrite E. by apply IH.
Qed.

Lemma cursor_ok W H p0 m chg (c : C) :
  drawn W H p0 m chg → rs_h c = (H / 16)%nat → ∃ m' chg', invert_cursor c m chg = Some (m', chg') ∧ drawn W H p0 m' chg'.
Proof.
  intros Hd Hc. unfold invert_cursor. destruct (_ && _)%bool eqn:Eb; [|by do 2 eexists]. apply andb_true_iff in Eb as [_ Ey%Nat.ltb_lt]. rewrite Hc in Ey.
  destruct (invert_ok W H p0 m chg (rs_x c) (rs_y c) Hd Ey) as (m' & E & D). rewrite E. by do 2 eexists.
Qed.

Lemma clamp_size (c : C) : rs_w (clamp_cursor c) = rs_w c ∧ rs_h (clamp_cursor c) = rs_h c.
Proof.
  unfold clamp_cursor. destruct (rl_set_x (rs_w c) c) as [Hw Hh]. destruct (rs_w c <? rs_x c)%nat.
  - destruct (_ <? _)%nat; [|done]. destruct (rl_set_y (rs_h (rs_set_x (rs_w c) c)) (rs_set_x (rs_w c) c)). split; congruence.
  - destruct (_ <? _)%nat; [|done]. apply rl_set_y.
Qed.

(** Areas of whole rows. *)
Definition row_area (W H : nat) (d : Damage) : Prop :=
  dg_x d = 0 ∧ dg_width d = Z.of_nat W ∧ 0 <= dg_y d ∧ 0 <= dg_height d ∧ dg_y d + dg_height d <= Z.of_nat H.
Definition covers (ds : list Damage) (y : nat) : Prop := Exists (λ d, dg_y d <= Z.of_nat y < dg_y d + dg_height d) ds.

Lemma damage_rows_spec W H rows : ∀ ds lst,
  Z.of_nat W < 2 ^ 31 → Z.of_nat H < 2 ^ 31 → Forall (λ r, (r < H / 16)%nat) rows → Forall (row_area W H) ds →
  (match last ds with Some d => dg_y d + dg_height d = (lst + 1) * 16 | None => lst = 2 ^ 64 - 2 end) →
  ∃ ds', damage_rows (Z.of_nat W) lst rows ds = Some ds' ∧ Forall (row_area W H) ds' ∧
    ∀ y, covers ds y ∨ (y / 16)%nat ∈ rows → covers ds' y.
Proof.
  induction rows as [|r rows IH]; intros ds lst HW HH Hr Hds Hlst; cbn [damage_rows].
  { exists ds. split; [done|]. split; [done|]. intros y [?|?%elem_of_nil]; done. }
  apply Forall_cons in Hr as [Hr Hrs]. assert (Hb : (r * 16 + 16 <= H)%nat) by (pose proof (Nat.div_mod_eq H 16); lia).
  assert (Hrow : ∀ y, (y / 16)%nat = r → Z.of_nat r * 16 <= Z.of_nat y < Z.of_nat r * 16 + 16) by (intros y <-; pose proof (Nat.div_mod_eq y 16); pose proof (Nat.mod_upper_bound y 16); lia).
  destruct (Z.eqb_spec (Z.of_nat r) (lst + 1)) as [E|E].
  - destruct ds as [|d ds _] using rev_ind; [cbn in Hlst; lia|]. rewrite last_snoc in Hlst. apply Forall_app in Hds as [Hds [Hd _]%Forall_cons].
    unfold set_last_height. rewrite last_snoc. cbn [mbind option_bind]. rewrite length_app, Nat.add_sub, take_app_length.
    destruct Hd as (Hx & Hw & Hy & Hh & Hyh). rewrite (as_i_id 32 (dg_height d + 16)) by lia. set (d' := mk_damage _ _ _ _).
    destruct (IH (ds ++ [d']) (Z.of_nat r)) as (ds' & E' & F' & C'); [done|done|done| | |].
    + apply Forall_app. split; [done|]. apply Forall_singleton. unfold row_area, d'. cbn. lia.
    + rewrite last_snoc. cbn. lia.
    + exists ds'. split; [done|]. split; [done|]. intros y Hy'. apply C'.
      destruct Hy' as [[Hc|Hc]%Exists_app|[Hc|Hc]%elem_of_cons]; [left; apply Exists_app; by left| | |by right].
      * left. apply Exists_app. right. apply Exists_cons in Hc as [Hc|?%Exists_nil]; [|done]. left. cbn. lia.
      * left. apply Exists_app. right. left. specialize (Hrow y Hc). cbn. lia.
  - rewrite (proj2 (Z.ltb_lt _ _)) by lia. cbn [mbind option_bind]. rewrite as_i_id by lia.
    destruct (IH (ds ++ [mk_damage 0 (Z.of_nat r * 16) (Z.of_nat W) 16]) (Z.of_nat r)) as (ds' & E' & F' & C'); [done|done|done| | |].
    + apply Forall_app. split; [done|]. apply Forall_singleton. unfold row_area. cbn. lia.
    + rewrite last_snoc. cbn. lia.
    + exists ds'. split; [done|]. split; [done|]. intros y Hy'. apply C'.
      destruct Hy' as [Hc|[Hc|Hc]%elem_of_cons]; [left; apply Exists_app; by left| |by right].
      left. apply Exists_app. right. left. specialize (Hrow y Hc). cbn. lia.
Qed.

(** A write returns, and the areas it gives cover every pixel it has changed. *)
Lemma console_write_ok W H p buf (t : TextScreen C) input :
  Z.of_nat W < 2 ^ 31 → Z.of_nat H < 2 ^ 31 → length p = (W * H)%nat → tx_changed t = ∅ →
  ∃ t' m' input' ds, console_write FONT buf t (mk_map p W H) input = Some (t', m', input', ds) ∧ tx_changed t' = ∅ ∧
    length (mp_pixels m') = (W * H)%nat ∧ Forall (row_area W H) ds ∧
    ∀ x y, (x < W)%nat → ¬ covers ds y → mp_pixels m' !! (y * W + x)%nat = p !! (y * W + x)%nat.
Proof.
  intros HW HH Hl Hc. unfold console_write. cbn [mp_width mp_height]. rewrite Hc.
  set (c0 := clamp_cursor _). assert (Hs : rs_w c0 = (W / 8)%nat ∧ rs_h c0 = (H / 16)%nat).
  { unfold c0. destruct (clamp_size (rs_resize (W / 8) (H / 16) (tx_console t))) as [-> ->]. apply rl_resize. }
  destruct Hs as [Hw0 Hh0]. clearbody c0. destruct (cursor_ok W H p _ _ c0 (drawn_start W H p Hl) Hh0) as (m1 & g1 & E1 & D1). rewrite E1. cbn [mbind option_bind].
  pose proof (rl_inside buf c0) as Hin. pose proof (rl_write buf c0) as [Hw1 Hh1]. destruct (rs_write buf c0) as [es c1]. cbn [fst snd] in *. rewrite Hw0, Hh0 in *.
  destruct (console_events_ok W H p es m1 g1 input D1 Hin) as (m2 & g2 & i2 & E2 & D2). rewrite E2. cbn [mbind option_bind].
  destruct (cursor_ok W H p m2 g2 c1 D2 Hh1) as (m3 & g3 & E3 & D3). rewrite E3. cbn [mbind option_bind]. rewrite (dn_width _ _ _ _ _ D3), (proj2 (Z.ltb_lt _ _)) by done.
  assert (Hmem : ∀ r, r ∈ sorted_rows g3 ↔ r ∈ g3) by (intros r; unfold sorted_rows; by rewrite merge_sort_Permutation, elem_of_elements).
  destruct (damage_rows_spec W H (sorted_rows g3) [] (2 ^ 64 - 2)) as (ds & E4 & F4 & C4); [lia|done| |constructor|done|].
  { apply Forall_forall. intros r Hr. apply (dn_rows _ _ _ _ _ D3), Hmem, Hr. }
  rewrite E4. do 4 eexists. split; [reflexivity|]. split; [done|]. split; [apply D3|]. split; [done|].
  intros x y Hx Hy. apply (dn_only _ _ _ _ _ D3); [done|]. intros Hin'. apply Hy, C4. right. by apply Hmem.
Qed.

End writes.
