(* ===== verification/Fbcon.v ===== *)
(** fbcond, the daemon of the text consoles (graphics/fbcond/src/scheme.rs, main.rs), together
    with the display driver it draws on.

    The state holds the driver (the scheme of [Graphics] with vesad), one terminal per virtual
    terminal, the handles of the scheme fbcon and the calls that wait for input.  The kernel's
    queues are arguments: the requests of the socket, the reads of a consumer handle.  Handing a
    terminal over to another display driver (ESTALE) is left out: there is one driver here.

    [console_shown] is the composition: whatever programs write to the consoles and whichever
    terminal is switched to, nothing panics and every display shows the active terminal. *)

From Stdlib Require Import Ascii.
From S2P Require Import Prelude Io Inputd Ps2Controller Ps2State Graphics Console.

(** ** State *)

Record FbHandle := mk_fbhandle { fh_vt : Z; fh_flags : Z; fh_events : Z; fh_notified_read : bool }.

Inductive FbCall : Type :=
| FcOpen (path : string) (flags : Z) | FcFevent (id flags : Z) | FcFpath (id : Z) (len : nat) | FcFsync (id : Z)
| FcRead (id : Z) (len : nat) | FcWrite (id : Z) (buf : list Z) | FcClose (id : Z).

(** Requests carry the number the kernel gave them. *)
Inductive FbRequest : Type := FrCall (tag : Z) (c : FbCall) | FrSendFd (tag : Z) | FrCancellation (tag : Z) | FrMsg.

(** What the daemon sends: answers (a number and the bytes read), and events. *)
Inductive FbOutput : Type := FoReply (tag : Z) (r : errno + Z * list Z) | FoEvent (id : Z).

Record FbconScheme (C : Type) := mk_fbcon {
  fc_gfx : GraphicsScheme FbAdapter GraphicScreen;
  fc_vts : gmap Z (FbText C);
  fc_next_id : Z;
  fc_handles : gmap Z FbHandle;
  fc_blocked : list (Z * FbCall);
}.
Arguments mk_fbcon {C} fc_gfx fc_vts fc_next_id fc_handles fc_blocked.
Arguments fc_gfx {C} _.
Arguments fc_vts {C} _.
Arguments fc_next_id {C} _.
Arguments fc_handles {C} _.
Arguments fc_blocked {C} _.

Section scheme.
Context (FONT : list Z) (O_NONBLOCK EVENT_READ : Z) {C : Type} `{HR : Ransid C}.

Abbreviation FS := (FbconScheme C).
Abbreviation fp := (prog FS errno).

Definition set_gfx (g : GraphicsScheme FbAdapter GraphicScreen) (s : FS) : FS := mk_fbcon g (fc_vts s) (fc_next_id s) (fc_handles s) (fc_blocked s).
Definition set_console (vt : Z) (t : FbText C) (s : FS) : FS := mk_fbcon (fc_gfx s) (<[vt := t]> (fc_vts s)) (fc_next_id s) (fc_handles s) (fc_blocked s).
Definition set_fb_handle (id : Z) (h : FbHandle) (s : FS) : FS := mk_fbcon (fc_gfx s) (fc_vts s) (fc_next_id s) (<[id := h]> (fc_handles s)) (fc_blocked s).
Definition set_waiting (b : list (Z * FbCall)) (s : FS) : FS := mk_fbcon (fc_gfx s) (fc_vts s) (fc_next_id s) (fc_handles s) b.

Definition on_gfx {B : Type} (m : prog (GraphicsScheme FbAdapter GraphicScreen) errno B) : fp B := λ s,
  let '(r, g) := m (fc_gfx s) in (r, set_gfx g s).

(** ** The scheme *)

(** The path inputd gives for a terminal on this display is its number. *)
Fixpoint fbcon_displays (vt_ids : list Z) : fp unit :=
  match vt_ids with
  | [] => mret tt
  | vt :: vt_ids =>
      display ← on_gfx (expect_ok (open_display (pretty vt)));
      _ ← modify (set_console vt (fbtext_new display));
      fbcon_displays vt_ids
  end.

(** [FbconScheme::new] on a driver that has just started. *)
Definition fbcon_new (g : GraphicsScheme FbAdapter GraphicScreen) (vt_ids : list Z) : res errno unit * FS :=
  fbcon_displays vt_ids (mk_fbcon g ∅ 0 ∅ []).

Definition fbcon_handle (id : Z) : fp FbHandle := h ← gets (λ s, fc_handles s !! id); ok_or h EBADF.

Definition fbcon_open (path : string) (flags : Z) : fp Z :=
  vt ← ok_or (parse_uint (2 ^ 64) path) ENOENT;
  console ← gets (λ s, fc_vts s !! vt);
  match console with
  | Some _ =>
      id ← gets fc_next_id;
      _ ← modify (λ s, mk_fbcon (fc_gfx s) (fc_vts s) (as_usize (id + 1)) (<[id := mk_fbhandle vt flags 0 false]> (fc_handles s)) (fc_blocked s));
      mret id
  | None => throw ENOENT
  end.

Definition fbcon_fevent (id flags : Z) : fp Z :=
  h ← fbcon_handle id;
  _ ← modify (set_fb_handle id (mk_fbhandle (fh_vt h) (fh_flags h) flags false));
  mret 0.

Definition fbcon_fpath (id : Z) (len : nat) : fp (list Z) :=
  h ← fbcon_handle id;
  mret (take len (string_bytes ("fbcon:" +:+ pretty (fh_vt h)))).

Definition fbcon_fsync (id : Z) : fp Z := _ ← fbcon_handle id; mret 0.

(** [None]: the call waits. *)
Definition fbcon_read (id : Z) (len : nat) : fp (option (list Z)) :=
  h ← fbcon_handle id;
  console ← gets (λ s, fc_vts s !! fh_vt h);
  match console with
  | Some t =>
      if negb (text_can_read t) && negb (Z.land (fh_flags h) O_NONBLOCK =? O_NONBLOCK) then mret None
      else
        let '(bytes, t) := text_read len t in
        _ ← modify (set_console (fh_vt h) t);
        mret (Some bytes)
  | None => throw EBADF
  end.

Definition fbcon_write (id : Z) (buf : list Z) : fp Z :=
  h ← fbcon_handle id;
  console ← gets (λ s, fc_vts s !! fh_vt h);
  match console with
  | Some t =>
      t ← on_gfx (text_write FONT buf t);
      _ ← modify (set_console (fh_vt h) t);
      mret (Z.of_nat (length buf))
  | None => throw EBADF
  end.

Definition fbcon_close (id : Z) : fp Z :=
  _ ← fbcon_handle id;
  _ ← modify (λ s, mk_fbcon (fc_gfx s) (fc_vts s) (fc_next_id s) (delete id (fc_handles s)) (fc_blocked s));
  mret 0.

Definition fbcon_call (c : FbCall) : fp (option (Z * list Z)) :=
  match c with
  | FcOpen path flags => r ← fbcon_open path flags; mret (Some (r, []))
  | FcFevent id flags => r ← fbcon_fevent id flags; mret (Some (r, []))
  | FcFpath id len => r ← fbcon_fpath id len; mret (Some (Z.of_nat (length r), r))
  | FcFsync id => r ← fbcon_fsync id; mret (Some (r, []))
  | FcRead id len =>
      r ← fbcon_read id len;
      mret (match r with Some b => Some (Z.of_nat (length b), b) | None => None end)
  | FcWrite id buf => r ← fbcon_write id buf; mret (Some (r, []))
  | FcClose id => r ← fbcon_close id; mret (Some (r, []))
  end.

(** [handle_scheme_block]: an error is an answer too. *)
Definition fbcon_scheme_block (c : FbCall) : fp (option (errno + Z * list Z)) :=
  r ← attempt (fbcon_call c);
  mret (match r with inl e => Some (inl e) | inr (Some v) => Some (inr v) | inr None => None end).

(** ** Events *)

Definition fbcon_request (r : FbRequest) : fp (list FbOutput) :=
  match r with
  | FrCall tag c =>
      resp ← fbcon_scheme_block c;
      match resp with
      | Some resp => mret [FoReply tag resp]
      | None => _ ← modify (λ s, set_waiting (fc_blocked s ++ [(tag, c)]) s); mret []
      end
  | FrSendFd tag => mret [FoReply tag (inl EOPNOTSUPP)]
  | FrCancellation tag =>
      blocked ← gets fc_blocked;
      match list_find (λ b, b.1 = tag) blocked with
      | Some (i, b) => _ ← modify (set_waiting (delete i blocked)); mret [FoReply b.1 (inl EINTR)]
      | None => mret []
      end
  | FrMsg => panic
  end.

Fixpoint fbcon_requests (rs : list FbRequest) : fp (list FbOutput) :=
  match rs with [] => mret [] | r :: rs => o ← fbcon_request r; os ← fbcon_requests rs; mret (o ++ os) end.

(** The reads of a consumer handle until one returns nothing; an error other than a handoff is
    a panic. *)
Inductive InputRead : Type := IrEvents (es : list OrbEvent) | IrError.

Fixpoint fbcon_input (vt : Z) (rs : list InputRead) : fp unit :=
  match rs with
  | [] => mret tt
  | IrEvents es :: rs =>
      t ← gets (λ s, fc_vts s !! vt);
      t ← unwrap t;
      _ ← modify (set_console vt (foldl (λ t e, text_input e t) t es));
      fbcon_input vt rs
  | IrError :: rs => panic
  end.

(** The blocked calls are tried again, in order; those that still wait are kept. *)
Fixpoint retry_blocked (todo kept : list (Z * FbCall)) : fp (list FbOutput) :=
  match todo with
  | [] => _ ← modify (set_waiting kept); mret []
  | (tag, c) :: todo =>
      resp ← fbcon_scheme_block c;
      match resp with
      | Some resp => os ← retry_blocked todo kept; mret (FoReply tag resp :: os)
      | None => retry_blocked todo (kept ++ [(tag, c)])
      end
  end.

(** A handle that has asked for it is told once that there is something to read.  The flag set
    is tested with [contains]. *)
Definition fbcon_notify (id : Z) : fp (list FbOutput) :=
  h ← gets (λ s, fc_handles s !! id);
  match h with
  | None => mret []
  | Some h =>
      if negb (Z.land (fh_events h) EVENT_READ =? EVENT_READ) then mret []
      else
        console ← gets (λ s, fc_vts s !! fh_vt h);
        if match console with Some t => text_can_read t | None => false end then
          if fh_notified_read h then mret []
          else _ ← modify (set_fb_handle id (mk_fbhandle (fh_vt h) (fh_flags h) (fh_events h) true)); mret [FoEvent id]
        else _ ← modify (set_fb_handle id (mk_fbhandle (fh_vt h) (fh_flags h) (fh_events h) false)); mret []
  end.

Fixpoint notify_handles (ids : list Z) : fp (list FbOutput) :=
  match ids with [] => mret [] | id :: ids => o ← fbcon_notify id; os ← notify_handles ids; mret (o ++ os) end.

Inductive FbEvent : Type := FeRequests (rs : list FbRequest) | FeInput (vt : Z) (rs : list InputRead).

(** [scheme.vts.get_mut(&vt_i).unwrap()] comes before the first read. *)
Definition fbcon_source (e : FbEvent) : fp (list FbOutput) :=
  match e with
  | FeRequests rs => fbcon_requests rs
  | FeInput vt rs => t ← gets (λ s : FS, fc_vts s !! vt); _ ← unwrap t; _ ← fbcon_input vt rs; mret []
  end.

Definition fbcon_handle_event (e : FbEvent) : fp (list FbOutput) :=
  os ← fbcon_source e;
  blocked ← gets fc_blocked;
  os' ← retry_blocked blocked [];
  ids ← gets (λ s, merge_sort Z.le (elements (dom (fc_handles s))));
  os'' ← notify_handles ids;
  mret (os ++ os' ++ os'').

(** ** The system *)

(** What happens: an event of fbcond, or a switch of terminals in the driver. *)
Inductive ConOp : Type := CoEvent (e : FbEvent) | CoVt (e : VtEvent).

Definition con_step (o : ConOp) : fp (list FbOutput) :=
  match o with
  | CoEvent e => fbcon_handle_event e
  | CoVt e => _ ← on_gfx (handle_vt_event e); mret []
  end.

Fixpoint con_run (os : list ConOp) : fp (list FbOutput) :=
  match os with [] => mret [] | o :: os => r ← con_step o; rs ← con_run os; mret (r ++ rs) end.

End scheme.

(** ** What the displays show *)

Abbreviation GfxS := (GraphicsScheme FbAdapter GraphicScreen).

Definition fbs (g : GfxS) : list FrameBuffer := fba_framebuffers (gs_adapter g).
Definition mem (g : GfxS) : gmap Z (list Z) := fba_heap (gs_adapter g).
Definition screen_of (g : GfxS) (vt d : Z) : option GraphicScreen := gs_vts_res g !! vt ≫= (.!! d).

(** A frame buffer as the boot loader describes it. *)
Record fb_ok (fb : FrameBuffer) : Prop := {
  fo_width : 0 <= fb_width fb < 2 ^ 31;
  fo_height : 0 <= fb_height fb < 2 ^ 31;
  fo_stride : fb_width fb <= fb_stride fb;
  fo_length : length (fb_onscreen fb) = Z.to_nat (fb_stride fb * fb_height fb);
}.

(** A screen of a display: its size is that of the frame buffer, its memory is there. *)
Record screen_ok (g : GfxS) (d : Z) (r : GraphicScreen) : Prop := {
  so_display : 0 <= d;
  so_fb : ∃ fb, fbs g !! Z.to_nat d = Some fb ∧ sc_width r = fb_width fb ∧ sc_height r = fb_height fb;
  so_mem : ∃ off, mem g !! sc_ptr r = Some off ∧ length off = Z.to_nat (sc_width r * sc_height r);
}.

Record gfx_ok (g : GfxS) : Prop := {
  go_fbs : Forall fb_ok (fbs g);
  go_screens : ∀ vt d r, screen_of g vt d = Some r → screen_ok g d r;
  go_apart : ∀ vt d r vt' d' r', screen_of g vt d = Some r → screen_of g vt' d' = Some r' → sc_ptr r = sc_ptr r' → vt = vt' ∧ d = d';
  go_alloc : ∀ ptr off, mem g !! ptr = Some off → ptr < fba_alloc (gs_adapter g);
}.

(** A display shows a terminal: pixel for pixel its memory. *)
Definition shows (fb : FrameBuffer) (r : GraphicScreen) (off : list Z) : Prop :=
  ∀ x y, (x < Z.to_nat (sc_width r))%nat → (y < Z.to_nat (sc_height r))%nat → fb_pixel fb x y = screen_pixel r off x y.
Definition displayed (g : GfxS) (vt d : Z) : Prop :=
  ∃ fb r off, fbs g !! Z.to_nat d = Some fb ∧ screen_of g vt d = Some r ∧ mem g !! sc_ptr r = Some off ∧ shows fb r off.
Definition all_shown (g : GfxS) : Prop := ∀ d, 0 <= d < Z.of_nat (length (fbs g)) → displayed g (gs_active_vt g) d.

(** What other parts of the system see of a step of the driver. *)
Record evolves (g g' : GfxS) : Prop := {
  ev_name : gs_name g' = gs_name g;
  ev_handles : gs_handles g' = gs_handles g;
  ev_next : gs_next_id g' = gs_next_id g;
  ev_screens : ∀ vt d r, screen_of g vt d = Some r → screen_of g' vt d = Some r;
  ev_mem : mem g ⊆ mem g';
  ev_fbs : Forall2 same_fb (fbs g) (fbs g');
}.

Lemma same_fb_refl fb : same_fb fb fb.
Proof. by repeat split. Qed.

#[export] Instance same_fb_reflexive : Reflexive same_fb := same_fb_refl.

Lemma evolves_refl g : evolves g g.
Proof. split; try done. Qed.

Lemma evolves_trans g1 g2 g3 : evolves g1 g2 → evolves g2 g3 → evolves g1 g3.
Proof.
  intros [] []. split; try congruence; eauto; [by etrans|]. eapply Forall2_trans; [|done..]. intros ???; apply same_fb_trans.
Qed.

Lemma fb_same_ok fb fb' : same_fb fb fb' → fb_ok fb → fb_ok fb'.
Proof. intros (_ & Ew & Eh & Es & El) []. split; congruence. Qed.

Lemma screen_ok_evolves g g' d r : evolves g g' → screen_ok g d r → screen_ok g' d r.
Proof.
  intros [] [Hd (fb & Hfb & Hw & Hh) (off & Ho & Hl)]. split; [done| |].
  - destruct (Forall2_lookup_l _ _ _ _ _ ev_fbs0 Hfb) as (fb' & Hfb' & (_ & Ew & Eh & _)). exists fb'. split; [done|]. split; congruence.
  - exists off. split; [|done]. by eapply lookup_weaken.
Qed.

Lemma screen_fits g vt d r fb off :
  gfx_ok g → screen_of g vt d = Some r → fbs g !! Z.to_nat d = Some fb → length off = Z.to_nat (sc_width r * sc_height r) → fits r off fb.
Proof.
  intros Hg Hr Hfb Hl. destruct (go_screens g Hg vt d r Hr) as [_ (fb0 & Hfb0 & Hw & Hh) _]. rewrite Hfb in Hfb0. simplify_eq.
  destruct (proj1 (Forall_lookup _ _) (go_fbs g Hg) _ _ Hfb) as [A B Hs Hn]. split; [by rewrite Hw|by rewrite Hh|by rewrite Hw|done|by rewrite Hh].
Qed.

(** The first use of a screen makes it. *)
Lemma resource_ok g vt d :
  gfx_ok g → 0 <= d < Z.of_nat (length (fbs g)) →
  ∃ r g', resource_or_insert vt d g = (Ok r, g') ∧ gfx_ok g' ∧ evolves g g' ∧ screen_of g' vt d = Some r ∧ fbs g' = fbs g ∧ gs_active_vt g' = gs_active_vt g.
Proof.
  intros Hg Hd. unfold resource_or_insert. unfold mbind, prog_bind. erewrite bind_Ok by reflexivity.
  change (option_bind _ _ (lookup d) (gs_vts_res g !! vt)) with (screen_of g vt d). destruct (screen_of g vt d) as [r|] eqn:Er.
  { exists r, g. split; [reflexivity|]. split; [done|]. split; [apply evolves_refl|]. done. }
  destruct (lookup_lt_is_Some_2 (fbs g) (Z.to_nat d) ltac:(lia)) as [fb Hfb]. pose proof (proj1 (Forall_lookup _ _) (go_fbs g Hg) _ _ Hfb) as Hok.
  rewrite (bind_Ok _ _ g (as_u32 (fb_width fb), as_u32 (fb_height fb)) g).
  2:{ unfold on_adapter. cbn. unfold fbs in Hfb. rewrite Hfb. by destruct g. }
  unfold as_u32; rewrite !as_u_id by (destruct Hok; unfold u_range; lia). set (ptr := fba_alloc (gs_adapter g)).
  eexists. eexists. split; [reflexivity|]. set (r := mk_screen (fb_width fb) (fb_height fb) ptr). match goal with |- gfx_ok ?x ∧ _ => set (g' := x) end.
  assert (Hnew : mem g !! ptr = None). { destruct (mem g !! ptr) as [off|] eqn:E; [|done]. apply (go_alloc g Hg) in E. unfold ptr in E. lia. }
  assert (Hmem : mem g' = <[ptr := replicate (Z.to_nat (fb_width fb * fb_height fb)) 0]> (mem g)) by reflexivity.
  assert (Hsc : ∀ v e, screen_of g' v e = if decide (v = vt ∧ e = d) then Some r else screen_of g v e).
  { intros v e. unfold screen_of, g'. cbn [gs_vts_res set_vts_res]. destruct (decide (v = vt)) as [->|Hne].
    - rewrite lookup_insert, decide_True by done. cbn. destruct (decide (e = d)) as [->|He]; [by rewrite lookup_insert, !decide_True by done|].
      rewrite lookup_insert_ne by done. rewrite decide_False by naive_solver. unfold on_adapter. cbn. by destruct (gs_vts_res g !! vt).
    - rewrite lookup_insert_ne by done. rewrite decide_False by naive_solver. done. }
  assert (Hsub : evolves g g').
  { split; try done; [|rewrite Hmem; by apply insert_subseteq]. intros v e r' Hr'. rewrite Hsc. destruct (decide _) as [[-> ->]|]; [|done]. congruence. }
  split; [|split; [done|split; [by rewrite Hsc, decide_True|done]]]. split.
  - apply Hg.
  - intros v e r' Hr'. rewrite Hsc in Hr'. destruct (decide _) as [[-> ->]|]; [|apply (screen_ok_evolves g g' e r' Hsub), (go_screens g Hg v e r' Hr')].
    simplify_eq. split; [lia|by exists fb|]. exists (replicate (Z.to_nat (fb_width fb * fb_height fb)) 0). rewrite Hmem, lookup_insert, decide_True, length_replicate by done. done.
  - assert (Hold : ∀ v e r', screen_of g v e = Some r' → sc_ptr r' ≠ ptr).
    { intros v e r' Hr' E. destruct (so_mem _ _ _ (go_screens g Hg v e r' Hr')) as (off & Ho & _). rewrite E in Ho. congruence. }
    intros v e r1 v' e' r2 H1 H2 E. rewrite Hsc in H1, H2. destruct (decide (v = vt ∧ e = d)) as [[-> ->]|]; destruct (decide (v' = vt ∧ e' = d)) as [[-> ->]|]; simplify_eq; try done.
    + by apply Hold in H2.
    + by apply Hold in H1.
    + by apply (go_apart g Hg v e r1 v' e' r2).
  - intros p off Hp. rewrite Hmem in Hp. cbn. apply lookup_insert_Some in Hp as [[<- _]|[_ Hp]]; [unfold ptr; lia|]. apply (go_alloc g Hg) in Hp. lia.
Qed.

(** A redraw through [with_fb]: the frame buffer of one display changes, nothing else. *)
Lemma with_fb_ok g vt d r off fb fb' f :
  gfx_ok g → screen_of g vt d = Some r → fbs g !! Z.to_nat d = Some fb → mem g !! sc_ptr r = Some off → f off fb = Some fb' → same_fb fb fb' →
  ∃ g', on_adapter (with_fb d r f) g = (Ok tt, g') ∧ gfx_ok g' ∧ evolves g g' ∧ fbs g' = <[Z.to_nat d := fb']> (fbs g) ∧
    mem g' = mem g ∧ gs_vts_res g' = gs_vts_res g ∧ gs_active_vt g' = gs_active_vt g.
Proof.
  intros Hg Hr Hfb Ho Hf Hs. unfold on_adapter, with_fb. unfold fbs in Hfb. unfold mem in Ho. rewrite Hfb, Ho, Hf. eexists. split; [reflexivity|].
  match goal with |- gfx_ok ?x ∧ _ => set (g' := x) end.
  assert (He : evolves g g').
  { split; try done. apply Forall2_same_length_lookup. split; [unfold fbs, g'; cbn; by rewrite length_insert|].
    intros i x y Hx Hy. unfold fbs, g' in Hy. cbn in Hy. apply list_lookup_insert_Some in Hy as [(<- & <- & _)|[_ Hy]]; [unfold fbs in Hx; congruence|].
    unfold fbs in Hx. replace y with x by congruence. done. }
  split; [|done]. split.
  - unfold fbs, g'. cbn. apply Forall_insert; [apply Hg|]. apply (fb_same_ok fb); [done|]. by apply (proj1 (Forall_lookup _ _) (go_fbs g Hg) (Z.to_nat d)).
  - intros v e r' Hr'. apply (screen_ok_evolves g g' e r' He). apply (go_screens g Hg v e r' Hr').
  - apply (go_apart g Hg).
  - apply (go_alloc g Hg).
Qed.

(** A whole redraw. *)
Lemma redraw_ok r off fb : fits r off fb → ∃ fb', redraw r off fb = Some fb' ∧ same_fb fb fb' ∧ shows fb' r off.
Proof.
  intros Hf. pose proof Hf as [Hw Hh Hst _ _]. unfold redraw. rewrite !(proj2 (Z.leb_gt _ _)) by lia. cbn [orb].
  destruct (sync_rects_spec r off [mk_damage 0 0 (sc_width r) (sc_height r)] fb Hf) as (fb' & E & S & P).
  { apply Forall_singleton. unfold area_ok. cbn. lia. }
  exists fb'. split; [done|]. split; [done|]. intros x y Hx Hy. rewrite P by lia. apply decide_True. left. unfold in_area. cbn. lia.
Qed.

(** Displays whose frame buffer is untouched keep showing what they show. *)
Lemma displayed_evolves g g' vt d : evolves g g' → fbs g' !! Z.to_nat d = fbs g !! Z.to_nat d → displayed g vt d → displayed g' vt d.
Proof.
  intros [] Hf (fb & r & off & Hfb & Hr & Ho & Hs). exists fb, r, off. split; [congruence|]. split; [by apply ev_screens0|]. split; [by eapply lookup_weaken|done].
Qed.

Lemma scanout_ok g vt d r :
  gfx_ok g → screen_of g vt d = Some r →
  ∃ g', on_adapter (ga_set_scanout d r) g = (Ok tt, g') ∧ gfx_ok g' ∧ evolves g g' ∧ displayed g' vt d ∧
    (∀ e, 0 <= e → e ≠ d → fbs g' !! Z.to_nat e = fbs g !! Z.to_nat e) ∧ gs_active_vt g' = gs_active_vt g.
Proof.
  intros Hg Hr. destruct (go_screens g Hg vt d r Hr) as [Hd (fb & Hfb & _) (off & Ho & Hl)].
  destruct (redraw_ok r off fb) as (fb' & E & S & P); [by eapply screen_fits|].
  destruct (with_fb_ok g vt d r off fb fb' (redraw r) Hg Hr Hfb Ho E S) as (g' & E' & Hg' & He & Hfbs & Hm & Hv & Ha).
  exists g'. split; [done|]. split; [done|]. split; [done|]. split; [|split; [|done]].
  - exists fb', r, off. split; [rewrite Hfbs; apply list_lookup_insert_eq; by eapply lookup_lt_Some|]. split; [by apply (ev_screens g g' He)|]. by rewrite Hm.
  - intros e H0 Hne. rewrite Hfbs. apply list_lookup_insert_ne. lia.
Qed.

Lemma set_vt_ok g vt : gfx_ok g → gfx_ok (set_gfx_vt vt g).
Proof. intros [H1 H2 H3 H4]. split; try done. intros v d r Hr. destruct (H2 v d r Hr). by split. Qed.

(** The displays switch to the terminal one after the other. *)
Lemma activate_ok vt ds : ∀ g,
  gfx_ok g → Forall (λ d, 0 <= d < Z.of_nat (length (fbs g))) ds →
  ∃ g', activate_displays vt ds g = (Ok tt, g') ∧ gfx_ok g' ∧ evolves g g' ∧
    (∀ d, 0 <= d → d ∈ ds ∨ displayed g vt d → displayed g' vt d) ∧ (ds ≠ [] → gs_active_vt g' = vt).
Proof.
  induction ds as [|d ds IH]; intros g Hg Hds; cbn [activate_displays].
  { exists g. split; [reflexivity|]. split; [done|]. split; [apply evolves_refl|]. split; [|done]. intros d _ [?%elem_of_nil|?]; done. }
  apply Forall_cons in Hds as [Hd Hds]. destruct (resource_ok g vt d Hg Hd) as (r & g1 & E1 & Hg1 & He1 & Hr1 & Hf1 & _).
  destruct (scanout_ok g1 vt d r Hg1 Hr1) as (g2 & E2 & Hg2 & He2 & Hd2 & Hk2 & _). unfold mbind, prog_bind.
  rewrite (bind_Ok _ _ _ _ _ E1), (bind_Ok _ _ _ _ _ E2). erewrite bind_Ok by reflexivity.
  assert (He3 : evolves g2 (set_gfx_vt vt g2)) by (split; done).
  assert (Hlen : length (fbs (set_gfx_vt vt g2)) = length (fbs g)).
  { change (fbs (set_gfx_vt vt g2)) with (fbs g2). rewrite <- (Forall2_length _ _ _ (ev_fbs _ _ He2)). by rewrite Hf1. }
  destruct (IH (set_gfx_vt vt g2) (set_vt_ok g2 vt Hg2)) as (g' & E & Hg' & He & Hs & Ha); [by rewrite Hlen|].
  exists g'. split; [exact E|]. split; [done|]. split; [apply (evolves_trans g g1 g' He1), (evolves_trans g1 g2 g' He2), (evolves_trans g2 _ g' He3 He)|]. split.
  - intros e H0 He'. apply Hs; [done|]. destruct (decide (e = d)) as [->|Hne]; [right; exact Hd2|]. destruct He' as [He'|He']; [left; set_solver|].
    right. apply (displayed_evolves g2); [done|done|]. apply (displayed_evolves g1 g2); [done|by apply Hk2|]. apply (displayed_evolves g g1); [done|by rewrite Hf1|done].
  - intros _. destruct ds as [|d' ds]; [|by apply Ha]. change ((Ok tt : res errno unit, set_gfx_vt vt g2) = (Ok tt, g')) in E. by injection E as <-.
Qed.

(** After an activation every display shows the terminal; other events do nothing. *)
Lemma vt_event_ok g e :
  gfx_ok g → fbs g ≠ [] →
  ∃ g', handle_vt_event e g = (Ok tt, g') ∧ gfx_ok g' ∧ evolves g g' ∧
    match ve_kind e with Activate => gs_active_vt g' = ve_vt e ∧ all_shown g' | _ => g' = g end.
Proof.
  intros Hg Hne. unfold handle_vt_event. destruct (ve_kind e) eqn:Ek.
  2,3: exists g; split; [reflexivity|]; split; [done|]; split; [apply evolves_refl|done].
  unfold mbind, prog_bind. erewrite bind_Ok by reflexivity. destruct (activate_ok (ve_vt e) (seqZ 0 (Z.of_nat (length (fbs g)))) g Hg) as (g' & E & Hg' & He & Hs & Ha).
  { apply Forall_forall. intros d Hd. apply elem_of_seqZ in Hd. lia. }
  exists g'. split; [exact E|]. split; [done|]. split; [done|]. assert (Ha' : gs_active_vt g' = ve_vt e).
  { apply Ha. destruct (fbs g); [done|]. cbn [length]. by rewrite seqZ_cons by lia. }
  split; [done|]. intros d Hd. rewrite Ha'. apply Hs; [lia|]. left. apply elem_of_seqZ. rewrite (Forall2_length _ _ _ (ev_fbs _ _ He)). lia.
Qed.

(** ** Writes to a console *)

(** What a client of the driver relies on. *)
Record client_view (g g' : GfxS) : Prop := {
  cv_handles : gs_handles g' = gs_handles g;
  cv_screens : ∀ vt d r, screen_of g vt d = Some r → screen_of g' vt d = Some r;
  cv_fbs : length (fbs g') = length (fbs g);
}.

Lemma evolves_view g g' : evolves g g' → client_view g g'.
Proof. intros []. split; try done. symmetry. by eapply Forall2_length. Qed.

(** Drawing into the memory of a screen. *)
Lemma poke_ok g vt d r p :
  gfx_ok g → screen_of g vt d = Some r → length p = Z.to_nat (sc_width r * sc_height r) → gfx_ok (poke (sc_ptr r) p g).
Proof.
  intros Hg Hr Hl. destruct (go_screens g Hg vt d r Hr) as [_ _ (off & Ho & _)]. split.
  - apply (go_fbs g Hg).
  - intros v e r' Hr'. destruct (go_screens g Hg v e r' Hr') as [He Hf (off' & Ho' & Hl')]. split; [done|done|]. unfold mem. cbn.
    destruct (decide (sc_ptr r' = sc_ptr r)) as [E|Hne]; [|exists off'; by rewrite lookup_insert_ne]. rewrite E.
    destruct (go_apart g Hg v e r' vt d r Hr' Hr E) as [-> ->]. change (screen_of g vt d = Some r') in Hr'. rewrite Hr in Hr'. simplify_eq.
    exists p. by rewrite lookup_insert, decide_True.
  - apply (go_apart g Hg).
  - intros ptr q. unfold mem. cbn. intros [[<- _]|[_ Hq]]%lookup_insert_Some; [by apply (go_alloc g Hg _ off)|by apply (go_alloc g Hg _ q)].
Qed.

Lemma displayed_apart g vt d r p v e :
  gfx_ok g → screen_of g vt d = Some r → (v, e) ≠ (vt, d) → displayed g v e → displayed (poke (sc_ptr r) p g) v e.
Proof.
  intros Hg Hr Hne (fb & r' & off & Hfb & Hr' & Ho & Hs). exists fb, r', off. split; [done|]. split; [done|]. split; [|done]. unfold mem. cbn.
  rewrite lookup_insert_ne; [done|]. intros E. destruct (go_apart g Hg vt d r v e r' Hr Hr' E) as [-> ->]. done.
Qed.

Lemma row_area_ok W H d : Z.of_nat H < 2 ^ 31 → Z.of_nat W < 2 ^ 31 → row_area W H d → damage_i32 d.
Proof. unfold row_area, damage_i32, i32. lia. Qed.

Section consoles.
Context (FONT : list Z) {C : Type} `{HR : Ransid C} `{HL : !RansidLaws C}.

(** The display a terminal holds is that of its screen. *)
Record console_ok (g : GfxS) (vt : Z) (t : FbText C) : Prop := {
  co_changed : tx_changed (ft_inner t) = ∅;
  co_handle : gs_handles g !! dp_handle (ft_display t) = Some (vt, 0);
  co_screen : ∃ r, screen_of g vt 0 = Some r ∧ dp_ptr (ft_display t) = sc_ptr r ∧ dp_width (ft_display t) = sc_width r ∧ dp_height (ft_display t) = sc_height r;
}.

Lemma console_ok_view g g' vt t : client_view g g' → console_ok g vt t → console_ok g' vt t.
Proof. intros [] [Hc Hh (r & Hr & Hd)]. split; [done|congruence|]. exists r. split; [by apply cv_screens0|done]. Qed.

(** The areas of a write are redrawn, and that is all the display needs. *)
Lemma flush_ok g vt r off p ds fb :
  gfx_ok g → screen_of g vt 0 = Some r → fbs g !! 0%nat = Some fb → mem g !! sc_ptr r = Some off →
  length p = Z.to_nat (sc_width r * sc_height r) →
  Forall (row_area (Z.to_nat (sc_width r)) (Z.to_nat (sc_height r))) ds →
  (∀ x y, (x < Z.to_nat (sc_width r))%nat → ¬ covers ds y → p !! (y * Z.to_nat (sc_width r) + x)%nat = off !! (y * Z.to_nat (sc_width r) + x)%nat) →
  ∃ g', on_adapter (ga_flush_resource 0 r (Some ds)) (poke (sc_ptr r) p g) = (Ok tt, g') ∧ gfx_ok g' ∧ client_view g g' ∧
    gs_active_vt g' = gs_active_vt g ∧ (displayed g vt 0 → displayed g' vt 0) ∧
    (∀ e, 0 <= e → e ≠ 0 → displayed g vt e → displayed g' vt e).
Proof.
  intros Hg Hr Hfb Ho Hl Hds Hp. set (g1 := poke _ _ _). assert (Hg1 : gfx_ok g1) by (by eapply poke_ok).
  assert (Hr1 : screen_of g1 vt 0 = Some r) by done. assert (Ho1 : mem g1 !! sc_ptr r = Some p) by (unfold mem; cbn; by rewrite lookup_insert, decide_True).
  assert (Hf : fits r p fb) by (by eapply (screen_fits g)). pose proof Hf as [HW HH Hst _ _].
  destruct (sync_rects_spec r p ds fb Hf) as (fb' & E & S & P).
  { eapply Forall_impl; [exact Hds|]. intros d (Hx & Hw & Hy & Hh & Hyh). unfold area_ok. lia. }
  destruct (with_fb_ok g1 vt 0 r p fb fb' (λ off, sync_rects r off ds) Hg1 Hr1 Hfb Ho1 E S) as (g' & E' & Hg' & He & Hfbs & Hm & Hv & Ha).
  exists g'. split; [exact E'|]. split; [done|]. split; [|split; [done|split]].
  - split; [apply (ev_handles _ _ He)|apply (ev_screens _ _ He)|]. rewrite Hfbs, length_insert. done.
  - intros (fb0 & r0 & off0 & Hfb0 & Hr0 & Ho0 & Hs0). change (Z.to_nat 0) with 0%nat in *. assert (r0 = r) as -> by congruence. assert (fb0 = fb) as -> by congruence. assert (off0 = off) as -> by congruence.
    exists fb', r, p. split; [rewrite Hfbs; apply list_lookup_insert_eq; by eapply lookup_lt_Some|]. split; [by apply (ev_screens _ _ He)|]. split; [by rewrite Hm|].
    intros x y Hx Hy. rewrite P by lia. destruct (decide _) as [|Hn]; [done|]. rewrite Hs0 by done. unfold screen_pixel. symmetry. apply Hp; [done|].
    intros Hc. apply Hn. apply Exists_exists in Hc as (d & Hd & Hc). apply Exists_exists. exists d. split; [done|].
    destruct (proj1 (Forall_forall _ _) Hds d Hd) as (Hx0 & Hw0 & _). unfold in_area. lia.
  - intros e H0 Hne Hd. apply (displayed_evolves g1 g'); [done| |].
    + rewrite Hfbs. change (Z.to_nat 0) with 0%nat. apply list_lookup_insert_ne. lia.
    + apply (displayed_apart g vt 0 r p vt e); [done..| |done]. naive_solver.
Qed.

(** The driver's side of [sync_rects]: nothing for a terminal in the background. *)
Lemma gfx_write_background g id vt d buf :
  gs_handles g !! id = Some (vt, d) → vt ≠ gs_active_vt g → gfx_write id buf g = (Ok (Z.of_nat (length buf)), g).
Proof.
  intros Hh Hv. unfold gfx_write, gfx_handle, mbind, prog_bind, p_bind, gets. rewrite Hh. cbn [ok_or p_ret]. by rewrite (proj2 (Z.eqb_neq _ _)).
Qed.

Lemma gfx_write_active g id d r buf ds g' :
  gs_handles g !! id = Some (gs_active_vt g, d) → screen_of g (gs_active_vt g) d = Some r → damages_of (length buf / DAMAGE_SIZE) buf = ds →
  on_adapter (ga_flush_resource d r (Some ds)) g = (Ok tt, g') → gfx_write id buf g = (Ok (Z.of_nat (length buf)), g').
Proof.
  intros Hh Hr <- E. unfold gfx_write, gfx_handle, mbind, prog_bind, p_bind, gets. rewrite Hh. cbn [ok_or p_ret]. rewrite Z.eqb_refl. cbn [negb].
  unfold gfx_resource, mbind, prog_bind, p_bind, gets. change (option_bind _ _ (lookup d) (gs_vts_res g !! gs_active_vt g)) with (screen_of g (gs_active_vt g) d).
  rewrite Hr. cbn [unwrap p_ret]. by rewrite E.
Qed.

Lemma text_write_ok g vt t buf :
  gfx_ok g → console_ok g vt t →
  ∃ t' g', text_write FONT buf t g = (Ok t', g') ∧ gfx_ok g' ∧ client_view g g' ∧ console_ok g' vt t' ∧
    gs_active_vt g' = gs_active_vt g ∧ (all_shown g → all_shown g').
Proof.
  intros Hg [Hc Hh (r & Hr & Ep & Ew & Eh)]. destruct (go_screens g Hg vt 0 r Hr) as [_ (fb & Hfb & Hw & Hhh) (off & Ho & Hl)].
  destruct (proj1 (Forall_lookup _ _) (go_fbs g Hg) _ _ Hfb) as [HW HH _ _]. unfold text_write, mbind, prog_bind. erewrite bind_Ok by reflexivity.
  change (fba_heap (gs_adapter g)) with (mem g). rewrite Ep, Ho. erewrite bind_Ok by reflexivity. rewrite Ew, Eh.
  set (W := Z.to_nat (sc_width r)). set (H := Z.to_nat (sc_height r)).
  destruct (console_write_ok FONT W H off buf (ft_inner t) (ft_input t)) as (t' & m' & i' & ds & E & Hc' & Hl' & Hds & Hk); [lia|lia|lia|done|].
  rewrite E. erewrite bind_Ok by reflexivity. cbv beta iota. erewrite bind_Ok by reflexivity.
  assert (Hp : length (mp_pixels m') = Z.to_nat (sc_width r * sc_height r)) by lia. set (p := mp_pixels m') in *.
  assert (Hrt : damages_of (length (sync_rects_bytes ds) / DAMAGE_SIZE) (sync_rects_bytes ds) = ds).
  { apply damages_roundtrip. eapply Forall_impl; [exact Hds|]. intros d. apply row_area_ok; lia. }
  set (g1 := poke (sc_ptr r) p g). assert (Hv1 : client_view g g1) by (split; done).
  assert (Hok : ∀ g', client_view g g' → console_ok g' vt (mk_fbtext (ft_display t) t' (ft_ctrl t) i')).
  { intros g' Hv. apply (console_ok_view g g' _ _ Hv). split; [done|done|]. by exists r. }
  destruct (decide (vt = gs_active_vt g)) as [->|Hne].
  - destruct (flush_ok g (gs_active_vt g) r off p ds fb Hg Hr Hfb Ho Hp Hds Hk) as (g' & E' & Hg' & Hv & Ha & Hs0 & Hs).
    pose proof (gfx_write_active g1 (dp_handle (ft_display t)) 0 r _ ds g' Hh Hr Hrt E') as Ew'. unfold expect_ok. erewrite bind_Ok by (by rewrite Ew').
    do 2 eexists. split; [reflexivity|]. split; [done|]. split; [done|]. split; [by apply Hok|]. split; [done|]. intros Hall d Hd. rewrite Ha. rewrite (cv_fbs _ _ Hv) in Hd.
    destruct (decide (d = 0)) as [->|Hn0]; [by apply Hs0, Hall|]. apply Hs; [lia|done|by apply Hall].
  - pose proof (gfx_write_background g1 (dp_handle (ft_display t)) vt 0 (sync_rects_bytes ds) Hh Hne) as Ew'. unfold expect_ok. erewrite bind_Ok by (by rewrite Ew').
    do 2 eexists. split; [reflexivity|]. split; [by eapply poke_ok|]. split; [done|]. split; [by apply Hok|]. split; [done|]. intros Hall d Hd.
    apply (displayed_apart g vt 0 r p); [done|done|naive_solver|by apply Hall].
Qed.

End consoles.

(** ** Opening a console *)

Lemma string_bytes_back s : String.string_of_list_ascii ((λ b, Ascii.ascii_of_nat (Z.to_nat b)) <$> string_bytes s) = s.
Proof.
  induction s as [|a s IH]; [done|]. cbn [string_bytes]. cbn. f_equal; [|exact IH]. rewrite Nat2Z.id. apply Ascii.ascii_nat_embedding.
Qed.

(** Handles are numbered upwards. *)
Definition handles_below (g : GfxS) : Prop := ∀ id h, gs_handles g !! id = Some h → id <= gs_next_id g.

Lemma gfx_open_ok g vt :
  gfx_ok g → fbs g ≠ [] → handles_below g → 0 <= vt < 2 ^ 64 → 0 <= gs_next_id g < 2 ^ 64 - 1 →
  ∃ r g', gfx_open (pretty vt) g = (Ok (gs_next_id g + 1), g') ∧ gfx_ok g' ∧ handles_below g' ∧ gs_next_id g' = gs_next_id g + 1 ∧ gs_name g' = gs_name g ∧ fbs g' = fbs g ∧
    (∀ v d r, screen_of g v d = Some r → screen_of g' v d = Some r) ∧ gs_handles g' = <[gs_next_id g + 1 := (vt, 0)]> (gs_handles g) ∧ screen_of g' vt 0 = Some r.
Proof.
  intros Hg Hne Hb Hvt Hn. assert (Hp : ∀ c, digit c = None → gfx_split c "" (pretty vt) = [pretty vt]).
  { intros c Hc. rewrite gfx_split_last by (apply no_char_pretty; [lia|done]). done. }
  unfold gfx_open. rewrite bool_decide_eq_false_2 by (intros E; pose proof (parse_uint_pretty (2 ^ 64) vt Hvt) as P; rewrite E in P; done).
  rewrite (Hp "/"%char) by done. cbn [head default]. change (id (pretty vt)) with (pretty vt). rewrite (Hp "."%char) by done. cbn [lookup list_lookup default].
  change (id (pretty vt)) with (pretty vt). rewrite parse_uint_pretty by done. change (parse_uint (2 ^ 64) "") with (@None Z). cbn [default].
  destruct (resource_ok g vt 0 Hg) as (r & g1 & E1 & Hg1 & He1 & Hr1 & Hf1 & _); [destruct (fbs g); [done|cbn; lia]|].
  unfold mbind, prog_bind. do 2 (erewrite bind_Ok by reflexivity). cbn [ga_displays vesad_adapter]. rewrite length_seqZ.
  change (length (fba_framebuffers (gs_adapter g))) with (length (fbs g)). rewrite (proj2 (Z.leb_gt _ _)) by (destruct (fbs g); [done|cbn; lia]).
  rewrite (bind_Ok _ _ _ _ _ E1). erewrite bind_Ok by reflexivity. erewrite bind_Ok by reflexivity. rewrite (ev_next _ _ He1). unfold as_usize. rewrite as_u_id by (unfold u_range; lia).
  exists r. eexists. split; [reflexivity|]. match goal with |- gfx_ok ?x ∧ _ => set (g' := x) end. rewrite <- (ev_handles _ _ He1), <- (ev_name _ _ He1), <- Hf1.
  split_and!; try done; [| |apply (ev_screens _ _ He1)].
  - destruct Hg1 as [H1 H2 H3 H4]. split; try done. intros v d r' Hr'. destruct (H2 v d r' Hr'). by split.
  - intros i h. unfold g'. cbn. intros [[<- _]|[_ Hi]]%lookup_insert_Some; [lia|]. rewrite (ev_handles _ _ He1) in Hi. apply Hb in Hi. lia.
Qed.

Section opening.
Context {C : Type} `{HR : Ransid C}.

Lemma open_display_ok g vt fb :
  gfx_ok g → head (fbs g) = Some fb → handles_below g → 0 <= vt < 2 ^ 64 → 0 <= gs_next_id g < 2 ^ 64 - 1 →
  no_char ":" (gs_name g) → (length (string_bytes (gfx_path (gs_name g) vt 0 (mk_screen (fb_width fb) (fb_height fb) 0))) <= 4096)%nat →
  ∃ dp g', open_display (pretty vt) g = (Ok dp, g') ∧ gfx_ok g' ∧ handles_below g' ∧ gs_next_id g' = gs_next_id g + 1 ∧ gs_name g' = gs_name g ∧ fbs g' = fbs g ∧
    console_ok g' vt (fbtext_new (C := C) dp) ∧ ∀ v t, console_ok (C := C) g v t → console_ok g' v t.
Proof.
  intros Hg Hfb Hb Hvt Hn Hname Hlen. assert (Hne : fbs g ≠ []) by (by destruct (fbs g)).
  destruct (gfx_open_ok g vt Hg Hne Hb Hvt Hn) as (r & g' & E & Hg' & Hb' & Hn' & Hname' & Hfbs & Hsc & Hh & Hr).
  destruct (so_fb _ _ _ (go_screens g' Hg' vt 0 r Hr)) as (fb' & Hfb' & Hw & Hhh). change (Z.to_nat 0) with 0%nat in Hfb'. rewrite Hfbs in Hfb'.
  assert (fb' = fb) as -> by (destruct (fbs g); cbn in *; congruence). clear Hfb'.
  assert (Hok : fb_ok fb) by (apply (proj1 (Forall_lookup _ _) (go_fbs g Hg) 0%nat); by destruct (fbs g)). destruct Hok as [HW HH _ _].
  assert (Ew : res_width r = sc_width r) by (cbn; unfold as_u32; rewrite as_u_id; [done|unfold u_range; lia]).
  assert (Eh : res_height r = sc_height r) by (cbn; unfold as_u32; rewrite as_u_id; [done|unfold u_range; lia]).
  assert (Hid : gs_handles g' !! (gs_next_id g + 1) = Some (vt, 0)) by (by rewrite Hh, lookup_insert, decide_True).
  assert (Hres : ∀ v d, gfx_resource v d g' = match screen_of g' v d with Some r => (Ok r, g') | None => (Panic, g') end).
  { intros v d. unfold gfx_resource, mbind, prog_bind, p_bind, gets. change (option_bind _ _ (lookup d) (gs_vts_res g' !! v)) with (screen_of g' v d). by destruct (screen_of g' v d). }
  assert (Hpath : gfx_path (gs_name g) vt 0 r = gfx_path (gs_name g) vt 0 (mk_screen (fb_width fb) (fb_height fb) 0)).
  { unfold gfx_path. cbn [res_width res_height vesad_adapter sc_width sc_height]. by rewrite Hw, Hhh. }
  unfold open_display, mbind, prog_bind. rewrite (bind_Ok _ _ _ _ _ E).
  rewrite (bind_Ok _ _ g' (string_bytes (gfx_path (gs_name g) vt 0 r)) g').
  2:{ unfold expect_ok, gfx_fpath, gfx_handle, mbind, prog_bind, p_bind, gets. rewrite Hid. cbn [ok_or p_ret]. rewrite Hres, Hr, Hname', Hpath.
      by rewrite (proj2 (Nat.ltb_ge _ _)). }
  rewrite string_bytes_back, display_size_roundtrip by (rewrite ?Ew, ?Eh; first [done|lia]). erewrite bind_Ok by reflexivity.
  rewrite (bind_Ok _ _ g' (sc_ptr r) g').
  2:{ unfold expect_ok, gfx_mmap_prep, gfx_handle, mbind, prog_bind, p_bind, gets. rewrite Hid. cbn [ok_or p_ret]. rewrite Hres, Hr. by destruct g'. }
  do 2 eexists. split; [reflexivity|]. split; [done|]. split; [done|]. split; [done|]. split; [done|]. split; [done|]. split.
  - split; [done|done|]. exists r. cbn [ft_display fbtext_new dp_ptr dp_width dp_height fst snd]. by rewrite Ew, Eh.
  - intros v t [Hc Hth (r' & Hr' & Hd)]. split; [done| |exists r'; split; [by apply Hsc|done]]. rewrite Hh, lookup_insert_ne; [done|]. apply Hb in Hth. lia.
Qed.

(** The terminal that was activated, if there was one, is on every display. *)
Definition showing (a : option Z) (g : GfxS) : Prop := match a with Some vt => gs_active_vt g = vt ∧ all_shown g | None => True end.

(** The state of the system. *)
Record sys_ok (D : gset Z) (a : option Z) (s : FbconScheme C) : Prop := {
  sy_gfx : gfx_ok (fc_gfx s);
  sy_fbs : fbs (fc_gfx s) ≠ [];
  sy_consoles : ∀ vt t, fc_vts s !! vt = Some t → console_ok (fc_gfx s) vt t;
  sy_dom : dom (fc_vts s) = D;
  sy_shown : showing a (fc_gfx s);
}.

Lemma fbcon_displays_ok fb name vt_ids : ∀ D s,
  sys_ok D None s → head (fbs (fc_gfx s)) = Some fb → handles_below (fc_gfx s) → gs_name (fc_gfx s) = name → no_char ":" name →
  0 <= gs_next_id (fc_gfx s) → gs_next_id (fc_gfx s) + Z.of_nat (length vt_ids) < 2 ^ 64 →
  Forall (λ vt, 0 <= vt < 2 ^ 64 ∧ (length (string_bytes (gfx_path name vt 0 (mk_screen (fb_width fb) (fb_height fb) 0))) <= 4096)%nat) vt_ids →
  ∃ s', fbcon_displays vt_ids s = (Ok tt, s') ∧ sys_ok (list_to_set vt_ids ∪ D) None s'.
Proof.
  induction vt_ids as [|vt vt_ids IH]; intros D s Hs Hfb Hb Hname Hnc H0 Hn Hvts; cbn [fbcon_displays].
  { exists s. split; [reflexivity|]. replace (list_to_set [] ∪ D) with D by (cbn; set_solver). done. }
  apply Forall_cons in Hvts as [[Hvt Hlen] Hvts]. destruct Hs as [Hg Hne Hc Hd _]. cbn [length] in Hn.
  destruct (open_display_ok (fc_gfx s) vt fb Hg Hfb Hb Hvt) as (dp & g' & E & Hg' & Hb' & Hn' & Hname' & Hfbs & Hnew & Hold); [lia|by rewrite Hname|by rewrite Hname|].
  unfold mbind, prog_bind. rewrite (bind_Ok _ _ s dp (set_gfx g' s)) by (unfold on_gfx, expect_ok; by rewrite E). erewrite bind_Ok by reflexivity.
  set (s1 := set_console vt _ _).
  destruct (IH ({[vt]} ∪ D) s1) as (s' & E' & Hs'); [|by rewrite <- Hfb, <- Hfbs|done|by rewrite <- Hname|done|cbn; lia|cbn; lia|done|].
  - split; [done|cbn; by rewrite Hfbs| |cbn; by rewrite dom_insert_L, Hd|done]. cbn. intros v t [[<- <-]|[_ Hv]]%lookup_insert_Some; [done|by apply Hold, Hc].
  - exists s'. split; [exact E'|]. replace (list_to_set (vt :: vt_ids) ∪ D) with (list_to_set vt_ids ∪ ({[vt]} ∪ D)) by (cbn; set_solver). done.
Qed.

End opening.

(** ** The system *)

Section system.
Context (FONT : list Z) (O_NONBLOCK EVENT_READ : Z) {C : Type} `{HR : Ransid C} `{HL : !RansidLaws C} (D : gset Z) (a : option Z).

Abbreviation inv := (sys_ok (C := C) D a).

(** Steps that leave the driver and the displays of the terminals alone. *)
Lemma sys_same (s s' : FbconScheme C) :
  fc_gfx s' = fc_gfx s → fc_vts s' = fc_vts s → inv s → inv s'.
Proof. intros Eg Ev []. split; by rewrite ?Eg, ?Ev. Qed.

Lemma sys_console (s : FbconScheme C) vt t t' :
  fc_vts s !! vt = Some t → ft_display t' = ft_display t → ft_inner t' = ft_inner t → inv s → inv (set_console vt t' s).
Proof.
  intros Ht Ed Ei [H1 H2 H3 H4 H5]. split; try done; cbn.
  - intros v t0 [[<- <-]|[_ Hv]]%lookup_insert_Some; [|by apply H3]. destruct (H3 vt t Ht) as [A B Cc]. split; by rewrite ?Ei, ?Ed.
  - rewrite dom_insert_L, <- H4. apply elem_of_dom_2 in Ht. set_solver.
Qed.

Lemma fbcon_handle_safe id : safe inv (fbcon_handle id).
Proof. unfold fbcon_handle, mbind, prog_bind. repeat safe_step. Qed.

Lemma write_safe id buf : safe inv (fbcon_write FONT id buf).
Proof.
  unfold fbcon_write. unfold mbind, prog_bind. apply safe_bind; [apply fbcon_handle_safe|]. intros h s Hs. erewrite bind_Ok by reflexivity.
  destruct (fc_vts s !! fh_vt h) as [t|] eqn:Ht; [|done]. destruct Hs as [Hg Hne Hc Hd Hsh].
  destruct (text_write_ok FONT (fc_gfx s) (fh_vt h) t buf Hg (Hc _ _ Ht)) as (t' & g' & E & Hg' & Hv & Hok & Ha & Hs').
  rewrite (bind_Ok _ _ s t' (set_gfx g' s)) by (unfold on_gfx; by rewrite E). erewrite bind_Ok by reflexivity. split; [done|]. cbn. split; cbn.
  - done.
  - pose proof (cv_fbs _ _ Hv) as El. by destruct (fbs g'), (fbs (fc_gfx s)).
  - intros v t0 [[<- <-]|[_ Hv']]%lookup_insert_Some; [done|]. apply (console_ok_view _ _ _ _ Hv). by apply Hc.
  - rewrite dom_insert_L, <- Hd. apply elem_of_dom_2 in Ht. set_solver.
  - unfold showing in *. destruct a; [|done]. destruct Hsh as [<- Hsh]. split; [done|by apply Hs'].
Qed.

Lemma read_safe id len : safe inv (fbcon_read O_NONBLOCK id len).
Proof.
  unfold fbcon_read. unfold mbind, prog_bind. apply safe_bind; [apply fbcon_handle_safe|]. intros h s Hs. erewrite bind_Ok by reflexivity.
  destruct (fc_vts s !! fh_vt h) as [t|] eqn:Ht; [|done]. destruct (_ && _)%bool; [done|]. cbn [text_read]. erewrite bind_Ok by reflexivity.
  split; [done|]. cbn. by eapply sys_console.
Qed.

Lemma call_safe c : safe inv (fbcon_call FONT O_NONBLOCK c).
Proof.
  destruct c; cbn [fbcon_call]; unfold mbind, prog_bind; (apply safe_bind; [|intros ?; apply safe_ret]); [| | | |apply read_safe|apply write_safe|].
  all: unfold fbcon_open, fbcon_fevent, fbcon_fpath, fbcon_fsync, fbcon_close, mbind, prog_bind.
  all: repeat first [safe_step|apply fbcon_handle_safe|apply safe_modify; intros ?; by apply sys_same].
Qed.

Lemma block_safe c : safe inv (fbcon_scheme_block FONT O_NONBLOCK c).
Proof. unfold fbcon_scheme_block, mbind, prog_bind. repeat safe_step. apply call_safe. Qed.

Lemma request_safe r : r ≠ FrMsg → safe inv (fbcon_request FONT O_NONBLOCK r).
Proof.
  intros Hr. destruct r as [tag c|tag|tag|]; [| | |done]; cbn [fbcon_request]; unfold mbind, prog_bind.
  all: repeat first [apply block_safe|safe_step|apply safe_modify; intros ?; by apply sys_same].
Qed.

Lemma requests_safe rs : FrMsg ∉ rs → safe inv (fbcon_requests FONT O_NONBLOCK rs).
Proof.
  induction rs as [|r rs IH]; intros Hr; cbn [fbcon_requests]; unfold mbind, prog_bind; repeat first [apply request_safe; set_solver|apply IH; set_solver|safe_step].
Qed.

Lemma input_same es : ∀ t : FbText C, ft_display (foldl (λ t e, text_input e t) t es) = ft_display t ∧ ft_inner (foldl (λ t e, text_input e t) t es) = ft_inner t.
Proof.
  induction es as [|e es IH]; intros t; [done|]. cbn [foldl]. destruct (IH (text_input e t)) as [-> ->]. destruct e; cbn; repeat case_match; done.
Qed.

Lemma input_safe vt rs : vt ∈ D → IrError ∉ rs → safe inv (fbcon_input vt rs).
Proof.
  intros Hv. induction rs as [|[es|] rs IH]; intros Hr; cbn [fbcon_input]; [apply safe_ret| |set_solver].
  intros s Hs. unfold mbind, prog_bind. erewrite bind_Ok by reflexivity. rewrite <- (sy_dom _ _ _ Hs) in Hv. apply elem_of_dom in Hv as [t Ht].
  rewrite Ht. do 2 (erewrite bind_Ok by reflexivity). apply IH; [set_solver|]. destruct (input_same es t) as [E1 E2]. by eapply sys_console.
Qed.

Lemma retry_safe todo : ∀ kept, safe inv (retry_blocked FONT O_NONBLOCK todo kept).
Proof.
  induction todo as [|[tag c] todo IH]; intros kept; cbn [retry_blocked]; unfold mbind, prog_bind.
  all: repeat first [apply block_safe|safe_step|apply IH|apply safe_modify; intros ?; by apply sys_same].
Qed.

Lemma fbcon_notify_safe ids : safe inv (notify_handles EVENT_READ ids).
Proof.
  induction ids as [|id ids IH]; cbn [notify_handles]; unfold fbcon_notify, mbind, prog_bind.
  all: repeat first [safe_step|apply IH|apply safe_modify; intros ?; by apply sys_same].
Qed.

(** What the kernel and inputd deliver: no memory mapping requests, events of the terminals that
    were asked for. *)
Definition event_ok (e : FbEvent) : Prop :=
  match e with FeRequests rs => FrMsg ∉ rs | FeInput vt rs => vt ∈ D ∧ IrError ∉ rs end.

Lemma event_safe e : event_ok e → safe inv (fbcon_handle_event FONT O_NONBLOCK EVENT_READ e).
Proof.
  intros He. unfold fbcon_handle_event, fbcon_source, mbind, prog_bind. apply safe_bind.
  - destruct e as [rs|vt rs]; [by apply requests_safe|]. destruct He as [Hv Hr]. intros s Hs. erewrite bind_Ok by reflexivity.
    pose proof Hv as Hv'. rewrite <- (sy_dom _ _ _ Hs) in Hv'. apply elem_of_dom in Hv' as [t Ht]. rewrite Ht. erewrite bind_Ok by reflexivity.
    revert s Hs Ht. intros s Hs _. apply (safe_bind inv (fbcon_input vt rs)); [by apply input_safe|intros ?; apply safe_ret|done].
  - intros os. repeat first [apply retry_safe|apply fbcon_notify_safe|safe_step].
Qed.

End system.

(** *** No call ends the daemon with an error *)

Definition no_throw {S E A : Type} (m : prog S E A) : Prop := ∀ s e, (m s).1 ≠ Err e.

Lemma no_throw_bind {S E A B : Type} (m : prog S E A) (f : A → prog S E B) : no_throw m → (∀ a, no_throw (f a)) → no_throw (p_bind f m).
Proof. intros Hm Hf s e. unfold p_bind. specialize (Hm s). destruct (m s) as [[a|e'|] s1]; cbn in *; [by apply Hf|naive_solver|done]. Qed.

Lemma no_throw_attempt {S E A : Type} (m : prog S E A) : no_throw (attempt m).
Proof. intros s e. unfold attempt. by destruct (m s) as [[]]. Qed.

Lemma no_throw_pure {S E A : Type} (m : prog S E A) : (∀ s, (m s).1 = Panic ∨ ∃ a, (m s).1 = Ok a) → no_throw m.
Proof. intros Hm s e. destruct (Hm s) as [-> |[a ->]]; done. Qed.

Ltac no_throw :=
  repeat first
    [ apply no_throw_bind; [|intros ?] | apply no_throw_attempt
    | apply no_throw_pure; intros ?; right; eexists; reflexivity | apply no_throw_pure; intros ?; left; reflexivity
    | match goal with
      | |- no_throw (unwrap ?o) => destruct o
      | |- no_throw (if ?b then _ else _) => destruct b
      | |- no_throw (match ?x with _ => _ end) => destruct x
      end ].

Section run.
Context (FONT : list Z) (O_NONBLOCK EVENT_READ : Z) {C : Type} `{HR : Ransid C} `{HL : !RansidLaws C} (D : gset Z).

Lemma requests_no_throw rs : no_throw (fbcon_requests FONT O_NONBLOCK (C := C) rs).
Proof.
  induction rs as [|r rs IH]; cbn [fbcon_requests]; unfold fbcon_request, fbcon_scheme_block, mbind, prog_bind; no_throw; exact IH.
Qed.

Lemma input_no_throw vt rs : no_throw (fbcon_input (C := C) vt rs).
Proof. induction rs as [|[es|] rs IH]; cbn [fbcon_input]; unfold mbind, prog_bind; no_throw; exact IH. Qed.

Lemma retry_no_throw todo : ∀ kept, no_throw (retry_blocked FONT O_NONBLOCK (C := C) todo kept).
Proof.
  induction todo as [|[tag c] todo IH]; intros kept; cbn [retry_blocked]; unfold fbcon_scheme_block, mbind, prog_bind; no_throw; apply IH.
Qed.

Lemma notify_no_throw ids : no_throw (notify_handles EVENT_READ (C := C) ids).
Proof. induction ids as [|id ids IH]; cbn [notify_handles]; unfold fbcon_notify, mbind, prog_bind; no_throw; exact IH. Qed.

Lemma event_no_throw e : no_throw (fbcon_handle_event FONT O_NONBLOCK EVENT_READ (C := C) e).
Proof.
  unfold fbcon_handle_event, fbcon_source, mbind, prog_bind.
  no_throw; first [apply requests_no_throw|apply input_no_throw|apply retry_no_throw|apply notify_no_throw].
Qed.

(** The terminal the displays show after the operations. *)
Definition activated (a : option Z) (o : ConOp) : option Z :=
  match o with CoVt e => match ve_kind e with Activate => Some (ve_vt e) | _ => a end | CoEvent _ => a end.

Definition op_ok (o : ConOp) : Prop := match o with CoEvent e => event_ok D e | CoVt _ => True end.

Lemma con_step_ok a o s :
  op_ok o → sys_ok D a s → ∃ r s', con_step FONT O_NONBLOCK EVENT_READ o s = (Ok r, s') ∧ sys_ok D (activated a o) s'.
Proof.
  intros Ho Hs. destruct o as [e|e]; cbn [con_step activated].
  - apply safe_total; [by apply event_safe|done|apply event_no_throw].
  - destruct Hs as [Hg Hne Hc Hd Hsh]. destruct (vt_event_ok (fc_gfx s) e Hg Hne) as (g' & E & Hg' & He & Ha). unfold mbind, prog_bind.
    rewrite (bind_Ok _ _ s tt (set_gfx g' s)) by (unfold on_gfx; by rewrite E). do 2 eexists. split; [reflexivity|]. pose proof (evolves_view _ _ He) as Hv. split; cbn.
    + done.
    + pose proof (cv_fbs _ _ Hv) as El. by destruct (fbs g'), (fbs (fc_gfx s)).
    + intros vt t Ht. apply (console_ok_view _ _ _ _ Hv). by apply Hc.
    + done.
    + destruct (ve_kind e); [done|by subst g'..].
Qed.

Lemma run_ok os : ∀ a s,
  Forall op_ok os → sys_ok D a s → ∃ r s', con_run FONT O_NONBLOCK EVENT_READ os s = (Ok r, s') ∧ sys_ok D (foldl activated a os) s'.
Proof.
  induction os as [|o os IH]; intros a s Hos Hs; cbn [con_run foldl]; [by do 2 eexists|]. apply Forall_cons in Hos as [Ho Hos].
  destruct (con_step_ok a o s Ho Hs) as (r & s1 & E & Hs1). destruct (IH _ s1 Hos Hs1) as (rs & s' & E' & Hs'). unfold mbind, prog_bind.
  rewrite (bind_Ok _ _ _ _ _ E), (bind_Ok _ _ _ _ _ E'). by do 2 eexists.
Qed.

End run.

Lemma start_ok {C : Type} `{Ransid C} frame_buffers name :
  Forall fb_ok frame_buffers → frame_buffers ≠ [] → sys_ok ∅ None (mk_fbcon (C := C) (mk_gscheme (mk_fba frame_buffers ∅ 0) name 0 ∅ 0 ∅) ∅ 0 ∅ []).
Proof. intros Hf Hne. by split. Qed.

(** C27. The text consoles of fbcond on the displays of vesad.  The driver starts on the frame
    buffers of the boot loader and fbcond opens its terminals.  Whatever programs then do with
    the consoles (open, write, read, wait, close, in any order), whatever is typed, and whichever
    terminals are switched to in between: no call panics in either daemon, the active terminal is
    the last one that was activated, and once there was one, every display shows exactly the
    memory of that terminal, in which its console draws. *)
Theorem console_shown (FONT : list Z) (O_NONBLOCK EVENT_READ : Z) {C : Type} `{HR : Ransid C} `{HL : !RansidLaws C} frame_buffers fb name vt_ids ops :
  Forall fb_ok frame_buffers → head frame_buffers = Some fb →
  String.prefix "display" name = true → no_char ":" name → Z.of_nat (length vt_ids) < 2 ^ 64 →
  Forall (λ vt, 0 <= vt < 2 ^ 64 ∧ (length (string_bytes (gfx_path name vt 0 (mk_screen (fb_width fb) (fb_height fb) 0))) <= 4096)%nat) vt_ids →
  Forall (op_ok (list_to_set vt_ids)) ops →
  ∃ g s outs s', gscheme_new (mk_fba frame_buffers ∅ 0) name = Some g ∧ fbcon_new (C := C) g vt_ids = (Ok tt, s) ∧
    con_run FONT O_NONBLOCK EVENT_READ ops s = (Ok outs, s') ∧
    showing (foldl activated None ops) (fc_gfx s') ∧ ∀ vt, vt ∈ vt_ids → ∃ t, fc_vts s' !! vt = Some t ∧ console_ok (fc_gfx s') vt t.
Proof.
  intros Hf Hfb Hpre Hnc Hlen Hvts Hops. assert (Hne : frame_buffers ≠ []) by (by destruct frame_buffers).
  eexists. unfold gscheme_new. rewrite Hpre. unfold fbcon_new. edestruct (fbcon_displays_ok fb name vt_ids ∅ _ (start_ok frame_buffers name Hf Hne)) as (s & E & Hs); try done.
  assert (HD : list_to_set vt_ids ∪ (∅ : gset Z) = list_to_set vt_ids) by set_solver. rewrite HD in Hs.
  destruct (run_ok FONT O_NONBLOCK EVENT_READ _ ops None s Hops Hs) as (outs & s' & E' & [_ _ Hc Hd Hsh]).
  exists s, outs, s'. split; [reflexivity|]. split; [exact E|]. split; [done|]. split; [done|]. intros vt Hvt.
  assert (Hin : vt ∈ dom (fc_vts s')) by (rewrite Hd; by apply elem_of_list_to_set). apply elem_of_dom in Hin as [t Ht]. exists t. split; [done|by apply Hc].
Qed.

(** A terminal emulator of one cell size: every byte is a character at the start of the row of the
    cursor. *)
Module Demo.
Record Tty := mk_tty { ty_w : nat; ty_h : nat; ty_x : nat; ty_y : nat }.

#[export] Instance tty_ransid : Ransid Tty := {
  rs_new w h := mk_tty w h 0 0;
  rs_resize w h c := mk_tty w h (ty_x c) (ty_y c);
  rs_x := ty_x; rs_y := ty_y; rs_w := ty_w; rs_h := ty_h; rs_cursor c := true;
  rs_set_x x c := mk_tty (ty_w c) (ty_h c) x (ty_y c);
  rs_set_y y c := mk_tty (ty_w c) (ty_h c) (ty_x c) y;
  rs_write buf c := (if (ty_y c <? ty_h c)%nat then (λ b, EvChar 0 (ty_y c) b 0xFFFFFF false) <$> buf else [], c);
}.

#[export] Instance tty_laws : RansidLaws Tty.
Proof.
  split; try done. intros buf c. cbn [rs_write rs_w rs_h tty_ransid fst]. destruct (Nat.ltb_spec (ty_y c) (ty_h c)); [|constructor]. apply Forall_fmap, Forall_true. by intros b.
Qed.

Definition demo_frame : FrameBuffer := mk_fb (replicate 160 9) 0x1000 8 16 10.
Definition demo_font : list Z := replicate 32 0x81.
Definition demo_ops : list ConOp :=
  [CoVt (vt_event Activate 1); CoEvent (FeRequests [FrCall 1 (FcOpen "1" 0); FrCall 2 (FcOpen "2" 0); FrCall 3 (FcWrite 0 [1])]);
   CoEvent (FeInput 1 [IrEvents [KeyEvent 97 0x1E true]]); CoEvent (FeRequests [FrCall 4 (FcWrite 1 [0]); FrCall 5 (FcRead 0 8)]); CoVt (vt_event Activate 2)].

(** A letter is drawn on the first terminal, one is typed and read there, one is drawn on the second,
    which is then switched to. *)
Lemma console_shown_witness :
  ∃ g s outs s', gscheme_new (mk_fba [demo_frame] ∅ 0) "display.vesa" = Some g ∧ fbcon_new (C := Tty) g [1; 2] = (Ok tt, s) ∧
    con_run demo_font 0x40000 1 demo_ops s = (Ok outs, s') ∧ showing (Some 2) (fc_gfx s').
Proof.
  destruct (console_shown demo_font 0x40000 1 (C := Tty) [demo_frame] demo_frame "display.vesa" [1; 2] demo_ops) as (g & s & outs & s' & E1 & E2 & E3 & Hs & _).
  - apply Forall_singleton. split; cbn; lia.
  - reflexivity.
  - reflexivity.
  - unfold no_char. cbn. set_solver.
  - cbn. lia.
  - repeat apply Forall_cons_2; [..|constructor]; (split; [lia|apply Nat.leb_le; vm_compute; reflexivity]).
  - repeat apply Forall_cons_2; [..|constructor]; cbn; set_solver.
  - by exists g, s, outs, s'.
Defined.

(** What the calls are answered, and the pixels of the display afterwards. *)
Example console_demo_run :
  let g := mk_gscheme (mk_fba [demo_frame] ∅ 0) "display.vesa" 0 ∅ 0 ∅ in
  let r := con_run demo_font 0x40000 1 demo_ops (fbcon_new (C := Tty) g [1; 2]).2 in
  r.1 = Ok [FoReply 1 (inr (0, [])); FoReply 2 (inr (1, [])); FoReply 3 (inr (1, [])); FoReply 4 (inr (1, [])); FoReply 5 (inr (1, [97]))] ∧
  (take 8 ∘ fb_onscreen <$> fbs (fc_gfx r.2)) = [[0xFF000000; 0; 0; 0; 0; 0; 0; 0xFF000000]].
Proof. vm_compute. done. Qed.

End Demo.
