(* ===== verification/VirtioBlk.v ===== *)
(** The virtio disk driver (storage/virtio-blkd/src/scheme.rs, main.rs) on the virtqueue of
    [VirtioQueue].

    A request is a chain of three buffers: a header, the data and a status byte, each in DMA
    memory of its own, which is freed when the call returns.  [vb_mem] is that memory by physical
    address; allocations are taken from [vb_top] on and given back together.  [block_on] polls the
    future and lets the device run in between; it has fuel.

    [vblk_disk_array] says that the files of the scheme are the bytes of the disk, for transfers of
    whole blocks; [short_read_panics] what happens with any other. *)

From Stdlib Require Import Ascii.
From S2P Require Import Prelude Sgl BlockIo DiskScheme VirtioQueue.

(** [VeWaits]: the device does not answer. *)
Inductive VbError : Type := VeErrno (e : errno) | VeWaits.

(** ** The device *)

(** [vh_run] is what the device does to the queue, the memory and itself between two polls. *)
Class VirtioHw (H : Type) := {
  vh_run : Queue → gmap Z (list Z) → H → Queue * gmap Z (list Z) * H;
  (** The device specific configuration space. *)
  vh_config : H → list Z;
}.

Record Vblk (H : Type) := mk_vblk { vb_queue : Queue; vb_mem : gmap Z (list Z); vb_top : Z; vb_dev : H }.
Arguments mk_vblk {H} vb_queue vb_mem vb_top vb_dev.
Arguments vb_queue {H} _.
Arguments vb_mem {H} _.
Arguments vb_top {H} _.
Arguments vb_dev {H} _.

(** ** Configuration *)

(** [StandardTransport::load_config]; [None]: a size that is [unreachable!]. *)
Definition load_config (space : list Z) (offset size : nat) : option Z :=
  if (size =? 1)%nat || (size =? 2)%nat || (size =? 4)%nat || (size =? 8)%nat then Some (le_val (slice offset size space)) else None.

Inductive DeviceConfigTy : Type := CfgCapacity | CfgSizeMax | CfgSeqMax | CfgGeometry | CfgBlkSize.
Definition config_offset (ty : DeviceConfigTy) : nat :=
  match ty with CfgCapacity => 0 | CfgSizeMax => 0x8 | CfgSeqMax => 0xc | CfgGeometry => 0x10 | CfgBlkSize => 0x14 end.

(** ** Requests *)

Inductive BlockRequestTy : Type := BrIn | BrOut.
#[export] Instance BlockRequestTy_eq_dec : EqDecision BlockRequestTy.
Proof. solve_decision. Defined.
Definition request_code (ty : BlockRequestTy) : Z := match ty with BrIn => 0 | BrOut => 1 end.
Record BlockVirtRequest := mk_request { br_ty : BlockRequestTy; br_reserved : Z; br_sector : Z }.
Definition request_bytes (r : BlockVirtRequest) : list Z := le_bytes 4 (request_code (br_ty r)) ++ le_bytes 4 (br_reserved r) ++ le_bytes 8 (br_sector r).

Definition BLK_SIZE : Z := 512.

Section driver.
Context {H : Type} `{HV : VirtioHw H}.

Abbreviation vp := (prog (Vblk H) VbError).

Definition on_queue {B : Type} (m : prog Queue errno B) : vp B := λ s,
  match m (vb_queue s) with
  | (Ok b, q) => (Ok b, mk_vblk q (vb_mem s) (vb_top s) (vb_dev s))
  | (Err e, q) => (Err (VeErrno e), mk_vblk q (vb_mem s) (vb_top s) (vb_dev s))
  | (Panic, q) => (Panic, mk_vblk q (vb_mem s) (vb_top s) (vb_dev s))
  end.

Definition device_run : vp unit := λ s,
  let '(q, m, d) := vh_run (vb_queue s) (vb_mem s) (vb_dev s) in (Ok tt, mk_vblk q m (vb_top s) d).

(** DMA memory: whole pages that nothing else uses. *)
Definition dma_new (data : list Z) : vp Z := λ s,
  (Ok (vb_top s), mk_vblk (vb_queue s) (<[vb_top s := data]> (vb_mem s)) (vb_top s + 4096 * (1 + Z.of_nat (length data) / 4096)) (vb_dev s)).
Definition dma_get (phys : Z) : vp (list Z) := b ← gets (λ s, vb_mem s !! phys); unwrap b.
Definition dma_drop (top : Z) (ps : list Z) : vp unit :=
  modify (λ s, mk_vblk (vb_queue s) (foldr delete (vb_mem s) ps) top (vb_dev s)).

(** [block_on] of the future of a request. *)
Fixpoint vblk_block_on (fuel : nat) (first : Z) : vp Z :=
  match fuel with
  | O => throw VeWaits
  | S fuel =>
      r ← on_queue (poll first);
      match r with
      | Some written => mret written
      | None => _ ← device_run; vblk_block_on fuel first
      end
  end.

(** The chain of a request; the data is written by the device for a read. *)
Definition request_chain (req data status size : Z) (ty : BlockRequestTy) : option (list Buffer) :=
  let data_buffer :=
    match ty with
    | BrIn => buffer_flags DescriptorFlags.WRITE_ONLY (buffer_new_unsized data 1 size)
    | BrOut => buffer_new_sized data size
    end in
  build (chain (buffer_flags DescriptorFlags.WRITE_ONLY (buffer_new status 1)) (chain data_buffer (chain (buffer_new req 16) chain_new))).

(** A request with [data] in its buffer: the count the device gave, and the buffer afterwards.
    A status that is not zero is a failed assertion. *)
Definition blk_request (fuel : nat) (ty : BlockRequestTy) (block : Z) (data : list Z) : vp (Z * list Z) :=
  top ← gets vb_top;
  req ← dma_new (request_bytes (mk_request ty 0 block));
  result ← dma_new data;
  status ← dma_new [0xFF];
  chain ← unwrap (request_chain req result status (Z.of_nat (length data)) ty);
  first ← on_queue (send chain);
  written ← vblk_block_on fuel first;
  st ← dma_get status;
  if negb (bool_decide (st = [0])) then panic
  else
    bytes ← dma_get result;
    _ ← dma_drop top [req; result; status];
    mret (written, bytes).

(** [BlkExtension::read]: the bytes copied to the start of a buffer of [len].  The copy panics
    when the count is not the length. *)
Definition blk_read (fuel : nat) (block : Z) (len : nat) : vp (list Z) :=
  '(written, bytes) ← blk_request fuel BrIn block (replicate len 0);
  let written := as_usize (written - 1) in
  if negb (written =? Z.of_nat (length bytes)) || (Z.of_nat len <? written) then panic else mret bytes.

Definition blk_write (fuel : nat) (block : Z) (target : list Z) : vp Z :=
  _ ← blk_request fuel BrOut block target;
  mret (Z.of_nat (length target)).

(** *** The reader of the partition tables *)

(** The closure of [VirtioShim::read]; the block buffer is the caller's. *)
Definition shim_read_block (fuel : nat) (block : Z) : prog (Vblk H * list Z) VbError unit := λ '(s, bb),
  match blk_request fuel BrIn block (replicate 512 0) s with
  | (Ok (_, bytes), s) => let size := Nat.min (length bb) (length bytes) in (Ok tt, (s, take size bytes ++ drop size bb))
  | (Err e, s) => (Err e, (s, bb))
  | (Panic, s) => (Panic, (s, bb))
  end.

Record VirtioShim := mk_shim { sh_scheme : Vblk H; sh_offset : Z; sh_block_bytes : list Z }.

(** An error of the closure is an [unwrap] of an error; the outer [None] is [block_read] out of fuel. *)
Definition shim_read (fuel : nat) (len : nat) (sh : VirtioShim) : option (res VbError (list Z) * VirtioShim) :=
  match block_read (shim_read_block fuel) (sh_offset sh) 512 len (sh_scheme sh, sh_block_bytes sh) with
  | Some (Ok n, out, (s, bb)) => Some (Ok out, mk_shim s (as_u64 (sh_offset sh + n)) bb)
  | Some (_, _, (s, bb)) => Some (Panic, mk_shim s (sh_offset sh) bb)
  | None => None
  end.

Definition vblk_capacity (d : H) : option Z := load_config (vh_config d) (config_offset CfgCapacity) 8.
Definition vblk_block_size (d : H) : option Z := load_config (vh_config d) (config_offset CfgBlkSize) 4.

(** [None]: the disk is too large. *)
Definition shim_seek (from : SeekFrom) (sh : VirtioShim) : option (option Z * VirtioShim) :=
  capacity ← vblk_capacity (vb_dev (sh_scheme sh));
  block_size ← vblk_block_size (vb_dev (sh_scheme sh));
  let size := as_u64 (capacity * block_size) in
  if 2 ^ 63 <=? size then Some (None, sh)
  else
    let off :=
      match from with
      | SStart new_pos => Z.min size new_pos
      | SCurrent new_pos => as_u64 (Z.max 0 (Z.min size (as_i 64 (as_i 64 (sh_offset sh) + new_pos))))
      | SEnd new_pos => as_u64 (Z.max 0 (Z.min (as_i 64 (size + new_pos)) size))
      end in
    Some (Some off, mk_shim (sh_scheme sh) off (sh_block_bytes sh)).

(** ** The scheme *)

Inductive VbHandle : Type := VhPartition (number : Z) | VhList (entries : list Z) | VhDisk.

Record VbScheme := mk_vbscheme { vs_io : Vblk H; vs_next_id : Z; vs_handles : gmap Z VbHandle; vs_part_table : option (list Partition) }.

Abbreviation sp := (prog VbScheme VbError).

Definition on_vblk {B : Type} (m : vp B) : sp B := λ s, let '(r, io) := m (vs_io s) in (r, mk_vbscheme io (vs_next_id s) (vs_handles s) (vs_part_table s)).

(** [DiskScheme::new] with the parser of partition tables. *)
Definition vbscheme_new (get_partitions : VirtioShim → option (list Partition) * VirtioShim) (io : Vblk H) : VbScheme :=
  let '(pt, sh) := get_partitions (mk_shim io 0 (replicate 4096 0)) in mk_vbscheme (sh_scheme sh) 0 ∅ pt.

Definition vb_insert (h : VbHandle) : sp Z :=
  id ← gets vs_next_id;
  _ ← modify (λ s, mk_vbscheme (vs_io s) (as_usize (id + 1)) (<[id := h]> (vs_handles s)) (vs_part_table s));
  mret id.

(** The listing: the disk and its partitions. *)
Definition vb_listing (pt : option (list Partition)) : string :=
  foldl (λ l i, l +:+ "0p" +:+ pretty (Z.of_nat i) +:+ String (Ascii.ascii_of_nat 10) "") ("0" +:+ String (Ascii.ascii_of_nat 10) "")
    (seq 0 (match pt with Some ps => length ps | None => 0 end)).

(** The part of a path after the first [p]. *)
Fixpoint after_p (s : string) : option string :=
  match s with EmptyString => None | String c s => if decide (c = "p"%char) then Some s else after_p s end.

Context (O_DIRECTORY O_STAT : Z).

Definition vb_xopen (path : string) (flags : Z) : sp Z :=
  let path_str := trim_matches path in
  pt ← gets vs_part_table;
  if bool_decide (path_str = "") then
    if (Z.land flags O_DIRECTORY =? O_DIRECTORY) || (Z.land flags O_STAT =? O_STAT) then vb_insert (VhList (string_bytes (vb_listing pt)))
    else throw (VeErrno EISDIR)
  else
    match after_p path_str with
    | Some part_num_str =>
        if bool_decide (part_num_str = "") then throw (VeErrno ENOENT)
        else
          part_num ← unwrap (parse_uint (2 ^ 32) part_num_str);
          ps ← unwrap pt;
          _ ← unwrap (ps !! Z.to_nat part_num);
          vb_insert (VhPartition part_num)
    | None =>
        nsid ← unwrap (parse_uint (2 ^ 32) path_str);
        if nsid =? 0 then vb_insert VhDisk else panic
    end.

Definition vb_handle (id : Z) : sp VbHandle := h ← gets (λ s, vs_handles s !! id); ok_or h (VeErrno EBADF).

Definition vb_partition (number : Z) : sp Partition :=
  pt ← gets vs_part_table;
  pt ← unwrap pt;
  ok_or (pt !! Z.to_nat number) (VeErrno EBADF).

(** [cfg.block_size()]; a division by zero panics. *)
Definition disk_sector (offset : Z) : sp Z :=
  block_size ← gets (λ s, vblk_block_size (vb_dev (vs_io s)));
  block_size ← unwrap block_size;
  if block_size =? 0 then panic else mret (offset / block_size).

Definition vb_read (fuel : nat) (id : Z) (len : nat) (offset : Z) : sp (list Z) :=
  h ← vb_handle id;
  match h with
  | VhList entries => mret (take len (drop (Z.to_nat offset) entries))
  | VhPartition number =>
      part ← vb_partition number;
      on_vblk (blk_read fuel (as_u64 (pt_start_lba part + offset / BLK_SIZE)) len)
  | VhDisk => sector ← disk_sector offset; on_vblk (blk_read fuel sector len)
  end.

(** [todo!()] for the other handles. *)
Definition vb_write (fuel : nat) (id : Z) (buf : list Z) (offset : Z) : sp Z :=
  h ← vb_handle id;
  match h with
  | VhDisk => sector ← disk_sector offset; on_vblk (blk_write fuel sector buf)
  | _ => panic
  end.

Definition vb_fsize (id : Z) : sp Z :=
  h ← vb_handle id;
  match h with
  | VhList entries => mret (Z.of_nat (length entries))
  | VhPartition number => part ← vb_partition number; mret (as_u64 (pt_size part * BLK_SIZE))
  | VhDisk =>
      capacity ← gets (λ s, vblk_capacity (vb_dev (vs_io s)));
      capacity ← unwrap capacity;
      block_size ← gets (λ s, vblk_block_size (vb_dev (vs_io s)));
      block_size ← unwrap block_size;
      mret (as_u64 (capacity * block_size))
  end.

Definition vb_fpath (id : Z) : sp (list Z) := panic.

Definition vb_fstat (id : Z) : sp Z :=
  h ← vb_handle id;
  match h with VhList _ => mret 0 | _ => panic end.

Definition vb_close (id : Z) : sp Z :=
  _ ← vb_handle id;
  _ ← modify (λ s, mk_vbscheme (vs_io s) (vs_next_id s) (delete id (vs_handles s)) (vs_part_table s));
  mret 0.

(** One request of the loop of the daemon. *)
Inductive VbCall : Type :=
| VcOpen (path : string) (flags : Z) | VcRead (id : Z) (len : nat) (offset : Z) | VcWrite (id : Z) (buf : list Z) (offset : Z)
| VcFsize (id : Z) | VcFpath (id : Z) | VcFstat (id : Z) | VcClose (id : Z).

Definition vb_call (fuel : nat) (c : VbCall) : sp (Z * list Z) :=
  match c with
  | VcOpen path flags => r ← vb_xopen path flags; mret (r, [])
  | VcRead id len offset => r ← vb_read fuel id len offset; mret (Z.of_nat (length r), r)
  | VcWrite id buf offset => r ← vb_write fuel id buf offset; mret (r, [])
  | VcFsize id => r ← vb_fsize id; mret (r, [])
  | VcFpath id => r ← vb_fpath id; mret (Z.of_nat (length r), r)
  | VcFstat id => r ← vb_fstat id; mret (r, [])
  | VcClose id => r ← vb_close id; mret (r, [])
  end.

(** The loop; [None] is a request that is not a call.  An error is an answer. *)
Fixpoint vb_serve (fuel : nat) (rs : list (option VbCall)) : sp (list (errno + Z * list Z)) :=
  match rs with
  | [] => mret []
  | None :: rs => vb_serve fuel rs
  | Some c :: rs =>
      r ← attempt (vb_call fuel c);
      r ← (match r with inl VeWaits => throw VeWaits | inl (VeErrno e) => mret (inl e) | inr v => mret (inr v) end : sp (errno + Z * list Z));
      rest ← vb_serve fuel rs;
      mret (r :: rest)
  end.

End driver.
Arguments mk_shim {H} _ _ _.
Arguments mk_vbscheme {H} _ _ _ _.

(** ** A device after the specification *)

(** It takes the chains of the available ring one by one, each after as many runs as [vd_delays]
    says, and executes those of three descriptors: header, data, status.  Type 0 reads, type 1
    writes whole sectors of 512 bytes inside the disk; anything else has status 1. *)
Record VDisk := mk_vdisk { vd_blk_size : Z; vd_bytes : list Z; vd_seen : Z; vd_delays : list nat }.

Fixpoint walk (fuel : nat) (t : list Descriptor) (i : Z) : list Descriptor :=
  match fuel with
  | O => []
  | S fuel => match entry t i with Some d => if has_next d then d :: walk fuel t (d_next d) else [d] | None => [] end
  end.

Definition device_writes (d : Descriptor) : bool := Z.testbit (d_flags d) 1.

(** The new disk and memory, and the count for the used ring. *)
Definition execute (hd dt st : Descriptor) (m : gmap Z (list Z)) (bytes : list Z) : list Z * gmap Z (list Z) * Z :=
  match m !! d_address hd, m !! d_address dt with
  | Some header, Some data =>
      let ty := le_val (take 4 header) in
      let off := le_val (slice 8 8 header) * 512 in
      let n := d_size dt in
      let fits := (n mod 512 =? 0) && (off + n <=? Z.of_nat (length bytes)) && (n =? Z.of_nat (length data)) in
      if (ty =? 0) && device_writes dt && fits then
        (bytes, <[d_address st := [0]]> (<[d_address dt := slice (Z.to_nat off) (Z.to_nat n) bytes]> m), n + 1)
      else if (ty =? 1) && negb (device_writes dt) && fits then (splice (Z.to_nat off) data bytes, <[d_address st := [0]]> m, 1)
      else (bytes, <[d_address st := [1]]> m, 1)
  | _, _ => (bytes, <[d_address st := [1]]> m, 1)
  end.

Definition vdisk_run (q : Queue) (m : gmap Z (list Z)) (d : VDisk) : Queue * gmap Z (list Z) * VDisk :=
  if avail_head q =? vd_seen d then (q, m, d)
  else
    match vd_delays d with
    | S n :: ds => (q, m, mk_vdisk (vd_blk_size d) (vd_bytes d) (vd_seen d) (n :: ds))
    | _ =>
        match avail_elements q !! (Z.to_nat (vd_seen d) mod queue_size q)%nat with
        | Some first =>
            match walk (queue_size q) (descriptor q) first with
            | [hd; dt; st] =>
                let '(bytes, m, w) := execute hd dt st m (vd_bytes d) in
                (device_complete first w q, m, mk_vdisk (vd_blk_size d) bytes (as_u16 (vd_seen d + 1)) (tail (vd_delays d)))
            | _ => (q, m, d)
            end
        | None => (q, m, d)
        end
    end.

(** The configuration space of a disk: its capacity in sectors of 512 bytes, and the size of its
    blocks. *)
Definition vdisk_config (d : VDisk) : list Z :=
  le_bytes 8 (Z.of_nat (length (vd_bytes d)) / 512) ++ replicate 12 0 ++ le_bytes 4 (vd_blk_size d).

#[export] Instance vdisk_hw : VirtioHw VDisk := {
  vh_run q m d := vdisk_run q m d;
  vh_config d := vdisk_config d;
}.

(** ** One request *)

Lemma u16_succ x : u_range 16 x → as_u16 (x + 1) ≠ x.
Proof.
  unfold u_range, as_u16, as_u. change (2 ^ 16) with 65536. intros Hx. destruct (decide (x = 65535)) as [->|]; [done|]. rewrite Z.mod_small by lia. lia.
Qed.

(** A request that was sent and that the device has not answered. *)
Record waiting (q : Queue) (first : Z) (ids : list Z) (seen : Z) (ds : list Descriptor) : Prop := {
  wt_ok : queue_ok q [ids];
  wt_head : head ids = Some first;
  wt_used : used_head_index q = used_head q;
  wt_range : u_range 16 (used_head q);
  wt_seen : u_range 16 seen;
  wt_avail : avail_head q = as_u16 (seen + 1);
  wt_element : avail_elements q !! (Z.to_nat seen mod queue_size q)%nat = Some first;
  wt_walk : walk (queue_size q) (descriptor q) first = ds;
}.

(** No request in flight. *)
Record idle (q : Queue) (seen : Z) : Prop := {
  il_ok : queue_ok q [];
  il_used : used_head_index q = used_head q;
  il_range : u_range 16 (used_head q);
  il_seen : u_range 16 seen;
  il_avail : avail_head q = seen;
}.

Lemma waiting_waker q first ids seen ds w : waiting q first ids seen ds → waiting (set_waker w q) first ids seen ds.
Proof. intros [[]]. by split. Qed.

Lemma block_on_ok bsz hd dt st n : ∀ fuel q m top bytes seen ds first ids,
  waiting q first ids seen [hd; dt; st] → default 0%nat (head ds) = n → (n + 1 < fuel)%nat →
  ∃ q', vblk_block_on fuel first (mk_vblk q m top (mk_vdisk bsz bytes seen ds)) =
    (Ok (execute hd dt st m bytes).2, mk_vblk q' (execute hd dt st m bytes).1.2 top (mk_vdisk bsz (execute hd dt st m bytes).1.1 (as_u16 (seen + 1)) (tail ds))) ∧
    idle q' (as_u16 (seen + 1)) ∧ queue_size q' = queue_size q.
Proof.
  induction n as [|n IH]; intros fuel q m top bytes seen ds first ids Hw Hn Hf; destruct fuel as [|fuel]; [lia| |lia|].
  all: pose proof Hw as [Hok Hh Hu Hr Hs Ha He Hwk].
  all: cbn [vblk_block_on]; unfold mbind, prog_bind.
  all: pose proof (poll_pending first q [ids] Hok (or_introl Hu)) as Hp; apply (waiting_waker _ _ _ _ _ ({[first]} ∪ waker q)) in Hw;
    set (q1 := set_waker ({[first]} ∪ waker q) q) in *.
  all: erewrite bind_Ok by (unfold on_queue; cbn [vb_queue]; rewrite Hp; reflexivity); cbn [vb_mem vb_top vb_dev].
  - assert (Hrun : vdisk_run q1 m (mk_vdisk bsz bytes seen ds) = (device_complete first (execute hd dt st m bytes).2 q1, (execute hd dt st m bytes).1.2, mk_vdisk bsz (execute hd dt st m bytes).1.1 (as_u16 (seen + 1)) (tail ds))).
    { unfold vdisk_run. cbn [vd_seen vd_delays vd_bytes]. rewrite (wt_avail _ _ _ _ _ Hw), (proj2 (Z.eqb_neq _ _)) by (by apply u16_succ).
      rewrite (wt_element _ _ _ _ _ Hw), (wt_walk _ _ _ _ _ Hw). destruct (execute hd dt st m bytes) as [[b' m'] w']. by destruct ds as [|[|k] ds]. }
    erewrite bind_Ok by (unfold device_run; cbn [vb_queue vb_mem vb_dev vb_top vh_run vdisk_hw]; rewrite Hrun; reflexivity).
    set (w := (execute hd dt st m bytes).2). destruct Hw as [Hok1 _ Hu1 Hr1 _ Ha1 _ _]. pose proof Hok1 as [Hsz Hd Hal Hul Ho Hl].
    assert (Hok2 : queue_ok (device_complete first w q1) [ids]) by (split; try done; cbn; by rewrite length_insert).
    destruct (poll_ready first w ids (device_complete first w q1) [] Hok2 Hh) as (q2 & H2 & Hok3 & _ & Hu2 & Hav2 & _ & Hui2 & _ & Hqs2 & _).
    + cbn. rewrite Hu. by apply u16_succ.
    + cbn. rewrite Hu.
      assert ((Z.to_nat (as_u16 (as_u16 (used_head q + 1) - 1)) mod queue_size q)%nat = (Z.to_nat (used_head q) mod queue_size q)%nat) as ->.
      { unfold as_u16, as_u. rewrite Zminus_mod_idemp_l. f_equal. f_equal. replace (used_head q + 1 - 1) with (used_head q) by lia. by apply Z.mod_small. }
      apply list_lookup_insert_eq. change (used_elements q1) with (used_elements q) in Hul. change (queue_size q1) with (queue_size q) in Hsz, Hul. rewrite Hul. apply Nat.mod_upper_bound. lia.
    + destruct fuel as [|fuel]; [lia|]. cbn [vblk_block_on]. unfold mbind, prog_bind.
      erewrite bind_Ok by (unfold on_queue; cbn [vb_queue]; rewrite H2; reflexivity). exists q2. split; [reflexivity|]. split; [|done]. split; try done.
      * congruence.
      * rewrite Hu2. cbn. apply u_range_as_u. lia.
      * apply u_range_as_u. lia.
      * rewrite Hav2. cbn. done.
  - destruct ds as [|[|k] ds]; cbn in Hn; try lia. injection Hn as ->.
    assert (Hrun : vdisk_run q1 m (mk_vdisk bsz bytes seen (S n :: ds)) = (q1, m, mk_vdisk bsz bytes seen (n :: ds))).
    { unfold vdisk_run. cbn [vd_seen vd_delays vd_bytes]. by rewrite (wt_avail _ _ _ _ _ Hw), (proj2 (Z.eqb_neq _ _)) by (by apply u16_succ). }
    erewrite bind_Ok by (unfold device_run; cbn [vb_queue vb_mem vb_dev vb_top vh_run vdisk_hw]; rewrite Hrun; reflexivity).
    apply (IH fuel q1 m top bytes seen (n :: ds) first ids Hw); [done|lia].
Qed.

Lemma foldr_delete_empty {A : Type} (m : gmap Z A) ps : (∀ k, k ∉ ps → m !! k = None) → foldr delete m ps = ∅.
Proof.
  intros Hm. apply map_eq. intros k. rewrite lookup_empty. revert m Hm. induction ps as [|p ps IH]; intros m Hm; cbn [foldr]; [apply Hm; set_solver|].
  destruct (decide (k = p)) as [->|Hne]; [by rewrite lookup_delete, decide_True|]. rewrite lookup_delete_ne by done.
  destruct (decide (k ∈ ps)); [|destruct (decide (k ∈ p :: ps)); [set_solver|]].
  - clear IH Hm. revert m. induction ps as [|p' ps IH]; intros m; [set_solver|]. cbn [foldr]. destruct (decide (k = p')) as [->|]; [by rewrite lookup_delete, decide_True|].
    rewrite lookup_delete_ne by done. apply IH. set_solver.
  - clear IH. specialize (Hm k n0). clear -Hm n. revert Hm. induction ps as [|p' ps IH]; intros Hm; [done|]. cbn [foldr]. rewrite lookup_delete_ne by set_solver. apply IH; [set_solver|done].
Qed.

(** A descriptor of a buffer. *)
Definition of_buffer (b : Buffer) (d : Descriptor) : Prop := d_address d = as_u64 (b_buffer b) ∧ d_size d = as_u32 (b_size b) ∧ d_flags d = b_flags b.

Lemma walk_three fuel t ids first b1 b2 b3 :
  describes t ids [b1; b2; b3] → head ids = Some first → chain_flags [b1; b2; b3] → (3 <= fuel)%nat →
  ∃ d1 d2 d3, walk fuel t first = [d1; d2; d3] ∧ of_buffer b1 d1 ∧ of_buffer b2 d2 ∧ of_buffer b3 d3.
Proof.
  intros Hd Hh (F1 & F2 & F3) Hf. destruct ids as [|i [|j [|k [|? ids]]]]; try (cbn in Hd; naive_solver). injection Hh as ->.
  destruct Hd as ((d1 & E1 & A1 & S1 & G1 & N1) & (d2 & E2 & A2 & S2 & G2 & N2) & (d3 & E3 & A3 & S3 & G3 & _) & _).
  destruct fuel as [|[|[|fuel]]]; try lia. exists d1, d2, d3. cbn [walk]. rewrite E1, has_next_bit, G1, F1, N1, E2, has_next_bit, G2, F2, N2, E3, has_next_bit, G3, F3. done.
Qed.

(** What the device does with a request of the driver, and whether it is one it executes. *)
Definition in_disk (block : Z) (len : nat) (bytes : list Z) : Prop := (Z.of_nat len) mod 512 = 0 ∧ block * 512 + Z.of_nat len <= Z.of_nat (length bytes).
#[export] Instance in_disk_dec block len bytes : Decision (in_disk block len bytes) := _.

Definition served (ty : BlockRequestTy) (block : Z) (data bytes : list Z) : list Z * list Z :=
  match ty with
  | BrIn => (slice (Z.to_nat (block * 512)) (length data) bytes, bytes)
  | BrOut => (data, splice (Z.to_nat (block * 512)) data bytes)
  end.

Lemma execute_spec hd dt st m bytes ty block data rq rs ss :
  m !! rq = Some (request_bytes (mk_request ty 0 block)) → m !! rs = Some data → rq ≠ rs →
  d_address hd = rq → d_address dt = rs → d_address st = ss → d_size dt = Z.of_nat (length data) → device_writes dt = bool_decide (ty = BrIn) → u_range 64 block →
  execute hd dt st m bytes =
    if decide (in_disk block (length data) bytes) then
      ((served ty block data bytes).2, <[ss := [0]]> (match ty with BrIn => <[rs := (served ty block data bytes).1]> m | BrOut => m end),
       match ty with BrIn => Z.of_nat (length data) + 1 | BrOut => 1 end)
    else (bytes, <[ss := [1]]> m, 1).
Proof.
  intros Hq Hd Hne <- <- <- Hs Hw Hb. unfold execute. rewrite Hq, Hd, Hs.
  assert (Hty : le_val (take 4 (request_bytes (mk_request ty 0 block))) = request_code ty).
  { unfold request_bytes. rewrite take_app_length' by (symmetry; apply length_le_bytes). by destruct ty. }
  assert (Hsec : le_val (slice 8 8 (request_bytes (mk_request ty 0 block))) = block).
  { unfold request_bytes, slice. cbn [br_ty br_reserved br_sector]. rewrite app_assoc, (drop_app_length' _ _ 8) by (by rewrite length_app, !length_le_bytes).
    rewrite take_ge by (by rewrite length_le_bytes). rewrite le_val_bytes by done. done. }
  rewrite Hty, Hsec, Hw, Z.eqb_refl, andb_true_r, Nat2Z.id.
  assert (Hfit : ((Z.of_nat (length data)) mod 512 =? 0) && (block * 512 + Z.of_nat (length data) <=? Z.of_nat (length bytes)) = bool_decide (in_disk block (length data) bytes)).
  { apply eq_bool_prop_intro. rewrite andb_True, !Is_true_true, Z.eqb_eq, Z.leb_le, bool_decide_eq_true. done. }
  rewrite Hfit. destruct (decide (in_disk _ _ _)) as [Hi|Hi].
  - rewrite (bool_decide_eq_true_2 (in_disk _ _ _)) by done. destruct ty; cbn [request_code]; rewrite ?bool_decide_eq_true_2, ?bool_decide_eq_false_2 by done; cbn [Z.eqb andb negb Pos.eqb]; reflexivity.
  - rewrite (bool_decide_eq_false_2 (in_disk _ _ _)) by done. by rewrite !andb_false_r.
Qed.

(** The device between two calls of the driver. *)
Record ready (bsz : Z) (s : Vblk VDisk) (bytes : list Z) : Prop := {
  rd_idle : idle (vb_queue s) (vd_seen (vb_dev s));
  rd_size : (3 <= queue_size (vb_queue s))%nat;
  rd_mem : vb_mem s = ∅;
  rd_top : 0 <= vb_top s < 2 ^ 62;
  rd_bytes : vd_bytes (vb_dev s) = bytes;
  rd_blk_size : vd_blk_size (vb_dev s) = bsz;
}.

(** The longest wait of the requests to come. *)
Definition patient (fuel : nat) (s : Vblk VDisk) : Prop := Forall (λ n, (n + 1 < fuel)%nat) (0%nat :: vd_delays (vb_dev s)).

Lemma patient_head fuel s : patient fuel s → (default 0%nat (head (vd_delays (vb_dev s))) + 1 < fuel)%nat.
Proof. intros [H0 H]%Forall_cons. destruct (vd_delays (vb_dev s)); [done|]. by apply Forall_cons in H as [? _]. Qed.

Lemma blk_request_ok bsz fuel ty block data s bytes :
  ready bsz s bytes → patient fuel s → u_range 64 block → (0 < length data)%nat → Z.of_nat (length data) < 2 ^ 32 →
  if decide (in_disk block (length data) bytes) then
    ∃ s', blk_request fuel ty block data s =
        (Ok (match ty with BrIn => Z.of_nat (length data) + 1 | BrOut => 1 end, (served ty block data bytes).1), s') ∧
      ready bsz s' (served ty block data bytes).2 ∧ patient fuel s'
  else (blk_request fuel ty block data s).1 = Panic.
Proof.
  intros [Hq Hsz Hm Ht Hb Hbz] Hp Hblk Hlen0 Hlen. pose proof (patient_head fuel s Hp) as Hpat. destruct s as [q m top [bz bs seen ds]]. cbn [vb_queue vb_mem vb_top vb_dev vd_blk_size vd_seen vd_bytes vd_delays] in *. subst m bs bz.
  set (rq := top). set (rs := top + 4096). set (ss := top + 4096 + 4096 * (1 + Z.of_nat (length data) / 4096)).
  assert (Hss : rs < ss /\ ss < 2 ^ 63) by (unfold rs, ss; pose proof (Z.div_pos (Z.of_nat (length data)) 4096); pose proof (Z.mul_div_le (Z.of_nat (length data)) 4096); lia).
  set (fl := match ty with BrIn => 3 | BrOut => 1 end).
  set (b1 := mk_buffer rq 16 1). set (b2 := mk_buffer rs (Z.of_nat (length data)) fl). set (b3 := mk_buffer ss 1 2).
  assert (Hchain : request_chain rq rs ss (Z.of_nat (length data)) ty = Some [b1; b2; b3]).
  { unfold b2, fl. destruct ty; [|reflexivity]. unfold request_chain, buffer_new_unsized. rewrite Z.mul_1_l. unfold as_usize. rewrite as_u_id by (unfold u_range; lia). reflexivity. }
  assert (Hflags : chain_flags [b1; b2; b3]) by (unfold b2, fl; by destruct ty).
  destruct Hq as [Hok Hu Hr Hsn Hav]. destruct (ids_perm_facts _ _ _ (ok_owned _ _ Hok)) as (_ & _ & Hcnt). cbn in Hcnt.
  destruct (send_ok [b1; b2; b3] q [] Hok Hflags) as (q1 & first & ids & E1 & Eids & Hhd & Hok1 & Hdesc & _ & Hav1 & Hel1 & _ & Huh1 & Hui1 & _ & Hqs1); [cbn; lia|].
  destruct (walk_three (queue_size q1) (descriptor q1) ids first b1 b2 b3 Hdesc Hhd Hflags) as (d1 & d2 & d3 & Ew & (A1 & _) & (A2 & S2 & F2) & (A3 & _)); [lia|].
  cbn [b_buffer b_size b_flags b1 b2 b3] in *. unfold as_u64, as_u32 in A1, A2, A3, S2. rewrite as_u_id in A1, A2, A3, S2 by (unfold u_range, rq, rs; lia).
  set (mem := <[ss := [0xFF]]> (<[rs := data]> (<[rq := request_bytes (mk_request ty 0 block)]> (∅ : gmap Z (list Z))))).
  assert (Hw : waiting q1 first ids seen [d1; d2; d3]).
  { split; try done; try congruence. rewrite Hel1, Hqs1, Hav. apply list_lookup_insert_eq. rewrite (ok_avail _ _ Hok). apply Nat.mod_upper_bound. lia. }
  destruct (block_on_ok bsz d1 d2 d3 _ fuel q1 mem (ss + 4096) bytes seen ds first ids Hw eq_refl Hpat) as (q2 & E2 & Hidle & Hqs2).
  rewrite (execute_spec d1 d2 d3 mem bytes ty block data rq rs ss) in E2; try done.
  2:{ unfold mem. rewrite !lookup_insert_ne by (unfold rq, rs in *; lia). by rewrite lookup_insert, decide_True. }
  2:{ unfold mem. rewrite lookup_insert_ne by (unfold rq, rs in *; lia). by rewrite lookup_insert, decide_True. }
  2:{ unfold rq, rs. lia. }
  2:{ unfold device_writes. rewrite F2. unfold fl. by destruct ty. }
  assert (Hreq : length (request_bytes (mk_request ty 0 block)) = 16%nat) by (unfold request_bytes; by rewrite !length_app, !length_le_bytes).
  set (dev := mk_vdisk bsz bytes seen ds) in *. unfold blk_request, mbind, prog_bind. erewrite bind_Ok by reflexivity. cbn [vb_top].
  rewrite (bind_Ok _ _ _ rq (mk_vblk q (<[rq := request_bytes (mk_request ty 0 block)]> ∅) rs dev)) by (unfold dma_new; cbn [vb_top vb_queue vb_mem vb_dev]; rewrite Hreq; reflexivity).
  rewrite (bind_Ok _ _ _ rs (mk_vblk q (<[rs := data]> (<[rq := request_bytes (mk_request ty 0 block)]> ∅)) ss dev)) by reflexivity.
  rewrite (bind_Ok _ _ _ ss (mk_vblk q mem (ss + 4096) dev)) by reflexivity. rewrite Hchain. erewrite bind_Ok by reflexivity.
  rewrite (bind_Ok _ _ _ first (mk_vblk q1 mem (ss + 4096) dev)) by (unfold on_queue; cbn [vb_queue]; by rewrite E1).
  destruct (decide (in_disk block (length data) bytes)) as [Hi|Hi]; cbn [fst snd] in E2; rewrite (bind_Ok _ _ _ _ _ E2); unfold dma_get, mbind, prog_bind.
  - set (mem2 := <[ss := [0]]> _). assert (Hs0 : mem2 !! ss = Some [0]) by (unfold mem2; by rewrite lookup_insert, decide_True).
    assert (Hr0 : mem2 !! rs = Some (served ty block data bytes).1).
    { unfold mem2. rewrite lookup_insert_ne by lia. destruct ty; [by rewrite lookup_insert, decide_True|]. unfold mem. rewrite lookup_insert_ne by lia. by rewrite lookup_insert, decide_True. }
    rewrite (bind_Ok _ _ _ [0] (mk_vblk q2 mem2 (ss + 4096) (mk_vdisk bsz (served ty block data bytes).2 (as_u16 (seen + 1)) (tail ds)))) by (unfold p_bind, gets; cbn [vb_mem]; by rewrite Hs0).
    rewrite bool_decide_eq_true_2 by done. cbn [negb]. erewrite bind_Ok by (unfold p_bind, gets; cbn [vb_mem]; rewrite Hr0; reflexivity). erewrite bind_Ok by reflexivity.
    eexists. split; [reflexivity|]. split.
    + split; try done; [by rewrite <- Hqs1, <- Hqs2 in Hsz|]. cbn [vb_mem]. apply foldr_delete_empty. intros k Hk. unfold mem2, mem. destruct ty; rewrite !lookup_insert_ne by set_solver; apply lookup_empty.
    + apply Forall_cons in Hp as [H0 Hd]. apply Forall_cons. split; [done|]. cbn [vb_dev vd_delays]. destruct ds as [|? ds]; [done|]. by apply Forall_cons in Hd as [_ ?].
  - rewrite (bind_Ok _ _ _ [1] (mk_vblk q2 (<[ss := [1]]> mem) (ss + 4096) (mk_vdisk bsz bytes (as_u16 (seen + 1)) (tail ds)))) by (unfold p_bind, gets; cbn [vb_mem]; by rewrite lookup_insert, decide_True).
    by rewrite bool_decide_eq_false_2.
Qed.

(** ** Files are byte arrays *)

Lemma blk_read_ok bsz fuel block len s bytes :
  ready bsz s bytes → patient fuel s → u_range 64 block → (0 < len)%nat → Z.of_nat len < 2 ^ 32 → in_disk block len bytes →
  ∃ s', blk_read fuel block len s = (Ok (slice (Z.to_nat (block * 512)) len bytes), s') ∧ ready bsz s' bytes ∧ patient fuel s'.
Proof.
  intros Hr Hp Hb H0 Hlen Hi. pose proof (blk_request_ok bsz fuel BrIn block (replicate len 0) s bytes Hr Hp Hb) as H. rewrite length_replicate in H.
  specialize (H H0 Hlen). rewrite decide_True in H by done. destruct H as (s' & E & Hr' & Hp'). cbn [served fst snd] in *. rewrite length_replicate in *.
  exists s'. split; [|done]. unfold blk_read, mbind, prog_bind. rewrite (bind_Ok _ _ _ _ _ E). destruct Hi as [_ Hi].
  rewrite length_slice by (unfold u_range in Hb; lia). unfold as_usize. replace (Z.of_nat len + 1 - 1) with (Z.of_nat len) by lia. rewrite as_u_id by (unfold u_range; lia).
  by rewrite Z.eqb_refl, Z.ltb_irrefl.
Qed.

Lemma blk_write_ok bsz fuel block data s bytes :
  ready bsz s bytes → patient fuel s → u_range 64 block → (0 < length data)%nat → Z.of_nat (length data) < 2 ^ 32 → in_disk block (length data) bytes →
  ∃ s', blk_write fuel block data s = (Ok (Z.of_nat (length data)), s') ∧ ready bsz s' (splice (Z.to_nat (block * 512)) data bytes) ∧ patient fuel s'.
Proof.
  intros Hr Hp Hb H0 Hlen Hi. pose proof (blk_request_ok bsz fuel BrOut block data s bytes Hr Hp Hb H0 Hlen) as H. rewrite decide_True in H by done.
  destruct H as (s' & E & Hr' & Hp'). exists s'. split; [|done]. unfold blk_write, mbind, prog_bind. by rewrite (bind_Ok _ _ _ _ _ E).
Qed.

(** Any other length, or a transfer past the end: the assertion on the status fails. *)
Lemma short_read_panics bsz fuel block len s bytes :
  ready bsz s bytes → patient fuel s → u_range 64 block → (0 < len)%nat → Z.of_nat len < 2 ^ 32 → ¬ in_disk block len bytes → (blk_read fuel block len s).1 = Panic.
Proof.
  intros Hr Hp Hb H0 Hlen Hi. pose proof (blk_request_ok bsz fuel BrIn block (replicate len 0) s bytes Hr Hp Hb) as H. rewrite length_replicate in H.
  specialize (H H0 Hlen). rewrite decide_False in H by done. unfold blk_read, mbind, prog_bind, p_bind. by destruct (blk_request _ _ _ _ _) as [[]].
Qed.

Lemma vdisk_block_size d : u_range 32 (vd_blk_size d) → vblk_block_size (H := VDisk) d = Some (vd_blk_size d).
Proof.
  intros Hb. unfold vblk_block_size, load_config, config_offset. cbn [Nat.eqb orb vh_config vdisk_hw]. unfold vdisk_config, slice.
  rewrite drop_app_ge by (rewrite length_le_bytes; lia). rewrite length_le_bytes, drop_app_ge by (rewrite length_replicate; lia).
  rewrite length_replicate, drop_0, take_ge by (by rewrite length_le_bytes). by rewrite le_val_bytes.
Qed.

Abbreviation VS := (VbScheme (H := VDisk)).

Lemma disk_sector_ok bsz offset (s : VS) bytes :
  ready bsz (vs_io s) bytes → 0 < bsz < 2 ^ 32 → disk_sector offset s = (Ok (offset / bsz), s).
Proof.
  intros Hr Hb. unfold disk_sector, mbind, prog_bind. erewrite bind_Ok by reflexivity. rewrite vdisk_block_size, (rd_blk_size _ _ _ Hr) by (rewrite (rd_blk_size _ _ _ Hr); unfold u_range; lia).
  erewrite bind_Ok by reflexivity. by rewrite (proj2 (Z.eqb_neq _ _)) by lia.
Qed.

(** Where the bytes of an open file begin. *)
Definition file_base (s : VS) (id : Z) : option Z :=
  match vs_handles s !! id with
  | Some VhDisk => Some 0
  | Some (VhPartition number) => pt ← vs_part_table s; part ← pt !! Z.to_nat number; Some (pt_start_lba part * 512)
  | _ => None
  end.

(** Transfers of whole blocks inside the disk. *)
Definition transfer_ok (base : Z) (len : nat) (offset size : Z) : Prop :=
  0 <= base ∧ 0 <= offset ∧ offset mod 512 = 0 ∧ Z.of_nat len mod 512 = 0 ∧ (0 < len)%nat ∧ Z.of_nat len < 2 ^ 32 ∧ base + offset + Z.of_nat len <= size.

Definition call_ok (s : VS) (size : Z) (c : VbCall) : Prop :=
  match c with
  | VcRead id len offset => ∃ base, file_base s id = Some base ∧ transfer_ok base len offset size
  | VcWrite id buf offset => vs_handles s !! id = Some VhDisk ∧ transfer_ok 0 (length buf) offset size
  | _ => False
  end.

(** The calls on an array of bytes. *)
Fixpoint array_run (s : VS) (cs : list VbCall) (bytes : list Z) : list (errno + Z * list Z) * list Z :=
  match cs with
  | VcRead id len offset :: cs =>
      let data := slice (Z.to_nat (default 0 (file_base s id) + offset)) len bytes in
      let '(rs, bytes) := array_run s cs bytes in (inr (Z.of_nat len, data) :: rs, bytes)
  | VcWrite id buf offset :: cs =>
      let '(rs, bytes) := array_run s cs (splice (Z.to_nat offset) buf bytes) in (inr (Z.of_nat (length buf), []) :: rs, bytes)
  | _ => ([], bytes)
  end.

Definition same_files (s s' : VS) : Prop := vs_handles s' = vs_handles s ∧ vs_part_table s' = vs_part_table s.

Lemma whole_sector base offset len size :
  base mod 512 = 0 → transfer_ok base len offset size → size < 2 ^ 64 →
  u_range 64 ((base + offset) / 512) ∧ (base + offset) / 512 * 512 = base + offset ∧ (base + offset) / 512 = base / 512 + offset / 512.
Proof.
  intros Hb (H0 & Ho & Hom & _ & Hl & _ & Hs) Hsz. unfold u_range. pose proof (Z.div_mod base 512). pose proof (Z.div_mod offset 512). pose proof (Z.div_mod (base + offset) 512).
  assert ((base + offset) mod 512 = 0) by (rewrite Z.add_mod, Hb, Hom by done; done). lia.
Qed.

Lemma call_read_ok fuel id len offset s bytes :
  ready 512 (vs_io s) bytes → patient fuel (vs_io s) → Z.of_nat (length bytes) < 2 ^ 64 → call_ok s (Z.of_nat (length bytes)) (VcRead id len offset) →
  ∃ s', vb_read fuel id len offset s = (Ok (slice (Z.to_nat (default 0 (file_base s id) + offset)) len bytes), s') ∧
    ready 512 (vs_io s') bytes ∧ patient fuel (vs_io s') ∧ same_files s s'.
Proof.
  intros Hr Hp Hsz (base & Hbase & Ht). replace (default 0 (file_base s id)) with base by (by rewrite Hbase).
  assert (Hgo : base mod 512 = 0 → ∃ s', on_vblk (blk_read fuel ((base + offset) / 512) len) s = (Ok (slice (Z.to_nat (base + offset)) len bytes), s') ∧
    ready 512 (vs_io s') bytes ∧ patient fuel (vs_io s') ∧ same_files s s').
  { intros Hb. destruct (whole_sector base offset len _ Hb Ht Hsz) as (Hu & Hx & _). destruct Ht as (H0 & Ho & Hom & Hlm & Hl & Hl32 & Hs).
    destruct (blk_read_ok 512 fuel ((base + offset) / 512) len (vs_io s) bytes Hr Hp Hu Hl Hl32) as (io & E & Hr' & Hp'); [split; [done|lia]|].
    eexists. split; [unfold on_vblk; rewrite E, Hx; reflexivity|]. done. }
  unfold vb_read, vb_handle, mbind, prog_bind. unfold file_base in Hbase. destruct (vs_handles s !! id) as [h|] eqn:Eh; [|done].
  erewrite bind_Ok by (unfold p_bind, gets; rewrite Eh; reflexivity). destruct h as [number|entries|]; try done.
  - destruct (vs_part_table s) as [pt|] eqn:Ept; [|done]. cbn [mbind option_bind] in Hbase. destruct (pt !! Z.to_nat number) as [part|] eqn:Epart; [|done]. cbn [mbind option_bind] in Hbase. injection Hbase as <-.
    unfold vb_partition, mbind, prog_bind. erewrite bind_Ok by (unfold p_bind, gets; rewrite Ept; cbn [unwrap p_ret]; rewrite Epart; reflexivity).
    assert (Hb : (pt_start_lba part * 512) mod 512 = 0) by (apply Z.mod_mul; done). destruct (whole_sector _ offset len _ Hb Ht Hsz) as (Hu & _ & Hx).
    rewrite Z.div_mul in Hx by done. unfold BLK_SIZE, as_u64. rewrite <- Hx, as_u_id by done. by apply Hgo.
  - injection Hbase as <-. rewrite (bind_Ok _ _ _ _ _ (disk_sector_ok _ offset s bytes Hr ltac:(lia))). exact (Hgo eq_refl).
Qed.

Lemma call_write_ok fuel id buf offset s bytes :
  ready 512 (vs_io s) bytes → patient fuel (vs_io s) → Z.of_nat (length bytes) < 2 ^ 64 → call_ok s (Z.of_nat (length bytes)) (VcWrite id buf offset) →
  ∃ s', vb_write fuel id buf offset s = (Ok (Z.of_nat (length buf)), s') ∧
    ready 512 (vs_io s') (splice (Z.to_nat offset) buf bytes) ∧ patient fuel (vs_io s') ∧ same_files s s'.
Proof.
  intros Hr Hp Hsz (Hh & Ht). destruct (whole_sector 0 offset (length buf) _ eq_refl Ht Hsz) as (Hu & Hx & _). rewrite Z.add_0_l in Hu, Hx.
  destruct Ht as (_ & Ho & Hom & Hlm & Hl & Hl32 & Hs).
  destruct (blk_write_ok 512 fuel (offset / 512) buf (vs_io s) bytes Hr Hp Hu Hl Hl32) as (io & E & Hr' & Hp'); [split; [done|lia]|]. rewrite Hx in Hr'.
  unfold vb_write, vb_handle, mbind, prog_bind. erewrite bind_Ok by (unfold p_bind, gets; rewrite Hh; reflexivity).
  cbv beta iota. rewrite (bind_Ok _ _ _ _ _ (disk_sector_ok _ offset s bytes Hr ltac:(lia))). eexists. split; [unfold on_vblk; rewrite E; reflexivity|]. done.
Qed.

Lemma call_ok_same s s' size c : same_files s s' → call_ok s size c → call_ok s' size c.
Proof. intros [Eh Ep]. unfold call_ok, file_base. by rewrite Eh, Ep. Qed.

Lemma array_run_same s s' cs : ∀ bytes, same_files s s' → array_run s' cs bytes = array_run s cs bytes.
Proof.
  induction cs as [|c cs IH]; intros bytes Hs; [done|]. pose proof Hs as [Eh Ep]. destruct c; cbn [array_run]; rewrite ?IH by done; try done.
  unfold file_base. by rewrite Eh, Ep.
Qed.

(** The file of the whole disk on a device with blocks of another size: a read gets the bytes at
    sector [offset / bsz], but sectors have 512 bytes. *)
Lemma vblk_other_block_size bsz fuel id len offset s bytes :
  ready bsz (vs_io s) bytes → patient fuel (vs_io s) → 0 < bsz < 2 ^ 32 → vs_handles s !! id = Some VhDisk → 0 <= offset < 2 ^ 64 → (0 < len)%nat →
  Z.of_nat len < 2 ^ 32 → in_disk (offset / bsz) len bytes →
  ∃ s', vb_read fuel id len offset s = (Ok (slice (Z.to_nat (offset / bsz * 512)) len bytes), s').
Proof.
  intros Hr Hp Hb Hh Ho Hl Hl32 Hi. assert (u_range 64 (offset / bsz)) as Hu.
  { unfold u_range. split; [apply Z.div_pos; lia|]. apply Z.div_lt_upper_bound; [lia|]. nia. }
  destruct (blk_read_ok bsz fuel (offset / bsz) len (vs_io s) bytes Hr Hp Hu Hl Hl32 Hi) as (io & E & _).
  eexists. unfold vb_read, vb_handle, mbind, prog_bind. erewrite bind_Ok by (unfold p_bind, gets; rewrite Hh; reflexivity).
  cbv beta iota. rewrite (bind_Ok _ _ _ _ _ (disk_sector_ok _ offset s bytes Hr Hb)). unfold on_vblk. rewrite E. reflexivity.
Qed.

(** C21. The files virtio-blkd serves are arrays of bytes.  For a device after the virtio specification
    whose configuration has a block size of 512 ([vblk_other_block_size] is another one), however
    long it takes for each request: any sequence of reads of the disk and of its partitions and of
    writes of the whole disk (writes of a partition are not implemented and panic), of whole blocks
    inside the disk, through the scheme, the chains of the virtqueue and the polls of their futures,
    is answered exactly as on an array that holds the disk, and leaves the queue with every
    descriptor free. *)
Theorem vblk_disk_array O_DIRECTORY O_STAT fuel s bytes cs :
  ready 512 (vs_io s) bytes → patient fuel (vs_io s) → Z.of_nat (length bytes) < 2 ^ 64 → Forall (call_ok s (Z.of_nat (length bytes))) cs →
  ∃ s', vb_serve O_DIRECTORY O_STAT fuel (Some <$> cs) s = (Ok (array_run s cs bytes).1, s') ∧ ready 512 (vs_io s') (array_run s cs bytes).2.
Proof.
  revert s bytes. induction cs as [|c cs IH]; intros s bytes Hr Hp Hsz Hcs; [by exists s|]. apply Forall_cons in Hcs as [Hc Hcs].
  assert (Hgo : ∀ v s1 bytes1, vb_call O_DIRECTORY O_STAT fuel c s = (Ok v, s1) → ready 512 (vs_io s1) bytes1 → patient fuel (vs_io s1) → same_files s s1 → length bytes1 = length bytes →
    ∃ s', vb_serve O_DIRECTORY O_STAT fuel (Some <$> (c :: cs)) s = (Ok (inr v :: (array_run s cs bytes1).1), s') ∧ ready 512 (vs_io s') (array_run s cs bytes1).2).
  { intros v s1 bytes1 E Hr1 Hp1 Hs1 Hl1. destruct (IH s1 bytes1 Hr1 Hp1) as (s' & E' & Hr'); [by rewrite Hl1| |].
    - rewrite Hl1. eapply Forall_impl; [exact Hcs|]. intros c'. by apply call_ok_same.
    - rewrite (array_run_same s s1 cs bytes1 Hs1) in E', Hr'. exists s'. split; [|done]. cbn [fmap list_fmap vb_serve]. unfold mbind, prog_bind.
      rewrite (bind_Ok _ _ _ (inr v) s1) by (unfold attempt; by rewrite E). erewrite bind_Ok by reflexivity. unfold fmap in E'. by rewrite (bind_Ok _ _ _ _ _ E'). }
  destruct c as [path flags|id len offset|id buf offset|id|id|id|id]; try done.
  - destruct (call_read_ok fuel id len offset s bytes Hr Hp Hsz Hc) as (s1 & E & Hr1 & Hp1 & Hs1).
    destruct Hc as (base & Hb & H0 & Ho & _ & _ & Hl & _ & Hs). cbn [array_run]. set (data := slice _ _ _) in *.
    assert (Hdl : length data = len) by (unfold data; replace (default 0 (file_base s id)) with base by (by rewrite Hb); apply length_slice; lia).
    destruct (Hgo (Z.of_nat (length data), data) s1 bytes) as (s' & E' & Hr'); [|done..|].
    { unfold vb_call, mbind, prog_bind. by rewrite (bind_Ok _ _ _ _ _ E). }
    exists s'. rewrite Hdl in E'. destruct (array_run s cs bytes) as [rs bytes']. done.
  - destruct (call_write_ok fuel id buf offset s bytes Hr Hp Hsz Hc) as (s1 & E & Hr1 & Hp1 & Hs1). destruct Hc as (_ & _ & Ho & _ & _ & Hl & _ & Hs). cbn [array_run].
    destruct (Hgo (Z.of_nat (length buf), []) s1 (splice (Z.to_nat offset) buf bytes)) as (s' & E' & Hr'); [|done..| |].
    { unfold vb_call, mbind, prog_bind. by rewrite (bind_Ok _ _ _ _ _ E). }
    { apply length_splice. lia. }
    exists s'. destruct (array_run s cs (splice (Z.to_nat offset) buf bytes)) as [rs bytes']. done.
Qed.

Definition vblk_start (bytes : list Z) (delays : list nat) : Vblk VDisk := mk_vblk (queue_new 0 8) ∅ 0x10000 (mk_vdisk 512 bytes 0 delays).
Definition vblk_demo : VS := mk_vbscheme (vblk_start (replicate 1024 1 ++ replicate 1024 2) [3; 0; 7]%nat) 2 {[0 := VhDisk; 1 := VhPartition 0]} (Some [mk_partition 2 2]).
Definition vblk_calls : list VbCall := [VcWrite 0 (replicate 512 9) 1536; VcRead 1 1024 0; VcRead 0 512 512].

Lemma vblk_disk_array_witness :
  ∃ s', vb_serve 1 2 10 (Some <$> vblk_calls) vblk_demo =
    (Ok [inr (512, []); inr (1024, replicate 512 2 ++ replicate 512 9); inr (512, replicate 512 1)], s').
Proof.
  destruct (vblk_disk_array 1 2 10 vblk_demo (replicate 1024 1 ++ replicate 1024 2) vblk_calls) as (s' & E & _).
  - split; [|cbn; lia|reflexivity|cbn; lia|reflexivity|reflexivity]. split; [apply queue_new_ok; lia|reflexivity|unfold u_range; cbn; lia|unfold u_range; cbn; lia|reflexivity].
  - unfold patient. cbn. repeat (apply Forall_cons_2; [lia|]). constructor.
  - vm_compute. reflexivity.
  - apply Forall_cons_2; [|apply Forall_cons_2; [|apply Forall_cons_2; [|constructor]]]; cbn [call_ok].
    + split; [reflexivity|]. unfold transfer_ok; split_and!; first [apply Nat.ltb_lt; vm_compute; reflexivity|vm_compute; discriminate|vm_compute; reflexivity].
    + exists 1024. split; [reflexivity|]. unfold transfer_ok; split_and!; first [apply Nat.ltb_lt; vm_compute; reflexivity|vm_compute; discriminate|vm_compute; reflexivity].
    + exists 0. split; [reflexivity|]. unfold transfer_ok; split_and!; first [apply Nat.ltb_lt; vm_compute; reflexivity|vm_compute; discriminate|vm_compute; reflexivity].
  - exists s'. rewrite E. f_equal.
Defined.
