(* ===== verification/VirtioDev.v ===== *)
(** The PCI transport of virtio (virtio-core/src/transport.rs, from [StandardTransport] on), the
    probing of a device (probe.rs) and the layout of its registers (spec/transport_pci.rs,
    spec/mod.rs).

    The common configuration structure is a class of registers; [VDev] is a device after the
    specification.  Memory of the queues is taken from fresh pages.

    [virtio_start] says what the start of a driver leaves: the status in the order of the
    specification, the features both sides know, and every queue enabled with its own memory. *)

From S2P Require Import Prelude Io Sgl PciConfig VirtioQueue.

(** ** Registers *)

Inductive CommonReg : Type :=
| DeviceFeatureSelect | DeviceFeature | DriverFeatureSelect | DriverFeature | DeviceStatus | QueueSelect | QueueSizeReg
| QueueMsixVector | QueueEnable | QueueNotifyOff | QueueDesc | QueueDriver | QueueDevice.

Module DeviceStatusFlags.
Definition ACKNOWLEDGE : Z := 1.
Definition DRIVER : Z := 2.
Definition FAILED : Z := 128.
Definition FEATURES_OK : Z := 8.
Definition DRIVER_OK : Z := 4.
Definition DEVICE_NEEDS_RESET : Z := 64.
End DeviceStatusFlags.

Definition VIRTIO_F_VERSION_1 : Z := 32.
Definition MSIX_PRIMARY_VECTOR : Z := 0.

Class CommonCfg (H : Type) := {
  cc_read : CommonReg → H → Z * H;
  cc_write : CommonReg → Z → H → H;
}.

(** ** The transport *)

Record StandardTransport (H : Type) := mk_transport { st_common : H; st_notify : Z; st_notify_mul : Z; st_queue_index : Z; st_dma_top : Z }.
Arguments mk_transport {H} _ _ _ _ _.
Arguments st_common {H} _.
Arguments st_notify {H} _.
Arguments st_notify_mul {H} _.
Arguments st_queue_index {H} _.
Arguments st_dma_top {H} _.

(** A queue with the addresses of its parts and of its bell. *)
Record QueueHandle := mk_qhandle { qh_queue : Queue; qh_vector : Z; qh_desc : Z; qh_avail : Z; qh_used : Z; qh_bell : Z }.

Section transport.
Context {H : Type} `{HC : CommonCfg H} `{HP : Platform}.

Abbreviation ST := (StandardTransport H).
Abbreviation tp := (prog ST errno).

Definition set_common (h : H) (s : ST) : ST := mk_transport h (st_notify s) (st_notify_mul s) (st_queue_index s) (st_dma_top s).
Definition reg_get (r : CommonReg) : tp Z := λ s, let '(v, h) := cc_read r (st_common s) in (Ok v, set_common h s).
Definition reg_set (r : CommonReg) (v : Z) : tp unit := modify (λ s, set_common (cc_write r v (st_common s)) s).
Definition tassert (b : bool) : tp unit := if b then mret tt else panic.

Definition transport_new (common : H) (notify notify_mul top : Z) : ST := mk_transport common notify notify_mul 0 top.

Definition transport_reset : tp unit :=
  _ ← reg_set DeviceStatus 0;
  status ← reg_get DeviceStatus;
  tassert (status =? 0).

Definition check_device_feature (feature : Z) : tp bool :=
  _ ← reg_set DeviceFeatureSelect (Z.shiftr feature 5);
  f ← reg_get DeviceFeature;
  mret (negb (Z.land f (as_u32 (Z.shiftl 1 (Z.land feature 31))) =? 0)).

Definition ack_driver_feature (feature : Z) : tp unit :=
  _ ← reg_set DriverFeatureSelect (Z.shiftr feature 5);
  current ← reg_get DriverFeature;
  reg_set DriverFeature (Z.lor current (as_u32 (Z.shiftl 1 (Z.land feature 31)))).

Definition insert_status (status : Z) : tp unit :=
  old ← reg_get DeviceStatus;
  reg_set DeviceStatus (Z.lor old status).

Definition finalize_features : tp unit :=
  ok ← check_device_feature VIRTIO_F_VERSION_1;
  _ ← tassert ok;
  _ ← ack_driver_feature VIRTIO_F_VERSION_1;
  status ← reg_get DeviceStatus;
  _ ← reg_set DeviceStatus (Z.lor status DeviceStatusFlags.FEATURES_OK);
  confirm ← reg_get DeviceStatus;
  tassert (Z.land confirm DeviceStatusFlags.FEATURES_OK =? DeviceStatusFlags.FEATURES_OK).

Definition run_device : tp unit := insert_status DeviceStatusFlags.DRIVER_OK.

(** Whole pages of memory that nothing else uses. *)
Definition dma_pages (size : Z) : tp Z := λ s,
  (Ok (st_dma_top s), mk_transport (st_common s) (st_notify s) (st_notify_mul s) (st_queue_index s) (st_dma_top s + next_multiple_of (Z.max 1 size) PAGE_SIZE)).

(** [Available::new] and [Used::new]: both take the size of the used ring. *)
Definition vring_new (queue_size : Z) : tp Z :=
  sizes ← unwrap (queue_part_sizes queue_size);
  dma_pages sizes.2.

Definition setup_queue (vector : Z) : tp QueueHandle :=
  index ← gets st_queue_index;
  _ ← modify (λ s, mk_transport (st_common s) (st_notify s) (st_notify_mul s) (as_u16 (index + 1)) (st_dma_top s));
  _ ← reg_set QueueSelect index;
  size ← reg_get QueueSizeReg;
  notify_idx ← reg_get QueueNotifyOff;
  descriptor ← dma_pages (size_of_Descriptor * size);
  avail ← vring_new size;
  used ← vring_new size;
  _ ← reg_set QueueDesc descriptor;
  _ ← reg_set QueueDriver avail;
  _ ← reg_set QueueDevice used;
  _ ← reg_set QueueMsixVector vector;
  v ← reg_get QueueMsixVector;
  _ ← tassert (v =? vector);
  _ ← reg_set QueueEnable 1;
  mul ← gets st_notify_mul;
  notify ← gets st_notify;
  mret (mk_qhandle (queue_new index (Z.to_nat size)) vector descriptor avail used (notify + as_u32 (mul * notify_idx))).

(** After a reset of the device. *)
Definition reinit_queue (h : QueueHandle) : tp QueueHandle :=
  let q := (reinit (qh_queue h)).2 in
  _ ← reg_set QueueSelect (queue_index q);
  _ ← reg_set QueueDesc (qh_desc h);
  _ ← reg_set QueueDriver (qh_avail h);
  _ ← reg_set QueueDevice (qh_used h);
  _ ← reg_set QueueMsixVector (qh_vector h);
  v ← reg_get QueueMsixVector;
  _ ← tassert (v =? qh_vector h);
  _ ← reg_set QueueEnable 1;
  mret (mk_qhandle q (qh_vector h) (qh_desc h) (qh_avail h) (qh_used h) (qh_bell h)).

(** [probe::reinit]. *)
Definition probe_reinit : tp unit :=
  _ ← insert_status DeviceStatusFlags.ACKNOWLEDGE;
  insert_status DeviceStatusFlags.DRIVER.

End transport.

(** ** Probing *)

(** [PciCapability] without the generic fields, [#[repr(C, packed)]]. *)
Record VirtioCapability := mk_capability { pc_cfg_type : Z; pc_bar : Z; pc_id : Z; pc_offset : Z; pc_length : Z }.
Definition capability_of (data : list Z) : VirtioCapability :=
  mk_capability (le_val (take 1 data)) (le_val (slice 1 1 data)) (le_val (slice 2 1 data)) (le_val (slice 5 4 data)) (le_val (slice 9 4 data)).
Definition notify_off_multiplier (data : list Z) : Z := le_val (slice 13 4 data).

Definition CFG_COMMON : Z := 1.
Definition CFG_NOTIFY : Z := 2.
Definition CFG_DEVICE : Z := 4.

Record Found := mk_found { fd_common : option Z; fd_notify : option (Z * Z); fd_device : option Z }.

Section probe.
(** [bars]: those of the function; [physmap]: the address of mapped memory. *)
Context `{HP : Platform} (bars : list PciBar) (physmap : Z → Z → errno + Z).

Definition align_down (addr : Z) : Z := Z.land addr (unot 64 (PAGE_SIZE - 1)).

(** The address of a structure.  A BAR that is not memory panics. *)
Definition map_capability (c : VirtioCapability) : res errno Z :=
  match b ← bars !! Z.to_nat (pc_bar c); expect_mem b with
  | Some (base, _) =>
      let addr := as_usize (base + pc_offset c) in
      let aligned := align_down addr in
      let offset := addr - aligned in
      match physmap aligned (as_usize (offset + pc_length c)) with inl e => Err e | inr virt => Ok (as_usize (virt + offset)) end
  | None => Panic
  end.

(** Later structures of a type replace earlier ones (the check is a debug assertion). *)
Definition probe_capability (data : list Z) (f : Found) : res errno Found :=
  let c := capability_of data in
  if (pc_cfg_type c =? CFG_COMMON) || (pc_cfg_type c =? CFG_NOTIFY) || (pc_cfg_type c =? CFG_DEVICE) then
    match map_capability c with
    | Ok address =>
        if pc_cfg_type c =? CFG_COMMON then Ok (mk_found (Some address) (fd_notify f) (fd_device f))
        else if pc_cfg_type c =? CFG_NOTIFY then Ok (mk_found (fd_common f) (Some (address, notify_off_multiplier data)) (fd_device f))
        else Ok (mk_found (fd_common f) (fd_notify f) (Some address))
    | Err e => Err e
    | Panic => Panic
    end
  else Ok f.

Fixpoint probe_capabilities (caps : list (list Z)) (f : Found) : res errno Found :=
  match caps with
  | [] => Ok f
  | data :: caps => match probe_capability data f with Ok f => probe_capabilities caps f | r => r end
  end.

(** [probe_device] up to the transport: common, notify with its multiplier, device. *)
Definition virtio_probe (vendor_id : Z) (caps : list (list Z)) (has_msix : bool) : res errno (Z * Z * Z * Z) :=
  if negb (vendor_id =? 6900) then Panic
  else
    match probe_capabilities caps (mk_found None None None) with
    | Ok f =>
        match fd_common f, fd_device f, fd_notify f with
        | Some common, Some device, Some (notify, multiplier) =>
            if (multiplier =? 0) || negb has_msix then Panic else Ok (common, notify, multiplier, device)
        | _, _, _ => Panic
        end
    | Err e => Err e
    | Panic => Panic
    end.

End probe.

(** The rest of [probe_device]: reset and acknowledge; then what the drivers do: their own features,
    the end of the negotiation, [n] queues, and the start. *)
Section start.
Context {H : Type} `{HC : CommonCfg H} `{HP : Platform}.

Definition ack_if (ok : bool) (f : Z) : prog (StandardTransport H) errno unit := if ok then ack_driver_feature f else mret tt.

Fixpoint ack_features (fs : list Z) : prog (StandardTransport H) errno unit :=
  match fs with
  | [] => mret tt
  | f :: fs => ok ← check_device_feature f; _ ← ack_if ok f; ack_features fs
  end.

Fixpoint setup_queues (n : nat) : prog (StandardTransport H) errno (list QueueHandle) :=
  match n with O => mret [] | S n => q ← setup_queue MSIX_PRIMARY_VECTOR; qs ← setup_queues n; mret (q :: qs) end.

Definition virtio_start_driver (features : list Z) (n : nat) : prog (StandardTransport H) errno (list QueueHandle) :=
  _ ← transport_reset;
  _ ← probe_reinit;
  _ ← ack_features features;
  _ ← finalize_features;
  qs ← setup_queues n;
  _ ← run_device;
  mret qs.

End start.

(** ** A device after the specification *)

Record VQ := mk_vq { vq_size : Z; vq_notify : Z; vq_vector : Z; vq_enable : Z; vq_desc : Z; vq_driver : Z; vq_device : Z }.
Record VDev := mk_vdev { vv_features : Z; vv_fsel : Z; vv_dsel : Z; vv_driver : Z; vv_status : Z; vv_qsel : Z; vv_queues : list VQ; vv_log : list Z }.

Definition window (sel x : Z) : Z := as_u32 (Z.shiftr x (32 * sel)).
Definition set_window (sel v x : Z) : Z := Z.lor (Z.ldiff x (Z.shiftl (Z.ones 32) (32 * sel))) (Z.shiftl (as_u32 v) (32 * sel)).

Definition vdev_read (r : CommonReg) (d : VDev) : Z :=
  let q := default (mk_vq 0 0 0 0 0 0 0) (vv_queues d !! Z.to_nat (vv_qsel d)) in
  match r with
  | DeviceFeatureSelect => vv_fsel d | DeviceFeature => window (vv_fsel d) (vv_features d)
  | DriverFeatureSelect => vv_dsel d | DriverFeature => window (vv_dsel d) (vv_driver d)
  | DeviceStatus => vv_status d | QueueSelect => vv_qsel d
  | QueueSizeReg => vq_size q | QueueMsixVector => vq_vector q | QueueEnable => vq_enable q | QueueNotifyOff => vq_notify q
  | QueueDesc => vq_desc q | QueueDriver => vq_driver q | QueueDevice => vq_device q
  end.

Definition set_vqueues (qs : list VQ) (d : VDev) : VDev := mk_vdev (vv_features d) (vv_fsel d) (vv_dsel d) (vv_driver d) (vv_status d) (vv_qsel d) qs (vv_log d).
Definition on_vq (f : VQ → VQ) (d : VDev) : VDev := set_vqueues (alter f (Z.to_nat (vv_qsel d)) (vv_queues d)) d.

(** Zero resets the device.  FEATURES_OK stays off unless the features are a subset of those offered,
    with version 1 among them. *)
Definition write_status (v : Z) (d : VDev) : VDev :=
  let log := vv_log d ++ [v] in
  if v =? 0 then mk_vdev (vv_features d) 0 0 0 0 0 ((λ q, mk_vq (vq_size q) (vq_notify q) 0xFFFF 0 0 0 0) <$> vv_queues d) log
  else
    let ok := (Z.land (vv_driver d) (vv_features d) =? vv_driver d) && Z.testbit (vv_driver d) 32 in
    let status := if ok then v else Z.ldiff v DeviceStatusFlags.FEATURES_OK in
    mk_vdev (vv_features d) (vv_fsel d) (vv_dsel d) (vv_driver d) status (vv_qsel d) (vv_queues d) log.

Definition vdev_write (r : CommonReg) (v : Z) (d : VDev) : VDev :=
  match r with
  | DeviceFeatureSelect => mk_vdev (vv_features d) v (vv_dsel d) (vv_driver d) (vv_status d) (vv_qsel d) (vv_queues d) (vv_log d)
  | DriverFeatureSelect => mk_vdev (vv_features d) (vv_fsel d) v (vv_driver d) (vv_status d) (vv_qsel d) (vv_queues d) (vv_log d)
  | DriverFeature => mk_vdev (vv_features d) (vv_fsel d) (vv_dsel d) (set_window (vv_dsel d) v (vv_driver d)) (vv_status d) (vv_qsel d) (vv_queues d) (vv_log d)
  | DeviceStatus => write_status v d
  | QueueSelect => mk_vdev (vv_features d) (vv_fsel d) (vv_dsel d) (vv_driver d) (vv_status d) v (vv_queues d) (vv_log d)
  | QueueSizeReg => on_vq (λ q, mk_vq v (vq_notify q) (vq_vector q) (vq_enable q) (vq_desc q) (vq_driver q) (vq_device q)) d
  | QueueMsixVector => on_vq (λ q, mk_vq (vq_size q) (vq_notify q) v (vq_enable q) (vq_desc q) (vq_driver q) (vq_device q)) d
  | QueueEnable => on_vq (λ q, mk_vq (vq_size q) (vq_notify q) (vq_vector q) v (vq_desc q) (vq_driver q) (vq_device q)) d
  | QueueDesc => on_vq (λ q, mk_vq (vq_size q) (vq_notify q) (vq_vector q) (vq_enable q) v (vq_driver q) (vq_device q)) d
  | QueueDriver => on_vq (λ q, mk_vq (vq_size q) (vq_notify q) (vq_vector q) (vq_enable q) (vq_desc q) v (vq_device q)) d
  | QueueDevice => on_vq (λ q, mk_vq (vq_size q) (vq_notify q) (vq_vector q) (vq_enable q) (vq_desc q) (vq_driver q) v) d
  | DeviceFeature | QueueNotifyOff => d
  end.

#[export] Instance vdev_common : CommonCfg VDev := { cc_read r d := (vdev_read r d, d); cc_write := vdev_write }.

(** ** Features *)

Lemma feature_split f : 0 <= f → Z.shiftr f 5 = f / 32 ∧ Z.land f 31 = f mod 32 ∧ 32 * (f / 32) + f mod 32 = f ∧ 0 <= f mod 32 < 32.
Proof.
  intros Hf. rewrite Z.shiftr_div_pow2 by lia. change 31 with (Z.ones 5). rewrite Z.land_ones by lia. change (2 ^ 5) with 32.
  pose proof (Z.div_mod f 32). pose proof (Z.mod_pos_bound f 32). lia.
Qed.

Lemma feature_bit f : 0 <= f → as_u32 (Z.shiftl 1 (Z.land f 31)) = 2 ^ (f mod 32).
Proof.
  intros Hf. destruct (feature_split f Hf) as (_ & -> & _ & Hm). rewrite Z.shiftl_1_l. unfold as_u32. apply as_u_id. unfold u_range.
  split; [apply Z.pow_nonneg; lia|]. apply Z.pow_lt_mono_r; lia.
Qed.

Lemma window_bit sel x i : 0 <= sel → 0 <= i < 32 → Z.testbit (window sel x) i = Z.testbit x (32 * sel + i).
Proof. intros Hs Hi. unfold window, as_u32, as_u. rewrite Z.mod_pow2_bits_low by lia. rewrite Z.shiftr_spec by lia. f_equal. lia. Qed.

Lemma set_window_bit sel v x i : 0 <= sel → 0 <= i → Z.testbit (set_window sel v x) i = if decide (32 * sel <= i < 32 * sel + 32) then Z.testbit v (i - 32 * sel) else Z.testbit x i.
Proof.
  intros Hs Hi. unfold set_window. rewrite Z.lor_spec, Z.ldiff_spec. destruct (decide _) as [Hin|Hout].
  - rewrite !Z.shiftl_spec by lia. rewrite Z.ones_spec_low by lia. unfold as_u32, as_u. rewrite Z.mod_pow2_bits_low by lia. by rewrite andb_false_r.
  - destruct (decide (i < 32 * sel)).
    + rewrite !Z.shiftl_spec_low by lia. by rewrite andb_true_r, orb_false_r.
    + rewrite !Z.shiftl_spec by lia. rewrite Z.ones_spec_high by lia. unfold as_u32, as_u. rewrite Z.mod_pow2_bits_high by lia. by rewrite andb_true_r, orb_false_r.
Qed.

(** What the negotiation of features leaves alone. *)
Record same_dev (d d' : VDev) : Prop := {
  sd_features : vv_features d' = vv_features d;
  sd_status : vv_status d' = vv_status d;
  sd_qsel : vv_qsel d' = vv_qsel d;
  sd_queues : vv_queues d' = vv_queues d;
  sd_log : vv_log d' = vv_log d;
}.

Lemma same_dev_trans d1 d2 d3 : same_dev d1 d2 → same_dev d2 d3 → same_dev d1 d3.
Proof. intros [] []. split; congruence. Qed.

Abbreviation VT := (StandardTransport VDev).

(** Checking looks at the bit of the feature, acknowledging sets it. *)
Lemma check_feature_ok (s : VT) f :
  0 <= f → ∃ d', check_device_feature f s = (Ok (Z.testbit (vv_features (st_common s)) f), set_common d' s) ∧ same_dev (st_common s) d' ∧ vv_driver d' = vv_driver (st_common s).
Proof.
  intros Hf. destruct (feature_split f Hf) as (Hs & Hl & Hx & Hm). exists (vdev_write DeviceFeatureSelect (f / 32) (st_common s)).
  split; [|by split]. unfold check_device_feature, mbind, prog_bind. rewrite Hs. erewrite bind_Ok by reflexivity. erewrite bind_Ok by reflexivity.
  rewrite feature_bit by done. cbn [cc_read cc_write vdev_common vdev_read vv_fsel vdev_write vv_features st_common set_common].
  rewrite land_pow2_eqb_0, negb_involutive, window_bit by lia. rewrite Hx. by destruct s.
Qed.

Lemma ack_feature_ok (s : VT) f :
  0 <= f → ∃ d', ack_driver_feature f s = (Ok tt, set_common d' s) ∧ same_dev (st_common s) d' ∧
    ∀ i, 0 <= i → Z.testbit (vv_driver d') i = Z.testbit (vv_driver (st_common s)) i || bool_decide (i = f).
Proof.
  intros Hf. destruct (feature_split f Hf) as (Hs & Hl & Hx & Hm). unfold ack_driver_feature, mbind, prog_bind. rewrite Hs. erewrite bind_Ok by reflexivity. erewrite bind_Ok by reflexivity.
  eexists. split; [by destruct s|]. split; [by split|]. intros i Hi. rewrite feature_bit by done. cbn [cc_read cc_write vdev_common vdev_read vv_dsel vdev_write vv_driver st_common set_common].
  rewrite set_window_bit by lia. destruct (decide _) as [Hin|Hout].
  - rewrite Z.lor_spec, window_bit by lia. f_equal; [f_equal; lia|]. destruct (decide (i = f)) as [->|Hne].
    + rewrite bool_decide_eq_true_2 by done. replace (f - 32 * (f / 32)) with (f mod 32) by lia. apply Z.pow2_bits_true. lia.
    + rewrite bool_decide_eq_false_2 by done. apply Z.pow2_bits_false. lia.
  - rewrite bool_decide_eq_false_2 by lia. by rewrite orb_false_r.
Qed.

Lemma ack_features_ok fs : ∀ s : VT,
  Forall (λ f, 0 <= f) fs → ∃ d', ack_features fs s = (Ok tt, set_common d' s) ∧ same_dev (st_common s) d' ∧
    ∀ i, 0 <= i → Z.testbit (vv_driver d') i = Z.testbit (vv_driver (st_common s)) i || (bool_decide (i ∈ fs) && Z.testbit (vv_features (st_common s)) i).
Proof.
  induction fs as [|f fs IH]; intros s Hfs; cbn [ack_features].
  { exists (st_common s). split; [by destruct s|]. split; [by split|]. intros i _. rewrite bool_decide_eq_false_2 by set_solver. by rewrite orb_false_r. }
  apply Forall_cons in Hfs as [Hf Hfs]. destruct (check_feature_ok s f Hf) as (d1 & E1 & S1 & D1). unfold mbind, prog_bind. rewrite (bind_Ok _ _ _ _ _ E1).
  assert (Hstep : ∃ d2, ack_if (Z.testbit (vv_features (st_common s)) f) f (set_common d1 s) = (Ok tt, set_common d2 s) ∧ same_dev (st_common s) d2 ∧
    ∀ i, 0 <= i → Z.testbit (vv_driver d2) i = Z.testbit (vv_driver (st_common s)) i || (bool_decide (i = f) && Z.testbit (vv_features (st_common s)) i)).
  { unfold ack_if. destruct (Z.testbit (vv_features (st_common s)) f) eqn:Eb.
    - destruct (ack_feature_ok (set_common d1 s) f Hf) as (d2 & E2 & S2 & D2). exists d2. split; [exact E2|]. split; [by eapply same_dev_trans|].
      intros i Hi. rewrite D2 by done. cbn [st_common set_common]. rewrite D1. destruct (bool_decide (i = f)) eqn:Ei; [|done]. apply bool_decide_eq_true in Ei. subst. by rewrite Eb.
    - exists d1. split; [done|]. split; [done|]. intros i Hi. rewrite D1. destruct (bool_decide (i = f)) eqn:Ei; [|by rewrite orb_false_r]. apply bool_decide_eq_true in Ei. subst. by rewrite Eb, orb_false_r. }
  destruct Hstep as (d2 & E2 & S2 & D2). rewrite (bind_Ok _ _ _ _ _ E2). destruct (IH (set_common d2 s) Hfs) as (d3 & E3 & S3 & D3).
  exists d3. split; [exact E3|]. split; [by eapply same_dev_trans|]. intros i Hi. rewrite D3 by done. cbn [st_common set_common]. rewrite D2, (sd_features _ _ S2) by done.
  rewrite <- orb_assoc, <- andb_orb_distrib_l. do 2 f_equal. apply eq_bool_prop_intro. rewrite orb_True, !bool_decide_spec. set_solver.
Qed.

(** ** Queues *)

Lemma next_multiple_ge `{Platform} x : 0 < x → x <= next_multiple_of x PAGE_SIZE.
Proof.
  intros Hx. pose proof page_size_pow2 as E. pose proof page_shift_range. assert (0 < PAGE_SIZE) by (rewrite E; apply Z.pow_pos_nonneg; lia).
  unfold next_multiple_of. pose proof (Z.div_mod x PAGE_SIZE). pose proof (Z.mod_pos_bound x PAGE_SIZE). case_match; nia.
Qed.

Lemma alter_here {A : Type} (f : A → A) i (l : list A) : alter f i l !! i = f <$> l !! i.
Proof. rewrite list_lookup_alter. by rewrite decide_True. Qed.

Lemma alter_insert {A : Type} (f : A → A) i (l : list A) x : l !! i = Some x → alter f i l = <[i := f x]> l.
Proof.
  intros Hx. apply list_eq. intros j. destruct (decide (j = i)) as [->|Hne].
  - rewrite alter_here, Hx, list_lookup_insert_eq; [done|by eapply lookup_lt_Some].
  - rewrite list_lookup_alter_ne, list_lookup_insert_ne by done. done.
Qed.

(** A queue of the device: a size that is a power of two. *)
Definition vq_ok (q : VQ) : Prop := ∃ k, 0 <= k <= 15 ∧ vq_size q = 2 ^ k.

(** The queue the driver gets for queue [i] of the device: memory of its own between [lo] and [hi],
    enabled with exactly these addresses. *)
Record queue_set (notify mul lo hi i : Z) (h : QueueHandle) (q q' : VQ) : Prop := {
  qs_queue : qh_queue h = queue_new i (Z.to_nat (vq_size q));
  qs_regs : q' = mk_vq (vq_size q) (vq_notify q) MSIX_PRIMARY_VECTOR 1 (qh_desc h) (qh_avail h) (qh_used h);
  qs_bell : qh_bell h = notify + as_u32 (mul * vq_notify q);
  qs_desc : lo <= qh_desc h ∧ qh_desc h + 16 * vq_size q <= qh_avail h;
  qs_avail : qh_avail h + 6 + 2 * vq_size q <= qh_used h;
  qs_used : qh_used h + 6 + 8 * vq_size q <= hi;
}.

Lemma setup_queue_ok `{Platform} (s : VT) q :
  0 <= st_queue_index s < 65535 → vv_queues (st_common s) !! Z.to_nat (st_queue_index s) = Some q → vq_ok q →
  ∃ h s' q', setup_queue MSIX_PRIMARY_VECTOR s = (Ok h, s') ∧
    queue_set (st_notify s) (st_notify_mul s) (st_dma_top s) (st_dma_top s') (st_queue_index s) h q q' ∧
    vv_queues (st_common s') = <[Z.to_nat (st_queue_index s) := q']> (vv_queues (st_common s)) ∧
    st_queue_index s' = st_queue_index s + 1 ∧ st_notify s' = st_notify s ∧ st_notify_mul s' = st_notify_mul s ∧
    vv_features (st_common s') = vv_features (st_common s) ∧ vv_driver (st_common s') = vv_driver (st_common s) ∧
    vv_status (st_common s') = vv_status (st_common s) ∧ vv_log (st_common s') = vv_log (st_common s).
Proof.
  intros Hi Hq (k & Hk & Hsz). assert (Hs : 0 < vq_size q <= 32768).
  { rewrite Hsz. split; [apply Z.pow_pos_nonneg; lia|]. change 32768 with (2 ^ 15). apply Z.pow_le_mono_r; lia. }
  pose proof (queue_part_sizes_sufficient (vq_size q) ltac:(lia)) as Hp. destruct (queue_part_sizes (vq_size q)) as [[[d0 a0] u0]|] eqn:Ep; [|by destruct (Hp k ltac:(lia))].
  destruct Hp as (_ & _ & _ & _ & _ & _ & Hu & Hau). destruct s as [[ft fsel dsel drv stt qsel qs log] nt mul idx top]. cbn [st_queue_index st_common vv_queues] in *.
  assert (Hlt : (Z.to_nat idx < length qs)%nat) by (by eapply lookup_lt_Some).
  unfold setup_queue, tassert, reg_get, reg_set, vring_new, dma_pages, modify, gets, mbind, prog_bind, p_bind, unwrap.
  cbn -[alter lookup Z.mul Z.add as_u16 as_u32 next_multiple_of queue_new queue_part_sizes Z.to_nat Z.max]. rewrite Hq.
  cbn -[alter lookup Z.mul Z.add as_u16 as_u32 next_multiple_of queue_new queue_part_sizes Z.to_nat Z.max]. rewrite Ep.
  cbn -[alter lookup Z.mul Z.add as_u16 as_u32 next_multiple_of queue_new queue_part_sizes Z.to_nat Z.max].
  rewrite !alter_here. rewrite Hq. cbn -[alter lookup Z.mul Z.add as_u16 as_u32 next_multiple_of queue_new Z.to_nat Z.max].
  do 3 eexists. split; [reflexivity|].
  pose proof (next_multiple_ge (Z.max 1 (size_of_Descriptor * vq_size q)) ltac:(lia)). pose proof (next_multiple_ge (Z.max 1 u0) ltac:(lia)). unfold size_of_Descriptor in *.
  split; [split; try reflexivity; cbn -[Z.mul Z.add next_multiple_of Z.max]; lia|]. split; [|split; [unfold as_u16; cbn [st_queue_index set_common]; apply as_u_id; unfold u_range; lia|done]].
  cbn -[alter lookup Z.mul Z.add next_multiple_of Z.to_nat Z.max]. rewrite (alter_insert _ _ qs q Hq).
  assert (Hins : ∀ (f : VQ → VQ) x, alter f (Z.to_nat idx) (<[Z.to_nat idx := x]> qs) = <[Z.to_nat idx := f x]> qs).
  { intros f x. rewrite (alter_insert f _ _ x) by (by apply list_lookup_insert_eq). apply list_insert_insert_eq. }
  by rewrite !Hins.
Qed.

(** Queue [i + j] of the device for each of [n] queues, each in memory above that of the one before. *)
Definition queues_set (notify mul : Z) (tops : nat → Z) (i : Z) (n : nat) (hs : list QueueHandle) (vqs vqs' : list VQ) : Prop :=
  ∀ j, (j < n)%nat → ∃ h q q', hs !! j = Some h ∧ vqs !! (Z.to_nat i + j)%nat = Some q ∧ vqs' !! (Z.to_nat i + j)%nat = Some q' ∧
    queue_set notify mul (tops j) (tops (S j)) (i + Z.of_nat j) h q q'.

Lemma setup_queues_ok `{Platform} n : ∀ s : VT,
  0 <= st_queue_index s → st_queue_index s + Z.of_nat n <= 65535 →
  (∀ j, (j < n)%nat → ∃ q, vv_queues (st_common s) !! (Z.to_nat (st_queue_index s) + j)%nat = Some q ∧ vq_ok q) →
  ∃ hs s' tops, setup_queues n s = (Ok hs, s') ∧ length hs = n ∧ tops 0%nat = st_dma_top s ∧
    queues_set (st_notify s) (st_notify_mul s) tops (st_queue_index s) n hs (vv_queues (st_common s)) (vv_queues (st_common s')) ∧
    (∀ j, (j < Z.to_nat (st_queue_index s))%nat → vv_queues (st_common s') !! j = vv_queues (st_common s) !! j) ∧
    vv_features (st_common s') = vv_features (st_common s) ∧ vv_driver (st_common s') = vv_driver (st_common s) ∧
    vv_status (st_common s') = vv_status (st_common s) ∧ vv_log (st_common s') = vv_log (st_common s).
Proof.
  induction n as [|n IH]; intros s H0 Hn Hq; cbn [setup_queues].
  { exists [], s, (λ _, st_dma_top s). repeat split; try done. intros j Hj. lia. }
  destruct (Hq 0%nat ltac:(lia)) as (q & Eq & Hqok). rewrite Nat.add_0_r in Eq.
  destruct (setup_queue_ok s q ltac:(lia) Eq Hqok) as (h & s1 & q' & E1 & Hs1 & Hvq1 & Hi1 & Hn1 & Hm1 & Hf1 & Hd1 & Hst1 & Hl1).
  set (i := Z.to_nat (st_queue_index s)) in *. assert (Hi : Z.to_nat (st_queue_index s1) = S i) by lia.
  assert (Hlt : (i < length (vv_queues (st_common s)))%nat) by (by eapply lookup_lt_Some).
  destruct (IH s1) as (hs & s' & tops & E2 & Hlen & Htop & Hset & Hbelow & Hf2 & Hd2 & Hst2 & Hl2); [lia|lia| |].
  { intros j Hj. rewrite Hi, Hvq1. destruct (Hq (S j) ltac:(lia)) as (q2 & Eq2 & Hok2). exists q2. split; [|done].
    rewrite list_lookup_insert_ne by lia. rewrite <- Eq2. f_equal. lia. }
  exists (h :: hs), s', (λ j, match j with O => st_dma_top s | S j => tops j end). unfold mbind, prog_bind. rewrite (bind_Ok _ _ _ _ _ E1), (bind_Ok _ _ _ _ _ E2).
  split; [reflexivity|]. split; [cbn; lia|]. split; [done|]. split; [|split; [|split_and!; congruence]].
  - intros [|j] Hj.
    + exists h, q, q'. change (Z.of_nat 0) with 0. rewrite !Nat.add_0_r, Z.add_0_r. cbv beta iota. rewrite Htop. split; [done|]. split; [done|]. split; [|exact Hs1].
      rewrite Hbelow by lia. rewrite Hvq1. by apply list_lookup_insert_eq.
    + destruct (Hset j ltac:(lia)) as (h2 & q2 & q2' & Eh2 & Eq2 & Eq2' & Hqs2). rewrite Hi in Eq2, Eq2'. exists h2, q2, q2'. split; [done|].
      fold i. replace (i + S j)%nat with (S i + j)%nat by lia. split; [|split; [done|]].
      * rewrite Hvq1, list_lookup_insert_ne in Eq2 by lia. done.
      * rewrite Hn1, Hm1, Hi1 in Hqs2. by replace (st_queue_index s + Z.of_nat (S j)) with (st_queue_index s + 1 + Z.of_nat j) by lia.
  - intros j Hj. rewrite Hbelow by lia. rewrite Hvq1. by apply list_lookup_insert_ne; lia.
Qed.

(** ** The start *)

(** Features that were acknowledged are offered, version 1 among them. *)
Definition agreed (d : VDev) : Prop := Z.land (vv_driver d) (vv_features d) = vv_driver d ∧ Z.testbit (vv_driver d) 32 = true.

Definition with_status (v : Z) (d : VDev) : VDev := mk_vdev (vv_features d) (vv_fsel d) (vv_dsel d) (vv_driver d) v (vv_qsel d) (vv_queues d) (vv_log d ++ [v]).

Lemma insert_status_ok (s : VT) v w :
  Z.lor (vv_status (st_common s)) v = w → w ≠ 0 → Z.ldiff w 8 = w ∨ agreed (st_common s) → insert_status v s = (Ok tt, set_common (with_status w (st_common s)) s).
Proof.
  intros <- Hw Hc. unfold insert_status, mbind, prog_bind. erewrite bind_Ok by reflexivity. destruct s as [[ft fsel dsel drv stt qsel qs log] nt mul idx top].
  unfold reg_set, modify. cbn [cc_read cc_write vdev_common vdev_read vdev_write st_common set_common vv_status]. unfold write_status, with_status, agreed in *.
  cbn [st_common vv_status vv_driver vv_features vv_fsel vv_dsel vv_qsel vv_queues vv_log] in *. rewrite (proj2 (Z.eqb_neq _ _)) by done. do 3 f_equal.
  change DeviceStatusFlags.FEATURES_OK with 8. destruct Hc as [Hc|[Hl Ht]]; [rewrite Hc; by case_match|]. by rewrite Hl, Ht, Z.eqb_refl.
Qed.

Lemma agreed_bits d : (∀ i, 0 <= i → Z.testbit (vv_driver d) i = true → Z.testbit (vv_features d) i = true) → Z.testbit (vv_driver d) 32 = true → agreed d.
Proof.
  intros Hb Ht. split; [|done]. apply Z.bits_inj'. intros i Hi. rewrite Z.land_spec. specialize (Hb i Hi). destruct (Z.testbit (vv_driver d) i); [by rewrite Hb|done].
Qed.

(** The features a driver asks for, and version 1. *)
Lemma finalize_ok (s : VT) :
  (∀ i, 0 <= i → Z.testbit (vv_driver (st_common s)) i = true → Z.testbit (vv_features (st_common s)) i = true) → Z.testbit (vv_features (st_common s)) 32 = true →
  vv_status (st_common s) = 3 →
  ∃ d', finalize_features s = (Ok tt, set_common d' s) ∧ vv_features d' = vv_features (st_common s) ∧ vv_queues d' = vv_queues (st_common s) ∧
    vv_status d' = 11 ∧ vv_log d' = vv_log (st_common s) ++ [11] ∧ agreed d' ∧
    ∀ i, 0 <= i → Z.testbit (vv_driver d') i = Z.testbit (vv_driver (st_common s)) i || bool_decide (i = 32).
Proof.
  intros Hsub H32 Hst. destruct (check_feature_ok s 32 ltac:(lia)) as (d1 & E1 & S1 & D1). rewrite H32 in E1.
  destruct (ack_feature_ok (set_common d1 s) 32 ltac:(lia)) as (d2 & E2 & S2 & D2). cbn [st_common set_common] in *.
  assert (Hd : ∀ i, 0 <= i → Z.testbit (vv_driver d2) i = Z.testbit (vv_driver (st_common s)) i || bool_decide (i = 32)) by (intros i Hi; rewrite D2, D1 by done; done).
  assert (Hf : vv_features d2 = vv_features (st_common s)) by (rewrite (sd_features _ _ S2); apply S1).
  assert (Ha : agreed d2).
  { apply agreed_bits; [|by rewrite Hd, bool_decide_eq_true_2, orb_true_r]. intros i Hi. rewrite Hd, Hf by done. intros [?|Hx%bool_decide_eq_true]%orb_true_iff; [by apply Hsub|by subst]. }
  assert (Hs2 : vv_status d2 = 3) by (rewrite (sd_status _ _ S2), (sd_status _ _ S1); done).
  exists (with_status 11 d2). split.
  - unfold finalize_features, mbind, prog_bind. rewrite (bind_Ok _ _ _ _ _ E1). erewrite bind_Ok by reflexivity. rewrite (bind_Ok _ _ _ _ _ E2).
    erewrite bind_Ok by reflexivity. cbn [cc_read vdev_common vdev_read st_common set_common]. rewrite Hs2.
    change (Z.lor 3 DeviceStatusFlags.FEATURES_OK) with 11. erewrite bind_Ok by reflexivity. erewrite bind_Ok by reflexivity.
    unfold reg_set, modify. cbn [cc_read cc_write vdev_common vdev_read vdev_write st_common set_common]. unfold write_status. destruct Ha as [Hl Ht]. rewrite Hl, Z.eqb_refl, Ht. reflexivity.
  - cbn [with_status vv_features vv_queues vv_status vv_log vv_driver]. split_and!; try done; [rewrite (sd_queues _ _ S2); apply S1|].
    by rewrite (sd_log _ _ S2), (sd_log _ _ S1).
Qed.

(** The start of a driver on a device that offers version 1 and has queues for it: it returns, the
    status went through the states of the specification in order, the features acknowledged are
    version 1 and those both sides know, and every queue is enabled with memory of its own, ready
    to be used. *)
Theorem virtio_start `{Platform} (s : VT) features n :
  st_queue_index s = 0 → Z.of_nat n <= 65535 → Forall (λ f, 0 <= f) features → Z.testbit (vv_features (st_common s)) 32 = true →
  (∀ j, (j < n)%nat → ∃ q, vv_queues (st_common s) !! j = Some q ∧ vq_ok q) →
  ∃ hs s' tops, virtio_start_driver features n s = (Ok hs, s') ∧ length hs = n ∧
    vv_log (st_common s') = vv_log (st_common s) ++ [0; 1; 3; 11; 15] ∧ vv_status (st_common s') = 15 ∧
    (∀ i, 0 <= i → Z.testbit (vv_driver (st_common s')) i = bool_decide (i = 32 ∨ i ∈ features ∧ Z.testbit (vv_features (st_common s)) i = true)) ∧
    queues_set (st_notify s) (st_notify_mul s) tops 0 n hs ((λ q, mk_vq (vq_size q) (vq_notify q) 0xFFFF 0 0 0 0) <$> vv_queues (st_common s)) (vv_queues (st_common s')) ∧
    Forall (λ h, queue_ok (qh_queue h) []) hs.
Proof.
  intros Hi Hn Hfs H32 Hq. destruct s as [d nt mul idx top]. cbn [st_queue_index st_common st_notify st_notify_mul] in *. subst idx.
  set (d1 := write_status 0 d). set (s1 := mk_transport d1 nt mul 0 top). unfold virtio_start_driver, mbind, prog_bind.
  rewrite (bind_Ok _ _ _ tt s1) by reflexivity.
  set (s2 := set_common (with_status 1 d1) s1). set (s3 := set_common (with_status 3 (with_status 1 d1)) s1).
  rewrite (bind_Ok _ _ _ tt s3).
  2:{ unfold probe_reinit, mbind, prog_bind. rewrite (bind_Ok _ _ s1 tt s2) by (apply (insert_status_ok s1 1 1); [done|done|by left]).
      apply (insert_status_ok s2 2 3); [done|done|by left]. }
  destruct (ack_features_ok features s3 Hfs) as (d4 & E4 & S4 & D4). rewrite (bind_Ok _ _ _ _ _ E4).
  assert (Hbit : ∀ i, 0 <= i → Z.testbit (vv_driver d4) i = bool_decide (i ∈ features) && Z.testbit (vv_features d) i).
  { intros i H0. rewrite D4 by done. cbn. by rewrite Z.testbit_0_l. }
  destruct (finalize_ok (set_common d4 s3)) as (d5 & E5 & F5 & Q5 & St5 & L5 & A5 & D5).
  { cbn [st_common set_common]. intros i H0. rewrite Hbit, (sd_features _ _ S4) by done. intros [_ ?]%andb_true_iff. done. }
  { cbn [st_common set_common]. by rewrite (sd_features _ _ S4). }
  { cbn [st_common set_common]. by rewrite (sd_status _ _ S4). }
  rewrite (bind_Ok _ _ _ _ _ E5). cbn [st_common set_common] in *.
  assert (Hvq : vv_queues d5 = (λ q, mk_vq (vq_size q) (vq_notify q) 0xFFFF 0 0 0 0) <$> vv_queues d) by (rewrite Q5, (sd_queues _ _ S4); done).
  destruct (setup_queues_ok n (set_common d5 (set_common d4 s3))) as (hs & s6 & tops & E6 & Hlen & _ & Hset & _ & F6 & D6 & St6 & L6); [cbn; lia|cbn; lia| |].
  { intros j Hj. destruct (Hq j Hj) as (q & Eq & Hok). exists (mk_vq (vq_size q) (vq_notify q) 0xFFFF 0 0 0 0). split; [|exact Hok].
    change (vv_queues d5 !! j = Some (mk_vq (vq_size q) (vq_notify q) 0xFFFF 0 0 0 0)). by rewrite Hvq, list_lookup_fmap, Eq. }
  rewrite (bind_Ok _ _ _ _ _ E6). cbn [st_common set_common] in *.
  assert (Hrun : run_device s6 = (Ok tt, set_common (with_status 15 (st_common s6)) s6)).
  { apply insert_status_ok; [by rewrite St6, St5|done|]. right. unfold agreed. rewrite D6, F6. exact A5. }
  rewrite (bind_Ok _ _ _ _ _ Hrun). exists hs, (set_common (with_status 15 (st_common s6)) s6), tops. split; [reflexivity|]. split; [done|].
  cbn [st_common set_common with_status vv_log vv_status vv_driver vv_queues]. split; [rewrite L6, L5, (sd_log _ _ S4); cbn; by rewrite <- !app_assoc|]. split; [done|]. split; [|split].
  - intros i H0. rewrite D6, D5, Hbit by done. apply eq_bool_prop_intro. rewrite orb_True, andb_True, !bool_decide_spec, Is_true_true. naive_solver.
  - rewrite <- Hvq. exact Hset.
  - apply Forall_lookup. intros j h Hh. assert (Hj : (j < n)%nat) by (rewrite <- Hlen; by eapply lookup_lt_Some).
    destruct (Hset j Hj) as (h' & q & q' & Eh & Eq & _ & [Eqq _ _ _ _ _]). assert (h' = h) as -> by congruence. rewrite Eqq. apply queue_new_ok.
    change (vv_queues d5 !! j = Some q) in Eq. rewrite Hvq, list_lookup_fmap in Eq. destruct (Hq j Hj) as (q0 & Eq0 & (k & Hk & Hs)). rewrite Eq0 in Eq. cbn in Eq. injection Eq as <-. cbn [vq_size].
    rewrite Hs. assert (0 < 2 ^ k) by (apply Z.pow_pos_nonneg; lia). assert (2 ^ k <= 2 ^ 15) by (apply Z.pow_le_mono_r; lia). change (2 ^ 15) with 32768 in *. lia.
Qed.

Definition demo_vdev : VDev := mk_vdev (2 ^ 32 + 2 ^ 5 + 2 ^ 28) 0 0 7 0x40 3 [mk_vq 256 0 9 1 8 8 8; mk_vq 64 1 9 0 0 0 0] [].

Example virtio_start_demo :
  let r := virtio_start_driver (HP := demo_platform) [5; 7] 2 (transport_new demo_vdev 0xF000 4 0x100000) in
  match r.1 with Ok hs => qh_bell <$> hs | _ => [] end = [0xF000; 0xF004] ∧ vv_driver (st_common r.2) = 2 ^ 32 + 2 ^ 5 ∧ vv_log (st_common r.2) = [0; 1; 3; 11; 15].
Proof. vm_compute. done. Qed.
