(* ===== verification/VirtioNet.v ===== *)
(** The virtio network driver (net/virtio-netd/src/scheme.rs, main.rs) on the virtqueue of
    [VirtioQueue].

    Every descriptor of the receive queue gets a buffer at the start; [rx_deliver] is what a device
    after the specification does with a packet that arrives.

    [vnet_mailbox] says what the receive side is: a box for one packet, where a new packet replaces
    one that was not read, and which can be filled as often as the queue has descriptors, because
    buffers are never given back to the device.  [vnet_transmit] is the other direction. *)

From S2P Require Import Prelude Sgl VirtioQueue NetScheme.

Definition HEADER_SIZE : Z := 12.
Definition MAX_BUFFER_LEN : Z := 65535.
Definition VIRTIO_NET_F_MAC : Z := 5.

(** [VirtHeader], [#[repr(C)]]. *)
Record VirtHeader := mk_vheader { vh_flags : Z; vh_gso_type : Z; vh_hdr_len : Z; vh_gso_size : Z; vh_csum_start : Z; vh_csum_offset : Z; vh_num_buffers : Z }.
Definition vheader_bytes (h : VirtHeader) : list Z :=
  le_bytes 1 (vh_flags h) ++ le_bytes 1 (vh_gso_type h) ++ le_bytes 2 (vh_hdr_len h) ++ le_bytes 2 (vh_gso_size h) ++
  le_bytes 2 (vh_csum_start h) ++ le_bytes 2 (vh_csum_offset h) ++ le_bytes 2 (vh_num_buffers h).
Definition vheader_zero : VirtHeader := mk_vheader 0 0 0 0 0 0 0.

(** What the device does to the transmit queue between two polls. *)
Class NetTx (H : Type) := { nt_run : Queue → gmap Z (list Z) → H → Queue * H }.

(** [vn_mem] is the DMA memory by physical address, taken from [vn_top] on. *)
Record VirtioNet (H : Type) := mk_vnet {
  vn_mac : list Z; vn_rx : Queue; vn_rx_buffers : list Z; vn_tx : Queue; vn_recv_head : Z;
  vn_mem : gmap Z (list Z); vn_top : Z; vn_dev : H;
}.
Arguments mk_vnet {H} _ _ _ _ _ _ _ _.
Arguments vn_mac {H} _.
Arguments vn_rx {H} _.
Arguments vn_rx_buffers {H} _.
Arguments vn_tx {H} _.
Arguments vn_recv_head {H} _.
Arguments vn_mem {H} _.
Arguments vn_top {H} _.
Arguments vn_dev {H} _.

Section driver.
Context {H : Type} `{HT : NetTx H}.

Abbreviation VN := (VirtioNet H).
Abbreviation np := (prog VN errno).

Definition set_rx (q : Queue) (s : VN) : VN := mk_vnet (vn_mac s) q (vn_rx_buffers s) (vn_tx s) (vn_recv_head s) (vn_mem s) (vn_top s) (vn_dev s).
Definition set_tx (q : Queue) (s : VN) : VN := mk_vnet (vn_mac s) (vn_rx s) (vn_rx_buffers s) q (vn_recv_head s) (vn_mem s) (vn_top s) (vn_dev s).
Definition set_memory (m : gmap Z (list Z)) (top : Z) (s : VN) : VN := mk_vnet (vn_mac s) (vn_rx s) (vn_rx_buffers s) (vn_tx s) (vn_recv_head s) m top (vn_dev s).

Definition on_rx {B : Type} (m : prog Queue errno B) : np B := λ s, let '(r, q) := m (vn_rx s) in (r, set_rx q s).
Definition on_tx {B : Type} (m : prog Queue errno B) : np B := λ s, let '(r, q) := m (vn_tx s) in (r, set_tx q s).

Definition net_dma (data : list Z) : np Z := λ s,
  (Ok (vn_top s), set_memory (<[vn_top s := data]> (vn_mem s)) (vn_top s + 4096 * (1 + Z.of_nat (length data) / 4096)) s).

(** One buffer for the device to write a packet to. *)
Definition vnet_rx_buffer : np unit :=
  phys ← net_dma (replicate (Z.to_nat MAX_BUFFER_LEN) 0);
  _ ← modify (λ s, mk_vnet (vn_mac s) (vn_rx s) (vn_rx_buffers s ++ [phys]) (vn_tx s) (vn_recv_head s) (vn_mem s) (vn_top s) (vn_dev s));
  chain ← unwrap (build (chain (buffer_flags DescriptorFlags.WRITE_ONLY (buffer_new_unsized phys 1 MAX_BUFFER_LEN)) chain_new));
  _ ← on_rx (send chain);
  mret tt.

Fixpoint fill_rx (n : nat) : np unit :=
  match n with O => mret tt | S n => _ ← vnet_rx_buffer; fill_rx n end.

(** [VirtioNet::new]. *)
Definition vnet_new (mac : list Z) (rx tx : Queue) (mem : gmap Z (list Z)) (top : Z) (dev : H) : res errno unit * VN :=
  fill_rx (length (descriptor rx)) (mk_vnet mac rx [] tx 0 mem top dev).

(** The packet copied to the start of a buffer of [len]; [[]] when there is none.  Slices out of
    range panic. *)
Definition try_recv (len : nat) : np (list Z) :=
  head ← gets (λ s, used_head_index (vn_rx s));
  recv_head ← gets vn_recv_head;
  if recv_head =? head then mret []
  else
    element ← on_rx (used_at (as_usize (head - 1)));
    let '(descriptor_idx, written) := element in
    let payload_size := as_usize (written - HEADER_SIZE) in
    phys ← gets (λ s, vn_rx_buffers s !! Z.to_nat descriptor_idx);
    phys ← unwrap phys;
    buffer ← gets (λ s, vn_mem s !! phys);
    buffer ← unwrap buffer;
    if (2 ^ 64 <=? HEADER_SIZE + payload_size) || (Z.of_nat (length buffer) <? HEADER_SIZE + payload_size) || (Z.of_nat len <? payload_size) then panic
    else
      _ ← modify (λ s, mk_vnet (vn_mac s) (vn_rx s) (vn_rx_buffers s) (vn_tx s) (used_head_index (vn_rx s)) (vn_mem s) (vn_top s) (vn_dev s));
      mret (slice (Z.to_nat HEADER_SIZE) (Z.to_nat payload_size) buffer).

Definition vnet_read_packet (len : nat) : np (option (list Z)) :=
  bytes ← try_recv len;
  mret (match bytes with [] => None | _ => Some bytes end).

Definition vnet_available (s : VN) : Z := as_u16 (used_head_index (vn_rx s) - vn_recv_head s).

Definition net_run : np unit := λ s,
  let '(q, d) := nt_run (vn_tx s) (vn_mem s) (vn_dev s) in
  (Ok tt, mk_vnet (vn_mac s) (vn_rx s) (vn_rx_buffers s) q (vn_recv_head s) (vn_mem s) (vn_top s) d).

(** [block_on] of a request of the transmit queue. *)
Fixpoint net_block_on (fuel : nat) (first : Z) : np Z :=
  match fuel with
  | O => throw (EOther (-1))
  | S fuel =>
      r ← on_tx (poll first);
      match r with Some written => mret written | None => _ ← net_run; net_block_on fuel first end
  end.

Definition vnet_write_packet (fuel : nat) (buffer : list Z) : np Z :=
  top ← gets vn_top;
  header ← net_dma (vheader_bytes vheader_zero);
  payload ← net_dma buffer;
  chain ← unwrap (build (chain (buffer_new_unsized payload 1 (Z.of_nat (length buffer))) (chain (buffer_new header HEADER_SIZE) chain_new)));
  first ← on_tx (send chain);
  _ ← net_block_on fuel first;
  _ ← modify (λ s, set_memory (delete header (delete payload (vn_mem s))) top s);
  mret (Z.of_nat (length buffer)).

Definition vnet_adapter (fuel : nat) : NetworkAdapter VN := {|
  mac_address s := (vn_mac s, s);
  available_for_read s := (vnet_available s, s);
  read_packet := vnet_read_packet;
  write_packet := vnet_write_packet fuel;
|}.

End driver.

(** ** The receive side of the device *)

(** A packet that arrives goes to the next buffer of the available ring; [seen] counts those that
    were taken.  Without a buffer it is lost. *)
Definition rx_deliver {H : Type} (packet : list Z) (s : VirtioNet H) (seen : Z) : VirtioNet H * Z :=
  let q := vn_rx s in
  if avail_head q =? seen then (s, seen)
  else
    match first ← avail_elements q !! (Z.to_nat seen mod queue_size q)%nat; d ← entry (descriptor q) first; b ← vn_mem s !! d_address d; Some (first, d, b) with
    | Some (first, d, b) =>
        let data := vheader_bytes vheader_zero ++ packet in
        if Z.of_nat (length data) <=? d_size d then
          (mk_vnet (vn_mac s) (device_complete first (Z.of_nat (length data)) q) (vn_rx_buffers s) (vn_tx s) (vn_recv_head s)
             (<[d_address d := splice 0 data b]> (vn_mem s)) (vn_top s) (vn_dev s), as_u16 (seen + 1))
        else (s, seen)
    | None => (s, seen)
    end.

Inductive NetEvent : Type := NeArrive (packet : list Z) | NeRead (len : nat).

(** The results of the reads. *)
Fixpoint net_events {H : Type} (es : list NetEvent) (seen : Z) (s : VirtioNet H) : res errno (list (option (list Z))) :=
  match es with
  | [] => Ok []
  | NeArrive packet :: es => let '(s, seen) := rx_deliver packet s seen in net_events es seen s
  | NeRead len :: es =>
      match vnet_read_packet len s with
      | (Ok r, s) => match net_events es seen s with Ok rs => Ok (r :: rs) | e => e end
      | (Err e, _) => Err e
      | (Panic, _) => Panic
      end
  end.

(** A box for one packet that can be filled [uses] times.  A packet that does not fit a buffer of
    the device is dropped.  A read takes the packet out, without bytes there is nothing to answer
    with, and a reader's buffer that is too small panics. *)
Fixpoint mailbox (es : list NetEvent) (uses : nat) (box : option (list Z)) : res errno (list (option (list Z))) :=
  match es with
  | [] => Ok []
  | NeArrive packet :: es =>
      match uses with
      | O => mailbox es O box
      | S uses' => if HEADER_SIZE + Z.of_nat (length packet) <=? MAX_BUFFER_LEN then mailbox es uses' (Some packet) else mailbox es uses box
      end
  | NeRead len :: es =>
      match box with
      | Some packet =>
          if (len <? length packet)%nat then Panic
          else match mailbox es uses None with Ok rs => Ok (match packet with [] => None | _ => Some packet end :: rs) | e => e end
      | None => match mailbox es uses None with Ok rs => Ok (None :: rs) | e => e end
      end
  end.

(** ** The start *)

(** [send] of one buffer. *)
Lemma send_one b q d rest d0 :
  descriptor_stack q = d :: rest → entry (descriptor q) d = Some d0 → 0 <= d → u_range 16 d → (0 < queue_size q)%nat → length (avail_elements q) = queue_size q →
  ∃ q', send [b] q = (Ok d, q') ∧
    descriptor q' = <[Z.to_nat d := mk_descriptor (as_u64 (b_buffer b)) (as_u32 (b_size b)) (b_flags b) 0]> (descriptor q) ∧
    avail_elements q' = <[(Z.to_nat (avail_head q) mod queue_size q)%nat := d]> (avail_elements q) ∧ avail_head q' = as_u16 (avail_head q + 1) ∧
    descriptor_stack q' = rest ∧ queue_size q' = queue_size q ∧ used_head_index q' = used_head_index q ∧ used_elements q' = used_elements q.
Proof.
  intros Hst Hd H0 Hr Hqs Ha. assert (Hlt : (Z.to_nat d < length (descriptor q))%nat) by (unfold entry in Hd; by eapply lookup_lt_Some).
  assert (Hup : ∀ f q1 x, descriptor q1 = <[Z.to_nat d := x]> (descriptor q) → update_descriptor d f q1 = (Ok tt, set_descriptor (<[Z.to_nat d := f x]> (descriptor q)) q1)).
  { intros f q1 x Hq1. erewrite update_descriptor_eq; [|rewrite Hq1; unfold entry; by apply list_lookup_insert_eq]. rewrite Hq1, list_insert_insert_eq. done. }
  unfold send, mbind, prog_bind. cbn [send_loop]. unfold mbind, prog_bind.
  erewrite bind_Ok.
  2:{ erewrite bind_Ok by (unfold pop; rewrite Hst; reflexivity). erewrite bind_Ok by reflexivity.
      erewrite bind_Ok; [|apply update_descriptor_eq; exact Hd].
      erewrite bind_Ok; [|eapply Hup; reflexivity].
      erewrite bind_Ok; [|eapply Hup; reflexivity]. erewrite bind_Ok by reflexivity. reflexivity. }
  cbn [fst snd]. do 2 (erewrite bind_Ok by reflexivity). erewrite bind_Ok; [|eapply Hup; reflexivity]. erewrite bind_Ok by reflexivity.
  destruct (lookup_lt_is_Some_2 (avail_elements q) (Z.to_nat (avail_head q) mod queue_size q)%nat) as [e He]; [rewrite Ha; apply Nat.mod_upper_bound; lia|].
  erewrite bind_Ok.
  2:{ unfold set_available, mbind, prog_bind. do 2 (erewrite bind_Ok by reflexivity). cbn [queue_size set_descriptor set_stack]. rewrite decide_False by lia.
      erewrite bind_Ok; [reflexivity|]. cbn [avail_elements avail_head set_descriptor set_stack]. rewrite He. reflexivity. }
  erewrite bind_Ok by reflexivity. erewrite bind_Ok by reflexivity. eexists. split; [reflexivity|].
  cbn. unfold as_u16 at 1 2. rewrite as_u_id by done. done.
Qed.

Section receive.
Context {H : Type} `{HT : NetTx H} (base : Z) (n : nat).
Hypothesis Hbase : 0 <= base.
Hypothesis Htop : base + 65536 * Z.of_nat n < 2 ^ 63.
Hypothesis Hn : (0 < n)%nat ∧ Z.of_nat n <= 32768.

(** Where buffer [j] is. *)
Definition rx_addr (j : nat) : Z := base + 65536 * Z.of_nat j.

(** The first [i] buffers are with the device. *)
Record rx_filled (i : nat) (s : VirtioNet H) : Prop := {
  fl_size : queue_size (vn_rx s) = n;
  fl_desc_len : length (descriptor (vn_rx s)) = n;
  fl_avail_len : length (avail_elements (vn_rx s)) = n;
  fl_used_len : length (used_elements (vn_rx s)) = n;
  fl_desc : ∀ j, (j < i)%nat → descriptor (vn_rx s) !! j = Some (mk_descriptor (rx_addr j) 65535 2 0);
  fl_avail : ∀ j, (j < i)%nat → avail_elements (vn_rx s) !! j = Some (Z.of_nat j);
  fl_head : avail_head (vn_rx s) = Z.of_nat i;
  fl_buffers : vn_rx_buffers s = rx_addr <$> seq 0 i;
  fl_mem : ∀ j, (j < i)%nat → ∃ b, vn_mem s !! rx_addr j = Some b ∧ Z.of_nat (length b) = MAX_BUFFER_LEN;
}.

Lemma fill_ok k : ∀ i s,
  (i + k = n)%nat → rx_filled i s → vn_top s = rx_addr i → descriptor_stack (vn_rx s) = Z.of_nat <$> seq i k →
  ∃ s', fill_rx k s = (Ok tt, s') ∧ rx_filled n s' ∧ vn_recv_head s' = vn_recv_head s ∧ used_head_index (vn_rx s') = used_head_index (vn_rx s).
Proof.
  induction k as [|k IH]; intros i s Hi Hf Ht Hst; cbn [fill_rx].
  { exists s. replace i with n in * by lia. done. }
  pose proof Hf as [F1 F2 F3 F4 F5 F6 F7 F8 F9]. cbn [seq fmap list_fmap] in Hst.
  assert (Hphys : 0 <= rx_addr i < 2 ^ 63) by (unfold rx_addr; lia).
  destruct (lookup_lt_is_Some_2 (descriptor (vn_rx s)) i) as [d0 Hd0]; [lia|].
  destruct (send_one (mk_buffer (rx_addr i) 65535 2) (vn_rx s) (Z.of_nat i) (Z.of_nat <$> seq (S i) k) d0) as (q' & E & Dq & Aq & Hq & Sq & Zq & Uq & Vq);
    [done|by unfold entry; rewrite Nat2Z.id|lia|unfold u_range; change (2 ^ 16) with 65536; lia|lia|lia|].
  set (s1 := mk_vnet (vn_mac s) q' (vn_rx_buffers s ++ [rx_addr i]) (vn_tx s) (vn_recv_head s) (<[rx_addr i := replicate (Z.to_nat MAX_BUFFER_LEN) 0]> (vn_mem s)) (rx_addr (S i)) (vn_dev s)).
  assert (E1 : vnet_rx_buffer s = (Ok tt, s1)).
  { unfold vnet_rx_buffer, mbind, prog_bind. erewrite bind_Ok by reflexivity. erewrite bind_Ok by reflexivity.
    rewrite Ht. change (build _) with (Some [mk_buffer (rx_addr i) 65535 2]). erewrite bind_Ok by reflexivity.
    erewrite bind_Ok; [|unfold on_rx; cbn [vn_rx set_memory]; rewrite E; reflexivity]. unfold s1, set_rx, set_memory. cbn [vn_mac vn_rx vn_rx_buffers vn_tx vn_recv_head vn_mem vn_top vn_dev].
    rewrite length_replicate, Z2Nat.id by done. change (4096 * (1 + MAX_BUFFER_LEN / 4096)) with 65536. replace (rx_addr i + 65536) with (rx_addr (S i)) by (unfold rx_addr; lia). reflexivity. }
  rewrite F7 in Aq, Hq. rewrite Nat2Z.id, F1, Nat.mod_small in Aq by lia. unfold as_u16 in Hq. rewrite as_u_id in Hq by (unfold u_range; change (2 ^ 16) with 65536; lia).
  cbn [b_buffer b_size b_flags] in Dq. unfold as_u64, as_u32 in Dq. rewrite !as_u_id in Dq by (unfold u_range; lia). rewrite Nat2Z.id in Dq.
  destruct (IH (S i) s1) as (s' & E' & Hf' & Hr' & Hu'); [lia| |done|done|].
  2:{ exists s'. unfold mbind, prog_bind. rewrite (bind_Ok _ _ _ _ _ E1). split; [done|]. split; [done|]. split; [done|]. rewrite Hu'. exact Uq. }
  split; cbn [vn_rx vn_rx_buffers vn_mem s1].
  - congruence.
  - rewrite Dq, length_insert. done.
  - rewrite Aq, length_insert. done.
  - congruence.
  - intros j Hj. rewrite Dq. destruct (decide (j = i)) as [->|]; [apply list_lookup_insert_eq; lia|]. rewrite list_lookup_insert_ne by lia. apply F5. lia.
  - intros j Hj. rewrite Aq. destruct (decide (j = i)) as [->|]; [apply list_lookup_insert_eq; lia|]. rewrite list_lookup_insert_ne by lia. apply F6. lia.
  - rewrite Hq. lia.
  - rewrite F8, seq_S, fmap_app. done.
  - intros j Hj. destruct (decide (j = i)) as [->|]; [exists (replicate (Z.to_nat MAX_BUFFER_LEN) 0); split; [by rewrite lookup_insert, decide_True|rewrite length_replicate; by apply Z2Nat.id]|].
    rewrite lookup_insert_ne by (unfold rx_addr; lia). apply F9. lia.
Qed.

Lemma vnet_new_ok index mac tx dev :
  ∃ s, vnet_new mac (queue_new index n) tx ∅ base dev = (Ok tt, s) ∧ rx_filled n s ∧ vn_recv_head s = 0 ∧ used_head_index (vn_rx s) = 0.
Proof.
  unfold vnet_new. set (s0 := mk_vnet _ _ _ _ _ _ _ _). replace (length (descriptor (queue_new index n))) with n by (cbn; by rewrite length_replicate).
  destruct (queue_new_ok index n ltac:(lia)) as [_ Hd Ha Hu Ho _].
  destruct (fill_ok n 0 s0 ltac:(lia)) as (s & E & Hf & Hr & Hu'); [|unfold rx_addr; cbn; lia| |by exists s].
  - split; try done; intros j Hj; lia.
  - cbn. unfold all_descriptors, as_u16. rewrite as_u_id by (unfold u_range; change (2 ^ 16) with 65536; lia). by rewrite Nat2Z.id.
Qed.

(** ** Receiving *)

(** [k] packets were stored, and [box] is the last one if it was not read. *)
Record rx_state (k : nat) (box : option (list Z)) (s : VirtioNet H) : Prop := {
  rs_filled : rx_filled n s;
  rs_count : (k <= n)%nat;
  rs_head : used_head_index (vn_rx s) = Z.of_nat k;
  rs_box : match box with
           | None => vn_recv_head s = Z.of_nat k
           | Some p => (0 < k)%nat ∧ vn_recv_head s ≠ Z.of_nat k ∧ used_elements (vn_rx s) !! (k - 1)%nat = Some (Z.of_nat (k - 1), HEADER_SIZE + Z.of_nat (length p)) ∧
               ∃ b, vn_mem s !! rx_addr (k - 1) = Some b ∧ Z.of_nat (length b) = MAX_BUFFER_LEN ∧ HEADER_SIZE + Z.of_nat (length p) <= MAX_BUFFER_LEN ∧
                 slice (Z.to_nat HEADER_SIZE) (length p) b = p
           end;
  rs_recv : vn_recv_head s ≠ Z.of_nat k → vn_recv_head s < Z.of_nat k;
  rs_recv_le : vn_recv_head s <= Z.of_nat k;
}.

Lemma length_vheader h : length (vheader_bytes h) = 12%nat.
Proof. unfold vheader_bytes. by rewrite !length_app, !length_le_bytes. Qed.

Lemma deliver_ok k box s p :
  rx_state k box s → HEADER_SIZE + Z.of_nat (length p) <= MAX_BUFFER_LEN →
  if decide (k < n)%nat then ∃ s', rx_deliver p s (Z.of_nat k) = (s', Z.of_nat (S k)) ∧ rx_state (S k) (Some p) s'
  else rx_deliver p s (Z.of_nat k) = (s, Z.of_nat k).
Proof.
  intros [Hf Hk Hh Hb Hr Hle] Hlen. pose proof Hf as [F1 F2 F3 F4 F5 F6 F7 F8 F9]. unfold rx_deliver. rewrite F7.
  destruct (decide (k < n)%nat) as [Hlt|Hge]; [|rewrite (proj2 (Z.eqb_eq _ _)) by lia; done].
  rewrite (proj2 (Z.eqb_neq _ _)) by lia. rewrite Nat2Z.id, F1, Nat.mod_small by lia. rewrite (F6 k Hlt). cbn [mbind option_bind]. unfold entry. rewrite Nat2Z.id, (F5 k Hlt). cbn [mbind option_bind d_address d_size].
  destruct (F9 k Hlt) as (b & Hmem & Hbl). rewrite Hmem. cbn [mbind option_bind].
  assert (Hdl : Z.of_nat (length (vheader_bytes vheader_zero ++ p)) = HEADER_SIZE + Z.of_nat (length p)) by (rewrite length_app, length_vheader; unfold HEADER_SIZE; lia).
  change 65535 with MAX_BUFFER_LEN. rewrite Hdl, (proj2 (Z.leb_le _ _)) by done. eexists. split.
  { f_equal. unfold as_u16. rewrite as_u_id by (unfold u_range; change (2 ^ 16) with 65536; lia). lia. }
  assert (Hsl : slice (Z.to_nat HEADER_SIZE) (length p) (splice 0 (vheader_bytes vheader_zero ++ p) b) = p).
  { unfold splice, slice. rewrite take_0, app_nil_l. change (Z.to_nat HEADER_SIZE) with 12%nat. rewrite <- app_assoc, drop_app_length' by (by rewrite length_vheader). by apply take_app_length. }
  assert (Hspl : Z.of_nat (length (splice 0 (vheader_bytes vheader_zero ++ p) b)) = MAX_BUFFER_LEN) by (rewrite length_splice; [done|lia]).
  cbn [d_address]. split; cbn [vn_rx vn_recv_head vn_mem vn_rx_buffers].
  - split; cbn [vn_rx vn_mem vn_rx_buffers device_complete set_used queue_size descriptor avail_elements avail_head used_elements]; try done.
    + by rewrite length_insert.
    + intros j Hj. destruct (decide (j = k)) as [->|Hne]; [eexists; split; [by rewrite lookup_insert, decide_True|done]|].
      rewrite lookup_insert_ne; [by apply F9|]. unfold rx_addr. cbn [d_address]. intros Ex. apply Hne. lia.
  - lia.
  - cbn [used_head_index device_complete set_used]. rewrite Hh. unfold as_u16. rewrite as_u_id by (unfold u_range; change (2 ^ 16) with 65536; lia). lia.
  - split; [lia|]. split; [lia|]. replace (S k - 1)%nat with k by lia. cbn [used_elements device_complete set_used]. rewrite Hh, Nat2Z.id, F1, Nat.mod_small by lia. split; [apply list_lookup_insert_eq; lia|].
    eexists. split; [by rewrite lookup_insert, decide_True|]. done.
  - lia.
  - lia.
Qed.

(** A packet that does not fit is dropped. *)
Lemma deliver_large k box s p :
  rx_state k box s → MAX_BUFFER_LEN < HEADER_SIZE + Z.of_nat (length p) → rx_deliver p s (Z.of_nat k) = (s, Z.of_nat k).
Proof.
  intros [Hf Hk _ _ _ _] Hlen. pose proof Hf as [F1 F2 F3 F4 F5 F6 F7 F8 F9]. unfold rx_deliver. rewrite F7.
  destruct (Z.eqb_spec (Z.of_nat n) (Z.of_nat k)); [done|]. assert (k < n)%nat as Hlt by lia.
  rewrite Nat2Z.id, F1, Nat.mod_small by lia. rewrite (F6 k Hlt). cbn [mbind option_bind]. unfold entry. rewrite Nat2Z.id, (F5 k Hlt). cbn [mbind option_bind d_address d_size].
  destruct (F9 k Hlt) as (b & Hmem & Hbl). rewrite Hmem. cbn [mbind option_bind]. rewrite length_app, length_vheader.
  cbn [d_size]. unfold HEADER_SIZE, MAX_BUFFER_LEN in Hlen. rewrite (proj2 (Z.leb_gt _ _)) by lia. done.
Qed.

(** The packet in the box, found by [try_recv]. *)
Lemma recv_packet k p s len :
  rx_state k (Some p) s →
  ∃ s1, try_recv len s = (if (len <? length p)%nat then (Panic, s1) else (Ok p, s1)) ∧ ((length p <= len)%nat → rx_state k None s1).
Proof.
  intros [Hf Hk Hh Hb Hr Hle]. pose proof Hf as [F1 F2 F3 F4 F5 F6 F7 F8 F9].
  destruct Hb as (H0 & Hne & Hel & b & Hmem & Hbl & Hpl & Hsl). unfold HEADER_SIZE, MAX_BUFFER_LEN in Hpl, Hbl.
  set (s' := mk_vnet (vn_mac s) (vn_rx s) (vn_rx_buffers s) (vn_tx s) (Z.of_nat k) (vn_mem s) (vn_top s) (vn_dev s)).
  exists (if (len <? length p)%nat then set_rx (vn_rx s) s else s'). unfold try_recv, mbind, prog_bind.
  do 2 (erewrite bind_Ok by reflexivity). rewrite Hh, (proj2 (Z.eqb_neq _ _)) by done.
  erewrite bind_Ok.
  2:{ unfold on_rx, used_at, mbind, prog_bind. do 2 (erewrite bind_Ok by reflexivity). rewrite F1, decide_False by lia.
      unfold as_usize. rewrite as_u_id by (unfold u_range; lia). replace (Z.to_nat (Z.of_nat k - 1) mod n)%nat with (k - 1)%nat by (rewrite Nat.mod_small; lia).
      rewrite Hel. reflexivity. }
  cbv beta iota. erewrite bind_Ok by reflexivity. cbn [vn_rx_buffers set_rx]. rewrite F8, Nat2Z.id, list_lookup_fmap, lookup_seq_lt by lia. cbn [fmap option_fmap option_map Nat.add].
  erewrite bind_Ok by reflexivity. erewrite bind_Ok by reflexivity. cbn [vn_mem set_rx]. rewrite Hmem. erewrite bind_Ok by reflexivity.
  replace (HEADER_SIZE + Z.of_nat (length p) - HEADER_SIZE) with (Z.of_nat (length p)) by lia. unfold as_usize. rewrite as_u_id by (unfold u_range; lia).
  unfold HEADER_SIZE in *. rewrite (proj2 (Z.leb_gt _ _)) by lia. rewrite (proj2 (Z.ltb_ge (Z.of_nat (length b)) _)) by lia. cbn [orb].
  destruct (Nat.ltb_spec len (length p)) as [Hlt|Hge].
  - rewrite (proj2 (Z.ltb_lt _ _)) by lia. split; [done|lia].
  - rewrite (proj2 (Z.ltb_ge _ _)) by lia. erewrite bind_Ok by reflexivity. rewrite Nat2Z.id, Hsl. split.
    + cbn [set_rx vn_mac vn_rx vn_rx_buffers vn_tx vn_mem vn_top vn_dev]. unfold s'. by rewrite <- Hh.
    + intros _. split; try done; cbn; lia.
Qed.

Lemma recv_nothing k s len : rx_state k None s → vnet_read_packet len s = (Ok None, s).
Proof.
  intros [_ _ Hh Hb _ _]. unfold vnet_read_packet, mbind, prog_bind. rewrite (bind_Ok _ _ _ [] s); [reflexivity|].
  unfold try_recv, mbind, prog_bind. do 2 (erewrite bind_Ok by reflexivity). by rewrite Hh, Hb, Z.eqb_refl.
Qed.

Lemma events_ok es : ∀ k box s, rx_state k box s → net_events es (Z.of_nat k) s = mailbox es (n - k) box.
Proof.
  induction es as [|e es IH]; intros k box s Hs; [done|]. destruct e as [p|len]; cbn [net_events mailbox].
  - destruct (Z.leb_spec (HEADER_SIZE + Z.of_nat (length p)) MAX_BUFFER_LEN) as [Hp|Hp].
    + pose proof (deliver_ok k box s p Hs Hp) as Hd. destruct (decide (k < n)%nat) as [Hlt|Hge].
      * destruct Hd as (s' & -> & Hs'). rewrite (IH _ _ _ Hs'). replace (n - k)%nat with (S (n - S k)) by lia. done.
      * rewrite Hd, (IH _ _ _ Hs). replace (n - k)%nat with 0%nat by lia. done.
    + rewrite (deliver_large k box s p Hs) by lia. rewrite (IH _ _ _ Hs). by destruct (n - k)%nat.
  - destruct box as [p|].
    + destruct (recv_packet k p s len Hs) as (s1 & E & Hs1). unfold vnet_read_packet, mbind, prog_bind, p_bind. rewrite E.
      destruct (Nat.ltb_spec len (length p)) as [Hlt|Hge]; [done|]. cbn [mret prog_ret p_ret]. by rewrite (IH _ _ _ (Hs1 Hge)).
    + rewrite (recv_nothing k s len Hs). by rewrite (IH _ _ _ Hs).
Qed.

End receive.

(** C37. What virtio-netd receives.  From the start of the driver on a queue of [n] descriptors, for
    any sequence of arriving packets and reads, the reads return exactly what a box for one packet
    returns ([mailbox]): a packet that was not read is replaced by the next one, and after [n]
    packets the device has no buffer left, since none is ever given back, and every later packet is
    lost.  A read with a buffer that is smaller than the packet in the box panics the daemon. *)
Theorem vnet_mailbox {H : Type} `{HT : NetTx H} base n index mac tx (dev : H) es :
  0 <= base → base + 65536 * Z.of_nat n < 2 ^ 63 → (0 < n)%nat ∧ Z.of_nat n <= 32768 →
  ∃ s, vnet_new mac (queue_new index n) tx ∅ base dev = (Ok tt, s) ∧ net_events es 0 s = mailbox es n None.
Proof.
  intros Hb Ht Hn. destruct (vnet_new_ok base n Hb Ht Hn index mac tx dev) as (s & E & Hf & Hr & Hu). exists s. split; [done|].
  replace (mailbox es n None) with (mailbox es (n - 0) None) by (by rewrite Nat.sub_0_r). apply (events_ok base n Hb Ht Hn es 0 None s).
  split; [done|lia|done|done| |]; rewrite Hr; lia.
Qed.

#[export] Instance no_tx : NetTx unit := { nt_run q m d := (q, d) }.

(** Two packets between two reads: the first is lost.  With two descriptors the third packet that
    arrives is lost as well. *)
Lemma vnet_mailbox_witness :
  ∃ s, vnet_new [2; 0; 0; 0; 0; 1] (queue_new 0 2) (queue_new 1 2) ∅ 0x100000 tt = (Ok tt, s) ∧
    net_events [NeArrive [1; 1]; NeArrive [2]; NeRead 1500; NeArrive [3]; NeRead 1500] 0 s = Ok [Some [2]; None].
Proof.
  apply (vnet_mailbox 0x100000 2 0 [2; 0; 0; 0; 0; 1] (queue_new 1 2) tt [NeArrive [1; 1]; NeArrive [2]; NeRead 1500; NeArrive [3]; NeRead 1500]); lia.
Defined.

(** ** Transmitting *)

(** A device that takes each chain of a header and a packet when it runs, and sends the packet. *)
Record TxDev := mk_txdev { td_sent : list (list Z); td_seen : Z }.

Definition tx_run (q : Queue) (m : gmap Z (list Z)) (d : TxDev) : Queue * TxDev :=
  if avail_head q =? td_seen d then (q, d)
  else
    match first ← avail_elements q !! (Z.to_nat (td_seen d) mod queue_size q)%nat; hd ← entry (descriptor q) first; pk ← entry (descriptor q) (d_next hd);
          p ← m !! d_address pk; Some (first, hd, pk, p) with
    | Some (first, hd, pk, p) =>
        if has_next hd && negb (has_next pk) && (d_size hd =? HEADER_SIZE) && (d_size pk =? Z.of_nat (length p)) then
          (device_complete first 0 q, mk_txdev (td_sent d ++ [p]) (as_u16 (td_seen d + 1)))
        else (q, d)
    | None => (q, d)
    end.

#[export] Instance tx_device : NetTx TxDev := { nt_run := tx_run }.

(** Between two calls nothing is in flight. *)
Record tx_idle (s : VirtioNet TxDev) : Prop := {
  ti_ok : queue_ok (vn_tx s) [];
  ti_size : (2 <= queue_size (vn_tx s))%nat;
  ti_used : used_head_index (vn_tx s) = used_head (vn_tx s);
  ti_range : u_range 16 (used_head (vn_tx s));
  ti_seen : avail_head (vn_tx s) = td_seen (vn_dev s);
  ti_seen_range : u_range 16 (td_seen (vn_dev s));
  ti_top : 0 <= vn_top s < 2 ^ 62;
}.

Lemma u16_next x : u_range 16 x → as_u16 (x + 1) ≠ x.
Proof.
  unfold u_range, as_u16, as_u. change (2 ^ 16) with 65536. intros Hx. destruct (decide (x = 65535)) as [->|]; [done|]. rewrite Z.mod_small by lia. lia.
Qed.

(** A packet that is written is sent, whole and once, and the queue is as it was. *)
Theorem vnet_transmit (s : VirtioNet TxDev) packet fuel :
  tx_idle s → (2 <= fuel)%nat → Z.of_nat (length packet) < 2 ^ 32 →
  ∃ s', vnet_write_packet fuel packet s = (Ok (Z.of_nat (length packet)), s') ∧ tx_idle s' ∧ td_sent (vn_dev s') = td_sent (vn_dev s) ++ [packet].
Proof.
  intros [Hok Hsz Hu Hr Hs Hsr Ht] Hf Hlen. destruct s as [mac rxq bufs q rh m top [sent seen]]. cbn [vn_tx vn_top vn_dev td_seen td_sent] in *.
  set (ph := top). set (pp := top + 4096). set (b1 := mk_buffer ph 12 1). set (b2 := mk_buffer pp (Z.of_nat (length packet)) 0).
  assert (Hchain : build (chain (buffer_new_unsized pp 1 (Z.of_nat (length packet))) (chain (buffer_new ph HEADER_SIZE) chain_new)) = Some [b1; b2]).
  { unfold buffer_new_unsized. rewrite Z.mul_1_l. unfold as_usize. rewrite as_u_id by (unfold u_range; lia). reflexivity. }
  destruct (ids_perm_facts _ _ _ (ok_owned _ _ Hok)) as (_ & _ & Hcnt). cbn in Hcnt.
  destruct (send_ok [b1; b2] q [] Hok) as (q1 & first & ids & E1 & Eids & Hhd & Hok1 & Hdesc & _ & Hav1 & Hel1 & _ & Huh1 & Hui1 & Hue1 & Hqs1); [done|cbn; lia|].
  destruct ids as [|i [|j [|? ids]]]; try (cbn in Hdesc; naive_solver). injection Hhd as ->.
  destruct Hdesc as ((d1 & D1 & A1 & S1 & G1 & N1) & (d2 & D2 & A2 & S2 & G2 & _) & _). cbn [b_buffer b_size b_flags b1 b2] in *.
  unfold as_u64, as_u32 in *. rewrite as_u_id in A2, S1, S2 by (unfold u_range, pp, ph; lia).
  set (mem := <[pp := packet]> (<[ph := vheader_bytes vheader_zero]> m)). set (top2 := pp + 4096 * (1 + Z.of_nat (length packet) / 4096)).
  assert (Hu1 : used_head_index q1 = used_head q1) by congruence.
  pose proof (poll_pending first q1 [[first; j]] Hok1 (or_introl Hu1)) as Hpend. set (q2 := set_waker ({[first]} ∪ waker q1) q1) in *.
  assert (Hrun : tx_run q2 mem (mk_txdev sent seen) = (device_complete first 0 q2, mk_txdev (sent ++ [packet]) (as_u16 (seen + 1)))).
  { unfold tx_run. cbn [td_seen td_sent]. change (avail_head q2) with (avail_head q1). change (avail_elements q2) with (avail_elements q1). change (queue_size q2) with (queue_size q1). change (descriptor q2) with (descriptor q1).
    rewrite Hav1, Hs, (proj2 (Z.eqb_neq _ _)) by (by apply u16_next). rewrite Hel1, Hqs1, Hs. rewrite list_lookup_insert_eq by (rewrite (ok_avail _ _ Hok); apply Nat.mod_upper_bound; lia).
    cbn [mbind option_bind]. rewrite D1. cbn [mbind option_bind]. rewrite N1, D2. cbn [mbind option_bind]. rewrite A2. unfold mem at 1. rewrite lookup_insert, decide_True by done. cbn [mbind option_bind].
    rewrite !has_next_bit, G1, G2, S1, S2, (Z.eqb_refl (Z.of_nat _)). reflexivity. }
  assert (Hok2 : queue_ok q2 [[first; j]]) by (destruct Hok1; by split).
  assert (Hok3 : queue_ok (device_complete first 0 q2) [[first; j]]) by (destruct Hok2; split; try done; cbn; by rewrite length_insert).
  destruct (poll_ready first 0 [first; j] (device_complete first 0 q2) [] Hok3 eq_refl) as (q3 & E3 & Hok4 & _ & Hu3 & Hav3 & _ & Hui3 & _ & Hqs3 & _).
  { cbn. rewrite Hui1, Huh1, Hu. by apply u16_next. }
  { cbn. rewrite Hui1, Hu. replace (Z.to_nat (as_u16 (as_u16 (used_head q + 1) - 1)) mod queue_size q1)%nat with (Z.to_nat (used_head q) mod queue_size q1)%nat.
    - apply list_lookup_insert_eq. rewrite Hue1, Hqs1, (ok_used _ _ Hok). apply Nat.mod_upper_bound. lia.
    - f_equal. f_equal. unfold as_u16, as_u. rewrite Zminus_mod_idemp_l. replace (used_head q + 1 - 1) with (used_head q) by lia. symmetry. by apply Z.mod_small. }
  set (st := λ (q' : Queue) (d : TxDev) (m' : gmap Z (list Z)) (t' : Z), mk_vnet mac rxq bufs q' rh m' t' d).
  exists (st q3 (mk_txdev (sent ++ [packet]) (as_u16 (seen + 1))) (delete ph (delete pp mem)) top). split.
  - unfold vnet_write_packet, mbind, prog_bind. erewrite bind_Ok by reflexivity.
    rewrite (bind_Ok _ _ _ ph (st q (mk_txdev sent seen) (<[ph := vheader_bytes vheader_zero]> m) pp)) by (unfold net_dma; rewrite length_vheader; reflexivity).
    rewrite (bind_Ok _ _ _ pp (st q (mk_txdev sent seen) mem top2)) by reflexivity. rewrite Hchain. erewrite bind_Ok by reflexivity.
    rewrite (bind_Ok _ _ _ first (st q1 (mk_txdev sent seen) mem top2)) by (unfold on_tx, st; cbn [vn_tx]; rewrite E1; reflexivity).
    rewrite (bind_Ok _ _ _ 0 (st q3 (mk_txdev (sent ++ [packet]) (as_u16 (seen + 1))) mem top2)); [reflexivity|].
    destruct fuel as [|[|fuel]]; [lia|lia|]. cbn [net_block_on]. unfold mbind, prog_bind.
    rewrite (bind_Ok _ _ _ None (st q2 (mk_txdev sent seen) mem top2)) by (unfold on_tx, st; cbn [vn_tx]; rewrite Hpend; reflexivity).
    rewrite (bind_Ok _ _ _ tt (st (device_complete first 0 q2) (mk_txdev (sent ++ [packet]) (as_u16 (seen + 1))) mem top2)) by (unfold net_run, st; cbn [vn_tx vn_mem vn_dev nt_run tx_device]; rewrite Hrun; reflexivity).
    rewrite (bind_Ok _ _ _ (Some 0) (st q3 (mk_txdev (sent ++ [packet]) (as_u16 (seen + 1))) mem top2)) by (unfold on_tx, st; cbn [vn_tx]; rewrite E3; reflexivity). reflexivity.
  - split; [|done]. split; cbn [st vn_tx vn_dev vn_top td_seen]; try done.
    + rewrite Hqs3. cbn. lia.
    + congruence.
    + rewrite Hu3. cbn. apply u_range_as_u. lia.
    + rewrite Hav3. cbn. by rewrite Hav1, Hs.
    + apply u_range_as_u. lia.
Qed.
